(* ===== verification/_CoqProject ===== *)
-Q . S2P
Prelude.v
Api.v
MailStore.v
Primitives.v
Engine.v
EngineMail.v
EngineSpec.v
EngineInv.v
MessageIds.v
MailboxProps.v
Sqlite.v
SqliteRefine.v
SqliteEngine.v
SqliteProps.v
Service.v
Daemon.v
Persist.v
RecordLog.v
Ids.v
OutgoingQueue.v
OutgoingQueueProps.v
EventGraph.v
EventGraphProps.v
DagStore.v
DagStoreProps.v
DagServe.v
GraphExample.v
Store.v
StoreProps.v
Json.v
CanonicalJson.v
CanonicalJsonProps.v
Events.v
Relations.v
Timeline.v
TimelineProps.v
RoomState.v
DeviceTracker.v
Migrations.v
MigrationsProps.v
Mcp.v
MegolmRatchet.v
Megolm.v
MegolmProps.v
Olm.v
OlmAccount.v
OlmProps.v
OlmConversation.v
OlmAccountProps.v
AccountState.v
AccountStateProps.v
OlmSessions.v
OlmSessionsProps.v
GroupSessions.v
GroupSessionsProps.v
Codec.v
CryptoExample.v
CryptoWitnesses.v
Wire.v
Core.v
CoreSync.v
CoreLogic.v
CoreSends.v
CoreQueue.v
CoreBooks.v
CoreExample.v
ServerDb.v
ServerKeys.v
ServerKeyOps.v
ServerKeyRoutes.v
ServerDbProps.v
ServerRequests.v
ServerDelivery.v
ServerTrustProps.v
ServerLive.v
ServerRooms.v
ServerRoomOps.v
ServerRoomProps.v
ServerRoomRuns.v
ServerExample.v
