(* ===== verification/Prelude.v ===== *)
(** * mail4agent: a verification library

    mail4agent is a mailbox for coding agents. Its core is a synchronous mailbox engine over a
    storage trait; a daemon serves the engine over HTTP, with SQLite underneath; a messenger
    library adds an end-to-end encrypted Matrix client with its own crash-safe persistence, queue
    of outgoing requests and room timelines; a homeserver keeps federated rooms as graphs of
    signed events. This library models those parts as Rocq functions and step
    relations, one file per part, and proves what makes them correct.

    ** The parts and their files

    - [Prelude] (this file): Rust's [Result] with its early return ([let?], [try?]), strings as
      byte sequences, UTF-8 decoding, machine integers as [Z] with their bounds, sorting, and the
      lemmas on them that the other files share. The hint database [mail] and the tactics
      [boolify] and [inv_ok] serve all files.
    - [Api] (crates/mail4agent-api/src/lib.rs): ids, addresses, messages, acknowledgements,
      session cards, requests and responses, each with its [validate]; the text of an address.
    - [MailStore] (crates/mail4agent-core/src/store.rs): the trait [MailStore] as a type class
      and the implementation [InMemoryStore], a record of maps.
    - [Primitives]: SHA-256 and hex, which the code takes from other crates, as a class with the
      facts the code relies on, and a concrete instance for witnesses.
    - [Engine] (crates/mail4agent-core/src/engine.rs): every method of [MailboxEngine], over any
      [MailStore]. [EngineMail] gives inboxes a reference definition ([mail_of]), [EngineSpec]
      the abstract specification of every state-changing command ([effect]), [EngineInv] the
      invariant of reachable stores ([wf]) and what no command takes back ([persists])
      and a concrete run, [MessageIds] the hashed record behind a message id, [MailboxProps] the
      theorems about the engine with their witnesses.
    - [Sqlite] (crates/mail4agent-store-sqlite/src/store.rs, migrations.rs): every method of
      [SqliteMailStore] over tables as lists of rows; a statement is the list operation it
      denotes, a constraint the condition under which it fails; lemmas on tables that hold a map
      are at its end. [SqliteRefine] has the relation [represents] between tables and
      [InMemoryStore] and what it gives for every query and mutation, [SqliteEngine] the
      simulation of the engine over one store by the engine over the other, [SqliteProps] the
      theorems. The client of the interface is the engine; both stores are instances of it.
    - [Migrations] (db.rs, migrations.rs): opening the database, the migration runner with its
      ledger, and the schema's migrations as statements over a catalogue of tables;
      [MigrationsProps] its theorems.
    - [Service] (src/service.rs): the daemon's facade. A waiting inbox and a send are programs
      with a program counter; [svc_step] interleaves them with everything else, and no wake-up is
      lost. [service_inbox] is the same waiting inbox as one call, told what others do while it is
      parked. [tokio::sync::Notify] is a class with its documented promise.
    - [Daemon] (src/auth.rs, identity.rs, error.rs, dto.rs, routes/mail.rs, routes/admin.rs): how
      a request becomes a caller, the handlers, and the theorems on them. The kernel
      attestation is a parameter. [Mcp] (src/routes/mcp.rs): the same operations as JSON-RPC tools.
    - [Persist] (crates/mail4agent-messenger/src/persist.rs): the flush gate that holds requests
      back until what they depend on is durable.
    - [RecordLog] (persist_log.rs): the framed log, its append with recovery, snapshots and
      replay. The file underneath is an interface whose failures may leave any prefix behind.
    - [Ids] (ids.rs, and the path encoding of wire/requests.rs), [OutgoingQueue]
      (outgoing_queue.rs, with the request shapes of wire/requests.rs and the pending-request methods of store/mod.rs), [OutgoingQueueProps].
    - [Store] (store/mod.rs, store/sealed.rs): the typed working set, its records, and the AES-GCM
      codec behind the interface [RecordCodec]; [StoreProps]: the store, its batches on their way and
      the disk as a step relation with crashes.
    - [Json], [CanonicalJson] (canonical_json.rs), [CanonicalJsonProps]: JSON values, their
      canonical text, signing and verifying objects.
    - [Events] (wire/events.rs), [Relations] (room/relations.rs), [Timeline] (room/timeline.rs),
      [TimelineProps]: a room's rows with their indexes, reactions, edits, redactions and local
      echoes; an index out of range, where the code would panic, is [None].
    - [RoomState] (room/state.rs): a room's current state, members and encryption settings.
      [DeviceTracker] (crypto/device_tracker.rs): whose device lists are tracked, key queries and
      the devices their answers bring; signature checks are a class.
    - [MegolmRatchet], [Megolm] (vendored vodozemac: megolm/, with its keys, ciphers and varints):
      the group ratchet, its messages, session keys, sending and receiving sessions;
      [MegolmProps] their theorems and a concrete session.
    - [Olm] (vodozemac: olm/session/, shared secrets, messages): the double ratchet with its
      chains and stored message keys; [OlmAccount] (olm/account/): one-time and fallback keys,
      pickles, sessions made from them. [OlmProps], [OlmConversation] and [OlmAccountProps] have
      the theorems. Hashes, ciphers, curves and signatures are classes with their laws.
    - [AccountState] (crypto/account.rs), [OlmSessions] (crypto/olm_sessions.rs), [GroupSessions]
      (crypto/group_sessions.rs): the messenger's account, its sessions with other devices and
      the keys of rooms, over the store interfaces [CryptoStore], [AccountStore], [OlmStore] and
      [GroupStore]; [AccountStateProps], [OlmSessionsProps] and [GroupSessionsProps] have
      the theorems. [Codec], [CryptoExample] and [CryptoWitnesses]
      are a concrete world of two devices; [CryptoExample] also shows that the working-set store is
      an instance of every one of those interfaces.
    - [Wire] (wire/requests.rs, wire/sync.rs, wire/events.rs, crypto/cross_signing.rs): the request
      of every endpoint, the parts of a sync answer, the contents the engine reads, and the
      automatic cross-signing keys. [Core] and [CoreSync] (core.rs): [MessengerCore] with every
      method that changes it. A method is a computation of the monad [M], which keeps the state
      also with an error and may panic where a timeline may; [Core] has the state, the counters,
      the send pipeline and account data, [CoreSync] syncs, key requests, commands ([dispatch]),
      answers ([core_on_response]), ticks and [core_open]; [engine_step] is one call of a shell.
      They are written against the interfaces of the components above and [EngineStore].
      [CoreLogic] has what the store promises ([EngineStoreLaws]), the rules that carry a preorder
      on states through a method, and the frame theorems; [CoreQueue] ties the table of unanswered
      edits to the requests in the queue, through every method; [CoreSends] and [CoreBooks] have the
      theorems on what is sent and on the engine's books; [CoreExample] shows that the working-set store
      keeps [EngineStoreLaws] and has a concrete run.
    - [EventGraph] (crates/m4a-matrix-core: dag.rs, resolve.rs, pdu.rs, signer.rs): a room as a
      graph of signed events, accepting live, historic and local events, auth chains and their
      verification; the rules of Matrix (ruma) are a class. [EventGraphProps] has its theorems.
      [DagStore] (mail4agent-server: f3.rs, dag_schema.rs, http/federation.rs): the graph in
      SQLite tables and what a peer server is served; [DagStoreProps] the refinement of the graph
      by the tables, [DagServe] the theorems on what is served, [GraphExample] a concrete room.
    - [ServerDb] (crates/mail4agent-server: store.rs, fed_rooms.rs, fed_edus.rs, error.rs): the
      homeserver's tables as far as keys and devices need them. [ServerKeys] (keys.rs) has every
      operation on devices, keys, messages to devices, signatures and backups; [ServerKeyOps]
      (key_ops.rs) what the requests do with them; [ServerKeyRoutes] (sync_token.rs, sync.rs,
      http/keys.rs, http/fed_net.rs) tokens, the handlers and the part of a sync that reads these
      tables. [ServerDbProps] has the invariant [db_ok] and the hint database [server],
      [ServerRequests] the requests as one type with [serve], [ServerDelivery] and
      [ServerTrustProps] the theorems.
    - [ServerLive] (live.rs, typing.rs): how a write wakes the syncs that wait for it, as a step
      relation; who is typing.
    - [ServerRooms] (store.rs, public_channels.rs, f3.rs): the statements on rooms, their state and
      timelines, over the interface [RoomDag] of the event graph. [ServerRoomOps] (rooms.rs,
      messaging.rs, spaces.rs, ephemeral.rs, http/rooms.rs, http/messaging.rs,
      http/ephemeral.rs): the decisions and the client handlers, with [serve_room] over all
      requests that change a room. [ServerRoomProps] has the invariant [rooms_ok] and what each
      kind of write leaves of it, [ServerRoomRuns] the theorems on requests and runs.
    - [ServerExample]: a concrete server on which the theorems are applied, and runs that the
      documentation rules out.

    ** What the theorems show

    Engine: it implements its abstract contract exactly, refusals included; every reachable store
    is well formed; mail, acknowledgements and idempotency slots are never lost; keyed resends and
    repeated acknowledgements are idempotent; an inbox is exactly the reader's mail, in order,
    agrees with [message_get], shows a sent message to each of its readers and never a sibling
    session's or a left room's mail; sessions are never taken over; authentication and rotation
    are exact; a listener URL is loopback; an address's text is lossless.

    SQLite: every run of storable commands is answered as by the abstract store, queries answer
    alike, an inserted message reads back. The assumption that a send's message id is not on file
    is needed: [same_millisecond_retry_fails] shows what the code does without it.

    Migrations: a run is all or nothing and repeatable, upgrading in steps gives the database of a
    fresh install, and a version 1 mailbox reads back unchanged after the upgrade.

    Daemon: the MCP tools and the HTTP routes do the same for the same request; mail is sent as
    the attested session of the authenticated account, an unidentified caller runs nothing, the
    operator gate is exact, a session id names one process, a waiting reader never sleeps through
    a send, notifications stay on the local machine.

    Messenger: a request is released exactly when the state it was sealed over is durable; a log
    torn at any byte replays to its complete batches, appends never damage earlier ones, a
    snapshot is faithful; the outgoing queue keeps its lanes exclusive, hands out only what may
    go and all that may, never alters a request, reloads in order, and bounds its backoff. A
    crash at any time loses exactly what was saved after the last batch that reached the disk; a
    sealed record opens exactly to what was sealed for its key; a peer has at most ten Olm
    sessions. Canonical JSON identifies a value, agrees with a plain reference writer, and a
    signed object verifies without disturbing other signatures. The timeline never panics, late
    targets catch up with what was received before them, and aggregated relations do not depend
    on arrival order. A room's encryption, once set, is never changed; the answer to a key query
    rewrites exactly the lists of the users it names, with self-signed devices only.

    Messenger engine: a message to a room that is encrypted leaves the device only as the event a
    group session made of it; the guard of every kind of account data counts exactly the requests
    in the queue that write it, over runs that use fewer than 2^32 ids; a sync never overwrites such an
    edit, moves the sync token only when all of it was taken in, and is asked for once at a time;
    after a restart every stored request but a sync waits again, no id that still waits is minted
    again and the edits that wait are counted again.

    Encryption: the group ratchet's fast advance is the iterated one; a receiving Olm chain
    decrypts exactly the messages of its window, each once; two sessions exchange messages without
    end, whatever the order; an account stays consistent through its pickles and restarts, and a
    one-time key makes one session. Between devices, what is decrypted is bound to a known device
    of the sender, first contact works from a claimed key on, and a conversation goes on over
    saves and loads. A room key goes to exactly the devices that may have it, everyone who got it
    reads the room's events, and no event is accepted under another's ciphertext.

    Event graph: the extremities are exactly the heads; the SQLite tables refine the graph; a
    local event joins all branches; auth chains are computed exactly, whatever the graph, and a
    verified chain is closed; what is served to a peer are exactly the missing events and chains.

    Homeserver: its tables stay in order and no key request fails inside; a device that keeps
    syncing gets what is sent to it once each and in order, and all of it; one-time keys are
    neither lost nor handed out twice by claims; changed keys reach every peer's next incremental sync; keys
    and messages cross between users that share a room only; a deleted device leaves nothing;
    cross-signing uploads are verified or change nothing; backups read back. A change of who is
    typing is seen by the next read, and a waiting sync misses no wake. Its rooms stay consistent
    under any run of requests of known accounts: the member rows say what the room's state says,
    and the timeline of a room created encrypted holds no plaintext. A membership changes only by whom the
    rules allow, nobody's power grows beyond that of those who act, a member who pages backwards
    reads every event once, and a repeated send is answered with the first event.

    ** Conventions

    A method that takes the receiver mutably returns the new state with its [result]. Integers
    are [Z] with bounds stated where overflow matters; the unread counter and the queue's casts
    wrap as the code's do. The clock and random bytes are arguments. Two assumptions on randomness
    are explicit ([randomness_ok]): a fresh secret's digest is unused, and a derived message id
    does not name a different message. The messenger engine draws from [Entropy], indexed by the
    number of draws before. Recursion is structural except for [replay_loop] and
    [char_slices], whose fuel is the length of the input: every round consumes at least one byte,
    and [replay_total] proves that it never runs out, and for the loops of the event graph
    ([auth_chain_loop], [walk_loop], [chain_loop]), whose fuel the theorems on them show to be
    enough, and for [skip_loop], [encoded_space_loop], [var_int_loop], [chunks_loop] and
    [trim_prefixes]: their fuel is the largest gap a chain accepts, the bytes a 64-bit number
    takes, or the length of what they consume. The order of a hash map's iteration is not
    fixed and no theorem depends on it.

    ** Not modelled

    JSON text parsing and the derived (de)serialisers, which are parameters; HTTP framing; the
    SQLite engine below the statements (types, disk errors, locks; in [Migrations] the failures
    are arguments); a panicking task; the JSON-RPC framing of MCP; process start-up; of the messenger
    highlights, the read accessors of the engine that answer a field, and [open_sealed], which names the codec;
    of vodozemac encrypted pickles, SAS, ECIES
    and session version 2, which is switched off; of the event graph users, timeline projection,
    snapshots and historic import; of the homeserver names, aliases and room upgrade (a user's
    label is a parameter), the rooms part of a sync, media, login, the claim limiter (it counts
    in floating point) and the federation transport; the shell, the agent, edge and product
    crates. *)

From stdpp Require Export base gmap strings list sorting fin_maps pretty.
From Stdlib Require Export ZArith Lia.
From Stdlib Require Import Ascii.

#[export] Set Warnings "-clear-no-such-hyp".

Declare Scope mail_scope.
Delimit Scope mail_scope with mail.
Open Scope mail_scope.
Local Open Scope Z_scope.

(** ** Rust's [Result] *)

Inductive result (A E : Type) : Type :=
| Ok (a : A)
| Err (e : E).
Arguments Ok {A E} a.
Arguments Err {A E} e.

(** Early return with [?] in a function that has no state to hand back. *)
Notation "'let?' x ':=' e 'in' k" :=
  (match e with Ok x => k | Err err => Err err end)
  (at level 10, x pattern, e at level 100, k at level 200,
   format "'[v' 'let?'  x  ':='  e  'in' '/' k ']'") : mail_scope.

(** Early return with [?] in a method on [&mut self]: the state at that point is
    what the caller is left with. *)
Notation "'try?' x ':=' e 'on' s 'in' k" :=
  (match e with Ok x => k | Err err => (s, Err err) end)
  (at level 10, x pattern, e at level 100, s at level 100, k at level 200,
   format "'[v' 'try?'  x  ':='  e  'on'  s  'in' '/' k ']'") : mail_scope.

Definition map_err {A E F} (f : E → F) (r : result A E) : result A F :=
  match r with Ok a => Ok a | Err e => Err (f e) end.

Definition result_map {A B E} (f : A → B) (r : result A E) : result B E :=
  match r with Ok a => Ok (f a) | Err e => Err e end.

Definition ok_or {A E} (o : option A) (e : E) : result A E :=
  match o with Some a => Ok a | None => Err e end.

Definition is_ok {A E} (r : result A E) : bool :=
  match r with Ok _ => true | Err _ => false end.

Definition is_some {A} (o : option A) : bool :=
  match o with Some _ => true | None => false end.

Definition is_none {A} (o : option A) : bool := negb (is_some o).

(** [for x in xs { f(x)?; }] *)
Fixpoint try_each {A E} (f : A → result unit E) (xs : list A) : result unit E :=
  match xs with
  | [] => Ok tt
  | x :: xs => let? _ := f x in try_each f xs
  end.

(** [xs.into_iter().map(f).collect::<Result<Vec<_>, _>>()] *)
Fixpoint try_map {A B E} (f : A → result B E) (xs : list A) : result (list B) E :=
  match xs with
  | [] => Ok []
  | x :: xs => let? y := f x in let? ys := try_map f xs in Ok (y :: ys)
  end.

(** [if let Some(x) = &o { f(x)?; }] *)
Definition try_opt {A E} (f : A → result unit E) (o : option A) : result unit E :=
  match o with Some a => f a | None => Ok tt end.

#[export] Instance result_eq_dec {A E} `{!EqDecision A, !EqDecision E} :
  EqDecision (result A E).
Proof. solve_decision. Defined.

(** ** Strings

    A Rust [String] is its UTF-8 bytes, so it is a [string] here (a sequence of
    8-bit [ascii]s); [len()] counts bytes, [Ord] compares bytes, and [chars()]
    decodes. *)

Definition slen (s : string) : Z := Z.of_nat (String.length s).

Definition bytes_of (s : string) : list ascii := String.list_ascii_of_string s.

Definition bval (a : ascii) : Z := Z.of_N (N_of_ascii a).

Definition all_bytes (p : ascii → bool) (s : string) : bool := forallb p (bytes_of s).

Definition s_is_empty (s : string) : bool :=
  match s with EmptyString => true | _ => false end.

Definition dquote : string := String "034"%char EmptyString.

Definition quoted (s : string) : string := dquote +:+ s +:+ dquote.

(** [value.strip_prefix(prefix)] *)
Fixpoint strip_prefix (p s : string) : option string :=
  match p, s with
  | EmptyString, _ => Some s
  | String a p, String b s => if Ascii.eqb a b then strip_prefix p s else None
  | String _ _, EmptyString => None
  end.

(** [value.split_once(c)] for an ASCII [c]. *)
Fixpoint split_once (c : ascii) (s : string) : option (string * string) :=
  match s with
  | EmptyString => None
  | String a s =>
      if Ascii.eqb a c then Some (EmptyString, s)
      else match split_once c s with
           | Some (l, r) => Some (String a l, r)
           | None => None
           end
  end.

(** [value.split(p).next().unwrap_or_default()]: everything before the first byte in [p]. *)
Fixpoint before_first (p : ascii → bool) (s : string) : string :=
  match s with
  | EmptyString => EmptyString
  | String a s => if p a then EmptyString else String a (before_first p s)
  end.

Definition s_contains (c : ascii) (s : string) : bool := existsb (Ascii.eqb c) (bytes_of s).

(** [s[..n]] *)
Fixpoint s_take (n : nat) (s : string) : string :=
  match n, s with
  | O, _ => EmptyString
  | S n, EmptyString => EmptyString
  | S n, String a s => String a (s_take n s)
  end.

Fixpoint s_drop (n : nat) (s : string) : string :=
  match n, s with
  | O, _ => s
  | S n, EmptyString => EmptyString
  | S n, String _ s => s_drop n s
  end.

(** [bytes.get(at..end)] *)
Definition s_get (s : string) (at_ end_ : Z) : option string :=
  if (0 <=? at_) && (at_ <=? end_) && (end_ <=? slen s)
  then Some (s_take (Z.to_nat (end_ - at_)) (s_drop (Z.to_nat at_) s))
  else None.

Definition is_ascii_digit (a : ascii) : bool := (48 <=? bval a) && (bval a <=? 57).
Definition is_ascii_lower (a : ascii) : bool := (97 <=? bval a) && (bval a <=? 122).
Definition is_ascii_upper (a : ascii) : bool := (65 <=? bval a) && (bval a <=? 90).
Definition is_ascii_alphanumeric (a : ascii) : bool :=
  is_ascii_digit a || is_ascii_lower a || is_ascii_upper a.
(** [byte.is_ascii_digit() || (b'a'..=b'f').contains(&byte)] *)
Definition is_lower_hex (a : ascii) : bool :=
  is_ascii_digit a || ((97 <=? bval a) && (bval a <=? 102)).

Definition to_ascii_lower (a : ascii) : ascii :=
  if is_ascii_upper a then ascii_of_N (N_of_ascii a + 32) else a.

Fixpoint s_lower (s : string) : string :=
  match s with
  | EmptyString => EmptyString
  | String a s => String (to_ascii_lower a) (s_lower s)
  end.

Definition eq_ignore_ascii_case (s t : string) : bool := bool_decide (s_lower s = s_lower t).

(** *** [chars()]: the UTF-8 decoder. A byte that starts no well-formed sequence
    decodes to U+FFFD on its own; a Rust string has none. *)

Definition is_cont (a : ascii) : bool := (128 <=? bval a) && (bval a <=? 191).

Definition cont_bits (a : ascii) : Z := Z.land (bval a) 63.

Fixpoint chars (s : string) : list Z :=
  match s with
  | EmptyString => []
  | String a s1 =>
      let x := bval a in
      if x <? 128 then x :: chars s1
      else match s1 with
           | String b s2 =>
               if (192 <=? x) && (x <=? 223) && is_cont b
               then Z.lor (Z.shiftl (Z.land x 31) 6) (cont_bits b) :: chars s2
               else match s2 with
                    | String c s3 =>
                        if (224 <=? x) && (x <=? 239) && is_cont b && is_cont c
                        then Z.lor (Z.shiftl (Z.land x 15) 12)
                               (Z.lor (Z.shiftl (cont_bits b) 6) (cont_bits c)) :: chars s3
                        else match s3 with
                             | String d s4 =>
                                 if (240 <=? x) && (x <=? 247) && is_cont b && is_cont c && is_cont d
                                 then Z.lor (Z.shiftl (Z.land x 7) 18)
                                        (Z.lor (Z.shiftl (cont_bits b) 12)
                                           (Z.lor (Z.shiftl (cont_bits c) 6) (cont_bits d))) :: chars s4
                                 else 65533 :: chars s1
                             | EmptyString => 65533 :: chars s1
                             end
                    | EmptyString => 65533 :: chars s1
                    end
           | EmptyString => 65533 :: chars s1
           end
  end.

(** [String::from_utf8(bytes).is_ok()]: the well-formed sequences of the Unicode standard. *)
Fixpoint utf8_valid (s : string) : bool :=
  match s with
  | EmptyString => true
  | String a s1 =>
      let x := bval a in
      if x <? 128 then utf8_valid s1
      else match s1 with
           | String b s2 =>
               if (194 <=? x) && (x <=? 223) then is_cont b && utf8_valid s2
               else match s2 with
                    | String c s3 =>
                        if (224 <=? x) && (x <=? 239)
                        then is_cont b && is_cont c
                             && (if x =? 224 then 160 <=? bval b else true)
                             && (if x =? 237 then bval b <=? 159 else true)
                             && utf8_valid s3
                        else match s3 with
                             | String d s4 =>
                                 (240 <=? x) && (x <=? 244) && is_cont b && is_cont c && is_cont d
                                 && (if x =? 240 then 144 <=? bval b else true)
                                 && (if x =? 244 then bval b <=? 143 else true)
                                 && utf8_valid s4
                             | EmptyString => false
                             end
                    | EmptyString => false
                    end
           | EmptyString => false
           end
  end.

(** [char::is_control]: the Unicode category Cc. *)
Definition is_control (c : Z) : bool := (c <=? 31) || ((127 <=? c) && (c <=? 159)).

(** ** Machine integers *)

Definition u16_max : Z := 65535.
Definition u32_mod : Z := 4294967296.
Definition u64_mod : Z := 18446744073709551616.
Definition i64_max : Z := 9223372036854775807.
Definition i64_min : Z := -9223372036854775808.

(** [n as i64] for a [u64]: two's complement. *)
Definition u64_as_i64 (n : Z) : Z := if n <=? i64_max then n else n - u64_mod.

(** [i64::saturating_add] *)
Definition i64_saturating_add (a b : Z) : Z := Z.max i64_min (Z.min i64_max (a + b)).

(** [i64::try_from(n)] for a [u64]. *)
Definition i64_try_from (n : Z) : option Z := if n <=? i64_max then Some n else None.

(** [u64::try_from(n)] for an [i64]. *)
Definition u64_try_from (n : Z) : option Z := if 0 <=? n then Some n else None.

(** [usize::checked_add] on a 64-bit target. *)
Definition checked_add (a b : Z) : option Z := if a + b <? u64_mod then Some (a + b) else None.

(** [n.to_le_bytes()] over [k] bytes, and back. *)
Fixpoint to_le_bytes (k : nat) (n : Z) : string :=
  match k with
  | O => EmptyString
  | S k => String (ascii_of_N (Z.to_N (n mod 256))) (to_le_bytes k (n / 256))
  end.

Fixpoint from_le_bytes (s : string) : Z :=
  match s with
  | EmptyString => 0
  | String a s => bval a + 256 * from_le_bytes s
  end.

(** ** [BTreeMap]: a [gmap] iterated in the order of its (string) keys *)

Definition key_le {K V} (str : K → string) (a b : K * V) : Prop := String.le (str a.1) (str b.1).

#[export] Instance key_le_dec {K V} (str : K → string) (a b : K * V) : Decision (key_le str a b).
Proof. unfold key_le. apply _. Defined.

Definition btree_entries {K V} `{Countable K} (str : K → string) (m : gmap K V) : list (K * V) :=
  merge_sort (key_le str) (map_to_list m).

(** ** Automation *)

(** Lemmas that discharge side conditions of the components' proofs. *)
Create HintDb mail.

(** Case on the scrutinee of a [match] in a hypothesis that claims an [Ok]. *)
Ltac inv_ok :=
  repeat match goal with
  | H : match ?e with Ok _ => _ | Err _ => _ end = Ok _ |- _ =>
      let E := fresh "E" in destruct e eqn:E; [|discriminate H]; cbn in H
  | H : Ok _ = Ok _ |- _ => injection H as H; subst
  | H : Err _ = Ok _ |- _ => discriminate H
  | H : Ok _ = Err _ |- _ => discriminate H
  | H : (if ?b then _ else _) = Ok _ |- _ =>
      let E := fresh "E" in destruct b eqn:E; try discriminate H
  end.

(** Split conjunctions and disjunctions of booleans into hypotheses. *)
Ltac boolify :=
  repeat match goal with
  | H : _ && _ = true |- _ => apply andb_true_iff in H; destruct H
  | H : _ || _ = false |- _ => apply orb_false_iff in H; destruct H
  | H : negb _ = true |- _ => apply negb_true_iff in H
  | H : negb _ = false |- _ => apply negb_false_iff in H
  | H : bool_decide _ = true |- _ => apply bool_decide_eq_true in H
  | H : bool_decide _ = false |- _ => apply bool_decide_eq_false in H
  | H : (_ <=? _)%Z = true |- _ => apply Z.leb_le in H
  | H : (_ <=? _)%Z = false |- _ => apply Z.leb_gt in H
  | H : (_ <? _)%Z = true |- _ => apply Z.ltb_lt in H
  | H : (_ <? _)%Z = false |- _ => apply Z.ltb_ge in H
  | H : (_ =? _)%Z = true |- _ => apply Z.eqb_eq in H
  | H : (_ =? _)%Z = false |- _ => apply Z.eqb_neq in H
  end.

(** ** Results *)

Section ResultLemmas.
Context {A B E : Type}.

Lemma is_ok_inv (r : result A E) : is_ok r = true → ∃ a, r = Ok a.
Proof. destruct r; [eauto|discriminate]. Qed.

Lemma try_each_ok (f : A → result unit E) xs :
  try_each f xs = Ok tt ↔ Forall (λ x, f x = Ok tt) xs.
Proof.
  induction xs as [|x xs IH]; cbn; [split; auto|].
  rewrite Forall_cons. destruct (f x) as [[]|]; [tauto|].
  split; [discriminate|]. intros [? _]; discriminate.
Qed.

Lemma try_map_ok (f : A → result B E) xs ys :
  try_map f xs = Ok ys ↔ Forall2 (λ x y, f x = Ok y) xs ys.
Proof.
  revert ys; induction xs as [|x xs IH]; intros ys; cbn.
  - split; [intros [= <-]; constructor | by inversion 1].
  - destruct (f x) as [y|e] eqn:Hx.
    + split.
      * intros H; inv_ok. constructor; [done|]. by apply IH.
      * inversion 1 as [|? y' ? ys' Hy Hys]; subst.
        apply IH in Hys. rewrite Hys. by rewrite Hx in Hy; simplify_eq.
    + split; [discriminate|]. inversion 1; congruence.
Qed.

Lemma try_opt_ok (f : A → result unit E) o :
  try_opt f o = Ok tt ↔ ∀ a, o = Some a → f a = Ok tt.
Proof. destruct o; cbn; split; naive_solver. Qed.

Lemma is_some_true (o : option A) : is_some o = true ↔ is_Some o.
Proof. destruct o; cbn; split; intros H; first [done|by eexists|by destruct H]. Qed.
End ResultLemmas.

(** ** Bytes and strings *)

Lemma bval_range a : 0 ≤ bval a < 256.
Proof. unfold bval. pose proof (N_ascii_bounded a). lia. Qed.

Lemma bval_inj a b : bval a = bval b → a = b.
Proof.
  unfold bval. intros H. apply N2Z.inj in H.
  by rewrite <- (ascii_N_embedding a), <- (ascii_N_embedding b), H.
Qed.

Lemma s_app_cons a s t : String a s +:+ t = String a (s +:+ t).
Proof. done. Qed.

Lemma bytes_of_cons a s : bytes_of (String a s) = a :: bytes_of s.
Proof. done. Qed.

Lemma bytes_of_app s t : bytes_of (s +:+ t) = bytes_of s ++ bytes_of t.
Proof. induction s as [|a s IH]; [done|]. by rewrite s_app_cons, !bytes_of_cons, IH. Qed.

Lemma all_bytes_app p s t : all_bytes p (s +:+ t) = all_bytes p s && all_bytes p t.
Proof. unfold all_bytes. by rewrite bytes_of_app, forallb_app. Qed.

Lemma all_bytes_cons p a s : all_bytes p (String a s) = p a && all_bytes p s.
Proof. done. Qed.

Lemma bytes_of_inj s t : bytes_of s = bytes_of t → s = t.
Proof.
  intros H. rewrite <- (String.string_of_list_ascii_of_string s).
  rewrite <- (String.string_of_list_ascii_of_string t). by f_equal.
Qed.

Lemma s_app_nil_l t : EmptyString +:+ t = t.
Proof. done. Qed.

Lemma s_app_nil_r s : s +:+ EmptyString = s.
Proof. induction s as [|a s IH]; [done|]. rewrite s_app_cons. by f_equal. Qed.

Lemma s_app_assoc s t u : (s +:+ t) +:+ u = s +:+ (t +:+ u).
Proof. induction s as [|a s IH]; [done|]. rewrite !s_app_cons. by f_equal. Qed.

Lemma slen_app s t : slen (s +:+ t) = slen s + slen t.
Proof.
  unfold slen. induction s as [|a s IH]; [done|]. rewrite s_app_cons; cbn [String.length]. lia.
Qed.

Lemma strip_prefix_app p s : strip_prefix p (p +:+ s) = Some s.
Proof.
  induction p as [|a p IH]; [by destruct s|]. rewrite s_app_cons; cbn.
  by rewrite Ascii.eqb_refl.
Qed.

Lemma strip_prefix_Some p s r : strip_prefix p s = Some r → s = p +:+ r.
Proof.
  revert s; induction p as [|a p IH]; intros s; [by destruct s; intros [= <-]|].
  destruct s as [|b s]; cbn; [done|]. destruct (Ascii.eqb_spec a b); [|done].
  subst. intros ->%IH. done.
Qed.

(** A byte that a predicate excludes does not occur in a string it accepts. *)
Lemma all_bytes_In p s a : all_bytes p s = true → In a (bytes_of s) → p a = true.
Proof. unfold all_bytes. intros H Ha. rewrite forallb_forall in H. auto. Qed.

Lemma split_once_app c l r :
  all_bytes (λ a, negb (Ascii.eqb a c)) l = true →
  split_once c (l +:+ String c r) = Some (l, r).
Proof.
  induction l as [|a l IH]; cbn [bytes_of]; intros H.
  - rewrite s_app_nil_l; cbn. by rewrite Ascii.eqb_refl.
  - rewrite all_bytes_cons in H. boolify. rewrite s_app_cons; cbn.
    rewrite IH by done. by destruct (Ascii.eqb a c).
Qed.

Lemma split_once_None c s :
  all_bytes (λ a, negb (Ascii.eqb a c)) s = true → split_once c s = None.
Proof.
  induction s as [|a s IH]; [done|]. rewrite all_bytes_cons. intros H; boolify; cbn.
  rewrite IH by done. by destruct (Ascii.eqb a c).
Qed.

Lemma split_once_Some c s l r : split_once c s = Some (l, r) → s = l +:+ String c r.
Proof.
  revert l r; induction s as [|a s IH]; intros l r; cbn; [done|].
  destruct (Ascii.eqb_spec a c); [by intros [= <- <-]; subst|].
  destruct (split_once c s) as [[l' r']|]; [|done]. intros [= <- <-].
  rewrite s_app_cons. f_equal. by apply IH.
Qed.

Lemma all_bytes_impl (p q : ascii → bool) s :
  (∀ a, p a = true → q a = true) → all_bytes p s = true → all_bytes q s = true.
Proof.
  unfold all_bytes. intros Hpq. rewrite !forallb_forall. auto.
Qed.

(** Two strings cut at the first occurrence of a byte absent from both heads. *)
Lemma cut_at_byte c l1 l2 r1 r2 :
  all_bytes (λ a, negb (Ascii.eqb a c)) l1 = true →
  all_bytes (λ a, negb (Ascii.eqb a c)) l2 = true →
  l1 +:+ String c r1 = l2 +:+ String c r2 → l1 = l2 ∧ r1 = r2.
Proof.
  intros H1 H2 Heq.
  pose proof (split_once_app c l1 r1 H1) as E1. rewrite Heq, split_once_app in E1 by done.
  by injection E1.
Qed.

Lemma s_app_inj_len s1 s2 t1 t2 :
  slen s1 = slen s2 → s1 +:+ t1 = s2 +:+ t2 → s1 = s2 ∧ t1 = t2.
Proof.
  unfold slen. revert s2; induction s1 as [|a s1 IH]; intros [|b s2]; cbn [String.length]; intros Hl.
  - done.
  - lia.
  - lia.
  - rewrite !s_app_cons. intros [= -> H]. apply IH in H as [-> ->]; [done|lia].
Qed.

Lemma slen_take n s : (n ≤ String.length s)%nat → slen (s_take n s) = Z.of_nat n.
Proof.
  unfold slen. revert s; induction n as [|n IH]; intros s H; [done|].
  destruct s as [|a s]; cbn in *; [lia|]. specialize (IH s). lia.
Qed.

Lemma all_bytes_take p n s : all_bytes p s = true → all_bytes p (s_take n s) = true.
Proof.
  revert s; induction n as [|n IH]; intros [|a s]; cbn [s_take]; try done.
  rewrite !all_bytes_cons. intros H; boolify. apply andb_true_iff; auto.
Qed.

(** ** Little-endian integers *)

Lemma length_to_le_bytes k n : slen (to_le_bytes k n) = Z.of_nat k.
Proof.
  unfold slen. revert n; induction k as [|k IH]; intros n; cbn; [done|]. specialize (IH (n / 256)). lia.
Qed.

Lemma bval_of_mod n : bval (ascii_of_N (Z.to_N (n mod 256))) = n mod 256.
Proof.
  unfold bval. pose proof (Z.mod_pos_bound n 256). rewrite N_ascii_embedding by lia. lia.
Qed.

Lemma from_to_le_bytes k n :
  0 ≤ n < 256 ^ Z.of_nat k → from_le_bytes (to_le_bytes k n) = n.
Proof.
  revert n; induction k as [|k IH]; intros n Hn.
  - cbn in *. lia.
  - cbn [to_le_bytes from_le_bytes]. rewrite bval_of_mod, IH.
    + pose proof (Z.div_mod n 256). lia.
    + rewrite Nat2Z.inj_succ, Z.pow_succ_r in Hn by lia. split; [apply Z.div_pos; lia|].
      apply Z.div_lt_upper_bound; lia.
Qed.

Lemma to_le_bytes_inj k n m :
  0 ≤ n < 256 ^ Z.of_nat k → 0 ≤ m < 256 ^ Z.of_nat k →
  to_le_bytes k n = to_le_bytes k m → n = m.
Proof.
  intros Hn Hm H. rewrite <- (from_to_le_bytes k n), <- (from_to_le_bytes k m) by done. by rewrite H.
Qed.

(** ** Control characters *)

Lemma is_cont_ge a : is_cont a = true → 128 ≤ bval a.
Proof. unfold is_cont. intros; boolify; lia. Qed.

(** A string whose [chars()] hold no control character other than those a predicate
    lets through has no byte below 32 but those: a continuation byte is never one. *)
Lemma no_control_bytes (allow : Z → bool) s :
  existsb (λ c, is_control c && negb (allow c)) (chars s) = false →
  all_bytes (λ a, (32 <=? bval a) || allow (bval a)) s = true.
Proof.
  remember (String.length s) as n eqn:Hn.
  assert (Hle : (String.length s ≤ n)%nat) by lia. clear Hn.
  revert s Hle; induction n as [|n IH]; intros [|a s1]; cbn [String.length]; try done; try lia.
  intros Hle H. rewrite all_bytes_cons. cbn [chars] in H.
  assert (Hstep : ∀ c l, existsb (λ c, is_control c && negb (allow c)) (c :: chars l) = false →
            (String.length l ≤ n)%nat →
            is_control c && negb (allow c) = false ∧
            all_bytes (λ a, (32 <=? bval a) || allow (bval a)) l = true).
  { intros c l Hcl Hl. cbn in Hcl. apply orb_false_iff in Hcl as [? ?]. auto. }
  destruct (Z.ltb_spec (bval a) 128) as [Hlt|Hge].
  { apply Hstep in H as [Hc ->]; [|lia]. rewrite andb_true_r.
    destruct (Z.leb_spec 32 (bval a)); [done|]. cbn.
    unfold is_control in Hc. destruct (Z.leb_spec (bval a) 31); [|lia]. cbn in Hc. by boolify. }
  assert (H32 : ∀ b, 128 ≤ bval b → (32 <=? bval b) || allow (bval b) = true).
  { intros b Hb. apply orb_true_iff; left. apply Z.leb_le. lia. }
  rewrite H32 by done. cbn.
  repeat match type of H with
  | existsb _ (match ?s with EmptyString => _ | String _ _ => _ end) = false => destruct s; cbn [String.length] in Hle
  | existsb _ (if ?b then _ else _) = false => destruct b eqn:?
  end; apply Hstep in H as [_ H]; cbn [String.length]; try lia; try done;
    boolify; rewrite ?all_bytes_cons; repeat (apply andb_true_iff; split); auto using is_cont_ge.
Qed.

(** ** Sorting

    [slice::sort_by] is a stable sort; on a list whose keys are pairwise different
    the result is the one sorted permutation. *)

Section SortBy.
Context {A : Type} (R : relation A) `{!∀ x y, Decision (R x y), !Transitive R, !Total R}.

Lemma merge_sort_unique l1 l2 :
  (∀ x y, x ∈ l1 → y ∈ l1 → R x y → R y x → x = y) →
  l1 ≡ₚ l2 → merge_sort R l1 = merge_sort R l2.
Proof.
  intros Hanti Hp.
  apply (StronglySorted_unique_strong R).
  - intros x y Hx Hy. rewrite merge_sort_Permutation in Hx. rewrite merge_sort_Permutation in Hy.
    apply Hanti; [done|by rewrite Hp].
  - by apply (StronglySorted_merge_sort R).
  - by apply (StronglySorted_merge_sort R).
  - by rewrite !merge_sort_Permutation.
Qed.
End SortBy.

(** ** Slices *)

Lemma s_drop_app s t : s_drop (String.length s) (s +:+ t) = t.
Proof. induction s as [|a s IH]; [done|]. by rewrite s_app_cons. Qed.

Lemma s_take_app s t : s_take (String.length s) (s +:+ t) = s.
Proof. induction s as [|a s IH]; cbn; [by destruct t|]. rewrite s_app_cons; cbn. by rewrite IH. Qed.

Lemma s_take_drop n s : s_take n s +:+ s_drop n s = s.
Proof.
  revert s; induction n as [|n IH]; intros [|a s]; cbn [s_take s_drop]; try done.
  rewrite s_app_cons. by rewrite IH.
Qed.

(** Reading back a field of a concatenation. *)
Lemma s_get_mid s t u a b :
  a = slen s → b = slen s + slen t → s_get (s +:+ t +:+ u) a b = Some t.
Proof.
  intros -> ->. unfold s_get. rewrite !slen_app.
  assert (0 ≤ slen s ∧ 0 ≤ slen t ∧ 0 ≤ slen u) as (? & ? & ?) by (unfold slen; lia).
  destruct (Z.leb_spec 0 (slen s)); [|lia]. destruct (Z.leb_spec (slen s) (slen s + slen t)); [|lia].
  destruct (Z.leb_spec (slen s + slen t) (slen s + (slen t + slen u))); [|lia]. cbn.
  replace (Z.to_nat (slen s + slen t - slen s)) with (String.length t) by (unfold slen; lia).
  replace (Z.to_nat (slen s)) with (String.length s) by (unfold slen; lia).
  by rewrite s_drop_app, s_take_app.
Qed.

Lemma s_get_beyond s a b : slen s < b → s_get s a b = None.
Proof.
  intros Hb. unfold s_get. destruct (Z.leb_spec b (slen s)); [lia|]. by rewrite andb_false_r.
Qed.

Lemma s_get_Some s a b r :
  s_get s a b = Some r → 0 ≤ a ≤ b ∧ b ≤ slen s ∧ slen r = b - a.
Proof.
  unfold s_get. destruct ((0 <=? a) && (a <=? b) && (b <=? slen s)) eqn:E; [|done]. boolify.
  intros [= <-]. split; [lia|]. split; [lia|]. rewrite slen_take; [lia|].
  pose proof (s_take_drop (Z.to_nat a) s) as Hs. apply (f_equal slen) in Hs. rewrite slen_app in Hs.
  unfold slen in *. assert (String.length (s_take (Z.to_nat a) s) ≤ Z.to_nat a)%nat.
  { clear. revert s; generalize (Z.to_nat a); intros n; induction n as [|n IH]; intros [|x s]; cbn; try lia.
    specialize (IH s). lia. }
  lia.
Qed.

Lemma checked_add_Some a b c : checked_add a b = Some c ↔ c = a + b ∧ a + b < u64_mod.
Proof. unfold checked_add. destruct (Z.ltb_spec (a + b) u64_mod); naive_solver lia. Qed.

(** ** [BTreeMap] iteration *)

Section BTree.
Context {K V : Type} `{Countable K} (str : K → string).

#[export] Instance key_le_trans : Transitive (@key_le K V str).
Proof. intros a b c. unfold key_le. by etrans. Qed.
#[export] Instance key_le_total : Total (@key_le K V str).
Proof. intros a b. unfold key_le. apply (total String.le). Qed.

Lemma btree_entries_perm (m : gmap K V) : btree_entries str m ≡ₚ map_to_list m.
Proof. apply merge_sort_Permutation. Qed.

Lemma elem_of_btree_entries (m : gmap K V) k v : (k, v) ∈ btree_entries str m ↔ m !! k = Some v.
Proof. by rewrite btree_entries_perm, elem_of_map_to_list. Qed.

Lemma btree_entries_NoDup (m : gmap K V) : NoDup (btree_entries str m).*1.
Proof. rewrite btree_entries_perm. apply NoDup_fst_map_to_list. Qed.

Lemma btree_entries_empty (m : gmap K V) : btree_entries str m = [] ↔ m = ∅.
Proof.
  split.
  - intros Hm. apply map_to_list_empty_iff. pose proof (btree_entries_perm m) as Hp. rewrite Hm in Hp.
    by apply Permutation_nil_l in Hp.
  - intros ->. unfold btree_entries. by rewrite map_to_list_empty.
Qed.
End BTree.
