(* ===== verification/Api.v ===== *)
(** * The wire types (crates/mail4agent-api/src/lib.rs)

    Addresses, messages, requests, responses and named refusals of the mailbox, with the
    structural validation every one of them carries. The types are records and variants with
    the source's fields; [T_validate] is the method [T::validate] and [T_new] the checked
    constructor [T::new] that the two id macros generate. The theorems: [Display] and
    [FromStr] of an address are inverse to each other, and what an accepted value guarantees. *)

From S2P Require Import Prelude.
From Stdlib Require Import Ascii.

Local Open Scope Z_scope.

(** ** Bounds *)

Definition MESSAGE_ID_PREFIX : string := "m4a_".
Definition MESSAGE_ID_HEX_LEN : Z := 24.
Definition SELECTOR_MAX_BYTES : Z := 128.
Definition SUBJECT_MAX_BYTES : Z := 512.
Definition BODY_MAX_BYTES : Z := 65536.
Definition REFS_MAX : Z := 8.
Definition REF_LOCATOR_MAX_BYTES : Z := 512.
Definition REF_DIGEST_MAX_CHARS : Z := 128.
Definition INBOX_LIMIT_MAX : Z := 256.
Definition INBOX_LIMIT_DEFAULT : Z := 50.
Definition INBOX_WAIT_SECS_MAX : Z := 60.
Definition SESSION_ID_PREFIX : string := "s-".
Definition SESSION_ID_HEX_MIN_CHARS : Z := 8.
Definition SESSION_ID_HEX_MAX_CHARS : Z := 64.

(** ** Identifiers: newtypes over [String] *)

Record ParticipantId := mkParticipantId { ParticipantId_str : string }.
Record RoomId := mkRoomId { RoomId_str : string }.
Record SessionId := mkSessionId { SessionId_str : string }.
Record MessageId := mkMessageId { MessageId_str : string }.

#[export] Instance ParticipantId_eq_dec : EqDecision ParticipantId.
Proof. solve_decision. Defined.
#[export] Instance RoomId_eq_dec : EqDecision RoomId.
Proof. solve_decision. Defined.
#[export] Instance SessionId_eq_dec : EqDecision SessionId.
Proof. solve_decision. Defined.
#[export] Instance MessageId_eq_dec : EqDecision MessageId.
Proof. solve_decision. Defined.

#[export] Instance ParticipantId_countable : Countable ParticipantId.
Proof. by apply (inj_countable' ParticipantId_str mkParticipantId); intros []. Defined.
#[export] Instance RoomId_countable : Countable RoomId.
Proof. by apply (inj_countable' RoomId_str mkRoomId); intros []. Defined.
#[export] Instance SessionId_countable : Countable SessionId.
Proof. by apply (inj_countable' SessionId_str mkSessionId); intros []. Defined.
#[export] Instance MessageId_countable : Countable MessageId.
Proof. by apply (inj_countable' MessageId_str mkMessageId); intros []. Defined.

(** ** Named refusals *)

Inductive MailError :=
| UnknownParticipant (participant : ParticipantId)
| UnknownRoom (room : RoomId)
| UnknownSession (session : SessionId)
| SessionAccountMismatch (session : SessionId) (expected presented : ParticipantId)
| UnknownMessage (message_id : MessageId)
| NotAddressedToYou (message_id : MessageId)
| PermissionDenied (need : string)
| Malformed (field reason : string)
| TooLarge (field : string) (limit actual : Z)
| StoreUnavailable (operation : string).

#[export] Instance MailError_eq_dec : EqDecision MailError.
Proof. solve_decision. Defined.

Definition validated := result unit MailError.

(** ** Field validation *)

Definition validate_opaque_id (label value prefix : string) (min_hex_len max_hex_len : Z) : validated :=
  match strip_prefix prefix value with
  | None => Err (Malformed label ("must start with " +:+ quoted prefix))
  | Some hex =>
      if (slen hex <? min_hex_len) || (slen hex >? max_hex_len) || negb (all_bytes is_lower_hex hex)
      then
        let width :=
          if min_hex_len =? max_hex_len then pretty min_hex_len
          else pretty min_hex_len +:+ "..=" +:+ pretty max_hex_len in
        Err (Malformed label
               ("body after " +:+ quoted prefix +:+ " must be " +:+ width +:+ " lowercase hex characters"))
      else Ok tt
  end.

(** [byte.is_ascii_alphanumeric() || matches!(byte, b'-' | b'_' | b'.' | b'@' | b'+')] *)
Definition is_selector_byte (a : ascii) : bool :=
  is_ascii_alphanumeric a
  || Ascii.eqb a "-" || Ascii.eqb a "_" || Ascii.eqb a "." || Ascii.eqb a "@" || Ascii.eqb a "+".

Definition is_ascii (s : string) : bool := all_bytes (λ a, bval a <? 128) s.

Definition validate_selector (label value : string) : validated :=
  if s_is_empty value then Err (Malformed label "must not be empty")
  else if slen value >? SELECTOR_MAX_BYTES
  then Err (TooLarge label SELECTOR_MAX_BYTES (slen value))
  else if negb (is_ascii value) || negb (all_bytes is_selector_byte value)
  then Err (Malformed label "must be ASCII from the set [A-Za-z0-9._@+-]")
  else Ok tt.

Definition has_control (s : string) : bool := existsb is_control (chars s).

Definition validate_bounded_text (field value : string) : validated :=
  if slen value >? SUBJECT_MAX_BYTES
  then Err (TooLarge field SUBJECT_MAX_BYTES (slen value))
  else if has_control value
  then Err (Malformed field "must not contain control characters")
  else Ok tt.

Definition validate_subject (value : string) : validated := validate_bounded_text "subject" value.

(** [matches!(character, '\n' | '\t')] *)
Definition newline_or_tab (c : Z) : bool := (c =? 10) || (c =? 9).

Definition validate_body (value : string) : validated :=
  if slen value >? BODY_MAX_BYTES
  then Err (TooLarge "body" BODY_MAX_BYTES (slen value))
  else if existsb (λ c, is_control c && negb (newline_or_tab c)) (chars value)
  then Err (Malformed "body" "must not contain control characters other than newline and tab")
  else Ok tt.

Definition validate_correlation (value : string) : validated :=
  if slen value >? SUBJECT_MAX_BYTES
  then Err (TooLarge "correlation" SUBJECT_MAX_BYTES (slen value))
  else if s_is_empty value || has_control value
  then Err (Malformed "correlation" "must be non-empty and free of control characters")
  else Ok tt.

Definition validate_label (value : string) : validated := validate_bounded_text "label" value.

(** ** The id types' methods (macros [opaque_id!] and [selector_id!]) *)

Definition ParticipantId_validate (id : ParticipantId) : validated :=
  validate_selector "participant id" (ParticipantId_str id).
Definition ParticipantId_new (value : string) : result ParticipantId MailError :=
  let? _ := validate_selector "participant id" value in Ok (mkParticipantId value).

Definition RoomId_validate (id : RoomId) : validated := validate_selector "room id" (RoomId_str id).
Definition RoomId_new (value : string) : result RoomId MailError :=
  let? _ := validate_selector "room id" value in Ok (mkRoomId value).

Definition MessageId_validate (id : MessageId) : validated :=
  validate_opaque_id "message id" (MessageId_str id) MESSAGE_ID_PREFIX MESSAGE_ID_HEX_LEN MESSAGE_ID_HEX_LEN.
Definition MessageId_new (value : string) : result MessageId MailError :=
  let? _ := validate_opaque_id "message id" value MESSAGE_ID_PREFIX MESSAGE_ID_HEX_LEN MESSAGE_ID_HEX_LEN in
  Ok (mkMessageId value).

Definition SessionId_validate (id : SessionId) : validated :=
  validate_opaque_id "session id" (SessionId_str id) SESSION_ID_PREFIX
    SESSION_ID_HEX_MIN_CHARS SESSION_ID_HEX_MAX_CHARS.
Definition SessionId_new (value : string) : result SessionId MailError :=
  let? _ := validate_opaque_id "session id" value SESSION_ID_PREFIX
              SESSION_ID_HEX_MIN_CHARS SESSION_ID_HEX_MAX_CHARS in
  Ok (mkSessionId value).

(** ** Addresses *)

Inductive Address :=
| Direct (participant : ParticipantId)
| Session (participant : ParticipantId) (session : SessionId)
| Room (room : RoomId).

#[export] Instance Address_eq_dec : EqDecision Address.
Proof. solve_decision. Defined.

Definition Address_to_sum (a : Address) : ParticipantId + (ParticipantId * SessionId) + RoomId :=
  match a with
  | Direct p => inl (inl p)
  | Session p s => inl (inr (p, s))
  | Room r => inr r
  end.
Definition Address_of_sum (x : ParticipantId + (ParticipantId * SessionId) + RoomId) : Address :=
  match x with
  | inl (inl p) => Direct p
  | inl (inr (p, s)) => Session p s
  | inr r => Room r
  end.
#[export] Instance Address_countable : Countable Address.
Proof. by apply (inj_countable' Address_to_sum Address_of_sum); intros []. Defined.

Definition Address_validate (a : Address) : validated :=
  match a with
  | Direct participant => ParticipantId_validate participant
  | Session participant session =>
      let? _ := ParticipantId_validate participant in SessionId_validate session
  | Room room => RoomId_validate room
  end.

Definition account (a : Address) : option ParticipantId :=
  match a with
  | Direct participant | Session participant _ => Some participant
  | Room _ => None
  end.

Definition validate_participant_address (field : string) (a : Address) : validated :=
  let? _ := Address_validate a in
  if is_none (account a)
  then Err (Malformed field "must be a participant address (direct or session), not a room")
  else Ok tt.

(** [impl Display for Address] *)
Definition Address_display (a : Address) : string :=
  match a with
  | Direct participant => ParticipantId_str participant
  | Session participant session => ParticipantId_str participant +:+ "/" +:+ SessionId_str session
  | Room room => "#" +:+ RoomId_str room
  end.

(** [impl FromStr for Address] *)
Definition Address_from_str (value : string) : result Address MailError :=
  match strip_prefix "#" value with
  | Some room => let? room := RoomId_new room in Ok (Room room)
  | None =>
      match split_once "/" value with
      | Some (participant, session) =>
          let? participant := ParticipantId_new participant in
          let? session := SessionId_new session in
          Ok (Session participant session)
      | None => let? participant := ParticipantId_new value in Ok (Direct participant)
      end
  end.

(** ** Messages *)

Record MessageRef := mkMessageRef {
  ref_kind : string;
  ref_locator : string;
  ref_digest : option string }.

#[export] Instance MessageRef_eq_dec : EqDecision MessageRef.
Proof. solve_decision. Defined.

Definition MessageRef_validate (r : MessageRef) : validated :=
  let? _ := validate_selector "ref kind" (ref_kind r) in
  if slen (ref_locator r) >? REF_LOCATOR_MAX_BYTES
  then Err (TooLarge "ref locator" REF_LOCATOR_MAX_BYTES (slen (ref_locator r)))
  else if s_is_empty (ref_locator r) || has_control (ref_locator r)
  then Err (Malformed "ref locator" "must be non-empty and free of control characters")
  else match ref_digest r with
       | Some digest =>
           if slen digest >? REF_DIGEST_MAX_CHARS
           then Err (TooLarge "ref digest" REF_DIGEST_MAX_CHARS (slen digest))
           else if s_is_empty digest || negb (all_bytes is_lower_hex digest)
           then Err (Malformed "ref digest" "must be non-empty lowercase hex")
           else Ok tt
       | None => Ok tt
       end.

Definition validate_refs (refs : list MessageRef) : validated :=
  if Z.of_nat (length refs) >? REFS_MAX
  then Err (TooLarge "refs" REFS_MAX (Z.of_nat (length refs)))
  else try_each MessageRef_validate refs.

Record Message := mkMessage {
  message_id : MessageId;
  from : Address;
  to : Address;
  subject : string;
  body : string;
  reply_to : option MessageId;
  correlation : option string;
  refs : list MessageRef;
  created_at_unix_ms : Z }.

#[export] Instance Message_eq_dec : EqDecision Message.
Proof. solve_decision. Defined.

Definition Message_validate (m : Message) : validated :=
  let? _ := MessageId_validate (message_id m) in
  let? _ := validate_participant_address "from" (from m) in
  let? _ := Address_validate (to m) in
  let? _ := validate_subject (subject m) in
  let? _ := validate_body (body m) in
  let? _ := try_opt (λ r,
              let? _ := MessageId_validate r in
              if decide (r = message_id m)
              then Err (Malformed "reply_to" "must not reference its own message_id")
              else Ok tt) (reply_to m) in
  let? _ := try_opt validate_correlation (correlation m) in
  let? _ := validate_refs (refs m) in
  if created_at_unix_ms m =? 0
  then Err (Malformed "created_at_unix_ms" "must not be zero")
  else Ok tt.

Record Ack := mkAck {
  ack_message_id : MessageId;
  reader : Address;
  acked_at_unix_ms : Z }.

#[export] Instance Ack_eq_dec : EqDecision Ack.
Proof. solve_decision. Defined.

Definition Ack_validate (a : Ack) : validated :=
  let? _ := MessageId_validate (ack_message_id a) in
  let? _ := validate_participant_address "reader" (reader a) in
  if acked_at_unix_ms a =? 0
  then Err (Malformed "acked_at_unix_ms" "must not be zero")
  else Ok tt.

(** ** Session cards *)

Record SessionAttested := mkSessionAttested {
  pid : Z;
  started_at_unix_ms : Z;
  exe : option string }.

Definition SessionAttested_validate (a : SessionAttested) : validated :=
  try_opt (validate_bounded_text "attested exe") (exe a).

(** The wrapper [Declared<T>] is transparent. *)
Record SessionCorroborated := mkSessionCorroborated {
  provider_session_id : option string;
  model : option string;
  cwd : option string }.

Definition SessionCorroborated_validate (c : SessionCorroborated) : validated :=
  let? _ := try_opt (validate_bounded_text "corroborated provider_session_id") (provider_session_id c) in
  let? _ := try_opt (validate_bounded_text "corroborated model") (model c) in
  try_opt (validate_bounded_text "corroborated cwd") (cwd c).

Record SessionDeclared := mkSessionDeclared {
  working_on : option string;
  role : option string;
  parent : option SessionId }.

(** [SessionDeclared::default()] *)
Definition SessionDeclared_default : SessionDeclared := mkSessionDeclared None None None.

Definition SessionDeclared_validate (d : SessionDeclared) : validated :=
  let? _ := try_opt (validate_bounded_text "declared working_on") (working_on d) in
  let? _ := try_opt (validate_bounded_text "declared role") (role d) in
  try_opt SessionId_validate (parent d).

Record SessionCard := mkSessionCard {
  attested : SessionAttested;
  corroborated : SessionCorroborated;
  declared : SessionDeclared }.

#[export] Instance SessionAttested_eq_dec : EqDecision SessionAttested.
Proof. solve_decision. Defined.
#[export] Instance SessionCorroborated_eq_dec : EqDecision SessionCorroborated.
Proof. solve_decision. Defined.
#[export] Instance SessionDeclared_eq_dec : EqDecision SessionDeclared.
Proof. solve_decision. Defined.
#[export] Instance SessionCard_eq_dec : EqDecision SessionCard.
Proof. solve_decision. Defined.

Definition SessionCard_validate (c : SessionCard) : validated :=
  let? _ := SessionAttested_validate (attested c) in
  let? _ := SessionCorroborated_validate (corroborated c) in
  SessionDeclared_validate (declared c).

Record SessionEntry := mkSessionEntry {
  se_id : SessionId;
  se_card : SessionCard;
  se_last_seen_unix_ms : Z;
  live : bool }.

Definition SessionEntry_validate (e : SessionEntry) : validated :=
  let? _ := SessionId_validate (se_id e) in SessionCard_validate (se_card e).

(** ** The directory *)

Record Participant := mkParticipant { p_id : ParticipantId; p_label : option string }.

Definition Participant_validate (p : Participant) : validated :=
  let? _ := ParticipantId_validate (p_id p) in try_opt validate_label (p_label p).

Record DirectoryEntry := mkDirectoryEntry {
  de_id : ParticipantId;
  de_label : option string;
  de_sessions : list SessionEntry }.

Definition DirectoryEntry_validate (e : DirectoryEntry) : validated :=
  let? _ := ParticipantId_validate (de_id e) in
  let? _ := try_opt validate_label (de_label e) in
  try_each SessionEntry_validate (de_sessions e).

Record RoomEntry := mkRoomEntry { re_id : RoomId; re_member : bool }.

Definition RoomEntry_validate (e : RoomEntry) : validated := RoomId_validate (re_id e).

Record Directory := mkDirectory { dir_participants : list DirectoryEntry; dir_rooms : list RoomEntry }.

Definition Directory_validate (d : Directory) : validated :=
  let? _ := try_each DirectoryEntry_validate (dir_participants d) in
  try_each RoomEntry_validate (dir_rooms d).

(** ** Requests and responses *)

Record SendRequest := mkSendRequest {
  rq_to : Address;
  rq_subject : string;
  rq_body : string;
  rq_reply_to : option MessageId;
  rq_correlation : option string;
  rq_refs : list MessageRef;
  idempotency_key : option string }.

Definition SendRequest_validate (r : SendRequest) : validated :=
  let? _ := Address_validate (rq_to r) in
  let? _ := validate_subject (rq_subject r) in
  let? _ := validate_body (rq_body r) in
  let? _ := try_opt MessageId_validate (rq_reply_to r) in
  let? _ := try_opt validate_correlation (rq_correlation r) in
  let? _ := validate_refs (rq_refs r) in
  try_opt (validate_selector "idempotency_key") (idempotency_key r).

Record InboxRequest := mkInboxRequest {
  ir_since_unix_ms : option Z;
  ir_limit : Z;
  ir_wait_secs : option Z }.

Definition InboxRequest_validate (r : InboxRequest) : validated :=
  if ir_limit r =? 0 then Err (Malformed "limit" "must be at least 1")
  else if ir_limit r >? INBOX_LIMIT_MAX then Err (TooLarge "limit" INBOX_LIMIT_MAX (ir_limit r))
  else Ok tt.

Record AckRequest := mkAckRequest { ar_message_id : MessageId }.

Definition AckRequest_validate (r : AckRequest) : validated := MessageId_validate (ar_message_id r).

Record MessageGetRequest := mkMessageGetRequest { mgr_message_id : MessageId }.

Definition MessageGetRequest_validate (r : MessageGetRequest) : validated :=
  MessageId_validate (mgr_message_id r).

Record UnreadCountRequest := mkUnreadCountRequest { ucr_target : Address }.

Definition UnreadCountRequest_validate (r : UnreadCountRequest) : validated :=
  validate_participant_address "target" (ucr_target r).

Record SendResponse := mkSendResponse { sr_message_id : MessageId; sr_from : Address }.

#[export] Instance SendResponse_eq_dec : EqDecision SendResponse.
Proof. solve_decision. Defined.

Definition SendResponse_validate (r : SendResponse) : validated :=
  let? _ := MessageId_validate (sr_message_id r) in
  validate_participant_address "from" (sr_from r).

Record InboxPage := mkInboxPage { ip_messages : list Message; ip_unread : Z }.

#[export] Instance InboxPage_eq_dec : EqDecision InboxPage.
Proof. solve_decision. Defined.

Definition InboxPage_validate (p : InboxPage) : validated := try_each Message_validate (ip_messages p).

Record AckResponse := mkAckResponse { ars_ack : Ack }.

Definition AckResponse_validate (r : AckResponse) : validated := Ack_validate (ars_ack r).

Record UnreadCount := mkUnreadCount { uc_target : Address; uc_unread : Z }.

Definition UnreadCount_validate (u : UnreadCount) : validated :=
  validate_participant_address "target" (uc_target u).

Record DeliveryNotification := mkDeliveryNotification {
  dn_account : ParticipantId;
  dn_to : Address;
  dn_message_id : MessageId;
  dn_from : Address }.

Definition DeliveryNotification_validate (n : DeliveryNotification) : validated :=
  let? _ := ParticipantId_validate (dn_account n) in
  let? _ := Address_validate (dn_to n) in
  let? _ := MessageId_validate (dn_message_id n) in
  Address_validate (dn_from n).

(** ** What validation guarantees *)

Definition byte_free (c : ascii) (s : string) : Prop := all_bytes (λ a, negb (Ascii.eqb a c)) s = true.

Definition NUL : ascii := ascii_of_nat 0.

Lemma validate_selector_ok label s :
  validate_selector label s = Ok tt ↔
  s ≠ EmptyString ∧ slen s ≤ SELECTOR_MAX_BYTES ∧ is_ascii s = true ∧ all_bytes is_selector_byte s = true.
Proof.
  unfold validate_selector. rewrite Z.gtb_ltb.
  destruct s as [|a s]; cbn [s_is_empty]; [split; [discriminate|naive_solver]|].
  destruct (Z.ltb_spec SELECTOR_MAX_BYTES (slen (String a s))); [split; [discriminate|lia || naive_solver lia]|].
  destruct (is_ascii (String a s)), (all_bytes is_selector_byte (String a s)); cbn; naive_solver.
Qed.

Lemma validate_opaque_id_ok label s prefix lo hi :
  validate_opaque_id label s prefix lo hi = Ok tt ↔
  ∃ hex, s = prefix +:+ hex ∧ lo ≤ slen hex ≤ hi ∧ all_bytes is_lower_hex hex = true.
Proof.
  unfold validate_opaque_id. rewrite ?Z.gtb_ltb. split.
  - destruct (strip_prefix prefix s) as [hex|] eqn:Hp; [|discriminate].
    apply strip_prefix_Some in Hp as ->. rewrite Z.gtb_ltb.
    destruct ((slen hex <? lo) || (hi <? slen hex) || negb (all_bytes is_lower_hex hex)) eqn:Hc;
      [discriminate|].
    boolify. intros _. exists hex. auto.
  - intros (hex & -> & Hl & Hh). rewrite strip_prefix_app, Z.gtb_ltb, Hh.
    destruct (Z.ltb_spec (slen hex) lo); [lia|]. by destruct (Z.ltb_spec hi (slen hex)); [lia|].
Qed.

(** The bytes a class of accepted strings cannot hold, checked once for all 256. *)
Lemma byte_class_excludes (p : ascii → bool) c :
  forallb (λ n, negb (p (ascii_of_nat n)) || negb (Nat.eqb n (nat_of_ascii c))) (seq 0 256) = true →
  ∀ s, all_bytes p s = true → byte_free c s.
Proof.
  intros Hall s. unfold byte_free. apply all_bytes_impl. intros a Ha.
  destruct (Ascii.eqb_spec a c) as [->|]; [|done]. exfalso.
  rewrite forallb_forall in Hall. specialize (Hall (nat_of_ascii c)).
  rewrite ascii_nat_embedding, Ha, Nat.eqb_refl in Hall. discriminate Hall.
  apply in_seq. pose proof (nat_ascii_bounded c). lia.
Qed.

Lemma selector_free_slash s : all_bytes is_selector_byte s = true → byte_free "/" s.
Proof. apply byte_class_excludes. vm_compute. done. Qed.
Lemma selector_free_hash s : all_bytes is_selector_byte s = true → byte_free "#" s.
Proof. apply byte_class_excludes. vm_compute. done. Qed.
Lemma selector_free_nul s : all_bytes is_selector_byte s = true → byte_free NUL s.
Proof. apply byte_class_excludes. vm_compute. done. Qed.
Lemma hex_free_nul s : all_bytes is_lower_hex s = true → byte_free NUL s.
Proof. apply byte_class_excludes. vm_compute. done. Qed.
Lemma hex_free_slash s : all_bytes is_lower_hex s = true → byte_free "/" s.
Proof. apply byte_class_excludes. vm_compute. done. Qed.

Lemma byte_free_app c s t : byte_free c (s +:+ t) ↔ byte_free c s ∧ byte_free c t.
Proof. unfold byte_free. rewrite all_bytes_app. apply andb_true_iff. Qed.

Lemma byte_free_cons c a s : byte_free c (String a s) ↔ a ≠ c ∧ byte_free c s.
Proof.
  unfold byte_free. rewrite all_bytes_cons, andb_true_iff, negb_true_iff.
  destruct (Ascii.eqb_spec a c); naive_solver.
Qed.

(** Text without control characters (newline and tab apart) has no NUL byte. *)
Lemma controlled_free_nul (allow : Z → bool) s :
  allow 0 = false → existsb (λ c, is_control c && negb (allow c)) (chars s) = false → byte_free NUL s.
Proof.
  intros H0 Hs. apply no_control_bytes in Hs. revert Hs. apply all_bytes_impl.
  intros a Ha. destruct (Ascii.eqb_spec a NUL) as [->|]; [|done].
  replace (bval NUL) with 0 in Ha by done. by rewrite H0 in Ha.
Qed.

Lemma has_control_free_nul s : has_control s = false → byte_free NUL s.
Proof.
  intros H. apply (controlled_free_nul (λ _, false)); [done|].
  unfold has_control in H. induction (chars s) as [|c l IH]; cbn in *; [done|].
  rewrite andb_true_r. boolify. by rewrite H, IH.
Qed.

Lemma bounded_text_free_nul field s : validate_bounded_text field s = Ok tt → byte_free NUL s.
Proof.
  unfold validate_bounded_text. intros H. inv_ok. by apply has_control_free_nul.
Qed.

Lemma body_free_nul s : validate_body s = Ok tt → byte_free NUL s.
Proof.
  unfold validate_body. intros H. inv_ok. by apply (controlled_free_nul newline_or_tab).
Qed.

Lemma correlation_free_nul s : validate_correlation s = Ok tt → byte_free NUL s ∧ s ≠ EmptyString.
Proof.
  unfold validate_correlation. intros H. inv_ok. boolify.
  split; [by apply has_control_free_nul|by intros ->].
Qed.

(** ** Addresses: [Display] and [FromStr] *)

Lemma ParticipantId_new_ok s p :
  ParticipantId_new s = Ok p ↔ s = ParticipantId_str p ∧ ParticipantId_validate p = Ok tt.
Proof.
  unfold ParticipantId_new, ParticipantId_validate. destruct p as [q]; cbn. split.
  - intros H. destruct (validate_selector "participant id" s) as [[]|] eqn:E; [|discriminate].
    injection H as ->. done.
  - intros [-> ->]. done.
Qed.

Lemma RoomId_new_ok s p : RoomId_new s = Ok p ↔ s = RoomId_str p ∧ RoomId_validate p = Ok tt.
Proof.
  unfold RoomId_new, RoomId_validate. destruct p as [q]; cbn. split.
  - intros H. destruct (validate_selector "room id" s) as [[]|] eqn:E; [|discriminate].
    injection H as ->. done.
  - intros [-> ->]. done.
Qed.

Lemma SessionId_new_ok s p :
  SessionId_new s = Ok p ↔ s = SessionId_str p ∧ SessionId_validate p = Ok tt.
Proof.
  unfold SessionId_new, SessionId_validate. destruct p as [q]; cbn [SessionId_str]. split.
  - intros H. destruct (validate_opaque_id _ s _ _ _) as [[]|] eqn:E; [|discriminate].
    injection H as ->. done.
  - intros [-> ->]. done.
Qed.

Lemma MessageId_new_ok s p :
  MessageId_new s = Ok p ↔ s = MessageId_str p ∧ MessageId_validate p = Ok tt.
Proof.
  unfold MessageId_new, MessageId_validate. destruct p as [q]; cbn [MessageId_str]. split.
  - intros H. destruct (validate_opaque_id _ s _ _ _) as [[]|] eqn:E; [|discriminate].
    injection H as ->. done.
  - intros [-> ->]. done.
Qed.

Lemma ParticipantId_valid_bytes p :
  ParticipantId_validate p = Ok tt → all_bytes is_selector_byte (ParticipantId_str p) = true.
Proof. unfold ParticipantId_validate. intros (_ & _ & _ & ?)%validate_selector_ok. done. Qed.

Lemma SessionId_valid_free_slash s :
  SessionId_validate s = Ok tt → byte_free "/" (SessionId_str s).
Proof.
  intros (hex & -> & _ & Hh)%validate_opaque_id_ok.
  apply byte_free_app; split; [done|]. by apply hex_free_slash.
Qed.

Lemma strip_hash_None s : s ≠ EmptyString → byte_free "#" s → strip_prefix "#" s = None.
Proof.
  destruct s as [|a s]; [done|]. intros _ [Ha _]%byte_free_cons.
  cbn -[Ascii.eqb]. destruct (Ascii.eqb_spec "#" a); [congruence|done].
Qed.

Lemma Address_from_display a :
  Address_validate a = Ok tt → Address_from_str (Address_display a) = Ok a.
Proof.
  unfold Address_from_str. destruct a as [p|p s|r]; cbn [Address_display Address_validate].
  - intros Hp. pose proof Hp as (Hne & _ & _ & Hb)%validate_selector_ok.
    rewrite strip_hash_None by auto using selector_free_hash.
    rewrite split_once_None by (by apply selector_free_slash).
    by rewrite (proj2 (ParticipantId_new_ok _ p)).
  - intros H. destruct (ParticipantId_validate p) as [[]|] eqn:Hp; [|discriminate].
    pose proof Hp as (Hne & _ & _ & Hb)%validate_selector_ok.
    rewrite strip_hash_None.
    + change ("/" +:+ SessionId_str s) with (String "/" (SessionId_str s)).
      rewrite split_once_app by (by apply selector_free_slash).
      by rewrite (proj2 (ParticipantId_new_ok _ p)), (proj2 (SessionId_new_ok _ s)).
    + by destruct p as [[|]].
    + destruct p as [[|a p]]; cbn [ParticipantId_str] in *; [done|].
      rewrite s_app_cons. apply selector_free_hash in Hb. apply byte_free_cons in Hb as [Ha Hb].
      apply byte_free_cons; split; [done|]. apply byte_free_app; split; [done|].
      apply byte_free_app; split; [done|].
      apply validate_opaque_id_ok in H as (hex & -> & _ & Hh).
      apply byte_free_app; split; [done|]. revert Hh. by apply byte_class_excludes.
  - intros Hr. change ("#" +:+ RoomId_str r) with (String "#" (RoomId_str r)).
    rewrite <- (s_app_nil_l (RoomId_str r)) at 1. change (String "#" (EmptyString +:+ RoomId_str r)) with ("#" +:+ RoomId_str r).
    rewrite strip_prefix_app. by rewrite (proj2 (RoomId_new_ok _ r)).
Qed.

Lemma Address_display_from s a :
  Address_from_str s = Ok a → Address_display a = s ∧ Address_validate a = Ok tt.
Proof.
  unfold Address_from_str. destruct (strip_prefix "#" s) as [r|] eqn:Hs.
  - apply strip_prefix_Some in Hs as ->. intros H.
    destruct (RoomId_new r) as [room|] eqn:Hr; [|discriminate]. injection H as <-.
    by apply RoomId_new_ok in Hr as [-> ?].
  - destruct (split_once "/" s) as [[l r]|] eqn:Hc.
    + apply split_once_Some in Hc as ->. intros H.
      destruct (ParticipantId_new l) as [p|] eqn:Hp; [|discriminate].
      destruct (SessionId_new r) as [x|] eqn:Hx; [|discriminate]. injection H as <-.
      apply ParticipantId_new_ok in Hp as [-> Hp]. apply SessionId_new_ok in Hx as [-> Hx].
      cbn [Address_display Address_validate]. by rewrite Hp.
    + intros H. destruct (ParticipantId_new s) as [p|] eqn:Hp; [|discriminate]. injection H as <-.
      by apply ParticipantId_new_ok in Hp as [-> ?].
Qed.

Lemma Address_display_inj a b :
  Address_validate a = Ok tt → Address_validate b = Ok tt →
  Address_display a = Address_display b → a = b.
Proof.
  intros Ha Hb Heq. apply Address_from_display in Ha. rewrite Heq, Address_from_display in Ha by done.
  by injection Ha.
Qed.
