(* ===== verification/MailStore.v ===== *)
(** * The storage boundary (crates/mail4agent-core/src/store.rs)

    The trait [MailStore] as a type class, one method per method of the trait, and its
    implementation [InMemoryStore]. A method on [&mut self] returns the store it leaves
    behind together with its [Result]. A [HashMap] is a [gmap]; where the source iterates one,
    the model iterates [map_to_list], an order the theorems never rely on. *)

From S2P Require Import Prelude Api.

Local Open Scope Z_scope.

(** [pub struct StoreError(pub String)] *)
Record StoreError := mkStoreError { store_error : string }.

(** A SHA-256 digest: 32 bytes. *)
Abbreviation SecretDigest := string (only parsing).

Record ParticipantRecord := mkParticipantRecord {
  label : option string;
  secret_digest : SecretDigest;
  may_send : bool;
  may_read : bool;
  operator : bool;
  listener_url : option string }.

Record RoomRecord := mkRoomRecord {
  room_created_at : Z;
  members : gset ParticipantId }.

Record ParticipantSummary := mkParticipantSummary { ps_id : ParticipantId; ps_label : option string }.

Record RoomSummary := mkRoomSummary { rs_id : RoomId; rs_members : gset ParticipantId }.

Record SessionRecord := mkSessionRecord {
  sess_account : ParticipantId;
  card : SessionCard;
  last_seen_unix_ms : Z }.

Inductive InsertMessageOutcome :=
| Inserted
| Deduplicated (message_id : MessageId).

#[export] Instance ParticipantRecord_eq_dec : EqDecision ParticipantRecord.
Proof. solve_decision. Defined.
#[export] Instance RoomRecord_eq_dec : EqDecision RoomRecord.
Proof. solve_decision. Defined.
#[export] Instance SessionRecord_eq_dec : EqDecision SessionRecord.
Proof. solve_decision. Defined.

(** ** [trait MailStore] *)

Class MailStore (S : Type) := {
  register_participant : S → ParticipantId → ParticipantRecord → S * result unit StoreError;
  deregister_participant : S → ParticipantId → S * result unit StoreError;
  set_participant_secret_digest : S → ParticipantId → SecretDigest → S * result unit StoreError;
  set_listener_url : S → ParticipantId → option string → S * result unit StoreError;
  get_participant : S → ParticipantId → result (option ParticipantRecord) StoreError;
  find_participant_by_digest :
    S → SecretDigest → result (option (ParticipantId * ParticipantRecord)) StoreError;
  create_room : S → RoomId → Z → S * result unit StoreError;
  add_room_member : S → RoomId → ParticipantId → S * result unit StoreError;
  remove_room_member : S → RoomId → ParticipantId → S * result unit StoreError;
  get_room : S → RoomId → result (option RoomRecord) StoreError;
  insert_message :
    S → Message → option (Address * string) → S * result InsertMessageOutcome StoreError;
  get_message : S → MessageId → result (option Message) StoreError;
  messages_to_since : S → Address → Z → result (list Message) StoreError;
  room_messages_since : S → RoomId → Z → result (list Message) StoreError;
  rooms_containing : S → ParticipantId → result (list RoomId) StoreError;
  record_ack : S → Ack → S * result Ack StoreError;
  get_ack : S → MessageId → Address → result (option Ack) StoreError;
  list_participants : S → result (list ParticipantSummary) StoreError;
  list_rooms : S → result (list RoomSummary) StoreError;
  get_session : S → SessionId → result (option SessionRecord) StoreError;
  upsert_session : S → SessionId → SessionRecord → S * result unit StoreError;
  sessions_of : S → ParticipantId → result (list (SessionId * SessionRecord)) StoreError
}.

(** ** [InMemoryStore] *)

Record InMemoryStore := mkInMemoryStore {
  participants : gmap ParticipantId ParticipantRecord;
  digest_index : gmap SecretDigest ParticipantId;
  rooms : gmap RoomId RoomRecord;
  messages : gmap MessageId Message;
  idempotency : gmap (Address * string) MessageId;
  acks : gmap (MessageId * Address) Ack;
  sessions : gmap SessionId SessionRecord }.

Definition InMemoryStore_default : InMemoryStore := mkInMemoryStore ∅ ∅ ∅ ∅ ∅ ∅ ∅.

Definition with_participants (s : InMemoryStore) p d : InMemoryStore :=
  mkInMemoryStore p d (rooms s) (messages s) (idempotency s) (acks s) (sessions s).
Definition with_rooms (s : InMemoryStore) r : InMemoryStore :=
  mkInMemoryStore (participants s) (digest_index s) r (messages s) (idempotency s) (acks s) (sessions s).
Definition with_messages (s : InMemoryStore) m i : InMemoryStore :=
  mkInMemoryStore (participants s) (digest_index s) (rooms s) m i (acks s) (sessions s).
Definition with_acks (s : InMemoryStore) a : InMemoryStore :=
  mkInMemoryStore (participants s) (digest_index s) (rooms s) (messages s) (idempotency s) a (sessions s).
Definition with_sessions (s : InMemoryStore) x : InMemoryStore :=
  mkInMemoryStore (participants s) (digest_index s) (rooms s) (messages s) (idempotency s) (acks s) x.

Definition set_digest (r : ParticipantRecord) (d : SecretDigest) : ParticipantRecord :=
  mkParticipantRecord (label r) d (may_send r) (may_read r) (operator r) (listener_url r).
Definition set_url (r : ParticipantRecord) (u : option string) : ParticipantRecord :=
  mkParticipantRecord (label r) (secret_digest r) (may_send r) (may_read r) (operator r) u.
Definition set_members (r : RoomRecord) (m : gset ParticipantId) : RoomRecord :=
  mkRoomRecord (room_created_at r) m.

Module InMemory.

Definition register_participant (s : InMemoryStore) (id : ParticipantId) (r : ParticipantRecord) :
    InMemoryStore * result unit StoreError :=
  (with_participants s (<[id := r]> (participants s)) (<[secret_digest r := id]> (digest_index s)), Ok tt).

Definition deregister_participant (s : InMemoryStore) (id : ParticipantId) :
    InMemoryStore * result unit StoreError :=
  (match participants s !! id with
   | Some r => with_participants s (delete id (participants s)) (delete (secret_digest r) (digest_index s))
   | None => s
   end, Ok tt).

Definition set_participant_secret_digest (s : InMemoryStore) (id : ParticipantId) (d : SecretDigest) :
    InMemoryStore * result unit StoreError :=
  (match participants s !! id with
   | Some r =>
       with_participants s (<[id := set_digest r d]> (participants s))
         (<[d := id]> (delete (secret_digest r) (digest_index s)))
   | None => s
   end, Ok tt).

Definition set_listener_url (s : InMemoryStore) (id : ParticipantId) (url : option string) :
    InMemoryStore * result unit StoreError :=
  (match participants s !! id with
   | Some r => with_participants s (<[id := set_url r url]> (participants s)) (digest_index s)
   | None => s
   end, Ok tt).

Definition get_participant (s : InMemoryStore) (id : ParticipantId) :
    result (option ParticipantRecord) StoreError := Ok (participants s !! id).

Definition find_participant_by_digest (s : InMemoryStore) (d : SecretDigest) :
    result (option (ParticipantId * ParticipantRecord)) StoreError :=
  match digest_index s !! d with
  | None => Ok None
  | Some id => Ok ((λ r, (id, r)) <$> participants s !! id)
  end.

Definition create_room (s : InMemoryStore) (id : RoomId) (created_at : Z) :
    InMemoryStore * result unit StoreError :=
  (with_rooms s (<[id := mkRoomRecord created_at ∅]> (rooms s)), Ok tt).

Definition add_room_member (s : InMemoryStore) (room : RoomId) (p : ParticipantId) :
    InMemoryStore * result unit StoreError :=
  (match rooms s !! room with
   | Some r => with_rooms s (<[room := set_members r ({[p]} ∪ members r)]> (rooms s))
   | None => s
   end, Ok tt).

Definition remove_room_member (s : InMemoryStore) (room : RoomId) (p : ParticipantId) :
    InMemoryStore * result unit StoreError :=
  (match rooms s !! room with
   | Some r => with_rooms s (<[room := set_members r (members r ∖ {[p]})]> (rooms s))
   | None => s
   end, Ok tt).

Definition get_room (s : InMemoryStore) (id : RoomId) : result (option RoomRecord) StoreError :=
  Ok (rooms s !! id).

Definition insert_message (s : InMemoryStore) (m : Message) (key : option (Address * string)) :
    InMemoryStore * result InsertMessageOutcome StoreError :=
  match key ≫= λ k, idempotency s !! k with
  | Some existing => (s, Ok (Deduplicated existing))
  | None =>
      (with_messages s (<[message_id m := m]> (messages s))
         (match key with
          | Some k => <[k := message_id m]> (idempotency s)
          | None => idempotency s
          end), Ok Inserted)
  end.

Definition get_message (s : InMemoryStore) (id : MessageId) : result (option Message) StoreError :=
  Ok (messages s !! id).

Definition all_messages (s : InMemoryStore) : list Message := (map_to_list (messages s)).*2.

Definition messages_to_since (s : InMemoryStore) (a : Address) (since : Z) :
    result (list Message) StoreError :=
  Ok (filter (λ m, since ≤ created_at_unix_ms m ∧ to m = a) (all_messages s)).

Definition room_messages_since (s : InMemoryStore) (room : RoomId) (since : Z) :
    result (list Message) StoreError :=
  Ok (filter (λ m, since ≤ created_at_unix_ms m ∧ to m = Room room) (all_messages s)).

Definition rooms_containing (s : InMemoryStore) (p : ParticipantId) : result (list RoomId) StoreError :=
  Ok (filter (λ kv, p ∈ members kv.2) (map_to_list (rooms s))).*1.

Definition record_ack (s : InMemoryStore) (a : Ack) : InMemoryStore * result Ack StoreError :=
  match acks s !! (ack_message_id a, reader a) with
  | Some existing => (s, Ok existing)
  | None => (with_acks s (<[(ack_message_id a, reader a) := a]> (acks s)), Ok a)
  end.

Definition get_ack (s : InMemoryStore) (id : MessageId) (r : Address) : result (option Ack) StoreError :=
  Ok (acks s !! (id, r)).

Definition list_participants (s : InMemoryStore) : result (list ParticipantSummary) StoreError :=
  Ok ((λ kv, mkParticipantSummary kv.1 (label kv.2)) <$> map_to_list (participants s)).

Definition list_rooms (s : InMemoryStore) : result (list RoomSummary) StoreError :=
  Ok ((λ kv, mkRoomSummary kv.1 (members kv.2)) <$> map_to_list (rooms s)).

Definition get_session (s : InMemoryStore) (id : SessionId) : result (option SessionRecord) StoreError :=
  Ok (sessions s !! id).

Definition upsert_session (s : InMemoryStore) (id : SessionId) (r : SessionRecord) :
    InMemoryStore * result unit StoreError :=
  (with_sessions s (<[id := r]> (sessions s)), Ok tt).

Definition sessions_of (s : InMemoryStore) (p : ParticipantId) :
    result (list (SessionId * SessionRecord)) StoreError :=
  Ok (filter (λ kv, sess_account kv.2 = p) (map_to_list (sessions s))).

End InMemory.

#[export] Instance InMemoryStore_MailStore : MailStore InMemoryStore := {|
  register_participant := InMemory.register_participant;
  deregister_participant := InMemory.deregister_participant;
  set_participant_secret_digest := InMemory.set_participant_secret_digest;
  set_listener_url := InMemory.set_listener_url;
  get_participant := InMemory.get_participant;
  find_participant_by_digest := InMemory.find_participant_by_digest;
  create_room := InMemory.create_room;
  add_room_member := InMemory.add_room_member;
  remove_room_member := InMemory.remove_room_member;
  get_room := InMemory.get_room;
  insert_message := InMemory.insert_message;
  get_message := InMemory.get_message;
  messages_to_since := InMemory.messages_to_since;
  room_messages_since := InMemory.room_messages_since;
  rooms_containing := InMemory.rooms_containing;
  record_ack := InMemory.record_ack;
  get_ack := InMemory.get_ack;
  list_participants := InMemory.list_participants;
  list_rooms := InMemory.list_rooms;
  get_session := InMemory.get_session;
  upsert_session := InMemory.upsert_session;
  sessions_of := InMemory.sessions_of
|}.
