(* ===== verification/Primitives.v ===== *)
(** * Third-party primitives

    The crates [sha2] and [hex] are not part of the repository. What the code uses of them is a
    parameter of the model, with the documented facts the code relies on as laws: a SHA-256
    digest has 32 bytes, and [hex::encode] writes two lower-case hex characters per byte and is
    injective. [Concrete] instantiates both with functions that satisfy the laws, for use at
    concrete inputs. *)

From S2P Require Import Prelude.
From Stdlib Require Import Ascii.

Local Open Scope Z_scope.

Class Primitives := {
  sha256 : string → string;
  hex_encode : string → string
}.

Class PrimitivesLaws `{Primitives} : Prop := {
  sha256_len s : slen (sha256 s) = 32;
  hex_encode_len s : slen (hex_encode s) = 2 * slen s;
  hex_encode_lower s : all_bytes is_lower_hex (hex_encode s) = true;
  hex_encode_inj s t : hex_encode s = hex_encode t → s = t
}.

Module Concrete.

(** A polynomial checksum, written as 32 bytes: any function to 32 bytes will do. *)
Definition digest (s : string) : string :=
  to_le_bytes 32 (foldl (λ acc a, (acc * 257 + bval a + 1) mod 2 ^ 256) 7 (bytes_of s)).

Definition hex_digit (n : N) : ascii := ascii_of_N (if (n <? 10)%N then 48 + n else 87 + n).

Fixpoint encode (s : string) : string :=
  match s with
  | EmptyString => EmptyString
  | String a s =>
      String (hex_digit (N_of_ascii a / 16)) (String (hex_digit (N_of_ascii a mod 16)) (encode s))
  end.

Lemma encode_byte_ok :
  forallb (λ n, let a := ascii_of_nat n in
     is_lower_hex (hex_digit (N_of_ascii a / 16)) && is_lower_hex (hex_digit (N_of_ascii a mod 16)))
    (seq 0 256) = true.
Proof. vm_compute. done. Qed.

Lemma hex_digit_inj n m : (n < 16)%N → (m < 16)%N → hex_digit n = hex_digit m → n = m.
Proof.
  intros Hn Hm H. unfold hex_digit in H. apply (f_equal N_of_ascii) in H.
  revert H. destruct (N.ltb_spec n 10), (N.ltb_spec m 10); rewrite !N_ascii_embedding; lia.
Qed.

Lemma nibbles_inj a b :
  (N_of_ascii a / 16 = N_of_ascii b / 16)%N → (N_of_ascii a mod 16 = N_of_ascii b mod 16)%N → a = b.
Proof.
  intros Hd Hm. rewrite <- (ascii_N_embedding a), <- (ascii_N_embedding b). f_equal.
  rewrite (N.div_mod (N_of_ascii a) 16), (N.div_mod (N_of_ascii b) 16) by lia. by rewrite Hd, Hm.
Qed.

End Concrete.

Module ConcretePrimitives.
#[export] Instance concrete_primitives : Primitives := {|
  sha256 := Concrete.digest;
  hex_encode := Concrete.encode
|}.

#[export] Instance concrete_laws : PrimitivesLaws.
Proof.
  split; cbv [sha256 hex_encode concrete_primitives].
  - intros s. apply length_to_le_bytes.
  - intros s. unfold slen. induction s as [|a s IH]; cbn [Concrete.encode String.length]; lia.
  - intros s. induction s as [|a s IH]; [done|]. cbn [Concrete.encode]. rewrite !all_bytes_cons, IH.
    pose proof Concrete.encode_byte_ok as Hall. rewrite forallb_forall in Hall.
    specialize (Hall (nat_of_ascii a)). cbn zeta in Hall. rewrite ascii_nat_embedding, andb_true_iff in Hall.
    destruct Hall as [-> ->]; [|done]. apply in_seq. pose proof (nat_ascii_bounded a). lia.
  - intros s. induction s as [|a s IH]; intros [|b t]; cbn [Concrete.encode]; try done.
    intros [= H1 H2 H3]. apply IH in H3 as ->. f_equal.
    pose proof (N_ascii_bounded a). pose proof (N_ascii_bounded b).
    apply Concrete.nibbles_inj; apply Concrete.hex_digit_inj; auto;
      first [apply N.Div0.div_lt_upper_bound; lia | apply N.mod_lt; lia].
Qed.
End ConcretePrimitives.
