(* ===== verification/Engine.v ===== *)
(** * The mailbox engine (crates/mail4agent-core/src/engine.rs)

    Every method of [MailboxEngine<S>], over any [MailStore]. The engine's only field is its
    store, so the store is its state: a method on [&mut self] returns the store it leaves behind
    with its [Result], a method on [&self] only the [Result]. The clock and the OS random source
    are arguments, as in the source the clock is. *)

From S2P Require Import Prelude Api MailStore Primitives.
From Stdlib Require Import Ascii.

Local Open Scope Z_scope.

Definition SECRET_HEX_LEN : Z := 64.

Record ParticipantPermissions := mkParticipantPermissions {
  perm_may_send : bool;
  perm_may_read : bool;
  perm_operator : bool }.

(** [LivenessCheck]: given, never performed here. *)
Definition LivenessCheck : Type := Z → Z → bool.

(** ** Free functions *)

Definition store_unavailable (operation : string) (_ : StoreError) : MailError :=
  StoreUnavailable operation.

Definition LISTENER_URL_MAX_BYTES : Z := 512.

Definition LOOPBACK_REFUSAL : string :=
  "must be an http://127.0.0.1:* or http://localhost:* URL -- this mailbox is " +:+
  "a local service and never turns a message into an outbound call anywhere else".

(** [after_scheme.split(['/', '?', '#']).next()] *)
Definition url_authority (after_scheme : string) : string :=
  before_first (λ a, Ascii.eqb a "/" || Ascii.eqb a "?" || Ascii.eqb a "#") after_scheme.

(** [authority.split(':').next()] *)
Definition url_host (authority : string) : string := before_first (λ a, Ascii.eqb a ":") authority.

Definition validate_listener_url (url : string) : validated :=
  if slen url >? LISTENER_URL_MAX_BYTES
  then Err (TooLarge "url" LISTENER_URL_MAX_BYTES (slen url))
  else if has_control url
  then Err (Malformed "url" "must not contain control characters")
  else match strip_prefix "http://" url with
       | None => Err (Malformed "url" LOOPBACK_REFUSAL)
       | Some after_scheme =>
           let authority := url_authority after_scheme in
           if s_contains "@" authority
           then Err (Malformed "url"
                  ("must not carry userinfo (" +:+ quoted "user:pass@" +:+ ") in a loopback listener URL"))
           else
             let host := url_host authority in
             if negb (eq_ignore_ascii_case host "127.0.0.1") && negb (eq_ignore_ascii_case host "localhost")
             then Err (Malformed "url" LOOPBACK_REFUSAL)
             else Ok tt
       end.

(** The order [build_inbox] sorts by: creation time, then message id. *)
Definition inbox_le (a b : Message) : Prop :=
  created_at_unix_ms a < created_at_unix_ms b ∨
  (created_at_unix_ms a = created_at_unix_ms b ∧
   String.le (MessageId_str (message_id a)) (MessageId_str (message_id b))).

#[export] Instance inbox_le_dec a b : Decision (inbox_le a b).
Proof. unfold inbox_le. apply _. Defined.

Definition sep : string := String NUL EmptyString.

(** The bytes [derive_message_id] feeds the hasher. [nonce] is the 16 random bytes mixed in when
    the request carries no idempotency key. *)
Definition message_id_preimage (sender : Address) (request : SendRequest) (now : Z)
    (nonce : string) : string :=
  Address_display sender +:+ sep +:+
  match rq_to request with
  | Direct participant => "direct:" +:+ ParticipantId_str participant
  | Session participant session =>
      "session:" +:+ ParticipantId_str participant +:+ sep +:+ SessionId_str session
  | Room room => "room:" +:+ RoomId_str room
  end +:+ sep +:+
  rq_subject request +:+ sep +:+
  rq_body request +:+ sep +:+
  match rq_reply_to request with Some id => MessageId_str id | None => EmptyString end +:+ sep +:+
  match rq_correlation request with Some c => c | None => EmptyString end +:+ sep +:+
  foldr (λ r acc,
           ref_kind r +:+ sep +:+ ref_locator r +:+ sep +:+
           match ref_digest r with Some d => d | None => EmptyString end +:+ sep +:+ acc)
    (to_le_bytes 8 now +:+ sep +:+
     match idempotency_key request with Some key => key | None => nonce end)
    (rq_refs request).

Section MailboxEngine.
Context {S : Type} `{MailStore S} `{Primitives}.

Definition generate_secret (random : string) : string := hex_encode random.

Definition sha256_digest (data : string) : SecretDigest := sha256 data.

(** [format!("{MESSAGE_ID_PREFIX}{body}")] with [body] the first 24 hex characters of the digest. *)
Definition derive_message_id (sender : Address) (request : SendRequest) (now : Z) (nonce : string) :
    MessageId :=
  mkMessageId (MESSAGE_ID_PREFIX +:+
    s_take (Z.to_nat MESSAGE_ID_HEX_LEN) (hex_encode (sha256 (message_id_preimage sender request now nonce)))).

(** ** Private helpers *)

Definition require_participant (s : S) (id : ParticipantId) : result ParticipantRecord MailError :=
  let? found := map_err (store_unavailable "get_participant") (get_participant s id) in
  ok_or found (UnknownParticipant id).

Definition resolve_identity (s : S) (address : Address) :
    result (ParticipantId * ParticipantRecord) MailError :=
  let? _ := Address_validate address in
  match address with
  | Direct participant =>
      let? record := require_participant s participant in Ok (participant, record)
  | Session participant session =>
      let? found := map_err (store_unavailable "get_session") (get_session s session) in
      let? session_record := ok_or found (UnknownSession session) in
      if decide (sess_account session_record = participant)
      then let? record := require_participant s participant in Ok (participant, record)
      else Err (SessionAccountMismatch session (sess_account session_record) participant)
  | Room room =>
      Err (Malformed "address"
             ("a room (" +:+ quoted (RoomId_str room) +:+ ") cannot act as a participant identity"))
  end.

Definition require_read_permission (record : ParticipantRecord) : validated :=
  if may_read record || operator record then Ok tt else Err (PermissionDenied "mail:read").

Definition is_readable (s : S) (message : Message) (reader : Address) (account : ParticipantId)
    (record : ParticipantRecord) : result bool MailError :=
  if operator record then Ok true
  else match to message with
       | Direct participant => Ok (bool_decide (participant = account))
       | Session _ _ => Ok (bool_decide (reader = to message))
       | Room room =>
           let? room_record := map_err (store_unavailable "get_room") (get_room s room) in
           Ok (match room_record with
               | Some r => bool_decide (account ∈ members r)
               | None => false
               end)
       end.

(** [for room in rooms { messages.extend(store.room_messages_since(&room, since)?); }] *)
Fixpoint extend_room_messages (s : S) (since : Z) (rooms : list RoomId) (messages : list Message) :
    result (list Message) MailError :=
  match rooms with
  | [] => Ok messages
  | room :: rooms =>
      let? room_messages :=
        map_err (store_unavailable "room_messages_since") (room_messages_since s room since) in
      extend_room_messages s since rooms (messages ++ room_messages)
  end.

Definition own_messages (s : S) (identity : Address) (account : ParticipantId) (since : Z) :
    result (list Message) MailError :=
  let? messages :=
    map_err (store_unavailable "messages_to_since") (messages_to_since s identity since) in
  let? messages :=
    match identity with
    | Session _ _ =>
        let? account_messages :=
          map_err (store_unavailable "messages_to_since") (messages_to_since s (Direct account) since) in
        Ok (messages ++ account_messages)
    | _ => Ok messages
    end in
  let? rooms := map_err (store_unavailable "rooms_containing") (rooms_containing s account) in
  extend_room_messages s since rooms messages.

(** The [u32] counter wraps as Rust's does in a release build. *)
Fixpoint count_unacked (s : S) (identity : Address) (messages : list Message) (unread : Z) :
    result Z MailError :=
  match messages with
  | [] => Ok unread
  | message :: messages =>
      if decide (from message = identity) then count_unacked s identity messages unread
      else
        let? ack := map_err (store_unavailable "get_ack") (get_ack s (message_id message) identity) in
        count_unacked s identity messages
          (if is_none ack then (unread + 1) mod u32_mod else unread)
  end.

Definition count_unread (s : S) (identity : Address) (account : ParticipantId) : result Z MailError :=
  let? messages := own_messages s identity account 0 in
  count_unacked s identity messages 0.

Definition build_inbox (s : S) (identity : Address) (account : ParticipantId) (since limit : Z) :
    result InboxPage MailError :=
  let? messages := own_messages s identity account since in
  let messages := take (Z.to_nat limit) (merge_sort inbox_le messages) in
  let? unread := count_unread s identity account in
  Ok (mkInboxPage messages unread).

(** ** Accounts and secrets *)

Definition authenticate (s : S) (presented_secret : string) : result ParticipantId MailError :=
  let digest := sha256_digest presented_secret in
  let? found :=
    map_err (store_unavailable "find_participant_by_digest") (find_participant_by_digest s digest) in
  match found with
  | None => Err (PermissionDenied "mail:authenticate")
  | Some (id, record) =>
      if decide (secret_digest record = digest) then Ok id
      else Err (PermissionDenied "mail:authenticate")
  end.

(** [map_err(|err| store_unavailable(op, err))] on a mutating call. *)
Definition on_store {A} (operation : string) (r : S * result A StoreError) : S * result A MailError :=
  (r.1, map_err (store_unavailable operation) r.2).

Definition engine_register_participant (random : string) (s : S) (id : ParticipantId)
    (label : option string) (permissions : ParticipantPermissions) : S * result string MailError :=
  try? _ := Participant_validate (mkParticipant id label) on s in
  try? existing := map_err (store_unavailable "get_participant") (get_participant s id) on s in
  if is_some existing
  then (s, Err (Malformed "participant"
                  ("participant " +:+ quoted (ParticipantId_str id) +:+ " is already registered")))
  else
    let secret := generate_secret random in
    let record := mkParticipantRecord label (sha256_digest secret)
                    (perm_may_send permissions) (perm_may_read permissions) (perm_operator permissions) None in
    let '(s, r) := on_store "register_participant" (register_participant s id record) in
    try? _ := r on s in
    (s, Ok secret).

Definition engine_deregister_participant (s : S) (id : ParticipantId) : S * validated :=
  try? _ := require_participant s id on s in
  on_store "deregister_participant" (deregister_participant s id).

Definition rotate_participant_secret (random : string) (s : S) (id : ParticipantId) :
    S * result string MailError :=
  try? _ := require_participant s id on s in
  let secret := generate_secret random in
  let '(s, r) := on_store "set_participant_secret_digest"
                   (set_participant_secret_digest s id (sha256_digest secret)) in
  try? _ := r on s in
  (s, Ok secret).

Definition revoke_participant_secret (random : string) (s : S) (id : ParticipantId) : S * validated :=
  let '(s, r) := rotate_participant_secret random s id in
  (s, result_map (λ _, tt) r).

Definition set_listener (s : S) (id : ParticipantId) (url : string) : S * validated :=
  try? _ := validate_listener_url url on s in
  try? _ := require_participant s id on s in
  on_store "set_listener_url" (set_listener_url s id (Some url)).

Definition remove_listener (s : S) (id : ParticipantId) : S * validated :=
  try? _ := require_participant s id on s in
  on_store "set_listener_url" (set_listener_url s id None).

(** ** Rooms *)

Definition engine_create_room (s : S) (id : RoomId) (now : Z) : S * validated :=
  try? existing := map_err (store_unavailable "get_room") (get_room s id) on s in
  if is_some existing
  then (s, Err (Malformed "room" ("room " +:+ quoted (RoomId_str id) +:+ " already exists")))
  else on_store "create_room" (create_room s id now).

Definition engine_add_room_member (s : S) (room : RoomId) (participant : ParticipantId) : S * validated :=
  try? room_record := map_err (store_unavailable "get_room") (get_room s room) on s in
  if is_none room_record then (s, Err (UnknownRoom room))
  else
    try? participant_record := map_err (store_unavailable "get_participant") (get_participant s participant) on s in
    if is_none participant_record then (s, Err (UnknownParticipant participant))
    else on_store "add_room_member" (add_room_member s room participant).

Definition engine_remove_room_member (s : S) (room : RoomId) (participant : ParticipantId) : S * validated :=
  try? room_record := map_err (store_unavailable "get_room") (get_room s room) on s in
  if is_none room_record then (s, Err (UnknownRoom room))
  else on_store "remove_room_member" (remove_room_member s room participant).

(** ** Sessions *)

Definition ensure_session (s : S) (account : ParticipantId) (session_id : SessionId)
    (new_card : SessionCard) (now : Z) : S * result SessionId MailError :=
  try? _ := SessionCard_validate new_card on s in
  try? _ := SessionId_validate session_id on s in
  try? _ := require_participant s account on s in
  try? existing := map_err (store_unavailable "get_session") (get_session s session_id) on s in
  try? declared :=
    match existing with
    | Some record =>
        if decide (sess_account record = account) then Ok (declared (card record))
        else Err (SessionAccountMismatch session_id (sess_account record) account)
    | None => Ok SessionDeclared_default
    end on s in
  let merged := mkSessionCard (attested new_card) (corroborated new_card) declared in
  try? _ := SessionCard_validate merged on s in
  let record := mkSessionRecord account merged now in
  let '(s, r) := on_store "upsert_session" (upsert_session s session_id record) in
  try? _ := r on s in
  (s, Ok session_id).

Definition set_declared (s : S) (session : SessionId) (working_on role : option string)
    (parent : option SessionId) : S * validated :=
  try? _ := SessionId_validate session on s in
  try? found := map_err (store_unavailable "get_session") (get_session s session) on s in
  try? record := ok_or found (UnknownSession session) on s in
  let declared := mkSessionDeclared working_on role parent in
  try? _ := SessionDeclared_validate declared on s in
  let record :=
    mkSessionRecord (sess_account record)
      (mkSessionCard (attested (card record)) (corroborated (card record)) declared)
      (last_seen_unix_ms record) in
  on_store "upsert_session" (upsert_session s session record).

(** ** Mail *)

(** The [match &request.to] of [send]: the recipient must exist. *)
Definition require_recipient (s : S) (a : Address) : validated :=
  match a with
  | Direct participant =>
      let? found := map_err (store_unavailable "get_participant") (get_participant s participant) in
      if is_none found then Err (UnknownParticipant participant) else Ok tt
  | Session participant session =>
      let? found := map_err (store_unavailable "get_session") (get_session s session) in
      match found with
      | Some record =>
          if decide (sess_account record = participant) then Ok tt
          else Err (SessionAccountMismatch session (sess_account record) participant)
      | None => Err (UnknownSession session)
      end
  | Room room =>
      let? found := map_err (store_unavailable "get_room") (get_room s room) in
      if is_none found then Err (UnknownRoom room) else Ok tt
  end.

Definition send (nonce : string) (s : S) (sender : Address) (request : SendRequest) (now : Z) :
    S * result SendResponse MailError :=
  try? _ := SendRequest_validate request on s in
  try? (_, sender_record) := resolve_identity s sender on s in
  if negb (may_send sender_record) then (s, Err (PermissionDenied "mail:send"))
  else
    try? _ := require_recipient s (rq_to request) on s in
    let key := (λ key, (sender, key)) <$> idempotency_key request in
    let id := derive_message_id sender request now nonce in
    let message := mkMessage id sender (rq_to request) (rq_subject request) (rq_body request)
                     (rq_reply_to request) (rq_correlation request) (rq_refs request) now in
    try? _ := Message_validate message on s in
    let '(s, r) := on_store "insert_message" (insert_message s message key) in
    try? outcome := r on s in
    let id := match outcome with Inserted => id | Deduplicated existing => existing end in
    (s, Ok (mkSendResponse id sender)).

Definition inbox (s : S) (reader : Address) (since limit : Z) : result InboxPage MailError :=
  let? (account, record) := resolve_identity s reader in
  let? _ := require_read_permission record in
  build_inbox s reader account since limit.

Definition inbox_of (s : S) (caller target : Address) (since limit : Z) : result InboxPage MailError :=
  let? (_, caller_record) := resolve_identity s caller in
  if bool_decide (caller ≠ target) && negb (operator caller_record)
  then Err (PermissionDenied "mail:operator")
  else
    let? (target_account, target_record) := resolve_identity s target in
    let? _ := if decide (caller = target) then require_read_permission target_record else Ok tt in
    build_inbox s target target_account since limit.

Definition ack (s : S) (reader : Address) (id : MessageId) (now : Z) : S * result Ack MailError :=
  try? (account, record) := resolve_identity s reader on s in
  try? _ := require_read_permission record on s in
  try? found := map_err (store_unavailable "get_message") (get_message s id) on s in
  try? message := ok_or found (UnknownMessage id) on s in
  try? readable := is_readable s message reader account record on s in
  if negb readable then (s, Err (NotAddressedToYou id))
  else
    let a := mkAck id reader now in
    try? _ := Ack_validate a on s in
    on_store "record_ack" (record_ack s a).

Definition message_get (s : S) (reader : Address) (id : MessageId) : result Message MailError :=
  let? (account, record) := resolve_identity s reader in
  let? _ := require_read_permission record in
  let? found := map_err (store_unavailable "get_message") (get_message s id) in
  let? message := ok_or found (UnknownMessage id) in
  let? readable := is_readable s message reader account record in
  if negb readable then Err (NotAddressedToYou id) else Ok message.

Definition unread_count_of (s : S) (caller target : Address) : result UnreadCount MailError :=
  let? (_, caller_record) := resolve_identity s caller in
  if bool_decide (caller ≠ target) && negb (operator caller_record)
  then Err (PermissionDenied "mail:operator")
  else
    let? (target_account, target_record) := resolve_identity s target in
    let? _ := if decide (caller = target) then require_read_permission target_record else Ok tt in
    let? unread := count_unread s target target_account in
    Ok (mkUnreadCount target unread).

(** One account's entry: its sessions, each with the liveness the caller's check reports. *)
Definition directory_entry (s : S) (is_alive : LivenessCheck) (summary : ParticipantSummary) :
    result DirectoryEntry MailError :=
  let? found := map_err (store_unavailable "sessions_of") (sessions_of s (ps_id summary)) in
  let entry '(id, record) :=
    mkSessionEntry id (card record) (last_seen_unix_ms record)
      (is_alive (pid (attested (card record))) (started_at_unix_ms (attested (card record)))) in
  Ok (mkDirectoryEntry (ps_id summary) (ps_label summary) (entry <$> found)).

Definition directory (s : S) (caller : Address) (is_alive : LivenessCheck) : result Directory MailError :=
  let? (account, record) := resolve_identity s caller in
  let? _ := require_read_permission record in
  let? participants := map_err (store_unavailable "list_participants") (list_participants s) in
  let? entries := try_map (directory_entry s is_alive) participants in
  let? rooms := map_err (store_unavailable "list_rooms") (list_rooms s) in
  Ok (mkDirectory entries
        ((λ summary, mkRoomEntry (rs_id summary) (bool_decide (account ∈ rs_members summary))) <$> rooms)).

End MailboxEngine.
