(* ===== verification/EngineMail.v ===== *)
(** * Reading mail: what an inbox holds (over [InMemoryStore])

    [own_messages] assembles an identity's mail from several store queries. Here it is shown to
    be one filter of the stored messages, which gives the inbox page, the unread count and the
    single-message check a common reference definition, [addressed_to]. *)

From S2P Require Import Prelude Api MailStore Primitives Engine.

Local Open Scope Z_scope.

(** ** The order of an inbox page *)

#[export] Instance inbox_le_trans : Transitive inbox_le.
Proof.
  intros a b c [Hab|[Hab Hab']] [Hbc|[Hbc Hbc']]; [left; lia|left; lia|left; lia|].
  right. split; [lia|]. by etrans.
Qed.

#[export] Instance inbox_le_total : Total inbox_le.
Proof.
  intros a b. unfold inbox_le.
  destruct (Z.lt_trichotomy (created_at_unix_ms a) (created_at_unix_ms b)) as [?|[Heq|?]]; [by left; left| |by right; left].
  destruct (total String.le (MessageId_str (message_id a)) (MessageId_str (message_id b))); [left|right]; right; auto.
Qed.

Lemma inbox_le_antisym a b : inbox_le a b → inbox_le b a → message_id a = message_id b.
Proof.
  intros [?|[? H1]] [?|[? H2]]; try lia.
  assert (MessageId_str (message_id a) = MessageId_str (message_id b)) by (by apply (anti_symm String.le)).
  by destruct (message_id a), (message_id b); cbn in *; subst.
Qed.

(** ** Readability *)

(** Whether mail reaches [identity] of [account] by its address alone. *)
Definition addressed_to (s : InMemoryStore) (identity : Address) (account : ParticipantId) (m : Message) : Prop :=
  match to m with
  | Direct participant => participant = account
  | Session _ _ => identity = to m
  | Room room => match rooms s !! room with Some r => account ∈ members r | None => False end
  end.

#[export] Instance addressed_to_dec s identity account m : Decision (addressed_to s identity account m).
Proof. unfold addressed_to. destruct (to m); try apply _. destruct (rooms s !! room); apply _. Defined.

(** [identity] acts as [account]: what [resolve_identity] guarantees of its result. *)
Definition acts_as (identity : Address) (p : ParticipantId) : Prop := account identity = Some p.

(** Keys of the message table are the messages' own ids. *)
Definition keyed (s : InMemoryStore) : Prop := ∀ id m, messages s !! id = Some m → message_id m = id.

Lemma elem_of_all_messages s m : m ∈ InMemory.all_messages s ↔ ∃ id, messages s !! id = Some m.
Proof.
  unfold InMemory.all_messages. rewrite list_elem_of_fmap. split.
  - intros ([id m'] & -> & H). apply elem_of_map_to_list in H. eauto.
  - intros [id H]. exists (id, m). by rewrite elem_of_map_to_list.
Qed.

Lemma all_messages_NoDup s : keyed s → NoDup (InMemory.all_messages s).
Proof.
  intros Hk. unfold InMemory.all_messages. apply NoDup_fmap_2_strong; [|apply NoDup_map_to_list].
  intros [i m] [j n]. rewrite !elem_of_map_to_list. cbn. intros Hi Hj <-.
  by rewrite <- (Hk _ _ Hi), <- (Hk _ _ Hj).
Qed.

(** ** Filters that split a list *)

Lemma filter_or_disjoint {A} (P Q : A → Prop) `{!∀ x, Decision (P x), !∀ x, Decision (Q x)} (l : list A) :
  (∀ x, P x → ¬ Q x) →
  filter P l ++ filter Q l ≡ₚ filter (λ x, P x ∨ Q x) l.
Proof.
  intros Hd. induction l as [|x l IH]; [done|].
  rewrite !filter_cons. specialize (Hd x). repeat case_decide; try tauto; cbn.
  - by rewrite IH.
  - rewrite <- Permutation_middle. by rewrite IH.
Qed.

Lemma filter_ext_perm {A} (P Q : A → Prop) `{!∀ x, Decision (P x), !∀ x, Decision (Q x)} (l k : list A) :
  (∀ x, P x ↔ Q x) → l ≡ₚ k → filter P l ≡ₚ filter Q k.
Proof. intros HPQ ->. by rewrite (list_filter_iff P Q). Qed.

Section Rooms.
Context (s : InMemoryStore) (since : Z).

Definition in_room_of (rs : list RoomId) (m : Message) : Prop :=
  since ≤ created_at_unix_ms m ∧ ∃ r, r ∈ rs ∧ to m = Room r.

#[local] Instance in_room_of_dec rs m : Decision (in_room_of rs m).
Proof.
  unfold in_room_of. apply and_dec; [apply _|].
  destruct (to m) as [|?|r]; [right; naive_solver..|].
  destruct (decide (r ∈ rs)); [left; eauto|right; naive_solver].
Defined.

Lemma extend_room_messages_filter rs acc :
  NoDup rs →
  ∃ out, extend_room_messages s since rs acc = Ok out ∧
    out ≡ₚ acc ++ filter (in_room_of rs) (InMemory.all_messages s).
Proof.
  revert acc. induction rs as [|r rs IH]; intros acc Hnd.
  - exists acc. split; [done|].
    rewrite (list_filter_iff _ (λ _, False)).
    + replace (filter (λ _, False) (InMemory.all_messages s)) with (@nil Message); [by rewrite app_nil_r|].
      by induction (InMemory.all_messages s).
    + intros m. unfold in_room_of. set_solver.
  - inversion Hnd as [|? ? Hr Hnd']; subst. cbn.
    destruct (IH (acc ++ filter (λ m, since ≤ created_at_unix_ms m ∧ to m = Room r) (InMemory.all_messages s)) Hnd')
      as (out & -> & Hout).
    exists out. split; [done|]. rewrite Hout, <- app_assoc. f_equiv.
    rewrite filter_or_disjoint.
    + apply filter_ext_perm; [|done]. intros m. unfold in_room_of. set_solver.
    + intros m [_ Hm] (_ & r' & Hr' & Hm'). congruence.
Qed.
End Rooms.

Lemma rooms_containing_spec s p :
  ∃ rs, rooms_containing s p = Ok rs ∧ NoDup rs ∧
    ∀ r, r ∈ rs ↔ ∃ rec, rooms s !! r = Some rec ∧ p ∈ members rec.
Proof.
  eexists. split; [done|]. split.
  - apply NoDup_fmap_2_strong; [|apply NoDup_filter, NoDup_map_to_list].
    intros [i x] [j y]. rewrite !list_elem_of_filter, !elem_of_map_to_list. cbn.
    intros [_ Hi] [_ Hj] <-. by simplify_eq.
  - intros r. rewrite list_elem_of_fmap. split.
    + intros ([r' rec] & -> & H). apply list_elem_of_filter in H as [Hp H].
      apply elem_of_map_to_list in H. eauto.
    + intros (rec & Hr & Hp). exists (r, rec). split; [done|].
      apply list_elem_of_filter. by rewrite elem_of_map_to_list.
Qed.

(** ** The reference definition of an inbox *)

(** The stored messages from [since] on that are addressed to [identity]. *)
Definition mail_of (s : InMemoryStore) (identity : Address) (p : ParticipantId) (since : Z) : list Message :=
  filter (λ m, since ≤ created_at_unix_ms m ∧ addressed_to s identity p m) (InMemory.all_messages s).

(** Unread: not written by the identity itself, and not acknowledged by it. *)
Definition is_unread (s : InMemoryStore) (identity : Address) (m : Message) : Prop :=
  from m ≠ identity ∧ acks s !! (message_id m, identity) = None.

#[export] Instance is_unread_dec s identity m : Decision (is_unread s identity m).
Proof. unfold is_unread. apply _. Defined.

Lemma elem_of_mail_of s identity p since m :
  m ∈ mail_of s identity p since ↔
  since ≤ created_at_unix_ms m ∧ addressed_to s identity p m ∧ ∃ id, messages s !! id = Some m.
Proof. unfold mail_of. rewrite list_elem_of_filter, elem_of_all_messages. tauto. Qed.

Lemma own_messages_mail_of s identity p since :
  acts_as identity p →
  ∃ out, own_messages s identity p since = Ok out ∧ out ≡ₚ mail_of s identity p since.
Proof.
  intros Hact. unfold own_messages.
  destruct (rooms_containing_spec s p) as (rs & Hrs & Hnd & Hin).
  assert (Hroom : ∀ m r, to m = Room r →
            (∃ r', r' ∈ rs ∧ to m = Room r') ↔ addressed_to s identity p m).
  { intros m r Hm. unfold addressed_to. rewrite Hm. split.
    - intros (r' & Hr' & [= <-]). apply Hin in Hr' as (rec & -> & ?). done.
    - destruct (rooms s !! r) as [rec|] eqn:Hr; [|done]. intros Hp. exists r. split; [|done].
      apply Hin. eauto. }
  destruct identity as [q|q x|r]; cbn in Hact; [injection Hact as ->..|done].
  - cbn -[rooms_containing]. rewrite Hrs. cbn.
    edestruct extend_room_messages_filter as (out & -> & Hout); [done|].
    exists out. split; [done|]. rewrite Hout, filter_or_disjoint by (intros m [_ Hm] (_ & r & _ & Hr); congruence).
    apply filter_ext_perm; [|done]. intros m. unfold in_room_of.
    destruct (to m) as [?|??|r] eqn:Hm; [| |specialize (Hroom m r Hm)];
      unfold addressed_to in *; rewrite Hm in *; naive_solver.
  - cbn -[rooms_containing]. rewrite Hrs. cbn.
    edestruct extend_room_messages_filter as (out & -> & Hout); [done|].
    exists out. split; [done|]. rewrite Hout.
    rewrite filter_or_disjoint by (intros m [_ Hm] [_ Hm']; congruence).
    rewrite filter_or_disjoint by (intros m [[_ Hm]|[_ Hm]] (_ & r & _ & Hr); congruence).
    apply filter_ext_perm; [|done]. intros m. unfold in_room_of.
    destruct (to m) as [?|??|r] eqn:Hm; [| |specialize (Hroom m r Hm)];
      unfold addressed_to in *; rewrite Hm in *; naive_solver.
Qed.

Lemma count_unacked_spec s identity ms n :
  0 ≤ n < u32_mod →
  count_unacked s identity ms n =
    Ok ((n + Z.of_nat (length (filter (is_unread s identity) ms))) mod u32_mod).
Proof.
  revert n; induction ms as [|m ms IH]; intros n Hn.
  - cbn. rewrite Z.add_0_r, Z.mod_small by done. done.
  - cbn -[filter Z.modulo]. rewrite filter_cons.
    destruct (decide (from m = identity)) as [Hf|Hf].
    + rewrite IH by done. rewrite decide_False by (by intros [? _]). done.
    + destruct (acks s !! (message_id m, identity)) as [a|] eqn:Ha.
      * cbn -[filter Z.modulo]. rewrite IH by done. rewrite decide_False by (intros [_ ?]; congruence). done.
      * cbn -[filter Z.modulo]. rewrite IH by (apply Z.mod_pos_bound; done).
        rewrite decide_True by done. cbn [length]. rewrite Zplus_mod_idemp_l. do 2 f_equal. lia.
Qed.

Lemma count_unread_spec s identity p :
  acts_as identity p →
  count_unread s identity p =
    Ok (Z.of_nat (length (filter (is_unread s identity) (mail_of s identity p 0))) mod u32_mod).
Proof.
  intros Hact. unfold count_unread.
  destruct (own_messages_mail_of s identity p 0 Hact) as (out & -> & Hout).
  rewrite count_unacked_spec by done. cbn [Z.add]. do 3 f_equal.
  by rewrite Hout.
Qed.

Lemma build_inbox_spec s identity p since limit :
  acts_as identity p → keyed s →
  build_inbox s identity p since limit =
    Ok (mkInboxPage (take (Z.to_nat limit) (merge_sort inbox_le (mail_of s identity p since)))
          (Z.of_nat (length (filter (is_unread s identity) (mail_of s identity p 0))) mod u32_mod)).
Proof.
  intros Hact Hk. unfold build_inbox. rewrite (count_unread_spec _ _ _ Hact).
  destruct (own_messages_mail_of s identity p since Hact) as (out & -> & Hout). do 3 f_equal.
  apply merge_sort_unique; try apply _; [|done].
  intros m n. rewrite Hout, !elem_of_mail_of. intros (_ & _ & i & Hi) (_ & _ & j & Hj) Hmn Hnm.
  pose proof (inbox_le_antisym _ _ Hmn Hnm) as Heq. apply Hk in Hi as Hi', Hj as Hj'. congruence.
Qed.

(** ** Identities *)

Lemma resolve_identity_acts s a p rec :
  resolve_identity s a = Ok (p, rec) →
  acts_as a p ∧ participants s !! p = Some rec ∧ Address_validate a = Ok tt ∧
  match a with
  | Direct _ => True
  | Session _ x => ∃ r, sessions s !! x = Some r ∧ sess_account r = p
  | Room _ => False
  end.
Proof.
  unfold resolve_identity. intros H. destruct (Address_validate a) as [[]|] eqn:Ha; [|done].
  destruct a as [q|q x|r]; [| |done]; cbn in H.
  - cbv [InMemory.get_participant] in H. destruct (participants s !! q) eqn:Hq; cbn in H; [|done]. injection H as <- <-. done.
  - cbv [InMemory.get_session InMemory.get_participant] in H.
    destruct (sessions s !! x) as [sr|] eqn:Hx; cbn in H; [|done]. case_decide; [|done].
    destruct (participants s !! q) eqn:Hq; cbn in H; [|done]. injection H as <- <-. split; [done|]. split; [done|]. split; [done|]. exists sr. auto.
Qed.

Lemma is_readable_spec s m reader p rec :
  operator rec = false →
  is_readable s m reader p rec = Ok (bool_decide (addressed_to s reader p m)).
Proof.
  intros Hop. unfold is_readable. rewrite Hop.
  assert (Hbd : ∀ P `{!Decision P}, (P ↔ addressed_to s reader p m) →
            bool_decide P = bool_decide (addressed_to s reader p m)) by (intros; by apply bool_decide_ext).
  unfold addressed_to in Hbd at 1. destruct (to m) as [?|??|r] eqn:Hm.
  - f_equal. by apply Hbd.
  - f_equal. by apply Hbd.
  - cbn. unfold InMemory.get_room. f_equal. destruct (rooms s !! r) as [rec'|].
    + by apply Hbd.
    + by rewrite <- (Hbd False _).
Qed.
