(* ===== verification/EngineSpec.v ===== *)
(** * The mailbox engine's contract (over [InMemoryStore])

    [Command] lists the state-changing methods of [MailboxEngine]; [exec] runs one. [effect] is
    the abstract specification: for each command, when it succeeds, the state it leaves and what
    it answers, with no mention of the order of checks or of the store's calls. [exec_forward],
    [exec_backward] and [exec_err] say that the engine implements exactly this. *)

From S2P Require Import Prelude Api MailStore Primitives Engine EngineMail.

Local Open Scope Z_scope.

Inductive Command :=
| CRegister (random : string) (id : ParticipantId) (lbl : option string) (permissions : ParticipantPermissions)
| CDeregister (id : ParticipantId)
| CRotate (random : string) (id : ParticipantId)
| CRevoke (random : string) (id : ParticipantId)
| CSetListener (id : ParticipantId) (url : string)
| CRemoveListener (id : ParticipantId)
| CCreateRoom (id : RoomId) (now : Z)
| CAddMember (room : RoomId) (p : ParticipantId)
| CRemoveMember (room : RoomId) (p : ParticipantId)
| CEnsureSession (account : ParticipantId) (id : SessionId) (new_card : SessionCard) (now : Z)
| CSetDeclared (id : SessionId) (working_on role : option string) (parent : option SessionId)
| CSend (nonce : string) (sender : Address) (request : SendRequest) (now : Z)
| CAck (reader : Address) (id : MessageId) (now : Z).

Inductive Reply :=
| RDone
| RSecret (secret : string)
| RSession (id : SessionId)
| RSent (response : SendResponse)
| RAcked (a : Ack).

Definition reply {S A} (f : A → Reply) (r : S * result A MailError) : S * result Reply MailError :=
  (r.1, result_map f r.2).

Definition exec {S} `{MailStore S} `{Primitives} (c : Command) (s : S) : S * result Reply MailError :=
  match c with
  | CRegister random id lbl perms => reply RSecret (engine_register_participant random s id lbl perms)
  | CDeregister id => reply (λ _, RDone) (engine_deregister_participant s id)
  | CRotate random id => reply RSecret (rotate_participant_secret random s id)
  | CRevoke random id => reply (λ _, RDone) (revoke_participant_secret random s id)
  | CSetListener id url => reply (λ _, RDone) (set_listener s id url)
  | CRemoveListener id => reply (λ _, RDone) (remove_listener s id)
  | CCreateRoom id now => reply (λ _, RDone) (engine_create_room s id now)
  | CAddMember room p => reply (λ _, RDone) (engine_add_room_member s room p)
  | CRemoveMember room p => reply (λ _, RDone) (engine_remove_room_member s room p)
  | CEnsureSession account id new_card now => reply RSession (ensure_session s account id new_card now)
  | CSetDeclared id w r p => reply (λ _, RDone) (set_declared s id w r p)
  | CSend nonce sender rq now => reply RSent (send nonce s sender rq now)
  | CAck r id now => reply RAcked (ack s r id now)
  end.

Section Spec.
Context `{Primitives}.

(** ** The abstract specification *)

(** [a] may act, as account [p] with record [rec]. *)
Definition acting (s : InMemoryStore) (a : Address) (p : ParticipantId) (rec : ParticipantRecord) : Prop :=
  Address_validate a = Ok tt ∧ participants s !! p = Some rec ∧
  match a with
  | Direct q => q = p
  | Session q x => q = p ∧ ∃ r, sessions s !! x = Some r ∧ sess_account r = p
  | Room _ => False
  end.

Definition can_read (rec : ParticipantRecord) : Prop := may_read rec = true ∨ operator rec = true.

Definition readable (s : InMemoryStore) (m : Message) (a : Address) (p : ParticipantId)
    (rec : ParticipantRecord) : Prop := operator rec = true ∨ addressed_to s a p m.

Definition recipient_exists (s : InMemoryStore) (a : Address) : Prop :=
  match a with
  | Direct p => is_Some (participants s !! p)
  | Session p x => ∃ r, sessions s !! x = Some r ∧ sess_account r = p
  | Room r => is_Some (rooms s !! r)
  end.

Definition message_of (nonce : string) (sender : Address) (rq : SendRequest) (now : Z) : Message :=
  mkMessage (derive_message_id sender rq now nonce) sender (rq_to rq) (rq_subject rq) (rq_body rq)
    (rq_reply_to rq) (rq_correlation rq) (rq_refs rq) now.

Definition new_record (random : string) (lbl : option string) (perms : ParticipantPermissions) :
    ParticipantRecord :=
  mkParticipantRecord lbl (sha256_digest (generate_secret random))
    (perm_may_send perms) (perm_may_read perms) (perm_operator perms) None.

Definition key_of (sender : Address) (rq : SendRequest) : option (Address * string) :=
  (λ key, (sender, key)) <$> idempotency_key rq.

(** The declared fields a (re-)attested session keeps. *)
Definition kept_declared (existing : option SessionRecord) : SessionDeclared :=
  match existing with Some r => declared (card r) | None => SessionDeclared_default end.

Inductive effect (s : InMemoryStore) : Command → InMemoryStore → Reply → Prop :=
| eff_register random id lbl perms :
    Participant_validate (mkParticipant id lbl) = Ok tt → participants s !! id = None →
    effect s (CRegister random id lbl perms)
      (with_participants s (<[id := new_record random lbl perms]> (participants s))
         (<[sha256_digest (generate_secret random) := id]> (digest_index s)))
      (RSecret (generate_secret random))
| eff_deregister id rec :
    participants s !! id = Some rec →
    effect s (CDeregister id)
      (with_participants s (delete id (participants s)) (delete (secret_digest rec) (digest_index s))) RDone
| eff_rotate random id rec :
    participants s !! id = Some rec →
    effect s (CRotate random id)
      (with_participants s (<[id := set_digest rec (sha256_digest (generate_secret random))]> (participants s))
         (<[sha256_digest (generate_secret random) := id]> (delete (secret_digest rec) (digest_index s))))
      (RSecret (generate_secret random))
| eff_revoke random id rec :
    participants s !! id = Some rec →
    effect s (CRevoke random id)
      (with_participants s (<[id := set_digest rec (sha256_digest (generate_secret random))]> (participants s))
         (<[sha256_digest (generate_secret random) := id]> (delete (secret_digest rec) (digest_index s))))
      RDone
| eff_set_listener id url rec :
    validate_listener_url url = Ok tt → participants s !! id = Some rec →
    effect s (CSetListener id url)
      (with_participants s (<[id := set_url rec (Some url)]> (participants s)) (digest_index s)) RDone
| eff_remove_listener id rec :
    participants s !! id = Some rec →
    effect s (CRemoveListener id)
      (with_participants s (<[id := set_url rec None]> (participants s)) (digest_index s)) RDone
| eff_create_room id now :
    rooms s !! id = None →
    effect s (CCreateRoom id now) (with_rooms s (<[id := mkRoomRecord now ∅]> (rooms s))) RDone
| eff_add_member room p r :
    rooms s !! room = Some r → is_Some (participants s !! p) →
    effect s (CAddMember room p)
      (with_rooms s (<[room := set_members r ({[p]} ∪ members r)]> (rooms s))) RDone
| eff_remove_member room p r :
    rooms s !! room = Some r →
    effect s (CRemoveMember room p)
      (with_rooms s (<[room := set_members r (members r ∖ {[p]})]> (rooms s))) RDone
| eff_ensure_session p id new_card now :
    SessionCard_validate new_card = Ok tt → SessionId_validate id = Ok tt → is_Some (participants s !! p) →
    (∀ r, sessions s !! id = Some r → sess_account r = p) →
    SessionCard_validate (mkSessionCard (attested new_card) (corroborated new_card)
                            (kept_declared (sessions s !! id))) = Ok tt →
    effect s (CEnsureSession p id new_card now)
      (with_sessions s (<[id := mkSessionRecord p
         (mkSessionCard (attested new_card) (corroborated new_card) (kept_declared (sessions s !! id))) now]>
         (sessions s)))
      (RSession id)
| eff_set_declared id w ro pa r :
    SessionId_validate id = Ok tt → sessions s !! id = Some r →
    SessionDeclared_validate (mkSessionDeclared w ro pa) = Ok tt →
    effect s (CSetDeclared id w ro pa)
      (with_sessions s (<[id := mkSessionRecord (sess_account r)
         (mkSessionCard (attested (card r)) (corroborated (card r)) (mkSessionDeclared w ro pa))
         (last_seen_unix_ms r)]> (sessions s)))
      RDone
| eff_send_new nonce sender rq now p rec :
    SendRequest_validate rq = Ok tt → acting s sender p rec → may_send rec = true →
    recipient_exists s (rq_to rq) → Message_validate (message_of nonce sender rq now) = Ok tt →
    (key_of sender rq ≫= λ k, idempotency s !! k) = None →
    effect s (CSend nonce sender rq now)
      (with_messages s
         (<[derive_message_id sender rq now nonce := message_of nonce sender rq now]> (messages s))
         (match key_of sender rq with
          | Some k => <[k := derive_message_id sender rq now nonce]> (idempotency s)
          | None => idempotency s
          end))
      (RSent (mkSendResponse (derive_message_id sender rq now nonce) sender))
| eff_send_again nonce sender rq now p rec id :
    SendRequest_validate rq = Ok tt → acting s sender p rec → may_send rec = true →
    recipient_exists s (rq_to rq) → Message_validate (message_of nonce sender rq now) = Ok tt →
    (key_of sender rq ≫= λ k, idempotency s !! k) = Some id →
    effect s (CSend nonce sender rq now) s (RSent (mkSendResponse id sender))
| eff_ack_first a id now p rec m :
    acting s a p rec → can_read rec → messages s !! id = Some m → readable s m a p rec →
    Ack_validate (mkAck id a now) = Ok tt → acks s !! (id, a) = None →
    effect s (CAck a id now) (with_acks s (<[(id, a) := mkAck id a now]> (acks s))) (RAcked (mkAck id a now))
| eff_ack_again a id now p rec m old :
    acting s a p rec → can_read rec → messages s !! id = Some m → readable s m a p rec →
    Ack_validate (mkAck id a now) = Ok tt → acks s !! (id, a) = Some old →
    effect s (CAck a id now) s (RAcked old).

(** ** Guards, as the code evaluates them and as the specification states them *)

Lemma resolve_identity_iff s a p rec : resolve_identity s a = Ok (p, rec) ↔ acting s a p rec.
Proof.
  unfold acting. split.
  - intros (Hact & Hp & Hv & Ha)%resolve_identity_acts. unfold acts_as in Hact. destruct a; simplify_eq/=; eauto 8.
  - intros (Hv & Hp & Ha). unfold resolve_identity. rewrite Hv. destruct a as [q|q x|]; [| |done]; cbn.
    + subst q. unfold InMemory.get_participant. by rewrite Hp.
    + destruct Ha as [-> (r & Hx & Hr)]. unfold InMemory.get_session, InMemory.get_participant. rewrite Hx. cbn.
      rewrite decide_True by done. by rewrite Hp.
Qed.

Lemma require_participant_iff s id rec : require_participant s id = Ok rec ↔ participants s !! id = Some rec.
Proof. unfold require_participant; cbn. unfold InMemory.get_participant. destruct (participants s !! id); naive_solver. Qed.

Lemma require_read_permission_iff rec : require_read_permission rec = Ok tt ↔ can_read rec.
Proof. unfold require_read_permission, can_read. destruct (may_read rec), (operator rec); cbn; naive_solver. Qed.

Lemma require_recipient_iff s a : require_recipient s a = Ok tt ↔ recipient_exists s a.
Proof.
  unfold require_recipient, recipient_exists. destruct a as [p|p x|r]; cbn;
    unfold InMemory.get_participant, InMemory.get_session, InMemory.get_room.
  - destruct (participants s !! p); cbn; split; intros Hx; done.
  - destruct (sessions s !! x); cbn; [case_decide|]; naive_solver.
  - destruct (rooms s !! r); cbn; split; intros Hx; done.
Qed.

Lemma is_readable_iff s m a p rec :
  ∃ b, is_readable s m a p rec = Ok b ∧ (b = true ↔ readable s m a p rec).
Proof.
  destruct (operator rec) eqn:Hop.
  - exists true. unfold is_readable, readable. rewrite Hop. naive_solver.
  - exists (bool_decide (addressed_to s a p m)). split; [by apply is_readable_spec|].
    unfold readable. rewrite Hop, bool_decide_eq_true. naive_solver.
Qed.

(** ** The engine implements the specification *)

Lemma send_eq nonce s sender rq now :
  send nonce s sender rq now =
  (try? _ := SendRequest_validate rq on s in
   try? (_, rec) := resolve_identity s sender on s in
   if negb (may_send rec) then (s, Err (PermissionDenied "mail:send"))
   else
     try? _ := require_recipient s (rq_to rq) on s in
     try? _ := Message_validate (message_of nonce sender rq now) on s in
     match key_of sender rq ≫= λ k, idempotency s !! k with
     | Some id => (s, Ok (mkSendResponse id sender))
     | None =>
         (with_messages s
            (<[derive_message_id sender rq now nonce := message_of nonce sender rq now]> (messages s))
            (match key_of sender rq with
             | Some k => <[k := derive_message_id sender rq now nonce]> (idempotency s)
             | None => idempotency s
             end), Ok (mkSendResponse (derive_message_id sender rq now nonce) sender))
     end).
Proof.
  unfold send. destruct (SendRequest_validate rq); [|done].
  destruct (resolve_identity s sender) as [[? rec]|]; [|done]. destruct (may_send rec); [|done]. cbn [negb].
  destruct (require_recipient s (rq_to rq)); [|done].
  fold (message_of nonce sender rq now). destruct (Message_validate _); [|done].
  cbn -[key_of]. unfold InMemory.insert_message. fold (key_of sender rq).
  by destruct (key_of sender rq ≫= _).
Qed.

Lemma ack_eq s a id now :
  ack s a id now =
  (try? (p, rec) := resolve_identity s a on s in
   try? _ := require_read_permission rec on s in
   match messages s !! id with
   | None => (s, Err (UnknownMessage id))
   | Some m =>
       try? b := is_readable s m a p rec on s in
       if negb b then (s, Err (NotAddressedToYou id))
       else
         try? _ := Ack_validate (mkAck id a now) on s in
         match acks s !! (id, a) with
         | Some old => (s, Ok old)
         | None => (with_acks s (<[(id, a) := mkAck id a now]> (acks s)), Ok (mkAck id a now))
         end
   end).
Proof.
  unfold ack. destruct (resolve_identity s a) as [[p rec]|]; [|done].
  destruct (require_read_permission rec); [|done]. cbn -[is_readable]. unfold InMemory.get_message.
  destruct (messages s !! id); [|done]. cbn -[is_readable]. destruct (is_readable _ _ _ _ _) as [[]|]; try done.
  cbn. destruct (Ack_validate _); [|done]. unfold InMemory.record_ack. cbn. by destruct (acks s !! (id, a)).
Qed.

(** The store's calls, at this store. *)
Ltac store_calls :=
  cbv [require_participant MailStore.get_participant MailStore.get_session MailStore.get_room InMemoryStore_MailStore
       InMemory.get_participant InMemory.get_session InMemory.get_room
       MailStore.register_participant InMemory.register_participant
       MailStore.deregister_participant InMemory.deregister_participant
       MailStore.set_participant_secret_digest InMemory.set_participant_secret_digest
       MailStore.set_listener_url InMemory.set_listener_url MailStore.create_room InMemory.create_room
       MailStore.add_room_member InMemory.add_room_member MailStore.remove_room_member
       InMemory.remove_room_member MailStore.upsert_session InMemory.upsert_session
       reply on_store map_err result_map ok_or is_some is_none negb] in *;
  cbn [fst snd] in *.

(** Case on what an engine method's result still depends on. *)
Ltac engine_cases H :=
  repeat (match type of H with
  | context [match ?e with _ => _ end] =>
      lazymatch e with
      | context [match _ with _ => _ end] => fail
      | _ => let E := fresh "E" in destruct e eqn:E
      end
  end; cbn [fst snd] in H; try discriminate H).

Ltac destruct_unit := repeat match goal with u : () |- _ => destruct u end.

Lemma send_forward nonce sender rq now s s' r :
  exec (CSend nonce sender rq now) s = (s', Ok r) → effect s (CSend nonce sender rq now) s' r.
Proof.
  cbn [exec]. rewrite send_eq. unfold reply.
  destruct (SendRequest_validate rq) as [[]|] eqn:Hrq; [|done].
  destruct (resolve_identity s sender) as [[p rec]|] eqn:Hid; [|done]. apply resolve_identity_iff in Hid.
  destruct (may_send rec) eqn:Hms; [|done]. cbn [negb].
  destruct (require_recipient s (rq_to rq)) as [[]|] eqn:Hto; [|done]. apply require_recipient_iff in Hto.
  destruct (Message_validate _) as [[]|] eqn:Hm; [|done].
  destruct (key_of sender rq ≫= _) as [id|] eqn:Hk; cbn; intros [= <- <-].
  - by eapply eff_send_again.
  - by eapply eff_send_new.
Qed.

Lemma ack_forward a id now s s' r :
  exec (CAck a id now) s = (s', Ok r) → effect s (CAck a id now) s' r.
Proof.
  cbn [exec]. rewrite ack_eq. unfold reply.
  destruct (resolve_identity s a) as [[p rec]|] eqn:Hid; [|done]. apply resolve_identity_iff in Hid.
  destruct (require_read_permission rec) as [[]|] eqn:Hrd; [|done]. apply require_read_permission_iff in Hrd.
  destruct (messages s !! id) as [m|] eqn:Hm; [|done].
  destruct (is_readable_iff s m a p rec) as (b & -> & Hb). destruct b; [|done]. cbn [negb].
  destruct (Ack_validate _) as [[]|] eqn:Hv; [|done].
  destruct (acks s !! (id, a)) as [old|] eqn:Ho; cbn; intros [= <- <-].
  - eapply eff_ack_again; eauto. by apply Hb.
  - eapply eff_ack_first; eauto. by apply Hb.
Qed.

Lemma exec_forward c s s' r : exec c s = (s', Ok r) → effect s c s' r.
Proof.
  destruct c; try apply send_forward; try apply ack_forward; cbn [exec]; intros H0;
    cbv [engine_register_participant engine_deregister_participant rotate_participant_secret revoke_participant_secret
         set_listener remove_listener engine_create_room engine_add_room_member engine_remove_room_member
         ensure_session set_declared] in H0;
    store_calls; engine_cases H0; destruct_unit; simplify_eq.
  all: try (econstructor; eauto; fail).
  all: match goal with Hs : sessions ?st !! ?i = _ |- effect _ (CEnsureSession ?p _ ?crd ?t) _ _ =>
         pose proof (eff_ensure_session st p i crd t) as Heff; rewrite Hs in Heff; apply Heff; eauto; naive_solver
       end.
Qed.

Lemma exec_backward c s s' r : effect s c s' r → exec c s = (s', Ok r).
Proof.
  intros [].
  12-15: cbn [exec reply]; rewrite ?send_eq, ?ack_eq.
  12-13: repeat match goal with
    | E : SendRequest_validate _ = _ |- _ => rewrite E; clear E
    | E : acting _ _ _ _ |- _ => apply resolve_identity_iff in E; rewrite E; clear E
    | E : may_send _ = _ |- _ => rewrite E; clear E
    | E : recipient_exists _ _ |- _ => apply require_recipient_iff in E; rewrite E; clear E
    | E : Message_validate _ = _ |- _ => rewrite E; clear E
    end; cbn [negb]; by match goal with E : _ ≫= _ = _ |- _ => rewrite E end.
  12-13: match goal with E : readable ?s ?m ?a ?p ?rec |- _ =>
      destruct (is_readable_iff s m a p rec) as (b & Hb & Hr); apply Hr in E; subst b end;
    repeat match goal with
    | E : acting _ _ _ _ |- _ => apply resolve_identity_iff in E; rewrite E; clear E
    | E : can_read _ |- _ => apply require_read_permission_iff in E; rewrite E; clear E
    end; by repeat match goal with E : _ = _ |- _ => rewrite E; clear E; cbn [negb] end.
  all: cbn [exec]; cbv [engine_register_participant engine_deregister_participant rotate_participant_secret
         revoke_participant_secret
         set_listener remove_listener engine_create_room engine_add_room_member engine_remove_room_member
         ensure_session set_declared]; store_calls.
  all: repeat match goal with E : is_Some _ |- _ => destruct E as [? E] end.
  10: destruct (sessions s !! id) as [r0|] eqn:Hs; [rewrite (decide_True (P := sess_account r0 = p)) by auto|].
  all: cbn [kept_declared] in *;
    by repeat match goal with E : _ = Ok tt |- _ => rewrite E; clear E | E : _ !! _ = _ |- _ => rewrite E; clear E end.
Qed.

Lemma exec_err c s s' e : exec c s = (s', Err e) → s' = s.
Proof.
  destruct c; cbn [exec]; intros H0; rewrite ?send_eq, ?ack_eq in H0; unfold reply in H0;
    cbv [engine_register_participant engine_deregister_participant rotate_participant_secret revoke_participant_secret
         set_listener remove_listener engine_create_room engine_add_room_member engine_remove_room_member
         ensure_session set_declared] in H0; store_calls;
    engine_cases H0; simplify_eq; try done.
  all: repeat (case_match; simplify_eq/=; try done).
Qed.
End Spec.
