(* ===== verification/EngineInv.v ===== *)
(** * Reachable mailboxes

    What holds of every state the engine reaches from the empty store ([wf]), what later commands
    can never take back ([persists]), and the two assumptions on randomness both rest on: a fresh
    secret's digest is not already in use, and a derived message id is not the id of a different
    message. A concrete run is at the end. *)

From S2P Require Import Prelude Api MailStore Primitives Engine EngineMail EngineSpec.

Local Open Scope Z_scope.

Section Reachable.
Context `{Primitives}.

(** What a run needs of the OS random source and of the hash at one command. *)
Definition randomness_ok (s : InMemoryStore) (c : Command) : Prop :=
  match c with
  | CRegister random _ _ _ | CRotate random _ | CRevoke random _ =>
      digest_index s !! sha256_digest (generate_secret random) = None
  | CSend nonce sender rq now =>
      ∀ m, messages s !! derive_message_id sender rq now nonce = Some m → m = message_of nonce sender rq now
  | _ => True
  end.

Inductive engine_step (s : InMemoryStore) : InMemoryStore → Prop :=
| engine_step_exec c s' r : exec c s = (s', r) → randomness_ok s c → engine_step s s'.

Definition reachable (s : InMemoryStore) : Prop := rtc engine_step InMemoryStore_default s.

(** ** The invariant *)

Record wf (s : InMemoryStore) : Prop := {
  wf_index d id :
    digest_index s !! d = Some id ↔ ∃ rec, participants s !! id = Some rec ∧ secret_digest rec = d;
  wf_messages id m : messages s !! id = Some m → message_id m = id ∧ Message_validate m = Ok tt;
  wf_idempotency a k id : idempotency s !! (a, k) = Some id → ∃ m, messages s !! id = Some m ∧ from m = a;
  wf_acks id a x : acks s !! (id, a) = Some x →
    ack_message_id x = id ∧ reader x = a ∧ Ack_validate x = Ok tt ∧ is_Some (messages s !! id);
  wf_sessions x r : sessions s !! x = Some r →
    SessionId_validate x = Ok tt ∧ SessionCard_validate (card r) = Ok tt;
  wf_participants p rec : participants s !! p = Some rec →
    Participant_validate (mkParticipant p (label rec)) = Ok tt ∧
    ∀ url, listener_url rec = Some url → validate_listener_url url = Ok tt;
  wf_room_mail id m r : messages s !! id = Some m → to m = Room r → is_Some (rooms s !! r)
}.

Lemma wf_default : wf InMemoryStore_default.
Proof.
  split; cbn; intros *; rewrite ?lookup_empty; try done.
  split; [done|]. by intros (? & ? & _).
Qed.

Lemma wf_keyed s : wf s → keyed s.
Proof. intros Hwf id m Hm. by apply (wf_messages s Hwf). Qed.

Lemma SessionCard_validate_iff c :
  SessionCard_validate c = Ok tt ↔
  SessionAttested_validate (attested c) = Ok tt ∧ SessionCorroborated_validate (corroborated c) = Ok tt ∧
  SessionDeclared_validate (declared c) = Ok tt.
Proof.
  unfold SessionCard_validate. destruct (SessionAttested_validate _) as [[]|]; [|naive_solver].
  destruct (SessionCorroborated_validate _) as [[]|]; naive_solver.
Qed.

(** Rebinding the digest of an account in the index keeps it exact. *)
Lemma index_insert (ps : gmap ParticipantId ParticipantRecord) (ix : gmap SecretDigest ParticipantId) id rec :
  (∀ d i, ix !! d = Some i ↔ ∃ r, ps !! i = Some r ∧ secret_digest r = d) →
  ps !! id = None → ix !! secret_digest rec = None →
  ∀ d i, <[secret_digest rec := id]> ix !! d = Some i ↔ ∃ r, <[id := rec]> ps !! i = Some r ∧ secret_digest r = d.
Proof.
  intros Hix Hid Hd d i. destruct (decide (d = secret_digest rec)) as [->|Hne].
  - rewrite lookup_insert_eq. split.
    + intros [= <-]. exists rec. by rewrite lookup_insert_eq.
    + intros (r & Hr & Heq). destruct (decide (i = id)) as [->|Hi]; [done|].
      rewrite lookup_insert_ne in Hr by done. assert (ix !! secret_digest rec = Some i) by (apply Hix; eauto).
      congruence.
  - rewrite lookup_insert_ne, Hix by done. split; intros (r & Hr & Heq); exists r; split; try done.
    + rewrite lookup_insert_ne; [done|]. congruence.
    + destruct (decide (i = id)) as [->|Hi]; [|by rewrite lookup_insert_ne in Hr].
      rewrite lookup_insert_eq in Hr. congruence.
Qed.

Lemma index_delete (ps : gmap ParticipantId ParticipantRecord) (ix : gmap SecretDigest ParticipantId) id rec :
  (∀ d i, ix !! d = Some i ↔ ∃ r, ps !! i = Some r ∧ secret_digest r = d) →
  ps !! id = Some rec →
  ∀ d i, delete (secret_digest rec) ix !! d = Some i ↔ ∃ r, delete id ps !! i = Some r ∧ secret_digest r = d.
Proof.
  intros Hix Hid d i. rewrite !lookup_delete_Some, Hix.
  assert (Hrec : ix !! secret_digest rec = Some id) by (apply Hix; eauto).
  split.
  - intros (Hne & r & Hr & <-). exists r. rewrite lookup_delete_Some. split; [|done]. split; [|done].
    intros <-. congruence.
  - intros (r & [Hne Hr]%lookup_delete_Some & <-). split; [|eauto]. intros Heq.
    assert (ix !! secret_digest r = Some i) by (apply Hix; eauto). congruence.
Qed.

(** Changing fields other than the digest of a record leaves the index exact. *)
Lemma index_update (ps : gmap ParticipantId ParticipantRecord) (ix : gmap SecretDigest ParticipantId) id rec rec' :
  (∀ d i, ix !! d = Some i ↔ ∃ r, ps !! i = Some r ∧ secret_digest r = d) →
  ps !! id = Some rec → secret_digest rec' = secret_digest rec →
  ∀ d i, ix !! d = Some i ↔ ∃ r, <[id := rec']> ps !! i = Some r ∧ secret_digest r = d.
Proof.
  intros Hix Hid Heq d i. rewrite Hix. destruct (decide (i = id)) as [->|Hne].
  - rewrite lookup_insert_eq. split; intros (r & Hr & <-); simplify_eq; eauto.
  - by rewrite lookup_insert_ne.
Qed.

Lemma index_rotate (ps : gmap ParticipantId ParticipantRecord) (ix : gmap SecretDigest ParticipantId) id rec d' :
  (∀ d i, ix !! d = Some i ↔ ∃ r, ps !! i = Some r ∧ secret_digest r = d) →
  ps !! id = Some rec → ix !! d' = None →
  ∀ d i, <[d' := id]> (delete (secret_digest rec) ix) !! d = Some i ↔
    ∃ r, <[id := set_digest rec d']> ps !! i = Some r ∧ secret_digest r = d.
Proof.
  intros Hix Hid Hd. rewrite <- (insert_delete_eq ps).
  apply (index_insert _ _ id (set_digest rec d')).
  - by apply index_delete.
  - apply lookup_delete_eq.
  - cbn. rewrite lookup_delete_None. auto.
Qed.

(** ** Every command preserves the invariant *)

(** The parts of [wf] that speak of accounts only. *)
Lemma wf_with_participants s ps ix :
  wf s →
  (∀ d id, ix !! d = Some id ↔ ∃ rec, ps !! id = Some rec ∧ secret_digest rec = d) →
  (∀ p rec, ps !! p = Some rec →
     Participant_validate (mkParticipant p (label rec)) = Ok tt ∧
     ∀ url, listener_url rec = Some url → validate_listener_url url = Ok tt) →
  wf (with_participants s ps ix).
Proof. intros [] Hix Hps. by split. Qed.

(** A record inserted with a valid label and listener keeps every account valid. *)
Lemma participants_insert_valid s id rec :
  wf s → Participant_validate (mkParticipant id (label rec)) = Ok tt →
  (∀ url, listener_url rec = Some url → validate_listener_url url = Ok tt) →
  ∀ p r, <[id := rec]> (participants s) !! p = Some r →
    Participant_validate (mkParticipant p (label r)) = Ok tt ∧
    ∀ url, listener_url r = Some url → validate_listener_url url = Ok tt.
Proof.
  intros Hwf Hl Hu p r [[<- <-]|[Hne Hr]]%lookup_insert_Some; [done|]. by apply (wf_participants s Hwf).
Qed.

Lemma wf_with_rooms s rs :
  wf s → (∀ r, is_Some (rooms s !! r) → is_Some (rs !! r)) → wf (with_rooms s rs).
Proof. intros [] Hrs. split; try done. cbn. eauto. Qed.

Lemma wf_with_sessions s x r :
  wf s → SessionId_validate x = Ok tt → SessionCard_validate (card r) = Ok tt →
  wf (with_sessions s (<[x := r]> (sessions s))).
Proof.
  intros [] Hx Hr. split; try done. cbn.
  intros y r' [[<- <-]|[Hne Hr']]%lookup_insert_Some; eauto.
Qed.

Lemma wf_with_acks s id a now :
  wf s → Ack_validate (mkAck id a now) = Ok tt → is_Some (messages s !! id) →
  wf (with_acks s (<[(id, a) := mkAck id a now]> (acks s))).
Proof.
  intros [] Ha Hm. split; try done. cbn.
  intros id' a' x [[[= <- <-] <-]|[Hne Hx]]%lookup_insert_Some; eauto.
Qed.

Lemma wf_with_messages s m key :
  wf s → Message_validate m = Ok tt → recipient_exists s (to m) →
  (∀ m', messages s !! message_id m = Some m' → m' = m) →
  (∀ k, key = Some k → k.1 = from m) →
  wf (with_messages s (<[message_id m := m]> (messages s))
        (match key with Some k => <[k := message_id m]> (idempotency s) | None => idempotency s end)).
Proof.
  intros [] Hm Hto Hid Hkey.
  assert (Hlater : ∀ id m', messages s !! id = Some m' → <[message_id m := m]> (messages s) !! id = Some m').
  { intros id m' Hm'. destruct (decide (id = message_id m)) as [->|Hne]; [|by rewrite lookup_insert_ne].
    rewrite lookup_insert_eq. f_equal. symmetry. auto. }
  split; cbn; try done.
  - intros id m' [[<- <-]|[_ Hm']]%lookup_insert_Some; auto.
  - intros a k id Hk.
    assert (Hold : idempotency s !! (a, k) = Some id → ∃ m', <[message_id m := m]> (messages s) !! id = Some m' ∧ from m' = a).
    { intros (m' & ? & ?)%wf_idempotency0. eauto. }
    destruct key as [k'|]; [|auto]. apply lookup_insert_Some in Hk as [[-> <-]|[_ Hk]]; [|auto].
    exists m. rewrite lookup_insert_eq. split; [done|]. by specialize (Hkey _ eq_refl).
  - intros id a x (? & ? & ? & m' & Hm')%wf_acks0. eauto 6.
  - intros id m' r [[<- <-]|[_ Hm']]%lookup_insert_Some Hr; [|eauto]. by rewrite Hr in Hto.
Qed.

Lemma key_of_from sender rq k : key_of sender rq = Some k → k.1 = sender.
Proof. unfold key_of. destruct (idempotency_key rq); cbn; naive_solver. Qed.

Lemma lookup_insert_is_Some_mono {K A} `{Countable K} (m : gmap K A) i j x :
  is_Some (m !! j) → is_Some (<[i := x]> m !! j).
Proof. rewrite lookup_insert_is_Some'. auto. Qed.

Lemma effect_wf s c s' r : wf s → randomness_ok s c → effect s c s' r → wf s'.
Proof.
  intros Hwf Hrnd Heff. pose proof (wf_index s Hwf) as Hix. pose proof (wf_participants s Hwf) as Hps.
  destruct Heff; cbn in Hrnd; try done.
  1-6: apply wf_with_participants; [done| |].
  - by apply (index_insert _ _ id (new_record random lbl perms)).
  - by apply participants_insert_valid.
  - by apply index_delete.
  - intros p r [_ Hr]%lookup_delete_Some. by apply Hps.
  - by apply index_rotate.
  - apply participants_insert_valid; naive_solver.
  - by apply index_rotate.
  - apply participants_insert_valid; naive_solver.
  - by eapply index_update.
  - apply participants_insert_valid; naive_solver.
  - by eapply index_update.
  - apply participants_insert_valid; naive_solver.
  - apply wf_with_rooms; [done|]. intros ?. apply lookup_insert_is_Some_mono.
  - apply wf_with_rooms; [done|]. intros ?. apply lookup_insert_is_Some_mono.
  - apply wf_with_rooms; [done|]. intros ?. apply lookup_insert_is_Some_mono.
  - by apply wf_with_sessions.
  - apply wf_with_sessions; [done..|]. cbn.
    match goal with Hs : sessions s !! _ = Some _ |- _ =>
      apply (wf_sessions s Hwf) in Hs as [_ (? & ? & _)%SessionCard_validate_iff] end.
    by apply SessionCard_validate_iff.
  - apply (wf_with_messages s (message_of nonce sender rq now)); try done. apply key_of_from.
  - apply wf_with_acks; eauto.
Qed.

Lemma engine_step_effect s s' :
  engine_step s s' → s' = s ∨ ∃ c r, randomness_ok s c ∧ effect s c s' r.
Proof.
  intros [c s1 [r|e] Hex Hrnd]; [right|left].
  - exists c, r. split; [done|]. by apply exec_forward.
  - by eapply exec_err.
Qed.

Lemma steps_wf s s' : wf s → rtc engine_step s s' → wf s'.
Proof.
  intros Hwf Hr. revert Hwf. induction Hr as [|s1 s2 s3 Hs _ IH]; intros Hwf; [done|]. apply IH.
  destruct (engine_step_effect _ _ Hs) as [->|(c & r & ? & ?)]; [done|]. by eapply effect_wf.
Qed.

Lemma reachable_wf s : reachable s → wf s.
Proof. intros Hr. by eapply steps_wf; [apply wf_default|]. Qed.

(** ** What later commands cannot take back *)

Record persists (s s' : InMemoryStore) : Prop := {
  persists_messages : messages s ⊆ messages s';
  persists_idempotency : idempotency s ⊆ idempotency s';
  persists_acks : acks s ⊆ acks s';
  persists_sessions x r : sessions s !! x = Some r →
    ∃ r', sessions s' !! x = Some r' ∧ sess_account r' = sess_account r;
  persists_rooms x r : rooms s !! x = Some r →
    ∃ r', rooms s' !! x = Some r' ∧ room_created_at r' = room_created_at r
}.

#[export] Instance persists_preorder : PreOrder persists.
Proof.
  split.
  - intros s. split; eauto.
  - intros s1 s2 s3 [] []. split; [by etrans|by etrans|by etrans| |].
    + intros x r Hr. destruct (persists_sessions0 _ _ Hr) as (r2 & H2 & <-). auto.
    + intros x r Hr. destruct (persists_rooms0 _ _ Hr) as (r2 & H2 & <-). auto.
Qed.

Lemma insert_sub {K A} `{Countable K} (m : gmap K A) i x :
  (∀ y, m !! i = Some y → y = x) → m ⊆ <[i := x]> m.
Proof.
  intros Hi. apply map_subseteq_spec. intros j y Hj.
  destruct (decide (j = i)) as [->|Hne]; [|by rewrite lookup_insert_ne].
  rewrite lookup_insert_eq. f_equal. symmetry. auto.
Qed.

(** An entry replaced by one that agrees with it on [f] still agrees everywhere. *)
Lemma insert_agree {K A B} `{Countable K} (f : A → B) (m : gmap K A) i x :
  (∀ y, m !! i = Some y → f x = f y) →
  ∀ j y, m !! j = Some y → ∃ y', <[i := x]> m !! j = Some y' ∧ f y' = f y.
Proof.
  intros Hi j y Hj. destruct (decide (j = i)) as [->|Hne].
  - exists x. rewrite lookup_insert_eq. auto.
  - exists y. by rewrite lookup_insert_ne.
Qed.

Lemma effect_persists s c s' r : randomness_ok s c → effect s c s' r → persists s s'.
Proof.
  intros Hrnd Heff.
  destruct Heff; cbn in Hrnd; try done; split; cbn; try done; eauto.
  1-3: apply insert_agree; intros y Hy; by simplify_eq.
  - apply insert_agree. cbn. intros y Hy. symmetry. auto.
  - apply insert_agree. cbn. intros y Hy. by simplify_eq.
  - by apply insert_sub.
  - destruct (key_of sender rq) as [k|]; [|done]. cbn in *. apply insert_sub. congruence.
  - apply insert_sub. congruence.
Qed.

Lemma steps_persist s s' : rtc engine_step s s' → persists s s'.
Proof.
  induction 1 as [|s1 s2 s3 Hs _ IH]; [done|]. etrans; [|exact IH].
  destruct (engine_step_effect _ _ Hs) as [->|(c & r & ? & ?)]; [done|]. by eapply effect_persists.
Qed.
End Reachable.

(** * Runs of commands, and a concrete one

    Running a list of commands, and the scenario the witnesses use: two accounts, a room, a
    session and three messages, with the concrete primitives. *)

(** ** Running a list of commands *)

Section Run.
Context `{Primitives}.

#[export] Instance randomness_ok_dec s c : Decision (randomness_ok s c).
Proof.
  destruct c; cbn; try apply _.
  destruct (messages s !! _) as [m|] eqn:E; [|left; naive_solver].
  destruct (decide (m = message_of nonce sender request now)); [left|right]; naive_solver.
Defined.

Fixpoint run (cs : list Command) (s : InMemoryStore) : InMemoryStore :=
  match cs with [] => s | c :: cs => run cs (exec c s).1 end.

Fixpoint run_ok (cs : list Command) (s : InMemoryStore) : bool :=
  match cs with [] => true | c :: cs => bool_decide (randomness_ok s c) && run_ok cs (exec c s).1 end.

Lemma run_steps cs s : run_ok cs s = true → rtc engine_step s (run cs s).
Proof.
  revert s; induction cs as [|c cs IH]; intros s; cbn; [done|]. intros Hok. boolify.
  eapply rtc_l; [|by apply IH]. econstructor; [apply surjective_pairing|done].
Qed.
End Run.

(** ** A scenario *)

Module Scenario.
Export ConcretePrimitives.

Definition alice := mkParticipantId "alice".
Definition bob := mkParticipantId "bob".
Definition ops := mkRoomId "ops".
Definition sess := mkSessionId "s-00ff00ff".
Definition everything := mkParticipantPermissions true true false.
Definition card0 :=
  mkSessionCard (mkSessionAttested 7 1000 None) (mkSessionCorroborated None None None) SessionDeclared_default.
Definition req (a : Address) (key : option string) := mkSendRequest a "hello" "body" None None [] key.

Definition setup : list Command :=
  [CRegister "r1" alice None everything; CRegister "r2" bob None everything;
   CSetListener bob "http://127.0.0.1:9000/hook";
   CCreateRoom ops 5; CAddMember ops bob; CEnsureSession bob sess card0 6].
Definition mails : list Command :=
  [CSend "n1" (Direct alice) (req (Direct bob) (Some "k1")) 10;
   CSend "n2" (Direct alice) (req (Room ops) None) 11;
   CSend "n3" (Direct alice) (req (Session bob sess) None) 12].

Definition s0 : InMemoryStore := run setup InMemoryStore_default.
Definition s1 : InMemoryStore := run mails s0.
Definition id1 : MessageId := derive_message_id (Direct alice) (req (Direct bob) (Some "k1")) 10 "n1".

Lemma s0_reachable : reachable s0.
Proof. apply run_steps. vm_compute. done. Qed.

Lemma s0_s1 : rtc engine_step s0 s1.
Proof. apply run_steps. vm_compute. done. Qed.

Lemma s1_reachable : reachable s1.
Proof. unfold reachable. etrans; [apply s0_reachable|apply s0_s1]. Qed.

Lemma s1_mail : size (messages s1) = 3%nat.
Proof. vm_compute. done. Qed.
End Scenario.
