(* ===== verification/MessageIds.v ===== *)
(** * Message ids

    [derive_message_id] hashes a NUL-separated record of the message. Two facts make an id usable:
    the id it builds always passes [MessageId_validate] (so the [expect] in the source never
    fires), and the record hashed determines the whole message, so that two ids agree only if
    their messages do or the (truncated) hash collides. *)

From S2P Require Import Prelude Api MailStore Primitives Engine.
From Stdlib Require Import Ascii.

Local Open Scope Z_scope.

Lemma derived_id_valid `{Primitives, !PrimitivesLaws} sender rq now nonce :
  MessageId_validate (derive_message_id sender rq now nonce) = Ok tt.
Proof.
  unfold MessageId_validate. apply validate_opaque_id_ok. eexists. split; [done|].
  pose proof (hex_encode_len (sha256 (message_id_preimage sender rq now nonce))) as Hl. rewrite sha256_len in Hl.
  split.
  - rewrite slen_take; [done|]. unfold slen in Hl. change (Z.to_nat MESSAGE_ID_HEX_LEN) with 24%nat. lia.
  - apply all_bytes_take, hex_encode_lower.
Qed.

(** ** The hashed record is unambiguous *)

Lemma cut_sep l1 l2 r1 r2 :
  byte_free NUL l1 → byte_free NUL l2 → l1 +:+ sep +:+ r1 = l2 +:+ sep +:+ r2 → l1 = l2 ∧ r1 = r2.
Proof. intros H1 H2 H. by apply (cut_at_byte NUL). Qed.

Lemma cut_last_sep l1 l2 r1 r2 :
  byte_free NUL r1 → byte_free NUL r2 → l1 +:+ sep +:+ r1 = l2 +:+ sep +:+ r2 → l1 = l2 ∧ r1 = r2.
Proof.
  change (sep +:+ r1) with (String NUL r1). change (sep +:+ r2) with (String NUL r2).
  intros H1 H2. revert l2. induction l1 as [|a l1 IH]; intros [|b l2]; rewrite ?s_app_nil_l, ?s_app_cons.
  - by intros [= ->].
  - intros [= <- ->]. apply byte_free_app in H1 as [_ [? _]%byte_free_cons]. done.
  - intros [= -> <-]. apply byte_free_app in H2 as [_ [? _]%byte_free_cons]. done.
  - intros [= -> [-> ->]%IH]. done.
Qed.

(** An optional field, absent as the empty string. *)
Definition opt_field (o : option string) : string := match o with Some x => x | None => EmptyString end.

Lemma opt_field_inj o1 o2 :
  (∀ x, o1 = Some x → x ≠ EmptyString) → (∀ x, o2 = Some x → x ≠ EmptyString) →
  opt_field o1 = opt_field o2 → o1 = o2.
Proof.
  destruct o1 as [x|], o2 as [y|]; cbn; intros Hx Hy Heq; try done; subst; [done| |].
  - by destruct (Hx _ eq_refl).
  - by destruct (Hy _ eq_refl).
Qed.

(** *** References *)

Definition ref_bytes (r : MessageRef) (acc : string) : string :=
  ref_kind r +:+ sep +:+ ref_locator r +:+ sep +:+ opt_field (ref_digest r) +:+ sep +:+ acc.

Lemma refs_bytes_app refs base :
  foldr ref_bytes base refs = foldr ref_bytes EmptyString refs +:+ base.
Proof.
  induction refs as [|r refs IH]; [done|]. cbn [foldr]. rewrite IH. unfold ref_bytes. by rewrite !s_app_assoc.
Qed.

Lemma MessageRef_valid_parts r :
  MessageRef_validate r = Ok tt →
  byte_free NUL (ref_kind r) ∧ byte_free NUL (ref_locator r) ∧ byte_free NUL (opt_field (ref_digest r)) ∧
  (∀ x, ref_digest r = Some x → x ≠ EmptyString).
Proof.
  unfold MessageRef_validate. intros H.
  destruct (validate_selector "ref kind" (ref_kind r)) as [[]|] eqn:Hk; [|done].
  apply validate_selector_ok in Hk as (_ & _ & _ & Hk%selector_free_nul).
  destruct (slen (ref_locator r) >? _); [done|].
  destruct (s_is_empty (ref_locator r) || has_control (ref_locator r)) eqn:Hl; [done|].
  apply orb_false_iff in Hl as [_ Hl%has_control_free_nul]. repeat split; try done.
  - destruct (ref_digest r) as [d|]; [|done]. inv_ok. boolify. by apply hex_free_nul.
  - destruct (ref_digest r) as [d|]; [|done]. inv_ok. boolify. intros x [= <-] ->. done.
Qed.

Lemma refs_bytes_inj refs1 refs2 :
  Forall (λ r, MessageRef_validate r = Ok tt) refs1 → Forall (λ r, MessageRef_validate r = Ok tt) refs2 →
  foldr ref_bytes EmptyString refs1 = foldr ref_bytes EmptyString refs2 → refs1 = refs2.
Proof.
  intros H1. revert refs2. induction H1 as [|[k1 l1 d1] refs1 Hr1 _ IH]; intros refs2 H2; destruct H2 as [|[k2 l2 d2] refs2 Hr2 H2];
    cbn [foldr]; unfold ref_bytes; cbn; try done.
  - intros Heq. apply (f_equal slen) in Heq. rewrite !slen_app in Heq. unfold slen in Heq. cbn in Heq. lia.
  - intros Heq. apply (f_equal slen) in Heq. rewrite !slen_app in Heq. unfold slen in Heq. cbn in Heq. lia.
  - apply MessageRef_valid_parts in Hr1 as (? & ? & ? & ?), Hr2 as (? & ? & ? & ?); cbn in *.
    intros (-> & (-> & (Hd & Hrest)%cut_sep)%cut_sep)%cut_sep; try done.
    rewrite (opt_field_inj d1 d2) by done. f_equal. auto.
Qed.

(** *** Addresses *)

Lemma valid_participant_free p : ParticipantId_validate p = Ok tt → byte_free NUL (ParticipantId_str p).
Proof. intros Hp%ParticipantId_valid_bytes. by apply selector_free_nul. Qed.

Lemma valid_room_free r : RoomId_validate r = Ok tt → byte_free NUL (RoomId_str r).
Proof. intros (_ & _ & _ & Hr)%validate_selector_ok. by apply selector_free_nul. Qed.

Lemma valid_session_free x : SessionId_validate x = Ok tt → byte_free NUL (SessionId_str x).
Proof.
  intros (hex & -> & _ & Hh)%validate_opaque_id_ok. apply byte_free_app. split; [done|]. by apply hex_free_nul.
Qed.

Lemma valid_message_id_free x :
  MessageId_validate x = Ok tt → byte_free NUL (MessageId_str x) ∧ MessageId_str x ≠ EmptyString.
Proof.
  intros (hex & -> & _ & Hh)%validate_opaque_id_ok. split; [|done].
  apply byte_free_app. split; [done|]. by apply hex_free_nul.
Qed.

#[local] Hint Resolve valid_participant_free valid_room_free valid_session_free : mail.

Lemma Session_valid_parts p x :
  Address_validate (Session p x) = Ok tt → ParticipantId_validate p = Ok tt ∧ SessionId_validate x = Ok tt.
Proof. cbn. destruct (ParticipantId_validate p) as [[]|]; [done|discriminate]. Qed.

Lemma Address_display_free a : Address_validate a = Ok tt → byte_free NUL (Address_display a).
Proof.
  destruct a as [p|p x|r]; cbn [Address_display].
  - apply valid_participant_free.
  - intros [? ?]%Session_valid_parts. rewrite !byte_free_app. split_and!; [auto with mail|done|auto with mail].
  - intros Hr. rewrite byte_free_app. split; [done|]. by apply valid_room_free.
Qed.

(** The recipient field of the hashed record. *)
Definition to_bytes (a : Address) : string :=
  match a with
  | Direct participant => "direct:" +:+ ParticipantId_str participant
  | Session participant session =>
      "session:" +:+ ParticipantId_str participant +:+ sep +:+ SessionId_str session
  | Room room => "room:" +:+ RoomId_str room
  end.

Lemma tagged_free tag s : byte_free NUL tag → byte_free NUL s → byte_free NUL (tag +:+ s).
Proof. intros. by apply byte_free_app. Qed.

Lemma tag_inj tag s t : tag +:+ s = tag +:+ t → s = t.
Proof. induction tag as [|a tag IH]; [done|]. rewrite !s_app_cons. by intros [= H%IH]. Qed.

Lemma ParticipantId_str_inj p q : ParticipantId_str p = ParticipantId_str q → p = q.
Proof. destruct p, q; cbn; by intros ->. Qed.
Lemma SessionId_str_inj p q : SessionId_str p = SessionId_str q → p = q.
Proof. destruct p, q; cbn; by intros ->. Qed.
Lemma RoomId_str_inj p q : RoomId_str p = RoomId_str q → p = q.
Proof. destruct p, q; cbn; by intros ->. Qed.

#[local] Instance MessageId_str_inj : Inj eq eq MessageId_str.
Proof. intros [p] [q]; cbn; by intros ->. Qed.

Lemma to_bytes_inj a b r1 r2 :
  Address_validate a = Ok tt → Address_validate b = Ok tt →
  to_bytes a +:+ sep +:+ r1 = to_bytes b +:+ sep +:+ r2 → a = b ∧ r1 = r2.
Proof.
  intros Ha Hb. destruct a as [p|p x|r], b as [q|q y|r']; cbn [to_bytes]; rewrite ?s_app_assoc; try done.
  - intros H%tag_inj. apply cut_sep in H as [->%ParticipantId_str_inj ->]; auto with mail.
  - apply Session_valid_parts in Ha as [Hp Hx], Hb as [Hq Hy].
    intros H%tag_inj. apply cut_sep in H as [->%ParticipantId_str_inj H]; auto with mail.
    apply cut_sep in H as [->%SessionId_str_inj ->]; auto with mail.
  - intros H%tag_inj. apply cut_sep in H as [->%RoomId_str_inj ->]; auto with mail.
Qed.

(** *** The whole record *)

Record request_parts (rq : SendRequest) : Prop := {
  rp_to : Address_validate (rq_to rq) = Ok tt;
  rp_subject : byte_free NUL (rq_subject rq);
  rp_body : byte_free NUL (rq_body rq);
  rp_reply id : rq_reply_to rq = Some id → MessageId_validate id = Ok tt;
  rp_correlation c : rq_correlation rq = Some c → byte_free NUL c ∧ c ≠ EmptyString;
  rp_refs : Forall (λ r, MessageRef_validate r = Ok tt) (rq_refs rq);
  rp_key k : idempotency_key rq = Some k → byte_free NUL k
}.

Lemma SendRequest_valid_parts rq : SendRequest_validate rq = Ok tt → request_parts rq.
Proof.
  unfold SendRequest_validate. intros H.
  destruct (Address_validate (rq_to rq)) as [[]|] eqn:Hto; [|done].
  destruct (validate_subject (rq_subject rq)) as [[]|] eqn:Hsub; [|done].
  destruct (validate_body (rq_body rq)) as [[]|] eqn:Hbody; [|done].
  destruct (try_opt MessageId_validate (rq_reply_to rq)) as [[]|] eqn:Hreply; [|done].
  destruct (try_opt validate_correlation (rq_correlation rq)) as [[]|] eqn:Hcorr; [|done].
  destruct (validate_refs (rq_refs rq)) as [[]|] eqn:Hrefs; [|done].
  rewrite try_opt_ok in Hreply. rewrite try_opt_ok in Hcorr. pose proof (proj1 (try_opt_ok _ _) H) as Hkey. split; try done.
  - by eapply bounded_text_free_nul.
  - by apply body_free_nul.
  - intros c Hc. by apply correlation_free_nul, Hcorr.
  - unfold validate_refs in Hrefs. inv_ok. by apply try_each_ok.
  - intros k Hk. apply Hkey, validate_selector_ok in Hk as (_ & _ & _ & Hk). by apply selector_free_nul.
Qed.

Definition reply_field (rq : SendRequest) : string := opt_field (MessageId_str <$> rq_reply_to rq).

Lemma reply_field_ok rq : request_parts rq →
  byte_free NUL (reply_field rq) ∧ (∀ x, MessageId_str <$> rq_reply_to rq = Some x → x ≠ EmptyString).
Proof.
  intros [? ? ? Hr ? ? ?]. unfold reply_field. destruct (rq_reply_to rq) as [id|]; cbn; [|done].
  destruct (valid_message_id_free id) as [? ?]; [auto|]. split; [done|]. by intros ? [= <-].
Qed.

Lemma correlation_field_ok rq : request_parts rq →
  byte_free NUL (opt_field (rq_correlation rq)) ∧ (∀ x, rq_correlation rq = Some x → x ≠ EmptyString).
Proof.
  intros Hp. pose proof (rp_correlation rq Hp) as Hc. destruct (rq_correlation rq) as [c|]; cbn; [|done].
  destruct (Hc _ eq_refl). split; [done|]. by intros ? [= <-].
Qed.

(** The record, field by field. *)
Lemma preimage_fields sender rq now nonce k :
  idempotency_key rq = Some k →
  message_id_preimage sender rq now nonce =
  Address_display sender +:+ sep +:+ to_bytes (rq_to rq) +:+ sep +:+ rq_subject rq +:+ sep +:+
  rq_body rq +:+ sep +:+ reply_field rq +:+ sep +:+ opt_field (rq_correlation rq) +:+ sep +:+
  (foldr ref_bytes EmptyString (rq_refs rq) +:+ to_le_bytes 8 now) +:+ sep +:+ k.
Proof.
  intros Hk. unfold message_id_preimage. rewrite Hk. unfold reply_field, opt_field, to_bytes.
  rewrite s_app_assoc, <- refs_bytes_app. by destruct (rq_reply_to rq).
Qed.

Lemma preimage_inj sender1 sender2 rq1 rq2 now1 now2 nonce1 nonce2 k1 k2 :
  Address_validate sender1 = Ok tt → Address_validate sender2 = Ok tt →
  SendRequest_validate rq1 = Ok tt → SendRequest_validate rq2 = Ok tt →
  0 ≤ now1 < u64_mod → 0 ≤ now2 < u64_mod →
  idempotency_key rq1 = Some k1 → idempotency_key rq2 = Some k2 →
  message_id_preimage sender1 rq1 now1 nonce1 = message_id_preimage sender2 rq2 now2 nonce2 →
  sender1 = sender2 ∧ rq1 = rq2 ∧ now1 = now2.
Proof.
  intros Hs1 Hs2 Hv1%SendRequest_valid_parts Hv2%SendRequest_valid_parts Hn1 Hn2 Hk1 Hk2.
  rewrite (preimage_fields _ _ _ _ _ Hk1), (preimage_fields _ _ _ _ _ Hk2). intros H.
  destruct (reply_field_ok _ Hv1) as [Hr1 Hr1'], (reply_field_ok _ Hv2) as [Hr2 Hr2'].
  destruct (correlation_field_ok _ Hv1) as [Hc1 Hc1'], (correlation_field_ok _ Hv2) as [Hc2 Hc2'].
  destruct Hv1 as [Hto1 Hsub1 Hbody1 _ _ Hrefs1 Hkey1], Hv2 as [Hto2 Hsub2 Hbody2 _ _ Hrefs2 Hkey2].
  apply cut_sep in H as [Hsender H]; [|by apply Address_display_free..].
  apply to_bytes_inj in H as [Hto H]; [|done..].
  apply cut_sep in H as [Hsub H]; [|done..]. apply cut_sep in H as [Hbody H]; [|done..].
  apply cut_sep in H as [Hreply H]; [|done..]. apply cut_sep in H as [Hcorr H]; [|done..].
  apply cut_last_sep in H as [H Hkey]; [|by auto..].
  pose proof (f_equal slen H) as Hlen. rewrite !slen_app, !length_to_le_bytes in Hlen.
  apply s_app_inj_len in H as [Hrefs%refs_bytes_inj Hnow]; [|done..|lia].
  apply to_le_bytes_inj in Hnow; [|done..]. apply opt_field_inj in Hreply, Hcorr; [|done..].
  apply (inj (fmap MessageId_str)) in Hreply.
  split; [by apply Address_display_inj|]. split; [|done]. destruct rq1, rq2; cbn in *. by simplify_eq.
Qed.
