(* ===== verification/MailboxProps.v ===== *)
(** * Properties of the mailbox

    The theorems about the mailbox engine over its reference store, each with a witness that
    applies it in the scenario below. *)

From S2P Require Import Prelude Api MailStore Primitives Engine EngineMail EngineSpec EngineInv MessageIds.

From Stdlib Require Import Ascii.

Local Open Scope Z_scope.

Section Facts.
Context `{Primitives}.

(** The slot a successful keyed send leaves behind. *)
Lemma send_sets_key nonce a rq now s s' resp k :
  exec (CSend nonce a rq now) s = (s', Ok (RSent resp)) → idempotency_key rq = Some k →
  sr_from resp = a ∧ idempotency s' !! (a, k) = Some (sr_message_id resp).
Proof.
  intros Hex%exec_forward Hk. unfold key_of in *.
  inversion Hex; subst; cbn; unfold key_of in *; rewrite Hk in *; cbn in *; split; try done.
  by rewrite lookup_insert_eq.
Qed.

(** A keyed send that finds its slot taken changes nothing and answers from it. *)
Lemma send_taken_key nonce a rq now s s' resp k id :
  exec (CSend nonce a rq now) s = (s', Ok (RSent resp)) → idempotency_key rq = Some k →
  idempotency s !! (a, k) = Some id → s' = s ∧ resp = mkSendResponse id a.
Proof.
  intros Hex%exec_forward Hk Hid.
  inversion Hex; subst; unfold key_of in *; rewrite Hk in *; cbn in *; [congruence|]. by simplify_eq.
Qed.

Lemma ack_sets_slot a id now s s' x :
  exec (CAck a id now) s = (s', Ok (RAcked x)) → acks s' !! (id, a) = Some x.
Proof. intros Hex%exec_forward. inversion Hex; subst; cbn; [by rewrite lookup_insert_eq|done]. Qed.

Lemma ack_taken_slot a id now s s' x y :
  exec (CAck a id now) s = (s', Ok (RAcked y)) → acks s !! (id, a) = Some x → s' = s ∧ y = x.
Proof. intros Hex%exec_forward Hx. inversion Hex; subst; [congruence|]. by simplify_eq. Qed.

Lemma inbox_unfold s a since limit page :
  keyed s →
  inbox s a since limit = Ok page ↔
  ∃ p rec, acting s a p rec ∧ can_read rec ∧
    page = mkInboxPage (take (Z.to_nat limit) (merge_sort inbox_le (mail_of s a p since)))
             (Z.of_nat (length (filter (is_unread s a) (mail_of s a p 0))) mod u32_mod).
Proof.
  intros Hk. unfold inbox. split.
  - destruct (resolve_identity s a) as [[p rec]|] eqn:Hid; [|done].
    destruct (require_read_permission rec) as [[]|] eqn:Hrd; [|done].
    pose proof (resolve_identity_acts _ _ _ _ Hid) as (Hact & _).
    rewrite build_inbox_spec by done. intros [= <-]. exists p, rec.
    by rewrite <- resolve_identity_iff, <- require_read_permission_iff.
  - intros (p & rec & Hid%resolve_identity_iff & Hrd%require_read_permission_iff & ->).
    rewrite Hid, Hrd. pose proof (resolve_identity_acts _ _ _ _ Hid) as (Hact & _). by apply build_inbox_spec.
Qed.

(** Every message of a page is stored mail of the reader. *)
Lemma inbox_page_sound s a since limit page m :
  keyed s → inbox s a since limit = Ok page → m ∈ ip_messages page →
  ∃ p rec, acting s a p rec ∧ m ∈ mail_of s a p since.
Proof.
  intros Hk (p & rec & Ha & _ & ->)%inbox_unfold; [|done]. cbn.
  intros Hm%elem_of_take. destruct Hm as (i & Hm & _). exists p, rec. split; [done|].
  rewrite <- (merge_sort_Permutation inbox_le). by eapply list_elem_of_lookup_2.
Qed.

(** A page wide enough holds all of it. *)
Lemma inbox_page_complete s a since limit p rec :
  keyed s → acting s a p rec → can_read rec → Z.of_nat (size (messages s)) ≤ limit →
  ∃ page, inbox s a since limit = Ok page ∧ ∀ m, m ∈ ip_messages page ↔ m ∈ mail_of s a p since.
Proof.
  intros Hk Ha Hc Hl. eexists. split; [apply inbox_unfold; [done|]; eauto|]. cbn. intros m.
  rewrite take_ge; [by rewrite merge_sort_Permutation|].
  rewrite (Permutation_length (merge_sort_Permutation inbox_le _)).
  unfold mail_of. etrans; [apply length_filter|].
  unfold InMemory.all_messages. rewrite length_fmap, length_map_to_list. lia.
Qed.

Lemma acting_fun s a p q rec rec' : acting s a p rec → acting s a q rec' → p = q ∧ rec = rec'.
Proof. rewrite <- !resolve_identity_iff. intros -> [= -> ->]. done. Qed.

Lemma message_get_iff s a p rec id m :
  acting s a p rec → can_read rec →
  message_get s a id = Ok m ↔ messages s !! id = Some m ∧ readable s m a p rec.
Proof.
  intros Hid%resolve_identity_iff Hrd%require_read_permission_iff.
  unfold message_get. rewrite Hid, Hrd. cbn -[is_readable]. unfold InMemory.get_message.
  destruct (messages s !! id) as [m'|] eqn:Hm; cbn -[is_readable]; [|naive_solver].
  destruct (is_readable_iff s m' a p rec) as (b & -> & Hb). destruct b; cbn; split.
  - intros [= ->]. by rewrite <- Hb.
  - by intros [[= ->] _].
  - done.
  - intros [[= ->] Hr]. apply Hb in Hr. done.
Qed.

Lemma authenticate_index s secret id :
  wf s → authenticate s secret = Ok id ↔ digest_index s !! sha256_digest secret = Some id.
Proof.
  intros Hwf. unfold authenticate. cbn. unfold InMemory.find_participant_by_digest.
  destruct (digest_index s !! sha256_digest secret) as [i|] eqn:Hi; cbn; [|naive_solver].
  apply (wf_index s Hwf) in Hi as (rec & Hr & Hd). rewrite Hr. cbn. rewrite decide_True by done. naive_solver.
Qed.

Lemma authenticate_none s secret :
  wf s → digest_index s !! sha256_digest secret = None →
  authenticate s secret = Err (PermissionDenied "mail:authenticate").
Proof. intros Hwf Hi. unfold authenticate. cbn. unfold InMemory.find_participant_by_digest. by rewrite Hi. Qed.
End Facts.

(** ** Theorems *)

Section Theorems.
Context `{Primitives}.

(** C1: the engine implements its contract: a command succeeds exactly when the abstract
    specification allows it, with the state and the answer the specification gives. *)
Theorem engine_implements_contract c s s' r : exec c s = (s', Ok r) ↔ effect s c s' r.
Proof. split; [apply exec_forward|apply exec_backward]. Qed.

(** A refused command leaves the store as it was, and is refused only where the
    specification has no transition at all. *)
Theorem refusal_leaves_store c s s' e :
  exec c s = (s', Err e) → s' = s ∧ ∀ s'' r, ¬ effect s c s'' r.
Proof. intros Hex. split; [by eapply exec_err|]. intros s'' r Heff%exec_backward. congruence. Qed.

(** Every reachable store is well formed: the digest index is exact, stored messages are valid
    and filed under their own id, idempotency slots and acknowledgements point to stored mail,
    session cards and listener URLs passed validation, and room mail names an existing room. *)
Theorem reachable_store_wellformed s : reachable s → wf s.
Proof. apply reachable_wf. Qed.

(** No later command removes or alters a stored message, an acknowledgement or an idempotency
    slot, moves a session to another account, or drops a room. *)
Theorem mail_is_never_lost s s' : rtc engine_step s s' → persists s s'.
Proof. apply steps_persist. Qed.

(** A send repeated under the same idempotency key, at any later point and with any content,
    stores nothing and answers with the first send's message id. *)
Theorem keyed_resend_is_idempotent n1 n2 a rq1 rq2 t1 t2 k s1 s2 s3 s4 resp1 resp2 :
  exec (CSend n1 a rq1 t1) s1 = (s2, Ok (RSent resp1)) → idempotency_key rq1 = Some k →
  rtc engine_step s2 s3 →
  exec (CSend n2 a rq2 t2) s3 = (s4, Ok (RSent resp2)) → idempotency_key rq2 = Some k →
  s4 = s3 ∧ resp2 = resp1.
Proof.
  intros H1 Hk1 Hsteps H2 Hk2. destruct (send_sets_key _ _ _ _ _ _ _ _ H1 Hk1) as [Hfrom Hslot].
  apply steps_persist, persists_idempotency in Hsteps. eapply lookup_weaken in Hslot; [|done].
  destruct (send_taken_key _ _ _ _ _ _ _ _ _ H2 Hk2 Hslot) as [-> ->]. split; [done|].
  destruct resp1; cbn in *; by subst.
Qed.

(** The first acknowledgement of a message by a reader is the one every later acknowledgement
    by that reader returns, with its original time, and the later ones store nothing. *)
Theorem first_ack_wins a id t1 t2 s1 s2 s3 s4 x y :
  exec (CAck a id t1) s1 = (s2, Ok (RAcked x)) → rtc engine_step s2 s3 →
  exec (CAck a id t2) s3 = (s4, Ok (RAcked y)) → y = x ∧ s4 = s3.
Proof.
  intros H1%ack_sets_slot Hsteps H2. apply steps_persist, persists_acks in Hsteps.
  eapply lookup_weaken in H1; [|done]. by destruct (ack_taken_slot _ _ _ _ _ _ _ H2 H1).
Qed.

(** C19: an inbox page is exactly the first [limit] of the stored messages addressed to the reader
    (its own address, its account's direct mail, its rooms) from [since] on, by time and id, and
    its unread count counts those the reader neither wrote nor acknowledged, modulo 2^32. *)
Theorem inbox_is_exact s a since limit page :
  reachable s →
  inbox s a since limit = Ok page ↔
  ∃ p rec, acting s a p rec ∧ can_read rec ∧
    page = mkInboxPage (take (Z.to_nat limit) (merge_sort inbox_le (mail_of s a p since)))
             (Z.of_nat (length (filter (is_unread s a) (mail_of s a p 0))) mod u32_mod).
Proof. intros Hr. by apply inbox_unfold, wf_keyed, reachable_wf. Qed.

(** For a reader that is no operator, the inbox and [message_get] agree on what it may read:
    a stored message in the window is on a wide enough page exactly when [message_get] returns it. *)
Theorem inbox_agrees_with_message_get s a since limit page p rec m :
  reachable s → inbox s a since limit = Ok page → acting s a p rec → operator rec = false →
  Z.of_nat (size (messages s)) ≤ limit → since ≤ created_at_unix_ms m →
  m ∈ ip_messages page ↔ message_get s a (message_id m) = Ok m.
Proof.
  intros Hr%reachable_wf Hin Hact Hop Hl Hs. pose proof (wf_keyed _ Hr) as Hk.
  pose proof (proj1 (inbox_unfold _ _ _ _ _ Hk) Hin) as (p' & rec' & Hact' & Hrd & _).
  destruct (acting_fun _ _ _ _ _ _ Hact Hact') as [<- <-].
  destruct (inbox_page_complete s a since limit p rec Hk Hact Hrd Hl) as (page' & Hin' & Hm).
  assert (page' = page) as -> by congruence.
  rewrite Hm, elem_of_mail_of, (message_get_iff s a p rec) by done. unfold readable. rewrite Hop. split.
  - intros (_ & Hto & id & Hid). pose proof (Hk _ _ Hid) as <-. auto.
  - intros [Hid [?|?]]; [done|]. eauto.
Qed.

(** Delivery: a message just stored is on the page of every reader it is addressed to, and
    counts as unread for it unless the reader wrote it. *)
Theorem sent_mail_is_delivered n a rq now s s' resp b p rec since limit :
  reachable s → exec (CSend n a rq now) s = (s', Ok (RSent resp)) → idempotency_key rq = None →
  messages s !! derive_message_id a rq now n = None →
  acting s' b p rec → can_read rec → addressed_to s' b p (message_of n a rq now) →
  since ≤ now → Z.of_nat (size (messages s')) ≤ limit → b ≠ a →
  is_unread s' b (message_of n a rq now) ∧
  ∃ page, inbox s' b since limit = Ok page ∧ message_of n a rq now ∈ ip_messages page.
Proof.
  intros Hr Hex Hkey Hnew Hact Hrd Hto Hs Hl Hba.
  assert (Hstep : reachable s').
  { eapply rtc_r; [exact Hr|]. econstructor; [exact Hex|]. cbn. congruence. }
  assert (Hmsg : messages s' !! derive_message_id a rq now n = Some (message_of n a rq now)
                 ∧ acks s' = acks s).
  { apply exec_forward in Hex. inversion Hex; subst; unfold key_of in *; rewrite Hkey in *; cbn in *; [|done].
    by rewrite lookup_insert_eq. }
  destruct Hmsg as [Hmsg Hacks]. split.
  - split; [done|]. cbn. rewrite Hacks. destruct (acks s !! _) as [x|] eqn:Hx; [|done].
    apply reachable_wf in Hr. apply (wf_acks s Hr) in Hx as (_ & _ & _ & [? Hx]). congruence.
  - apply reachable_wf, wf_keyed in Hstep.
    destruct (inbox_page_complete s' b since limit p rec Hstep Hact Hrd Hl) as (page & Hin & Hm).
    exists page. split; [done|]. apply Hm, elem_of_mail_of. eauto.
Qed.

(** Mail addressed to one session is on no page but that session's own, not even its
    account's or a sibling session's. *)
Theorem session_mail_is_isolated s a since limit page m q x :
  reachable s → inbox s a since limit = Ok page → m ∈ ip_messages page → to m = Session q x →
  a = Session q x.
Proof.
  intros Hr%reachable_wf%wf_keyed Hin Hm Hto.
  destruct (inbox_page_sound _ _ _ _ _ _ Hr Hin Hm) as (p & rec & _ & (_ & Hadd & _)%elem_of_mail_of).
  unfold addressed_to in Hadd. by rewrite Hto in Hadd.
Qed.

(** Once an account is removed from a room, no page of that account or its sessions holds the
    room's mail, earlier mail included. *)
Theorem removed_member_reads_no_room_mail s s' room p a since limit page m :
  reachable s → exec (CRemoveMember room p) s = (s', Ok RDone) → account a = Some p →
  inbox s' a since limit = Ok page → m ∈ ip_messages page → to m ≠ Room room.
Proof.
  intros Hr Hex Hacc Hin Hm Hto.
  assert (Hk : keyed s').
  { apply wf_keyed, reachable_wf. eapply rtc_r; [exact Hr|]. by econstructor. }
  destruct (inbox_page_sound _ _ _ _ _ _ Hk Hin Hm) as (q & rec & Hact & (_ & Hadd & _)%elem_of_mail_of).
  apply resolve_identity_iff, resolve_identity_acts in Hact as [Hq _]. unfold acts_as in Hq.
  assert (q = p) as -> by congruence.
  unfold addressed_to in Hadd. rewrite Hto in Hadd.
  apply exec_forward in Hex. inversion Hex; subst. cbn in Hadd. rewrite lookup_insert_eq in Hadd. set_solver.
Qed.

(** A session belongs to the account that first attested it for good: in every later state
    another account's attempt to take it over is refused and changes nothing. *)
Theorem session_is_never_taken_over s s' x r q new_card now s'' res :
  rtc engine_step s s' → sessions s !! x = Some r → q ≠ sess_account r →
  exec (CEnsureSession q x new_card now) s' = (s'', res) → s'' = s' ∧ is_ok res = false.
Proof.
  intros Hsteps%steps_persist Hx Hne Hex.
  destruct (persists_sessions _ _ Hsteps _ _ Hx) as (r' & Hr' & Hacc).
  destruct res as [rep|e]; [|split; [by eapply exec_err|done]].
  apply exec_forward in Hex. inversion Hex as [| | | | | | | | |????? Ha ? Hb| | | | |]; subst.
  exfalso. apply Hne. rewrite <- Hacc. symmetry. auto.
Qed.

(** In every reachable store a secret authenticates exactly the account whose current digest
    is the secret's, so at most one. *)
Theorem authenticate_is_exact s secret id :
  reachable s →
  authenticate s secret = Ok id ↔
  ∃ rec, participants s !! id = Some rec ∧ secret_digest rec = sha256_digest secret.
Proof. intros Hr%reachable_wf. rewrite authenticate_index by done. apply (wf_index s Hr). Qed.

(** Rotating a secret makes the returned secret authenticate the account, ends every secret
    that authenticated it before, and leaves all other accounts' secrets working. *)
Theorem rotation_replaces_secret random id s s' new old q :
  reachable s → randomness_ok s (CRotate random id) → exec (CRotate random id) s = (s', Ok (RSecret new)) →
  authenticate s old = Ok q →
  authenticate s' new = Ok id ∧
  authenticate s' old = (if decide (q = id) then Err (PermissionDenied "mail:authenticate") else Ok q).
Proof.
  intros Hr Hrnd Hex Hold.
  assert (Hwf' : wf s') by (apply reachable_wf; eapply rtc_r; [exact Hr|by econstructor]).
  apply reachable_wf in Hr. apply authenticate_index in Hold; [|done].
  apply exec_forward in Hex. inversion Hex as [| |? ? rec Hrec| | | | | | | | | | | |]; subst.
  cbn in Hrnd. split.
  - apply authenticate_index; [done|]. cbn. by rewrite lookup_insert_eq.
  - pose proof (proj1 (wf_index s Hr _ _) Hold) as (rec' & Hrec' & Hd).
    assert (Hix : digest_index s !! secret_digest rec = Some id) by (apply (wf_index s Hr); eauto).
    case_decide as Hq.
    + subst q. simplify_eq. apply authenticate_none; [done|]. cbn.
      rewrite lookup_insert_ne by congruence. rewrite Hd. apply lookup_delete_eq.
    + apply authenticate_index; [done|]. cbn. rewrite lookup_insert_ne by congruence.
      rewrite lookup_delete_ne; [done|]. congruence.
Qed.
End Theorems.

(** ** Theorems about the parts the engine is built from *)

Lemma before_first_split p s : ∃ rest, s = before_first p s +:+ rest ∧
  match rest with EmptyString => True | String a _ => p a = true end.
Proof.
  induction s as [|a s (rest & Hs & Hr)]; cbn; [by exists EmptyString|].
  destruct (p a) eqn:Ha.
  - exists (String a s). done.
  - exists rest. by rewrite s_app_cons, <- Hs.
Qed.

Definition ends_host (a : ascii) : bool :=
  Ascii.eqb a "/" || Ascii.eqb a "?" || Ascii.eqb a "#" || Ascii.eqb a ":".

(** An accepted listener URL points at the local machine: after [http://] comes the host
    127.0.0.1 or localhost (in any case), ended by the end of the URL or by a port, path, query
    or fragment delimiter, and no userinfo hides another host before the path. *)
Theorem accepted_listener_is_loopback url :
  validate_listener_url url = Ok tt →
  ∃ host rest, url = "http://" +:+ host +:+ rest ∧
    (s_lower host = "127.0.0.1" ∨ s_lower host = "localhost") ∧
    match rest with EmptyString => True | String a _ => ends_host a = true end ∧
    s_contains "@" (url_authority (host +:+ rest)) = false ∧ slen url ≤ LISTENER_URL_MAX_BYTES.
Proof.
  unfold validate_listener_url. rewrite Z.gtb_ltb. intros Hv.
  destruct (Z.ltb_spec LISTENER_URL_MAX_BYTES (slen url)) as [|Hlen]; [done|].
  destruct (has_control url); [done|].
  destruct (strip_prefix "http://" url) as [after|] eqn:Hp; [|done]. apply strip_prefix_Some in Hp.
  destruct (s_contains "@" (url_authority after)) eqn:Hat; [done|].
  destruct (before_first_split (λ a, Ascii.eqb a "/" || Ascii.eqb a "?" || Ascii.eqb a "#") after)
    as (path & Hpath & Hpath').
  fold (url_authority after) in Hpath.
  destruct (before_first_split (λ a, Ascii.eqb a ":") (url_authority after)) as (port & Hport & Hport').
  fold (url_host (url_authority after)) in Hport.
  exists (url_host (url_authority after)), (port +:+ path).
  assert (Heq : after = url_host (url_authority after) +:+ port +:+ path) by (rewrite <- s_app_assoc, <- Hport; exact Hpath).
  split; [by rewrite <- Heq|]. split.
  { destruct (eq_ignore_ascii_case _ "127.0.0.1") eqn:H1; [left|destruct (eq_ignore_ascii_case _ "localhost") eqn:H2; [right|done]];
      unfold eq_ignore_ascii_case in *; boolify; done. }
  split; [|split; [by rewrite <- Heq|done]]. unfold ends_host. destruct port as [|a port].
  - rewrite s_app_nil_l. destruct path as [|a path]; [done|]. by rewrite Hpath'.
  - rewrite s_app_cons, Hport'. apply orb_true_r.
Qed.

(** The textual form of an address is lossless and canonical: an address parses back from its
    own text exactly when it is valid, and any text that parses is the text of what it parses to. *)
Theorem address_text_roundtrip a :
  (Address_validate a = Ok tt ↔ Address_from_str (Address_display a) = Ok a) ∧
  ∀ s, Address_from_str s = Ok a → Address_display a = s.
Proof.
  split; [split|].
  - apply Address_from_display.
  - by intros [_ ?]%Address_display_from.
  - by intros s [? _]%Address_display_from.
Qed.

(** The bytes hashed into a keyed message's id determine sender, request and time, so equal
    ids of different messages need a collision of the truncated hash. *)
Theorem hashed_record_is_unambiguous sender1 sender2 rq1 rq2 now1 now2 nonce1 nonce2 k1 k2 :
  Address_validate sender1 = Ok tt → Address_validate sender2 = Ok tt →
  SendRequest_validate rq1 = Ok tt → SendRequest_validate rq2 = Ok tt →
  0 ≤ now1 < u64_mod → 0 ≤ now2 < u64_mod →
  idempotency_key rq1 = Some k1 → idempotency_key rq2 = Some k2 →
  message_id_preimage sender1 rq1 now1 nonce1 = message_id_preimage sender2 rq2 now2 nonce2 →
  sender1 = sender2 ∧ rq1 = rq2 ∧ now1 = now2.
Proof. apply preimage_inj. Qed.

(** ** Witnesses *)

Module Witnesses.
Import Scenario.

Definition after (c : Command) (s : InMemoryStore) : InMemoryStore := (exec c s).1.

Lemma refusal_leaves_store_witness :
  (exec (CDeregister (mkParticipantId "carol")) s0).1 = s0.
Proof.
  eapply (refusal_leaves_store (CDeregister (mkParticipantId "carol")) s0). vm_compute. reflexivity.
Defined.

Lemma reachable_store_wellformed_witness : wf s1 ∧ size (messages s1) = 3%nat.
Proof. split; [apply (reachable_store_wellformed s1), s1_reachable|apply s1_mail]. Defined.

Lemma mail_is_never_lost_witness : persists s0 s1.
Proof. apply (mail_is_never_lost s0 s1), s0_s1. Defined.

Definition first_send : Command := CSend "n1" (Direct alice) (req (Direct bob) (Some "k1")) 10.
Definition second_send : Command := CSend "n9" (Direct alice) (req (Room ops) (Some "k1")) 99.

Lemma keyed_resend_is_idempotent_witness : after second_send (after first_send s0) = after first_send s0.
Proof.
  eapply (keyed_resend_is_idempotent "n1" "n9" (Direct alice) (req (Direct bob) (Some "k1")) (req (Room ops) (Some "k1"))
            10 99 "k1" s0 (after first_send s0) (after first_send s0) _
            (mkSendResponse id1 (Direct alice)) (mkSendResponse id1 (Direct alice)));
    [vm_compute; reflexivity|reflexivity|apply rtc_refl|vm_compute; reflexivity|reflexivity].
Defined.

Lemma first_ack_wins_witness :
  after (CAck (Direct bob) id1 77) (after (CAck (Direct bob) id1 50) s1) = after (CAck (Direct bob) id1 50) s1.
Proof.
  eapply (first_ack_wins (Direct bob) id1 50 77 s1 (after (CAck (Direct bob) id1 50) s1)
            (after (CAck (Direct bob) id1 50) s1) _ (mkAck id1 (Direct bob) 50) (mkAck id1 (Direct bob) 50));
    [vm_compute; reflexivity|apply rtc_refl|vm_compute; reflexivity].
Defined.

Definition bob_page (limit : Z) : InboxPage :=
  match inbox s1 (Direct bob) 0 limit with Ok page => page | Err _ => mkInboxPage [] 0 end.

Lemma bob_page_ok : inbox s1 (Direct bob) 0 50 = Ok (bob_page 50).
Proof. vm_compute. reflexivity. Qed.

Lemma bob_page_unread : ip_unread (bob_page 50) = 2 ∧ length (ip_messages (bob_page 50)) = 2%nat.
Proof. vm_compute. done. Qed.

Lemma inbox_is_exact_witness : ∃ p rec, acting s1 (Direct bob) p rec ∧ can_read rec ∧
    bob_page 50 = mkInboxPage (take (Z.to_nat 50) (merge_sort inbox_le (mail_of s1 (Direct bob) p 0)))
             (Z.of_nat (length (filter (is_unread s1 (Direct bob)) (mail_of s1 (Direct bob) p 0))) mod u32_mod).
Proof. apply (inbox_is_exact s1 (Direct bob) 0 50 (bob_page 50)); [apply s1_reachable|apply bob_page_ok]. Defined.

Definition bob_record : ParticipantRecord :=
  match participants s1 !! bob with Some r => r | None => mkParticipantRecord None EmptyString false false false None end.

Lemma bob_acts s : participants s !! bob = Some bob_record → acting s (Direct bob) bob bob_record.
Proof. intros Hb. split; [reflexivity|]. by split. Qed.

Definition msg1 : Message := message_of "n1" (Direct alice) (req (Direct bob) (Some "k1")) 10.

Lemma inbox_agrees_with_message_get_witness :
  msg1 ∈ ip_messages (bob_page 50) ↔ message_get s1 (Direct bob) id1 = Ok msg1.
Proof.
  apply (inbox_agrees_with_message_get s1 (Direct bob) 0 50 (bob_page 50) bob bob_record msg1).
  - apply s1_reachable.
  - apply bob_page_ok.
  - apply bob_acts. vm_compute. reflexivity.
  - vm_compute. reflexivity.
  - rewrite s1_mail. lia.
  - cbn. lia.
Defined.

Definition third_send : Command := CSend "n4" (Direct alice) (req (Direct bob) None) 20.

Lemma sent_mail_is_delivered_witness :
  ∃ page, inbox (after third_send s1) (Direct bob) 15 50 = Ok page ∧
    message_of "n4" (Direct alice) (req (Direct bob) None) 20 ∈ ip_messages page.
Proof.
  eapply (sent_mail_is_delivered "n4" (Direct alice) (req (Direct bob) None) 20 s1 (after third_send s1)
    _ (Direct bob) bob bob_record 15 50).
  - apply s1_reachable.
  - vm_compute. reflexivity.
  - reflexivity.
  - vm_compute. reflexivity.
  - apply bob_acts. vm_compute. reflexivity.
  - left. vm_compute. reflexivity.
  - reflexivity.
  - lia.
  - apply Z.leb_le. vm_compute. reflexivity.
  - done.
Defined.

Definition session_page : InboxPage :=
  match inbox s1 (Session bob sess) 0 50 with Ok page => page | Err _ => mkInboxPage [] 0 end.
Definition msg3 : Message := message_of "n3" (Direct alice) (req (Session bob sess) None) 12.

Lemma session_mail_is_isolated_witness : msg3 ∈ ip_messages session_page ∧ Session bob sess = to msg3.
Proof.
  assert (Hm : msg3 ∈ ip_messages session_page) by (apply (bool_decide_unpack _); vm_compute; exact I).
  split; [exact Hm|].
  apply (session_mail_is_isolated s1 (Session bob sess) 0 50 session_page msg3 bob sess);
    [apply s1_reachable|vm_compute; reflexivity|exact Hm|reflexivity].
Defined.

Definition expelled : InMemoryStore := after (CRemoveMember ops bob) s1.
Definition expelled_page : InboxPage :=
  match inbox expelled (Direct bob) 0 50 with Ok page => page | Err _ => mkInboxPage [] 0 end.

Lemma removed_member_reads_no_room_mail_witness : msg1 ∈ ip_messages expelled_page ∧ to msg1 ≠ Room ops.
Proof.
  assert (Hm : msg1 ∈ ip_messages expelled_page) by (apply (bool_decide_unpack _); vm_compute; exact I).
  split; [exact Hm|].
  apply (removed_member_reads_no_room_mail s1 expelled ops bob (Direct bob) 0 50 expelled_page msg1);
    [apply s1_reachable|vm_compute; reflexivity|reflexivity|vm_compute; reflexivity|exact Hm].
Defined.

Definition sess_record : SessionRecord := mkSessionRecord bob card0 6.

Lemma session_is_never_taken_over_witness : after (CEnsureSession alice sess card0 30) s1 = s1.
Proof.
  eapply (session_is_never_taken_over s0 s1 sess sess_record alice card0 30);
    [apply s0_s1|vm_compute; reflexivity|done|apply surjective_pairing].
Defined.

Lemma authenticate_is_exact_witness : authenticate s1 (generate_secret "r2") = Ok bob.
Proof.
  apply (authenticate_is_exact s1 (generate_secret "r2") bob); [apply s1_reachable|].
  exists bob_record. split; vm_compute; reflexivity.
Defined.

Lemma rotation_replaces_secret_witness :
  authenticate (after (CRotate "r7" bob) s1) (generate_secret "r2") = Err (PermissionDenied "mail:authenticate").
Proof.
  eapply (rotation_replaces_secret "r7" bob s1 (after (CRotate "r7" bob) s1) (generate_secret "r7") (generate_secret "r2") bob);
    [apply s1_reachable|vm_compute; reflexivity|vm_compute; reflexivity|vm_compute; reflexivity].
Defined.

Lemma accepted_listener_is_loopback_witness : ∃ host rest,
  "http://LocalHost:80/x" = "http://" +:+ host +:+ rest ∧
  (s_lower host = "127.0.0.1" ∨ s_lower host = "localhost") ∧
  match rest with EmptyString => True | String a _ => ends_host a = true end ∧
  s_contains "@" (url_authority (host +:+ rest)) = false ∧ slen "http://LocalHost:80/x" ≤ LISTENER_URL_MAX_BYTES.
Proof. apply (accepted_listener_is_loopback "http://LocalHost:80/x"). vm_compute. reflexivity. Defined.

Lemma hashed_record_is_unambiguous_witness : req (Direct bob) (Some "k1") = req (Direct bob) (Some "k1").
Proof.
  apply (hashed_record_is_unambiguous (Direct alice) (Direct alice) (req (Direct bob) (Some "k1"))
           (req (Direct bob) (Some "k1")) 10 10 "n1" "n2" "k1" "k1"); try reflexivity; unfold u64_mod; lia.
Defined.
End Witnesses.
