(* ===== verification/Sqlite.v ===== *)
(** * The SQLite store (crates/mail4agent-store-sqlite/src/store.rs, migrations.rs)

    [SqliteMailStore]: the tables of the schema (after migration v3) are lists of rows, a SQL
    statement of the source is the list operation it denotes, with the schema's PRIMARY KEY,
    UNIQUE, REFERENCES and CHECK constraints as the conditions under which an INSERT or UPDATE
    fails. A failing transaction leaves the tables as they were. Row order is insertion order; no
    theorem relies on the order of a SELECT without ORDER BY. Failures of the machine (disk,
    lock) are not modelled. [serde_json] is a parameter with its round trip as a law. The lemmas on
    tables that hold a map are at the end. *)

From S2P Require Import Prelude Api MailStore.

Local Open Scope Z_scope.

(** ** What the store uses of [serde_json] *)

(** [MessagePayloadWrite] and [MessagePayloadRead]: the same JSON object, borrowed and owned. *)
Record MessagePayload := mkMessagePayload {
  pl_subject : string;
  pl_body : string;
  pl_reply_to : option string;
  pl_correlation : option string;
  pl_refs : list MessageRef }.

Class StoreJson := {
  payload_to_string : MessagePayload → result string string;
  payload_from_str : string → result MessagePayload string;
  card_to_string : SessionCard → result string string;
  card_from_str : string → result SessionCard string
}.

Class StoreJsonLaws `{StoreJson} : Prop := {
  payload_roundtrip p : ∃ s, payload_to_string p = Ok s ∧ payload_from_str s = Ok p;
  card_roundtrip c : ∃ s, card_to_string c = Ok s ∧ card_from_str s = Ok c
}.

(** ** Tables *)

Record ParticipantRow := mkParticipantRow {
  p_row_id : string;
  p_row_label : option string;
  p_row_secret_digest : string;
  p_row_may_send : bool;
  p_row_may_read : bool;
  p_row_operator : bool;
  p_row_listener_url : option string }.

Record RoomRow := mkRoomRow { r_row_id : string; r_row_created_at : Z }.

Record MemberRow := mkMemberRow { m_row_room : string; m_row_participant : string }.

Record StoredMessageRow := mkStoredMessageRow {
  row_message_id : string;
  row_from_participant : string;
  row_from_kind : string;
  row_from_session : option string;
  row_to_kind : string;
  row_to_participant : option string;
  row_to_session : option string;
  row_to_room : option string;
  row_created_at : Z;
  row_payload : string }.

Record AckRow := mkAckRow { a_row_message_id : string; a_row_reader : string; a_row_acked_at : Z }.

Record IdempotencyRow := mkIdempotencyRow { i_row_sender : string; i_row_key : string; i_row_message_id : string }.

Record SessionRow := mkSessionRow {
  s_row_session_id : string;
  s_row_account : string;
  s_row_card : string;
  s_row_last_seen : Z }.

Record Db := mkDb {
  t_participants : list ParticipantRow;
  t_rooms : list RoomRow;
  t_room_members : list MemberRow;
  t_messages : list StoredMessageRow;
  t_acks : list AckRow;
  t_idempotency : list IdempotencyRow;
  t_sessions : list SessionRow }.

Definition Db_empty : Db := mkDb [] [] [] [] [] [] [].

Definition set_t_participants (d : Db) t : Db :=
  mkDb t (t_rooms d) (t_room_members d) (t_messages d) (t_acks d) (t_idempotency d) (t_sessions d).
Definition set_t_rooms (d : Db) t : Db :=
  mkDb (t_participants d) t (t_room_members d) (t_messages d) (t_acks d) (t_idempotency d) (t_sessions d).
Definition set_t_room_members (d : Db) t : Db :=
  mkDb (t_participants d) (t_rooms d) t (t_messages d) (t_acks d) (t_idempotency d) (t_sessions d).
Definition set_t_messages (d : Db) t i : Db :=
  mkDb (t_participants d) (t_rooms d) (t_room_members d) t (t_acks d) i (t_sessions d).
Definition set_t_acks (d : Db) t : Db :=
  mkDb (t_participants d) (t_rooms d) (t_room_members d) (t_messages d) t (t_idempotency d) (t_sessions d).
Definition set_t_sessions (d : Db) t : Db :=
  mkDb (t_participants d) (t_rooms d) (t_room_members d) (t_messages d) (t_acks d) (t_idempotency d) t.

(** Whether a row satisfies [p] exists: what a key or index constraint asks. *)
Definition exists_row {A} (p : A → bool) (t : list A) : bool := existsb p t.

(** [SELECT .. WHERE ..] with at most one row: [query_row(..).optional()]. *)
Definition find_row {A} (p : A → bool) (t : list A) : option A := List.find p t.

Definition select {A} (p : A → bool) (t : list A) : list A := List.filter p t.

Definition seqb (a b : string) : bool := bool_decide (a = b).

(** [ORDER BY] a string or an integer column. *)
Definition text_le {A} (key : A → string) (a b : A) : Prop := String.le (key a) (key b).
Definition int_le {A} (key : A → Z) (a b : A) : Prop := key a ≤ key b.

#[export] Instance text_le_dec {A} (key : A → string) a b : Decision (text_le key a b).
Proof. unfold text_le. apply _. Defined.
#[export] Instance int_le_dec {A} (key : A → Z) a b : Decision (int_le key a b).
Proof. unfold int_le. apply _. Defined.

Definition order_by_text {A} (key : A → string) (t : list A) : list A := merge_sort (text_le key) t.
Definition order_by_int {A} (key : A → Z) (t : list A) : list A := merge_sort (int_le key) t.

(** ** Address columns *)

Definition to_address_columns (a : Address) : string * option string * option string * option string :=
  match a with
  | Direct participant => ("direct", Some (ParticipantId_str participant), None, None)
  | Session participant session =>
      ("session", Some (ParticipantId_str participant), Some (SessionId_str session), None)
  | Room room => ("room", None, None, Some (RoomId_str room))
  end.

Definition from_address_columns (a : Address) : result (string * string * option string) StoreError :=
  match a with
  | Direct participant => Ok ("direct", ParticipantId_str participant, None)
  | Session participant session =>
      Ok ("session", ParticipantId_str participant, Some (SessionId_str session))
  | Room room =>
      Err (mkStoreError ("a message's `from` must not be a room address (got " +:+ quoted (RoomId_str room) +:+ ")"))
  end.

(** The text of a store error is not observable through the engine; here it names the failing step. *)
Definition corrupt (what : string) : StoreError := mkStoreError what.

Definition address_from_to_columns (kind : string) (to_participant to_session to_room : option string) :
    result Address StoreError :=
  if seqb kind "direct" then
    let? participant := ok_or to_participant (corrupt "stored message has to_kind = direct but to_participant is NULL") in
    let? participant := map_err (λ _, corrupt "stored direct recipient id failed validation") (ParticipantId_new participant) in
    Ok (Direct participant)
  else if seqb kind "session" then
    let? participant := ok_or to_participant (corrupt "stored message has to_kind = session but to_participant is NULL") in
    let? participant := map_err (λ _, corrupt "stored session recipient account id failed validation") (ParticipantId_new participant) in
    let? session := ok_or to_session (corrupt "stored message has to_kind = session but to_session is NULL") in
    let? session := map_err (λ _, corrupt "stored session recipient id failed validation") (SessionId_new session) in
    Ok (Session participant session)
  else if seqb kind "room" then
    let? room := ok_or to_room (corrupt "stored message has to_kind = room but to_room is NULL") in
    let? room := map_err (λ _, corrupt "stored room recipient id failed validation") (RoomId_new room) in
    Ok (Room room)
  else Err (corrupt "stored message has unknown to_kind").

Definition address_from_from_columns (kind from_participant : string) (from_session : option string) :
    result Address StoreError :=
  let? participant := map_err (λ _, corrupt "stored sender id failed validation") (ParticipantId_new from_participant) in
  if seqb kind "direct" then Ok (Direct participant)
  else if seqb kind "session" then
    let? session := ok_or from_session (corrupt "stored message has from_kind = session but from_session is NULL") in
    let? session := map_err (λ _, corrupt "stored sender session id failed validation") (SessionId_new session) in
    Ok (Session participant session)
  else Err (corrupt "stored message has unknown from_kind").

Definition address_text (a : Address) : string := Address_display a.

(** [u64::try_from] of a stored integer. *)
Definition read_u64 (n : Z) : result Z StoreError := ok_or (u64_try_from n) (corrupt "stored integer is negative").

(** [i64::try_from] of a value to store. *)
Definition store_i64 (n : Z) : result Z StoreError := ok_or (i64_try_from n) (corrupt "value overflows i64").

(** [digest_from_row] *)
Definition digest_from_row (bytes : string) : result SecretDigest StoreError :=
  if slen bytes =? 32 then Ok bytes else Err (corrupt "secret_digest column must be exactly 32 bytes").

Section Store.
Context `{StoreJson}.

Definition assemble_message (row : StoredMessageRow) : result Message StoreError :=
  let? id := map_err (λ _, corrupt "stored message id failed validation") (MessageId_new (row_message_id row)) in
  let? from := address_from_from_columns (row_from_kind row) (row_from_participant row) (row_from_session row) in
  let? to := address_from_to_columns (row_to_kind row) (row_to_participant row) (row_to_session row) (row_to_room row) in
  let? created := read_u64 (row_created_at row) in
  let? payload := map_err (λ _, corrupt "stored message payload failed to parse") (payload_from_str (row_payload row)) in
  let? reply :=
    match pl_reply_to payload with
    | None => Ok None
    | Some id => result_map Some (map_err (λ _, corrupt "stored reply_to failed validation") (MessageId_new id))
    end in
  Ok (mkMessage id from to (pl_subject payload) (pl_body payload) reply (pl_correlation payload) (pl_refs payload) created).

(** ** The methods *)

Definition participant_row (id : ParticipantId) (r : ParticipantRecord) : ParticipantRow :=
  mkParticipantRow (ParticipantId_str id) (label r) (secret_digest r) (may_send r) (may_read r) (operator r) (listener_url r).

Definition constraint_violation : StoreError := mkStoreError "constraint violation".

Definition sql_register_participant (d : Db) (id : ParticipantId) (r : ParticipantRecord) : Db * result unit StoreError :=
  if exists_row (λ row, seqb (p_row_id row) (ParticipantId_str id)) (t_participants d)
     || exists_row (λ row, seqb (p_row_secret_digest row) (secret_digest r)) (t_participants d)
  then (d, Err constraint_violation)
  else (set_t_participants d (t_participants d ++ [participant_row id r]), Ok tt).

Definition sql_deregister_participant (d : Db) (id : ParticipantId) : Db * result unit StoreError :=
  (set_t_participants d (select (λ row, negb (seqb (p_row_id row) (ParticipantId_str id))) (t_participants d)), Ok tt).

Definition row_with_digest (row : ParticipantRow) (digest : string) : ParticipantRow :=
  mkParticipantRow (p_row_id row) (p_row_label row) digest (p_row_may_send row) (p_row_may_read row)
    (p_row_operator row) (p_row_listener_url row).
Definition row_with_url (row : ParticipantRow) (url : option string) : ParticipantRow :=
  mkParticipantRow (p_row_id row) (p_row_label row) (p_row_secret_digest row) (p_row_may_send row) (p_row_may_read row)
    (p_row_operator row) url.

(** The UNIQUE index fails the UPDATE when another row holds the digest. *)
Definition sql_set_participant_secret_digest (d : Db) (id : ParticipantId) (digest : SecretDigest) :
    Db * result unit StoreError :=
  if exists_row (λ row, seqb (p_row_id row) (ParticipantId_str id)) (t_participants d) &&
     exists_row (λ row, negb (seqb (p_row_id row) (ParticipantId_str id)) && seqb (p_row_secret_digest row) digest)
       (t_participants d)
  then (d, Err constraint_violation)
  else
    (set_t_participants d
       ((λ row, if seqb (p_row_id row) (ParticipantId_str id) then row_with_digest row digest else row)
          <$> t_participants d), Ok tt).

Definition sql_set_listener_url (d : Db) (id : ParticipantId) (url : option string) : Db * result unit StoreError :=
  (set_t_participants d
     ((λ row, if seqb (p_row_id row) (ParticipantId_str id) then row_with_url row url else row) <$> t_participants d), Ok tt).

Definition sql_get_participant (d : Db) (id : ParticipantId) : result (option ParticipantRecord) StoreError :=
  match find_row (λ row, seqb (p_row_id row) (ParticipantId_str id)) (t_participants d) with
  | None => Ok None
  | Some row =>
      let? digest := digest_from_row (p_row_secret_digest row) in
      Ok (Some (mkParticipantRecord (p_row_label row) digest (p_row_may_send row) (p_row_may_read row)
                  (p_row_operator row) (p_row_listener_url row)))
  end.

Definition sql_find_participant_by_digest (d : Db) (digest : SecretDigest) :
    result (option (ParticipantId * ParticipantRecord)) StoreError :=
  match find_row (λ row, seqb (p_row_secret_digest row) digest) (t_participants d) with
  | None => Ok None
  | Some row =>
      let? id := map_err (λ _, corrupt "stored participant id failed validation") (ParticipantId_new (p_row_id row)) in
      Ok (Some (id, mkParticipantRecord (p_row_label row) digest (p_row_may_send row) (p_row_may_read row)
                      (p_row_operator row) (p_row_listener_url row)))
  end.

Definition sql_create_room (d : Db) (id : RoomId) (created_at : Z) : Db * result unit StoreError :=
  try? created := store_i64 created_at on d in
  if exists_row (λ row, seqb (r_row_id row) (RoomId_str id)) (t_rooms d)
  then (d, Err constraint_violation)
  else (set_t_rooms d (t_rooms d ++ [mkRoomRow (RoomId_str id) created]), Ok tt).

Definition member_eqb (room participant : string) (row : MemberRow) : bool :=
  seqb (m_row_room row) room && seqb (m_row_participant row) participant.

(** ON CONFLICT DO NOTHING skips the row; the foreign key on the room still holds. *)
Definition sql_add_room_member (d : Db) (room : RoomId) (p : ParticipantId) : Db * result unit StoreError :=
  if exists_row (member_eqb (RoomId_str room) (ParticipantId_str p)) (t_room_members d) then (d, Ok tt)
  else if exists_row (λ row, seqb (r_row_id row) (RoomId_str room)) (t_rooms d)
  then (set_t_room_members d (t_room_members d ++ [mkMemberRow (RoomId_str room) (ParticipantId_str p)]), Ok tt)
  else (d, Err constraint_violation).

Definition sql_remove_room_member (d : Db) (room : RoomId) (p : ParticipantId) : Db * result unit StoreError :=
  (set_t_room_members d
     (select (λ row, negb (member_eqb (RoomId_str room) (ParticipantId_str p) row)) (t_room_members d)), Ok tt).

(** Validating a column of member ids into a set. *)
Definition member_set (ids : list string) : result (gset ParticipantId) StoreError :=
  let? ids := try_map (λ id, map_err (λ _, corrupt "stored member id failed validation") (ParticipantId_new id)) ids in
  Ok (list_to_set ids).

Definition sql_get_room (d : Db) (id : RoomId) : result (option RoomRecord) StoreError :=
  match find_row (λ row, seqb (r_row_id row) (RoomId_str id)) (t_rooms d) with
  | None => Ok None
  | Some row =>
      let? created := read_u64 (r_row_created_at row) in
      let? members := member_set (m_row_participant <$> select (λ row, seqb (m_row_room row) (RoomId_str id)) (t_room_members d)) in
      Ok (Some (mkRoomRecord created members))
  end.

Definition message_row (m : Message) (from : string * string * option string) (created : Z) (payload : string) :
    StoredMessageRow :=
  let '(from_kind, from_participant, from_session) := from in
  let '(to_kind, to_participant, to_session, to_room) := to_address_columns (to m) in
  mkStoredMessageRow (MessageId_str (message_id m)) from_participant from_kind from_session
    to_kind to_participant to_session to_room created payload.

Definition message_payload (m : Message) : MessagePayload :=
  mkMessagePayload (subject m) (body m) (MessageId_str <$> reply_to m) (correlation m) (refs m).

Definition sql_insert_message (d : Db) (m : Message) (key : option (Address * string)) :
    Db * result InsertMessageOutcome StoreError :=
  try? from := from_address_columns (from m) on d in
  try? payload := map_err (λ _, corrupt "serialize payload") (payload_to_string (message_payload m)) on d in
  try? created := store_i64 (created_at_unix_ms m) on d in
  if exists_row (λ row, seqb (row_message_id row) (MessageId_str (message_id m))) (t_messages d)
  then (d, Err constraint_violation)
  else
    let messages := t_messages d ++ [message_row m from created payload] in
    match key with
    | None => (set_t_messages d messages (t_idempotency d), Ok Inserted)
    | Some (sender, key) =>
        match find_row (λ row, seqb (i_row_sender row) (address_text sender) && seqb (i_row_key row) key) (t_idempotency d) with
        | None =>
            (set_t_messages d messages
               (t_idempotency d ++ [mkIdempotencyRow (address_text sender) key (MessageId_str (message_id m))]), Ok Inserted)
        | Some row =>
            (d, let? existing := map_err (λ _, corrupt "stored idempotency row names an invalid message id")
                                   (MessageId_new (i_row_message_id row)) in
                Ok (Deduplicated existing))
        end
    end.

Definition sql_get_message (d : Db) (id : MessageId) : result (option Message) StoreError :=
  match find_row (λ row, seqb (row_message_id row) (MessageId_str id)) (t_messages d) with
  | None => Ok None
  | Some row => result_map Some (assemble_message row)
  end.

Definition oeqb (o : option string) (s : string) : bool := bool_decide (o = Some s).

Definition sql_messages_to_since (d : Db) (a : Address) (since : Z) : result (list Message) StoreError :=
  let? since := store_i64 since in
  let? rows :=
    match a with
    | Direct participant =>
        Ok (order_by_int row_created_at (select (λ row,
              seqb (row_to_kind row) "direct" && oeqb (row_to_participant row) (ParticipantId_str participant)
              && (since <=? row_created_at row)) (t_messages d)))
    | Session participant session =>
        Ok (order_by_int row_created_at (select (λ row,
              seqb (row_to_kind row) "session" && oeqb (row_to_participant row) (ParticipantId_str participant)
              && oeqb (row_to_session row) (SessionId_str session)
              && (since <=? row_created_at row)) (t_messages d)))
    | Room _ => Err (corrupt "a room address must use room_messages_since instead")
    end in
  try_map assemble_message rows.

Definition sql_room_messages_since (d : Db) (room : RoomId) (since : Z) : result (list Message) StoreError :=
  let? since := store_i64 since in
  try_map assemble_message
    (order_by_int row_created_at (select (λ row,
       seqb (row_to_kind row) "room" && oeqb (row_to_room row) (RoomId_str room) && (since <=? row_created_at row))
       (t_messages d))).

Definition sql_rooms_containing (d : Db) (p : ParticipantId) : result (list RoomId) StoreError :=
  try_map (λ id, map_err (λ _, corrupt "stored room id failed validation") (RoomId_new id))
    (m_row_room <$> select (λ row, seqb (m_row_participant row) (ParticipantId_str p)) (t_room_members d)).

(** The upsert's no-op update keeps the first row; RETURNING reads whichever is on file. *)
Definition sql_record_ack (d : Db) (a : Ack) : Db * result Ack StoreError :=
  try? acked := store_i64 (acked_at_unix_ms a) on d in
  let reader_text := address_text (reader a) in
  let '(d, stored) :=
    match find_row (λ row, seqb (a_row_message_id row) (MessageId_str (ack_message_id a)) && seqb (a_row_reader row) reader_text)
            (t_acks d) with
    | Some row => (d, a_row_acked_at row)
    | None => (set_t_acks d (t_acks d ++ [mkAckRow (MessageId_str (ack_message_id a)) reader_text acked]), acked)
    end in
  (d, let? at_ := read_u64 stored in Ok (mkAck (ack_message_id a) (reader a) at_)).

Definition sql_get_ack (d : Db) (id : MessageId) (r : Address) : result (option Ack) StoreError :=
  match find_row (λ row, seqb (a_row_message_id row) (MessageId_str id) && seqb (a_row_reader row) (address_text r)) (t_acks d) with
  | None => Ok None
  | Some row => let? at_ := read_u64 (a_row_acked_at row) in Ok (Some (mkAck id r at_))
  end.

Definition sql_list_participants (d : Db) : result (list ParticipantSummary) StoreError :=
  try_map (λ row,
    let? id := map_err (λ _, corrupt "stored participant id failed validation") (ParticipantId_new (p_row_id row)) in
    Ok (mkParticipantSummary id (p_row_label row))) (order_by_text p_row_id (t_participants d)).

(** The source groups the membership rows by room first, validating every one of them. *)
Definition sql_list_rooms (d : Db) : result (list RoomSummary) StoreError :=
  let? _ := member_set (m_row_participant <$> t_room_members d) in
  try_map (λ row,
    let? members := member_set (m_row_participant <$> select (λ m, seqb (m_row_room m) (r_row_id row)) (t_room_members d)) in
    let? id := map_err (λ _, corrupt "stored room id failed validation") (RoomId_new (r_row_id row)) in
    Ok (mkRoomSummary id members)) (order_by_text r_row_id (t_rooms d)).

Definition sql_get_session (d : Db) (id : SessionId) : result (option SessionRecord) StoreError :=
  match find_row (λ row, seqb (s_row_session_id row) (SessionId_str id)) (t_sessions d) with
  | None => Ok None
  | Some row =>
      let? account := map_err (λ _, corrupt "stored account failed validation") (ParticipantId_new (s_row_account row)) in
      let? card := map_err (λ _, corrupt "stored card failed to parse") (card_from_str (s_row_card row)) in
      let? seen := read_u64 (s_row_last_seen row) in
      Ok (Some (mkSessionRecord account card seen))
  end.

Definition sql_upsert_session (d : Db) (id : SessionId) (r : SessionRecord) : Db * result unit StoreError :=
  try? card_json := map_err (λ _, corrupt "serialize card") (card_to_string (card r)) on d in
  try? seen := store_i64 (last_seen_unix_ms r) on d in
  let new := mkSessionRow (SessionId_str id) (ParticipantId_str (sess_account r)) card_json seen in
  if exists_row (λ row, seqb (s_row_session_id row) (SessionId_str id)) (t_sessions d)
  then (set_t_sessions d ((λ row, if seqb (s_row_session_id row) (SessionId_str id) then new else row) <$> t_sessions d), Ok tt)
  else (set_t_sessions d (t_sessions d ++ [new]), Ok tt).

Definition sql_sessions_of (d : Db) (p : ParticipantId) : result (list (SessionId * SessionRecord)) StoreError :=
  try_map (λ row,
    let? id := map_err (λ _, corrupt "stored session id failed validation") (SessionId_new (s_row_session_id row)) in
    let? card := map_err (λ _, corrupt "stored card failed to parse") (card_from_str (s_row_card row)) in
    let? seen := read_u64 (s_row_last_seen row) in
    Ok (id, mkSessionRecord p card seen))
    (order_by_text s_row_session_id (select (λ row, seqb (s_row_account row) (ParticipantId_str p)) (t_sessions d))).

#[export] Instance Db_MailStore : MailStore Db := {|
  register_participant := sql_register_participant;
  deregister_participant := sql_deregister_participant;
  set_participant_secret_digest := sql_set_participant_secret_digest;
  set_listener_url := sql_set_listener_url;
  get_participant := sql_get_participant;
  find_participant_by_digest := sql_find_participant_by_digest;
  create_room := sql_create_room;
  add_room_member := sql_add_room_member;
  remove_room_member := sql_remove_room_member;
  get_room := sql_get_room;
  insert_message := sql_insert_message;
  get_message := sql_get_message;
  messages_to_since := sql_messages_to_since;
  room_messages_since := sql_room_messages_since;
  rooms_containing := sql_rooms_containing;
  record_ack := sql_record_ack;
  get_ack := sql_get_ack;
  list_participants := sql_list_participants;
  list_rooms := sql_list_rooms;
  get_session := sql_get_session;
  upsert_session := sql_upsert_session;
  sessions_of := sql_sessions_of
|}.
End Store.

(** * Tables that hold a map

    The refinement of the SQLite store rests on one relation: a table [t] holds a map [m] under
    an encoding of entries as rows when its rows are the encoded entries, each once, in any
    order. The statements the store issues act on such a table as the map operation they stand
    for; this file has one lemma per form of statement. *)

Lemma select_filter {A} (p : A → bool) l : select p l = filter (λ x, p x = true) l.
Proof.
  induction l as [|x l IH]; [done|]. rewrite filter_cons, <- IH.
  change (select p (x :: l)) with (if p x then x :: select p l else select p l).
  destruct (p x); [by rewrite decide_True|by rewrite decide_False].
Qed.

Lemma elem_of_select {A} (p : A → bool) l x : x ∈ select p l ↔ x ∈ l ∧ p x = true.
Proof. rewrite select_filter, list_elem_of_filter. tauto. Qed.

Lemma seqb_true a b : seqb a b = true ↔ a = b.
Proof. unfold seqb. apply bool_decide_eq_true. Qed.

Lemma seqb_refl a : seqb a a = true.
Proof. by apply seqb_true. Qed.

Lemma find_row_Some {A} (p : A → bool) l x : find_row p l = Some x → x ∈ l ∧ p x = true.
Proof. intros [Hin Hp]%List.find_some. by rewrite list_elem_of_In. Qed.

Lemma find_row_None {A} (p : A → bool) l x : find_row p l = None → x ∈ l → p x = false.
Proof. intros Hnone Hin. rewrite list_elem_of_In in Hin. by apply (List.find_none p l). Qed.

Lemma exists_row_true {A} (p : A → bool) l : exists_row p l = true ↔ ∃ x, x ∈ l ∧ p x = true.
Proof. unfold exists_row. rewrite existsb_exists. by setoid_rewrite list_elem_of_In. Qed.

Lemma exists_row_find {A} (p : A → bool) l : exists_row p l = is_some (find_row p l).
Proof. induction l as [|x l IH]; [done|]. cbn. by destruct (p x). Qed.

(** Collecting results that are all [Ok]. *)
Lemma try_map_total {A B E} (f : A → result B E) (g : A → B) l :
  (∀ x, x ∈ l → f x = Ok (g x)) → try_map f l = Ok (g <$> l).
Proof.
  induction l as [|x l IH]; intros Hf; [done|]. cbn. rewrite Hf by left. rewrite IH; [done|].
  intros y Hy. apply Hf. by right.
Qed.

Section Table.
Context {K V Row : Type} `{Countable K} (enc : K → V → Row).
Implicit Types (m : gmap K V) (t : list Row).

Definition holds m t : Prop := t ≡ₚ uncurry enc <$> map_to_list m.

(** [p] is the WHERE clause that names the key [k]. *)
Definition names m (p : Row → bool) (k : K) : Prop :=
  ∀ k' v, m !! k' = Some v → p (enc k' v) = bool_decide (k' = k).

Lemma elem_of_holds m t row : holds m t → row ∈ t ↔ ∃ k v, m !! k = Some v ∧ row = enc k v.
Proof.
  intros ->. rewrite list_elem_of_fmap. split.
  - intros ([k v] & -> & Hkv%elem_of_map_to_list). by exists k, v.
  - intros (k & v & Hkv & ->). exists (k, v). by rewrite elem_of_map_to_list.
Qed.

Lemma holds_empty : holds ∅ [].
Proof. unfold holds. by rewrite map_to_list_empty. Qed.

Lemma find_holds m t p k : holds m t → names m p k → find_row p t = enc k <$> m !! k.
Proof.
  intros Ht Hp. destruct (find_row p t) as [row|] eqn:Hf.
  - apply find_row_Some in Hf as [Hin Hrow]. apply (elem_of_holds _ _ _ Ht) in Hin as (k' & v & Hk' & ->).
    rewrite (Hp _ _ Hk'), bool_decide_eq_true in Hrow. subst k'. by rewrite Hk'.
  - destruct (m !! k) as [v|] eqn:Hk; [|done].
    assert (Hin : enc k v ∈ t) by (apply (elem_of_holds _ _ _ Ht); eauto).
    apply (find_row_None _ _ _ Hf) in Hin. by rewrite (Hp _ _ Hk), bool_decide_true in Hin.
Qed.

Lemma exists_holds m t p k : holds m t → names m p k → exists_row p t = is_some (m !! k).
Proof. intros Ht Hp. rewrite exists_row_find, (find_holds _ _ _ _ Ht Hp). by destruct (m !! k). Qed.

Lemma holds_insert m t k v : holds m t → m !! k = None → holds (<[k := v]> m) (t ++ [enc k v]).
Proof.
  unfold holds. intros Ht Hk. rewrite map_to_list_insert by done. cbn. rewrite <- Ht.
  by rewrite <- Permutation_cons_append.
Qed.

Lemma holds_select m t p (P : K * V → Prop) `{!∀ kv, Decision (P kv)} :
  holds m t → (∀ k v, m !! k = Some v → p (enc k v) = bool_decide (P (k, v))) →
  select p t ≡ₚ uncurry enc <$> filter P (map_to_list m).
Proof.
  intros Ht Hp. rewrite select_filter. unfold holds in Ht. rewrite Ht. clear Ht.
  assert (Hall : ∀ kv, kv ∈ map_to_list m → p (uncurry enc kv) = bool_decide (P kv)).
  { intros [k v] Hkv%elem_of_map_to_list. by apply Hp. }
  induction (map_to_list m) as [|kv l IH]; [done|]. rewrite fmap_cons, !filter_cons.
  specialize (IH (λ kv' Hin, Hall kv' (list_elem_of_further _ _ _ Hin))).
  rewrite (Hall kv) by left. case_bool_decide as HP.
  - rewrite !decide_True by done. by rewrite fmap_cons, IH.
  - rewrite !decide_False by done. done.
Qed.

Lemma filter_all {A} (P : A → Prop) `{!∀ x, Decision (P x)} (l : list A) :
  (∀ x, x ∈ l → P x) → filter P l = l.
Proof.
  induction l as [|x l IH]; intros HP; [done|]. rewrite filter_cons, decide_True by (apply HP; left).
  f_equal. apply IH. intros y Hy. apply HP. by right.
Qed.

Lemma filter_not_key m k : filter (λ kv, kv.1 ≠ k) (map_to_list m) ≡ₚ map_to_list (delete k m).
Proof.
  assert (Hrest : filter (λ kv, kv.1 ≠ k) (map_to_list (delete k m)) = map_to_list (delete k m)).
  { apply filter_all. intros [k' v'] Hin%elem_of_map_to_list. cbn. intros ->. by rewrite lookup_delete_eq in Hin. }
  destruct (m !! k) as [v|] eqn:Hk; [|by rewrite (delete_id m k Hk) in Hrest |- *; rewrite Hrest].
  rewrite <- (map_to_list_delete m k v Hk), filter_cons, decide_False, Hrest; [done|]. cbn. tauto.
Qed.

Lemma holds_delete m t p k :
  holds m t → names m p k → holds (delete k m) (select (λ row, negb (p row)) t).
Proof.
  intros Ht Hp. unfold holds. rewrite <- filter_not_key. apply holds_select; [done|].
  intros k' v Hk. rewrite (Hp _ _ Hk). cbn. by repeat case_bool_decide.
Qed.

(** UPDATE of the row of [k], which is on file. *)
Lemma holds_update m t k v v' (f : Row → Row) :
  holds m t → m !! k = Some v → f (enc k v) = enc k v' →
  (∀ k' w, m !! k' = Some w → k' ≠ k → f (enc k' w) = enc k' w) →
  holds (<[k := v']> m) (f <$> t).
Proof.
  intros Ht Hk Hf Hother. unfold holds in *. rewrite Ht, <- (map_to_list_delete m k v Hk).
  rewrite <- insert_delete_eq, map_to_list_insert by apply lookup_delete_eq. cbn. rewrite Hf. f_equiv.
  rewrite <- list_fmap_compose. apply reflexive_eq, list_fmap_ext. intros i [k' w] Hi. cbn.
  apply list_elem_of_lookup_2, elem_of_map_to_list, lookup_delete_Some in Hi as [Hne Hw]. apply Hother; auto.
Qed.

(** UPDATE with a WHERE clause that matches no row. *)
Lemma holds_no_update m t (f : Row → Row) :
  holds m t → (∀ k w, m !! k = Some w → f (enc k w) = enc k w) → holds m (f <$> t).
Proof.
  intros Ht Hf. unfold holds in *. rewrite Ht, <- list_fmap_compose. apply reflexive_eq, list_fmap_ext.
  intros i [k w] Hi. cbn. by apply list_elem_of_lookup_2, elem_of_map_to_list, Hf in Hi.
Qed.
End Table.
