(* ===== verification/SqliteRefine.v ===== *)
(** * The SQLite store holds the mailbox

    [represents d s]: the tables of [d] hold the maps of the abstract store [s]. Under it every
    query of [SqliteMailStore] answers what [InMemoryStore] answers (lists up to order) and every
    mutation the engine issues takes representing tables to representing tables. *)

From S2P Require Import Prelude Api MailStore Primitives Engine EngineMail EngineSpec EngineInv Sqlite.

Local Open Scope Z_scope.

(** A time SQLite's signed column can hold. *)
Definition time_ok (n : Z) : Prop := 0 ≤ n ≤ i64_max.

Lemma store_i64_ok n : time_ok n → store_i64 n = Ok n.
Proof. intros [_ Hn]. unfold store_i64, i64_try_from. by rewrite (proj2 (Z.leb_le _ _) Hn). Qed.

Lemma read_u64_ok n : time_ok n → read_u64 n = Ok n.
Proof. intros [Hn _]. unfold read_u64, u64_try_from. by rewrite (proj2 (Z.leb_le _ _) Hn). Qed.

(** What the schema can store beyond what the engine's own invariant says. *)
Record fits (s : InMemoryStore) : Prop := {
  fit_digests p rec : participants s !! p = Some rec → slen (secret_digest rec) = 32;
  fit_rooms id r : rooms s !! id = Some r → RoomId_validate id = Ok tt ∧ time_ok (room_created_at r);
  fit_members id r p : rooms s !! id = Some r → p ∈ members r → ParticipantId_validate p = Ok tt;
  fit_messages id m : messages s !! id = Some m → time_ok (created_at_unix_ms m);
  fit_acks k x : acks s !! k = Some x → time_ok (acked_at_unix_ms x);
  fit_sessions id r : sessions s !! id = Some r →
    ParticipantId_validate (sess_account r) = Ok tt ∧ time_ok (last_seen_unix_ms r)
}.

(** ** Encodings *)

Definition enc_room (id : RoomId) (r : RoomRecord) : RoomRow := mkRoomRow (RoomId_str id) (room_created_at r).

Definition enc_ack (k : MessageId * Address) (x : Ack) : AckRow :=
  mkAckRow (MessageId_str k.1) (address_text k.2) (acked_at_unix_ms x).

Definition enc_idempotency (k : Address * string) (id : MessageId) : IdempotencyRow :=
  mkIdempotencyRow (address_text k.1) k.2 (MessageId_str id).

Section Refine.
Context `{StoreJson} `{!StoreJsonLaws}.

Definition text_of {E} (r : result string E) : string := match r with Ok s => s | Err _ => EmptyString end.

Definition sender_columns (a : Address) : string * string * option string :=
  match from_address_columns a with Ok c => c | Err _ => (EmptyString, EmptyString, None) end.

Definition enc_message (_ : MessageId) (m : Message) : StoredMessageRow :=
  message_row m (sender_columns (from m)) (created_at_unix_ms m) (text_of (payload_to_string (message_payload m))).

Definition enc_session (id : SessionId) (r : SessionRecord) : SessionRow :=
  mkSessionRow (SessionId_str id) (ParticipantId_str (sess_account r)) (text_of (card_to_string (card r)))
    (last_seen_unix_ms r).

Record represents (d : Db) (s : InMemoryStore) : Prop := {
  rep_participants : holds participant_row (participants s) (t_participants d);
  rep_rooms : holds enc_room (rooms s) (t_rooms d);
  rep_members_unique : NoDup (t_room_members d);
  rep_members row : row ∈ t_room_members d ↔
    ∃ id r p, rooms s !! id = Some r ∧ p ∈ members r ∧ row = mkMemberRow (RoomId_str id) (ParticipantId_str p);
  rep_messages : holds enc_message (messages s) (t_messages d);
  rep_acks : holds enc_ack (acks s) (t_acks d);
  rep_idempotency : holds enc_idempotency (idempotency s) (t_idempotency d);
  rep_sessions : holds enc_session (sessions s) (t_sessions d)
}.

Lemma represents_empty : represents Db_empty InMemoryStore_default.
Proof.
  split; try apply holds_empty; [constructor|]. intros row. split; [by intros ?%elem_of_nil|].
  by intros (id & r & p & Hr & _).
Qed.

(** ** WHERE clauses that name a key *)

#[local] Instance ParticipantId_str_inj : Inj (=) (=) ParticipantId_str.
Proof. intros [] []. cbn. congruence. Qed.
#[local] Instance RoomId_str_inj : Inj (=) (=) RoomId_str.
Proof. intros [] []. cbn. congruence. Qed.
#[local] Instance MessageId_str_inj : Inj (=) (=) MessageId_str.
Proof. intros [] []. cbn. congruence. Qed.
#[local] Instance SessionId_str_inj : Inj (=) (=) SessionId_str.
Proof. intros [] []. cbn. congruence. Qed.

Lemma seqb_inj {A} (f : A → string) `{!EqDecision A, !Inj (=) (=) f} a b :
  seqb (f a) (f b) = bool_decide (a = b).
Proof. unfold seqb. apply bool_decide_ext. split; [apply (inj f)|by intros ->]. Qed.

Lemma names_participant m id : names participant_row m (λ row, seqb (p_row_id row) (ParticipantId_str id)) id.
Proof. intros k v _. cbn. apply (seqb_inj ParticipantId_str). Qed.

Lemma names_room m id : names enc_room m (λ row, seqb (r_row_id row) (RoomId_str id)) id.
Proof. intros k v _. cbn. apply (seqb_inj RoomId_str). Qed.

Lemma names_session m id : names enc_session m (λ row, seqb (s_row_session_id row) (SessionId_str id)) id.
Proof. intros k v _. cbn. apply (seqb_inj SessionId_str). Qed.

Lemma enc_message_id k m : row_message_id (enc_message k m) = MessageId_str (message_id m).
Proof. unfold enc_message, message_row. by destruct (sender_columns _) as [[??]?], (to_address_columns _) as [[[??]?]?]. Qed.

Lemma names_message s id :
  keyed s → names enc_message (messages s) (λ row, seqb (row_message_id row) (MessageId_str id)) id.
Proof. intros Hk k v Hv. rewrite enc_message_id, (seqb_inj MessageId_str). by rewrite (Hk _ _ Hv). Qed.

Lemma address_text_eqb a b :
  Address_validate a = Ok tt → Address_validate b = Ok tt →
  seqb (address_text a) (address_text b) = bool_decide (a = b).
Proof.
  intros Ha Hb. unfold seqb. apply bool_decide_ext. split; [|by intros ->]. by apply Address_display_inj.
Qed.

Lemma validate_participant_address_ok f a :
  validate_participant_address f a = Ok tt → Address_validate a = Ok tt ∧ is_Some (account a).
Proof.
  unfold validate_participant_address. destruct (Address_validate a) as [[]|]; [|done].
  destruct (account a); [by eauto|done].
Qed.

Lemma Ack_validate_reader x : Ack_validate x = Ok tt → Address_validate (reader x) = Ok tt.
Proof.
  unfold Ack_validate. destruct (MessageId_validate _) as [[]|]; [|done].
  destruct (validate_participant_address _ _) as [[]|] eqn:Hr; [|done]. by apply validate_participant_address_ok in Hr as [].
Qed.

(** What a valid message's columns need. *)
Lemma Message_validate_parts m :
  Message_validate m = Ok tt →
  MessageId_validate (message_id m) = Ok tt ∧ Address_validate (from m) = Ok tt ∧ is_Some (account (from m)) ∧
  Address_validate (to m) = Ok tt ∧ ∀ r, reply_to m = Some r → MessageId_validate r = Ok tt.
Proof.
  unfold Message_validate. destruct (MessageId_validate (message_id m)) as [[]|]; [|done].
  destruct (validate_participant_address _ _) as [[]|] eqn:Hf; [|done].
  apply validate_participant_address_ok in Hf as [Hf Hacc].
  destruct (Address_validate (to m)) as [[]|]; [|done]. destruct (validate_subject _) as [[]|]; [|done].
  destruct (validate_body _) as [[]|]; [|done]. destruct (try_opt _ (reply_to m)) as [[]|] eqn:Hr; [|done].
  intros _. do 4 (split; [done|]). intros r Hrr. rewrite Hrr in Hr. cbn in Hr.
  by destruct (MessageId_validate r) as [[]|].
Qed.

Lemma names_ack s id a :
  wf s → Address_validate a = Ok tt →
  names enc_ack (acks s)
    (λ row, seqb (a_row_message_id row) (MessageId_str id) && seqb (a_row_reader row) (address_text a)) (id, a).
Proof.
  intros Hwf Ha [id' a'] x Hx. apply (wf_acks s Hwf) in Hx as (_ & <- & Hv%Ack_validate_reader & _). cbn.
  rewrite (seqb_inj MessageId_str), address_text_eqb by done.
  by repeat case_bool_decide; simplify_eq.
Qed.

Lemma names_idempotency s a key :
  wf s → Address_validate a = Ok tt →
  names enc_idempotency (idempotency s)
    (λ row, seqb (i_row_sender row) (address_text a) && seqb (i_row_key row) key) (a, key).
Proof.
  intros Hwf Ha [a' key'] id Hid. apply (wf_idempotency s Hwf) in Hid as (m & Hm & <-).
  apply (wf_messages s Hwf) in Hm as [_ (_ & Hv & _)%Message_validate_parts]. cbn.
  rewrite address_text_eqb by done. unfold seqb. by repeat case_bool_decide; simplify_eq.
Qed.

(** ** Rows read back as what was written *)

Lemma payload_text_ok p : ∃ t, payload_to_string p = Ok t ∧ text_of (payload_to_string p) = t ∧ payload_from_str t = Ok p.
Proof. destruct (payload_roundtrip p) as (t & -> & Ht). eauto. Qed.

Lemma card_text_ok c : ∃ t, card_to_string c = Ok t ∧ text_of (card_to_string c) = t ∧ card_from_str t = Ok c.
Proof. destruct (card_roundtrip c) as (t & -> & Ht). eauto. Qed.

Lemma sender_columns_ok a : is_Some (account a) → from_address_columns a = Ok (sender_columns a).
Proof. destruct a; cbn; [done|done|]. by intros []. Qed.

Lemma ParticipantId_new_str p : ParticipantId_validate p = Ok tt → ParticipantId_new (ParticipantId_str p) = Ok p.
Proof. intros. by apply ParticipantId_new_ok. Qed.
Lemma RoomId_new_str p : RoomId_validate p = Ok tt → RoomId_new (RoomId_str p) = Ok p.
Proof. intros. by apply RoomId_new_ok. Qed.
Lemma SessionId_new_str p : SessionId_validate p = Ok tt → SessionId_new (SessionId_str p) = Ok p.
Proof. intros. by apply SessionId_new_ok. Qed.
Lemma MessageId_new_str p : MessageId_validate p = Ok tt → MessageId_new (MessageId_str p) = Ok p.
Proof. intros. by apply MessageId_new_ok. Qed.

Lemma from_columns_roundtrip a fk fp fs :
  Address_validate a = Ok tt → from_address_columns a = Ok (fk, fp, fs) → address_from_from_columns fk fp fs = Ok a.
Proof.
  unfold address_from_from_columns. destruct a as [p|p x|r]; cbn [from_address_columns Address_validate].
  - intros Hp [= <- <- <-]. by rewrite ParticipantId_new_str.
  - intros Hv [= <- <- <-]. destruct (ParticipantId_validate p) as [[]|] eqn:Hp; [|done].
    rewrite ParticipantId_new_str by done. cbn. by rewrite SessionId_new_str.
  - done.
Qed.

Lemma to_columns_roundtrip a tk tp ts tr :
  Address_validate a = Ok tt → to_address_columns a = (tk, tp, ts, tr) → address_from_to_columns tk tp ts tr = Ok a.
Proof.
  unfold address_from_to_columns. destruct a as [p|p x|r]; cbn [to_address_columns Address_validate].
  - intros Hp [= <- <- <- <-]. cbn. by rewrite ParticipantId_new_str.
  - intros Hv [= <- <- <- <-]. destruct (ParticipantId_validate p) as [[]|] eqn:Hp; [|done].
    cbn. rewrite ParticipantId_new_str by done. cbn. by rewrite SessionId_new_str.
  - intros Hr [= <- <- <- <-]. cbn. by rewrite RoomId_new_str.
Qed.

Lemma assemble_enc_message k m :
  Message_validate m = Ok tt → time_ok (created_at_unix_ms m) → assemble_message (enc_message k m) = Ok m.
Proof.
  intros (Hid & Hf & Hacc & Hto & Hr)%Message_validate_parts Ht. unfold enc_message, message_row.
  pose proof (sender_columns_ok _ Hacc) as Hfc. destruct (sender_columns (from m)) as [[fk fp] fs].
  destruct (to_address_columns (to m)) as [[[tk tp] ts] tr] eqn:Htc.
  unfold assemble_message. cbn [row_message_id row_from_kind row_from_participant row_from_session row_to_kind
    row_to_participant row_to_session row_to_room row_created_at row_payload].
  rewrite MessageId_new_str, (from_columns_roundtrip (from m)), (to_columns_roundtrip (to m)), read_u64_ok by done.
  destruct (payload_text_ok (message_payload m)) as (t & _ & -> & ->). cbn.
  destruct m as [id fr to_ su bo re co rf cr]; cbn in *. destruct re as [r|]; cbn; [|done].
  by rewrite MessageId_new_str by auto.
Qed.

(** ** Queries *)

Lemma try_map_perm {A B C E} (f : B → result C E) (e : A → B) (g : A → C) rows l :
  rows ≡ₚ e <$> l → (∀ x, x ∈ l → f (e x) = Ok (g x)) →
  ∃ out, try_map f rows = Ok out ∧ out ≡ₚ g <$> l.
Proof.
  intros (l3 & -> & Hp)%Permutation_map_inv Hf. exists (g <$> l3). split; [|by rewrite Hp].
  change (map e l3) with (e <$> l3).
  assert (Hf3 : ∀ x, x ∈ l3 → f (e x) = Ok (g x)) by (intros x; rewrite <- Hp; apply Hf).
  clear Hp Hf. induction l3 as [|x l3 IH]; [done|]. cbn. rewrite Hf3 by left.
  fold (e <$> l3). rewrite IH; [done|]. intros y Hy. apply Hf3. by right.
Qed.

Lemma filter_snd {K A} (P : A → Prop) `{!∀ x, Decision (P x)} (l : list (K * A)) :
  (filter (λ kv, P kv.2) l).*2 = filter P l.*2.
Proof.
  induction l as [|kv l IH]; [done|]. rewrite fmap_cons, !filter_cons. case_decide; [by rewrite fmap_cons, IH|done].
Qed.

Section Queries.
Context (d : Db) (s : InMemoryStore) (Hrep : represents d s) (Hwf : wf s) (Hfit : fits s).

Lemma get_participant_eq id : sql_get_participant d id = Ok (participants s !! id).
Proof.
  unfold sql_get_participant. rewrite (find_holds _ _ _ _ _ (rep_participants _ _ Hrep) (names_participant _ id)).
  destruct (participants s !! id) as [rec|] eqn:Hp; [|done]. cbn. unfold digest_from_row.
  rewrite (fit_digests _ Hfit _ _ Hp). by destruct rec.
Qed.

Lemma digest_names dg id rec :
  participants s !! id = Some rec → secret_digest rec = dg →
  names participant_row (participants s) (λ row, seqb (p_row_secret_digest row) dg) id.
Proof.
  intros Hid Hdg k v Hk. cbn. unfold seqb. apply bool_decide_ext. split; [|intros ->; congruence].
  intros Hv. assert (Hi : digest_index s !! dg = Some id) by (apply (wf_index s Hwf); eauto).
  assert (Hi' : digest_index s !! dg = Some k) by (apply (wf_index s Hwf); eauto). congruence.
Qed.

Lemma find_participant_by_digest_eq dg :
  sql_find_participant_by_digest d dg = InMemory.find_participant_by_digest s dg.
Proof.
  unfold sql_find_participant_by_digest, InMemory.find_participant_by_digest.
  destruct (digest_index s !! dg) as [id|] eqn:Hdg.
  - apply (wf_index s Hwf) in Hdg as (rec & Hp & Hd).
    rewrite (find_holds _ _ _ _ _ (rep_participants _ _ Hrep) (digest_names dg id rec Hp Hd)), Hp. cbn.
    rewrite ParticipantId_new_str by (apply (wf_participants s Hwf) in Hp as [Hv _];
      unfold Participant_validate in Hv; cbn in Hv; by destruct (ParticipantId_validate id) as [[]|]).
    cbn. subst dg. by destruct rec.
  - destruct (find_row _ _) as [row|] eqn:Hf; [|done]. exfalso. apply find_row_Some in Hf as [Hin Heq].
    apply (elem_of_holds _ _ _ _ (rep_participants _ _ Hrep)) in Hin as (id & rec & Hp & ->).
    apply seqb_true in Heq. cbn in Heq. assert (digest_index s !! dg = Some id) by (apply (wf_index s Hwf); eauto).
    congruence.
Qed.

Lemma member_set_ok ids (X : gset ParticipantId) :
  (∀ p, p ∈ X → ParticipantId_validate p = Ok tt) →
  (∀ t, t ∈ ids ↔ ∃ p, p ∈ X ∧ t = ParticipantId_str p) → member_set ids = Ok X.
Proof.
  intros Hv Hids. unfold member_set.
  rewrite (try_map_total _ mkParticipantId).
  - f_equal. apply set_eq. intros p. rewrite elem_of_list_to_set, list_elem_of_fmap. split.
    + intros (t & -> & Ht). apply Hids in Ht as ([q] & Hq & ->). done.
    + intros Hp. exists (ParticipantId_str p). split; [by destruct p|]. apply Hids. eauto.
  - intros t (p & Hp & ->)%Hids. rewrite ParticipantId_new_str by auto. by destruct p.
Qed.

Lemma room_members_eq id r :
  rooms s !! id = Some r →
  member_set (m_row_participant <$> select (λ row, seqb (m_row_room row) (RoomId_str id)) (t_room_members d)) =
    Ok (members r).
Proof.
  intros Hr. apply member_set_ok; [intros p; by apply (fit_members _ Hfit _ _ _ Hr)|].
  intros t. rewrite list_elem_of_fmap. split.
  - intros (row & -> & [Hin Heq]%elem_of_select). apply (rep_members _ _ Hrep) in Hin as (id' & r' & p & Hr' & Hp & ->).
    cbn in Heq. apply seqb_true, (inj RoomId_str) in Heq as ->. simplify_eq. eauto.
  - intros (p & Hp & ->). exists (mkMemberRow (RoomId_str id) (ParticipantId_str p)). split; [done|].
    rewrite elem_of_select, (rep_members _ _ Hrep). split; [by exists id, r, p|apply seqb_refl].
Qed.

Lemma get_room_eq id : sql_get_room d id = Ok (rooms s !! id).
Proof.
  unfold sql_get_room. rewrite (find_holds _ _ _ _ _ (rep_rooms _ _ Hrep) (names_room _ id)).
  destruct (rooms s !! id) as [r|] eqn:Hr; [|done]. cbn [fmap option_fmap option_map].
  change (r_row_created_at (enc_room id r)) with (room_created_at r).
  rewrite read_u64_ok by (by apply (fit_rooms _ Hfit) in Hr as []). rewrite (room_members_eq _ _ Hr). by destruct r.
Qed.

Lemma get_message_eq id : sql_get_message d id = Ok (messages s !! id).
Proof.
  unfold sql_get_message.
  rewrite (find_holds _ _ _ _ _ (rep_messages _ _ Hrep) (names_message _ id (wf_keyed _ Hwf))).
  destruct (messages s !! id) as [m|] eqn:Hm; [|done]. cbn [fmap option_fmap option_map].
  rewrite assemble_enc_message; [done|by apply (wf_messages _ Hwf) in Hm as []|by apply (fit_messages _ Hfit) in Hm].
Qed.

Lemma get_ack_eq id a : Address_validate a = Ok tt → sql_get_ack d id a = Ok (acks s !! (id, a)).
Proof.
  intros Ha. unfold sql_get_ack. rewrite (find_holds _ _ _ _ _ (rep_acks _ _ Hrep) (names_ack _ id a Hwf Ha)).
  destruct (acks s !! (id, a)) as [x|] eqn:Hx; [|done]. cbn.
  rewrite read_u64_ok by (by apply (fit_acks _ Hfit) in Hx).
  apply (wf_acks _ Hwf) in Hx as (<- & <- & _). by destruct x.
Qed.

Lemma session_row_card id r : card_from_str (s_row_card (enc_session id r)) = Ok (card r).
Proof. cbn. by destruct (card_text_ok (card r)) as (t & _ & -> & ->). Qed.

Lemma get_session_eq id : sql_get_session d id = Ok (sessions s !! id).
Proof.
  unfold sql_get_session. rewrite (find_holds _ _ _ _ _ (rep_sessions _ _ Hrep) (names_session _ id)).
  destruct (sessions s !! id) as [r|] eqn:Hr; [|done]. cbn [fmap option_fmap option_map].
  apply (fit_sessions _ Hfit) in Hr as [Ha Ht]. rewrite session_row_card. cbn.
  rewrite ParticipantId_new_str, read_u64_ok by done. by destruct r.
Qed.

(** The messages a SELECT finds and assembles. *)
Lemma assemble_select p (P : Message → Prop) `{!∀ m, Decision (P m)} :
  (∀ k m, p (enc_message k m) = bool_decide (P m)) →
  ∃ out, try_map assemble_message (order_by_int row_created_at (select p (t_messages d))) = Ok out ∧
    out ≡ₚ filter P (InMemory.all_messages s).
Proof.
  intros Hp. unfold InMemory.all_messages. rewrite <- filter_snd.
  apply (try_map_perm _ (uncurry enc_message)).
  - unfold order_by_int. rewrite merge_sort_Permutation.
    apply holds_select; [apply (rep_messages _ _ Hrep)|]. intros k v _. by rewrite Hp.
  - intros [k m] [_ Hm%elem_of_map_to_list]%list_elem_of_filter. apply assemble_enc_message.
    + by apply (wf_messages _ Hwf) in Hm as [].
    + by apply (fit_messages _ Hfit) in Hm.
Qed.

Lemma enc_message_to k m :
  (row_to_kind (enc_message k m), row_to_participant (enc_message k m), row_to_session (enc_message k m),
   row_to_room (enc_message k m)) = to_address_columns (to m).
Proof. unfold enc_message, message_row. by destruct (sender_columns _) as [[??]?], (to_address_columns _) as [[[??]?]?]. Qed.

Lemma enc_message_created k m : row_created_at (enc_message k m) = created_at_unix_ms m.
Proof. unfold enc_message, message_row. by destruct (sender_columns _) as [[??]?], (to_address_columns _) as [[[??]?]?]. Qed.

Lemma leb_bool_decide a b : (a <=? b) = bool_decide (a ≤ b).
Proof. case_bool_decide; lia. Qed.

(** The recipient columns name an address. *)
Lemma recipient_clause k m since a p :
  (p = match a with
       | Direct x => seqb (row_to_kind (enc_message k m)) "direct" && oeqb (row_to_participant (enc_message k m)) (ParticipantId_str x)
       | Session x y => seqb (row_to_kind (enc_message k m)) "session" && oeqb (row_to_participant (enc_message k m)) (ParticipantId_str x)
                        && oeqb (row_to_session (enc_message k m)) (SessionId_str y)
       | Room r => seqb (row_to_kind (enc_message k m)) "room" && oeqb (row_to_room (enc_message k m)) (RoomId_str r)
       end) →
  p && (since <=? row_created_at (enc_message k m)) = bool_decide (since ≤ created_at_unix_ms m ∧ to m = a).
Proof.
  intros ->. rewrite enc_message_created, leb_bool_decide.
  pose proof (enc_message_to k m) as Heq. destruct (to m) as [[u]|[u] [v]|[u]], a as [[x]|[x] [y]|[x]];
    cbn in Heq; injection Heq as H1 H2 H3 H4; rewrite ?H1, ?H2, ?H3, ?H4; cbn; unfold oeqb; cbn; repeat case_bool_decide; naive_solver.
Qed.

Lemma messages_to_since_eq a since :
  is_Some (account a) → time_ok since →
  ∃ out, sql_messages_to_since d a since = Ok out ∧
    out ≡ₚ filter (λ m, since ≤ created_at_unix_ms m ∧ to m = a) (InMemory.all_messages s).
Proof.
  intros Hacc Ht. unfold sql_messages_to_since. rewrite store_i64_ok by done.
  destruct a as [x|x y|r]; [| |by destruct Hacc]; apply assemble_select; intros k m.
  - by apply (recipient_clause k m since (Direct x)).
  - by apply (recipient_clause k m since (Session x y)).
Qed.

Lemma room_messages_since_eq r since :
  time_ok since →
  ∃ out, sql_room_messages_since d r since = Ok out ∧
    out ≡ₚ filter (λ m, since ≤ created_at_unix_ms m ∧ to m = Room r) (InMemory.all_messages s).
Proof.
  intros Ht. unfold sql_room_messages_since. rewrite store_i64_ok by done.
  apply assemble_select. intros k m. by apply (recipient_clause k m since (Room r)).
Qed.

Lemma rooms_containing_eq p :
  ∃ out, sql_rooms_containing d p = Ok out ∧ NoDup out ∧
    ∀ r, r ∈ out ↔ ∃ rec, rooms s !! r = Some rec ∧ p ∈ members rec.
Proof.
  unfold sql_rooms_containing. set (rows := select _ _).
  assert (Hrows : ∀ row, row ∈ rows ↔ ∃ r rec, rooms s !! r = Some rec ∧ p ∈ members rec ∧
                    row = mkMemberRow (RoomId_str r) (ParticipantId_str p)).
  { intros row. unfold rows. rewrite elem_of_select, (rep_members _ _ Hrep). split.
    - intros [(r & rec & q & Hr & Hq & ->) Heq]. cbn in Heq. apply seqb_true, (inj ParticipantId_str) in Heq as ->.
      by exists r, rec.
    - intros (r & rec & Hr & Hp & ->). split; [by exists r, rec, p|apply seqb_refl]. }
  exists (mkRoomId <$> (m_row_room <$> rows)). split; [|split].
  - apply try_map_total. intros t (row & -> & Hin)%list_elem_of_fmap. apply Hrows in Hin as (r & rec & Hr & _ & ->).
    cbn. apply (fit_rooms _ Hfit) in Hr as [Hv _]. rewrite RoomId_new_str by done. by destruct r.
  - rewrite <- list_fmap_compose. apply NoDup_fmap_2_strong.
    + intros x y Hx Hy. apply Hrows in Hx as ([r] & _ & _ & _ & ->), Hy as ([r'] & _ & _ & _ & ->). cbn. congruence.
    + unfold rows. rewrite select_filter. apply NoDup_filter, (rep_members_unique _ _ Hrep).
  - intros r. rewrite <- list_fmap_compose, list_elem_of_fmap. split.
    + intros (row & -> & Hin). apply Hrows in Hin as (r & rec & Hr & Hp & ->). destruct r. eauto.
    + intros (rec & Hr & Hp). exists (mkMemberRow (RoomId_str r) (ParticipantId_str p)).
      split; [by destruct r|]. apply Hrows. eauto.
Qed.

Lemma sessions_of_eq p :
  ∃ out, sql_sessions_of d p = Ok out ∧ out ≡ₚ filter (λ kv, sess_account kv.2 = p) (map_to_list (sessions s)).
Proof.
  destruct (try_map_perm (λ row,
      let? id := map_err (λ _, corrupt "stored session id failed validation") (SessionId_new (s_row_session_id row)) in
      let? c := map_err (λ _, corrupt "stored card failed to parse") (card_from_str (s_row_card row)) in
      let? seen := read_u64 (s_row_last_seen row) in Ok (id, mkSessionRecord p c seen))
    (uncurry enc_session) (λ kv, kv)
    (order_by_text s_row_session_id (select (λ row, seqb (s_row_account row) (ParticipantId_str p)) (t_sessions d)))
    (filter (λ kv, sess_account kv.2 = p) (map_to_list (sessions s)))) as (out & Hout & Hperm).
  - unfold order_by_text. rewrite merge_sort_Permutation. apply holds_select; [apply (rep_sessions _ _ Hrep)|].
    intros k v _. cbn. apply (seqb_inj ParticipantId_str).
  - intros [id r] [Hacc Hr%elem_of_map_to_list]%list_elem_of_filter. cbn [uncurry]. rewrite session_row_card. cbn.
    apply (wf_sessions _ Hwf) in Hr as Hv. apply (fit_sessions _ Hfit) in Hr as [_ Ht].
    rewrite SessionId_new_str, read_u64_ok by (done || apply Hv). cbn in Hacc. subst p. by destruct r.
  - exists out. split; [exact Hout|]. by rewrite list_fmap_id in Hperm.
Qed.

Lemma list_participants_eq :
  ∃ out, sql_list_participants d = Ok out ∧
    out ≡ₚ (λ kv, mkParticipantSummary kv.1 (label kv.2)) <$> map_to_list (participants s).
Proof.
  apply (try_map_perm _ (uncurry participant_row)).
  - unfold order_by_text. rewrite merge_sort_Permutation. apply (rep_participants _ _ Hrep).
  - intros [id r] Hr%elem_of_map_to_list. cbn. rewrite ParticipantId_new_str; [done|].
    apply (wf_participants _ Hwf) in Hr as [Hv _]. unfold Participant_validate in Hv. cbn in Hv.
    by destruct (ParticipantId_validate id) as [[]|].
Qed.

Lemma list_rooms_eq :
  ∃ out, sql_list_rooms d = Ok out ∧ out ≡ₚ (λ kv, mkRoomSummary kv.1 (members kv.2)) <$> map_to_list (rooms s).
Proof.
  unfold sql_list_rooms. assert (Hall : ∃ X, member_set (m_row_participant <$> t_room_members d) = Ok X).
  { unfold member_set. rewrite (try_map_total _ mkParticipantId); [eauto|].
    intros t (row & -> & Hin)%list_elem_of_fmap. apply (rep_members _ _ Hrep) in Hin as (id & r & p & Hr & Hp & ->).
    cbn. rewrite ParticipantId_new_str by (by apply (fit_members _ Hfit _ _ _ Hr)). by destruct p. }
  destruct Hall as [X ->]. apply (try_map_perm _ (uncurry enc_room)).
  - unfold order_by_text. rewrite merge_sort_Permutation. apply (rep_rooms _ _ Hrep).
  - intros [id r] Hr%elem_of_map_to_list. cbn [uncurry fst snd]. change (r_row_id (enc_room id r)) with (RoomId_str id).
    rewrite (room_members_eq _ _ Hr), RoomId_new_str by (by apply (fit_rooms _ Hfit) in Hr as []). done.
Qed.
End Queries.

(** ** Mutations *)

(** [out] is a mutation of [d] that left tables representing [s'] and answered [r]. *)
Definition refines {A} (out : Db * result A StoreError) (s' : InMemoryStore) (r : A) : Prop :=
  out.2 = Ok r ∧ represents out.1 s'.

Section Mutations.
Context (d : Db) (s : InMemoryStore) (Hrep : represents d s) (Hwf : wf s) (Hfit : fits s).

Lemma represents_participants t ps ix :
  holds participant_row ps t → represents (set_t_participants d t) (with_participants s ps ix).
Proof. intros Ht. destruct Hrep. by split. Qed.

Lemma register_refines id rec ix :
  participants s !! id = None → digest_index s !! secret_digest rec = None →
  refines (sql_register_participant d id rec) (with_participants s (<[id := rec]> (participants s)) ix) tt.
Proof.
  intros Hid Hdg. unfold sql_register_participant.
  rewrite (exists_holds _ _ _ _ _ (rep_participants _ _ Hrep) (names_participant _ id)), Hid.
  destruct (exists_row _ _) eqn:Hex; cbn.
  - exfalso. apply exists_row_true in Hex as (row & Hin & Heq). apply seqb_true in Heq.
    apply (elem_of_holds _ _ _ _ (rep_participants _ _ Hrep)) in Hin as (k & v & Hk & ->). cbn in Heq.
    assert (digest_index s !! secret_digest rec = Some k) by (apply (wf_index s Hwf); eauto). congruence.
  - split; [done|]. apply represents_participants, holds_insert; [apply (rep_participants _ _ Hrep)|done].
Qed.

Lemma deregister_refines id ix :
  refines (sql_deregister_participant d id) (with_participants s (delete id (participants s)) ix) tt.
Proof.
  split; [done|]. apply represents_participants, holds_delete; [apply (rep_participants _ _ Hrep)|apply names_participant].
Qed.

(** An UPDATE of one account's row that leaves its id alone. *)
Lemma update_participant_holds id rec rec' (f : ParticipantRow → ParticipantRow) :
  participants s !! id = Some rec → f (participant_row id rec) = participant_row id rec' →
  holds participant_row (<[id := rec']> (participants s))
    ((λ row, if seqb (p_row_id row) (ParticipantId_str id) then f row else row) <$> t_participants d).
Proof.
  intros Hid Hf. eapply holds_update; [apply (rep_participants _ _ Hrep)|done| |].
  - cbn. by rewrite seqb_refl.
  - intros k v Hk Hne. cbn. by rewrite (seqb_inj ParticipantId_str), bool_decide_false.
Qed.

Lemma set_digest_refines id rec dg ix :
  participants s !! id = Some rec → digest_index s !! dg = None →
  refines (sql_set_participant_secret_digest d id dg)
    (with_participants s (<[id := set_digest rec dg]> (participants s)) ix) tt.
Proof.
  intros Hid Hdg. unfold sql_set_participant_secret_digest.
  destruct (exists_row (λ row, negb _ && _) _) eqn:Hex.
  - exfalso. apply exists_row_true in Hex as (row & Hin & [_ Heq]%andb_true_iff). apply seqb_true in Heq.
    apply (elem_of_holds _ _ _ _ (rep_participants _ _ Hrep)) in Hin as (k & v & Hk & ->). cbn in Heq.
    assert (digest_index s !! dg = Some k) by (apply (wf_index s Hwf); eauto). congruence.
  - rewrite andb_false_r. split; [done|]. apply represents_participants.
    by apply (update_participant_holds id rec _ (λ row, row_with_digest row dg)).
Qed.

Lemma set_listener_refines id rec url ix :
  participants s !! id = Some rec →
  refines (sql_set_listener_url d id url) (with_participants s (<[id := set_url rec url]> (participants s)) ix) tt.
Proof.
  intros Hid. split; [done|]. apply represents_participants.
  by apply (update_participant_holds id rec _ (λ row, row_with_url row url)).
Qed.

Lemma create_room_refines id now :
  rooms s !! id = None → time_ok now →
  refines (sql_create_room d id now) (with_rooms s (<[id := mkRoomRecord now ∅]> (rooms s))) tt.
Proof.
  intros Hid Ht. unfold sql_create_room. rewrite store_i64_ok by done.
  rewrite (exists_holds _ _ _ _ _ (rep_rooms _ _ Hrep) (names_room _ id)), Hid. cbn.
  split; [done|]. destruct Hrep. split; try done; cbn.
  - by apply (holds_insert enc_room (rooms s) _ id (mkRoomRecord now ∅)).
  - intros row. rewrite rep_members0. split; intros (x & r & p & Hr & Hp & ->).
    + exists x, r, p. split; [|done]. rewrite lookup_insert_ne; [done|]. congruence.
    + apply lookup_insert_Some in Hr as [[<- <-]|[Hne Hr]]; [|by exists x, r, p].
      cbn in Hp. by apply not_elem_of_empty in Hp.
Qed.

(** Rewriting the members of one room leaves the room rows as they are. *)
Lemma rooms_update_holds id r X :
  rooms s !! id = Some r → holds enc_room (<[id := set_members r X]> (rooms s)) (t_rooms d).
Proof.
  intros Hr. rewrite <- (list_fmap_id (t_rooms d)). eapply (holds_update _ _ _ id r (set_members r X) (λ row, row)); try done.
  apply (rep_rooms _ _ Hrep).
Qed.

Lemma add_member_refines id r p :
  rooms s !! id = Some r →
  refines (sql_add_room_member d id p) (with_rooms s (<[id := set_members r ({[p]} ∪ members r)]> (rooms s))) tt.
Proof.
  intros Hr. unfold sql_add_room_member.
  assert (Hmem : ∀ t, (∀ row, row ∈ t ↔ row ∈ t_room_members d ∨ row = mkMemberRow (RoomId_str id) (ParticipantId_str p)) →
    NoDup t → represents (set_t_room_members d t) (with_rooms s (<[id := set_members r ({[p]} ∪ members r)]> (rooms s)))).
  { intros t Ht Hnd. pose proof (rooms_update_holds id r ({[p]} ∪ members r) Hr). destruct Hrep. split; try done; cbn.
    intros row. rewrite Ht, rep_members0. split.
    - intros [(x & r' & q & Hx & Hq & ->)| ->].
      + destruct (decide (x = id)) as [->|Hne].
        * exists id, (set_members r ({[p]} ∪ members r)), q. rewrite lookup_insert_eq. simplify_eq. set_solver.
        * exists x, r', q. by rewrite lookup_insert_ne.
      + exists id, (set_members r ({[p]} ∪ members r)), p. rewrite lookup_insert_eq. set_solver.
    - intros (x & r' & q & [[<- <-]|[Hne Hx]]%lookup_insert_Some & Hq & ->); [|left; by exists x, r', q].
      cbn in Hq. apply elem_of_union in Hq as [->%elem_of_singleton|Hq]; [by right|left; by exists id, r, q]. }
  destruct (exists_row (member_eqb _ _) _) eqn:Hex.
  - apply exists_row_true in Hex as ([a b] & Hin & [Ha%seqb_true Hb%seqb_true]%andb_true_iff). cbn in Ha, Hb. subst a b.
    split; [done|]. specialize (Hmem (t_room_members d)). 
    replace (set_t_room_members d (t_room_members d)) with d in Hmem by (by destruct d).
    apply Hmem; [|apply (rep_members_unique _ _ Hrep)]. intros row. split; [by left|]. by intros [?| ->].
  - rewrite (exists_holds _ _ _ _ _ (rep_rooms _ _ Hrep) (names_room _ id)), Hr. split; [done|]. apply Hmem.
    + intros row. rewrite elem_of_app, list_elem_of_singleton. done.
    + apply NoDup_app. split; [apply (rep_members_unique _ _ Hrep)|]. split; [|apply NoDup_singleton].
      intros row Hin ->%list_elem_of_singleton. apply not_true_iff_false in Hex. apply Hex, exists_row_true.
      eexists. split; [done|]. unfold member_eqb. cbn. by rewrite !seqb_refl.
Qed.

Lemma remove_member_refines id r p :
  rooms s !! id = Some r →
  refines (sql_remove_room_member d id p) (with_rooms s (<[id := set_members r (members r ∖ {[p]})]> (rooms s))) tt.
Proof.
  intros Hr. split; [done|]. pose proof (rooms_update_holds id r (members r ∖ {[p]}) Hr). destruct Hrep. split; try done; cbn.
  - rewrite select_filter. by apply NoDup_filter.
  - intros row. rewrite elem_of_select, rep_members0. unfold member_eqb. split.
    + intros [(x & r' & q & Hx & Hq & ->) Hne]. cbn in Hne.
      rewrite (seqb_inj RoomId_str), (seqb_inj ParticipantId_str) in Hne.
      destruct (decide (x = id)) as [->|Hxne].
      * exists id, (set_members r (members r ∖ {[p]})), q. rewrite lookup_insert_eq. simplify_eq.
        split; [done|]. split; [|done]. cbn. apply elem_of_difference. split; [done|]. intros ->%elem_of_singleton.
        by rewrite !bool_decide_true in Hne.
      * exists x, r', q. by rewrite lookup_insert_ne.
    + intros (x & r' & q & [[<- <-]|[Hne Hx]]%lookup_insert_Some & Hq & ->); cbn.
      * cbn in Hq. apply elem_of_difference in Hq as [Hq Hqp]. split; [by exists id, r, q|].
        rewrite (seqb_inj ParticipantId_str), bool_decide_false by (intros ->; by apply Hqp, elem_of_singleton).
        by rewrite andb_false_r.
      * split; [by exists x, r', q|]. by rewrite (seqb_inj RoomId_str), bool_decide_false.
Qed.

Lemma upsert_session_refines id r :
  time_ok (last_seen_unix_ms r) →
  refines (sql_upsert_session d id r) (with_sessions s (<[id := r]> (sessions s))) tt.
Proof.
  intros Ht. unfold sql_upsert_session. destruct (card_text_ok (card r)) as (t & Hc & Htext & _).
  rewrite Hc. cbn [map_err]. rewrite store_i64_ok by done. rewrite <- Htext. fold (enc_session id r).
  rewrite (exists_holds _ _ _ _ _ (rep_sessions _ _ Hrep) (names_session _ id)).
  pose proof (rep_sessions _ _ Hrep) as Hs.
  destruct (sessions s !! id) as [old|] eqn:Hid; cbn [is_some]; (split; [done|]); destruct Hrep; split; try done; cbn.
  - eapply holds_update; [done..| |].
    + cbn. by rewrite seqb_refl.
    + intros k v _ Hne. cbn. by rewrite (seqb_inj SessionId_str), bool_decide_false.
  - by apply (holds_insert enc_session).
Qed.

Lemma record_ack_refines a :
  Ack_validate a = Ok tt → time_ok (acked_at_unix_ms a) →
  refines (sql_record_ack d a)
    (match acks s !! (ack_message_id a, reader a) with
     | Some _ => s
     | None => with_acks s (<[(ack_message_id a, reader a) := a]> (acks s))
     end) (default a (acks s !! (ack_message_id a, reader a))).
Proof.
  intros Hv Ht. unfold sql_record_ack. rewrite store_i64_ok by done. pose proof (rep_acks _ _ Hrep) as Ha.
  rewrite (find_holds _ _ _ _ _ Ha (names_ack _ _ _ Hwf (Ack_validate_reader _ Hv))).
  destruct (acks s !! (ack_message_id a, reader a)) as [x|] eqn:Hx; cbn.
  - split; [|done]. cbn. rewrite read_u64_ok by (by apply (fit_acks _ Hfit) in Hx).
    apply (wf_acks _ Hwf) in Hx as (<- & <- & _). by destruct x.
  - split; [cbn; rewrite read_u64_ok by done; by destruct a|]. destruct Hrep. split; try done. cbn.
    by apply (holds_insert enc_ack (acks s) _ (ack_message_id a, reader a) a).
Qed.

Lemma insert_message_refines m key :
  Message_validate m = Ok tt → time_ok (created_at_unix_ms m) → messages s !! message_id m = None →
  (∀ k, key = Some k → Address_validate k.1 = Ok tt) →
  (sql_insert_message d m key).2 = (InMemory.insert_message s m key).2 ∧
  represents (sql_insert_message d m key).1 (InMemory.insert_message s m key).1.
Proof.
  intros Hv Ht Hnew Hkey. unfold sql_insert_message, InMemory.insert_message.
  apply Message_validate_parts in Hv as Hp. destruct Hp as (_ & _ & Hacc & _).
  rewrite (sender_columns_ok _ Hacc). destruct (payload_text_ok (message_payload m)) as (t & Hpl & Htext & _).
  rewrite Hpl. cbn [map_err]. rewrite store_i64_ok by done. rewrite <- Htext. fold (enc_message (message_id m) m).
  pose proof (rep_messages _ _ Hrep) as Hm. pose proof (rep_idempotency _ _ Hrep) as Hi.
  rewrite (exists_holds _ _ _ _ _ Hm (names_message _ (message_id m) (wf_keyed _ Hwf))), Hnew. cbn [is_some].
  apply (holds_insert enc_message _ _ (message_id m) m) in Hm; [|done].
  destruct key as [[sender key]|]; cbn [mbind option_bind].
  - rewrite (find_holds _ _ _ _ _ Hi (names_idempotency _ sender key Hwf (Hkey _ eq_refl))).
    destruct (idempotency s !! (sender, key)) as [old|] eqn:Hold; cbn.
    + split; [|done]. apply (wf_idempotency _ Hwf) in Hold as (m' & Hm' & _).
      apply (wf_messages _ Hwf) in Hm' as [<- (Hid & _)%Message_validate_parts]. by rewrite MessageId_new_str.
    + split; [done|]. destruct Hrep. split; try done. cbn.
      by apply (holds_insert enc_idempotency _ _ (sender, key) (message_id m)).
  - split; [done|]. destruct Hrep. by split.
Qed.
End Mutations.
End Refine.
