(* ===== verification/SqliteEngine.v ===== *)
(** * The engine over SQLite refines the engine over the abstract store

    [MailboxEngine<SqliteMailStore>] and [MailboxEngine<InMemoryStore>] answer every command and
    every mail query alike from states related by [represents], and stay related. So what is
    proved of the engine over [InMemoryStore] holds of the daemon's store. Assumed of a command
    is [storable]: its clock fits the column, and a send derives a message id not on file. The
    last section shows what the code does when a keyed retry breaks the second assumption. *)

From S2P Require Import Prelude Api MailStore Primitives Engine EngineMail EngineSpec EngineInv Sqlite SqliteRefine.

Local Open Scope Z_scope.

Section SqliteEngine.
Context `{Primitives} `{!PrimitivesLaws} `{StoreJson} `{!StoreJsonLaws}.

(** ** Queries *)

Section Related.
Context (d : Db) (s : InMemoryStore) (Hrep : represents d s) (Hwf : wf s) (Hfit : fits s).

Ltac db_queries :=
  cbn [MailStore.get_participant MailStore.get_session MailStore.get_room MailStore.get_message MailStore.get_ack
       MailStore.find_participant_by_digest Db_MailStore InMemoryStore_MailStore];
  cbv [InMemory.get_participant InMemory.get_session InMemory.get_room InMemory.get_message InMemory.get_ack];
  rewrite ?(get_participant_eq d s Hrep Hfit), ?(get_session_eq d s Hrep Hfit), ?(get_room_eq d s Hrep Hfit),
    ?(get_message_eq d s Hrep Hwf Hfit), ?(find_participant_by_digest_eq d s Hrep Hwf).

Lemma require_participant_sim id : require_participant d id = require_participant s id.
Proof. unfold require_participant. by db_queries. Qed.

Lemma resolve_identity_sim a : resolve_identity d a = resolve_identity s a.
Proof.
  unfold resolve_identity. destruct a; rewrite ?require_participant_sim; [done| |done].
  db_queries. done.
Qed.

Lemma is_readable_sim m a p rec : is_readable d m a p rec = is_readable s m a p rec.
Proof. unfold is_readable. destruct (operator rec), (to m); try done. by db_queries. Qed.

Lemma require_recipient_sim a : require_recipient d a = require_recipient s a.
Proof. unfold require_recipient. destruct a; by db_queries. Qed.

Lemma authenticate_sim secret : authenticate d secret = authenticate s secret.
Proof. unfold authenticate. by db_queries. Qed.

Lemma message_get_sim a id : message_get d a id = message_get s a id.
Proof.
  unfold message_get. rewrite resolve_identity_sim. destruct (resolve_identity s a) as [[p rec]|]; [|done].
  db_queries. destruct (require_read_permission rec); [|done]. destruct (messages s !! id); [|done].
  cbn -[is_readable]. by rewrite is_readable_sim.
Qed.

Lemma count_unacked_sim a ms n :
  Address_validate a = Ok tt → count_unacked d a ms n = count_unacked s a ms n.
Proof.
  intros Ha. revert n. induction ms as [|m ms IH]; intros n; [done|]. cbn [count_unacked].
  destruct (decide (from m = a)); [apply IH|]. db_queries. rewrite (get_ack_eq d s Hrep Hwf Hfit) by done. apply IH.
Qed.

(** ** Inboxes *)

Lemma extend_room_messages_sim since rs acc :
  time_ok since → NoDup rs →
  ∃ out, extend_room_messages d since rs acc = Ok out ∧
    ∀ acc', acc ≡ₚ acc' → ∃ out', extend_room_messages s since rs acc' = Ok out' ∧ out ≡ₚ out'.
Proof.
  intros Ht. revert acc. induction rs as [|r rs IH]; intros acc Hnd.
  - exists acc. split; [done|]. intros acc' Hacc. by exists acc'.
  - inversion Hnd as [|? ? Hr Hnd']; subst. cbn.
    destruct (room_messages_since_eq d s Hrep Hwf Hfit r since Ht) as (ms & -> & Hms). cbn.
    destruct (IH (acc ++ ms) Hnd') as (out & Hout & Hsim). exists out. split; [done|].
    intros acc' Hacc. apply Hsim. by rewrite Hacc, Hms.
Qed.

Lemma extend_room_messages_perm since rs rs' acc acc' :
  NoDup rs → rs ≡ₚ rs' → acc ≡ₚ acc' →
  ∃ out out', extend_room_messages s since rs acc = Ok out ∧ extend_room_messages s since rs' acc' = Ok out' ∧ out ≡ₚ out'.
Proof.
  intros Hnd Hrs Hacc. assert (Hnd' : NoDup rs') by (by rewrite <- Hrs).
  destruct (extend_room_messages_filter s since rs acc Hnd) as (out & Hout & Hp).
  destruct (extend_room_messages_filter s since rs' acc' Hnd') as (out' & Hout' & Hp').
  exists out, out'. split; [done|]. split; [done|]. rewrite Hp, Hp', Hacc. f_equiv. apply filter_ext_perm; [|done].
  intros m. unfold in_room_of. by setoid_rewrite Hrs.
Qed.

Lemma own_messages_sim a p since :
  acts_as a p → time_ok since →
  ∃ out, own_messages d a p since = Ok out ∧ out ≡ₚ mail_of s a p since.
Proof.
  intros Hact Ht.
  destruct (own_messages_mail_of s a p since Hact) as (ref & Href & Hmail).
  assert (Hacc : is_Some (account a)) by (rewrite Hact; eauto).
  destruct (messages_to_since_eq d s Hrep Hwf Hfit a since Hacc Ht) as (own & Hown & Hown').
  destruct (messages_to_since_eq d s Hrep Hwf Hfit (Direct p) since (ltac:(eauto)) Ht) as (dir & Hdir & Hdir').
  destruct (rooms_containing_eq d s Hrep Hfit p) as (rs & Hrs & Hnd & Hin).
  destruct (rooms_containing_spec s p) as (rs' & Hrs' & Hnd' & Hin').
  assert (Hperm : rs ≡ₚ rs') by (apply NoDup_Permutation; [done..|]; intros r; by rewrite Hin, Hin').
  assert (Hext : ∀ acc acc', acc ≡ₚ acc' → extend_room_messages s since rs' acc' = Ok ref →
            ∃ out, extend_room_messages d since rs acc = Ok out ∧ out ≡ₚ mail_of s a p since).
  { intros acc acc' Hacc' Hr. destruct (extend_room_messages_sim since rs acc Ht Hnd) as (out & Hout & Hsim).
    destruct (Hsim acc (reflexivity _)) as (out1 & Hs1 & Hp1).
    destruct (extend_room_messages_perm since rs rs' acc acc' Hnd Hperm Hacc') as (o1 & o2 & E1 & E2 & Ho).
    exists out. split; [done|]. rewrite Hs1 in E1. rewrite Hr in E2. injection E1 as <-. injection E2 as <-. by rewrite Hp1, Ho. }
  unfold own_messages in *. cbn -[InMemory.rooms_containing] in Href, Hrs' |- *. rewrite Hown, Hrs.
  cbn -[InMemory.rooms_containing].
  destruct a as [q|q x|r]; [| |by destruct Hacc].
  - rewrite Hrs' in Href. cbn in Href. by eapply Hext.
  - rewrite Hrs' in Href. cbn in Href. rewrite Hdir. cbn. eapply Hext; [|done]. by rewrite Hown', Hdir'.
Qed.

Lemma time_ok_0 : time_ok 0.
Proof. done. Qed.

Lemma count_unread_sim a p :
  acts_as a p → Address_validate a = Ok tt → count_unread d a p = count_unread s a p.
Proof.
  intros Hact Ha. rewrite (count_unread_spec _ _ _ Hact). unfold count_unread.
  destruct (own_messages_sim a p 0 Hact time_ok_0) as (out & -> & Hout).
  rewrite count_unacked_sim, count_unacked_spec by done. cbn [Z.add]. do 3 f_equal. by rewrite Hout.
Qed.

Lemma build_inbox_sim a p since limit :
  acts_as a p → Address_validate a = Ok tt → time_ok since →
  build_inbox d a p since limit = build_inbox s a p since limit.
Proof.
  intros Hact Ha Ht. rewrite (build_inbox_spec _ _ _ _ _ Hact (wf_keyed _ Hwf)). unfold build_inbox.
  rewrite count_unread_sim, (count_unread_spec _ _ _ Hact) by done.
  destruct (own_messages_sim a p since Hact Ht) as (out & -> & Hout). do 3 f_equal.
  apply merge_sort_unique; try apply _; [|done].
  intros m n. rewrite Hout, !elem_of_mail_of. intros (_ & _ & i & Hi) (_ & _ & j & Hj) Hmn Hnm.
  pose proof (inbox_le_antisym _ _ Hmn Hnm) as Heq.
  apply (wf_keyed _ Hwf) in Hi as Hi'. apply (wf_keyed _ Hwf) in Hj as Hj'. congruence.
Qed.

Lemma resolved a p rec : resolve_identity s a = Ok (p, rec) → acts_as a p ∧ Address_validate a = Ok tt.
Proof. intros (? & _ & ? & _)%resolve_identity_acts. done. Qed.

Lemma inbox_sim a since limit : time_ok since → inbox d a since limit = inbox s a since limit.
Proof.
  intros Ht. unfold inbox. rewrite resolve_identity_sim.
  destruct (resolve_identity s a) as [[p rec]|] eqn:Hr; [|done]. apply resolved in Hr as [? ?].
  by rewrite build_inbox_sim.
Qed.

Lemma inbox_of_sim a b since limit : time_ok since → inbox_of d a b since limit = inbox_of s a b since limit.
Proof.
  intros Ht. unfold inbox_of. rewrite !resolve_identity_sim. destruct (resolve_identity s a) as [[q recq]|]; [|done].
  destruct (resolve_identity s b) as [[p rec]|] eqn:Hr; [|done]. apply resolved in Hr as [? ?].
  by rewrite build_inbox_sim.
Qed.

Lemma unread_count_of_sim a b : unread_count_of d a b = unread_count_of s a b.
Proof.
  unfold unread_count_of. rewrite !resolve_identity_sim. destruct (resolve_identity s a) as [[q recq]|]; [|done].
  destruct (resolve_identity s b) as [[p rec]|] eqn:Hr; [|done]. apply resolved in Hr as [? ?].
  by rewrite count_unread_sim.
Qed.

(** ** Commands *)

(** Two outcomes that answer alike and leave related stores. *)
Definition alike {A} (x : Db * result A MailError) (y : InMemoryStore * result A MailError) : Prop :=
  x.2 = y.2 ∧ represents x.1 y.1.

Lemma alike_refused {A} (e : MailError) : alike (A := A) (d, Err e) (s, Err e).
Proof. by split. Qed.

Lemma alike_reply {A} (f : A → Reply) x y : alike x y → alike (reply f x) (reply f y).
Proof. intros [Hr Hs]. split; [cbn; by rewrite Hr|done]. Qed.

Lemma alike_on_store {A} op (x : Db * result A StoreError) s' r :
  refines x s' r → alike (on_store op x) (on_store op (s', Ok r)).
Proof. intros [Hr Hs]. split; [cbn; by rewrite Hr|done]. Qed.

#[local] Hint Resolve alike_refused : mail.

(** Case on a guard of the method; the refusing branch answers alike at once. *)
Tactic Notation "guard" constr(e) :=
  destruct e; cbn [map_err ok_or is_some is_none negb]; auto with mail.
Tactic Notation "guard" constr(e) "as" simple_intropattern(p) :=
  destruct e as p; cbn [map_err ok_or is_some is_none negb]; auto with mail.
Tactic Notation "guard" constr(e) "eqn" ident(h) :=
  destruct e eqn:h; cbn [map_err ok_or is_some is_none negb]; auto with mail.
Tactic Notation "guard" constr(e) "as" simple_intropattern(p) "eqn" ident(h) :=
  destruct e as p eqn:h; cbn [map_err ok_or is_some is_none negb]; auto with mail.

(** The value a successful store call hands to the rest of the method. *)
Lemma alike_then {A B} op (x : Db * result A StoreError) s' r (v : B) :
  refines x s' r →
  alike (let '(d', r') := on_store op x in try? _ := r' on d' in (d', Ok v))
        (let '(d', r') := on_store op (s', Ok r) in try? _ := r' on d' in (d', Ok v)).
Proof. destruct x as [d' r']. intros [Hr Hs]. cbn in *. rewrite Hr. by split. Qed.

Lemma register_sim random id lbl perms :
  digest_index s !! sha256_digest (generate_secret random) = None →
  alike (engine_register_participant random d id lbl perms) (engine_register_participant random s id lbl perms).
Proof.
  intros Hdg. unfold engine_register_participant. guard (Participant_validate (mkParticipant id lbl)). db_queries.
  guard (participants s !! id) eqn Hid.
  apply alike_then. by apply register_refines.
Qed.

Lemma deregister_sim id : alike (engine_deregister_participant d id) (engine_deregister_participant s id).
Proof.
  unfold engine_deregister_participant. rewrite require_participant_sim.
  guard (require_participant s id) as [rec|] eqn Hid.
  apply require_participant_iff in Hid. cbn. unfold InMemory.deregister_participant. rewrite Hid.
  by apply alike_on_store, deregister_refines.
Qed.

Lemma rotate_sim random id :
  digest_index s !! sha256_digest (generate_secret random) = None →
  alike (rotate_participant_secret random d id) (rotate_participant_secret random s id).
Proof.
  intros Hdg. unfold rotate_participant_secret. rewrite require_participant_sim.
  guard (require_participant s id) as [rec|] eqn Hid.
  apply require_participant_iff in Hid.
  cbn [MailStore.set_participant_secret_digest InMemoryStore_MailStore Db_MailStore].
  unfold InMemory.set_participant_secret_digest. rewrite Hid. apply alike_then. by apply set_digest_refines.
Qed.

Lemma revoke_sim random id :
  digest_index s !! sha256_digest (generate_secret random) = None →
  alike (revoke_participant_secret random d id) (revoke_participant_secret random s id).
Proof.
  intros [Hr Hs]%(rotate_sim random id). unfold revoke_participant_secret.
  destruct (rotate_participant_secret random d id), (rotate_participant_secret random s id). cbn in *. subst. by split.
Qed.

Lemma set_listener_url_sim id url :
  is_Some (participants s !! id) →
  alike (on_store "set_listener_url" (set_listener_url d id url)) (on_store "set_listener_url" (set_listener_url s id url)).
Proof.
  intros [rec Hid]. cbn [MailStore.set_listener_url InMemoryStore_MailStore Db_MailStore].
  unfold InMemory.set_listener_url. rewrite Hid. by apply alike_on_store, set_listener_refines.
Qed.

Lemma set_listener_sim id url : alike (set_listener d id url) (set_listener s id url).
Proof.
  unfold set_listener. guard (validate_listener_url url). rewrite require_participant_sim.
  guard (require_participant s id) eqn Hid.
  apply require_participant_iff in Hid. by apply set_listener_url_sim.
Qed.

Lemma remove_listener_sim id : alike (remove_listener d id) (remove_listener s id).
Proof.
  unfold remove_listener. rewrite require_participant_sim.
  guard (require_participant s id) eqn Hid.
  apply require_participant_iff in Hid. by apply set_listener_url_sim.
Qed.

Lemma create_room_sim id now : time_ok now → alike (engine_create_room d id now) (engine_create_room s id now).
Proof.
  intros Ht. unfold engine_create_room. db_queries.
  guard (rooms s !! id) eqn Hid.
  by apply alike_on_store, create_room_refines.
Qed.

Lemma add_member_sim room p : alike (engine_add_room_member d room p) (engine_add_room_member s room p).
Proof.
  unfold engine_add_room_member. db_queries.
  guard (rooms s !! room) as [r|] eqn Hr.
  guard (participants s !! p) eqn Hp.
  cbn [MailStore.add_room_member InMemoryStore_MailStore Db_MailStore]. unfold InMemory.add_room_member. rewrite Hr.
  by apply alike_on_store, add_member_refines.
Qed.

Lemma remove_member_sim room p : alike (engine_remove_room_member d room p) (engine_remove_room_member s room p).
Proof.
  unfold engine_remove_room_member. db_queries.
  guard (rooms s !! room) as [r|] eqn Hr.
  cbn [MailStore.remove_room_member InMemoryStore_MailStore Db_MailStore]. unfold InMemory.remove_room_member. rewrite Hr.
  by apply alike_on_store, remove_member_refines.
Qed.

Lemma ensure_session_sim p id c now : time_ok now → alike (ensure_session d p id c now) (ensure_session s p id c now).
Proof.
  intros Ht. unfold ensure_session. guard (SessionCard_validate c).
  guard (SessionId_validate id). rewrite require_participant_sim.
  guard (require_participant s p). db_queries. cbn [map_err].
  set (kept := match sessions s !! id with Some _ => _ | None => _ end). guard kept as [decl|].
  guard (SessionCard_validate (mkSessionCard (attested c) (corroborated c) decl)).
  apply alike_then. by apply upsert_session_refines.
Qed.

Lemma set_declared_sim id w ro pa : alike (set_declared d id w ro pa) (set_declared s id w ro pa).
Proof.
  unfold set_declared. guard (SessionId_validate id). db_queries. cbn [map_err].
  guard (sessions s !! id) as [r|] eqn Hr.
  guard (SessionDeclared_validate (mkSessionDeclared w ro pa)).
  apply alike_on_store, upsert_session_refines; [done|]. by apply (fit_sessions _ Hfit) in Hr as [].
Qed.

Lemma send_sim nonce a rq now :
  time_ok now → messages s !! derive_message_id a rq now nonce = None →
  alike (send nonce d a rq now) (send nonce s a rq now).
Proof.
  intros Ht Hnew. unfold send. guard (SendRequest_validate rq).
  rewrite resolve_identity_sim. guard (resolve_identity s a) as [[p rec]|] eqn Ha.
  apply resolved in Ha as [_ Ha]. guard (negb (may_send rec)). rewrite require_recipient_sim.
  guard (require_recipient s (rq_to rq)). fold (message_of nonce a rq now).
  guard (Message_validate (message_of nonce a rq now)) as [[]|] eqn Hv.
  destruct (insert_message_refines d s Hrep Hwf (message_of nonce a rq now) (key_of a rq)) as [Hr Hs]; [done..| |].
  { intros k Hk%key_of_from. by rewrite Hk. }
  fold (key_of a rq).
  cbn [MailStore.insert_message InMemoryStore_MailStore Db_MailStore].
  destruct (sql_insert_message d _ _), (InMemory.insert_message s _ _) as [s2 r2]. cbn in *. subst r2.
  destruct r; by split.
Qed.

Lemma ack_sim a id now : time_ok now → alike (ack d a id now) (ack s a id now).
Proof.
  intros Ht. unfold ack. rewrite resolve_identity_sim.
  guard (resolve_identity s a) as [[p rec]|].
  guard (require_read_permission rec). db_queries. cbn [map_err].
  guard (messages s !! id) as [m|]. rewrite is_readable_sim.
  guard (is_readable s m a p rec) as [[]|].
  guard (Ack_validate (mkAck id a now)) as [[]|] eqn Hv.
  pose proof (record_ack_refines d s Hrep Hwf Hfit _ Hv Ht) as Href.
  cbn [MailStore.record_ack InMemoryStore_MailStore Db_MailStore]. unfold InMemory.record_ack. cbn in Href |- *.
  destruct (acks s !! (id, a)); by apply alike_on_store.
Qed.
End Related.

(** ** Runs *)

(** What a command needs for the schema to store its effect. *)
Definition storable (s : InMemoryStore) (c : Command) : Prop :=
  match c with
  | CCreateRoom id now => RoomId_validate id = Ok tt ∧ time_ok now
  | CEnsureSession _ _ _ now | CAck _ _ now => time_ok now
  | CSend nonce sender rq now => time_ok now ∧ messages s !! derive_message_id sender rq now nonce = None
  | _ => True
  end.

Lemma exec_sim d s c :
  represents d s → wf s → fits s → randomness_ok s c → storable s c → alike (exec c d) (exec c s).
Proof.
  intros Hrep Hwf Hfit Hrnd Hst. destruct c; cbn [exec randomness_ok storable] in *; apply alike_reply.
  - by apply register_sim.
  - by apply deregister_sim.
  - by apply rotate_sim.
  - by apply revoke_sim.
  - by apply set_listener_sim.
  - by apply remove_listener_sim.
  - by apply create_room_sim; [..|apply Hst].
  - by apply add_member_sim.
  - by apply remove_member_sim.
  - by apply ensure_session_sim.
  - by apply set_declared_sim.
  - by apply send_sim; [..|apply Hst|apply Hst].
  - by apply ack_sim.
Qed.

Lemma fits_default : fits InMemoryStore_default.
Proof. by split. Qed.

Lemma Participant_validate_id p l : Participant_validate (mkParticipant p l) = Ok tt → ParticipantId_validate p = Ok tt.
Proof. unfold Participant_validate. cbn. by destruct (ParticipantId_validate p) as [[]|]. Qed.

Lemma fits_with_participants s ps ix :
  fits s → (∀ p rec, ps !! p = Some rec → slen (secret_digest rec) = 32) → fits (with_participants s ps ix).
Proof. intros [] Hps. by split. Qed.

Lemma fits_with_room s id r :
  fits s → RoomId_validate id = Ok tt → time_ok (room_created_at r) →
  (∀ p, p ∈ members r → ParticipantId_validate p = Ok tt) → fits (with_rooms s (<[id := r]> (rooms s))).
Proof.
  intros [] Hid Ht Hp. split; try done; cbn.
  - intros id' r' [[<- <-]|[_ Hr]]%lookup_insert_Some; eauto.
  - intros id' r' p [[<- <-]|[_ Hr]]%lookup_insert_Some; eauto.
Qed.

Lemma fits_with_session s id r :
  fits s → ParticipantId_validate (sess_account r) = Ok tt → time_ok (last_seen_unix_ms r) →
  fits (with_sessions s (<[id := r]> (sessions s))).
Proof. intros [] Ha Ht. split; try done. cbn. intros id' r' [[<- <-]|[_ Hr]]%lookup_insert_Some; eauto. Qed.

Lemma insert_all {K A} `{Countable K} (P : A → Prop) (m : gmap K A) i x :
  (∀ j y, m !! j = Some y → P y) → P x → ∀ j y, <[i := x]> m !! j = Some y → P y.
Proof. intros Hm Hx j y [[<- <-]|[_ Hy]]%lookup_insert_Some; eauto. Qed.

Lemma effect_fits s c s' r : wf s → fits s → storable s c → effect s c s' r → fits s'.
Proof.
  intros Hwf Hfit Hst Heff. pose proof (fit_digests _ Hfit) as Hdg. pose proof (fit_rooms _ Hfit) as Hrooms.
  destruct Heff; cbn in Hst; try done.
  1-6: apply fits_with_participants; [done|].
  - apply (insert_all (λ r, slen (secret_digest r) = 32)); [done|]. apply sha256_len.
  - intros p rec' [_ Hr]%lookup_delete_Some. eauto.
  - apply (insert_all (λ r, slen (secret_digest r) = 32)); [done|]. apply sha256_len.
  - apply (insert_all (λ r, slen (secret_digest r) = 32)); [done|]. apply sha256_len.
  - apply (insert_all (λ r, slen (secret_digest r) = 32)); [done|]. cbn. eauto.
  - apply (insert_all (λ r, slen (secret_digest r) = 32)); [done|]. cbn. eauto.
  - destruct Hst. by apply fits_with_room.
  - match goal with Hr : rooms s !! _ = Some _, Hp : is_Some _ |- _ =>
      pose proof (Hrooms _ _ Hr) as [? ?]; destruct Hp as [pr Hpr] end.
    apply fits_with_room; [done..|].
    intros q [->%elem_of_singleton|Hq]%elem_of_union; [|by eapply (fit_members _ Hfit)].
    apply (wf_participants _ Hwf) in Hpr as [Hpv _]. by eapply Participant_validate_id.
  - match goal with Hr : rooms s !! _ = Some _ |- _ => pose proof (Hrooms _ _ Hr) as [? ?] end.
    apply fits_with_room; [done..|]. intros q [Hq _]%elem_of_difference. by eapply (fit_members _ Hfit).
  - match goal with Hp : is_Some _ |- _ => destruct Hp as [pr Hpr] end.
    apply (wf_participants _ Hwf) in Hpr as [Hpv _]. apply fits_with_session; [done| |done].
    by eapply Participant_validate_id.
  - match goal with Hr : sessions s !! _ = Some _ |- _ => apply (fit_sessions _ Hfit) in Hr as [? ?] end.
    by apply fits_with_session.
  - destruct Hst as [Ht _]. destruct Hfit. split; try done. cbn.
    by apply (insert_all (λ m, time_ok (created_at_unix_ms m))).
  - destruct Hfit. split; try done. cbn. by apply (insert_all (λ x, time_ok (acked_at_unix_ms x))).
Qed.

(** A sequence of commands, with the answers given. *)
Fixpoint run_all {S} `{MailStore S} (cs : list Command) (s : S) : S * list (result Reply MailError) :=
  match cs with
  | [] => (s, [])
  | c :: cs =>
      let '(s, r) := exec c s in
      let '(s, rs) := run_all cs s in
      (s, r :: rs)
  end.

(** Every command of the run is one the schema can store, in the state it meets. *)
Fixpoint storable_run (s : InMemoryStore) (cs : list Command) : Prop :=
  match cs with
  | [] => True
  | c :: cs => randomness_ok s c ∧ storable s c ∧ storable_run (exec c s).1 cs
  end.

Lemma exec_keeps s c : wf s → fits s → randomness_ok s c → storable s c → wf (exec c s).1 ∧ fits (exec c s).1.
Proof.
  intros Hwf Hfit Hrnd Hst. destruct (exec c s) as [s' [r|e]] eqn:Hex; cbn.
  - apply exec_forward in Hex. split; [by eapply effect_wf|by eapply effect_fits].
  - by apply exec_err in Hex as ->.
Qed.

Lemma run_sim cs d s :
  represents d s → wf s → fits s → storable_run s cs →
  (run_all cs d).2 = (run_all cs s).2 ∧ represents (run_all cs d).1 (run_all cs s).1 ∧ wf (run_all cs s).1 ∧ fits (run_all cs s).1.
Proof.
  revert d s. induction cs as [|c cs IH]; intros d s Hrep Hwf Hfit; cbn [run_all storable_run]; [done|].
  intros (Hrnd & Hst & Hrun). destruct (exec_keeps s c Hwf Hfit Hrnd Hst) as [Hwf' Hfit'].
  destruct (exec_sim d s c Hrep Hwf Hfit Hrnd Hst) as [Hr Hs].
  destruct (exec c d) as [d' r], (exec c s) as [s' r']. cbn in *. subst r'.
  specialize (IH d' s' Hs Hwf' Hfit' Hrun). destruct (run_all cs d'), (run_all cs s'). cbn in *.
  destruct IH as (-> & ?). done.
Qed.

(** ** A message id already on file *)

(** The id of a keyed message does not depend on the random nonce. *)
Lemma keyed_message_of nonce nonce' a rq now k :
  idempotency_key rq = Some k → message_of nonce' a rq now = message_of nonce a rq now.
Proof. intros Hk. unfold message_of, derive_message_id, message_id_preimage. by rewrite Hk. Qed.

(** The message row is inserted before the idempotency ledger is consulted, so a message id on
    file fails the insertion whatever the ledger says. *)
Lemma insert_on_file d s m key :
  represents d s → wf s → Message_validate m = Ok tt → time_ok (created_at_unix_ms m) →
  is_Some (messages s !! message_id m) → sql_insert_message d m key = (d, Err constraint_violation).
Proof.
  intros Hrep Hwf Hv Ht [m' Hm']. unfold sql_insert_message.
  apply Message_validate_parts in Hv as (_ & _ & Hacc & _). rewrite (sender_columns_ok _ Hacc).
  destruct (payload_text_ok (message_payload m)) as (t & -> & _ & _). cbn [map_err]. rewrite store_i64_ok by done.
  by rewrite (exists_holds _ _ _ _ _ (rep_messages _ _ Hrep) (names_message _ _ (wf_keyed _ Hwf))), Hm'.
Qed.

Lemma send_on_file d s nonce a rq now p rec :
  represents d s → wf s → fits s → time_ok now → SendRequest_validate rq = Ok tt → acting s a p rec →
  may_send rec = true → recipient_exists s (rq_to rq) → Message_validate (message_of nonce a rq now) = Ok tt →
  is_Some (messages s !! derive_message_id a rq now nonce) →
  send nonce d a rq now = (d, Err (StoreUnavailable "insert_message")).
Proof.
  intros Hrep Hwf Hfit Ht Hrq Ha%resolve_identity_iff Hsend Hto%require_recipient_iff Hv Hm. unfold send.
  rewrite Hrq, (resolve_identity_sim d s Hrep Hfit), Ha, Hsend, (require_recipient_sim d s Hrep Hfit), Hto. cbn [negb].
  fold (message_of nonce a rq now). rewrite Hv.
  cbn [MailStore.insert_message Db_MailStore]. by rewrite (insert_on_file d s).
Qed.

Lemma same_time_retry d s d' nonce nonce' a rq now r :
  represents d s → wf s → fits s → storable s (CSend nonce a rq now) → is_Some (idempotency_key rq) →
  (key_of a rq ≫= λ k, idempotency s !! k) = None → send nonce d a rq now = (d', Ok r) →
  send nonce' d' a rq now = (d', Err (StoreUnavailable "insert_message")).
Proof.
  intros Hrep Hwf Hfit [Ht Hnew] [k Hk] Hfree Hsend.
  assert (Hrnd : randomness_ok s (CSend nonce a rq now)) by (cbn; intros m; by rewrite Hnew).
  destruct (send_sim d s Hrep Hwf Hfit nonce a rq now Ht Hnew) as [Hr Hrep']. rewrite Hsend in Hr, Hrep'. cbn in Hr, Hrep'.
  assert (Hex : exec (CSend nonce a rq now) s = ((send nonce s a rq now).1, Ok (RSent r))).
  { cbn [exec]. unfold reply. by rewrite <- Hr. }
  apply exec_forward in Hex. set (s' := (send nonce s a rq now).1) in *. clearbody s'.
  assert (Hwf' : wf s') by (by eapply effect_wf).
  assert (Hfit' : fits s') by (by eapply (effect_fits s (CSend nonce a rq now))).
  pose proof (keyed_message_of nonce nonce' a rq now k Hk) as Heq.
  inversion Hex; subst; [|congruence].
  eapply (send_on_file _ _ nonce'); try done.
  - by rewrite Heq.
  - pose proof (f_equal message_id Heq) as Hid. cbn in Hid. rewrite Hid. cbn. rewrite lookup_insert_eq. eauto.
Qed.
End SqliteEngine.
