(* ===== verification/SqliteProps.v ===== *)
(** * Properties of the SQLite store

    The refinement theorems and the round trip of a message row, with witnesses over a concrete
    text encoding in place of [serde_json]. *)

From S2P Require Import Prelude Api MailStore Primitives Engine EngineMail EngineSpec EngineInv Sqlite SqliteRefine SqliteEngine.
From Stdlib Require Import Ascii.

Local Open Scope Z_scope.

(** ** A concrete text encoding *)

Module ConcreteJson.

#[local] Instance MessageRef_countable : Countable MessageRef.
Proof.
  refine (inj_countable' (λ r, (ref_kind r, ref_locator r, ref_digest r)) (λ '(k, l, d), mkMessageRef k l d) _).
  by intros [].
Defined.

#[local] Instance MessagePayload_eq_dec : EqDecision MessagePayload.
Proof. solve_decision. Defined.

#[local] Instance MessagePayload_countable : Countable MessagePayload.
Proof.
  refine (inj_countable' (λ p, (pl_subject p, pl_body p, pl_reply_to p, pl_correlation p, pl_refs p))
            (λ '(s, b, r, c, l), mkMessagePayload s b r c l) _). by intros [].
Defined.

#[local] Instance SessionCard_countable : Countable SessionCard.
Proof.
  refine (inj_countable'
    (λ c, (pid (attested c), started_at_unix_ms (attested c), exe (attested c),
           provider_session_id (corroborated c), model (corroborated c), cwd (corroborated c),
           working_on (declared c), role (declared c), parent (declared c)))
    (λ '(p, t, e, i, m, w, o, r, q),
       mkSessionCard (mkSessionAttested p t e) (mkSessionCorroborated i m w) (mkSessionDeclared o r q)) _).
  by intros [[] [] []].
Defined.

(** A positive number as its binary digits. *)
Fixpoint digits (p : positive) : string :=
  match p with
  | xH => EmptyString
  | xO p => String "0"%char (digits p)
  | xI p => String "1"%char (digits p)
  end.

Fixpoint number (s : string) : positive :=
  match s with
  | EmptyString => xH
  | String a s => if Ascii.eqb a "0"%char then xO (number s) else xI (number s)
  end.

Lemma number_digits p : number (digits p) = p.
Proof. induction p as [p IH|p IH|]; cbn; by rewrite ?IH. Qed.

#[export] Instance concrete_json : StoreJson := {|
  payload_to_string p := Ok (digits (encode p));
  payload_from_str s := ok_or (decode (number s)) "malformed payload";
  card_to_string c := Ok (digits (encode c));
  card_from_str s := ok_or (decode (number s)) "malformed card"
|}.

#[export] Instance concrete_json_laws : StoreJsonLaws.
Proof. split; intros x; eexists; (split; [done|]); cbn; by rewrite number_digits, decode_encode. Qed.
End ConcreteJson.

(** ** Inserting and reading back *)

Section Roundtrip.
Context `{StoreJson} `{!StoreJsonLaws}.

Lemma find_row_last {A} (p : A → bool) t x : exists_row p t = false → p x = true → find_row p (t ++ [x]) = Some x.
Proof.
  induction t as [|y t IH]; cbn; [by intros _ ->|]. destruct (p y); [done|]. apply IH.
Qed.

(** A valid message whose insertion SQLite accepts reads back field for field, from any tables. *)
Theorem inserted_message_reads_back d d' m key :
  Message_validate m = Ok tt → 0 ≤ created_at_unix_ms m → sql_insert_message d m key = (d', Ok Inserted) →
  sql_get_message d' (message_id m) = Ok (Some m).
Proof.
  intros Hv Hpos Hins. unfold sql_insert_message in Hins.
  apply Message_validate_parts in Hv as Hp. destruct Hp as (_ & _ & Hacc & _). rewrite (sender_columns_ok _ Hacc) in Hins.
  destruct (payload_text_ok (message_payload m)) as (t & Hpl & Htext & _). rewrite Hpl in Hins. cbn [map_err] in Hins.
  destruct (store_i64 (created_at_unix_ms m)) as [c|] eqn:Hc; [|done].
  assert (Ht : time_ok (created_at_unix_ms m) ∧ c = created_at_unix_ms m).
  { unfold store_i64, i64_try_from in Hc. destruct (Z.leb_spec (created_at_unix_ms m) i64_max); [|done].
    injection Hc as <-. split; [|done]. by split. }
  destruct Ht as [Ht ->]. rewrite <- Htext in Hins. fold (enc_message (message_id m) m) in Hins.
  destruct (exists_row _ (t_messages d)) eqn:Hex; [done|].
  assert (Hmsgs : t_messages d' = t_messages d ++ [enc_message (message_id m) m]).
  { destruct key as [[sender k]|]; [|by injection Hins as <-].
    destruct (find_row _ (t_idempotency d)); [|by injection Hins as <-].
    destruct (map_err _ _); discriminate. }
  unfold sql_get_message. rewrite Hmsgs, find_row_last; [|done|by rewrite enc_message_id, seqb_refl].
  by rewrite assemble_enc_message.
Qed.
End Roundtrip.

(** ** Refinement *)

Section Refinement.
Context `{Primitives} `{!PrimitivesLaws} `{StoreJson} `{!StoreJsonLaws}.

(** C2: from empty tables, every run of commands the schema can store is answered, command by
    command, exactly as over the abstract store, and the tables then hold the abstract state. *)
Theorem sqlite_refines_mailbox cs :
  storable_run InMemoryStore_default cs →
  (run_all cs Db_empty).2 = (run_all cs InMemoryStore_default).2 ∧
  represents (run_all cs Db_empty).1 (run_all cs InMemoryStore_default).1.
Proof.
  intros Hrun. destruct (run_sim cs Db_empty InMemoryStore_default) as (? & ? & _); auto using represents_empty,
    wf_default, fits_default.
Qed.

(** Over tables that hold a well-formed mailbox, every mail query of the engine gives the very
    answer it gives over that mailbox: the same page in the same order, the same counts, the same
    refusals. *)
Theorem sqlite_queries_agree d s a b id since limit secret :
  represents d s → wf s → fits s → time_ok since →
  inbox d a since limit = inbox s a since limit ∧ inbox_of d a b since limit = inbox_of s a b since limit ∧
  unread_count_of d a b = unread_count_of s a b ∧ message_get d a id = message_get s a id ∧
  authenticate d secret = authenticate s secret.
Proof.
  intros Hrep Hwf Hfit Ht. repeat split.
  - by apply inbox_sim.
  - by apply inbox_of_sim.
  - by apply unread_count_of_sim.
  - by apply message_get_sim.
  - by apply authenticate_sim.
Qed.

(** A keyed send repeated within the same millisecond derives the message id already on file;
    SQLite refuses that row before the idempotency ledger is asked, so the retry is answered with
    a store failure although the first send was stored. *)
Theorem same_millisecond_retry_fails d s d' nonce nonce' a rq now r :
  represents d s → wf s → fits s → storable s (CSend nonce a rq now) → is_Some (idempotency_key rq) →
  (key_of a rq ≫= λ k, idempotency s !! k) = None → send nonce d a rq now = (d', Ok r) →
  send nonce' d' a rq now = (d', Err (StoreUnavailable "insert_message")).
Proof. apply same_time_retry. Qed.
End Refinement.

(** ** Witnesses *)

Module SqliteWitnesses.
Import Scenario ConcreteJson.

Definition cs : list Command := setup ++ mails.
Definition d1 : Db := (run_all cs Db_empty).1.
Definition m1 : InMemoryStore := (run_all cs InMemoryStore_default).1.

#[local] Instance storable_dec s c : Decision (storable s c).
Proof. unfold storable, time_ok. destruct c; apply _. Defined.

#[local] Instance storable_run_dec s cs : Decision (storable_run s cs).
Proof. revert s. induction cs as [|c cs IH]; intros s; cbn [storable_run]; apply _. Defined.

Lemma cs_storable : storable_run InMemoryStore_default cs.
Proof. apply (bool_decide_unpack (storable_run InMemoryStore_default cs)). vm_compute. done. Qed.

Lemma d1_state : represents d1 m1 ∧ wf m1 ∧ fits m1.
Proof.
  destruct (run_sim cs Db_empty InMemoryStore_default) as (_ & ? & ? & ?); auto using represents_empty, wf_default,
    fits_default, cs_storable.
Qed.

Definition m0 : Message := message_of "n" (Direct alice) (req (Direct bob) (Some "k")) 10.
Definition k0 : option (Address * string) := Some (Direct alice, "k").
Definition d0 : Db := (sql_insert_message Db_empty m0 k0).1.

Lemma inserted_message_reads_back_witness :
  sql_insert_message Db_empty m0 k0 = (d0, Ok Inserted) ∧ sql_get_message d0 (message_id m0) = Ok (Some m0).
Proof.
  split; [vm_compute; reflexivity|].
  apply (inserted_message_reads_back Db_empty d0 m0 k0);
    [vm_compute; reflexivity|vm_compute; discriminate|vm_compute; reflexivity].
Defined.

Lemma sqlite_refines_mailbox_witness :
  storable_run InMemoryStore_default cs ∧ (run_all cs Db_empty).2 = (run_all cs InMemoryStore_default).2.
Proof. split; [apply cs_storable|]. apply (sqlite_refines_mailbox cs), cs_storable. Defined.

Lemma sqlite_queries_agree_witness : inbox d1 (Direct bob) 0 50 = inbox m1 (Direct bob) 0 50.
Proof.
  destruct d1_state as (Hrep & Hwf & Hfit).
  exact (proj1 (sqlite_queries_agree d1 m1 (Direct bob) (Direct bob) id1 0 50 "secret" Hrep Hwf Hfit time_ok_0)).
Defined.

Definition retried : SendRequest := req (Direct bob) (Some "k2").
Definition d2 : Db := (send "n4" d1 (Direct alice) retried 20).1.
Definition r2 : SendResponse := mkSendResponse (derive_message_id (Direct alice) retried 20 "n4") (Direct alice).

Lemma d2_sent : send "n4" d1 (Direct alice) retried 20 = (d2, Ok r2).
Proof. vm_compute. reflexivity. Qed.

Lemma same_millisecond_retry_fails_witness :
  send "n5" d2 (Direct alice) retried 20 = (d2, Err (StoreUnavailable "insert_message")).
Proof.
  destruct d1_state as (Hrep & Hwf & Hfit).
  eapply (same_millisecond_retry_fails d1 m1 d2 "n4" "n5" (Direct alice) retried 20 r2 Hrep Hwf Hfit);
    [by vm_compute|by eexists|vm_compute; reflexivity|apply d2_sent].
Defined.
End SqliteWitnesses.
