(* ===== verification/Service.v ===== *)
(** * The daemon's facade: waiting inboxes and delivery (src/service.rs)

    [MailboxService] runs engine calls under one lock, so each of them is one atomic step; between
    two of them any other task may run. A waiting [inbox] and a [send] are therefore small
    programs with a program counter each, and [svc_step] interleaves any number of them with each
    other, with every other engine command, with the clock and with the background listener
    tasks. [tokio::sync::Notify] is a parameter: all that is assumed of it is its documented
    promise that a [Notified] future observes every [notify_waiters] after its creation. The second
    part proves that no waiting inbox misses its mail. [service_inbox] is the same call seen from
    the handler that awaits it. Instants and durations are in milliseconds. *)

From S2P Require Import Prelude Api MailStore Primitives Engine EngineMail EngineSpec EngineInv.

Local Open Scope Z_scope.

(** ** What the facade uses of [tokio::sync::Notify] *)

Class Notify := {
  notify : Type;
  ticket : Type;  (* a [Notified] future *)
  notify_new : notify;
  notified : notify → ticket;
  notify_waiters : notify → notify;
  completed : notify → ticket → bool
}.

Class NotifyLaws `{Notify} : Prop := {
  notify_observed n k : completed (Nat.iter (S k) notify_waiters n) (notified n) = true
}.

Section Service.
Context {S : Type} `{MailStore S} `{Primitives} `{Notify}.

(** ** [DeliveryNotifier] *)

(** [per_account] holds the state of each shared [Notify]. *)
Record DeliveryNotifier := mkDeliveryNotifier { per_account : gmap ParticipantId notify }.

Definition DeliveryNotifier_new : DeliveryNotifier := mkDeliveryNotifier ∅.

(** Get or insert; the [Notify] itself is shared, so a caller keeps the account as its handle. *)
Definition notify_for (d : DeliveryNotifier) (account : ParticipantId) : DeliveryNotifier :=
  match per_account d !! account with
  | Some _ => d
  | None => mkDeliveryNotifier (<[account := notify_new]> (per_account d))
  end.

Definition notify_accounts (d : DeliveryNotifier) (accounts : list ParticipantId) : DeliveryNotifier :=
  mkDeliveryNotifier (foldl (λ d account, alter notify_waiters account d) (per_account d) accounts).

(** ** Who a message reaches *)

Definition room_members (s : S) (room : RoomId) : list ParticipantId :=
  match get_room s room with
  | Ok (Some record) => elements (members record)
  | _ => []
  end.

Definition accounts_for (s : S) (a : Address) : list ParticipantId :=
  match a with
  | Direct participant | Session participant _ => [participant]
  | Room room => room_members s room
  end.

(** [spawn_listener_delivery]'s task: the POST it makes, if any. *)
Definition listener_delivery (s : S) (account : ParticipantId) (a from : Address) (id : MessageId) :
    option (string * DeliveryNotification) :=
  match get_participant s account with
  | Ok (Some record) => (λ url, (url, mkDeliveryNotification account a id from)) <$> listener_url record
  | _ => None
  end.

(** ** [authenticate] *)

Record AuthenticatedParticipant := mkAuthenticatedParticipant {
  ap_id : ParticipantId;
  ap_label : option string;
  ap_operator : bool }.

Definition service_authenticate (s : S) (token : string) : result AuthenticatedParticipant MailError :=
  let? id := authenticate s token in
  let? found := map_err (store_unavailable "get_participant") (get_participant s id) in
  let? record := ok_or found (UnknownParticipant id) in
  Ok (mkAuthenticatedParticipant id (label record) (operator record)).

Definition session_card (s : S) (session : SessionId) : result (option SessionCard) MailError :=
  let? found := map_err (store_unavailable "get_session") (get_session s session) in
  Ok (card <$> found).

Definition rooms_of (s : S) (participant : ParticipantId) : result (list RoomId) MailError :=
  map_err (store_unavailable "rooms_containing") (rooms_containing s participant).

Definition participant_exists (s : S) (id : ParticipantId) : result bool MailError :=
  let? found := map_err (store_unavailable "get_participant") (get_participant s id) in
  Ok (is_some found).

(** ** A waiting [inbox] as a program *)

(** The variables of one [inbox_wait] call. *)
Record WaitCall := mkWaitCall {
  wc_reader : Address;
  wc_since : Z;
  wc_limit : Z;
  wc_deadline : Z }.

(** Where it stands: at the head of its loop; subscribed, before the store read; after an empty
    page; parked; returned. *)
Inductive WaitPc :=
| WLoop
| WSubscribed (t : option ticket)
| WEmpty (t : option ticket) (page : InboxPage)
| WParked (t : ticket)
| WAnswered (r : result InboxPage MailError).

(** [let notified = notify.as_ref().map(|n| n.notified());] *)
Definition subscribe (d : DeliveryNotifier) (w : WaitCall) : option ticket :=
  account (wc_reader w) ≫= λ p, notified <$> per_account d !! p.

(** [inbox_once], and the return on an error or a page with mail. *)
Definition check_inbox (s : S) (w : WaitCall) (t : option ticket) : WaitPc :=
  match inbox s (wc_reader w) (wc_since w) (wc_limit w) with
  | Err e => WAnswered (Err e)
  | Ok page => if decide (ip_messages page = []) then WEmpty t page else WAnswered (Ok page)
  end.

(** The two early returns after an empty page, or the wait. *)
Definition park (now : Z) (w : WaitCall) (t : option ticket) (page : InboxPage) : WaitPc :=
  match t with
  | None => WAnswered (Ok page)
  | Some t => if wc_deadline w - now <=? 0 then WAnswered (Ok page) else WParked t
  end.

(** Whether [tokio::time::timeout(remaining, notified)] has returned. *)
Definition woken (d : DeliveryNotifier) (now : Z) (w : WaitCall) (t : ticket) : bool :=
  match account (wc_reader w) ≫= λ p, per_account d !! p with
  | Some n => completed n t || (wc_deadline w <=? now)
  | None => wc_deadline w <=? now
  end.

(** ** A waiting [inbox] as its caller sees it *)

(** What happens around one waiting call: the clock when it computes its deadline and after its first check; for each
    wake-up before the deadline what the other tasks made of the store meanwhile, and the clock after the check that
    follows; and what they made of the store before the check that follows the deadline. *)
Record Waiting := mkWaiting {
  wt_started : Z;
  wt_now : Z;
  wt_wakes : list ((S → S) * Z);
  wt_expired : S → S }.

(** The loop of [inbox_wait]; the check after the deadline ends it whatever it finds. *)
Fixpoint inbox_wait (w : WaitCall) (s : S) (now : Z) (wakes : list ((S → S) * Z)) (expired : S → S) : S * result InboxPage MailError :=
  match inbox s (wc_reader w) (wc_since w) (wc_limit w) with
  | Err e => (s, Err e)
  | Ok page =>
      if negb (bool_decide (ip_messages page = [])) then (s, Ok page)
      else match account (wc_reader w) with
           | None => (s, Ok page)
           | Some _ =>
               if wc_deadline w - now <=? 0 then (s, Ok page)
               else match wakes with
                    | (others, now) :: wakes => inbox_wait w (others s) now wakes expired
                    | [] => let s := expired s in (s, inbox s (wc_reader w) (wc_since w) (wc_limit w))
                    end
           end
  end.

(** [MailboxService::inbox] *)
Definition service_inbox (s : S) (reader : Address) (since limit : Z) (wait : option Z) (waiting : Waiting) : S * result InboxPage MailError :=
  match wait with
  | Some wait =>
      inbox_wait (mkWaitCall reader since limit (wt_started waiting + wait)) s (wt_now waiting) (wt_wakes waiting) (wt_expired waiting)
  | None => (s, inbox s reader since limit)
  end.

(** One pass of the loop is [check_inbox] and [park], the steps that [svc_step] interleaves. *)
Lemma inbox_wait_pass w s now wakes expired (t : option ticket) :
  (t = None ↔ account (wc_reader w) = None) →
  inbox_wait w s now wakes expired =
  match check_inbox s w t with
  | WAnswered r => (s, r)
  | WEmpty t page =>
      match park now w t page with
      | WAnswered r => (s, r)
      | _ => match wakes with
             | (others, now) :: wakes => inbox_wait w (others s) now wakes expired
             | [] => (expired s, inbox (expired s) (wc_reader w) (wc_since w) (wc_limit w))
             end
      end
  | _ => (s, Ok (mkInboxPage [] 0))
  end.
Proof.
  intros Ht. destruct wakes; cbn [inbox_wait]; unfold check_inbox; (destruct (inbox s _ _ _) as [page|]; [|done]);
    (destruct (decide (ip_messages page = [])) as [Hp|Hp]; [rewrite bool_decide_true by done|by rewrite bool_decide_false by done]); cbn [negb];
    unfold park; (destruct t as [t|]; [|by rewrite (proj1 Ht eq_refl)]);
    (destruct (account (wc_reader w)) eqn:Hacc; [|discriminate (proj2 Ht eq_refl)]); by destruct (_ <=? 0).
Qed.

(** A waiting call answers what a plain read of the store it last met answers, and it comes back with an empty page
    only after its deadline, or when its reader has no account. *)
Lemma inbox_wait_answers w s now wakes expired s' r :
  inbox_wait w s now wakes expired = (s', r) →
  r = inbox s' (wc_reader w) (wc_since w) (wc_limit w) ∧
  ((∃ page, r = Ok page ∧ ip_messages page = []) → account (wc_reader w) = None ∨
     (∃ now', now' ∈ now :: wakes.*2 ∧ wc_deadline w ≤ now') ∨ ∃ s0, s' = expired s0).
Proof.
  revert s now. induction wakes as [|[others now1] wakes IH]; intros s now; cbn [inbox_wait];
    (destruct (inbox s (wc_reader w) (wc_since w) (wc_limit w)) as [page|e] eqn:Hin; [|intros [= <- <-]; split; [done|intros (? & ? & _); done]]);
    (destruct (bool_decide (ip_messages page = [])) eqn:Hp; cbn [negb];
      [|intros [= <- <-]; apply bool_decide_eq_false in Hp; split; [done|intros (? & [= <-] & ?); done]]);
    (destruct (account (wc_reader w)) as [q|]; [|intros [= <- <-]; split; [done|by left]]);
    (destruct (Z.leb_spec (wc_deadline w - now) 0); [intros [= <- <-]; split; [done|intros _; right; left; exists now; split; [by left|lia]]|]).
  - intros [= <- <-]. split; [done|]. intros _. right. right. by exists s.
  - intros Hw%IH. destruct Hw as [Hr Hempty]. split; [done|]. intros [?|[(n & Hn & ?)|?]]%Hempty; [by left| |by auto].
    right. left. exists n. split; [by right|done].
Qed.

(** ** A [send] as a program *)

Record SendCall := mkSendCall { sc_to : Address; sc_from : Address; sc_response : SendResponse }.

(** Committed, before [accounts_for]; about to notify; returned. *)
Inductive SendPc :=
| SCommitted (c : SendCall)
| SNotifying (c : SendCall) (accounts : list ParticipantId)
| SAnswered (r : result SendResponse MailError).

(** The engine call [send] starts with. *)
Definition commit_send (nonce : string) (s : S) (sender : Address) (request : SendRequest) (now : Z) : S * SendPc :=
  let '(s, r) := send nonce s sender request now in
  (s, match r with
      | Err e => SAnswered (Err e)
      | Ok response => SCommitted (mkSendCall (rq_to request) sender response)
      end).

(** ** The whole facade *)

Record Svc := mkSvc {
  sv_store : S;
  sv_delivery : DeliveryNotifier;
  sv_now : Z;
  sv_waits : gmap nat (WaitCall * WaitPc);
  sv_sends : gmap nat SendPc;
  sv_spawned : list (ParticipantId * SendCall);
  sv_posted : list (string * DeliveryNotification);
  sv_late : list (ParticipantId * Message) (* history: mail that was in a room before the participant joined it *) }.

Definition with_store (σ : Svc) s := mkSvc s (sv_delivery σ) (sv_now σ) (sv_waits σ) (sv_sends σ) (sv_spawned σ) (sv_posted σ) (sv_late σ).
Definition with_delivery (σ : Svc) d := mkSvc (sv_store σ) d (sv_now σ) (sv_waits σ) (sv_sends σ) (sv_spawned σ) (sv_posted σ) (sv_late σ).
Definition with_now (σ : Svc) t := mkSvc (sv_store σ) (sv_delivery σ) t (sv_waits σ) (sv_sends σ) (sv_spawned σ) (sv_posted σ) (sv_late σ).
Definition with_wait (σ : Svc) i w := mkSvc (sv_store σ) (sv_delivery σ) (sv_now σ) (<[i := w]> (sv_waits σ)) (sv_sends σ) (sv_spawned σ) (sv_posted σ) (sv_late σ).
Definition with_send (σ : Svc) j p := mkSvc (sv_store σ) (sv_delivery σ) (sv_now σ) (sv_waits σ) (<[j := p]> (sv_sends σ)) (sv_spawned σ) (sv_posted σ) (sv_late σ).
Definition with_spawned (σ : Svc) l := mkSvc (sv_store σ) (sv_delivery σ) (sv_now σ) (sv_waits σ) (sv_sends σ) l (sv_posted σ) (sv_late σ).
Definition with_posted (σ : Svc) l := mkSvc (sv_store σ) (sv_delivery σ) (sv_now σ) (sv_waits σ) (sv_sends σ) (sv_spawned σ) l (sv_late σ).
Definition with_late (σ : Svc) l := mkSvc (sv_store σ) (sv_delivery σ) (sv_now σ) (sv_waits σ) (sv_sends σ) (sv_spawned σ) (sv_posted σ) l.

(** [inbox_wait] up to its loop. *)
Definition start_wait (σ : Svc) (i : nat) (a : Address) (since limit wait : Z) : Svc :=
  let σ := match account a with
           | Some p => with_delivery σ (notify_for (sv_delivery σ) p)
           | None => σ
           end in
  with_wait σ i (mkWaitCall a since limit (sv_now σ + wait), WLoop).

(** The end of [send]: wake the waiters, spawn a listener task per account, answer. *)
Definition finish_send (σ : Svc) (j : nat) (c : SendCall) (accounts : list ParticipantId) : Svc :=
  let σ := with_delivery σ (notify_accounts (sv_delivery σ) accounts) in
  let σ := with_spawned σ (sv_spawned σ ++ ((λ p, (p, c)) <$> accounts)) in
  with_send σ j (SAnswered (Ok (sc_response c))).

(** A spawned task runs. *)
Definition run_listener (σ : Svc) (p : ParticipantId) (c : SendCall) (rest : list (ParticipantId * SendCall)) : Svc :=
  let σ := with_spawned σ rest in
  match listener_delivery (sv_store σ) p (sc_to c) (sc_from c) (sr_message_id (sc_response c)) with
  | Some post => with_posted σ (sv_posted σ ++ [post])
  | None => σ
  end.
End Service.

Arguments Svc _ {_}.

(** * No waiting inbox misses its mail

    The interleaving semantics of the facade ([svc_step]) and its invariant: a parked reader
    whose mail is already stored has either been woken, or the send that stored the mail has not
    yet returned and will wake it. *)

Section ServiceSteps.
Context `{Primitives} `{Notify}.

(** The other engine commands the facade runs; a send goes through [step_send]. *)
Definition other_command (c : Command) : Prop := match c with CSend _ _ _ _ => False | _ => True end.

Definition is_member (s : InMemoryStore) (room : RoomId) (p : ParticipantId) : bool := bool_decide (p ∈ room_members s room).

(** The mail that a command makes readable for a new member of a room; the facade wakes nobody for it. *)
Definition late_mail (c : Command) (s s' : InMemoryStore) : list (ParticipantId * Message) :=
  match c with
  | CAddMember room p =>
      if negb (is_member s room p) && is_member s' room p
      then (λ im, (p, im.2)) <$> filter (λ im, to im.2 = Room room) (map_to_list (messages s))
      else []
  | _ => []
  end.

Inductive svc_step (σ : Svc InMemoryStore) : Svc InMemoryStore → Prop :=
| step_tick t : sv_now σ ≤ t → svc_step σ (with_now σ t)
| step_exec c s' r :
    other_command c → randomness_ok (sv_store σ) c → exec c (sv_store σ) = (s', r) →
    svc_step σ (with_late (with_store σ s') (sv_late σ ++ late_mail c (sv_store σ) s'))
| step_send j nonce sender rq now s' pc :
    sv_sends σ !! j = None → randomness_ok (sv_store σ) (CSend nonce sender rq now) →
    commit_send nonce (sv_store σ) sender rq now = (s', pc) → svc_step σ (with_send (with_store σ s') j pc)
| step_accounts j c :
    sv_sends σ !! j = Some (SCommitted c) →
    svc_step σ (with_send σ j (SNotifying c (accounts_for (sv_store σ) (sc_to c))))
| step_finish j c accounts : sv_sends σ !! j = Some (SNotifying c accounts) → svc_step σ (finish_send σ j c accounts)
| step_listener p c l1 l2 : sv_spawned σ = l1 ++ (p, c) :: l2 → svc_step σ (run_listener σ p c (l1 ++ l2))
| step_wait i a since limit wait :
    sv_waits σ !! i = None → 0 < limit → svc_step σ (start_wait σ i a since limit wait)
| step_subscribe i w :
    sv_waits σ !! i = Some (w, WLoop) → svc_step σ (with_wait σ i (w, WSubscribed (subscribe (sv_delivery σ) w)))
| step_check i w t :
    sv_waits σ !! i = Some (w, WSubscribed t) → svc_step σ (with_wait σ i (w, check_inbox (sv_store σ) w t))
| step_park i w t page :
    sv_waits σ !! i = Some (w, WEmpty t page) → svc_step σ (with_wait σ i (w, park (sv_now σ) w t page))
| step_wake i w t :
    sv_waits σ !! i = Some (w, WParked t) → woken (sv_delivery σ) (sv_now σ) w t = true →
    svc_step σ (with_wait σ i (w, WLoop)).

Definition svc_init : Svc InMemoryStore := mkSvc InMemoryStore_default DeliveryNotifier_new 0 ∅ ∅ [] [] [].

Definition svc_reachable (σ : Svc InMemoryStore) : Prop := rtc svc_step svc_init σ.

(** ** Mail and the accounts it wakes *)

Lemma addressed_accounts s a p m : acts_as a p → addressed_to s a p m → p ∈ accounts_for s (to m).
Proof.
  intros Hact Ha. unfold addressed_to in Ha. unfold acts_as in Hact. destruct (to m) as [q|q x|r]; cbn.
  - subst q. by apply list_elem_of_singleton.
  - subst a. cbn in Hact. injection Hact as ->. by apply list_elem_of_singleton.
  - unfold room_members. cbn. unfold InMemory.get_room. destruct (rooms s !! r); [|done]. by apply elem_of_elements.
Qed.

Lemma room_members_of s room p : p ∈ room_members s room ↔ ∃ record, rooms s !! room = Some record ∧ p ∈ members record.
Proof.
  unfold room_members. cbn. unfold InMemory.get_room. destruct (rooms s !! room) as [record|].
  - rewrite elem_of_elements. naive_solver.
  - rewrite elem_of_nil. naive_solver.
Qed.

(** A new member of a room finds its old mail, which is then late. *)
Lemma added_member_mail s room p0 record a p since m :
  rooms s !! room = Some record →
  let s' := with_rooms s (<[room := set_members record ({[p0]} ∪ members record)]> (rooms s)) in
  m ∈ mail_of s' a p since → m ∈ mail_of s a p since ∨ (p, m) ∈ late_mail (CAddMember room p0) s s'.
Proof.
  intros Hr s'. rewrite !elem_of_mail_of. intros (Ht & Ha & id & Hm). cbn in Hm. revert Ha. unfold addressed_to. cbn.
  destruct (to m) as [|?|x] eqn:Hto; [by eauto..|]. destruct (decide (x = room)) as [->|Hne]; [|rewrite lookup_insert_ne by done; by eauto].
  rewrite lookup_insert_eq, Hr. cbn. intros Hin. destruct (decide (p ∈ members record)) as [Hold|Hnew]; [by eauto|].
  right. assert (p = p0) as -> by set_solver. unfold is_member.
  rewrite bool_decide_false, bool_decide_true; cbn [negb andb].
  - apply (list_elem_of_fmap_2 (λ im : MessageId * Message, (p0, im.2)) _ (id, m)). apply list_elem_of_filter. split; [done|]. by apply elem_of_map_to_list.
  - apply room_members_of. cbn. rewrite lookup_insert_eq. eexists. split; [done|]. cbn. set_solver.
  - rewrite room_members_of. intros (r & Hr' & ?). congruence.
Qed.

(** A command that is no send makes no mail readable but late mail. *)
Lemma other_command_mail c s s' r a p since m :
  other_command c → exec c s = (s', r) → m ∈ mail_of s' a p since → m ∈ mail_of s a p since ∨ (p, m) ∈ late_mail c s s'.
Proof.
  intros Hc Hex. destruct r as [r|e]; [|apply exec_err in Hex as ->; by left]. apply exec_forward in Hex.
  destruct Hex as [| | | | | | |room q record Hr _| | | | | | |]; try (by apply added_member_mail); intros Hm; left; revert Hm;
    rewrite !elem_of_mail_of; intros (Ht & Ha & Hm); (split; [done|]); revert Ha Hm; cbn in Hc |- *; try done;
    intros Ha Hm; split; try done; revert Ha; unfold addressed_to; cbn; destruct (to m) as [|?|x]; try done.
  - destruct (decide (x = id)) as [->|Hne]; [|by rewrite lookup_insert_ne].
    rewrite lookup_insert_eq. cbn. by intros ?%not_elem_of_empty.
  - destruct (decide (x = room)) as [->|Hne]; [|by rewrite lookup_insert_ne].
    rewrite lookup_insert_eq. cbn. match goal with Hr : rooms s !! _ = Some _ |- _ => rewrite Hr end.
    intros Hin%elem_of_difference. tauto.
Qed.

(** A send makes readable at most its own message. *)
Lemma send_mail nonce s sender rq now s' r a p since m :
  send nonce s sender rq now = (s', r) → m ∈ mail_of s' a p since →
  m ∈ mail_of s a p since ∨ ∃ response, r = Ok response ∧ to m = rq_to rq.
Proof.
  intros Hs. assert (Hex : exec (CSend nonce sender rq now) s = (s', result_map RSent r)) by (cbn [exec]; unfold reply; by rewrite Hs).
  destruct r as [response|e]; [|apply exec_err in Hex as ->; by left]. apply exec_forward in Hex.
  rewrite !elem_of_mail_of. intros (Ht & Ha & id & Hm). inversion Hex; subst; [|left; eauto]. cbn in Ha, Hm.
  apply lookup_insert_Some in Hm as [[_ <-]|[_ Hm]]; [right; cbn; eauto|left; eauto].
Qed.

(** ** The invariant *)

(** [m] is covered for [p]: a send that has not returned yet will wake [p] for it. *)
Definition covered (σ : Svc InMemoryStore) (p : ParticipantId) (m : Message) : Prop :=
  ∃ j c, (sv_sends σ !! j = Some (SCommitted c) ∧ sc_to c = to m) ∨
         ∃ accounts, sv_sends σ !! j = Some (SNotifying c accounts) ∧ p ∈ accounts.

(** [t] was issued for [p], and [k] wake-ups have followed. *)
Definition issued (σ : Svc InMemoryStore) (p : ParticipantId) (t : ticket) (k : nat) : Prop :=
  ∃ n, t = notified n ∧ per_account (sv_delivery σ) !! p = Some (Nat.iter k notify_waiters n).

(** Nobody is woken for mail that was there before its reader joined the room. *)
Definition accounted (σ : Svc InMemoryStore) (p : ParticipantId) (m : Message) : Prop := covered σ p m ∨ (p, m) ∈ sv_late σ.

Definition unread_covered (σ : Svc InMemoryStore) (w : WaitCall) (p : ParticipantId) : Prop :=
  ∀ m, m ∈ mail_of (sv_store σ) (wc_reader w) p (wc_since w) → accounted σ p m.

Definition wait_ok (σ : Svc InMemoryStore) (w : WaitCall) (pc : WaitPc) : Prop :=
  0 < wc_limit w ∧
  (∀ p, account (wc_reader w) = Some p → is_Some (per_account (sv_delivery σ) !! p)) ∧
  match pc with
  | WSubscribed (Some t) => ∃ p k, account (wc_reader w) = Some p ∧ issued σ p t k
  | WEmpty (Some t) _ | WParked t =>
      ∃ p k, account (wc_reader w) = Some p ∧ issued σ p t k ∧ (k = O → unread_covered σ w p)
  | _ => True
  end.

(** What a step of someone else may change under a waiting call. *)
Definition later (σ σ' : Svc InMemoryStore) : Prop :=
  ∀ p n, per_account (sv_delivery σ) !! p = Some n →
    ∃ k, per_account (sv_delivery σ') !! p = Some (Nat.iter k notify_waiters n) ∧
      (k = O → ∀ a since m, account a = Some p → m ∈ mail_of (sv_store σ') a p since →
         (m ∈ mail_of (sv_store σ) a p since → accounted σ p m) → accounted σ' p m).

Lemma iter_plus {A} (f : A → A) i j x : Nat.iter i f (Nat.iter j f x) = Nat.iter (i + j) f x.
Proof.
  induction i as [|i IH]; [done|]. change (f (Nat.iter i f (Nat.iter j f x)) = f (Nat.iter (i + j) f x)). by rewrite IH.
Qed.

Lemma issued_later σ σ' p t k : later σ σ' → issued σ p t k → ∃ k', issued σ' p t (k' + k) ∧
  (k' = O → ∀ a since m, account a = Some p → m ∈ mail_of (sv_store σ') a p since →
     (m ∈ mail_of (sv_store σ) a p since → accounted σ p m) → accounted σ' p m).
Proof.
  intros Hl (n & -> & Hn). destruct (Hl p _ Hn) as (k' & Hk' & Hc). exists k'. split; [|done].
  exists n. split; [done|]. by rewrite Hk', iter_plus.
Qed.

Lemma wait_ok_later σ σ' w pc : later σ σ' → wait_ok σ w pc → wait_ok σ' w pc.
Proof.
  intros Hl (Hlim & Hent & Hpc). split; [done|]. split.
  { intros p Hp. destruct (Hent p Hp) as [n Hn]. destruct (Hl p n Hn) as (k & -> & _). eauto. }
  assert (Hwait : ∀ t, (∃ p k, account (wc_reader w) = Some p ∧ issued σ p t k ∧ (k = O → unread_covered σ w p)) →
            ∃ p k, account (wc_reader w) = Some p ∧ issued σ' p t k ∧ (k = O → unread_covered σ' w p)).
  { intros t (p & k & Hp & Hi & Hun). destruct (issued_later _ _ _ _ _ Hl Hi) as (k' & Hi' & Hc).
    exists p, (k' + k)%nat. split; [done|]. split; [done|]. intros Hz m Hm.
    assert (k' = O ∧ k = O) as [-> ->] by lia. apply (Hc eq_refl _ _ _ Hp Hm), Hun. done. }
  destruct pc as [|[t|]|[t|] page|t|]; try done; auto.
  destruct Hpc as (p & k & Hp & Hi). destruct (issued_later _ _ _ _ _ Hl Hi) as (k' & Hi' & _). eauto.
Qed.

(** [later] for steps that leave the wake-up state alone. *)
Lemma later_same σ σ' :
  sv_delivery σ' = sv_delivery σ →
  (∀ a p since m, account a = Some p → m ∈ mail_of (sv_store σ') a p since →
     (m ∈ mail_of (sv_store σ) a p since → accounted σ p m) → accounted σ' p m) →
  later σ σ'.
Proof. intros Hd Hc p n Hn. exists O. rewrite Hd. split; [done|]. intros _ a since m. apply Hc. Qed.

Lemma accounted_sends σ σ' p m : sv_sends σ' = sv_sends σ → sv_late σ' = sv_late σ → accounted σ p m → accounted σ' p m.
Proof. unfold accounted, covered. by intros -> ->. Qed.

(** A step on one waiting call, seen by the others. *)
Lemma later_wait σ i w : later σ (with_wait σ i w).
Proof. apply later_same; [done|]. intros a p since m _ Hm Hc. cbn in Hm. by apply (accounted_sends σ), Hc. Qed.

Lemma later_exec σ c s' r :
  other_command c → exec c (sv_store σ) = (s', r) → later σ (with_late (with_store σ s') (sv_late σ ++ late_mail c (sv_store σ) s')).
Proof.
  intros Hc Hex. apply later_same; [done|]. intros a p since m _ Hm Hcov.
  destruct (other_command_mail _ _ _ _ _ _ _ _ Hc Hex Hm) as [Hold|Hlate]; [destruct (Hcov Hold) as [?|?]|]; [by left|right; apply elem_of_app; by auto..].
Qed.

Lemma later_send σ j nonce sender rq now s' pc :
  sv_sends σ !! j = None → commit_send nonce (sv_store σ) sender rq now = (s', pc) →
  later σ (with_send (with_store σ s') j pc).
Proof.
  intros Hj Hs. apply later_same; [done|]. intros a p since m _ Hm Hcov. unfold commit_send in Hs.
  destruct (send nonce (sv_store σ) sender rq now) as [s1 r] eqn:Hsend. injection Hs as -> <-. cbn in Hm.
  destruct (send_mail _ _ _ _ _ _ _ _ _ _ _ Hsend Hm) as [Hold|(response & -> & Hto)].
  - destruct (Hcov Hold) as [(j' & c & Hc)|?]; [left|by right]. exists j', c. cbn. rewrite lookup_insert_ne by naive_solver. done.
  - left. exists j, (mkSendCall (rq_to rq) sender response). left. cbn. by rewrite lookup_insert_eq.
Qed.

Lemma later_accounts σ j c :
  sv_sends σ !! j = Some (SCommitted c) →
  later σ (with_send σ j (SNotifying c (accounts_for (sv_store σ) (sc_to c)))).
Proof.
  intros Hj. apply later_same; [done|]. intros a p since m Ha Hm Hcov. cbn in Hm.
  destruct (Hcov Hm) as [(j' & c' & Hc)|?]; [left|by right]. exists j', c'. cbn.
  destruct (decide (j = j')) as [<-|Hne]; [|by rewrite lookup_insert_ne].
  right. rewrite lookup_insert_eq. destruct Hc as [[Hc Hto]|(accounts & Hc & _)]; rewrite Hj in Hc; [|done].
  injection Hc as <-. exists (accounts_for (sv_store σ) (sc_to c)). split; [done|]. rewrite Hto.
  apply elem_of_mail_of in Hm as (_ & Haddr & _). by eapply addressed_accounts.
Qed.

Lemma notify_accounts_spec (d : DeliveryNotifier) accounts p n :
  per_account d !! p = Some n →
  ∃ k, per_account (notify_accounts d accounts) !! p = Some (Nat.iter k notify_waiters n) ∧ (p ∈ accounts → k ≠ O).
Proof.
  unfold notify_accounts. cbn [per_account]. generalize (per_account d). clear d. intros d. revert d n. induction accounts as [|q accounts IH]; intros d n Hn; cbn.
  - exists O. split; [done|]. by intros ?%elem_of_nil.
  - destruct (decide (p = q)) as [<-|Hne].
    + destruct (IH (alter notify_waiters p d) (notify_waiters n)) as (k & Hk & _).
      { by rewrite lookup_alter_eq, Hn. }
      exists (k + 1)%nat. split; [|lia]. rewrite <- iter_plus. exact Hk.
    + destruct (IH (alter notify_waiters q d) n) as (k & Hk & Hin); [by rewrite lookup_alter_ne|].
      exists k. split; [done|]. rewrite elem_of_cons. naive_solver.
Qed.

Lemma later_finish σ j c accounts :
  sv_sends σ !! j = Some (SNotifying c accounts) → later σ (finish_send σ j c accounts).
Proof.
  intros Hj p n Hn. destruct (notify_accounts_spec _ accounts _ _ Hn) as (k & Hk & Hin). exists k. split; [done|].
  intros -> a since m Ha Hm Hcov. cbn in Hm. destruct (Hcov Hm) as [(j' & c' & Hc)|?]; [left|by right]. exists j', c'. cbn.
  destruct (decide (j = j')) as [<-|Hne]; [|by rewrite lookup_insert_ne].
  destruct Hc as [[Hc _]|(accounts' & Hc & Hp)]; rewrite Hj in Hc; [done|]. injection Hc as <- <-. naive_solver.
Qed.

Lemma later_listener σ p c rest : later σ (run_listener σ p c rest).
Proof.
  unfold run_listener. destruct (listener_delivery _ _ _ _ _); (apply later_same; [done|]);
    intros a q since m _ Hm Hcov; cbn in Hm; by apply (accounted_sends σ), Hcov.
Qed.

Lemma later_start σ i a since limit wait : later σ (start_wait σ i a since limit wait).
Proof.
  assert (Hd : later σ match account a with Some p => with_delivery σ (notify_for (sv_delivery σ) p) | None => σ end).
  { intros p n Hn. exists O. split.
    - destruct (account a) as [q|]; [|done]. cbn. unfold notify_for. destruct (per_account (sv_delivery σ) !! q) eqn:Hq; [done|].
      cbn. by rewrite lookup_insert_ne by congruence.
    - intros _ b t m _ Hm Hcov. apply (accounted_sends σ); [by destruct (account a)..|]. apply Hcov.
      by destruct (account a). }
  intros p n Hn. destruct (Hd p n Hn) as (k & Hk & Hc). exists k. unfold start_wait. cbn zeta. split; [exact Hk|exact Hc].
Qed.

Lemma start_wait_ok σ i a since limit wait :
  0 < limit → wait_ok (start_wait σ i a since limit wait) (mkWaitCall a since limit (sv_now σ + wait)) WLoop.
Proof.
  intros Hl. split; [done|]. split; [|done]. cbn. intros p ->. cbn. unfold notify_for.
  destruct (per_account (sv_delivery σ) !! p) eqn:Hp; [by eauto|]. cbn. rewrite lookup_insert_eq. eauto.
Qed.

Lemma subscribe_ok σ i w :
  wait_ok σ w WLoop → wait_ok (with_wait σ i (w, WSubscribed (subscribe (sv_delivery σ) w))) w
    (WSubscribed (subscribe (sv_delivery σ) w)).
Proof.
  intros (Hl & He & _). split; [done|]. split; [done|]. unfold subscribe.
  destruct (account (wc_reader w)) as [p|] eqn:Hp; cbn; [|done]. destruct (per_account (sv_delivery σ) !! p) as [n|] eqn:Hn; cbn; [|done].
  exists p, O. split; [done|]. by exists n.
Qed.

(** An empty page of a read with a positive limit: there is no mail. *)
Lemma empty_page_no_mail s a p since limit page :
  wf s → 0 < limit → account a = Some p → inbox s a since limit = Ok page → ip_messages page = [] →
  mail_of s a p since = [].
Proof.
  intros Hwf Hl Hp. unfold inbox. destruct (resolve_identity s a) as [[q rec]|] eqn:Hid; [|done].
  apply resolve_identity_acts in Hid as (Hact & _). destruct (require_read_permission rec); [|done].
  rewrite build_inbox_spec by auto using wf_keyed. intros [= <-]. cbn [ip_messages]. unfold acts_as in Hact.
  assert (q = p) as -> by congruence. intros Htake.
  destruct (merge_sort inbox_le (mail_of s a p since)) as [|m l] eqn:Hs.
  - apply (Permutation_nil (l := mail_of s a p since)). rewrite <- Hs. apply merge_sort_Permutation.
  - destruct (Z.to_nat limit) eqn:Hn; [lia|done].
Qed.

Lemma check_ok σ i w t :
  wf (sv_store σ) → wait_ok σ w (WSubscribed t) →
  wait_ok (with_wait σ i (w, check_inbox (sv_store σ) w t)) w (check_inbox (sv_store σ) w t).
Proof.
  intros Hwf (Hl & He & Ht). split; [done|]. split; [done|]. unfold check_inbox.
  destruct (inbox _ _ _ _) as [page|e] eqn:Hin; [|done]. case_decide as Hpage; [|done]. destruct t as [t|]; [|done].
  destruct Ht as (p & k & Hp & Hi). exists p, k. split; [done|]. split; [done|]. intros _ m Hm. cbn in Hm.
  rewrite (empty_page_no_mail _ _ _ _ _ _ Hwf Hl Hp Hin Hpage) in Hm. by apply elem_of_nil in Hm.
Qed.

Lemma park_ok σ i w t page :
  wait_ok σ w (WEmpty t page) → wait_ok (with_wait σ i (w, park (sv_now σ) w t page)) w (park (sv_now σ) w t page).
Proof.
  intros (Hl & He & Ht). split; [done|]. split; [done|]. unfold park. destruct t as [t|]; [|done].
  by destruct (wc_deadline w - sv_now σ <=? 0).
Qed.

(** ** Every step keeps the invariant *)

Record svc_inv (σ : Svc InMemoryStore) : Prop := {
  inv_wf : wf (sv_store σ);
  inv_waits i w pc : sv_waits σ !! i = Some (w, pc) → wait_ok σ w pc;
  inv_posted url n : (url, n) ∈ sv_posted σ → validate_listener_url url = Ok tt;
  inv_late p m : (p, m) ∈ sv_late σ → ∃ room, to m = Room room
}.

Lemma svc_inv_init : svc_inv svc_init.
Proof. split; cbn; [apply wf_default|done|by intros ?? ?%elem_of_nil..]. Qed.

Lemma late_mail_room c s s' p m : (p, m) ∈ late_mail c s s' → ∃ room, to m = Room room.
Proof.
  destruct c; cbn; try by intros ?%elem_of_nil. case_match; [|by intros ?%elem_of_nil].
  intros ([id m'] & [= -> ->] & Hin)%list_elem_of_fmap. apply list_elem_of_filter in Hin as [Hto _]. eauto.
Qed.

(** A step that touches no waiting call. *)
Lemma inv_other σ σ' :
  svc_inv σ → later σ σ' → wf (sv_store σ') → sv_waits σ' = sv_waits σ →
  (∀ url n, (url, n) ∈ sv_posted σ' → validate_listener_url url = Ok tt) →
  (∀ p m, (p, m) ∈ sv_late σ' → ∃ room, to m = Room room) → svc_inv σ'.
Proof.
  intros [Hwf Hw _ _] Hl Hwf' Hsame Hp Hlate. split; [done| |done..]. intros i w pc. rewrite Hsame. intros Hi.
  by eapply wait_ok_later, Hw.
Qed.

(** A step of one waiting call. *)
Lemma inv_wait σ σ' i w pc :
  svc_inv σ → later σ σ' → sv_store σ' = sv_store σ → sv_posted σ' = sv_posted σ → sv_late σ' = sv_late σ →
  sv_waits σ' = <[i := (w, pc)]> (sv_waits σ) → wait_ok σ' w pc → svc_inv σ'.
Proof.
  intros [Hwf Hw Hp Hlate] Hl Hs Hpo Hla Hsame Hok. split; [by rewrite Hs| |by rewrite Hpo|by rewrite Hla]. intros i' w' pc'. rewrite Hsame.
  intros [[<- [= <- <-]]|[_ Hi]]%lookup_insert_Some; [done|]. by eapply wait_ok_later, Hw.
Qed.

Lemma exec_wf c s s' r : wf s → randomness_ok s c → exec c s = (s', r) → wf s'.
Proof. intros Hwf Hr Hex. apply (steps_wf s s'); [done|]. apply rtc_once. by econstructor. Qed.

Lemma listener_posts_local σ p c rest url n :
  wf (sv_store σ) → (∀ url n, (url, n) ∈ sv_posted σ → validate_listener_url url = Ok tt) →
  (url, n) ∈ sv_posted (run_listener σ p c rest) → validate_listener_url url = Ok tt.
Proof.
  intros Hwf Hp. unfold run_listener, listener_delivery. cbn. unfold InMemory.get_participant.
  destruct (participants (sv_store σ) !! p) as [rec|] eqn:Hrec; [|apply Hp].
  destruct (listener_url rec) as [u|] eqn:Hu; cbn; [|apply Hp]. intros [?| Heq%list_elem_of_singleton]%elem_of_app; [by eapply Hp|].
  injection Heq as -> _. by eapply (wf_participants _ Hwf).
Qed.

Lemma svc_step_inv σ σ' : svc_inv σ → svc_step σ σ' → svc_inv σ'.
Proof.
  intros Hinv Hstep. pose proof (inv_wf _ Hinv) as Hwf. pose proof (inv_waits _ Hinv) as Hw.
  pose proof (inv_posted _ Hinv) as Hp. pose proof (inv_late _ Hinv) as Hlate. destruct Hstep.
  - apply (inv_other σ); try done. apply later_same; [done|]. intros ???? _ Hm Hc. by apply (accounted_sends σ), Hc.
  - eapply inv_other; eauto using later_exec, exec_wf. intros p m [?|?]%elem_of_app; [by eapply Hlate|by eapply late_mail_room].
  - eapply inv_other; eauto using later_send. cbn. unfold commit_send in *.
    destruct (send nonce (sv_store σ) sender rq now) as [s1 r] eqn:Hs. simplify_eq.
    eapply (exec_wf (CSend nonce sender rq now)); [done..|]. cbn [exec]. unfold reply. by rewrite Hs.
  - eapply inv_other; eauto using later_accounts.
  - eapply inv_other; eauto using later_finish.
  - eapply inv_other; eauto using later_listener.
    + unfold run_listener. by destruct (listener_delivery _ _ _ _ _).
    + unfold run_listener. by destruct (listener_delivery _ _ _ _ _).
    + intros url n. by apply listener_posts_local.
    + unfold run_listener. by destruct (listener_delivery _ _ _ _ _).
  - eapply (inv_wait σ _ i); eauto using later_start, start_wait_ok; unfold start_wait; by destruct (account a).
  - eapply (inv_wait σ _ i); eauto using later_wait, subscribe_ok.
  - eapply (inv_wait σ _ i); eauto using later_wait, check_ok.
  - eapply (inv_wait σ _ i); eauto using later_wait, park_ok.
  - eapply (inv_wait σ _ i); eauto using later_wait.
    match goal with Hi : sv_waits σ !! i = Some _ |- _ => destruct (Hw _ _ _ Hi) as (? & ? & _) end. by split.
Qed.

Lemma reachable_inv σ : svc_reachable σ → svc_inv σ.
Proof.
  intros Hr. unfold svc_reachable in Hr. pose proof svc_inv_init as Hi. revert Hi.
  induction Hr; eauto using svc_step_inv.
Qed.

(** ** Properties *)

(** C9: in every interleaving of sends, waits and any other commands, a reader parked in a waiting
    [inbox] whose mail, direct or of a room, is already stored has been woken, or a [send] that has
    not returned yet is still going to wake it, or the mail was in the room before the reader joined
    it, which wakes nobody: no wake-up of a send is lost between the read that found nothing and the
    wait. *)
Theorem no_lost_wakeup `{!NotifyLaws} σ i w t p m :
  svc_reachable σ → sv_waits σ !! i = Some (w, WParked t) → account (wc_reader w) = Some p →
  m ∈ mail_of (sv_store σ) (wc_reader w) p (wc_since w) →
  woken (sv_delivery σ) (sv_now σ) w t = true ∨ covered σ p m ∨ ((p, m) ∈ sv_late σ ∧ ∃ room, to m = Room room).
Proof.
  intros Hr%reachable_inv Hi Hp Hm. destruct (inv_waits _ Hr _ _ _ Hi) as (_ & _ & q & k & Hq & (n & -> & Hn) & Hun).
  assert (q = p) as -> by congruence.
  destruct k as [|k]; [right; destruct (Hun eq_refl m Hm) as [?|Hlate]; [by left|right; split; [done|by eapply (inv_late _ Hr)]]|left].
  unfold woken. rewrite Hp. cbn [mbind option_bind]. by rewrite Hn, notify_observed.
Qed.

(** A re-check of the store that meets mail of the reader ends the wait with a page that has
    mail in it; an expired wait ends with the empty page it read, never with an error. *)
Lemma recheck_and_expiry_answer s w t now page :
  wf s → 0 < wc_limit w → inbox s (wc_reader w) (wc_since w) (wc_limit w) = Ok page →
  (∀ p m, account (wc_reader w) = Some p → m ∈ mail_of s (wc_reader w) p (wc_since w) →
     check_inbox s w t = WAnswered (Ok page) ∧ ip_messages page ≠ []) ∧
  (wc_deadline w ≤ now → park now w t page = WAnswered (Ok page)).
Proof.
  intros Hwf Hl Hin. split.
  - intros p m Hp Hm. unfold check_inbox. rewrite Hin. case_decide as Hpage; [|done].
    rewrite (empty_page_no_mail _ _ _ _ _ _ Hwf Hl Hp Hin Hpage) in Hm. by apply elem_of_nil in Hm.
  - intros Hd. unfold park. destruct t; [|done]. destruct (Z.leb_spec (wc_deadline w - now) 0); [done|lia].
Qed.

(** Every notification the daemon posts goes to a URL that passed the loopback check, whatever
    was registered, removed or re-registered since the send that triggered it. *)
Theorem notifications_stay_on_loopback σ url n :
  svc_reachable σ → (url, n) ∈ sv_posted σ → validate_listener_url url = Ok tt.
Proof. intros Hr%reachable_inv. apply (inv_posted _ Hr). Qed.
End ServiceSteps.

(** ** Witnesses *)

Module ServiceWitnesses.
Import Scenario.

(** A counter of wake-ups; a future remembers the count it was created at. *)
#[local] Instance counter_notify : Notify := {|
  notify := nat;
  ticket := nat;
  notify_new := O;
  notified n := n;
  notify_waiters := Datatypes.S;
  completed n t := Nat.ltb t n
|}.

Lemma iter_S k n : Nat.iter k Datatypes.S n = (k + n)%nat.
Proof. induction k as [|k IH]; [done|]. change (Datatypes.S (Nat.iter k Datatypes.S n) = Datatypes.S (k + n)). by rewrite IH. Qed.

#[local] Instance counter_laws : NotifyLaws.
Proof.
  split. intros n k. change (Nat.ltb n (Nat.iter (Datatypes.S k) Datatypes.S n) = true). rewrite iter_S. apply Nat.ltb_lt. lia.
Qed.

Definition t0 : ticket := O.
Definition c1 : Command := CRegister "r1" alice None everything.
Definition c2 : Command := CRegister "r2" bob None everything.
Definition c3 : Command := CSetListener bob "http://127.0.0.1:9000/hook".
Definition c4 : Command := CCreateRoom ops 5.
Definition c5 : Command := CAddMember ops bob.
(** One engine command. *)
Definition ran (c : Command) (σ : Svc InMemoryStore) : Svc InMemoryStore :=
  let s' := (exec c (sv_store σ)).1 in with_late (with_store σ s') (sv_late σ ++ late_mail c (sv_store σ) s').
Definition sv0 : Svc InMemoryStore := ran c5 (ran c4 (ran c3 (ran c2 (ran c1 svc_init)))).
Definition sv1 : Svc InMemoryStore := start_wait sv0 0 (Direct bob) 0 10 60.
Definition w1 : WaitCall := mkWaitCall (Direct bob) 0 10 60.
Definition empty_page : InboxPage := mkInboxPage [] 0.
Definition sv2 : Svc InMemoryStore := with_wait sv1 0 (w1, WSubscribed (subscribe (sv_delivery sv1) w1)).
Definition sv3 : Svc InMemoryStore := with_wait sv2 0 (w1, check_inbox (sv_store sv2) w1 (Some t0)).
Definition sv4 : Svc InMemoryStore := with_wait sv3 0 (w1, park (sv_now sv3) w1 (Some t0) empty_page).
Definition sent : InMemoryStore * SendPc := commit_send "n1" (sv_store sv4) (Direct alice) (req (Room ops) None) 10.
Definition sv5 : Svc InMemoryStore := with_send (with_store sv4 sent.1) 0 sent.2.
Definition mail1 : Message := message_of "n1" (Direct alice) (req (Room ops) None) 10.
Definition call1 : SendCall := mkSendCall (Room ops) (Direct alice) (mkSendResponse (message_id mail1) (Direct alice)).
Definition sv6 : Svc InMemoryStore := with_send sv5 0 (SNotifying call1 (accounts_for (sv_store sv5) (sc_to call1))).
Definition sv7 : Svc InMemoryStore := finish_send sv6 0 call1 [bob].
Definition sv8 : Svc InMemoryStore := run_listener sv7 bob call1 [].

Lemma sv4_reachable : svc_reachable sv4.
Proof.
  unfold svc_reachable.
  eapply rtc_l; [eapply (step_exec _ c1); [done|by vm_compute|apply surjective_pairing]|].
  eapply rtc_l; [eapply (step_exec _ c2); [done|by vm_compute|apply surjective_pairing]|].
  eapply rtc_l; [eapply (step_exec _ c3); [done|done|apply surjective_pairing]|].
  eapply rtc_l; [eapply (step_exec _ c4); [done|done|apply surjective_pairing]|].
  eapply rtc_l; [eapply (step_exec _ c5); [done|done|apply surjective_pairing]|].
  change (rtc svc_step sv0 sv4).
  eapply rtc_l; [apply (step_wait _ 0 (Direct bob) 0 10 60); done|]. fold sv1.
  eapply rtc_l; [apply (step_subscribe _ 0 w1); vm_compute; reflexivity|]. fold sv2.
  eapply rtc_l; [apply (step_check _ 0 w1 (Some t0)); vm_compute; reflexivity|]. fold sv3.
  eapply rtc_l; [apply (step_park _ 0 w1 (Some t0) empty_page); vm_compute; reflexivity|]. apply rtc_refl.
Qed.

Lemma sv5_reachable : svc_reachable sv5.
Proof.
  eapply rtc_r; [apply sv4_reachable|].
  eapply (step_send _ 0 "n1" (Direct alice) (req (Room ops) None) 10); [done| |apply surjective_pairing].
  apply (bool_decide_unpack (randomness_ok _ _)). vm_compute. done.
Qed.

Lemma sv8_reachable : svc_reachable sv8.
Proof.
  eapply rtc_r; [|apply (step_listener sv7 bob call1 [] []); vm_compute; reflexivity].
  eapply rtc_r; [|apply (step_finish sv6 0 call1 [bob]); vm_compute; reflexivity].
  eapply rtc_r; [apply sv5_reachable|]. apply (step_accounts sv5 0 call1). vm_compute. reflexivity.
Qed.

Lemma mail1_stored : messages (sv_store sv5) !! message_id mail1 = Some mail1.
Proof. vm_compute. reflexivity. Qed.

Lemma bob_in_ops : rooms (sv_store sv5) !! ops = Some (mkRoomRecord 5 {[bob]}).
Proof. vm_compute. reflexivity. Qed.

Lemma mail1_readable : mail1 ∈ mail_of (sv_store sv5) (Direct bob) bob 0.
Proof.
  apply elem_of_mail_of. split; [done|]. split; [|exists (message_id mail1); apply mail1_stored].
  change (match rooms (sv_store sv5) !! ops with Some r => bob ∈ members r | None => False end). rewrite bob_in_ops. reflexivity.
Qed.

(** Mail to a room that bob is a member of, while he waits. *)
Lemma no_lost_wakeup_witness :
  to mail1 = Room ops ∧ sv_late sv5 = [] ∧ (woken (sv_delivery sv5) (sv_now sv5) w1 t0 = true ∨ covered sv5 bob mail1).
Proof.
  split; [reflexivity|]. assert (Hlate : sv_late sv5 = []) by (vm_compute; reflexivity). split; [exact Hlate|].
  destruct (no_lost_wakeup sv5 0 w1 t0 bob mail1) as [Hw|[Hc|[Hin _]]];
    [apply sv5_reachable|vm_compute; reflexivity|reflexivity|apply mail1_readable|left; exact Hw|right; exact Hc|].
  rewrite Hlate in Hin. destruct (not_elem_of_nil (bob, mail1) Hin).
Defined.

Lemma notifications_stay_on_loopback_witness :
  ∃ url n, (url, n) ∈ sv_posted sv8 ∧ validate_listener_url url = Ok tt.
Proof.
  exists "http://127.0.0.1:9000/hook", (mkDeliveryNotification bob (Room ops) (message_id mail1) (Direct alice)).
  assert (Hin : ("http://127.0.0.1:9000/hook", mkDeliveryNotification bob (Room ops) (message_id mail1) (Direct alice)) ∈ sv_posted sv8).
  { replace (sv_posted sv8) with [("http://127.0.0.1:9000/hook", mkDeliveryNotification bob (Room ops) (message_id mail1) (Direct alice))].
    - by apply list_elem_of_singleton.
    - vm_compute. reflexivity. }
  split; [exact Hin|]. apply (notifications_stay_on_loopback sv8 _ _ sv8_reachable Hin).
Defined.
End ServiceWitnesses.
