(* ===== verification/Daemon.v ===== *)
(** * The daemon's HTTP boundary (src/auth.rs, identity.rs, error.rs, dto.rs, routes/mail.rs, routes/admin.rs)

    How a request becomes a caller: the tier gate, the bearer that names the account, the peer
    process that names the session, and the handlers behind them. One handler is one sequence of
    engine calls; it returns the store it leaves behind with its answer. The kernel attestation
    ([mail4agent_attest::attest], which asks the operating system) is a parameter. A header map
    is what the code reads of it: the text of its Authorization header, absent when there is none
    or it is not visible ASCII. The second part has the theorems on who a request speaks for. *)

From S2P Require Import Prelude Api MailStore Primitives Engine Service.
From Stdlib Require Import Ascii.

Local Open Scope Z_scope.

(** ** [str] methods that go character by character *)

(** The characters of a string with the bytes each was read from; agrees with [chars]. *)
Fixpoint char_slices (fuel : nat) (s : string) : list (Z * string) :=
  match fuel with
  | O => []
  | S fuel =>
      match chars s, s with
      | c :: _, String a rest =>
          let n := if c =? 65533 then 1%nat else if c <? 128 then 1%nat else if c <? 2048 then 2%nat
                   else if c <? 65536 then 3%nat else 4%nat in
          let n := if (c =? 65533) && (bval a =? 239) then 3%nat else n in
          (c, s_take n s) :: char_slices fuel (s_drop n s)
      | _, _ => []
      end
  end.

Definition slices (s : string) : list (Z * string) := char_slices (String.length s) s.

(** [char::is_whitespace]: the property White_Space. *)
Definition is_whitespace (c : Z) : bool :=
  ((9 <=? c) && (c <=? 13)) || (c =? 32) || (c =? 133) || (c =? 160) || (c =? 5760) ||
  ((8192 <=? c) && (c <=? 8202)) || (c =? 8232) || (c =? 8233) || (c =? 8239) || (c =? 8287) || (c =? 12288).

Definition join_slices (l : list (Z * string)) : string := foldr (λ x acc, x.2 +:+ acc) EmptyString l.

Fixpoint drop_whitespace (l : list (Z * string)) : list (Z * string) :=
  match l with
  | x :: l' => if is_whitespace x.1 then drop_whitespace l' else l
  | [] => []
  end.

(** [str::trim] *)
Definition s_trim (s : string) : string :=
  join_slices (reverse (drop_whitespace (reverse (drop_whitespace (slices s))))).

(** [str::split_whitespace], with the word read so far in [word]. *)
Fixpoint words (l : list (Z * string)) (word : string) : list string :=
  match l with
  | [] => if s_is_empty word then [] else [word]
  | x :: l =>
      if is_whitespace x.1
      then (if s_is_empty word then [] else [word]) ++ words l EmptyString
      else words l (word +:+ x.2)
  end.

Definition split_whitespace (s : string) : list string := words (slices s) EmptyString.

(** ** auth.rs *)

Record HeaderMap := mkHeaderMap { authorization : option string }.

Definition extract_bearer (headers : HeaderMap) : option string :=
  authorization headers ≫= λ value,
  match strip_prefix "Bearer " value with
  | Some token => Some (s_trim token)
  | None => s_trim <$> strip_prefix "bearer " value
  end.

Inductive Tier := Authenticated | Admin.

Definition rank (t : Tier) : Z := match t with Authenticated => 1 | Admin => 2 end.

(** What the tier middleware decides: run the handler, or answer with a status. *)
Inductive Gate :=
| Next
| TierInsufficient (required : Tier) (status : Z)
| AuthRejected (status : Z).

(** ** identity.rs *)

Definition DERIVED_SESSION_ID_HEX_LEN : Z := 32.

Record PeerProcess := mkPeerProcess {
  pp_pid : Z;
  pp_started_at_unix_ms : Z;
  pp_exe : option string;
  pp_command_line : option string;
  pp_cwd : option string }.

Class Attestation := {
  SocketAddr : Type;
  AttestError : Type;
  attest : SocketAddr → SocketAddr → result PeerProcess AttestError
}.

Inductive SessionError `{Attestation} :=
| MissingConnectInfo
| Attest (e : AttestError)
| Mailbox (e : MailError).

Record CorroboratedCommandLine := mkCorroboratedCommandLine {
  cl_provider_session_id : option string;
  cl_model : option string }.

(** The loop of [parse_claude_command_line] over the remaining tokens. *)
Fixpoint parse_tokens (tokens : list string) (acc : CorroboratedCommandLine) : CorroboratedCommandLine :=
  match tokens with
  | [] => acc
  | token :: rest =>
      match strip_prefix "--resume=" token with
      | Some value =>
          parse_tokens rest
            (if s_is_empty value then acc else mkCorroboratedCommandLine (Some value) (cl_model acc))
      | None =>
          if bool_decide (token = "--model") then
            match rest with
            | value :: rest' => parse_tokens rest' (mkCorroboratedCommandLine (cl_provider_session_id acc) (Some value))
            | [] => acc
            end
          else parse_tokens rest acc
      end
  end.

Definition parse_claude_command_line (command_line : string) : CorroboratedCommandLine :=
  parse_tokens (split_whitespace command_line) (mkCorroboratedCommandLine None None).

Definition session_card_from_peer_process (peer : PeerProcess) : SessionCard :=
  let parsed := match pp_command_line peer with
                | Some line => parse_claude_command_line line
                | None => mkCorroboratedCommandLine None None
                end in
  mkSessionCard
    (mkSessionAttested (pp_pid peer) (pp_started_at_unix_ms peer) (pp_exe peer))
    (mkSessionCorroborated (cl_provider_session_id parsed) (cl_model parsed) (pp_cwd peer))
    SessionDeclared_default.

(** ** error.rs *)

Inductive ApiError `{Attestation} :=
| ApiMail (e : MailError)
| ApiSession (e : SessionError).

(** The status [into_response] answers with. *)
Definition status_of `{Attestation} (e : ApiError) : Z :=
  match e with
  | ApiMail (PermissionDenied _) | ApiMail (NotAddressedToYou _) => 403
  | ApiMail (UnknownParticipant _) | ApiMail (UnknownRoom _) | ApiMail (UnknownSession _)
  | ApiMail (UnknownMessage _) => 404
  | ApiMail (SessionAccountMismatch _ _ _) => 409
  | ApiMail (Malformed _ _) | ApiMail (TooLarge _ _ _) => 400
  | ApiMail (StoreUnavailable _) => 503
  | ApiSession MissingConnectInfo => 500
  | ApiSession (Attest _) => 401
  | ApiSession (Mailbox _) => 400
  end.

(** ** dto.rs *)

Record WhoAmIResponse := mkWhoAmIResponse {
  wa_address : Address;
  wa_label : option string;
  wa_rooms : list RoomId;
  wa_card : option SessionCard }.

Record RegisterParticipantRequest := mkRegisterParticipantRequest {
  rp_id : ParticipantId;
  rp_label : option string;
  rp_may_send : bool;
  rp_may_read : bool;
  rp_operator : bool }.

Definition permissions (r : RegisterParticipantRequest) : ParticipantPermissions :=
  mkParticipantPermissions (rp_may_send r) (rp_may_read r) (rp_operator r).

Record SecretResponse := mkSecretResponse { secret_id : ParticipantId; secret_text : string }.

Section Daemon.
Context {S : Type} `{MailStore S} `{Primitives} `{Attestation}.

Definition require_tier (s : S) (headers : HeaderMap) (required : Tier) : Gate :=
  match extract_bearer headers with
  | None => TierInsufficient required 401
  | Some token =>
      match service_authenticate s token with
      | Err _ => AuthRejected 401
      | Ok participant =>
          let carried := if ap_operator participant then Admin else Authenticated in
          if rank carried >=? rank required then Next else TierInsufficient required 403
      end
  end.

(** The bytes hashed into a session id. *)
Definition session_id_preimage (pid started_at : Z) : string := to_le_bytes 4 pid +:+ to_le_bytes 8 started_at.

Definition derive_session_id (pid started_at : Z) : SessionId :=
  mkSessionId (SESSION_ID_PREFIX +:+
    s_take (Z.to_nat DERIVED_SESSION_ID_HEX_LEN) (hex_encode (sha256 (session_id_preimage pid started_at)))).

Definition ensure_session_from_peer_process (s : S) (account : ParticipantId) (peer : PeerProcess) (now : Z) :
    S * result Address SessionError :=
  let session_id := derive_session_id (pp_pid peer) (pp_started_at_unix_ms peer) in
  let card := session_card_from_peer_process peer in
  let '(s, r) := ensure_session s account session_id card now in
  try? _ := map_err Mailbox r on s in
  (s, Ok (Session account session_id)).

Definition resolve_session (s : S) (account : ParticipantId) (peer local : SocketAddr) (now : Z) :
    S * result Address SessionError :=
  try? peer_process := map_err Attest (attest peer local) on s in
  ensure_session_from_peer_process s account peer_process now.

(** ** routes/mail.rs *)

Definition authenticate_caller (s : S) (headers : HeaderMap) : result AuthenticatedParticipant ApiError :=
  let? token := ok_or (extract_bearer headers) (ApiMail (PermissionDenied "mail:authenticate")) in
  map_err ApiMail (service_authenticate s token).

(** [bind_addr] is the daemon's own address. *)
Definition resolve_caller (bind_addr : SocketAddr) (s : S) (headers : HeaderMap) (peer : option SocketAddr) (now : Z) :
    S * result (AuthenticatedParticipant * Address) ApiError :=
  try? participant := authenticate_caller s headers on s in
  try? peer_addr := ok_or peer (ApiSession MissingConnectInfo) on s in
  let '(s, r) := resolve_session s (ap_id participant) peer_addr bind_addr now in
  try? address := map_err ApiSession r on s in
  (s, Ok (participant, address)).

(** A handler: resolve the caller, then run [f] as that caller. *)
Definition as_caller {A} (bind_addr : SocketAddr) (s : S) (headers : HeaderMap) (peer : option SocketAddr) (now : Z)
    (f : S → AuthenticatedParticipant → Address → S * result A MailError) : S * result A ApiError :=
  let '(s, r) := resolve_caller bind_addr s headers peer now in
  try? (participant, caller) := r on s in
  let '(s, r) := f s participant caller in
  (s, map_err ApiMail r).

(** What [send_impl] answers; the wake-ups that follow are in Service.v. *)
Definition send_impl (nonce : string) (s : S) (sender : Address) (request : SendRequest) (now : Z) :
    S * result SendResponse MailError := send nonce s sender request now.

(** [Duration::from_secs], in milliseconds *)
Definition clamp_wait_secs (wait_secs : option Z) : option Z := (λ secs, Z.min secs INBOX_WAIT_SECS_MAX * 1000) <$> wait_secs.

(** [waiting] is what happens around the call while it waits, if it does. *)
Definition inbox_impl (s : S) (reader : Address) (request : InboxRequest) (waiting : Waiting) : S * result InboxPage MailError :=
  try? _ := InboxRequest_validate request on s in
  let since_unix_ms := default 0 (ir_since_unix_ms request) in
  let wait := clamp_wait_secs (ir_wait_secs request) in
  service_inbox s reader since_unix_ms (ir_limit request) wait waiting.

Definition ack_impl (s : S) (reader : Address) (request : AckRequest) (now : Z) : S * result Ack MailError :=
  try? _ := AckRequest_validate request on s in
  ack s reader (ar_message_id request) now.

Definition get_impl (s : S) (reader : Address) (request : MessageGetRequest) : result Message MailError :=
  let? _ := MessageGetRequest_validate request in
  message_get s reader (mgr_message_id request).

Definition unread_impl (s : S) (caller : Address) (request : UnreadCountRequest) : result UnreadCount MailError :=
  let? _ := UnreadCountRequest_validate request in
  unread_count_of s caller (ucr_target request).

Definition directory_impl (is_alive : LivenessCheck) (s : S) (caller : Address) : result Directory MailError :=
  directory s caller is_alive.

Definition whoami_impl (s : S) (participant : AuthenticatedParticipant) (caller : Address) :
    result WhoAmIResponse MailError :=
  let? rooms := rooms_of s (ap_id participant) in
  let? card :=
    match caller with
    | Session _ session => session_card s session
    | _ => Ok None
    end in
  Ok (mkWhoAmIResponse caller (ap_label participant) rooms card).

Definition status_impl (s : S) (caller : Address) (request : SessionDeclared) : S * result SessionCard MailError :=
  try? _ := SessionDeclared_validate request on s in
  match caller with
  | Session _ session =>
      let '(s, r) := set_declared s session (working_on request) (role request) (parent request) in
      try? _ := r on s in
      (s, let? found := session_card s session in ok_or found (UnknownSession session))
  | _ => (s, Err (Malformed "caller" "declaring status requires a session address, not a bare account"))
  end.

(** The routes. [now1] is the clock when the caller is resolved, [now2] when the engine is called. *)
Definition route_send (bind_addr : SocketAddr) (nonce : string) (s : S) (headers : HeaderMap)
    (peer : option SocketAddr) (request : SendRequest) (now1 now2 : Z) : S * result SendResponse ApiError :=
  as_caller bind_addr s headers peer now1 (λ s _ caller, send_impl nonce s caller request now2).

Definition route_inbox (bind_addr : SocketAddr) (s : S) (headers : HeaderMap) (peer : option SocketAddr)
    (request : InboxRequest) (now : Z) (waiting : Waiting) : S * result InboxPage ApiError :=
  as_caller bind_addr s headers peer now (λ s _ caller, inbox_impl s caller request waiting).

Definition route_ack (bind_addr : SocketAddr) (s : S) (headers : HeaderMap) (peer : option SocketAddr)
    (request : AckRequest) (now1 now2 : Z) : S * result AckResponse ApiError :=
  let '(s, r) := as_caller bind_addr s headers peer now1 (λ s _ caller, ack_impl s caller request now2) in
  (s, result_map mkAckResponse r).

Definition route_get (bind_addr : SocketAddr) (s : S) (headers : HeaderMap) (peer : option SocketAddr)
    (request : MessageGetRequest) (now : Z) : S * result Message ApiError :=
  as_caller bind_addr s headers peer now (λ s _ caller, (s, get_impl s caller request)).

Definition route_unread (bind_addr : SocketAddr) (s : S) (headers : HeaderMap) (peer : option SocketAddr)
    (request : UnreadCountRequest) (now : Z) : S * result UnreadCount ApiError :=
  as_caller bind_addr s headers peer now (λ s _ caller, (s, unread_impl s caller request)).

Definition route_directory (bind_addr : SocketAddr) (is_alive : LivenessCheck) (s : S) (headers : HeaderMap)
    (peer : option SocketAddr) (now : Z) : S * result Directory ApiError :=
  as_caller bind_addr s headers peer now (λ s _ caller, (s, directory_impl is_alive s caller)).

Definition route_whoami (bind_addr : SocketAddr) (s : S) (headers : HeaderMap) (peer : option SocketAddr) (now : Z) :
    S * result WhoAmIResponse ApiError :=
  as_caller bind_addr s headers peer now (λ s participant caller, (s, whoami_impl s participant caller)).

Definition route_status (bind_addr : SocketAddr) (s : S) (headers : HeaderMap) (peer : option SocketAddr)
    (request : SessionDeclared) (now : Z) : S * result SessionCard ApiError :=
  as_caller bind_addr s headers peer now (λ s _ caller, status_impl s caller request).

(** ** routes/admin.rs *)

Definition require_operator (s : S) (headers : HeaderMap) : result unit ApiError :=
  let? caller := authenticate_caller s headers in
  if ap_operator caller then Ok tt else Err (ApiMail (PermissionDenied "mail:operator")).

(** An admin handler: the operator check, then the engine call. *)
Definition as_operator {A} (s : S) (headers : HeaderMap) (f : S → S * result A MailError) : S * result A ApiError :=
  try? _ := require_operator s headers on s in
  let '(s, r) := f s in
  (s, map_err ApiMail r).

Definition admin_register_participant (random : string) (s : S) (headers : HeaderMap)
    (request : RegisterParticipantRequest) : S * result SecretResponse ApiError :=
  as_operator s headers (λ s,
    let '(s, r) := engine_register_participant random s (rp_id request) (rp_label request) (permissions request) in
    (s, result_map (mkSecretResponse (rp_id request)) r)).

Definition admin_rotate_participant (random : string) (s : S) (headers : HeaderMap) (id : ParticipantId) :
    S * result SecretResponse ApiError :=
  as_operator s headers (λ s,
    let '(s, r) := rotate_participant_secret random s id in (s, result_map (mkSecretResponse id) r)).

Definition admin_remove_participant (s : S) (headers : HeaderMap) (id : ParticipantId) : S * result unit ApiError :=
  as_operator s headers (λ s, engine_deregister_participant s id).

Definition admin_create_room (s : S) (headers : HeaderMap) (id : RoomId) (now : Z) : S * result unit ApiError :=
  as_operator s headers (λ s, engine_create_room s id now).

Definition admin_add_room_member (s : S) (headers : HeaderMap) (room : RoomId) (participant : ParticipantId) :
    S * result unit ApiError :=
  as_operator s headers (λ s, engine_add_room_member s room participant).

Definition admin_remove_room_member (s : S) (headers : HeaderMap) (room : RoomId) (participant : ParticipantId) :
    S * result unit ApiError :=
  as_operator s headers (λ s, engine_remove_room_member s room participant).

Definition admin_set_listener (s : S) (headers : HeaderMap) (account : ParticipantId) (url : string) :
    S * result unit ApiError :=
  as_operator s headers (λ s, set_listener s account url).

Definition admin_remove_listener (s : S) (headers : HeaderMap) (account : ParticipantId) : S * result unit ApiError :=
  as_operator s headers (λ s, remove_listener s account).
End Daemon.

(** * Who a request speaks for

    A handler runs as the session the kernel vouches for, of the account whose secret was
    presented, and as nobody otherwise. *)

From S2P Require Import EngineMail EngineSpec EngineInv.

Section DaemonFacts.
Context `{Primitives} `{Attestation}.

(** [token] is the current secret of the account [id]. *)
Definition secret_of (s : InMemoryStore) (token : string) (id : ParticipantId) (rec : ParticipantRecord) : Prop :=
  participants s !! id = Some rec ∧ secret_digest rec = sha256_digest token.

Lemma service_authenticate_iff s token ap :
  wf s → service_authenticate s token = Ok ap ↔
  ∃ rec, secret_of s token (ap_id ap) rec ∧ ap = mkAuthenticatedParticipant (ap_id ap) (label rec) (operator rec).
Proof.
  intros Hwf. unfold service_authenticate, authenticate, secret_of. cbn.
  unfold InMemory.find_participant_by_digest, InMemory.get_participant. split.
  - destruct (digest_index s !! sha256_digest token) as [id|] eqn:Hd; cbn; [|done].
    destruct (participants s !! id) as [rec|] eqn:Hp; cbn; [|done]. case_decide; [|done]. rewrite Hp. cbn.
    intros [= <-]. cbn. exists rec. done.
  - intros (rec & [Hp Hd] & ->). cbn [ap_id] in *.
    assert (digest_index s !! sha256_digest token = Some (ap_id ap)) as -> by (apply (wf_index s Hwf); eauto).
    rewrite Hp. cbn. rewrite decide_True by done. by rewrite Hp.
Qed.

Lemma ensure_session_exec s p id c now :
  exec (CEnsureSession p id c now) s = ((ensure_session s p id c now).1, result_map RSession (ensure_session s p id c now).2).
Proof. done. Qed.

(** Resolving a caller either answers its attested session or leaves the store alone. *)
Lemma resolve_caller_inv bind_addr s headers peer now s' r :
  resolve_caller bind_addr s headers peer now = (s', r) →
  match r with
  | Err _ => s' = s
  | Ok (ap, a) => ∃ token pa pp,
      extract_bearer headers = Some token ∧ service_authenticate s token = Ok ap ∧
      peer = Some pa ∧ attest pa bind_addr = Ok pp ∧
      a = Session (ap_id ap) (derive_session_id (pp_pid pp) (pp_started_at_unix_ms pp)) ∧
      engine_step s s'
  end.
Proof.
  unfold resolve_caller, authenticate_caller, resolve_session, ensure_session_from_peer_process.
  destruct (extract_bearer headers) as [token|] eqn:Ht; cbn [ok_or]; [|by intros [= <- <-]].
  destruct (service_authenticate s token) as [ap|] eqn:Hau; cbn [map_err]; [|by intros [= <- <-]].
  destruct peer as [pa|]; cbn [ok_or]; [|by intros [= <- <-]].
  destruct (attest pa bind_addr) as [pp|] eqn:Hat; cbn [map_err]; [|by intros [= <- <-]].
  set (id := derive_session_id _ _). set (c := session_card_from_peer_process pp).
  pose proof (ensure_session_exec s (ap_id ap) id c now) as Hex.
  destruct (ensure_session s (ap_id ap) id c now) as [s1 [id1|e]]; cbn [fst snd result_map map_err] in *.
  - intros [= <- <-]. exists token, pa, pp. do 5 (split; [done|]). by eapply (engine_step_exec _ (CEnsureSession (ap_id ap) id c now)).
  - intros [= <- <-]. by apply exec_err in Hex.
Qed.

(** The response of a send names its sender, and the message it names is stored from that sender. *)
Lemma send_from_sender nonce s a rq now s' resp :
  wf s → send nonce s a rq now = (s', Ok resp) →
  sr_from resp = a ∧ ∃ m, messages s' !! sr_message_id resp = Some m ∧ from m = a.
Proof.
  intros Hwf Hs.
  assert (Hex : exec (CSend nonce a rq now) s = (s', Ok (RSent resp))) by (cbn [exec]; unfold reply; by rewrite Hs).
  apply exec_forward in Hex. inversion Hex; subst; cbn.
  - split; [done|]. exists (message_of nonce a rq now). by rewrite lookup_insert_eq.
  - split; [done|]. unfold key_of in *. destruct (idempotency_key rq) as [k|]; cbn in *; [|done]. by apply (wf_idempotency _ Hwf a k).
Qed.
End DaemonFacts.

Section DaemonProperties.
Context `{Primitives} `{!PrimitivesLaws} `{Attestation}.

(** C25: whatever its body says, a successful POST /mail/send is stored from the session the kernel
    attested for the connection, of the account whose current secret the request presented. *)
Theorem sent_mail_is_from_attested_session bind_addr nonce s headers peer request now1 now2 s' resp :
  wf s → route_send bind_addr nonce s headers peer request now1 now2 = (s', Ok resp) →
  ∃ token id rec pa pp,
    extract_bearer headers = Some token ∧ secret_of s token id rec ∧ peer = Some pa ∧ attest pa bind_addr = Ok pp ∧
    sr_from resp = Session id (derive_session_id (pp_pid pp) (pp_started_at_unix_ms pp)) ∧
    ∃ m, messages s' !! sr_message_id resp = Some m ∧ from m = sr_from resp.
Proof.
  intros Hwf. unfold route_send, as_caller. destruct (resolve_caller _ _ _ _ _) as [s1 r] eqn:Hr.
  apply resolve_caller_inv in Hr. destruct r as [[ap a]|]; [|done].
  destruct Hr as (token & pa & pp & Ht & Hau & Hpa & Hat & -> & Hstep).
  apply (service_authenticate_iff _ _ _ Hwf) in Hau as (rec & Hsec & _).
  unfold send_impl. destruct (send _ _ _ _ _) as [s2 [resp'|]] eqn:Hs; [|done]. cbn. intros [= <- <-].
  apply send_from_sender in Hs as [Hfrom Hm]; [|apply (steps_wf s); [done|by apply rtc_once]].
  exists token, (ap_id ap), rec, pa, pp. rewrite Hfrom. eauto 10.
Qed.

(** A request whose caller cannot be identified, for whatever reason, runs no handler and
    changes nothing: there is no fallback to the bare account. *)
Theorem unidentified_caller_runs_nothing {A} bind_addr s headers peer now s' e
    (f : InMemoryStore → AuthenticatedParticipant → Address → InMemoryStore * result A MailError) :
  resolve_caller bind_addr s headers peer now = (s', Err e) → as_caller bind_addr s headers peer now f = (s, Err e).
Proof. intros Hr. unfold as_caller. rewrite Hr. by apply resolve_caller_inv in Hr as ->. Qed.

(** The admin gate lets exactly the current secrets of operator accounts through, and so does
    the handlers' own check. *)
Theorem admin_gate_is_exact s headers :
  wf s →
  (require_tier s headers Admin = Next ↔
     ∃ token id rec, extract_bearer headers = Some token ∧ secret_of s token id rec ∧ operator rec = true) ∧
  (require_operator s headers = Ok tt ↔ require_tier s headers Admin = Next).
Proof.
  intros Hwf. unfold require_tier, require_operator, authenticate_caller.
  destruct (extract_bearer headers) as [token|]; cbn [ok_or]; [|split; [split; [done|naive_solver]|done]].
  destruct (service_authenticate s token) as [ap|e] eqn:Hau; cbn [map_err].
  - apply (service_authenticate_iff _ _ _ Hwf) in Hau as (rec & Hsec & Heq). split.
    + split.
      * destruct (ap_operator ap) eqn:Hop; [|done]. intros _. exists token, (ap_id ap), rec. rewrite Heq in Hop. done.
      * intros (token' & id & rec' & [= <-] & [Hp Hd] & Hop). destruct Hsec as [Hp' Hd'].
        assert (digest_index s !! sha256_digest token = Some id) by (apply (wf_index s Hwf); eauto).
        assert (digest_index s !! sha256_digest token = Some (ap_id ap)) by (apply (wf_index s Hwf); eauto).
        assert (id = ap_id ap) as -> by congruence. assert (rec' = rec) as -> by congruence. by rewrite Heq; cbn; rewrite Hop.
    + by destruct (ap_operator ap).
  - split; [|done]. split; [done|]. intros (token' & id & rec & [= <-] & Hsec & _).
    assert (service_authenticate s token = Ok (mkAuthenticatedParticipant id (label rec) (operator rec))) as Hok
      by (apply (service_authenticate_iff _ _ _ Hwf); eauto). congruence.
Qed.

(** A derived session id is always a valid one, and what is hashed into it determines the
    process: its pid and its start time, so a reused pid is a different session unless the
    truncated hash collides. *)
Theorem session_id_names_one_process pid1 pid2 start1 start2 :
  0 ≤ pid1 < u32_mod → 0 ≤ pid2 < u32_mod → 0 ≤ start1 < u64_mod → 0 ≤ start2 < u64_mod →
  SessionId_validate (derive_session_id pid1 start1) = Ok tt ∧
  (session_id_preimage pid1 start1 = session_id_preimage pid2 start2 → pid1 = pid2 ∧ start1 = start2).
Proof.
  intros Hp1 Hp2 Hs1 Hs2. split.
  - unfold SessionId_validate, derive_session_id. cbn [SessionId_str]. apply validate_opaque_id_ok. eexists. split; [done|].
    pose proof (hex_encode_len (sha256 (session_id_preimage pid1 start1))) as Hl. rewrite sha256_len in Hl. unfold slen in Hl.
    split; [|apply all_bytes_take, hex_encode_lower].
    rewrite slen_take; [done|]. change (Z.to_nat DERIVED_SESSION_ID_HEX_LEN) with 32%nat. lia.
  - intros Heq. apply s_app_inj_len in Heq as [Hp Hs]; [|by rewrite !length_to_le_bytes].
    apply to_le_bytes_inj in Hp; [|done..]. by apply to_le_bytes_inj in Hs.
Qed.
End DaemonProperties.

(** ** Witnesses *)

Module DaemonWitnesses.
Import Scenario.

(** A kernel that knows the process behind one socket. *)
#[local] Instance one_socket : Attestation := {|
  SocketAddr := nat;
  AttestError := unit;
  attest peer _ := if Nat.eqb peer 1 then Ok (mkPeerProcess 7 1000 None (Some "claude --model opus --resume=u1") None) else Err tt
|}.

Definition here : SocketAddr := 0%nat.
Definition there : SocketAddr := 1%nat.
Definition alice_headers : HeaderMap := mkHeaderMap (Some ("Bearer " +:+ generate_secret "r1")).

Lemma parsed_card : session_card_from_peer_process (mkPeerProcess 7 1000 None (Some "claude --model opus --resume=u1") None) =
  mkSessionCard (mkSessionAttested 7 1000 None) (mkSessionCorroborated (Some "u1") (Some "opus") None) SessionDeclared_default.
Proof. vm_compute. reflexivity. Qed.

Definition sent : InMemoryStore * result SendResponse ApiError :=
  route_send here "n" s0 alice_headers (Some there) (req (Direct bob) None) 20 21.
Definition answer : SendResponse :=
  let caller := Session alice (derive_session_id 7 1000) in
  mkSendResponse (derive_message_id caller (req (Direct bob) None) 21 "n") caller.

Lemma sent_ok : sent = (sent.1, Ok answer).
Proof. vm_compute. reflexivity. Qed.

Lemma sent_mail_is_from_attested_session_witness :
  ∃ token id rec pa pp,
    extract_bearer alice_headers = Some token ∧ secret_of s0 token id rec ∧ Some there = Some pa ∧ attest pa here = Ok pp ∧
    sr_from answer = Session id (derive_session_id (pp_pid pp) (pp_started_at_unix_ms pp)) ∧
    ∃ m, messages sent.1 !! sr_message_id answer = Some m ∧ from m = sr_from answer.
Proof.
  apply (sent_mail_is_from_attested_session here "n" s0 alice_headers (Some there) (req (Direct bob) None) 20 21);
    [apply reachable_wf, s0_reachable|apply sent_ok].
Defined.

Lemma unidentified_caller_runs_nothing_witness :
  as_caller here s0 alice_headers (Some 2%nat) 20 (λ s _ caller, send_impl "n" s caller (req (Direct bob) None) 21) =
    (s0, Err (ApiSession (Attest tt))).
Proof. apply (unidentified_caller_runs_nothing here s0 alice_headers (Some 2%nat) 20 s0). vm_compute. reflexivity. Defined.

Lemma admin_gate_is_exact_witness : require_tier s0 alice_headers Admin ≠ Next ∧ require_operator s0 alice_headers ≠ Ok tt.
Proof.
  destruct (admin_gate_is_exact s0 alice_headers (reachable_wf _ s0_reachable)) as [_ Hop].
  assert (Hgate : require_tier s0 alice_headers Admin ≠ Next) by (vm_compute; discriminate).
  split; [exact Hgate|]. intros Hx. by apply Hgate, Hop.
Defined.

Lemma session_id_names_one_process_witness : session_id_preimage 7 1000 ≠ session_id_preimage 7 2000.
Proof.
  intros Heq. destruct (session_id_names_one_process 7 7 1000 2000) as [_ Hinj]; [done..|].
  by destruct (Hinj Heq).
Defined.
End DaemonWitnesses.
