(* ===== verification/Persist.v ===== *)
(** * The flush-before-send barrier (crates/mail4agent-messenger/src/persist.rs)

    [FlushGate] collects dirty records, hands them out in batches and knows which batches are
    still unacknowledged; a request records the [RequiredSeq] it must wait on. The theorem: a
    request is released exactly when every batch produced up to its enqueueing is acknowledged,
    and those batches carry the whole state the request could depend on. *)

From S2P Require Import Prelude.

Local Open Scope Z_scope.

Record RecordKey := mkRecordKey { RecordKey_str : string }.

#[export] Instance RecordKey_eq_dec : EqDecision RecordKey.
Proof. solve_decision. Defined.
#[export] Instance RecordKey_countable : Countable RecordKey.
Proof. by apply (inj_countable' RecordKey_str mkRecordKey); intros []. Defined.

Record SealedRecord := mkSealedRecord { sr_key : RecordKey; sr_bytes : string }.

Record FlushBatch := mkFlushBatch {
  batch_id : Z;
  records : list SealedRecord;
  deletes : list RecordKey }.

Inductive PendingOp :=
| Write (bytes : string)
| Delete.

(** [pub struct RequiredSeq(Option<u64>)] *)
Record RequiredSeq := mkRequiredSeq { required : option Z }.

Definition RequiredSeq_NONE : RequiredSeq := mkRequiredSeq None.

#[export] Instance RequiredSeq_eq_dec : EqDecision RequiredSeq.
Proof. solve_decision. Defined.

(** [trait FlushEpoch] *)
Class FlushEpoch (S : Type) := {
  seal_for_request : S → S * (RequiredSeq * option FlushBatch);
  is_released : S → RequiredSeq → bool
}.

Record FlushGate := mkFlushGate {
  next_batch_id : Z;
  gate_pending : gmap RecordKey PendingOp;
  unacked_batches : gset Z }.

Definition FlushGate_new : FlushGate := mkFlushGate 0 ∅ ∅.

Definition mark_dirty (g : FlushGate) (key : RecordKey) (bytes : string) : FlushGate :=
  mkFlushGate (next_batch_id g) (<[key := Write bytes]> (gate_pending g)) (unacked_batches g).

Definition mark_deleted (g : FlushGate) (key : RecordKey) : FlushGate :=
  mkFlushGate (next_batch_id g) (<[key := Delete]> (gate_pending g)) (unacked_batches g).

(** The loop of [take_batch] that sorts the drained operations. *)
Fixpoint split_ops (ops : list (RecordKey * PendingOp)) : list SealedRecord * list RecordKey :=
  match ops with
  | [] => ([], [])
  | (key, op) :: ops =>
      let '(records, deletes) := split_ops ops in
      match op with
      | Write bytes => (mkSealedRecord key bytes :: records, deletes)
      | Delete => (records, key :: deletes)
      end
  end.

(** The [u64] counter wraps as Rust's does in a release build. *)
Definition take_batch (g : FlushGate) : FlushGate * option FlushBatch :=
  if decide (gate_pending g = ∅) then (g, None)
  else
    let id := next_batch_id g in
    let '(records, deletes) := split_ops (btree_entries RecordKey_str (gate_pending g)) in
    (mkFlushGate ((next_batch_id g + 1) mod u64_mod) ∅ ({[id]} ∪ unacked_batches g),
     Some (mkFlushBatch id records deletes)).

Definition ack (g : FlushGate) (id : Z) : FlushGate :=
  mkFlushGate (next_batch_id g) (gate_pending g) (unacked_batches g ∖ {[id]}).

(** [take_batch().expect(..)]: with something pending it is always [Some]. *)
Definition gate_seal_for_request (g : FlushGate) : FlushGate * (RequiredSeq * option FlushBatch) :=
  if decide (gate_pending g = ∅)
  then (g, (mkRequiredSeq (if next_batch_id g =? 0 then None else Some (next_batch_id g - 1)), None))
  else
    let '(g, batch) := take_batch g in
    (g, (mkRequiredSeq (batch_id <$> batch), batch)).

Definition gate_is_released (g : FlushGate) (r : RequiredSeq) : bool :=
  match required r with
  | None => true
  | Some seq => bool_decide (filter (λ id, id ≤ seq) (unacked_batches g) = ∅)
  end.

#[export] Instance FlushGate_FlushEpoch : FlushEpoch FlushGate := {|
  seal_for_request := gate_seal_for_request;
  is_released := gate_is_released
|}.

(** ** What a batch does to the durable record set *)

Definition write_record (m : gmap RecordKey string) (r : SealedRecord) : gmap RecordKey string :=
  <[sr_key r := sr_bytes r]> m.
Definition delete_key (m : gmap RecordKey string) (k : RecordKey) : gmap RecordKey string := delete k m.

Arguments write_record : simpl never.
Arguments delete_key : simpl never.

Definition apply_batch (m : gmap RecordKey string) (b : FlushBatch) : gmap RecordKey string :=
  foldl delete_key (foldl write_record m (records b)) (deletes b).

Definition apply_batches (m : gmap RecordKey string) (bs : list FlushBatch) : gmap RecordKey string :=
  foldl apply_batch m bs.

(** ** Runs of the gate, with their history *)

(** All batches produced so far in order, the ids acknowledged, and the working set the marks
    describe. *)
Record History := mkHistory {
  produced : list FlushBatch;
  acked : gset Z;
  memory : gmap RecordKey string }.

Definition History_new : History := mkHistory [] ∅ ∅.

Definition produce (h : History) (b : option FlushBatch) : History :=
  mkHistory (produced h ++ match b with Some b => [b] | None => [] end) (acked h) (memory h).

Inductive gate_step : FlushGate * History → FlushGate * History → Prop :=
| step_mark_dirty g h k bytes :
    gate_step (g, h) (mark_dirty g k bytes, mkHistory (produced h) (acked h) (<[k := bytes]> (memory h)))
| step_mark_deleted g h k :
    gate_step (g, h) (mark_deleted g k, mkHistory (produced h) (acked h) (delete k (memory h)))
| step_take_batch g h g' b :
    next_batch_id g + 1 < u64_mod → take_batch g = (g', b) →
    gate_step (g, h) (g', produce h b)
| step_seal g h g' r b :
    next_batch_id g + 1 < u64_mod → gate_seal_for_request g = (g', (r, b)) →
    gate_step (g, h) (g', produce h b)
| step_ack g h id :
    gate_step (g, h)
      (ack g id,
       mkHistory (produced h) (if decide (0 ≤ id < Z.of_nat (length (produced h))) then {[id]} ∪ acked h else acked h)
         (memory h)).

(** The working set once the pending operations are applied to [m]. *)
Definition overlay (m : gmap RecordKey string) (ops : gmap RecordKey PendingOp) : gmap RecordKey string :=
  merge (λ old op, match op with Some (Write b) => Some b | Some Delete => None | None => old end) m ops.

Record gate_inv (x : FlushGate * History) : Prop := {
  gi_next : next_batch_id x.1 = Z.of_nat (length (produced x.2)) ∧ next_batch_id x.1 < u64_mod;
  gi_ids i b : produced x.2 !! i = Some b → batch_id b = Z.of_nat i;
  gi_unacked id :
    id ∈ unacked_batches x.1 ↔ 0 ≤ id < Z.of_nat (length (produced x.2)) ∧ id ∉ acked x.2;
  gi_acked id : id ∈ acked x.2 → 0 ≤ id < Z.of_nat (length (produced x.2));
  gi_memory : memory x.2 = overlay (apply_batches ∅ (produced x.2)) (gate_pending x.1)
}.

(** ** A batch carries exactly the drained operations *)

Lemma lookup_overlay m ops k :
  overlay m ops !! k =
  match ops !! k with Some (Write b) => Some b | Some Delete => None | None => m !! k end.
Proof. unfold overlay. rewrite lookup_merge. unfold diag_None. by destruct (m !! k), (ops !! k) as [[]|]. Qed.

Lemma foldl_delete_lookup ks (m : gmap RecordKey string) k :
  foldl delete_key m ks !! k = if decide (k ∈ ks) then None else m !! k.
Proof.
  revert m; induction ks as [|k' ks IH]; intros m; cbn; [done|]. rewrite IH. unfold delete_key.
  destruct (decide (k = k')) as [->|Hne].
  - rewrite lookup_delete_eq. case_decide; case_decide; set_solver.
  - rewrite lookup_delete_ne by done. case_decide; case_decide; set_solver.
Qed.

Lemma foldl_write_lookup rs (m : gmap RecordKey string) k :
  NoDup (sr_key <$> rs) →
  (∀ b, mkSealedRecord k b ∈ rs → foldl write_record m rs !! k = Some b) ∧
  (k ∉ sr_key <$> rs → foldl write_record m rs !! k = m !! k).
Proof.
  revert m; induction rs as [|[k' b'] rs IH]; intros m Hnd; cbn; [set_solver|].
  inversion Hnd as [|? ? Hk' Hnd']; subst. destruct (IH (write_record m (mkSealedRecord k' b')) Hnd') as [IH1 IH2]. split.
  - intros b Hb. apply elem_of_cons in Hb as [[= -> ->]|Hb]; [|auto].
    rewrite IH2 by done. unfold write_record; cbn. by rewrite lookup_insert_eq.
  - intros Hk. cbn in Hk. rewrite IH2 by set_solver. unfold write_record; cbn. rewrite lookup_insert_ne; set_solver.
Qed.

Lemma split_ops_elem ops rs ds :
  split_ops ops = (rs, ds) →
  (∀ k b, mkSealedRecord k b ∈ rs ↔ (k, Write b) ∈ ops) ∧ (∀ k, k ∈ ds ↔ (k, Delete) ∈ ops) ∧
  (sr_key <$> rs) ++ ds ≡ₚ ops.*1.
Proof.
  revert rs ds; induction ops as [|[k op] ops IH]; intros rs ds; cbn.
  - intros [= <- <-]. split_and!; [intros; split; by intros ?%not_elem_of_nil..|done].
  - destruct (split_ops ops) as [rs' ds']. destruct (IH rs' ds' eq_refl) as (IH1 & IH2 & IH3).
    destruct op as [b|]; intros [= <- <-]; split_and!.
    + intros k' b'. rewrite !elem_of_cons, IH1. naive_solver.
    + intros k'. rewrite !elem_of_cons, IH2. naive_solver.
    + cbn. by rewrite IH3.
    + intros k' b'. rewrite !elem_of_cons, IH1. naive_solver.
    + intros k'. rewrite !elem_of_cons, IH2. naive_solver.
    + rewrite <- Permutation_middle. by rewrite IH3.
Qed.

Lemma apply_taken_batch m (ops : gmap RecordKey PendingOp) id rs ds :
  split_ops (btree_entries RecordKey_str ops) = (rs, ds) →
  apply_batch m (mkFlushBatch id rs ds) = overlay m ops.
Proof.
  intros Hsplit. destruct (split_ops_elem _ _ _ Hsplit) as (Hrs & Hds & Hperm).
  assert (Hnd : NoDup ((sr_key <$> rs) ++ ds)) by (rewrite Hperm; apply btree_entries_NoDup).
  apply NoDup_app in Hnd as (Hndr & Hdisj & _).
  apply map_eq. intros k. rewrite lookup_overlay. unfold apply_batch. cbn.
  rewrite foldl_delete_lookup. destruct (foldl_write_lookup rs m k Hndr) as [Hw Hn].
  setoid_rewrite elem_of_btree_entries in Hrs. setoid_rewrite elem_of_btree_entries in Hds.
  destruct (ops !! k) as [[b|]|] eqn:Hk.
  - rewrite decide_False; [by apply Hw, Hrs|]. rewrite Hds. congruence.
  - rewrite decide_True by (by apply Hds). done.
  - rewrite decide_False by (rewrite Hds; congruence). apply Hn.
    intros ([k' b] & -> & Hin)%list_elem_of_fmap. cbn in Hk. apply Hrs in Hin. congruence.
Qed.

(** ** The invariant *)

Lemma apply_batches_app m bs cs : apply_batches m (bs ++ cs) = apply_batches (apply_batches m bs) cs.
Proof. apply foldl_app. Qed.

Lemma take_batch_cases g :
  (gate_pending g = ∅ ∧ take_batch g = (g, None)) ∨
  ∃ b, gate_pending g ≠ ∅ ∧
    take_batch g = (mkFlushGate ((next_batch_id g + 1) mod u64_mod) ∅ ({[next_batch_id g]} ∪ unacked_batches g), Some b) ∧
    batch_id b = next_batch_id g ∧ ∀ m, apply_batch m b = overlay m (gate_pending g).
Proof.
  unfold take_batch. destruct (decide (gate_pending g = ∅)) as [Hp|Hp]; [by left|right].
  destruct (split_ops _) as [rs ds] eqn:Hs. eexists. split; [done|]. split; [done|]. split; [done|].
  intros m. by apply apply_taken_batch.
Qed.

(** [seal_for_request] is [take_batch], and its answer is the last batch produced. *)
Lemma seal_as_take g g' r b :
  gate_seal_for_request g = (g', (r, b)) → 0 ≤ next_batch_id g → next_batch_id g + 1 < u64_mod →
  take_batch g = (g', b) ∧ gate_pending g' = ∅ ∧
  r = mkRequiredSeq (if next_batch_id g' =? 0 then None else Some (next_batch_id g' - 1)).
Proof.
  intros Hs H0 Hn. revert Hs.
  unfold gate_seal_for_request. destruct (take_batch_cases g) as [[Hp Ht]|(b' & Hp & Ht & Hid & _)]; rewrite Ht.
  - rewrite decide_True by done. by intros [= <- <- <-].
  - rewrite decide_False by done. intros [= <- <- <-]. split_and!; [done|done|]. cbn [next_batch_id].
    rewrite Z.mod_small by lia. destruct (Z.eqb_spec (next_batch_id g + 1) 0); [lia|]. cbn. rewrite Hid. do 2 f_equal. lia.
Qed.

Lemma overlay_insert m ops k op :
  overlay m (<[k := op]> ops) =
  match op with Write b => <[k := b]> (overlay m ops) | Delete => delete k (overlay m ops) end.
Proof.
  apply map_eq. intros j. rewrite lookup_overlay.
  destruct (decide (j = k)) as [->|Hne].
  - rewrite lookup_insert_eq. destruct op; by rewrite ?lookup_insert_eq, ?lookup_delete_eq.
  - rewrite lookup_insert_ne by done.
    destruct op; rewrite ?lookup_insert_ne, ?lookup_delete_ne, lookup_overlay by done; done.
Qed.

Lemma overlay_empty m : overlay m ∅ = m.
Proof. apply map_eq. intros j. rewrite lookup_overlay. by rewrite lookup_empty. Qed.

Lemma gate_inv_new : gate_inv (FlushGate_new, History_new).
Proof.
  split; cbn; try done.
  intros id. split; [set_solver|]. lia.
Qed.

Lemma gate_inv_take g h g' b :
  gate_inv (g, h) → next_batch_id g + 1 < u64_mod → take_batch g = (g', b) → gate_inv (g', produce h b).
Proof.
  intros [[Hn Hb] Hids Hun Hack Hmem] Hlt Ht. cbn in *.
  destruct (take_batch_cases g) as [[Hp Ht']|(b' & Hp & Ht' & Hid & Happ)]; rewrite Ht' in Ht; injection Ht as <- <-;
    unfold produce; [by split; cbn; rewrite ?app_nil_r|].
  split; cbn; rewrite ?length_app; cbn.
  - rewrite Z.mod_small by lia. lia.
  - intros i b [Hb'|[Hge Hb']]%lookup_app_Some; [by apply Hids|].
    apply list_lookup_singleton_Some in Hb' as [Hi <-]. rewrite Hid, Hn. lia.
  - intros id. rewrite elem_of_union, elem_of_singleton, Hun. split.
    + intros [->|[? ?]]; [|split; [lia|done]]. split; [lia|]. intros Hin.
      apply Hack in Hin. lia.
    + intros [? ?]. destruct (decide (id = next_batch_id g)); [by left|right; split; [lia|done]].
  - intros id Hin%Hack. lia.
  - rewrite overlay_empty, apply_batches_app. cbn. rewrite Happ. done.
Qed.

Lemma gate_step_inv x y : gate_inv x → gate_step x y → gate_inv y.
Proof.
  intros Hinv Hstep. destruct Hstep as [g h k bytes|g h k|g h g' b Hlt Ht|g h g' r b Hlt Hs|g h id].
  - destruct Hinv as [? ? ? ? Hmem]; split; cbn in *; try done. by rewrite Hmem, overlay_insert.
  - destruct Hinv as [? ? ? ? Hmem]; split; cbn in *; try done. by rewrite Hmem, overlay_insert.
  - by eapply gate_inv_take.
  - assert (0 ≤ next_batch_id g) by (destruct Hinv as [[Hn _] _ _ _ _]; cbn in Hn; lia).
    destruct (seal_as_take _ _ _ _ Hs) as (Ht & _); [done..|]. by eapply gate_inv_take.
  - destruct Hinv as [? ? Hun Hack Hmem]; split; cbn in *; try done.
    + intros i. rewrite elem_of_difference, elem_of_singleton, Hun.
      case_decide; [set_solver|]. split; [naive_solver|]. intros [? ?]. split; [done|]. intros ->. lia.
    + intros i. case_decide; [|auto]. rewrite elem_of_union, elem_of_singleton. intros [->|?]; auto.
Qed.

Lemma gate_steps_inv x y : gate_inv x → rtc gate_step x y → gate_inv y.
Proof. intros Hinv Hr. revert Hinv. induction Hr; eauto using gate_step_inv. Qed.

(** The history only grows. *)
Lemma gate_steps_grow x y :
  rtc gate_step x y → ∃ later, produced y.2 = produced x.2 ++ later.
Proof.
  induction 1 as [x|x y z Hs _ [later IH]]; [exists []; by rewrite app_nil_r|].
  assert (∃ l1, produced y.2 = produced x.2 ++ l1) as [l1 H1].
  { destruct Hs; unfold produce; cbn; try (exists []; by rewrite app_nil_r); eauto. }
  exists (l1 ++ later). by rewrite IH, H1, app_assoc.
Qed.

(** ** Theorems *)

(** Released, in terms of the history: all batches up to the recorded one are acknowledged. *)
Lemma released_iff g h n :
  gate_inv (g, h) → (n ≤ length (produced h))%nat →
  gate_is_released g (mkRequiredSeq (if Z.of_nat n =? 0 then None else Some (Z.of_nat n - 1))) = true ↔
  ∀ id, 0 ≤ id < Z.of_nat n → id ∈ acked h.
Proof.
  intros [_ _ Hun _ _] Hle. cbn in *. unfold gate_is_released. cbn.
  destruct (Z.eqb_spec (Z.of_nat n) 0) as [Hz|Hz]; [split; [lia|done]|].
  rewrite bool_decide_eq_true. split.
  - intros Hempty id Hid. destruct (decide (id ∈ acked h)); [done|]. exfalso.
    assert (id ∈ filter (λ id, id ≤ Z.of_nat n - 1) (unacked_batches g)); [|set_solver].
    apply elem_of_filter. split; [lia|]. apply Hun. split; [lia|done].
  - intros Hall. apply set_eq. intros id. rewrite elem_of_filter, Hun. split; [|set_solver].
    intros (? & ? & Hna). destruct Hna. apply Hall. lia.
Qed.

(** C14: flush before send: a request that took its epoch at some point of a run is released,
    however the run goes on, exactly when every batch produced up to that point has been
    acknowledged (later batches never hold it back), and those batches, applied in order, are the
    whole working set as it was when the request was enqueued. *)
Theorem flush_before_send g1 h1 g2 r b g3 h3 :
  rtc gate_step (FlushGate_new, History_new) (g1, h1) → next_batch_id g1 + 1 < u64_mod →
  gate_seal_for_request g1 = (g2, (r, b)) →
  rtc gate_step (g2, produce h1 b) (g3, h3) →
  (gate_is_released g3 r = true ↔ ∀ x, x ∈ produced (produce h1 b) → batch_id x ∈ acked h3) ∧
  apply_batches ∅ (produced (produce h1 b)) = memory h1.
Proof.
  intros H1 Hlt Hs H3. pose proof (gate_steps_inv _ _ gate_inv_new H1) as Hi1.
  assert (0 ≤ next_batch_id g1) by (destruct Hi1 as [[Hn _] _ _ _ _]; cbn in Hn; lia).
  destruct (seal_as_take _ _ _ _ Hs) as (Ht & Hp2 & Hr); [done..|].
  pose proof (gate_inv_take _ _ _ _ Hi1 Hlt Ht) as Hi2. pose proof (gate_steps_inv _ _ Hi2 H3) as Hi3.
  destruct (gate_steps_grow _ _ H3) as [later Hlater]. cbn [snd] in Hlater.
  pose proof Hi2 as [[Hn2 _] Hids2 _ _ Hmem2]. cbn [fst snd] in *. split.
  - rewrite Hr, Hn2, (released_iff g3 h3) by (done || (rewrite Hlater, length_app; lia)). split.
    + intros Hall x Hx. apply list_elem_of_lookup in Hx as [i Hi]. pose proof (lookup_lt_Some _ _ _ Hi).
      rewrite (Hids2 _ _ Hi). apply Hall. lia.
    + intros Hall id Hid. destruct (lookup_lt_is_Some_2 (produced (produce h1 b)) (Z.to_nat id)) as [x Hx]; [lia|].
      pose proof (Hids2 _ _ Hx) as Hxid. replace id with (batch_id x) by lia. apply Hall. by eapply list_elem_of_lookup_2.
  - rewrite Hp2, overlay_empty in Hmem2. by rewrite <- Hmem2.
Qed.

Definition k1 : RecordKey := mkRecordKey "messenger/dev/account".
Definition g_dirty : FlushGate := mark_dirty FlushGate_new k1 "x".
Definition h_dirty : History := mkHistory [] ∅ {[k1 := "x"]}.
Definition sealed : FlushGate * (RequiredSeq * option FlushBatch) := gate_seal_for_request g_dirty.

Lemma flush_before_send_witness :
  (gate_is_released sealed.1 sealed.2.1 = true ↔
   ∀ x, x ∈ produced (produce h_dirty sealed.2.2) → batch_id x ∈ acked (produce h_dirty sealed.2.2)) ∧
  apply_batches ∅ (produced (produce h_dirty sealed.2.2)) = memory h_dirty.
Proof.
  apply (flush_before_send g_dirty h_dirty sealed.1 sealed.2.1 sealed.2.2 sealed.1 (produce h_dirty sealed.2.2)).
  - eapply rtc_l; [apply (step_mark_dirty _ _ k1 "x")|apply rtc_refl].
  - vm_compute. reflexivity.
  - reflexivity.
  - apply rtc_refl.
Defined.
