(* ===== verification/RecordLog.v ===== *)
(** * The record log codec (crates/mail4agent-messenger/src/persist_log.rs)

    Frames of [records.log]: length, SHA-256 of the payload, payload. [replay] rebuilds the record
    set from the longest valid prefix. The theorems: what [encode_batch] and [encode_snapshot]
    wrote is what [replay] reads, a torn last frame costs exactly that frame, truncating to the
    reported length loses nothing, and [append_frame] never leaves a torn frame in front of
    another. Bytes ([Vec<u8>]) are [string]s. *)

From S2P Require Import Prelude Primitives Persist.

Local Open Scope Z_scope.

Definition HASH_LEN : Z := 32.

Definition write_u32 (out : string) (value : Z) : string := out +:+ to_le_bytes 4 value.
Definition write_u64 (out : string) (value : Z) : string := out +:+ to_le_bytes 8 value.
(** [bytes.len() as u32] truncates. *)
Definition write_bytes (out bytes : string) : string := write_u32 out (slen bytes mod u32_mod) +:+ bytes.

Definition encode_payload (id : Z) (records : list (string * string)) (deletes : list string) : string :=
  let payload := write_u64 EmptyString id in
  let payload := write_u32 payload (Z.of_nat (length records) mod u32_mod) in
  let payload := foldl (λ payload '(key, bytes), write_bytes (write_bytes payload key) bytes) payload records in
  let payload := write_u32 payload (Z.of_nat (length deletes) mod u32_mod) in
  foldl write_bytes payload deletes.

Section Codec.
Context `{Primitives}.

Definition frame_from_payload (payload : string) : string :=
  let hash := sha256 payload in
  write_u32 EmptyString (slen payload mod u32_mod) +:+ hash +:+ payload.

Definition encode_batch (batch : FlushBatch) : string :=
  let records := (λ r, (RecordKey_str (sr_key r), sr_bytes r)) <$> Persist.records batch in
  let deletes := RecordKey_str <$> Persist.deletes batch in
  frame_from_payload (encode_payload (batch_id batch) records deletes).

Definition encode_snapshot (records : gmap RecordKey string) : string :=
  let entries := (λ '(key, bytes), (RecordKey_str key, bytes)) <$> btree_entries RecordKey_str records in
  frame_from_payload (encode_payload 0 entries []).

Definition read_u32 (bytes : string) (at_ : Z) : option (Z * Z) :=
  end_ ← checked_add at_ 4;
  slice ← s_get bytes at_ end_;
  Some (from_le_bytes slice, end_).

Definition read_u64 (bytes : string) (at_ : Z) : option (Z * Z) :=
  end_ ← checked_add at_ 8;
  slice ← s_get bytes at_ end_;
  Some (from_le_bytes slice, end_).

Definition read_bytes (bytes : string) (at_ : Z) : option (string * Z) :=
  '(len, at_) ← read_u32 bytes at_;
  end_ ← checked_add at_ len;
  slice ← s_get bytes at_ end_;
  Some (slice, end_).

(** [String::from_utf8(key.to_vec()).ok()] *)
Definition from_utf8 (bytes : string) : option string := if utf8_valid bytes then Some bytes else None.

(** [for _ in 0..record_count { .. }] of [decode_payload]. *)
Fixpoint decode_records (n : nat) (payload : string) (at_ : Z) : option (list (string * string) * Z) :=
  match n with
  | O => Some ([], at_)
  | S n =>
      '(key, next) ← read_bytes payload at_;
      key ← from_utf8 key;
      '(value, next) ← read_bytes payload next;
      '(records, at_) ← decode_records n payload next;
      Some ((key, value) :: records, at_)
  end.

Fixpoint decode_deletes (n : nat) (payload : string) (at_ : Z) : option (list string * Z) :=
  match n with
  | O => Some ([], at_)
  | S n =>
      '(key, next) ← read_bytes payload at_;
      key ← from_utf8 key;
      '(deletes, at_) ← decode_deletes n payload next;
      Some (key :: deletes, at_)
  end.

Definition decode_payload (payload : string) : option (list (string * string) * list string) :=
  '(_, at_) ← read_u64 payload 0;
  '(record_count, at_) ← read_u32 payload at_;
  '(records, at_) ← decode_records (Z.to_nat record_count) payload at_;
  '(delete_count, at_) ← read_u32 payload at_;
  '(deletes, at_) ← decode_deletes (Z.to_nat delete_count) payload at_;
  if at_ =? slen payload then Some (records, deletes) else None.

(** One turn of [replay]'s loop: the decoded frame at [pos] and where it ends, or [None] where the
    source breaks out of the loop. *)
Definition read_frame (bytes : string) (pos : Z) : option (list (string * string) * list string * Z) :=
  '(payload_len, header_end) ← read_u32 bytes pos;
  hash_end ← checked_add header_end HASH_LEN;
  payload_end ← checked_add hash_end payload_len;
  stored_hash ← s_get bytes header_end hash_end;
  payload ← s_get bytes hash_end payload_end;
  if decide (sha256 payload = stored_hash)
  then '(records, deletes) ← decode_payload payload; Some (records, deletes, payload_end)
  else None.

Definition apply_frame (map : gmap RecordKey string) (records : list (string * string)) (deletes : list string) :
    gmap RecordKey string :=
  foldl (λ map key, delete (mkRecordKey key) map)
    (foldl (λ map '(key, value), <[mkRecordKey key := value]> map) map records) deletes.

(** The loop, with a bound on its turns; [None] if the bound is reached. *)
Fixpoint replay_loop (fuel : nat) (bytes : string) (map : gmap RecordKey string) (pos : Z) :
    option (gmap RecordKey string * Z) :=
  match fuel with
  | O => None
  | S fuel =>
      match read_frame bytes pos with
      | None => Some (map, pos)
      | Some (records, deletes, payload_end) =>
          replay_loop fuel bytes (apply_frame map records deletes) payload_end
      end
  end.

(** Every frame takes at least 36 bytes, so the length of the log bounds the turns. *)
Definition replay (bytes : string) : option (gmap RecordKey string * Z) :=
  replay_loop (S (String.length bytes)) bytes ∅ 0.

(** ** Termination *)

Lemma read_u32_bounds bytes p n e :
  read_u32 bytes p = Some (n, e) → e = p + 4 ∧ 0 ≤ p ∧ e ≤ slen bytes.
Proof.
  unfold read_u32. destruct (checked_add p 4) as [e'|] eqn:He; [|done]. apply checked_add_Some in He as [-> _]. cbn.
  destruct (s_get bytes p (p + 4)) eqn:Hg; [|done]. apply s_get_Some in Hg. cbn. intros [= _ <-]. lia.
Qed.

Lemma read_frame_bounds bytes pos records deletes e :
  read_frame bytes pos = Some (records, deletes, e) → 0 ≤ pos ∧ pos + 36 ≤ e ≤ slen bytes.
Proof.
  unfold read_frame. destruct (read_u32 bytes pos) as [[len hdr]|] eqn:Hr; [|done].
  apply read_u32_bounds in Hr as (-> & ? & ?). cbn.
  destruct (checked_add (pos + 4) HASH_LEN) as [he|] eqn:Hh; [|done]. apply checked_add_Some in Hh as [-> _]. cbn.
  destruct (checked_add _ len) as [pe|] eqn:Hp; [|done]. apply checked_add_Some in Hp as [-> _]. cbn.
  destruct (s_get bytes (pos + 4) _) eqn:Hg1; [|done]. cbn.
  destruct (s_get bytes (pos + 4 + HASH_LEN) _) eqn:Hg2; [|done]. cbn. apply s_get_Some in Hg2. unfold HASH_LEN in *.
  case_decide; [|done]. destruct (decode_payload _) as [[rs ds]|]; [|done]. cbn. intros [= <- <- <-]. lia.
Qed.

Lemma replay_loop_total fuel bytes map pos :
  0 ≤ pos ≤ slen bytes → slen bytes - pos < Z.of_nat fuel →
  ∃ m p, replay_loop fuel bytes map pos = Some (m, p) ∧ pos ≤ p ≤ slen bytes.
Proof.
  revert map pos; induction fuel as [|fuel IH]; intros map pos Hp Hf; [lia|]. cbn.
  destruct (read_frame bytes pos) as [[[rs ds] e]|] eqn:Hr; [|exists map, pos; split; [done|lia]].
  apply read_frame_bounds in Hr. destruct (IH (apply_frame map rs ds) e) as (m & p & -> & ?); [lia..|].
  exists m, p. split; [done|lia].
Qed.

(** More turns than needed change nothing. *)
Lemma replay_loop_fuel fuel fuel' bytes map pos r :
  (fuel ≤ fuel')%nat → replay_loop fuel bytes map pos = Some r → replay_loop fuel' bytes map pos = Some r.
Proof.
  revert fuel' map pos; induction fuel as [|fuel IH]; intros [|fuel'] map pos Hle; cbn; try done; [lia|].
  destruct (read_frame bytes pos) as [[[rs ds] e]|]; [|done]. apply IH. lia.
Qed.

(** ** Reading back what was written *)

Lemma slen_nonneg s : 0 ≤ slen s.
Proof. unfold slen. lia. Qed.

Lemma read_u32_app pre n post :
  0 ≤ n < u32_mod → slen pre + 4 < u64_mod →
  read_u32 (pre +:+ to_le_bytes 4 n +:+ post) (slen pre) = Some (n, slen pre + 4).
Proof.
  intros Hn Hb. unfold read_u32, checked_add. destruct (Z.ltb_spec (slen pre + 4) u64_mod); [|lia]. cbn.
  rewrite (s_get_mid pre (to_le_bytes 4 n) post) by (rewrite ?length_to_le_bytes; done). cbn -[to_le_bytes from_le_bytes].
  by rewrite from_to_le_bytes.
Qed.

Lemma read_u64_app pre n post :
  0 ≤ n < u64_mod → slen pre + 8 < u64_mod →
  read_u64 (pre +:+ to_le_bytes 8 n +:+ post) (slen pre) = Some (n, slen pre + 8).
Proof.
  intros Hn Hb. unfold read_u64, checked_add. destruct (Z.ltb_spec (slen pre + 8) u64_mod); [|lia]. cbn.
  rewrite (s_get_mid pre (to_le_bytes 8 n) post) by (rewrite ?length_to_le_bytes; done). cbn -[to_le_bytes from_le_bytes].
  by rewrite from_to_le_bytes.
Qed.

(** The field [write_bytes] appends. *)
Definition field (b : string) : string := to_le_bytes 4 (slen b mod u32_mod) +:+ b.

Lemma write_bytes_field out b : write_bytes out b = out +:+ field b.
Proof. unfold write_bytes, write_u32, field. by rewrite s_app_assoc. Qed.

Lemma slen_field b : slen (field b) = 4 + slen b.
Proof. unfold field. by rewrite slen_app, length_to_le_bytes. Qed.

Lemma read_bytes_app pre b post :
  slen b < u32_mod → slen (pre +:+ field b +:+ post) < u64_mod →
  read_bytes (pre +:+ field b +:+ post) (slen pre) = Some (b, slen (pre +:+ field b)).
Proof.
  intros Hb Hlen. rewrite !slen_app, slen_field in Hlen. pose proof (slen_nonneg b). pose proof (slen_nonneg post).
  unfold read_bytes. replace (pre +:+ field b +:+ post) with (pre +:+ to_le_bytes 4 (slen b) +:+ (b +:+ post))
    by (unfold field; by rewrite s_app_assoc, Z.mod_small by lia).
  rewrite read_u32_app by lia. cbn -[to_le_bytes]. unfold checked_add.
  destruct (Z.ltb_spec (slen pre + 4 + slen b) u64_mod); [|lia]. cbn -[to_le_bytes].
  rewrite <- (s_app_assoc pre), s_get_mid; rewrite ?slen_app, ?length_to_le_bytes; try lia.
  cbn -[to_le_bytes field]. rewrite slen_field. do 2 f_equal. lia.
Qed.

(** Lists of records and of deletes, as the payload holds them. *)
Definition record_bytes (kv : string * string) : string := field kv.1 +:+ field kv.2.
Definition concat_s (l : list string) : string := foldr String.app EmptyString l.
Arguments concat_s : simpl never.

Lemma concat_s_cons s l : concat_s (s :: l) = s +:+ concat_s l.
Proof. done. Qed.

Lemma foldl_records payload rs :
  foldl (λ payload '(key, bytes), write_bytes (write_bytes payload key) bytes) payload rs =
  payload +:+ concat_s (record_bytes <$> rs).
Proof.
  revert payload; induction rs as [|[k v] rs IH]; intros payload; cbn [foldl].
  - by rewrite s_app_nil_r.
  - rewrite IH, !write_bytes_field, fmap_cons, concat_s_cons. unfold record_bytes. cbn [fst snd]. by rewrite !s_app_assoc.
Qed.

Lemma foldl_deletes payload ds : foldl write_bytes payload ds = payload +:+ concat_s (field <$> ds).
Proof.
  revert payload; induction ds as [|k ds IH]; intros payload; cbn [foldl].
  - by rewrite s_app_nil_r.
  - by rewrite IH, write_bytes_field, fmap_cons, concat_s_cons, s_app_assoc.
Qed.

Definition record_ok (kv : string * string) : Prop :=
  slen kv.1 < u32_mod ∧ slen kv.2 < u32_mod ∧ utf8_valid kv.1 = true.
Definition key_ok (k : string) : Prop := slen k < u32_mod ∧ utf8_valid k = true.

Lemma decode_records_app rs pre post :
  Forall record_ok rs → slen (pre +:+ concat_s (record_bytes <$> rs) +:+ post) < u64_mod →
  decode_records (length rs) (pre +:+ concat_s (record_bytes <$> rs) +:+ post) (slen pre) =
    Some (rs, slen (pre +:+ concat_s (record_bytes <$> rs))).
Proof.
  intros Hok. revert pre. induction Hok as [|[k v] rs (Hk & Hv & Hu) _ IH]; intros pre Hlen; cbn [length decode_records]; cbn [fst snd] in *.
  - by rewrite s_app_nil_r.
  - rewrite fmap_cons, concat_s_cons in *.
    replace (pre +:+ (record_bytes (k, v) +:+ concat_s (record_bytes <$> rs)) +:+ post)
      with (pre +:+ field k +:+ (field v +:+ concat_s (record_bytes <$> rs) +:+ post)) in *
      by (unfold record_bytes; cbn -[field]; by rewrite !s_app_assoc).
    rewrite read_bytes_app by done. cbn -[field]. unfold from_utf8. rewrite Hu. cbn -[field].
    rewrite <- (s_app_assoc pre) in *. rewrite read_bytes_app by done. cbn -[field].
    rewrite <- (s_app_assoc (pre +:+ field k)) in *. rewrite IH by done. cbn -[field].
    unfold record_bytes at 2. cbn -[field]. by rewrite !s_app_assoc.
Qed.

Lemma decode_deletes_app ds pre post :
  Forall key_ok ds → slen (pre +:+ concat_s (field <$> ds) +:+ post) < u64_mod →
  decode_deletes (length ds) (pre +:+ concat_s (field <$> ds) +:+ post) (slen pre) =
    Some (ds, slen (pre +:+ concat_s (field <$> ds))).
Proof.
  intros Hok. revert pre. induction Hok as [|k ds (Hk & Hu) _ IH]; intros pre Hlen; cbn [length decode_deletes].
  - by rewrite s_app_nil_r.
  - rewrite fmap_cons, concat_s_cons in *. rewrite !(s_app_assoc (field k)) in *.
    rewrite read_bytes_app by done. cbn -[field]. unfold from_utf8. rewrite Hu. cbn -[field].
    rewrite <- (s_app_assoc pre) in *. rewrite IH by done. cbn -[field]. by rewrite !s_app_assoc.
Qed.

Record payload_ok (id : Z) (rs : list (string * string)) (ds : list string) : Prop := {
  po_id : 0 ≤ id < u64_mod;
  po_records : Z.of_nat (length rs) < u32_mod ∧ Forall record_ok rs;
  po_deletes : Z.of_nat (length ds) < u32_mod ∧ Forall key_ok ds;
  po_len : slen (encode_payload id rs ds) < u32_mod
}.

Lemma encode_payload_eq id rs ds :
  encode_payload id rs ds =
  to_le_bytes 8 id +:+ to_le_bytes 4 (Z.of_nat (length rs) mod u32_mod) +:+ concat_s (record_bytes <$> rs) +:+
  to_le_bytes 4 (Z.of_nat (length ds) mod u32_mod) +:+ concat_s (field <$> ds).
Proof.
  unfold encode_payload. rewrite foldl_deletes. unfold write_u32, write_u64. rewrite foldl_records.
  by rewrite !s_app_assoc, s_app_nil_l.
Qed.

(** The same reads, at a position of a byte string given by an equation. *)
Lemma read_u32_at P at_ pre n post :
  P = pre +:+ to_le_bytes 4 n +:+ post → at_ = slen pre → 0 ≤ n < u32_mod → slen P < u64_mod →
  read_u32 P at_ = Some (n, slen (pre +:+ to_le_bytes 4 n)).
Proof.
  intros -> -> Hn HP. rewrite !slen_app, length_to_le_bytes in *. pose proof (slen_nonneg post).
  apply read_u32_app; lia.
Qed.

Lemma decode_records_at P at_ pre rs post :
  P = pre +:+ concat_s (record_bytes <$> rs) +:+ post → at_ = slen pre → Forall record_ok rs → slen P < u64_mod →
  decode_records (length rs) P at_ = Some (rs, slen (pre +:+ concat_s (record_bytes <$> rs))).
Proof. intros -> -> ? ?. by apply decode_records_app. Qed.

Lemma decode_deletes_at P at_ pre ds post :
  P = pre +:+ concat_s (field <$> ds) +:+ post → at_ = slen pre → Forall key_ok ds → slen P < u64_mod →
  decode_deletes (length ds) P at_ = Some (ds, slen (pre +:+ concat_s (field <$> ds))).
Proof. intros -> -> ? ?. by apply decode_deletes_app. Qed.


Lemma read_u64_at P at_ pre n post :
  P = pre +:+ to_le_bytes 8 n +:+ post → at_ = slen pre → 0 ≤ n < u64_mod → slen P < u64_mod →
  read_u64 P at_ = Some (n, slen (pre +:+ to_le_bytes 8 n)).
Proof.
  intros -> -> Hn HP. rewrite !slen_app, length_to_le_bytes in *. pose proof (slen_nonneg post).
  apply read_u64_app; lia.
Qed.

(** Stepping over a [?] by rewriting, so that both sides keep their shape. *)
Lemma bind_some {A B} (x : A) (f : A → option B) : (Some x ≫= f) = f x.
Proof. done. Qed.

Lemma decode_payload_at P id rs ds :
  P = to_le_bytes 8 id +:+ to_le_bytes 4 (Z.of_nat (length rs)) +:+ concat_s (record_bytes <$> rs) +:+
      to_le_bytes 4 (Z.of_nat (length ds)) +:+ concat_s (field <$> ds) →
  slen P < u64_mod → 0 ≤ id < u64_mod → Z.of_nat (length rs) < u32_mod → Z.of_nat (length ds) < u32_mod →
  Forall record_ok rs → Forall key_ok ds → decode_payload P = Some (rs, ds).
Proof.
  intros HP Hlen Hid Hnr Hnd Hr Hd. unfold decode_payload.
  rewrite <- (s_app_nil_l (to_le_bytes 8 id +:+ _)) in HP.
  rewrite (read_u64_at P 0 _ _ _ HP eq_refl) by done. rewrite bind_some.
  rewrite <- s_app_assoc in HP. rewrite (read_u32_at P _ _ _ _ HP eq_refl) by (done || lia). rewrite bind_some.
  rewrite Nat2Z.id.
  rewrite <- s_app_assoc in HP. rewrite (decode_records_at P _ _ _ _ HP eq_refl) by done. rewrite bind_some.
  rewrite <- s_app_assoc in HP. rewrite (read_u32_at P _ _ _ _ HP eq_refl) by (done || lia). rewrite bind_some.
  rewrite Nat2Z.id. rewrite <- s_app_assoc in HP. pose proof HP as HP'. rewrite <- (s_app_nil_r (concat_s (field <$> ds))) in HP'.
  rewrite (decode_deletes_at P _ _ _ _ HP' eq_refl) by done. rewrite bind_some.
  by rewrite HP, Z.eqb_refl.
Qed.

Lemma decode_encode_payload id rs ds :
  payload_ok id rs ds → decode_payload (encode_payload id rs ds) = Some (rs, ds).
Proof.
  intros [Hid [Hnr Hr] [Hnd Hd] Hlen]. apply (decode_payload_at _ id); try done.
  - rewrite encode_payload_eq. by rewrite !Z.mod_small by lia.
  - etrans; [exact Hlen|done].
Qed.

Lemma s_get_at P a b pre x post :
  P = pre +:+ x +:+ post → a = slen pre → b = slen (pre +:+ x) → s_get P a b = Some x.
Proof. intros -> -> ->. apply s_get_mid; [done|]. by rewrite slen_app. Qed.

Lemma checked_add_ok a b : a + b < u64_mod → checked_add a b = Some (a + b).
Proof. intros Hb. by apply checked_add_Some. Qed.

Context `{!PrimitivesLaws}.

Lemma slen_frame payload : slen (frame_from_payload payload) = 36 + slen payload.
Proof. unfold frame_from_payload, write_u32. rewrite !slen_app, length_to_le_bytes, sha256_len. unfold slen; cbn. lia. Qed.

Lemma read_frame_app pre id rs ds post :
  payload_ok id rs ds → slen (pre +:+ frame_from_payload (encode_payload id rs ds) +:+ post) < u64_mod →
  read_frame (pre +:+ frame_from_payload (encode_payload id rs ds) +:+ post) (slen pre) =
    Some (rs, ds, slen (pre +:+ frame_from_payload (encode_payload id rs ds))).
Proof.
  intros Hok Hlen. pose proof (decode_encode_payload id rs ds Hok) as Hdec. destruct Hok as [_ _ _ Hp].
  set (p := encode_payload id rs ds) in *. rewrite !slen_app, slen_frame in Hlen.
  pose proof (slen_nonneg p). pose proof (slen_nonneg post). pose proof (slen_nonneg pre).
  assert (Heq : pre +:+ frame_from_payload p +:+ post = pre +:+ to_le_bytes 4 (slen p) +:+ (sha256 p +:+ p +:+ post)).
  { unfold frame_from_payload, write_u32. by rewrite s_app_nil_l, Z.mod_small, !s_app_assoc by lia. }
  revert Heq. generalize (pre +:+ frame_from_payload p +:+ post) as P. intros P HP.
  assert (HlenP : slen P < u64_mod) by (rewrite HP, !slen_app, length_to_le_bytes, sha256_len; lia).
  unfold read_frame. rewrite (read_u32_at P _ _ _ _ HP eq_refl), bind_some by (done || lia).
  rewrite <- s_app_assoc in HP.
  rewrite (checked_add_ok _ HASH_LEN), bind_some by (rewrite slen_app, length_to_le_bytes; unfold HASH_LEN; lia).
  rewrite checked_add_ok, bind_some by (rewrite slen_app, length_to_le_bytes; unfold HASH_LEN; lia).
  rewrite (s_get_at P _ _ _ _ _ HP eq_refl), bind_some by (by rewrite (slen_app _ (sha256 p)), sha256_len).
  rewrite <- s_app_assoc in HP.
  rewrite (s_get_at P _ _ _ _ _ HP), bind_some by (by rewrite ?(slen_app _ p), ?(slen_app _ (sha256 p)), ?sha256_len).
  rewrite decide_True by done. rewrite Hdec, bind_some. do 2 f_equal.
  rewrite !slen_app, slen_frame, length_to_le_bytes. unfold HASH_LEN. lia.
Qed.

(** A strict prefix of a frame is never read as one, whatever its bytes: no assumption on the
    hash is needed. *)
Lemma read_frame_torn pre p torn rest :
  slen p < u32_mod → frame_from_payload p = torn +:+ rest → rest ≠ EmptyString →
  slen (pre +:+ frame_from_payload p) < u64_mod →
  read_frame (pre +:+ torn) (slen pre) = None.
Proof.
  intros Hp Hf Hne Hlen. pose proof (f_equal slen Hf) as Hl. rewrite slen_frame, slen_app in Hl.
  assert (Hrest : 0 < slen rest) by (destruct rest; [done|]; unfold slen; cbn; lia).
  pose proof (slen_nonneg torn). pose proof (slen_nonneg p). pose proof (slen_nonneg pre).
  rewrite slen_app, slen_frame in Hlen.
  unfold read_frame. destruct (Z.ltb_spec (slen torn) 4) as [Hs|Hs].
  { unfold read_u32. destruct (checked_add (slen pre) 4) eqn:Hc; [|done]. apply checked_add_Some in Hc as [-> _]. cbn.
    rewrite s_get_beyond; [done|]. rewrite slen_app. lia. }
  assert (∃ tl, torn = to_le_bytes 4 (slen p) +:+ tl) as [tl ->].
  { unfold frame_from_payload, write_u32 in Hf. rewrite s_app_nil_l, Z.mod_small in Hf by lia.
    exists (s_drop 4 torn). rewrite <- (s_take_drop 4 torn) in Hf. rewrite s_app_assoc in Hf.
    apply s_app_inj_len in Hf as [Hf _]; [|rewrite length_to_le_bytes, slen_take; [done|unfold slen in Hs; lia]].
    rewrite Hf. by rewrite s_take_drop. }
  rewrite slen_app, length_to_le_bytes in *. rewrite read_u32_app by lia. cbn -[to_le_bytes].
  destruct (checked_add _ HASH_LEN) as [he|] eqn:Hc; [|done]. apply checked_add_Some in Hc as [-> _]. cbn -[to_le_bytes].
  destruct (checked_add _ (slen p)) as [pe|] eqn:Hc; [|done]. apply checked_add_Some in Hc as [-> _]. cbn -[to_le_bytes].
  destruct (s_get _ (slen pre + 4) _); [|done]. cbn -[to_le_bytes].
  rewrite s_get_beyond; [done|]. rewrite !slen_app, length_to_le_bytes. unfold HASH_LEN. lia.
Qed.

(** ** Logs made of frames *)

Definition batch_records (b : FlushBatch) : list (string * string) :=
  (λ r, (RecordKey_str (sr_key r), sr_bytes r)) <$> Persist.records b.
Definition batch_deletes (b : FlushBatch) : list string := RecordKey_str <$> Persist.deletes b.

(** A batch the format can hold: keys are UTF-8 (every Rust string is), and counts, lengths and
    the payload fit the 32-bit fields they are written to. *)
Definition batch_ok (b : FlushBatch) : Prop := payload_ok (batch_id b) (batch_records b) (batch_deletes b).

Definition frames (bs : list FlushBatch) : string := concat_s (encode_batch <$> bs).

Lemma frames_cons b bs : frames (b :: bs) = encode_batch b +:+ frames bs.
Proof. done. Qed.

Lemma frames_app bs cs : frames (bs ++ cs) = frames bs +:+ frames cs.
Proof.
  induction bs as [|b bs IH]; [done|]. by rewrite <- app_comm_cons, !frames_cons, IH, s_app_assoc.
Qed.

Lemma foldl_fmap_gen {A B C} (g : A → B) (f : C → B → C) c l : foldl f c (g <$> l) = foldl (λ c a, f c (g a)) c l.
Proof. revert c; induction l as [|a l IH]; intros c; cbn; auto. Qed.

Lemma apply_frame_batch m b : apply_frame m (batch_records b) (batch_deletes b) = apply_batch m b.
Proof.
  unfold apply_frame, apply_batch, batch_records, batch_deletes. rewrite !foldl_fmap_gen.
  assert (Hw : ∀ rs m, foldl (λ m r, <[mkRecordKey (RecordKey_str (sr_key r)) := sr_bytes r]> m) m rs = foldl write_record m rs).
  { intros rs. induction rs as [|[[k] v] rs IH]; intros m'; cbn; [done|]. apply IH. }
  assert (Hd : ∀ ds m, foldl (λ m k, delete (mkRecordKey (RecordKey_str k)) m) m ds = foldl delete_key m ds).
  { intros ds. induction ds as [|[k] ds IH]; intros m'; cbn; [done|]. apply IH. }
  by rewrite <- Hw, <- Hd.
Qed.

Lemma encode_batch_eq b : encode_batch b = frame_from_payload (encode_payload (batch_id b) (batch_records b) (batch_deletes b)).
Proof. done. Qed.

Lemma replay_loop_frames bs fuel pre post m :
  Forall batch_ok bs → slen (pre +:+ frames bs +:+ post) < u64_mod →
  read_frame (pre +:+ frames bs +:+ post) (slen (pre +:+ frames bs)) = None → (length bs < fuel)%nat →
  replay_loop fuel (pre +:+ frames bs +:+ post) m (slen pre) = Some (apply_batches m bs, slen (pre +:+ frames bs)).
Proof.
  intros Hok. revert fuel pre m. induction Hok as [|b bs Hb _ IH]; intros [|fuel] pre m Hlen Hend Hf; try (cbn in Hf; lia).
  - cbn [replay_loop]. change (frames []) with EmptyString in *. rewrite s_app_nil_r in *. by rewrite Hend.
  - cbn [replay_loop]. rewrite frames_cons, s_app_assoc, encode_batch_eq in *. rewrite read_frame_app by done.
    rewrite apply_frame_batch. rewrite <- !(s_app_assoc pre) in *. rewrite IH; [|done|done|cbn in Hf; lia].
    done.
Qed.

(** Nothing after the last frame, or a strict prefix of another. *)
Lemma read_frame_end pre torn :
  (∃ b rest, batch_ok b ∧ encode_batch b = torn +:+ rest ∧ rest ≠ EmptyString ∧
     slen (pre +:+ encode_batch b) < u64_mod) →
  read_frame (pre +:+ torn) (slen pre) = None.
Proof.
  intros (b & rest & Hb & Heq & Hne & Hlen). destruct Hb as [_ _ _ Hp].
  by eapply read_frame_torn.
Qed.

Lemma length_frames bs : (length bs ≤ String.length (frames bs))%nat.
Proof.
  induction bs as [|b bs IH]; [cbn; lia|]. rewrite frames_cons.
  pose proof (slen_app (encode_batch b) (frames bs)) as Hl.
  pose proof (slen_frame (encode_payload (batch_id b) (batch_records b) (batch_deletes b))) as Hb.
  rewrite <- encode_batch_eq in Hb. unfold slen in *. cbn [length]. lia.
Qed.


Lemma replay_frames_torn bs torn :
  Forall batch_ok bs → slen (frames bs +:+ torn) < u64_mod →
  read_frame (frames bs +:+ torn) (slen (frames bs)) = None →
  replay (frames bs +:+ torn) = Some (apply_batches ∅ bs, slen (frames bs)).
Proof.
  intros Hok Hlen Hend. unfold replay.
  pose proof (replay_loop_frames bs (S (String.length (frames bs +:+ torn))) EmptyString torn ∅ Hok) as Hr.
  rewrite !s_app_nil_l in Hr. apply Hr; [done|done|].
  pose proof (length_frames bs). pose proof (slen_app (frames bs) torn) as Hl. unfold slen in Hl. lia.
Qed.

(** ** Prefixes *)

Lemma s_get_prefix p q a b : b ≤ slen p → s_get (p +:+ q) a b = s_get p a b.
Proof.
  intros Hb. unfold s_get. rewrite slen_app. pose proof (slen_nonneg q).
  destruct (Z.leb_spec b (slen p + slen q)), (Z.leb_spec b (slen p)); try lia.
  destruct (Z.leb_spec 0 a), (Z.leb_spec a b); try done. cbn. f_equal.
  assert (Hd : ∀ n s, (n ≤ String.length s)%nat → s_drop n (s +:+ q) = s_drop n s +:+ q).
  { intros n; induction n as [|n IH]; intros [|x s] Hn; cbn in Hn; try done; try lia.
    rewrite s_app_cons. cbn [s_drop]. apply IH. lia. }
  assert (Ht : ∀ n s, (n ≤ String.length s)%nat → s_take n (s +:+ q) = s_take n s).
  { intros n; induction n as [|n IH]; intros [|x s] Hn; cbn in Hn; try lia.
    { by destruct q. } { by destruct q. }
    rewrite s_app_cons. cbn [s_take]. f_equal. apply IH. lia. }
  rewrite Hd by (unfold slen in *; lia). apply Ht.
  pose proof (s_take_drop (Z.to_nat a) p) as Hs. apply (f_equal slen) in Hs. rewrite slen_app, slen_take in Hs by (unfold slen in *; lia).
  unfold slen in *. lia.
Qed.

Lemma read_u32_prefix p q a n e : read_u32 (p +:+ q) a = Some (n, e) → e ≤ slen p → read_u32 p a = Some (n, e).
Proof.
  unfold read_u32. destruct (checked_add a 4) as [e'|]; [|done]. cbn -[s_get].
  destruct (s_get (p +:+ q) a e') as [sl|] eqn:Hg; [|done]. cbn. intros [= <- <-] He.
  rewrite s_get_prefix in Hg by done. by rewrite Hg.
Qed.

Lemma read_frame_prefix p q pos rs ds e :
  read_frame (p +:+ q) pos = Some (rs, ds, e) → e ≤ slen p → read_frame p pos = Some (rs, ds, e).
Proof.
  unfold read_frame. destruct (read_u32 (p +:+ q) pos) as [[len hdr]|] eqn:Hr; [|done]. rewrite bind_some.
  destruct (checked_add hdr HASH_LEN) as [he|] eqn:Hh; [|done]. rewrite bind_some.
  destruct (checked_add he len) as [pe|] eqn:Hp; [|done]. rewrite bind_some.
  destruct (s_get (p +:+ q) hdr he) as [hash|] eqn:Hg1; [|done]. rewrite bind_some.
  destruct (s_get (p +:+ q) he pe) as [payload|] eqn:Hg2; [|done]. rewrite bind_some.
  case_decide; [|done]. destruct (decode_payload payload) as [[rs' ds']|] eqn:Hd; [|done]. rewrite bind_some.
  intros [= <- <- <-] He. pose proof (s_get_Some _ _ _ _ Hg1). pose proof (s_get_Some _ _ _ _ Hg2).
  erewrite read_u32_prefix by (done || lia). rewrite bind_some, Hh, bind_some, Hp, bind_some.
  rewrite s_get_prefix in Hg1, Hg2 by lia. rewrite Hg1, bind_some, Hg2, bind_some, decide_True by done. by rewrite Hd.
Qed.

Lemma replay_loop_mono fuel bytes m pos m' n : replay_loop fuel bytes m pos = Some (m', n) → pos ≤ n.
Proof.
  revert m pos; induction fuel as [|fuel IH]; intros m pos; cbn; [done|].
  destruct (read_frame bytes pos) as [[[rs ds] e]|] eqn:Hr; [|intros [= _ ->]; done].
  apply read_frame_bounds in Hr. intros ?%IH. lia.
Qed.

Lemma replay_loop_prefix fuel p q m pos m' :
  replay_loop fuel (p +:+ q) m pos = Some (m', slen p) → replay_loop fuel p m pos = Some (m', slen p).
Proof.
  revert m pos; induction fuel as [|fuel IH]; intros m pos; cbn; [done|].
  destruct (read_frame (p +:+ q) pos) as [[[rs ds] e]|] eqn:Hr.
  - intros Hl. pose proof (replay_loop_mono _ _ _ _ _ _ Hl). erewrite read_frame_prefix by (done || lia). auto.
  - intros [= <- ->]. destruct (read_frame p (slen p)) as [[[rs ds] e]|] eqn:Hr'; [|done].
    apply read_frame_bounds in Hr'. lia.
Qed.

Lemma replay_total bytes : ∃ m n, replay bytes = Some (m, n) ∧ 0 ≤ n ≤ slen bytes.
Proof.
  unfold replay. pose proof (slen_nonneg bytes).
  destruct (replay_loop_total (S (String.length bytes)) bytes ∅ 0) as (m & n & Hr & Hb); [lia|unfold slen in *; lia|]. eauto.
Qed.

(** ** Snapshots *)

Definition snapshot_batch (m : gmap RecordKey string) : FlushBatch :=
  mkFlushBatch 0 ((λ '(k, v), mkSealedRecord k v) <$> btree_entries RecordKey_str m) [].

Lemma encode_snapshot_batch m : encode_snapshot m = encode_batch (snapshot_batch m).
Proof.
  unfold encode_snapshot, encode_batch. do 2 f_equal. cbn. rewrite <- list_fmap_compose.
  apply list_fmap_ext. intros i [k v] _. done.
Qed.

Lemma apply_snapshot_batch m : apply_batch ∅ (snapshot_batch m) = m.
Proof.
  apply map_eq. intros k. unfold apply_batch. cbn.
  assert (Hkeys : sr_key <$> ((λ '(k, v), mkSealedRecord k v) <$> btree_entries RecordKey_str m)
                  = (btree_entries RecordKey_str m).*1).
  { rewrite <- list_fmap_compose. apply list_fmap_ext. intros i [? ?] _. done. }
  destruct (foldl_write_lookup ((λ '(k, v), mkSealedRecord k v) <$> btree_entries RecordKey_str m) ∅ k) as [Hin Hout].
  { rewrite Hkeys. apply btree_entries_NoDup. }
  destruct (m !! k) as [v|] eqn:Hk.
  - apply Hin. apply list_elem_of_fmap. exists (k, v). split; [done|]. by apply elem_of_btree_entries.
  - rewrite Hout; [apply lookup_empty|]. rewrite Hkeys. intros ([k' v] & -> & Hv)%list_elem_of_fmap.
    apply elem_of_btree_entries in Hv. cbn in Hk. congruence.
Qed.

(** ** Theorems *)

Lemma replay_torn bs b torn rest :
  Forall batch_ok bs → batch_ok b → encode_batch b = torn +:+ rest → rest ≠ EmptyString →
  slen (frames bs +:+ encode_batch b) < u64_mod →
  replay (frames bs +:+ torn) = Some (apply_batches ∅ bs, slen (frames bs)).
Proof.
  intros Hok Hb Heq Hne Hlen. apply replay_frames_torn; [done| |].
  - rewrite Heq, !slen_app in Hlen. rewrite slen_app. pose proof (slen_nonneg rest). lia.
  - apply read_frame_end. eauto 8.
Qed.

(** C33: crash recovery: a log of complete frames followed by any strict prefix of one more frame
    (a write cut short by a crash) replays to exactly the complete frames' batches applied in
    order, and the reported valid length is exactly theirs; nothing is assumed of the hash. *)
Theorem replay_survives_torn_tail bs b torn rest :
  Forall batch_ok bs → batch_ok b → encode_batch b = torn +:+ rest → rest ≠ EmptyString →
  slen (frames bs +:+ encode_batch b) < u64_mod →
  replay (frames bs +:+ torn) = Some (apply_batches ∅ bs, slen (frames bs)).
Proof. apply replay_torn. Qed.

(** A log of complete frames. *)
Lemma replay_frames bs : Forall batch_ok bs → slen (frames bs) < u64_mod →
  replay (frames bs) = Some (apply_batches ∅ bs, slen (frames bs)).
Proof.
  intros Hok Hlen. rewrite <- (s_app_nil_r (frames bs)) at 1. apply replay_frames_torn; rewrite ?s_app_nil_r; [done..|].
  destruct (read_frame (frames bs) (slen (frames bs))) as [[[rs ds] e]|] eqn:Hr; [|done].
  apply read_frame_bounds in Hr. lia.
Qed.

(** Compaction is faithful: a snapshot of the record set followed by the batches logged since
    replays to those batches applied to that record set, and every byte counts as valid. *)
Theorem replay_of_snapshot_and_log m bs :
  batch_ok (snapshot_batch m) → Forall batch_ok bs → slen (encode_snapshot m +:+ frames bs) < u64_mod →
  replay (encode_snapshot m +:+ frames bs) = Some (apply_batches m bs, slen (encode_snapshot m +:+ frames bs)).
Proof.
  rewrite encode_snapshot_batch, <- frames_cons. intros Hm Hbs Hlen.
  rewrite replay_frames by (done || by constructor).
  change (apply_batches ∅ (snapshot_batch m :: bs)) with (apply_batches (apply_batch ∅ (snapshot_batch m)) bs).
  by rewrite apply_snapshot_batch.
Qed.

(** On any bytes whatever [replay] returns, and cutting the log to the length it reports loses
    nothing: the shortened log replays to the same records and is valid to its end. *)
Theorem truncating_to_valid_length_is_lossless bytes :
  ∃ m n, replay bytes = Some (m, n) ∧ 0 ≤ n ≤ slen bytes ∧
    replay (s_take (Z.to_nat n) bytes) = Some (m, n).
Proof.
  destruct (replay_total bytes) as (m & n & Hr & Hn). exists m, n. split_and!; [done|lia..|].
  set (p := s_take (Z.to_nat n) bytes). set (q := s_drop (Z.to_nat n) bytes).
  assert (Hpq : bytes = p +:+ q) by (symmetry; apply s_take_drop).
  assert (Hp : slen p = n) by (unfold p; rewrite slen_take; [lia|unfold slen in *; lia]).
  unfold replay in Hr. rewrite Hpq, <- Hp in Hr. apply replay_loop_prefix in Hr.
  destruct (replay_total p) as (m' & n' & Hr' & _).
  pose proof Hr' as Hr2. unfold replay in Hr2. eapply replay_loop_fuel in Hr2; [rewrite Hr2 in Hr|].
  - rewrite Hr'. by rewrite Hr, Hp.
  - pose proof (slen_app p q) as Hl. unfold slen in Hl. lia.
Qed.
End Codec.

(** ** Appending a frame *)

Record IoError := mkIoError { io_error : string }.

(** [trait LogSink]: the append-only file, as its caller sees it. *)
Class LogSink (S : Type) := {
  byte_len : S → S * result Z IoError;
  append_synced : S → string → S * result unit IoError;
  truncate : S → Z → S * result unit IoError
}.

Definition append_frame {S} `{LogSink S} (sink : S) (frame : string) : S * result unit IoError :=
  let '(sink, prev_len) := byte_len sink in
  try? prev_len := prev_len on sink in
  let '(sink, first) := append_synced sink frame in
  if is_ok first then (sink, Ok tt)
  else
    let '(sink, cut) := truncate sink prev_len in
    try? _ := cut on sink in
    let '(sink, second) := append_synced sink frame in
    match second with
    | Ok _ => (sink, Ok tt)
    | Err error =>
        let '(sink, _) := truncate sink prev_len in
        (sink, Err error)
    end.

(** What the trait's documentation promises of a file with contents [contents s]: a failed append
    may have written any prefix, a failed cut may have cut less. *)
Class LogSinkLaws (S : Type) `{LogSink S} (contents : S → string) : Prop := {
  byte_len_spec s s' r : byte_len s = (s', r) →
    contents s' = contents s ∧ ∀ n, r = Ok n → n = slen (contents s);
  append_synced_spec s bytes s' r : append_synced s bytes = (s', r) →
    (r = Ok tt ∧ contents s' = contents s +:+ bytes) ∨
    (is_ok r = false ∧ ∃ p rest, bytes = p +:+ rest ∧ contents s' = contents s +:+ p);
  truncate_spec s n s' r : truncate s n = (s', r) → 0 ≤ n ≤ slen (contents s) →
    (r = Ok tt ∧ contents s' = s_take (Z.to_nat n) (contents s)) ∨
    (is_ok r = false ∧ ∃ k, n ≤ k ∧ contents s' = s_take (Z.to_nat k) (contents s))
}.

Section Append.
Context {S : Type} `{LogSink S} (contents : S → string) `{!LogSinkLaws S contents}.

Lemma take_of_app log p k :
  slen log ≤ k → ∃ p' rest, p = p' +:+ rest ∧ s_take (Z.to_nat k) (log +:+ p) = log +:+ p'.
Proof.
  intros Hk. exists (s_take (Z.to_nat k - String.length log) p), (s_drop (Z.to_nat k - String.length log) p).
  split; [by rewrite s_take_drop|].
  assert (Hle : (String.length log ≤ Z.to_nat k)%nat) by (unfold slen in Hk; lia). clear Hk.
  revert Hle. generalize (Z.to_nat k) as n. induction log as [|a log IH]; intros n Hle.
  - rewrite !s_app_nil_l. cbn [String.length]. by rewrite Nat.sub_0_r.
  - destruct n as [|n]; cbn [String.length] in *; [lia|]. rewrite !s_app_cons. cbn [s_take]. f_equal. apply IH. lia.
Qed.

Lemma take_exact log p : s_take (Z.to_nat (slen log)) (log +:+ p) = log.
Proof. unfold slen. rewrite Nat2Z.id. apply s_take_app. Qed.

Lemma append_frame_contents s frame s' r :
  append_frame s frame = (s', r) →
  (r = Ok tt ∧ contents s' = contents s +:+ frame) ∨
  (is_ok r = false ∧ ∃ p rest, frame = p +:+ rest ∧ contents s' = contents s +:+ p).
Proof.
  unfold append_frame. destruct (byte_len s) as [s1 r1] eqn:H1.
  apply byte_len_spec in H1 as [Hc1 Hn]. destruct r1 as [n|e];
    [|intros [= <- <-]; right; split; [done|]; exists EmptyString, frame; by rewrite s_app_nil_r, s_app_nil_l].
  rewrite (Hn n eq_refl). clear Hn.
  destruct (append_synced s1 frame) as [s2 r2] eqn:H2. apply append_synced_spec in H2.
  rewrite Hc1 in H2. destruct H2 as [[-> Hc2]|[Hr2 (p & rest & Hfr & Hc2)]]; [intros [= <- <-]; by left|].
  rewrite Hr2. destruct (truncate s2 (slen (contents s))) as [s3 r3] eqn:H3.
  assert (Hpre : ∀ q, 0 ≤ slen (contents s) ≤ slen (contents s +:+ q)).
  { intros q. rewrite slen_app. pose proof (slen_nonneg q). pose proof (slen_nonneg (contents s)). lia. }
  apply truncate_spec in H3; [|by rewrite Hc2]. rewrite Hc2 in H3.
  destruct H3 as [[-> Hc3]|[Hr3 (k & Hk & Hc3)]].
  - rewrite take_exact in Hc3. destruct (append_synced s3 frame) as [s4 r4] eqn:H4.
    apply append_synced_spec in H4. rewrite Hc3 in H4.
    destruct H4 as [[-> Hc4]|[Hr4 (p' & rest' & Hfr' & Hc4)]]; [intros [= <- <-]; by left|].
    destruct r4 as [|e]; [done|]. destruct (truncate s4 (slen (contents s))) as [s5 r5] eqn:H5.
    apply truncate_spec in H5; [|by rewrite Hc4]. intros [= <- <-]. right. split; [done|].
    rewrite Hc4 in H5. destruct H5 as [[_ Hc5]|[_ (k & Hk & Hc5)]].
    + rewrite take_exact in Hc5. exists EmptyString, frame. by rewrite s_app_nil_r, s_app_nil_l.
    + destruct (take_of_app (contents s) p' k Hk) as (q & rest0 & Hq & Ht). rewrite Ht in Hc5.
      exists q, (rest0 +:+ rest'). by rewrite <- s_app_assoc, <- Hq.
  - destruct r3 as [|e]; [done|]. intros [= <- <-]. right. split; [done|].
    destruct (take_of_app (contents s) p k Hk) as (q & rest0 & Hq & Ht). rewrite Ht in Hc3.
    exists q, (rest0 +:+ rest). by rewrite <- s_app_assoc, <- Hq.
Qed.

(** No torn frame in front of another: appending a batch to a log of complete frames either
    succeeds and the log then replays with that batch added, or fails and the log replays to the
    old batches with at most that one added; no earlier batch is ever lost. *)
Theorem append_frame_keeps_log_replayable `{Primitives, !PrimitivesLaws} s bs b s' r :
  contents s = frames bs → Forall batch_ok bs → batch_ok b → slen (frames bs +:+ encode_batch b) < u64_mod →
  append_frame s (encode_batch b) = (s', r) →
  (r = Ok tt ∧ replay (contents s') = Some (apply_batches ∅ (bs ++ [b]), slen (frames (bs ++ [b])))) ∨
  (is_ok r = false ∧
   (replay (contents s') = Some (apply_batches ∅ bs, slen (frames bs)) ∨
    replay (contents s') = Some (apply_batches ∅ (bs ++ [b]), slen (frames (bs ++ [b]))))).
Proof.
  intros Hc Hbs Hb Hlen Happ. apply append_frame_contents in Happ. rewrite Hc in Happ.
  assert (Hfull : replay (frames bs +:+ encode_batch b) = Some (apply_batches ∅ (bs ++ [b]), slen (frames (bs ++ [b])))).
  { assert (Heq : frames bs +:+ encode_batch b = frames (bs ++ [b])).
    { rewrite frames_app. f_equal. rewrite frames_cons. by rewrite s_app_nil_r. }
    rewrite Heq in *. apply replay_frames; [|done]. apply Forall_app. split; [done|]. by apply Forall_singleton. }
  destruct Happ as [[-> ->]|[Hr (p & rest & Hp & ->)]]; [by left|right]. split; [done|].
  destruct (decide (rest = EmptyString)) as [->|Hne].
  - right. rewrite s_app_nil_r in Hp. by rewrite <- Hp.
  - left. by eapply replay_torn.
Qed.
End Append.

(** ** Witnesses *)

Module LogWitnesses.
Import ConcretePrimitives.

Definition b0 : FlushBatch := mkFlushBatch 0 [mkSealedRecord (mkRecordKey "a") "1"] [].
Definition b1 : FlushBatch := mkFlushBatch 1 [mkSealedRecord (mkRecordKey "b") "22"] [mkRecordKey "a"].

Lemma small_batch_ok b :
  bool_decide (0 ≤ batch_id b < u64_mod) &&
  (Z.of_nat (length (batch_records b)) <? u32_mod) &&
  forallb (λ kv, (slen kv.1 <? u32_mod) && (slen kv.2 <? u32_mod) && utf8_valid kv.1) (batch_records b) &&
  (Z.of_nat (length (batch_deletes b)) <? u32_mod) &&
  forallb (λ k, (slen k <? u32_mod) && utf8_valid k) (batch_deletes b) &&
  (slen (encode_payload (batch_id b) (batch_records b) (batch_deletes b)) <? u32_mod) = true →
  batch_ok b.
Proof.
  intros Hb. boolify. split; [done| | |done].
  - split; [done|]. apply Forall_forall. intros kv Hkv%list_elem_of_In.
    match goal with Hf : forallb _ (batch_records b) = true |- _ => rewrite forallb_forall in Hf; apply Hf in Hkv end.
    boolify. by repeat split.
  - split; [done|]. apply Forall_forall. intros k Hk%list_elem_of_In.
    match goal with Hf : forallb _ (batch_deletes b) = true |- _ => rewrite forallb_forall in Hf; apply Hf in Hk end.
    boolify. by repeat split.
Qed.

Lemma b0_ok : batch_ok b0.
Proof. apply small_batch_ok. vm_compute. done. Qed.
Lemma b1_ok : batch_ok b1.
Proof. apply small_batch_ok. vm_compute. done. Qed.

Lemma replay_survives_torn_tail_witness :
  replay (frames [b0] +:+ s_take 40 (encode_batch b1)) = Some (apply_batches ∅ [b0], slen (frames [b0])).
Proof.
  apply (replay_survives_torn_tail [b0] b1 (s_take 40 (encode_batch b1)) (s_drop 40 (encode_batch b1))).
  - constructor; [apply b0_ok|constructor].
  - apply b1_ok.
  - symmetry. apply s_take_drop.
  - vm_compute. discriminate.
  - vm_compute. reflexivity.
Defined.

Definition m0 : gmap RecordKey string := {[mkRecordKey "z" := "9"]}.

Lemma replay_of_snapshot_and_log_witness :
  replay (encode_snapshot m0 +:+ frames [b0; b1]) = Some (apply_batches m0 [b0; b1], slen (encode_snapshot m0 +:+ frames [b0; b1])).
Proof.
  apply (replay_of_snapshot_and_log m0 [b0; b1]).
  - apply small_batch_ok. vm_compute. reflexivity.
  - apply Forall_cons; split; [apply b0_ok|]. apply Forall_cons; split; [apply b1_ok|constructor].
  - vm_compute. reflexivity.
Defined.

(** A file in memory whose next appends fail after the given numbers of bytes. *)
Record FaultySink := mkFaultySink { data : string; faults : list nat }.

#[local] Instance FaultySink_LogSink : LogSink FaultySink := {|
  byte_len s := (s, Ok (slen (data s)));
  append_synced s bytes :=
    match faults s with
    | [] => (mkFaultySink (data s +:+ bytes) [], Ok tt)
    | k :: faults => (mkFaultySink (data s +:+ s_take k bytes) faults, Err (mkIoError "disk full"))
    end;
  truncate s n := (mkFaultySink (s_take (Z.to_nat n) (data s)) (faults s), Ok tt)
|}.

#[local] Instance FaultySink_laws : LogSinkLaws FaultySink data.
Proof.
  split.
  - intros s s' r [= <- <-]. split; [done|]. by intros n [= <-].
  - intros s bytes s' r. cbn. destruct (faults s) as [|k fs]; intros [= <- <-]; [by left|right].
    split; [done|]. exists (s_take k bytes), (s_drop k bytes). by rewrite s_take_drop.
  - intros s n s' r [= <- <-] _. by left.
Qed.

Definition sink0 : FaultySink := mkFaultySink (frames [b0]) [17%nat].

Lemma append_frame_keeps_log_replayable_witness :
  replay (data (append_frame sink0 (encode_batch b1)).1) =
    Some (apply_batches ∅ [b0; b1], slen (frames [b0; b1])).
Proof.
  destruct (append_frame_keeps_log_replayable data sink0 [b0] b1 (append_frame sink0 (encode_batch b1)).1
              (append_frame sink0 (encode_batch b1)).2) as [[_ Hr]|[Hr _]].
  - reflexivity.
  - constructor; [apply b0_ok|constructor].
  - apply b1_ok.
  - vm_compute. reflexivity.
  - apply surjective_pairing.
  - exact Hr.
  - vm_compute in Hr. discriminate Hr.
Defined.
End LogWitnesses.
