(* ===== verification/Ids.v ===== *)
(** * Matrix identifiers (crates/mail4agent-messenger/src/ids.rs, wire/requests.rs)

    The parsed ids ([UserId], [RoomId], [EventId], [DeviceId]) and the two minted ones ([TxnId],
    [RequestId]). The theorems: what an accepted user or room id looks like, and that minted ids
    are ordered as the counter they are minted from and give it back. The path encoding of
    record keys and requests, with its round trip, is at the end. *)

From S2P Require Import Prelude.
From Stdlib Require Import Ascii.

Local Open Scope Z_scope.

(** [MessengerError::InvalidId] *)
Record InvalidId := mkInvalidId { ii_kind : string; ii_value : string; ii_reason : string }.

(** [char::is_whitespace]: the Unicode property White_Space. *)
Definition is_whitespace (c : Z) : bool :=
  ((9 <=? c) && (c <=? 13)) || (c =? 32) || (c =? 133) || (c =? 160) || (c =? 5760) ||
  ((8192 <=? c) && (c <=? 8202)) || (c =? 8232) || (c =? 8233) || (c =? 8239) || (c =? 8287) || (c =? 12288).

Definition any_whitespace (s : string) : bool := existsb is_whitespace (chars s).

Definition split_sigil_id (kind value : string) (sigil : ascii) : result (string * string) InvalidId :=
  let invalid reason := mkInvalidId kind value reason in
  match strip_prefix (String sigil EmptyString) value with
  | None => Err (invalid ("must start with '" +:+ String sigil "'"))
  | Some rest =>
      match split_once ":" rest with
      | None => Err (invalid "missing ':' separating localpart and server name")
      | Some (localpart, server) =>
          if s_is_empty localpart then Err (invalid "localpart must not be empty")
          else if s_is_empty server then Err (invalid "server name must not be empty")
          else if any_whitespace localpart || any_whitespace server
          then Err (invalid "must not contain whitespace")
          else Ok (localpart, server)
      end
  end.

Record UserId := mkUserId { UserId_str : string }.
Record RoomId := mkRoomId { RoomId_str : string }.
Record EventId := mkEventId { EventId_str : string }.
Record DeviceId := mkDeviceId { DeviceId_str : string }.
Record TxnId := mkTxnId { TxnId_str : string }.
Record RequestId := mkRequestId { RequestId_str : string }.

#[export] Instance UserId_eq_dec : EqDecision UserId.
Proof. solve_decision. Defined.
#[export] Instance RoomId_eq_dec : EqDecision RoomId.
Proof. solve_decision. Defined.
#[export] Instance EventId_eq_dec : EqDecision EventId.
Proof. solve_decision. Defined.
#[export] Instance DeviceId_eq_dec : EqDecision DeviceId.
Proof. solve_decision. Defined.
#[export] Instance RequestId_eq_dec : EqDecision RequestId.
Proof. solve_decision. Defined.
#[export] Instance UserId_countable : Countable UserId.
Proof. by apply (inj_countable' UserId_str mkUserId); intros []. Defined.
#[export] Instance RoomId_countable : Countable RoomId.
Proof. by apply (inj_countable' RoomId_str mkRoomId); intros []. Defined.
#[export] Instance EventId_countable : Countable EventId.
Proof. by apply (inj_countable' EventId_str mkEventId); intros []. Defined.
#[export] Instance DeviceId_countable : Countable DeviceId.
Proof. by apply (inj_countable' DeviceId_str mkDeviceId); intros []. Defined.
#[export] Instance RequestId_countable : Countable RequestId.
Proof. by apply (inj_countable' RequestId_str mkRequestId); intros []. Defined.

Definition UserId_parse (value : string) : result UserId InvalidId :=
  let? _ := split_sigil_id "UserId" value "@" in Ok (mkUserId value).

Definition RoomId_parse (value : string) : result RoomId InvalidId :=
  let? _ := split_sigil_id "RoomId" value "!" in Ok (mkRoomId value).

Definition EventId_parse (value : string) : result EventId InvalidId :=
  match strip_prefix "$" value with
  | None => Err (mkInvalidId "EventId" value "must start with '$'")
  | Some opaque =>
      if s_is_empty opaque || any_whitespace opaque
      then Err (mkInvalidId "EventId" value "opaque part must be non-empty and contain no whitespace")
      else Ok (mkEventId value)
  end.

Definition DeviceId_parse (value : string) : result DeviceId InvalidId :=
  if s_is_empty value || any_whitespace value
  then Err (mkInvalidId "DeviceId" value "must be non-empty and contain no whitespace")
  else Ok (mkDeviceId value).

(** ** Minted ids *)

(** One digit of the [{:x}] format. *)
Definition hex_digit (d : Z) : ascii := ascii_of_N (Z.to_N (if d <? 10 then 48 + d else 87 + d)).

(** [format!("{n:0kx}")] for [n < 16^k]. *)
Fixpoint hex_fixed (k : nat) (n : Z) : string :=
  match k with
  | O => EmptyString
  | S k => String (hex_digit (n / 16 ^ Z.of_nat k mod 16)) (hex_fixed k n)
  end.

(** [char::to_digit(16)] *)
Definition to_digit16 (a : ascii) : option Z :=
  let x := bval a in
  if (48 <=? x) && (x <=? 57) then Some (x - 48)
  else if (97 <=? x) && (x <=? 102) then Some (x - 87)
  else if (65 <=? x) && (x <=? 70) then Some (x - 55)
  else None.

(** The digits of [u64::from_str_radix(_, 16)]: checked multiply and add. *)
Fixpoint parse_hex (s : string) (acc : Z) : option Z :=
  match s with
  | EmptyString => Some acc
  | String a s =>
      match to_digit16 a with
      | Some d => if acc * 16 + d <? u64_mod then parse_hex s (acc * 16 + d) else None
      | None => None
      end
  end.

(** [u64::from_str_radix(hex, 16).ok()]: a leading plus sign is accepted. *)
Definition from_str_radix16 (s : string) : option Z :=
  match s with
  | EmptyString => None
  | String a rest =>
      if Ascii.eqb a "+" then match rest with EmptyString => None | _ => parse_hex rest 0 end
      else parse_hex s 0
  end.

Definition TxnId_new (seed : Z) : TxnId := mkTxnId ("m.txn." +:+ hex_fixed 16 seed).
Definition TxnId_as_seed (id : TxnId) : option Z :=
  hex ← strip_prefix "m.txn." (TxnId_str id); from_str_radix16 hex.

Definition RequestId_next (seed : Z) : RequestId := mkRequestId ("req." +:+ hex_fixed 16 seed).
Definition RequestId_as_seed (id : RequestId) : option Z :=
  hex ← strip_prefix "req." (RequestId_str id); from_str_radix16 hex.

(** [derive(Ord)] on the newtype: byte order of the text. *)
Definition RequestId_le (a b : RequestId) : Prop := String.le (RequestId_str a) (RequestId_str b).
#[export] Instance RequestId_le_dec a b : Decision (RequestId_le a b).
Proof. unfold RequestId_le. apply _. Defined.
#[export] Instance RequestId_le_trans : Transitive RequestId_le.
Proof. intros a b c. unfold RequestId_le. by etrans. Qed.
#[export] Instance RequestId_le_total : Total RequestId_le.
Proof. intros a b. apply (total String.le). Qed.

(** ** Facts *)

Lemma hex_digit_table :
  forallb (λ d, bool_decide (to_digit16 (hex_digit d) = Some d) && negb (Ascii.eqb (hex_digit d) "+") &&
     forallb (λ e, bool_decide (Ascii.compare (hex_digit d) (hex_digit e) = (d ?= e))) (Z.of_nat <$> seq 0 16))
    (Z.of_nat <$> seq 0 16) = true.
Proof. vm_compute. done. Qed.

Lemma hex_digit_facts d : 0 ≤ d < 16 →
  to_digit16 (hex_digit d) = Some d ∧ hex_digit d ≠ "+"%char ∧
  ∀ e, 0 ≤ e < 16 → Ascii.compare (hex_digit d) (hex_digit e) = (d ?= e).
Proof.
  intros Hd. assert (Hin : ∀ e, 0 ≤ e < 16 → In e (Z.of_nat <$> seq 0 16)).
  { intros e He. apply list_elem_of_In, list_elem_of_fmap. exists (Z.to_nat e). split; [lia|].
    apply elem_of_seq. lia. }
  pose proof hex_digit_table as Ht. rewrite forallb_forall in Ht. specialize (Ht d (Hin d Hd)). boolify.
  split_and!; [done|by intros Heq; rewrite Heq in *|]. intros e He.
  match goal with Hf : forallb _ _ = true |- _ => rewrite forallb_forall in Hf; specialize (Hf e (Hin e He)) end.
  by boolify.
Qed.

(** A number below 16^(k+1), as its top digit and the rest. *)
Lemma digit_split k n :
  n mod 16 ^ Z.of_nat (S k) = n mod 16 ^ Z.of_nat k + 16 ^ Z.of_nat k * (n / 16 ^ Z.of_nat k mod 16) ∧
  0 ≤ n mod 16 ^ Z.of_nat k < 16 ^ Z.of_nat k ∧ 0 ≤ n / 16 ^ Z.of_nat k mod 16 < 16.
Proof.
  assert (0 < 16 ^ Z.of_nat k) by (apply Z.pow_pos_nonneg; lia).
  rewrite Nat2Z.inj_succ, Z.pow_succ_r, Z.mul_comm by lia. rewrite Z.rem_mul_r by lia.
  split; [lia|]. split; apply Z.mod_pos_bound; lia.
Qed.

(** Fixed-width hex compares as the numbers do. *)
Lemma hex_fixed_compare k n m :
  String.compare (hex_fixed k n) (hex_fixed k m) = (n mod 16 ^ Z.of_nat k ?= m mod 16 ^ Z.of_nat k).
Proof.
  induction k as [|k IH]; [by rewrite !Z.mod_1_r|]. cbn [hex_fixed String.compare].
  destruct (digit_split k n) as (-> & Hn & Hdn), (digit_split k m) as (-> & Hm & Hdm).
  destruct (hex_digit_facts _ Hdn) as (_ & _ & Hcmp). rewrite Hcmp, IH by done. clear Hcmp.
  generalize dependent (n / 16 ^ Z.of_nat k mod 16). generalize dependent (m / 16 ^ Z.of_nat k mod 16).
  intros dm Hdm dn Hdn. symmetry. destruct (Z.compare_spec dn dm).
  - subst. destruct (Z.compare_spec (n mod 16 ^ Z.of_nat k) (m mod 16 ^ Z.of_nat k));
      [apply Z.compare_eq_iff|apply Z.compare_lt_iff|apply Z.compare_gt_iff]; lia.
  - apply Z.compare_lt_iff. nia.
  - apply Z.compare_gt_iff. nia.
Qed.

Lemma parse_hex_fixed k n acc :
  0 ≤ acc → acc * 16 ^ Z.of_nat k + n mod 16 ^ Z.of_nat k < u64_mod →
  parse_hex (hex_fixed k n) acc = Some (acc * 16 ^ Z.of_nat k + n mod 16 ^ Z.of_nat k).
Proof.
  revert acc; induction k as [|k IH]; intros acc Hacc Hlt; cbn [hex_fixed parse_hex].
  - rewrite Z.mod_1_r. f_equal. cbn. lia.
  - destruct (digit_split k n) as (Hs & Hn & Hd). rewrite Hs in *.
    rewrite Nat2Z.inj_succ, Z.pow_succ_r in * by lia.
    destruct (hex_digit_facts _ Hd) as (-> & _ & _).
    generalize dependent (n / 16 ^ Z.of_nat k mod 16). intros d Hd. intros.
    assert (1 ≤ 16 ^ Z.of_nat k) by (apply (Z.pow_le_mono_r 16 0); lia).
    destruct (Z.ltb_spec (acc * 16 + d) u64_mod); [|nia]. rewrite IH by nia. f_equal. nia.
Qed.

Lemma minted_seed seed : 0 ≤ seed < u64_mod → from_str_radix16 (hex_fixed 16 seed) = Some seed.
Proof.
  intros Hs. assert (H16 : 16 ^ Z.of_nat 16 = u64_mod) by done.
  assert (Hp : parse_hex (hex_fixed 16 seed) 0 = Some seed).
  { rewrite parse_hex_fixed; rewrite ?H16, ?Z.mod_small by done; try lia. f_equal; lia. }
  unfold from_str_radix16. destruct (hex_fixed 16 seed) as [|a rest] eqn:Hh; [done|].
  destruct (Ascii.eqb_spec a "+") as [->|]; [|done]. exfalso.
  cbn [hex_fixed] in Hh. injection Hh as Hh _.
  destruct (digit_split 15 seed) as (_ & _ & Hd). destruct (hex_digit_facts _ Hd) as (_ & Hne & _). done.
Qed.

Lemma compare_app p s t : String.compare (p +:+ s) (p +:+ t) = String.compare s t.
Proof.
  induction p as [|a p IH]; [done|]. rewrite !s_app_cons. cbn [String.compare].
  unfold Ascii.compare. by rewrite N.compare_refl.
Qed.

Lemma RequestId_next_le a b :
  0 ≤ a < u64_mod → 0 ≤ b < u64_mod → RequestId_le (RequestId_next a) (RequestId_next b) ↔ a ≤ b.
Proof.
  intros Ha Hb. unfold RequestId_le, RequestId_next. cbn [RequestId_str]. unfold String.le, String.leb.
  rewrite compare_app, hex_fixed_compare. change (16 ^ Z.of_nat 16) with u64_mod. rewrite !Z.mod_small by done.
  destruct (Z.compare_spec a b); cbn; split; intros; try done; try lia.
Qed.

Lemma split_sigil_id_ok kind value sigil l s :
  split_sigil_id kind value sigil = Ok (l, s) →
  value = String sigil (l +:+ String ":" s) ∧ l ≠ EmptyString ∧ s ≠ EmptyString ∧
  s_contains ":" l = false ∧ any_whitespace l = false ∧ any_whitespace s = false.
Proof.
  unfold split_sigil_id. destruct (strip_prefix _ value) as [rest|] eqn:Hp; [|done].
  apply strip_prefix_Some in Hp as ->. destruct (split_once ":" rest) as [[l' s']|] eqn:Hs; [|done].
  intros Hok. destruct (s_is_empty l') eqn:Hl; [done|]. destruct (s_is_empty s') eqn:Hs'; [done|].
  destruct (any_whitespace l' || any_whitespace s') eqn:Hw; [done|]. boolify. injection Hok as -> ->.
  assert (Hc : s_contains ":" l = false).
  { clear -Hs. revert l s Hs. induction rest as [|a rest IH]; intros l s; cbn; [done|].
    destruct (Ascii.eqb_spec a ":") as [->|Hne]; [by intros [= <- <-]|].
    destruct (split_once ":" rest) as [[l0 s0]|]; [|done]. intros [= <- <-].
    specialize (IH _ _ eq_refl). unfold s_contains in *. rewrite bytes_of_cons. cbn [existsb]. rewrite IH.
    destruct (Ascii.eqb_spec ":" a); [congruence|done]. }
  apply split_once_Some in Hs as ->. rewrite s_app_cons, s_app_nil_l.
  split_and!; try done; by intros ->.
Qed.

(** ** Theorems *)

(** Minted request ids keep the counter's order and give it back, for every 64-bit counter
    value, so a queue reloaded from storage and sorted by id is in minting order. *)
Theorem request_ids_follow_counter a b :
  0 ≤ a < u64_mod → 0 ≤ b < u64_mod →
  (RequestId_le (RequestId_next a) (RequestId_next b) ↔ a ≤ b) ∧
  RequestId_as_seed (RequestId_next a) = Some a ∧ TxnId_as_seed (TxnId_new a) = Some a.
Proof.
  intros Ha Hb. split; [by apply RequestId_next_le|].
  unfold RequestId_as_seed, TxnId_as_seed, RequestId_next, TxnId_new. cbn [RequestId_str TxnId_str].
  rewrite !strip_prefix_app. cbn [mbind option_bind]. by rewrite minted_seed.
Qed.

Lemma request_ids_follow_counter_witness :
  (RequestId_le (RequestId_next 255) (RequestId_next 256) ↔ 255 ≤ 256) ∧
  RequestId_as_seed (RequestId_next 255) = Some 255 ∧ TxnId_as_seed (TxnId_new 255) = Some 255.
Proof. apply (request_ids_follow_counter 255 256); done. Defined.

(** An accepted user id is the sigil, a non-empty localpart without a colon, a colon and a
    non-empty server name, without whitespace; the server keeps its port. *)
Lemma accepted_user_id_shape value id :
  UserId_parse value = Ok id →
  ∃ localpart server, UserId_str id = String "@" (localpart +:+ String ":" server) ∧
    localpart ≠ EmptyString ∧ server ≠ EmptyString ∧ s_contains ":" localpart = false ∧
    any_whitespace localpart = false ∧ any_whitespace server = false.
Proof.
  unfold UserId_parse. destruct (split_sigil_id "UserId" value "@") as [[l s]|] eqn:Hs; [|done].
  intros [= <-]. exists l, s. by apply split_sigil_id_ok in Hs.
Qed.

(** Not every id the seed can be read from was minted here: a sign is accepted. *)
Lemma as_seed_accepts_sign : RequestId_as_seed (mkRequestId "req.+1") = Some 1.
Proof. reflexivity. Qed.

(** * Path segments (crates/mail4agent-messenger/src/wire/requests.rs)

    Percent-encoding of the dynamic parts of request paths and record keys. The lemmas: decoding
    gives back what was encoded, and an encoded segment holds neither a slash nor a byte that is
    not ASCII. *)

(** The bytes left as they are. *)
Definition is_unreserved (b : ascii) : bool :=
  is_ascii_upper b || is_ascii_lower b || is_ascii_digit b ||
  Ascii.eqb b "-" || Ascii.eqb b "." || Ascii.eqb b "_" || Ascii.eqb b "~".

(** One digit of the [{:X}] format. *)
Definition upper_hex_digit (d : Z) : ascii := ascii_of_N (Z.to_N (if d <? 10 then 48 + d else 55 + d)).

Definition percent_encode_byte (b : ascii) : string :=
  if is_unreserved b then String b EmptyString
  else String "%" (String (upper_hex_digit (bval b / 16)) (String (upper_hex_digit (bval b mod 16)) EmptyString)).

Fixpoint percent_encode_segment (segment : string) : string :=
  match segment with
  | EmptyString => EmptyString
  | String b segment => percent_encode_byte b +:+ percent_encode_segment segment
  end.

(** The loop of [percent_decode_segment]. [get] on a range that cuts a character answers [None];
    such a range holds a byte that is no hex digit, so it is [None] here too. Two hex digits never
    overflow a [u8]. *)
Fixpoint percent_decode_bytes (segment : string) : option string :=
  match segment with
  | EmptyString => Some EmptyString
  | String b rest =>
      if Ascii.eqb b "%" then
        match rest with
        | String h1 (String h2 rest) =>
            byte ← from_str_radix16 (String h1 (String h2 EmptyString));
            out ← percent_decode_bytes rest;
            Some (String (ascii_of_N (Z.to_N byte)) out)
        | _ => None
        end
      else
        out ← percent_decode_bytes rest;
        Some (String b out)
  end.

Definition percent_decode_segment (segment : string) : option string :=
  out ← percent_decode_bytes segment;
  if utf8_valid out then Some out else None.

(** ** Lemmas *)

(** Everything about one byte, by evaluation. *)
Lemma percent_encode_byte_table :
  forallb (λ n, let b := ascii_of_nat n in
    all_bytes (λ c, negb (Ascii.eqb c "/") && (bval c <? 128)) (percent_encode_byte b) &&
    bool_decide (percent_decode_bytes (percent_encode_byte b) = Some (String b EmptyString))) (seq 0 256) = true.
Proof. vm_compute. done. Qed.

Lemma percent_encode_byte_facts b :
  all_bytes (λ c, negb (Ascii.eqb c "/") && (bval c <? 128)) (percent_encode_byte b) = true ∧
  percent_decode_bytes (percent_encode_byte b) = Some (String b EmptyString).
Proof.
  pose proof percent_encode_byte_table as Ht. rewrite forallb_forall in Ht.
  specialize (Ht (nat_of_ascii b)). rewrite ascii_nat_embedding in Ht. cbn zeta in Ht.
  assert (In (nat_of_ascii b) (seq 0 256)) as Hin by (apply in_seq; pose proof (nat_ascii_bounded b); lia).
  specialize (Ht Hin). boolify. done.
Qed.

(** Decoding proceeds byte by byte over an encoded text. *)
Lemma percent_decode_encoded_byte b s :
  percent_decode_bytes (percent_encode_byte b +:+ s) = out ← percent_decode_bytes s; Some (String b out).
Proof.
  pose proof (percent_encode_byte_facts b) as [_ Hd]. revert Hd. unfold percent_encode_byte.
  destruct (is_unreserved b) eqn:Hu.
  - intros _. rewrite s_app_cons, s_app_nil_l. cbn.
    destruct (Ascii.eqb_spec b "%") as [->|]; [by vm_compute in Hu|done].
  - rewrite !s_app_cons, s_app_nil_l. cbn -[from_str_radix16 upper_hex_digit].
    match goal with |- context [from_str_radix16 ?t] => destruct (from_str_radix16 t) as [n|] end; cbn -[upper_hex_digit]; [|discriminate]. intros [= ->]. done.
Qed.

Lemma percent_decode_encode_bytes s : percent_decode_bytes (percent_encode_segment s) = Some s.
Proof.
  induction s as [|b s IH]; [done|]. cbn [percent_encode_segment].
  rewrite percent_decode_encoded_byte, IH. done.
Qed.

Lemma percent_roundtrip s : utf8_valid s = true → percent_decode_segment (percent_encode_segment s) = Some s.
Proof. intros Hu. unfold percent_decode_segment. rewrite percent_decode_encode_bytes. cbn. by rewrite Hu. Qed.

Lemma percent_encode_safe s :
  all_bytes (λ c, negb (Ascii.eqb c "/") && (bval c <? 128)) (percent_encode_segment s) = true.
Proof.
  induction s as [|b s IH]; [done|]. cbn [percent_encode_segment].
  rewrite all_bytes_app, IH. by destruct (percent_encode_byte_facts b) as [-> _].
Qed.

Lemma percent_encode_no_slash s : all_bytes (λ c, negb (Ascii.eqb c "/")) (percent_encode_segment s) = true.
Proof. eapply all_bytes_impl; [|apply percent_encode_safe]. cbn. intros a Ha. apply andb_true_iff in Ha. tauto. Qed.

(** An encoded segment can be cut out of a longer path. *)
Lemma split_once_encoded s r :
  split_once "/" (percent_encode_segment s +:+ String "/" r) = Some (percent_encode_segment s, r).
Proof. apply split_once_app, percent_encode_no_slash. Qed.
