(* ===== verification/OutgoingQueue.v ===== *)
(** * The outgoing request queue (crates/mail4agent-messenger/src/outgoing_queue.rs)

    Lanes, retries with capped backoff, and persistence of pending requests. The queue's state is
    the record [OutgoingQueue]; a method that also changes the store works on the pair of both.
    [serde_json] is a parameter ([SerdeJson]); an [f64] is a [spec_float] of IEEE 754 binary64
    and its operations are the standard library's specification of them. *)

From S2P Require Import Prelude Persist Ids.
From Stdlib Require Import SpecFloat.

Local Open Scope Z_scope.

(** ** What the queue uses of [serde_json] *)

Class SerdeJson := {
  Value : Type;
  from_slice : string → option Value;
  json_get : Value → string → option Value;
  as_u64 : Value → option Z;
  as_str : Value → option string
}.

(** ** Requests (crates/mail4agent-messenger/src/wire/requests.rs) *)

Inductive HttpMethod := Get | Post | Put.

Inductive OutgoingRequestKind :=
| KSync | KeysUpload | KeysQuery | KeysClaim | KeysChanges | SendToDevice | SigningKeysUpload
| SignaturesUpload | RoomSend | RoomRedact | KRoomState | RoomMessages | RoomMembers | CreateRoom
| JoinRoom | LeaveRoom | Invite | Kick | SetState | Typing | Receipt | ReadMarkers | KAccountData
| RoomAccountData | Profile | UserDirectorySearch | PublicRooms | BackupVersion | BackupKeys.

#[export] Instance OutgoingRequestKind_eq_dec : EqDecision OutgoingRequestKind.
Proof. solve_decision. Defined.

Inductive Lane :=
| Sync
| ToDevice
| Room (room_id : RoomId)
| AccountData
| Other.

#[export] Instance Lane_eq_dec : EqDecision Lane.
Proof. solve_decision. Defined.

Record HttpResponseDescriptor := mkHttpResponseDescriptor { status : Z; resp_body : string }.

Inductive ResponseOutcome :=
| Done (response : HttpResponseDescriptor)
| Retry (after_ms : Z)
| Failed (errcode error : string).

Definition OTHER_LANE_CONCURRENCY : nat := 4.
Definition BACKOFF_BASE_MS : Z := 1000.
Definition BACKOFF_CAP_MS : Z := 60000.

(** ** [f64] *)

Definition f64_of_Z (n : Z) : spec_float := binary_normalize 53 1024 n 0 false.
Definition f64_half : spec_float := S754_finite false 4503599627370496 (-53).
Definition f64_zero : spec_float := S754_zero false.
Definition f64_one : spec_float := f64_of_Z 1.

(** [f64::clamp(0.0, 1.0)]: a NaN stays one. *)
Definition f64_clamp_unit (x : spec_float) : spec_float :=
  if SFltb x f64_zero then f64_zero else if SFltb f64_one x then f64_one else x.

(** [x.round() as u64]: half away from zero, then saturating; a NaN is 0. *)
Definition f64_round_as_u64 (x : spec_float) : Z :=
  match x with
  | S754_zero _ | S754_nan | S754_infinity true | S754_finite true _ _ => 0
  | S754_infinity false => u64_mod - 1
  | S754_finite false m e =>
      let n := if 0 <=? e then Z.pos m * 2 ^ e else (Z.pos m + 2 ^ (- e - 1)) / 2 ^ (- e) in
      Z.min n (u64_mod - 1)
  end.

Definition capped_exponential_backoff_ms (attempt : Z) (jitter_unit : spec_float) : Z :=
  let shift := Z.min attempt 6 in
  let base := Z.min (Z.min (BACKOFF_BASE_MS * Z.shiftl 1 shift) (u64_mod - 1)) BACKOFF_CAP_MS in
  let unit := f64_clamp_unit jitter_unit in
  let jittered := f64_round_as_u64
    (SFmul 53 1024 (f64_of_Z base) (SFadd 53 1024 f64_half (SFmul 53 1024 f64_half unit))) in
  Z.min jittered BACKOFF_CAP_MS.

Section Queue.
Context `{SerdeJson}.

Record OutgoingRequest := mkOutgoingRequest {
  id : RequestId;
  method : HttpMethod;
  path : string;
  query : list (string * string);
  req_body : option Value;
  kind : OutgoingRequestKind }.

Record PendingRequest := mkPendingRequest {
  request : OutgoingRequest;
  lane : Lane;
  required_seq : RequiredSeq }.

(** [HttpResponseDescriptor::matrix_error] *)
Definition matrix_error (r : HttpResponseDescriptor) : option (string * string) :=
  value ← from_slice (resp_body r);
  errcode ← json_get value "errcode" ≫= as_str;
  let error := match json_get value "error" ≫= as_str with Some e => e | None => EmptyString end in
  Some (errcode, error).

Definition retry_after_ms_from_body (r : HttpResponseDescriptor) : option Z :=
  value ← from_slice (resp_body r);
  json_get value "retry_after_ms" ≫= as_u64.

(** ** The store's side: [trait StateStore], the methods the queue calls *)

Record QueueStoreError := mkQueueStoreError { queue_store_error : string }.

Class StateStore (S : Type) := {
  pending_requests : S → result (list PendingRequest) QueueStoreError;
  save_pending_request : S → PendingRequest → S * result unit QueueStoreError;
  delete_pending_request : S → RequestId → S * result unit QueueStoreError
}.

(** ** The queue *)

Record OutgoingQueue := mkOutgoingQueue {
  order : list RequestId;
  pending : gmap RequestId PendingRequest;
  in_flight : gset RequestId;
  sync_in_flight : bool;
  to_device_in_flight : bool;
  room_in_flight : gset RoomId;
  other_in_flight : gset RequestId;
  attempts : gmap RequestId Z;
  retry_not_before_ms : gmap RequestId Z }.

Definition OutgoingQueue_new : OutgoingQueue := mkOutgoingQueue [] ∅ ∅ false false ∅ ∅ ∅ ∅.

Definition with_pending (q : OutgoingQueue) o p : OutgoingQueue :=
  mkOutgoingQueue o p (in_flight q) (sync_in_flight q) (to_device_in_flight q) (room_in_flight q)
    (other_in_flight q) (attempts q) (retry_not_before_ms q).
Definition with_flight (q : OutgoingQueue) f s t r o : OutgoingQueue :=
  mkOutgoingQueue (order q) (pending q) f s t r o (attempts q) (retry_not_before_ms q).
Definition with_retry (q : OutgoingQueue) a n : OutgoingQueue :=
  mkOutgoingQueue (order q) (pending q) (in_flight q) (sync_in_flight q) (to_device_in_flight q)
    (room_in_flight q) (other_in_flight q) a n.

Definition lane_available (q : OutgoingQueue) (l : Lane) : bool :=
  match l with
  | Sync => negb (sync_in_flight q)
  | ToDevice => negb (to_device_in_flight q)
  | Room room_id => bool_decide (room_id ∉ room_in_flight q)
  | AccountData => true
  | Other => bool_decide (size (other_in_flight q) < OTHER_LANE_CONCURRENCY)%nat
  end.

Definition mark_in_flight (q : OutgoingQueue) (i : RequestId) (l : Lane) : OutgoingQueue :=
  let f := {[i]} ∪ in_flight q in
  match l with
  | Sync => with_flight q f true (to_device_in_flight q) (room_in_flight q) (other_in_flight q)
  | ToDevice => with_flight q f (sync_in_flight q) true (room_in_flight q) (other_in_flight q)
  | Room r => with_flight q f (sync_in_flight q) (to_device_in_flight q) ({[r]} ∪ room_in_flight q) (other_in_flight q)
  | AccountData => with_flight q f (sync_in_flight q) (to_device_in_flight q) (room_in_flight q) (other_in_flight q)
  | Other => with_flight q f (sync_in_flight q) (to_device_in_flight q) (room_in_flight q) ({[i]} ∪ other_in_flight q)
  end.

Definition clear_in_flight (q : OutgoingQueue) (i : RequestId) (l : Lane) : OutgoingQueue :=
  let f := in_flight q ∖ {[i]} in
  match l with
  | Sync => with_flight q f false (to_device_in_flight q) (room_in_flight q) (other_in_flight q)
  | ToDevice => with_flight q f (sync_in_flight q) false (room_in_flight q) (other_in_flight q)
  | Room r => with_flight q f (sync_in_flight q) (to_device_in_flight q) (room_in_flight q ∖ {[r]}) (other_in_flight q)
  | AccountData => with_flight q f (sync_in_flight q) (to_device_in_flight q) (room_in_flight q) (other_in_flight q)
  | Other => with_flight q f (sync_in_flight q) (to_device_in_flight q) (room_in_flight q) (other_in_flight q ∖ {[i]})
  end.

(** The attempt counter is a [u32] and saturates. *)
Definition next_backoff_ms (q : OutgoingQueue) (i : RequestId) (jitter_unit : spec_float) : OutgoingQueue * Z :=
  let attempt := default 0 (attempts q !! i) in
  let ms := capped_exponential_backoff_ms attempt jitter_unit in
  (with_retry q (<[i := Z.min (attempt + 1) (u32_mod - 1)]> (attempts q)) (retry_not_before_ms q), ms).

(** [self.retry_not_before_ms.insert(id, now_ms.saturating_add(after_ms as i64))] *)
Definition set_not_before (q : OutgoingQueue) (i : RequestId) (now_ms after_ms : Z) : OutgoingQueue :=
  with_retry q (attempts q)
    (<[i := i64_saturating_add now_ms (u64_as_i64 after_ms)]> (retry_not_before_ms q)).

Section Ops.
Context {S : Type} `{StateStore S} `{FlushEpoch S}.

Definition complete (q : OutgoingQueue) (store : S) (i : RequestId) :
    OutgoingQueue * S * result unit QueueStoreError :=
  match pending q !! i with
  | None => (q, store, Ok tt)
  | Some p =>
      let q := with_pending q (order q) (delete i (pending q)) in
      let q := clear_in_flight q i (lane p) in
      let q := with_retry q (delete i (attempts q)) (delete i (retry_not_before_ms q)) in
      let q := with_pending q (filter (λ existing, existing ≠ i) (order q)) (pending q) in
      let '(store, r) := delete_pending_request store i in
      (q, store, r)
  end.

(** The loop body of [load]: a record of an older version is moved to its lane. *)
Definition load_record (q : OutgoingQueue) (record : PendingRequest) : OutgoingQueue :=
  let record :=
    if bool_decide (lane record = Other) &&
       (bool_decide (kind (request record) = KAccountData) || bool_decide (kind (request record) = RoomAccountData))
    then mkPendingRequest (request record) AccountData (required_seq record)
    else record in
  let i := id (request record) in
  with_pending q (order q ++ [i]) (<[i := record]> (pending q)).

Definition by_id (a b : PendingRequest) : Prop := RequestId_le (id (request a)) (id (request b)).
#[export] Instance by_id_dec a b : Decision (by_id a b).
Proof. unfold by_id. apply _. Defined.

Definition load (store : S) : result OutgoingQueue QueueStoreError :=
  let? records := pending_requests store in
  Ok (foldl load_record OutgoingQueue_new (merge_sort by_id records)).

Fixpoint complete_all (q : OutgoingQueue) (store : S) (ids : list RequestId) :
    OutgoingQueue * S * result unit QueueStoreError :=
  match ids with
  | [] => (q, store, Ok tt)
  | i :: ids =>
      let '(q, store, r) := complete q store i in
      match r with
      | Ok _ => complete_all q store ids
      | Err e => (q, store, Err e)
      end
  end.

Definition discard_kind (q : OutgoingQueue) (store : S) (k : OutgoingRequestKind) :
    OutgoingQueue * S * result unit QueueStoreError :=
  complete_all q store
    (filter (λ kv, kind (request kv.2) = k) (btree_entries RequestId_str (pending q))).*1.

Definition enqueue (q : OutgoingQueue) (store : S) (req : OutgoingRequest) (l : Lane) :
    OutgoingQueue * S * result (option FlushBatch) QueueStoreError :=
  if decide (is_Some (pending q !! id req)) then (q, store, Ok None)
  else
    let '(store, (seq, batch)) := seal_for_request store in
    let record := mkPendingRequest req l seq in
    let '(store, r) := save_pending_request store record in
    match r with
    | Err e => (q, store, Err e)
    | Ok _ => (with_pending q (order q ++ [id req]) (<[id req := record]> (pending q)), store, Ok batch)
    end.

(** One turn of the loop of [releasable], and the loop. *)
Definition may_release (store : S) (now_ms : Z) (q : OutgoingQueue) (i : RequestId) (p : PendingRequest) : bool :=
  bool_decide (i ∉ in_flight q) &&
  match retry_not_before_ms q !! i with Some not_before => negb (now_ms <? not_before) | None => true end &&
  is_released store (required_seq p) &&
  lane_available q (lane p).

Fixpoint release_loop (store : S) (now_ms : Z) (ids : list RequestId) (account_data_blocked : bool)
    (q : OutgoingQueue) : OutgoingQueue * list OutgoingRequest :=
  match ids with
  | [] => (q, [])
  | i :: ids =>
      match pending q !! i with
      | None => release_loop store now_ms ids account_data_blocked q
      | Some p =>
          let is_account_data := bool_decide (lane p = AccountData) in
          if is_account_data && account_data_blocked then release_loop store now_ms ids account_data_blocked q
          else
            let blocked := is_account_data || account_data_blocked in
            if may_release store now_ms q i p
            then
              let '(q, out) := release_loop store now_ms ids blocked (mark_in_flight q i (lane p)) in
              (q, request p :: out)
            else release_loop store now_ms ids blocked q
      end
  end.

Definition releasable (q : OutgoingQueue) (store : S) (now_ms : Z) : OutgoingQueue * list OutgoingRequest :=
  release_loop store now_ms (order q) false q.

Definition on_response (q : OutgoingQueue) (store : S) (i : RequestId) (response : HttpResponseDescriptor)
    (now_ms : Z) (jitter_unit : spec_float) :
    OutgoingQueue * S * result (option ResponseOutcome) QueueStoreError :=
  match pending q !! i with
  | None => (q, store, Ok None)
  | Some p =>
      if (200 <=? status response) && (status response <? 300) then
        let '(q, store, r) := complete q store i in
        (q, store, result_map (λ _, Some (Done response)) r)
      else if status response =? 429 then
        let q := clear_in_flight q i (lane p) in
        let '(q, after_ms) :=
          match retry_after_ms_from_body response with
          | Some ms => (q, ms)
          | None => next_backoff_ms q i jitter_unit
          end in
        (set_not_before q i now_ms after_ms, store, Ok (Some (Retry after_ms)))
      else if (500 <=? status response) && (status response <? 600) then
        let q := clear_in_flight q i (lane p) in
        let '(q, after_ms) := next_backoff_ms q i jitter_unit in
        (set_not_before q i now_ms after_ms, store, Ok (Some (Retry after_ms)))
      else
        let '(errcode, error) := default ("M_UNKNOWN", EmptyString) (matrix_error response) in
        let '(q, store, r) := complete q store i in
        (q, store, result_map (λ _, Some (Failed errcode error)) r)
  end.

Definition on_transport_error (q : OutgoingQueue) (i : RequestId) (now_ms : Z) (jitter_unit : spec_float) :
    OutgoingQueue * option ResponseOutcome :=
  match pending q !! i with
  | None => (q, None)
  | Some p =>
      let q := clear_in_flight q i (lane p) in
      let '(q, after_ms) := next_backoff_ms q i jitter_unit in
      (set_not_before q i now_ms after_ms, Some (Retry after_ms))
  end.

End Ops.
End Queue.
