(* ===== verification/OutgoingQueueProps.v ===== *)
(** * Properties of the outgoing queue

    The queue's protocol as a step relation over queue and store (the shell answers only requests
    it was handed, and discards before it starts), its invariant, and what [releasable] hands out. *)

From S2P Require Import Prelude Persist Ids OutgoingQueue.
From Stdlib Require Import SpecFloat.

Local Open Scope Z_scope.

(** Of two elements of a list, one comes before the other. *)
Lemma two_splits {A} (b1 b2 a1 a2 : list A) i j :
  b1 ++ j :: a1 = b2 ++ i :: a2 → i ≠ j → j ∈ b2 ∨ i ∈ b1.
Proof.
  revert b2; induction b1 as [|x b1 IH]; intros [|y b2]; cbn; intros [= Hx Heq] Hne; subst; try done.
  - left. constructor.
  - right. constructor.
  - apply IH in Heq; [|done]. destruct Heq; [left|right]; by constructor.
Qed.

Section Props.
Context `{SerdeJson} {S : Type} `{!StateStore S} `{FlushEpoch S}.

(** ** The invariant *)

(** A lane that admits one request at a time. *)
Definition exclusive (l : Lane) : Prop := l ≠ Other.

(** The flags of the lane say it is taken. *)
Definition occupied (q : OutgoingQueue) (i : RequestId) (l : Lane) : Prop :=
  match l with
  | Sync => sync_in_flight q = true
  | ToDevice => to_device_in_flight q = true
  | Room r => r ∈ room_in_flight q
  | AccountData => True
  | Other => i ∈ other_in_flight q
  end.

(** [i] is in flight on lane [l]. *)
Definition flying (q : OutgoingQueue) (i : RequestId) (l : Lane) : Prop :=
  i ∈ in_flight q ∧ ∃ p, pending q !! i = Some p ∧ lane p = l.

(** No account-data request is queued before [i]. *)
Definition heads_account_data (q : OutgoingQueue) (i : RequestId) : Prop :=
  ∃ before after, order q = before ++ i :: after ∧
    ∀ j p, j ∈ before → pending q !! j = Some p → lane p ≠ AccountData.

Record qinv (q : OutgoingQueue) : Prop := {
  qi_nodup : NoDup (order q);
  qi_order i : i ∈ order q ↔ is_Some (pending q !! i);
  qi_keyed i p : pending q !! i = Some p → id (request p) = i;
  qi_flight i : i ∈ in_flight q → is_Some (pending q !! i);
  qi_occupied i l : flying q i l → occupied q i l;
  qi_exclusive i j l : exclusive l → flying q i l → flying q j l → i = j;
  qi_sync : sync_in_flight q = true → ∃ i, flying q i Sync;
  qi_to_device : to_device_in_flight q = true → ∃ i, flying q i ToDevice;
  qi_room r : r ∈ room_in_flight q → ∃ i, flying q i (Room r);
  qi_other i : i ∈ other_in_flight q → flying q i Other;
  qi_other_size : (size (other_in_flight q) ≤ OTHER_LANE_CONCURRENCY)%nat;
  qi_account_data i : flying q i AccountData → heads_account_data q i
}.

Lemma qinv_new : qinv OutgoingQueue_new.
Proof.
  assert (Hno : ∀ i l, ¬ flying OutgoingQueue_new i l) by (intros i l [Hi _]; set_solver).
  split; cbn; try done; try (intros; exfalso; (by eapply Hno) || set_solver).
  - constructor.
  - intros i. split; [by intros ?%not_elem_of_nil|by intros [? ?]].
  - unfold OTHER_LANE_CONCURRENCY. rewrite size_empty. lia.
Qed.

(** ** Marking and clearing *)

Lemma flying_mark q i l p j l' :
  pending q !! i = Some p → lane p = l →
  flying (mark_in_flight q i l) j l' ↔ (j = i ∧ l' = l) ∨ flying q j l'.
Proof.
  intros Hp Hl. unfold flying.
  assert (Hpd : pending (mark_in_flight q i l) = pending q) by (by destruct l).
  assert (Hf : in_flight (mark_in_flight q i l) = {[i]} ∪ in_flight q) by (by destruct l).
  rewrite Hpd, Hf, elem_of_union, elem_of_singleton. split.
  - intros [[->|?] (p' & Hp' & Hl')]; [left|right]; [split; congruence|]. eauto.
  - intros [[-> ->]|[? ?]]; [|eauto]. split; [by left|eauto].
Qed.

(** A lane open to [i], and headed by it if it carries account data, flies nothing. *)
Lemma open_lane_is_free q i p :
  qinv q → pending q !! i = Some p → i ∉ in_flight q → lane_available q (lane p) = true →
  (lane p = AccountData → heads_account_data q i) →
  exclusive (lane p) → ∀ j, ¬ flying q j (lane p).
Proof.
  intros Hq Hp Hni Hav Hhd Hex j Hj. pose proof (qi_occupied q Hq _ _ Hj) as Ho. unfold lane_available in Hav.
  destruct (lane p) eqn:Hl; cbn in *; boolify; try congruence; try done.
  destruct (qi_account_data q Hq _ Hj) as (b1 & a1 & Ho1 & Hb1).
  destruct (Hhd eq_refl) as (b2 & a2 & Ho2 & Hb2).
  assert (j ≠ i) by (intros ->; by destruct Hj).
  destruct Hj as [_ (pj & Hpj & Hlj)].
  assert (Hij : j ∈ b2 ∨ i ∈ b1) by (eapply (two_splits b1 b2 a1 a2); congruence).
  destruct Hij; [by eapply Hb2|by eapply Hb1].
Qed.

(** Marking keeps the shared lane within its limit. *)
Lemma other_size_mark q i l :
  (size (other_in_flight q) ≤ OTHER_LANE_CONCURRENCY)%nat → lane_available q l = true →
  (size (other_in_flight (mark_in_flight q i l)) ≤ OTHER_LANE_CONCURRENCY)%nat.
Proof.
  intros Hs Hav. destruct l; cbn; try done. cbn in Hav. boolify. rewrite size_union_alt, size_singleton.
  unfold OTHER_LANE_CONCURRENCY in *.
  assert (size (other_in_flight q ∖ {[i]}) ≤ size (other_in_flight q))%nat by (apply subseteq_size; set_solver). lia.
Qed.

Lemma qinv_mark q i p :
  qinv q → pending q !! i = Some p → i ∉ in_flight q → lane_available q (lane p) = true →
  (lane p = AccountData → heads_account_data q i) →
  qinv (mark_in_flight q i (lane p)).
Proof.
  intros Hq Hp Hni Hav Hhd.
  pose proof (flying_mark q i (lane p) p) as Hfl.
  assert (Hpd : pending (mark_in_flight q i (lane p)) = pending q) by (by destruct (lane p)).
  assert (Hord : order (mark_in_flight q i (lane p)) = order q) by (by destruct (lane p)).
  assert (Hf : in_flight (mark_in_flight q i (lane p)) = {[i]} ∪ in_flight q) by (by destruct (lane p)).
  pose proof (open_lane_is_free q i p Hq Hp Hni Hav Hhd) as Hno.
  split; rewrite ?Hord, ?Hpd.
  - apply Hq.
  - apply (qi_order q Hq).
  - apply (qi_keyed q Hq).
  - intros j. rewrite Hf, elem_of_union, elem_of_singleton. intros [->|?]; [eauto|by apply (qi_flight q Hq)].
  - intros j l [[-> ->]|Hj]%(Hfl _ _ Hp eq_refl).
    + destruct (lane p); cbn; try done; set_solver.
    + apply (qi_occupied q Hq) in Hj. destruct (lane p), l; cbn in *; try done; set_solver.
  - intros j k l Hex [[-> ->]|Hj]%(Hfl _ _ Hp eq_refl) [[-> Hl]|Hk]%(Hfl _ _ Hp eq_refl); subst.
    + done.
    + by destruct (Hno Hex k).
    + by destruct (Hno Hex j).
    + by eapply (qi_exclusive q Hq).
  - intros Hs. setoid_rewrite (λ j l, Hfl j l Hp eq_refl).
    destruct (lane p) eqn:Hl; cbn in Hs; [eauto|..]; apply (qi_sync q Hq) in Hs as [? ?]; eauto.
  - intros Hs. setoid_rewrite (λ j l, Hfl j l Hp eq_refl).
    destruct (lane p) eqn:Hl; cbn in Hs; [|eauto|..]; apply (qi_to_device q Hq) in Hs as [? ?]; eauto.
  - intros r Hr. setoid_rewrite (λ j l, Hfl j l Hp eq_refl).
    assert (Hcase : lane p = Room r ∨ r ∈ room_in_flight q) by (destruct (lane p); cbn in Hr; set_solver).
    destruct Hcase as [->|Hr']; [eauto|]. apply (qi_room q Hq) in Hr' as [? ?]; eauto.
  - intros j Hj. apply (Hfl _ _ Hp eq_refl).
    assert (Hcase : (lane p = Other ∧ j = i) ∨ j ∈ other_in_flight q) by (destruct (lane p); cbn in Hj; set_solver).
    destruct Hcase as [[-> ->]|Hj']; [by left|right]. by apply (qi_other q Hq).
  - apply other_size_mark; [apply (qi_other_size q Hq)|done].
  - intros j [[-> Hl]|Hj]%(Hfl _ _ Hp eq_refl).
    + destruct (Hhd (eq_sym Hl)) as (b & a & ? & ?). exists b, a. by rewrite Hord, Hpd.
    + destruct (qi_account_data q Hq _ Hj) as (b & a & ? & ?). exists b, a. by rewrite Hord, Hpd.
Qed.

Lemma clear_fields q i l :
  pending (clear_in_flight q i l) = pending q ∧ order (clear_in_flight q i l) = order q ∧
  in_flight (clear_in_flight q i l) = in_flight q ∖ {[i]}.
Proof. by destruct l. Qed.

Lemma flying_clear q i l j l' : flying (clear_in_flight q i l) j l' ↔ j ≠ i ∧ flying q j l'.
Proof. unfold flying. destruct (clear_fields q i l) as (-> & _ & ->). set_solver. Qed.

(** The protocol's two cases: the request answered is in flight, or nothing is. *)
Definition answerable (q : OutgoingQueue) (i : RequestId) : Prop := i ∈ in_flight q ∨ in_flight q = ∅.

Lemma flags_idle q : qinv q → in_flight q = ∅ →
  sync_in_flight q = false ∧ to_device_in_flight q = false ∧ room_in_flight q = ∅ ∧ other_in_flight q = ∅.
Proof.
  intros Hq He. assert (Hno : ∀ i l, ¬ flying q i l) by (intros i l [Hi _]; set_solver).
  split_and!.
  - destruct (sync_in_flight q) eqn:E; [|done]. by destruct (qi_sync q Hq E) as [? ?%Hno].
  - destruct (to_device_in_flight q) eqn:E; [|done]. by destruct (qi_to_device q Hq E) as [? ?%Hno].
  - apply elem_of_equiv_empty_L. intros r Hr. by destruct (qi_room q Hq _ Hr) as [? ?%Hno].
  - apply elem_of_equiv_empty_L. intros j Hj. by destruct (Hno j Other), (qi_other q Hq _ Hj).
Qed.

(** What clearing [i] leaves of the flags of the other requests. *)
Lemma occupied_clear q i p j l :
  qinv q → pending q !! i = Some p → answerable q i → j ≠ i → flying q j l →
  occupied (clear_in_flight q i (lane p)) j l.
Proof.
  intros Hq Hp Ha Hne Hj. pose proof (qi_occupied q Hq _ _ Hj) as Ho.
  assert (Hsame : exclusive l → lane p ≠ l).
  { intros Hex Hl. apply Hne. destruct Ha as [Hi|He]; [|destruct Hj as [Hj _]; set_solver].
    eapply (qi_exclusive q Hq); [done|done|]. split; eauto. }
  unfold exclusive in Hsame. destruct l, (lane p) eqn:Hl; cbn in *; try done; try set_solver; exfalso; by apply Hsame.
Qed.

Lemma qinv_clear q i p :
  qinv q → pending q !! i = Some p → answerable q i → qinv (clear_in_flight q i (lane p)).
Proof.
  intros Hq Hp Ha. destruct (clear_fields q i (lane p)) as (Hpd & Hord & Hf).
  pose proof (flying_clear q i (lane p)) as Hfl.
  (** A flag still up belongs to a request other than [i]. *)
  assert (Hother : ∀ l, (∃ j, flying q j l) → (lane p = l → in_flight q ≠ ∅ → False) →
            ∃ j, flying (clear_in_flight q i (lane p)) j l).
  { intros l [j Hj] Hl. exists j. apply Hfl. split; [|done]. intros ->.
    destruct Hj as [Hi (p' & Hp' & Hlp)]. apply Hl; [congruence|]. set_solver. }
  split; rewrite ?Hord, ?Hpd.
  - apply Hq.
  - apply (qi_order q Hq).
  - apply (qi_keyed q Hq).
  - intros j. rewrite Hf. intros [Hj _]%elem_of_difference. by apply (qi_flight q Hq).
  - intros j l [Hne Hj]%Hfl. by apply occupied_clear.
  - intros j k l Hex [_ Hj]%Hfl [_ Hk]%Hfl. by eapply (qi_exclusive q Hq).
  - intros Hs. apply Hother; [apply (qi_sync q Hq); by destruct (lane p)|]. intros Hl. by rewrite Hl in Hs.
  - intros Hs. apply Hother; [apply (qi_to_device q Hq); by destruct (lane p)|]. intros Hl. by rewrite Hl in Hs.
  - intros r Hr. apply Hother; [apply (qi_room q Hq); destruct (lane p); cbn in Hr; set_solver|].
    intros Hl. rewrite Hl in Hr. cbn in Hr. set_solver.
  - intros j Hj. apply Hfl.
    assert (Hin : j ∈ other_in_flight q) by (destruct (lane p); cbn in Hj; set_solver).
    split; [|by apply (qi_other q Hq)]. intros ->. destruct (qi_other q Hq _ Hin) as [_ (p' & Hp' & Hl)].
    assert (lane p = Other) as Hl' by congruence. rewrite Hl' in Hj. cbn in Hj. set_solver.
  - etrans; [|apply (qi_other_size q Hq)]. apply subseteq_size. destruct (lane p); cbn; set_solver.
  - intros j [_ Hj]%Hfl. destruct (qi_account_data q Hq _ Hj) as (b & a & ? & ?). exists b, a. by rewrite Hord, Hpd.
Qed.

Lemma qinv_retry q a n : qinv q → qinv (with_retry q a n).
Proof. intros []. by split. Qed.

(** Dropping a request that is not in flight. *)
Definition drop_pending (q : OutgoingQueue) (i : RequestId) : OutgoingQueue :=
  with_pending q (filter (λ existing, existing ≠ i) (order q)) (delete i (pending q)).

Lemma flying_drop q i j l : i ∉ in_flight q → flying (drop_pending q i) j l ↔ flying q j l.
Proof.
  intros Hi. unfold flying. cbn. split.
  - intros [Hj (p & [_ Hp]%lookup_delete_Some & Hl)]. eauto.
  - intros [Hj (p & Hp & Hl)]. split; [done|]. exists p. rewrite lookup_delete_ne; [done|]. by intros ->.
Qed.

Lemma qinv_drop q i : qinv q → i ∉ in_flight q → qinv (drop_pending q i).
Proof.
  intros Hq Hi. pose proof (λ j l, flying_drop q i j l Hi) as Hfl. split; cbn.
  - apply NoDup_filter, Hq.
  - intros j. rewrite list_elem_of_filter, (qi_order q Hq). destruct (decide (j = i)) as [->|Hne].
    + rewrite lookup_delete_eq. split; [naive_solver|]. by intros [? ?].
    + rewrite lookup_delete_ne by done. naive_solver.
  - intros j p [_ Hp]%lookup_delete_Some. by apply (qi_keyed q Hq).
  - intros j Hj. rewrite lookup_delete_ne by (by intros ->). by apply (qi_flight q Hq).
  - intros j l Hj%Hfl. by apply (qi_occupied q Hq).
  - intros j k l Hex Hj%Hfl Hk%Hfl. by eapply (qi_exclusive q Hq).
  - intros [j Hj]%(qi_sync q Hq). exists j. by apply Hfl.
  - intros [j Hj]%(qi_to_device q Hq). exists j. by apply Hfl.
  - intros r [j Hj]%(qi_room q Hq). exists j. by apply Hfl.
  - intros j Hj%(qi_other q Hq). by apply Hfl.
  - apply Hq.
  - intros j Hj%Hfl. destruct (qi_account_data q Hq _ Hj) as (b & a & Ho & Hb).
    assert (j ≠ i) by (intros ->; by destruct Hj).
    exists (filter (λ existing, existing ≠ i) b), (filter (λ existing, existing ≠ i) a). cbn. split.
    + rewrite Ho, filter_app, filter_cons. by rewrite decide_True.
    + intros k p [_ Hk]%list_elem_of_filter [_ Hp]%lookup_delete_Some. by eapply Hb.
Qed.

Lemma complete_queue q store i p q' store' r :
  pending q !! i = Some p → complete q store i = (q', store', r) →
  ∃ a n, q' = with_retry (drop_pending (clear_in_flight q i (lane p)) i) a n.
Proof.
  intros Hp. unfold complete. rewrite Hp. destruct (delete_pending_request store i) as [s' r'].
  intros [= <- <- <-]. destruct (lane p); cbn; eexists _, _; reflexivity.
Qed.

Lemma qinv_complete q store i q' store' r :
  qinv q → answerable q i → complete q store i = (q', store', r) → qinv q'.
Proof.
  intros Hq Ha Hc. destruct (pending q !! i) as [p|] eqn:Hp.
  - destruct (complete_queue _ _ _ _ _ _ _ Hp Hc) as (a & n & ->). apply qinv_retry, qinv_drop.
    + by apply qinv_clear.
    + destruct (clear_fields q i (lane p)) as (_ & _ & ->). set_solver.
  - unfold complete in Hc. rewrite Hp in Hc. by injection Hc as <- <- <-.
Qed.

(** ** What [releasable] hands out *)

Definition backoff_elapsed (q : OutgoingQueue) (now_ms : Z) (i : RequestId) : Prop :=
  ∀ not_before, retry_not_before_ms q !! i = Some not_before → not_before ≤ now_ms.

#[export] Instance backoff_elapsed_dec q now_ms i : Decision (backoff_elapsed q now_ms i).
Proof.
  unfold backoff_elapsed. destruct (retry_not_before_ms q !! i) as [nb|]; [|left; done].
  destruct (decide (nb ≤ now_ms)); [left; naive_solver|right; naive_solver].
Defined.

(** The fields marking leaves alone. *)
Record same_requests (q q' : OutgoingQueue) : Prop := {
  sq_pending : pending q' = pending q;
  sq_order : order q' = order q;
  sq_retry : retry_not_before_ms q' = retry_not_before_ms q;
  sq_flight : in_flight q ⊆ in_flight q';
  sq_lane l : lane_available q' l = true → lane_available q l = true
}.

#[export] Instance same_requests_preorder : PreOrder same_requests.
Proof.
  split; [by intros q; split|].
  intros q1 q2 q3 [] []. split; try congruence; [set_solver|auto].
Qed.

Lemma lane_available_mark q i l l' :
  lane_available (mark_in_flight q i l) l' = true → lane_available q l' = true.
Proof.
  destruct l, l'; cbn; try done; rewrite !bool_decide_eq_true.
  - set_solver.
  - intros Hs. eapply Nat.le_lt_trans; [apply subseteq_size|exact Hs]. set_solver.
Qed.

Lemma same_requests_mark q i l : same_requests q (mark_in_flight q i l).
Proof.
  split; [by destruct l..| |by apply lane_available_mark].
  assert (Hf : in_flight (mark_in_flight q i l) = {[i]} ∪ in_flight q) by (by destruct l).
  rewrite Hf. set_solver.
Qed.

Lemma may_release_iff (store : S) now_ms q i p :
  may_release store now_ms q i p = true ↔
  (i ∉ in_flight q) ∧ backoff_elapsed q now_ms i ∧ is_released store (required_seq p) = true ∧
  lane_available q (lane p) = true.
Proof.
  unfold may_release, backoff_elapsed. rewrite !andb_true_iff, bool_decide_eq_true.
  assert (Hb : (match retry_not_before_ms q !! i with Some nb => negb (now_ms <? nb) | None => true end) = true ↔
               ∀ nb, retry_not_before_ms q !! i = Some nb → nb ≤ now_ms).
  { destruct (retry_not_before_ms q !! i) as [nb|]; [|naive_solver].
    rewrite negb_true_iff, Z.ltb_ge. naive_solver. }
  rewrite Hb. tauto.
Qed.

(** Whether an account-data request was already passed. *)
Definition passed_account_data (q : OutgoingQueue) (before : list RequestId) : Prop :=
  ∃ j p, j ∈ before ∧ pending q !! j = Some p ∧ lane p = AccountData.

Record released (store : S) (now_ms : Z) (ids : list RequestId) (q q' : OutgoingQueue)
    (out : list OutgoingRequest) : Prop := {
  rl_inv : qinv q';
  rl_same : same_requests q q';
  rl_sound r : r ∈ out → ∃ p, pending q !! id r = Some p ∧ request p = r ∧ (id r ∉ in_flight q) ∧
    id r ∈ in_flight q' ∧ backoff_elapsed q now_ms (id r) ∧ is_released store (required_seq p) = true ∧
    (lane p = AccountData → heads_account_data q (id r));
  rl_order : sublist (id <$> out) ids;
  rl_maximal i p : i ∈ ids → pending q !! i = Some p → i ∉ in_flight q' →
    ¬ backoff_elapsed q now_ms i ∨ is_released store (required_seq p) = false ∨
    lane_available q' (lane p) = false ∨ (lane p = AccountData ∧ ∃ before after, order q = before ++ i :: after ∧ passed_account_data q before)
}.

Lemma heads_same q q' i : same_requests q q' → heads_account_data q' i → heads_account_data q i.
Proof. intros [Hp Ho _ _ _] (b & a & H1 & H2). exists b, a. by rewrite <- Ho, <- Hp. Qed.

(** Why [releasable] leaves [i] where it is. *)
Definition held_back (store : S) (now_ms : Z) (before : list RequestId) (q : OutgoingQueue) (i : RequestId)
    (p : PendingRequest) : Prop :=
  i ∈ in_flight q ∨ ¬ backoff_elapsed q now_ms i ∨ is_released store (required_seq p) = false ∨
  lane_available q (lane p) = false ∨ (lane p = AccountData ∧ passed_account_data q before).

Lemma may_release_false (store : S) now_ms q i p before :
  may_release store now_ms q i p = false → held_back store now_ms before q i p.
Proof.
  intros Hm. unfold held_back. destruct (decide (i ∈ in_flight q)); [by left|].
  destruct (decide (backoff_elapsed q now_ms i)); [|by right; left].
  destruct (is_released store (required_seq p)) eqn:Hrel; [|by do 2 right; left].
  destruct (lane_available q (lane p)) eqn:Hav; [|by do 3 right; left].
  exfalso. assert (may_release store now_ms q i p = true) by (by apply may_release_iff). congruence.
Qed.

(** The loop's flag, after looking at [i]. *)
Lemma passed_account_data_next q before i p b :
  pending q !! i = Some p → (b = true ↔ passed_account_data q before) →
  (bool_decide (lane p = AccountData) || b = true ↔ passed_account_data q (before ++ [i])).
Proof.
  intros Hp Hb. rewrite orb_true_iff, bool_decide_eq_true, Hb. unfold passed_account_data. split.
  - intros [Hl|(j & pj & ? & ? & ?)]; [exists i, p|exists j, pj]; split_and!; try done; set_solver.
  - intros (j & pj & [Hj|Hj%list_elem_of_singleton]%elem_of_app & Hpj & Hlj); [right; eauto|left; congruence].
Qed.

(** A turn of the loop that skips [i]. *)
Lemma released_skip (store : S) now_ms before i ids q q' out p :
  order q = before ++ i :: ids → pending q !! i = Some p → held_back store now_ms before q i p →
  released store now_ms ids q q' out → released store now_ms (i :: ids) q q' out.
Proof.
  intros Ho Hp Hwhy [H1 H2 H3 H4 H5]. split; try done; [by constructor|].
  intros j pj [->|Hj]%elem_of_cons Hpj Hnf; [|eauto]. simplify_eq.
  destruct Hwhy as [Hif|[?|[?|[Hla|[? ?]]]]]; [|by left|by right; left| |].
  - destruct Hnf. by apply (sq_flight _ _ H2).
  - right; right; left. destruct (lane_available q' (lane p)) eqn:E; [|done].
    apply (sq_lane _ _ H2) in E. congruence.
  - right; right; right. split; [done|]. by exists before, ids.
Qed.

(** A turn of the loop that hands [i] out. *)
Lemma released_mark (store : S) now_ms i ids q q' out p :
  qinv q → pending q !! i = Some p → may_release store now_ms q i p = true →
  (lane p = AccountData → heads_account_data q i) →
  released store now_ms ids (mark_in_flight q i (lane p)) q' out →
  released store now_ms (i :: ids) q q' (request p :: out).
Proof.
  intros Hq Hp (Hni & Hbo & Hrel & Hav)%may_release_iff Hhd [H1 H2 H3 H4 H5].
  pose proof (same_requests_mark q i (lane p)) as Hsame.
  assert (Hid : id (request p) = i) by (by apply (qi_keyed q Hq)).
  assert (Hi2 : i ∈ in_flight q') by (apply (sq_flight _ _ H2); destruct (lane p); cbn; set_solver).
  split; [done|by etrans| |cbn; rewrite Hid; by constructor|].
  - intros r [->|Hr]%elem_of_cons; [exists p; rewrite Hid; by split_and!|].
    destruct (H3 _ Hr) as (p' & Hp' & Hreq & Hnf & Hf & Hbo' & Hrel' & Hhd'). exists p'.
    rewrite (sq_pending _ _ Hsame) in Hp'. unfold backoff_elapsed in *. rewrite (sq_retry _ _ Hsame) in Hbo'.
    split_and!; try done.
    + intros Hin. apply Hnf. by apply (sq_flight _ _ Hsame).
    + intros Hlp. eapply heads_same; eauto.
  - intros j pj [->|Hj]%elem_of_cons Hpj Hnf; [done|].
    rewrite <- (sq_pending _ _ Hsame) in Hpj. destruct (H5 _ _ Hj Hpj Hnf) as [?|[?|[?|[Hlj (b & a & Hoj & Hpass)]]]].
    + left. unfold backoff_elapsed in *. by rewrite (sq_retry _ _ Hsame) in *.
    + by right; left.
    + by do 2 right; left.
    + do 3 right. split; [done|]. exists b, a. unfold passed_account_data in *.
      by rewrite (sq_pending _ _ Hsame), (sq_order _ _ Hsame) in *.
Qed.

Lemma release_loop_released (store : S) now_ms ids before blocked q q' out :
  qinv q → order q = before ++ ids → (blocked = true ↔ passed_account_data q before) →
  release_loop store now_ms ids blocked q = (q', out) → released store now_ms ids q q' out.
Proof.
  revert before blocked q q' out. induction ids as [|i ids IH]; intros before blocked q q' out Hq Ho Hb; cbn.
  { intros [= <- <-]. split; try done; try (intros; set_solver). }
  assert (Ho' : order q = (before ++ [i]) ++ ids) by (by rewrite <- app_assoc).
  destruct (pending q !! i) as [p|] eqn:Hp.
  2:{ exfalso. assert (is_Some (pending q !! i)) as [? ?]; [|congruence].
      apply (qi_order q Hq). rewrite Ho. set_solver. }
  pose proof (passed_account_data_next q before i p blocked Hp Hb) as Hpassed.
  destruct (bool_decide (lane p = AccountData) && blocked) eqn:Hab.
  { intros Hl. apply andb_true_iff in Hab as [Had ->]. eapply released_skip; [done|done| |].
    - boolify. do 4 right. split; [done|]. by apply Hb.
    - eapply (IH (before ++ [i])); [done..| |exact Hl]. rewrite <- Hpassed, Had. done. }
  destruct (may_release store now_ms q i p) eqn:Hm.
  2:{ intros Hl. eapply released_skip; [done|done|by apply may_release_false|]. by eapply (IH (before ++ [i])). }
  assert (Hhd : lane p = AccountData → heads_account_data q i).
  { intros Hl. exists before, ids. split; [done|]. intros j pj Hj Hpj Hlj.
    rewrite bool_decide_eq_true_2 in Hab by done. cbn in Hab. subst blocked.
    assert (false = true); [|done]. apply Hb. exists j, pj. done. }
  pose proof (same_requests_mark q i (lane p)) as Hsame.
  destruct (release_loop store now_ms ids _ (mark_in_flight q i (lane p))) as [q2 out2] eqn:Hl. intros [= <- <-].
  apply released_mark; [done..|]. pose proof Hm as (Hni & _ & _ & Hav)%may_release_iff.
  eapply (IH (before ++ [i])); [by apply qinv_mark|by rewrite (sq_order _ _ Hsame)| |exact Hl].
  unfold passed_account_data. rewrite (sq_pending _ _ Hsame). apply Hpassed.
Qed.

Lemma releasable_released (q : OutgoingQueue) (store : S) now_ms q' out :
  qinv q → releasable q store now_ms = (q', out) → released store now_ms (order q) q q' out.
Proof.
  intros Hq. apply (release_loop_released store now_ms (order q) []); [done|done|].
  split; [done|]. intros (j & p & Hj & _). by apply not_elem_of_nil in Hj.
Qed.

(** ** The protocol *)

(** Queue and store together. A shell hands back the result of a request it was given
    ([in_flight]); [discard_kind] runs before anything was handed out. The store may change in
    any way between the queue's own calls (flushes, acknowledgements, other records). *)
Inductive queue_step : OutgoingQueue * S → OutgoingQueue * S → Prop :=
| qs_enqueue q s req l q' s' r : enqueue q s req l = (q', s', r) → queue_step (q, s) (q', s')
| qs_releasable q s now_ms q' out : releasable q s now_ms = (q', out) → queue_step (q, s) (q', s)
| qs_on_response q s i resp now_ms u q' s' r :
    i ∈ in_flight q → on_response q s i resp now_ms u = (q', s', r) → queue_step (q, s) (q', s')
| qs_on_transport_error q s i now_ms u q' r :
    i ∈ in_flight q → on_transport_error q i now_ms u = (q', r) → queue_step (q, s) (q', s)
| qs_discard_kind q s k q' s' r :
    in_flight q = ∅ → discard_kind q s k = (q', s', r) → queue_step (q, s) (q', s')
| qs_store q s s' : queue_step (q, s) (q, s').

Lemma qinv_enqueue q (s : S) req l q' s' r : qinv q → enqueue q s req l = (q', s', r) → qinv q'.
Proof.
  intros Hq. unfold enqueue. case_decide as Hdup; [by intros [= <- <- <-]|].
  assert (Hnone : pending q !! id req = None) by (by apply eq_None_not_Some).
  destruct (seal_for_request s) as [s1 [seq b]]. destruct (save_pending_request s1 _) as [s2 [[]|e]];
    intros [= <- <- <-]; [|done].
  assert (Hfl : ∀ i l', flying (with_pending q (order q ++ [id req])
            (<[id req := mkPendingRequest req l seq]> (pending q))) i l' ↔ flying q i l').
  { intros i l'. unfold flying. cbn. split; intros [Hi (p & Hp & Hl)]; (split; [done|]); exists p.
    - apply lookup_insert_Some in Hp as [[<- _]|[_ Hp]]; [|done].
      apply (qi_flight q Hq) in Hi as [? ?]. congruence.
    - rewrite lookup_insert_ne; [done|]. congruence. }
  split; cbn.
  - apply NoDup_app. split_and!; [apply Hq| |apply NoDup_singleton].
    intros i Hi ->%list_elem_of_singleton. apply (qi_order q Hq) in Hi as [? ?]. congruence.
  - intros i. rewrite elem_of_app, list_elem_of_singleton, (qi_order q Hq), lookup_insert_is_Some'. naive_solver.
  - intros i p [[<- <-]|[_ Hp]]%lookup_insert_Some; [done|]. by apply (qi_keyed q Hq).
  - intros i Hi. apply lookup_insert_is_Some'. right. by apply (qi_flight q Hq).
  - intros i l' Hi%Hfl. by apply (qi_occupied q Hq).
  - intros i j l' Hex Hi%Hfl Hj%Hfl. by eapply (qi_exclusive q Hq).
  - intros [j Hj]%(qi_sync q Hq). exists j. by apply Hfl.
  - intros [j Hj]%(qi_to_device q Hq). exists j. by apply Hfl.
  - intros r [j Hj]%(qi_room q Hq). exists j. by apply Hfl.
  - intros j Hj%(qi_other q Hq). by apply Hfl.
  - apply Hq.
  - intros j Hj%Hfl. destruct (qi_account_data q Hq _ Hj) as (b' & a & Ho & Hb).
    exists b', (a ++ [id req]). cbn. split; [by rewrite Ho, <- app_assoc|].
    intros k p Hk [[<- <-]|[_ Hp]]%lookup_insert_Some; [|by eapply Hb].
    assert (is_Some (pending q !! id req)) as [? ?]; [|congruence].
    apply (qi_order q Hq). rewrite Ho. set_solver.
Qed.

Lemma qinv_backoff q i u q' ms : qinv q → next_backoff_ms q i u = (q', ms) → qinv q'.
Proof. unfold next_backoff_ms. intros Hq [= <- _]. by apply qinv_retry. Qed.

Lemma qinv_on_response q (s : S) i resp now_ms u q' s' r :
  qinv q → answerable q i → on_response q s i resp now_ms u = (q', s', r) → qinv q'.
Proof.
  intros Hq Ha. unfold on_response. destruct (pending q !! i) as [p|] eqn:Hp; [|by intros [= <- <- <-]].
  pose proof (qinv_clear q i p Hq Hp Ha) as Hc.
  destruct (_ && _).
  { destruct (complete q s i) as [[q1 s1] r1] eqn:Hcp. intros [= <- <- <-]. exact (qinv_complete _ _ _ _ _ _ Hq Ha Hcp). }
  destruct (_ =? _).
  { destruct (retry_after_ms_from_body resp) as [ms|].
    - intros [= <- <- <-]. by apply qinv_retry.
    - cbn -[set_not_before clear_in_flight]. intros [= <- <- <-]. by do 2 apply qinv_retry. }
  destruct (_ && _).
  { cbn -[set_not_before clear_in_flight]. intros [= <- <- <-]. by do 2 apply qinv_retry. }
  destruct (default _ _) as [c e]. destruct (complete q s i) as [[q1 s1] r1] eqn:Hcp.
  intros [= <- <- <-]. exact (qinv_complete _ _ _ _ _ _ Hq Ha Hcp).
Qed.

Lemma qinv_complete_all q (s : S) ids q' s' r :
  qinv q → in_flight q = ∅ → complete_all q s ids = (q', s', r) → qinv q' ∧ in_flight q' = ∅.
Proof.
  revert q s; induction ids as [|i ids IH]; intros q s Hq He; cbn; [by intros [= <- <- <-]|].
  destruct (complete q s i) as [[q1 s1] r1] eqn:Hc.
  assert (Hq1 : qinv q1) by (eapply qinv_complete; [done|by right|done]).
  assert (He1 : in_flight q1 = ∅).
  { destruct (pending q !! i) as [p|] eqn:Hp.
    - destruct (complete_queue _ _ _ _ _ _ _ Hp Hc) as (a & n & ->). cbn.
      destruct (clear_fields q i (lane p)) as (_ & _ & ->). set_solver.
    - unfold complete in Hc. rewrite Hp in Hc. by injection Hc as <- <- <-. }
  destruct r1; [by apply IH|by intros [= <- <- <-]].
Qed.

Lemma queue_step_inv x y : qinv x.1 → queue_step x y → qinv y.1.
Proof.
  intros Hq Hs. destruct Hs; cbn in *.
  - by eapply qinv_enqueue.
  - by eapply rl_inv, releasable_released.
  - eapply qinv_on_response; [done|by left|done].
  - match goal with Ht : on_transport_error _ _ _ _ = _ |- _ => revert Ht end.
    unfold on_transport_error. destruct (pending q !! i) as [p|] eqn:Hp; [|by intros [= <- <-]].
    intros [= <- <-]. do 2 apply qinv_retry. apply qinv_clear; [done|done|by left].
  - by eapply qinv_complete_all.
  - done.
Qed.

Lemma queue_steps_inv x y : qinv x.1 → rtc queue_step x y → qinv y.1.
Proof. intros Hq Hr. revert Hq. induction Hr; eauto using queue_step_inv. Qed.

(** ** Restart *)

Lemma load_record_fields q r :
  order (load_record q r) = order q ++ [id (request r)] ∧
  in_flight (load_record q r) = in_flight q ∧ sync_in_flight (load_record q r) = sync_in_flight q ∧
  to_device_in_flight (load_record q r) = to_device_in_flight q ∧
  room_in_flight (load_record q r) = room_in_flight q ∧ other_in_flight (load_record q r) = other_in_flight q ∧
  ∃ r', id (request r') = id (request r) ∧ request r' = request r ∧ required_seq r' = required_seq r ∧
    pending (load_record q r) = <[id (request r) := r']> (pending q).
Proof.
  unfold load_record. destruct (_ && _); cbn; split_and!; try done;
    [eexists (mkPendingRequest _ AccountData _)|exists r]; done.
Qed.

(** A queue with nothing in flight, as [load] builds it. *)
Definition idle (q : OutgoingQueue) : Prop :=
  in_flight q = ∅ ∧ sync_in_flight q = false ∧ to_device_in_flight q = false ∧
  room_in_flight q = ∅ ∧ other_in_flight q = ∅.

Lemma load_records_fold records q :
  idle q → NoDup (order q ++ ((λ r, id (request r)) <$> records)) →
  (∀ i, i ∈ order q ↔ is_Some (pending q !! i)) → (∀ i p, pending q !! i = Some p → id (request p) = i) →
  idle (foldl load_record q records) ∧ NoDup (order (foldl load_record q records)) ∧
  order (foldl load_record q records) = order q ++ ((λ r, id (request r)) <$> records) ∧
  (∀ i, i ∈ order (foldl load_record q records) ↔ is_Some (pending (foldl load_record q records) !! i)) ∧
  (∀ i p, pending (foldl load_record q records) !! i = Some p → id (request p) = i).
Proof.
  revert q; induction records as [|r records IH]; intros q Hidle Hnd Hord Hkey; cbn [foldl].
  { rewrite fmap_nil, app_nil_r in *. done. }
  destruct (load_record_fields q r) as (Ho & Hf & Hs & Ht & Hr & Hoth & r' & Hid & _ & _ & Hp).
  rewrite fmap_cons, cons_middle, app_assoc, <- Ho in Hnd. rewrite fmap_cons, cons_middle, app_assoc, <- Ho.
  apply IH; [|done| |].
  - unfold idle in *. by rewrite Hf, Hs, Ht, Hr, Hoth.
  - intros i. rewrite Ho, Hp, elem_of_app, list_elem_of_singleton, Hord, lookup_insert_is_Some'. naive_solver.
  - intros i p. rewrite Hp. intros [[<- <-]|[_ ?]]%lookup_insert_Some; [done|auto].
Qed.

Lemma qinv_idle q :
  idle q → NoDup (order q) → (∀ i, i ∈ order q ↔ is_Some (pending q !! i)) →
  (∀ i p, pending q !! i = Some p → id (request p) = i) → qinv q.
Proof.
  intros (Hf & Hs & Ht & Hr & Ho) Hnd Hord Hkey.
  assert (Hno : ∀ i l, ¬ flying q i l) by (intros i l [Hi _]; set_solver).
  split; try done.
  - intros i Hi. rewrite Hf in Hi. by apply not_elem_of_empty in Hi.
  - intros i l Hi. by destruct (Hno i l).
  - intros i j l _ Hi. by destruct (Hno i l).
  - rewrite Hs. done.
  - rewrite Ht. done.
  - intros r Hi. rewrite Hr in Hi. by apply not_elem_of_empty in Hi.
  - intros i Hi. rewrite Ho in Hi. by apply not_elem_of_empty in Hi.
  - rewrite Ho, size_empty. unfold OTHER_LANE_CONCURRENCY. lia.
  - intros i Hi. by destruct (Hno i AccountData).
Qed.

#[export] Instance by_id_trans : Transitive by_id.
Proof. intros a b c. unfold by_id. by etrans. Qed.
#[export] Instance by_id_total : Total by_id.
Proof. intros a b. apply (total RequestId_le). Qed.

Lemma load_queue (s : S) records q :
  pending_requests s = Ok records → NoDup ((λ r, id (request r)) <$> records) → load s = Ok q →
  qinv q ∧ idle q ∧ order q = (λ r, id (request r)) <$> merge_sort by_id records.
Proof.
  intros Hrec Hnd. unfold load. rewrite Hrec. intros [= <-].
  destruct (load_records_fold (merge_sort by_id records) OutgoingQueue_new) as (Hidle & Hn & Ho & Hord & Hkey).
  - done.
  - cbn. by rewrite (merge_sort_Permutation by_id records).
  - intros i. cbn. split; [by intros ?%not_elem_of_nil|by intros [? ?]].
  - done.
  - split; [by apply qinv_idle|]. done.
Qed.

(** A queue and store some run of the protocol reaches after a restart. *)
Definition queue_reachable (q : OutgoingQueue) (s : S) : Prop :=
  ∃ s0 records q0, pending_requests s0 = Ok records ∧ NoDup ((λ r, id (request r)) <$> records) ∧
    load s0 = Ok q0 ∧ rtc queue_step (q0, s0) (q, s).

Lemma queue_reachable_inv q s : queue_reachable q s → qinv q.
Proof.
  intros (s0 & records & q0 & Hrec & Hnd & Hl & Hr).
  destruct (load_queue s0 records q0 Hrec Hnd Hl) as (Hq & _). exact (queue_steps_inv (q0, s0) (q, s) Hq Hr).
Qed.

Lemma closed_lane_flies q l : qinv q → lane_available q l = false → ∃ i, flying q i l.
Proof.
  intros Hq. destruct l; cbn.
  - intros Hs. boolify. by apply (qi_sync q Hq).
  - intros Hs. boolify. by apply (qi_to_device q Hq).
  - intros Hs. boolify. apply (qi_room q Hq). by destruct (decide (room_id ∈ room_in_flight q)).
  - done.
  - intros Hs. boolify. unfold OTHER_LANE_CONCURRENCY in *.
    destruct (size_pos_elem_of (other_in_flight q)) as [i Hi]; [lia|]. exists i. by apply (qi_other q Hq).
Qed.

(** ** Theorems *)

(** C37: in every run of the protocol, the sync lane, the to-device lane, the account-data lane and
    each room's lane have at most one request in flight, at most four others are, and a lane that
    refuses a request really has one in flight (no lane stays closed for nothing). *)
Theorem lanes_stay_exclusive q s :
  queue_reachable q s →
  (∀ i j l, exclusive l → flying q i l → flying q j l → i = j) ∧
  (size (other_in_flight q) ≤ 4)%nat ∧ (∀ i, flying q i Other ↔ i ∈ other_in_flight q) ∧
  (∀ l, lane_available q l = false → ∃ i, flying q i l).
Proof.
  intros Hq%queue_reachable_inv. split_and!.
  - apply (qi_exclusive q Hq).
  - apply (qi_other_size q Hq).
  - intros i. split; [apply (qi_occupied q Hq)|apply (qi_other q Hq)].
  - intros l. by apply closed_lane_flies.
Qed.

(** Whatever [releasable] hands out is the stored request itself, was not in flight, has its
    backoff behind it and its flush epoch acknowledged, heads its lane if it writes account data,
    and comes in enqueue order; it is in flight afterwards. *)
Theorem released_requests_are_safe q s now_ms q' out :
  queue_reachable q s → releasable q s now_ms = (q', out) →
  sublist (id <$> out) (order q) ∧
  ∀ r, r ∈ out → ∃ p, pending q !! id r = Some p ∧ request p = r ∧ (id r ∉ in_flight q) ∧
    id r ∈ in_flight q' ∧ backoff_elapsed q now_ms (id r) ∧ is_released s (required_seq p) = true ∧
    (lane p = AccountData → heads_account_data q (id r)).
Proof.
  intros Hq%queue_reachable_inv Hr. destruct (releasable_released _ _ _ _ _ Hq Hr) as [_ _ Hs Ho _]. done.
Qed.

(** [releasable] leaves nothing behind that could go: a request not in flight afterwards is
    backing off, waits on its flush epoch, finds its lane closed, or is account data behind earlier
    account data. *)
Theorem releasable_is_maximal q s now_ms q' out i p :
  queue_reachable q s → releasable q s now_ms = (q', out) →
  pending q !! i = Some p → i ∉ in_flight q' →
  ¬ backoff_elapsed q now_ms i ∨ is_released s (required_seq p) = false ∨
  lane_available q' (lane p) = false ∨
  (lane p = AccountData ∧ ∃ before after, order q = before ++ i :: after ∧ passed_account_data q before).
Proof.
  intros Hq%queue_reachable_inv Hr Hp Hnf. destruct (releasable_released _ _ _ _ _ Hq Hr) as [_ _ _ _ Hm].
  apply Hm; [|done|done]. apply (qi_order q Hq). eauto.
Qed.

(** The request records a step leaves alone. *)
Lemma complete_pending (q : OutgoingQueue) (s : S) i q' s' r j p :
  complete q s i = (q', s', r) → pending q !! j = Some p → pending q' !! j = Some p ∨ pending q' !! j = None.
Proof.
  intros Hc Hj. destruct (pending q !! i) as [pi|] eqn:Hp.
  - destruct (complete_queue _ _ _ _ _ _ _ Hp Hc) as (a & n & ->). cbn.
    destruct (clear_fields q i (lane pi)) as (-> & _ & _). destruct (decide (j = i)) as [->|Hne].
    + right. apply lookup_delete_eq.
    + left. by rewrite lookup_delete_ne.
  - unfold complete in Hc. rewrite Hp in Hc. injection Hc as <- <- <-. by left.
Qed.

Lemma complete_all_pending ids (q : OutgoingQueue) (s : S) q' s' r j p :
  complete_all q s ids = (q', s', r) → pending q !! j = Some p → pending q' !! j = Some p ∨ pending q' !! j = None.
Proof.
  assert (Hnone : ∀ ids (q : OutgoingQueue) (s : S) q' s' r, complete_all q s ids = (q', s', r) →
            pending q !! j = None → pending q' !! j = None).
  { clear. intros ids. induction ids as [|i ids IH]; intros q s q' s' r; cbn; [by intros [= <- <- <-]|].
    destruct (complete q s i) as [[q1 s1] r1] eqn:Hc. intros Hall Hj.
    assert (pending q1 !! j = None).
    { destruct (pending q !! i) as [pi|] eqn:Hp.
      - destruct (complete_queue _ _ _ _ _ _ _ Hp Hc) as (a & n & ->). cbn.
        destruct (clear_fields q i (lane pi)) as (-> & _ & _). apply lookup_delete_None. by right.
      - unfold complete in Hc. rewrite Hp in Hc. by injection Hc as <- <- <-. }
    destruct r1; [by eapply IH|by injection Hall as <- <- <-]. }
  revert q s. induction ids as [|i ids IH]; intros q s; cbn; [intros [= <- <- <-]; by left|].
  destruct (complete q s i) as [[q1 s1] r1] eqn:Hc. intros Hall Hj.
  destruct (complete_pending _ _ _ _ _ _ _ _ Hc Hj) as [Hj1|Hj1];
    (destruct r1; [|injection Hall as <- <- <-; auto]); [by eapply IH|right; by eapply Hnone].
Qed.

(** A retry is the same request: no step of the protocol changes a pending request's bytes,
    lane or flush epoch; it stays as it is until it is completed or discarded. *)
Theorem pending_requests_are_immutable q s q' s' i p :
  qinv q → queue_step (q, s) (q', s') → pending q !! i = Some p →
  pending q' !! i = Some p ∨ pending q' !! i = None.
Proof.
  intros Hq Hs Hi. inversion Hs; subst.
  - match goal with He : enqueue _ _ _ _ = _ |- _ => revert He end. unfold enqueue. case_decide; [by intros [= <- <- <-]; left|].
    destruct (seal_for_request s) as [s1 [seq b]]. destruct (save_pending_request s1 _) as [s2 [[]|e]];
      intros [= <- <- <-]; [|by left]. left. cbn. rewrite lookup_insert_ne; [done|]. intros Heq. subst i.
    match goal with Hn : ¬ is_Some _ |- _ => apply Hn end. eauto.
  - left. match goal with Hr : releasable _ _ _ = _ |- _ => destruct (releasable_released _ _ _ _ _ Hq Hr) as [_ [-> _ _ _ _] _ _ _] end. done.
  - match goal with Hr : on_response _ _ _ _ _ _ = _ |- _ => revert Hr end. unfold on_response.
    destruct (pending q !! i0) as [pi|] eqn:Hp; [|by intros [= <- <- <-]; left].
    destruct (complete q s _) as [[q1 s1] r1] eqn:Hcp.
    destruct (clear_fields q i0 (lane pi)) as (Hpd & _ & _).
    repeat match goal with |- (if ?c then _ else _) = _ → _ => destruct c end.
    + intros [= <- <- <-]. by eapply complete_pending.
    + destruct (retry_after_ms_from_body resp); cbn -[clear_in_flight]; intros [= <- <- <-]; left; cbn; by rewrite Hpd.
    + cbn -[clear_in_flight]; intros [= <- <- <-]; left; cbn; by rewrite Hpd.
    + destruct (default _ _). intros [= <- <- <-]. by eapply complete_pending.
  - match goal with Hr : on_transport_error _ _ _ _ = _ |- _ => revert Hr end. unfold on_transport_error.
    destruct (pending q !! i0) as [pi|] eqn:Hp; [|by intros [= <- <-]; left].
    destruct (clear_fields q i0 (lane pi)) as (Hpd & _ & _).
    cbn -[clear_in_flight]. intros [= <- <-]. left. cbn. by rewrite Hpd.
  - by eapply complete_all_pending.
  - by left.
Qed.

(** A restart rebuilds the queue in id order with nothing in flight and no backoff: with ids
    minted from one counter, that is the order the requests were enqueued in. *)
Theorem reload_restores_order s records q :
  pending_requests s = Ok records → NoDup ((λ r, id (request r)) <$> records) → load s = Ok q →
  StronglySorted RequestId_le (order q) ∧ (order q ≡ₚ (λ r, id (request r)) <$> records) ∧
  idle q ∧ qinv q.
Proof.
  intros Hrec Hnd Hl. destruct (load_queue s records q Hrec Hnd Hl) as (Hq & Hidle & ->). split_and!; try done.
  - pose proof (StronglySorted_merge_sort by_id records) as Hs. revert Hs. generalize (merge_sort by_id records) as l.
    intros l. induction 1 as [|x l Hl' IH Hx]; cbn; constructor; [done|].
    apply Forall_fmap. exact Hx.
  - by rewrite (merge_sort_Permutation by_id records).
Qed.
End Props.

(** ** Backoff *)

Lemma f64_round_nonneg x : 0 ≤ f64_round_as_u64 x.
Proof.
  unfold f64_round_as_u64. destruct x as [|[]| |[] m e]; try done.
  apply Z.min_glb; [|done]. destruct (Z.leb_spec 0 e).
  - apply Z.mul_nonneg_nonneg; [lia|]. apply Z.pow_nonneg. lia.
  - apply Z.div_pos; [|apply Z.pow_pos_nonneg; lia]. pose proof (Z.pow_nonneg 2 (- e - 1)). lia.
Qed.

(** The backoff never exceeds a minute, whatever the jitter sample (a NaN included), stops
    growing at the sixth attempt, and at the ends of the jitter range is half of and all of
    1000 * 2^attempt up to the cap. *)
Theorem backoff_is_capped attempt u :
  0 ≤ capped_exponential_backoff_ms attempt u ≤ BACKOFF_CAP_MS ∧
  (6 ≤ attempt → capped_exponential_backoff_ms attempt u = capped_exponential_backoff_ms 6 u) ∧
  (∀ a, 0 ≤ a → capped_exponential_backoff_ms a f64_one = Z.min (1000 * 2 ^ Z.min a 6) 60000 ∧
     2 * capped_exponential_backoff_ms a f64_zero = Z.min (1000 * 2 ^ Z.min a 6) 60000).
Proof.
  split_and!.
  - unfold capped_exponential_backoff_ms. apply Z.min_glb; [apply f64_round_nonneg|done].
  - unfold capped_exponential_backoff_ms. apply Z.le_min_r.
  - intros Ha. unfold capped_exponential_backoff_ms. by rewrite (Z.min_r attempt 6) by done.
  - intros a Ha. unfold capped_exponential_backoff_ms.
    assert (Hm : 0 ≤ Z.min a 6 ≤ 6) by lia. generalize dependent (Z.min a 6). intros m Hm.
    assert (m = 0 ∨ m = 1 ∨ m = 2 ∨ m = 3 ∨ m = 4 ∨ m = 5 ∨ m = 6) as Hc by lia.
    destruct Hc as [->|[->|[->|[->|[->|[->| ->]]]]]]; vm_compute; done.
Qed.

(** A server asking for a wait of 2^63 ms or more is retried at once: the cast to [i64] wraps. *)
Lemma huge_retry_after_wraps now after :
  0 ≤ now ≤ i64_max → 2 ^ 63 ≤ after < u64_mod → i64_saturating_add now (u64_as_i64 after) < now.
Proof.
  intros Hn Ha. unfold i64_saturating_add, u64_as_i64, i64_max, i64_min, u64_mod in *.
  destruct (Z.leb_spec after 9223372036854775807); lia.
Qed.

(** ** Witnesses *)

Module QueueWitnesses.

(** A JSON of one number, read from hexadecimal. *)
#[export] Instance tiny_json : SerdeJson := {|
  Value := string;
  from_slice s := Some s;
  json_get v k := if decide (k = "retry_after_ms") then Some v else None;
  as_u64 v := from_str_radix16 v;
  as_str v := Some v
|}.

(** Pending records by id, with a flush gate that every record goes through. *)
Record TinyStore := mkTinyStore { ts_pending : gmap RequestId PendingRequest; ts_gate : FlushGate }.

#[export] Instance TinyStore_StateStore : StateStore TinyStore := {|
  pending_requests s := Ok (btree_entries RequestId_str (ts_pending s)).*2;
  save_pending_request s r :=
    (mkTinyStore (<[id (request r) := r]> (ts_pending s))
       (mark_dirty (ts_gate s) (mkRecordKey ("pending/" +:+ RequestId_str (id (request r)))) "sealed"), Ok tt);
  delete_pending_request s i :=
    (mkTinyStore (delete i (ts_pending s))
       (mark_deleted (ts_gate s) (mkRecordKey ("pending/" +:+ RequestId_str i))), Ok tt)
|}.

#[export] Instance TinyStore_FlushEpoch : FlushEpoch TinyStore := {|
  seal_for_request s := let '(g, x) := gate_seal_for_request (ts_gate s) in (mkTinyStore (ts_pending s) g, x);
  is_released s := gate_is_released (ts_gate s)
|}.

Definition empty_store : TinyStore := mkTinyStore ∅ FlushGate_new.
Definition room : Lane := Room (mkRoomId "!r:x").
Definition req (n : Z) : OutgoingRequest := mkOutgoingRequest (RequestId_next n) Put "/send" [] None RoomSend.

Definition enq (n : Z) (l : Lane) (x : OutgoingQueue * TinyStore) : OutgoingQueue * TinyStore :=
  (enqueue x.1 x.2 (req n) l).1.

(** All batches handed out so far are acknowledged. *)
Definition flushed (x : OutgoingQueue * TinyStore) : OutgoingQueue * TinyStore :=
  (x.1, mkTinyStore (ts_pending x.2) (mkFlushGate (next_batch_id (ts_gate x.2)) ∅ ∅)).

Definition x0 : OutgoingQueue * TinyStore := flushed (enq 2 room (enq 1 room (OutgoingQueue_new, empty_store))).
Definition rel0 : OutgoingQueue * list OutgoingRequest := releasable x0.1 x0.2 0.

Lemma x0_reachable : queue_reachable x0.1 x0.2.
Proof.
  exists empty_store, [], OutgoingQueue_new. split_and!; [reflexivity|constructor|reflexivity|].
  eapply rtc_l. { eapply (qs_enqueue _ _ (req 1) room). reflexivity. }
  eapply rtc_l. { eapply (qs_enqueue _ _ (req 2) room). reflexivity. }
  eapply rtc_l; [apply qs_store|apply rtc_refl].
Qed.

Lemma rel0_reachable : queue_reachable rel0.1 x0.2.
Proof.
  destruct x0_reachable as (s0 & rs & q0 & Hrec & Hnd & Hl & Hr). exists s0, rs, q0. split_and!; try done.
  eapply rtc_r; [exact Hr|]. apply (qs_releasable x0.1 x0.2 0 rel0.1 rel0.2), surjective_pairing.
Qed.

Lemma lanes_stay_exclusive_witness :
  (∀ i j l, exclusive l → flying rel0.1 i l → flying rel0.1 j l → i = j) ∧
  (size (other_in_flight rel0.1) ≤ 4)%nat ∧ (∀ i, flying rel0.1 i Other ↔ i ∈ other_in_flight rel0.1) ∧
  (∀ l, lane_available rel0.1 l = false → ∃ i, flying rel0.1 i l).
Proof. apply (lanes_stay_exclusive rel0.1 x0.2), rel0_reachable. Defined.

Lemma released_requests_are_safe_witness :
  id <$> rel0.2 = [RequestId_next 1] ∧ sublist (id <$> rel0.2) (order x0.1).
Proof.
  split; [reflexivity|].
  apply (released_requests_are_safe x0.1 x0.2 0 rel0.1 rel0.2); [apply x0_reachable|apply surjective_pairing].
Defined.

(** Request [n] as the queue holds it. *)
Definition pend (n : Z) : PendingRequest :=
  match pending x0.1 !! RequestId_next n with Some p => p | None => mkPendingRequest (req n) Other RequiredSeq_NONE end.

Lemma releasable_is_maximal_witness :
  ∃ p, pending x0.1 !! RequestId_next 2 = Some p ∧
  (¬ backoff_elapsed x0.1 0 (RequestId_next 2) ∨ is_released x0.2 (required_seq p) = false ∨
   lane_available rel0.1 (lane p) = false ∨
   (lane p = AccountData ∧ ∃ before after, order x0.1 = before ++ RequestId_next 2 :: after ∧ passed_account_data x0.1 before)).
Proof.
  exists (pend 2). split; [reflexivity|].
  apply (releasable_is_maximal x0.1 x0.2 0 rel0.1 rel0.2 (RequestId_next 2) (pend 2));
    [apply x0_reachable|apply surjective_pairing|reflexivity|].
  apply (bool_decide_unpack _). vm_compute. exact I.
Defined.

Definition failed1 : OutgoingQueue * option ResponseOutcome :=
  on_transport_error rel0.1 (RequestId_next 1) 0 f64_zero.

Lemma pending_requests_are_immutable_witness :
  ∃ p, pending rel0.1 !! RequestId_next 1 = Some p ∧
  (pending failed1.1 !! RequestId_next 1 = Some p ∨ pending failed1.1 !! RequestId_next 1 = None).
Proof.
  exists (pend 1). split; [reflexivity|].
  apply (pending_requests_are_immutable rel0.1 x0.2 failed1.1 x0.2 (RequestId_next 1) (pend 1)).
  - eapply queue_reachable_inv, rel0_reachable.
  - eapply (qs_on_transport_error _ _ (RequestId_next 1) 0 f64_zero); [|apply surjective_pairing].
    apply (bool_decide_unpack _). vm_compute. exact I.
  - reflexivity.
Defined.

Definition reloaded : OutgoingQueue :=
  match load x0.2 with Ok q => q | Err _ => OutgoingQueue_new end.

Lemma reload_restores_order_witness :
  order reloaded = [RequestId_next 1; RequestId_next 2] ∧ StronglySorted RequestId_le (order reloaded).
Proof.
  split; [vm_compute; reflexivity|].
  eapply (reload_restores_order x0.2 _ reloaded); [reflexivity| |reflexivity].
  apply (bool_decide_unpack _). vm_compute. exact I.
Defined.

(** A request of a room lane that is backing off is overtaken by the next one of the same room. *)
Lemma room_retry_is_overtaken :
  id <$> (releasable x0.1 x0.2 0).2 = [RequestId_next 1] ∧
  id <$> (releasable failed1.1 x0.2 0).2 = [RequestId_next 2].
Proof. vm_compute. done. Qed.
End QueueWitnesses.
