(* ===== verification/EventGraph.v ===== *)
(** * The event graph of a room (crates/m4a-matrix-core/src/pdu.rs, resolve.rs, dag.rs, signer.rs)

    Room events cite the events before them ([prev_events]) and the events that authorise them
    ([auth_events]). This file models how an event is read off the wire, how the transitive auth
    chain of a set of events is collected, how forked states are resolved, and how a new, a
    historic or a local event is accepted into the graph.

    The rules of Matrix themselves (authorisation rules, state resolution, hashes, signatures,
    redaction, identifiers) and JSON come from the ruma and serde_json crates: they are the members
    of the class [Ruma], what the code relies on is in [RumaLaws]. A store answers reads from
    finitely many events, so [DagRead], the reads of one acceptance, is a record of finite maps.
    The closures passed to ruma are functions; the closure of [resolve] that never finds a
    conflicted subgraph ([|_| None]) is constant and left out. *)

From S2P Require Import Prelude.

Local Open Scope Z_scope.

(** ** Data *)

(** An [OwnedEventId], [OwnedRoomId] or [OwnedUserId] is its text; [TimelineEventType] and
    [StateEventType] are the text they print. *)
Definition EventId := string.

(** [StateMap<OwnedEventId>]: from event type and state key. *)
Definition StateMap := gmap (string * string) EventId.

Record Pdu := mkPdu {
  event_id : EventId;
  room_id : string;
  sender : string;
  origin_server_ts : Z;
  kind : string;
  content : string;
  state_key : option string;
  prev_events : list EventId;
  auth_events : list EventId;
  depth : Z;
  redacts : option EventId;
  rejected : bool }.

Inductive Verified := VerifiedAll | VerifiedSignatures.

Record Signer := mkSigner { server : string; key_id : string; sign : string → string }.

(** ** What the code uses of ruma and serde_json *)

Class Ruma := {
  Value : Type;
  value_get : Value → string → option Value;
  as_str : Value → option string;
  as_array : Value → option (list Value);
  as_u64 : Value → option Z;
  value_to_string : Value → string;
  json_str : string → Value;
  json_u64 : Z → Value;
  json_array : list Value → Value;
  json_object : list (string * Value) → Value;
  value_set : Value → string → Value → Value;
  RawValue_from_string : string → result string string;
  CanonicalJsonObject : Type;
  CanonicalJsonObject_eq_dec :: EqDecision CanonicalJsonObject;
  to_value : CanonicalJsonObject → result Value string;
  from_value : Value → result CanonicalJsonObject string;
  EventId_parse : string → result EventId string;
  RoomId_parse : string → result string string;
  UserId_parse : string → result string string;
  UInt_try_from : Z → result Z string;
  TimelineEventType_from : string → string;
  StateEventType_from : string → string;
  AuthorizationRules : Type;
  RedactionRules : Type;
  StateResolutionV2Rules : Type;
  PublicKeyMap : Type
}.

(** [StateResolutionVersion]: only version 2 has rules of its own. *)
Inductive StateResolutionVersion `{Ruma} := V1 | V2 (rules : StateResolutionV2Rules).

Record RoomVersionRules `{Ruma} := mkRoomVersionRules {
  authorization : AuthorizationRules;
  redaction : RedactionRules;
  state_res : StateResolutionVersion }.

Class RumaRules `{Ruma} := {
  reference_hash : CanonicalJsonObject → RoomVersionRules → result string string;
  verify_event : PublicKeyMap → CanonicalJsonObject → RoomVersionRules → result Verified string;
  redact : CanonicalJsonObject → RedactionRules → result CanonicalJsonObject string;
  hash_and_sign_event :
    string → Signer → CanonicalJsonObject → RedactionRules → result CanonicalJsonObject string;
  check_state_independent_auth_rules :
    AuthorizationRules → Pdu → (EventId → option Pdu) → result unit string;
  check_state_dependent_auth_rules :
    AuthorizationRules → Pdu → (string → string → option Pdu) → result unit string;
  auth_types_for_event :
    string → string → option string → string → AuthorizationRules → result (list (string * string)) string;
  resolve :
    AuthorizationRules → StateResolutionV2Rules → list StateMap → list (gset EventId) →
    (EventId → option Pdu) → result StateMap string
}.

(** The members of a signed event that signing writes. *)
Definition signature_fields : list string := ["hashes"; "signatures"; "unsigned"].

(** What the code relies on. An identifier parses to itself; JSON built with [json!] reads back
    member by member, also through the canonical form; signing leaves the other members alone. *)
Class RumaLaws `{RumaRules} : Prop := {
  EventId_parse_text s e : EventId_parse s = Ok e → e = s;
  as_str_json s : as_str (json_str s) = Some s;
  as_u64_json n : 0 ≤ n < u64_mod → as_u64 (json_u64 n) = Some n;
  as_array_json vs : as_array (json_array vs) = Some vs;
  value_get_json kvs k : value_get (json_object kvs) k = snd <$> List.find (λ kv, bool_decide (kv.1 = k)) kvs;
  value_get_set v k w k' :
    value_get (value_set v k w) k' = if decide (k' = k) then Some w else value_get v k';
  from_value_get v o : from_value v = Ok o → ∃ v', to_value o = Ok v' ∧ ∀ k, value_get v' k = value_get v k;
  hash_and_sign_get s sg o rs o' v :
    hash_and_sign_event s sg o rs = Ok o' → to_value o = Ok v →
    ∃ v', to_value o' = Ok v' ∧ ∀ k, k ∉ signature_fields → value_get v' k = value_get v k;
  StateEventType_from_idemp s : StateEventType_from (StateEventType_from s) = StateEventType_from s
}.

Section Core.
Context `{RumaRules}.

(** ** pdu.rs *)

Definition from_wire (id : EventId) (obj : CanonicalJsonObject) : result Pdu string :=
  let? v := to_value obj in
  let s k := value_get v k ≫= as_str in
  let ids k :=
    match value_get v k ≫= as_array with
    | Some a => try_map (λ e, let? e := ok_or (as_str e) "event id" in EventId_parse e) a
    | None => Ok []
    end in
  let? room := ok_or (s "room_id") "room_id" in
  let? room := RoomId_parse room in
  let? from := ok_or (s "sender") "sender" in
  let? from := UserId_parse from in
  let? ts := ok_or (value_get v "origin_server_ts" ≫= as_u64) "origin_server_ts" in
  let? ts := UInt_try_from ts in
  let? ty := ok_or (s "type") "type" in
  let? body := ok_or (value_get v "content") "content" in
  let? body := RawValue_from_string (value_to_string body) in
  let? prev := ids "prev_events" in
  let? auth := ids "auth_events" in
  Ok (mkPdu id room from ts (TimelineEventType_from ty) body (s "state_key") prev auth
        (default 0 (value_get v "depth" ≫= as_u64)) None false).

(** ** resolve.rs *)

Inductive ResolveError := ResolveVersion | ResolveFailed (reason : string).

(** The text of a [ResolveError]. *)
Definition ResolveError_text (e : ResolveError) : string :=
  match e with
  | ResolveVersion => "room version has no state resolution v2"
  | ResolveFailed reason => "state resolution failed: " +:+ reason
  end.

(** [while let Some(id) = todo.pop()]; the end of the vector is the head of [todo]. *)
Fixpoint auth_chain_loop (fuel : nat) (fetch : gmap EventId Pdu) (todo : list EventId)
    (seen : gset EventId) : gset EventId :=
  match fuel, todo with
  | S fuel, id :: todo =>
      if decide (id ∈ seen) then auth_chain_loop fuel fetch todo seen
      else
        let todo := match fetch !! id with
                    | Some p => reverse (auth_events p) ++ todo
                    | None => todo
                    end in
        auth_chain_loop fuel fetch todo ({[id]} ∪ seen)
  | _, _ => seen
  end.

(** Every round pops one id; an id is pushed once for each citation of it. *)
Definition auth_chain_fuel (fetch : gmap EventId Pdu) (ids : list EventId) : nat :=
  length ids + map_fold (λ _ p n, length (auth_events p) + n)%nat 0%nat fetch.

Definition auth_chain_with (fetch : gmap EventId Pdu) (ids : list EventId) : gset EventId :=
  auth_chain_loop (auth_chain_fuel fetch ids) fetch (reverse ids) ∅.

Definition auth_chain (pdus : gmap EventId Pdu) (ids : list EventId) : gset EventId :=
  auth_chain_with pdus ids.

(** [map.values()] *)
Definition values {A} (m : gmap (string * string) A) : list A := (map_to_list m).*2.

Definition resolve_state_with (rules : RoomVersionRules) (fetch : gmap EventId Pdu)
    (forks : list StateMap) : result StateMap ResolveError :=
  match state_res rules with
  | V2 v2 =>
      let chains := (λ f, auth_chain_with fetch (values f)) <$> forks in
      map_err ResolveFailed (resolve (authorization rules) v2 forks chains (λ id, fetch !! id))
  | V1 => Err ResolveVersion
  end.

Definition resolve_state (rules : RoomVersionRules) (pdus : gmap EventId Pdu)
    (forks : list StateMap) : result StateMap ResolveError :=
  resolve_state_with rules pdus forks.

(** ** dag.rs *)

(** What a store answers at the time of a call. *)
Record DagRead := mkDagRead {
  pdu : gmap EventId Pdu;
  state_after : gmap EventId StateMap;
  extremities : list EventId }.

Inductive Reject :=
| Malformed (reason : string)
| Duplicate
| BadContentHash
| BadSignature (reason : string)
| MissingPrev (id : string)
| MissingAuth (id : string)
| Auth (reason : string)
| Resolve (reason : string).

Record Accepted := mkAccepted {
  acc_event_id : EventId;
  acc_pdu : Pdu;
  acc_json : CanonicalJsonObject;
  acc_state_after : StateMap;
  acc_soft_failed : bool;
  acc_extremities : list EventId;
  acc_current_state : StateMap;
  acc_forked : bool }.

Definition skey (kind : string) : string := StateEventType_from kind.

Definition resolve_over (rules : RoomVersionRules) (db : DagRead) (ids : list EventId)
    (extra : option (EventId * StateMap)) : result StateMap Reject :=
  let? forks := try_map (λ id,
    match extra with
    | Some (eid, st) =>
        if decide (eid = id) then Ok st else ok_or (state_after db !! id) (MissingPrev id)
    | None => ok_or (state_after db !! id) (MissingPrev id)
    end) ids in
  match forks with
  | [] => Ok ∅
  | [fork] => Ok fork
  | _ => map_err (λ e, Resolve (ResolveError_text e)) (resolve_state_with rules (pdu db) forks)
  end.

(** The store plus the event being accepted, which is not written yet. *)
Definition WithNew (db : DagRead) (p : Pdu) : DagRead :=
  mkDagRead (<[event_id p := p]> (pdu db)) (state_after db) (extremities db).

Definition current_state (rules : RoomVersionRules) (db : DagRead) : result StateMap Reject :=
  resolve_over rules db (extremities db) None.

Definition compute_event_id (rules : RoomVersionRules) (json : CanonicalJsonObject) : result EventId Reject :=
  let? h := map_err Malformed (reference_hash json rules) in
  map_err Malformed (EventId_parse ("$" +:+ h)).

Definition skeleton (rules : RoomVersionRules) (json : CanonicalJsonObject) : result CanonicalJsonObject Reject :=
  map_err Malformed (redact json (redaction rules)).

Definition is_skeleton (rules : RoomVersionRules) (json : CanonicalJsonObject) : bool :=
  match skeleton rules json with Ok s => bool_decide (s = json) | Err _ => false end.

Definition verify_wire (rules : RoomVersionRules) (json : CanonicalJsonObject) (keys : PublicKeyMap) :
    result unit Reject :=
  match verify_event keys json rules with
  | Ok VerifiedAll => Ok tt
  | Ok VerifiedSignatures => if is_skeleton rules json then Ok tt else Err BadContentHash
  | Err e => Err (BadSignature e)
  end.

(** The state an event's own [auth_events] describe: the code's [auth_state]. *)
Definition auth_state (db : gmap EventId Pdu) (auth : list EventId) : gmap (string * string) Pdu :=
  foldl (λ st a,
    match db !! a with
    | Some p =>
        match state_key p with
        | Some sk => <[(skey (kind p), sk) := p]> st
        | None => st
        end
    | None => st
    end) ∅ auth.

(** [state.get(&(t, k)).and_then(|id| db.pdu(id))] *)
Definition by_state (db : gmap EventId Pdu) (state : StateMap) (t k : string) : option Pdu :=
  state !! (t, k) ≫= λ id, db !! id.

(** The checks [accept] and [accept_historic] share, up to the state after the event: steps 1 to 3. *)
Definition check_event (rules : RoomVersionRules) (db : DagRead) (id : EventId) (p : Pdu)
    (state_before : option StateMap) : result StateMap Reject :=
  let fetch i := if decide (i = event_id p) then Some p else pdu db !! i in
  let? _ := try_each (λ a, if is_none (pdu db !! a) then Err (MissingAuth a) else Ok tt) (auth_events p) in
  let? _ := map_err Auth (check_state_independent_auth_rules (authorization rules) p fetch) in
  let st := auth_state (pdu db) (auth_events p) in
  let? _ := map_err Auth (check_state_dependent_auth_rules (authorization rules) p (λ t k, st !! (t, k))) in
  let? before :=
    match state_before with
    | Some s => Ok s
    | None => resolve_over rules db (prev_events p) None
    end in
  let? _ := map_err Auth (check_state_dependent_auth_rules (authorization rules) p (by_state (pdu db) before)) in
  Ok (match state_key p with
      | Some sk => <[(skey (kind p), sk) := id]> before
      | None => before
      end).

(** [ext.sort()] *)
Definition sort_ids (ids : list EventId) : list EventId := merge_sort String.le ids.

Definition accept (rules : RoomVersionRules) (db : DagRead) (id : EventId) (json : CanonicalJsonObject)
    (state_before : option StateMap) : result Accepted Reject :=
  if is_some (pdu db !! id) then Err Duplicate
  else
  let? p := map_err Malformed (from_wire id json) in
  let? after := check_event rules db id p state_before in
  let old_ext := extremities db in
  let? current := resolve_over rules db old_ext None in
  let soft_failed :=
    negb (bool_decide (old_ext = [])) &&
    negb (is_ok (check_state_dependent_auth_rules (authorization rules) p (by_state (pdu db) current))) in
  if soft_failed then Ok (mkAccepted id p json after true old_ext current false)
  else
  let ext := sort_ids (filter (λ e, e ∉ prev_events p) old_ext ++ [id]) in
  let forked := bool_decide (1 < length ext)%nat in
  let? current := resolve_over rules (WithNew db p) ext (Some (id, after)) in
  Ok (mkAccepted id p json after false ext current forked).

Record Historic := mkHistoric {
  h_event_id : EventId;
  h_pdu : Pdu;
  h_json : CanonicalJsonObject;
  h_state_after : StateMap }.

Definition accept_historic (rules : RoomVersionRules) (db : DagRead) (id : EventId)
    (json : CanonicalJsonObject) : result Historic Reject :=
  let? p := map_err Malformed (from_wire id json) in
  let? after := check_event rules db id p None in
  Ok (mkHistoric id p json after).

Definition accept_wire (rules : RoomVersionRules) (db : DagRead) (json : CanonicalJsonObject)
    (keys : PublicKeyMap) (state_before : option StateMap) : result Accepted Reject :=
  let? _ := verify_wire rules json keys in
  let? id := compute_event_id rules json in
  accept rules db id json state_before.

(** *** [verify_auth_chain] *)

(** [sort_by_key(|p| (p.depth, p.event_id.clone()))] *)
Definition depth_id_le (p q : Pdu) : Prop :=
  depth p < depth q ∨ depth p = depth q ∧ String.le (event_id p) (event_id q).

#[export] Instance depth_id_le_dec p q : Decision (depth_id_le p q).
Proof. unfold depth_id_le. apply _. Defined.

(** The first loop: verify, identify and read every event. *)
Fixpoint read_chain (rules : RoomVersionRules) (keys : PublicKeyMap) (events : list CanonicalJsonObject)
    (pdus : gmap EventId Pdu) : result (gmap EventId Pdu) Reject :=
  match events with
  | [] => Ok pdus
  | j :: events =>
      let? _ := verify_wire rules j keys in
      let? id := compute_event_id rules j in
      let? p := map_err Malformed (from_wire id j) in
      read_chain rules keys events (<[id := p]> pdus)
  end.

(** The body of the second loop. [&pdus[a]] does not panic: every [a] was found just before. *)
Definition check_chain_event (rules : RoomVersionRules) (pdus : gmap EventId Pdu) (p : Pdu) : result unit Reject :=
  let? _ := try_each (λ a, if is_none (pdus !! a) then Err (MissingAuth a) else Ok tt) (auth_events p) in
  let? _ := map_err Auth (check_state_independent_auth_rules (authorization rules) p (λ id, pdus !! id)) in
  let st := auth_state pdus (auth_events p) in
  map_err Auth (check_state_dependent_auth_rules (authorization rules) p (λ t k, st !! (t, k))).

Definition verify_auth_chain (rules : RoomVersionRules) (events : list CanonicalJsonObject)
    (keys : PublicKeyMap) : result (list EventId) Reject :=
  let? pdus := read_chain rules keys events ∅ in
  let order := merge_sort depth_id_le (map_to_list pdus).*2 in
  let? _ := try_each (check_chain_event rules pdus) order in
  Ok (event_id <$> order).

(** *** Events of this server *)

(** [max().unwrap_or(0)] *)
Definition max_depth (ps : list Pdu) : Z := foldr (λ p m, Z.max (depth p) m) 0 ps.

Definition template (rules : RoomVersionRules) (db : DagRead) (room : string) (ts : Z) (from ty : string)
    (sk : option string) (body : Value) : result CanonicalJsonObject Reject :=
  let? sender_id := map_err Malformed (UserId_parse from) in
  let? raw := map_err Malformed (RawValue_from_string (value_to_string body)) in
  let tl := TimelineEventType_from ty in
  let ext := extremities db in
  let? cur := resolve_over rules db ext None in
  let? types := map_err Auth (auth_types_for_event tl sender_id sk raw (authorization rules)) in
  let auth := omap (λ k, cur !! k) types in
  let d := max_depth (omap (λ e, pdu db !! e) ext) + 1 in
  let o := json_object
    [("room_id", json_str room); ("sender", json_str from); ("type", json_str ty); ("content", body);
     ("origin_server_ts", json_u64 ts); ("prev_events", json_array (json_str <$> ext));
     ("auth_events", json_array (json_str <$> auth)); ("depth", json_u64 d)] in
  let o := match sk with Some sk => value_set o "state_key" (json_str sk) | None => o end in
  map_err Malformed (from_value o).

Record SignedEvent := mkSignedEvent { se_event_id : EventId; se_json : CanonicalJsonObject }.

Definition sign_template (rules : RoomVersionRules) (signer : Signer) (obj : CanonicalJsonObject) :
    result SignedEvent Reject :=
  let? obj := map_err Malformed (hash_and_sign_event (server signer) signer obj (redaction rules)) in
  let? id := compute_event_id rules obj in
  Ok (mkSignedEvent id obj).

Definition local_event (rules : RoomVersionRules) (db : DagRead) (signer : Signer) (room : string) (ts : Z)
    (from ty : string) (sk : option string) (body : Value) : result Accepted Reject :=
  let? t := template rules db room ts from ty sk body in
  let? s := sign_template rules signer t in
  accept rules db (se_event_id s) (se_json s) None.

Definition missing (db : DagRead) (ids : list EventId) : gset EventId :=
  list_to_set (filter (λ i, pdu db !! i = None) ids).

End Core.
