(* ===== verification/EventGraphProps.v ===== *)
(** * Theorems about the event graph

    [cites] is the edge relation of auth events; the chain the code collects is exactly what it
    reaches. [graph_step] interleaves the acceptance of live and of historic events, in any order
    and with any outcome of the rules; [graph_inv] is what it preserves. *)

From S2P Require Import Prelude EventGraph.

Local Open Scope Z_scope.

(** ** Auth chains *)

Section AuthChain.
Context (fetch : gmap EventId Pdu).
Implicit Types (ids todo : list EventId) (seen : gset EventId).

(** [a] is a known event that names [b] among its auth events. *)
Definition cites (a b : EventId) : Prop := ∃ p, fetch !! a = Some p ∧ b ∈ auth_events p.

(** [x] is one of [ids] or cited from them, however indirectly. *)
Definition reaches (ids : list EventId) (x : EventId) : Prop := ∃ i, i ∈ ids ∧ rtc cites i x.

(** The citations not followed yet. *)
Definition pending (seen : gset EventId) : nat :=
  map_fold (λ _ p n, length (auth_events p) + n)%nat 0%nat (filter (λ kv, kv.1 ∉ seen) fetch).

Lemma pending_empty : pending ∅ = map_fold (λ _ p n, length (auth_events p) + n)%nat 0%nat fetch.
Proof. unfold pending. f_equal. apply map_filter_id. intros ????. set_solver. Qed.

Lemma pending_step seen id p :
  fetch !! id = Some p → id ∉ seen →
  pending seen = (length (auth_events p) + pending ({[id]} ∪ seen))%nat.
Proof.
  intros Hid Hn. unfold pending.
  rewrite (map_fold_delete_L _ _ id p (filter (λ kv, kv.1 ∉ seen) fetch)).
  - do 2 f_equal. apply map_eq. intros k. destruct (decide (k = id)) as [->|Hk].
    + rewrite lookup_delete_eq. symmetry. apply map_lookup_filter_None. right. set_solver.
    + rewrite lookup_delete_ne by done. apply option_eq. intros q.
      rewrite !map_lookup_filter_Some. set_solver.
  - intros. lia.
  - apply map_lookup_filter_Some. set_solver.
Qed.

Lemma pending_le seen id : (pending ({[id]} ∪ seen) ≤ pending seen)%nat.
Proof.
  destruct (decide (id ∈ seen)) as [|Hn]; [by replace ({[id]} ∪ seen) with seen by set_solver|].
  destruct (fetch !! id) as [p|] eqn:Hid; [rewrite (pending_step seen id p) by done; lia|].
  unfold pending. apply Nat.eq_le_incl. f_equal. apply map_filter_ext. intros k q Hk.
  split; [set_solver|]. cbn. intros ?. assert (k ≠ id) by congruence. set_solver.
Qed.

(** What is seen has had its citations followed or scheduled. *)
Definition followed (seen : gset EventId) (todo : list EventId) : Prop :=
  ∀ a b, a ∈ seen → cites a b → b ∈ seen ∨ b ∈ todo.

Lemma auth_chain_loop_closed fuel todo seen :
  (length todo + pending seen ≤ fuel)%nat → followed seen todo →
  let r := auth_chain_loop fuel fetch todo seen in
  seen ⊆ r ∧ (∀ x, x ∈ todo → x ∈ r) ∧ (∀ a b, a ∈ r → cites a b → b ∈ r).
Proof.
  revert todo seen. induction fuel as [|fuel IH]; intros [|id todo] seen Hf Hc; cbn in *; try lia;
    try (split_and!; [done|set_solver|]; intros a b Ha Hab; destruct (Hc a b Ha Hab); set_solver).
  destruct (decide (id ∈ seen)) as [Hin|Hn].
  - destruct (IH todo seen) as (?&?&?); [lia| |set_solver].
    intros a b Ha Hab. destruct (Hc a b Ha Hab); set_solver.
  - destruct (fetch !! id) as [p|] eqn:Hid.
    + destruct (IH (reverse (auth_events p) ++ todo) ({[id]} ∪ seen)) as (?&?&?); [| |set_solver].
      * rewrite length_app, length_reverse. rewrite (pending_step seen id p) in Hf by done. lia.
      * intros a b Ha Hab. destruct (decide (a = id)) as [->|].
        -- destruct Hab as (q & Hq & Hb). simplify_eq. right. rewrite elem_of_app, elem_of_reverse. auto.
        -- destruct (Hc a b) as [|[->|]%elem_of_cons]; set_solver.
    + destruct (IH todo ({[id]} ∪ seen)) as (?&?&?); [pose proof (pending_le seen id); lia| |set_solver].
      intros a b Ha Hab. destruct (decide (a = id)) as [->|].
      * destruct Hab as (q & Hq & _). congruence.
      * destruct (Hc a b) as [|[->|]%elem_of_cons]; set_solver.
Qed.

Lemma auth_chain_loop_sound fuel todo seen x :
  x ∈ auth_chain_loop fuel fetch todo seen → x ∈ seen ∨ reaches todo x.
Proof.
  assert (Hmono : ∀ i t, reaches t x → reaches (i :: t) x) by (intros i t (j & ? & ?); exists j; set_solver).
  revert todo seen. induction fuel as [|fuel IH]; intros [|id todo] seen; cbn; auto.
  destruct (decide (id ∈ seen)) as [Hin|Hn]; [intros [?|?]%IH; auto|].
  assert (Hself : reaches (id :: todo) id) by (exists id; split; [set_solver|constructor]).
  destruct (fetch !! id) as [p|] eqn:Hid; intros [[->%elem_of_singleton|?]%elem_of_union|Hr]%IH; auto.
  destruct Hr as (j & Hj & Hjx). rewrite elem_of_app, elem_of_reverse in Hj. right.
  destruct Hj as [Hj|Hj]; [|apply Hmono; exists j; auto].
  exists id. split; [set_solver|]. apply (rtc_l _ _ j); [exists p; auto|done].
Qed.

End AuthChain.

Lemma elem_of_auth_chain (fetch : gmap EventId Pdu) (ids : list EventId) (x : EventId) :
  x ∈ auth_chain_with fetch ids ↔ reaches fetch ids x.
Proof.
  unfold auth_chain_with. split.
  - intros [?|(i & Hi & ?)]%auth_chain_loop_sound; [set_solver|]. exists i. by rewrite elem_of_reverse in Hi.
  - destruct (auth_chain_loop_closed fetch (auth_chain_fuel fetch ids) (reverse ids) ∅) as (_ & Hids & Hcl).
    + rewrite length_reverse, pending_empty. done.
    + intros ??. set_solver.
    + intros (i & Hi & Hix). rewrite <- elem_of_reverse in Hi. specialize (Hids i Hi). clear Hi.
      induction Hix; eauto.
Qed.

(** A set that is closed under citation holds the chain of its members. *)
Lemma auth_chain_within (fetch : gmap EventId Pdu) (ids : list EventId) (s : gset EventId) :
  (∀ a b, a ∈ s → cites fetch a b → b ∈ s) → (∀ i, i ∈ ids → i ∈ s) → auth_chain_with fetch ids ⊆ s.
Proof.
  intros Hcl Hids x [?|(i & Hi & Hix)]%auth_chain_loop_sound; [set_solver|].
  rewrite elem_of_reverse in Hi. apply Hids in Hi. induction Hix; eauto.
Qed.

Lemma chain_closed (pdus : gmap EventId Pdu) (ids : list EventId) :
  (∀ id p, pdus !! id = Some p → Forall (λ a, is_Some (pdus !! a)) (auth_events p)) →
  Forall (λ i, is_Some (pdus !! i)) ids → auth_chain pdus ids ⊆ dom pdus.
Proof.
  intros Hcl Hids. rewrite Forall_forall in Hids. apply auth_chain_within.
  - intros a b _ (p & Hp & Hb). apply elem_of_dom. apply Hcl in Hp. rewrite Forall_forall in Hp. auto.
  - intros i Hi. by apply elem_of_dom, Hids.
Qed.

(** ** Acceptance *)

Section Acceptance.
Context `{RumaRules}.
Implicit Types (rules : RoomVersionRules) (db : DagRead) (p : Pdu).

(** The checks against the auth events and against the state before the event, passed. *)
Definition authorised rules db p (before : StateMap) : Prop :=
  Forall (λ a, is_Some (pdu db !! a)) (auth_events p) ∧
  (let st := auth_state (pdu db) (auth_events p) in
   check_state_dependent_auth_rules (authorization rules) p (λ t k, st !! (t, k)) = Ok tt) ∧
  check_state_dependent_auth_rules (authorization rules) p (by_state (pdu db) before) = Ok tt.

(** The room state after an event. *)
Definition apply_event p (id : EventId) (before : StateMap) : StateMap :=
  match state_key p with
  | Some sk => <[(skey (kind p), sk) := id]> before
  | None => before
  end.

Lemma known_all {A} (m : gmap EventId A) (e : EventId → Reject) ids :
  try_each (λ a, if is_none (m !! a) then Err (e a) else Ok tt) ids = Ok tt →
  Forall (λ a, is_Some (m !! a)) ids.
Proof.
  rewrite try_each_ok. intros Hall. refine (Forall_impl _ _ _ Hall _). intros a. unfold is_none.
  destruct (m !! a); cbn; [eauto|discriminate].
Qed.

Lemma map_err_ok {A E F} (f : E → F) (r : result A E) a : map_err f r = Ok a → r = Ok a.
Proof. destruct r; cbn; congruence. Qed.

Lemma check_event_ok rules db id p sb after :
  check_event rules db id p sb = Ok after →
  ∃ before, match sb with Some s => Ok s | None => resolve_over rules db (prev_events p) None end = Ok before ∧
    authorised rules db p before ∧ after = apply_event p id before.
Proof.
  unfold check_event. intros Hok. inv_ok.
  repeat match goal with H : map_err _ _ = Ok _ |- _ => apply map_err_ok in H end.
  repeat match goal with u : unit |- _ => destruct u end.
  eexists. split_and!; [done| |done]. split_and!; eauto using known_all.
Qed.

Lemma resolve_over_known rules db ids st :
  resolve_over rules db ids None = Ok st → Forall (λ i, is_Some (state_after db !! i)) ids.
Proof.
  unfold resolve_over. intros Hok. inv_ok. clear Hok. apply try_map_ok in E.
  induction E as [|i f ids fs Hi]; constructor; [|done].
  destruct (state_after db !! i); [eauto|discriminate].
Qed.

Lemma from_wire_id id json p : from_wire id json = Ok p → event_id p = id.
Proof. unfold from_wire. intros Hok. inv_ok. done. Qed.

(** Everything [accept] promises of its answer. *)
Record accepted rules db id json (acc : Accepted) : Prop := {
  accd_id : acc_event_id acc = id;
  accd_new : pdu db !! id = None;
  accd_pdu : from_wire id json = Ok (acc_pdu acc);
  accd_before : ∃ before, resolve_over rules db (prev_events (acc_pdu acc)) None = Ok before ∧
    authorised rules db (acc_pdu acc) before ∧
    acc_state_after acc = apply_event (acc_pdu acc) id before;
  accd_ext : acc_extremities acc =
    if acc_soft_failed acc then extremities db
    else sort_ids (filter (λ e, e ∉ prev_events (acc_pdu acc)) (extremities db) ++ [id]);
  accd_json : acc_json acc = json }.

Lemma accept_ok rules db id json acc :
  accept rules db id json None = Ok acc → accepted rules db id json acc.
Proof.
  unfold accept. destruct (pdu db !! id) eqn:Hnew; cbn; [discriminate|]. intros Hok. inv_ok;
    repeat match goal with H : map_err Malformed _ = Ok _ |- _ => apply map_err_ok in H end;
    match goal with H : check_event _ _ _ _ _ = Ok _ |- _ => apply check_event_ok in H end;
    constructor; done.
Qed.

(** ** Runs of a room *)

(** The graph after an accepted event is written. A soft-failed event extends nothing. *)
Definition stored db (acc : Accepted) : DagRead :=
  mkDagRead (<[acc_event_id acc := acc_pdu acc]> (pdu db))
    (<[acc_event_id acc := acc_state_after acc]> (state_after db))
    (if acc_soft_failed acc then extremities db else acc_extremities acc).

(** The graph after a historic event is written: one already on file as an outlier stays as it is. *)
Definition stored_historic db (h : Historic) : DagRead :=
  mkDagRead (match pdu db !! h_event_id h with
             | Some _ => pdu db
             | None => <[h_event_id h := h_pdu h]> (pdu db)
             end)
    (<[h_event_id h := h_state_after h]> (state_after db)) (extremities db).

(** A room and the events that were accepted into it live and not soft-failed. *)
Record Room := mkRoom { graph : DagRead; live : gset EventId }.

Definition new_room : Room := mkRoom (mkDagRead ∅ ∅ []) ∅.

Inductive graph_step rules : Room → Room → Prop :=
| step_live r id json acc :
    accept rules (graph r) id json None = Ok acc →
    graph_step rules r (mkRoom (stored (graph r) acc)
      (if acc_soft_failed acc then live r else {[acc_event_id acc]} ∪ live r))
| step_historic r id json h :
    state_after (graph r) !! id = None →
    accept_historic rules (graph r) id json = Ok h →
    graph_step rules r (mkRoom (stored_historic (graph r) h) (live r)).

(** The live events no live event follows. *)
Definition heads (r : Room) (x : EventId) : Prop :=
  x ∈ live r ∧ ∀ e p, e ∈ live r → pdu (graph r) !! e = Some p → x ∉ prev_events p.

Record graph_inv (r : Room) : Prop := {
  inv_state_pdu e : is_Some (state_after (graph r) !! e) → is_Some (pdu (graph r) !! e);
  inv_live e : e ∈ live r → is_Some (state_after (graph r) !! e);
  inv_prev e p x : e ∈ live r → pdu (graph r) !! e = Some p → x ∈ prev_events p →
    is_Some (state_after (graph r) !! x);
  inv_auth e p : pdu (graph r) !! e = Some p → Forall (λ a, is_Some (pdu (graph r) !! a)) (auth_events p);
  inv_sorted : StronglySorted String.le (extremities (graph r));
  inv_nodup : NoDup (extremities (graph r));
  inv_heads x : x ∈ extremities (graph r) ↔ heads r x }.

Lemma graph_inv_new : graph_inv new_room.
Proof.
  constructor; cbn.
  - intros e [? ?]. set_solver.
  - set_solver.
  - set_solver.
  - intros e p. rewrite lookup_empty. discriminate.
  - constructor.
  - constructor.
  - intros x. unfold heads. cbn. set_solver.
Qed.

Lemma stored_known db (i : EventId) (q : Pdu) e : is_Some (pdu db !! e) → is_Some (<[i := q]> (pdu db) !! e).
Proof. intros. destruct (decide (e = i)) as [->|]; [rewrite lookup_insert_eq|rewrite lookup_insert_ne]; eauto. Qed.

(** A new event: no live event cites it, so the heads change exactly as the code says. *)
Lemma heads_extend r i (q : Pdu) x :
  graph_inv r → pdu (graph r) !! i = None →
  Forall (λ x, is_Some (state_after (graph r) !! x)) (prev_events q) →
  (x ∈ live r ∨ x = i) ∧
  (∀ e p, e ∈ live r ∨ e = i → <[i := q]> (pdu (graph r)) !! e = Some p → x ∉ prev_events p)
  ↔ (heads r x ∧ x ∉ prev_events q) ∨ x = i.
Proof.
  intros Hinv Hnew Hprev. rewrite Forall_forall in Hprev.
  assert (Hlive : i ∉ live r).
  { intros Hi%(inv_live r Hinv)%(inv_state_pdu r Hinv). rewrite Hnew in Hi. by destruct Hi. }
  assert (Hne : ∀ x, is_Some (state_after (graph r) !! x) → x ≠ i).
  { intros y Hy ->. apply (inv_state_pdu r Hinv) in Hy. rewrite Hnew in Hy. by destruct Hy. }
  split.
  - intros [[Hx| ->] Hno]; [left|by right]. split; [split; [done|]|].
    + intros e p He Hp. apply (Hno e p); [auto|]. rewrite lookup_insert_ne; [done|]. by intros <-.
    + apply (Hno i q); [auto|]. by rewrite lookup_insert_eq.
  - intros [[[Hx Hno] Hq]| ->]; (split; [auto|]); intros e p [He| ->];
      [rewrite lookup_insert_ne by (by intros <-)|rewrite lookup_insert_eq
      |rewrite lookup_insert_ne by (by intros <-)|rewrite lookup_insert_eq].
    + apply Hno, He.
    + by intros [= <-].
    + intros Hp Hin. by apply (Hne i (inv_prev r Hinv e p i He Hp Hin)).
    + intros [= <-] Hin. by apply (Hne i (Hprev i Hin)).
Qed.

(** An event that joins the graph without joining the live events leaves the heads alone. *)
Lemma heads_aside r i (q : Pdu) (m : gmap EventId Pdu) st ext x :
  graph_inv r → i ∉ live r → m = pdu (graph r) ∨ m = <[i := q]> (pdu (graph r)) →
  heads (mkRoom (mkDagRead m st ext) (live r)) x ↔ heads r x.
Proof.
  intros Hinv Hi Hm. unfold heads. cbn.
  assert (Hsame : ∀ e, e ∈ live r → m !! e = pdu (graph r) !! e).
  { intros e He. destruct Hm as [->| ->]; [done|]. rewrite lookup_insert_ne; [done|]. by intros <-. }
  split; intros [Hx Hno]; (split; [done|]); intros e p He Hp; apply (Hno e p He); rewrite Hsame in *; done.
Qed.

(** Writing an event keeps the part of the invariant that does not speak of extremities. *)
Lemma graph_inv_write r i (q : Pdu) (st : StateMap) (m : gmap EventId Pdu) (lv : gset EventId) ext :
  graph_inv r →
  (m = pdu (graph r) ∧ is_Some (pdu (graph r) !! i) ∨
   m = <[i := q]> (pdu (graph r)) ∧ pdu (graph r) !! i = None) →
  Forall (λ a, is_Some (pdu (graph r) !! a)) (auth_events q) →
  (lv = live r ∧ i ∉ live r ∨
   lv = {[i]} ∪ live r ∧ m !! i = Some q ∧
   Forall (λ x, is_Some (state_after (graph r) !! x)) (prev_events q)) →
  StronglySorted String.le ext → NoDup ext →
  (∀ x, x ∈ ext ↔ heads (mkRoom (mkDagRead m (<[i := st]> (state_after (graph r))) ext) lv) x) →
  graph_inv (mkRoom (mkDagRead m (<[i := st]> (state_after (graph r))) ext) lv).
Proof.
  intros Hinv Hm Hauth Hlv Hs Hn Hh.
  assert (Hkeep : ∀ e, is_Some (pdu (graph r) !! e) → is_Some (m !! e)).
  { intros e He. destruct Hm as [[-> _]|[-> _]]; [done|by apply stored_known]. }
  assert (Hi : is_Some (m !! i)).
  { destruct Hm as [[-> ?]|[-> _]]; [done|]. rewrite lookup_insert_eq. eauto. }
  assert (Hst : ∀ e, is_Some (state_after (graph r) !! e) → is_Some (<[i := st]> (state_after (graph r)) !! e)).
  { intros e He. destruct (decide (e = i)) as [->|]; [rewrite lookup_insert_eq|rewrite lookup_insert_ne]; eauto. }
  assert (Hold : ∀ e p, m !! e = Some p → pdu (graph r) !! e = Some p ∨ e = i ∧ p = q).
  { intros e p. destruct Hm as [[-> _]|[-> _]]; [auto|]. intros [[<- <-]|[? ?]]%lookup_insert_Some; auto. }
  constructor; cbn; try done.
  - intros e He. destruct (decide (e = i)) as [->|]; [done|]. rewrite lookup_insert_ne in He by done.
    by apply Hkeep, (inv_state_pdu r Hinv).
  - intros e He. destruct (decide (e = i)) as [->|]; [rewrite lookup_insert_eq; eauto|].
    apply Hst, (inv_live r Hinv). set_solver.
  - intros e p x He Hp Hx. apply Hst. destruct Hlv as [[-> Hil]|(-> & Hq & Hprev)].
    + destruct (Hold e p Hp) as [Hp'|[-> ->]]; [by apply (inv_prev r Hinv e p)|done].
    + destruct (decide (e = i)) as [->|].
      * simplify_eq. rewrite Forall_forall in Hprev. auto.
      * destruct (Hold e p Hp) as [Hp'|[-> ->]]; [|done]. apply (inv_prev r Hinv e p); set_solver.
  - intros e p Hp. destruct (Hold e p Hp) as [Hp'|[-> ->]];
      [eapply Forall_impl; [by apply (inv_auth r Hinv e p)|]|eapply Forall_impl; [done|]]; auto.
Qed.

Lemma sort_ids_sorted l : StronglySorted String.le (sort_ids l).
Proof. apply (StronglySorted_merge_sort _). Qed.

Lemma sort_ids_perm l : sort_ids l ≡ₚ l.
Proof. apply merge_sort_Permutation. Qed.

Lemma elem_of_sort_ids x l : x ∈ sort_ids l ↔ x ∈ l.
Proof. by rewrite sort_ids_perm. Qed.

Lemma graph_step_inv rules r r' : graph_inv r → graph_step rules r r' → graph_inv r'.
Proof.
  intros Hinv Hs. revert Hinv. destruct Hs as [r0 id json acc Hacc|r0 id json h Hst Hh]; intros Hinv.
  - apply accept_ok in Hacc as [<- Hnew _ (before & Hbefore & [Hauth _] & _) Hext _].
    apply resolve_over_known in Hbefore. set (i := acc_event_id acc) in *.
    assert (Hlive : i ∉ live r0).
    { intros Hi%(inv_live r0 Hinv)%(inv_state_pdu r0 Hinv). rewrite Hnew in Hi. by destruct Hi. }
    unfold stored. fold i. rewrite Hext. destruct (acc_soft_failed acc).
    + apply (graph_inv_write _ _ (acc_pdu acc)); auto; try apply Hinv.
      intros x. rewrite (inv_heads r0 Hinv x), heads_aside; eauto.
    + apply (graph_inv_write _ _ (acc_pdu acc)); auto using sort_ids_sorted.
      * right. by rewrite lookup_insert_eq.
      * rewrite sort_ids_perm. apply NoDup_app. split_and!.
        -- apply NoDup_filter, Hinv.
        -- intros x [_ Hx]%list_elem_of_filter. apply (inv_heads r0 Hinv) in Hx as [Hx _]. set_solver.
        -- apply NoDup_singleton.
      * intros x. rewrite elem_of_sort_ids, elem_of_app, list_elem_of_filter, (inv_heads r0 Hinv x), list_elem_of_singleton.
        pose proof (heads_extend r0 i (acc_pdu acc) x Hinv Hnew Hbefore) as Hhe.
        unfold heads at 2. cbn. setoid_rewrite elem_of_union. setoid_rewrite elem_of_singleton.
        setoid_rewrite (comm or (_ = i)). rewrite Hhe. tauto.
  - unfold accept_historic in Hh. inv_ok. apply check_event_ok in E0 as (before & _ & [Hauth _] & _).
    assert (id ∉ live r0) by (intros Hi%(inv_live r0 Hinv); rewrite Hst in Hi; by destruct Hi).
    unfold stored_historic. cbn.
    destruct (pdu (graph r0) !! id) eqn:Hid;
      (apply (graph_inv_write _ _ a); eauto; try apply Hinv;
       intros x; rewrite (inv_heads r0 Hinv x), heads_aside; eauto).
Qed.

Lemma reachable_graph_inv rules r : rtc (graph_step rules) new_room r → graph_inv r.
Proof.
  intros Hr. assert (Hnew := graph_inv_new). revert Hnew. induction Hr; eauto using graph_step_inv.
Qed.

(** However live and historic events interleave, and whatever the authorisation rules say of
    each, the forward extremities of a room are, without repetition and in order, exactly the live
    events that no live event follows; a soft-failed or historic event is never among them. *)
Theorem extremities_are_heads rules r :
  rtc (graph_step rules) new_room r →
  StronglySorted String.le (extremities (graph r)) ∧ NoDup (extremities (graph r)) ∧
  ∀ x, x ∈ extremities (graph r) ↔ heads r x.
Proof. intros Hr%reachable_graph_inv. split_and!; apply Hr. Qed.

(** In every reachable room the auth chain of events the room holds lies in the room, so state
    resolution never runs over an incomplete chain. *)
Theorem auth_chains_are_complete rules r ids :
  rtc (graph_step rules) new_room r →
  Forall (λ i, is_Some (pdu (graph r) !! i)) ids →
  Forall (λ x, is_Some (pdu (graph r) !! x)) (elements (auth_chain (pdu (graph r)) ids)).
Proof.
  intros Hr%reachable_graph_inv Hids. apply Forall_forall. intros x Hx%elem_of_elements.
  apply elem_of_dom. revert x Hx. apply chain_closed; [|done]. apply Hr.
Qed.

End Acceptance.

(** ** Events of this server *)

Section Local.
Context `{RumaLaws}.
Implicit Types (rules : RoomVersionRules) (db : DagRead).

(** [v] reads at the members [ks] as [w] does. *)
Definition reads_as (v w : Value) (ks : list string) : Prop := ∀ k, k ∈ ks → value_get v k = value_get w k.

Lemma sign_template_reads rules signer obj s v :
  sign_template rules signer obj = Ok s → to_value obj = Ok v →
  ∃ v', to_value (se_json s) = Ok v' ∧ reads_as v' v ["prev_events"; "auth_events"; "depth"].
Proof.
  unfold sign_template. intros Hs Hv. inv_ok. cbn. apply map_err_ok in E.
  destruct (hash_and_sign_get _ _ _ _ _ _ E Hv) as (v' & Hv' & Hk). exists v'. split; [done|].
  intros k Hin. apply Hk. unfold signature_fields. set_solver.
Qed.

(** The event a template becomes cites the forward extremities and is one deeper than the deepest. *)
Lemma template_reads rules db room ts from ty sk body obj :
  template rules db room ts from ty sk body = Ok obj →
  ∃ v, to_value obj = Ok v ∧
    value_get v "prev_events" = Some (json_array (json_str <$> extremities db)) ∧
    value_get v "depth" = Some (json_u64 (max_depth (omap (λ e, pdu db !! e) (extremities db)) + 1)).
Proof.
  unfold template. intros Ht. inv_ok. apply map_err_ok, from_value_get in Ht as (v & Hv & Hk).
  exists v. split; [done|]. rewrite !Hk.
  destruct sk as [sk|]; rewrite ?value_get_set, ?value_get_json; cbn; auto.
Qed.

Lemma parse_ids ids :
  Forall (λ e, EventId_parse e = Ok e) ids →
  try_map (λ e, let? e := ok_or (as_str e) "event id" in EventId_parse e) (json_str <$> ids) = Ok ids.
Proof.
  intros Hids. apply try_map_ok, Forall2_fmap_l. induction Hids; constructor; [|done].
  cbn. by rewrite as_str_json.
Qed.

Lemma from_wire_edges id obj p v ids d :
  from_wire id obj = Ok p → to_value obj = Ok v →
  value_get v "prev_events" = Some (json_array (json_str <$> ids)) →
  value_get v "depth" = Some (json_u64 d) →
  Forall (λ e, EventId_parse e = Ok e) ids → 0 ≤ d < u64_mod →
  prev_events p = ids ∧ depth p = d.
Proof.
  unfold from_wire. intros Hok Hv Hp Hd Hids Hrange. rewrite Hv, Hp, Hd in Hok. cbn in Hok.
  rewrite as_array_json, as_u64_json in Hok by done. cbn in Hok. rewrite parse_ids in Hok by done.
  inv_ok. done.
Qed.

Lemma max_depth_le ps p : p ∈ ps → depth p ≤ max_depth ps.
Proof. unfold max_depth. induction 1; cbn in *; lia. Qed.

Lemma max_depth_range ps b : 0 ≤ b → Forall (λ p, depth p ≤ b) ps → 0 ≤ max_depth ps ≤ b.
Proof. intros ?. unfold max_depth. induction 1; cbn in *; lia. Qed.

(** An event that cites all extremities of a room, accepted: nothing is left open. *)
Lemma accept_at_tip rules db id json acc :
  accept rules db id json None = Ok acc → prev_events (acc_pdu acc) = extremities db →
  acc_soft_failed acc = false ∧ acc_extremities acc = [id] ∧ acc_forked acc = false ∧
  acc_current_state acc = acc_state_after acc.
Proof.
  unfold accept. intros Hok Hprev. destruct (is_some _); [discriminate|].
  destruct (from_wire id json) as [p|] eqn:Hw; [|discriminate]. cbn in Hok.
  destruct (check_event rules db id p None) as [after|] eqn:Hc; [|discriminate].
  destruct (resolve_over rules db (extremities db) None) as [current|] eqn:Hcur; [|discriminate].
  assert (Hp : acc_pdu acc = p).
  { clear Hprev. destruct (_ && _) in Hok; [by injection Hok as <-|].
    destruct (resolve_over rules (WithNew db p) _ _) in Hok; [by injection Hok as <-|discriminate]. }
  rewrite Hp in Hprev. apply check_event_ok in Hc as (before & Hb & (_ & _ & Hchk) & _).
  rewrite Hprev, Hcur in Hb. injection Hb as ->. rewrite Hchk in Hok. cbn in Hok.
  rewrite andb_false_r, Hprev in Hok.
  assert (Hf : filter (λ e, e ∉ extremities db) (extremities db) = []).
  { apply elem_of_nil_inv. intros x [Hx Hx']%list_elem_of_filter. done. }
  rewrite Hf in Hok. change (sort_ids ([] ++ [id])) with [id] in Hok.
  unfold resolve_over in Hok. cbn in Hok. rewrite decide_True in Hok by done.
  injection Hok as <-. done.
Qed.

(** An event this server creates closes every open branch: it cites all forward extremities, is
    deeper than each of them, is never soft-failed, becomes the only extremity, and the current
    state is the state after it, without any state resolution. The extremities are well-formed ids
    and depths are integers canonical JSON can write. *)
Theorem local_event_joins_branches rules db signer room ts from ty sk body acc :
  local_event rules db signer room ts from ty sk body = Ok acc →
  Forall (λ e, EventId_parse e = Ok e) (extremities db) →
  (∀ e p, pdu db !! e = Some p → 0 ≤ depth p < 9007199254740992) →
  prev_events (acc_pdu acc) = extremities db ∧
  (∀ e p, e ∈ extremities db → pdu db !! e = Some p → depth p < depth (acc_pdu acc)) ∧
  acc_soft_failed acc = false ∧ acc_extremities acc = [acc_event_id acc] ∧ acc_forked acc = false ∧
  acc_current_state acc = acc_state_after acc.
Proof.
  unfold local_event. intros Hl Hids Hdepth.
  destruct (template _ _ _ _ _ _ _ _) as [t|] eqn:Ht; [|discriminate].
  destruct (sign_template rules signer t) as [s|] eqn:Hs; [|discriminate].
  apply template_reads in Ht as (v & Hv & Hp & Hd).
  destruct (sign_template_reads _ _ _ _ _ Hs Hv) as (v' & Hv' & Hk).
  rewrite <- (Hk "prev_events") in Hp by set_solver. rewrite <- (Hk "depth") in Hd by set_solver.
  pose proof (accept_ok _ _ _ _ _ Hl) as [Hid _ Hw _ _ _].
  set (ps := omap (λ e, pdu db !! e) (extremities db)) in *.
  assert (Hm : 0 ≤ max_depth ps ≤ 9007199254740991).
  { apply max_depth_range; [lia|]. apply Forall_forall.
    intros p (e & _ & He)%list_elem_of_omap. apply Hdepth in He. lia. }
  destruct (from_wire_edges _ _ _ _ _ _ Hw Hv' Hp Hd Hids) as [Hpe Hde]; [unfold u64_mod; lia|].
  split; [done|]. rewrite Hid. split; [|by apply (accept_at_tip rules db _ (se_json s))].
  intros e p He Hpdu. rewrite Hde. assert (depth p ≤ max_depth ps); [|lia].
  apply max_depth_le, list_elem_of_omap. eauto.
Qed.

End Local.

(** ** Chains received from a peer *)

Section Chain.
Context `{RumaRules}.
Implicit Types (rules : RoomVersionRules) (pdus : gmap EventId Pdu).

(** [p] is what one of [events] says under its own computed id. *)
Definition read_from rules (events : list CanonicalJsonObject) (id : EventId) (p : Pdu) : Prop :=
  ∃ j, j ∈ events ∧ compute_event_id rules j = Ok id ∧ from_wire id j = Ok p.

Lemma read_chain_ok rules keys events m pdus :
  read_chain rules keys events m = Ok pdus →
  Forall (λ j, verify_wire rules j keys = Ok tt) events ∧
  (∀ id p, pdus !! id = Some p → m !! id = Some p ∨ read_from rules events id p) ∧
  (∀ id, is_Some (m !! id) → is_Some (pdus !! id)) ∧
  (∀ j, j ∈ events → ∃ id, compute_event_id rules j = Ok id ∧ is_Some (pdus !! id)).
Proof.
  revert m. induction events as [|j events IH]; intros m Hok; cbn in Hok.
  { inv_ok. split_and!; [constructor|auto|auto|set_solver]. }
  destruct (verify_wire rules j keys) as [[]|] eqn:Hv; [|discriminate].
  destruct (compute_event_id rules j) as [id|] eqn:Hid; [|discriminate].
  destruct (from_wire id j) as [p|] eqn:Hp; [|discriminate]. cbn in Hok.
  destruct (IH _ Hok) as (Hall & Hfrom & Hkeep & Hids). split_and!.
  - by constructor.
  - intros i q [[[<- <-]|[_ Hq]]%lookup_insert_Some|(j' & ? & ?)]%Hfrom; auto.
    + right. exists j. set_solver.
    + right. exists j'. set_solver.
  - intros i Hi. apply Hkeep. destruct (decide (i = id)) as [->|];
      [rewrite lookup_insert_eq|rewrite lookup_insert_ne]; eauto.
  - intros j' [->|Hj]%elem_of_cons; [|auto]. exists id. split; [done|]. apply Hkeep.
    rewrite lookup_insert_eq. eauto.
Qed.

(** What a verified chain is: every event in it carries a valid signature, stands under its own
    computed id, cites only events of the chain, and is authorised by the events it cites. *)
Record verified_chain rules (keys : PublicKeyMap) (events : list CanonicalJsonObject) pdus : Prop := {
  vc_signed : Forall (λ j, verify_wire rules j keys = Ok tt) events;
  vc_read id p : pdus !! id = Some p → read_from rules events id p;
  vc_all j : j ∈ events → ∃ id, compute_event_id rules j = Ok id ∧ is_Some (pdus !! id);
  vc_closed ids : Forall (λ i, is_Some (pdus !! i)) ids → auth_chain pdus ids ⊆ dom pdus;
  vc_authorised id p : pdus !! id = Some p →
    let st := auth_state pdus (auth_events p) in
    check_state_independent_auth_rules (authorization rules) p (λ i, pdus !! i) = Ok tt ∧
    check_state_dependent_auth_rules (authorization rules) p (λ t k, st !! (t, k)) = Ok tt }.

Lemma check_chain_event_ok rules pdus p :
  check_chain_event rules pdus p = Ok tt →
  Forall (λ a, is_Some (pdus !! a)) (auth_events p) ∧
  let st := auth_state pdus (auth_events p) in
  check_state_independent_auth_rules (authorization rules) p (λ i, pdus !! i) = Ok tt ∧
  check_state_dependent_auth_rules (authorization rules) p (λ t k, st !! (t, k)) = Ok tt.
Proof.
  unfold check_chain_event. intros Hok. inv_ok. apply map_err_ok in E0, Hok.
  repeat match goal with u : unit |- _ => destruct u end. eauto using known_all.
Qed.

#[local] Instance depth_id_le_total : Total depth_id_le.
Proof.
  intros p q. unfold depth_id_le. destruct (total String.le (event_id p) (event_id q)),
    (Z.lt_trichotomy (depth p) (depth q)) as [|[|]]; auto.
Qed.

Lemma chain_order_perm pdus :
  (∀ id p, pdus !! id = Some p → event_id p = id) →
  event_id <$> merge_sort depth_id_le (map_to_list pdus).*2 ≡ₚ (map_to_list pdus).*1.
Proof.
  intros Hid. rewrite merge_sort_Permutation, <- list_fmap_compose. apply Permutation_refl', list_fmap_ext.
  intros i [k p] Hk%list_elem_of_lookup_2. by apply Hid, elem_of_map_to_list.
Qed.

(** When [verify_auth_chain] accepts what a peer sent, the ids it returns are exactly the ids of
    the events sent, once each and by depth, and they form a verified chain: signatures and hashes
    hold, every event is authorised by the events it cites, and the whole auth chain of every event
    was sent along. *)
Theorem verified_chain_is_closed rules events keys ids :
  verify_auth_chain rules events keys = Ok ids →
  ∃ pdus, verified_chain rules keys events pdus ∧ NoDup ids ∧
    (∀ id, id ∈ ids ↔ is_Some (pdus !! id)) ∧
    ∃ order, ids = event_id <$> order ∧ Sorted depth_id_le order.
Proof.
  unfold verify_auth_chain. intros Hok. inv_ok. rename a into pdus.
  destruct (read_chain_ok _ _ _ _ _ E) as (Hsig & Hread & _ & Hall).
  assert (Hread' : ∀ id p, pdus !! id = Some p → read_from rules events id p).
  { intros id p [Hp|]%Hread; [|done]. by rewrite lookup_empty in Hp. }
  assert (Hperm := chain_order_perm pdus).
  specialize (Hperm ltac:(intros id p (j & _ & _ & Hj)%Hread'; by apply from_wire_id in Hj)).
  destruct a0. rewrite try_each_ok, Forall_forall in E0.
  assert (Hchk : ∀ id p, pdus !! id = Some p → check_chain_event rules pdus p = Ok tt).
  { intros id p Hp. apply E0. rewrite merge_sort_Permutation. apply list_elem_of_fmap.
    exists (id, p). split; [done|]. by apply elem_of_map_to_list. }
  exists pdus. split_and!.
  - constructor; auto.
    + intros l. apply chain_closed. intros id p Hp. by apply (check_chain_event_ok rules pdus p), (Hchk id).
    + intros id p Hp. by apply (check_chain_event_ok rules pdus p), (Hchk id).
  - rewrite Hperm. apply NoDup_fst_map_to_list.
  - intros id. rewrite Hperm, list_elem_of_fmap.
    split.
    + intros ([k p] & -> & Hk%elem_of_map_to_list). eauto.
    + intros [p Hp]. exists (id, p). split; [done|]. by apply elem_of_map_to_list.
  - eexists. split; [done|]. apply Sorted_merge_sort. apply _.
Qed.

End Chain.

(** C40: the chain [auth_chain_with] returns is exactly the given events and everything they cite
    through [auth_events], directly or through other known events, in a graph of any shape: the
    loop never stops early, and cycles and unknown events do not keep it from ending. *)
Theorem auth_chain_is_exact (fetch : gmap EventId Pdu) (ids : list EventId) (x : EventId) :
  x ∈ auth_chain_with fetch ids ↔ ∃ i, i ∈ ids ∧ rtc (cites fetch) i x.
Proof. apply elem_of_auth_chain. Qed.
