(* ===== verification/DagStore.v ===== *)
(** * The event graph in SQLite (crates/mail4agent-server/src/f3.rs, dag_schema.rs)

    The tables of the graph are lists of rows, as in [Sqlite]; a statement is the list operation it
    denotes and an INSERT fails on a primary key that is taken. [conn_dag] is what [ConnDag]
    answers the core from these tables, [store_accepted] writes an accepted event (a message shares
    the state group of its parent), and the serving side walks the graph back for a peer.

    Writing happens inside the caller's transaction, so a failed write has no result tables.
    The serving functions read rows in an order SQLite does not promise; nothing proved depends on
    it. Users, the timeline and the current-state projection are other tables and not modelled. *)

From Stdlib Require Import Ascii.
From S2P Require Import Prelude Sqlite EventGraph.

Local Open Scope Z_scope.

(** ** Tables (dag_schema.rs) *)

Record DagEventRow := mkDagEventRow {
  de_event_id : string;
  de_room_id : string;
  de_depth : Z;
  de_event_type : string;
  de_sender : string;
  de_state_key : option string;
  de_origin_server_ts : Z;
  de_pdu : string;
  de_outlier : bool;
  de_soft_failed : bool;
  de_skeleton : bool }.

(** A row of [dag_state_group_entries]. *)
Record GroupEntry := mkGroupEntry {
  ge_group_id : Z;
  ge_event_type : string;
  ge_state_key : string;
  ge_event_id : string }.

Record DagTables := mkDagTables {
  dag_rooms : list string;
  dag_events : list DagEventRow;
  dag_edges : list (string * string);
  dag_auth : list (string * string);
  dag_extremities : list (string * string);
  dag_state_groups : list (Z * string);
  dag_group_seq : Z;
  dag_state_group_entries : list GroupEntry;
  dag_event_state : list (string * Z);
  fed_pdus : list (string * string * string) }.

(** Tables right after [create_dag_schema]. *)
Definition create_dag_schema : DagTables := mkDagTables [] [] [] [] [] [] 0 [] [] [].

(** A statement that failed. *)
Inductive SqlError := UniqueViolation (table : string).

(** [serde_json::to_string] and [from_str] at the types the graph uses. *)
Class DagJson `{Ruma} := {
  object_to_string : CanonicalJsonObject → result string string;
  object_from_str : string → result CanonicalJsonObject string;
  value_from_str : string → result Value string
}.

(** [MatrixError], by the constructor used. *)
Inductive MatrixError :=
| not_found (m : string)
| forbidden (m : string)
| bad_json (m : string)
| invalid_param (m : string)
| unrecognized (m : string).

Section Store.
Context `{RumaRules} `{!DagJson}.
Implicit Types (d : DagTables) (room : string).

Definition is_f3_room d room : bool := existsb (seqb room) (dag_rooms d).

(** [INSERT OR IGNORE INTO dag_rooms] *)
Definition mark_room d room : DagTables :=
  if is_f3_room d room then d
  else mkDagTables (dag_rooms d ++ [room]) (dag_events d) (dag_edges d) (dag_auth d) (dag_extremities d)
         (dag_state_groups d) (dag_group_seq d) (dag_state_group_entries d) (dag_event_state d) (fed_pdus d).

(** ** [impl DagRead for ConnDag] *)

(** [SELECT pdu FROM dag_events WHERE event_id = ?1] *)
Definition event_row d (id : string) : option DagEventRow :=
  find_row (λ r, seqb id (de_event_id r)) (dag_events d).

Definition conn_pdu d (id : EventId) : option Pdu :=
  match event_row d id with
  | Some r =>
      match object_from_str (de_pdu r) with
      | Ok obj => match from_wire id obj with Ok p => Some p | Err _ => None end
      | Err _ => None
      end
  | None => None
  end.

Definition group_of d (id : string) : option Z :=
  snd <$> find_row (λ r, seqb id r.1) (dag_event_state d).

(** The loop over the entries of a group: it gives up at the first id that does not parse. *)
Fixpoint read_entries (rows : list GroupEntry) (m : StateMap) : option StateMap :=
  match rows with
  | [] => Some m
  | r :: rows =>
      match EventId_parse (ge_event_id r) with
      | Ok e => read_entries rows (<[(StateEventType_from (ge_event_type r), ge_state_key r) := e]> m)
      | Err _ => None
      end
  end.

Definition group_state d (gid : Z) : option StateMap :=
  read_entries (select (λ r, ge_group_id r =? gid) (dag_state_group_entries d)) ∅.

Definition conn_state_after d (id : EventId) : option StateMap :=
  match group_of d id with
  | Some gid => group_state d gid
  | None => None
  end.

Definition conn_extremities d room : list EventId :=
  omap (λ e, match EventId_parse e with Ok e => Some e | Err _ => None end)
    (snd <$> order_by_text snd (select (λ r, seqb room r.1) (dag_extremities d))).

(** The answers of [ConnDag { conn, room }], for every id the tables name. *)
Definition conn_dag d room : DagRead :=
  mkDagRead
    (list_to_map (omap (λ r, (λ p, (de_event_id r, p)) <$> conn_pdu d (de_event_id r)) (dag_events d)))
    (list_to_map (omap (λ r, (λ s, (r.1, s)) <$> conn_state_after d r.1) (dag_event_state d)))
    (conn_extremities d room).

(** ** Writing *)

(** The [INSERT]s into [dag_state_group_entries]. *)
Fixpoint insert_entries (gid : Z) (state : list (string * string * EventId)) (t : list GroupEntry) :
    result (list GroupEntry) SqlError :=
  match state with
  | [] => Ok t
  | (ty, k, e) :: state =>
      if exists_row (λ r, (ge_group_id r =? gid) && seqb ty (ge_event_type r) && seqb k (ge_state_key r)) t
      then Err (UniqueViolation "dag_state_group_entries")
      else insert_entries gid state (t ++ [mkGroupEntry gid ty k e])
  end.

(** An AUTOINCREMENT id is one above every id ever used. *)
Definition new_group d room (state : StateMap) : result (DagTables * Z) SqlError :=
  let gid := dag_group_seq d + 1 in
  let? entries := insert_entries gid (map_to_list state) (dag_state_group_entries d) in
  Ok (mkDagTables (dag_rooms d) (dag_events d) (dag_edges d) (dag_auth d) (dag_extremities d)
        (dag_state_groups d ++ [(gid, room)]) gid entries (dag_event_state d) (fed_pdus d), gid).

(** [INSERT OR IGNORE] of a pair into a table whose key is the pair. *)
Definition insert_pair (t : list (string * string)) (a b : string) : list (string * string) :=
  if exists_row (λ r, seqb a r.1 && seqb b r.2) t then t else t ++ [(a, b)].

(** [INSERT OR REPLACE INTO dag_event_state] *)
Definition replace_event_state (t : list (string * Z)) (id : string) (gid : Z) : list (string * Z) :=
  select (λ r, negb (seqb id r.1)) t ++ [(id, gid)].

(** The [INSERT]s into [dag_extremities]. *)
Fixpoint insert_extremities room (ids : list EventId) (t : list (string * string)) :
    result (list (string * string)) SqlError :=
  match ids with
  | [] => Ok t
  | e :: ids =>
      if exists_row (λ r, seqb room r.1 && seqb e r.2) t then Err (UniqueViolation "dag_extremities")
      else insert_extremities room ids (t ++ [(room, e)])
  end.

Definition store_accepted d room (acc : Accepted) (outlier : bool) : result DagTables SqlError :=
  let p := acc_pdu acc in
  let id := acc_event_id acc in
  let pdu_json := match object_to_string (acc_json acc) with Ok s => s | Err _ => "" end in
  if exists_row (λ r, seqb id (de_event_id r)) (dag_events d) then Err (UniqueViolation "dag_events")
  else
  let row := mkDagEventRow id room (u64_as_i64 (depth p)) (kind p) (sender p) (state_key p)
               (u64_as_i64 (origin_server_ts p)) pdu_json outlier (acc_soft_failed acc) false in
  let edges := foldl (λ t q, insert_pair t id q) (dag_edges d) (prev_events p) in
  let auth := foldl (λ t a, insert_pair t id a) (dag_auth d) (auth_events p) in
  let d := mkDagTables (dag_rooms d) (dag_events d ++ [row]) edges auth (dag_extremities d)
             (dag_state_groups d) (dag_group_seq d) (dag_state_group_entries d) (dag_event_state d)
             (fed_pdus d) in
  let shared :=
    match state_key p, prev_events p with
    | None, [q] => group_of d q
    | _, _ => None
    end in
  let? (d, gid) :=
    match shared with
    | Some g => Ok (d, g)
    | None => new_group d room (acc_state_after acc)
    end in
  let event_state := replace_event_state (dag_event_state d) id gid in
  let? ext :=
    if negb (acc_soft_failed acc) && negb outlier
    then insert_extremities room (acc_extremities acc)
           (select (λ r, negb (seqb room r.1)) (dag_extremities d))
    else Ok (dag_extremities d) in
  let fed := select (λ r, negb (seqb id r.1.1)) (fed_pdus d) ++ [(id, room, pdu_json)] in
  Ok (mkDagTables (dag_rooms d) (dag_events d) (dag_edges d) (dag_auth d) ext (dag_state_groups d)
        (dag_group_seq d) (dag_state_group_entries d) event_state fed).

(** An event with a place in the graph: live, or an outlier whose state is known. *)
Definition is_known d (id : string) : bool :=
  match event_row d id with
  | Some r => negb (de_outlier r) || is_some (group_of d id)
  | None => false
  end.

(** ** Serving a peer *)

Definition pdu_value d (id : string) : option Value :=
  match event_row d id with
  | Some r => match value_from_str (de_pdu r) with Ok v => Some v | Err _ => None end
  | None => None
  end.

(** [LIKE]: [%] any text, [_] one character, letters by ASCII case folding. *)
Fixpoint sql_like (pat s : string) : bool :=
  match pat with
  | EmptyString => s_is_empty s
  | String c pat =>
      if Ascii.eqb c "%"%char then
        (fix skip s := sql_like pat s || match s with EmptyString => false | String _ s => skip s end) s
      else
        match s with
        | EmptyString => false
        | String a s =>
            (Ascii.eqb c "_"%char || Ascii.eqb (to_ascii_lower c) (to_ascii_lower a)) && sql_like pat s
        end
  end.

(** The membership events of a server's users in a room. *)
Definition members_of d room (origin : string) : list DagEventRow :=
  select (λ r, seqb room (de_room_id r) && seqb "m.room.member" (de_event_type r) &&
               match de_state_key r with Some k => sql_like ("@%:" +:+ origin) k | None => false end)
    (dag_events d).

(** [shared]: the room's history visibility is shared or world readable. *)
Definition serve_min_depth d (shared : bool) room (origin : string) : Z :=
  if shared then 0
  else match de_depth <$> members_of d room origin with
       | [] => i64_max
       | x :: xs => foldr Z.min x xs
       end.

Definition origin_in_room d room (origin : string) : bool :=
  negb (bool_decide (members_of d room origin = [])).

(** [SELECT prev_event_id FROM dag_edges WHERE event_id = ?1]; likewise for [dag_auth]. *)
Definition targets (t : list (string * string)) (id : string) : list string :=
  snd <$> select (λ r, seqb id r.1) t.

(** [SELECT depth FROM dag_events WHERE event_id = ?1 AND room_id = ?2] *)
Definition depth_in_room d room (id : string) : option Z :=
  de_depth <$> find_row (λ r, seqb id (de_event_id r) && seqb room (de_room_id r)) (dag_events d).

(** [while let Some(id) = queue.pop_front()] *)
Fixpoint walk_loop (fuel : nat) d (stop : gset string) (limit : nat) (min_depth : Z) room
    (queue : list string) (seen : gset string) (out : list (Z * string)) : list (Z * string) :=
  match fuel, queue with
  | S fuel, id :: queue =>
      if bool_decide (limit ≤ length out)%nat then out
      else if bool_decide (id ∈ stop) then walk_loop fuel d stop limit min_depth room queue seen out
      else if bool_decide (id ∈ seen) then walk_loop fuel d stop limit min_depth room queue seen out
      else
        let seen := {[id]} ∪ seen in
        match depth_in_room d room id with
        | None => walk_loop fuel d stop limit min_depth room queue seen out
        | Some dp =>
            if dp <? min_depth then walk_loop fuel d stop limit min_depth room queue seen out
            else walk_loop fuel d stop limit min_depth room (queue ++ targets (dag_edges d) id) seen
                   (out ++ [(dp, id)])
        end
  | _, _ => out
  end.

(** Every round pops one id, and each edge is followed at most once. *)
Definition walk_back d (roots : list string) (stop : gset string) (limit : nat) (min_depth : Z) room :
    list (Z * string) :=
  walk_loop (length roots + length (dag_edges d)) d stop limit min_depth room roots ∅ [].

(** Pairs by depth, then id: [found.sort()]. *)
Definition found_le (a b : Z * string) : Prop := a.1 < b.1 ∨ a.1 = b.1 ∧ String.le a.2 b.2.

#[export] Instance found_le_dec a b : Decision (found_le a b).
Proof. unfold found_le. apply _. Defined.

(** [limit.clamp(1, 100)] *)
Definition clamp_limit (limit : nat) : nat := Nat.min 100 (Nat.max 1 limit).

Definition missing_events_json d (shared : bool) room (origin : string) (earliest latest : list string)
    (limit : nat) : list Value :=
  let roots := latest ≫= targets (dag_edges d) in
  let found := walk_back d roots (list_to_set earliest) (clamp_limit limit)
                 (serve_min_depth d shared room origin) room in
  omap (λ f, pdu_value d f.2) (merge_sort found_le found).

Definition backfill_json d (shared : bool) room (origin : string) (v : list string) (limit : nat) : list Value :=
  let found := walk_back d v ∅ (clamp_limit limit) (serve_min_depth d shared room origin) room in
  omap (λ f, pdu_value d f.2) (merge_sort (flip found_le) found).

Definition extremity_ids d room : list string := conn_extremities d room.

(** The inner loop of [auth_chain_of]: ids not met before are pushed and scheduled. *)
Definition chain_visit d (st : gset string * list string * list Value) (a : string) :
    gset string * list string * list Value :=
  let '(have, todo, chain) := st in
  if bool_decide (a ∈ have) then st
  else ({[a]} ∪ have, a :: todo, match pdu_value d a with Some p => chain ++ [p] | None => chain end).

(** [while let Some(id) = todo.pop()]; the end of the vector is the head of [todo]. *)
Fixpoint chain_loop (fuel : nat) d (have : gset string) (todo : list string) (chain : list Value) : list Value :=
  match fuel, todo with
  | S fuel, id :: todo =>
      let '(have, todo, chain) := foldl (chain_visit d) (have, todo, chain) (targets (dag_auth d) id) in
      chain_loop fuel d have todo chain
  | _, _ => chain
  end.

(** Every round pops one id; each row of [dag_auth] schedules at most one. *)
Definition auth_chain_of d (seeds : list string) : list Value :=
  chain_loop (length seeds + length (dag_auth d)) d (list_to_set seeds) (reverse seeds) [].

Definition event_auth_json d room (id : string) : result Value MatrixError :=
  match event_row d id with
  | None => Err (not_found "unknown event")
  | Some _ => Ok (json_object [("auth_chain", json_array (auth_chain_of d [id]))])
  end.

Definition pdu_event_id (rules : RoomVersionRules) (p : Value) : option string :=
  match from_value p with
  | Ok obj => match compute_event_id rules obj with Ok i => Some i | Err _ => None end
  | Err _ => None
  end.

Definition state_at_json (rules : RoomVersionRules) d room (at_ : string) (ids_only : bool) :
    result Value MatrixError :=
  match EventId_parse at_ with
  | Err _ => Err (bad_json "event id")
  | Ok id =>
      match conn_state_after d id with
      | None => Err (not_found "unknown event")
      | Some after =>
          let ids := values after in
          let chain := auth_chain_of d ids in
          if ids_only then
            let chain_ids := omap (pdu_event_id rules) chain in
            Ok (json_object [("pdu_ids", json_array (json_str <$> ids));
                             ("auth_chain_ids", json_array (json_str <$> chain_ids))])
          else
            Ok (json_object [("pdus", json_array (omap (pdu_value d) ids)); ("auth_chain", json_array chain)])
      end
  end.

(** http/federation.rs: who may read a room's graph. *)
Definition dag_room_access d (origin room : string) : result unit MatrixError :=
  if negb (is_f3_room d room) then Err (unrecognized "only hash-id rooms offer this")
  else if negb (origin_in_room d room origin) then Err (forbidden "server has no member in this room")
  else Ok tt.

(** The handlers after authentication of [origin]. *)
Definition event_auth d (origin room id : string) : result Value MatrixError :=
  let? _ := dag_room_access d origin room in
  event_auth_json d room id.

Definition state_at (rules : RoomVersionRules) d (origin room : string) (event_id : option string)
    (ids_only : bool) : result Value MatrixError :=
  let? _ := dag_room_access d origin room in
  let? at_ := ok_or event_id (invalid_param "event_id required") in
  state_at_json rules d room at_ ids_only.

Definition get_missing_events d (shared : bool) (origin room : string) (earliest latest : list string)
    (limit : nat) : result (list Value) MatrixError :=
  if negb (is_f3_room d room) then Err (not_found "unknown room")
  else if negb (origin_in_room d room origin) then Err (forbidden "server has no member in this room")
  else Ok (missing_events_json d shared room origin earliest latest limit).

End Store.
