(* ===== verification/DagStoreProps.v ===== *)
(** * Theorems about the stored event graph

    [tables_ok] is the invariant of the tables; under it [store_accepted] writes exactly what the
    core's answer says ([stored]), also when a message shares the state group of its parent. *)

From S2P Require Import Prelude Sqlite EventGraph EventGraphProps DagStore.

Local Open Scope Z_scope.

(** What the store relies on: a stored event reads back, and state resolution answers with events
    of the chains it was given, under event types. *)
Class DagLaws `{RumaLaws} `{!DagJson} : Prop := {
  object_roundtrip o : ∃ s, object_to_string o = Ok s ∧ object_from_str s = Ok o;
  resolve_ids a v forks chains f st k id :
    resolve a v forks chains f = Ok st → st !! k = Some id → ∃ c, c ∈ chains ∧ id ∈ c;
  resolve_keys a v forks chains f st t k id :
    resolve a v forks chains f = Ok st → st !! (t, k) = Some id → StateEventType_from t = t
}.

(** Equalities from the conditions of a query. *)
Ltac seqs :=
  boolify; repeat match goal with H : seqb _ _ = true |- _ => apply seqb_true in H end.

Section Read.
Context `{RumaRules} `{!DagJson}.
Implicit Types (d : DagTables) (room : string).

(** A finite map tabulated from a function over the keys of rows. *)
Lemma lookup_tabulated {A B} (key : A → string) (f : string → option B) (rows : list A) id :
  (∀ i, is_Some (f i) → i ∈ key <$> rows) →
  (list_to_map (omap (λ r, (λ p, (key r, p)) <$> f (key r)) rows) : gmap string B) !! id = f id.
Proof.
  intros Hdom.
  assert (Hgen : (list_to_map (omap (λ r, (λ p, (key r, p)) <$> f (key r)) rows) : gmap string B) !! id
                 = if decide (id ∈ key <$> rows) then f id else None).
  { clear Hdom. induction rows as [|r rows IH]; [done|]. cbn.
    destruct (decide (id = key r)) as [->|Hne].
    - rewrite decide_True by set_solver. destruct (f (key r)) as [b|] eqn:Hf; cbn.
      + by rewrite lookup_insert_eq.
      + rewrite IH. by case_decide.
    - assert (Hl : (list_to_map (omap (λ r, (λ p, (key r, p)) <$> f (key r)) rows) : gmap string B) !! id
                   = if decide (id ∈ key r :: (key <$> rows)) then f id else None).
      { rewrite IH. apply decide_ext. set_solver. }
      destruct (f (key r)); cbn; [by rewrite lookup_insert_ne|done]. }
  rewrite Hgen. case_decide as Hin; [done|]. symmetry. apply eq_None_not_Some. auto.
Qed.

Lemma event_row_in d id r : event_row d id = Some r → r ∈ dag_events d ∧ de_event_id r = id.
Proof. unfold event_row. intros [? ?%seqb_true]%find_row_Some. auto. Qed.

Lemma conn_pdu_row d id p : conn_pdu d id = Some p → id ∈ de_event_id <$> dag_events d.
Proof.
  unfold conn_pdu. destruct (event_row d id) as [r|] eqn:Hr; [|discriminate]. intros _.
  apply event_row_in in Hr as [Hr <-]. by apply list_elem_of_fmap_2.
Qed.

Lemma pdu_conn_dag d room id : pdu (conn_dag d room) !! id = conn_pdu d id.
Proof. cbn. apply lookup_tabulated. intros i [p Hp]. by eapply conn_pdu_row. Qed.

Lemma group_of_in d id g : group_of d id = Some g → (id, g) ∈ dag_event_state d.
Proof.
  unfold group_of. destruct (find_row _ _) as [[i g']|] eqn:Hr; cbn; [|discriminate]. intros [= ->].
  apply find_row_Some in Hr as [Hr Hi%seqb_true]. cbn in Hi. by subst.
Qed.

Lemma state_after_conn_dag d room id : state_after (conn_dag d room) !! id = conn_state_after d id.
Proof.
  cbn. apply (lookup_tabulated fst). intros i [s Hs]. unfold conn_state_after in Hs.
  destruct (group_of d i) as [g|] eqn:Hg; [|discriminate]. apply group_of_in in Hg.
  by apply (list_elem_of_fmap_2 fst) in Hg.
Qed.

End Read.

(** ** Well-formed states *)

Section States.
Context `{DagLaws}.
Implicit Types (st : StateMap).

(** Every id parses and every event type is one. *)
Definition state_ok st : Prop :=
  map_Forall (λ k id, StateEventType_from k.1 = k.1 ∧ EventId_parse id = Ok id) st.

Lemma parsed_id s e : EventId_parse s = Ok e → EventId_parse e = Ok e.
Proof. intros Hp. pose proof (EventId_parse_text _ _ Hp). by subst. Qed.

Lemma read_entries_ok rows m st : state_ok m → read_entries rows m = Some st → state_ok st.
Proof.
  revert m. induction rows as [|r rows IH]; intros m Hm; cbn; [by intros [= <-]|].
  destruct (EventId_parse (ge_event_id r)) as [e|] eqn:He; [|discriminate]. apply IH.
  apply map_Forall_insert_2; [|done]. cbn. split; [apply StateEventType_from_idemp|by eapply parsed_id].
Qed.

Lemma group_state_ok d g st : group_state d g = Some st → state_ok st.
Proof. apply read_entries_ok. apply map_Forall_empty. Qed.

Lemma from_wire_auth_parsed id obj p :
  from_wire id obj = Ok p → Forall (λ a, EventId_parse a = Ok a) (auth_events p).
Proof.
  unfold from_wire. intros Hok. inv_ok. cbn.
  match goal with Ha : match value_get _ "auth_events" ≫= _ with _ => _ end = _ |- _ => revert Ha end.
  destruct (value_get _ "auth_events" ≫= as_array) as [vs|]; [|intros [= <-]; constructor].
  intros Hvs%try_map_ok. induction Hvs as [|v e vs l Hv]; constructor; [|done].
  destruct (as_str v); cbn in Hv; [by eapply parsed_id|discriminate].
Qed.

(** The state [resolve_over] answers is well formed when the states and events it reads are. *)
Lemma resolve_over_ok rules db ids st :
  map_Forall (λ _ s, state_ok s) (state_after db) →
  map_Forall (λ _ p, Forall (λ a, EventId_parse a = Ok a) (auth_events p)) (pdu db) →
  resolve_over rules db ids None = Ok st → state_ok st.
Proof.
  intros Hst Hpdu. unfold resolve_over. intros Hok. inv_ok. apply try_map_ok in E.
  assert (Hforks : Forall state_ok a).
  { clear -Hst E. induction E as [|i f ids l Hi]; constructor; [|done].
    destruct (state_after db !! i) eqn:Hs; cbn in Hi; [|discriminate]. injection Hi as <-. by apply (Hst i). }
  destruct a as [|f [|f' fs]]; [by injection Hok as <-; apply map_Forall_empty| |].
  { injection Hok as <-. by apply Forall_cons in Hforks as [? _]. }
  set (forks := f :: f' :: fs) in *. apply map_err_ok in Hok. unfold resolve_state_with in Hok.
  destruct (state_res rules) as [|v2]; [discriminate|]. apply map_err_ok in Hok.
  intros [t k] id Hk. cbn. split; [by eapply resolve_keys|].
  destruct (resolve_ids _ _ _ _ _ _ _ _ Hok Hk) as (c & Hc & Hid).
  apply list_elem_of_fmap in Hc as (g & -> & Hg).
  apply auth_chain_loop_sound in Hid as [?|(i & Hi & Hix)]; [set_solver|].
  rewrite elem_of_reverse in Hi. assert (Hip : EventId_parse i = Ok i).
  { apply list_elem_of_fmap in Hi as ([[t' k'] i'] & -> & Hi). apply elem_of_map_to_list in Hi.
    rewrite Forall_forall in Hforks. by apply (Hforks g Hg) in Hi as [_ ?]. }
  clear Hi. induction Hix as [|x y z (p & Hp & Hy)]; [done|]. apply IHHix; [done|].
  apply (Hpdu x) in Hp. rewrite Forall_forall in Hp. auto.
Qed.

End States.

(** ** Tables *)

Section Tables.
Context `{DagLaws}.
Implicit Types (d : DagTables) (room : string).

Record tables_ok d : Prop := {
  ok_event_ids : NoDup (de_event_id <$> dag_events d);
  ok_readable r : r ∈ dag_events d → is_Some (conn_pdu d (de_event_id r));
  ok_state_ids : NoDup (dag_event_state d).*1;
  ok_state_groups r : r ∈ dag_event_state d → r.2 ≤ dag_group_seq d;
  ok_entries r : r ∈ dag_state_group_entries d → ge_group_id r ≤ dag_group_seq d;
  ok_ext_nodup : NoDup (dag_extremities d);
  ok_ext r : r ∈ dag_extremities d → EventId_parse r.2 = Ok r.2 ∧ is_Some (conn_pdu d r.2);
  ok_edges a b : (a, b) ∈ dag_edges d ↔ ∃ p, conn_pdu d a = Some p ∧ b ∈ prev_events p;
  ok_auth a b : (a, b) ∈ dag_auth d ↔ ∃ p, conn_pdu d a = Some p ∧ b ∈ auth_events p }.

Lemma tables_ok_empty : tables_ok create_dag_schema.
Proof.
  constructor; cbn; try constructor; try set_solver; intros a b; split; try set_solver;
    intros (p & Hp & _); discriminate.
Qed.

(** *** Pairs *)

Lemma elem_of_insert_pair t a b x y : (x, y) ∈ insert_pair t a b ↔ (x, y) ∈ t ∨ x = a ∧ y = b.
Proof.
  unfold insert_pair. destruct (exists_row _ t) eqn:He; [|set_solver].
  apply exists_row_true in He as ([a' b'] & Hin & Hab). seqs. cbn in *. subst.
  set_solver.
Qed.

Lemma elem_of_insert_pairs t a l x y :
  (x, y) ∈ foldl (λ t b, insert_pair t a b) t l ↔ (x, y) ∈ t ∨ x = a ∧ y ∈ l.
Proof.
  revert t. induction l as [|b l IH]; intros t; cbn; [set_solver|].
  rewrite IH, elem_of_insert_pair. set_solver.
Qed.

(** *** State groups *)

Definition entries_of (gid : Z) (l : list (string * string * EventId)) : list GroupEntry :=
  (λ '(t, k, e), mkGroupEntry gid t k e) <$> l.

Lemma insert_entries_fresh gid l t :
  NoDup l.*1 →
  (∀ ty k e, (ty, k, e) ∈ l → ∀ r, r ∈ t → ge_group_id r = gid → (ge_event_type r, ge_state_key r) ≠ (ty, k)) →
  insert_entries gid l t = Ok (t ++ entries_of gid l).
Proof.
  revert t. induction l as [|[[ty k] e] l IH]; intros t Hnd Hfresh; cbn; [by rewrite app_nil_r|].
  cbn in Hnd. apply NoDup_cons in Hnd as [Hn Hnd].
  destruct (exists_row _ t) eqn:He.
  { apply exists_row_true in He as (r & Hr & Hk). seqs. exfalso. apply (Hfresh ty k e ltac:(set_solver) r Hr); congruence. }
  rewrite IH; [by rewrite <- app_assoc|done|].
  intros ty' k' e' Hin r [Hr|Hr]%elem_of_app Hg; [by apply (Hfresh ty' k' e'); [set_solver|..]|].
  apply list_elem_of_singleton in Hr as ->. cbn. intros [= -> ->]. apply Hn.
  by apply (list_elem_of_fmap_2 fst) in Hin.
Qed.

Lemma read_entries_of gid l (m : StateMap) :
  (∀ t k e, (t, k, e) ∈ l → StateEventType_from t = t ∧ EventId_parse e = Ok e) →
  read_entries (entries_of gid l) m = Some (foldl (λ m '(k, e), <[k := e]> m) m l).
Proof.
  revert m. induction l as [|[[t k] e] l IH]; intros m Hl; [done|].
  destruct (Hl t k e ltac:(set_solver)) as [Ht He]. cbn. rewrite He, Ht. apply IH.
  intros t' k' e' ?. apply (Hl t' k' e'). set_solver.
Qed.

Lemma foldl_insert_map (m : StateMap) :
  foldl (λ m '(k, e), <[k := e]> m) (∅ : StateMap) (map_to_list m) = m.
Proof.
  assert (Hg : ∀ (l : list (string * string * EventId)), foldl (λ m '(k, e), <[k := e]> m) (∅ : StateMap) l = list_to_map (reverse l)).
  { intros l. induction l as [|[k e] l IH] using rev_ind; [done|].
    rewrite foldl_app, reverse_app. cbn. by rewrite IH. }
  rewrite Hg. trans (list_to_map (map_to_list m) : StateMap); [|apply list_to_map_to_list].
  apply list_to_map_proper; rewrite reverse_Permutation; [apply NoDup_fst_map_to_list|done].
Qed.

Lemma select_app {A} (p : A → bool) l k : select p (l ++ k) = select p l ++ select p k.
Proof. apply List.filter_app. Qed.

Lemma select_all {A} (p : A → bool) l : (∀ x, x ∈ l → p x = true) → select p l = l.
Proof.
  induction l as [|x l IH]; intros Hp; [done|]. cbn. rewrite Hp by set_solver. f_equal.
  apply IH. set_solver.
Qed.

Lemma select_none {A} (p : A → bool) l : (∀ x, x ∈ l → p x = false) → select p l = [].
Proof. induction l as [|x l IH]; intros Hp; [done|]. cbn. rewrite Hp by set_solver. apply IH. set_solver. Qed.

Lemma new_group_ok d room st :
  (∀ r, r ∈ dag_state_group_entries d → ge_group_id r ≤ dag_group_seq d) → state_ok st →
  ∃ entries, new_group d room st =
    Ok (mkDagTables (dag_rooms d) (dag_events d) (dag_edges d) (dag_auth d) (dag_extremities d)
          (dag_state_groups d ++ [(dag_group_seq d + 1, room)]) (dag_group_seq d + 1) entries
          (dag_event_state d) (fed_pdus d), dag_group_seq d + 1) ∧
    (∀ r, r ∈ entries → ge_group_id r ≤ dag_group_seq d + 1) ∧
    read_entries (select (λ r, ge_group_id r =? dag_group_seq d + 1) entries) ∅ = Some st ∧
    ∀ g, g ≤ dag_group_seq d →
      select (λ r, ge_group_id r =? g) entries = select (λ r, ge_group_id r =? g) (dag_state_group_entries d).
Proof.
  intros Hd Hst. set (gid := dag_group_seq d + 1). unfold new_group. fold gid.
  assert (Hold : ∀ r, r ∈ dag_state_group_entries d → ge_group_id r < gid) by (intros r Hr%Hd; lia).
  assert (Hnew : ∀ r, r ∈ entries_of gid (map_to_list st) → ge_group_id r = gid).
  { intros r ([[t k] e] & -> & _)%list_elem_of_fmap. done. }
  rewrite insert_entries_fresh; [|apply NoDup_fst_map_to_list|intros ???? r Hr%Hold ?; lia].
  eexists. split; [done|]. split_and!.
  - intros r [?%Hold|?%Hnew]%elem_of_app; lia.
  - rewrite select_app, select_none, select_all by
      (intros r ?%Hnew || intros r ?%Hold; rewrite ?Z.eqb_eq, ?Z.eqb_neq; lia).
    cbn. rewrite read_entries_of, foldl_insert_map; [done|].
    intros t k e Hin%elem_of_map_to_list. by apply Hst in Hin.
  - intros g Hg. rewrite select_app, (select_none _ (entries_of _ _)), app_nil_r; [done|].
    intros r ->%Hnew. apply Z.eqb_neq. lia.
Qed.

(** [d1] is [d] with [gid] a group that reads as [st]; the groups in use read as before. *)
Record grouped d (st : StateMap) (d1 : DagTables) (gid : Z) : Prop := {
  grp_same : (dag_rooms d1, dag_events d1, dag_edges d1, dag_auth d1, dag_extremities d1, dag_event_state d1, fed_pdus d1)
    = (dag_rooms d, dag_events d, dag_edges d, dag_auth d, dag_extremities d, dag_event_state d, fed_pdus d);
  grp_seq : dag_group_seq d ≤ dag_group_seq d1;
  grp_gid : gid ≤ dag_group_seq d1;
  grp_entries r : r ∈ dag_state_group_entries d1 → ge_group_id r ≤ dag_group_seq d1;
  grp_new : group_state d1 gid = Some st;
  grp_old g : g ≤ dag_group_seq d → group_state d1 g = group_state d g }.

(** Either choice of group is right: a new one, or the parent's when its state is the state to store. *)
Lemma choose_group d room st shared :
  (∀ r, r ∈ dag_state_group_entries d → ge_group_id r ≤ dag_group_seq d) → state_ok st →
  (∀ g, shared = Some g → g ≤ dag_group_seq d ∧ group_state d g = Some st) →
  ∃ d1 gid, match shared with Some g => Ok (d, g) | None => new_group d room st end = Ok (d1, gid) ∧
    grouped d st d1 gid.
Proof.
  intros Hent Hst Hsh. destruct shared as [g|].
  - destruct (Hsh g eq_refl). exists d, g. split; [done|]. constructor; auto. lia.
  - destruct (new_group_ok d room st Hent Hst) as (entries & -> & Hle & Hread & Hold).
    eexists _, _. split; [done|]. constructor; cbn; auto; try lia.
    intros g Hg. unfold group_state. cbn. by rewrite Hold.
Qed.

(** *** Extremities *)

Lemma insert_extremities_fresh room ids t :
  NoDup ids → (∀ e, e ∈ ids → (room, e) ∉ t) →
  insert_extremities room ids t = Ok (t ++ (pair room <$> ids)).
Proof.
  revert t. induction ids as [|e ids IH]; intros t Hnd Hf; cbn; [by rewrite app_nil_r|].
  apply NoDup_cons in Hnd as [He Hnd]. destruct (exists_row _ t) eqn:Hx.
  { apply exists_row_true in Hx as ([r e'] & Hin & Hk). seqs. cbn in *. subst.
    exfalso. apply (Hf e'); [set_solver|done]. }
  rewrite IH; [by rewrite <- app_assoc|done|]. set_solver.
Qed.

#[local] Instance text_le_trans {A} (key : A → string) : Transitive (text_le key).
Proof. intros a b c. unfold text_le. by etrans. Qed.

#[local] Instance text_le_total {A} (key : A → string) : Total (text_le key).
Proof. intros a b. unfold text_le. apply (total String.le). Qed.

Lemma sorted_snd (l : list (string * string)) :
  StronglySorted (text_le snd) l → StronglySorted String.le l.*2.
Proof.
  induction 1 as [|x l _ IH Hx]; cbn; constructor; [done|]. by rewrite Forall_fmap.
Qed.

Lemma order_by_text_pairs room ids :
  StronglySorted String.le ids → (order_by_text snd (pair room <$> ids)).*2 = ids.
Proof.
  intros Hs. apply (StronglySorted_unique String.le); [|done|].
  - apply sorted_snd, (StronglySorted_merge_sort _).
  - unfold order_by_text. rewrite merge_sort_Permutation, <- list_fmap_compose. by rewrite list_fmap_id.
Qed.

Lemma parse_all ids :
  Forall (λ e, EventId_parse e = Ok e) ids →
  omap (λ e, match EventId_parse e with Ok e => Some e | Err _ => None end) ids = ids.
Proof. induction 1 as [|e ids He _ IH]; [done|]. cbn. by rewrite He, IH. Qed.

Lemma select_room (l : list (string * string)) ids room room' :
  select (λ r, seqb room' r.1) (select (λ r, negb (seqb room r.1)) l ++ (pair room <$> ids)) =
  if decide (room' = room) then pair room <$> ids else select (λ r, seqb room' r.1) l.
Proof.
  rewrite select_app. unfold select. case_decide as Hr.
  - subst. replace (List.filter _ (List.filter _ l)) with (@nil (string * string)).
    + apply (select_all (λ r, seqb room r.1)). intros r (e & -> & _)%list_elem_of_fmap. apply seqb_refl.
    + symmetry. apply (select_none (λ r, seqb room r.1)). intros r [_ Hr]%elem_of_select. seqs. done.
  - rewrite (select_none (λ r, seqb room' r.1) (pair room <$> ids)), app_nil_r.
    + induction l as [|[r e] l IH]; [done|]. cbn. destruct (seqb room r) eqn:E1, (seqb room' r) eqn:E2; cbn;
        rewrite ?E2, ?IH; try done. seqs. congruence.
    + intros r (e & -> & _)%list_elem_of_fmap. cbn. apply bool_decide_eq_false. done.
Qed.

Lemma conn_extremities_elem d room :
  tables_ok d → conn_extremities d room = (order_by_text snd (select (λ r, seqb room r.1) (dag_extremities d))).*2.
Proof.
  intros Hd. unfold conn_extremities. apply parse_all, Forall_fmap, Forall_forall.
  intros r Hr. unfold order_by_text in Hr. rewrite merge_sort_Permutation in Hr.
  apply elem_of_select in Hr as [Hr _]. by apply (ok_ext d Hd).
Qed.

Lemma elem_of_conn_extremities d room e :
  tables_ok d → e ∈ conn_extremities d room ↔ (room, e) ∈ dag_extremities d.
Proof.
  intros Hd. rewrite conn_extremities_elem by done. unfold order_by_text. rewrite list_elem_of_fmap. split.
  - intros ([r e'] & -> & Hr). rewrite merge_sort_Permutation in Hr. apply elem_of_select in Hr as [Hr ?]. seqs.
    cbn in *. by subst.
  - intros He. exists (room, e). rewrite merge_sort_Permutation, elem_of_select. cbn. auto using seqb_refl.
Qed.

Lemma NoDup_conn_extremities d room : tables_ok d → NoDup (conn_extremities d room).
Proof.
  intros Hd. rewrite conn_extremities_elem by done. unfold order_by_text. rewrite merge_sort_Permutation.
  apply NoDup_fmap_2_strong.
  - intros [r e] [r' e'] [_ ?]%elem_of_select [_ ?]%elem_of_select ?. seqs. cbn in *. by subst.
  - rewrite select_filter. apply NoDup_filter, Hd.
Qed.

(** *** One write *)

(** What [store_accepted] leaves behind. *)
Record written d room (acc : Accepted) (d' : DagTables) : Prop := {
  w_events : ∃ r, dag_events d' = dag_events d ++ [r] ∧ de_event_id r = acc_event_id acc ∧
    object_from_str (de_pdu r) = Ok (acc_json acc);
  w_edges a b : (a, b) ∈ dag_edges d' ↔ (a, b) ∈ dag_edges d ∨ a = acc_event_id acc ∧ b ∈ prev_events (acc_pdu acc);
  w_auth a b : (a, b) ∈ dag_auth d' ↔ (a, b) ∈ dag_auth d ∨ a = acc_event_id acc ∧ b ∈ auth_events (acc_pdu acc);
  w_ext : dag_extremities d' =
    if acc_soft_failed acc then dag_extremities d
    else select (λ r, negb (seqb room r.1)) (dag_extremities d) ++ (pair room <$> acc_extremities acc);
  w_state : ∃ gid, dag_event_state d' = replace_event_state (dag_event_state d) (acc_event_id acc) gid ∧
    gid ≤ dag_group_seq d' ∧ group_state d' gid = Some (acc_state_after acc);
  w_seq : dag_group_seq d ≤ dag_group_seq d';
  w_entries r : r ∈ dag_state_group_entries d' → ge_group_id r ≤ dag_group_seq d';
  w_old g : g ≤ dag_group_seq d → group_state d' g = group_state d g }.

Lemma store_accepted_written d room acc :
  tables_ok d → acc_event_id acc ∉ de_event_id <$> dag_events d →
  state_ok (acc_state_after acc) → NoDup (acc_extremities acc) →
  (∀ q g, state_key (acc_pdu acc) = None → prev_events (acc_pdu acc) = [q] → group_of d q = Some g →
     group_state d g = Some (acc_state_after acc)) →
  ∃ d', store_accepted d room acc false = Ok d' ∧ written d room acc d'.
Proof.
  intros Hd Hnew Hst Hext Hshare. unfold store_accepted.
  destruct (object_roundtrip (acc_json acc)) as (text & -> & Htext).
  destruct (exists_row _ (dag_events d)) eqn:He.
  { apply exists_row_true in He as (r & Hr & Hid). seqs. exfalso. apply Hnew. rewrite Hid. by apply list_elem_of_fmap_2. }
  set (row := mkDagEventRow _ _ _ _ _ _ _ _ _ _ _).
  match goal with |- context [match ?sh with Some g => Ok (?t, g) | None => new_group ?t _ _ end] =>
    set (shared := sh); set (d0 := t) end.
  assert (Hsh : ∀ g, shared = Some g → g ≤ dag_group_seq d0 ∧ group_state d0 g = Some (acc_state_after acc)).
  { intros g Hg. subst shared. destruct (state_key (acc_pdu acc)) eqn:Hk; [discriminate|].
    destruct (prev_events (acc_pdu acc)) as [|q [|? ?]] eqn:Hp; try discriminate.
    split; [|by apply (Hshare q)]. change (dag_group_seq d0) with (dag_group_seq d).
    by apply group_of_in, (ok_state_groups d Hd) in Hg. }
  destruct (choose_group d0 room (acc_state_after acc) shared (ok_entries d Hd) Hst Hsh) as (d1 & gid & -> & Hgr).
  pose proof (grp_same _ _ _ _ Hgr) as Hsame. injection Hsame as Hr1 He1 Hed1 Ha1 Hx1 Hs1 Hf1.
  rewrite andb_true_r, Hx1. change (dag_extremities d0) with (dag_extremities d).
  assert (Hins : (if negb (acc_soft_failed acc) then insert_extremities room (acc_extremities acc)
                    (select (λ r, negb (seqb room r.1)) (dag_extremities d)) else Ok (dag_extremities d))
    = Ok (if acc_soft_failed acc then dag_extremities d
          else select (λ r, negb (seqb room r.1)) (dag_extremities d) ++ (pair room <$> acc_extremities acc))).
  { destruct (acc_soft_failed acc); [done|]. cbn. apply insert_extremities_fresh; [done|].
    intros e _ [_ Hn]%elem_of_select. cbn in Hn. by rewrite seqb_refl in Hn. }
  rewrite Hins. eexists. split; [done|]. constructor; cbn; try apply Hgr.
  - exists row. by rewrite He1.
  - intros a b. rewrite Hed1. apply elem_of_insert_pairs.
  - intros a b. rewrite Ha1. apply elem_of_insert_pairs.
  - done.
  - exists gid. rewrite Hs1. split; [done|]. split; apply Hgr.
Qed.

Lemma find_row_app {A} (p : A → bool) l k :
  find_row p (l ++ k) = match find_row p l with Some x => Some x | None => find_row p k end.
Proof. induction l as [|x l IH]; [done|]. cbn. by destruct (p x). Qed.

Lemma written_pdu d room acc d' i :
  written d room acc d' → acc_event_id acc ∉ de_event_id <$> dag_events d →
  from_wire (acc_event_id acc) (acc_json acc) = Ok (acc_pdu acc) →
  conn_pdu d' i = if decide (i = acc_event_id acc) then Some (acc_pdu acc) else conn_pdu d i.
Proof.
  intros Hw Hnew Hwire. destruct (w_events _ _ _ _ Hw) as (r & Hr & Hid & Htext).
  unfold conn_pdu, event_row. rewrite Hr, find_row_app. cbn. case_decide as Hi.
  - subst i. rewrite Hid, seqb_refl. destruct (find_row _ (dag_events d)) eqn:Hf.
    + apply find_row_Some in Hf as [Hin ?]. seqs. exfalso. apply Hnew, list_elem_of_fmap. eauto.
    + by rewrite Htext, Hwire.
  - destruct (find_row _ (dag_events d)); [done|]. rewrite Hid.
    destruct (seqb i (acc_event_id acc)) eqn:Hs; [seqs; done|done].
Qed.

Lemma written_group d room acc d' i :
  written d room acc d' →
  group_of d' i = if decide (i = acc_event_id acc) then group_of d' i else group_of d i.
Proof.
  intros Hw. case_decide as Hi; [done|]. destruct (w_state _ _ _ _ Hw) as (gid & Hs & _).
  unfold group_of. rewrite Hs. unfold replace_event_state. rewrite find_row_app. cbn.
  assert (seqb i (acc_event_id acc) = false) as -> by (by apply bool_decide_eq_false).
  generalize (dag_event_state d) as l. intros l. induction l as [|[j g] l IH]; [done|]. cbn.
  destruct (seqb (acc_event_id acc) j) eqn:E1, (seqb i j) eqn:E2; cbn; rewrite ?E2; try done.
  seqs. congruence.
Qed.

Lemma written_state d room acc d' i :
  tables_ok d → written d room acc d' →
  conn_state_after d' i = if decide (i = acc_event_id acc) then Some (acc_state_after acc) else conn_state_after d i.
Proof.
  intros Hd Hw. unfold conn_state_after. case_decide as Hi.
  - subst i. destruct (w_state _ _ _ _ Hw) as (gid & Hs & _ & Hg).
    assert (group_of d' (acc_event_id acc) = Some gid) as ->; [|done].
    unfold group_of. rewrite Hs. unfold replace_event_state. rewrite find_row_app. cbn. rewrite seqb_refl.
    destruct (find_row _ _) eqn:Hf; [|done]. apply find_row_Some in Hf as [[_ Hn]%elem_of_select Hi].
    by rewrite Hi in Hn.
  - rewrite (written_group d room acc d' i Hw), decide_False by done.
    destruct (group_of d i) as [g|] eqn:Hg; [|done].
    apply (w_old _ _ _ _ Hw). by apply group_of_in, (ok_state_groups d Hd) in Hg.
Qed.

(** *** Writing what the core accepted *)

Lemma conn_states_ok d room : map_Forall (λ _ s, state_ok s) (state_after (conn_dag d room)).
Proof.
  intros i s. rewrite state_after_conn_dag. unfold conn_state_after.
  destruct (group_of d i); [apply group_state_ok|discriminate].
Qed.

Lemma conn_pdus_ok d room :
  map_Forall (λ _ p, Forall (λ a, EventId_parse a = Ok a) (auth_events p)) (pdu (conn_dag d room)).
Proof.
  intros i p. rewrite pdu_conn_dag. unfold conn_pdu. destruct (event_row d i) as [r|]; [|discriminate].
  destruct (object_from_str (de_pdu r)) as [o|]; [|discriminate].
  destruct (from_wire i o) as [q|] eqn:Hw; [|discriminate]. intros [= <-]. by eapply from_wire_auth_parsed.
Qed.

Lemma unknown_row d room id :
  tables_ok d → pdu (conn_dag d room) !! id = None → id ∉ de_event_id <$> dag_events d.
Proof.
  rewrite pdu_conn_dag. intros Hd Hn (r & -> & Hr)%list_elem_of_fmap.
  apply (ok_readable d Hd) in Hr. rewrite Hn in Hr. by destruct Hr.
Qed.

(** A message with one parent leaves the room in the state its parent left. *)
Lemma message_shares_state rules d room acc q g before :
  resolve_over rules (conn_dag d room) (prev_events (acc_pdu acc)) None = Ok before →
  acc_state_after acc = apply_event (acc_pdu acc) (acc_event_id acc) before →
  state_key (acc_pdu acc) = None → prev_events (acc_pdu acc) = [q] → group_of d q = Some g →
  group_state d g = Some (acc_state_after acc).
Proof.
  intros Hb Hafter Hk Hp Hg. rewrite Hp in Hb. unfold resolve_over in Hb. cbn [try_map] in Hb.
  rewrite state_after_conn_dag in Hb. unfold conn_state_after in Hb. rewrite Hg in Hb.
  destruct (group_state d g); cbn in Hb; [|discriminate]. injection Hb as ->.
  rewrite Hafter. unfold apply_event. by rewrite Hk.
Qed.

Lemma accepted_state_ok rules d room id json acc :
  accepted rules (conn_dag d room) id json acc → EventId_parse id = Ok id → state_ok (acc_state_after acc).
Proof.
  intros Hacc Hid. destruct (accd_before _ _ _ _ _ Hacc) as (before & Hb & _ & ->).
  apply resolve_over_ok in Hb; [|apply conn_states_ok|apply conn_pdus_ok].
  unfold apply_event. destruct (state_key _); [|done]. apply map_Forall_insert_2; [|done].
  split; [apply StateEventType_from_idemp|done].
Qed.

Lemma accepted_extremities rules d room id json acc :
  tables_ok d → accepted rules (conn_dag d room) id json acc → EventId_parse id = Ok id →
  NoDup (acc_extremities acc) ∧
  ∀ e, e ∈ acc_extremities acc → e = id ∨ EventId_parse e = Ok e ∧ is_Some (conn_pdu d e).
Proof.
  intros Hd Hacc Hid. rewrite (accd_ext _ _ _ _ _ Hacc).
  assert (Hold : ∀ e, e ∈ conn_extremities d room → EventId_parse e = Ok e ∧ is_Some (conn_pdu d e)).
  { intros e He%elem_of_conn_extremities; [|done]. by apply (ok_ext d Hd (room, e)). }
  change (extremities (conn_dag d room)) with (conn_extremities d room).
  pose proof (accd_new _ _ _ _ _ Hacc) as Hnew. rewrite pdu_conn_dag in Hnew.
  destruct (acc_soft_failed acc); [split; [by apply NoDup_conn_extremities|auto]|]. split.
  - rewrite sort_ids_perm. apply NoDup_app. split_and!; [|intros e|apply NoDup_singleton].
    + apply NoDup_filter, NoDup_conn_extremities, Hd.
    + intros [_ He]%list_elem_of_filter ->%list_elem_of_singleton. apply Hold in He as [_ He].
      rewrite Hnew in He. by destruct He.
  - intros e. rewrite elem_of_sort_ids, elem_of_app, list_elem_of_filter, list_elem_of_singleton. naive_solver.
Qed.

Lemma NoDup_replace_event_state t id g : NoDup t.*1 → NoDup (replace_event_state t id g).*1.
Proof.
  intros Hnd. unfold replace_event_state. rewrite fmap_app. apply NoDup_app. split_and!; [| |apply NoDup_singleton].
  - induction t as [|[j h] t IH]; [constructor|]. cbn in Hnd. apply NoDup_cons in Hnd as [Hj Hnd].
    cbn. destruct (seqb id j); cbn; [by apply IH|]. apply NoDup_cons. split; [|by apply IH].
    intros ([j' h'] & -> & [Hin _]%elem_of_select)%list_elem_of_fmap. apply Hj. by apply (list_elem_of_fmap_2 fst) in Hin.
  - intros x ([j h] & -> & [_ Hn]%elem_of_select)%list_elem_of_fmap Hx%list_elem_of_singleton.
    cbn in *. subst. by rewrite seqb_refl in Hn.
Qed.

(** A table of pairs that mirrors a field of the stored events goes on mirroring it. *)
Lemma written_pairs d d' (id : EventId) (q : Pdu) (f : Pdu → list EventId) (t t' : list (string * string)) :
  (∀ a b, (a, b) ∈ t ↔ ∃ p, conn_pdu d a = Some p ∧ b ∈ f p) →
  (∀ a b, (a, b) ∈ t' ↔ (a, b) ∈ t ∨ a = id ∧ b ∈ f q) →
  conn_pdu d id = None →
  (∀ i, conn_pdu d' i = if decide (i = id) then Some q else conn_pdu d i) →
  ∀ a b, (a, b) ∈ t' ↔ ∃ p, conn_pdu d' a = Some p ∧ b ∈ f p.
Proof.
  intros Ht Ht' Hnone Hpdu a b. rewrite Ht', Ht, Hpdu. case_decide as Ha; [subst a|naive_solver].
  rewrite Hnone. naive_solver.
Qed.

Lemma written_extremities_ok d room acc d' :
  tables_ok d → written d room acc d' → NoDup (acc_extremities acc) →
  (∀ i, is_Some (conn_pdu d i) → is_Some (conn_pdu d' i)) →
  (∀ e, e ∈ acc_extremities acc → EventId_parse e = Ok e ∧ is_Some (conn_pdu d' e)) →
  NoDup (dag_extremities d') ∧
  ∀ r, r ∈ dag_extremities d' → EventId_parse r.2 = Ok r.2 ∧ is_Some (conn_pdu d' r.2).
Proof.
  intros Hd Hw Hnd Hmono Hext. rewrite (w_ext _ _ _ _ Hw).
  assert (Hold : ∀ r, r ∈ dag_extremities d → EventId_parse r.2 = Ok r.2 ∧ is_Some (conn_pdu d' r.2)).
  { intros r [? ?]%(ok_ext d Hd). auto. }
  destruct (acc_soft_failed acc); [split; [apply Hd|done]|]. split.
  - apply NoDup_app. split_and!.
    + rewrite select_filter. apply NoDup_filter, Hd.
    + intros r [_ Hn]%elem_of_select (e & -> & _)%list_elem_of_fmap. cbn in Hn. by rewrite seqb_refl in Hn.
    + apply NoDup_fmap_2; [intros ? ? [= ->]; done|done].
  - intros r [[Hr _]%elem_of_select|(e & -> & He)%list_elem_of_fmap]%elem_of_app; [by apply Hold|by apply Hext].
Qed.

Lemma written_ok rules d room id json acc d' :
  tables_ok d → accepted rules (conn_dag d room) id json acc → EventId_parse id = Ok id →
  written d room acc d' → tables_ok d'.
Proof.
  intros Hd Hacc Hid Hw. destruct (accepted_extremities _ _ _ _ _ _ Hd Hacc Hid) as [Hnd Hext].
  pose proof (accd_new _ _ _ _ _ Hacc) as Hnone. pose proof (unknown_row d room id Hd Hnone) as Hnew.
  rewrite pdu_conn_dag in Hnone. pose proof (accd_pdu _ _ _ _ _ Hacc) as Hwire.
  pose proof (accd_id _ _ _ _ _ Hacc) as Heq.
  assert (Hpdu : ∀ i, conn_pdu d' i = if decide (i = id) then Some (acc_pdu acc) else conn_pdu d i).
  { intros i. rewrite <- Heq. apply (written_pdu d room); [done|by rewrite Heq|].
    by rewrite Heq, (accd_json _ _ _ _ _ Hacc). }
  assert (Hmono : ∀ i, is_Some (conn_pdu d i) → is_Some (conn_pdu d' i)).
  { intros i Hi. rewrite Hpdu. case_decide; eauto. }
  destruct (w_events _ _ _ _ Hw) as (r & Hr & Hrid & _). rewrite Heq in Hrid.
  destruct (w_state _ _ _ _ Hw) as (gid & Hs & Hgid & _). pose proof (w_seq _ _ _ _ Hw).
  destruct (written_extremities_ok d room acc d' Hd Hw Hnd Hmono) as [Hx1 Hx2].
  { intros e [->|[? ?]]%Hext; [|auto]. split; [done|]. rewrite Hpdu, decide_True by done. eauto. }
  constructor; try done.
  - rewrite Hr, fmap_app. apply NoDup_app. split_and!; [apply Hd| |apply NoDup_singleton].
    intros x Hx Hx'%list_elem_of_singleton. by subst x; rewrite Hrid in Hx.
  - intros x. rewrite Hr. intros [Hx|Hx%list_elem_of_singleton]%elem_of_app; [by apply Hmono, (ok_readable d Hd)|].
    subst x. rewrite Hrid, Hpdu, decide_True by done. eauto.
  - rewrite Hs. apply NoDup_replace_event_state, Hd.
  - intros x. rewrite Hs. intros [[Hx%(ok_state_groups d Hd) _]%elem_of_select|Hx%list_elem_of_singleton]%elem_of_app;
      [lia|by subst x].
  - apply Hw.
  - apply (written_pairs d d' id (acc_pdu acc) prev_events (dag_edges d)); auto; [apply Hd|].
    rewrite <- Heq. apply Hw.
  - apply (written_pairs d d' id (acc_pdu acc) auth_events (dag_auth d)); auto; [apply Hd|].
    rewrite <- Heq. apply Hw.
Qed.

(** The other rooms keep their extremities, this room gets the accepted event's. *)
Lemma written_extremities d room acc d' room' :
  tables_ok d → tables_ok d' → written d room acc d' → StronglySorted String.le (acc_extremities acc) →
  conn_extremities d' room' =
    if decide (room' = room) then
      if acc_soft_failed acc then conn_extremities d room else acc_extremities acc
    else conn_extremities d room'.
Proof.
  intros Hd Hd' Hw Hs. rewrite !conn_extremities_elem by done. rewrite (w_ext _ _ _ _ Hw).
  destruct (acc_soft_failed acc); [by case_decide; subst|]. rewrite select_room.
  case_decide; [by apply order_by_text_pairs|done].
Qed.

Lemma accepted_sorted rules d room id json acc :
  tables_ok d → accepted rules (conn_dag d room) id json acc → StronglySorted String.le (acc_extremities acc).
Proof.
  intros Hd Hacc. rewrite (accd_ext _ _ _ _ _ Hacc). destruct (acc_soft_failed acc); [|apply sort_ids_sorted].
  change (extremities (conn_dag d room)) with (conn_extremities d room).
  rewrite conn_extremities_elem by done. apply sorted_snd, (StronglySorted_merge_sort _).
Qed.

Lemma DagRead_eq (g h : DagRead) :
  pdu g = pdu h → state_after g = state_after h → extremities g = extremities h → g = h.
Proof. destruct g, h. cbn. congruence. Qed.

Lemma store_accepted_ok rules d room id json acc :
  tables_ok d → EventId_parse id = Ok id →
  accept rules (conn_dag d room) id json None = Ok acc →
  ∃ d', store_accepted d room acc false = Ok d' ∧ tables_ok d' ∧
    conn_dag d' room = stored (conn_dag d room) acc ∧
    ∀ room', room' ≠ room → conn_extremities d' room' = conn_extremities d room'.
Proof.
  intros Hd Hid Hacc%accept_ok. pose proof (accd_id _ _ _ _ _ Hacc) as Heq.
  destruct (accepted_extremities _ _ _ _ _ _ Hd Hacc Hid) as [Hnd _].
  pose proof (accepted_state_ok _ _ _ _ _ _ Hacc Hid) as Hst.
  pose proof (unknown_row d room id Hd (accd_new _ _ _ _ _ Hacc)) as Hnew. rewrite <- Heq in Hnew.
  destruct (accd_before _ _ _ _ _ Hacc) as (before & Hb & _ & Hafter). rewrite <- Heq in Hafter.
  destruct (store_accepted_written d room acc Hd Hnew Hst Hnd) as (d' & Hd' & Hw).
  { intros q g. by apply (message_shares_state rules d room acc q g before). }
  pose proof (written_ok _ _ _ _ _ _ _ Hd Hacc Hid Hw) as Hok.
  pose proof (accepted_sorted _ _ _ _ _ _ Hd Hacc) as Hs.
  exists d'. split_and!; [done|done| |].
  - apply DagRead_eq.
    + apply map_eq. intros i. rewrite pdu_conn_dag.
      rewrite (written_pdu d room acc d' i Hw Hnew) by (rewrite Heq, (accd_json _ _ _ _ _ Hacc); apply Hacc).
      unfold stored. cbn [pdu]. case_decide; [subst i; by rewrite lookup_insert_eq|by rewrite lookup_insert_ne, pdu_conn_dag].
    + apply map_eq. intros i. rewrite state_after_conn_dag, (written_state d room acc d' i Hd Hw).
      unfold stored. cbn [state_after]. case_decide; [subst i; by rewrite lookup_insert_eq|by rewrite lookup_insert_ne, state_after_conn_dag].
    + unfold stored. cbn [extremities conn_dag]. rewrite (written_extremities d room acc d' room), decide_True by done. done.
  - intros room' Hne. by rewrite (written_extremities d room acc d' room'), decide_False.
Qed.

(** C29: [store_accepted] writes exactly the event the core accepted: on tables in order it never
    fails, leaves them in order, and a reader of the tables then sees the old graph plus the event,
    its state and the new extremities. A message that shares the state group of its parent reads
    back with the state the core computed for it. The extremities of other rooms do not change. *)
Theorem store_accepted_refines rules d room id json acc :
  tables_ok d → EventId_parse id = Ok id →
  accept rules (conn_dag d room) id json None = Ok acc →
  ∃ d', store_accepted d room acc false = Ok d' ∧ tables_ok d' ∧
    conn_dag d' room = stored (conn_dag d room) acc ∧
    ∀ room', room' ≠ room → conn_extremities d' room' = conn_extremities d room'.
Proof. apply store_accepted_ok. Qed.

End Tables.
