(* ===== verification/DagServe.v ===== *)
(** * Serving the event graph to a peer

    [auth_chain_of] and [walk_back] against what they should return: the stored events the seeds
    cite, and the events that can be reached back through events a peer may see. *)

From S2P Require Import Prelude Sqlite EventGraph EventGraphProps DagStore DagStoreProps.

Local Open Scope Z_scope.

Lemma elem_of_targets t a b : b ∈ targets t a ↔ (a, b) ∈ t.
Proof.
  unfold targets. rewrite list_elem_of_fmap. split.
  - intros ([a' b'] & -> & [Hin ?]%elem_of_select). seqs. cbn in *. by subst.
  - intros Hin. exists (a, b). split; [done|]. apply elem_of_select. cbn. auto using seqb_refl.
Qed.

(** ** Auth chains *)

Section Chain.
Context `{RumaRules} `{!DagJson} (d : DagTables).

(** One round of the inner loop: the targets not met before, once each. *)
Lemma chain_visits have todo chain ts :
  ∃ new, foldl (chain_visit d) (have, todo, chain) ts =
      (list_to_set new ∪ have, reverse new ++ todo, chain ++ omap (pdu_value d) new) ∧
    NoDup new ∧ ∀ x, x ∈ new ↔ x ∈ ts ∧ x ∉ have.
Proof.
  revert have todo chain. induction ts as [|a ts IH]; intros have todo chain.
  { exists []. cbn. split_and!; [|constructor|set_solver]. rewrite app_nil_r. f_equal. f_equal. set_solver. }
  cbn. destruct (decide (a ∈ have)) as [Ha|Ha].
  - rewrite bool_decide_true by done. destruct (IH have todo chain) as (new & -> & Hnd & Hnew).
    exists new. split_and!; [done|done|set_solver].
  - rewrite bool_decide_false by done.
    destruct (IH ({[a]} ∪ have) (a :: todo) (match pdu_value d a with Some p => chain ++ [p] | None => chain end))
      as (new & -> & Hnd & Hnew).
    exists (a :: new). split_and!.
    + rewrite reverse_cons, <- app_assoc. cbn. f_equal; [f_equal; set_solver|].
      destruct (pdu_value d a); [by rewrite <- app_assoc|done].
    + apply NoDup_cons. rewrite Hnew. set_solver.
    + intros x. rewrite !elem_of_cons, Hnew, elem_of_union, elem_of_singleton.
      destruct (decide (x = a)) as [->|]; naive_solver.
Qed.

(** The ids the table still has to offer. *)
Definition left_over (have : gset string) : nat := size (list_to_set (dag_auth d).*2 ∖ have : gset string).

Lemma left_over_le have : (left_over have ≤ length (dag_auth d))%nat.
Proof.
  unfold left_over. etrans; [apply subseteq_size, subseteq_difference_l; reflexivity|].
  rewrite <- (length_fmap snd (dag_auth d)). generalize (dag_auth d).*2 as l. intros l.
  induction l as [|x l IH]; cbn; [by rewrite size_empty|].
  pose proof (size_union_alt ({[x]} : gset string) (list_to_set l)) as Hs. rewrite size_singleton in Hs.
  rewrite Hs. etrans; [|apply le_n_S, IH]. cbn. apply le_n_S, subseteq_size. set_solver.
Qed.

Lemma left_over_new have new :
  NoDup new → (∀ x, x ∈ new → (x ∉ have) ∧ x ∈ (dag_auth d).*2) →
  left_over have = (length new + left_over (list_to_set new ∪ have))%nat.
Proof.
  intros Hnd Hnew. unfold left_over. rewrite <- (size_list_to_set (C := gset string) new Hnd).
  rewrite <- size_union by set_solver. f_equal. apply set_eq. intros x. specialize (Hnew x).
  destruct (decide (x ∈ new)); set_solver.
Qed.

Lemma chain_loop_exact fuel seeds have todo order :
  (length todo + left_over have ≤ fuel)%nat →
  have = list_to_set seeds ∪ list_to_set order → NoDup order →
  (∀ x, x ∈ order → (x ∉ seeds) ∧ ∃ i, i ∈ seeds ∧ rtc (λ a b, (a, b) ∈ dag_auth d) i x) →
  (∀ x, x ∈ todo → x ∈ have) →
  (∀ a b, a ∈ have → (a, b) ∈ dag_auth d → b ∈ have ∨ a ∈ todo) →
  ∃ order', chain_loop fuel d have todo (omap (pdu_value d) order) = omap (pdu_value d) order' ∧
    NoDup order' ∧
    ∀ x, x ∈ order' ↔ (x ∉ seeds) ∧ ∃ i, i ∈ seeds ∧ rtc (λ a b, (a, b) ∈ dag_auth d) i x.
Proof.
  revert have todo order. induction fuel as [|fuel IH]; intros have todo order Hfuel Hhave Hnd Hsound Htodo Hfol.
  all: destruct todo as [|id todo]; cbn in Hfuel; try lia; cbn [chain_loop].
  1, 2: exists order; split_and!; [done|done|]; intros x; split; [auto|]; intros (Hx & i & Hi & Hix);
    assert (Hin : x ∈ have) by (assert (i ∈ have) as Hh by set_solver; clear -Hh Hix Hfol; induction Hix; set_solver);
    set_solver.
  destruct (chain_visits have todo (omap (pdu_value d) order) (targets (dag_auth d) id)) as (new & -> & Hn & Hnew).
  assert (Hadd : ∀ x, x ∈ new → (x ∉ have) ∧ (id, x) ∈ dag_auth d).
  { intros x [Ht Hx]%Hnew. by rewrite elem_of_targets in Ht. }
  rewrite <- omap_app. apply IH.
  - rewrite length_app, length_reverse. rewrite (left_over_new have new) in Hfuel; [lia|done|].
    intros x [? Hx]%Hadd. split; [done|]. by apply (list_elem_of_fmap_2 snd) in Hx.
  - rewrite list_to_set_app_L. set_solver.
  - apply NoDup_app. split_and!; [done|set_solver|done].
  - intros x [Hx|Hx]%elem_of_app; [auto|]. apply Hadd in Hx as [Hx Hid]. split; [set_solver|].
    assert (id ∈ have) as Hih by set_solver. rewrite Hhave, elem_of_union, !elem_of_list_to_set in Hih.
    destruct Hih as [Hs|[_ (i & Hi & Hii)]%Hsound]; [exists id; split; [done|by apply rtc_once]|].
    exists i. split; [done|]. by eapply rtc_r.
  - intros x. rewrite elem_of_app, elem_of_reverse. set_solver.
  - intros a b Ha Hab. rewrite elem_of_app, elem_of_reverse, elem_of_union, elem_of_list_to_set in *.
    destruct Ha as [Ha|Ha]; [auto|]. destruct (Hfol a b Ha Hab) as [|[->|]%elem_of_cons]; [auto| |auto].
    destruct (decide (b ∈ have)); [auto|]. left. left. apply Hnew. by rewrite elem_of_targets.
Qed.

Lemma auth_chain_of_exact seeds :
  ∃ order, auth_chain_of d seeds = omap (pdu_value d) order ∧ NoDup order ∧
    ∀ x, x ∈ order ↔ (x ∉ seeds) ∧ ∃ i, i ∈ seeds ∧ rtc (λ a b, (a, b) ∈ dag_auth d) i x.
Proof.
  apply (chain_loop_exact _ seeds _ _ []).
  - rewrite length_reverse. pose proof (left_over_le (list_to_set seeds)). lia.
  - set_solver.
  - constructor.
  - set_solver.
  - intros x. rewrite elem_of_reverse. set_solver.
  - intros a b Ha _. right. rewrite elem_of_reverse. set_solver.
Qed.

End Chain.

(** ** Walking back *)

Section Walk.
Context `{RumaRules} `{!DagJson} (d : DagTables) (stop : gset string) (limit : nat) (min_depth : Z) (room : string).
Implicit Types (queue : list string) (seen : gset string) (out : list (Z * string)).

(** An event the walk may return: known in the room, deep enough, and not where it stops. *)
Definition visible (x : string) (dp : Z) : Prop :=
  (x ∉ stop) ∧ depth_in_room d room x = Some dp ∧ min_depth ≤ dp.

(** [x] is a root or behind one, by way of visible events only. *)
Inductive behind (roots : list string) : string → Prop :=
| behind_root x dp : x ∈ roots → visible x dp → behind roots x
| behind_prev x y dp : behind roots x → (x, y) ∈ dag_edges d → visible y dp → behind roots y.

(** Every round pops one id, and the rows of an event are read when it is first seen. *)
Definition unread (seen : gset string) : list (string * string) :=
  select (λ r, bool_decide (r.1 ∉ seen)) (dag_edges d).

Lemma unread_step seen id :
  id ∉ seen → length (unread seen) = (length (targets (dag_edges d) id) + length (unread ({[id]} ∪ seen)))%nat.
Proof.
  intros Hid. unfold unread, targets, select. rewrite length_fmap. induction (dag_edges d) as [|[a b] l IH]; [done|].
  cbn. destruct (decide (a = id)) as [->|Hne].
  - rewrite seqb_refl, (bool_decide_true (id ∉ seen)), (bool_decide_false (id ∉ {[id]} ∪ seen)) by set_solver.
    cbn. by rewrite IH.
  - assert (seqb id a = false) as -> by (by apply bool_decide_eq_false; auto).
    rewrite (bool_decide_ext (a ∉ {[id]} ∪ seen) (a ∉ seen)) by set_solver.
    destruct (bool_decide (a ∉ seen)); cbn; rewrite ?IH; lia.
Qed.

(** What the loop keeps: [out] is the visible part of [seen], without repetition and within the
    limit, and what its events cite is seen or queued. *)
Record walking (roots queue : list string) (seen : gset string) (out : list (Z * string)) : Prop := {
  wk_limit : (length out ≤ limit)%nat;
  wk_nodup : NoDup out.*2;
  wk_out dp x : (dp, x) ∈ out → x ∈ seen ∧ visible x dp ∧ behind roots x;
  wk_seen x dp : x ∈ seen → visible x dp → (dp, x) ∈ out;
  wk_roots x : x ∈ roots → x ∈ seen ∨ x ∈ queue ∨ x ∈ stop;
  wk_edges dp x y : (dp, x) ∈ out → (x, y) ∈ dag_edges d → y ∈ seen ∨ y ∈ queue ∨ y ∈ stop;
  wk_queue x dp : x ∈ queue → visible x dp → behind roots x }.

(** What [walk_back] promises: all that is behind the roots, unless it stopped at the limit. *)
Definition walked (roots : list string) (out : list (Z * string)) : Prop :=
  (length out ≤ limit)%nat ∧ NoDup out.*2 ∧
  (∀ dp x, (dp, x) ∈ out → visible x dp ∧ behind roots x) ∧
  ((length out < limit)%nat → ∀ x, behind roots x → x ∈ out.*2).

Lemma walking_done roots seen out : walking roots [] seen out → walked roots out.
Proof.
  intros Hw. split_and!; [apply Hw|apply Hw|by intros dp x (_ & ? & ?)%(wk_out _ _ _ _ Hw)|].
  intros _ x. induction 1 as [x dp Hx Hv|x y dp _ IH Hxy Hv].
  - destruct (wk_roots _ _ _ _ Hw x Hx) as [Hs|[Hq|Hs]]; [|set_solver|by destruct Hv].
    by apply (list_elem_of_fmap_2 snd _ (dp, x)), (wk_seen _ _ _ _ Hw).
  - apply list_elem_of_fmap in IH as ([dp' x'] & -> & Hin).
    destruct (wk_edges _ _ _ _ Hw _ _ _ Hin Hxy) as [Hs|[Hq|Hs]]; [|set_solver|by destruct Hv].
    by apply (list_elem_of_fmap_2 snd _ (dp, y)), (wk_seen _ _ _ _ Hw).
Qed.

Lemma walking_full roots queue seen out : walking roots queue seen out → (limit ≤ length out)%nat → walked roots out.
Proof.
  intros Hw Hl. split_and!; [apply Hw|apply Hw|by intros dp x (_ & ? & ?)%(wk_out _ _ _ _ Hw)|lia].
Qed.

(** An id that is seen already, where the walk stops, or not visible is dropped. *)
Lemma walking_drop roots queue seen seen' out id :
  walking roots (id :: queue) seen out → seen ⊆ seen' → seen' ⊆ {[id]} ∪ seen →
  id ∈ stop ∨ id ∈ seen' → (∀ dp, id ∈ seen ∨ ¬ visible id dp) →
  walking roots queue seen' out.
Proof.
  intros Hw Hle Hge Hid Hv. constructor; try apply Hw.
  - intros dp x (? & ? & ?)%(wk_out _ _ _ _ Hw). auto.
  - intros x dp Hx Hvx. apply (wk_seen _ _ _ _ Hw); [|done]. destruct (Hv dp); set_solver.
  - intros x Hx. destruct (wk_roots _ _ _ _ Hw x Hx) as [|[[->|]%elem_of_cons|]]; set_solver.
  - intros dp x y Hx Hxy. destruct (wk_edges _ _ _ _ Hw dp x y Hx Hxy) as [|[[->|]%elem_of_cons|]]; set_solver.
  - intros x dp Hx. apply (wk_queue _ _ _ _ Hw). set_solver.
Qed.

(** A visible id is returned and what it cites is queued. *)
Lemma walking_take roots queue seen out id dp :
  walking roots (id :: queue) seen out → visible id dp → id ∉ seen → (length out < limit)%nat →
  walking roots (queue ++ targets (dag_edges d) id) ({[id]} ∪ seen) (out ++ [(dp, id)]).
Proof.
  intros Hw Hv Hid Hl. assert (Hb : behind roots id) by (by apply (wk_queue _ _ _ _ Hw id dp); [set_solver|]).
  assert (Hdp : ∀ dp', visible id dp' → dp' = dp) by (intros dp' (_ & ? & _); destruct Hv as (_ & ? & _); congruence).
  constructor.
  - rewrite length_app. cbn. lia.
  - rewrite fmap_app. apply NoDup_app. split_and!; [apply Hw| |apply NoDup_singleton].
    intros x ([dp' x'] & -> & Hx%(wk_out _ _ _ _ Hw))%list_elem_of_fmap Hx'%list_elem_of_singleton.
    cbn in Hx'. subst x'. by destruct Hx.
  - intros dp' x [(? & ? & ?)%(wk_out _ _ _ _ Hw)|[= -> ->]%list_elem_of_singleton]%elem_of_app; set_solver.
  - intros x dp' [->%elem_of_singleton|Hx]%elem_of_union Hvx; apply elem_of_app.
    + right. apply list_elem_of_singleton. by rewrite (Hdp dp').
    + left. by apply (wk_seen _ _ _ _ Hw).
  - intros x Hx. destruct (wk_roots _ _ _ _ Hw x Hx) as [|[[->|]%elem_of_cons|]]; set_solver.
  - intros dp' x y [Hx|[= -> ->]%list_elem_of_singleton]%elem_of_app Hxy.
    + destruct (wk_edges _ _ _ _ Hw dp' x y Hx Hxy) as [|[[->|]%elem_of_cons|]]; set_solver.
    + right. left. apply elem_of_app. right. by apply elem_of_targets.
  - intros x dp' [Hx|Hx%elem_of_targets]%elem_of_app Hvx.
    + apply (wk_queue _ _ _ _ Hw x dp'); [set_solver|done].
    + by eapply behind_prev.
Qed.

Lemma walk_loop_walked fuel roots queue seen out :
  (length queue + length (unread seen) ≤ fuel)%nat → walking roots queue seen out →
  walked roots (walk_loop fuel d stop limit min_depth room queue seen out).
Proof.
  revert queue seen out. induction fuel as [|fuel IH]; intros [|id queue] seen out Hf Hw; cbn in *; try lia;
    try (by eapply walking_done).
  case_bool_decide as Hl; [by eapply walking_full|].
  case_bool_decide as Hs; [apply IH; [lia|]; apply (walking_drop _ _ seen _ _ id); auto; [set_solver|]|].
  { intros dp. right. by intros [? _]. }
  case_bool_decide as Hn; [apply IH; [lia|]; apply (walking_drop _ _ seen _ _ id); auto; set_solver|].
  rewrite (unread_step seen id Hn) in Hf.
  destruct (depth_in_room d room id) as [dp|] eqn:Hd; [destruct (Z.ltb_spec dp min_depth) as [Hm|Hm]|].
  - apply IH; [lia|]. apply (walking_drop _ _ seen _ _ id); auto; try set_solver.
    intros dp'. right. intros (_ & Hd' & ?). assert (dp' = dp) by congruence. lia.
  - apply IH; [rewrite length_app; lia|]. apply walking_take; [done|by split_and!|done|lia].
  - apply IH; [lia|]. apply (walking_drop _ _ seen _ _ id); auto; try set_solver.
    intros dp'. right. intros (_ & Hd' & _). congruence.
Qed.

Lemma walk_back_walked roots : walked roots (walk_back d roots stop limit min_depth room).
Proof.
  apply walk_loop_walked.
  - assert (length (unread ∅) ≤ length (dag_edges d))%nat; [|lia].
    unfold unread. rewrite select_filter. apply length_filter.
  - constructor; try set_solver; [cbn; lia|constructor|].
    intros x dp Hx Hv. by eapply behind_root.
Qed.

End Walk.

(** ** What a peer is served *)

Section Served.
Context `{RumaRules} `{!DagJson}.
Implicit Types (d : DagTables) (room origin : string).

Lemma walked_perm d stop limit min_depth room roots out out' :
  out ≡ₚ out' → walked d stop limit min_depth room roots out → walked d stop limit min_depth room roots out'.
Proof.
  intros Hp (Hl & Hnd & Hin & Hall). unfold walked. setoid_rewrite <- Hp. auto.
Qed.

#[local] Instance found_le_trans : Transitive found_le.
Proof. intros a b c [?|[? ?]] [?|[? ?]]; unfold found_le; [left; lia..|right]. split; [lia|by etrans]. Qed.

#[local] Instance found_le_total : Total found_le.
Proof.
  intros a b. unfold found_le. destruct (total String.le a.2 b.2), (Z.lt_trichotomy a.1 b.1) as [|[|]]; auto.
Qed.

(** The events [latest] follow directly. *)
Lemma elem_of_prev_roots d latest x :
  x ∈ (latest ≫= targets (dag_edges d)) ↔ ∃ l, l ∈ latest ∧ (l, x) ∈ dag_edges d.
Proof.
  rewrite list_elem_of_bind. split; intros (l & Ha & Hb); exists l; rewrite elem_of_targets in *; auto.
Qed.

(** [get_missing_events] answers, oldest first and each once, events behind [latest] that can be
    reached through events the peer may see, without passing [earliest]; it never returns more than
    the limit, nor an event of another room or below the depth the peer is served from, and it
    returns all of them unless the limit cut it short. *)
Theorem missing_events_are_exact d (shared : bool) room origin (earliest latest : list string) (limit : nat) :
  ∃ roots found,
    missing_events_json d shared room origin earliest latest limit = omap (λ f, pdu_value d f.2) found ∧
    StronglySorted found_le found ∧
    (∀ x, x ∈ roots ↔ ∃ l, l ∈ latest ∧ (l, x) ∈ dag_edges d) ∧
    walked d (list_to_set earliest) (clamp_limit limit) (serve_min_depth d shared room origin) room roots found.
Proof.
  eexists _, _. split_and!; [done|apply (StronglySorted_merge_sort _)|apply elem_of_prev_roots|].
  eapply walked_perm; [symmetry; apply merge_sort_Permutation|]. apply walk_back_walked.
Qed.

(** Over tables in order, the chain served for a set of events is exactly the auth chain the core
    computes for them, less the events themselves, each event once. *)
Theorem served_chain_is_auth_chain `{!RumaLaws, !DagLaws} d room (seeds : list EventId) :
  tables_ok d →
  ∃ order, auth_chain_of d seeds = omap (pdu_value d) order ∧ NoDup order ∧
    ∀ x, x ∈ order ↔ (x ∉ seeds) ∧ x ∈ auth_chain (pdu (conn_dag d room)) seeds.
Proof.
  intros Hd. destruct (auth_chain_of_exact d seeds) as (order & Ho & Hnd & Hin).
  exists order. split_and!; [done|done|]. intros x. rewrite Hin. unfold auth_chain. rewrite elem_of_auth_chain.
  assert (Hc : ∀ a b, (a, b) ∈ dag_auth d ↔ cites (pdu (conn_dag d room)) a b).
  { intros a b. rewrite (ok_auth d Hd). unfold cites. by setoid_rewrite pdu_conn_dag. }
  unfold reaches. split; intros (Hx & i & Hi & Hix); split; auto; exists i; split; auto;
    (eapply rtc_subrel; [|exact Hix]); intros a b; apply Hc.
Qed.

End Served.

(** The endpoints that serve an auth chain or a state check access to the room in the path and then
    answer for the event named, whichever room it belongs to. *)
Lemma access_is_checked_on_the_named_room `{RumaRules} `{!DagJson} rules d origin room other at_ ids_only :
  dag_room_access d origin room = Ok tt →
  state_at rules d origin room (Some at_) ids_only = state_at_json rules d other at_ ids_only ∧
  event_auth d origin room at_ = event_auth_json d other at_.
Proof. unfold state_at, event_auth. by intros ->. Qed.
