(* ===== verification/GraphExample.v ===== *)
(** * A concrete event graph

    An instance of [Ruma] small enough to compute with: JSON as finite trees, an event id from
    sender and time, rules that refuse one sender. Over it, runs of a room with a fork and a
    soft-failed event, and the witnesses of the theorems on the event graph. *)

From Stdlib Require Import Ascii.
From stdpp Require Import countable.
From S2P Require Import Prelude Sqlite EventGraph EventGraphProps DagStore DagStoreProps DagServe.

Local Open Scope Z_scope.

Module GraphExample.

(** ** JSON *)

Definition json := gen_tree (string + Z).

Definition jstr (s : string) : json := GenLeaf (inl s).
Definition jnum (n : Z) : json := GenLeaf (inr n).
Definition jarr (l : list json) : json := GenNode 0 l.
Definition jobj (kvs : list (string * json)) : json := GenNode 1 ((λ kv, GenNode 2 [jstr kv.1; kv.2]) <$> kvs).

Fixpoint members (l : list json) (k : string) : option json :=
  match l with
  | GenNode 2 [GenLeaf (inl k'); v] :: l => if decide (k' = k) then Some v else members l k
  | _ => None
  end.

Definition jget (v : json) (k : string) : option json :=
  match v with GenNode 1 l => members l k | _ => None end.

Definition jset (v : json) (k : string) (w : json) : json :=
  match v with
  | GenNode 1 l => GenNode 1 (GenNode 2 [jstr k; w] :: l)
  | _ => jobj [(k, w)]
  end.

Definition jtext (v : json) : option string := match v with GenLeaf (inl s) => Some s | _ => None end.

Lemma jget_obj kvs k : jget (jobj kvs) k = snd <$> List.find (λ kv, bool_decide (kv.1 = k)) kvs.
Proof.
  cbn. induction kvs as [|[k' v] kvs IH]; [done|]. cbn. case_decide; [by rewrite bool_decide_true|].
  by rewrite bool_decide_false.
Qed.

Lemma jget_set v k w k' : jget (jset v k w) k' = if decide (k' = k) then Some w else jget v k'.
Proof.
  destruct v as [?|n l]; [|destruct n as [|[|n]]]; cbn; repeat case_decide; first [reflexivity | congruence].
Qed.

(** Text of a tree: the binary digits of its code. *)
Fixpoint digits (p : positive) : string :=
  match p with
  | xH => EmptyString
  | xO p => String "048"%char (digits p)
  | xI p => String "049"%char (digits p)
  end.

Fixpoint undigits (s : string) : positive :=
  match s with
  | EmptyString => xH
  | String c s => if Ascii.eqb c "048"%char then xO (undigits s) else xI (undigits s)
  end.

Lemma undigits_digits p : undigits (digits p) = p.
Proof. induction p; cbn; congruence. Qed.

(** ** The rules *)

#[export] Instance ruma : Ruma := {
  Value := json;
  value_get := jget;
  as_str := jtext;
  as_array v := match v with GenNode 0 l => Some l | _ => None end;
  as_u64 v := match v with GenLeaf (inr n) => if decide (0 ≤ n < u64_mod) then Some n else None | _ => None end;
  value_to_string v := default "{}" (jtext v);
  json_str := jstr;
  json_u64 := jnum;
  json_array := jarr;
  json_object := jobj;
  value_set := jset;
  RawValue_from_string s := Ok s;
  CanonicalJsonObject := json;
  to_value o := Ok o;
  from_value v := Ok v;
  EventId_parse s := match s with String "036"%char _ => Ok s | _ => Err "event id" end;
  RoomId_parse s := Ok s;
  UserId_parse s := Ok s;
  UInt_try_from n := if decide (n ≤ 9007199254740991) then Ok n else Err "range";
  TimelineEventType_from s := s;
  StateEventType_from s := s;
  AuthorizationRules := unit;
  RedactionRules := unit;
  StateResolutionV2Rules := unit;
  PublicKeyMap := unit
}.

Definition rules : RoomVersionRules := mkRoomVersionRules _ tt tt (V2 tt).

(** State resolution: the first fork that knows a slot wins, among events of the chains. *)
Definition merge_forks (forks : list StateMap) (chains : list (gset EventId)) : StateMap :=
  filter (λ kv, Exists (λ c, kv.2 ∈ c) chains) (foldr (∪) ∅ forks).

(** The state needed to be allowed to send: a room, once there is one; the sender must not be banned. *)
#[export] Instance ruma_rules : RumaRules := {
  reference_hash (o : json) _ :=
    Ok (default "?" (jget o "sender" ≫= jtext) +:+ "-" +:+
        match jget o "origin_server_ts" with Some (GenLeaf (inr n)) => pretty (Z.to_N n) | _ => "" end);
  verify_event _ _ _ := Ok VerifiedAll;
  redact o _ := Ok o;
  hash_and_sign_event s _ o _ := Ok (jset o "signatures" (jstr s) : CanonicalJsonObject);
  check_state_independent_auth_rules _ _ _ := Ok tt;
  check_state_dependent_auth_rules _ p st :=
    if is_some (st "m.room.ban" (sender p)) then Err "banned" else Ok tt;
  auth_types_for_event _ from _ _ _ := Ok [("m.room.create", ""); ("m.room.ban", from)];
  resolve _ _ forks chains _ := Ok (merge_forks forks chains)
}.

#[export] Instance ruma_laws : RumaLaws.
Proof.
  constructor; cbn; try done.
  - intros s e. destruct s as [|[[] [] [] [] [] [] [] []] s]; congruence.
  - intros n Hn. by rewrite decide_True.
  - apply jget_obj.
  - apply jget_set.
  - intros v o [= ->]. eauto.
  - intros s _ o _ o' v [= <-] [= <-]. eexists. split; [done|]. intros k Hk. rewrite jget_set.
    rewrite decide_False; [done|]. intros ->. apply Hk. unfold signature_fields. set_solver.
Qed.

#[export] Instance dag_json : DagJson := {
  object_to_string o := Ok (digits (encode (o : json)));
  object_from_str s := match decode (undigits s) with Some o => Ok (o : json) | None => Err "json" end;
  value_from_str s := match decode (undigits s) with Some o => Ok (o : json) | None => Err "json" end
}.

#[export] Instance dag_laws : DagLaws.
Proof.
  constructor; cbn; try done.
  - intros o. eexists. split; [done|]. by rewrite undigits_digits, decode_encode.
  - intros _ _ forks chains _ st k id [= <-]. intros [_ Hc]%map_lookup_filter_Some.
    apply Exists_exists in Hc as (c & ? & ?). eauto.
Qed.

(** ** A room with a fork *)

(** An event on the wire. *)
Definition wire (from ty : string) (sk : option string) (ts : Z) (prev auth : list string) (dp : Z) : json :=
  jobj ([("room_id", jstr "!r"); ("sender", jstr from); ("type", jstr ty); ("content", jstr "{}");
         ("origin_server_ts", jnum ts); ("prev_events", jarr (jstr <$> prev));
         ("auth_events", jarr (jstr <$> auth)); ("depth", jnum dp)]
        ++ match sk with Some sk => [("state_key", jstr sk)] | None => [] end).

Definition create := wire "@a" "m.room.create" (Some "") 1 [] [] 1.
Definition hello_a := wire "@a" "m.room.message" None 2 ["$@a-1"] ["$@a-1"] 2.
Definition ban_m := wire "@b" "m.room.ban" (Some "@m") 3 ["$@a-1"] ["$@a-1"] 2.
(** Sent before its sender learnt of the ban: allowed where it was sent, soft-failed here. *)
Definition late_m := wire "@m" "m.room.message" None 4 ["$@a-1"] ["$@a-1"] 2.

(** One event accepted as a peer's, or the room unchanged. *)
Definition take (r : Room) (j : json) : Room :=
  match accept_wire rules (graph r) j tt None with
  | Ok acc => mkRoom (stored (graph r) acc) (if acc_soft_failed acc then live r else {[acc_event_id acc]} ∪ live r)
  | Err _ => r
  end.

Definition room_after (js : list json) : Room := foldl take new_room js.

Lemma take_step r j : r = take r j ∨ graph_step rules r (take r j).
Proof.
  unfold take, accept_wire. cbn [verify_wire verify_event ruma_rules].
  destruct (compute_event_id rules j) as [id|]; [|by left].
  destruct (accept rules (graph r) id j None) as [acc|] eqn:Hacc; [|by left]. right. by eapply step_live.
Qed.

Lemma room_after_reachable js : rtc (graph_step rules) new_room (room_after js).
Proof.
  unfold room_after. generalize new_room as r. induction js as [|j js IH]; intros r; cbn; [constructor|].
  destruct (take_step r j) as [<-|Hs]; [apply IH|]. eapply rtc_l; [exact Hs|apply IH].
Qed.

Definition forked_room : Room := room_after [create; hello_a; ban_m; late_m].

Lemma extremities_are_heads_witness :
  extremities (graph forked_room) = ["$@a-2"; "$@b-3"] ∧ heads forked_room "$@b-3" ∧
  is_some (pdu (graph forked_room) !! "$@m-4") = true ∧ ¬ heads forked_room "$@m-4".
Proof.
  destruct (extremities_are_heads rules forked_room) as (_ & _ & Hheads); [apply room_after_reachable|].
  assert (Hext : extremities (graph forked_room) = ["$@a-2"; "$@b-3"]) by (vm_compute; reflexivity).
  rewrite Hext in Hheads.
  split; [exact Hext|]. split; [apply Hheads, list_elem_of_further, list_elem_of_here|].
  split; [vm_compute; reflexivity|]. intros Hh%Hheads. revert Hh. apply (bool_decide_unpack _). vm_compute. exact I.
Defined.

Lemma auth_chains_are_complete_witness :
  elements (auth_chain (pdu (graph forked_room)) ["$@b-3"]) = ["$@a-1"; "$@b-3"] ∧
  Forall (λ x, is_Some (pdu (graph forked_room) !! x)) (elements (auth_chain (pdu (graph forked_room)) ["$@b-3"])).
Proof.
  split; [vm_compute; reflexivity|]. apply (auth_chains_are_complete rules).
  - apply room_after_reachable.
  - apply (bool_decide_unpack _). vm_compute. exact I.
Defined.

Definition signer : Signer := mkSigner "a" "ed25519:1" (λ m, m).

Lemma local_event_joins_branches_witness :
  ∃ acc, local_event rules (graph forked_room) signer "!r" 9 "@a" "m.room.message" None (jstr "hi") = Ok acc ∧
    prev_events (acc_pdu acc) = ["$@a-2"; "$@b-3"] ∧ acc_extremities acc = [acc_event_id acc].
Proof.
  destruct (is_ok_inv (local_event rules (graph forked_room) signer "!r" 9 "@a" "m.room.message" None (jstr "hi")))
    as [acc Hl]; [vm_compute; reflexivity|].
  destruct (local_event_joins_branches rules (graph forked_room) signer "!r" 9 "@a" "m.room.message" None (jstr "hi") acc)
    as (Hp & _ & _ & He & _); [exact Hl| | |].
  - apply (bool_decide_unpack _). vm_compute. exact I.
  - apply (bool_decide_unpack (map_Forall (λ _ p, 0 ≤ depth p < 9007199254740992) (pdu (graph forked_room)))).
    vm_compute. exact I.
  - exists acc. split; [exact Hl|]. split; [rewrite Hp; vm_compute; reflexivity|].
    exact He.
Defined.

Lemma verified_chain_is_closed_witness :
  ∃ pdus, verified_chain rules tt [hello_a; create] pdus ∧ is_Some (pdus !! "$@a-2").
Proof.
  destruct (verified_chain_is_closed rules [hello_a; create] tt ["$@a-1"; "$@a-2"]) as (pdus & Hv & _ & Hin & _);
    [vm_compute; reflexivity|].
  exists pdus. split; [exact Hv|]. apply Hin, list_elem_of_further, list_elem_of_here.
Defined.

(** ** The same room in tables *)

Definition store_wire (d : DagTables) (j : json) : DagTables :=
  match accept_wire rules (conn_dag d "!r") j tt None with
  | Ok acc => match store_accepted d "!r" acc false with Ok d => d | Err _ => d end
  | Err _ => d
  end.

Lemma accept_wire_id db j id :
  compute_event_id rules j = Ok id → accept_wire rules db j tt None = accept rules db id j None.
Proof. unfold accept_wire. cbn [verify_wire verify_event ruma_rules]. by intros ->. Qed.

Lemma store_wire_ok d j : tables_ok d → tables_ok (store_wire d j).
Proof.
  intros Hd. unfold store_wire. destruct (compute_event_id rules j) as [id|] eqn:Hid.
  - rewrite (accept_wire_id _ _ id Hid).
    destruct (accept rules (conn_dag d "!r") id j None) as [acc|] eqn:Hacc; [|exact Hd].
    assert (Hp : EventId_parse id = Ok id).
    { unfold compute_event_id in Hid. cbn [reference_hash ruma_rules map_err] in Hid.
      apply map_err_ok in Hid. by eapply parsed_id. }
    by destruct (store_accepted_ok rules d "!r" id j acc Hd Hp Hacc) as (d' & -> & ? & _).
  - unfold accept_wire. cbn [verify_wire verify_event ruma_rules]. by rewrite Hid.
Qed.

Definition created : DagTables := store_wire create_dag_schema create.

Lemma created_ok : tables_ok created.
Proof. apply store_wire_ok, tables_ok_empty. Qed.

(** The message shares the state group of the create event. *)
Lemma store_accepted_refines_witness :
  ∃ acc d', accept rules (conn_dag created "!r") "$@a-2" hello_a None = Ok acc ∧
    store_accepted created "!r" acc false = Ok d' ∧
    group_of (store_wire created hello_a) "$@a-2" = group_of created "$@a-1" ∧
    state_after (conn_dag d' "!r") !! "$@a-2" = Some (acc_state_after acc).
Proof.
  destruct (is_ok_inv (accept rules (conn_dag created "!r") "$@a-2" hello_a None)) as [acc Hacc];
    [vm_compute; reflexivity|].
  destruct (store_accepted_refines rules created "!r" "$@a-2" hello_a acc) as (d' & Hd' & _ & Hdag & _);
    [exact created_ok|reflexivity|exact Hacc|].
  exists acc, d'. split; [exact Hacc|]. split; [exact Hd'|]. split; [vm_compute; reflexivity|].
  rewrite Hdag. assert (Hid : acc_event_id acc = "$@a-2") by apply (accd_id _ _ _ _ _ (accept_ok _ _ _ _ _ Hacc)).
  unfold stored. rewrite Hid. apply lookup_insert_eq.
Defined.

Lemma served_chain_is_auth_chain_witness :
  ∃ order, auth_chain_of (store_wire created hello_a) ["$@a-2"] =
    omap (pdu_value (store_wire created hello_a)) order ∧ NoDup order ∧ "$@a-1" ∈ order.
Proof.
  destruct (served_chain_is_auth_chain (store_wire created hello_a) "!r" ["$@a-2"]) as (order & Ho & Hn & Hin);
    [apply store_wire_ok, created_ok|].
  exists order. split; [exact Ho|]. split; [exact Hn|]. apply Hin. apply (bool_decide_unpack _). vm_compute. exact I.
Defined.

End GraphExample.
