(* ===== verification/Store.v ===== *)
(** * The working-set store (crates/mail4agent-messenger/src/store/mod.rs)

    Every piece of state the messenger keeps across restarts, held in memory and mirrored, record
    by record, into the flush gate. A method with [&mut self] returns the store, also with an
    error. The random bytes a codec draws are arguments. The JSON texts of the three record kinds
    that are not opaque bytes are the class [RecordJson]; its errors are texts. The second part is
    the AES-GCM codec behind [RecordCodec] (store/sealed.rs) with its theorems. *)

From Stdlib Require Import Ascii.
From S2P Require Import Prelude Persist Ids OutgoingQueue.

Local Open Scope Z_scope.

Inductive StoreError :=
| StoreDecode (key : RecordKey) (reason : string)
| CodecOpen (key : RecordKey)
| UnknownRecordLayout (key : RecordKey).

(** [[u8; 12]] *)
Record Nonce := mkNonce { nonce_bytes : string; nonce_len : String.length nonce_bytes = 12%nat }.

(** [trait RecordCodec]; the nonce is the randomness one [seal] draws. *)
Class RecordCodec (C : Type) := {
  seal : C → Nonce → RecordKey → string → string;
  open : C → RecordKey → string → result string StoreError
}.

(** What the trait promises: [open] recovers what [seal] produced for the same key. *)
Class RecordCodecLaws (C : Type) `{RecordCodec C} : Prop := {
  open_seal c nonce key plaintext : open c key (seal c nonce key plaintext) = Ok plaintext
}.

(** [core.rs]: the two id counters. *)
Record Counters := mkCounters { next_request_id : Z; next_txn_id : Z }.

#[export] Instance Counters_eq_dec : EqDecision Counters.
Proof. solve_decision. Defined.

(** [serde_json::to_vec] and [from_slice] at the three types the store writes as JSON. *)
Class RecordJson `{SerdeJson} := {
  order_to_vec : list string → result string string;
  order_from_slice : string → result (list string) string;
  pending_to_vec : PendingRequest → result string string;
  pending_from_slice : string → result PendingRequest string;
  counters_to_vec : Counters → result string string;
  counters_from_slice : string → result Counters string
}.

(** ** Record keys *)

Definition MAX_OLM_SESSIONS_PER_DEVICE : nat := 10.

Definition KIND_ACCOUNT : string := "account".
Definition KIND_OLM_SESSION : string := "olm_session".
Definition KIND_OLM_SESSION_ORDER : string := "olm_session_order".
Definition KIND_MEGOLM_IN : string := "megolm_in".
Definition KIND_MEGOLM_OUT : string := "megolm_out".
Definition KIND_DEVICES : string := "devices".
Definition KIND_TRACKED_USER : string := "tracked_user".
Definition KIND_WITHHELD : string := "withheld".
Definition KIND_BACKUP_KEY : string := "backup_key".
Definition KIND_CROSS_SIGNING_KEYS : string := "cross_signing_keys".
Definition KIND_SYNC_TOKEN : string := "sync_token".
Definition KIND_ROOM_STATE : string := "room_state".
Definition KIND_PENDING : string := "pending".
Definition KIND_COUNTERS : string := "counters".

(** The common prefix of a device's keys. *)
Definition key_prefix (device_id : DeviceId) : string := "messenger/" +:+ DeviceId_str device_id +:+ "/".

(** [messenger/{device}/{kind}], and with one or two encoded segments after it. *)
Definition key0 (device_id : DeviceId) (kind : string) : RecordKey :=
  mkRecordKey (key_prefix device_id +:+ kind).
Definition key1 (device_id : DeviceId) (kind a : string) : RecordKey :=
  mkRecordKey (key_prefix device_id +:+ kind +:+ "/" +:+ percent_encode_segment a).
Definition key2 (device_id : DeviceId) (kind a b : string) : RecordKey :=
  mkRecordKey (key_prefix device_id +:+ kind +:+ "/" +:+ percent_encode_segment a +:+ "/" +:+ percent_encode_segment b).

Definition account_record_key (device_id : DeviceId) : RecordKey := key0 device_id KIND_ACCOUNT.
Definition olm_session_record_key (device_id : DeviceId) (their_curve25519 session_id : string) : RecordKey :=
  key2 device_id KIND_OLM_SESSION their_curve25519 session_id.
Definition olm_session_order_record_key (device_id : DeviceId) (their_curve25519 : string) : RecordKey :=
  key1 device_id KIND_OLM_SESSION_ORDER their_curve25519.
Definition inbound_group_session_record_key (device_id : DeviceId) (room_id : RoomId) (session_id : string) : RecordKey :=
  key2 device_id KIND_MEGOLM_IN (RoomId_str room_id) session_id.
Definition outbound_group_session_record_key (device_id : DeviceId) (room_id : RoomId) : RecordKey :=
  key1 device_id KIND_MEGOLM_OUT (RoomId_str room_id).
Definition devices_record_key (device_id : DeviceId) (user_id : UserId) : RecordKey :=
  key1 device_id KIND_DEVICES (UserId_str user_id).
Definition tracked_user_record_key (device_id : DeviceId) (user_id : UserId) : RecordKey :=
  key1 device_id KIND_TRACKED_USER (UserId_str user_id).
Definition withheld_record_key (device_id : DeviceId) (room_id : RoomId) (session_id : string) : RecordKey :=
  key2 device_id KIND_WITHHELD (RoomId_str room_id) session_id.
Definition backup_key_record_key (device_id : DeviceId) : RecordKey := key0 device_id KIND_BACKUP_KEY.
Definition cross_signing_keys_record_key (device_id : DeviceId) : RecordKey := key0 device_id KIND_CROSS_SIGNING_KEYS.
Definition sync_token_record_key (device_id : DeviceId) : RecordKey := key0 device_id KIND_SYNC_TOKEN.
Definition room_state_record_key (device_id : DeviceId) (room_id : RoomId) : RecordKey :=
  key1 device_id KIND_ROOM_STATE (RoomId_str room_id).
Definition pending_request_record_key (device_id : DeviceId) (request_id : RequestId) : RecordKey :=
  key1 device_id KIND_PENDING (RequestId_str request_id).
Definition counters_record_key (device_id : DeviceId) : RecordKey := key0 device_id KIND_COUNTERS.

Inductive RecognizedRecord :=
| RAccount
| ROlmSession (their_curve25519 session_id : string)
| ROlmSessionOrder (their_curve25519 : string)
| RInboundGroupSession (room_id : RoomId) (session_id : string)
| ROutboundGroupSession (room_id : RoomId)
| RDevices (user_id : UserId)
| RTrackedUser (user_id : UserId)
| RWithheld (room_id : RoomId) (session_id : string)
| RBackupKey
| RCrossSigningKeys
| RSyncToken
| RRoomState (room_id : RoomId)
| RPendingRequest (request_id : RequestId)
| RCounters.

#[export] Instance RecognizedRecord_eq_dec : EqDecision RecognizedRecord.
Proof. solve_decision. Defined.

Definition decode_plain_segment (encoded : string) (key : RecordKey) : result string StoreError :=
  ok_or (percent_decode_segment encoded) (UnknownRecordLayout key).

Definition decode_room_id (encoded : string) (key : RecordKey) : result RoomId StoreError :=
  let? decoded := ok_or (percent_decode_segment encoded) (UnknownRecordLayout key) in
  map_err (λ _, UnknownRecordLayout key) (RoomId_parse decoded).

Definition decode_user_id (encoded : string) (key : RecordKey) : result UserId StoreError :=
  let? decoded := ok_or (percent_decode_segment encoded) (UnknownRecordLayout key) in
  map_err (λ _, UnknownRecordLayout key) (UserId_parse decoded).

(** [rest.splitn(2, '/')]: the kind and the remainder. *)
Definition split_kind (rest : string) : string * option string :=
  match split_once "/" rest with
  | Some (kind, remainder) => (kind, Some remainder)
  | None => (rest, None)
  end.

Definition parse_record_key (device_id : DeviceId) (key : RecordKey) : result (option RecognizedRecord) StoreError :=
  match strip_prefix (key_prefix device_id) (RecordKey_str key) with
  | None => Ok None
  | Some rest =>
      let '(kind, remainder) := split_kind rest in
      let malformed := UnknownRecordLayout key in
      if decide (kind = KIND_ACCOUNT ∧ remainder = None) then Ok (Some RAccount)
      else if decide (kind = KIND_SYNC_TOKEN ∧ remainder = None) then Ok (Some RSyncToken)
      else if decide (kind = KIND_BACKUP_KEY ∧ remainder = None) then Ok (Some RBackupKey)
      else if decide (kind = KIND_CROSS_SIGNING_KEYS ∧ remainder = None) then Ok (Some RCrossSigningKeys)
      else if decide (kind = KIND_COUNTERS ∧ remainder = None) then Ok (Some RCounters)
      else if decide (kind = KIND_OLM_SESSION) then
        let? remainder := ok_or remainder malformed in
        let? (curve_enc, session_enc) := ok_or (split_once "/" remainder) malformed in
        let? their_curve25519 := decode_plain_segment curve_enc key in
        let? session_id := decode_plain_segment session_enc key in
        Ok (Some (ROlmSession their_curve25519 session_id))
      else if decide (kind = KIND_OLM_SESSION_ORDER) then
        let? curve_enc := ok_or remainder malformed in
        let? their_curve25519 := decode_plain_segment curve_enc key in
        Ok (Some (ROlmSessionOrder their_curve25519))
      else if decide (kind = KIND_MEGOLM_IN) then
        let? remainder := ok_or remainder malformed in
        let? (room_enc, session_enc) := ok_or (split_once "/" remainder) malformed in
        let? room_id := decode_room_id room_enc key in
        let? session_id := decode_plain_segment session_enc key in
        Ok (Some (RInboundGroupSession room_id session_id))
      else if decide (kind = KIND_MEGOLM_OUT) then
        let? room_enc := ok_or remainder malformed in
        let? room_id := decode_room_id room_enc key in
        Ok (Some (ROutboundGroupSession room_id))
      else if decide (kind = KIND_DEVICES) then
        let? user_enc := ok_or remainder malformed in
        let? user_id := decode_user_id user_enc key in
        Ok (Some (RDevices user_id))
      else if decide (kind = KIND_TRACKED_USER) then
        let? user_enc := ok_or remainder malformed in
        let? user_id := decode_user_id user_enc key in
        Ok (Some (RTrackedUser user_id))
      else if decide (kind = KIND_WITHHELD) then
        let? remainder := ok_or remainder malformed in
        let? (room_enc, session_enc) := ok_or (split_once "/" remainder) malformed in
        let? room_id := decode_room_id room_enc key in
        let? session_id := decode_plain_segment session_enc key in
        Ok (Some (RWithheld room_id session_id))
      else if decide (kind = KIND_ROOM_STATE) then
        let? room_enc := ok_or remainder malformed in
        let? room_id := decode_room_id room_enc key in
        Ok (Some (RRoomState room_id))
      else if decide (kind = KIND_PENDING) then
        let? request_enc := ok_or remainder malformed in
        let? request_id := decode_plain_segment request_enc key in
        Ok (Some (RPendingRequest (mkRequestId request_id)))
      else Ok None
  end.

(** [u8::from(b)] as the one byte of a record. *)
Definition bool_byte (b : bool) : string := String (if b then "001" else "000")%char EmptyString.

Definition decode_bool (bytes : string) (key : RecordKey) : result bool StoreError :=
  if decide (bytes = bool_byte false) then Ok false
  else if decide (bytes = bool_byte true) then Ok true
  else Err (StoreDecode key ("expected a single 0/1 byte, got " +:+ pretty (slen bytes) +:+ " bytes")).

Section Store.
Context `{SerdeJson, !RecordJson} {C : Type} `{RecordCodec C}.

Record Store := mkStore {
  st_device_id : DeviceId;
  st_codec : C;
  st_gate : FlushGate;
  st_account : option string;
  st_olm_sessions : gmap string (gmap string string);
  st_olm_session_order : gmap string (list string);
  st_inbound_group_sessions : gmap RoomId (gmap string string);
  st_outbound_group_sessions : gmap RoomId string;
  st_devices : gmap UserId string;
  st_tracked_users : gmap UserId bool;
  st_withheld : gmap RoomId (gmap string string);
  st_backup_key : option string;
  st_cross_signing_keys : option string;
  st_sync_token : option string;
  st_room_state : gmap RoomId string;
  st_pending : gmap RequestId PendingRequest;
  st_counters : option Counters;
  st_unknown : gmap RecordKey string }.

Definition with_gate (s : Store) (x : FlushGate) : Store :=
  mkStore (st_device_id s) (st_codec s) x (st_account s) (st_olm_sessions s) (st_olm_session_order s)
  (st_inbound_group_sessions s) (st_outbound_group_sessions s) (st_devices s) (st_tracked_users s)
  (st_withheld s) (st_backup_key s) (st_cross_signing_keys s) (st_sync_token s) (st_room_state s)
  (st_pending s) (st_counters s) (st_unknown s).
Definition with_account (s : Store) (x : option string) : Store :=
  mkStore (st_device_id s) (st_codec s) (st_gate s) x (st_olm_sessions s) (st_olm_session_order s)
  (st_inbound_group_sessions s) (st_outbound_group_sessions s) (st_devices s) (st_tracked_users s)
  (st_withheld s) (st_backup_key s) (st_cross_signing_keys s) (st_sync_token s) (st_room_state s)
  (st_pending s) (st_counters s) (st_unknown s).
Definition with_olm_sessions (s : Store) (x : gmap string (gmap string string)) : Store :=
  mkStore (st_device_id s) (st_codec s) (st_gate s) (st_account s) x (st_olm_session_order s)
  (st_inbound_group_sessions s) (st_outbound_group_sessions s) (st_devices s) (st_tracked_users s)
  (st_withheld s) (st_backup_key s) (st_cross_signing_keys s) (st_sync_token s) (st_room_state s)
  (st_pending s) (st_counters s) (st_unknown s).
Definition with_olm_session_order (s : Store) (x : gmap string (list string)) : Store :=
  mkStore (st_device_id s) (st_codec s) (st_gate s) (st_account s) (st_olm_sessions s) x
  (st_inbound_group_sessions s) (st_outbound_group_sessions s) (st_devices s) (st_tracked_users s)
  (st_withheld s) (st_backup_key s) (st_cross_signing_keys s) (st_sync_token s) (st_room_state s)
  (st_pending s) (st_counters s) (st_unknown s).
Definition with_inbound_group_sessions (s : Store) (x : gmap RoomId (gmap string string)) : Store :=
  mkStore (st_device_id s) (st_codec s) (st_gate s) (st_account s) (st_olm_sessions s)
  (st_olm_session_order s) x (st_outbound_group_sessions s) (st_devices s) (st_tracked_users s)
  (st_withheld s) (st_backup_key s) (st_cross_signing_keys s) (st_sync_token s) (st_room_state s)
  (st_pending s) (st_counters s) (st_unknown s).
Definition with_outbound_group_sessions (s : Store) (x : gmap RoomId string) : Store :=
  mkStore (st_device_id s) (st_codec s) (st_gate s) (st_account s) (st_olm_sessions s)
  (st_olm_session_order s) (st_inbound_group_sessions s) x (st_devices s) (st_tracked_users s) (st_withheld s)
  (st_backup_key s) (st_cross_signing_keys s) (st_sync_token s) (st_room_state s) (st_pending s)
  (st_counters s) (st_unknown s).
Definition with_devices (s : Store) (x : gmap UserId string) : Store :=
  mkStore (st_device_id s) (st_codec s) (st_gate s) (st_account s) (st_olm_sessions s)
  (st_olm_session_order s) (st_inbound_group_sessions s) (st_outbound_group_sessions s) x (st_tracked_users s)
  (st_withheld s) (st_backup_key s) (st_cross_signing_keys s) (st_sync_token s) (st_room_state s)
  (st_pending s) (st_counters s) (st_unknown s).
Definition with_tracked_users (s : Store) (x : gmap UserId bool) : Store :=
  mkStore (st_device_id s) (st_codec s) (st_gate s) (st_account s) (st_olm_sessions s)
  (st_olm_session_order s) (st_inbound_group_sessions s) (st_outbound_group_sessions s) (st_devices s) x
  (st_withheld s) (st_backup_key s) (st_cross_signing_keys s) (st_sync_token s) (st_room_state s)
  (st_pending s) (st_counters s) (st_unknown s).
Definition with_withheld (s : Store) (x : gmap RoomId (gmap string string)) : Store :=
  mkStore (st_device_id s) (st_codec s) (st_gate s) (st_account s) (st_olm_sessions s)
  (st_olm_session_order s) (st_inbound_group_sessions s) (st_outbound_group_sessions s) (st_devices s)
  (st_tracked_users s) x (st_backup_key s) (st_cross_signing_keys s) (st_sync_token s) (st_room_state s)
  (st_pending s) (st_counters s) (st_unknown s).
Definition with_backup_key (s : Store) (x : option string) : Store :=
  mkStore (st_device_id s) (st_codec s) (st_gate s) (st_account s) (st_olm_sessions s)
  (st_olm_session_order s) (st_inbound_group_sessions s) (st_outbound_group_sessions s) (st_devices s)
  (st_tracked_users s) (st_withheld s) x (st_cross_signing_keys s) (st_sync_token s) (st_room_state s)
  (st_pending s) (st_counters s) (st_unknown s).
Definition with_cross_signing_keys (s : Store) (x : option string) : Store :=
  mkStore (st_device_id s) (st_codec s) (st_gate s) (st_account s) (st_olm_sessions s)
  (st_olm_session_order s) (st_inbound_group_sessions s) (st_outbound_group_sessions s) (st_devices s)
  (st_tracked_users s) (st_withheld s) (st_backup_key s) x (st_sync_token s) (st_room_state s) (st_pending s)
  (st_counters s) (st_unknown s).
Definition with_sync_token (s : Store) (x : option string) : Store :=
  mkStore (st_device_id s) (st_codec s) (st_gate s) (st_account s) (st_olm_sessions s)
  (st_olm_session_order s) (st_inbound_group_sessions s) (st_outbound_group_sessions s) (st_devices s)
  (st_tracked_users s) (st_withheld s) (st_backup_key s) (st_cross_signing_keys s) x (st_room_state s)
  (st_pending s) (st_counters s) (st_unknown s).
Definition with_room_state (s : Store) (x : gmap RoomId string) : Store :=
  mkStore (st_device_id s) (st_codec s) (st_gate s) (st_account s) (st_olm_sessions s)
  (st_olm_session_order s) (st_inbound_group_sessions s) (st_outbound_group_sessions s) (st_devices s)
  (st_tracked_users s) (st_withheld s) (st_backup_key s) (st_cross_signing_keys s) (st_sync_token s) x
  (st_pending s) (st_counters s) (st_unknown s).
Definition with_pending (s : Store) (x : gmap RequestId PendingRequest) : Store :=
  mkStore (st_device_id s) (st_codec s) (st_gate s) (st_account s) (st_olm_sessions s)
  (st_olm_session_order s) (st_inbound_group_sessions s) (st_outbound_group_sessions s) (st_devices s)
  (st_tracked_users s) (st_withheld s) (st_backup_key s) (st_cross_signing_keys s) (st_sync_token s)
  (st_room_state s) x (st_counters s) (st_unknown s).
Definition with_counters (s : Store) (x : option Counters) : Store :=
  mkStore (st_device_id s) (st_codec s) (st_gate s) (st_account s) (st_olm_sessions s)
  (st_olm_session_order s) (st_inbound_group_sessions s) (st_outbound_group_sessions s) (st_devices s)
  (st_tracked_users s) (st_withheld s) (st_backup_key s) (st_cross_signing_keys s) (st_sync_token s)
  (st_room_state s) (st_pending s) x (st_unknown s).
Definition with_unknown (s : Store) (x : gmap RecordKey string) : Store :=
  mkStore (st_device_id s) (st_codec s) (st_gate s) (st_account s) (st_olm_sessions s)
  (st_olm_session_order s) (st_inbound_group_sessions s) (st_outbound_group_sessions s) (st_devices s)
  (st_tracked_users s) (st_withheld s) (st_backup_key s) (st_cross_signing_keys s) (st_sync_token s)
  (st_room_state s) (st_pending s) (st_counters s) x.

Definition Store_new (device_id : DeviceId) (codec : C) : Store :=
  mkStore device_id codec FlushGate_new None ∅ ∅ ∅ ∅ ∅ ∅ ∅ None None None ∅ ∅ None ∅.

(** [map.entry(a).or_default().insert(b, v)] *)
Definition insert2 {A} `{Countable A} (a : A) (b v : string) (m : gmap A (gmap string string)) :
    gmap A (gmap string string) :=
  <[a := <[b := v]> (default ∅ (m !! a))]> m.

Definition apply_recognized (s : Store) (recognized : RecognizedRecord) (plaintext : string) (key : RecordKey) :
    Store * result unit StoreError :=
  match recognized with
  | RAccount => (with_account s (Some plaintext), Ok tt)
  | ROlmSession their_curve25519 session_id =>
      (with_olm_sessions s (insert2 their_curve25519 session_id plaintext (st_olm_sessions s)), Ok tt)
  | ROlmSessionOrder their_curve25519 =>
      try? order := map_err (λ source, StoreDecode key ("session order is not valid JSON: " +:+ source))
                      (order_from_slice plaintext) on s in
      (with_olm_session_order s (<[their_curve25519 := order]> (st_olm_session_order s)), Ok tt)
  | RInboundGroupSession room_id session_id =>
      (with_inbound_group_sessions s (insert2 room_id session_id plaintext (st_inbound_group_sessions s)), Ok tt)
  | ROutboundGroupSession room_id =>
      (with_outbound_group_sessions s (<[room_id := plaintext]> (st_outbound_group_sessions s)), Ok tt)
  | RDevices user_id => (with_devices s (<[user_id := plaintext]> (st_devices s)), Ok tt)
  | RTrackedUser user_id =>
      try? outdated := decode_bool plaintext key on s in
      (with_tracked_users s (<[user_id := outdated]> (st_tracked_users s)), Ok tt)
  | RWithheld room_id session_id =>
      (with_withheld s (insert2 room_id session_id plaintext (st_withheld s)), Ok tt)
  | RBackupKey => (with_backup_key s (Some plaintext), Ok tt)
  | RCrossSigningKeys => (with_cross_signing_keys s (Some plaintext), Ok tt)
  | RSyncToken =>
      if utf8_valid plaintext then (with_sync_token s (Some plaintext), Ok tt)
      else (s, Err (StoreDecode key "sync token is not valid UTF-8"))
  | RRoomState room_id => (with_room_state s (<[room_id := plaintext]> (st_room_state s)), Ok tt)
  | RPendingRequest request_id =>
      try? req := map_err (λ source, StoreDecode key ("pending request is not valid JSON: " +:+ source))
                    (pending_from_slice plaintext) on s in
      (with_pending s (<[request_id := req]> (st_pending s)), Ok tt)
  | RCounters =>
      try? counters := map_err (λ source, StoreDecode key ("counters record is not valid JSON: " +:+ source))
                         (counters_from_slice plaintext) on s in
      (with_counters s (Some counters), Ok tt)
  end.

(** One iteration of [load]. *)
Definition load_one (s : Store) (record : SealedRecord) : result Store StoreError :=
  let? recognized := parse_record_key (st_device_id s) (sr_key record) in
  match recognized with
  | Some recognized =>
      let? plaintext := open (st_codec s) (sr_key record) (sr_bytes record) in
      match apply_recognized s recognized plaintext (sr_key record) with
      | (s, Ok _) => Ok s
      | (_, Err e) => Err e
      end
  | None =>
      let s := with_gate s (mark_dirty (st_gate s) (sr_key record) (sr_bytes record)) in
      Ok (with_unknown s (<[sr_key record := sr_bytes record]> (st_unknown s)))
  end.

Fixpoint load_all (s : Store) (records : list SealedRecord) : result Store StoreError :=
  match records with
  | [] => Ok s
  | record :: records => let? s := load_one s record in load_all s records
  end.

Definition Store_load (records : list SealedRecord) (codec : C) (device_id : DeviceId) : result Store StoreError :=
  load_all (Store_new device_id codec) records.

Definition store_mark_dirty (s : Store) (nonce : Nonce) (key : RecordKey) (plaintext : string) : Store :=
  with_gate s (mark_dirty (st_gate s) key (seal (st_codec s) nonce key plaintext)).

Definition store_mark_deleted (s : Store) (key : RecordKey) : Store :=
  with_gate s (mark_deleted (st_gate s) key).

Definition take_flush_batch (s : Store) : Store * option FlushBatch :=
  let '(g, b) := take_batch (st_gate s) in (with_gate s g, b).

Definition ack_flush (s : Store) (id : Z) : Store := with_gate s (ack (st_gate s) id).

#[export] Instance Store_FlushEpoch : FlushEpoch Store := {|
  seal_for_request s := let '(g, r) := seal_for_request (st_gate s) in (with_gate s g, r);
  is_released s r := is_released (st_gate s) r
|}.

(** ** [impl CryptoStore] *)

Definition account (s : Store) : result (option string) StoreError := Ok (st_account s).

Definition save_account (s : Store) (nonce : Nonce) (account : string) : Store * result unit StoreError :=
  let key := account_record_key (st_device_id s) in
  let s := store_mark_dirty s nonce key account in
  (with_account s (Some account), Ok tt).

Definition olm_sessions_for_device (s : Store) (their_curve25519 : string) : result (list string) StoreError :=
  match st_olm_sessions s !! their_curve25519 with
  | None => Ok []
  | Some sessions =>
      match st_olm_session_order s !! their_curve25519 with
      | None => Ok (btree_entries (λ k, k) sessions).*2
      | Some order => Ok (omap (λ session_id, sessions !! session_id) (rev order))
      end
  end.

Definition save_olm_session (s : Store) (nonce1 nonce2 : Nonce) (their_curve25519 session_id session : string) :
    Store * result unit StoreError :=
  let key := olm_session_record_key (st_device_id s) their_curve25519 session_id in
  let s := store_mark_dirty s nonce1 key session in
  let s := with_olm_sessions s (insert2 their_curve25519 session_id session (st_olm_sessions s)) in
  let order := default [] (st_olm_session_order s !! their_curve25519) in
  let s := with_olm_session_order s (delete their_curve25519 (st_olm_session_order s)) in
  let order := filter (λ id, id ≠ session_id) order in
  let order := order ++ [session_id] in
  let '(order, evicted) :=
    if (MAX_OLM_SESSIONS_PER_DEVICE <? length order)%nat then (tail order, head order) else (order, None) in
  let order_key := olm_session_order_record_key (st_device_id s) their_curve25519 in
  try? order_bytes := map_err (λ source, StoreDecode order_key ("failed to serialize session order: " +:+ source))
                        (order_to_vec order) on s in
  let s := store_mark_dirty s nonce2 order_key order_bytes in
  let s := with_olm_session_order s (<[their_curve25519 := order]> (st_olm_session_order s)) in
  match evicted with
  | Some evicted_id =>
      let s := match st_olm_sessions s !! their_curve25519 with
               | Some sessions =>
                   with_olm_sessions s (<[their_curve25519 := delete evicted_id sessions]> (st_olm_sessions s))
               | None => s
               end in
      (store_mark_deleted s (olm_session_record_key (st_device_id s) their_curve25519 evicted_id), Ok tt)
  | None => (s, Ok tt)
  end.

Definition inbound_group_session (s : Store) (room_id : RoomId) (session_id : string) : result (option string) StoreError :=
  Ok (st_inbound_group_sessions s !! room_id ≫= λ sessions, sessions !! session_id).

Definition save_inbound_group_session (s : Store) (nonce : Nonce) (room_id : RoomId) (session_id session : string) :
    Store * result unit StoreError :=
  let key := inbound_group_session_record_key (st_device_id s) room_id session_id in
  let s := store_mark_dirty s nonce key session in
  (with_inbound_group_sessions s (insert2 room_id session_id session (st_inbound_group_sessions s)), Ok tt).

Definition outbound_group_session (s : Store) (room_id : RoomId) : result (option string) StoreError :=
  Ok (st_outbound_group_sessions s !! room_id).

Definition save_outbound_group_session (s : Store) (nonce : Nonce) (room_id : RoomId) (session : string) :
    Store * result unit StoreError :=
  let key := outbound_group_session_record_key (st_device_id s) room_id in
  let s := store_mark_dirty s nonce key session in
  (with_outbound_group_sessions s (<[room_id := session]> (st_outbound_group_sessions s)), Ok tt).

Definition devices_for_user (s : Store) (user_id : UserId) : result (option string) StoreError :=
  Ok (st_devices s !! user_id).

Definition save_devices (s : Store) (nonce : Nonce) (user_id : UserId) (devices : string) :
    Store * result unit StoreError :=
  let key := devices_record_key (st_device_id s) user_id in
  let s := store_mark_dirty s nonce key devices in
  (with_devices s (<[user_id := devices]> (st_devices s)), Ok tt).

Definition tracked_users (s : Store) : result (list (UserId * bool)) StoreError :=
  Ok (btree_entries UserId_str (st_tracked_users s)).

Definition mark_user_tracked (s : Store) (nonce : Nonce) (user_id : UserId) (outdated : bool) :
    Store * result unit StoreError :=
  let key := tracked_user_record_key (st_device_id s) user_id in
  let s := store_mark_dirty s nonce key (bool_byte outdated) in
  (with_tracked_users s (<[user_id := outdated]> (st_tracked_users s)), Ok tt).

Definition withheld_reason (s : Store) (room_id : RoomId) (session_id : string) : result (option string) StoreError :=
  Ok (st_withheld s !! room_id ≫= λ sessions, sessions !! session_id).

Definition save_withheld (s : Store) (nonce : Nonce) (room_id : RoomId) (session_id code : string) :
    Store * result unit StoreError :=
  let key := withheld_record_key (st_device_id s) room_id session_id in
  let s := store_mark_dirty s nonce key code in
  (with_withheld s (insert2 room_id session_id code (st_withheld s)), Ok tt).

Definition backup_key (s : Store) : result (option string) StoreError := Ok (st_backup_key s).

Definition save_backup_key (s : Store) (nonce : Nonce) (key : string) : Store * result unit StoreError :=
  let record_key := backup_key_record_key (st_device_id s) in
  let s := store_mark_dirty s nonce record_key key in
  (with_backup_key s (Some key), Ok tt).

Definition cross_signing_keys (s : Store) : result (option string) StoreError := Ok (st_cross_signing_keys s).

Definition save_cross_signing_keys (s : Store) (nonce : Nonce) (keys : string) : Store * result unit StoreError :=
  let key := cross_signing_keys_record_key (st_device_id s) in
  let s := store_mark_dirty s nonce key keys in
  (with_cross_signing_keys s (Some keys), Ok tt).

(** ** [impl StateStore] *)

Definition sync_token (s : Store) : result (option string) StoreError := Ok (st_sync_token s).

Definition save_sync_token (s : Store) (nonce : Nonce) (token : string) : Store * result unit StoreError :=
  let key := sync_token_record_key (st_device_id s) in
  let s := store_mark_dirty s nonce key token in
  (with_sync_token s (Some token), Ok tt).

Definition room_state (s : Store) (room_id : RoomId) : result (option string) StoreError :=
  Ok (st_room_state s !! room_id).

Definition save_room_state (s : Store) (nonce : Nonce) (room_id : RoomId) (state : string) :
    Store * result unit StoreError :=
  let key := room_state_record_key (st_device_id s) room_id in
  let s := store_mark_dirty s nonce key state in
  (with_room_state s (<[room_id := state]> (st_room_state s)), Ok tt).

Definition room_ids (s : Store) : result (list RoomId) StoreError :=
  Ok (btree_entries RoomId_str (st_room_state s)).*1.

Definition store_pending_requests (s : Store) : result (list PendingRequest) StoreError :=
  Ok (btree_entries RequestId_str (st_pending s)).*2.

Definition store_save_pending_request (s : Store) (nonce : Nonce) (req : PendingRequest) :
    Store * result unit StoreError :=
  let id := id (request req) in
  let key := pending_request_record_key (st_device_id s) id in
  try? plaintext := map_err (λ source, StoreDecode key ("failed to serialize pending request: " +:+ source))
                      (pending_to_vec req) on s in
  let s := store_mark_dirty s nonce key plaintext in
  (with_pending s (<[id := req]> (st_pending s)), Ok tt).

Definition store_delete_pending_request (s : Store) (id : RequestId) : Store * result unit StoreError :=
  match st_pending s !! id with
  | Some _ =>
      let s := with_pending s (delete id (st_pending s)) in
      let key := pending_request_record_key (st_device_id s) id in
      (store_mark_deleted s key, Ok tt)
  | None => (s, Ok tt)
  end.

Definition counters (s : Store) : result (option Counters) StoreError := Ok (st_counters s).

Definition save_counters (s : Store) (nonce : Nonce) (counters : Counters) : Store * result unit StoreError :=
  let key := counters_record_key (st_device_id s) in
  try? plaintext := map_err (λ source, StoreDecode key ("failed to serialize counters: " +:+ source))
                      (counters_to_vec counters) on s in
  let s := store_mark_dirty s nonce key plaintext in
  (with_counters s (Some counters), Ok tt).

End Store.

Arguments Store {_} C.

(** * Sealed records (crates/mail4agent-messenger/src/store/sealed.rs)

    The production codec: a version byte, the nonce, and the AES-256-GCM ciphertext of the record
    bound to its key. The cipher is the class [Aes256Gcm]. The theorem: [open] accepts exactly the
    byte strings [seal] can produce for that key, with their plaintext, and refuses everything
    else by naming the key. *)

Definition FORMAT_VERSION : Z := 1.
Definition NONCE_LEN : nat := 12.

(** The [aes-gcm] crate: key, nonce, message or ciphertext with its tag, associated data. *)
Class Aes256Gcm := {
  aes_encrypt : string → Nonce → string → string → string;
  aes_decrypt : string → Nonce → string → string → option string
}.

(** Authenticated encryption is deterministic in key, nonce and associated data: a ciphertext
    passes the tag check exactly when it is the encryption of what it decrypts to. *)
Class Aes256GcmLaws `{Aes256Gcm} : Prop := {
  aes_decrypt_spec key nonce ct aad m : aes_decrypt key nonce ct aad = Some m ↔ ct = aes_encrypt key nonce m aad
}.

Record SealedBlob := mkSealedBlob { blob_nonce : Nonce; blob_ciphertext : string }.

Record SealedRecordCodec := mkSealedRecordCodec { codec_key : string }.

Section Sealed.
Context `{Aes256Gcm}.

Definition seal_bytes (key : string) (nonce : Nonce) (plaintext aad : string) : SealedBlob :=
  mkSealedBlob nonce (aes_encrypt key nonce plaintext aad).

Definition open_bytes (key : string) (nonce : Nonce) (ciphertext aad : string) : result string unit :=
  ok_or (aes_decrypt key nonce ciphertext aad) tt.

Definition codec_seal (self : SealedRecordCodec) (nonce : Nonce) (key : RecordKey) (plaintext : string) : string :=
  let sealed := seal_bytes (codec_key self) nonce plaintext (RecordKey_str key) in
  String (ascii_of_N (Z.to_N FORMAT_VERSION)) (nonce_bytes (blob_nonce sealed) +:+ blob_ciphertext sealed).

(** [nonce.copy_from_slice(nonce_bytes)]: the slice as an array of twelve bytes. *)
Definition nonce_of (bytes : string) : option Nonce :=
  match decide (String.length bytes = NONCE_LEN) with
  | left Hlen => Some (mkNonce bytes Hlen)
  | right _ => None
  end.

Definition codec_open (self : SealedRecordCodec) (key : RecordKey) (sealed : string) : result string StoreError :=
  let reject := CodecOpen key in
  match sealed with
  | EmptyString => Err reject
  | String version rest =>
      if negb (bval version =? FORMAT_VERSION) then Err reject
      else if slen rest <? Z.of_nat NONCE_LEN then Err reject
      else
        let nonce_bytes := s_take NONCE_LEN rest in
        let ciphertext := s_drop NONCE_LEN rest in
        let? nonce := ok_or (nonce_of nonce_bytes) reject in
        map_err (λ _, reject) (open_bytes (codec_key self) nonce ciphertext (RecordKey_str key))
  end.

#[export] Instance Sealed_RecordCodec : RecordCodec SealedRecordCodec := {|
  seal := codec_seal;
  open := codec_open
|}.

Lemma nonce_of_bytes n : nonce_of (nonce_bytes n) = Some n.
Proof.
  unfold nonce_of. destruct n as [b Hb]. cbn. case_decide as Hlen; [|done]. do 2 f_equal. apply proof_irrel.
Qed.

Context `{!Aes256GcmLaws}.

Lemma codec_open_seal c nonce key p : codec_open c key (codec_seal c nonce key p) = Ok p.
Proof.
  unfold codec_open, codec_seal. cbn [seal_bytes blob_nonce blob_ciphertext].
  assert (Hl : String.length (nonce_bytes nonce) = NONCE_LEN) by apply nonce_len.
  change (negb (bval _ =? FORMAT_VERSION)) with false. cbn iota. rewrite slen_app.
  destruct (Z.ltb_spec (slen (nonce_bytes nonce) + slen (aes_encrypt (codec_key c) nonce p (RecordKey_str key)))
              (Z.of_nat NONCE_LEN)); [unfold slen in *; lia|].
  rewrite <- Hl, s_take_app, s_drop_app, nonce_of_bytes. cbn. unfold open_bytes.
  by rewrite (proj2 (aes_decrypt_spec (codec_key c) nonce _ (RecordKey_str key) p) eq_refl).
Qed.

Lemma codec_open_inv c key sealed p : codec_open c key sealed = Ok p → ∃ nonce, sealed = codec_seal c nonce key p.
Proof.
  unfold codec_open. destruct sealed as [|v rest]; [discriminate|].
  destruct (Z.eqb_spec (bval v) FORMAT_VERSION) as [Hv|]; cbn [negb]; [|discriminate].
  destruct (Z.ltb_spec (slen rest) (Z.of_nat NONCE_LEN)); [discriminate|]. unfold nonce_of.
  destruct (decide _) as [Hlen|]; cbn [ok_or]; [|discriminate]. unfold open_bytes.
  destruct (aes_decrypt _ _ _ _) as [m|] eqn:Hd; cbn [ok_or map_err]; [|discriminate]. intros [= ->].
  apply aes_decrypt_spec in Hd. exists (mkNonce _ Hlen). unfold codec_seal, seal_bytes.
  cbn [blob_nonce blob_ciphertext nonce_bytes]. rewrite <- Hd, s_take_drop. f_equal. by apply bval_inj.
Qed.

Lemma codec_open_err c key sealed e : codec_open c key sealed = Err e → e = CodecOpen key.
Proof.
  unfold codec_open, ok_or, map_err. intros He. repeat case_match; simplify_eq/=; done.
Qed.

#[export] Instance Sealed_RecordCodecLaws : RecordCodecLaws SealedRecordCodec.
Proof. constructor. apply codec_open_seal. Qed.

(** A sealed record opens to a plaintext exactly when it is that plaintext sealed for that
    key, under some nonce; anything else (empty, another version, too short, changed in any byte,
    or sealed for another key with a different ciphertext) is refused with an error naming the
    key. *)
Theorem open_accepts_exactly_sealed (c : SealedRecordCodec) key sealed :
  (∀ p, codec_open c key sealed = Ok p ↔ ∃ nonce, sealed = codec_seal c nonce key p) ∧
  (∀ e, codec_open c key sealed = Err e → e = CodecOpen key).
Proof.
  split; [|apply codec_open_err].
  intros p. split; [apply codec_open_inv|]. intros [nonce ->]. apply codec_open_seal.
Qed.

End Sealed.

(** ** A concrete instance *)

Module SealedWitnesses.

(** A toy cipher: the message behind key, nonce and associated data. *)
#[export] Instance toy_aes : Aes256Gcm := {|
  aes_encrypt key nonce m aad := (key +:+ nonce_bytes nonce +:+ aad) +:+ m;
  aes_decrypt key nonce ct aad := strip_prefix (key +:+ nonce_bytes nonce +:+ aad) ct
|}.

#[export] Instance toy_aes_laws : Aes256GcmLaws.
Proof.
  constructor. intros key nonce ct aad m. cbn. split; [apply strip_prefix_Some|intros ->; apply strip_prefix_app].
Qed.

Definition nonce0 : Nonce := mkNonce "abcdefghijkl" eq_refl.
Definition codec0 : SealedRecordCodec := mkSealedRecordCodec "k".
Definition key0 : RecordKey := mkRecordKey "messenger/dev/account".

Lemma open_accepts_exactly_sealed_witness :
  codec_open codec0 key0 (codec_seal codec0 nonce0 key0 "secret") = Ok "secret" ∧
  (∃ e, codec_open codec0 key0 "x" = Err e ∧ e = CodecOpen key0).
Proof.
  split.
  - apply (proj1 (open_accepts_exactly_sealed codec0 key0 _)). by exists nonce0.
  - eexists. split; [vm_compute; reflexivity|].
    apply (proj2 (open_accepts_exactly_sealed codec0 key0 "x")). vm_compute. reflexivity.
Defined.

End SealedWitnesses.
