(* ===== verification/StoreProps.v ===== *)
(** * Crash recovery of the working-set store

    What the records on disk say about the store ([holds]), that every method keeps the records
    and the memory in step, and that loading the records gives the memory back. The theorems: keys
    are parsed back to the record they name; a store loaded after a crash is the store as it was
    when the last batch that reached the disk was taken; a peer has at most ten Olm sessions, and
    they are handed out by most recent use. *)

From Stdlib Require Import Ascii.
From S2P Require Import Prelude Persist Ids OutgoingQueue Store.

Local Open Scope Z_scope.

(** [serde_json] reads back the session orders and counters it wrote. *)
Class RecordJsonLaws `{RecordJson} : Prop := {
  order_roundtrip o b : order_to_vec o = Ok b → order_from_slice b = Ok o;
  counters_roundtrip c b : counters_to_vec c = Ok b → counters_from_slice b = Ok c
}.

(** ** Keys *)

Definition rec_key (d : DeviceId) (r : RecognizedRecord) : RecordKey :=
  match r with
  | RAccount => account_record_key d
  | ROlmSession c i => olm_session_record_key d c i
  | ROlmSessionOrder c => olm_session_order_record_key d c
  | RInboundGroupSession room i => inbound_group_session_record_key d room i
  | ROutboundGroupSession room => outbound_group_session_record_key d room
  | RDevices u => devices_record_key d u
  | RTrackedUser u => tracked_user_record_key d u
  | RWithheld room i => withheld_record_key d room i
  | RBackupKey => backup_key_record_key d
  | RCrossSigningKeys => cross_signing_keys_record_key d
  | RSyncToken => sync_token_record_key d
  | RRoomState room => room_state_record_key d room
  | RPendingRequest i => pending_request_record_key d i
  | RCounters => counters_record_key d
  end.

(** A Rust string, and the ids that passed their constructor. *)
Definition text (s : string) : Prop := utf8_valid s = true.
Definition valid_room (r : RoomId) : Prop := text (RoomId_str r) ∧ RoomId_parse (RoomId_str r) = Ok r.
Definition valid_user (u : UserId) : Prop := text (UserId_str u) ∧ UserId_parse (UserId_str u) = Ok u.

Definition valid_record (r : RecognizedRecord) : Prop :=
  match r with
  | ROlmSession c i => text c ∧ text i
  | ROlmSessionOrder c => text c
  | RInboundGroupSession room i | RWithheld room i => valid_room room ∧ text i
  | ROutboundGroupSession room | RRoomState room => valid_room room
  | RDevices u | RTrackedUser u => valid_user u
  | RPendingRequest i => text (RequestId_str i)
  | _ => True
  end.

Lemma decode_plain_encoded s k : text s → decode_plain_segment (percent_encode_segment s) k = Ok s.
Proof. intros Hs. unfold decode_plain_segment. by rewrite percent_roundtrip. Qed.

Lemma decode_room_encoded r k : valid_room r → decode_room_id (percent_encode_segment (RoomId_str r)) k = Ok r.
Proof. intros [Ht Hp]. unfold decode_room_id. rewrite percent_roundtrip by done. cbn. by rewrite Hp. Qed.

Lemma decode_user_encoded u k : valid_user u → decode_user_id (percent_encode_segment (UserId_str u)) k = Ok u.
Proof. intros [Ht Hp]. unfold decode_user_id. rewrite percent_roundtrip by done. cbn. by rewrite Hp. Qed.

(** The two shapes of [split_kind]. *)
Lemma split_kind_bare k : all_bytes (λ c, negb (Ascii.eqb c "/")) k = true → split_kind k = (k, None).
Proof. intros Hk. unfold split_kind. by rewrite split_once_None. Qed.

Lemma split_kind_slash k r :
  all_bytes (λ c, negb (Ascii.eqb c "/")) k = true → split_kind (k +:+ "/" +:+ r) = (k, Some r).
Proof. intros Hk. unfold split_kind. change ("/" +:+ r) with (String "/" r). by rewrite split_once_app. Qed.

Lemma split_once_encoded' s r :
  split_once "/" (percent_encode_segment s +:+ "/" +:+ r) = Some (percent_encode_segment s, r).
Proof. apply split_once_encoded. Qed.

(** Reads the kind off a key the store built. *)
Ltac parse_key :=
  unfold parse_record_key; cbn [RecordKey_str];
  rewrite strip_prefix_app; cbn [mbind option_bind];
  rewrite ?split_kind_slash, ?split_kind_bare by reflexivity;
  repeat match goal with |- context [if decide (?a = ?b ∧ ?c = ?d) then _ else _] =>
    first [rewrite (decide_True (P := a = b ∧ c = d)) by (split; reflexivity)
          |rewrite (decide_False (P := a = b ∧ c = d)) by (intros [? ?]; discriminate)] end;
  repeat match goal with |- context [if decide (?a = ?b) then _ else _] =>
    first [rewrite (decide_True (P := a = b)) by reflexivity
          |rewrite (decide_False (P := a = b)) by discriminate] end;
  cbn [ok_or]; rewrite ?split_once_encoded'; cbn [ok_or].

(** A key is parsed back to the record it names. *)
Lemma parse_rec_key d r :
  valid_record r → parse_record_key d (rec_key d r) = Ok (Some r).
Proof.
  destruct r; cbn [valid_record rec_key];
    unfold account_record_key, olm_session_record_key, olm_session_order_record_key,
      inbound_group_session_record_key, outbound_group_session_record_key, devices_record_key,
      tracked_user_record_key, withheld_record_key, backup_key_record_key, cross_signing_keys_record_key,
      sync_token_record_key, room_state_record_key, pending_request_record_key, counters_record_key, key0, key1, key2;
    intros Hv; parse_key; try done;
    rewrite ?decode_room_encoded, ?decode_user_encoded by naive_solver;
    cbn; rewrite ?decode_plain_encoded by naive_solver; cbn; try done.
  all: repeat match goal with x : RequestId |- _ => destruct x end; done.
Qed.

Lemma rec_key_inj d r r' : valid_record r → valid_record r' → rec_key d r = rec_key d r' → r = r'.
Proof.
  intros Hr Hr' Heq. pose proof (parse_rec_key d r Hr) as H1. rewrite Heq, parse_rec_key in H1 by done.
  by injection H1.
Qed.

(** ** Two-level maps *)

Definition lookup2 {A} `{Countable A} (m : gmap A (gmap string string)) (a : A) (b : string) : option string :=
  m !! a ≫= λ inner, inner !! b.

(** No inner map is empty. *)
Definition dense_map {A} `{Countable A} (m : gmap A (gmap string string)) : Prop :=
  ∀ a inner, m !! a = Some inner → inner ≠ ∅.

Section TwoLevel.
Context {A : Type} `{Countable A}.
Implicit Types m : gmap A (gmap string string).

Lemma lookup2_insert2 a b v m a' b' :
  lookup2 (insert2 a b v m) a' b' = if decide (a' = a ∧ b' = b) then Some v else lookup2 m a' b'.
Proof.
  unfold lookup2, insert2. destruct (decide (a' = a)) as [->|Ha].
  - rewrite lookup_insert_eq. cbn. destruct (decide (b' = b)) as [->|Hb].
    + by rewrite lookup_insert_eq, decide_True.
    + rewrite lookup_insert_ne, decide_False by naive_solver. by destruct (m !! a).
  - by rewrite lookup_insert_ne, decide_False by naive_solver.
Qed.

Lemma dense_insert2 a b v m : dense_map m → dense_map (insert2 a b v m).
Proof.
  intros Hd a' inner. unfold insert2. destruct (decide (a' = a)) as [->|Ha].
  - rewrite lookup_insert_eq. intros [= <-]. apply insert_non_empty.
  - rewrite lookup_insert_ne by done. apply Hd.
Qed.

Lemma dense_ext m m' : dense_map m → dense_map m' → (∀ a b, lookup2 m a b = lookup2 m' a b) → m = m'.
Proof.
  intros Hd Hd' Hext. apply map_eq. intros a. specialize (Hd a). specialize (Hd' a). specialize (Hext a).
  unfold lookup2 in Hext. destruct (m !! a) as [i|] eqn:Hm, (m' !! a) as [i'|] eqn:Hm'; cbn in Hext; [..|done].
  - f_equal. by apply map_eq.
  - destruct (Hd i eq_refl). apply map_eq. intros b. by rewrite Hext, lookup_empty.
  - destruct (Hd' i' eq_refl). apply map_eq. intros b. by rewrite <- Hext, lookup_empty.
Qed.

End TwoLevel.

(** Looking up exactly the keys of a map lists its values. *)
Lemma omap_lookup_perm {K V} `{Countable K} (m : gmap K V) o :
  NoDup o → (∀ i, i ∈ o ↔ is_Some (m !! i)) → omap (λ j, m !! j) o ≡ₚ (map_to_list m).*2.
Proof.
  intros Hnd Hin. assert (omap (λ j, m !! j) o = (omap (λ j, pair j <$> m !! j) o).*2) as ->.
  { clear. induction o as [|j o IH]; cbn; [done|]. destruct (m !! j); cbn; congruence. }
  apply fmap_Permutation, NoDup_Permutation; [|apply NoDup_map_to_list|].
  - clear Hin. induction Hnd as [|j o Hj Hnd IH]; cbn; [constructor|]. destruct (m !! j) as [v|]; cbn; [|done].
    constructor; [|done]. rewrite list_elem_of_omap. intros (j' & Hj' & Heq).
    destruct (m !! j'); cbn in Heq; [|discriminate]. by injection Heq as -> ->.
  - intros [k v]. rewrite elem_of_map_to_list, list_elem_of_omap. split.
    + intros (j & _ & Hj). destruct (m !! j) eqn:Hm; cbn in Hj; [|discriminate]. by injection Hj as -> ->.
    + intros Hk. exists k. rewrite Hin, Hk. cbn. eauto.
Qed.

Lemma length_omap_le {A B} (f : A → option B) l : (length (omap f l) ≤ length l)%nat.
Proof. induction l as [|x l IH]; cbn; [lia|]. destruct (f x); cbn; lia. Qed.

Section Recovery.
Context `{SerdeJson, !RecordJson, !RecordJsonLaws} {C : Type} `{RecordCodec C, !RecordCodecLaws C}.
Implicit Types s : Store C.

(** ** What a store says of each record *)

Inductive RecordValue :=
| PBytes (b : string)
| POrder (ids : list string)
| PFlag (b : bool)
| PPending (req : PendingRequest)
| PCounters (c : Counters).

Definition rec_value s (r : RecognizedRecord) : option RecordValue :=
  match r with
  | RAccount => PBytes <$> st_account s
  | ROlmSession c i => PBytes <$> lookup2 (st_olm_sessions s) c i
  | ROlmSessionOrder c => POrder <$> st_olm_session_order s !! c
  | RInboundGroupSession room i => PBytes <$> lookup2 (st_inbound_group_sessions s) room i
  | ROutboundGroupSession room => PBytes <$> st_outbound_group_sessions s !! room
  | RDevices u => PBytes <$> st_devices s !! u
  | RTrackedUser u => PFlag <$> st_tracked_users s !! u
  | RWithheld room i => PBytes <$> lookup2 (st_withheld s) room i
  | RBackupKey => PBytes <$> st_backup_key s
  | RCrossSigningKeys => PBytes <$> st_cross_signing_keys s
  | RSyncToken => PBytes <$> st_sync_token s
  | RRoomState room => PBytes <$> st_room_state s !! room
  | RPendingRequest i => PPending <$> st_pending s !! i
  | RCounters => PCounters <$> st_counters s
  end.

(** The store with one record set. *)
Definition put s (r : RecognizedRecord) (v : RecordValue) : Store C :=
  match r, v with
  | RAccount, PBytes b => with_account s (Some b)
  | ROlmSession c i, PBytes b => with_olm_sessions s (insert2 c i b (st_olm_sessions s))
  | ROlmSessionOrder c, POrder o => with_olm_session_order s (<[c := o]> (st_olm_session_order s))
  | RInboundGroupSession room i, PBytes b =>
      with_inbound_group_sessions s (insert2 room i b (st_inbound_group_sessions s))
  | ROutboundGroupSession room, PBytes b =>
      with_outbound_group_sessions s (<[room := b]> (st_outbound_group_sessions s))
  | RDevices u, PBytes b => with_devices s (<[u := b]> (st_devices s))
  | RTrackedUser u, PFlag b => with_tracked_users s (<[u := b]> (st_tracked_users s))
  | RWithheld room i, PBytes b => with_withheld s (insert2 room i b (st_withheld s))
  | RBackupKey, PBytes b => with_backup_key s (Some b)
  | RCrossSigningKeys, PBytes b => with_cross_signing_keys s (Some b)
  | RSyncToken, PBytes b => with_sync_token s (Some b)
  | RRoomState room, PBytes b => with_room_state s (<[room := b]> (st_room_state s))
  | RPendingRequest i, PPending req => with_pending s (<[i := req]> (st_pending s))
  | RCounters, PCounters c => with_counters s (Some c)
  | _, _ => s
  end.

(** [p] is a plaintext from which [load] reads [v]. *)
Definition decodes (r : RecognizedRecord) (v : RecordValue) (p : string) : Prop :=
  match r, v with
  | ROlmSessionOrder _, POrder o => order_from_slice p = Ok o
  | RTrackedUser _, PFlag b => p = bool_byte b
  | RPendingRequest _, PPending req => pending_from_slice p = Ok req
  | RCounters, PCounters c => counters_from_slice p = Ok c
  | RSyncToken, PBytes b => p = b ∧ text b
  | (RAccount | ROlmSession _ _ | RInboundGroupSession _ _ | ROutboundGroupSession _ | RDevices _ |
     RWithheld _ _ | RBackupKey | RCrossSigningKeys | RRoomState _), PBytes b => p = b
  | _, _ => False
  end.

Lemma apply_recognized_put s r v p k : decodes r v p → apply_recognized s r p k = (put s r v, Ok tt).
Proof.
  destruct r, v; cbn; intros Hd; try done; try (by subst); try (by rewrite Hd).
  - subst. by destruct b.
  - destruct Hd as [-> Ht]. by rewrite Ht.
Qed.

Lemma rec_value_put s r v p r' :
  decodes r v p → rec_value (put s r v) r' = if decide (r' = r) then Some v else rec_value s r'.
Proof.
  intros Hd. destruct (decide (r' = r)) as [->|Hne].
  - destruct r, v; cbn in Hd |- *; try done; by rewrite ?lookup2_insert2, ?lookup_insert_eq, ?decide_True.
  - destruct r, v; cbn in Hd; try done; destruct r'; cbn; try done;
      rewrite ?lookup2_insert2, ?decide_False by naive_solver; rewrite ?lookup_insert_ne by congruence; done.
Qed.

(** What [put] leaves alone. *)
Lemma put_frame s r v :
  st_device_id (put s r v) = st_device_id s ∧ st_codec (put s r v) = st_codec s ∧
  st_gate (put s r v) = st_gate s ∧ st_unknown (put s r v) = st_unknown s.
Proof. by destruct r, v. Qed.

Definition dense s : Prop :=
  dense_map (st_olm_sessions s) ∧ dense_map (st_inbound_group_sessions s) ∧ dense_map (st_withheld s).

Lemma dense_new d c : dense (Store_new d c).
Proof. repeat split; intros a inner; cbn; rewrite lookup_empty; discriminate. Qed.

Lemma dense_put s r v : dense s → dense (put s r v).
Proof. intros (D1 & D2 & D3). destruct r, v; repeat split; cbn; auto using dense_insert2. Qed.

(** Everything but the gate. *)
Definition same_contents s s' : Prop := s = with_gate s' (st_gate s).

Lemma same_contents_refl s : same_contents s s.
Proof. by destruct s. Qed.

Lemma fmap_value_inj {A} (f : A → RecordValue) (o o' : option A) :
  (∀ x y, f x = f y → x = y) → f <$> o = f <$> o' → o = o'.
Proof. destruct o, o'; cbn; intros Hf Heq; try discriminate; [|done]. f_equal. apply Hf. congruence. Qed.

Ltac by_value H := eapply fmap_value_inj; [|apply H]; by intros ?? [= ->].

Lemma contents_ext s s' :
  st_device_id s = st_device_id s' → st_codec s = st_codec s' → st_unknown s = st_unknown s' →
  dense s → dense s' → (∀ r, rec_value s r = rec_value s' r) → same_contents s s'.
Proof.
  intros Hdev Hcod Hun (D1 & D2 & D3) (E1 & E2 & E3) Hext. unfold same_contents, with_gate.
  assert (Hv : ∀ r, rec_value s r = rec_value s' r) by done. clear Hext.
  destruct s, s'; cbn in *; subst; f_equal.
  - by_value (Hv RAccount).
  - apply dense_ext; [done..|]. intros a b. by_value (Hv (ROlmSession a b)).
  - apply map_eq. intros a. by_value (Hv (ROlmSessionOrder a)).
  - apply dense_ext; [done..|]. intros a b. by_value (Hv (RInboundGroupSession a b)).
  - apply map_eq. intros a. by_value (Hv (ROutboundGroupSession a)).
  - apply map_eq. intros a. by_value (Hv (RDevices a)).
  - apply map_eq. intros a. by_value (Hv (RTrackedUser a)).
  - apply dense_ext; [done..|]. intros a b. by_value (Hv (RWithheld a b)).
  - by_value (Hv RBackupKey).
  - by_value (Hv RCrossSigningKeys).
  - by_value (Hv RSyncToken).
  - apply map_eq. intros a. by_value (Hv (RRoomState a)).
  - apply map_eq. intros a. by_value (Hv (RPendingRequest a)).
  - by_value (Hv RCounters).
Qed.

(** ** Records that hold a store *)

(** [b] is a sealed form of [v] under the key of [r]. *)
Definition seals s (r : RecognizedRecord) (v : RecordValue) (b : string) : Prop :=
  ∃ nonce p, decodes r v p ∧ b = seal (st_codec s) nonce (rec_key (st_device_id s) r) p.

Record holds (m : gmap RecordKey string) s : Prop := {
  h_value r v : rec_value s r = Some v →
    valid_record r ∧ ∃ b, m !! rec_key (st_device_id s) r = Some b ∧ seals s r v b;
  h_key k b : m !! k = Some b →
    (∃ r v, rec_value s r = Some v ∧ k = rec_key (st_device_id s) r) ∨ st_unknown s !! k = Some b;
  h_unknown k b : st_unknown s !! k = Some b → parse_record_key (st_device_id s) k = Ok None ∧ m !! k = Some b;
  h_dense : dense s
}.

Lemma holds_new d c : holds ∅ (Store_new d c).
Proof.
  split; cbn.
  - intros r v. by destruct r; cbn; unfold lookup2; rewrite ?lookup_empty.
  - intros k b. by rewrite lookup_empty.
  - intros k b. by rewrite lookup_empty.
  - apply dense_new.
Qed.

(** [holds] reads everything but the gate. *)
Lemma holds_gate m s g : holds m (with_gate s g) ↔ holds m s.
Proof. split; intros [A1 A2 A3 A4]; (split; [exact A1|exact A2|exact A3|exact A4]). Qed.

Lemma holds_put m s r v b :
  holds m s → valid_record r → seals s r v b → holds (<[rec_key (st_device_id s) r := b]> m) (put s r v).
Proof.
  intros [Hval Hkey Hunk Hden] Hr (nonce & p & Hd & Hb).
  destruct (put_frame s r v) as (Fd & Fc & _ & Fu). split; rewrite ?Fd, ?Fc, ?Fu.
  - intros r' v'. rewrite (rec_value_put _ _ _ _ _ Hd). unfold seals. rewrite Fd, Fc.
    destruct (decide (r' = r)) as [->|Hne].
    + intros [= <-]. split; [done|]. exists b. rewrite lookup_insert_eq. split; [done|]. by exists nonce, p.
    + intros Hv. destruct (Hval _ _ Hv) as (Hr' & b' & Hm & Hs). split; [done|]. exists b'.
      split; [|exact Hs]. rewrite lookup_insert_ne; [done|]. intros Heq. apply Hne.
      symmetry. by eapply rec_key_inj.
  - intros k b'. destruct (decide (k = rec_key (st_device_id s) r)) as [->|Hne].
    + intros _. left. exists r, v. by rewrite (rec_value_put _ _ _ _ _ Hd), decide_True.
    + rewrite lookup_insert_ne by done. intros Hm. destruct (Hkey _ _ Hm) as [(r' & v' & Hv & ->)|?]; [|by right].
      left. exists r', v'. rewrite (rec_value_put _ _ _ _ _ Hd), decide_False by naive_solver. done.
  - intros k b' Hu. destruct (Hunk _ _ Hu) as [Hp Hm]. split; [done|]. rewrite lookup_insert_ne; [done|].
    intros <-. by rewrite parse_rec_key in Hp.
  - by apply dense_put.
Qed.

(** A deleted record; [s'] is the store without it. *)
Lemma holds_drop m s s' r :
  holds m s → valid_record r →
  st_device_id s' = st_device_id s → st_codec s' = st_codec s → st_unknown s' = st_unknown s → dense s' →
  (∀ r', rec_value s' r' = if decide (r' = r) then None else rec_value s r') →
  holds (delete (rec_key (st_device_id s) r) m) s'.
Proof.
  intros [Hval Hkey Hunk Hden] Hr Fd Fc Fu Hd' Hext. split; rewrite ?Fd, ?Fu; [..|done].
  - intros r' v'. rewrite Hext. unfold seals. rewrite Fd, Fc. destruct (decide (r' = r)) as [|Hne]; [discriminate|].
    intros Hv. destruct (Hval _ _ Hv) as (Hr' & b' & Hm & Hs). split; [done|]. exists b'.
    split; [|exact Hs]. rewrite lookup_delete_ne; [done|]. intros Heq. apply Hne. symmetry. by eapply rec_key_inj.
  - intros k b. rewrite lookup_delete_Some. intros [Hne Hm].
    destruct (Hkey _ _ Hm) as [(r' & v' & Hv & ->)|?]; [|by right].
    left. exists r', v'. rewrite Hext, decide_False by naive_solver. done.
  - intros k b Hu. destruct (Hunk _ _ Hu) as [Hp Hm]. split; [done|]. rewrite lookup_delete_ne; [done|].
    intros <-. by rewrite parse_rec_key in Hp.
Qed.

(** ** Loading *)

(** A listing of the records, in any order. *)
Definition lists (recs : list SealedRecord) (m : gmap RecordKey string) : Prop :=
  ∀ k b, mkSealedRecord k b ∈ recs ↔ m !! k = Some b.

Definition records_of (m : gmap RecordKey string) : list SealedRecord :=
  (λ kb, mkSealedRecord kb.1 kb.2) <$> map_to_list m.

Lemma records_of_lists m : lists (records_of m) m.
Proof.
  intros k b. unfold records_of. rewrite list_elem_of_fmap. split.
  - intros ([k' b'] & [= -> ->] & Hin). by apply elem_of_map_to_list.
  - intros Hm. exists (k, b). split; [done|]. by apply elem_of_map_to_list.
Qed.

(** [s1] is a part of [s]. *)
Record part s1 s : Prop := {
  p_device : st_device_id s1 = st_device_id s;
  p_codec : st_codec s1 = st_codec s;
  p_value r v : rec_value s1 r = Some v → rec_value s r = Some v;
  p_unknown k b : st_unknown s1 !! k = Some b → st_unknown s !! k = Some b;
  p_gate : ∀ k, gate_pending (st_gate s1) !! k = Write <$> st_unknown s1 !! k;
  p_dense : dense s1
}.

(** [s1] has what the record [x] says. *)
Definition reflects s1 s (x : SealedRecord) : Prop :=
  (∀ r v, sr_key x = rec_key (st_device_id s) r → rec_value s r = Some v → rec_value s1 r = Some v) ∧
  (st_unknown s !! sr_key x = Some (sr_bytes x) → st_unknown s1 !! sr_key x = Some (sr_bytes x)).

Lemma load_one_part m s s1 x :
  holds m s → part s1 s → m !! sr_key x = Some (sr_bytes x) →
  ∃ s2, load_one s1 x = Ok s2 ∧ part s2 s ∧ reflects s2 s x ∧ (∀ y, reflects s1 s y → reflects s2 s y).
Proof.
  intros [Hval Hkey Hunk _] [Pd Pc Pv Pu Pg Pde] Hx. unfold load_one. rewrite Pd.
  destruct x as [k b]. cbn [sr_key sr_bytes] in *. destruct (Hkey _ _ Hx) as [(r & v & Hv & ->)|Hu].
  - destruct (Hval _ _ Hv) as (Hr & b' & Hm & nonce & p & Hd & Hb). rewrite Hm in Hx. injection Hx as ->.
    rewrite parse_rec_key, Pc, Hb, open_seal by done. cbn [mbind].
    rewrite (apply_recognized_put _ _ _ _ _ Hd). eexists. split; [done|].
    destruct (put_frame s1 r v) as (Fd & Fc & Fg & Fu).
    assert (Hput : ∀ r', rec_value (put s1 r v) r' = if decide (r' = r) then Some v else rec_value s1 r')
      by (intros r'; by eapply rec_value_put).
    split; [|split].
    + split; rewrite ?Fd, ?Fc, ?Fg, ?Fu; try done; [|by apply dense_put].
      intros r' v'. rewrite Hput. destruct (decide (r' = r)) as [->|]; [by intros [= <-]|apply Pv].
    + split; cbn.
      * intros r' v' Heq Hv'. destruct (Hval _ _ Hv') as (Hr' & _).
        assert (r' = r) as -> by (symmetry; by eapply rec_key_inj). rewrite Hput, decide_True; congruence.
      * intros Hu'. apply Hunk in Hu' as [Hp _]. by rewrite parse_rec_key in Hp.
    + intros y [Y1 Y2]. split; rewrite ?Fu; [|done]. intros r' v' Heq Hv'. rewrite Hput.
      destruct (decide (r' = r)) as [->|]; [congruence|by apply Y1].
  - destruct (Hunk _ _ Hu) as [Hp _]. rewrite Hp. eexists. split; [done|]. split; [|split].
    + split; cbn; try done.
      * intros k' b'. destruct (decide (k' = k)) as [->|]; [by rewrite lookup_insert_eq; intros [= <-]|].
        rewrite lookup_insert_ne by done. apply Pu.
      * intros k'. destruct (decide (k' = k)) as [->|]; [by rewrite !lookup_insert_eq|].
        rewrite !lookup_insert_ne by done. apply Pg.
    + split; cbn.
      * intros r v -> Hv. destruct (Hval _ _ Hv) as (Hr & _). by rewrite parse_rec_key in Hp.
      * intros _. by rewrite lookup_insert_eq.
    + intros y [Y1 Y2]. split; cbn; [done|]. intros Hy. destruct (decide (sr_key y = k)) as [<-|].
      * rewrite lookup_insert_eq. congruence.
      * rewrite lookup_insert_ne by done. auto.
Qed.

Lemma load_all_part m s recs s1 :
  holds m s → part s1 s → (∀ x, x ∈ recs → m !! sr_key x = Some (sr_bytes x)) →
  ∃ s2, load_all s1 recs = Ok s2 ∧ part s2 s ∧ (∀ x, x ∈ recs → reflects s2 s x) ∧
    (∀ y, reflects s1 s y → reflects s2 s y).
Proof.
  intros Hh. revert s1; induction recs as [|x recs IH]; intros s1 Hp Hin; cbn [load_all].
  - exists s1. split_and!; [done|done|by intros x ?%not_elem_of_nil|done].
  - destruct (load_one_part m s s1 x) as (s2 & -> & Hp2 & Hx & Hk2); [done|done|apply Hin; set_solver|].
    destruct (IH s2 Hp2) as (s3 & -> & Hp3 & Hr3 & Hk3); [intros; apply Hin; set_solver|].
    exists s3. split_and!; [done|done| |auto]. intros y [->|Hy]%elem_of_cons; auto.
Qed.

Lemma part_new s : part (Store_new (st_device_id s) (st_codec s)) s.
Proof.
  split; cbn; try done.
  intros r v. by destruct r; cbn; unfold lookup2; rewrite ?lookup_empty.
Qed.

(** Loading the records of a store gives the store back, and marks nothing but what it does not
    know. *)
Lemma load_holds m s recs :
  holds m s → lists recs m →
  ∃ s', Store_load recs (st_codec s) (st_device_id s) = Ok s' ∧ same_contents s' s ∧
    ∀ k, gate_pending (st_gate s') !! k = Write <$> st_unknown s !! k.
Proof.
  intros Hh Hl. destruct (load_all_part m s recs (Store_new (st_device_id s) (st_codec s))) as (s' & Hs' & Hp & Hr & _);
    [done|apply part_new|by intros [k b] Hx; apply Hl|].
  exists s'. split; [exact Hs'|]. pose proof Hp as [Pd Pc Pv Pu Pg Pde].
  assert (Hval : ∀ r, rec_value s' r = rec_value s r).
  { intros r. destruct (rec_value s r) as [v|] eqn:Hv.
    - destruct (h_value _ _ Hh _ _ Hv) as (_ & b & Hm & _). apply Hl in Hm. by apply (proj1 (Hr _ Hm) r v).
    - destruct (rec_value s' r) as [v|] eqn:Hv'; [|done]. apply Pv in Hv'. congruence. }
  assert (Hunk : st_unknown s' = st_unknown s).
  { apply map_eq. intros k. destruct (st_unknown s !! k) as [b|] eqn:Hu.
    - pose proof Hu as Hu'. apply (h_unknown _ _ Hh) in Hu' as [_ Hm]. apply Hl in Hm. by apply (proj2 (Hr _ Hm)).
    - destruct (st_unknown s' !! k) as [b|] eqn:Hu'; [|done]. apply Pu in Hu'. congruence. }
  split; [|intros k; by rewrite Pg, Hunk].
  apply contents_ext; [done..|exact (h_dense _ _ Hh)|done].
Qed.

(** ** Methods keep memory and records in step *)

(** The records on disk once the gate's pending operations are written over [m]. *)
Definition tracks (m : gmap RecordKey string) s : Prop := holds (overlay m (gate_pending (st_gate s))) s.

(** What every saving method does. *)
Definition write s (nonce : Nonce) (r : RecognizedRecord) (v : RecordValue) (p : string) : Store C :=
  let k := rec_key (st_device_id s) r in
  with_gate (put s r v) (mark_dirty (st_gate s) k (seal (st_codec s) nonce k p)).

Lemma tracks_write m s nonce r v p :
  tracks m s → valid_record r → decodes r v p → tracks m (write s nonce r v p).
Proof.
  intros Ht Hr Hd. unfold tracks, write. apply holds_gate. cbn -[overlay]. rewrite overlay_insert.
  apply holds_put; [done|done|]. by exists nonce, p.
Qed.

Lemma tracks_drop m s s' r :
  tracks m s → valid_record r →
  st_device_id s' = st_device_id s → st_codec s' = st_codec s → st_unknown s' = st_unknown s →
  st_gate s' = mark_deleted (st_gate s) (rec_key (st_device_id s) r) → dense s' →
  (∀ r', rec_value s' r' = if decide (r' = r) then None else rec_value s r') → tracks m s'.
Proof.
  intros Ht Hr Fd Fc Fu Fg Hde Hext. unfold tracks. rewrite Fg. cbn -[overlay]. rewrite overlay_insert.
  by eapply holds_drop.
Qed.

(** *** Olm sessions *)

(** The order of use lists exactly the sessions a peer has, at most ten. *)
Definition olm_inv s : Prop := ∀ c,
  let o := default [] (st_olm_session_order s !! c) in
  NoDup o ∧ (length o ≤ MAX_OLM_SESSIONS_PER_DEVICE)%nat ∧
  ∀ i, i ∈ o ↔ is_Some (lookup2 (st_olm_sessions s) c i).

(** The order after a use of [i], and the session that falls out. *)
Definition touch (i : string) (o : list string) : list string * option string :=
  let o := filter (λ j, j ≠ i) o ++ [i] in
  if (MAX_OLM_SESSIONS_PER_DEVICE <? length o)%nat then (tail o, head o) else (o, None).

Definition drop_session s (c i : string) : Store C :=
  match st_olm_sessions s !! c with
  | Some sessions => with_olm_sessions s (<[c := delete i sessions]> (st_olm_sessions s))
  | None => s
  end.

(** The three steps of [save_olm_session]. *)
Lemma save_olm_session_steps s n1 n2 c i b s' :
  save_olm_session s n1 n2 c i b = (s', Ok tt) →
  ∃ p, let '(o, evicted) := touch i (default [] (st_olm_session_order s !! c)) in
    order_to_vec o = Ok p ∧
    let s2 := write (write s n1 (ROlmSession c i) (PBytes b) b) n2 (ROlmSessionOrder c) (POrder o) p in
    s' = match evicted with
         | Some e => store_mark_deleted (drop_session s2 c e) (olm_session_record_key (st_device_id s) c e)
         | None => s2
         end.
Proof.
  unfold save_olm_session, touch. cbn -[write Nat.ltb head tail].
  destruct (_ <? _)%nat.
  - destruct (order_to_vec _) as [p|e] eqn:Hv; cbn -[write head tail]; [|discriminate].
    intros Heq. exists p. split; [done|].
    assert (Hn : ∃ e l, filter (λ id, id ≠ i) (default [] (st_olm_session_order s !! c)) ++ [i] = e :: l)
      by (destruct (filter _ _); cbn; eauto).
    destruct Hn as (e & l & Hn). rewrite Hn in *. cbn [head tail] in *.
    injection Heq as <-. unfold drop_session, write. cbn. rewrite insert_delete_eq.
    by destruct (insert2 c i b (st_olm_sessions s) !! c).
  - destruct (order_to_vec _) as [p|e] eqn:Hv; cbn -[write]; [|discriminate].
    intros [= <-]. exists p. split; [done|]. unfold write. cbn. by rewrite insert_delete_eq.
Qed.

Lemma touch_spec i o o' evicted :
  touch i o = (o', evicted) → NoDup o → (length o ≤ MAX_OLM_SESSIONS_PER_DEVICE)%nat →
  NoDup o' ∧ (length o' ≤ MAX_OLM_SESSIONS_PER_DEVICE)%nat ∧ last o' = Some i ∧
  (∀ j, j ∈ o' ↔ (j = i ∨ j ∈ o) ∧ evicted ≠ Some j) ∧ (∀ j, evicted = Some j → j ≠ i ∧ j ∈ o).
Proof.
  unfold touch, MAX_OLM_SESSIONS_PER_DEVICE. intros Ht Hnd Hle.
  assert (Hnd' : NoDup (filter (λ j, j ≠ i) o ++ [i])).
  { apply NoDup_app. split_and!; [by apply NoDup_filter| |apply NoDup_singleton].
    intros j [? _]%list_elem_of_filter. set_solver. }
  assert (Hlen : (length (filter (λ j, j ≠ i) o) ≤ length o)%nat) by apply length_filter.
  assert (Hin : ∀ j, j ∈ filter (λ j, j ≠ i) o ++ [i] ↔ j = i ∨ j ∈ o).
  { intros j. rewrite elem_of_app, list_elem_of_filter, list_elem_of_singleton. destruct (decide (j = i)); naive_solver. }
  destruct (Nat.ltb_spec 10 (length (filter (λ j, j ≠ i) o ++ [i]))) as [Hgt|Hsmall].
  - destruct (filter (λ j, j ≠ i) o) as [|e l] eqn:Hf; [cbn in Hgt; lia|]. cbn in Ht. injection Ht as <- <-.
    cbn in Hnd', Hlen, Hin. apply NoDup_cons in Hnd' as [He Hnd']. rewrite length_app. cbn.
    assert (e ≠ i) by (intros ->; apply He; set_solver).
    assert (e ∈ o) by (assert (Hin' : e = i ∨ e ∈ o) by (apply Hin; set_solver); naive_solver).
    split_and!; [done|lia|apply last_snoc| |naive_solver].
    intros j. specialize (Hin j). rewrite elem_of_cons in Hin. split.
    + intros Hj. split; [apply Hin; by right|]. intros [= ->]. done.
    + intros [Hj Hne]. apply Hin in Hj as [->|Hj]; [done|done].
  - injection Ht as <- <-. split_and!; [done|lia|apply last_snoc| |naive_solver]. intros j. rewrite Hin. naive_solver.
Qed.

Lemma lookup2_drop s c e a b :
  lookup2 (st_olm_sessions (drop_session s c e)) a b =
  if decide (a = c ∧ b = e) then None else lookup2 (st_olm_sessions s) a b.
Proof.
  unfold drop_session, lookup2. destruct (st_olm_sessions s !! c) as [m|] eqn:Hc; cbn.
  - destruct (decide (a = c)) as [->|Ha].
    + rewrite lookup_insert_eq, Hc. cbn. destruct (decide (b = e)) as [->|]; [by rewrite lookup_delete_eq, decide_True|].
      by rewrite lookup_delete_ne, decide_False by naive_solver.
    + by rewrite lookup_insert_ne, decide_False by naive_solver.
  - case_decide as Hd; [|done]. destruct Hd as [-> _]. by rewrite Hc.
Qed.

(** Memory and the order after a use of session [i] of peer [c]. *)
Lemma olm_inv_save s n1 n2 c i b s' :
  olm_inv s → save_olm_session s n1 n2 c i b = (s', Ok tt) →
  olm_inv s' ∧ last (default [] (st_olm_session_order s' !! c)) = Some i ∧
  lookup2 (st_olm_sessions s') c i = Some b.
Proof.
  intros Hinv Hs. destruct (save_olm_session_steps _ _ _ _ _ _ _ Hs) as (p & Hp).
  destruct (touch i _) as [o evicted] eqn:Ht. destruct Hp as (_ & ->).
  destruct (Hinv c) as (Hnd & Hlen & Hin). destruct (touch_spec _ _ _ _ Ht Hnd Hlen) as (Hnd' & Hlen' & Hlast & Hin' & Hev).
  set (s2 := write _ n2 _ _ p). set (s3 := match evicted with Some e => _ | None => _ end).
  assert (Ho : st_olm_session_order s3 = <[c := o]> (st_olm_session_order s)).
  { unfold s3. destruct evicted; [|done]. cbn. unfold drop_session. by destruct (st_olm_sessions s2 !! c). }
  assert (Hl : ∀ a j, lookup2 (st_olm_sessions s3) a j =
    if decide (a = c ∧ evicted = Some j) then None
    else if decide (a = c ∧ j = i) then Some b else lookup2 (st_olm_sessions s) a j).
  { intros a j. rewrite <- lookup2_insert2. unfold s3. destruct evicted as [e|].
    - cbn. rewrite lookup2_drop. cbn. repeat case_decide; naive_solver.
    - cbn. rewrite decide_False by naive_solver. done. }
  split; [|split].
  - intros a. rewrite Ho. destruct (decide (a = c)) as [->|Ha].
    + rewrite lookup_insert_eq. cbn. split_and!; [done|done|]. intros j. rewrite Hl, Hin', Hin.
      repeat case_decide; [naive_solver|naive_solver|]. split; [naive_solver|].
      intros ?. split; [by right|naive_solver].
    + rewrite lookup_insert_ne by done. destruct (Hinv a) as (? & ? & Hia). split_and!; [done|done|].
      intros j. rewrite Hl, !decide_False by naive_solver. apply Hia.
  - by rewrite Ho, lookup_insert_eq.
  - rewrite Hl, decide_False, decide_True by naive_solver. done.
Qed.

(** A nonempty inner map stays so when another of its entries is deleted. *)
Lemma dense_drop s c e i :
  dense s → i ≠ e → is_Some (lookup2 (st_olm_sessions s) c i) → dense (drop_session s c e).
Proof.
  intros (D1 & D2 & D3) Hne [b Hb]. unfold drop_session, lookup2 in *.
  destruct (st_olm_sessions s !! c) as [m|] eqn:Hc; [|done]. cbn in Hb. repeat split; cbn; try done.
  intros a inner. destruct (decide (a = c)) as [->|]; [|rewrite lookup_insert_ne by done; apply D1].
  rewrite lookup_insert_eq. intros [= <-] Hem. assert (delete e m !! i = Some b) as Hi by (by rewrite lookup_delete_ne).
  by rewrite Hem, lookup_empty in Hi.
Qed.

Lemma rec_value_drop_session s c e r :
  rec_value (drop_session s c e) r = if decide (r = ROlmSession c e) then None else rec_value s r.
Proof.
  destruct r; try (unfold drop_session; by destruct (st_olm_sessions s !! c)).
  cbn. rewrite lookup2_drop. repeat case_decide; naive_solver.
Qed.

Lemma tracks_save_olm m s n1 n2 c i b s' :
  tracks m s → olm_inv s → text c → text i → save_olm_session s n1 n2 c i b = (s', Ok tt) → tracks m s'.
Proof.
  intros Ht Hinv Hc Hi Hs. destruct (save_olm_session_steps _ _ _ _ _ _ _ Hs) as (p & Hp).
  destruct (touch i _) as [o evicted] eqn:Hto. destruct Hp as (Hov & ->).
  destruct (Hinv c) as (Hnd & Hlen & Hin). destruct (touch_spec _ _ _ _ Hto Hnd Hlen) as (_ & _ & _ & _ & Hev).
  assert (Ht2 : tracks m (write (write s n1 (ROlmSession c i) (PBytes b) b) n2 (ROlmSessionOrder c) (POrder o) p)).
  { apply tracks_write; [|done|cbn; by apply order_roundtrip]. by apply tracks_write. }
  destruct evicted as [e|]; [|done]. destruct (Hev e eq_refl) as [Hne Heo].
  set (s2 := write _ n2 _ _ p) in *.
  assert (Hve : valid_record (ROlmSession c e)).
  { apply Hin in Heo as [x Hx]. apply (h_value _ _ Ht (ROlmSession c e) (PBytes x)). cbn. by rewrite Hx. }
  assert (Hf : st_device_id (drop_session s2 c e) = st_device_id s2 ∧ st_codec (drop_session s2 c e) = st_codec s2 ∧
    st_unknown (drop_session s2 c e) = st_unknown s2 ∧ st_gate (drop_session s2 c e) = st_gate s2)
    by (unfold drop_session; by destruct (st_olm_sessions s2 !! c)).
  destruct Hf as (Fd & Fc & Fu & Fg).
  eapply (tracks_drop m s2 _ (ROlmSession c e)); [done|done|done|done|done|cbn; by rewrite Fg| |].
  - change (dense (drop_session s2 c e)). eapply (dense_drop _ _ _ i); [exact (h_dense _ _ Ht2)|done|].
    cbn. rewrite lookup2_insert2, decide_True by done. eauto.
  - apply rec_value_drop_session.
Qed.

(** ** The store, the batches on their way, and the disk *)

Inductive StoreCommand :=
| CSaveAccount (nonce : Nonce) (account : string)
| CSaveOlmSession (nonce1 nonce2 : Nonce) (their_curve25519 session_id session : string)
| CSaveInbound (nonce : Nonce) (room_id : RoomId) (session_id session : string)
| CSaveOutbound (nonce : Nonce) (room_id : RoomId) (session : string)
| CSaveDevices (nonce : Nonce) (user_id : UserId) (devices : string)
| CMarkTracked (nonce : Nonce) (user_id : UserId) (outdated : bool)
| CSaveWithheld (nonce : Nonce) (room_id : RoomId) (session_id code : string)
| CSaveBackupKey (nonce : Nonce) (key : string)
| CSaveCrossSigning (nonce : Nonce) (keys : string)
| CSaveSyncToken (nonce : Nonce) (token : string)
| CSaveRoomState (nonce : Nonce) (room_id : RoomId) (state : string)
| CSavePending (nonce : Nonce) (req : PendingRequest)
| CDeletePending (request_id : RequestId)
| CSaveCounters (nonce : Nonce) (c : Counters).

Definition run_command s (c : StoreCommand) : Store C * result unit StoreError :=
  match c with
  | CSaveAccount n a => save_account s n a
  | CSaveOlmSession n1 n2 c i b => save_olm_session s n1 n2 c i b
  | CSaveInbound n room i b => save_inbound_group_session s n room i b
  | CSaveOutbound n room b => save_outbound_group_session s n room b
  | CSaveDevices n u b => save_devices s n u b
  | CMarkTracked n u outdated => mark_user_tracked s n u outdated
  | CSaveWithheld n room i b => save_withheld s n room i b
  | CSaveBackupKey n b => save_backup_key s n b
  | CSaveCrossSigning n b => save_cross_signing_keys s n b
  | CSaveSyncToken n t => save_sync_token s n t
  | CSaveRoomState n room b => save_room_state s n room b
  | CSavePending n req => store_save_pending_request s n req
  | CDeletePending i => store_delete_pending_request s i
  | CSaveCounters n c => save_counters s n c
  end.

(** Arguments are Rust strings, ids passed their constructor, and the JSON of a saved request
    reads back as that request. *)
Definition valid_command (c : StoreCommand) : Prop :=
  match c with
  | CSaveOlmSession _ _ c i _ => text c ∧ text i
  | CSaveInbound _ room i _ | CSaveWithheld _ room i _ => valid_room room ∧ text i
  | CSaveOutbound _ room _ | CSaveRoomState _ room _ => valid_room room
  | CSaveDevices _ u _ | CMarkTracked _ u _ => valid_user u
  | CSaveSyncToken _ t => text t
  | CSavePending _ req => text (RequestId_str (id (request req))) ∧
      ∀ p, pending_to_vec req = Ok p → pending_from_slice p = Ok req
  | _ => True
  end.

(** The memory, the batches handed out but not yet written (each with the store as it was when
    the batch was taken), the records on disk, and the store as it was at the last written batch. *)
Record Machine := mkMachine {
  mc_store : Store C;
  mc_queue : list (FlushBatch * Store C);
  mc_disk : gmap RecordKey string;
  mc_saved : Store C }.

Definition Machine_new (d : DeviceId) (c : C) : Machine :=
  mkMachine (Store_new d c) [] ∅ (Store_new d c).

Inductive machine_step (d : DeviceId) (codec : C) : Machine → Machine → Prop :=
| step_command s q m saved c s' :
    valid_command c → run_command s c = (s', Ok tt) →
    machine_step d codec (mkMachine s q m saved) (mkMachine s' q m saved)
| step_take s q m saved s' b :
    take_flush_batch s = (s', Some b) →
    machine_step d codec (mkMachine s q m saved) (mkMachine s' (q ++ [(b, s')]) m saved)
| step_seal_for_request s q m saved s' r b :
    seal_for_request s = (s', (r, Some b)) →
    machine_step d codec (mkMachine s q m saved) (mkMachine s' (q ++ [(b, s')]) m saved)
| step_write_batch s b snap q m saved :
    machine_step d codec (mkMachine s ((b, snap) :: q) m saved) (mkMachine s q (apply_batch m b) snap)
| step_ack_flush s q m saved i :
    machine_step d codec (mkMachine s q m saved) (mkMachine (ack_flush s i) q m saved)
| step_crash s q m saved recs s' :
    lists recs m → Store_load recs codec d = Ok s' →
    machine_step d codec (mkMachine s q m saved) (mkMachine s' [] m s').

(** Each queued batch turns the disk before it into one that holds its snapshot. *)
Fixpoint queue_ok (d : DeviceId) (codec : C) (m : gmap RecordKey string) (q : list (FlushBatch * Store C)) : Prop :=
  match q with
  | [] => True
  | (b, snap) :: q =>
      let m := apply_batch m b in
      holds m snap ∧ olm_inv snap ∧ st_device_id snap = d ∧ st_codec snap = codec ∧ queue_ok d codec m q
  end.

Definition disk_after (m : gmap RecordKey string) (q : list (FlushBatch * Store C)) : gmap RecordKey string :=
  apply_batches m q.*1.
Arguments disk_after : simpl never.

Record machine_inv (d : DeviceId) (codec : C) (x : Machine) : Prop := {
  mi_saved : holds (mc_disk x) (mc_saved x) ∧ olm_inv (mc_saved x) ∧
    st_device_id (mc_saved x) = d ∧ st_codec (mc_saved x) = codec;
  mi_queue : queue_ok d codec (mc_disk x) (mc_queue x);
  mi_store : tracks (disk_after (mc_disk x) (mc_queue x)) (mc_store x) ∧ olm_inv (mc_store x) ∧
    st_device_id (mc_store x) = d ∧ st_codec (mc_store x) = codec
}.

Lemma queue_ok_snoc d codec m q b snap :
  queue_ok d codec m q → holds (apply_batch (disk_after m q) b) snap → olm_inv snap →
  st_device_id snap = d → st_codec snap = codec → queue_ok d codec m (q ++ [(b, snap)]).
Proof.
  revert m; induction q as [|[b' snap'] q IH]; intros m; cbn; [naive_solver|].
  intros (? & ? & ? & ? & Hq) Hh Ho Hd Hc. split_and!; try done. by apply IH.
Qed.

Lemma disk_after_snoc m q b snap : disk_after m (q ++ [(b, snap)]) = apply_batch (disk_after m q) b.
Proof. unfold disk_after. rewrite fmap_app, apply_batches_app. done. Qed.

(** Each command is a write, a use of an Olm session, or a completed request. *)
Lemma command_shape s c s' :
  run_command s c = (s', Ok tt) → valid_command c →
  (∃ nonce r v p, s' = write s nonce r v p ∧ valid_record r ∧ decodes r v p ∧
     st_olm_sessions s' = st_olm_sessions s ∧ st_olm_session_order s' = st_olm_session_order s) ∨
  (∃ n1 n2 c i b, save_olm_session s n1 n2 c i b = (s', Ok tt) ∧ text c ∧ text i) ∨
  (∃ i, store_delete_pending_request s i = (s', Ok tt)).
Proof.
  destruct c; cbn [run_command valid_command]; intros Hr Hv.
  1,3-11: left; injection Hr as <-.
  - by exists nonce, RAccount, (PBytes account), account.
  - by exists nonce, (RInboundGroupSession room_id session_id), (PBytes session), session.
  - by exists nonce, (ROutboundGroupSession room_id), (PBytes session), session.
  - by exists nonce, (RDevices user_id), (PBytes devices), devices.
  - by exists nonce, (RTrackedUser user_id), (PFlag outdated), (bool_byte outdated).
  - by exists nonce, (RWithheld room_id session_id), (PBytes code), code.
  - by exists nonce, RBackupKey, (PBytes key), key.
  - by exists nonce, RCrossSigningKeys, (PBytes keys), keys.
  - by exists nonce, RSyncToken, (PBytes token), token.
  - by exists nonce, (RRoomState room_id), (PBytes state), state.
  - right; left. naive_solver.
  - left. unfold store_save_pending_request in Hr. destruct Hv as [Hi Hp].
    destruct (pending_to_vec req) as [p|] eqn:Hto; [|discriminate]. injection Hr as <-.
    exists nonce, (RPendingRequest (id (request req))), (PPending req), p. split_and!; try done. cbn. auto.
  - right; right. eauto.
  - left. unfold save_counters in Hr. destruct (counters_to_vec c) as [p|] eqn:Hto; [|discriminate]. injection Hr as <-.
    exists nonce, RCounters, (PCounters c), p. split_and!; try done. cbn. by apply counters_roundtrip.
Qed.

Lemma tracks_delete_pending m s i s' :
  tracks m s → store_delete_pending_request s i = (s', Ok tt) →
  tracks m s' ∧ st_olm_sessions s' = st_olm_sessions s ∧ st_olm_session_order s' = st_olm_session_order s ∧
  st_device_id s' = st_device_id s ∧ st_codec s' = st_codec s.
Proof.
  intros Ht. unfold store_delete_pending_request. destruct (st_pending s !! i) as [req|] eqn:Hp; [|by intros [= <-]].
  intros [= <-]. split; [|done].
  assert (Hv : valid_record (RPendingRequest i)).
  { apply (h_value _ _ Ht _ (PPending req)). cbn. by rewrite Hp. }
  eapply (tracks_drop m s _ (RPendingRequest i)); try done; [apply (h_dense _ _ Ht)|].
  intros r'. case_decide as Hr; [subst; cbn; by rewrite lookup_delete_eq|].
  destruct r'; try done. cbn. rewrite lookup_delete_ne; [done|]. congruence.
Qed.

Lemma write_frame s nonce r v p :
  st_device_id (write s nonce r v p) = st_device_id s ∧ st_codec (write s nonce r v p) = st_codec s.
Proof. by destruct r, v. Qed.

Lemma save_olm_frame s n1 n2 c i b s' :
  save_olm_session s n1 n2 c i b = (s', Ok tt) → st_device_id s' = st_device_id s ∧ st_codec s' = st_codec s.
Proof.
  intros Hs. destruct (save_olm_session_steps _ _ _ _ _ _ _ Hs) as (p & Hp).
  destruct (touch i _) as [o [e|]]; destruct Hp as (_ & ->); [|done].
  cbn. unfold drop_session. by case_match.
Qed.

Lemma olm_inv_ext s s' :
  st_olm_sessions s' = st_olm_sessions s → st_olm_session_order s' = st_olm_session_order s → olm_inv s → olm_inv s'.
Proof. unfold olm_inv. by intros -> ->. Qed.

Lemma command_inv m s c s' :
  tracks m s → olm_inv s → run_command s c = (s', Ok tt) → valid_command c →
  tracks m s' ∧ olm_inv s' ∧ st_device_id s' = st_device_id s ∧ st_codec s' = st_codec s.
Proof.
  intros Ht Ho Hr Hv.
  destruct (command_shape _ _ _ Hr Hv) as
    [(nonce & r & v & p & -> & Hvr & Hd & E1 & E2)|[(n1 & n2 & c' & i & b & Hs & Hc & Hi)|(i & Hs)]].
  - destruct (write_frame s nonce r v p). split_and!; [by apply tracks_write|by eapply olm_inv_ext|done|done].
  - destruct (save_olm_frame _ _ _ _ _ _ _ Hs). destruct (olm_inv_save _ _ _ _ _ _ _ Ho Hs) as (? & _).
    split_and!; [exact (tracks_save_olm _ _ _ _ _ _ _ _ Ht Ho Hc Hi Hs)|done..].
  - destruct (tracks_delete_pending _ _ _ _ Ht Hs) as (? & E1 & E2 & ? & ?).
    split_and!; [done|by eapply olm_inv_ext|done|done].
Qed.

(** Handing out a batch. *)
Lemma take_inv d codec s q m saved s' b :
  machine_inv d codec (mkMachine s q m saved) → take_flush_batch s = (s', Some b) →
  machine_inv d codec (mkMachine s' (q ++ [(b, s')]) m saved).
Proof.
  intros [Hs Hq (Ht & Ho & Hd & Hc)] Htake. cbn in *. unfold take_flush_batch in Htake.
  destruct (take_batch_cases (st_gate s)) as [[_ Ht']|(b' & _ & Ht' & _ & Happ)]; rewrite Ht' in Htake; [discriminate|].
  injection Htake as <- <-.
  assert (Hh : holds (apply_batch (disk_after m q) b') s) by (rewrite Happ; exact Ht).
  split; cbn; [done| |].
  - apply queue_ok_snoc; try done. by apply holds_gate.
  - rewrite disk_after_snoc. split_and!; try done. unfold tracks. cbn -[overlay]. rewrite overlay_empty. by apply holds_gate.
Qed.

Lemma seal_takes s s' r b : seal_for_request s = (s', (r, Some b)) → take_flush_batch s = (s', Some b).
Proof.
  cbn. unfold gate_seal_for_request, take_flush_batch. case_decide; [intros; simplify_eq/=|].
  destruct (take_batch (st_gate s)) as [g ob]. intros [= <- _ ->]. done.
Qed.

(** After a load nothing is pending but what the store did not know, which the disk has. *)
Lemma loaded_tracks m s s' :
  holds m s → same_contents s' s → (∀ k, gate_pending (st_gate s') !! k = Write <$> st_unknown s !! k) →
  holds m s' ∧ tracks m s'.
Proof.
  intros Hh Hsame Hg. assert (Hh' : holds m s') by (rewrite Hsame; by apply holds_gate).
  split; [done|]. unfold tracks.
  assert (overlay m (gate_pending (st_gate s')) = m) as ->; [|done].
  apply map_eq. intros k. rewrite lookup_overlay, Hg. destruct (st_unknown s !! k) as [b|] eqn:Hu; [|done].
  cbn. by apply (h_unknown _ _ Hh) in Hu as [_ ->].
Qed.

Lemma machine_step_inv d codec x y : machine_inv d codec x → machine_step d codec x y → machine_inv d codec y.
Proof.
  intros Hinv Hstep.
  destruct Hstep as [s q m saved c s' Hv Hr|s q m saved s' b Ht|s q m saved s' r b Hs|s b snap q m saved|s q m saved i|s q m saved recs s' Hl Hload].
  - destruct Hinv as [Hs Hq (Ht & Ho & Hd & Hc)]. cbn in *.
    destruct (command_inv _ _ _ _ Ht Ho Hr Hv) as (? & ? & ? & ?). split; cbn; [done|done|]. split_and!; try done; congruence.
  - by eapply take_inv.
  - eapply take_inv; [done|]. by eapply seal_takes.
  - destruct Hinv as [Hs (Hh & Ho & Hd & Hc & Hq) Ht]. cbn in *. split; cbn; [by split_and!|done|exact Ht].
  - destruct Hinv as [Hs Hq (Ht & Ho & Hd & Hc)]. cbn in *. split; cbn; [done|done|]. split_and!; try done.
    unfold tracks, ack_flush. by apply holds_gate.
  - destruct Hinv as [(Hh & Ho & Hd & Hc) _ _]. cbn in *. subst d codec.
    destruct (load_holds _ _ _ Hh Hl) as (s2 & Hl2 & Hsame & Hg). rewrite Hl2 in Hload. injection Hload as ->.
    destruct (loaded_tracks _ _ _ Hh Hsame Hg) as [Hh' Ht'].
    assert (olm_inv s' ∧ st_device_id s' = st_device_id saved ∧ st_codec s' = st_codec saved) as (? & ? & ?)
      by (rewrite Hsame; by split_and!).
    split; cbn; [by split_and!|done|by split_and!].
Qed.

Lemma machine_inv_new d codec : machine_inv d codec (Machine_new d codec).
Proof.
  assert (Ho : olm_inv (Store_new d codec)).
  { intros c. cbn. unfold lookup2. rewrite !lookup_empty. cbn. split_and!; [constructor|lia|].
    intros i. split; [set_solver|by intros [? ?]]. }
  split; cbn; [split_and!; try done; apply holds_new|done|split_and!; try done].
  unfold tracks. cbn -[overlay]. rewrite overlay_empty. apply holds_new.
Qed.

Lemma machine_reach_inv d codec x : rtc (machine_step d codec) (Machine_new d codec) x → machine_inv d codec x.
Proof.
  intros Hr. pose proof (machine_inv_new d codec) as Hi. revert Hi.
  induction Hr; eauto using machine_step_inv.
Qed.

(** ** Theorems *)

(** C7: crash recovery: whatever the messenger saved and deleted under ids that their own parsers
    accept, with requests that their JSON gives back, however its batches were taken, written and acknowledged, and however often it crashed
    before, loading the records that are on disk, in any order, succeeds and gives every field of
    the store as it was when the last batch that reached the disk was taken; only unrecognised
    records are marked for the next batch. An id that does not parse is excluded: saved once, it
    blocks the next load ([unparsable_room_id_blocks_load]). *)
Theorem crash_recovers_last_written d codec x recs :
  rtc (machine_step d codec) (Machine_new d codec) x → lists recs (mc_disk x) →
  ∃ s', Store_load recs codec d = Ok s' ∧ same_contents s' (mc_saved x) ∧
    ∀ k, gate_pending (st_gate s') !! k = Write <$> st_unknown (mc_saved x) !! k.
Proof.
  intros Hr Hl. destruct (machine_reach_inv _ _ _ Hr) as [(Hh & _ & <- & <-) _ _].
  by eapply load_holds.
Qed.

(** The Olm sessions of a peer: in every reachable store a save puts its session first in what
    [olm_sessions_for_device] answers, with the saved bytes, and the answer holds every stored
    session of the peer exactly once and never more than ten. *)
Theorem olm_sessions_are_bounded d codec x n1 n2 c i b s' :
  rtc (machine_step d codec) (Machine_new d codec) x →
  save_olm_session (mc_store x) n1 n2 c i b = (s', Ok tt) →
  ∃ rest sessions, olm_sessions_for_device s' c = Ok (b :: rest) ∧ (length (b :: rest) ≤ 10)%nat ∧
    st_olm_sessions s' !! c = Some sessions ∧ sessions !! i = Some b ∧
    b :: rest ≡ₚ (map_to_list sessions).*2.
Proof.
  intros Hr Hs. destruct (machine_reach_inv _ _ _ Hr) as [_ _ (_ & Ho & _ & _)].
  destruct (olm_inv_save _ _ _ _ _ _ _ Ho Hs) as (Ho' & Hlast & Hb).
  destruct (Ho' c) as (Hnd & Hlen & Hin). cbn zeta in *. unfold lookup2 in *.
  destruct (st_olm_session_order s' !! c) as [o|] eqn:Hord; cbn in *; [|discriminate].
  destruct (st_olm_sessions s' !! c) as [sessions|] eqn:Hsess; cbn in *; [|discriminate].
  apply last_Some in Hlast as [l ->]. unfold olm_sessions_for_device. rewrite Hsess, Hord, rev_unit. cbn. rewrite Hb.
  exists (omap (λ j, sessions !! j) (rev l)), sessions.
  assert (Hperm : b :: omap (λ j, sessions !! j) (rev l) ≡ₚ (map_to_list sessions).*2).
  { rewrite <- (omap_lookup_perm sessions (l ++ [i])) by done. rewrite omap_app. cbn. rewrite Hb.
    rewrite <- Permutation_cons_append. by rewrite <- Permutation_rev. }
  split_and!; try done. cbn. pose proof (length_omap_le (λ j, sessions !! j) (rev l)).
  rewrite length_rev, length_app in *. unfold MAX_OLM_SESSIONS_PER_DEVICE in Hlen. cbn in Hlen. lia.
Qed.

End Recovery.

(** ** An id the constructor would refuse *)

Section Unparsable.
Context `{SerdeJson, !RecordJson} {C : Type} `{RecordCodec C}.

(** Room ids of a sync response are not parsed when they are deserialised. The record written for
    one without a server name makes every later load fail, whatever else is on disk. *)
Lemma unparsable_room_id_blocks_load (s : Store C) room bytes recs e :
  text (RoomId_str room) → RoomId_parse (RoomId_str room) = Err e →
  Store_load (mkSealedRecord (room_state_record_key (st_device_id s) room) bytes :: recs) (st_codec s) (st_device_id s) =
  Err (UnknownRecordLayout (room_state_record_key (st_device_id s) room)).
Proof.
  intros Ht He. unfold Store_load. cbn [load_all]. unfold load_one. cbn [st_device_id Store_new sr_key].
  unfold room_state_record_key, key1. parse_key. unfold decode_room_id.
  rewrite percent_roundtrip by done. cbn. by rewrite He.
Qed.

(** A key with a part too many after a kind that takes none is kept as an unknown record, not
    refused as malformed. *)
Lemma overlong_account_key_is_unknown d x :
  parse_record_key d (mkRecordKey (key_prefix d +:+ KIND_ACCOUNT +:+ "/" +:+ x)) = Ok None.
Proof. parse_key. done. Qed.

End Unparsable.

(** ** Concrete inputs *)

Module StoreWitnesses.
Import SealedWitnesses.

#[export] Instance no_json : SerdeJson := {|
  Value := Empty_set; from_slice _ := None; json_get _ _ := None; as_u64 _ := None; as_str _ := None
|}.

(** Session orders as percent-encoded segments, each closed by a slash. *)
Fixpoint write_order (o : list string) : string :=
  match o with [] => EmptyString | i :: o => percent_encode_segment i +:+ String "/" (write_order o) end.

Fixpoint read_order (fuel : nat) (s : string) : option (list string) :=
  match fuel with
  | O => None
  | S fuel =>
      if s_is_empty s then Some []
      else '(i, rest) ← split_once "/" s; i ← percent_decode_bytes i; o ← read_order fuel rest; Some (i :: o)
  end.

Lemma read_write_order o fuel : (length o < fuel)%nat → read_order fuel (write_order o) = Some o.
Proof.
  revert fuel; induction o as [|i o IH]; intros [|fuel] Hf; cbn in Hf; try lia; [done|].
  cbn [write_order read_order]. rewrite split_once_encoded.
  assert (s_is_empty (percent_encode_segment i +:+ String "/" (write_order o)) = false) as ->.
  { destruct (percent_encode_segment i); done. }
  cbn. rewrite percent_decode_encode_bytes. cbn. rewrite IH by lia. done.
Qed.

Lemma length_write_order o : (length o ≤ String.length (write_order o))%nat.
Proof.
  induction o as [|i o IH]; cbn; [lia|]. pose proof (slen_app (percent_encode_segment i) (String "/" (write_order o))) as Hl.
  unfold slen in Hl. cbn [String.length] in Hl. lia.
Qed.

#[export] Instance toy_records : RecordJson := {|
  order_to_vec o := Ok (write_order o);
  order_from_slice b := ok_or (read_order (S (String.length b)) b) "bad order";
  pending_to_vec _ := Err "no requests";
  pending_from_slice _ := Err "no requests";
  counters_to_vec c :=
    if bool_decide (0 ≤ next_request_id c < u64_mod ∧ 0 ≤ next_txn_id c < u64_mod)
    then Ok (to_le_bytes 8 (next_request_id c) +:+ to_le_bytes 8 (next_txn_id c)) else Err "out of range";
  counters_from_slice b := Ok (mkCounters (from_le_bytes (s_take 8 b)) (from_le_bytes (s_drop 8 b)))
|}.

#[export] Instance toy_records_laws : RecordJsonLaws.
Proof.
  constructor.
  - intros o b [= <-]. cbn -[read_order]. rewrite read_write_order; [done|]. pose proof (length_write_order o). lia.
  - intros [a b'] b Heq. unfold counters_to_vec, toy_records in Heq. cbn [next_request_id next_txn_id] in Heq.
    case_bool_decide as Hr; [|discriminate].
    assert (b = to_le_bytes 8 a +:+ to_le_bytes 8 b') as -> by congruence. clear Heq.
    unfold counters_from_slice, toy_records.
    assert (H8 : ∀ n, String.length (to_le_bytes 8 n) = 8%nat) by (intros n; pose proof (length_to_le_bytes 8 n); unfold slen in *; lia).
    assert (Ht : ∀ x y, String.length x = 8%nat → s_take 8 (x +:+ y) = x ∧ s_drop 8 (x +:+ y) = y)
      by (intros x y <-; split; [apply s_take_app|apply s_drop_app]).
    destruct (Ht (to_le_bytes 8 a) (to_le_bytes 8 b') (H8 a)) as [-> ->].
    rewrite !from_to_le_bytes by (change (256 ^ Z.of_nat 8) with u64_mod; tauto). done.
Qed.

Definition dev : DeviceId := mkDeviceId "dev".
Definition s0 : Store SealedRecordCodec := Store_new dev codec0.
Definition s1 : Store SealedRecordCodec := (save_account s0 nonce0 "pickle").1.
Definition s2 : Store SealedRecordCodec := (save_olm_session s1 nonce0 nonce0 "curve/1" "s1" "ratchet").1.
Definition taken : Store SealedRecordCodec * option FlushBatch := take_flush_batch s2.
Definition batch : FlushBatch := default (mkFlushBatch 0 [] []) taken.2.
Definition s3 : Store SealedRecordCodec := (save_account taken.1 nonce0 "never written").1.

(** An account and a session are saved and written; a second account never reaches the disk. *)
Definition crashed : Machine := mkMachine s3 [] (apply_batch ∅ batch) taken.1.

Lemma crashed_reachable : rtc (machine_step dev codec0) (Machine_new dev codec0) crashed.
Proof.
  eapply rtc_l; [apply (step_command _ _ s0 [] ∅ s0 (CSaveAccount nonce0 "pickle") s1); [done|reflexivity]|].
  eapply rtc_l; [apply (step_command _ _ s1 [] ∅ s0 (CSaveOlmSession nonce0 nonce0 "curve/1" "s1" "ratchet") s2);
    [by vm_compute|vm_compute; reflexivity]|].
  eapply rtc_l; [apply (step_take _ _ s2 [] ∅ s0 taken.1 batch); vm_compute; reflexivity|].
  eapply rtc_l; [apply (step_write_batch _ _ taken.1 batch taken.1 [] ∅ s0)|].
  eapply rtc_l; [apply (step_command _ _ taken.1 [] (apply_batch ∅ batch) taken.1 (CSaveAccount nonce0 "never written") s3);
    [done|reflexivity]|].
  apply rtc_refl.
Qed.

Lemma crash_recovers_last_written_witness :
  ∃ s', Store_load (records_of (mc_disk crashed)) codec0 dev = Ok s' ∧ account s' = Ok (Some "pickle") ∧
    olm_sessions_for_device s' "curve/1" = Ok ["ratchet"].
Proof.
  destruct (crash_recovers_last_written dev codec0 crashed (records_of (mc_disk crashed))) as (s' & Hl & Hsame & _).
  - exact crashed_reachable.
  - apply records_of_lists.
  - exists s'. split; [exact Hl|]. rewrite Hsame. split; vm_compute; reflexivity.
Defined.

Lemma olm_sessions_are_bounded_witness :
  ∃ rest (sessions : gmap string string) s', save_olm_session s3 nonce0 nonce0 "curve/1" "s2" "newer" = (s', Ok tt) ∧
    olm_sessions_for_device s' "curve/1" = Ok ("newer" :: rest) ∧ sessions !! "s2" = Some "newer" ∧
    "newer" :: rest ≡ₚ (map_to_list sessions).*2.
Proof.
  destruct (olm_sessions_are_bounded dev codec0 crashed nonce0 nonce0 "curve/1" "s2" "newer"
    (save_olm_session s3 nonce0 nonce0 "curve/1" "s2" "newer").1) as (rest & sessions & H1 & _ & _ & H2 & H3).
  - exact crashed_reachable.
  - vm_compute. reflexivity.
  - eexists rest, sessions, _. split; [|exact (conj H1 (conj H2 H3))]. vm_compute. reflexivity.
Defined.

End StoreWitnesses.
