(* ===== verification/Json.v ===== *)
(** * JSON values

    [serde_json::Value] as the messenger reads and builds it. A number is an unsigned or a negative
    integer or a floating-point literal; an object is a [BTreeMap], here the list of its members in
    key order. [wf_value] says what every [Value] satisfies: integers fit their type and members
    are strictly ordered by key. *)

From S2P Require Import Prelude.

Local Open Scope Z_scope.

#[export] Set Warnings "-register-all".

Inductive Number :=
| PosInt (n : Z)
| NegInt (n : Z)
| Float (literal : string).

Inductive Value :=
| VNull
| VBool (b : bool)
| VNumber (n : Number)
| VString (s : string)
| VArray (items : list Value)
| VObject (members : list (string * Value)).

Definition Map := list (string * Value).

(** Induction that reaches the elements of arrays and objects. *)
Lemma Value_ind' (P : Value → Prop) :
  P VNull → (∀ b, P (VBool b)) → (∀ n, P (VNumber n)) → (∀ s, P (VString s)) →
  (∀ items, Forall P items → P (VArray items)) →
  (∀ m, Forall (λ kv, P kv.2) m → P (VObject m)) →
  ∀ v, P v.
Proof.
  intros H1 H2 H3 H4 H5 H6. fix IH 1. intros [|b|n|s|items|m]; [exact H1|apply H2|apply H3|apply H4|apply H5|apply H6].
  - induction items; constructor; auto.
  - induction m as [|[k v] m IHm]; constructor; cbn; auto.
Qed.

(** ** [Number] *)

Definition as_i64 (n : Number) : option Z :=
  match n with
  | PosInt n => if n <=? i64_max then Some n else None
  | NegInt n => Some n
  | Float _ => None
  end.

Definition as_u64 (n : Number) : option Z :=
  match n with PosInt n => Some n | _ => None end.

(** [n.to_string()] *)
Definition Number_to_string (n : Number) : string :=
  match n with PosInt n | NegInt n => pretty n | Float l => l end.

(** ** [Map<String, Value>] *)

Definition map_get (m : Map) (k : string) : option Value :=
  snd <$> List.find (λ kv, bool_decide (kv.1 = k)) m.

Fixpoint map_insert (k : string) (v : Value) (m : Map) : Map :=
  match m with
  | [] => [(k, v)]
  | (k', v') :: m' =>
      if decide (k = k') then (k, v) :: m'
      else if decide (String.le k k') then (k, v) :: m
      else (k', v') :: map_insert k v m'
  end.

Definition map_remove (k : string) (m : Map) : Map := filter (λ kv, kv.1 ≠ k) m.

(** [value.get(key)] *)
Definition get (v : Value) (k : string) : option Value :=
  match v with VObject m => map_get m k | _ => None end.

Definition as_object (v : Value) : option Map := match v with VObject m => Some m | _ => None end.
Definition as_str (v : Value) : option string := match v with VString s => Some s | _ => None end.
Definition as_array (v : Value) : option (list Value) := match v with VArray l => Some l | _ => None end.
Definition as_bool (v : Value) : option bool := match v with VBool b => Some b | _ => None end.
Definition is_object (v : Value) : bool := is_some (as_object v).

(** ** Well-formed values *)

Definition wf_number (n : Number) : Prop :=
  match n with PosInt n => 0 ≤ n < u64_mod | NegInt n => i64_min ≤ n < 0 | Float _ => True end.

(** Strictly increasing keys. *)
Definition keys_sorted (m : Map) : Prop := StronglySorted (λ a b, String.le a.1 b.1 ∧ a.1 ≠ b.1) m.

Inductive wf_value : Value → Prop :=
| wf_null : wf_value VNull
| wf_bool b : wf_value (VBool b)
| wf_num n : wf_number n → wf_value (VNumber n)
| wf_string s : wf_value (VString s)
| wf_array items : Forall wf_value items → wf_value (VArray items)
| wf_object m : keys_sorted m → Forall (λ kv, wf_value kv.2) m → wf_value (VObject m).

(** ** Lemmas *)

Lemma map_get_insert_eq k v m : map_get (map_insert k v m) k = Some v.
Proof.
  unfold map_get. induction m as [|[k' v'] m IH]; cbn; [by rewrite bool_decide_true|].
  case_decide; [cbn; by rewrite bool_decide_true|].
  case_decide; cbn; [by rewrite bool_decide_true|by rewrite bool_decide_false].
Qed.

Lemma map_get_insert_ne k k' v m : k ≠ k' → map_get (map_insert k v m) k' = map_get m k'.
Proof.
  intros Hne. unfold map_get. induction m as [|[k1 v1] m IH]; cbn; [by rewrite bool_decide_false|].
  case_decide; [subst; cbn; by rewrite bool_decide_false|].
  case_decide; cbn; [by rewrite (bool_decide_false (k = k'))|]. by case_bool_decide.
Qed.

Lemma map_get_remove_ne k k' m : k ≠ k' → map_get (map_remove k m) k' = map_get m k'.
Proof.
  intros Hne. unfold map_get, map_remove. induction m as [|[k1 v1] m IH]; cbn; [done|].
  case_decide as Hk; cbn; [by case_bool_decide|].
  subst. by rewrite bool_decide_false.
Qed.

(** What is inserted and then removed leaves no trace. *)
Lemma map_remove_insert k v m : map_remove k (map_insert k v m) = map_remove k m.
Proof.
  unfold map_remove. induction m as [|[k' v'] m IH]; cbn.
  { by rewrite decide_False by naive_solver. }
  destruct (decide (k = k')) as [->|Hne]; [cbn; by rewrite !decide_False by naive_solver|].
  case_decide; cbn.
  - rewrite decide_False by naive_solver. done.
  - rewrite !decide_True by naive_solver. by f_equal.
Qed.

Lemma map_remove_cons k k1 v1 m :
  map_remove k ((k1, v1) :: m) = if decide (k1 = k) then map_remove k m else (k1, v1) :: map_remove k m.
Proof. unfold map_remove. cbn. destruct (decide (k1 = k)); [by rewrite decide_False by naive_solver|by rewrite decide_True]. Qed.

Lemma map_remove_comm k k' m : map_remove k (map_remove k' m) = map_remove k' (map_remove k m).
Proof.
  induction m as [|[k1 v1] m IH]; [done|]. rewrite !map_remove_cons.
  repeat case_decide; rewrite ?map_remove_cons; repeat case_decide; congruence.
Qed.

Lemma map_remove_idemp k m : map_remove k (map_remove k m) = map_remove k m.
Proof.
  induction m as [|[k1 v1] m IH]; [done|]. rewrite !map_remove_cons.
  case_decide; [done|]. rewrite map_remove_cons. case_decide; congruence.
Qed.

Lemma map_get_Some_in m k v : map_get m k = Some v → (k, v) ∈ m.
Proof.
  unfold map_get. destruct (List.find _ m) as [[k' v']|] eqn:Hf; cbn; [|discriminate]. intros [= ->].
  apply List.find_some in Hf as [Hin Hk]. apply bool_decide_eq_true in Hk. cbn in Hk. subst.
  by apply list_elem_of_In.
Qed.
