(* ===== verification/CanonicalJson.v ===== *)
(** * Canonical JSON and signed objects (crates/mail4agent-messenger/src/canonical_json.rs)

    The canonical text of a value, and signing and verifying objects over it. A writer that appends
    to [out] is the text it appends; a function that changes its [&mut] argument returns it, also
    with an error. Strings are UTF-8 bytes: the characters that are escaped are single bytes, all
    others are copied. The Ed25519 operations of the cryptographic crate are the class [Ed25519]. *)

From Stdlib Require Import Ascii.
From S2P Require Import Prelude Json.

Local Open Scope Z_scope.

Definition MAX_SAFE_INTEGER : Z := 9007199254740991.

(** [SignatureError] is a text here. *)
Inductive CanonicalJsonError :=
| NotAnObject
| FloatNotAllowed
| IntegerOutOfRange (n : Z)
| MissingSignature (user_id key_id : string)
| SignatureFailed (reason : string).

Definition write_number (n : Number) : result string CanonicalJsonError :=
  let? i := match as_i64 n, as_u64 n with
            | Some i, _ => Ok i
            | None, Some u => Ok u
            | None, None => Err FloatNotAllowed
            end in
  if negb ((- MAX_SAFE_INTEGER <=? i) && (i <=? MAX_SAFE_INTEGER)) then Err (IntegerOutOfRange i)
  else Ok (Number_to_string n).

Definition backslash : ascii := "092"%char.

(** One lower-case hex digit. *)
Definition hex_digit (n : Z) : ascii := ascii_of_N (Z.to_N (if n <? 10 then 48 + n else 87 + n)).

(** The text of one character of a string. *)
Definition escape (c : ascii) : string :=
  let n := bval c in
  if n =? 34 then String backslash (String "034"%char EmptyString)
  else if n =? 92 then String backslash (String backslash EmptyString)
  else if n =? 8 then String backslash "b"
  else if n =? 12 then String backslash "f"
  else if n =? 10 then String backslash "n"
  else if n =? 13 then String backslash "r"
  else if n =? 9 then String backslash "t"
  else if n <? 32 then
    String backslash ("u00" +:+ String (hex_digit (n / 16)) (String (hex_digit (n mod 16)) EmptyString))
  else String c EmptyString.

Fixpoint escape_all (s : string) : string :=
  match s with
  | EmptyString => EmptyString
  | String c s => escape c +:+ escape_all s
  end.

Definition write_json_string (s : string) : string := dquote +:+ escape_all s +:+ dquote.

(** Parts separated by commas. *)
Fixpoint join (parts : list string) : string :=
  match parts with
  | [] => EmptyString
  | [p] => p
  | p :: parts => p +:+ "," +:+ join parts
  end.

(** [entries.sort_by(|a, b| a.0.cmp(b.0))] *)
Definition sort_entries {A} (m : list (string * A)) : list (string * A) :=
  merge_sort (key_le (λ k, k)) m.

(** [?] on every element, in order. *)
Definition all_ok {A} (rs : list (result A CanonicalJsonError)) : result (list A) CanonicalJsonError :=
  try_map (λ r, r) rs.

Fixpoint write_canonical (value : Value) : result string CanonicalJsonError :=
  match value with
  | VNull => Ok "null"
  | VBool b => Ok (if b then "true" else "false")
  | VNumber n => write_number n
  | VString s => Ok (write_json_string s)
  | VArray items =>
      let? parts := all_ok (write_canonical <$> items) in
      Ok ("[" +:+ join parts +:+ "]")
  | VObject map =>
      let entries := sort_entries ((λ kv, (kv.1, write_canonical kv.2)) <$> map) in
      let? parts := all_ok ((λ kv : string * result string CanonicalJsonError,
        let? val := kv.2 in Ok (write_json_string kv.1 +:+ ":" +:+ val)) <$> entries) in
      Ok ("{" +:+ join parts +:+ "}")
  end.

Definition to_canonical_json (value : Value) : result string CanonicalJsonError := write_canonical value.

(** ** Signatures *)

Class Ed25519 := {
  Ed25519Signature : Type;
  Ed25519PublicKey : Type;
  to_base64 : Ed25519Signature → string;
  from_base64 : string → result Ed25519Signature string;
  verify : Ed25519PublicKey → string → Ed25519Signature → result unit string
}.

Class Ed25519Laws `{Ed25519} : Prop := {
  base64_roundtrip s : from_base64 (to_base64 s) = Ok s
}.

Section Signing.
Context `{Ed25519}.

(** The object without [signatures] and [unsigned]. *)
Definition strip (m : Map) : Map := map_remove "unsigned" (map_remove "signatures" m).

(** [match existing { Some(Value::Object(map)) => map, _ => Map::new() }] *)
Definition object_or_new (existing : option Value) : Map :=
  match existing with Some (VObject map) => map | _ => [] end.

(** [if let Value::Object(by_key) = user_signatures { by_key.insert(..) }] *)
Definition put_signature (user_signatures : Value) (key_id sig : string) : Value :=
  match user_signatures with
  | VObject by_key => VObject (map_insert key_id (VString sig) by_key)
  | other => other
  end.

Definition sign_json (value : Value) (user_id key_id : string) (sign : string → Ed25519Signature) :
    Value * result unit CanonicalJsonError :=
  match value with
  | VObject obj =>
      let existing_signatures := map_get obj "signatures" in
      let obj := map_remove "signatures" obj in
      let existing_unsigned := map_get obj "unsigned" in
      let obj := map_remove "unsigned" obj in
      match to_canonical_json (VObject obj) with
      | Err e => (VObject obj, Err e)
      | Ok canonical =>
          let signature := sign canonical in
          let signatures_map := object_or_new existing_signatures in
          let user_signatures := default (VObject []) (map_get signatures_map user_id) in
          let user_signatures := put_signature user_signatures key_id (to_base64 signature) in
          let signatures_map := map_insert user_id user_signatures signatures_map in
          let obj := map_insert "signatures" (VObject signatures_map) obj in
          let obj := match existing_unsigned with
                     | Some unsigned => map_insert "unsigned" unsigned obj
                     | None => obj
                     end in
          (VObject obj, Ok tt)
      end
  | _ => (value, Err NotAnObject)
  end.

(** [signatures.{user_id}.{key_id}] *)
Definition signature_of (obj : Map) (user_id key_id : string) : option string :=
  signatures ← map_get obj "signatures";
  by_user ← as_object signatures;
  user ← map_get by_user user_id;
  by_key ← as_object user;
  signature ← map_get by_key key_id;
  as_str signature.

Definition verify_json_signature (value : Value) (user_id key_id : string) (public_key : Ed25519PublicKey) :
    result unit CanonicalJsonError :=
  match value with
  | VObject obj =>
      let? signature_b64 := ok_or (signature_of obj user_id key_id) (MissingSignature user_id key_id) in
      let? signature := map_err SignatureFailed (from_base64 signature_b64) in
      let? canonical := to_canonical_json (VObject (strip obj)) in
      let? _ := map_err SignatureFailed (verify public_key canonical signature) in
      Ok tt
  | _ => Err NotAnObject
  end.

End Signing.
