(* ===== verification/CanonicalJsonProps.v ===== *)
(** * Theorems about canonical JSON and signed objects

    [plain] is the reference text of a value (members in key order, no whitespace) and [safe] says
    that every number in it is a safe integer. The text determines the value ([plain_prefix]): the
    proof reads it from the left, with [unescape] as the inverse of the escaping of a character. *)

From Stdlib Require Import Ascii.
From S2P Require Import Prelude Json CanonicalJson.

Local Open Scope Z_scope.

(** ** Reference definitions *)

Definition safe_number (n : Number) : bool :=
  match n with
  | PosInt i | NegInt i => (- MAX_SAFE_INTEGER <=? i) && (i <=? MAX_SAFE_INTEGER)
  | Float _ => false
  end.

Fixpoint safe (v : Value) : bool :=
  match v with
  | VNumber n => safe_number n
  | VArray items => forallb safe items
  | VObject m => forallb (λ kv, safe kv.2) m
  | _ => true
  end.

Fixpoint plain (v : Value) : string :=
  match v with
  | VNull => "null"
  | VBool b => if b then "true" else "false"
  | VNumber n => Number_to_string n
  | VString s => write_json_string s
  | VArray items => "[" +:+ join (plain <$> items) +:+ "]"
  | VObject m => "{" +:+ join ((λ kv, write_json_string kv.1 +:+ ":" +:+ plain kv.2) <$> m) +:+ "}"
  end.

Definition plain_member (kv : string * Value) : string := write_json_string kv.1 +:+ ":" +:+ plain kv.2.

(** ** The writer writes the reference text *)

Lemma write_number_ok n : wf_number n → safe_number n = true → write_number n = Ok (Number_to_string n).
Proof.
  unfold write_number, safe_number. destruct n as [i|i|l]; cbn; intros Hw Hs; [| |done].
  - assert (Hi : (i <=? i64_max) = true) by (boolify; apply Z.leb_le; unfold MAX_SAFE_INTEGER, i64_max in *; lia).
    rewrite Hi. by rewrite Hs.
  - by rewrite Hs.
Qed.

Lemma write_number_err n : safe_number n = false → ∃ e, write_number n = Err e.
Proof.
  unfold write_number, safe_number. destruct n as [i|i|l]; cbn; intros Hs; [|rewrite Hs; eauto|eauto].
  destruct (i <=? i64_max); rewrite Hs; eauto.
Qed.

(** A map in key order is already sorted. *)
Lemma sort_entries_sorted {A} (m : list (string * A)) :
  StronglySorted (λ a b, String.le a.1 b.1 ∧ a.1 ≠ b.1) m → sort_entries m = m.
Proof.
  intros Hs. apply (StronglySorted_unique_strong (key_le (λ k, k))).
  - intros [k v] [k' v'] Hx Hy Hle Hge. unfold sort_entries in Hx. rewrite merge_sort_Permutation in Hx.
    assert (k = k') as <- by (by apply (anti_symm String.le)). f_equal.
    clear Hle Hge. induction Hs as [|[k0 v0] m Hs IH Hall]; [set_solver|].
    rewrite Forall_forall in Hall.
    apply elem_of_cons in Hx as [Hx|Hx], Hy as [Hy|Hy]; simplify_eq; auto;
      [apply Hall in Hy as [_ []]|apply Hall in Hx as [_ []]]; done.
  - apply (StronglySorted_merge_sort _).
  - clear -Hs. induction Hs as [|x m _ IH Hall]; constructor; [done|].
    refine (Forall_impl _ _ _ Hall _). by intros ? [].
  - apply merge_sort_Permutation.
Qed.

Lemma keys_sorted_fmap {A} (f : Value → A) (m : Map) :
  keys_sorted m → StronglySorted (λ a b, String.le a.1 b.1 ∧ a.1 ≠ b.1) ((λ kv, (kv.1, f kv.2)) <$> m).
Proof. induction 1 as [|x m _ IH Hall]; cbn; constructor; [done|]. by rewrite Forall_fmap. Qed.

Lemma all_ok_oks {A B} (f : A → result B CanonicalJsonError) (g : A → B) l :
  Forall (λ x, f x = Ok (g x)) l → all_ok (f <$> l) = Ok (g <$> l).
Proof. induction 1 as [|x l Hx _ IH]; [done|]. unfold all_ok in *. cbn. by rewrite Hx, IH. Qed.

Lemma all_ok_err {A} (rs : list (result A CanonicalJsonError)) :
  Exists (λ r, ∃ e, r = Err e) rs → ∃ e, all_ok rs = Err e.
Proof.
  induction 1 as [r rs [e ->]|r rs _ [e IH]]; unfold all_ok in *; cbn; [eauto|].
  destruct r; [rewrite IH|]; eauto.
Qed.

Lemma forallb_Forall_true {A} (p : A → bool) l : forallb p l = true ↔ Forall (λ x, p x = true) l.
Proof. rewrite forallb_forall, Forall_forall. by setoid_rewrite list_elem_of_In. Qed.

Lemma write_canonical_safe v : wf_value v → safe v = true → write_canonical v = Ok (plain v).
Proof.
  induction v as [|b|n|s|items IH|m IH] using Value_ind'; cbn; intros Hw Hs; inversion_clear Hw; try done.
  - by apply write_number_ok.
  - rewrite (all_ok_oks write_canonical plain); [done|].
    apply forallb_Forall_true in Hs. rewrite !Forall_forall in *. auto.
  - rewrite sort_entries_sorted by (by apply keys_sorted_fmap).
    rewrite <- list_fmap_compose, (all_ok_oks _ plain_member); [done|].
    apply forallb_Forall_true in Hs. rewrite !Forall_forall in *. intros kv Hin. cbn.
    by rewrite (IH kv Hin (H0 kv Hin) (Hs kv Hin)).
Qed.

Lemma not_all_safe {A} (p : A → bool) l : forallb p l = false → Exists (λ x, p x = false) l.
Proof.
  induction l as [|x l IH]; cbn; [done|]. destruct (p x) eqn:Hp; [|by constructor].
  intros ?%IH. by constructor 2.
Qed.

Lemma write_canonical_unsafe v : wf_value v → safe v = false → ∃ e, write_canonical v = Err e.
Proof.
  induction v as [|b|n|s|items IH|m IH] using Value_ind'; cbn; intros Hw Hs; inversion_clear Hw; try done.
  - by apply write_number_err.
  - destruct (all_ok_err (write_canonical <$> items)) as [e ->]; [|eauto].
    apply Exists_fmap. apply not_all_safe in Hs. rewrite Exists_exists, !Forall_forall in *.
    destruct Hs as (x & Hin & Hx). exists x. auto.
  - rewrite sort_entries_sorted by (by apply keys_sorted_fmap). rewrite <- list_fmap_compose.
    match goal with |- context [all_ok ?rs] => destruct (all_ok_err rs) as [e ->] end; [|eauto].
    apply Exists_fmap. apply not_all_safe in Hs. rewrite Exists_exists, !Forall_forall in *.
    destruct Hs as (kv & Hin & Hx). exists kv. split; [done|].
    destruct (IH kv Hin (H0 kv Hin) Hx) as [e He]. exists e. cbn. by rewrite He.
Qed.

(** ** Reading strings *)

Definition hex_value (c : ascii) : Z := if bval c <? 58 then bval c - 48 else bval c - 87.

(** The character at the start of an escaped string, and what follows. *)
Definition unescape (s : string) : option (Z * string) :=
  match s with
  | String c r =>
      if bval c =? 34 then None
      else if bval c =? 92 then
        match r with
        | String d r' =>
            let n := bval d in
            if n =? 98 then Some (8, r') else if n =? 102 then Some (12, r')
            else if n =? 110 then Some (10, r') else if n =? 114 then Some (13, r')
            else if n =? 116 then Some (9, r')
            else if n =? 117 then
              match r' with
              | String _ (String _ (String h (String l r''))) => Some (16 * hex_value h + hex_value l, r'')
              | _ => None
              end
            else Some (n, r')
        | EmptyString => None
        end
      else Some (bval c, r)
  | EmptyString => None
  end.

Lemma unescape_escape c r : unescape (escape c +:+ r) = Some (bval c, r).
Proof. destruct c as [[] [] [] [] [] [] [] []]; vm_compute; reflexivity. Qed.

Lemma escape_all_prefix s t r1 r2 :
  escape_all s +:+ dquote +:+ r1 = escape_all t +:+ dquote +:+ r2 → s = t ∧ r1 = r2.
Proof.
  revert t. induction s as [|c s IH]; intros [|c' t]; cbn [escape_all]; rewrite ?s_app_assoc; intros Heq.
  - by injection Heq.
  - apply (f_equal unescape) in Heq. rewrite unescape_escape in Heq. discriminate.
  - apply (f_equal unescape) in Heq. rewrite unescape_escape in Heq. discriminate.
  - apply (f_equal unescape) in Heq. rewrite !unescape_escape in Heq. injection Heq as Hc Hr.
    apply bval_inj in Hc. apply IH in Hr as [-> ->]. by subst.
Qed.

Lemma json_string_prefix s t r1 r2 :
  write_json_string s +:+ r1 = write_json_string t +:+ r2 → s = t ∧ r1 = r2.
Proof.
  unfold write_json_string. rewrite !s_app_assoc. intros Heq.
  apply (s_app_inj_len dquote dquote) in Heq as [_ Heq]; [|done]. by apply escape_all_prefix.
Qed.

(** ** Reading numbers *)

Definition num_char (c : ascii) : bool := is_ascii_digit c || Ascii.eqb c "-".

Lemma pretty_N_go_chars x s : all_bytes num_char s = true → all_bytes num_char (pretty_N_go x s) = true.
Proof.
  revert s. induction (N.lt_wf_0 x) as [x _ IH]; intros s Hs.
  destruct (decide (0 < x)%N) as [Hx|Hx]; [|replace x with 0%N by lia; by rewrite pretty_N_go_0].
  rewrite pretty_N_go_step by done. apply IH; [by apply N.div_lt|].
  rewrite all_bytes_cons. apply andb_true_iff. split; [|done].
  unfold pretty_N_char. by repeat case_match.
Qed.

Lemma pretty_N_chars (x : N) : all_bytes num_char (pretty x) = true.
Proof. unfold pretty, pretty_N. case_decide; [done|]. by apply pretty_N_go_chars. Qed.

Lemma pretty_Z_chars (z : Z) : all_bytes num_char (pretty z) = true.
Proof.
  destruct z as [|p|p]; [done|apply (pretty_N_chars (Npos p))|].
  change (pretty (Z.neg p)) with ("-" +:+ pretty (Npos p)). rewrite all_bytes_app, pretty_N_chars. done.
Qed.

Lemma pretty_N_nonempty (x : N) : pretty x ≠ EmptyString.
Proof.
  unfold pretty, pretty_N. case_decide; [done|]. rewrite pretty_N_go_step by lia.
  assert (Hg : ∀ y s, s ≠ EmptyString → pretty_N_go y s ≠ EmptyString); [|by apply Hg].
  intros y. induction (N.lt_wf_0 y) as [y _ IH]; intros s Hs.
  destruct (decide (0 < y)%N); [|replace y with 0%N by lia; by rewrite pretty_N_go_0].
  rewrite pretty_N_go_step by done. by apply IH; [apply N.div_lt|].
Qed.

Lemma pretty_Z_nonempty (z : Z) : pretty z ≠ EmptyString.
Proof. destruct z as [|p|p]; [done|apply (pretty_N_nonempty (Npos p))|done]. Qed.

(** What may follow a value: nothing, or the end or the next element of what contains it. *)
Definition stop_char (c : ascii) : bool := Ascii.eqb c "," || Ascii.eqb c "]" || Ascii.eqb c "}".

Definition stops (r : string) : Prop := match r with EmptyString => True | String c _ => stop_char c = true end.

Lemma span_prefix s t r1 r2 :
  all_bytes num_char s = true → all_bytes num_char t = true → stops r1 → stops r2 →
  s +:+ r1 = t +:+ r2 → s = t ∧ r1 = r2.
Proof.
  assert (Hcl : ∀ c, num_char c = true → stop_char c = true → False).
  { intros c. destruct c as [[] [] [] [] [] [] [] []]; vm_compute; congruence. }
  revert t. induction s as [|c s IH]; intros [|c' t]; cbn [all_bytes]; rewrite ?s_app_cons, ?s_app_nil_l.
  - auto.
  - intros _ Ht Hr _ ->. rewrite all_bytes_cons in Ht. boolify. exfalso. eapply Hcl; [done|exact Hr].
  - intros Hs _ _ Hr Heq. destruct r2 as [|c2 r2]; [discriminate|]. injection Heq as -> _.
    rewrite all_bytes_cons in Hs. boolify. exfalso. eapply Hcl; [done|exact Hr].
  - rewrite !all_bytes_cons. intros Hs Ht Hr1 Hr2 [= -> Heq]. boolify.
    destruct (IH t) as [-> ->]; done.
Qed.

Lemma number_prefix n n' r1 r2 :
  wf_number n → wf_number n' → safe_number n = true → safe_number n' = true → stops r1 → stops r2 →
  Number_to_string n +:+ r1 = Number_to_string n' +:+ r2 → n = n' ∧ r1 = r2.
Proof.
  assert (Hz : ∀ m, safe_number m = true → ∃ z, Number_to_string m = pretty z ∧ (m = PosInt z ∨ m = NegInt z)).
  { intros [z|z|l] Hm; [exists z; auto..|discriminate]. }
  intros Hw Hw' (z & -> & Hn)%Hz (z' & -> & Hn')%Hz Hr1 Hr2 Heq.
  apply span_prefix in Heq as [Heq ->]; auto using pretty_Z_chars. apply (inj pretty) in Heq as ->.
  split; [|done]. destruct Hn as [->| ->], Hn' as [->| ->]; cbn in Hw, Hw'; done || lia.
Qed.

(** ** Reading values *)

(** The first character tells the kind of a value. *)
Definition starts (v : Value) (c : ascii) : Prop :=
  match v with
  | VNull => c = "n"%char
  | VBool b => c = (if b then "t" else "f")%char
  | VNumber _ => num_char c = true
  | VString _ => c = "034"%char
  | VArray _ => c = "["%char
  | VObject _ => c = "{"%char
  end.

Lemma plain_starts v : safe v = true → ∃ c s, plain v = String c s ∧ starts v c.
Proof.
  intros Hs. destruct v as [|b|n|s|items|m]; cbn; try (eexists _, _; split; [reflexivity|done]).
  - destruct b; eexists _, _; split; done.
  - cbn in Hs. assert (Hz : ∃ z : Z, Number_to_string n = pretty z) by (destruct n as [z|z|l]; [eauto..|discriminate]).
    destruct Hz as [z ->]. destruct (pretty z) as [|c t] eqn:Hp; [by apply pretty_Z_nonempty in Hp|].
    exists c, t. split; [done|]. pose proof (pretty_Z_chars z) as Hc. rewrite Hp, all_bytes_cons in Hc. by boolify.
Qed.

Lemma starts_not_stop v c : starts v c → stop_char c = false.
Proof.
  destruct v as [|[]| | | |]; cbn; try (by intros ->).
  destruct c as [[] [] [] [] [] [] [] []]; vm_compute; congruence.
Qed.

Lemma plain_head v : safe v = true → ∃ c s, plain v = String c s ∧ stop_char c = false.
Proof. intros (c & s & Hp & Hc)%plain_starts. eauto using starts_not_stop. Qed.

(** Values whose texts start alike are of one kind. *)
Lemma same_start v w r1 r2 :
  safe v = true → safe w = true → plain v +:+ r1 = plain w +:+ r2 → ∃ c, starts v c ∧ starts w c.
Proof.
  intros (c & s & -> & Hc)%plain_starts (c' & s' & -> & Hc')%plain_starts. rewrite !s_app_cons.
  intros [= -> _]. eauto.
Qed.

(** [x] can be told from what follows it. *)
Definition readable {A} (pr : A → string) (ok : A → Prop) (x : A) : Prop :=
  ∀ y r1 r2, ok y → stops r1 → stops r2 → pr x +:+ r1 = pr y +:+ r2 → x = y ∧ r1 = r2.

Lemma join_cons p parts r c :
  join (p :: parts) +:+ String c r =
  p +:+ match parts with [] => String c r | _ => String "," (join parts +:+ String c r) end.
Proof. destruct parts; cbn [join]; [done|]. rewrite !s_app_assoc. done. Qed.

Lemma join_prefix {A} (pr : A → string) (ok : A → Prop) l1 l2 r1 r2 c :
  stop_char c = true → c ≠ ","%char →
  (∀ x, ok x → ∃ c s, pr x = String c s ∧ stop_char c = false) →
  Forall (readable pr ok) l1 → Forall ok l1 → Forall ok l2 →
  join (pr <$> l1) +:+ String c r1 = join (pr <$> l2) +:+ String c r2 → l1 = l2 ∧ r1 = r2.
Proof.
  intros Hc Hcomma Hhead Hread Hok1. revert l2. induction Hread as [|x l1 Hx Hread IH]; intros l2 Hok2.
  - destruct Hok2 as [|y l2 Hy _]; cbn [fmap list_fmap]; [by intros [= ->]|].
    rewrite join_cons. destruct (Hhead y Hy) as (c' & s & -> & Hc'). rewrite s_app_cons. intros [= -> _]. congruence.
  - apply Forall_cons in Hok1 as [Hokx Hok1]. destruct Hok2 as [|y l2 Hy Hok2]; cbn [fmap list_fmap]; rewrite ?join_cons.
    { destruct (Hhead x Hokx) as (c' & s & -> & Hc'). rewrite s_app_cons. intros [= -> _]. congruence. }
    intros Heq. apply Hx in Heq as [-> Heq]; [|done|by destruct l1|by destruct l2].
    destruct l1 as [|x1 l1], l2 as [|y1 l2]; cbn in Heq; try (injection Heq; congruence).
    + by injection Heq as ->.
    + injection Heq as Heq. destruct (IH Hok1 (y1 :: l2) Hok2 Heq) as [-> ->]. done.
Qed.

Definition good (v : Value) : Prop := wf_value v ∧ safe v = true.

Lemma good_items items : good (VArray items) → Forall good items.
Proof.
  intros [Hw Hs]. inversion_clear Hw. cbn in Hs. apply forallb_Forall_true in Hs.
  rewrite Forall_forall in *. unfold good. auto.
Qed.

Lemma good_members m : good (VObject m) → Forall (λ kv, good kv.2) m.
Proof.
  intros [Hw Hs]. inversion_clear Hw. cbn in Hs. apply forallb_Forall_true in Hs.
  rewrite Forall_forall in *. unfold good. auto.
Qed.

(** A member of an object is read as its key, a colon and its value. *)
Lemma member_readable (kv : string * Value) :
  readable plain good kv.2 → readable plain_member (λ kv, good kv.2) kv.
Proof.
  intros Hv [k' v'] r1 r2 Hg Hr1 Hr2. unfold plain_member. destruct kv as [k v]. cbn in *. rewrite !s_app_assoc.
  intros [-> [= Heq]]%json_string_prefix. apply Hv in Heq as [-> ->]; done.
Qed.

Lemma plain_prefix v : good v → readable plain good v.
Proof.
  induction v as [|b|n|s|items IH|m IH] using Value_ind'; intros Hg w r1 r2 Hg' Hr1 Hr2 Heq;
    (destruct (same_start _ w r1 r2 (proj2 Hg) (proj2 Hg') Heq) as (c & Hc & Hc');
     destruct w as [|b'|n'|s'|items'|m']; cbn in Hc, Hc'; subst;
     try discriminate; try (destruct b; discriminate); try (destruct b'; discriminate)).
  - by injection Heq.
  - destruct b, b'; try discriminate; by injection Heq.
  - destruct Hg as [Hw Hs], Hg' as [Hw' Hs']. inversion_clear Hw. inversion_clear Hw'.
    apply number_prefix in Heq as [-> ->]; done.
  - apply json_string_prefix in Heq as [-> ->]. done.
  - cbn [plain] in Heq. rewrite !s_app_assoc in Heq.
    apply (s_app_inj_len "[" "[") in Heq as [_ Heq]; [|done].
    destruct (join_prefix plain good items items' r1 r2 "]"%char) as [-> ->]; auto using good_items; try done.
    + intros x [_ Hx]. by apply plain_head.
    + apply good_items in Hg. rewrite Forall_forall in *. auto.
  - cbn [plain] in Heq. rewrite !s_app_assoc in Heq.
    apply (s_app_inj_len "{" "{") in Heq as [_ Heq]; [|done].
    destruct (join_prefix plain_member (λ kv, good kv.2) m m' r1 r2 "}"%char) as [-> ->]; auto using good_members; try done.
    + intros kv _. by eexists _, _.
    + apply good_members in Hg. rewrite Forall_forall in *. auto using member_readable.
Qed.

(** The canonical text of a value identifies it: two values with the same canonical text, read
    from whatever bytes, are the same value. A signature over the text is a signature over the
    value. *)
Theorem canonical_text_identifies_value v w s :
  wf_value v → wf_value w → to_canonical_json v = Ok s → to_canonical_json w = Ok s → v = w.
Proof.
  unfold to_canonical_json. intros Hv Hw Hs Ht.
  destruct (safe v) eqn:Sv; [|destruct (write_canonical_unsafe v Hv Sv) as [e He]; congruence].
  destruct (safe w) eqn:Sw; [|destruct (write_canonical_unsafe w Hw Sw) as [e He]; congruence].
  rewrite write_canonical_safe in Hs, Ht by done.
  destruct (plain_prefix v (conj Hv Sv) w EmptyString EmptyString) as [-> _]; [by split|done|done| |done]. congruence.
Qed.

(** A value has a canonical text exactly when every number in it, at any depth, is an integer
    between -(2^53-1) and 2^53-1, and the text is then the reference text: members in key order,
    no whitespace. *)
Theorem canonical_json_is_exact v :
  wf_value v →
  if safe v then to_canonical_json v = Ok (plain v) else ∃ e, to_canonical_json v = Err e.
Proof.
  intros Hv. unfold to_canonical_json. destruct (safe v) eqn:Sv;
    [by apply write_canonical_safe|by apply write_canonical_unsafe].
Qed.

(** ** Signing *)

Section Signing.
Context `{Ed25519Laws}.

(** A signature can be put under [signatures.{user_id}]: nothing there yet, or an object. *)
Definition signable (obj : Map) (user_id : string) : Prop :=
  ∀ sigs v, map_get obj "signatures" = Some (VObject sigs) → map_get sigs user_id = Some v → is_object v = true.

(** What a successful [sign_json] leaves behind, for an object [m] that was signed. *)
Definition signed (m : Map) (user_id key_id sig : string) : Map :=
  let sigs := object_or_new (map_get m "signatures") in
  let by_key := put_signature (default (VObject []) (map_get sigs user_id)) key_id sig in
  let m' := map_insert "signatures" (VObject (map_insert user_id by_key sigs)) (strip m) in
  match map_get m "unsigned" with Some u => map_insert "unsigned" u m' | None => m' end.

Lemma sign_json_ok m user_id key_id sign v' :
  sign_json (VObject m) user_id key_id sign = (v', Ok tt) →
  ∃ canonical, to_canonical_json (VObject (strip m)) = Ok canonical ∧
    v' = VObject (signed m user_id key_id (to_base64 (sign canonical))).
Proof.
  unfold sign_json, strip. rewrite map_get_remove_ne by done.
  destruct (to_canonical_json _) as [canonical|e]; [|intros [=]]. intros [= <-]. exists canonical. split; [done|]. unfold signed, strip. destruct (map_get m "unsigned"); reflexivity.
Qed.

Lemma strip_signed m user_id key_id sig : strip (signed m user_id key_id sig) = strip m.
Proof.
  unfold signed. set (x := VObject (map_insert user_id _ _)).
  assert (Hs : strip (map_insert "signatures" x (strip m)) = strip m).
  { unfold strip. rewrite map_remove_insert, (map_remove_comm "signatures" "unsigned"), !map_remove_idemp. done. }
  destruct (map_get m "unsigned"); [|done]. rewrite <- Hs at 2. unfold strip at 1 3.
  by rewrite (map_remove_comm "unsigned" "signatures"), map_remove_insert, (map_remove_comm "signatures" "unsigned").
Qed.

Lemma map_get_strip m k : k ≠ "signatures" → k ≠ "unsigned" → map_get (strip m) k = map_get m k.
Proof. intros. unfold strip. by rewrite !map_get_remove_ne. Qed.

Lemma map_get_remove_eq k m : map_get (map_remove k m) k = None.
Proof.
  induction m as [|[k1 v1] m IH]; [done|]. rewrite map_remove_cons. case_decide as Hk; [done|].
  unfold map_get in *. cbn. by rewrite bool_decide_false.
Qed.

(** Signing changes no member but [signatures]. *)
Lemma signed_members m user_id key_id sig k :
  k ≠ "signatures" → map_get (signed m user_id key_id sig) k = map_get m k.
Proof.
  intros Hk. unfold signed. destruct (decide (k = "unsigned")) as [->|Hu].
  - destruct (map_get m "unsigned"); [apply map_get_insert_eq|].
    rewrite map_get_insert_ne by done. unfold strip. apply map_get_remove_eq.
  - destruct (map_get m "unsigned"); rewrite !map_get_insert_ne by done; by apply map_get_strip.
Qed.

Lemma signed_signatures m user_id key_id sig :
  ∃ by_key, map_get (signed m user_id key_id sig) "signatures" =
    Some (VObject (map_insert user_id by_key (object_or_new (map_get m "signatures")))) ∧
    by_key = put_signature (default (VObject []) (map_get (object_or_new (map_get m "signatures")) user_id)) key_id sig.
Proof.
  eexists. split; [|reflexivity]. unfold signed.
  destruct (map_get m "unsigned"); [rewrite map_get_insert_ne by done|]; apply map_get_insert_eq.
Qed.

Lemma signature_of_signed m user_id key_id sig :
  signable m user_id → signature_of (signed m user_id key_id sig) user_id key_id = Some sig.
Proof.
  intros Hok. unfold signature_of. destruct (signed_signatures m user_id key_id sig) as (by_key & -> & ->). cbn.
  rewrite map_get_insert_eq. cbn.
  set (sigs := object_or_new (map_get m "signatures")).
  assert (Hu : ∀ v, map_get sigs user_id = Some v → is_object v = true).
  { subst sigs. destruct (map_get m "signatures") as [[]|] eqn:Hm; try done. eauto. }
  destruct (map_get sigs user_id) as [v|] eqn:Hv; cbn.
  - specialize (Hu v eq_refl). destruct v; try done. cbn. by rewrite map_get_insert_eq.
  - by rewrite bool_decide_true.
Qed.

(** Every other signature stays where it was. *)
Lemma signature_of_other m user_id key_id sig user_id' key_id' :
  (user_id', key_id') ≠ (user_id, key_id) →
  signature_of (signed m user_id key_id sig) user_id' key_id' = signature_of m user_id' key_id'.
Proof.
  intros Hne. unfold signature_of. destruct (signed_signatures m user_id key_id sig) as (by_key & -> & ->). cbn.
  set (sigs := object_or_new (map_get m "signatures")).
  assert (Hold : (signatures ← map_get m "signatures"; by_user ← as_object signatures;
                  user ← map_get by_user user_id'; k ← as_object user; s ← map_get k key_id'; as_str s)
    = (user ← map_get sigs user_id'; k ← as_object user; s ← map_get k key_id'; as_str s)).
  { subst sigs. by destruct (map_get m "signatures") as [[]|]. }
  rewrite Hold. destruct (decide (user_id' = user_id)) as [->|Hu]; [|by rewrite map_get_insert_ne].
  assert (Hk : key_id' ≠ key_id) by congruence.
  rewrite map_get_insert_eq. cbn. destruct (map_get sigs user_id) as [[]|]; cbn; try done.
  - by rewrite map_get_insert_ne.
  - by rewrite bool_decide_false.
Qed.

(** Signing works and disturbs nothing. An object that [sign_json] signed verifies under the
    signing key, every signature under another user or key verifies exactly as it did before, and no
    member but [signatures] changes. The user's entry under [signatures], if any, is an object. *)
Theorem signed_object_verifies m user_id key_id sign pk v' :
  sign_json (VObject m) user_id key_id sign = (v', Ok tt) → signable m user_id →
  (∀ msg, verify pk msg (sign msg) = Ok tt) →
  verify_json_signature v' user_id key_id pk = Ok tt ∧
  (∀ user_id' key_id' pk', (user_id', key_id') ≠ (user_id, key_id) →
     verify_json_signature v' user_id' key_id' pk' = verify_json_signature (VObject m) user_id' key_id' pk') ∧
  ∀ k, k ≠ "signatures" → get v' k = map_get m k.
Proof.
  intros (canonical & Hc & ->)%sign_json_ok Hok Hpk. split_and!.
  - unfold verify_json_signature. rewrite signature_of_signed by done. cbn [ok_or].
    rewrite base64_roundtrip. cbn [map_err]. by rewrite strip_signed, Hc, Hpk.
  - intros user_id' key_id' pk' Hne. unfold verify_json_signature. by rewrite signature_of_other, strip_signed.
  - intros k Hk. by apply signed_members.
Qed.

(** [sign_json] reports success without adding a signature when [signatures.{user_id}] is not an
    object. *)
Lemma sign_json_may_sign_nothing :
  ∃ m user_id key_id, ∀ sign, ∃ v', sign_json (VObject m) user_id key_id sign = (v', Ok tt) ∧
    ∀ pk, verify_json_signature v' user_id key_id pk = Err (MissingSignature user_id key_id).
Proof.
  exists [("signatures", VObject [("@a:x", VString "taken")])], "@a:x", "ed25519:1".
  intros sign. eexists. split; [reflexivity|]. reflexivity.
Qed.

(** A value that cannot be canonicalised loses its signatures and [unsigned] to a failed signing. *)
Lemma failed_signing_strips :
  ∃ m user_id key_id, ∀ sign,
    sign_json (VObject m) user_id key_id sign = (VObject (strip m), Err FloatNotAllowed) ∧ strip m ≠ m.
Proof.
  exists [("a", VNumber (Float "1.5")); ("signatures", VObject []); ("unsigned", VObject [])], "@a:x", "ed25519:1".
  intros sign. split; [reflexivity|]. discriminate.
Qed.

End Signing.

(** ** Concrete inputs *)

Module CanonicalWitnesses.

(** A toy signature scheme: the message behind the key. *)
#[export] Instance toy : Ed25519 := {
  Ed25519Signature := string;
  Ed25519PublicKey := string;
  to_base64 s := s;
  from_base64 s := Ok s;
  verify pk msg sig := if decide (sig = pk +:+ msg) then Ok tt else Err "bad signature"
}.

#[export] Instance toy_laws : Ed25519Laws.
Proof. constructor. done. Qed.

Definition sample : Value :=
  VObject [("a", VNumber (PosInt 1)); ("b", VArray [VNull; VString "x"; VNumber (NegInt (-2))])].

Lemma sample_wf : wf_value sample.
Proof.
  unfold sample. constructor.
  - repeat constructor; cbn; try done; by apply (bool_decide_unpack _).
  - repeat constructor; cbn; unfold u64_mod, i64_min; lia.
Qed.

Definition sample_text : string :=
  "{" +:+ quoted "a" +:+ ":1," +:+ quoted "b" +:+ ":[null," +:+ quoted "x" +:+ ",-2]}".

Lemma canonical_text_identifies_value_witness :
  to_canonical_json sample = Ok sample_text ∧
  ∀ w, wf_value w → to_canonical_json w = Ok sample_text → sample = w.
Proof.
  assert (Ht : to_canonical_json sample = Ok sample_text) by (vm_compute; reflexivity).
  split; [exact Ht|]. intros w Hw Hs.
  exact (canonical_text_identifies_value sample w sample_text sample_wf Hw Ht Hs).
Defined.

Lemma canonical_json_is_exact_witness : to_canonical_json sample = Ok (plain sample).
Proof. exact (canonical_json_is_exact sample sample_wf). Defined.

(** An object that already carries another user's signature. *)
Definition cosigned : Map :=
  [("a", VNumber (PosInt 1)); ("signatures", VObject [("@b:x", VObject [("k", VString ("B{" +:+ quoted "a" +:+ ":1}"))])]);
   ("unsigned", VNull)].

Definition toy_sign : string → @Ed25519Signature toy := λ m, "A" +:+ m.

Lemma signed_object_verifies_witness :
  ∃ v', sign_json (VObject cosigned) "@a:x" "k" toy_sign = (v', Ok tt) ∧
    verify_json_signature v' "@a:x" "k" "A" = Ok tt ∧ verify_json_signature v' "@b:x" "k" "B" = Ok tt.
Proof.
  eexists. split; [reflexivity|].
  match goal with |- verify_json_signature ?v _ _ _ = _ ∧ _ =>
    destruct (signed_object_verifies cosigned "@a:x" "k" toy_sign "A" v) as (Hv & Ho & _) end.
  - reflexivity.
  - intros sigs v [= <-]. vm_compute. discriminate.
  - intros msg. cbn. by rewrite decide_True.
  - split; [exact Hv|]. rewrite Ho by discriminate. vm_compute. reflexivity.
Defined.

End CanonicalWitnesses.
