(* ===== verification/Events.v ===== *)
(** * Events on the wire (crates/mail4agent-messenger/src/wire/events.rs)

    The event envelope and the content types the timeline reads. Implementations of [Deserialize]
    and [Serialize] that the source derives are generated code: they are the class [EventSerde].
    The hand-written ones, and the parsing of relations, are definitions. *)

From S2P Require Import Prelude Ids Json.

Local Open Scope Z_scope.

(** ** The envelope *)

Inductive RawEvent := mkRawEvent {
  re_event_id : EventId;
  re_event_type : string;
  re_sender : UserId;
  re_origin_server_ts : Z;
  re_state_key : option string;
  re_content : Value;
  re_unsigned : Unsigned }
with Unsigned := mkUnsigned {
  un_age : option Z;
  un_transaction_id : option string;
  un_redacted_because : option RawEvent;
  un_prev_content : option Value;
  un_relations : option Value }.

Definition Unsigned_default : Unsigned := mkUnsigned None None None None None.

(** ** Relations *)

Record InReplyTo := mkInReplyTo { irt_event_id : EventId }.

Inductive RelatesTo :=
| Annotation (event_id : EventId) (key : string)
| Replace (event_id : EventId)
| Thread (event_id : EventId) (is_falling_back : bool) (in_reply_to : option InReplyTo)
| RInReplyTo (reply : InReplyTo)
| RelatesUnknown (value : Value).

(** [result.ok()] *)
Definition ok {A E} (r : result A E) : option A := match r with Ok a => Some a | Err _ => None end.

Definition InReplyTo_from_value (value : Value) : option InReplyTo :=
  event_id ← get value "event_id" ≫= as_str;
  mkInReplyTo <$> ok (EventId_parse event_id).

(** [value.get("event_id").and_then(Value::as_str).and_then(|s| EventId::parse(s).ok())] *)
Definition event_id_of (value : Value) : option EventId :=
  s ← get value "event_id" ≫= as_str; ok (EventId_parse s).

Definition RelatesTo_from_value (value : Value) : RelatesTo :=
  match get value "rel_type" ≫= as_str with
  | Some rel_type =>
      if decide (rel_type = "m.annotation") then
        match event_id_of value, get value "key" ≫= as_str with
        | Some event_id, Some key => Annotation event_id key
        | _, _ => RelatesUnknown value
        end
      else if decide (rel_type = "m.replace") then
        match event_id_of value with
        | Some event_id => Replace event_id
        | None => RelatesUnknown value
        end
      else if decide (rel_type = "m.thread") then
        match event_id_of value with
        | Some event_id =>
            let is_falling_back := default false (get value "is_falling_back" ≫= as_bool) in
            let in_reply_to := get value "m.in_reply_to" ≫= InReplyTo_from_value in
            Thread event_id is_falling_back in_reply_to
        | None => RelatesUnknown value
        end
      else RelatesUnknown value
  | None =>
      match get value "m.in_reply_to" ≫= InReplyTo_from_value with
      | Some in_reply_to => RInReplyTo in_reply_to
      | None => RelatesUnknown value
      end
  end.

Definition RelatesTo_from_content (content : Value) : option RelatesTo :=
  RelatesTo_from_value <$> get content "m.relates_to".

Definition relates_to (event : RawEvent) : option RelatesTo := RelatesTo_from_content (re_content event).

(** The value [impl Serialize for RelatesTo] builds. *)
Definition RelatesTo_to_value (r : RelatesTo) : Value :=
  match r with
  | Annotation event_id key =>
      VObject [("event_id", VString (EventId_str event_id)); ("key", VString key); ("rel_type", VString "m.annotation")]
  | Replace event_id =>
      VObject [("event_id", VString (EventId_str event_id)); ("rel_type", VString "m.replace")]
  | Thread event_id is_falling_back in_reply_to =>
      let value := [("event_id", VString (EventId_str event_id)); ("is_falling_back", VBool is_falling_back);
                    ("rel_type", VString "m.thread")] in
      VObject (match in_reply_to with
               | Some reply => map_insert "m.in_reply_to" (VObject [("event_id", VString (EventId_str (irt_event_id reply)))]) value
               | None => value
               end)
  | RInReplyTo reply =>
      VObject [("m.in_reply_to", VObject [("event_id", VString (EventId_str (irt_event_id reply)))])]
  | RelatesUnknown value => value
  end.

(** ** Contents *)

Inductive Membership := MInvite | MJoin | MKnock | MLeave | MBan | MUnknown.

Record TextLikeMessageContent := mkTextLike {
  tl_body : string; tl_format : option string; tl_formatted_body : option string }.

Inductive RoomMessageContent :=
| MsgText (inner : TextLikeMessageContent)
| MsgNotice (inner : TextLikeMessageContent)
| MsgEmote (inner : TextLikeMessageContent)
| MsgUnknown (value : Value).

Record MegolmEncryptedContent := mkMegolm {
  mg_ciphertext : string; mg_session_id : string; mg_sender_key : option string; mg_device_id : option DeviceId;
  mg_relates_to : option RelatesTo }.

Record OlmCiphertextInfo := mkOlmCiphertextInfo { oc_message_type : Z; oc_body : string }.
Record OlmEncryptedContent := mkOlm { oe_sender_key : string; oe_ciphertext : list (string * OlmCiphertextInfo) }.

Inductive RoomEncryptedContent :=
| EncMegolm (inner : MegolmEncryptedContent)
| EncOlm (inner : OlmEncryptedContent)
| EncUnknown (value : Value).

Record RedactionContent := mkRedaction { rd_redacts : EventId; rd_reason : option string }.

(** The derived implementations: [serde_json::from_value] and [to_value] at these types. *)
Class EventSerde := {
  text_like_from_value : Value → option TextLikeMessageContent;
  text_like_to_value : TextLikeMessageContent → option Value;
  megolm_from_value : Value → option MegolmEncryptedContent;
  olm_from_value : Value → option OlmEncryptedContent;
  membership_from_value : Value → option Membership;
  redaction_from_value : Value → option RedactionContent
}.

Section Contents.
Context `{EventSerde}.

(** [impl Deserialize for RoomMessageContent] *)
Definition room_message_from_value (value : Value) : option RoomMessageContent :=
  match get value "msgtype" ≫= as_str with
  | Some msgtype =>
      if decide (msgtype = "m.text") then MsgText <$> text_like_from_value value
      else if decide (msgtype = "m.notice") then MsgNotice <$> text_like_from_value value
      else if decide (msgtype = "m.emote") then MsgEmote <$> text_like_from_value value
      else Some (MsgUnknown value)
  | None => Some (MsgUnknown value)
  end.

Definition serialize_tagged (tag_field tag_value : string) (inner : option Value) : option Value :=
  match inner with
  | Some (VObject map) => Some (VObject (map_insert tag_field (VString tag_value) map))
  | other => other
  end.

(** [impl Serialize for RoomMessageContent] *)
Definition room_message_to_value (content : RoomMessageContent) : option Value :=
  match content with
  | MsgText inner => serialize_tagged "msgtype" "m.text" (text_like_to_value inner)
  | MsgNotice inner => serialize_tagged "msgtype" "m.notice" (text_like_to_value inner)
  | MsgEmote inner => serialize_tagged "msgtype" "m.emote" (text_like_to_value inner)
  | MsgUnknown value => Some value
  end.

(** [impl Deserialize for RoomEncryptedContent] *)
Definition room_encrypted_from_value (value : Value) : option RoomEncryptedContent :=
  match get value "algorithm" ≫= as_str with
  | Some algorithm =>
      if decide (algorithm = "m.megolm.v1.aes-sha2") then EncMegolm <$> megolm_from_value value
      else if decide (algorithm = "m.olm.v1.curve25519-aes-sha2") then EncOlm <$> olm_from_value value
      else Some (EncUnknown value)
  | None => Some (EncUnknown value)
  end.

End Contents.

(** ** Lemmas *)

(** Evaluates the lookups of literal member names. *)
Ltac read_members :=
  repeat (cbn -[EventId_parse map_insert];
    match goal with
    | |- context [map_insert ?k ?v ?m] => let m' := eval vm_compute in (map_insert k v m) in change (map_insert k v m) with m'
    | |- context [bool_decide (?a = ?b)] =>
        first [rewrite (bool_decide_true (a = b)) by reflexivity | rewrite (bool_decide_false (a = b)) by discriminate]
    | |- context [decide (?a = ?b)] =>
        first [rewrite (decide_True (P := a = b)) by reflexivity | rewrite (decide_False (P := a = b)) by discriminate]
    end);
  cbn -[EventId_parse map_insert].

(** A parsed relation keeps its meaning through serialisation. *)
Lemma relates_to_roundtrip r :
  match r with
  | Annotation e _ | Replace e => EventId_parse (EventId_str e) = Ok e
  | Thread e _ reply =>
      EventId_parse (EventId_str e) = Ok e ∧
      ∀ x, reply = Some x → EventId_parse (EventId_str (irt_event_id x)) = Ok (irt_event_id x)
  | RInReplyTo x => EventId_parse (EventId_str (irt_event_id x)) = Ok (irt_event_id x)
  | RelatesUnknown value => RelatesTo_from_value value = RelatesUnknown value
  end → RelatesTo_from_value (RelatesTo_to_value r) = r.
Proof.
  destruct r as [[e] k|[e]|[e] b [[[x]]|]|[[x]]|v]; cbn -[EventId_parse map_insert RelatesTo_from_value]; [..|done].
  - intros He. unfold RelatesTo_from_value, event_id_of. read_members. by rewrite He.
  - intros He. unfold RelatesTo_from_value, event_id_of. read_members. by rewrite He.
  - intros [He Hx]. specialize (Hx _ eq_refl). cbn [irt_event_id EventId_str] in Hx.
    unfold RelatesTo_from_value, event_id_of. read_members. rewrite He, Hx.
    done.
  - intros [He _]. unfold RelatesTo_from_value, event_id_of. read_members. by rewrite He.
  - intros Hx. unfold RelatesTo_from_value, InReplyTo_from_value. read_members. by rewrite Hx.
Qed.
