(* ===== verification/Relations.v ===== *)
(** * Aggregated relations (crates/mail4agent-messenger/src/room/relations.rs)

    Folding reactions and edits onto the event they relate to. The theorem: the bundle of a list of
    contributors does not depend on their order, holds exactly the reactions they carry, and its
    edit is the newest acceptable one. *)

From S2P Require Import Prelude Ids Json Events.

Local Open Scope Z_scope.

Record EditRecord := mkEditRecord {
  ed_event_id : EventId;
  ed_content : RoomMessageContent;
  ed_origin_server_ts : Z }.

Record RelationsBundle := mkBundle {
  reactions : gmap string (gset UserId);
  latest_edit : option EditRecord;
  reply_to : option EventId;
  thread_root : option EventId }.

Definition Bundle_default : RelationsBundle := mkBundle ∅ None None None.

Record RelatingEvent := mkRelating {
  rl_event_id : EventId;
  rl_sender : UserId;
  rl_origin_server_ts : Z;
  rl_relation : RelatesTo;
  rl_new_content : option Value }.

(** [(a.ts, &a.event_id) >= (b.ts, &b.event_id)] *)
Definition edit_ge (a b : EditRecord) : Prop :=
  ed_origin_server_ts b < ed_origin_server_ts a ∨
  (ed_origin_server_ts a = ed_origin_server_ts b ∧ String.le (EventId_str (ed_event_id b)) (EventId_str (ed_event_id a))).

#[export] Instance edit_ge_dec a b : Decision (edit_ge a b).
Proof. unfold edit_ge. apply _. Defined.

(** [reactions.entry(key).or_default().insert(user)] *)
Definition add_reaction (key : string) (user : UserId) (m : gmap string (gset UserId)) : gmap string (gset UserId) :=
  <[key := {[user]} ∪ default ∅ (m !! key)]> m.

Definition is_newer (candidate : EditRecord) (latest : option EditRecord) : bool :=
  match latest with None => true | Some current => bool_decide (edit_ge candidate current) end.

Section Aggregation.
Context `{EventSerde}.

(** The edit a relating event proposes, when it is acceptable. *)
Definition accepted_edit (original_sender : UserId) (relating : RelatingEvent) : option EditRecord :=
  match rl_relation relating with
  | Replace _ =>
      if negb (bool_decide (rl_sender relating = original_sender)) then None
      else
        new_content ← rl_new_content relating;
        content ← room_message_from_value new_content;
        Some (mkEditRecord (rl_event_id relating) content (rl_origin_server_ts relating))
  | _ => None
  end.

Definition aggregate_relation (bundle : RelationsBundle) (original_sender : UserId) (relating : RelatingEvent) :
    RelationsBundle * bool :=
  match rl_relation relating with
  | Annotation _ key =>
      (mkBundle (add_reaction key (rl_sender relating) (reactions bundle)) (latest_edit bundle) (reply_to bundle)
         (thread_root bundle), true)
  | Replace _ =>
      match accepted_edit original_sender relating with
      | None => (bundle, false)
      | Some candidate =>
          if is_newer candidate (latest_edit bundle)
          then (mkBundle (reactions bundle) (Some candidate) (reply_to bundle) (thread_root bundle), true)
          else (bundle, true)
      end
  | RInReplyTo reply =>
      (mkBundle (reactions bundle) (latest_edit bundle) (Some (irt_event_id reply)) (thread_root bundle), true)
  | Thread event_id _ in_reply_to =>
      (mkBundle (reactions bundle) (latest_edit bundle)
         (match in_reply_to with Some reply => Some (irt_event_id reply) | None => reply_to bundle end)
         (Some event_id), true)
  | RelatesUnknown _ => (bundle, false)
  end.

Definition recompute_bundle (original_sender : UserId) (relating_events : list RelatingEvent) : RelationsBundle :=
  foldl (λ bundle relating, (aggregate_relation bundle original_sender relating).1) Bundle_default relating_events.

(** ** Lemmas *)

(** What the timeline folds: reactions and edits. *)
Definition contributes (r : RelatingEvent) : Prop :=
  match rl_relation r with Annotation _ _ | Replace _ => True | _ => False end.

Lemma add_reaction_comm k1 u1 k2 u2 m :
  add_reaction k1 u1 (add_reaction k2 u2 m) = add_reaction k2 u2 (add_reaction k1 u1 m).
Proof.
  unfold add_reaction. destruct (decide (k1 = k2)) as [->|Hne].
  - rewrite !lookup_insert_eq, !insert_insert_eq. cbn. f_equal. set_solver.
  - rewrite !lookup_insert_ne by done. by apply insert_insert_ne.
Qed.

Lemma elem_of_add_reaction k u m k' u' :
  u' ∈ default ∅ (add_reaction k u m !! k') ↔ (k' = k ∧ u' = u) ∨ u' ∈ default ∅ (m !! k').
Proof.
  unfold add_reaction. destruct (decide (k' = k)) as [->|Hne].
  - rewrite lookup_insert_eq. cbn. set_solver.
  - rewrite lookup_insert_ne by done. naive_solver.
Qed.

Lemma edit_ge_total a b : edit_ge a b ∨ edit_ge b a.
Proof.
  unfold edit_ge. destruct (Z.lt_trichotomy (ed_origin_server_ts a) (ed_origin_server_ts b)) as [|[Heq|]]; [tauto| |tauto].
  destruct (total String.le (EventId_str (ed_event_id a)) (EventId_str (ed_event_id b))); [right|left]; right; auto.
Qed.

Lemma edit_ge_trans a b c : edit_ge a b → edit_ge b c → edit_ge a c.
Proof.
  unfold edit_ge. intros [?|[? ?]] [?|[? ?]]; [left; lia..|right; split; [lia|]]. by etrans.
Qed.

Lemma edit_ge_antisym a b : edit_ge a b → edit_ge b a → ed_event_id a = ed_event_id b.
Proof.
  unfold edit_ge. intros [?|[? Ha]] [?|[? Hb]]; try lia.
  destruct (ed_event_id a) as [x], (ed_event_id b) as [y]. cbn in *. f_equal. by apply (anti_symm String.le).
Qed.

(** Keeping the newer of two edits. *)
Definition newer (candidate : EditRecord) (latest : option EditRecord) : option EditRecord :=
  if is_newer candidate latest then Some candidate else latest.

Lemma newer_comm a b o :
  ed_event_id a ≠ ed_event_id b → newer a (newer b o) = newer b (newer a o).
Proof.
  intros Hne. unfold newer, is_newer. destruct o as [c|].
  - repeat case_bool_decide; try done; exfalso;
      first [by apply Hne, edit_ge_antisym
            |by (destruct (edit_ge_total a b); naive_solver eauto using edit_ge_trans)
            |by (destruct (edit_ge_total a c); destruct (edit_ge_total b c); naive_solver eauto using edit_ge_trans)].
  - repeat case_bool_decide; try done; exfalso;
      first [by apply Hne, edit_ge_antisym|by (destruct (edit_ge_total a b); naive_solver)].
Qed.

Lemma accepted_edit_id s r e : accepted_edit s r = Some e → ed_event_id e = rl_event_id r.
Proof.
  unfold accepted_edit. destruct (rl_relation r); try done. case_bool_decide; cbn; [|done].
  destruct (rl_new_content r); cbn; [|done]. destruct (room_message_from_value _); cbn; [|done]. by intros [= <-].
Qed.

(** A contributor's effect on the two aggregated fields. *)
Lemma aggregate_contribution b s r :
  contributes r →
  (aggregate_relation b s r).1 =
  mkBundle (match rl_relation r with Annotation _ k => add_reaction k (rl_sender r) (reactions b) | _ => reactions b end)
    (match accepted_edit s r with Some e => newer e (latest_edit b) | None => latest_edit b end)
    (reply_to b) (thread_root b).
Proof.
  unfold contributes, aggregate_relation, accepted_edit, newer.
  destruct (rl_relation r) eqn:Hr; cbn; try done. intros _.
  case_bool_decide; cbn; [|by destruct b]. destruct (rl_new_content r); cbn; [|by destruct b].
  destruct (room_message_from_value _); cbn; [|by destruct b]. case_match; by destruct b.
Qed.

Lemma aggregate_comm b s r1 r2 :
  contributes r1 → contributes r2 → rl_event_id r1 ≠ rl_event_id r2 →
  (aggregate_relation (aggregate_relation b s r1).1 s r2).1 = (aggregate_relation (aggregate_relation b s r2).1 s r1).1.
Proof.
  intros H1 H2 Hne. rewrite !aggregate_contribution by done. cbn. f_equal.
  - destruct (rl_relation r1), (rl_relation r2); auto using add_reaction_comm.
  - destruct (accepted_edit s r1) as [e1|] eqn:He1, (accepted_edit s r2) as [e2|] eqn:He2; try done.
    apply newer_comm. apply accepted_edit_id in He1 as ->, He2 as ->. congruence.
Qed.

Lemma elem_of_snoc {A} (x y : A) l : x ∈ l ++ [y] ↔ x ∈ l ∨ x = y.
Proof. by rewrite elem_of_app, list_elem_of_singleton. Qed.

Lemma recompute_snoc s es r :
  recompute_bundle s (es ++ [r]) = (aggregate_relation (recompute_bundle s es) s r).1.
Proof. unfold recompute_bundle. by rewrite foldl_app. Qed.

Lemma foldl_as_foldr {A B} (f : B → A → B) b l : foldl f b l = foldr (λ a b, f b a) b (reverse l).
Proof. revert b; induction l as [|a l IH]; intros b; [done|]. rewrite reverse_cons, foldr_app. cbn. apply IH. Qed.

Lemma recompute_permutation s es es' :
  Forall contributes es → NoDup (rl_event_id <$> es) → es ≡ₚ es' → recompute_bundle s es = recompute_bundle s es'.
Proof.
  intros Hc Hnd Hp. unfold recompute_bundle. rewrite !foldl_as_foldr.
  apply (foldr_permutation (=) _ _); [|by rewrite !reverse_Permutation].
  rewrite Forall_forall in Hc.
  intros j1 r1 j2 r2 b Hj H1 H2.
  assert (Hc1 : contributes r1 ∧ contributes r2).
  { split; apply Hc; apply elem_of_reverse; eauto using list_elem_of_lookup_2. }
  symmetry. apply aggregate_comm; [apply Hc1..|]. intros Heq. apply Hj.
  assert (Hnd' : NoDup (rl_event_id <$> reverse es)) by (by rewrite reverse_Permutation).
  eapply (NoDup_lookup _ j1 j2 _ Hnd'); rewrite list_lookup_fmap; [rewrite H1|rewrite H2]; cbn; [done|by rewrite Heq].
Qed.

(** Aggregation: for reactions and edits with distinct event ids the bundle does not depend on
    the order they arrive in; a user is listed under a reaction key exactly when some contributor
    reacts so; and the edit shown is acceptable (sent by the target's own sender, with readable
    content) and at least as new, by timestamp and then event id, as every acceptable one. *)
Theorem bundle_is_exact s es :
  Forall contributes es → NoDup (rl_event_id <$> es) →
  (∀ es', es ≡ₚ es' → recompute_bundle s es' = recompute_bundle s es) ∧
  (∀ key u, u ∈ default ∅ (reactions (recompute_bundle s es) !! key) ↔
     ∃ r t, r ∈ es ∧ rl_relation r = Annotation t key ∧ rl_sender r = u) ∧
  match latest_edit (recompute_bundle s es) with
  | None => ∀ r, r ∈ es → accepted_edit s r = None
  | Some e => (∃ r, r ∈ es ∧ accepted_edit s r = Some e) ∧ ∀ r e', r ∈ es → accepted_edit s r = Some e' → edit_ge e e'
  end.
Proof.
  intros Hc Hnd. split; [intros es' Hp; symmetry; by apply recompute_permutation|]. clear Hnd.
  induction es as [|r es IH] using rev_ind.
  { cbn. split; [|by intros r ?%not_elem_of_nil]. intros key u. rewrite lookup_empty. set_solver. }
  apply Forall_app in Hc as [Hc Hr]. rewrite Forall_singleton in Hr. destruct (IH Hc) as [IHr IHe].
  rewrite recompute_snoc, (aggregate_contribution _ _ _ Hr). cbn [reactions latest_edit]. split.
  - intros key u. destruct (rl_relation r) eqn:Hrel.
    2-5: rewrite IHr; split; intros (r' & t & Hin & Hr' & Hu); [exists r', t; set_solver|];
      apply elem_of_snoc in Hin as [Hin| ->]; [eauto|congruence].
    rewrite elem_of_add_reaction, IHr. split.
    + intros [[-> ->]|(r' & t & ? & ?)]; [exists r, event_id; set_solver|exists r', t; set_solver].
    + intros (r' & t & Hin & Hr' & <-). apply elem_of_snoc in Hin as [Hin| ->]; [right; eauto|].
      left. rewrite Hrel in Hr'. injection Hr' as _ ->. done.
  - destruct (accepted_edit s r) as [e|] eqn:He.
    + unfold newer, is_newer. destruct (latest_edit (recompute_bundle s es)) as [cur|]; cbn.
      * destruct IHe as [(r0 & Hr0 & He0) Hmax]. case_bool_decide as Hge; (split; [set_solver|]).
        -- intros r' e' Hin He'. apply elem_of_snoc in Hin as [Hin| ->];
             [by eapply edit_ge_trans, Hmax|]. rewrite He in He'. injection He' as <-.
           by destruct (edit_ge_total e e).
        -- intros r' e' Hin He'. apply elem_of_snoc in Hin as [Hin| ->]; [by eapply Hmax|].
           rewrite He in He'. injection He' as <-. by destruct (edit_ge_total e cur).
      * split; [set_solver|]. intros r' e' Hin He'. apply elem_of_snoc in Hin as [Hin| ->].
        -- by rewrite IHe in He'.
        -- rewrite He in He'. injection He' as <-. by destruct (edit_ge_total e e).
    + destruct (latest_edit (recompute_bundle s es)) as [cur|].
      * destruct IHe as [(r0 & Hr0 & He0) Hmax]. split; [set_solver|].
        intros r' e' Hin He'. apply elem_of_snoc in Hin as [Hin| ->]; [by eapply Hmax|congruence].
      * intros r' Hin. apply elem_of_snoc in Hin as [Hin| ->]; auto.
Qed.

End Aggregation.
