(* ===== verification/Timeline.v ===== *)
(** * A room's timeline (crates/mail4agent-messenger/src/room/timeline.rs)

    Rows in server order, with indexes by event and transaction id, relations and redactions that
    wait for their target, and local echoes. Every access [self.items[idx]] can panic in the
    source: a method that makes one answers [None] where the source would panic. *)

From S2P Require Import Prelude Ids Json Events Relations.

Local Open Scope Z_scope.

#[export] Instance TxnId_eq_dec : EqDecision TxnId.
Proof. solve_decision. Defined.
#[export] Instance TxnId_countable : Countable TxnId.
Proof. by apply (inj_countable' TxnId_str mkTxnId); intros []. Defined.

Definition PENDING_CAPACITY : nat := 5000.

Definition EVENT_ROOM_MESSAGE : string := "m.room.message".
Definition EVENT_ROOM_ENCRYPTED : string := "m.room.encrypted".
Definition EVENT_ROOM_REDACTION : string := "m.room.redaction".
Definition EVENT_ROOM_MEMBER : string := "m.room.member".
Definition EVENT_ROOM_NAME : string := "m.room.name".
Definition EVENT_ROOM_TOPIC : string := "m.room.topic".
Definition EVENT_ROOM_POWER_LEVELS : string := "m.room.power_levels".
Definition EVENT_ROOM_HISTORY_VISIBILITY : string := "m.room.history_visibility".
Definition EVENT_ROOM_CREATE : string := "m.room.create".
Definition KEY_FORWARDED : string := "forwarded".
Definition KEY_FORWARDED_FROM : string := "forwarded_from".

Inductive SendState :=
| LocalEcho
| Sending
| Sent
| SendFailed (reason : string).

Inductive StateChangeSummary :=
| SMember (user_id : string) (membership : Membership) (displayname : option string)
| SName (name : string)
| STopic (topic : string).

Inductive ItemContent :=
| IText (inner : TextLikeMessageContent)
| INotice (inner : TextLikeMessageContent)
| IEmote (inner : TextLikeMessageContent)
| IEncrypted (session_id ciphertext_b64 : string)
| IUndecryptable (reason : string)
| IRedacted
| IStateChange (summary : StateChangeSummary)
| IUnknown.

Inductive Forwarded :=
| FHidden
| FChannel (room_id : RoomId) (room_name : string).

Definition parse_forwarded (event_type : string) (content : Value) : option Forwarded :=
  if negb (bool_decide (event_type = EVENT_ROOM_MESSAGE)) then None
  else
    let channel :=
      from ← get content KEY_FORWARDED_FROM;
      room_id ← get from "room_id" ≫= as_str;
      room_id ← ok (RoomId_parse room_id);
      room_name ← get from "room_name" ≫= as_str;
      Some (FChannel room_id room_name) in
    match channel with
    | Some forwarded => Some forwarded
    | None =>
        match get content KEY_FORWARDED ≫= as_bool with
        | Some true => Some FHidden
        | _ => None
        end
    end.

Record DecryptedEvent := mkDecrypted { de_event_type : string; de_content : Value }.

Inductive ForwardRefusal :=
| FMissing
| FRedacted
| FSealed
| FNotForwardable (event_type : string).

Record ForwardSource := mkForwardSource { fs_event_type : string; fs_content : Value }.

Record GapMarker := mkGap { gap_prev_batch : option string }.

Record TimelineItem := mkItem {
  ti_event_id : option EventId;
  ti_txn_id : option TxnId;
  ti_sender : UserId;
  ti_origin_server_ts : Z;
  ti_event_type : string;
  ti_state_key : option string;
  ti_content : ItemContent;
  ti_relations : RelationsBundle;
  ti_send_state : SendState;
  ti_redacted : bool;
  ti_raw_content : Value;
  ti_forwarded : option Forwarded;
  ti_decrypted : option DecryptedEvent }.

Definition item_with_relations (i : TimelineItem) (b : RelationsBundle) : TimelineItem :=
  mkItem (ti_event_id i) (ti_txn_id i) (ti_sender i) (ti_origin_server_ts i) (ti_event_type i) (ti_state_key i)
    (ti_content i) b (ti_send_state i) (ti_redacted i) (ti_raw_content i) (ti_forwarded i) (ti_decrypted i).

Definition item_with_send_state (i : TimelineItem) (s : SendState) : TimelineItem :=
  mkItem (ti_event_id i) (ti_txn_id i) (ti_sender i) (ti_origin_server_ts i) (ti_event_type i) (ti_state_key i)
    (ti_content i) (ti_relations i) s (ti_redacted i) (ti_raw_content i) (ti_forwarded i) (ti_decrypted i).

Definition item_with_event_id (i : TimelineItem) (e : option EventId) : TimelineItem :=
  mkItem e (ti_txn_id i) (ti_sender i) (ti_origin_server_ts i) (ti_event_type i) (ti_state_key i)
    (ti_content i) (ti_relations i) (ti_send_state i) (ti_redacted i) (ti_raw_content i) (ti_forwarded i) (ti_decrypted i).

(** Content with what else decryption or redaction sets. *)
Definition item_with_content (i : TimelineItem) (c : ItemContent) (redacted : bool) (f : option Forwarded)
    (d : option DecryptedEvent) : TimelineItem :=
  mkItem (ti_event_id i) (ti_txn_id i) (ti_sender i) (ti_origin_server_ts i) (ti_event_type i) (ti_state_key i)
    c (ti_relations i) (ti_send_state i) redacted (ti_raw_content i) f d.

Record Timeline := mkTimeline {
  items : list TimelineItem;
  by_event_id : gmap EventId nat;
  by_txn_id : gmap TxnId nat;
  relation_contributions : gmap EventId EventId;
  relating_events_by_target : gmap EventId (list RelatingEvent);
  pending_relations : gmap EventId (list RelatingEvent);
  pending_relation_order : list EventId;
  pending_redactions : gmap EventId EventId;
  pending_redaction_order : list EventId;
  gap : option GapMarker;
  older_token : option string }.

Definition Timeline_new : Timeline := mkTimeline [] ∅ ∅ ∅ ∅ ∅ [] ∅ [] None None.

Definition with_items (t : Timeline) l : Timeline :=
  mkTimeline l (by_event_id t) (by_txn_id t) (relation_contributions t) (relating_events_by_target t)
    (pending_relations t) (pending_relation_order t) (pending_redactions t) (pending_redaction_order t) (gap t) (older_token t).
Definition with_index (t : Timeline) e x : Timeline :=
  mkTimeline (items t) e x (relation_contributions t) (relating_events_by_target t)
    (pending_relations t) (pending_relation_order t) (pending_redactions t) (pending_redaction_order t) (gap t) (older_token t).
Definition with_contributions (t : Timeline) c r : Timeline :=
  mkTimeline (items t) (by_event_id t) (by_txn_id t) c r
    (pending_relations t) (pending_relation_order t) (pending_redactions t) (pending_redaction_order t) (gap t) (older_token t).
Definition with_pending_relations (t : Timeline) p o : Timeline :=
  mkTimeline (items t) (by_event_id t) (by_txn_id t) (relation_contributions t) (relating_events_by_target t)
    p o (pending_redactions t) (pending_redaction_order t) (gap t) (older_token t).
Definition with_pending_redactions (t : Timeline) p o : Timeline :=
  mkTimeline (items t) (by_event_id t) (by_txn_id t) (relation_contributions t) (relating_events_by_target t)
    (pending_relations t) (pending_relation_order t) p o (gap t) (older_token t).
Definition with_gap (t : Timeline) g : Timeline :=
  mkTimeline (items t) (by_event_id t) (by_txn_id t) (relation_contributions t) (relating_events_by_target t)
    (pending_relations t) (pending_relation_order t) (pending_redactions t) (pending_redaction_order t) g (older_token t).
Definition with_older_token (t : Timeline) o : Timeline :=
  mkTimeline (items t) (by_event_id t) (by_txn_id t) (relation_contributions t) (relating_events_by_target t)
    (pending_relations t) (pending_relation_order t) (pending_redactions t) (pending_redaction_order t) (gap t) o.

(** [self.items[idx] = f(self.items[idx])], which panics out of range. *)
Definition update_item (t : Timeline) (idx : nat) (f : TimelineItem → TimelineItem) : option Timeline :=
  item ← items t !! idx;
  Some (with_items t (<[idx := f item]> (items t))).

Section Timeline.
Context `{EventSerde}.

(** [.and_then(|value| serde_json::from_value::<Membership>(..).ok()).unwrap_or(Membership::Unknown)] *)
Definition membership_of (content : Value) : Membership :=
  default MUnknown (get content "membership" ≫= membership_from_value).

Definition interpret_state_change (event_type state_key : string) (content : Value) : ItemContent :=
  if decide (event_type = EVENT_ROOM_MEMBER) then
    IStateChange (SMember state_key (membership_of content) (get content "displayname" ≫= as_str))
  else if decide (event_type = EVENT_ROOM_NAME) then
    IStateChange (SName (default EmptyString (get content "name" ≫= as_str)))
  else if decide (event_type = EVENT_ROOM_TOPIC) then
    IStateChange (STopic (default EmptyString (get content "topic" ≫= as_str)))
  else IUnknown.

Definition interpret_content (event_type : string) (state_key : option string) (content : Value) : ItemContent :=
  match state_key with
  | Some state_key => interpret_state_change event_type state_key content
  | None =>
      if decide (event_type = EVENT_ROOM_MESSAGE) then
        match room_message_from_value content with
        | Some (MsgText inner) => IText inner
        | Some (MsgNotice inner) => INotice inner
        | Some (MsgEmote inner) => IEmote inner
        | _ => IUnknown
        end
      else if decide (event_type = EVENT_ROOM_ENCRYPTED) then
        match room_encrypted_from_value content with
        | Some (EncMegolm inner) => IEncrypted (mg_session_id inner) (mg_ciphertext inner)
        | _ => IUndecryptable "m.room.encrypted event in a room timeline was not the megolm algorithm"
        end
      else IUnknown
  end.

Definition content_after_redaction (event_type : string) (state_key : option string) (content : Value) : ItemContent :=
  if decide (event_type = EVENT_ROOM_MEMBER) then
    IStateChange (SMember (default EmptyString state_key) (membership_of content) None)
  else if decide (event_type = EVENT_ROOM_POWER_LEVELS ∨ event_type = EVENT_ROOM_HISTORY_VISIBILITY ∨
                  event_type = EVENT_ROOM_CREATE) then IUnknown
  else IRedacted.

Definition build_own_relation_pointers (event : RawEvent) : RelationsBundle :=
  match relates_to event with
  | Some (RInReplyTo reply) => mkBundle ∅ None (Some (irt_event_id reply)) None
  | Some (Thread event_id _ in_reply_to) => mkBundle ∅ None (irt_event_id <$> in_reply_to) (Some event_id)
  | _ => Bundle_default
  end.

Definition build_item (event : RawEvent) : TimelineItem :=
  let already_redacted := is_some (un_redacted_because (re_unsigned event)) in
  let content :=
    if already_redacted then content_after_redaction (re_event_type event) (re_state_key event) (re_content event)
    else interpret_content (re_event_type event) (re_state_key event) (re_content event) in
  let forwarded :=
    if already_redacted || is_some (re_state_key event) then None
    else parse_forwarded (re_event_type event) (re_content event) in
  mkItem (Some (re_event_id event)) (mkTxnId <$> un_transaction_id (re_unsigned event)) (re_sender event)
    (re_origin_server_ts event) (re_event_type event) (re_state_key event) content
    (build_own_relation_pointers event) Sent already_redacted (re_content event) forwarded None.

Definition redact_item (item : TimelineItem) : TimelineItem :=
  item_with_content item (content_after_redaction (ti_event_type item) (ti_state_key item) (ti_raw_content item))
    true None None.

Definition item_by_event_id (t : Timeline) (event_id : EventId) : option (option TimelineItem) :=
  match by_event_id t !! event_id with
  | None => Some None
  | Some idx => item ← items t !! idx; Some (Some item)
  end.

Definition relating_events_for (t : Timeline) (target : EventId) : list RelatingEvent :=
  default [] (relating_events_by_target t !! target).

(** ** Waiting relations and redactions *)

(** The [while] loop of [queue_pending_relation]. *)
Fixpoint evict_relations (pending : gmap EventId (list RelatingEvent)) (order : list EventId) :
    gmap EventId (list RelatingEvent) * list EventId :=
  if (PENDING_CAPACITY <? length order)%nat then
    match order with
    | [] => (pending, [])
    | oldest_target :: order =>
        let pending :=
          match pending !! oldest_target with
          | Some (_ :: []) | Some [] => delete oldest_target pending
          | Some (_ :: rest) => <[oldest_target := rest]> pending
          | None => pending
          end in
        evict_relations pending order
    end
  else (pending, order).

Definition queue_pending_relation (t : Timeline) (target : EventId) (relating : RelatingEvent) : Timeline :=
  let pending := <[target := default [] (pending_relations t !! target) ++ [relating]]> (pending_relations t) in
  let order := pending_relation_order t ++ [target] in
  let '(pending, order) := evict_relations pending order in
  with_pending_relations t pending order.

(** The [while] loop of [queue_pending_redaction]. *)
Fixpoint evict_redactions (pending : gmap EventId EventId) (order : list EventId) : gmap EventId EventId * list EventId :=
  if (PENDING_CAPACITY <? length order)%nat then
    match order with
    | [] => (pending, [])
    | oldest :: order => evict_redactions (delete oldest pending) order
    end
  else (pending, order).

Definition queue_pending_redaction (t : Timeline) (target redaction_event_id : EventId) : Timeline :=
  match pending_redactions t !! target with
  | Some _ => t
  | None =>
      let pending := <[target := redaction_event_id]> (pending_redactions t) in
      let order := pending_redaction_order t ++ [target] in
      let '(pending, order) := evict_redactions pending order in
      with_pending_redactions t pending order
  end.

(** Folds [relating] onto the row at [idx], whose id is [target]. *)
Definition fold_at (t : Timeline) (idx : nat) (target : EventId) (relating : RelatingEvent) : option Timeline :=
  item ← items t !! idx;
  let '(bundle, accepted) := aggregate_relation (ti_relations item) (ti_sender item) relating in
  t ← update_item t idx (λ item, item_with_relations item bundle);
  Some (if accepted : bool then
          with_contributions t (<[rl_event_id relating := target]> (relation_contributions t))
            (<[target := relating_events_for t target ++ [relating]]> (relating_events_by_target t))
        else t).

Definition fold_or_queue_relation (t : Timeline) (relating : RelatingEvent) : option Timeline :=
  match rl_relation relating with
  | Annotation target _ | Replace target =>
      match by_event_id t !! target with
      | None => Some (queue_pending_relation t target relating)
      | Some idx => fold_at t idx target relating
      end
  | _ => Some t
  end.

Definition apply_relation_contribution (t : Timeline) (event : RawEvent) (relation : RelatesTo) : option Timeline :=
  let new_content := match relation with Replace _ => get (re_content event) "m.new_content" | _ => None end in
  fold_or_queue_relation t
    (mkRelating (re_event_id event) (re_sender event) (re_origin_server_ts event) relation new_content).

(** The loop of [resolve_pending_for]. *)
Fixpoint fold_pending (t : Timeline) (idx : nat) (event_id : EventId) (pending : list RelatingEvent) : option Timeline :=
  match pending with
  | [] => Some t
  | relating :: pending => t ← fold_at t idx event_id relating; fold_pending t idx event_id pending
  end.

Definition resolve_pending_for (t : Timeline) (event_id : EventId) (idx : nat) : option Timeline :=
  t ← match pending_redactions t !! event_id with
      | Some _ =>
          update_item (with_pending_redactions t (delete event_id (pending_redactions t)) (pending_redaction_order t)) idx redact_item
      | None => Some t
      end;
  match pending_relations t !! event_id with
  | Some pending =>
      _ ← items t !! idx;
      fold_pending (with_pending_relations t (delete event_id (pending_relations t)) (pending_relation_order t)) idx event_id pending
  | None => Some t
  end.

Definition apply_or_queue_redaction (t : Timeline) (redaction_event_id target : EventId) : option Timeline :=
  match by_event_id t !! target with
  | Some idx => update_item t idx redact_item
  | None =>
      match relation_contributions t !! target with
      | Some bundle_target =>
          let contributions := delete target (relation_contributions t) in
          let relating :=
            match relating_events_by_target t !! bundle_target with
            | Some l => <[bundle_target := filter (λ r, rl_event_id r ≠ target) l]> (relating_events_by_target t)
            | None => relating_events_by_target t
            end in
          let t := with_contributions t contributions relating in
          match by_event_id t !! bundle_target with
          | Some target_idx =>
              update_item t target_idx (λ item,
                item_with_relations item (recompute_bundle (ti_sender item) (relating_events_for t bundle_target)))
          | None => Some t
          end
      | None => Some (queue_pending_redaction t target redaction_event_id)
      end
  end.

Definition apply_redaction (t : Timeline) (target : EventId) : option Timeline := apply_or_queue_redaction t target target.

(** ** Rows *)

Definition insert_opt {K} `{Countable K} (k : option K) (idx : nat) (m : gmap K nat) : gmap K nat :=
  match k with Some k => <[k := idx]> m | None => m end.

Definition insert_new_item (t : Timeline) (item : TimelineItem) : option Timeline :=
  let idx := length (items t) in
  let t := with_index t (insert_opt (ti_event_id item) idx (by_event_id t)) (insert_opt (ti_txn_id item) idx (by_txn_id t)) in
  let t := with_items t (items t ++ [item]) in
  match ti_event_id item with
  | Some event_id => resolve_pending_for t event_id idx
  | None => Some t
  end.

Definition reconcile_local_echo (t : Timeline) (idx : nat) (confirmed : TimelineItem) : option Timeline :=
  let t := with_index t (insert_opt (ti_event_id confirmed) idx (by_event_id t)) (by_txn_id t) in
  t ← update_item t idx (λ _, confirmed);
  match ti_event_id confirmed with
  | Some event_id => resolve_pending_for t event_id idx
  | None => Some t
  end.

(** A reaction or an edit. *)
Definition contributed (relation : option RelatesTo) : option RelatesTo :=
  match relation with
  | Some (Annotation _ _ as r) | Some (Replace _ as r) => Some r
  | _ => None
  end.

Definition apply_one_event (t : Timeline) (event : RawEvent) : option Timeline :=
  if decide (re_event_type event = EVENT_ROOM_REDACTION) then
    match redaction_from_value (re_content event) with
    | Some redaction => apply_or_queue_redaction t (re_event_id event) (rd_redacts redaction)
    | None => Some t
    end
  else
    match (if is_none (re_state_key event) && negb (bool_decide (re_event_type event = EVENT_ROOM_ENCRYPTED))
           then contributed (relates_to event) else None) with
    | Some relation => apply_relation_contribution t event relation
    | None =>
        let item := build_item event in
        match ti_txn_id item ≫= λ txn_id, by_txn_id t !! txn_id with
        | Some idx => reconcile_local_echo t idx item
        | None =>
            match ti_event_id item ≫= λ event_id, by_event_id t !! event_id with
            | Some idx => update_item t idx (λ _, item)
            | None => insert_new_item t item
            end
        end
    end.

Fixpoint apply_events (t : Timeline) (events : list RawEvent) : option Timeline :=
  match events with
  | [] => Some t
  | event :: events => t ← apply_one_event t event; apply_events t events
  end.

Definition apply_timeline_batch (t : Timeline) (events : list RawEvent) (limited : bool) (prev_batch : option string) :
    option Timeline :=
  let t := if limited then with_gap t (Some (mkGap prev_batch)) else t in
  apply_events t events.

Definition push_local_echo (t : Timeline) (txn_id : TxnId) (sender : UserId) (origin_server_ts : Z) (event_type : string)
    (content : ItemContent) (wire_content : Value) : option Timeline :=
  insert_new_item t
    (mkItem None (Some txn_id) sender origin_server_ts event_type None content Bundle_default LocalEcho false
       wire_content (parse_forwarded event_type wire_content) None).

Definition mark_send_state (t : Timeline) (txn_id : TxnId) (send_state : SendState) : option Timeline :=
  match by_txn_id t !! txn_id with
  | Some idx => update_item t idx (λ item, item_with_send_state item send_state)
  | None => Some t
  end.

(** The first loop of [prepend_back_page]. *)
Fixpoint read_page (t : Timeline) (events : list RawEvent) (new_items : list TimelineItem) :
    option (Timeline * list TimelineItem) :=
  match events with
  | [] => Some (t, new_items)
  | event :: events =>
      if is_some (by_event_id t !! re_event_id event) then read_page t events new_items
      else if decide (re_event_type event = EVENT_ROOM_REDACTION) then
        t ← match redaction_from_value (re_content event) with
            | Some redaction => apply_or_queue_redaction t (re_event_id event) (rd_redacts redaction)
            | None => Some t
            end;
        read_page t events new_items
      else
        match (if is_none (re_state_key event) then contributed (relates_to event) else None) with
        | Some relation =>
            t ← apply_relation_contribution t event relation;
            read_page t events new_items
        | None => read_page t events (new_items ++ [build_item event])
        end
  end.

(** The index maps of the rows from [idx] on. *)
Fixpoint index_from (idx : nat) (rows : list TimelineItem) (e : gmap EventId nat) (x : gmap TxnId nat) :
    gmap EventId nat * gmap TxnId nat :=
  match rows with
  | [] => (e, x)
  | item :: rows => index_from (S idx) rows (insert_opt (ti_event_id item) idx e) (insert_opt (ti_txn_id item) idx x)
  end.

Definition reindex (t : Timeline) : Timeline :=
  let '(e, x) := index_from 0 (items t) ∅ ∅ in with_index t e x.

(** The last loop of [prepend_back_page]: [n] rows from [idx] on. *)
Fixpoint resolve_rows (t : Timeline) (idx n : nat) : option Timeline :=
  match n with
  | O => Some t
  | S n =>
      item ← items t !! idx;
      t ← match ti_event_id item with
          | Some event_id => resolve_pending_for t event_id idx
          | None => Some t
          end;
      resolve_rows t (S idx) n
  end.

Definition prepend_back_page (t : Timeline) (events : list RawEvent) (end_token : option string) : option Timeline :=
  '(t, new_items) ← read_page t events [];
  let inserted_count := length new_items in
  let t := with_items t (new_items ++ items t) in
  let t := with_older_token t end_token in
  let t := reindex t in
  resolve_rows t 0 inserted_count.

Definition set_decrypted (t : Timeline) (event_id : EventId) (content : ItemContent) : option Timeline :=
  match by_event_id t !! event_id with
  | Some idx =>
      update_item t idx (λ item, item_with_content item content (ti_redacted item) (ti_forwarded item) (ti_decrypted item))
  | None => Some t
  end.

Definition set_decrypted_event (t : Timeline) (event_id : EventId) (event_type : string) (content : Value) : option Timeline :=
  match by_event_id t !! event_id with
  | None => Some t
  | Some idx =>
      update_item t idx (λ item,
        item_with_content item (interpret_content event_type None content) (ti_redacted item)
          (parse_forwarded event_type content) (Some (mkDecrypted event_type content)))
  end.

(** [None] is the panic of [item_by_event_id]. *)
Definition forward_source (t : Timeline) (event_id : EventId) : option (result ForwardSource ForwardRefusal) :=
  item ← item_by_event_id t event_id;
  Some match item with
  | None => Err FMissing
  | Some item =>
      if ti_redacted item then Err FRedacted
      else
        match ti_content item with
        | IRedacted => Err FRedacted
        | IEncrypted _ _ | IUndecryptable _ => Err FSealed
        | _ =>
            let '(event_type, original) :=
              match ti_decrypted item with
              | Some decrypted => (de_event_type decrypted, de_content decrypted)
              | None => (ti_event_type item, ti_raw_content item)
              end in
            let not_forwardable := FNotForwardable event_type in
            if is_some (ti_state_key item) || negb (bool_decide (event_type = EVENT_ROOM_MESSAGE)) then Err not_forwardable
            else
              let? content := match latest_edit (ti_relations item) with
                              | Some edit => ok_or (room_message_to_value (ed_content edit)) not_forwardable
                              | None => Ok original
                              end in
              let content := match get content "m.new_content" with
                             | Some replacement => if is_object replacement then replacement else content
                             | None => content
                             end in
              if negb (is_object content) then Err not_forwardable
              else Ok (mkForwardSource event_type content)
        end
  end.

Definition apply_decrypted_relation (t : Timeline) (event_id : EventId) (sender : UserId) (origin_server_ts : Z)
    (relation : RelatesTo) (new_content : option Value) : option (Timeline * bool) :=
  match relation with
  | Annotation _ _ | Replace _ =>
      match by_event_id t !! event_id with
      | None => Some (t, false)
      | Some idx =>
          _ ← items t !! idx;
          let t := with_items t (take idx (items t) ++ drop (S idx) (items t)) in
          let t := reindex t in
          t ← fold_or_queue_relation t (mkRelating event_id sender origin_server_ts relation new_content);
          Some (t, true)
      end
  | _ => Some (t, false)
  end.

Definition set_echo_event_id (t : Timeline) (txn_id : TxnId) (event_id : EventId) : option Timeline :=
  match by_txn_id t !! txn_id with
  | None => Some t
  | Some idx =>
      t ← update_item t idx (λ item, item_with_send_state (item_with_event_id item (Some event_id)) Sent);
      Some (with_index t (<[event_id := idx]> (by_event_id t)) (by_txn_id t))
  end.

(** [timeline.items.iter().rev().find(..)] *)
Definition last_preview (t : Timeline) : option TimelineItem :=
  List.find (λ item, negb (ti_redacted item) &&
    match ti_content item with IEncrypted _ _ | IUndecryptable _ | IStateChange _ => false | _ => true end)
    (rev (items t)).

End Timeline.
