(* ===== verification/TimelineProps.v ===== *)
(** * The timeline's indexes and waiting contributions

    The theorems: no sequence of calls on a timeline panics, because its indexes always point at
    rows; and reactions, edits and redactions received before their target end up on it exactly as
    if they had arrived after it. The last module shows on concrete inputs where the code does not
    do what its documentation says. *)

From S2P Require Import Prelude Ids Json Events Relations Timeline.

Local Open Scope Z_scope.

Section Props.
Context `{EventSerde}.

(** ** The indexes *)

Record indexed (t : Timeline) : Prop := {
  ix_event e i : by_event_id t !! e = Some i → (i < length (items t))%nat;
  ix_txn x i : by_txn_id t !! x = Some i → (i < length (items t))%nat;
  ix_complete i item e : items t !! i = Some item → ti_event_id item = Some e → is_Some (by_event_id t !! e)
}.

(** Same rows, as far as the indexes are concerned. *)
Definition same_rows (t t' : Timeline) : Prop :=
  by_event_id t' = by_event_id t ∧ by_txn_id t' = by_txn_id t ∧ ti_event_id <$> items t' = ti_event_id <$> items t.

#[local] Instance same_rows_refl : Reflexive same_rows.
Proof. by intros t. Qed.
#[local] Instance same_rows_trans : Transitive same_rows.
Proof. intros t1 t2 t3 (E1 & E2 & E3) (F1 & F2 & F3). split_and!; congruence. Qed.

Lemma same_rows_length t t' : same_rows t t' → length (items t') = length (items t).
Proof. intros (_ & _ & Heq). by rewrite <- (length_fmap ti_event_id (items t')), Heq, length_fmap. Qed.

Lemma same_rows_indexed t t' : same_rows t t' → indexed t → indexed t'.
Proof.
  intros Hs [A1 A2 A3]. pose proof (same_rows_length _ _ Hs) as Hl. destruct Hs as (E1 & E2 & E3).
  split; rewrite ?E1, ?E2, ?Hl; try done. intros i item e Hi He.
  assert (Hfm : (ti_event_id <$> items t) !! i = Some (Some e)) by (rewrite <- E3, list_lookup_fmap, Hi; cbn; by rewrite He).
  rewrite list_lookup_fmap in Hfm. destruct (items t !! i) as [item0|] eqn:Hi0; cbn in Hfm; [|discriminate].
  injection Hfm as Hfm. by eapply A3.
Qed.

Lemma update_item_rows t idx f :
  (idx < length (items t))%nat → (∀ item, ti_event_id (f item) = ti_event_id item) →
  ∃ t', update_item t idx f = Some t' ∧ same_rows t t'.
Proof.
  intros Hlt Hf. destruct (lookup_lt_is_Some_2 _ _ Hlt) as [item Hi]. unfold update_item. rewrite Hi.
  eexists. split; [done|]. split_and!; [done|done|]. cbn. rewrite list_fmap_insert, Hf.
  apply list_insert_id. by rewrite list_lookup_fmap, Hi.
Qed.

Lemma fold_at_rows t idx target r :
  (idx < length (items t))%nat → ∃ t', fold_at t idx target r = Some t' ∧ same_rows t t'.
Proof.
  intros Hlt. unfold fold_at. destruct (lookup_lt_is_Some_2 _ _ Hlt) as [item Hi]. rewrite Hi. cbn.
  destruct (aggregate_relation _ _ _) as [b acc].
  destruct (update_item_rows t idx (λ item, item_with_relations item b)) as (t' & -> & Hs); [done|done|].
  eexists. split; [done|]. by destruct acc.
Qed.

Lemma queue_relation_rows t target r : same_rows t (queue_pending_relation t target r).
Proof. unfold queue_pending_relation. by destruct (evict_relations _ _). Qed.

Lemma queue_redaction_rows t target r : same_rows t (queue_pending_redaction t target r).
Proof. unfold queue_pending_redaction. destruct (pending_redactions t !! target); [done|]. by destruct (evict_redactions _ _). Qed.

Lemma fold_or_queue_rows t r : indexed t → ∃ t', fold_or_queue_relation t r = Some t' ∧ same_rows t t'.
Proof.
  intros Hix. unfold fold_or_queue_relation. destruct (rl_relation r) as [target ?|target|? ? ?|?|?]; eauto using same_rows_refl.
  all: destruct (by_event_id t !! target) as [idx|] eqn:Hb; [|eauto using queue_relation_rows].
  all: apply fold_at_rows; by eapply ix_event.
Qed.

Lemma fold_pending_rows rs t idx e :
  (idx < length (items t))%nat → ∃ t', fold_pending t idx e rs = Some t' ∧ same_rows t t'.
Proof.
  revert t; induction rs as [|r rs IH]; intros t Hlt; cbn; [eauto using same_rows_refl|].
  destruct (fold_at_rows t idx e r Hlt) as (t1 & -> & H1). cbn.
  destruct (IH t1) as (t2 & -> & H2); [by rewrite (same_rows_length _ _ H1)|]. eexists. split; [done|]. by etrans.
Qed.

Lemma resolve_rows_ok t e idx :
  (idx < length (items t))%nat → ∃ t', resolve_pending_for t e idx = Some t' ∧ same_rows t t'.
Proof.
  intros Hlt. unfold resolve_pending_for.
  assert (∃ t1, match pending_redactions t !! e with
      | Some _ => update_item (with_pending_redactions t (delete e (pending_redactions t)) (pending_redaction_order t)) idx redact_item
      | None => Some t end = Some t1 ∧ same_rows t t1) as (t1 & -> & H1).
  { destruct (pending_redactions t !! e); [|eauto using same_rows_refl].
    edestruct update_item_rows as (t1 & -> & H1); [| |by exists t1; split; [done|exact H1]]; done. }
  cbn. assert (Hlt1 : (idx < length (items t1))%nat) by (by rewrite (same_rows_length _ _ H1)).
  destruct (pending_relations t1 !! e) as [pending|]; [|eauto].
  destruct (lookup_lt_is_Some_2 _ _ Hlt1) as [item ->]. cbn.
  edestruct fold_pending_rows as (t2 & -> & H2); [|eexists; split; [done|]; etrans; [exact H1|exact H2]]. done.
Qed.

Lemma redaction_rows t rid target : indexed t → ∃ t', apply_or_queue_redaction t rid target = Some t' ∧ same_rows t t'.
Proof.
  intros Hix. unfold apply_or_queue_redaction. destruct (by_event_id t !! target) as [idx|] eqn:Hb.
  { apply update_item_rows; [by eapply ix_event|done]. }
  destruct (relation_contributions t !! target) as [bt|]; [|eauto using queue_redaction_rows].
  set (t0 := with_contributions _ _ _).
  destruct (by_event_id t0 !! bt) as [idx|] eqn:Hbt; [|by eexists].
  destruct (update_item_rows t0 idx (λ item,
    item_with_relations item (recompute_bundle (ti_sender item) (relating_events_for t0 bt)))) as (t1 & -> & H1);
    [by eapply (ix_event t)|done|]. by exists t1.
Qed.

Lemma contribution_rows t event r : indexed t → ∃ t', apply_relation_contribution t event r = Some t' ∧ same_rows t t'.
Proof. intros Hix. by apply fold_or_queue_rows. Qed.

(** *** Rows that come and go *)

Lemma insert_opt_bound {K} `{Countable K} (k : option K) n (m : gmap K nat) k' i b :
  (n < b)%nat → (∀ k i, m !! k = Some i → (i < b)%nat) → insert_opt k n m !! k' = Some i → (i < b)%nat.
Proof.
  intros Hn Hm. destruct k as [k|]; cbn; [|apply Hm].
  destruct (decide (k' = k)) as [->|]; [rewrite lookup_insert_eq; by intros [= <-]|].
  rewrite lookup_insert_ne by done. apply Hm.
Qed.

Lemma insert_opt_keeps {K} `{Countable K} (k : option K) n (m : gmap K nat) k' :
  is_Some (m !! k') ∨ k = Some k' → is_Some (insert_opt k n m !! k').
Proof.
  intros Hor. destruct k as [k|]; cbn; [|by destruct Hor].
  destruct (decide (k' = k)) as [->|]; [rewrite lookup_insert_eq; eauto|].
  rewrite lookup_insert_ne by done. destruct Hor; [done|congruence].
Qed.

Lemma indexed_resolve t e idx :
  indexed t → (idx < length (items t))%nat → ∃ t', resolve_pending_for t e idx = Some t' ∧ indexed t' ∧ same_rows t t'.
Proof. intros Hix Hlt. destruct (resolve_rows_ok t e idx Hlt) as (t' & -> & Hs). eauto using same_rows_indexed. Qed.

Lemma insert_new_item_indexed t item : indexed t → ∃ t', insert_new_item t item = Some t' ∧ indexed t'.
Proof.
  intros [A1 A2 A3]. unfold insert_new_item.
  set (t1 := with_items _ _).
  assert (Hix : indexed t1).
  { assert (Hl : length (items t1) = S (length (items t))) by (cbn; rewrite length_app; cbn; lia).
    split; [intros e i|intros x i|]; rewrite ?Hl.
    - cbn. apply insert_opt_bound; [lia|]. intros k j Hk. apply A1 in Hk. lia.
    - cbn. apply insert_opt_bound; [lia|]. intros k j Hk. apply A2 in Hk. lia.
    - intros i it e Hi He. cbn in *. apply insert_opt_keeps.
      apply lookup_app_Some in Hi as [Hi|[_ Hi]]; [left; by eapply A3|].
      apply list_lookup_singleton_Some in Hi as [_ <-]. by right. }
  destruct (ti_event_id item) as [e|]; [|eauto].
  destruct (indexed_resolve t1 e (length (items t))) as (t' & -> & ? & _); [done|cbn; rewrite length_app; cbn; lia|eauto].
Qed.

(** A row replaced by one whose event id is indexed. *)
Lemma replace_row_indexed t idx item e' :
  indexed t → (idx < length (items t))%nat →
  (∀ e i, e' !! e = Some i → (i < length (items t))%nat) → (∀ e, is_Some (by_event_id t !! e) → is_Some (e' !! e)) →
  (∀ e, ti_event_id item = Some e → is_Some (e' !! e)) →
  indexed (with_items (with_index t e' (by_txn_id t)) (<[idx := item]> (items t))).
Proof.
  intros [A1 A2 A3] Hlt He1 He2 He3. split; cbn; rewrite ?length_insert; try done.
  intros i it e Hi He. apply list_lookup_insert_Some in Hi as [(-> & <- & _)|(_ & Hi)]; [by apply He3|].
  apply He2. by eapply A3.
Qed.

Lemma reconcile_indexed t idx item :
  indexed t → (idx < length (items t))%nat → ∃ t', reconcile_local_echo t idx item = Some t' ∧ indexed t'.
Proof.
  intros Hix Hlt. unfold reconcile_local_echo, update_item. cbn [items with_index].
  destruct (lookup_lt_is_Some_2 _ _ Hlt) as [old ->]. cbn.
  assert (Hix' : indexed (with_items (with_index t (insert_opt (ti_event_id item) idx (by_event_id t)) (by_txn_id t))
    (<[idx := item]> (items t)))).
  { apply replace_row_indexed; [done|done| | |].
    - intros e i. apply insert_opt_bound; [done|apply ix_event, Hix].
    - intros e He. apply insert_opt_keeps. by left.
    - intros e He. apply insert_opt_keeps. by right. }
  destruct (ti_event_id item) as [e|]; [|eauto].
  destruct (indexed_resolve _ e idx Hix') as (t' & -> & ? & _); [cbn; by rewrite length_insert|eauto].
Qed.

Lemma apply_one_event_indexed t event : indexed t → ∃ t', apply_one_event t event = Some t' ∧ indexed t'.
Proof.
  intros Hix. unfold apply_one_event.
  destruct (decide _); [destruct (redaction_from_value _) as [rd|]; [|eauto];
    destruct (redaction_rows t (re_event_id event) (rd_redacts rd) Hix) as (t' & -> & ?); eauto using same_rows_indexed|].
  destruct (if _ : bool then _ else _) as [r|].
  { destruct (contribution_rows t event r Hix) as (t' & -> & ?); eauto using same_rows_indexed. }
  destruct (ti_txn_id (build_item event) ≫= _) as [idx|] eqn:Htx.
  { apply reconcile_indexed; [done|]. apply bind_Some in Htx as (x & _ & Hx). by eapply ix_txn. }
  destruct (ti_event_id (build_item event) ≫= _) as [idx|] eqn:Hev; [|by apply insert_new_item_indexed].
  apply bind_Some in Hev as (e & He & Hx). pose proof (ix_event _ Hix _ _ Hx) as Hlt.
  unfold update_item. destruct (lookup_lt_is_Some_2 _ _ Hlt) as [old ->]. eexists. split; [done|].
  pose proof (replace_row_indexed t idx (build_item event) (by_event_id t) Hix Hlt) as Hr.
  destruct t; apply Hr; [apply (ix_event _ Hix)|done|]. intros e' He'. rewrite He in He'. injection He' as <-. by rewrite Hx.
Qed.

Lemma apply_events_indexed events t : indexed t → ∃ t', apply_events t events = Some t' ∧ indexed t'.
Proof.
  revert t; induction events as [|event events IH]; intros t Hix; cbn; [eauto|].
  destruct (apply_one_event_indexed t event Hix) as (t1 & -> & H1). cbn. by apply IH.
Qed.

(** *** Rebuilding the indexes *)

Lemma index_from_spec rows idx e x e' x' b :
  index_from idx rows e x = (e', x') → (idx + length rows ≤ b)%nat →
  (∀ k i, e !! k = Some i → (i < b)%nat) → (∀ k i, x !! k = Some i → (i < b)%nat) →
  (∀ k i, e' !! k = Some i → (i < b)%nat) ∧ (∀ k i, x' !! k = Some i → (i < b)%nat) ∧
  (∀ k, is_Some (e !! k) → is_Some (e' !! k)) ∧
  (∀ item k, item ∈ rows → ti_event_id item = Some k → is_Some (e' !! k)).
Proof.
  revert idx e x; induction rows as [|item rows IH]; intros idx e x; cbn.
  - intros [= <- <-] _ He Hx. split_and!; try done. by intros ? ? ?%not_elem_of_nil.
  - intros Hi Hb He Hx. apply IH in Hi as (R1 & R2 & R3 & R4); [|lia| |].
    + split_and!; try done.
      * intros k Hk. apply R3, insert_opt_keeps. by left.
      * intros it k [->|Hin]%elem_of_cons Hk; [|by eapply R4]. apply R3, insert_opt_keeps. by right.
    + intros k i. apply insert_opt_bound; [lia|done].
    + intros k i. apply insert_opt_bound; [lia|done].
Qed.

Lemma reindex_indexed t : indexed (reindex t) ∧ items (reindex t) = items t.
Proof.
  unfold reindex. destruct (index_from 0 (items t) ∅ ∅) as [e x] eqn:Hi.
  destruct (index_from_spec _ _ _ _ _ _ (length (items t)) Hi) as (R1 & R2 & _ & R4);
    [lia|by intros k i; rewrite lookup_empty..|].
  split; [|done]. split; cbn; [done|done|]. intros i item k Hit Hk. eapply R4; [|done]. by eapply list_elem_of_lookup_2.
Qed.

Lemma resolve_all_indexed n idx t :
  indexed t → (idx + n ≤ length (items t))%nat → ∃ t', resolve_rows t idx n = Some t' ∧ indexed t'.
Proof.
  revert idx t; induction n as [|n IH]; intros idx t Hix Hle; cbn; [eauto|].
  destruct (lookup_lt_is_Some_2 (items t) idx) as [item ->]; [lia|]. cbn.
  assert (∃ t1, match ti_event_id item with Some e => resolve_pending_for t e idx | None => Some t end = Some t1 ∧
    indexed t1 ∧ length (items t1) = length (items t)) as (t1 & -> & H1 & Hl).
  { destruct (ti_event_id item) as [e|]; [|eauto].
    destruct (indexed_resolve t e idx Hix) as (t1 & -> & ? & Hs); [lia|]. eauto using same_rows_length. }
  cbn. apply IH; [done|lia].
Qed.

Lemma read_page_indexed events t acc :
  indexed t → ∃ t' acc', read_page t events acc = Some (t', acc') ∧ indexed t'.
Proof.
  revert t acc; induction events as [|event events IH]; intros t acc Hix; cbn; [eauto|].
  destruct (is_some _); [by apply IH|]. destruct (decide _).
  { assert (∃ t1, match redaction_from_value (re_content event) with
      | Some rd => apply_or_queue_redaction t (re_event_id event) (rd_redacts rd) | None => Some t end = Some t1 ∧ indexed t1)
      as (t1 & -> & H1).
    { destruct (redaction_from_value _) as [rd|]; [|eauto].
      destruct (redaction_rows t (re_event_id event) (rd_redacts rd) Hix) as (t1 & -> & ?); eauto using same_rows_indexed. }
    by apply IH. }
  destruct (if _ : bool then _ else _) as [r|]; [|by apply IH].
  destruct (contribution_rows t event r Hix) as (t1 & -> & Hs). cbn. apply IH. by eapply same_rows_indexed.
Qed.

Lemma prepend_indexed t events tok : indexed t → ∃ t', prepend_back_page t events tok = Some t' ∧ indexed t'.
Proof.
  intros Hix. unfold prepend_back_page.
  destruct (read_page_indexed events t [] Hix) as (t1 & acc & -> & H1). cbn -[reindex].
  destruct (reindex_indexed (with_older_token (with_items t1 (acc ++ items t1)) tok)) as [Hr Hit].
  apply resolve_all_indexed; [done|]. rewrite Hit. cbn. rewrite length_app. lia.
Qed.

Lemma decrypted_relation_indexed t e sender ts r nc :
  indexed t → ∃ t' b, apply_decrypted_relation t e sender ts r nc = Some (t', b) ∧ indexed t'.
Proof.
  intros Hix. unfold apply_decrypted_relation.
  destruct r; [..|by eauto|by eauto|by eauto].
  all: destruct (by_event_id t !! e) as [idx|] eqn:Hb; [|by eauto].
  all: destruct (lookup_lt_is_Some_2 _ _ (ix_event _ Hix _ _ Hb)) as [old ->]; cbn -[reindex fold_or_queue_relation].
  all: destruct (reindex_indexed (with_items t (take idx (items t) ++ drop (S idx) (items t)))) as [Hr _].
  all: edestruct fold_or_queue_rows as (t' & -> & Hs); [exact Hr|]; cbn; eauto using same_rows_indexed.
Qed.

Lemma set_echo_indexed t x e : indexed t → ∃ t', set_echo_event_id t x e = Some t' ∧ indexed t'.
Proof.
  intros Hix. unfold set_echo_event_id. destruct (by_txn_id t !! x) as [idx|] eqn:Hx; [|eauto].
  pose proof (ix_txn _ Hix _ _ Hx) as Hlt. unfold update_item. destruct (lookup_lt_is_Some_2 _ _ Hlt) as [old ->].
  cbn. eexists. split; [done|].
  pose proof (replace_row_indexed t idx (item_with_send_state (item_with_event_id old (Some e)) Sent)
    (<[e := idx]> (by_event_id t)) Hix Hlt) as Hr. apply Hr.
  - intros e' i. apply (insert_opt_bound (Some e)); [done|apply ix_event, Hix].
  - intros e' He'. apply (insert_opt_keeps (Some e)). by left.
  - intros e' He'. apply (insert_opt_keeps (Some e)). by right.
Qed.

(** ** Sequences of calls *)

Inductive TimelineCommand :=
| TBatch (events : list RawEvent) (limited : bool) (prev_batch : option string)
| TBackPage (events : list RawEvent) (end_token : option string)
| TRedaction (target : EventId)
| TLocalEcho (txn_id : TxnId) (sender : UserId) (origin_server_ts : Z) (event_type : string) (content : ItemContent)
    (wire_content : Value)
| TSendState (txn_id : TxnId) (send_state : SendState)
| TEchoEventId (txn_id : TxnId) (event_id : EventId)
| TDecrypted (event_id : EventId) (content : ItemContent)
| TDecryptedEvent (event_id : EventId) (event_type : string) (content : Value)
| TDecryptedRelation (event_id : EventId) (sender : UserId) (origin_server_ts : Z) (relation : RelatesTo)
    (new_content : option Value).

Definition run_timeline (t : Timeline) (c : TimelineCommand) : option Timeline :=
  match c with
  | TBatch events limited prev_batch => apply_timeline_batch t events limited prev_batch
  | TBackPage events end_token => prepend_back_page t events end_token
  | TRedaction target => apply_redaction t target
  | TLocalEcho x s ts ty c w => push_local_echo t x s ts ty c w
  | TSendState x s => mark_send_state t x s
  | TEchoEventId x e => set_echo_event_id t x e
  | TDecrypted e c => set_decrypted t e c
  | TDecryptedEvent e ty c => set_decrypted_event t e ty c
  | TDecryptedRelation e s ts r nc => fst <$> apply_decrypted_relation t e s ts r nc
  end.

Fixpoint run_timeline_all (t : Timeline) (cs : list TimelineCommand) : option Timeline :=
  match cs with
  | [] => Some t
  | c :: cs => t ← run_timeline t c; run_timeline_all t cs
  end.

Lemma run_timeline_indexed t c : indexed t → ∃ t', run_timeline t c = Some t' ∧ indexed t'.
Proof.
  assert (Hup : ∀ t idx f, indexed t → (idx < length (items t))%nat → (∀ item, ti_event_id (f item) = ti_event_id item) →
    ∃ t', update_item t idx f = Some t' ∧ indexed t').
  { intros t0 idx f Hix Hlt Hf. destruct (update_item_rows t0 idx f Hlt Hf) as (t1 & -> & ?). eauto using same_rows_indexed. }
  intros Hix. destruct c; cbn [run_timeline].
  - apply apply_events_indexed. destruct limited; [|done]. by destruct Hix; split.
  - by apply prepend_indexed.
  - unfold apply_redaction. destruct (redaction_rows t target target Hix) as (t' & -> & ?). eauto using same_rows_indexed.
  - by apply insert_new_item_indexed.
  - unfold mark_send_state. destruct (by_txn_id t !! txn_id) as [idx|] eqn:Hx; [|eauto]. apply Hup; [done|by eapply ix_txn|done].
  - by apply set_echo_indexed.
  - unfold set_decrypted. destruct (by_event_id t !! event_id) as [idx|] eqn:Hx; [|eauto]. apply Hup; [done|by eapply ix_event|done].
  - unfold set_decrypted_event. destruct (by_event_id t !! event_id) as [idx|] eqn:Hx; [|eauto].
    apply Hup; [done|by eapply ix_event|done].
  - destruct (decrypted_relation_indexed t event_id sender origin_server_ts relation new_content Hix) as (t' & b & -> & ?).
    cbn. eauto.
Qed.

Lemma new_indexed : indexed Timeline_new.
Proof. split; cbn; intros *; rewrite ?lookup_empty, ?lookup_nil; done. Qed.

(** Whatever is received, sent, decrypted and redacted, in any order and with any content, no
    call on a timeline panics: both indexes always point at existing rows, and every row with an
    event id can be found by it. *)
Theorem timeline_never_panics cs :
  ∃ t, run_timeline_all Timeline_new cs = Some t ∧ indexed t ∧ ∀ e, is_Some (item_by_event_id t e).
Proof.
  assert (Hall : ∀ cs t, indexed t → ∃ t', run_timeline_all t cs = Some t' ∧ indexed t').
  { induction cs0 as [|c cs0 IH]; intros t Hix; cbn; [eauto|].
    destruct (run_timeline_indexed t c Hix) as (t1 & -> & H1). cbn. by apply IH. }
  destruct (Hall cs _ new_indexed) as (t & Ht & Hix). exists t. split_and!; [done|done|].
  intros e. unfold item_by_event_id. destruct (by_event_id t !! e) as [idx|] eqn:He; [|eauto].
  destruct (lookup_lt_is_Some_2 _ _ (ix_event _ Hix _ _ He)) as [item ->]. cbn. eauto.
Qed.

(** ** Contributions that arrive before their target *)

Inductive LateOp :=
| LRedact (redaction_event_id : EventId)
| LRelate (relating : RelatingEvent).

Definition relating_of (event : RawEvent) (relation : RelatesTo) : RelatingEvent :=
  mkRelating (re_event_id event) (re_sender event) (re_origin_server_ts event) relation
    (match relation with Replace _ => get (re_content event) "m.new_content" | _ => None end).

(** The redaction of [target], or the reaction to or edit of it, that [event] is. *)
Definition late_op (target : EventId) (event : RawEvent) : option LateOp :=
  if decide (re_event_type event = EVENT_ROOM_REDACTION) then
    rd ← redaction_from_value (re_content event);
    if decide (rd_redacts rd = target) then Some (LRedact (re_event_id event)) else None
  else
    match (if is_none (re_state_key event) && negb (bool_decide (re_event_type event = EVENT_ROOM_ENCRYPTED))
           then contributed (relates_to event) else None) with
    | Some ((Annotation x _ | Replace x) as relation) =>
        if decide (x = target) then Some (LRelate (relating_of event relation)) else None
    | _ => None
    end.

Definition targets (target : EventId) (op : LateOp) : Prop :=
  match op with
  | LRedact _ => True
  | LRelate r => match rl_relation r with Annotation x _ | Replace x => x = target | _ => False end
  end.

Definition apply_late (t : Timeline) (target : EventId) (op : LateOp) : option Timeline :=
  match op with
  | LRedact rid => apply_or_queue_redaction t rid target
  | LRelate r => fold_or_queue_relation t r
  end.

Lemma late_op_apply t target event op :
  late_op target event = Some op → apply_one_event t event = apply_late t target op ∧ targets target op.
Proof.
  unfold late_op, apply_one_event. destruct (decide _).
  - destruct (redaction_from_value _) as [rd|]; cbn; [|discriminate].
    destruct (decide (rd_redacts rd = target)) as [->|]; [|discriminate]. by intros [= <-].
  - destruct (if _ : bool then _ else _) as [[x k|x|x ? ?|?|?]|]; try discriminate;
      (destruct (decide (x = target)) as [->|]; [|discriminate]; by intros [= <-]).
Qed.

(** What an operation does to the row, the contributions and the contributor lists. *)
Definition Parts : Type := TimelineItem * gmap EventId EventId * gmap EventId (list RelatingEvent).

Definition effect (target : EventId) (x : Parts) (op : LateOp) : Parts :=
  let '(item, contributions, relating) := x in
  match op with
  | LRedact _ => (redact_item item, contributions, relating)
  | LRelate r =>
      let '(bundle, accepted) := aggregate_relation (ti_relations item) (ti_sender item) r in
      (item_with_relations item bundle,
       if accepted : bool then <[rl_event_id r := target]> contributions else contributions,
       if accepted then <[target := default [] (relating !! target) ++ [r]]> relating else relating)
  end.

Definition parts (t : Timeline) (item : TimelineItem) : Parts :=
  (item, relation_contributions t, relating_events_by_target t).

Definition place (t : Timeline) (idx : nat) (x : Parts) : Timeline :=
  with_contributions (with_items t (<[idx := x.1.1]> (items t))) x.1.2 x.2.

Lemma place_place t idx x y : place (place t idx x) idx y = place t idx y.
Proof. unfold place. cbn. by rewrite list_insert_insert_eq. Qed.

Lemma place_parts t idx item : items t !! idx = Some item → place t idx (parts t item) = t.
Proof. intros Hi. unfold place, parts. cbn. rewrite list_insert_id by done. by destruct t. Qed.

Lemma fold_at_effect t idx target r item :
  items t !! idx = Some item → fold_at t idx target r = Some (place t idx (effect target (parts t item) (LRelate r))).
Proof.
  intros Hi. unfold fold_at, update_item. rewrite Hi. cbn.
  destruct (aggregate_relation _ _ _) as [b acc]. cbn. by destruct acc.
Qed.

Lemma apply_late_loaded t target idx item op :
  by_event_id t !! target = Some idx → items t !! idx = Some item → targets target op →
  apply_late t target op = Some (place t idx (effect target (parts t item) op)).
Proof.
  intros Hb Hi Ht. destruct op as [rid|r]; cbn [apply_late].
  - unfold apply_or_queue_redaction, update_item. by rewrite Hb, Hi.
  - unfold fold_or_queue_relation. cbn in Ht. destruct (rl_relation r); try done; subst; rewrite Hb; by apply fold_at_effect.
Qed.

Lemma place_lookup t idx item x : items t !! idx = Some item → items (place t idx x) !! idx = Some x.1.1.
Proof. intros Hi. cbn. rewrite list_lookup_insert_eq; [done|]. by eapply lookup_lt_Some. Qed.

Lemma parts_place t idx x item : items (place t idx x) !! idx = Some item → x.1.1 = item → parts (place t idx x) item = x.
Proof. intros _ <-. by destruct x as [[]]. Qed.

(** Operations on a row that is there. *)
Lemma loaded_all t target idx item events ops :
  by_event_id t !! target = Some idx → items t !! idx = Some item → mapM (late_op target) events = Some ops →
  apply_events t events = Some (place t idx (foldl (effect target) (parts t item) ops)).
Proof.
  intros Hb Hi Hops. apply mapM_Some in Hops.
  revert t item Hb Hi; induction Hops as [|event op events ops Hop Hops IH]; intros t item Hb Hi; cbn.
  - by rewrite place_parts.
  - destruct (late_op_apply t _ _ _ Hop) as [-> Ht]. rewrite (apply_late_loaded _ _ _ _ _ Hb Hi Ht). cbn -[effect].
    set (x := effect target (parts t item) op).
    rewrite (IH (place t idx x) x.1.1); [|done|by eapply place_lookup].
    assert (parts (place t idx x) x.1.1 = x) as -> by (destruct x as [[]]; done). by rewrite place_place.
Qed.

Lemma fold_pending_effect t idx target rs item :
  items t !! idx = Some item →
  fold_pending t idx target rs = Some (place t idx (foldl (effect target) (parts t item) (LRelate <$> rs))).
Proof.
  revert t item; induction rs as [|r rs IH]; intros t item Hi; cbn -[effect]; [by rewrite place_parts|].
  rewrite (fold_at_effect _ _ _ _ _ Hi). cbn -[effect]. set (x := effect target (parts t item) (LRelate r)).
  rewrite (IH (place t idx x) x.1.1) by (by eapply place_lookup).
  assert (parts (place t idx x) x.1.1 = x) as -> by (destruct x as [[]]; done). by rewrite place_place.
Qed.

(** *** Redactions can be moved to the front *)

Definition relates (ops : list LateOp) : list RelatingEvent :=
  omap (λ op, match op with LRelate r => Some r | LRedact _ => None end) ops.
Definition redacts (ops : list LateOp) : bool :=
  existsb (λ op, match op with LRelate _ => false | LRedact _ => true end) ops.

Definition redact_parts (x : Parts) : Parts := (redact_item x.1.1, x.1.2, x.2).

Lemma effect_redact target x rid : effect target x (LRedact rid) = redact_parts x.
Proof. by destruct x as [[item c] rl]. Qed.

Lemma redact_effect target x r :
  redact_parts (effect target x (LRelate r)) = effect target (redact_parts x) (LRelate r).
Proof. destruct x as [[item c] rl]. cbn. by destruct (aggregate_relation _ _ _) as [b acc]. Qed.

Lemma redact_effects target rs x :
  redact_parts (foldl (effect target) x (LRelate <$> rs)) = foldl (effect target) (redact_parts x) (LRelate <$> rs).
Proof.
  revert x; induction rs as [|r rs IH]; intros x; cbn -[effect]; [done|]. by rewrite IH, redact_effect.
Qed.

Lemma redact_twice x : redact_parts (redact_parts x) = redact_parts x.
Proof. by destruct x as [[item c] rl]. Qed.

Lemma effects_sorted target ops x :
  foldl (effect target) x ops =
  foldl (effect target) (if redacts ops then redact_parts x else x) (LRelate <$> relates ops).
Proof.
  induction ops as [|op ops IH] using rev_ind; [done|].
  rewrite foldl_app, IH. unfold relates, redacts. rewrite omap_app, existsb_app, fmap_app, foldl_app.
  fold (relates ops) (redacts ops). destruct op as [rid|r]; cbn -[effect].
  - rewrite orb_true_r.
    transitivity (redact_parts (foldl (effect target) (if redacts ops then redact_parts x else x) (LRelate <$> relates ops))).
    { apply effect_redact. }
    rewrite redact_effects. f_equal. destruct (redacts ops); [apply redact_twice|done].
  - by rewrite orb_false_r.
Qed.

(** *** Operations on a row that is not there yet *)

Lemma evict_relations_small p o : (length o ≤ PENDING_CAPACITY)%nat → evict_relations p o = (p, o).
Proof.
  intros Hle. destruct o as [|x o]; [done|]. unfold evict_relations.
  destruct (Nat.ltb_spec PENDING_CAPACITY (length (x :: o))); [lia|done].
Qed.

Lemma evict_redactions_small p o : (length o ≤ PENDING_CAPACITY)%nat → evict_redactions p o = (p, o).
Proof.
  intros Hle. destruct o as [|x o]; [done|]. unfold evict_redactions.
  destruct (Nat.ltb_spec PENDING_CAPACITY (length (x :: o))); [lia|done].
Qed.

(** [t'] is [t] with [ops] waiting for [target]. *)
Record waiting (target : EventId) (t : Timeline) (ops : list LateOp) (t' : Timeline) : Prop := {
  wt_items : items t' = items t;
  wt_event : by_event_id t' = by_event_id t;
  wt_txn : by_txn_id t' = by_txn_id t;
  wt_contributions : relation_contributions t' = relation_contributions t;
  wt_relating : relating_events_by_target t' = relating_events_by_target t;
  wt_relations : default [] (pending_relations t' !! target) = relates ops;
  wt_redactions : is_some (pending_redactions t' !! target) = redacts ops;
  wt_room : (length (pending_relation_order t') ≤ length (pending_relation_order t) + length ops)%nat ∧
            (length (pending_redaction_order t') ≤ length (pending_redaction_order t) + length ops)%nat
}.

Lemma apply_late_waiting target t ops t' op :
  waiting target t ops t' → by_event_id t !! target = None → relation_contributions t !! target = None →
  targets target op →
  (length (pending_relation_order t) + length ops < PENDING_CAPACITY)%nat →
  (length (pending_redaction_order t) + length ops < PENDING_CAPACITY)%nat →
  ∃ t'', apply_late t' target op = Some t'' ∧ waiting target t (ops ++ [op]) t''.
Proof.
  intros [W1 W2 W3 W4 W5 W6 W7 [W8 W9]] Hb Hc Ht Hr1 Hr2. destruct op as [rid|r]; cbn [apply_late].
  - unfold apply_or_queue_redaction. rewrite W2, Hb, W4, Hc. unfold queue_pending_redaction.
    destruct (pending_redactions t' !! target) as [x|] eqn:Hp; eexists; (split; [done|]).
    + split; try done; unfold relates, redacts in *; rewrite ?omap_app, ?existsb_app, ?length_app; cbn.
      * by rewrite app_nil_r.
      * rewrite Hp, orb_true_r. done.
      * lia.
    + rewrite evict_redactions_small by (rewrite length_app; cbn; lia).
      split; try done; unfold relates, redacts in *; cbn; rewrite ?omap_app, ?existsb_app, ?length_app; cbn.
      * by rewrite app_nil_r.
      * rewrite lookup_insert_eq, orb_true_r. done.
      * lia.
  - unfold fold_or_queue_relation. cbn in Ht.
    destruct (rl_relation r) as [x k|x|? ? ?|?|?]; try done; subst x; rewrite W2, Hb; eexists; (split; [done|]);
      unfold queue_pending_relation; rewrite evict_relations_small by (rewrite length_app; cbn; lia);
      (split; try done; unfold relates, redacts in *; cbn; rewrite ?omap_app, ?existsb_app, ?length_app; cbn;
       [rewrite lookup_insert_eq; cbn; by rewrite W6|by rewrite orb_false_r|lia]).
Qed.

Lemma waiting_all target t events ops :
  by_event_id t !! target = None → relation_contributions t !! target = None →
  pending_relations t !! target = None → pending_redactions t !! target = None →
  mapM (late_op target) events = Some ops →
  (length (pending_relation_order t) + length events ≤ PENDING_CAPACITY)%nat →
  (length (pending_redaction_order t) + length events ≤ PENDING_CAPACITY)%nat →
  ∃ t', apply_events t events = Some t' ∧ waiting target t ops t'.
Proof.
  intros Hb Hc Hp1 Hp2 Hops Hr1 Hr2. apply mapM_Some in Hops.
  assert (Hgen : ∀ done t', waiting target t done t' →
    (length (pending_relation_order t) + length done + length events ≤ PENDING_CAPACITY)%nat →
    (length (pending_redaction_order t) + length done + length events ≤ PENDING_CAPACITY)%nat →
    ∃ t'', apply_events t' events = Some t'' ∧ waiting target t (done ++ ops) t'').
  { clear Hr1 Hr2. induction Hops as [|event op events ops Hop Hops IH]; intros dn t' Hw Hr1 Hr2; cbn in *.
    - exists t'. by rewrite app_nil_r.
    - destruct (late_op_apply t' _ _ _ Hop) as [-> Ht].
      destruct (apply_late_waiting _ _ _ _ _ Hw Hb Hc Ht) as (t1 & -> & Hw1); [lia..|]. cbn.
      destruct (IH _ _ Hw1) as (t2 & -> & Hw2); [rewrite length_app; cbn; lia..|].
      exists t2. by rewrite <- app_assoc in Hw2. }
  destruct (Hgen [] t) as (t' & Ht' & Hw); [|cbn; lia..|eauto].
  split; try done; cbn; [by rewrite Hp1|by rewrite Hp2|lia].
Qed.

(** An event that gets a row of its own, new to the timeline. *)
Definition fresh_row (t : Timeline) (event : RawEvent) : Prop :=
  re_event_type event ≠ EVENT_ROOM_REDACTION ∧
  (if is_none (re_state_key event) && negb (bool_decide (re_event_type event = EVENT_ROOM_ENCRYPTED))
   then contributed (relates_to event) else None) = None ∧
  (∀ x, un_transaction_id (re_unsigned event) = Some x → by_txn_id t !! mkTxnId x = None) ∧
  by_event_id t !! re_event_id event = None.

Lemma apply_fresh_row t event : fresh_row t event → apply_one_event t event = insert_new_item t (build_item event).
Proof.
  intros (Hty & Hc & Hx & He). unfold apply_one_event. rewrite decide_False by done. rewrite Hc.
  assert (ti_txn_id (build_item event) ≫= (λ x, by_txn_id t !! x) = None) as ->.
  { cbn. destruct (un_transaction_id (re_unsigned event)); [cbn; by apply Hx|done]. }
  change (ti_event_id (build_item event) ≫= ?f) with (f (re_event_id event)). cbn beta. by rewrite He.
Qed.

(** The row as it is before anything is resolved onto it. *)
Definition with_row (t : Timeline) (item : TimelineItem) : Timeline :=
  with_items (with_index t (insert_opt (ti_event_id item) (length (items t)) (by_event_id t))
    (insert_opt (ti_txn_id item) (length (items t)) (by_txn_id t))) (items t ++ [item]).

Lemma insert_waiting t item target ops t' :
  waiting target t ops t' → ti_event_id item = Some target →
  ∃ t2, insert_new_item t' item = Some t2 ∧
    let x := foldl (effect target) (parts t item) ops in
    items t2 = items t ++ [x.1.1] ∧ by_event_id t2 = by_event_id (with_row t item) ∧
    by_txn_id t2 = by_txn_id (with_row t item) ∧ relation_contributions t2 = x.1.2 ∧ relating_events_by_target t2 = x.2.
Proof.
  intros [W1 W2 W3 W4 W5 W6 W7 _] He. unfold insert_new_item.
  change (with_items _ _) with (with_row t' item). rewrite He.
  set (n := length (items t')).
  assert (Hn : items (with_row t' item) !! n = Some item) by (apply list_lookup_middle; done).
  assert (Hit : ∀ y, <[n := y]> (items (with_row t' item)) = items t' ++ [y]).
  { intros y. cbn. rewrite insert_app_r_alt by done. by replace (n - length (items t'))%nat with 0%nat by lia. }
  rewrite effects_sorted. set (x0 := if redacts ops then redact_parts (parts t item) else parts t item).
  unfold resolve_pending_for. cbn [pending_redactions with_row with_items with_index].
  set (t1 := if redacts ops then place (with_pending_redactions (with_row t' item) (delete target (pending_redactions t'))
    (pending_redaction_order t')) n (redact_parts (parts t item)) else with_row t' item).
  assert (Hred : match pending_redactions t' !! target with
     | Some _ => update_item (with_pending_redactions (with_row t' item) (delete target (pending_redactions t')) (pending_redaction_order t')) n redact_item
     | None => Some (with_row t' item) end = Some t1).
  { unfold t1. rewrite <- W7. destruct (pending_redactions t' !! target); cbn; [|done].
    unfold update_item. change (items (with_pending_redactions _ _ _)) with (items (with_row t' item)).
    rewrite Hn. unfold place, parts. cbn. by rewrite <- W4, <- W5. }
  assert (Hi1 : items t1 !! n = Some (x0.1.1)).
  { unfold t1, x0. destruct (redacts ops); [by eapply place_lookup|done]. }
  assert (Hp1 : parts t1 x0.1.1 = x0).
  { unfold t1, x0. destruct (redacts ops); [done|]. unfold parts. cbn. by rewrite W4, W5. }
  assert (Hrel : pending_relations t1 = pending_relations t') by (unfold t1; by destruct (redacts ops)).
  assert (Hix : by_event_id t1 = by_event_id (with_row t item) ∧ by_txn_id t1 = by_txn_id (with_row t item)).
  { unfold t1. destruct (redacts ops); cbn; by rewrite W1, W2, W3. }
  assert (Hits : ∀ y, <[n := y]> (items t1) = items t ++ [y]).
  { intros y. unfold t1. destruct (redacts ops); cbn [place with_contributions with_items items with_pending_redactions].
    - change (items (with_pending_redactions (with_row t' item) _ _)) with (items (with_row t' item)).
      by rewrite list_insert_insert_eq, Hit, W1.
    - by rewrite Hit, W1. }
  change (update_item _ _ _) with (update_item (with_pending_redactions (with_row t' item) (delete target (pending_redactions t')) (pending_redaction_order t')) n redact_item).
  rewrite Hred. cbn [mbind option_bind]. rewrite Hrel. clearbody t1.
  destruct (pending_relations t' !! target) as [rs|]; cbn in W6.
  - rewrite Hi1. cbn [mbind option_bind]. subst rs.
    rewrite (fold_pending_effect _ _ _ _ x0.1.1) by exact Hi1.
    change (parts (with_pending_relations t1 _ _) x0.1.1) with (parts t1 x0.1.1). rewrite Hp1.
    eexists. split; [done|]. cbn zeta. unfold place. cbn. rewrite Hits. naive_solver.
  - rewrite <- W6. eexists. split; [done|]. cbn zeta. cbn [fmap list_fmap foldl].
    pose proof Hp1 as Hp1'. unfold parts in Hp1'. destruct x0 as [[i c] rl]. cbn in *. injection Hp1' as <- <-.
    split_and!; try apply Hix; try done. rewrite <- Hits. symmetry. by apply list_insert_id.
Qed.

(** C34: a target that loads late catches up: reactions to an event, edits and redactions of it,
    received before the event itself, give the same rows, indexes and contributor lists as when
    the event comes first, in whatever order they mix, as long as the waiting queues have room. *)
Theorem late_target_catches_up t event events ops :
  fresh_row t event →
  relation_contributions t !! re_event_id event = None →
  pending_relations t !! re_event_id event = None → pending_redactions t !! re_event_id event = None →
  mapM (late_op (re_event_id event)) events = Some ops →
  (length (pending_relation_order t) + length events ≤ PENDING_CAPACITY)%nat →
  (length (pending_redaction_order t) + length events ≤ PENDING_CAPACITY)%nat →
  ∃ late early,
    apply_events t (events ++ [event]) = Some late ∧ apply_events t (event :: events) = Some early ∧
    items late = items early ∧ by_event_id late = by_event_id early ∧ by_txn_id late = by_txn_id early ∧
    relation_contributions late = relation_contributions early ∧
    relating_events_by_target late = relating_events_by_target early.
Proof.
  intros Hf Hc Hp1 Hp2 Hops Hr1 Hr2. pose proof Hf as (Hf1 & Hf2 & Hf3 & Hb).
  destruct (waiting_all _ _ _ _ Hb Hc Hp1 Hp2 Hops Hr1 Hr2) as (t' & Ht' & Hw).
  destruct (insert_waiting _ (build_item event) _ _ _ Hw eq_refl) as (late & Hlate & L1 & L2 & L3 & L4 & L5).
  assert (Hf' : fresh_row t' event) by (split_and!; [done|done|by rewrite (wt_txn _ _ _ _ Hw)|by rewrite (wt_event _ _ _ _ Hw)]).
  assert (Hnil : waiting (re_event_id event) t [] t) by (split; try done; cbn; [by rewrite Hp1|by rewrite Hp2|lia]).
  destruct (insert_waiting _ (build_item event) _ _ _ Hnil eq_refl) as (row & Hrow & R1 & R2 & R3 & R4 & R5).
  cbn zeta in *. cbn [foldl parts fst snd] in R1, R4, R5.
  assert (Hri : items row !! length (items t) = Some (build_item event)) by (rewrite R1; by apply list_lookup_middle).
  assert (Hrb : by_event_id row !! re_event_id event = Some (length (items t))) by (rewrite R2; cbn; apply lookup_insert_eq).
  pose proof (loaded_all _ _ _ _ _ _ Hrb Hri Hops) as Hearly.
  exists late. eexists. split_and!.
  - clear -Ht' Hlate Hf'. rewrite <- (apply_fresh_row _ _ Hf') in Hlate.
    revert t Ht'; induction events as [|e es IH]; intros t Ht'; cbn in *.
    + injection Ht' as ->. by rewrite Hlate.
    + destruct (apply_one_event t e); cbn in *; [by apply IH|discriminate].
  - cbn. rewrite (apply_fresh_row _ _ Hf), Hrow. exact Hearly.
  - rewrite L1. cbn. unfold parts. rewrite R4, R5, R1, insert_app_r_alt by done.
    by replace (length (items t) - length (items t))%nat with 0%nat by lia.
  - cbn. by rewrite L2, R2.
  - cbn. by rewrite L3, R3.
  - cbn. unfold parts. by rewrite L4, R4, R5.
  - cbn. unfold parts. by rewrite L5, R4, R5.
Qed.

End Props.

(** ** Concrete inputs *)

Module TimelineExamples.

(** The derived readers, restricted to the members used here. *)
#[export] Instance sample_serde : EventSerde := {|
  text_like_from_value v := (λ b, mkTextLike b None None) <$> (get v "body" ≫= as_str);
  text_like_to_value c := Some (VObject [("body", VString (tl_body c))]);
  megolm_from_value v :=
    c ← get v "ciphertext" ≫= as_str; s ← get v "session_id" ≫= as_str;
    Some (mkMegolm c s None None (RelatesTo_from_content v));
  olm_from_value _ := None;
  membership_from_value _ := None;
  redaction_from_value v := (λ e, mkRedaction (mkEventId e) None) <$> (get v "redacts" ≫= as_str)
|}.

Definition alice : UserId := mkUserId "@alice:x".
Definition bob : UserId := mkUserId "@bob:x".

Definition event (id ty : string) (sender : UserId) (ts : Z) (content : Value) : RawEvent :=
  mkRawEvent (mkEventId id) ty sender ts None content Unsigned_default.

Definition relation (rel_type target key : string) : Value :=
  VObject [("event_id", VString target); ("key", VString key); ("rel_type", VString rel_type)].

(** A reply by alice, bob's reaction to it and alice's edit of it, and redactions. *)
Definition reply : RawEvent := event "$m" "m.room.message" alice 1
  (VObject [("body", VString "hi"); ("m.relates_to", VObject [("m.in_reply_to", VObject [("event_id", VString "$root")])]);
            ("msgtype", VString "m.text")]).
Definition reaction : RawEvent := event "$r" "m.reaction" bob 2 (VObject [("m.relates_to", relation "m.annotation" "$m" "+1")]).
Definition edit : RawEvent := event "$e" "m.room.message" alice 3
  (VObject [("body", VString "* hello"); ("m.new_content", VObject [("body", VString "hello"); ("msgtype", VString "m.text")]);
            ("m.relates_to", relation "m.replace" "$m" ""); ("msgtype", VString "m.text")]).
Definition redaction (target : string) : RawEvent :=
  event "$d" "m.room.redaction" alice 4 (VObject [("redacts", VString target)]).

Definition edit_text (item : TimelineItem) : option string :=
  match latest_edit (ti_relations item) with
  | Some e => match ed_content e with MsgText c => Some (tl_body c) | _ => None end
  | None => None
  end.

(** Per row: who reacted with +1, the edited text, the event replied to, and the redaction flag. *)
Definition summary (t : option Timeline) : option (list (list UserId * option string * option EventId * bool)) :=
  t ← t;
  Some ((λ item, (elements (default ∅ (reactions (ti_relations item) !! "+1")), edit_text item,
                  reply_to (ti_relations item), ti_redacted item)) <$> items t).

Definition root : option EventId := Some (mkEventId "$root").

Lemma late_target_catches_up_witness :
  ∃ late early,
    apply_events Timeline_new [reaction; redaction "$m"; edit; reply] = Some late ∧
    apply_events Timeline_new [reply; reaction; redaction "$m"; edit] = Some early ∧ items late = items early ∧
    summary (Some late) = Some [([bob], Some "hello", root, true)].
Proof.
  destruct (late_target_catches_up Timeline_new reply [reaction; redaction "$m"; edit]
    (default [] (mapM (late_op (re_event_id reply)) [reaction; redaction "$m"; edit]))) as (late & early & Hl & He & Hi & _).
  - split_and!; [discriminate|vm_compute; reflexivity|discriminate|reflexivity].
  - reflexivity.
  - reflexivity.
  - reflexivity.
  - vm_compute. reflexivity.
  - cbn. unfold PENDING_CAPACITY. lia.
  - cbn. unfold PENDING_CAPACITY. lia.
  - exists late, early. split; [exact Hl|]. split; [exact He|]. split; [exact Hi|].
    cbn [app] in Hl. rewrite <- Hl. vm_compute. reflexivity.
Defined.

(** *** Where the code departs from its documentation *)

(** Redacting a reaction rebuilds the bundle without the row's own reply pointer. *)
Example retracting_a_reaction_drops_the_reply_pointer :
  summary (apply_events Timeline_new [reply; reaction]) = Some [([bob], None, root, false)] ∧
  summary (apply_events Timeline_new [reply; reaction; redaction "$r"]) = Some [([], None, None, false)].
Proof. split; vm_compute; reflexivity. Qed.

(** An event received a second time replaces its row: reactions, edits and the redaction are gone. *)
Example redelivery_drops_what_was_aggregated :
  summary (apply_events Timeline_new [reply; reaction; edit; redaction "$m"; reply]) = Some [([], None, root, false)].
Proof. vm_compute. reflexivity. Qed.

(** The redaction of a reaction is lost when it comes before the reaction, and when both come before
    the target: the reaction stays. *)
Example redaction_before_its_reaction_is_lost :
  summary (apply_events Timeline_new [reply; redaction "$r"; reaction]) = Some [([bob], None, root, false)] ∧
  summary (apply_events Timeline_new [reaction; redaction "$r"; reply]) = Some [([bob], None, root, false)].
Proof. split; vm_compute; reflexivity. Qed.

(** An encrypted edit: live it keeps a row until it is decrypted; in a back page it is dropped. *)
Definition sealed_edit : RawEvent := event "$s" "m.room.encrypted" alice 3
  (VObject [("algorithm", VString "m.megolm.v1.aes-sha2"); ("ciphertext", VString "c");
            ("m.relates_to", relation "m.replace" "$m" ""); ("session_id", VString "s")]).

Example back_page_drops_encrypted_edit :
  (length <$> (items <$> apply_events Timeline_new [reply; sealed_edit])) = Some 2%nat ∧
  (length <$> (items <$> prepend_back_page Timeline_new [reply; sealed_edit] None)) = Some 1%nat ∧
  summary (prepend_back_page Timeline_new [reply; sealed_edit] None) = Some [([], None, root, false)].
Proof. split_and!; vm_compute; reflexivity. Qed.

Lemma bundle_is_exact_witness :
  let es := [relating_of reaction (Annotation (mkEventId "$m") "+1"); relating_of edit (Replace (mkEventId "$m"))] in
  bob ∈ default ∅ (reactions (recompute_bundle alice es) !! "+1") ∧
  recompute_bundle alice (reverse es) = recompute_bundle alice es.
Proof.
  intros es. destruct (bundle_is_exact alice es) as (Hp & Hr & _).
  - repeat constructor.
  - apply (bool_decide_unpack _). vm_compute. exact I.
  - split.
    + apply Hr. eexists _, _. split; [apply list_elem_of_here|]. split; reflexivity.
    + apply Hp. symmetry. apply reverse_Permutation.
Defined.

End TimelineExamples.
