(* ===== verification/RoomState.v ===== *)
(** * A room's state (crates/mail4agent-messenger/src/room/state.rs)

    The state a client folds from the state events it receives, and what it derives from it. The
    readers serde derives for the contents are the class [StateSerde]; their errors are texts.
    The theorem: a room that is encrypted stays so, with the first parameters received; attempts to
    change them are counted, exactly. *)

From S2P Require Import Prelude Ids Json Events.

Local Open Scope Z_scope.

Record RoomCreatePredecessor := mkPredecessor { rp_room_id : RoomId; rp_event_id : EventId }.

Record RoomCreateContent := mkCreate {
  rc_creator : option UserId; rc_room_version : string; rc_federate : bool; rc_predecessor : option RoomCreatePredecessor }.

Record RoomMemberContent := mkMemberContent {
  mc_membership : Membership; mc_displayname : option string; mc_is_direct : option bool }.

Record RoomPowerLevelsContent := mkPowerLevels {
  pl_ban : Z; pl_events : gmap string Z; pl_events_default : Z; pl_invite : Z; pl_kick : Z; pl_redact : Z;
  pl_state_default : Z; pl_users : gmap UserId Z; pl_users_default : Z; pl_notifications_room : Z }.

Inductive JoinRule := JPublic | JInvite | JKnock | JPrivate | JRestricted | JKnockRestricted | JUnknown.

Record JoinRuleAllow := mkAllow { ja_type : string; ja_room_id : option RoomId }.
Record RoomJoinRulesContent := mkJoinRules { jr_join_rule : JoinRule; jr_allow : list JoinRuleAllow }.

Inductive HistoryVisibility := HInvited | HJoined | HShared | HWorldReadable | HUnknown.

Record RoomEncryptionContent := mkEncryption {
  re_algorithm : string; re_rotation_period_ms : Z; re_rotation_period_msgs : Z }.

#[export] Instance RoomEncryptionContent_eq_dec : EqDecision RoomEncryptionContent.
Proof. solve_decision. Defined.
#[export] Instance Membership_eq_dec : EqDecision Membership.
Proof. solve_decision. Defined.

Record RoomSummary := mkSummary {
  rs_heroes : list UserId; rs_joined_member_count : option Z; rs_invited_member_count : option Z }.
Record UnreadNotifications := mkUnread { notification_count : Z; highlight_count : Z }.

(** [DirectContent]: the rooms each user is in a direct conversation in. *)
Definition DirectContent : Type := gmap UserId (list RoomId).

Class StateSerde := {
  create_from_value : Value → result RoomCreateContent string;
  member_from_value : Value → result RoomMemberContent string;
  power_levels_from_value : Value → result RoomPowerLevelsContent string;
  join_rules_from_value : Value → result RoomJoinRulesContent string;
  history_visibility_from_value : Value → result HistoryVisibility string;
  name_from_value : Value → result string string;
  topic_from_value : Value → result string string;
  encryption_from_value : Value → result RoomEncryptionContent string;
  pinned_from_value : Value → result (list EventId) string
}.

Definition EVENT_CREATE : string := "m.room.create".
Definition EVENT_MEMBER : string := "m.room.member".
Definition EVENT_POWER_LEVELS : string := "m.room.power_levels".
Definition EVENT_JOIN_RULES : string := "m.room.join_rules".
Definition EVENT_HISTORY_VISIBILITY : string := "m.room.history_visibility".
Definition EVENT_NAME : string := "m.room.name".
Definition EVENT_TOPIC : string := "m.room.topic".
Definition EVENT_ENCRYPTION : string := "m.room.encryption".
Definition EVENT_PINNED_EVENTS : string := "m.room.pinned_events".

Inductive MemberRole := Owner | Admin | Member.

Definition from_power_level (power_level : Z) : MemberRole :=
  if 100 <=? power_level then Owner else if 50 <=? power_level then Admin else Member.

Inductive RoomKind := Dm | Group | Channel.

Record MemberState := mkMemberState {
  ms_membership : Membership; ms_displayname : option string; ms_is_direct : bool; ms_invited_by : option UserId }.

Record RoomState := mkRoomState {
  create : option RoomCreateContent;
  members : gmap UserId MemberState;
  power_levels : RoomPowerLevelsContent;
  join_rules : option RoomJoinRulesContent;
  history_visibility : option HistoryVisibility;
  name : option string;
  topic : option string;
  encryption : option RoomEncryptionContent;
  encryption_tamper_attempts : Z;
  pinned_events : list EventId;
  heroes : list UserId;
  joined_member_count : option Z;
  invited_member_count : option Z;
  unread_notifications : UnreadNotifications }.

Definition RoomState_new : RoomState :=
  mkRoomState None ∅ (mkPowerLevels 50 ∅ 0 50 50 50 50 ∅ 0 50) None None None None None 0 [] [] None None (mkUnread 0 0).

(** [MessengerError::WireDecode] *)
Record WireDecode := mkWireDecode { wire_decode_error : string }.

Section State.
Context `{StateSerde}.

Definition set_create (s : RoomState) x := mkRoomState x (members s) (power_levels s) (join_rules s) (history_visibility s) (name s) (topic s) (encryption s) (encryption_tamper_attempts s) (pinned_events s) (heroes s) (joined_member_count s) (invited_member_count s) (unread_notifications s).
Definition set_members (s : RoomState) x := mkRoomState (create s) x (power_levels s) (join_rules s) (history_visibility s) (name s) (topic s) (encryption s) (encryption_tamper_attempts s) (pinned_events s) (heroes s) (joined_member_count s) (invited_member_count s) (unread_notifications s).
Definition set_power_levels (s : RoomState) x := mkRoomState (create s) (members s) x (join_rules s) (history_visibility s) (name s) (topic s) (encryption s) (encryption_tamper_attempts s) (pinned_events s) (heroes s) (joined_member_count s) (invited_member_count s) (unread_notifications s).
Definition set_join_rules (s : RoomState) x := mkRoomState (create s) (members s) (power_levels s) x (history_visibility s) (name s) (topic s) (encryption s) (encryption_tamper_attempts s) (pinned_events s) (heroes s) (joined_member_count s) (invited_member_count s) (unread_notifications s).
Definition set_history_visibility (s : RoomState) x := mkRoomState (create s) (members s) (power_levels s) (join_rules s) x (name s) (topic s) (encryption s) (encryption_tamper_attempts s) (pinned_events s) (heroes s) (joined_member_count s) (invited_member_count s) (unread_notifications s).
Definition set_name (s : RoomState) x := mkRoomState (create s) (members s) (power_levels s) (join_rules s) (history_visibility s) x (topic s) (encryption s) (encryption_tamper_attempts s) (pinned_events s) (heroes s) (joined_member_count s) (invited_member_count s) (unread_notifications s).
Definition set_topic (s : RoomState) x := mkRoomState (create s) (members s) (power_levels s) (join_rules s) (history_visibility s) (name s) x (encryption s) (encryption_tamper_attempts s) (pinned_events s) (heroes s) (joined_member_count s) (invited_member_count s) (unread_notifications s).
Definition set_encryption (s : RoomState) x n := mkRoomState (create s) (members s) (power_levels s) (join_rules s) (history_visibility s) (name s) (topic s) x n (pinned_events s) (heroes s) (joined_member_count s) (invited_member_count s) (unread_notifications s).
Definition set_pinned (s : RoomState) x := mkRoomState (create s) (members s) (power_levels s) (join_rules s) (history_visibility s) (name s) (topic s) (encryption s) (encryption_tamper_attempts s) x (heroes s) (joined_member_count s) (invited_member_count s) (unread_notifications s).

(** [serde_json::from_value(..)?] *)
Definition decode {A} (r : result A string) : result A WireDecode := map_err mkWireDecode r.

(** The counter is a [u32] that wraps in a release build. *)
Definition apply_state_event (s : RoomState) (event : RawEvent) : RoomState * result unit WireDecode :=
  match re_state_key event with
  | None => (s, Ok tt)
  | Some state_key =>
      let ty := re_event_type event in
      let content := re_content event in
      if bool_decide (ty = EVENT_CREATE) && is_none (create s) then
        try? c := decode (create_from_value content) on s in
        (set_create s (Some c), Ok tt)
      else if bool_decide (ty = EVENT_MEMBER) then
        match UserId_parse state_key with
        | Err _ => (s, Ok tt)
        | Ok user_id =>
            try? c := decode (member_from_value content) on s in
            let invited_by := if bool_decide (mc_membership c = MInvite) then Some (re_sender event) else None in
            (set_members s
               (<[user_id := mkMemberState (mc_membership c) (mc_displayname c) (default false (mc_is_direct c)) invited_by]>
                  (members s)), Ok tt)
        end
      else if bool_decide (ty = EVENT_POWER_LEVELS) then
        try? c := decode (power_levels_from_value content) on s in
        (set_power_levels s c, Ok tt)
      else if bool_decide (ty = EVENT_JOIN_RULES) then
        try? c := decode (join_rules_from_value content) on s in
        (set_join_rules s (Some c), Ok tt)
      else if bool_decide (ty = EVENT_HISTORY_VISIBILITY) then
        try? c := decode (history_visibility_from_value content) on s in
        (set_history_visibility s (Some c), Ok tt)
      else if bool_decide (ty = EVENT_NAME) then
        try? c := decode (name_from_value content) on s in
        (set_name s (Some c), Ok tt)
      else if bool_decide (ty = EVENT_TOPIC) then
        try? c := decode (topic_from_value content) on s in
        (set_topic s (Some c), Ok tt)
      else if bool_decide (ty = EVENT_ENCRYPTION) then
        try? c := decode (encryption_from_value content) on s in
        match encryption s with
        | None => (set_encryption s (Some c) (encryption_tamper_attempts s), Ok tt)
        | Some current =>
            if negb (bool_decide (current = c))
            then (set_encryption s (Some current) ((encryption_tamper_attempts s + 1) mod u32_mod), Ok tt)
            else (s, Ok tt)
        end
      else if bool_decide (ty = EVENT_PINNED_EVENTS) then
        try? c := decode (pinned_from_value content) on s in
        (set_pinned s c, Ok tt)
      else (s, Ok tt)
  end.

Definition apply_summary (s : RoomState) (summary : RoomSummary) (unread : UnreadNotifications) : RoomState :=
  mkRoomState (create s) (members s) (power_levels s) (join_rules s) (history_visibility s) (name s) (topic s)
    (encryption s) (encryption_tamper_attempts s) (pinned_events s) (rs_heroes summary) (rs_joined_member_count summary)
    (rs_invited_member_count summary) unread.

Definition unread_count (s : RoomState) : Z := notification_count (unread_notifications s).

Definition power_level_for (s : RoomState) (user_id : UserId) : Z :=
  default (pl_users_default (power_levels s)) (pl_users (power_levels s) !! user_id).

Definition member_role (s : RoomState) (user_id : UserId) : MemberRole := from_power_level (power_level_for s user_id).

Definition active_member_count (s : RoomState) : nat :=
  size (filter (λ kv : UserId * MemberState, ms_membership kv.2 = MJoin ∨ ms_membership kv.2 = MInvite) (members s)).

Definition is_direct (s : RoomState) (room_id : RoomId) (direct_account_data : option DirectContent) : bool :=
  let listed_in_account_data :=
    match direct_account_data with
    | Some direct => existsb (λ kv : UserId * list RoomId, bool_decide (room_id ∈ kv.2)) (map_to_list (direct : gmap UserId (list RoomId)))
    | None => false
    end in
  let invite_flagged_and_still_a_pair :=
    bool_decide (active_member_count s = 2%nat) && existsb (λ kv, ms_is_direct kv.2) (map_to_list (members s)) in
  listed_in_account_data || invite_flagged_and_still_a_pair.

Definition is_channel (s : RoomState) : bool :=
  let is_public := match jr_join_rule <$> join_rules s with Some JPublic => true | _ => false end in
  is_public && (pl_users_default (power_levels s) <? pl_events_default (power_levels s)).

Definition derive_room_kind (s : RoomState) (room_id : RoomId) (direct_account_data : option DirectContent) : RoomKind :=
  if is_direct s room_id direct_account_data then Dm
  else if is_channel s then Channel
  else Group.

(** ** Theorems *)

(** The loop over the events of a room in a sync response: [?] ends it at the first refusal. *)
Fixpoint apply_state_events (s : RoomState) (events : list RawEvent) : RoomState * result unit WireDecode :=
  match events with
  | [] => (s, Ok tt)
  | event :: events =>
      match apply_state_event s event with
      | (s, Ok _) => apply_state_events s events
      | (s, Err e) => (s, Err e)
      end
  end.

(** What an event says about encryption. *)
Definition encryption_of (event : RawEvent) : option RoomEncryptionContent :=
  match re_state_key event with
  | Some _ =>
      if bool_decide (re_event_type event = EVENT_ENCRYPTION) then ok (encryption_from_value (re_content event)) else None
  | None => None
  end.

(** The event asks for other parameters than [c]. *)
Definition differs (c : RoomEncryptionContent) (event : RawEvent) : bool :=
  match encryption_of event with Some c' => negb (bool_decide (c = c')) | None => false end.

Lemma apply_one_encryption s e :
  let s' := (apply_state_event s e).1 in
  encryption s' = match encryption s with Some c => Some c | None => encryption_of e end ∧
  encryption_tamper_attempts s' =
    match encryption s, encryption_of e with
    | Some c, Some c' => if decide (c = c') then encryption_tamper_attempts s else (encryption_tamper_attempts s + 1) mod u32_mod
    | _, _ => encryption_tamper_attempts s
    end.
Proof.
  unfold apply_state_event, encryption_of. destruct (re_state_key e) as [k|]; [|cbn; by destruct (encryption s)].
  cbn zeta. unfold decode, map_err, ok.
  destruct (decide (re_event_type e = EVENT_ENCRYPTION)) as [Heq|Hne].
  - rewrite Heq. cbn -[bool_decide u32_mod Z.modulo]. 
    repeat match goal with |- context [bool_decide (EVENT_ENCRYPTION = ?b)] =>
      first [rewrite (bool_decide_false (EVENT_ENCRYPTION = b)) by discriminate
            |rewrite (bool_decide_true (EVENT_ENCRYPTION = b)) by done] end. cbn -[u32_mod Z.modulo bool_decide].
    destruct (encryption_from_value _) as [c|]; cbn -[u32_mod Z.modulo bool_decide]; [|by destruct (encryption s)].
    destruct (encryption s) as [c0|] eqn:Hc; cbn -[u32_mod Z.modulo bool_decide]; [|done].
    destruct (decide (c0 = c)) as [->|]; [rewrite bool_decide_true by done|rewrite bool_decide_false by done]; done.
  - rewrite (bool_decide_false (re_event_type e = EVENT_ENCRYPTION)) by done.
    repeat case_match; simplify_eq/=; done.
Qed.

(** Encryption is never turned off or changed: whatever events follow, also when one of them is
    refused, a room keeps the first readable encryption content it received; and when none is, the
    tamper counter is the number of later readable contents that differ from it (modulo the width
    of the counter). *)
Theorem encryption_is_sticky s c events :
  encryption s = Some c → 0 ≤ encryption_tamper_attempts s < u32_mod →
  let '(s', r) := apply_state_events s events in
  encryption s' = Some c ∧
  (r = Ok tt → encryption_tamper_attempts s' =
     (encryption_tamper_attempts s +
      Z.of_nat (length (List.filter (differs c) events))) mod u32_mod).
Proof.
  revert s; induction events as [|e events IH]; intros s Hs Hr; cbn [apply_state_events].
  - split; [done|]. intros _. cbn. rewrite Z.add_0_r, Z.mod_small by done. done.
  - destruct (apply_one_encryption s e) as [He Ht]. rewrite Hs in He, Ht.
    destruct (apply_state_event s e) as [s1 [[]|err]]; cbn [fst] in *; [|split; [done|discriminate]].
    specialize (IH s1 He). destruct (apply_state_events s1 events) as [s2 r].
    cbn [List.filter]. unfold differs at 1. destruct (encryption_of e) as [c'|].
    + destruct (decide (c = c')) as [->|Hne]; rewrite Ht in IH.
      * destruct (IH Hr) as [IH1 IH2]. split; [done|]. rewrite bool_decide_true by done. done.
      * destruct IH as [IH1 IH2]; [by apply Z.mod_pos_bound|]. split; [done|]. intros Hok.
        rewrite bool_decide_false by done. cbn [negb length]. rewrite IH2 by done.
        rewrite Z.add_mod_idemp_l by done. f_equal. lia.
    + rewrite Ht in IH. destruct (IH Hr) as [IH1 IH2]. by split.
Qed.

(** State is applied whatever its key: power levels sent under a key of their own replace the
    room's. *)
Lemma state_key_is_not_checked s event k c :
  re_state_key event = Some k → re_event_type event = EVENT_POWER_LEVELS →
  power_levels_from_value (re_content event) = Ok c →
  apply_state_event s event = (set_power_levels s c, Ok tt).
Proof.
  intros Hk Hty Hc. unfold apply_state_event. rewrite Hk, Hty. cbn zeta.
  rewrite (bool_decide_false (EVENT_POWER_LEVELS = EVENT_CREATE)) by discriminate. cbn [andb].
  rewrite (bool_decide_false (EVENT_POWER_LEVELS = EVENT_MEMBER)) by discriminate.
  rewrite (bool_decide_true (EVENT_POWER_LEVELS = EVENT_POWER_LEVELS)) by done. by rewrite Hc.
Qed.

(** A name event without a readable name, as a redacted one is, ends the loop over a room's events
    with an error. *)
Lemma unreadable_name_ends_the_loop s event k err events :
  re_state_key event = Some k → re_event_type event = EVENT_NAME → name_from_value (re_content event) = Err err →
  apply_state_events s (event :: events) = (s, Err (mkWireDecode err)).
Proof.
  intros Hk Hty Hc. cbn [apply_state_events]. unfold apply_state_event. rewrite Hk, Hty. cbn zeta.
  rewrite (bool_decide_false (EVENT_NAME = EVENT_CREATE)) by discriminate. cbn [andb].
  rewrite (bool_decide_false (EVENT_NAME = EVENT_MEMBER)) by discriminate.
  rewrite (bool_decide_false (EVENT_NAME = EVENT_POWER_LEVELS)) by discriminate.
  rewrite (bool_decide_false (EVENT_NAME = EVENT_JOIN_RULES)) by discriminate.
  rewrite (bool_decide_false (EVENT_NAME = EVENT_HISTORY_VISIBILITY)) by discriminate.
  rewrite (bool_decide_true (EVENT_NAME = EVENT_NAME)) by done. by rewrite Hc.
Qed.

(** A direct conversation is never shown as a channel, and a channel has an open door and a raised
    speaker's level. *)
Lemma room_kind_cases s room direct :
  match derive_room_kind s room direct with
  | Dm => is_direct s room direct = true
  | Channel => is_direct s room direct = false ∧ jr_join_rule <$> join_rules s = Some JPublic ∧
               pl_users_default (power_levels s) < pl_events_default (power_levels s)
  | Group => is_direct s room direct = false ∧ is_channel s = false
  end.
Proof.
  unfold derive_room_kind. destruct (is_direct s room direct); [done|]. unfold is_channel.
  destruct (jr_join_rule <$> join_rules s) as [[]|]; try done. cbn [andb].
  destruct (Z.ltb_spec (pl_users_default (power_levels s)) (pl_events_default (power_levels s))); done.
Qed.

End State.

(** ** Concrete inputs *)

Module StateExamples.

(** Readers of the two members used here. *)
#[export] Instance sample_state_serde : StateSerde := {|
  create_from_value _ := Err "unused";
  member_from_value _ := Err "unused";
  power_levels_from_value _ := Err "unused";
  join_rules_from_value _ := Err "unused";
  history_visibility_from_value _ := Err "unused";
  name_from_value v := ok_or (get v "name" ≫= as_str) "missing field `name`";
  topic_from_value _ := Err "unused";
  encryption_from_value v := result_map (λ a, mkEncryption a 604800000 100) (ok_or (get v "algorithm" ≫= as_str) "missing field `algorithm`");
  pinned_from_value _ := Err "unused"
|}.

Definition state_event (ty : string) (content : Value) : RawEvent :=
  mkRawEvent (mkEventId "$e") ty (mkUserId "@a:x") 1 (Some EmptyString) content Unsigned_default.

Definition megolm : RawEvent := state_event "m.room.encryption" (VObject [("algorithm", VString "m.megolm.v1.aes-sha2")]).
Definition other : RawEvent := state_event "m.room.encryption" (VObject [("algorithm", VString "none")]).
Definition encrypted : RoomState := (apply_state_event RoomState_new megolm).1.

Lemma encryption_is_sticky_witness :
  encryption (apply_state_events encrypted [other; megolm; other]).1 = Some (mkEncryption "m.megolm.v1.aes-sha2" 604800000 100) ∧
  encryption_tamper_attempts (apply_state_events encrypted [other; megolm; other]).1 = 2.
Proof.
  pose proof (encryption_is_sticky encrypted (mkEncryption "m.megolm.v1.aes-sha2" 604800000 100) [other; megolm; other]
    eq_refl (conj (Z.le_refl 0) eq_refl)) as Hs.
  destruct (apply_state_events encrypted [other; megolm; other]) as [s' r] eqn:He. destruct Hs as [H1 H2].
  split; [exact H1|]. assert (Hr : r = Ok tt) by (change r with (s', r).2; rewrite <- He; vm_compute; reflexivity).
  cbn [fst]. rewrite (H2 Hr). vm_compute. reflexivity.
Defined.

End StateExamples.
