(* ===== verification/DeviceTracker.v ===== *)
(** * Device lists (crates/mail4agent-messenger/src/crypto/device_tracker.rs)

    Which users' device lists are outdated, the query for them, and merging an answer into the
    store after checking every device's signature of itself. The store is the interface
    [CryptoStore]; derived readers and key decoding are the class [DeviceSerde]. A reason text is
    represented by what it says. The theorem: an answer rewrites exactly the lists of the users it
    names, by the table [merged_device]. A concrete tracker is at the end. *)

From S2P Require Import Prelude Ids Json CanonicalJson Store.

Local Open Scope Z_scope.

(** The part of [trait CryptoStore] the tracker uses. *)
Class CryptoStore (S : Type) := {
  cs_devices_for_user : S → UserId → result (option string) StoreError;
  cs_save_devices : S → UserId → string → S * result unit StoreError;
  cs_tracked_users : S → result (list (UserId * bool)) StoreError;
  cs_mark_user_tracked : S → UserId → bool → S * result unit StoreError
}.

(** What the trait promises: each save replaces the one value it names. *)
Class CryptoStoreLaws (S : Type) `{CryptoStore S} := {
  device_view : S → gmap UserId string;
  tracked_view : S → gmap UserId bool;
  devices_read s u : cs_devices_for_user s u = Ok (device_view s !! u);
  devices_saved s u b : ∃ s', cs_save_devices s u b = (s', Ok tt) ∧
    device_view s' = <[u := b]> (device_view s) ∧ tracked_view s' = tracked_view s;
  tracked_read s : cs_tracked_users s = Ok (btree_entries UserId_str (tracked_view s));
  tracked_saved s u b : ∃ s', cs_mark_user_tracked s u b = (s', Ok tt) ∧
    tracked_view s' = <[u := b]> (tracked_view s) ∧ device_view s' = device_view s
}.

Record DeviceKeysObject := mkDeviceKeys {
  dk_user_id : UserId;
  dk_device_id : DeviceId;
  dk_algorithms : list string;
  dk_keys : gmap string string;
  dk_display_name : option string }.

Inductive TrackerError :=
| TWireDecode (reason : string)
| TCrypto (reason : string)
| TStore (e : StoreError).

(** Why a device was refused. *)
Inductive DropReason :=
| MalformedObject (source : string)
| UserIdMismatch (in_object : UserId)
| DeviceIdMismatch (in_object : DeviceId)
| MissingEd25519
| MalformedEd25519 (source : string)
| MissingCurve25519
| MalformedCurve25519 (source : string)
| SelfSignature (source : CanonicalJsonError).

Record DroppedDevice := mkDropped { dd_user_id : UserId; dd_device_id : DeviceId; dd_reason : DropReason }.
Record DeviceKeyChanged := mkKeyChanged { kc_user_id : UserId; kc_device_id : DeviceId }.

Record KeysQueryOutcome := mkOutcome {
  resolved_users : list UserId;
  accepted_devices : list (UserId * DeviceId);
  dropped_devices : list DroppedDevice;
  key_changes : list DeviceKeyChanged }.

Section Tracker.
Context `{Ed25519} `{!EqDecision Ed25519PublicKey} {Curve25519PublicKey : Type} `{!EqDecision Curve25519PublicKey}.

Record StoredDevice := mkStoredDevice {
  sd_user_id : UserId;
  sd_device_id : DeviceId;
  sd_curve25519 : Curve25519PublicKey;
  sd_ed25519 : Ed25519PublicKey;
  sd_algorithms : list string;
  sd_display_name : option string;
  sd_verified : bool;
  sd_blocked : bool }.

Class DeviceSerde := {
  keys_query_from_slice : string → result (list (UserId * list (DeviceId * Value))) string;
  device_keys_from_value : Value → result DeviceKeysObject string;
  device_list_to_vec : list StoredDevice → result string string;
  device_list_from_slice : string → result (list StoredDevice) string;
  ed25519_from_base64 : string → result Ed25519PublicKey string;
  curve25519_from_base64 : string → result Curve25519PublicKey string
}.

Class DeviceSerdeLaws `{DeviceSerde} : Prop := {
  device_list_roundtrip l b : device_list_to_vec l = Ok b → device_list_from_slice b = Ok l
}.

Context `{DeviceSerde} {S : Type} `{CryptoStore S}.

(** The first loop of [on_device_lists]. *)
Fixpoint mark_changed (store : S) (changed : list UserId) : S * result unit TrackerError :=
  match changed with
  | [] => (store, Ok tt)
  | user_id :: changed =>
      match cs_mark_user_tracked store user_id true with
      | (store, Ok _) => mark_changed store changed
      | (store, Err e) => (store, Err (TStore e))
      end
  end.

(** The second loop of [on_device_lists]. *)
Fixpoint mark_left (store : S) (currently_tracked : gset UserId) (departed : list UserId) : S * result unit TrackerError :=
  match departed with
  | [] => (store, Ok tt)
  | user_id :: departed =>
      if decide (user_id ∈ currently_tracked) then
        match cs_mark_user_tracked store user_id false with
        | (store, Ok _) => mark_left store currently_tracked departed
        | (store, Err e) => (store, Err (TStore e))
        end
      else mark_left store currently_tracked departed
  end.

Definition on_device_lists (store : S) (changed departed : list UserId) : S * result unit TrackerError :=
  match mark_changed store changed with
  | (store, Err e) => (store, Err e)
  | (store, Ok _) =>
      if decide (departed = []) then (store, Ok tt)
      else
        try? tracked := map_err TStore (cs_tracked_users store) on store in
        mark_left store (list_to_set tracked.*1) departed
  end.

(** The body of the [POST /keys/query] request, if there is anything to ask. *)
Definition keys_query_request (store : S) : result (option Value) TrackerError :=
  let? tracked := map_err TStore (cs_tracked_users store) in
  let outdated := omap (λ ub : UserId * bool, if ub.2 then Some ub.1 else None) tracked in
  if decide (outdated = []) then Ok None
  else
    let device_keys := foldl (λ m u, map_insert (UserId_str u) (VArray []) m) [] outdated in
    Ok (Some (VObject [("device_keys", VObject device_keys)])).

Definition tracker_devices_for_user (store : S) (user_id : UserId) : result (list StoredDevice) TrackerError :=
  let? bytes := map_err TStore (cs_devices_for_user store user_id) in
  match bytes with
  | Some bytes => map_err TCrypto (device_list_from_slice bytes)
  | None => Ok []
  end.

Definition verify_device (user_id : UserId) (device_id : DeviceId) (raw : Value) : result StoredDevice DropReason :=
  let? parsed := map_err MalformedObject (device_keys_from_value raw) in
  if negb (bool_decide (dk_user_id parsed = user_id)) then Err (UserIdMismatch (dk_user_id parsed))
  else if negb (bool_decide (dk_device_id parsed = device_id)) then Err (DeviceIdMismatch (dk_device_id parsed))
  else
    let? ed25519_b64 := ok_or (dk_keys parsed !! ("ed25519:" +:+ DeviceId_str device_id)) MissingEd25519 in
    let? ed25519 := map_err MalformedEd25519 (ed25519_from_base64 ed25519_b64) in
    let? curve25519_b64 := ok_or (dk_keys parsed !! ("curve25519:" +:+ DeviceId_str device_id)) MissingCurve25519 in
    let? curve25519 := map_err MalformedCurve25519 (curve25519_from_base64 curve25519_b64) in
    let key_id := "ed25519:" +:+ DeviceId_str device_id in
    let? _ := map_err SelfSignature (verify_json_signature raw (UserId_str user_id) key_id ed25519) in
    Ok (mkStoredDevice user_id device_id curve25519 ed25519 (dk_algorithms parsed) (dk_display_name parsed) false false).

(** [StoredDevice { verified, blocked, ..candidate }] *)
Definition with_trust (d : StoredDevice) (verified blocked : bool) : StoredDevice :=
  mkStoredDevice (sd_user_id d) (sd_device_id d) (sd_curve25519 d) (sd_ed25519 d) (sd_algorithms d) (sd_display_name d)
    verified blocked.

Definition keys_differ (known candidate : StoredDevice) : bool :=
  negb (bool_decide (sd_curve25519 known = sd_curve25519 candidate)) || negb (bool_decide (sd_ed25519 known = sd_ed25519 candidate)).

(** [existing.into_iter().map(|device| (device.device_id.clone(), device)).collect()] *)
Definition index_devices (existing : list StoredDevice) : gmap DeviceId StoredDevice :=
  foldl (λ m d, <[sd_device_id d := d]> m) ∅ existing.

(** The inner loop of [on_keys_query_response]. *)
Fixpoint merge_devices (user_id : UserId) (devices : list (DeviceId * Value)) (existing_by_id : gmap DeviceId StoredDevice)
    (outcome : KeysQueryOutcome) (merged : list StoredDevice) : KeysQueryOutcome * list StoredDevice :=
  match devices with
  | [] => (outcome, merged)
  | (device_id, raw) :: devices =>
      let rest := delete device_id existing_by_id in
      match verify_device user_id device_id raw with
      | Ok candidate =>
          match existing_by_id !! device_id with
          | Some known =>
              if keys_differ known candidate then
                merge_devices user_id devices rest
                  (mkOutcome (resolved_users outcome) (accepted_devices outcome) (dropped_devices outcome)
                     (key_changes outcome ++ [mkKeyChanged user_id device_id]))
                  (merged ++ [with_trust candidate false (sd_blocked known)])
              else
                merge_devices user_id devices rest
                  (mkOutcome (resolved_users outcome) (accepted_devices outcome ++ [(user_id, device_id)])
                     (dropped_devices outcome) (key_changes outcome))
                  (merged ++ [with_trust candidate (sd_verified known) (sd_blocked known)])
          | None =>
              merge_devices user_id devices rest
                (mkOutcome (resolved_users outcome) (accepted_devices outcome ++ [(user_id, device_id)])
                   (dropped_devices outcome) (key_changes outcome))
                (merged ++ [with_trust candidate true (sd_blocked candidate)])
          end
      | Err reason =>
          merge_devices user_id devices rest
            (mkOutcome (resolved_users outcome) (accepted_devices outcome)
               (dropped_devices outcome ++ [mkDropped user_id device_id reason]) (key_changes outcome))
            (match existing_by_id !! device_id with Some known => merged ++ [known] | None => merged end)
      end
  end.

(** The outer loop. *)
Fixpoint merge_users (store : S) (device_keys : list (UserId * list (DeviceId * Value))) (outcome : KeysQueryOutcome) :
    S * result KeysQueryOutcome TrackerError :=
  match device_keys with
  | [] => (store, Ok outcome)
  | (user_id, devices_by_id) :: device_keys =>
      try? existing := tracker_devices_for_user store user_id on store in
      let '(outcome, merged) := merge_devices user_id devices_by_id (index_devices existing) outcome [] in
      try? bytes := map_err TCrypto (device_list_to_vec merged) on store in
      match cs_save_devices store user_id bytes with
      | (store, Err e) => (store, Err (TStore e))
      | (store, Ok _) =>
          match cs_mark_user_tracked store user_id false with
          | (store, Err e) => (store, Err (TStore e))
          | (store, Ok _) =>
              merge_users store device_keys
                (mkOutcome (resolved_users outcome ++ [user_id]) (accepted_devices outcome) (dropped_devices outcome)
                   (key_changes outcome))
          end
      end
  end.

Definition on_keys_query_response (store : S) (body : string) : S * result KeysQueryOutcome TrackerError :=
  match keys_query_from_slice body with
  | Err e => (store, Err (TWireDecode e))
  | Ok parsed => merge_users store parsed (mkOutcome [] [] [] [])
  end.

(** ** The table *)

(** What becomes of one device of an answer, given what was known. *)
Definition merged_device (user_id : UserId) (known : gmap DeviceId StoredDevice) (dev : DeviceId * Value) :
    option StoredDevice :=
  match verify_device user_id dev.1 dev.2, known !! dev.1 with
  | Ok candidate, Some known =>
      if keys_differ known candidate then Some (with_trust candidate false (sd_blocked known))
      else Some (with_trust candidate (sd_verified known) (sd_blocked known))
  | Ok candidate, None => Some (with_trust candidate true false)
  | Err _, old => old
  end.

Lemma verify_device_ok u d raw c :
  verify_device u d raw = Ok c →
  sd_user_id c = u ∧ sd_device_id c = d ∧ sd_verified c = false ∧ sd_blocked c = false ∧
  verify_json_signature raw (UserId_str u) ("ed25519:" +:+ DeviceId_str d) (sd_ed25519 c) = Ok tt.
Proof.
  unfold verify_device. intros Hv.
  destruct (device_keys_from_value raw) as [parsed|]; cbn in Hv; [|discriminate].
  do 2 (destruct (bool_decide _); cbn in Hv; [|discriminate]).
  destruct (dk_keys parsed !! _) as [b1|]; cbn in Hv; [|discriminate].
  destruct (ed25519_from_base64 b1) as [ed|]; cbn in Hv; [|discriminate].
  destruct (dk_keys parsed !! _) as [b2|]; cbn in Hv; [|discriminate].
  destruct (curve25519_from_base64 b2) as [cv|]; cbn in Hv; [|discriminate].
  destruct (verify_json_signature _ _ _ _) as [[]|] eqn:Hs; cbn in Hv; [|discriminate].
  injection Hv as <-. by split_and!.
Qed.

Lemma merge_devices_spec u ds known outcome merged :
  NoDup ds.*1 →
  (merge_devices u ds known outcome merged).2 = merged ++ omap (merged_device u known) ds ∧
  resolved_users (merge_devices u ds known outcome merged).1 = resolved_users outcome.
Proof.
  revert known outcome merged; induction ds as [|[d raw] ds IH]; intros known outcome merged Hnd; cbn -[verify_device].
  { by rewrite app_nil_r. }
  apply NoDup_cons in Hnd as [Hd Hnd].
  assert (Hrest : omap (merged_device u (delete d known)) ds = omap (merged_device u known) ds).
  { clear -Hd. induction ds as [|[d' raw'] ds IH]; cbn -[merged_device]; [done|]. cbn in Hd.
    rewrite IH by set_solver. unfold merged_device. cbn -[verify_device]. rewrite lookup_delete_ne by set_solver. done. }
  unfold merged_device at 1. cbn -[verify_device merged_device].
  destruct (verify_device u d raw) as [c|] eqn:Hv; destruct (known !! d) as [k|] eqn:Hk; cbn -[merged_device].
  - destruct (keys_differ k c); edestruct IH as [-> ->]; try done; by rewrite Hrest, <- app_assoc.
  - edestruct IH as [-> ->]; [done|]. destruct (verify_device_ok _ _ _ _ Hv) as (_ & _ & _ & -> & _).
    rewrite Hrest, <- app_assoc. done.
  - edestruct IH as [-> ->]; [done|]. rewrite Hrest, <- app_assoc. done.
  - edestruct IH as [-> ->]; [done|]. rewrite Hrest. done.
Qed.

(** ** Theorems *)

Context `{!DeviceSerdeLaws} `{!CryptoStoreLaws S}.

(** The readable list of a user. *)
Definition known_devices (store : S) (u : UserId) : gmap DeviceId StoredDevice :=
  match tracker_devices_for_user store u with Ok l => index_devices l | Err _ => ∅ end.

Lemma tracker_devices_view s s' u :
  device_view s' !! u = device_view s !! u → tracker_devices_for_user s' u = tracker_devices_for_user s u.
Proof. intros Hv. unfold tracker_devices_for_user. by rewrite !devices_read, Hv. Qed.

(** One answer, user by user. *)
Lemma merge_users_spec parsed s outcome s' outcome' :
  NoDup parsed.*1 → (∀ u ds, (u, ds) ∈ parsed → NoDup ds.*1) →
  merge_users s parsed outcome = (s', Ok outcome') →
  (∀ u ds, (u, ds) ∈ parsed →
     tracker_devices_for_user s' u = Ok (omap (merged_device u (known_devices s u)) ds) ∧ tracked_view s' !! u = Some false) ∧
  (∀ u, u ∉ parsed.*1 → device_view s' !! u = device_view s !! u ∧ tracked_view s' !! u = tracked_view s !! u) ∧
  resolved_users outcome' = resolved_users outcome ++ parsed.*1.
Proof.
  revert s outcome; induction parsed as [|[u ds] parsed IH]; intros s outcome Hnd Hds; cbn -[tracker_devices_for_user].
  { intros [= <- <-]. split_and!; [by intros ? ? ?%not_elem_of_nil|done|by rewrite app_nil_r]. }
  apply NoDup_cons in Hnd as [Hu Hnd]. cbn in Hu.
  destruct (tracker_devices_for_user s u) as [existing|] eqn:He; [|discriminate].
  destruct (merge_devices_spec u ds (index_devices existing) outcome []) as [Hm Hr]; [apply (Hds u); set_solver|].
  destruct (merge_devices u ds (index_devices existing) outcome []) as [o1 merged]. cbn [fst snd app] in Hm, Hr.
  destruct (device_list_to_vec merged) as [bytes|] eqn:Hb; [|discriminate]. cbn [map_err].
  destruct (devices_saved s u bytes) as (s1 & -> & D1 & T1). destruct (tracked_saved s1 u false) as (s2 & -> & T2 & D2).
  intros Hrest. destruct (IH _ _ Hnd (λ u' ds' Hin, Hds u' ds' (list_elem_of_further _ _ _ Hin)) Hrest) as (R1 & R2 & R3).
  assert (Hother : ∀ u', u' ≠ u → device_view s2 !! u' = device_view s !! u' ∧ tracked_view s2 !! u' = tracked_view s !! u')
    by (intros u' Hne; by rewrite D2, D1, T2, T1, !lookup_insert_ne by done).
  split_and!.
  - intros u' ds' [[= -> ->]|Hin]%elem_of_cons.
    + destruct (R2 u Hu) as [V1 V2]. rewrite V2, T2, lookup_insert_eq. split; [|done].
      rewrite (tracker_devices_view s2 s' u V1). unfold tracker_devices_for_user.
      rewrite devices_read, D2, D1, lookup_insert_eq. cbn. apply device_list_roundtrip in Hb. rewrite Hb. cbn.
      unfold known_devices. by rewrite He, Hm.
    + assert (Hne : u' ≠ u) by (intros ->; apply Hu, list_elem_of_fmap; by exists (u, ds')).
      destruct (R1 _ _ Hin) as [-> ->]. split; [|done]. unfold known_devices.
      by rewrite (tracker_devices_view s s2 u' (proj1 (Hother u' Hne))).
  - intros u' Hnin. cbn in Hnin. apply not_elem_of_cons in Hnin as [Hne Hnin]. destruct (R2 _ Hnin) as [-> ->]. by apply Hother.
  - rewrite R3. cbn. by rewrite Hr, <- app_assoc.
Qed.

(** A successful answer to a key query rewrites the device list of every user it names, and of no
    other, to exactly the devices the table [merged_device] gives, clears the users' outdated flags
    and reports them. By the table, a device is stored with new keys only when it signs itself; keys
    that changed under a known device id clear its verified mark; a block is kept; and a device that
    fails the check keeps its earlier record. *)
Theorem key_query_is_exact s body parsed s' outcome :
  keys_query_from_slice body = Ok parsed → NoDup parsed.*1 → (∀ u ds, (u, ds) ∈ parsed → NoDup ds.*1) →
  on_keys_query_response s body = (s', Ok outcome) →
  (∀ u ds, (u, ds) ∈ parsed →
     tracker_devices_for_user s' u = Ok (omap (merged_device u (known_devices s u)) ds) ∧ tracked_view s' !! u = Some false) ∧
  (∀ u, u ∉ parsed.*1 → device_view s' !! u = device_view s !! u ∧ tracked_view s' !! u = tracked_view s !! u) ∧
  resolved_users outcome = parsed.*1 ∧
  (∀ u known dev d, merged_device u known dev = Some d →
     known !! dev.1 = Some d ∨
     (verify_json_signature dev.2 (UserId_str u) ("ed25519:" +:+ DeviceId_str dev.1) (sd_ed25519 d) = Ok tt ∧
      match known !! dev.1 with
      | Some k => sd_blocked d = sd_blocked k ∧ sd_verified d = (sd_verified k && negb (keys_differ k d))
      | None => sd_verified d = true
      end)).
Proof.
  intros Hp Hnd Hds. unfold on_keys_query_response. rewrite Hp. intros Hm.
  destruct (merge_users_spec _ _ _ _ _ Hnd Hds Hm) as (R1 & R2 & R3). split_and!; [done|done|done|].
  intros u known [dv raw] d. unfold merged_device. cbn [fst snd].
  destruct (verify_device u dv raw) as [c|] eqn:Hv; [|by left].
  destruct (verify_device_ok _ _ _ _ Hv) as (_ & _ & _ & _ & Hs).
  destruct (known !! dv) as [k|].
  - destruct (keys_differ k c) eqn:Hk; intros [= <-]; right; (split; [exact Hs|]); cbn;
      (split; [done|]); change (keys_differ k (with_trust c ?a ?b)) with (keys_differ k c); rewrite Hk.
    + by rewrite andb_false_r.
    + by rewrite andb_true_r.
  - intros [= <-]. right. by split.
Qed.

(** *** Outdated users *)

Lemma mark_changed_spec changed s :
  ∃ s', mark_changed s changed = (s', Ok tt) ∧ device_view s' = device_view s ∧
    ∀ u, tracked_view s' !! u = if decide (u ∈ changed) then Some true else tracked_view s !! u.
Proof.
  revert s; induction changed as [|x changed IH]; intros s; cbn [mark_changed].
  - exists s. by split_and!.
  - destruct (tracked_saved s x true) as (s1 & -> & T1 & D1). destruct (IH s1) as (s2 & -> & D2 & T2).
    exists s2. split_and!; [done|congruence|]. intros u. rewrite T2, T1.
    destruct (decide (u = x)) as [->|Hne]; [rewrite lookup_insert_eq|rewrite lookup_insert_ne by done];
      repeat case_decide; set_solver.
Qed.

Lemma mark_left_spec tracked departed s :
  ∃ s', mark_left s tracked departed = (s', Ok tt) ∧ device_view s' = device_view s ∧
    ∀ u, tracked_view s' !! u = if decide (u ∈ departed ∧ u ∈ tracked) then Some false else tracked_view s !! u.
Proof.
  revert s; induction departed as [|x departed IH]; intros s; cbn [mark_left].
  - exists s. split_and!; [done|done|]. intros u. by rewrite decide_False by set_solver.
  - destruct (decide (x ∈ tracked)) as [Hx|Hx].
    + destruct (tracked_saved s x false) as (s1 & -> & T1 & D1). destruct (IH s1) as (s2 & -> & D2 & T2).
      exists s2. split_and!; [done|congruence|]. intros u. rewrite T2, T1.
      destruct (decide (u = x)) as [->|Hne]; [rewrite lookup_insert_eq|rewrite lookup_insert_ne by done];
        repeat case_decide; set_solver.
    + destruct (IH s) as (s2 & -> & D2 & T2). exists s2. split_and!; [done|done|]. intros u. rewrite T2.
      repeat case_decide; set_solver.
Qed.

(** After a sync's device lists: a changed user is outdated, a departed one that is tracked is not,
    and nobody else is touched. *)
Lemma device_lists_effect s changed departed :
  ∃ s', on_device_lists s changed departed = (s', Ok tt) ∧ device_view s' = device_view s ∧
    ∀ u, tracked_view s' !! u =
      if decide (u ∈ departed ∧ (u ∈ changed ∨ is_Some (tracked_view s !! u))) then Some false
      else if decide (u ∈ changed) then Some true else tracked_view s !! u.
Proof.
  unfold on_device_lists. destruct (mark_changed_spec changed s) as (s1 & -> & D1 & T1).
  destruct (decide (departed = [])) as [->|].
  { exists s1. split_and!; [done|done|]. intros u. rewrite decide_False by set_solver. apply T1. }
  rewrite tracked_read. cbn [map_err].
  destruct (mark_left_spec (list_to_set (btree_entries UserId_str (tracked_view s1)).*1) departed s1) as (s2 & -> & D2 & T2).
  exists s2. split_and!; [done|congruence|]. intros u. rewrite T2, T1.
  assert (Hin : u ∈ (list_to_set (btree_entries UserId_str (tracked_view s1)).*1 : gset UserId) ↔
    u ∈ changed ∨ is_Some (tracked_view s !! u)).
  { rewrite elem_of_list_to_set, list_elem_of_fmap. transitivity (is_Some (tracked_view s1 !! u)).
    - split; [intros ([u' b] & -> & Hb)|intros [b Hb]]; [apply elem_of_btree_entries in Hb; eauto|].
      exists (u, b). split; [done|]. by apply elem_of_btree_entries.
    - rewrite T1. case_decide; naive_solver. }
  destruct (decide (u ∈ departed ∧ u ∈ list_to_set _)) as [Hd|Hd], (decide (u ∈ departed ∧ (_ ∨ _))) as [He|He];
    try done; exfalso; naive_solver.
Qed.

(** A device left out of an answer is forgotten: when a later answer names it again it is trusted as
    if seen for the first time, whatever its keys and whether or not it was blocked. *)
Lemma omitted_device_is_trusted_again s u b1 b2 s1 o1 s2 o2 dv raw c :
  keys_query_from_slice b1 = Ok [(u, [])] → on_keys_query_response s b1 = (s1, Ok o1) →
  keys_query_from_slice b2 = Ok [(u, [(dv, raw)])] → on_keys_query_response s1 b2 = (s2, Ok o2) →
  verify_device u dv raw = Ok c →
  tracker_devices_for_user s2 u = Ok [with_trust c true false].
Proof.
  intros Hp1 Hm1 Hp2 Hm2 Hv. unfold on_keys_query_response in *. rewrite Hp1 in Hm1. rewrite Hp2 in Hm2.
  assert (Hnd : ∀ (x : list (DeviceId * Value)), NoDup [(u, x)].*1) by (intros x; apply NoDup_singleton).
  apply merge_users_spec in Hm1 as (R1 & _); [|apply Hnd|intros u' ds' Hin; apply list_elem_of_singleton in Hin; injection Hin as _ ->; constructor].
  apply merge_users_spec in Hm2 as (R2 & _); [|apply Hnd|intros u' ds' Hin; apply list_elem_of_singleton in Hin; injection Hin as _ ->; apply NoDup_singleton].
  destruct (R2 u _ (list_elem_of_here _ _)) as [-> _]. destruct (R1 u _ (list_elem_of_here _ _)) as [K1 _].
  unfold known_devices. rewrite K1. cbn -[verify_device]. unfold merged_device. cbn -[verify_device]. by rewrite Hv.
Qed.

End Tracker.

(** * The device tracker over the working-set store

    The store as an instance of the tracker's interface, with its laws, and a concrete answer to a
    key query. *)

From S2P Require Import Prelude Ids Persist OutgoingQueue Store StoreProps Json CanonicalJson CanonicalJsonProps.

(** ** The working-set store implements the interface *)

Section StoreInstance.
Context `{SerdeJson, !RecordJson} {C : Type} `{RecordCodec C} (nonce : Nonce).

Definition Store_CryptoStore : CryptoStore (Store C) := {|
  cs_devices_for_user := devices_for_user;
  cs_save_devices s u b := save_devices s nonce u b;
  cs_tracked_users := tracked_users;
  cs_mark_user_tracked s u b := mark_user_tracked s nonce u b
|}.

Definition Store_CryptoStoreLaws : @CryptoStoreLaws (Store C) Store_CryptoStore.
Proof.
  refine (@Build_CryptoStoreLaws _ Store_CryptoStore st_devices st_tracked_users _ _ _ _).
  - done.
  - intros s u b. eexists. split; [reflexivity|]. done.
  - done.
  - intros s u b. eexists. split; [reflexivity|]. done.
Defined.

End StoreInstance.

(** ** Concrete inputs *)

Module TrackerExample.
Import CanonicalWitnesses SealedWitnesses StoreWitnesses.

Definition alice : UserId := mkUserId "@a:x".
Definition laptop : DeviceId := mkDeviceId "D".

(** A device object that signs itself with the key "K" of the toy scheme. *)
Definition device_object : Value :=
  (sign_json (VObject [("device_id", VString "D"); ("user_id", VString "@a:x")]) "@a:x" "ed25519:D"
     ((λ m, "K" +:+ m) : string → @Ed25519Signature toy)).1.

#[export] Instance toy_key_dec : EqDecision (@Ed25519PublicKey toy).
Proof. unfold Ed25519PublicKey, toy. apply _. Defined.

Definition device (verified blocked : bool) : @StoredDevice toy string :=
  @mkStoredDevice toy string alice laptop "C" "K" [] None verified blocked.

#[export] Instance device_dec : EqDecision (@StoredDevice toy string).
Proof. solve_decision. Defined.

(** An answer that names one device; lists of at most that device are written. *)
#[export] Instance sample_devices : @DeviceSerde toy string := {|
  keys_query_from_slice _ := Ok [(alice, [(laptop, device_object)])];
  device_keys_from_value _ := Ok (mkDeviceKeys alice laptop [] {["ed25519:D" := "K"; "curve25519:D" := "C"]} None);
  device_list_to_vec l := if decide (l = [device true false]) then Ok "one" else Err "not written";
  device_list_from_slice b := if decide (b = "one") then Ok [device true false] else Err "not read";
  ed25519_from_base64 s := Ok (s : @Ed25519PublicKey toy);
  curve25519_from_base64 s := Ok s
|}.

#[export] Instance sample_devices_laws : DeviceSerdeLaws.
Proof.
  constructor. intros l b. cbn. destruct (decide _) as [->|]; [|discriminate]. by intros [= <-].
Qed.

#[export] Instance store_interface : CryptoStore (Store SealedRecordCodec) := Store_CryptoStore nonce0.
#[export] Instance store_laws : CryptoStoreLaws (Store SealedRecordCodec) := Store_CryptoStoreLaws nonce0.

Lemma key_query_is_exact_witness :
  tracker_devices_for_user (on_keys_query_response s0 "body").1 alice = Ok [device true false].
Proof.
  destruct (key_query_is_exact s0 "body" [(alice, [(laptop, device_object)])] (on_keys_query_response s0 "body").1
    (mkOutcome [alice] [(alice, laptop)] [] [])) as (Hd & _).
  - reflexivity.
  - apply NoDup_singleton.
  - intros u ds Hin. apply list_elem_of_singleton in Hin. injection Hin as _ ->. apply NoDup_singleton.
  - vm_compute. reflexivity.
  - destruct (Hd alice [(laptop, device_object)] (list_elem_of_here _ _)) as [-> _]. vm_compute. reflexivity.
Defined.

End TrackerExample.
