(* ===== verification/Migrations.v ===== *)
(** * The SQLite handle and the schema migrations (crates/mail4agent-store-sqlite: db.rs, migrations.rs)

    A database is a catalogue of tables, each with its columns, keys and rows, and of indexes. The
    statements the migrations are written in have their SQLite meaning ([exec]), an error being
    [None]; what those statements do not use (a foreign key on a table a migration inserts into,
    dropping a table another one references) the interpreter refuses. [MigrationRunner::run] runs
    the pending ones in one transaction; every failure of the machine it meets is a field of
    [Environment]. The theorems: a run is all or nothing, repeated runs and upgrades in steps give
    the database of a single run, and the mail of a version 1 database reads back after the
    upgrade. *)

From S2P Require Import Prelude Api MailStore Sqlite SqliteRefine SqliteProps.

Local Open Scope Z_scope.

(** ** Databases *)

Inductive SqlValue :=
| SNull
| SInteger (n : Z)
| SText (s : string)
| SBlob (s : string).

#[export] Instance SqlValue_eq_dec : EqDecision SqlValue.
Proof. solve_decision. Defined.

Inductive ColumnDefault :=
| DefaultNull
| DefaultText (s : string)
| DefaultNow.

(** [c_check] is the list of a [CHECK (column IN (..))]. *)
Record Column := mkColumn {
  c_name : string;
  c_not_null : bool;
  c_default : ColumnDefault;
  c_check : option (list string) }.

Definition Row := list SqlValue.

(** [tb_references] pairs a column with the table it references. *)
Record Table := mkTable {
  tb_columns : list Column;
  tb_primary_key : list string;
  tb_references : list (string * string);
  tb_rows : list Row }.

Record Index := mkIndex {
  ix_unique : bool;
  ix_table : string;
  ix_columns : list string;
  ix_where : option (string * string) }.

Record Database := mkDatabase {
  tables : list (string * Table);
  indexes : list (string * Index) }.

Definition Database_empty : Database := mkDatabase [] [].

Definition assoc {A} (l : list (string * A)) (k : string) : option A := snd <$> List.find (λ p, seqb p.1 k) l.

Definition table (db : Database) (name : string) : option Table := assoc (tables db) name.

Definition name_taken (db : Database) (name : string) : bool :=
  is_some (assoc (tables db) name) || is_some (assoc (indexes db) name).

Definition column_index (columns : list Column) (name : string) : option nat :=
  fst <$> list_find (λ c, c_name c = name) columns.

Definition value_of (columns : list Column) (row : Row) (name : string) : option SqlValue :=
  i ← column_index columns name; row !! i.

Definition with_rows (t : Table) (rows : list Row) : Table :=
  mkTable (tb_columns t) (tb_primary_key t) (tb_references t) rows.

Definition set_table (db : Database) (name : string) (t : Table) : Database :=
  mkDatabase ((λ p, if seqb p.1 name then (p.1, t) else p) <$> tables db) (indexes db).

(** ** Constraints *)

Definition not_null_ok (c : Column) (v : SqlValue) : bool :=
  negb (c_not_null c) || negb (bool_decide (v = SNull)).

(** A CHECK fails only when it is false, so NULL passes. *)
Definition check_ok (c : Column) (v : SqlValue) : bool :=
  match c_check c, v with
  | Some allowed, SText s => bool_decide (s ∈ allowed)
  | Some _, SNull => true
  | Some _, _ => false
  | None, _ => true
  end.

Fixpoint columns_ok (columns : list Column) (row : Row) : bool :=
  match columns, row with
  | [], [] => true
  | c :: columns, v :: row => not_null_ok c v && check_ok c v && columns_ok columns row
  | _, _ => false
  end.

(** The key of a row, unless a part of it is NULL: such rows never collide. *)
Definition key_of (columns : list Column) (key : list string) (row : Row) : option (list SqlValue) :=
  values ← mapM (value_of columns row) key;
  if bool_decide (SNull ∈ values) then None else Some values.

Definition collides (columns : list Column) (key : list string) (rows : list Row) (row : Row) : bool :=
  match key with
  | [] => false
  | _ =>
    match key_of columns key row with
    | Some k => existsb (λ other, bool_decide (key_of columns key other = Some k)) rows
    | None => false
    end
  end.

(** Rows an index covers. *)
Definition covered (columns : list Column) (ix : Index) (row : Row) : bool :=
  match ix_where ix with
  | None => true
  | Some (column, s) => bool_decide (value_of columns row column = Some (SText s))
  end.

Definition index_ok (columns : list Column) (rows : list Row) (row : Row) (ix : Index) : bool :=
  negb (ix_unique ix && covered columns ix row &&
        collides columns (ix_columns ix) (List.filter (covered columns ix) rows) row).

(** Whether [row] may join the rows of the table [name]. *)
Definition row_ok (db : Database) (name : string) (t : Table) (row : Row) : bool :=
  columns_ok (tb_columns t) row &&
  negb (collides (tb_columns t) (tb_primary_key t) (tb_rows t) row) &&
  forallb (index_ok (tb_columns t) (tb_rows t) row)
    (List.filter (λ ix, seqb (ix_table ix) name) (snd <$> indexes db)).

Definition default_value (now : string) (d : ColumnDefault) : SqlValue :=
  match d with DefaultNull => SNull | DefaultText s => SText s | DefaultNow => SText now end.

(** The row of an INSERT that names some columns. *)
Definition make_row (now : string) (columns : list Column) (values : list (string * SqlValue)) : Row :=
  (λ c, default (default_value now (c_default c)) (assoc values (c_name c))) <$> columns.

Definition insert_row (now : string) (db : Database) (name : string) (values : list (string * SqlValue)) :
    option Database :=
  t ← table db name;
  if negb (forallb (λ p, is_some (column_index (tb_columns t) p.1)) values) then None
  else if negb (bool_decide (tb_references t = [])) then None
  else
    let row := make_row now (tb_columns t) values in
    if row_ok db name t row then Some (set_table db name (with_rows t (tb_rows t ++ [row]))) else None.

(** ** Statements *)

Inductive SqlExpr := EColumn (name : string) | ELiteral (v : SqlValue).

Inductive Statement :=
| CreateTable (if_not_exists : bool) (name : string) (columns : list Column) (primary_key : list string)
    (references : list (string * string))
| CreateIndex (name : string) (ix : Index)
| InsertSelect (target : string) (columns : list string) (exprs : list SqlExpr) (source : string)
| DropTable (name : string)
| RenameTable (from to : string)
| AddColumn (name : string) (column : string).

Definition eval_expr (columns : list Column) (row : Row) (e : SqlExpr) : option SqlValue :=
  match e with EColumn name => value_of columns row name | ELiteral v => Some v end.

Fixpoint insert_rows (now : string) (db : Database) (target : string) (columns : list string) (exprs : list SqlExpr)
    (source : list Column) (rows : list Row) : option Database :=
  match rows with
  | [] => Some db
  | row :: rows =>
      values ← mapM (eval_expr source row) exprs;
      db ← insert_row now db target (zip columns values);
      insert_rows now db target columns exprs source rows
  end.

Fixpoint rows_unique (columns : list Column) (key : list string) (rows : list Row) : bool :=
  match rows with
  | [] => true
  | row :: rows => negb (collides columns key rows row) && rows_unique columns key rows
  end.

Definition exec (now : string) (db : Database) (s : Statement) : option Database :=
  match s with
  | CreateTable if_not_exists name columns primary_key references =>
      if if_not_exists && is_some (table db name) then Some db
      else if name_taken db name then None
      else Some (mkDatabase (tables db ++ [(name, mkTable columns primary_key references [])]) (indexes db))
  | CreateIndex name ix =>
      if name_taken db name then None
      else
        t ← table db (ix_table ix);
        if negb (forallb (λ c, is_some (column_index (tb_columns t) c)) (ix_columns ix)) then None
        else if ix_unique ix &&
                negb (rows_unique (tb_columns t) (ix_columns ix) (List.filter (covered (tb_columns t) ix) (tb_rows t)))
        then None
        else Some (mkDatabase (tables db) (indexes db ++ [(name, ix)]))
  | InsertSelect target columns exprs source =>
      t ← table db source;
      if negb (bool_decide (length columns = length exprs)) then None
      else insert_rows now db target columns exprs (tb_columns t) (tb_rows t)
  | DropTable name =>
      _ ← table db name;
      if existsb (λ p, negb (seqb p.1 name) && existsb (λ r, seqb r.2 name) (tb_references p.2)) (tables db) then None
      else Some (mkDatabase (List.filter (λ p, negb (seqb p.1 name)) (tables db))
                   (List.filter (λ p, negb (seqb (ix_table p.2) name)) (indexes db)))
  | RenameTable from to =>
      _ ← table db from;
      if name_taken db to then None
      else
        let renamed s := if seqb s from then to else s in
        Some (mkDatabase
          ((λ p, (renamed p.1, mkTable (tb_columns p.2) (tb_primary_key p.2)
                                 ((λ r, (r.1, renamed r.2)) <$> tb_references p.2) (tb_rows p.2))) <$> tables db)
          ((λ p, (p.1, mkIndex (ix_unique p.2) (renamed (ix_table p.2)) (ix_columns p.2) (ix_where p.2))) <$> indexes db))
  | AddColumn name column =>
      t ← table db name;
      if is_some (column_index (tb_columns t) column) then None
      else Some (set_table db name
        (mkTable (tb_columns t ++ [mkColumn column false DefaultNull None]) (tb_primary_key t) (tb_references t)
           ((λ row, row ++ [SNull]) <$> tb_rows t)))
  end.

Fixpoint exec_batch (now : string) (db : Database) (batch : list Statement) : option Database :=
  match batch with
  | [] => Some db
  | s :: batch => db ← exec now db s; exec_batch now db batch
  end.

(** ** The handle and the runner (db.rs) *)

Inductive DbConfig := Path (path : string) | InMemoryDb.

Definition is_in_memory (c : DbConfig) : bool := match c with InMemoryDb => true | Path _ => false end.

Inductive SqlError := CannotOpen | PragmaFailed | DatabaseBusy | StatementFailed | CommitFailed.

Inductive DbError :=
| DbOpen (path : string) (source : SqlError)
| DbPragma (source : SqlError)
| DbMigration (source : SqlError).

Record Connection := mkConnection {
  conn_db : Database;
  busy_timeout : Z;
  journal_wal : bool;
  foreign_keys : bool }.

Definition with_db (c : Connection) (db : Database) : Connection :=
  mkConnection db (busy_timeout c) (journal_wal c) (foreign_keys c).
Definition with_busy_timeout (c : Connection) (ms : Z) : Connection :=
  mkConnection (conn_db c) ms (journal_wal c) (foreign_keys c).

Record Db := mkDbHandle { inner : Connection; db_label : string }.

(** What opening may meet: the connection the driver gives, and whether a pragma is accepted. *)
Definition open (connect : DbConfig → option Connection) (pragma : string → bool) (cfg : DbConfig) : result Db DbError :=
  let path := match cfg with Path path => path | InMemoryDb => ":memory:" end in
  let? conn := ok_or (connect cfg) (DbOpen path CannotOpen) in
  let? conn :=
    if is_in_memory cfg then Ok conn
    else if pragma "journal_mode" then Ok (mkConnection (conn_db conn) (busy_timeout conn) true (foreign_keys conn))
    else Err (DbPragma PragmaFailed) in
  if pragma "foreign_keys"
  then Ok (mkDbHandle (mkConnection (conn_db conn) (busy_timeout conn) (journal_wal conn) true) path)
  else Err (DbPragma PragmaFailed).

Record Migration := mkMigration { version : Z; mg_label : string; sql : list Statement }.

Fixpoint strictly_increasing (ms : list Migration) : bool :=
  match ms with
  | a :: (b :: _) as rest => (version a <? version b) && strictly_increasing rest
  | _ => true
  end.

(** [None] is the panic of the assertion. *)
Definition MigrationRunner_new (ms : list Migration) : option (list Migration) :=
  if strictly_increasing ms then Some ms else None.

(** What a run may meet: whether the old time-out is readable, whether the pragma is accepted
    before and after, whether the exclusive lock is obtained and the commit succeeds; the clock
    at the time each version is recorded. *)
Record Environment := mkEnvironment {
  e_readable : bool;
  e_raise : bool;
  e_lock : bool;
  e_commit : bool;
  e_restore : bool;
  e_clock : Z → string }.

Definition LEDGER : string := "schema_migrations".

Definition create_ledger : Statement :=
  CreateTable true LEDGER
    [mkColumn "version" false DefaultNull None; mkColumn "label" true DefaultNull None;
     mkColumn "applied_at" true DefaultNow None] ["version"] [].

Definition already (db : Database) (v : Z) : bool :=
  match table db LEDGER with
  | Some t => existsb (λ row, bool_decide (value_of (tb_columns t) row "version" = Some (SInteger v))) (tb_rows t)
  | None => false
  end.

Definition apply_migration (clock : Z → string) (db : Database) (m : Migration) : option Database :=
  if already db (version m) then Some db
  else
    db ← exec_batch (clock (version m)) db (sql m);
    insert_row (clock (version m)) db LEDGER [("version", SInteger (version m)); ("label", SText (mg_label m))].

Fixpoint apply_migrations (clock : Z → string) (db : Database) (ms : list Migration) : option Database :=
  match ms with
  | [] => Some db
  | m :: ms => db ← apply_migration clock db m; apply_migrations clock db ms
  end.

(** The body of the transaction. *)
Definition migrate (clock : Z → string) (ms : list Migration) (db : Database) : option Database :=
  db ← exec (clock 0) db create_ledger; apply_migrations clock db ms.

Definition transact (env : Environment) (conn : Connection) (ms : list Migration) : Connection * result unit SqlError :=
  if negb (e_lock env) then (conn, Err DatabaseBusy)
  else
    match migrate (e_clock env) ms (conn_db conn) with
    | None => (conn, Err StatementFailed)
    | Some db => if e_commit env then (with_db conn db, Ok tt) else (conn, Err CommitFailed)
    end.

Definition run (env : Environment) (ms : list Migration) (conn : Connection) : Connection * result unit SqlError :=
  let prev_busy_ms := if e_readable env then busy_timeout conn else 0 in
  if negb (e_raise env) then (conn, Err PragmaFailed)
  else
    let '(conn, result) := transact env (with_busy_timeout conn 30000) ms in
    (if e_restore env then with_busy_timeout conn prev_busy_ms else conn, result).

(** Called before any other handle of the database is in use: the code panics on a held lock. *)
Definition run_migrations_blocking (env : Environment) (db : Db) (ms : list Migration) : Db * result unit DbError :=
  let '(conn, r) := run env ms (inner db) in
  (mkDbHandle conn (db_label db), map_err DbMigration r).

(** ** The schema (migrations.rs) *)

Definition plain (name : string) : Column := mkColumn name false DefaultNull None.
Definition not_null (name : string) : Column := mkColumn name true DefaultNull None.
Definition one_of (name : string) (d : ColumnDefault) (allowed : list string) : Column := mkColumn name true d (Some allowed).

Definition SCHEMA_V1_SQL : list Statement :=
  [CreateTable false "participants"
     [plain "id"; plain "label"; not_null "secret_digest"; not_null "may_send"; not_null "may_read"; not_null "operator"]
     ["id"] [];
   CreateIndex "idx_participants_secret_digest" (mkIndex true "participants" ["secret_digest"] None);
   CreateTable false "rooms" [plain "id"; not_null "created_at_unix_ms"] ["id"] [];
   CreateTable false "room_members" [not_null "room_id"; not_null "participant_id"] ["room_id"; "participant_id"]
     [("room_id", "rooms")];
   CreateIndex "idx_room_members_participant" (mkIndex false "room_members" ["participant_id"] None);
   CreateTable false "messages"
     [plain "message_id"; not_null "from_participant"; one_of "to_kind" DefaultNull ["direct"; "room"];
      plain "to_participant"; plain "to_room"; not_null "created_at_unix_ms"; not_null "payload"]
     ["message_id"] [];
   CreateIndex "idx_messages_direct_recipient"
     (mkIndex false "messages" ["to_participant"; "created_at_unix_ms"] (Some ("to_kind", "direct")));
   CreateIndex "idx_messages_room_recipient"
     (mkIndex false "messages" ["to_room"; "created_at_unix_ms"] (Some ("to_kind", "room")));
   CreateTable false "acks" [not_null "message_id"; not_null "reader"; not_null "acked_at_unix_ms"]
     ["message_id"; "reader"] [];
   CreateTable false "idempotency" [not_null "sender"; not_null "idempotency_key"; not_null "message_id"]
     ["sender"; "idempotency_key"] []].

Definition SCHEMA_V2_SQL : list Statement :=
  [CreateTable false "sessions" [plain "session_id"; not_null "account"; not_null "card"; not_null "last_seen_unix_ms"]
     ["session_id"] [];
   CreateIndex "idx_sessions_account" (mkIndex false "sessions" ["account"] None);
   CreateTable false "messages_v2"
     [plain "message_id"; not_null "from_participant"; one_of "from_kind" (DefaultText "direct") ["direct"; "session"];
      plain "from_session"; one_of "to_kind" DefaultNull ["direct"; "session"; "room"];
      plain "to_participant"; plain "to_session"; plain "to_room"; not_null "created_at_unix_ms"; not_null "payload"]
     ["message_id"] [];
   InsertSelect "messages_v2"
     ["message_id"; "from_participant"; "from_kind"; "from_session"; "to_kind"; "to_participant"; "to_session"; "to_room";
      "created_at_unix_ms"; "payload"]
     [EColumn "message_id"; EColumn "from_participant"; ELiteral (SText "direct"); ELiteral SNull; EColumn "to_kind";
      EColumn "to_participant"; ELiteral SNull; EColumn "to_room"; EColumn "created_at_unix_ms"; EColumn "payload"]
     "messages";
   DropTable "messages";
   RenameTable "messages_v2" "messages";
   CreateIndex "idx_messages_direct_recipient"
     (mkIndex false "messages" ["to_participant"; "created_at_unix_ms"] (Some ("to_kind", "direct")));
   CreateIndex "idx_messages_session_recipient"
     (mkIndex false "messages" ["to_participant"; "to_session"; "created_at_unix_ms"] (Some ("to_kind", "session")));
   CreateIndex "idx_messages_room_recipient"
     (mkIndex false "messages" ["to_room"; "created_at_unix_ms"] (Some ("to_kind", "room")))].

Definition SCHEMA_V3_SQL : list Statement := [AddColumn "participants" "listener_url"].

Definition migrations : list Migration :=
  [mkMigration 1 "mail4agent_v1_schema" SCHEMA_V1_SQL;
   mkMigration 2 "mail4agent_v2_sessions_and_session_addressing" SCHEMA_V2_SQL;
   mkMigration 3 "mail4agent_v3_participant_listener_url" SCHEMA_V3_SQL].

(** [SqliteMailStore::open_in_memory] *)
Definition open_in_memory (connect : DbConfig → option Connection) (pragma : string → bool) (env : Environment) :
    result Db StoreError :=
  let? db := map_err (λ _, mkStoreError "open in-memory db") (open connect pragma InMemoryDb) in
  let '(db, r) := run_migrations_blocking env db migrations in
  let? _ := map_err (λ _, mkStoreError "run migrations") r in
  Ok db.
