(* ===== verification/MigrationsProps.v ===== *)
(** * Properties of the migration runner

    A run is all or nothing ([run_is_atomic]), upgrading in steps equals a fresh install
    ([stepwise_upgrade_is_fresh_install]), and a version 1 database keeps its mail
    ([v1_mail_survives_upgrade]). *)

From S2P Require Import Prelude Api MailStore Sqlite SqliteRefine SqliteProps Migrations.

Local Open Scope Z_scope.

(** ** Association lists *)

Lemma assoc_app {A} (l l' : list (string * A)) k :
  assoc (l ++ l') k = match assoc l k with Some a => Some a | None => assoc l' k end.
Proof. unfold assoc. induction l as [|[k' a] l IH]; cbn; [done|]. unfold seqb in *. by case_bool_decide. Qed.

Lemma assoc_map_keys {A B} (f : string → string) (g : A → B) (l : list (string * A)) k :
  (∀ k', f k' = k ↔ k' = k) → assoc ((λ p, (f p.1, g p.2)) <$> l) k = g <$> assoc l k.
Proof.
  intros Hf. unfold assoc, seqb. induction l as [|[k' a] l IH]; cbn; [done|].
  rewrite (bool_decide_ext _ _ (Hf k')). by case_bool_decide.
Qed.

Lemma assoc_filter {A} (p : string → bool) (l : list (string * A)) k :
  p k = true → assoc (List.filter (λ q, p q.1) l) k = assoc l k.
Proof.
  intros Hp. unfold assoc, seqb. induction l as [|[k' a] l IH]; cbn; [done|].
  destruct (p k') eqn:Hk; cbn; case_bool_decide; congruence.
Qed.

Lemma table_set_other db name other t : name ≠ other → table (set_table db name t) other = table db other.
Proof.
  intros Hne. unfold table, assoc, set_table, seqb. cbn. induction (tables db) as [|[k a] l IH]; cbn; [done|].
  repeat case_bool_decide; cbn in *; repeat case_bool_decide; cbn in *; congruence.
Qed.

Lemma table_set_same db name t t' : table db name = Some t' → table (set_table db name t) name = Some t.
Proof.
  unfold table, assoc, set_table, seqb. cbn. induction (tables db) as [|[k a] l IH]; cbn; [done|].
  repeat case_bool_decide; cbn in *; repeat case_bool_decide; cbn in *; try congruence. intros H'. by apply IH.
Qed.

(** ** What a statement leaves alone *)

Definition touches (name : string) (s : Statement) : bool :=
  match s with
  | CreateTable _ n _ _ _ | CreateIndex n _ | DropTable n | AddColumn n _ | InsertSelect n _ _ _ => seqb n name
  | RenameTable n n' => seqb n name || seqb n' name
  end.

(** The columns and rows of a table. *)
Definition contents (db : Database) (name : string) : option (list Column * list Row) :=
  (λ t, (tb_columns t, tb_rows t)) <$> table db name.

Lemma insert_row_inv now db name values db' :
  insert_row now db name values = Some db' →
  ∃ t, table db name = Some t ∧
    forallb (λ p, is_some (column_index (tb_columns t) p.1)) values = true ∧
    db' = set_table db name (with_rows t (tb_rows t ++ [make_row now (tb_columns t) values])).
Proof.
  unfold insert_row. destruct (table db name) as [t|]; [|done]. cbn. intros H. exists t. split; [done|].
  destruct (forallb _ values); [|done]. cbn in H. case_bool_decide; [|done]. cbn in H.
  destruct (row_ok db name t _); by simplify_eq.
Qed.

Lemma insert_rows_other now db target columns exprs source rows db' name :
  target ≠ name → insert_rows now db target columns exprs source rows = Some db' → contents db' name = contents db name.
Proof.
  intros Hne. revert db. induction rows as [|row rows IH]; cbn; intros db H; [by simplify_eq|].
  destruct (mapM _ exprs) as [values|]; [|done]. cbn in H.
  destruct (insert_row now db target _) as [db1|] eqn:H1; [|done]. cbn in H. rewrite (IH db1 H).
  apply insert_row_inv in H1 as (t & _ & _ & ->). unfold contents. by rewrite table_set_other.
Qed.

Lemma exec_other now db s db' name : touches name s = false → exec now db s = Some db' → contents db' name = contents db name.
Proof.
  unfold contents. destruct s as [b n cs pk rs|n ix|n cs es src|n|n n'|n c]; cbn [touches exec]; intros Ht H; unfold seqb in Ht.
  - destruct (b && _); [by simplify_eq|]. destruct (name_taken db n); simplify_eq. unfold table. cbn [tables].
    rewrite assoc_app. destruct (assoc (tables db) name); [done|]. cbn. unfold assoc, seqb. cbn. by rewrite Ht.
  - destruct (name_taken db n); [done|]. destruct (table db (ix_table ix)); [|done]. cbn in H.
    destruct (negb (forallb _ _)); [done|]. destruct (_ && negb _); by simplify_eq.
  - apply bool_decide_eq_false in Ht. destruct (table db src); [|done]. cbn in H.
    destruct (negb _); [done|]. by apply (insert_rows_other _ _ _ _ _ _ _ _ name Ht) in H.
  - destruct (table db n); [|done]. cbn in H. destruct (existsb _ _); [done|]. simplify_eq. unfold table. cbn [tables].
    rewrite (assoc_filter (λ k, negb (seqb k n))); [done|]. apply bool_decide_eq_false in Ht. unfold seqb.
    by rewrite bool_decide_false by congruence.
  - apply orb_false_iff in Ht as [H1%bool_decide_eq_false H2%bool_decide_eq_false].
    destruct (table db n); [|done]. cbn in H. destruct (name_taken db n'); [done|]. simplify_eq. unfold table. cbn [tables].
    rewrite (assoc_map_keys (λ k, if seqb k n then n' else k)
      (λ t, mkTable (tb_columns t) (tb_primary_key t) ((λ r, (r.1, if seqb r.2 n then n' else r.2)) <$> tb_references t) (tb_rows t))).
    + by destruct (assoc (tables db) name).
    + intros k. unfold seqb. case_bool_decide; naive_solver.
  - apply bool_decide_eq_false in Ht. destruct (table db n); [|done]. cbn in H.
    destruct (is_some _); [done|]. simplify_eq. by rewrite table_set_other.
Qed.

Lemma exec_batch_other now batch db db' name :
  Forall (λ s, touches name s = false) batch → exec_batch now db batch = Some db' → contents db' name = contents db name.
Proof.
  revert db. induction batch as [|s batch IH]; intros db Hb H; cbn in H; [by simplify_eq|].
  apply Forall_cons in Hb as [Hs Hb]. destruct (exec now db s) as [db1|] eqn:H1; [|done]. cbn in H.
  rewrite (IH db1 Hb H). by eapply exec_other.
Qed.

Lemma exec_batch_app now batch batch' db :
  exec_batch now db (batch ++ batch') = db' ← exec_batch now db batch; exec_batch now db' batch'.
Proof. revert db. induction batch as [|s batch IH]; intros db; [done|]. cbn. destruct (exec now db s); [|done]. apply IH. Qed.

(** ** The ledger *)

Definition recorded (db : Database) (v : Z) : Prop := already db v = true.

Lemma already_contents db v :
  already db v =
  match contents db LEDGER with
  | Some (columns, rows) => existsb (λ row, bool_decide (value_of columns row "version" = Some (SInteger v))) rows
  | None => false
  end.
Proof. unfold already, contents. by destruct (table db LEDGER). Qed.

Lemma already_table db v : recorded db v → is_some (table db LEDGER) = true.
Proof. unfold recorded, already. by destruct (table db LEDGER). Qed.

Lemma make_row_value now columns values name v :
  is_some (column_index columns name) = true → assoc values name = Some v →
  value_of columns (make_row now columns values) name = Some v.
Proof.
  unfold value_of, make_row, column_index. intros Hi Hv.
  destruct (list_find _ columns) as [[i c]|] eqn:Hf; [|done]. apply list_find_Some in Hf as (Hc & <- & _).
  transitivity (((λ c, default (default_value now (c_default c)) (assoc values (c_name c))) <$> columns) !! i); [done|].
  rewrite list_lookup_fmap, Hc. cbn. by rewrite Hv.
Qed.

Lemma insert_ledger_recorded now db v l db' :
  insert_row now db LEDGER [("version", SInteger v); ("label", SText l)] = Some db' →
  recorded db' v ∧ ∀ w, recorded db w → recorded db' w.
Proof.
  intros (t & Ht & Hc & ->)%insert_row_inv. unfold recorded, already.
  rewrite (table_set_same _ _ _ _ Ht), Ht. cbn [tb_columns tb_rows with_rows forallb fst] in *. apply andb_true_iff in Hc as [Hc _]. split.
  - rewrite existsb_app. apply orb_true_iff. right. cbn [existsb].
    rewrite (make_row_value _ _ _ _ (SInteger v)) by done. by rewrite bool_decide_true.
  - intros w Hw. rewrite existsb_app. by rewrite Hw.
Qed.

(** A migration that leaves the ledger to the runner. *)
Definition leaves_ledger (m : Migration) : Prop := Forall (λ s, touches LEDGER s = false) (sql m).

Lemma apply_migration_recorded clock db m db' :
  leaves_ledger m → apply_migration clock db m = Some db' →
  recorded db' (version m) ∧ ∀ w, recorded db w → recorded db' w.
Proof.
  unfold apply_migration. intros Hl H. destruct (already db (version m)) eqn:Ha; [by simplify_eq|].
  destruct (exec_batch _ db (sql m)) as [db1|] eqn:Hb; [|done]. cbn in H.
  apply insert_ledger_recorded in H as [H1 H2]. split; [done|]. intros w Hw. apply H2.
  unfold recorded. rewrite already_contents, (exec_batch_other _ _ _ _ _ Hl Hb), <- already_contents. exact Hw.
Qed.

Lemma apply_migrations_recorded clock ms db db' :
  Forall leaves_ledger ms → apply_migrations clock db ms = Some db' →
  Forall (λ m, recorded db' (version m)) ms ∧ ∀ w, recorded db w → recorded db' w.
Proof.
  revert db. induction ms as [|m ms IH]; intros db Hl H; cbn in H; [by simplify_eq|].
  apply Forall_cons in Hl as [Hm Hl]. destruct (apply_migration clock db m) as [db1|] eqn:H1; [|done]. cbn in H.
  destruct (apply_migration_recorded _ _ _ _ Hm H1) as [Hv Hw], (IH db1 Hl H) as [IH1 IH2].
  split; [constructor|]; auto.
Qed.

Lemma apply_recorded clock ms db : Forall (λ m, recorded db (version m)) ms → apply_migrations clock db ms = Some db.
Proof.
  induction 1 as [|m ms Hm _ IH]; [done|]. cbn. unfold apply_migration, recorded in *. rewrite Hm. exact IH.
Qed.

Lemma apply_migrations_app clock ms ms' db :
  apply_migrations clock db (ms ++ ms') = db' ← apply_migrations clock db ms; apply_migrations clock db' ms'.
Proof.
  revert db. induction ms as [|m ms IH]; intros db; [done|]. cbn. destruct (apply_migration clock db m); [|done]. apply IH.
Qed.

Lemma create_ledger_again now db : is_some (table db LEDGER) = true → exec now db create_ledger = Some db.
Proof. intros H. cbn. by rewrite H. Qed.

Lemma create_ledger_table now db db' : exec now db create_ledger = Some db' → is_some (table db' LEDGER) = true.
Proof.
  cbn. destruct (is_some (table db LEDGER)) eqn:Ht; [by intros [= <-]|].
  destruct (name_taken db LEDGER); [done|]. intros [= <-]. unfold table in *. cbn [tables]. rewrite assoc_app.
  by destruct (assoc (tables db) LEDGER).
Qed.

Lemma apply_keeps_ledger clock ms db db' :
  Forall leaves_ledger ms → apply_migrations clock db ms = Some db' →
  is_some (table db LEDGER) = true → is_some (table db' LEDGER) = true.
Proof.
  destruct ms as [|m ms]; [by intros _ [= <-]|]. intros Hl H _.
  destruct (apply_migrations_recorded _ _ _ _ Hl H) as [Hr _]. inversion Hr. by eapply already_table.
Qed.

Lemma migrate_app clock ms ms' db db1 :
  Forall leaves_ledger ms → migrate clock ms db = Some db1 →
  migrate clock (ms ++ ms') db1 = migrate clock (ms ++ ms') db.
Proof.
  unfold migrate. intros Hl H. destruct (exec (clock 0) db create_ledger) as [db0|] eqn:H0; [|done]. cbn in H.
  rewrite create_ledger_again by eauto using apply_keeps_ledger, create_ledger_table. cbn.
  rewrite !apply_migrations_app, H. cbn.
  destruct (apply_migrations_recorded _ _ _ _ Hl H) as [Hr _]. by rewrite apply_recorded.
Qed.

(** ** A run *)

#[local] Arguments migrate : simpl never.

Lemma run_cases env ms conn :
  (∃ e, (run env ms conn).2 = Err e ∧ conn_db (run env ms conn).1 = conn_db conn) ∨
  (∃ db, (run env ms conn).2 = Ok tt ∧ conn_db (run env ms conn).1 = db ∧ migrate (e_clock env) ms (conn_db conn) = Some db).
Proof.
  unfold run, transact. destruct (e_raise env); cbn; [|by eauto]. destruct (e_lock env); cbn; [|by destruct (e_restore env); eauto].
  destruct (migrate _ ms _) as [db|]; [|by destruct (e_restore env); eauto].
  destruct (e_commit env); destruct (e_restore env); cbn; eauto 10.
Qed.

Lemma run_ok env ms conn db :
  e_raise env = true → e_lock env = true → e_commit env = true → migrate (e_clock env) ms (conn_db conn) = Some db →
  (run env ms conn).2 = Ok tt ∧ conn_db (run env ms conn).1 = db.
Proof.
  intros H1 H2 H3 H4. unfold run, transact. rewrite H1, H2. cbn. rewrite H4, H3. by destruct (e_restore env).
Qed.

Lemma run_timeout env ms conn :
  e_readable env = true → e_restore env = true → busy_timeout (run env ms conn).1 = busy_timeout conn.
Proof.
  intros H1 H2. unfold run, transact. rewrite H1, H2. destruct (e_raise env); cbn; [|done].
  destruct (e_lock env); cbn; [|done]. destruct (migrate _ ms _); cbn; [|done]. by destruct (e_commit env).
Qed.

Lemma migrate_again clock clock' ms db db' :
  Forall leaves_ledger ms → migrate clock ms db = Some db' → migrate clock' ms db' = Some db'.
Proof.
  unfold migrate. intros Hl H. destruct (exec (clock 0) db create_ledger) as [db0|] eqn:H0; [|done]. cbn in H.
  rewrite create_ledger_again by eauto using apply_keeps_ledger, create_ledger_table. cbn.
  destruct (apply_migrations_recorded _ _ _ _ Hl H) as [Hr _]. by apply apply_recorded.
Qed.

Lemma migrate_recorded clock ms db db' :
  Forall leaves_ledger ms → migrate clock ms db = Some db' → Forall (λ m, recorded db' (version m)) ms.
Proof.
  unfold migrate. intros Hl H. destruct (exec (clock 0) db create_ledger) as [db0|]; [|done]. cbn in H.
  by eapply apply_migrations_recorded.
Qed.

(** A migration run is all or nothing: an error of any kind leaves the database as it was; success records
    every version, and every later run of the same list that gets the lock succeeds and changes nothing. The
    connection's busy time-out is restored either way. *)
Theorem run_is_atomic env ms conn :
  Forall leaves_ledger ms →
  (∀ e, (run env ms conn).2 = Err e → conn_db (run env ms conn).1 = conn_db conn) ∧
  ((run env ms conn).2 = Ok tt →
     Forall (λ m, recorded (conn_db (run env ms conn).1) (version m)) ms ∧
     ∀ later conn', conn_db conn' = conn_db (run env ms conn).1 →
       e_raise later = true → e_lock later = true → e_commit later = true →
       (run later ms conn').2 = Ok tt ∧ conn_db (run later ms conn').1 = conn_db conn') ∧
  (e_readable env = true → e_restore env = true → busy_timeout (run env ms conn).1 = busy_timeout conn).
Proof.
  intros Hl. split; [|split]; [| |apply run_timeout].
  - intros e He. destruct (run_cases env ms conn) as [(? & _ & ?)|(? & ? & _)]; [done|congruence].
  - intros Hok. destruct (run_cases env ms conn) as [(? & ? & _)|(db & _ & Hdb & Hm)]; [congruence|].
    rewrite Hdb. split; [by eapply migrate_recorded|].
    intros later conn' Hconn H1 H2 H3. rewrite Hconn. apply run_ok; [done..|]. rewrite Hconn. by eapply migrate_again.
Qed.

(** Upgrading in steps gives the database of a fresh install: once a list of migrations has run, running it
    again with further ones appended has the outcome and the database of running them all at once, each version
    being recorded at the same time. *)
Theorem stepwise_upgrade_is_fresh_install env env' ms ms' conn :
  Forall leaves_ledger ms → e_clock env' = e_clock env → (run env ms conn).2 = Ok tt →
  (run env' (ms ++ ms') (run env ms conn).1).2 = (run env' (ms ++ ms') conn).2 ∧
  ((run env' (ms ++ ms') conn).2 = Ok tt →
   conn_db (run env' (ms ++ ms') (run env ms conn).1).1 = conn_db (run env' (ms ++ ms') conn).1).
Proof.
  intros Hl Hc Hok. destruct (run_cases env ms conn) as [(? & ? & _)|(db & _ & Hdb & Hm)]; [congruence|].
  assert (Hm' : migrate (e_clock env') (ms ++ ms') db = migrate (e_clock env') (ms ++ ms') (conn_db conn)).
  { rewrite Hc. by apply migrate_app. }
  destruct ((run env ms conn).1) as [db1 b w f]. cbn in Hdb. subst db1.
  unfold run, transact. destruct (e_raise env'); cbn; [|done]. destruct (e_lock env'); cbn; [|done].
  rewrite Hm'. destruct (migrate _ (ms ++ ms') (conn_db conn)); cbn; [|done]. by destruct (e_commit env'), (e_restore env').
Qed.

(** ** A version 1 database *)

Record ParticipantRowV1 := mkParticipantRowV1 {
  p1_id : string;
  p1_label : option string;
  p1_secret_digest : string;
  p1_may_send : bool;
  p1_may_read : bool;
  p1_operator : bool }.

Record MessageRowV1 := mkMessageRowV1 {
  m1_message_id : string;
  m1_from_participant : string;
  m1_to_kind : string;
  m1_to_participant : option string;
  m1_to_room : option string;
  m1_created_at : Z;
  m1_payload : string }.

Record DbV1 := mkDbV1 {
  v1_participants : list ParticipantRowV1;
  v1_rooms : list RoomRow;
  v1_room_members : list MemberRow;
  v1_messages : list MessageRowV1;
  v1_acks : list AckRow;
  v1_idempotency : list IdempotencyRow }.

(** What the schema promises of the messages of a version 1 database. *)
Definition v1_ok (v : DbV1) : Prop :=
  NoDup (m1_message_id <$> v1_messages v) ∧ Forall (λ m, m1_to_kind m ∈ ["direct"; "room"]) (v1_messages v).

Definition opt_text (o : option string) : SqlValue := match o with Some s => SText s | None => SNull end.
Definition flag (b : bool) : SqlValue := SInteger (if b then 1 else 0).

Definition enc_participant_v1 (p : ParticipantRowV1) : Row :=
  [SText (p1_id p); opt_text (p1_label p); SBlob (p1_secret_digest p); flag (p1_may_send p); flag (p1_may_read p); flag (p1_operator p)].
Definition enc_participant (p : ParticipantRow) : Row :=
  [SText (p_row_id p); opt_text (p_row_label p); SBlob (p_row_secret_digest p); flag (p_row_may_send p);
   flag (p_row_may_read p); flag (p_row_operator p); opt_text (p_row_listener_url p)].
Definition enc_room (r : RoomRow) : Row := [SText (r_row_id r); SInteger (r_row_created_at r)].
Definition enc_member (m : MemberRow) : Row := [SText (m_row_room m); SText (m_row_participant m)].
Definition enc_message_v1 (m : MessageRowV1) : Row :=
  [SText (m1_message_id m); SText (m1_from_participant m); SText (m1_to_kind m); opt_text (m1_to_participant m);
   opt_text (m1_to_room m); SInteger (m1_created_at m); SText (m1_payload m)].
Definition enc_message_row (m : StoredMessageRow) : Row :=
  [SText (row_message_id m); SText (row_from_participant m); SText (row_from_kind m); opt_text (row_from_session m);
   SText (row_to_kind m); opt_text (row_to_participant m); opt_text (row_to_session m); opt_text (row_to_room m);
   SInteger (row_created_at m); SText (row_payload m)].
Definition enc_ack (a : AckRow) : Row := [SText (a_row_message_id a); SText (a_row_reader a); SInteger (a_row_acked_at a)].
Definition enc_idempotency (i : IdempotencyRow) : Row :=
  [SText (i_row_sender i); SText (i_row_key i); SText (i_row_message_id i)].
Definition enc_session_row (s : SessionRow) : Row :=
  [SText (s_row_session_id s); SText (s_row_account s); SText (s_row_card s); SInteger (s_row_last_seen s)].

(** The database of a fresh install of the migrations [ms], with [rows] in its tables. *)
Definition installed (clock : Z → string) (ms : list Migration) (rows : string → list Row) : Database :=
  let db := default Database_empty (migrate clock ms Database_empty) in
  mkDatabase ((λ p, (p.1, if seqb p.1 LEDGER then p.2 else with_rows p.2 (rows p.1))) <$> tables db) (indexes db).

Definition v1_database (clock : Z → string) (v : DbV1) : Database :=
  installed clock (take 1 migrations) (λ name,
    if seqb name "participants" then enc_participant_v1 <$> v1_participants v
    else if seqb name "rooms" then enc_room <$> v1_rooms v
    else if seqb name "room_members" then enc_member <$> v1_room_members v
    else if seqb name "messages" then enc_message_v1 <$> v1_messages v
    else if seqb name "acks" then enc_ack <$> v1_acks v
    else if seqb name "idempotency" then enc_idempotency <$> v1_idempotency v
    else []).

(** The tables of the store (Sqlite.v) as a database of the current schema. *)
Definition current_database (clock : Z → string) (d : Sqlite.Db) : Database :=
  installed clock migrations (λ name,
    if seqb name "participants" then enc_participant <$> t_participants d
    else if seqb name "rooms" then enc_room <$> t_rooms d
    else if seqb name "room_members" then enc_member <$> t_room_members d
    else if seqb name "messages" then enc_message_row <$> t_messages d
    else if seqb name "acks" then enc_ack <$> t_acks d
    else if seqb name "idempotency" then enc_idempotency <$> t_idempotency d
    else if seqb name "sessions" then enc_session_row <$> t_sessions d
    else []).

Definition upgrade_participant (p : ParticipantRowV1) : ParticipantRow :=
  mkParticipantRow (p1_id p) (p1_label p) (p1_secret_digest p) (p1_may_send p) (p1_may_read p) (p1_operator p) None.
Definition upgrade_message (m : MessageRowV1) : StoredMessageRow :=
  mkStoredMessageRow (m1_message_id m) (m1_from_participant m) "direct" None (m1_to_kind m) (m1_to_participant m) None
    (m1_to_room m) (m1_created_at m) (m1_payload m).
Definition upgrade (v : DbV1) : Sqlite.Db :=
  mkDb (upgrade_participant <$> v1_participants v) (v1_rooms v) (v1_room_members v) (upgrade_message <$> v1_messages v)
    (v1_acks v) (v1_idempotency v) [].

(** ** The upgrade *)

Definition messages_v2_columns : list Column :=
  [plain "message_id"; not_null "from_participant"; one_of "from_kind" (DefaultText "direct") ["direct"; "session"];
   plain "from_session"; one_of "to_kind" DefaultNull ["direct"; "session"; "room"];
   plain "to_participant"; plain "to_session"; plain "to_room"; not_null "created_at_unix_ms"; not_null "payload"].

Definition messages_v1_columns : list Column :=
  [plain "message_id"; not_null "from_participant"; one_of "to_kind" DefaultNull ["direct"; "room"];
   plain "to_participant"; plain "to_room"; not_null "created_at_unix_ms"; not_null "payload"].

Lemma message_key m : key_of messages_v2_columns ["message_id"] (enc_message_row m) = Some [SText (row_message_id m)].
Proof. reflexivity. Qed.

Lemma message_key_fresh id l :
  id ∉ row_message_id <$> l →
  existsb (λ other, bool_decide (key_of messages_v2_columns ["message_id"] other = Some [SText id])) (enc_message_row <$> l) = false.
Proof.
  intros Hid. induction l as [|m l IH]; [done|]. rewrite fmap_cons, not_elem_of_cons in Hid. destruct Hid as [Hne Hid].
  rewrite fmap_cons. cbn [existsb]. rewrite (IH Hid), orb_false_r, message_key. apply bool_decide_eq_false. congruence.
Qed.

Lemma v1_columns_ok m :
  m1_to_kind m ∈ ["direct"; "room"] → columns_ok messages_v2_columns (enc_message_row (upgrade_message m)) = true.
Proof.
  destruct m as [id f k p r c t]. cbn [m1_to_kind]. intros Hk.
  assert (k = "direct" ∨ k = "room") as [-> | ->] by set_solver; destruct p, r; reflexivity.
Qed.

Section Upgrade.
Context (clock : Z → string) (v : DbV1).

(** The database after the first three statements of version 2, with [rows] copied. *)
Definition copying (rows : list Row) : Database :=
  let db := default Database_empty (exec_batch (clock 2) (v1_database clock v) (take 3 SCHEMA_V2_SQL)) in
  set_table db "messages_v2" (mkTable messages_v2_columns ["message_id"] [] rows).

Lemma copy_one l m :
  m1_message_id m ∉ row_message_id <$> l → m1_to_kind m ∈ ["direct"; "room"] →
  insert_row (clock 2) (copying (enc_message_row <$> l)) "messages_v2"
    (zip ["message_id"; "from_participant"; "from_kind"; "from_session"; "to_kind"; "to_participant"; "to_session"; "to_room";
          "created_at_unix_ms"; "payload"] (enc_message_row (upgrade_message m))) =
  Some (copying (enc_message_row <$> l ++ [upgrade_message m])).
Proof.
  intros Hid Hk. unfold insert_row.
  change (table (copying (enc_message_row <$> l)) "messages_v2")
    with (Some (mkTable messages_v2_columns ["message_id"] [] (enc_message_row <$> l))).
  cbn [mbind option_bind tb_columns tb_references tb_rows].
  change (make_row _ messages_v2_columns _) with (enc_message_row (upgrade_message m)).
  assert (row_ok (copying (enc_message_row <$> l)) "messages_v2"
            (mkTable messages_v2_columns ["message_id"] [] (enc_message_row <$> l)) (enc_message_row (upgrade_message m)) = true) as ->.
  { unfold row_ok. cbn [tb_columns tb_primary_key tb_rows]. rewrite (v1_columns_ok m Hk). unfold collides.
    rewrite message_key, message_key_fresh by done. reflexivity. }
  rewrite fmap_app. reflexivity.
Qed.

Lemma copy_all l ms :
  NoDup ((row_message_id <$> l) ++ (m1_message_id <$> ms)) → Forall (λ m, m1_to_kind m ∈ ["direct"; "room"]) ms →
  insert_rows (clock 2) (copying (enc_message_row <$> l)) "messages_v2"
    ["message_id"; "from_participant"; "from_kind"; "from_session"; "to_kind"; "to_participant"; "to_session"; "to_room";
     "created_at_unix_ms"; "payload"]
    [EColumn "message_id"; EColumn "from_participant"; ELiteral (SText "direct"); ELiteral SNull; EColumn "to_kind";
     EColumn "to_participant"; ELiteral SNull; EColumn "to_room"; EColumn "created_at_unix_ms"; EColumn "payload"]
    messages_v1_columns (enc_message_v1 <$> ms) =
  Some (copying (enc_message_row <$> l ++ (upgrade_message <$> ms))).
Proof.
  revert l. induction ms as [|m ms IH]; intros l Hnd Hk.
  { by rewrite fmap_nil, app_nil_r. }
  apply Forall_cons in Hk as [Hm Hk]. rewrite !fmap_cons in *. cbn [insert_rows].
  change (mapM _ _) with (Some (enc_message_row (upgrade_message m))). cbn [mbind option_bind].
  apply NoDup_app in Hnd as (Hl & Hd & [Hni Hms]%NoDup_cons).
  rewrite copy_one; [|by intros Hin; apply (Hd _ Hin); left|done]. cbn [mbind option_bind].
  rewrite IH; [by rewrite <- app_assoc| |done].
  rewrite fmap_app, <- app_assoc. apply NoDup_app. split_and!; [done| |by constructor].
  intros x Hx Hin. apply (Hd x Hx). done.
Qed.

Lemma upgrade_to_v2 :
  v1_ok v → exec_batch (clock 2) (v1_database clock v) (take 4 SCHEMA_V2_SQL) =
            Some (copying (enc_message_row <$> (upgrade_message <$> v1_messages v))).
Proof.
  intros [Hnd Hk]. rewrite (exec_batch_app _ (take 3 SCHEMA_V2_SQL) (take 1 (drop 3 SCHEMA_V2_SQL))).
  change (exec_batch _ _ (take 3 _)) with (Some (copying [])). cbn [mbind option_bind].
  transitivity (db ← exec (clock 2) (copying []) (nth 3 SCHEMA_V2_SQL create_ledger); Some db); [reflexivity|].
  pose proof (copy_all [] (v1_messages v) Hnd Hk) as Hc.
  transitivity (db ← Some (copying (enc_message_row <$> (upgrade_message <$> v1_messages v))); Some db); [|done].
  f_equal. exact Hc.
Qed.

Lemma upgrade_v1 : v1_ok v → migrate clock migrations (v1_database clock v) = Some (current_database clock (upgrade v)).
Proof.
  intros Hv. unfold migrate. change (exec _ _ create_ledger) with (Some (v1_database clock v)). cbn [mbind option_bind].
  transitivity (db ← (db ← exec_batch (clock 2) (v1_database clock v) SCHEMA_V2_SQL;
                      insert_row (clock 2) db LEDGER
                        [("version", SInteger 2); ("label", SText "mail4agent_v2_sessions_and_session_addressing")]);
                apply_migrations clock db (drop 2 migrations)); [reflexivity|].
  rewrite (exec_batch_app _ (take 4 SCHEMA_V2_SQL) (drop 4 SCHEMA_V2_SQL)), (upgrade_to_v2 Hv). cbn [mbind option_bind].
  unfold current_database.
  replace (enc_participant <$> t_participants (upgrade v))
    with ((λ row, row ++ [SNull]) <$> (enc_participant_v1 <$> v1_participants v)).
  - reflexivity.
  - cbn [upgrade t_participants]. by rewrite <- !list_fmap_compose.
Qed.

End Upgrade.

(** ** Version 1 mail in the current store *)

Section Mail.
Context `{!StoreJson, !StoreJsonLaws}.

(** The row a version 1 store wrote for a message. *)
Definition v1_row (m : Message) : MessageRowV1 :=
  let '(to_kind, to_participant, _, to_room) := to_address_columns (to m) in
  mkMessageRowV1 (MessageId_str (message_id m)) (default EmptyString (ParticipantId_str <$> account (from m))) to_kind
    to_participant to_room (created_at_unix_ms m) (text_of (payload_to_string (message_payload m))).

(** Version 1 knew accounts and rooms only. *)
Definition v1_message (m : Message) : Prop :=
  match from m, to m with Direct _, (Direct _ | Room _) => True | _, _ => False end.

Lemma upgrade_v1_row m : v1_message m → upgrade_message (v1_row m) = enc_message (message_id m) m.
Proof.
  destruct m as [id [p|p x|r] [q|q y|t] su bo re co rf cr]; cbn; try done.
Qed.

Lemma find_upgraded l m :
  NoDup (m1_message_id <$> l) → v1_row m ∈ l → m1_message_id (v1_row m) = MessageId_str (message_id m) →
  find_row (λ row, seqb (row_message_id row) (MessageId_str (message_id m))) (upgrade_message <$> l) =
  Some (upgrade_message (v1_row m)).
Proof.
  intros Hnd Hin Hid. unfold find_row, seqb. induction l as [|r l IH]; [by apply not_elem_of_nil in Hin|].
  rewrite fmap_cons in *. apply NoDup_cons in Hnd as [Hr Hnd]. cbn [List.find upgrade_message row_message_id].
  apply elem_of_cons in Hin as [<-|Hin].
  - by rewrite bool_decide_true.
  - rewrite bool_decide_false; [by apply IH|]. intros Heq. apply Hr. rewrite Heq, <- Hid. by apply list_elem_of_fmap_2.
Qed.

(** C38: The upgrade keeps a version 1 mailbox: on a version 1 database the runner ends with exactly the tables of
    the current schema holding the same accounts, rooms, members, acknowledgements and idempotency slots, and
    every message written by version 1 reads back as it was through today's store. *)
Theorem v1_mail_survives_upgrade env conn v :
  e_raise env = true → e_lock env = true → e_commit env = true →
  v1_ok v → conn_db conn = v1_database (e_clock env) v →
  (run env migrations conn).2 = Ok tt ∧
  conn_db (run env migrations conn).1 = current_database (e_clock env) (upgrade v) ∧
  ∀ m, Message_validate m = Ok tt → time_ok (created_at_unix_ms m) → v1_message m → v1_row m ∈ v1_messages v →
    sql_get_message (upgrade v) (message_id m) = Ok (Some m).
Proof.
  intros H1 H2 H3 Hv Hc. destruct (run_ok env migrations conn (current_database (e_clock env) (upgrade v))) as [Hok Hdb]; [done..| |].
  - rewrite Hc. by apply upgrade_v1.
  - split; [done|]. split; [done|]. intros m Hm Ht Hv1 Hin. unfold sql_get_message. cbn [t_messages upgrade].
    rewrite find_upgraded; [|by apply Hv|done|].
    + by rewrite (upgrade_v1_row m Hv1), assemble_enc_message.
    + unfold v1_row. by destruct (to_address_columns (to m)) as [[[??]?]?].
Qed.

End Mail.

Lemma migrations_accepted : MigrationRunner_new migrations = Some migrations.
Proof. reflexivity. Qed.

Lemma migrations_leave_ledger : Forall leaves_ledger migrations.
Proof. unfold leaves_ledger. repeat constructor. Qed.

(** ** Witnesses *)

Module MigrationWitnesses.
Export ConcreteJson.

Definition env : Environment := mkEnvironment true true true true true (λ _, "2026-01-01").
Definition no_lock : Environment := mkEnvironment true true false true true (λ _, "2026-01-01").
Definition fresh : Connection := mkConnection Database_empty 5000 false true.

Definition old_message : Message :=
  mkMessage (mkMessageId "m4a_000000000000000000000000") (Direct (mkParticipantId "alice")) (Room (mkRoomId "room-1"))
    "hello" "first" None None [] 10.
Definition old : DbV1 := mkDbV1 [mkParticipantRowV1 "alice" None "0123456789abcdef0123456789abcdef" true true false] [mkRoomRow "room-1" 5]
  [mkMemberRow "room-1" "alice"] [v1_row old_message] [] [].
Definition old_conn : Connection := mkConnection (v1_database (e_clock env) old) 5000 true true.

Lemma run_is_atomic_witness :
  conn_db (run no_lock migrations old_conn).1 = conn_db old_conn ∧
  (run env migrations (run env migrations fresh).1).2 = Ok tt.
Proof.
  split.
  - destruct (run_is_atomic no_lock migrations old_conn migrations_leave_ledger) as [H _]. by apply (H DatabaseBusy).
  - destruct (run_is_atomic env migrations fresh migrations_leave_ledger) as [_ [H _]].
    destruct H as [_ H]; [reflexivity|]. by destruct (H env (run env migrations fresh).1).
Defined.

Lemma stepwise_upgrade_is_fresh_install_witness :
  conn_db (run env (take 1 migrations ++ drop 1 migrations) (run env (take 1 migrations) fresh).1).1 =
  conn_db (run env (take 1 migrations ++ drop 1 migrations) fresh).1.
Proof.
  apply (stepwise_upgrade_is_fresh_install env env (take 1 migrations) (drop 1 migrations) fresh);
    [apply Forall_take, migrations_leave_ledger|reflexivity..].
Defined.

Lemma v1_mail_survives_upgrade_witness :
  (run env migrations old_conn).2 = Ok tt ∧ sql_get_message (upgrade old) (message_id old_message) = Ok (Some old_message).
Proof.
  destruct (v1_mail_survives_upgrade env old_conn old) as (H & _ & Hm); [reflexivity..| |reflexivity|].
  - split; [apply NoDup_singleton|repeat constructor].
  - split; [done|]. apply Hm; [vm_compute; reflexivity|vm_compute; split; discriminate|done|left].
Defined.

End MigrationWitnesses.
