(* ===== verification/Mcp.v ===== *)
(** * The MCP door (src/routes/mcp.rs)

    The same mail operations as JSON-RPC tools. A middleware resolves the caller once per HTTP
    call and hands it to the tools in an internal header; each tool reads it back, reads its
    arguments and runs the operation that its HTTP sibling runs. The JSON-RPC server
    ([mcp_service4agent]) is another crate: it appears as the [next] a request is passed to and
    as the constructors of a tool's outcome. Derived serialisers are the class [McpJson].
    The theorem [two_doors_one_mailbox] says that both doors do the same. *)

From S2P Require Import Prelude Api MailStore Primitives Engine Sqlite SqliteProps Service Daemon Json.
From Stdlib Require Import Ascii.

Local Open Scope Z_scope.

(** ** The resolved caller on its way to the tools *)

Record ResolvedCallerWire := mkResolvedCallerWire {
  rcw_address : string;
  rcw_label : option string;
  rcw_operator : bool }.

(** What a tool answers, by the constructors of the JSON-RPC crate the code uses. *)
Inductive ToolOutcome :=
| ToolOk (v : Value)
| ToolError (text : string)
| InvalidArgument (field text : string).

(** [hex::decode], and the derived serialisers and deserialisers. *)
Class McpJson := {
  hex_decode : string → option string;
  wire_to_vec : ResolvedCallerWire → option string;
  wire_from_slice : string → option ResolvedCallerWire;
  SendRequest_from_value : Value → result SendRequest string;
  InboxRequest_from_value : Value → result InboxRequest string;
  AckRequest_from_value : Value → result AckRequest string;
  MessageGetRequest_from_value : Value → result MessageGetRequest string;
  SessionDeclared_from_value : Value → result SessionDeclared string;
  SendResponse_to_value : SendResponse → option Value;
  InboxPage_to_value : InboxPage → option Value;
  Ack_to_value : Ack → option Value;
  Message_to_value : Message → option Value;
  WhoAmIResponse_to_value : WhoAmIResponse → option Value;
  SessionCard_to_value : SessionCard → option Value;
  Directory_to_value : Directory → option Value;
  MailError_to_json : MailError → option string;
  MailError_to_string : MailError → string
}.

(** [hex] and [serde_json] read back what they wrote. *)
Class McpJsonLaws `{Primitives} `{McpJson} : Prop := {
  hex_roundtrip s : hex_decode (hex_encode s) = Some s;
  wire_roundtrip w : ∃ s, wire_to_vec w = Some s ∧ wire_from_slice s = Some w
}.

(** The request's headers: those of the other routes, and [x-mail4agent-mcp-caller]. *)
Record McpHeaders := mkMcpHeaders { mh_headers : HeaderMap; mh_caller : option string }.

(** [HeaderValue::to_str]: visible ASCII only. *)
Definition header_to_str (value : string) : option string :=
  if all_bytes (λ a, (32 <=? bval a) && (bval a <? 127) || (bval a =? 9)) value then Some value else None.

(** The derived serialisation of an address, tagged with its kind; members in key order. *)
Definition Address_to_value (a : Address) : Value :=
  match a with
  | Direct participant => VObject [("kind", VString "direct"); ("participant", VString (ParticipantId_str participant))]
  | Session participant session =>
      VObject [("kind", VString "session"); ("participant", VString (ParticipantId_str participant));
               ("session", VString (SessionId_str session))]
  | Room room => VObject [("kind", VString "room"); ("room", VString (RoomId_str room))]
  end.

Section Mcp.
Context {S : Type} `{MailStore S} `{Primitives} `{Attestation} `{McpJson}.

Definition encode_resolved_caller (participant : AuthenticatedParticipant) (caller : Address) : string :=
  let wire := mkResolvedCallerWire (Address_display caller) (ap_label participant) (ap_operator participant) in
  let bytes := default EmptyString (wire_to_vec wire) in
  hex_encode bytes.

Definition resolved_caller_from_headers (headers : McpHeaders) : result (AuthenticatedParticipant * Address) ToolOutcome :=
  let? raw := ok_or (mh_caller headers ≫= header_to_str)
                (ToolError "internal: caller was not resolved before this tool ran") in
  let? bytes := ok_or (hex_decode raw) (ToolError "internal: malformed resolved-caller header") in
  let? wire := ok_or (wire_from_slice bytes) (ToolError "internal: malformed resolved-caller payload") in
  let? address := map_err (λ _, ToolError "internal: malformed resolved-caller address") (Address_from_str (rcw_address wire)) in
  let? id := ok_or (account address) (ToolError "internal: resolved caller address names no account") in
  Ok (mkAuthenticatedParticipant id (rcw_label wire) (rcw_operator wire), address).

(** The answer is that of [next], or a refusal. *)
Definition resolve_caller_middleware {R} (bind_addr : SocketAddr) (s : S) (is_delete : bool) (headers : McpHeaders)
    (peer : option SocketAddr) (now : Z) (next : S → McpHeaders → S * R) : S * (R + ApiError) :=
  if is_delete then let '(s, r) := next s headers in (s, inl r)
  else
    match resolve_caller bind_addr s (mh_headers headers) peer now with
    | (s, Err err) => (s, inr err)
    | (s, Ok (participant, caller)) =>
        let encoded := encode_resolved_caller participant caller in
        let '(s, r) := next s (mkMcpHeaders (mh_headers headers) (Some encoded)) in
        (s, inl r)
    end.

(** ** Tools *)

Definition tool_result {T} (to_value : T → option Value) (outcome : result T MailError) : ToolOutcome :=
  match outcome with
  | Ok value =>
      match to_value value with
      | Some v => ToolOk v
      | None => ToolError "failed to serialize tool result"
      end
  | Err err => ToolError (default (MailError_to_string err) (MailError_to_json err))
  end.

Definition normalize_address_argument (args : Value) (field : string) : result Value ToolOutcome :=
  match args with
  | VObject object =>
      match map_get object field with
      | Some (VString raw) =>
          let? address := map_err (λ err, InvalidArgument field (MailError_to_string err)) (Address_from_str raw) in
          Ok (VObject (map_insert field (Address_to_value address) object))
      | _ => Ok args
      end
  | _ => Ok args
  end.

Definition invalid_arguments {T} (r : result T string) : result T ToolOutcome := map_err (InvalidArgument "arguments") r.

(** An early [return out] of a tool. *)
Local Notation "'return?' x ':=' e 'on' s 'in' k" :=
  (match e with Ok x => k | Err out => (s, out) end)
  (at level 10, x pattern, e at level 100, s at level 100, k at level 200).

Definition Handler : Type := S → McpHeaders → Value → S * ToolOutcome.

Definition tool_send (nonce : string) (now : Z) : Handler := λ s headers args,
  return? (_, caller) := resolved_caller_from_headers headers on s in
  return? args := normalize_address_argument args "to" on s in
  return? request := invalid_arguments (SendRequest_from_value args) on s in
  let '(s, r) := send_impl nonce s caller request now in
  (s, tool_result SendResponse_to_value r).

Definition tool_inbox (waiting : Waiting) : Handler := λ s headers args,
  return? (_, caller) := resolved_caller_from_headers headers on s in
  return? request := invalid_arguments (InboxRequest_from_value args) on s in
  let '(s, r) := inbox_impl s caller request waiting in
  (s, tool_result InboxPage_to_value r).

Definition tool_ack (now : Z) : Handler := λ s headers args,
  return? (_, caller) := resolved_caller_from_headers headers on s in
  return? request := invalid_arguments (AckRequest_from_value args) on s in
  let '(s, r) := ack_impl s caller request now in
  (s, tool_result Ack_to_value r).

Definition tool_get : Handler := λ s headers args,
  return? (_, caller) := resolved_caller_from_headers headers on s in
  return? request := invalid_arguments (MessageGetRequest_from_value args) on s in
  (s, tool_result Message_to_value (get_impl s caller request)).

Definition tool_whoami : Handler := λ s headers _,
  return? (participant, caller) := resolved_caller_from_headers headers on s in
  (s, tool_result WhoAmIResponse_to_value (whoami_impl s participant caller)).

Definition tool_status : Handler := λ s headers args,
  return? (_, caller) := resolved_caller_from_headers headers on s in
  return? request := invalid_arguments (SessionDeclared_from_value args) on s in
  let '(s, r) := status_impl s caller request in
  (s, tool_result SessionCard_to_value r).

Definition tool_peers (is_alive : LivenessCheck) : Handler := λ s headers _,
  return? (_, caller) := resolved_caller_from_headers headers on s in
  (s, tool_result Directory_to_value (directory_impl is_alive s caller)).

(** The tools by name, in the order they are listed. *)
Definition build (nonce : string) (is_alive : LivenessCheck) (waiting : Waiting) (now : Z) : list (string * Handler) :=
  [("m4a_mail_send", tool_send nonce now); ("m4a_mail_inbox", tool_inbox waiting); ("m4a_mail_ack", tool_ack now);
   ("m4a_mail_get", tool_get); ("m4a_mail_whoami", tool_whoami); ("m4a_mail_status", tool_status);
   ("m4a_mail_peers", tool_peers is_alive)].

(** A POST of one tool call through the middleware. *)
Definition mcp_post (bind_addr : SocketAddr) (s : S) (headers : McpHeaders) (peer : option SocketAddr) (now : Z)
    (tool : Handler) (args : Value) : S * (ToolOutcome + ApiError) :=
  resolve_caller_middleware bind_addr s false headers peer now (λ s headers, tool s headers args).

(** ** The header round trip *)

Context `{!PrimitivesLaws, !McpJsonLaws}.

Lemma hex_is_visible s : header_to_str (hex_encode s) = Some (hex_encode s).
Proof.
  unfold header_to_str. pose proof (hex_encode_lower s) as Hl. unfold all_bytes in *.
  rewrite forallb_forall in Hl. rewrite (proj2 (forallb_forall _ _)); [done|]. intros a Ha%Hl.
  unfold is_lower_hex, is_ascii_digit in *. boolify; lia.
Qed.

Lemma resolved_caller_roundtrip p a headers :
  Address_validate a = Ok tt → account a = Some (ap_id p) →
  resolved_caller_from_headers (mkMcpHeaders headers (Some (encode_resolved_caller p a))) = Ok (p, a).
Proof.
  intros Ha Hp. unfold resolved_caller_from_headers, encode_resolved_caller. cbn [mh_caller].
  destruct (wire_roundtrip (mkResolvedCallerWire (Address_display a) (ap_label p) (ap_operator p))) as (bytes & -> & Hw).
  cbn [default from_option id mbind option_bind]. rewrite hex_is_visible. cbn [ok_or]. rewrite hex_roundtrip. cbn [ok_or]. rewrite Hw.
  cbn [ok_or rcw_address rcw_label rcw_operator]. rewrite Address_from_display by done. cbn [map_err]. rewrite Hp. cbn [ok_or].
  by destruct p.
Qed.

(** The address a caller is resolved to is a valid one, of the account that was authenticated. *)
Lemma resolve_caller_valid bind_addr s headers peer now s' p a :
  (∀ token p, service_authenticate s token = Ok p → ParticipantId_validate (ap_id p) = Ok tt) →
  resolve_caller bind_addr s headers peer now = (s', Ok (p, a)) →
  Address_validate a = Ok tt ∧ account a = Some (ap_id p).
Proof.
  intros Hid. unfold resolve_caller, authenticate_caller, resolve_session, ensure_session_from_peer_process.
  destruct (extract_bearer headers) as [token|]; cbn [ok_or]; [|done].
  destruct (service_authenticate s token) as [ap|] eqn:Hau; cbn [map_err]; [|done].
  destruct peer as [pa|]; cbn [ok_or]; [|done]. destruct (attest pa bind_addr) as [pp|]; cbn [map_err]; [|done].
  set (id := derive_session_id _ _). unfold ensure_session. destruct (SessionCard_validate _); [|done].
  destruct (SessionId_validate id) as [[]|] eqn:Hs; [|done]. intros Hr.
  destruct (_ : S * result SessionId MailError) as [s1 [x|e]] in Hr; cbn [map_err] in Hr; [|done]. simplify_eq.
  cbn [Address_validate account]. by rewrite (Hid _ _ Hau), Hs.
Qed.

(** The HTTP handler and the tool: both refuse the caller alike, or run the operation once with one outcome. *)
Definition same_answer {T U} (wrap : T → U) (to_value : T → option Value) (http : S * result U ApiError)
    (mcp : S * (ToolOutcome + ApiError)) : Prop :=
  http.1 = mcp.1 ∧
  ((∃ err, http.2 = Err err ∧ mcp.2 = inr err) ∨
   ∃ r : result T MailError, http.2 = map_err ApiMail (result_map wrap r) ∧ mcp.2 = inl (tool_result to_value r)).

Lemma same_answer_of {T U} (wrap : T → U) to_value bind_addr s headers peer now f (tool : Handler) args :
  (∀ token p, service_authenticate s token = Ok p → ParticipantId_validate (ap_id p) = Ok tt) →
  (∀ s headers p a, resolved_caller_from_headers headers = Ok (p, a) →
     tool s headers args = let '(s, r) := f s p a in (s, tool_result to_value r)) →
  same_answer wrap to_value
    (let '(s, r) := as_caller bind_addr s (mh_headers headers) peer now f in (s, result_map wrap r))
    (mcp_post bind_addr s headers peer now tool args).
Proof.
  intros Hid Htool. unfold mcp_post, resolve_caller_middleware, as_caller.
  destruct (resolve_caller bind_addr s (mh_headers headers) peer now) as [s1 [[p a]|err]] eqn:Hr.
  - destruct (resolve_caller_valid _ _ _ _ _ _ _ _ Hid Hr) as [Ha Hp].
    rewrite (Htool _ _ p a) by by apply resolved_caller_roundtrip.
    destruct (f s1 p a) as [s2 r]. split; [done|]. right. exists r. by destruct r.
  - split; [done|]. left. by exists err.
Qed.

Lemma same_answer_plain {T} (to_value : T → option Value) bind_addr s headers peer now f (tool : Handler) args :
  (∀ token p, service_authenticate s token = Ok p → ParticipantId_validate (ap_id p) = Ok tt) →
  (∀ s headers p a, resolved_caller_from_headers headers = Ok (p, a) →
     tool s headers args = let '(s, r) := f s p a in (s, tool_result to_value r)) →
  same_answer id to_value (as_caller bind_addr s (mh_headers headers) peer now f) (mcp_post bind_addr s headers peer now tool args).
Proof.
  intros Hid Htool. pose proof (same_answer_of id to_value bind_addr s headers peer now f tool args Hid Htool) as Hs.
  destruct (as_caller _ _ _ _ _ f) as [s1 r]. by destruct r.
Qed.

End Mcp.

(** ** Both doors onto the daemon's store *)

Section TwoDoors.
Context `{!Primitives, !PrimitivesLaws, !Attestation, !McpJson, !McpJsonLaws, !StoreJson}.

(** An account read from SQLite has a valid id: the store checks it when it reads the row. *)
Lemma sqlite_ids_valid (s : Sqlite.Db) token p :
  service_authenticate s token = Ok p → ParticipantId_validate (ap_id p) = Ok tt.
Proof.
  unfold service_authenticate, authenticate. cbn [find_participant_by_digest Db_MailStore].
  unfold sql_find_participant_by_digest. destruct (find_row _ _) as [row|]; [|done].
  destruct (ParticipantId_new (p_row_id row)) as [id|] eqn:Hid; [|done]. cbn [map_err].
  apply ParticipantId_new_ok in Hid as [_ Hid]. destruct (decide _); [|done].
  destruct (map_err _ (get_participant s id)) as [[r|]|]; cbn; [|done|done]. by intros [= <-].
Qed.

(** A compact address means what the tagged object means. *)
Lemma compact_address_is_tagged a object :
  Address_validate a = Ok tt → map_get object "to" = Some (VString (Address_display a)) →
  normalize_address_argument (VObject object) "to" = Ok (VObject (map_insert "to" (Address_to_value a) object)).
Proof. intros Ha Ho. unfold normalize_address_argument. by rewrite Ho, Address_from_display. Qed.

(** C39: The MCP tools and the HTTP routes are one mailbox: with the same connection, credential and request, and
    whatever the client put into the internal caller header, either both refuse the caller with the same error, or
    both run the same operation as the same attested session, leave the same state and answer the same outcome; an
    inbox that waits included, when the same happens around it. *)
Theorem two_doors_one_mailbox bind_addr nonce is_alive (s : Sqlite.Db) headers peer args now1 now2 waiting :
  let post := mcp_post bind_addr s headers peer now1 in
  let http := mh_headers headers in
  (∀ args' request, normalize_address_argument args "to" = Ok args' → SendRequest_from_value args' = Ok request →
     same_answer id SendResponse_to_value (route_send bind_addr nonce s http peer request now1 now2) (post (tool_send nonce now2) args)) ∧
  (∀ request, InboxRequest_from_value args = Ok request →
     same_answer id InboxPage_to_value (route_inbox bind_addr s http peer request now1 waiting) (post (tool_inbox waiting) args)) ∧
  (∀ request, AckRequest_from_value args = Ok request →
     same_answer mkAckResponse Ack_to_value (route_ack bind_addr s http peer request now1 now2) (post (tool_ack now2) args)) ∧
  (∀ request, MessageGetRequest_from_value args = Ok request →
     same_answer id Message_to_value (route_get bind_addr s http peer request now1) (post tool_get args)) ∧
  same_answer id WhoAmIResponse_to_value (route_whoami bind_addr s http peer now1) (post tool_whoami args) ∧
  (∀ request, SessionDeclared_from_value args = Ok request →
     same_answer id SessionCard_to_value (route_status bind_addr s http peer request now1) (post tool_status args)) ∧
  same_answer id Directory_to_value (route_directory bind_addr is_alive s http peer now1) (post (tool_peers is_alive) args).
Proof.
  intros post http. split_and!.
  - intros args' request Hn Hr. apply same_answer_plain; [apply sqlite_ids_valid|]. intros s1 h p a Hh. unfold tool_send.
    rewrite Hh, Hn. cbn. by rewrite Hr.
  - intros request Hr. apply same_answer_plain; [apply sqlite_ids_valid|]. intros s1 h p a Hh. unfold tool_inbox. by rewrite Hh, Hr.
  - intros request Hr. apply same_answer_of; [apply sqlite_ids_valid|]. intros s1 h p a Hh. unfold tool_ack. by rewrite Hh, Hr.
  - intros request Hr. apply same_answer_plain; [apply sqlite_ids_valid|]. intros s1 h p a Hh. unfold tool_get. by rewrite Hh, Hr.
  - apply same_answer_plain; [apply sqlite_ids_valid|]. intros s1 h p a Hh. unfold tool_whoami. by rewrite Hh.
  - intros request Hr. apply same_answer_plain; [apply sqlite_ids_valid|]. intros s1 h p a Hh. unfold tool_status. by rewrite Hh, Hr.
  - apply same_answer_plain; [apply sqlite_ids_valid|]. intros s1 h p a Hh. unfold tool_peers. by rewrite Hh.
Qed.

End TwoDoors.

(** ** Witness *)

Module McpWitnesses.
Import EngineInv.Scenario SqliteWitnesses ConcretePrimitives.
Export ConcreteJson.

Definition nibble (a : ascii) : N := let n := N_of_ascii a in if (n <? 58)%N then n - 48 else n - 87.

Fixpoint unhex (s : string) : option string :=
  match s with
  | EmptyString => Some EmptyString
  | String a (String b s) => String (ascii_of_N (nibble a * 16 + nibble b)) <$> unhex s
  | _ => None
  end.

Lemma unhex_byte :
  forallb (λ n, let a := ascii_of_nat n in
     Ascii.eqb (ascii_of_N (nibble (Concrete.hex_digit (N_of_ascii a / 16)) * 16 + nibble (Concrete.hex_digit (N_of_ascii a mod 16)))) a)
    (seq 0 256) = true.
Proof. vm_compute. reflexivity. Qed.

Lemma unhex_encode s : unhex (Concrete.encode s) = Some s.
Proof.
  induction s as [|a s IH]; [done|]. cbn [Concrete.encode unhex]. rewrite IH. cbn [fmap option_fmap option_map].
  do 2 f_equal. pose proof unhex_byte as Hall. rewrite forallb_forall in Hall. specialize (Hall (nat_of_ascii a)).
  cbn zeta in Hall. rewrite ascii_nat_embedding in Hall. apply Ascii.eqb_eq, Hall, in_seq.
  pose proof (nat_ascii_bounded a). lia.
Qed.

#[local] Instance wire_eq_dec : EqDecision ResolvedCallerWire.
Proof. solve_decision. Defined.
#[local] Instance wire_countable : Countable ResolvedCallerWire.
Proof.
  refine (inj_countable' (λ w, (rcw_address w, rcw_label w, rcw_operator w)) (λ '(a, l, o), mkResolvedCallerWire a l o) _).
  by intros [].
Defined.

Definition no_request {T} (_ : Value) : result T string := Err "unreadable".

#[local] Instance plain_json : McpJson := {|
  hex_decode := unhex;
  wire_to_vec w := Some (digits (encode w));
  wire_from_slice s := decode (number s);
  SendRequest_from_value := no_request;
  InboxRequest_from_value v :=
    match get v "wait_secs" with
    | Some (VNumber (PosInt secs)) => Ok (mkInboxRequest None 10 (Some secs))
    | _ => Err "wait_secs"
    end;
  AckRequest_from_value := no_request;
  MessageGetRequest_from_value v :=
    match get v "message_id" with
    | Some (VString id) => match MessageId_new id with Ok id => Ok (mkMessageGetRequest id) | Err _ => Err "message_id" end
    | _ => Err "message_id"
    end;
  SessionDeclared_from_value := no_request;
  SendResponse_to_value _ := None;
  InboxPage_to_value _ := None;
  Ack_to_value _ := None;
  Message_to_value m := Some (VObject [("body", VString (body m))]);
  WhoAmIResponse_to_value r := Some (VObject [("address", Address_to_value (wa_address r))]);
  SessionCard_to_value _ := None;
  Directory_to_value _ := None;
  MailError_to_json _ := None;
  MailError_to_string _ := "refused"
|}.

#[local] Instance plain_json_laws : McpJsonLaws.
Proof.
  split; [apply unhex_encode|]. intros w. eexists. split; [reflexivity|]. cbn. by rewrite number_digits, decode_encode.
Qed.

#[local] Instance one_process : Attestation := {|
  SocketAddr := nat;
  AttestError := unit;
  attest peer _ := if Nat.eqb peer 1 then Ok (mkPeerProcess 7 1000 None None None) else Err tt
|}.

Definition here : SocketAddr := 0%nat.
Definition there : SocketAddr := 1%nat.

(** A client that presents alice's secret and pretends to be bob in the internal header. *)
Definition spoofing : McpHeaders :=
  mkMcpHeaders (mkHeaderMap (Some ("Bearer " +:+ generate_secret "r1")))
    (Some (encode_resolved_caller (mkAuthenticatedParticipant bob None true) (Direct bob))).

Definition whoami : Sqlite.Db * (ToolOutcome + ApiError) := mcp_post (S:=Sqlite.Db) here d1 spoofing (Some there) 20 tool_whoami VNull.

Lemma whoami_is_alice :
  whoami.2 = inl (ToolOk (VObject [("address", Address_to_value (Session alice (derive_session_id 7 1000)))])).
Proof. vm_compute. reflexivity. Qed.

(** A wait of five seconds that is woken once for nothing. *)
Definition inbox_args : Value := VObject [("wait_secs", VNumber (PosInt 5))].
Definition woken_once : Waiting (S := Sqlite.Db) := mkWaiting 20 20 [(λ d, d, 1020)] (λ d, d).

Definition get_args : Value := VObject [("message_id", VString "m4a_000000000000000000000000")].

Lemma two_doors_one_mailbox_witness :
  same_answer id WhoAmIResponse_to_value (route_whoami (S:=Sqlite.Db) here d1 (mh_headers spoofing) (Some there) 20) whoami ∧
  same_answer id Message_to_value
    (route_get (S:=Sqlite.Db) here d1 (mh_headers spoofing) (Some there) (mkMessageGetRequest (mkMessageId "m4a_000000000000000000000000")) 20)
    (mcp_post (S:=Sqlite.Db) here d1 spoofing (Some there) 20 tool_get get_args) ∧
  same_answer id InboxPage_to_value
    (route_inbox (S:=Sqlite.Db) here d1 (mh_headers spoofing) (Some there) (mkInboxRequest None 10 (Some 5)) 20 woken_once)
    (mcp_post (S:=Sqlite.Db) here d1 spoofing (Some there) 20 (tool_inbox woken_once) inbox_args).
Proof.
  destruct (two_doors_one_mailbox here "n" (λ _ _, true) d1 spoofing (Some there) VNull 20 21 woken_once) as (_ & _ & _ & _ & Hw & _).
  split; [exact Hw|].
  destruct (two_doors_one_mailbox here "n" (λ _ _, true) d1 spoofing (Some there) get_args 20 21 woken_once) as (_ & _ & _ & Hg & _).
  split; [apply Hg; vm_compute; reflexivity|].
  destruct (two_doors_one_mailbox here "n" (λ _ _, true) d1 spoofing (Some there) inbox_args 20 21 woken_once) as (_ & Hi & _).
  apply Hi. vm_compute. reflexivity.
Defined.

End McpWitnesses.
