(* ===== verification/MegolmRatchet.v ===== *)
(** * The Megolm ratchet (crates/mail4agent-vodozemac/src/megolm/ratchet.rs)

    The 128 bytes of the ratchet are kept as the four parts [as_parts] splits them into. The
    counter is a [u32]: [+] and [-] wrap, as in a release build; [subtraction_does_not_wrap] says
    that where the code calls [advance_to] the subtraction stays in range. HMAC-SHA-256 is the
    class [HmacSha256]. The theorem [advance_to_is_iterated_advance] says that the four hash
    chains of [advance_to] compute the same ratchet as advancing one step at a time. *)

From Stdlib Require Import Ascii.
From S2P Require Import Prelude.

Local Open Scope Z_scope.

Class HmacSha256 := { hmac_sha256 : string → string → string }.

Class HmacSha256Laws `{HmacSha256} : Prop := {
  hmac_sha256_len key message : slen (hmac_sha256 key message) = 32
}.

Record RatchetParts := mkParts { r_0 : string; r_1 : string; r_2 : string; r_3 : string }.

#[export] Instance RatchetParts_eq_dec : EqDecision RatchetParts.
Proof. solve_decision. Defined.

Record Ratchet := mkRatchet { inner : RatchetParts; counter : Z }.

#[export] Instance Ratchet_eq_dec : EqDecision Ratchet.
Proof. solve_decision. Defined.

Definition RATCHET_LENGTH : nat := 128.
Definition RATCHET_PART_COUNT : nat := 4.
Definition LAST_RATCHET_INDEX : nat := 3.

(** [b"\x00" .. b"\x03"] *)
Definition ADVANCEMENT_SEEDS (i : nat) : string := String (ascii_of_nat i) EmptyString.

Definition as_bytes (r : Ratchet) : string := r_0 (inner r) +:+ r_1 (inner r) +:+ r_2 (inner r) +:+ r_3 (inner r).

Definition ratchet_index (r : Ratchet) : Z := counter r.

(** The split of [as_parts]. *)
Definition parts_of (bytes : string) : RatchetParts :=
  let top := s_take 64 bytes in
  let bottom := s_drop 64 bytes in
  mkParts (s_take 32 top) (s_drop 32 top) (s_take 32 bottom) (s_drop 32 bottom).

Definition ratchet_from_bytes (bytes : string) (counter : Z) : Ratchet := mkRatchet (parts_of bytes) counter.

(** [RatchetBytes::from_bytes] *)
Definition ratchet_bytes_from_bytes (bytes : string) : result RatchetParts Z :=
  if slen bytes =? Z.of_nat RATCHET_LENGTH then Ok (parts_of bytes) else Err (slen bytes).

(** [ConstantTimeEq for Ratchet] *)
Definition ct_eq (a b : Ratchet) : bool :=
  if negb (counter a =? counter b) then false else bool_decide (as_bytes a = as_bytes b).

(** An index beyond the last part is unreachable. *)
Definition part (p : RatchetParts) (i : nat) : string :=
  match i with 0%nat => r_0 p | 1%nat => r_1 p | 2%nat => r_2 p | _ => r_3 p end.

Definition set_part (p : RatchetParts) (i : nat) (x : string) : RatchetParts :=
  match i with
  | 0%nat => mkParts x (r_1 p) (r_2 p) (r_3 p)
  | 1%nat => mkParts (r_0 p) x (r_2 p) (r_3 p)
  | 2%nat => mkParts (r_0 p) (r_1 p) x (r_3 p)
  | _ => mkParts (r_0 p) (r_1 p) (r_2 p) x
  end.

(** The loop that looks for the slowest part to advance; [0] when it never breaks. *)
Fixpoint slowest_part (rounds i : nat) (mask counter : Z) : nat :=
  match rounds with
  | 0%nat => 0%nat
  | S rounds => if Z.land counter mask =? 0 then i else slowest_part rounds (S i) (Z.shiftr mask 8) counter
  end.

Lemma pow2_mod_weaken a b c : 0 ≤ b ≤ a → c mod 2 ^ a = 0 → c mod 2 ^ b = 0.
Proof.
  intros Hab Hc. apply Z.mod_divide in Hc; [|lia]. apply Z.mod_divide; [lia|].
  etrans; [|exact Hc]. exists (2 ^ (a - b)). rewrite <- Z.pow_add_r by lia. f_equal. lia.
Qed.

Section Ratchet.
Context `{HmacSha256}.

(** [RatchetPart::hash] *)
Definition hash (p : string) (seed : string) : string := hmac_sha256 p seed.

(** [RatchetParts::update] *)
Definition update (p : RatchetParts) (from to : nat) : RatchetParts :=
  set_part p to (hash (part p from) (ADVANCEMENT_SEEDS to)).

(** [for i in (h..=LAST).rev() { update(h, i) }] *)
Definition update_down (p : RatchetParts) (h : nat) : RatchetParts :=
  foldl (λ p i, update p h i) p (rev (seq h (S LAST_RATCHET_INDEX - h))).

Definition advance (r : Ratchet) : Ratchet :=
  let counter := (counter r + 1) mod u32_mod in
  let h := slowest_part RATCHET_LENGTH 0 0xFFFFFF counter in
  mkRatchet (update_down (inner r) h) counter.

(** One round of [advance_to], for part [j]. *)
Definition advance_part (target : Z) (r : Ratchet) (j : nat) : Ratchet :=
  let shift := Z.of_nat (LAST_RATCHET_INDEX - j) * 8 in
  let mask := Z.shiftl 0xFFFFFFFF shift mod u32_mod in
  let steps := Z.land ((Z.shiftr target shift - Z.shiftr (counter r) shift) mod u32_mod) 0xff in
  let bump steps :=
    let p := Nat.iter (Z.to_nat (steps - 1)) (λ p, update p j j) (inner r) in
    mkRatchet (update_down p j) (Z.land target mask) in
  if steps =? 0 then if target <? counter r then bump 0x100 else r else bump steps.

Definition ratchet_advance_to (r : Ratchet) (target : Z) : Ratchet :=
  foldl (advance_part target) r (seq 0 RATCHET_PART_COUNT).

(** ** One step *)

(** The part a step to [c] starts from. *)
Definition level (c : Z) : nat :=
  if c mod 2 ^ 24 =? 0 then 0%nat else if c mod 2 ^ 16 =? 0 then 1%nat else if c mod 2 ^ 8 =? 0 then 2%nat else 3%nat.

Lemma slowest_part_level c : slowest_part RATCHET_LENGTH 0 0xFFFFFF c = level c.
Proof.
  unfold RATCHET_LENGTH, level. cbn [slowest_part].
  change 0xFFFFFF with (Z.ones 24). rewrite Z.land_ones by lia.
  change (Z.shiftr (Z.ones 24) 8) with (Z.ones 16). rewrite Z.land_ones by lia.
  change (Z.shiftr (Z.ones 16) 8) with (Z.ones 8). rewrite Z.land_ones by lia.
  change (Z.shiftr (Z.ones 8) 8) with 0. by rewrite Z.land_0_r.
Qed.

Lemma advance_spec r :
  advance r = mkRatchet (update_down (inner r) (level ((counter r + 1) mod u32_mod))) ((counter r + 1) mod u32_mod).
Proof. unfold advance. by rewrite slowest_part_level. Qed.

(** The parts up to [j] are the same. *)
Definition agree (j : nat) (p q : RatchetParts) : Prop := ∀ i, (i ≤ j)%nat → (i ≤ 3)%nat → part p i = part q i.

Lemma update_down_agree j p q : (j ≤ 3)%nat → agree j p q → update_down p j = update_down q j.
Proof.
  intros Hj Ha. pose proof (Ha 0%nat) as H0. pose proof (Ha 1%nat) as H1. pose proof (Ha 2%nat) as H2. pose proof (Ha 3%nat) as H3.
  destruct p as [a b c d], q as [a' b' c' d']. cbn [part r_0 r_1 r_2 r_3] in *.
  assert (j = 0 ∨ j = 1 ∨ j = 2 ∨ j = 3)%nat as [-> | [-> | [-> | ->]]] by lia; cbn;
    rewrite ?H0, ?H1, ?H2, ?H3 by lia; done.
Qed.

Lemma update_down_below h j p : (h ≤ 3)%nat → (j < h)%nat → agree j (update_down p h) p.
Proof.
  intros Hh Hj i Hi _. destruct p as [a b c d].
  assert (h = 1 ∨ h = 2 ∨ h = 3)%nat as [-> | [-> | ->]] by lia;
    destruct i as [|[|[|[|]]]]; try lia; done.
Qed.

Lemma level_le c : (level c ≤ 3)%nat.
Proof. unfold level. repeat case_match; lia. Qed.

(** A step that does not reach a multiple of [2 ^ (8 * (3 - j))] leaves the parts up to [j] alone. *)
Lemma level_quiet j c : (j ≤ 2)%nat → c mod 2 ^ (8 * Z.of_nat (3 - j)) ≠ 0 → (j < level c)%nat.
Proof.
  intros Hj Hc. unfold level.
  assert (j = 0 ∨ j = 1 ∨ j = 2)%nat as [-> | [-> | ->]] by lia; cbn [Nat.sub Z.of_nat Pos.of_succ_nat] in Hc;
    change (2 ^ (8 * 3)) with (2 ^ 24) in *; change (2 ^ (8 * 2)) with (2 ^ 16) in *; change (2 ^ (8 * 1)) with (2 ^ 8) in *;
    repeat case_match; boolify; try lia; exfalso; apply Hc; (eapply pow2_mod_weaken; [|eassumption]; lia).
Qed.

(** ** Many steps *)

Definition is_u32 (n : Z) : Prop := 0 ≤ n < u32_mod.

(** The distance between two steps that touch part [j]. *)
Definition block (j : nat) : Z := 2 ^ (8 * Z.of_nat (3 - j)).

Lemma iter_counter n r : is_u32 (counter r) → counter (Nat.iter n advance r) = (counter r + Z.of_nat n) mod u32_mod.
Proof.
  intros Hc. induction n as [|n IH]; cbn [Nat.iter nat_rect].
  - rewrite Z.mod_small; [lia|]. rewrite Z.add_0_r. exact Hc.
  - rewrite advance_spec. cbn [counter]. change (nat_rect _ r (λ _, advance) n) with (Nat.iter n advance r).
    rewrite IH, Zplus_mod_idemp_l. f_equal. lia.
Qed.

Lemma block_divides j : (block j | u32_mod).
Proof.
  unfold block. change u32_mod with (2 ^ 32). exists (2 ^ (32 - 8 * Z.of_nat (3 - j))).
  rewrite <- Z.pow_add_r by lia. f_equal. lia.
Qed.

Lemma block_pos j : 0 < block j.
Proof. unfold block. lia. Qed.

Lemma mod_u32_block j n : (n mod u32_mod) mod block j = n mod block j.
Proof. apply Z.mod_mod_divide, block_divides. Qed.

(** Steps that reach no multiple of the block leave the parts up to [j] alone. *)
Lemma quiet_steps j n r :
  (j ≤ 3)%nat → is_u32 (counter r) → (∀ k, 0 < k ≤ Z.of_nat n → (counter r + k) mod block j ≠ 0) →
  agree j (inner (Nat.iter n advance r)) (inner r).
Proof.
  intros Hj Hc. induction n as [|n IH]; intros Hq; [by intros ???|].
  cbn [Nat.iter nat_rect]. change (nat_rect _ r (λ _, advance) n) with (Nat.iter n advance r).
  rewrite advance_spec, iter_counter by done. cbn [inner]. rewrite Zplus_mod_idemp_l.
  assert (j ≤ 2)%nat as Hj'.
  { destruct (decide (j = 3)%nat) as [-> |]; [|lia]. exfalso. apply (Hq 1); [lia|]. unfold block. cbn. apply Z.mod_1_r. }
  intros i Hi Hi3. rewrite (update_down_below _ j); [|apply level_le| |done|done].
  - apply IH; [|done|done]. intros k Hk. apply Hq. lia.
  - apply level_quiet; [done|]. change (2 ^ (8 * Z.of_nat (3 - j))) with (block j). rewrite mod_u32_block.
    replace (counter r + Z.of_nat n + 1) with (counter r + Z.of_nat (S n)) by lia. apply Hq. lia.
Qed.

(** Up to the next multiple of the block. *)
Lemma one_block j r :
  (j ≤ 3)%nat → is_u32 (counter r) →
  let next := counter r / block j + 1 in
  level ((next * block j) mod u32_mod) = j →
  Nat.iter (Z.to_nat (next * block j - counter r)) advance r = mkRatchet (update_down (inner r) j) ((next * block j) mod u32_mod).
Proof.
  intros Hj Hc next Hl. pose proof (block_pos j) as HB. set (B := block j) in *.
  pose proof (Z.div_mod (counter r) B ltac:(lia)) as Hd. pose proof (Z.mod_pos_bound (counter r) B HB) as Hm.
  assert (next * B - counter r = B - counter r mod B) as Hn by (unfold next; lia).
  replace (Z.to_nat (next * B - counter r)) with (S (Z.to_nat (next * B - counter r - 1))) by lia.
  set (n := Z.to_nat (next * B - counter r - 1)). cbn [Nat.iter nat_rect].
  change (nat_rect _ r (λ _, advance) n) with (Nat.iter n advance r).
  rewrite advance_spec, iter_counter, Zplus_mod_idemp_l by done.
  replace (counter r + Z.of_nat n + 1) with (next * B) by lia. rewrite Hl. f_equal.
  apply update_down_agree; [done|]. apply quiet_steps; [done..|]. intros k Hk. fold B.
  rewrite Hd, <- Z.add_assoc, Z.add_comm, Z.mul_comm, Z.mod_add by lia. rewrite Z.mod_small; lia.
Qed.

Lemma iter_add {A} (f : A → A) a b x : Nat.iter (a + b) f x = Nat.iter b f (Nat.iter a f x).
Proof. rewrite Nat.add_comm. apply Nat.iter_add. Qed.

(** [s] blocks. *)
Lemma many_blocks j s r :
  (j ≤ 3)%nat → is_u32 (counter r) → (0 < s)%nat →
  let x := counter r / block j in
  (∀ k, 0 < k ≤ Z.of_nat s → level (((x + k) * block j) mod u32_mod) = j) →
  Nat.iter (Z.to_nat ((x + Z.of_nat s) * block j - counter r)) advance r =
  mkRatchet (Nat.iter s (λ p, update_down p j) (inner r)) (((x + Z.of_nat s) * block j) mod u32_mod).
Proof.
  intros Hj Hc Hs. induction s as [|s IH]; [lia|]. intros x Hl. pose proof (block_pos j) as HB.
  pose proof (Z.div_mod (counter r) (block j) ltac:(lia)) as Hd. pose proof (Z.mod_pos_bound (counter r) (block j) HB) as Hm.
  fold x in Hd. destruct (decide (s = 0)%nat) as [-> |Hs0].
  { apply (one_block j r); [done..|]. apply (Hl 1). lia. }
  specialize (IH ltac:(lia)). cbn zeta in IH. fold x in IH. specialize (IH ltac:(intros; apply Hl; lia)).
  replace (Z.to_nat ((x + Z.of_nat (S s)) * block j - counter r))
    with (Z.to_nat ((x + Z.of_nat s) * block j - counter r) + Z.to_nat (block j))%nat by nia.
  rewrite iter_add, IH. set (y := x + Z.of_nat s) in *.
  set (r' := mkRatchet _ _). assert (is_u32 (counter r')) as Hc' by (apply Z.mod_pos_bound; done).
  assert (counter r' mod block j = 0) as H0 by (cbn [r' counter]; rewrite mod_u32_block; apply Z.mod_mul; lia).
  pose proof (Z.div_mod (counter r') (block j) ltac:(lia)) as Hd'. rewrite H0, Z.add_0_r in Hd'.
  assert (Hnext : ((counter r' / block j + 1) * block j) mod u32_mod = ((x + Z.of_nat (S s)) * block j) mod u32_mod).
  { replace ((counter r' / block j + 1) * block j) with (counter r' + block j) by nia.
    cbn [r' counter]. rewrite Zplus_mod_idemp_l. f_equal. subst y. nia. }
  pose proof (one_block j r' Hj Hc') as Hone. cbn zeta in Hone. rewrite Hnext in Hone.
  replace (Z.to_nat ((counter r' / block j + 1) * block j - counter r')) with (Z.to_nat (block j)) in Hone by nia.
  rewrite Hone; [done|]. apply Hl. lia.
Qed.

(** ** One round of [advance_to] *)

Lemma bump_agree j m p q :
  (j ≤ 3)%nat → agree j p q →
  agree j (Nat.iter m (λ p, update p j j) p) (Nat.iter m (λ p, update_down p j) q).
Proof.
  intros Hj Ha. induction m as [|m IH]; [done|]. rewrite !Nat.iter_succ.
  set (p' := Nat.iter m _ p) in *. set (q' := Nat.iter m _ q) in *. clearbody p' q'.
  intros i Hi Hi3. pose proof (IH i Hi Hi3) as Hpi. pose proof (IH j ltac:(lia) Hj) as Hpj.
  destruct p' as [a b c d], q' as [a' b' c' d'].
  assert (j = 0 ∨ j = 1 ∨ j = 2 ∨ j = 3)%nat as [-> | [-> | [-> | ->]]] by lia;
    destruct i as [|[|[|[|]]]]; try lia; cbn in *; congruence.
Qed.

Lemma bump_is_iterated j s p :
  (j ≤ 3)%nat → (0 < s)%nat →
  update_down (Nat.iter (s - 1) (λ p, update p j j) p) j = Nat.iter s (λ p, update_down p j) p.
Proof.
  intros Hj Hs. destruct s as [|s]; [lia|]. rewrite Nat.iter_succ. replace (S s - 1)%nat with s by lia.
  apply update_down_agree; [done|]. by apply bump_agree.
Qed.

Lemma land_shiftl a m n : 0 ≤ n → Z.land a (Z.shiftl m n) = Z.shiftl (Z.land (Z.shiftr a n) m) n.
Proof.
  intros Hn. apply Z.bits_inj'. intros i Hi. rewrite Z.land_spec, !Z.shiftl_spec, Z.land_spec by lia.
  destruct (Z.ltb_spec i n).
  - rewrite !(Z.testbit_neg_r _ (i - n)) by lia. by rewrite andb_false_r.
  - rewrite Z.shiftr_spec by lia. by replace (i - n + n) with i by lia.
Qed.

Lemma target_of j a :
  (j ≤ 3)%nat → is_u32 a →
  Z.land a (Z.shiftl 0xFFFFFFFF (Z.of_nat (LAST_RATCHET_INDEX - j) * 8) mod u32_mod) = a / block j * block j.
Proof.
  intros Hj Ha. set (n := Z.of_nat (LAST_RATCHET_INDEX - j) * 8).
  assert (Hm : Z.shiftl 0xFFFFFFFF n mod u32_mod = Z.shiftl (Z.ones (32 - n)) n).
  { assert (j = 0 ∨ j = 1 ∨ j = 2 ∨ j = 3)%nat as [-> | [-> | [-> | ->]]] by lia; reflexivity. }
  rewrite Hm, land_shiftl, Z.land_ones, Z.shiftr_div_pow2, Z.shiftl_mul_pow2 by (subst n; unfold LAST_RATCHET_INDEX; lia).
  replace (2 ^ n) with (block j) by (unfold block; f_equal; subst n; unfold LAST_RATCHET_INDEX; lia).
  f_equal. apply Z.mod_small. pose proof (block_pos j). split; [apply Z.div_pos; [apply Ha|lia]|].
  apply Z.div_lt_upper_bound; [lia|]. replace (block j * 2 ^ (32 - n)) with u32_mod; [apply Ha|].
  assert (j = 0 ∨ j = 1 ∨ j = 2 ∨ j = 3)%nat as [-> | [-> | [-> | ->]]] by lia; reflexivity.
Qed.

Lemma steps_of j a c :
  (j ≤ 3)%nat →
  Z.land ((Z.shiftr a (Z.of_nat (LAST_RATCHET_INDEX - j) * 8) - Z.shiftr c (Z.of_nat (LAST_RATCHET_INDEX - j) * 8)) mod u32_mod) 0xff =
  (a / block j - c / block j) mod 256.
Proof.
  intros Hj. change 0xff with (Z.ones 8). rewrite Z.land_ones, !Z.shiftr_div_pow2 by lia.
  replace (2 ^ (Z.of_nat (LAST_RATCHET_INDEX - j) * 8)) with (block j) by (unfold block, LAST_RATCHET_INDEX; f_equal; lia).
  apply (Z.mod_mod_divide _ u32_mod). by exists (2 ^ 24).
Qed.

(** Where the rounds before [j] have brought the counter. *)
Definition ready (j : nat) (a c : Z) : Prop :=
  j = 0%nat ∨ (c ≤ a ∧ c / (256 * block j) = a / (256 * block j)).

Lemma level_block j x :
  (j ≤ 3)%nat → (j = 0%nat ∨ x mod 256 ≠ 0) → level ((x * block j) mod u32_mod) = j.
Proof.
  intros Hj Hx. unfold level. change (2 ^ 24) with (block 0). change (2 ^ 16) with (block 1). change (2 ^ 8) with (block 2).
  rewrite !mod_u32_block.
  assert (Hb : ∀ i, (i ≤ j)%nat → (x * block j) mod block i = (x mod 2 ^ (8 * Z.of_nat (j - i))) * block j).
  { intros i Hi. replace (block i) with (2 ^ (8 * Z.of_nat (j - i)) * block j).
    - apply Zmult_mod_distr_r.
    - unfold block. rewrite <- Z.pow_add_r by lia. f_equal. lia. }
  assert (Hw : ∀ i, (i < j)%nat → j ≠ 0%nat → ((x * block j) mod block i =? 0) = false).
  { intros i Hi Hj0. destruct Hx as [?|Hx]; [lia|]. rewrite Hb by lia. apply Z.eqb_neq. pose proof (block_pos j).
    intros Hz. apply Hx. apply Z.mul_eq_0_l in Hz; [|lia]. change 256 with (2 ^ 8). eapply pow2_mod_weaken; [|exact Hz]. lia. }
  assert (Hz : ((x * block j) mod block j =? 0) = true) by (apply Z.eqb_eq, Z.mod_mul; pose proof (block_pos j); lia).
  assert (j = 0 ∨ j = 1 ∨ j = 2 ∨ j = 3)%nat as [-> | [-> | [-> | ->]]] by lia;
    rewrite ?Hz; try done; rewrite ?(Hw 0%nat), ?(Hw 1%nat), ?(Hw 2%nat), ?Hz by lia; done.
Qed.

Lemma ready_blocks j a c :
  (j ≤ 3)%nat → is_u32 a → is_u32 c → ready j a c → a / block j / 256 = c / block j / 256 ∧ (a < c → j = 0%nat).
Proof.
  intros Hj Ha Hc [-> |[Hle Heq]].
  - change (block 0) with 16777216. unfold is_u32, u32_mod in *. split; [|done].
    rewrite !Z.div_small; [done| |]; (split; [apply Z.div_pos; lia|apply Z.div_lt_upper_bound; lia]).
  - pose proof (block_pos j). rewrite !Z.div_div, !(Z.mul_comm (block j)) by lia. split; [done|lia].
Qed.

(** [s] blocks from [r], in the form the code computes them. *)
Lemma bump_steps j s a r :
  (j ≤ 3)%nat → is_u32 (counter r) → is_u32 a → 0 < s →
  let x := counter r / block j in
  (∀ k, 0 < k ≤ s → j = 0%nat ∨ (x + k) mod 256 ≠ 0) → ((x + s) * block j) mod u32_mod = a / block j * block j →
  mkRatchet (update_down (Nat.iter (Z.to_nat (s - 1)) (λ p, update p j j) (inner r)) j) (a / block j * block j) =
  Nat.iter (Z.to_nat ((x + s) * block j - counter r)) advance r.
Proof.
  intros Hj Hc Ha Hs x Hl Ht. pose proof (many_blocks j (Z.to_nat s) r Hj Hc ltac:(lia)) as Hm. cbn zeta in Hm. fold x in Hm.
  rewrite Z2Nat.id in Hm by lia. rewrite Hm, Ht.
  - rewrite <- bump_is_iterated by lia. by replace (Z.to_nat s - 1)%nat with (Z.to_nat (s - 1)) by lia.
  - intros k Hk. apply level_block; auto.
Qed.

(** What a round for part [j] must bring about. *)
Definition reaches (j : nat) (a : Z) (r r' : Ratchet) : Prop :=
  ∃ n, r' = Nat.iter n advance r ∧
    Z.of_nat n = counter r' - counter r + (if a <? counter r then u32_mod else 0) ∧
    counter r' ≤ a ∧ counter r' / block j = a / block j.

Lemma block_start j a : is_u32 a → (a / block j * block j) mod u32_mod = a / block j * block j ∧ a / block j * block j ≤ a.
Proof.
  intros Ha. pose proof (block_pos j). pose proof (Z.div_mod a (block j) ltac:(lia)) as Hd.
  pose proof (Z.mod_pos_bound a (block j) ltac:(lia)). unfold is_u32 in Ha.
  assert (a / block j * block j ≤ a) by lia. split; [|done]. apply Z.mod_small. split; [|lia].
  apply Z.mul_nonneg_nonneg; [apply Z.div_pos|]; lia.
Qed.

(** The bump by [s] steps reaches the start of the target's block. *)
Lemma bump_reaches j s a r :
  (j ≤ 3)%nat → is_u32 (counter r) → is_u32 a → 0 < s →
  let x := counter r / block j in
  (∀ k, 0 < k ≤ s → j = 0%nat ∨ (x + k) mod 256 ≠ 0) →
  (x + s) * block j = a / block j * block j + (if a <? counter r then u32_mod else 0) →
  reaches j a r (mkRatchet (update_down (Nat.iter (Z.to_nat (s - 1)) (λ p, update p j j) (inner r)) j) (a / block j * block j)).
Proof.
  intros Hj Hc Ha Hs x Hl Ht. pose proof (block_pos j) as HB. destruct (block_start j a Ha) as [Hm Hle].
  exists (Z.to_nat ((x + s) * block j - counter r)). cbn [counter]. split_and!; [|..].
  - apply bump_steps; [done..|]. fold x. rewrite Ht. destruct (a <? counter r); [|by rewrite Z.add_0_r].
    rewrite <- Zplus_mod_idemp_r, Z_mod_same_full, Z.add_0_r. exact Hm.
  - pose proof (Z.div_mod (counter r) (block j) ltac:(lia)) as Hd. fold x in Hd.
    pose proof (Z.mod_pos_bound (counter r) (block j) HB). rewrite Z2Nat.id by nia. lia.
  - done.
  - apply Z.div_mul. lia.
Qed.

Lemma round_spec j a r :
  (j ≤ 3)%nat → is_u32 a → is_u32 (counter r) → ready j a (counter r) → reaches j a r (advance_part a r j).
Proof.
  intros Hj Ha Hc Hr. destruct (ready_blocks j a (counter r) Hj Ha Hc Hr) as [Heq Hlt].
  pose proof (block_pos j) as HB. unfold advance_part. rewrite steps_of, target_of by done.
  pose proof (λ s, bump_reaches j s a r Hj Hc Ha) as Hbump. cbn zeta in Hbump.
  set (x := counter r / block j) in *. set (y := a / block j) in *.
  pose proof (Z.div_mod x 256 ltac:(lia)) as Hx. pose proof (Z.mod_pos_bound x 256 ltac:(lia)) as Hxm.
  pose proof (Z.div_mod y 256 ltac:(lia)) as Hy. pose proof (Z.mod_pos_bound y 256 ltac:(lia)) as Hym. rewrite Heq in Hy.
  destruct (Z.ltb_spec a (counter r)) as [Hac|Hac].
  - specialize (Hlt Hac). assert (y ≤ x) as Hyx by (subst x y; apply Z.div_le_mono; lia).
    assert (Hw : (y + 256) * block j = y * block j + u32_mod)
      by (rewrite Hlt; change (block 0) with 16777216; unfold u32_mod; lia).
    destruct (Z.eqb_spec ((y - x) mod 256) 0) as [Hz|Hz].
    + apply Hbump; [lia|by left|]. rewrite <- Hw. f_equal.
      destruct (decide (x = y)) as [|Hne]; [lia|]. rewrite <- (Z.mod_add _ 1), Z.mod_small in Hz by lia. lia.
    + assert ((y - x) mod 256 = y - x + 256) as ->.
      { destruct (decide (x = y)) as [He|Hne]; [rewrite He, Z.sub_diag in Hz; done|].
        rewrite <- (Z.mod_add _ 1) by lia. apply Z.mod_small. lia. }
      apply Hbump; [lia|by left|]. rewrite <- Hw. f_equal. lia.
  - assert (x ≤ y) as Hxy by (subst x y; apply Z.div_le_mono; lia).
    rewrite Z.mod_small by lia. destruct (Z.eqb_spec (y - x) 0) as [Hz|Hz].
    + exists 0%nat. destruct (Z.ltb_spec a (counter r)); [lia|]. split_and!; [done|lia|lia|]. subst x y. lia.
    + apply Hbump; [lia| |f_equal; lia]. intros k Hk. right. intros Hk0.
      pose proof (Z.div_mod (x + k) 256 ltac:(lia)) as Hxk. rewrite Hk0 in Hxk. lia.
Qed.

(** ** [advance_to] *)

Lemma reaches_ready j a r r' : (j ≤ 2)%nat → reaches j a r r' → ready (S j) a (counter r').
Proof.
  intros Hj (n & _ & _ & Hle & Heq). right. split; [done|].
  replace (256 * block (S j)) with (block j); [done|].
  assert (j = 0 ∨ j = 1 ∨ j = 2)%nat as [-> | [-> | ->]] by lia; reflexivity.
Qed.

Lemma reaches_u32 j a r r' : is_u32 (counter r) → reaches j a r r' → is_u32 (counter r').
Proof. intros Hc (n & -> & _). rewrite iter_counter by done. by apply Z.mod_pos_bound. Qed.

(** A later round starts below the target. *)
Lemma reaches_trans j a r r' r'' :
  counter r' ≤ a → reaches j a r' r'' → ∀ n, r' = Nat.iter n advance r →
  ∃ m, r'' = Nat.iter (n + m) advance r ∧ Z.of_nat m = counter r'' - counter r'.
Proof.
  intros Hle (m & -> & Hm & _) n ->. destruct (Z.ltb_spec a (counter (Nat.iter n advance r))); [lia|].
  exists m. rewrite iter_add. split; [done|lia].
Qed.

Lemma advance_to_iter r a :
  is_u32 (counter r) → is_u32 a →
  ratchet_advance_to r a = Nat.iter (Z.to_nat ((a - counter r) mod u32_mod)) advance r.
Proof.
  intros Hc Ha. unfold ratchet_advance_to, RATCHET_PART_COUNT. cbn [seq foldl].
  pose proof (round_spec 0 a r ltac:(lia) Ha Hc ltac:(by left)) as R0. set (r0 := advance_part a r 0) in *.
  pose proof (reaches_u32 _ _ _ _ Hc R0) as C0.
  pose proof (round_spec 1 a r0 ltac:(lia) Ha C0 (reaches_ready 0 _ _ _ ltac:(lia) R0)) as R1. set (r1 := advance_part a r0 1) in *.
  pose proof (reaches_u32 _ _ _ _ C0 R1) as C1.
  pose proof (round_spec 2 a r1 ltac:(lia) Ha C1 (reaches_ready 1 _ _ _ ltac:(lia) R1)) as R2. set (r2 := advance_part a r1 2) in *.
  pose proof (reaches_u32 _ _ _ _ C1 R2) as C2.
  pose proof (round_spec 3 a r2 ltac:(lia) Ha C2 (reaches_ready 2 _ _ _ ltac:(lia) R2)) as R3. set (r3 := advance_part a r2 3) in *.
  destruct R0 as (n0 & E0 & N0 & L0 & _). assert (L1 : counter r1 ≤ a) by (by destruct R1 as (? & _ & _ & ? & _)).
  assert (L2 : counter r2 ≤ a) by (by destruct R2 as (? & _ & _ & ? & _)).
  assert (L3 : counter r3 = a).
  { destruct R3 as (_ & _ & _ & _ & H3). change (block 3) with 1 in H3. by rewrite !Z.div_1_r in H3. }
  destruct (reaches_trans _ _ r _ _ L0 R1 _ E0) as (n1 & E1 & N1).
  destruct (reaches_trans _ _ r _ _ L1 R2 _ E1) as (n2 & E2 & N2).
  destruct (reaches_trans _ _ r _ _ L2 R3 _ E2) as (n3 & E3 & N3).
  rewrite E3. f_equal. unfold is_u32 in *. destruct (Z.ltb_spec a (counter r)).
  - rewrite <- (Z.mod_add _ 1), Z.mod_small by lia. lia.
  - rewrite Z.mod_small by lia. lia.
Qed.

(** The subtraction of a round does not wrap when the counter is at most the target; the callers keep to that. *)
Lemma subtraction_does_not_wrap j a r :
  (j ≤ 3)%nat → is_u32 a → is_u32 (counter r) → counter r ≤ a →
  let shift := Z.of_nat (LAST_RATCHET_INDEX - j) * 8 in is_u32 (Z.shiftr a shift - Z.shiftr (counter r) shift).
Proof.
  intros Hj Ha Hc Hle shift. rewrite !Z.shiftr_div_pow2 by lia. unfold is_u32 in *.
  assert (0 < 2 ^ shift) by lia. pose proof (Z.div_le_mono (counter r) a (2 ^ shift) ltac:(lia) Hle).
  pose proof (Z.div_pos (counter r) (2 ^ shift) ltac:(lia) ltac:(lia)).
  assert (a / 2 ^ shift ≤ a) by (apply Z.div_le_upper_bound; nia). lia.
Qed.

Lemma advance_to_counter r a : is_u32 (counter r) → is_u32 a → counter (ratchet_advance_to r a) = a.
Proof.
  intros Hc Ha. rewrite advance_to_iter, iter_counter by done.
  rewrite Z2Nat.id by (apply Z.mod_pos_bound; done). rewrite Zplus_mod_idemp_r.
  replace (counter r + (a - counter r)) with a by lia. by apply Z.mod_small.
Qed.

(** The ratchet's fast forward computes what stepping computes: [advance_to], which rehashes each of the four
    parts at most 256 times, ends in the same bytes and counter as calling [advance] once per message, for every
    start and target, including targets that wrap past the largest counter. *)
Theorem advance_to_is_iterated_advance r a :
  is_u32 (counter r) → is_u32 a →
  ratchet_advance_to r a = Nat.iter (Z.to_nat ((a - counter r) mod u32_mod)) advance r.
Proof. apply advance_to_iter. Qed.

End Ratchet.
