(* ===== verification/Megolm.v ===== *)
(** * Megolm sessions (crates/mail4agent-vodozemac: megolm/*, cipher/*, utilities/mod.rs)

    The sender's session, the receiver's session, the messages between them and the keys they are
    shared by, over the ratchet of MegolmRatchet.v. HKDF, AES-CBC, Ed25519, base64 and the derived
    protobuf reader come from other crates: they are classes, with the documented facts the code
    relies on as laws. A session the code changes is returned with the answer. Only version 1 of
    the session configuration is compiled in. Wiping of key material from memory is left out. *)

From Stdlib Require Import Ascii.
From S2P Require Import Prelude Json CanonicalJson MegolmRatchet.

Local Open Scope Z_scope.

(** ** Other crates *)

Class MegolmCrypto := {
  hkdf_sha256 : string → string → string → nat → string;
  aes256_cbc_encrypt : string → string → string → string;
  aes256_cbc_decrypt : string → string → string → option string
}.

Class MegolmCryptoLaws `{MegolmCrypto} : Prop := {
  aes_roundtrip key iv plaintext : aes256_cbc_decrypt key iv (aes256_cbc_encrypt key iv plaintext) = Some plaintext
}.

(** Key pairs and byte forms, next to [CanonicalJson.Ed25519]. *)
Class Ed25519Keys `{Ed25519} := {
  Ed25519Keypair : Type;
  public_key : Ed25519Keypair → Ed25519PublicKey;
  keypair_sign : Ed25519Keypair → string → Ed25519Signature;
  public_as_bytes : Ed25519PublicKey → string;
  public_from_slice : string → result Ed25519PublicKey string;
  signature_to_bytes : Ed25519Signature → string;
  signature_from_slice : string → result Ed25519Signature string
}.

Class Ed25519KeysLaws `{Ed25519Keys} : Prop := {
  verify_sign k m : verify (public_key k) m (keypair_sign k m) = Ok tt;
  public_roundtrip k : public_from_slice (public_as_bytes k) = Ok k;
  public_len k : slen (public_as_bytes k) = 32;
  signature_roundtrip s : signature_from_slice (signature_to_bytes s) = Ok s;
  signature_len s : slen (signature_to_bytes s) = 64
}.

(** [base64] for messages, [base64ct] for keys, and the derived [prost] reader of a message's payload. *)
Class MegolmWire := {
  base64_encode : string → string;
  base64_decode : string → result string string;
  base64ct_encode : string → string;
  base64ct_decode : string → result string string;
  prost_decode : string → result (Z * string) string
}.

(** ** utilities/mod.rs: variable-length integers *)

Definition byte (n : Z) : ascii := ascii_of_N (Z.to_N (n mod 256)).

Fixpoint encoded_space_loop (fuel : nat) (v : Z) (logcounter : nat) : nat :=
  match fuel with
  | 0%nat => logcounter
  | S fuel => if 0 <? v then encoded_space_loop fuel (Z.shiftr v 7) (S logcounter) else logcounter
  end.

(** A [u64] is shifted to zero in ten rounds. *)
Definition required_encoded_space_unsigned (v : Z) : nat :=
  if v =? 0 then 1%nat else encoded_space_loop 10 v 0.

Definition MSB : Z := 128.

(** [v[i] = b]; an index out of range, where the code would panic, is [None]. *)
Definition write_at (v : list ascii) (i : nat) (b : ascii) : option (list ascii) :=
  if (i <? length v)%nat then Some (<[i := b]> v) else None.

Fixpoint var_int_loop (fuel : nat) (v : list ascii) (i : nat) (n : Z) : option (list ascii) :=
  match fuel with
  | 0%nat => None
  | S fuel =>
      if 0x80 <=? n then
        v ← write_at v i (byte (Z.lor MSB (n mod 256)));
        var_int_loop fuel v (S i) (Z.shiftr n 7)
      else write_at v i (byte n)
  end.

Definition to_var_int (n : Z) : option string :=
  String.string_of_list_ascii <$> var_int_loop 10 (replicate (required_encoded_space_unsigned n) (byte 0)) 0 n.

(** ** cipher/mod.rs, cipher/key.rs *)

Definition Mac_LENGTH : nat := 32.
Definition Mac_TRUNCATED_LEN : nat := 8.

Inductive MessageMac := Truncated (m : string) | Full (m : string).

Definition mac_as_bytes (m : MessageMac) : string := match m with Truncated m => m | Full m => m end.

Definition truncate (mac : string) : string := s_take Mac_TRUNCATED_LEN mac.

Record CipherKeys := mkCipherKeys { aes_key : string; mac_key : string; aes_iv : string }.

Definition from_expanded_keys (expanded : string) : CipherKeys :=
  mkCipherKeys (s_take 32 expanded) (s_take 32 (s_drop 32 expanded)) (s_take 16 (s_drop 64 expanded)).

Section Cipher.
Context `{HmacSha256} `{MegolmCrypto}.

Definition expand_helper (message_key info : string) : string :=
  hkdf_sha256 (String (ascii_of_nat 0) EmptyString) message_key info 80.

Definition MEGOLM_HKDF_INFO : string := "MEGOLM_KEYS".

(** [Cipher::new_megolm] *)
Definition new_megolm (key : string) : CipherKeys := from_expanded_keys (expand_helper key MEGOLM_HKDF_INFO).

Definition cipher_encrypt (c : CipherKeys) (plaintext : string) : string := aes256_cbc_encrypt (aes_key c) (aes_iv c) plaintext.

Definition cipher_mac (c : CipherKeys) (message : string) : string := hmac_sha256 (mac_key c) message.

Definition cipher_decrypt (c : CipherKeys) (ciphertext : string) : option string :=
  aes256_cbc_decrypt (aes_key c) (aes_iv c) ciphertext.

(** [verify_truncated_left]: a tag of 1 to 32 bytes that starts the code. *)
Definition verify_truncated_mac (c : CipherKeys) (message tag : string) : bool :=
  (0 <? slen tag) && (slen tag <=? 32) && bool_decide (s_take (String.length tag) (hmac_sha256 (mac_key c) message) = tag).

End Cipher.

(** [extract_mac]; the slice is long enough. *)
Definition extract_mac (slice : string) (truncated : bool) : MessageMac :=
  if truncated then Truncated (s_take Mac_TRUNCATED_LEN slice) else Full (s_take Mac_LENGTH slice).

(** ** Messages (megolm/message.rs) *)

Definition MAC_TRUNCATED_VERSION : Z := 3.
Definition VERSION : Z := 4.
Definition SIGNATURE_LENGTH : nat := 64.
Definition MESSAGE_TRUNCATED_SUFFIX_LENGTH : nat := 72.
Definition MESSAGE_SUFFIX_LENGTH : nat := 96.

(** types/mod.rs *)
Inductive KeyError :=
| KeyBase64Error (reason : string)
| InvalidKeyLength (key_type : string) (expected_length length : Z)
| KeyNotContributory.

(** lib.rs *)
Inductive DecodeError :=
| InvalidMessageType (got : Z)
| MissingVersion
| MessageTooShort (length : Z)
| InvalidVersion (expected got : Z)
| InvalidKey (e : KeyError)
| InvalidMacLength (expected got : Z)
| InvalidProtobuf (reason : string)
| InvalidSignature (reason : string)
| InvalidBase64 (reason : string).

Definition byte_str (n : Z) : string := String (byte n) EmptyString.

Definition INDEX_TAG : string := byte_str 8.
Definition CIPHER_TAG : string := byte_str 18.

(** The payload after the version byte, as [encode_manual] lays it out. *)
Definition payload (index : Z) (ciphertext : string) : option string :=
  index ← to_var_int index;
  len ← to_var_int (slen ciphertext);
  Some (INDEX_TAG +:+ index +:+ CIPHER_TAG +:+ len +:+ ciphertext).

Class MegolmWireLaws `{MegolmWire} : Prop := {
  base64_wire_roundtrip s : base64_decode (base64_encode s) = Ok s;
  base64ct_roundtrip s : base64ct_decode (base64ct_encode s) = Ok s;
  prost_reads_payload i c p : 0 ≤ i < u32_mod → slen c < u64_mod → payload i c = Some p → prost_decode p = Ok (i, c)
}.

Section Messages.
Context `{HmacSha256} `{MegolmCrypto} `{Ed25519Keys} `{MegolmWire}.

Record MegolmMessage := mkMegolmMessage {
  mm_version : Z;
  mm_ciphertext : string;
  mm_message_index : Z;
  mm_mac : MessageMac;
  mm_signature : Ed25519Signature }.

(** [encode_message], with [encode_manual]. *)
Definition encode_message (m : MegolmMessage) : option string :=
  p ← payload (mm_message_index m) (mm_ciphertext m);
  Some (byte_str (mm_version m) +:+ p).

Definition to_mac_bytes (m : MegolmMessage) : option string := encode_message m.

Definition to_signature_bytes (m : MegolmMessage) : option string :=
  e ← encode_message m; Some (e +:+ mac_as_bytes (mm_mac m)).

Definition message_to_bytes (m : MegolmMessage) : option string :=
  e ← encode_message m;
  Some (e +:+ mac_as_bytes (mm_mac m) +:+ signature_to_bytes (mm_signature m)).

Definition message_to_base64 (m : MegolmMessage) : option string := base64_encode <$> message_to_bytes m.

(** [TryFrom<&[u8]>] *)
Definition message_from_bytes (message : string) : result MegolmMessage DecodeError :=
  match message with
  | EmptyString => Err MissingVersion
  | String v _ =>
      let version := bval v in
      let? suffix_length :=
        if version =? VERSION then Ok MESSAGE_SUFFIX_LENGTH
        else if version =? MAC_TRUNCATED_VERSION then Ok MESSAGE_TRUNCATED_SUFFIX_LENGTH
        else Err (InvalidVersion VERSION version) in
      if slen message <? Z.of_nat suffix_length + 2 then Err (MessageTooShort (slen message))
      else
        let len := String.length message in
        let? payload := ok_or (s_get message 1 (slen message - Z.of_nat suffix_length)) (MessageTooShort (slen message)) in
        let? (message_index, ciphertext) := map_err InvalidProtobuf (prost_decode payload) in
        let? signature := map_err InvalidSignature (signature_from_slice (s_drop (len - SIGNATURE_LENGTH) message)) in
        let mac := extract_mac (s_drop (len - suffix_length) message) (version =? MAC_TRUNCATED_VERSION) in
        Ok (mkMegolmMessage version ciphertext message_index mac signature)
  end.

(** [TryFrom<&str>] *)
Definition message_from_base64 (message : string) : result MegolmMessage DecodeError :=
  let? decoded := map_err InvalidBase64 (base64_decode message) in
  message_from_bytes decoded.

(** [encrypt_truncated_mac], with [encrypt_helper] and [set_mac]: the code of the message, then its signature. *)
Definition encrypt_truncated_mac (message_index : Z) (cipher : CipherKeys) (signing_key : Ed25519Keypair) (plaintext : string) :
    option MegolmMessage :=
  let ciphertext := cipher_encrypt cipher plaintext in
  p ← payload message_index ciphertext;
  let encoded := byte_str MAC_TRUNCATED_VERSION +:+ p in
  let mac := Truncated (truncate (cipher_mac cipher encoded)) in
  let signature := keypair_sign signing_key (encoded +:+ mac_as_bytes mac) in
  Some (mkMegolmMessage MAC_TRUNCATED_VERSION ciphertext message_index mac signature).

(** ** Keys (megolm/session_keys.rs) *)

Inductive SessionKeyDecodeError :=
| KeyVersion (expected got : Z)
| KeyRead
| KeyBase64 (reason : string)
| KeySignature (reason : string)
| KeyPublicKey (reason : string).

Record ExportedSessionKey := mkExported {
  ek_ratchet_index : Z;
  ek_ratchet : string;
  ek_signing_key : Ed25519PublicKey }.

Definition EXPORTED_VERSION : Z := 1.
Definition SESSION_KEY_VERSION : Z := 2.

(** [ExportedSessionKey::new] *)
Definition exported_new (r : Ratchet) (signing_key : Ed25519PublicKey) : ExportedSessionKey :=
  mkExported (ratchet_index r) (as_bytes r) signing_key.

(** [u32::to_be_bytes] and [from_be_bytes] *)
Definition to_be_u32 (n : Z) : string := String.string_of_list_ascii (rev (bytes_of (to_le_bytes 4 n))).
Definition from_be_u32 (s : string) : Z := from_le_bytes (String.string_of_list_ascii (rev (bytes_of s))).

Definition to_bytes_with_version (k : ExportedSessionKey) (version : Z) : string :=
  byte_str version +:+ to_be_u32 (ek_ratchet_index k) +:+ ek_ratchet k +:+ public_as_bytes (ek_signing_key k).

Definition exported_to_bytes (k : ExportedSessionKey) : string := to_bytes_with_version k EXPORTED_VERSION.

(** [cursor.read_exact]: the bytes read and the rest. *)
Definition read_exact (n : nat) (cursor : string) : result (string * string) SessionKeyDecodeError :=
  if (n <=? String.length cursor)%nat then Ok (s_take n cursor, s_drop n cursor) else Err KeyRead.

(** [decode_key]: the key and what is left of the cursor. *)
Definition decode_key (expected_version : Z) (cursor : string) : result (ExportedSessionKey * string) SessionKeyDecodeError :=
  let? (version, cursor) := read_exact 1 cursor in
  let version := from_le_bytes version in
  if negb (version =? expected_version) then Err (KeyVersion expected_version version)
  else
    let? (index, cursor) := read_exact 4 cursor in
    let? (ratchet, cursor) := read_exact 128 cursor in
    let? (key, cursor) := read_exact 32 cursor in
    let? signing_key := map_err KeyPublicKey (public_from_slice key) in
    Ok (mkExported (from_be_u32 index) ratchet signing_key, cursor).

Definition exported_from_bytes (bytes : string) : result ExportedSessionKey SessionKeyDecodeError :=
  let? (key, _) := decode_key EXPORTED_VERSION bytes in Ok key.

Definition exported_to_base64 (k : ExportedSessionKey) : string := base64ct_encode (exported_to_bytes k).

Definition exported_from_base64 (key : string) : result ExportedSessionKey SessionKeyDecodeError :=
  let? bytes := map_err KeyBase64 (base64ct_decode key) in exported_from_bytes bytes.

Record SessionKey := mkSessionKey { sk_session_key : ExportedSessionKey; sk_signature : Ed25519Signature }.

Definition key_signature_bytes (k : ExportedSessionKey) : string := to_bytes_with_version k SESSION_KEY_VERSION.

Definition session_key_to_bytes (k : SessionKey) : string :=
  key_signature_bytes (sk_session_key k) +:+ signature_to_bytes (sk_signature k).

Definition session_key_from_bytes (bytes : string) : result SessionKey SessionKeyDecodeError :=
  let? (session_key, cursor) := decode_key SESSION_KEY_VERSION bytes in
  let? (signature, _) := read_exact SIGNATURE_LENGTH cursor in
  let? signature := map_err KeySignature (signature_from_slice signature) in
  let? _ := map_err KeySignature
              (verify (ek_signing_key session_key) (s_take (String.length bytes - SIGNATURE_LENGTH) bytes) signature) in
  Ok (mkSessionKey session_key signature).

Definition session_key_to_base64 (k : SessionKey) : string := base64ct_encode (session_key_to_bytes k).

Definition session_key_from_base64 (key : string) : result SessionKey SessionKeyDecodeError :=
  let? bytes := map_err KeyBase64 (base64ct_decode key) in session_key_from_bytes bytes.

(** ** The sender's session (megolm/group_session.rs, session_config.rs) *)

Inductive Version := V1.
Record SessionConfig := mkSessionConfig { config_version : Version }.
Definition version_1 : SessionConfig := mkSessionConfig V1.

#[export] Instance SessionConfig_eq_dec : EqDecision SessionConfig.
Proof. intros [[]] [[]]. by left. Defined.

Record GroupSession := mkGroupSession {
  gs_ratchet : Ratchet;
  gs_signing_key : Ed25519Keypair;
  gs_config : SessionConfig }.

(** The random ratchet and key pair are arguments. *)
Definition GroupSession_new (config : SessionConfig) (signing_key : Ed25519Keypair) (random : string) : GroupSession :=
  mkGroupSession (ratchet_from_bytes random 0) signing_key config.

(** [Ed25519PublicKey::to_base64] encodes its bytes. *)
Definition public_to_base64 (k : Ed25519PublicKey) : string := base64_encode (public_as_bytes k).

Definition group_session_id (g : GroupSession) : string := public_to_base64 (public_key (gs_signing_key g)).

Definition message_index (g : GroupSession) : Z := ratchet_index (gs_ratchet g).

Definition group_encrypt (g : GroupSession) (plaintext : string) : option (GroupSession * MegolmMessage) :=
  let cipher := new_megolm (as_bytes (gs_ratchet g)) in
  message ← match config_version (gs_config g) with
            | V1 => encrypt_truncated_mac (message_index g) cipher (gs_signing_key g) plaintext
            end;
  Some (mkGroupSession (advance (gs_ratchet g)) (gs_signing_key g) (gs_config g), message).

Definition group_session_key (g : GroupSession) : SessionKey :=
  let session_key := exported_new (gs_ratchet g) (public_key (gs_signing_key g)) in
  mkSessionKey session_key (keypair_sign (gs_signing_key g) (key_signature_bytes session_key)).

(** [pickle] and [from_pickle] copy the three fields. *)
Definition GroupSessionPickle : Type := GroupSession.

(** ** The receiver's session (megolm/inbound_group_session.rs) *)

Inductive SessionOrdering := OrdEqual | OrdBetter | OrdWorse | OrdUnconnected.

Inductive DecryptionError :=
| BadSignature (reason : string)
| InvalidMAC
| InvalidMACLength (expected got : nat)
| InvalidPadding
| UnknownMessageIndex (first_known index : Z).

Record InboundGroupSession := mkInbound {
  ig_initial_ratchet : Ratchet;
  ig_latest_ratchet : Ratchet;
  ig_signing_key : Ed25519PublicKey;
  ig_signing_key_verified : bool;
  ig_config : SessionConfig }.

Record DecryptedMessage := mkDecryptedMessage { dm_plaintext : string; dm_message_index : Z }.

Definition inbound_new (key : SessionKey) (config : SessionConfig) : InboundGroupSession :=
  let initial := ratchet_from_bytes (ek_ratchet (sk_session_key key)) (ek_ratchet_index (sk_session_key key)) in
  mkInbound initial initial (ek_signing_key (sk_session_key key)) true config.

Definition inbound_import (key : ExportedSessionKey) (config : SessionConfig) : InboundGroupSession :=
  let initial := ratchet_from_bytes (ek_ratchet key) (ek_ratchet_index key) in
  mkInbound initial initial (ek_signing_key key) false config.

Definition inbound_session_id (s : InboundGroupSession) : string := base64_encode (public_as_bytes (ig_signing_key s)).

Definition first_known_index (s : InboundGroupSession) : Z := ratchet_index (ig_initial_ratchet s).

Definition with_latest (s : InboundGroupSession) (r : Ratchet) : InboundGroupSession :=
  mkInbound (ig_initial_ratchet s) r (ig_signing_key s) (ig_signing_key_verified s) (ig_config s).

Definition find_ratchet (s : InboundGroupSession) (message_index : Z) : InboundGroupSession * option Ratchet :=
  if ratchet_index (ig_initial_ratchet s) =? message_index then (s, Some (ig_initial_ratchet s))
  else if ratchet_index (ig_latest_ratchet s) =? message_index then (s, Some (ig_latest_ratchet s))
  else if ratchet_index (ig_latest_ratchet s) <? message_index then
    let r := ratchet_advance_to (ig_latest_ratchet s) message_index in (with_latest s r, Some r)
  else if ratchet_index (ig_initial_ratchet s) <? message_index then
    let r := ratchet_advance_to (ig_initial_ratchet s) message_index in (with_latest s r, Some r)
  else (s, None).

Context `{!EqDecision Ed25519PublicKey}.

(** Both sessions with the answer; the arm [unreachable!] is [None]. *)
Definition connected (s other : InboundGroupSession) : InboundGroupSession * InboundGroupSession * option bool :=
  if negb (bool_decide (ig_config s = ig_config other)) || negb (bool_decide (ig_signing_key s = ig_signing_key other))
  then (s, other, Some false)
  else
    match find_ratchet s (first_known_index other) with
    | (s, Some ratchet) => (s, other, Some (ct_eq ratchet (ig_initial_ratchet other)))
    | (s, None) =>
        match find_ratchet other (first_known_index s) with
        | (other, Some ratchet) => (s, other, Some (ct_eq (ig_initial_ratchet s) ratchet))
        | (other, None) => (s, other, None)
        end
    end.

Definition compare (s other : InboundGroupSession) : InboundGroupSession * InboundGroupSession * option SessionOrdering :=
  match connected s other with
  | (s, other, Some true) =>
      (s, other, Some (match Z.compare (first_known_index s) (first_known_index other) with
                       | Lt => OrdBetter | Eq => OrdEqual | Gt => OrdWorse end))
  | (s, other, Some false) => (s, other, Some OrdUnconnected)
  | (s, other, None) => (s, other, None)
  end.

Definition merge (s other : InboundGroupSession) :
    InboundGroupSession * InboundGroupSession * option (option InboundGroupSession) :=
  match compare s other with
  | (s, other, Some ordering) =>
      let best_ratchet :=
        match ordering with
        | OrdEqual | OrdBetter => Some (ig_initial_ratchet s)
        | OrdWorse => Some (ig_initial_ratchet other)
        | OrdUnconnected => None
        end in
      (s, other, Some ((λ best, mkInbound best best (ig_signing_key s)
                          (ig_signing_key_verified s || ig_signing_key_verified other) (ig_config s)) <$> best_ratchet))
  | (s, other, None) => (s, other, None)
  end.

Definition inbound_advance_to (s : InboundGroupSession) (index : Z) : InboundGroupSession * bool :=
  if first_known_index s <? index then
    let initial := ratchet_advance_to (ig_initial_ratchet s) index in
    let latest := if ratchet_index (ig_latest_ratchet s) <? index then initial else ig_latest_ratchet s in
    (mkInbound initial latest (ig_signing_key s) (ig_signing_key_verified s) (ig_config s), true)
  else (s, false).

Definition verify_mac (s : InboundGroupSession) (cipher : CipherKeys) (m : MegolmMessage) (mac_bytes : string) :
    result unit DecryptionError :=
  match config_version (ig_config s) with
  | V1 =>
      match mm_mac m with
      | Truncated tag => if verify_truncated_mac cipher mac_bytes tag then Ok tt else Err InvalidMAC
      | Full _ => Err (InvalidMACLength Mac_TRUNCATED_LEN Mac_LENGTH)
      end
  end.

(** [None]: the encoding of the message panicked. *)
Definition inbound_decrypt (s : InboundGroupSession) (m : MegolmMessage) :
    option (InboundGroupSession * result DecryptedMessage DecryptionError) :=
  signed ← to_signature_bytes m;
  match verify (ig_signing_key s) signed (mm_signature m) with
  | Err e => Some (s, Err (BadSignature e))
  | Ok _ =>
      let first := ratchet_index (ig_initial_ratchet s) in
      match find_ratchet s (mm_message_index m) with
      | (s, None) => Some (s, Err (UnknownMessageIndex first (mm_message_index m)))
      | (s, Some ratchet) =>
          let cipher := new_megolm (as_bytes ratchet) in
          mac_bytes ← to_mac_bytes m;
          Some (s,
            let? _ := verify_mac s cipher m mac_bytes in
            let? plaintext := ok_or (cipher_decrypt cipher (mm_ciphertext m)) InvalidPadding in
            Ok (mkDecryptedMessage plaintext (mm_message_index m)))
      end
  end.

Definition export_at (s : InboundGroupSession) (index : Z) : InboundGroupSession * option ExportedSessionKey :=
  let '(s, r) := find_ratchet s index in (s, (λ r, exported_new r (ig_signing_key s)) <$> r).

Definition export_at_first_known_index (s : InboundGroupSession) : ExportedSessionKey :=
  exported_new (ig_initial_ratchet s) (ig_signing_key s).

Record InboundGroupSessionPickle := mkInboundPickle {
  ip_initial_ratchet : Ratchet;
  ip_signing_key : Ed25519PublicKey;
  ip_signing_key_verified : bool;
  ip_config : SessionConfig }.

Definition inbound_pickle (s : InboundGroupSession) : InboundGroupSessionPickle :=
  mkInboundPickle (ig_initial_ratchet s) (ig_signing_key s) (ig_signing_key_verified s) (ig_config s).

Definition inbound_from_pickle (p : InboundGroupSessionPickle) : InboundGroupSession :=
  mkInbound (ip_initial_ratchet p) (ip_initial_ratchet p) (ip_signing_key p) (ip_signing_key_verified p) (ip_config p).

End Messages.
