(* ===== verification/MegolmProps.v ===== *)
(** * Properties of Megolm sessions

    Integers are written as LEB128 without going out of range; messages and keys read back from
    their text; a receiver that holds a session from some index on decrypts every message sent
    from there on, in any order, to what was sent; sessions of one sender compare and merge by
    their first known index. [MegolmExample] is a concrete session. *)

From Stdlib Require Import Ascii.
From S2P Require Import Prelude Json CanonicalJson MegolmRatchet Megolm.

Local Open Scope Z_scope.

(** ** Variable-length integers *)

(** LEB128: seven bits at a time, low bits first, the top bit set on all but the last byte. *)
Fixpoint leb128 (fuel : nat) (n : Z) : list ascii :=
  match fuel with
  | 0%nat => []
  | S fuel => if n <? 128 then [byte n] else byte (128 + n mod 128) :: leb128 fuel (n / 128)
  end.

Lemma lor_msb n : byte (Z.lor MSB (n mod 256)) = byte (128 + n mod 128).
Proof.
  assert (Hall : forallb (λ k, Z.lor 128 (Z.of_nat k) =? 128 + Z.of_nat k mod 128) (seq 0 256) = true) by (vm_compute; reflexivity).
  rewrite forallb_forall in Hall. pose proof (Z.mod_pos_bound n 256 ltac:(lia)).
  specialize (Hall (Z.to_nat (n mod 256)) ltac:(apply in_seq; lia)). apply Z.eqb_eq in Hall.
  rewrite Z2Nat.id in Hall by lia. unfold MSB. rewrite Hall. do 2 f_equal. apply (Z.mod_mod_divide n 256 128). by exists 2.
Qed.

Lemma leb128_space fuel n k : 0 < n < 128 ^ Z.of_nat fuel → encoded_space_loop fuel n k = (k + length (leb128 fuel n))%nat.
Proof.
  revert n k. induction fuel as [|fuel IH]; intros n k Hn; [cbn in Hn; lia|].
  cbn [encoded_space_loop leb128]. destruct (Z.ltb_spec 0 n); [|lia]. rewrite Z.shiftr_div_pow2 by lia. change (2 ^ 7) with 128.
  destruct (Z.ltb_spec n 128).
  - rewrite Z.div_small by lia. destruct fuel; cbn; lia.
  - rewrite IH; [cbn [length]; lia|]. split; [apply Z.div_str_pos; lia|]. apply Z.div_lt_upper_bound; [lia|].
    rewrite Nat2Z.inj_succ, Z.pow_succ_r in Hn by lia. lia.
Qed.

Lemma write_at_mid done x rest b : write_at (done ++ x :: rest) (length done) b = Some (done ++ b :: rest).
Proof.
  unfold write_at. rewrite length_app. cbn [length]. destruct (Nat.ltb_spec (length done) (length done + S (length rest))); [|lia].
  by rewrite insert_app_r_alt, Nat.sub_diag by lia.
Qed.

Lemma var_int_loop_leb128 fuel n done :
  0 ≤ n < 128 ^ Z.of_nat fuel → (0 < fuel)%nat →
  var_int_loop fuel (done ++ replicate (length (leb128 fuel n)) (byte 0)) (length done) n = Some (done ++ leb128 fuel n).
Proof.
  revert n done. induction fuel as [|fuel IH]; intros n done Hn Hf; [lia|]. cbn [var_int_loop leb128].
  destruct (Z.leb_spec 0x80 n) as [Hle|Hlt]; destruct (Z.ltb_spec n 128); try lia; cbn [length replicate].
  - rewrite write_at_mid, lor_msb. cbn [mbind option_bind]. rewrite Z.shiftr_div_pow2 by lia. change (2 ^ 7) with 128.
    rewrite Nat2Z.inj_succ, Z.pow_succ_r in Hn by lia. destruct fuel as [|fuel]; [cbn in Hn; lia|].
    pose proof (IH (n / 128) (done ++ [byte (128 + n mod 128)])) as IHn. rewrite length_app, Nat.add_1_r, <- !app_assoc in IHn.
    apply IHn; [|lia]. split; [apply Z.div_pos; lia|apply Z.div_lt_upper_bound; lia].
  - apply write_at_mid.
Qed.

(** Writing an integer never indexes out of range, and writes its LEB128 form. *)
Lemma to_var_int_leb128 n : 0 ≤ n < u64_mod → to_var_int n = Some (String.string_of_list_ascii (leb128 10 n)).
Proof.
  intros Hn. unfold to_var_int, required_encoded_space_unsigned.
  assert (Hspace : (if n =? 0 then 1%nat else encoded_space_loop 10 n 0) = length (leb128 10 n)).
  { destruct (Z.eqb_spec n 0) as [-> |]; [reflexivity|]. apply leb128_space. unfold u64_mod in Hn.
    change (128 ^ Z.of_nat 10) with 1180591620717411303424. lia. }
  rewrite Hspace. pose proof (var_int_loop_leb128 10 n []) as Hl. cbn [app length] in Hl. rewrite Hl; [done| |lia].
  unfold u64_mod in Hn. change (128 ^ Z.of_nat 10) with 1180591620717411303424. lia.
Qed.

Lemma payload_total i c : 0 ≤ i < u32_mod → slen c < u64_mod → ∃ p, payload i c = Some p ∧ 2 ≤ slen p.
Proof.
  intros Hi Hc. unfold payload. rewrite !to_var_int_leb128 by (unfold u32_mod, u64_mod, slen in *; lia).
  eexists. split; [reflexivity|]. rewrite !slen_app. change (slen INDEX_TAG) with 1. change (slen CIPHER_TAG) with 1.
  unfold slen. lia.
Qed.

Section Megolm.
Context `{HmacSha256, !HmacSha256Laws, MegolmCrypto, !MegolmCryptoLaws, Ed25519, !Ed25519Keys, !Ed25519KeysLaws,
  MegolmWire, !MegolmWireLaws, !EqDecision Ed25519PublicKey}.

(** ** Messages *)

(** The messages the sender makes. *)
Definition sendable (m : MegolmMessage) : Prop :=
  mm_version m = MAC_TRUNCATED_VERSION ∧ 0 ≤ mm_message_index m < u32_mod ∧ slen (mm_ciphertext m) < u64_mod ∧
  ∃ tag, mm_mac m = Truncated tag ∧ slen tag = 8.

Lemma s_drop_suffix s t n : String.length t = n → s_drop (String.length (s +:+ t) - n) (s +:+ t) = t.
Proof.
  intros Hn. replace (String.length (s +:+ t) - n)%nat with (String.length s); [apply s_drop_app|].
  pose proof (slen_app s t) as Hl. unfold slen in Hl. lia.
Qed.

Lemma message_from_parts i c p tag sig :
  0 ≤ i < u32_mod → slen c < u64_mod → payload i c = Some p → 2 ≤ slen p → slen tag = 8 →
  message_from_bytes (String (byte MAC_TRUNCATED_VERSION) (p +:+ tag +:+ signature_to_bytes sig)) =
  Ok (mkMegolmMessage MAC_TRUNCATED_VERSION c i (Truncated tag) sig).
Proof.
  intros Hi Hc Hp Hpl Htag. set (sb := signature_to_bytes sig). pose proof (signature_len sig) as Hsig. fold sb in Hsig.
  set (b := String _ _).
  assert (Hb : b = byte_str MAC_TRUNCATED_VERSION +:+ p +:+ (tag +:+ sb)) by done.
  assert (Hb1 : b = (byte_str MAC_TRUNCATED_VERSION +:+ p +:+ tag) +:+ sb) by (rewrite Hb; by rewrite !s_app_assoc).
  assert (Hb2 : b = (byte_str MAC_TRUNCATED_VERSION +:+ p) +:+ (tag +:+ sb)) by (rewrite Hb; by rewrite !s_app_assoc).
  assert (Hlen : slen b = 73 + slen p).
  { rewrite Hb, !slen_app, Htag, Hsig. change (slen (byte_str MAC_TRUNCATED_VERSION)) with 1. lia. }
  unfold message_from_bytes. unfold b at 1. change (bval (byte MAC_TRUNCATED_VERSION)) with 3.
  change (3 =? VERSION) with false. change (3 =? MAC_TRUNCATED_VERSION) with true. cbv iota. clearbody b.
  change (Z.of_nat MESSAGE_TRUNCATED_SUFFIX_LENGTH) with 72. destruct (Z.ltb_spec (slen b) (72 + 2)); [lia|].
  rewrite Hb at 1. rewrite s_get_mid by (change (slen (byte_str MAC_TRUNCATED_VERSION)) with 1; lia). cbn [ok_or].
  rewrite (prost_reads_payload i c p) by done. cbn [map_err].
  rewrite Hb1 at 1 2. rewrite s_drop_suffix by (unfold slen, SIGNATURE_LENGTH in *; lia).
  unfold sb at 1. rewrite signature_roundtrip. cbn [map_err].
  rewrite Hb2. rewrite s_drop_suffix.
  - unfold extract_mac. replace Mac_TRUNCATED_LEN with (String.length tag) by (unfold slen in Htag; unfold Mac_TRUNCATED_LEN; lia).
    by rewrite s_take_app.
  - pose proof (slen_app tag sb) as Hts. unfold slen, MESSAGE_TRUNCATED_SUFFIX_LENGTH in *. lia.
Qed.

(** A message reads back from its text. *)
Lemma message_text_roundtrip m :
  sendable m → ∃ t, message_to_base64 m = Some t ∧ message_from_base64 t = Ok m.
Proof.
  destruct m as [v c i mac sig]. intros (Hv & Hi & Hc & tag & Hmac & Htag). cbn in Hv, Hi, Hc, Hmac. subst v mac.
  destruct (payload_total i c Hi Hc) as (p & Hp & Hpl).
  unfold message_to_base64, message_to_bytes, encode_message. cbn [mm_message_index mm_ciphertext mm_version mm_mac mm_signature]. rewrite Hp. cbn.
  eexists. split; [reflexivity|]. unfold message_from_base64. rewrite base64_wire_roundtrip. cbn [map_err].
  by apply message_from_parts.
Qed.

(** ** Keys *)

Lemma be_u32_roundtrip n : 0 ≤ n < u32_mod → from_be_u32 (to_be_u32 n) = n.
Proof.
  intros Hn. unfold from_be_u32, to_be_u32, bytes_of. rewrite String.list_ascii_of_string_of_list_ascii, rev_involutive,
    String.string_of_list_ascii_of_string. by apply from_to_le_bytes.
Qed.

Lemma be_u32_len n : slen (to_be_u32 n) = 4.
Proof.
  unfold to_be_u32, slen. assert (∀ l, String.length (String.string_of_list_ascii l) = length l) as -> by (induction l; cbn; congruence).
  rewrite length_rev. reflexivity.
Qed.

Lemma read_exact_app n s t : slen s = Z.of_nat n → read_exact n (s +:+ t) = Ok (s, t).
Proof.
  intros Hs. unfold read_exact. pose proof (slen_app s t) as Hl. unfold slen in *.
  destruct (Nat.leb_spec n (String.length (s +:+ t))); [|lia].
  replace n with (String.length s) by lia. by rewrite s_take_app, s_drop_app.
Qed.

(** A key the sender can make. *)
Definition key_ok (k : ExportedSessionKey) : Prop := 0 ≤ ek_ratchet_index k < u32_mod ∧ slen (ek_ratchet k) = 128.

Lemma decode_key_roundtrip k v rest :
  key_ok k → 0 ≤ v < 256 → decode_key v (to_bytes_with_version k v +:+ rest) = Ok (k, rest).
Proof.
  destruct k as [i r pk]. intros [Hi Hr] Hv. cbn in Hi, Hr. unfold decode_key, to_bytes_with_version.
  cbn [ek_ratchet_index ek_ratchet ek_signing_key]. rewrite !s_app_assoc.
  rewrite (read_exact_app 1) by done.
  assert (from_le_bytes (byte_str v) = v) as ->.
  { cbn [byte_str from_le_bytes]. unfold byte. rewrite bval_of_mod, Z.mod_small by done. lia. }
  rewrite Z.eqb_refl. cbn [negb]. rewrite (read_exact_app 4) by apply be_u32_len. rewrite (read_exact_app 128) by done.
  rewrite (read_exact_app 32) by apply public_len. rewrite public_roundtrip. cbn [map_err]. by rewrite be_u32_roundtrip.
Qed.

Lemma exported_text_roundtrip k : key_ok k → exported_from_base64 (exported_to_base64 k) = Ok k.
Proof.
  intros Hk. unfold exported_from_base64, exported_to_base64. rewrite base64ct_roundtrip. cbn [map_err].
  unfold exported_from_bytes, exported_to_bytes. pose proof (decode_key_roundtrip k EXPORTED_VERSION EmptyString Hk ltac:(done)) as Hd.
  rewrite s_app_nil_r in Hd. by rewrite Hd.
Qed.

Lemma session_key_text_roundtrip k :
  key_ok (sk_session_key k) →
  verify (ek_signing_key (sk_session_key k)) (key_signature_bytes (sk_session_key k)) (sk_signature k) = Ok tt →
  session_key_from_base64 (session_key_to_base64 k) = Ok k.
Proof.
  destruct k as [k sig]. cbn [sk_session_key sk_signature]. intros Hk Hsig.
  unfold session_key_from_base64, session_key_to_base64. rewrite base64ct_roundtrip. cbn [map_err].
  unfold session_key_from_bytes, session_key_to_bytes. cbn [sk_session_key sk_signature]. unfold key_signature_bytes at 1.
  rewrite decode_key_roundtrip by done. pose proof (signature_len sig) as Hl.
  pose proof (read_exact_app 64 (signature_to_bytes sig) EmptyString Hl) as Hr. rewrite s_app_nil_r in Hr.
  unfold SIGNATURE_LENGTH. rewrite Hr, signature_roundtrip. cbn [map_err].
  replace (String.length (key_signature_bytes k +:+ signature_to_bytes sig) - 64)%nat with (String.length (key_signature_bytes k)).
  - by rewrite s_take_app, Hsig.
  - pose proof (slen_app (key_signature_bytes k) (signature_to_bytes sig)). unfold slen in *. lia.
Qed.

(** ** Sessions *)

Definition parts_ok (p : RatchetParts) : Prop := slen (r_0 p) = 32 ∧ slen (r_1 p) = 32 ∧ slen (r_2 p) = 32 ∧ slen (r_3 p) = 32.

Lemma update_ok p i j : parts_ok p → parts_ok (update p i j).
Proof.
  intros (H0' & H1' & H2' & H3'). unfold update, hash. destruct j as [|[|[|j]]]; cbn [set_part]; unfold parts_ok; cbn;
    rewrite ?hmac_sha256_len; auto.
Qed.

Lemma update_down_ok p h : parts_ok p → parts_ok (update_down p h).
Proof. unfold update_down. generalize (rev (seq h (S LAST_RATCHET_INDEX - h))). intros l. revert p. induction l; cbn; auto using update_ok. Qed.

Lemma iter_ok n r : parts_ok (inner r) → parts_ok (inner (Nat.iter n advance r)).
Proof.
  intros Hp. induction n as [|n IH]; [done|]. rewrite Nat.iter_succ, advance_spec. by apply update_down_ok.
Qed.

Lemma parts_of_as_bytes r : parts_ok (inner r) → parts_of (as_bytes r) = inner r.
Proof.
  destruct r as [[a b c d] n]. unfold parts_ok, parts_of, as_bytes. cbn [inner r_0 r_1 r_2 r_3]. intros (Ha & Hb & Hc & Hd).
  assert (Hab : (64 = String.length (a +:+ b))%nat) by (pose proof (slen_app a b); unfold slen in *; lia).
  rewrite <- s_app_assoc, Hab, s_take_app, s_drop_app.
  replace 32%nat with (String.length a) at 1 2 by (unfold slen in *; lia).
  replace 32%nat with (String.length c) by (unfold slen in *; lia).
  by rewrite !s_take_app, !s_drop_app.
Qed.

Lemma ratchet_bytes_roundtrip r : parts_ok (inner r) → ratchet_from_bytes (as_bytes r) (counter r) = r.
Proof. intros Hp. unfold ratchet_from_bytes. rewrite parts_of_as_bytes by done. by destruct r. Qed.

Lemma as_bytes_len r : parts_ok (inner r) → slen (as_bytes r) = 128.
Proof. unfold as_bytes, parts_ok. intros (? & ? & ? & ?). rewrite !slen_app. lia. Qed.

(** The sender's ratchet after [k] messages. *)
Definition sender_ratchet (g : GroupSession) (k : nat) : Ratchet := Nat.iter k advance (gs_ratchet g).

Definition group_ok (g : GroupSession) : Prop := is_u32 (counter (gs_ratchet g)) ∧ parts_ok (inner (gs_ratchet g)).

(** Message [k] has a number that fits the counter. *)
Definition in_range (g : GroupSession) (k : nat) : Prop := message_index g + Z.of_nat k < u32_mod.

(** [s] can read everything [g] sends from its message [i] on. *)
Definition follows (g : GroupSession) (i : nat) (s : InboundGroupSession) : Prop :=
  ig_signing_key s = public_key (gs_signing_key g) ∧ ig_config s = gs_config g ∧ in_range g i ∧
  ig_initial_ratchet s = sender_ratchet g i ∧
  ∃ l, (i ≤ l)%nat ∧ in_range g l ∧ ig_latest_ratchet s = sender_ratchet g l.

Lemma sender_counter g k : group_ok g → in_range g k → counter (sender_ratchet g k) = message_index g + Z.of_nat k.
Proof.
  intros [Hc _] Hk. unfold sender_ratchet, in_range, message_index, ratchet_index in *. rewrite iter_counter by done.
  apply Z.mod_small. unfold is_u32 in Hc. lia.
Qed.

Lemma sender_advance g i k :
  group_ok g → in_range g k → (i ≤ k)%nat → ratchet_advance_to (sender_ratchet g i) (message_index g + Z.of_nat k) = sender_ratchet g k.
Proof.
  intros Hg Hk Hi. assert (Hir : in_range g i) by (unfold in_range in *; lia). pose proof (sender_counter g i Hg Hir) as Hci.
  destruct Hg as [Hc Hp]. unfold in_range, message_index, ratchet_index, is_u32 in *.
  rewrite advance_to_iter, Hci by (unfold is_u32; rewrite ?Hci; lia).
  rewrite Z.mod_small by lia. unfold sender_ratchet. rewrite <- Nat.iter_add. f_equal. lia.
Qed.

(** Finding the ratchet of any message from the first known one on, whatever was read before. *)
Lemma find_ratchet_follows g i s k :
  group_ok g → follows g i s → in_range g k → (i ≤ k)%nat →
  ∃ s', find_ratchet s (message_index g + Z.of_nat k) = (s', Some (sender_ratchet g k)) ∧ follows g i s' ∧
    ig_initial_ratchet s' = ig_initial_ratchet s ∧ ig_signing_key_verified s' = ig_signing_key_verified s.
Proof.
  intros Hg (Hkey & Hcfg & Hir & Hinit & l & Hil & Hlr & Hlat) Hk Hik. unfold find_ratchet, ratchet_index.
  rewrite Hinit, Hlat, !sender_counter by done.
  assert (Hsame : follows g i s) by (repeat split; eauto).
  assert (Hnew : follows g i (with_latest s (sender_ratchet g k))) by (repeat split; eauto).
  destruct (Z.eqb_spec (message_index g + Z.of_nat i) (message_index g + Z.of_nat k)) as [He|Hne].
  { replace k with i by lia. eauto. }
  destruct (Z.eqb_spec (message_index g + Z.of_nat l) (message_index g + Z.of_nat k)) as [He|Hne2].
  { replace k with l by lia. eauto. }
  destruct (Z.ltb_spec (message_index g + Z.of_nat l) (message_index g + Z.of_nat k)).
  { rewrite sender_advance by (done || lia). eauto. }
  destruct (Z.ltb_spec (message_index g + Z.of_nat i) (message_index g + Z.of_nat k)); [|lia].
  rewrite sender_advance by (done || lia). eauto.
Qed.

Lemma find_ratchet_before g i s n :
  group_ok g → follows g i s → n < message_index g + Z.of_nat i → find_ratchet s n = (s, None).
Proof.
  intros Hg (_ & _ & Hir & Hinit & l & Hil & Hlr & Hlat) Hn. unfold find_ratchet, ratchet_index.
  rewrite Hinit, Hlat, !sender_counter by done.
  destruct (Z.eqb_spec (message_index g + Z.of_nat i) n); [lia|]. destruct (Z.eqb_spec (message_index g + Z.of_nat l) n); [lia|].
  destruct (Z.ltb_spec (message_index g + Z.of_nat l) n); [lia|]. by destruct (Z.ltb_spec (message_index g + Z.of_nat i) n); [lia|].
Qed.

(** The sender's session after [k] messages, and its next message. *)
Definition group_at (g : GroupSession) (k : nat) : GroupSession :=
  mkGroupSession (sender_ratchet g k) (gs_signing_key g) (gs_config g).

Lemma sent_message_opens g k plaintext m g' s s' :
  group_ok g → in_range g k → group_encrypt (group_at g k) plaintext = Some (g', m) →
  ig_signing_key s = public_key (gs_signing_key g) → ig_config s' = gs_config g →
  find_ratchet s (message_index g + Z.of_nat k) = (s', Some (sender_ratchet g k)) →
  inbound_decrypt s m = Some (s', Ok (mkDecryptedMessage plaintext (message_index g + Z.of_nat k))).
Proof.
  intros Hg Hk Henc Hkey Hcfg Hfind. unfold group_encrypt, encrypt_truncated_mac in Henc.
  assert (Hidx : message_index (group_at g k) = message_index g + Z.of_nat k) by (apply sender_counter; done).
  rewrite Hidx in Henc. change (gs_config (group_at g k)) with (gs_config g) in Henc.
  change (gs_signing_key (group_at g k)) with (gs_signing_key g) in Henc.
  change (gs_ratchet (group_at g k)) with (sender_ratchet g k) in Henc.
  set (c := new_megolm _) in *. set (ct := cipher_encrypt c plaintext) in *. destruct (config_version (gs_config g)) eqn:Hv.
  destruct (payload (message_index g + Z.of_nat k) ct) as [p|] eqn:Hp; [|done]. cbn [mbind option_bind] in Henc.
  injection Henc as _ <-. unfold inbound_decrypt, to_signature_bytes, to_mac_bytes, encode_message.
  cbn [mm_version mm_ciphertext mm_message_index mm_mac mm_signature]. rewrite Hp. cbn [mbind option_bind].
  rewrite Hkey, verify_sign, Hfind. fold c. unfold verify_mac. rewrite Hcfg, Hv. cbn [mm_mac].
  set (enc := byte_str MAC_TRUNCATED_VERSION +:+ p).
  assert (Hl : slen (truncate (cipher_mac c enc)) = 8).
  { unfold truncate, cipher_mac. rewrite slen_take; [done|]. pose proof (hmac_sha256_len (mac_key c) enc) as Hh.
    unfold slen, Mac_TRUNCATED_LEN in *. lia. }
  unfold verify_truncated_mac. rewrite Hl. cbn [Z.ltb Z.leb Z.compare Pos.compare Pos.compare_cont andb].
  replace (String.length (truncate (cipher_mac c enc))) with Mac_TRUNCATED_LEN by (unfold slen in Hl; unfold Mac_TRUNCATED_LEN; lia).
  rewrite bool_decide_true by done. unfold ct, cipher_encrypt, cipher_decrypt. by rewrite aes_roundtrip.
Qed.

Lemma group_encrypt_total g k plaintext :
  group_ok g → in_range g k → slen (cipher_encrypt (new_megolm (as_bytes (sender_ratchet g k))) plaintext) < u64_mod →
  ∃ m, group_encrypt (group_at g k) plaintext = Some (group_at g (S k), m) ∧ sendable m.
Proof.
  intros Hg Hk Hlen. unfold group_encrypt, encrypt_truncated_mac.
  assert (Hidx : message_index (group_at g k) = message_index g + Z.of_nat k) by (apply sender_counter; done).
  rewrite Hidx. change (gs_config (group_at g k)) with (gs_config g). change (gs_ratchet (group_at g k)) with (sender_ratchet g k).
  set (c := new_megolm _) in *. set (ct := cipher_encrypt c plaintext) in *. destruct (config_version (gs_config g)).
  assert (Hi : 0 ≤ message_index g + Z.of_nat k < u32_mod).
  { destruct Hg as [Hc _]. unfold in_range, message_index, ratchet_index, is_u32 in *. lia. }
  destruct (payload_total _ ct Hi Hlen) as (p & Hp & _). rewrite Hp. cbn [mbind option_bind].
  eexists. split; [unfold group_at, sender_ratchet; rewrite Nat.iter_succ; reflexivity|].
  split; [done|]. split; [exact Hi|]. split; [exact Hlen|]. eexists. split; [reflexivity|].
  unfold truncate, cipher_mac. rewrite slen_take; [done|]. set (enc := _ +:+ p).
  pose proof (hmac_sha256_len (mac_key c) enc) as Hh. unfold slen, Mac_TRUNCATED_LEN in *. lia.
Qed.

(** The receiver's copy of the sender's key, through its text. *)
Lemma shared_key_follows g k :
  group_ok g → in_range g k →
  session_key_from_base64 (session_key_to_base64 (group_session_key (group_at g k))) = Ok (group_session_key (group_at g k)) ∧
  follows g k (inbound_new (group_session_key (group_at g k)) (gs_config g)).
Proof.
  intros Hg Hk. pose proof (iter_ok k _ (proj2 Hg)) as Hp. change (Nat.iter k advance (gs_ratchet g)) with (sender_ratchet g k) in Hp.
  split.
  - apply session_key_text_roundtrip; cbn [group_session_key sk_session_key sk_signature].
    + split; cbn; [|by apply as_bytes_len]. unfold ratchet_index. rewrite sender_counter by done.
      destruct Hg as [Hc _]. unfold in_range, message_index, ratchet_index, is_u32 in *. lia.
    + apply verify_sign.
  - unfold inbound_new, group_session_key, follows. cbn. unfold ratchet_index. rewrite ratchet_bytes_roundtrip by done.
    repeat split; eauto.
Qed.

(** Whoever holds a sender's session from some message on reads everything sent from there on: the key survives
    its text form, and in whatever order messages arrive, each one, also through its text form, decrypts to exactly
    what was sent under exactly its index, after which the session still reads all of them. *)
Theorem recipients_read_what_is_sent g i k plaintext s :
  group_ok g → follows g i s → (i ≤ k)%nat → in_range g k →
  slen (cipher_encrypt (new_megolm (as_bytes (sender_ratchet g k))) plaintext) < u64_mod →
  ∃ m text s', group_encrypt (group_at g k) plaintext = Some (group_at g (S k), m) ∧
    message_to_base64 m = Some text ∧ message_from_base64 text = Ok m ∧
    inbound_decrypt s m = Some (s', Ok (mkDecryptedMessage plaintext (message_index g + Z.of_nat k))) ∧ follows g i s'.
Proof.
  intros Hg Hf Hik Hk Hlen. destruct (group_encrypt_total g k plaintext Hg Hk Hlen) as (m & Henc & Hm).
  destruct (message_text_roundtrip m Hm) as (t & Ht & Ht'). destruct (find_ratchet_follows g i s k Hg Hf Hk Hik) as (s' & Hfind & Hf' & _).
  exists m, t, s'. split_and!; [done..| |done].
  eapply sent_message_opens; [done|done|exact Henc|apply Hf|apply Hf'|exact Hfind].
Qed.

(** ** Comparing and merging *)

Definition ordering_of (i j : nat) : SessionOrdering :=
  match Nat.compare i j with Lt => OrdBetter | Eq => OrdEqual | Gt => OrdWorse end.

Lemma ct_eq_refl r : ct_eq r r = true.
Proof. unfold ct_eq. rewrite Z.eqb_refl. cbn. by apply bool_decide_eq_true. Qed.

Lemma connected_follows g i j s t :
  group_ok g → follows g i s → follows g j t →
  ∃ s' t', connected s t = (s', t', Some true) ∧ follows g i s' ∧ follows g j t' ∧
    ig_signing_key_verified s' = ig_signing_key_verified s ∧ ig_signing_key_verified t' = ig_signing_key_verified t.
Proof.
  intros Hg Hs Ht. pose proof Hs as (Ks & Cs & Rs & Is & _). pose proof Ht as (Kt & Ct & Rt & It & _).
  unfold connected. rewrite Ks, Kt, Cs, Ct, !bool_decide_true by done. cbn [negb orb].
  unfold first_known_index, ratchet_index. rewrite It, sender_counter by done.
  destruct (decide (i ≤ j)%nat) as [Hle|Hgt].
  - destruct (find_ratchet_follows g i s j Hg Hs Rt Hle) as (s' & -> & Hs' & _ & Hv). rewrite ct_eq_refl. exists s', t. auto.
  - rewrite (find_ratchet_before g i s) by (done || lia). rewrite Is, sender_counter by done.
    destruct (find_ratchet_follows g j t i Hg Ht Rs ltac:(lia)) as (t' & -> & Ht' & _ & Hv). rewrite ct_eq_refl. exists s, t'. auto.
Qed.

Lemma compare_follows g i j s t :
  group_ok g → follows g i s → follows g j t →
  ∃ s' t', compare s t = (s', t', Some (ordering_of i j)) ∧ follows g i s' ∧ follows g j t' ∧
    ig_signing_key_verified s' = ig_signing_key_verified s ∧ ig_signing_key_verified t' = ig_signing_key_verified t.
Proof.
  intros Hg Hs Ht. destruct (connected_follows g i j s t Hg Hs Ht) as (s' & t' & Hc & Hs' & Ht' & Hv).
  exists s', t'. unfold compare. rewrite Hc. split; [|done]. do 2 f_equal.
  pose proof Hs' as (_ & _ & Rs & Is & _). pose proof Ht' as (_ & _ & Rt & It & _).
  unfold first_known_index, ratchet_index, ordering_of. rewrite Is, It, !sender_counter by done.
  destruct (Z.compare_spec (message_index g + Z.of_nat i) (message_index g + Z.of_nat j)), (Nat.compare_spec i j); (done || lia).
Qed.

(** The arm the code calls unreachable is. *)
Lemma connected_total s t : ∃ s' t' b, connected s t = (s', t', Some b).
Proof.
  unfold connected. destruct (negb _ || negb _); [by eauto|].
  unfold find_ratchet at 1, first_known_index, ratchet_index.
  destruct (Z.eqb_spec (counter (ig_initial_ratchet s)) (counter (ig_initial_ratchet t))); [by eauto|].
  destruct (counter (ig_latest_ratchet s) =? _); [by eauto|]. destruct (counter (ig_latest_ratchet s) <? _); [by eauto|].
  destruct (Z.ltb_spec (counter (ig_initial_ratchet s)) (counter (ig_initial_ratchet t))); [by eauto|].
  unfold find_ratchet, ratchet_index. destruct (Z.eqb_spec (counter (ig_initial_ratchet t)) (counter (ig_initial_ratchet s))); [by eauto|].
  destruct (counter (ig_latest_ratchet t) =? _); [by eauto|]. destruct (counter (ig_latest_ratchet t) <? _); [by eauto|].
  destruct (Z.ltb_spec (counter (ig_initial_ratchet t)) (counter (ig_initial_ratchet s))); [by eauto|lia].
Qed.

(** Copies of one sender's session, received with different first indices and used in any way since, compare by
    their first known index and merge into a session that reads from the earlier of the two on, trusted if either
    was; comparing two sessions never reaches the arm marked unreachable. *)
Theorem sessions_merge_to_the_earlier g i j s t :
  group_ok g → follows g i s → follows g j t →
  (compare s t).2 = Some (ordering_of i j) ∧
  (∃ m, (merge s t).2 = Some (Some m) ∧ follows g (min i j) m ∧
     ig_signing_key_verified m = ig_signing_key_verified s || ig_signing_key_verified t) ∧
  ∀ u w : InboundGroupSession, (compare u w).2 ≠ None.
Proof.
  intros Hg Hs Ht. destruct (compare_follows g i j s t Hg Hs Ht) as (s' & t' & Hc & Hs' & Ht' & Vs & Vt).
  split; [by rewrite Hc|]. split.
  - unfold merge. rewrite Hc. cbn [snd]. rewrite Vs, Vt.
    destruct Hs' as (Ks & Cs & Rs & Is & _). destruct Ht' as (_ & _ & Rt & It & _). unfold ordering_of.
    destruct (Nat.compare_spec i j); eexists; (split; [reflexivity|]); (split; [|done]); unfold follows; cbn.
    + replace (i `min` j)%nat with i by lia. repeat split; eauto.
    + replace (i `min` j)%nat with i by lia. repeat split; eauto.
    + replace (i `min` j)%nat with j by lia. repeat split; eauto.
  - intros u w. unfold compare. destruct (connected_total u w) as (u' & w' & b & ->). by destruct b.
Qed.

End Megolm.

(** * Concrete Megolm sessions

    Instances of the classes Megolm is built over, small but lawful, and the witnesses of the
    Megolm theorems at concrete sessions. The reader of a message's payload is a protobuf reader
    for its two fields. *)

From S2P Require Import Primitives.

Module MegolmExample.

#[export] Instance example_hmac : HmacSha256 := {| hmac_sha256 key message := Concrete.digest (key +:+ "|" +:+ message) |}.

#[export] Instance example_hmac_laws : HmacSha256Laws.
Proof. split. intros key message. apply length_to_le_bytes. Qed.

#[export] Instance example_crypto : MegolmCrypto := {|
  hkdf_sha256 _ key info n := s_take n (key +:+ info);
  aes256_cbc_encrypt _ _ plaintext := String "#"%char plaintext;
  aes256_cbc_decrypt _ _ ciphertext := strip_prefix "#" ciphertext
|}.

#[export] Instance example_crypto_laws : MegolmCryptoLaws.
Proof. split. intros. cbn. reflexivity. Qed.

(** Two key pairs; a signature names its key. *)
#[export] Instance example_ed25519 : Ed25519 := {|
  Ed25519Signature := bool;
  Ed25519PublicKey := bool;
  to_base64 s := if s then "1" else "0";
  from_base64 t := if bool_decide (t = "1") then Ok true else if bool_decide (t = "0") then Ok false else Err "signature";
  verify k _ s := if bool_decide (k = s) then Ok tt else Err "signature"
|}.

#[export] Instance example_public_eq_dec : EqDecision Ed25519PublicKey.
Proof. intros x y. exact (bool_eq_dec x y). Defined.

Fixpoint repeated (n : nat) (c : ascii) : string := match n with 0%nat => EmptyString | S n => String c (repeated n c) end.

Definition bit_bytes (n : nat) (b : bool) : string := repeated n (if b then "1"%char else "0"%char).

Definition bit_from (n : nat) (s : string) : result bool string :=
  if bool_decide (s = bit_bytes n true) then Ok true else if bool_decide (s = bit_bytes n false) then Ok false else Err "bytes".

#[export] Instance example_keys : Ed25519Keys := {|
  Ed25519Keypair := bool;
  public_key k := k;
  keypair_sign k _ := k;
  public_as_bytes := bit_bytes 32;
  public_from_slice := bit_from 32;
  signature_to_bytes := bit_bytes 64;
  signature_from_slice := bit_from 64
|}.

#[export] Instance example_keys_laws : Ed25519KeysLaws.
Proof. split; [|by intros []..]. intros k m. cbn. by rewrite bool_decide_true. Qed.

(** A LEB128 integer and what follows it. *)
Fixpoint read_leb128 (fuel : nat) (s : string) : option (Z * string) :=
  match fuel, s with
  | S fuel, String a s =>
      if bval a <? 128 then Some (bval a, s) else '(n, s) ← read_leb128 fuel s; Some (bval a - 128 + 128 * n, s)
  | _, _ => None
  end.

Definition read_payload (s : string) : option (Z * string) :=
  s ← strip_prefix INDEX_TAG s;
  '(index, s) ← read_leb128 10 s;
  s ← strip_prefix CIPHER_TAG s;
  '(len, s) ← read_leb128 10 s;
  if slen s =? len then Some (index, s) else None.

Lemma read_leb128_app fuel n rest :
  0 ≤ n < 128 ^ Z.of_nat fuel → (0 < fuel)%nat →
  read_leb128 fuel (String.string_of_list_ascii (leb128 fuel n) +:+ rest) = Some (n, rest).
Proof.
  revert n. induction fuel as [|fuel IH]; intros n Hn Hf; [lia|]. cbn [leb128].
  assert (Hbyte : ∀ m, 0 ≤ m < 256 → bval (byte m) = m).
  { intros m Hm. unfold byte. rewrite bval_of_mod. by apply Z.mod_small. }
  destruct (Z.ltb_spec n 128); cbn [String.string_of_list_ascii]; rewrite s_app_cons; cbn [read_leb128].
  - rewrite Hbyte by lia. destruct (Z.ltb_spec n 128); [done|lia].
  - pose proof (Z.mod_pos_bound n 128 ltac:(lia)). rewrite Hbyte by lia. destruct (Z.ltb_spec (128 + n mod 128) 128); [lia|].
    rewrite Nat2Z.inj_succ, Z.pow_succ_r in Hn by lia. destruct fuel as [|fuel]; [cbn in Hn; lia|].
    rewrite IH; [|split; [apply Z.div_pos; lia|apply Z.div_lt_upper_bound; lia]|lia]. cbn [mbind option_bind].
    do 2 f_equal. pose proof (Z.div_mod n 128 ltac:(lia)). lia.
Qed.

(** Text eleven characters longer than the bytes, which is how much longer a key gets. *)
Definition text_encode (s : string) : string := s +:+ repeated 11 "="%char.

Definition text_decode (s : string) : result string string :=
  if 11 <=? slen s then Ok (s_take (String.length s - 11) s) else Err "base64".

Lemma text_roundtrip s : text_decode (text_encode s) = Ok s.
Proof.
  unfold text_decode, text_encode. rewrite slen_app. change (slen (repeated 11 "="%char)) with 11.
  destruct (Z.leb_spec 11 (slen s + 11)); [|unfold slen in *; lia]. do 2 f_equal.
  assert (String.length (s +:+ repeated 11 "="%char) - 11 = String.length s)%nat as ->; [|apply s_take_app].
  pose proof (slen_app s (repeated 11 "="%char)) as Hl. change (slen (repeated 11 "="%char)) with 11 in Hl. unfold slen in Hl. lia.
Qed.

#[export] Instance example_wire : MegolmWire := {|
  base64_encode := text_encode;
  base64_decode := text_decode;
  base64ct_encode s := s;
  base64ct_decode s := Ok s;
  prost_decode s := ok_or (read_payload s) "protobuf"
|}.

Lemma read_payload_payload i c p : 0 ≤ i < u32_mod → slen c < u64_mod → payload i c = Some p → read_payload p = Some (i, c).
Proof.
  intros Hi Hc Hp. unfold payload in Hp.
  assert (0 ≤ slen c) by (unfold slen; lia). unfold u32_mod, u64_mod in *.
  rewrite !to_var_int_leb128 in Hp by (unfold u64_mod; lia). cbn [mbind option_bind] in Hp. apply (inj Some) in Hp. rewrite <- Hp.
  unfold read_payload. rewrite strip_prefix_app. cbn [mbind option_bind].
  change (128 ^ Z.of_nat 10) with 1180591620717411303424 in *.
  rewrite read_leb128_app by (change (128 ^ Z.of_nat 10) with 1180591620717411303424; lia). cbn [mbind option_bind].
  rewrite strip_prefix_app. cbn [mbind option_bind].
  rewrite read_leb128_app by (change (128 ^ Z.of_nat 10) with 1180591620717411303424; lia). cbn [mbind option_bind].
  by rewrite Z.eqb_refl.
Qed.

#[export] Instance example_wire_laws : MegolmWireLaws.
Proof.
  split; [apply text_roundtrip|done|]. intros i c p Hi Hc Hp. cbn [prost_decode example_wire]. by rewrite (read_payload_payload i c p).
Qed.

Definition sender : GroupSession := GroupSession_new version_1 true (repeated 128 "r"%char).

(** A receiver whose key was taken after two messages. *)
Definition receiver : InboundGroupSession := inbound_new (group_session_key (group_at sender 2)) version_1.
Definition early_receiver : InboundGroupSession := inbound_new (group_session_key sender) version_1.

Lemma sender_ok : group_ok sender.
Proof. split; [done|]. vm_compute. auto. Qed.

Lemma receiver_follows : follows sender 2 receiver.
Proof. apply shared_key_follows; [apply sender_ok|vm_compute; done]. Qed.

Lemma early_follows : follows sender 0 early_receiver.
Proof. apply (shared_key_follows sender 0); [apply sender_ok|vm_compute; done]. Qed.

Lemma advance_to_is_iterated_advance_witness :
  ratchet_advance_to (sender_ratchet sender 255) 260 = Nat.iter 5 advance (sender_ratchet sender 255).
Proof.
  pose proof (advance_to_is_iterated_advance (sender_ratchet sender 255) 260) as Ha.
  assert (Hc : counter (sender_ratchet sender 255) = 255) by (apply (sender_counter sender 255); [apply sender_ok|vm_compute; done]).
  rewrite Hc in Ha. change (Z.to_nat ((260 - 255) mod u32_mod)) with 5%nat in Ha.
  refine (Ha _ _); split; done.
Defined.

Lemma recipients_read_what_is_sent_witness :
  ∃ m text s', group_encrypt (group_at sender 5) "hello" = Some (group_at sender 6, m) ∧
    message_to_base64 m = Some text ∧ message_from_base64 text = Ok m ∧
    inbound_decrypt receiver m = Some (s', Ok (mkDecryptedMessage "hello" 5)) ∧ follows sender 2 s'.
Proof.
  apply (recipients_read_what_is_sent sender 2 5 "hello" receiver);
    [apply sender_ok|apply receiver_follows|lia|vm_compute; done|vm_compute; done].
Defined.

Lemma sessions_merge_to_the_earlier_witness :
  (compare receiver early_receiver).2 = Some OrdWorse ∧
  ∃ m, (merge receiver early_receiver).2 = Some (Some m) ∧ follows sender 0 m.
Proof.
  destruct (sessions_merge_to_the_earlier sender 2 0 receiver early_receiver sender_ok receiver_follows early_follows)
    as (Hc & (m & Hm & Hf & _) & _).
  split; [exact Hc|]. exists m. split; [exact Hm|exact Hf].
Defined.

End MegolmExample.
