(* ===== verification/Olm.v ===== *)
(** * Olm sessions (crates/mail4agent-vodozemac/src/olm/)

    The double ratchet: the three-way key agreement that starts a session, chain keys and root
    keys, the sending ratchet, receiver chains with their stash of skipped message keys, the
    messages and a session's [encrypt] and [decrypt]. Keys made from randomness are arguments.
    [ChainKey] and [RemoteChainKey] have the same fields and steps, as have [RootKey] and
    [RemoteRootKey]; one type stands for both. Curve25519 is the class [Curve25519], the derived
    [prost] readers are [OlmProst]. A [u64] index wraps, as in a release build. The types
    [SessionPickle] and [Session] have the same fields, so a pickle is the session. *)

From Stdlib Require Import Ascii.
From S2P Require Import Prelude Primitives MegolmRatchet Megolm.

Local Open Scope Z_scope.

(** ** Other crates *)

(** [x25519_dalek] *)
Class Curve25519 := {
  Curve25519SecretKey : Type;
  Curve25519PublicKey : Type;
  curve_public : Curve25519SecretKey → Curve25519PublicKey;
  x25519 : Curve25519SecretKey → Curve25519PublicKey → string;
  was_contributory : string → bool;
  curve_as_bytes : Curve25519PublicKey → string;
  curve_from_array : string → Curve25519PublicKey
}.

Class Curve25519Laws `{Curve25519} : Prop := {
  x25519_agrees a b : x25519 a (curve_public b) = x25519 b (curve_public a);
  x25519_honest a b : was_contributory (x25519 a (curve_public b)) = true;
  curve_bytes_roundtrip k : curve_from_array (curve_as_bytes k) = k;
  curve_bytes_len k : slen (curve_as_bytes k) = 32
}.

(** The derived implementations of [prost::Message] for the two messages, and [base64]'s estimate. *)
Class OlmProst := {
  prost_decode_message : string → result (string * Z * string) string;
  prost_encode_prekey : string → string → string → string → string;
  prost_decode_prekey : string → result (string * string * string * string) string;
  decoded_len_estimate : Z → Z
}.

(** ** Public keys (types/curve25519.rs) *)

Section Keys.
Context `{Curve25519} `{MegolmWire} `{OlmProst}.

Definition diffie_hellman (k : Curve25519SecretKey) (their_public_key : Curve25519PublicKey) : option string :=
  let shared_secret := x25519 k their_public_key in
  if was_contributory shared_secret then Some shared_secret else None.

Definition CURVE_LENGTH : Z := 32.

Definition curve_from_slice (slice : string) : result Curve25519PublicKey KeyError :=
  if slen slice =? CURVE_LENGTH then Ok (curve_from_array slice)
  else Err (InvalidKeyLength "Curve25519" CURVE_LENGTH (slen slice)).

Definition curve_from_base64 (input : string) : result Curve25519PublicKey KeyError :=
  if negb (slen input =? 43) && negb (slen input =? 44)
  then Err (InvalidKeyLength "Curve25519" CURVE_LENGTH (decoded_len_estimate (slen input)))
  else let? key := map_err KeyBase64Error (base64_decode input) in curve_from_slice key.

Definition curve_to_base64 (k : Curve25519PublicKey) : string := base64_encode (curve_as_bytes k).

End Keys.

(** ** Session configuration (olm/session_config.rs) *)

Inductive OlmVersion := OlmV1.
Record OlmSessionConfig := mkOlmConfig { olm_config_version : OlmVersion }.
Definition olm_version_1 : OlmSessionConfig := mkOlmConfig OlmV1.

#[export] Instance OlmSessionConfig_eq_dec : EqDecision OlmSessionConfig.
Proof. intros [[]] [[]]. by left. Defined.

(** ** Messages (olm/messages/) *)

Definition RATCHET_TAG : string := byte_str 10.
Definition CHAIN_INDEX_TAG : string := byte_str 16.
Definition CIPHERTEXT_TAG : string := byte_str 34.

(** [to_var_int] of a [u64], which is always in range. *)
Definition var_int (n : Z) : string := default EmptyString (to_var_int n).

(** [ProtoBufMessage::encode_manual], after the version byte. *)
Definition olm_payload (ratchet_key : string) (chain_index : Z) (ciphertext : string) : string :=
  RATCHET_TAG +:+ var_int (slen ratchet_key) +:+ ratchet_key +:+
  CHAIN_INDEX_TAG +:+ var_int chain_index +:+
  CIPHERTEXT_TAG +:+ var_int (slen ciphertext) +:+ ciphertext.

Class OlmProstLaws `{OlmProst} : Prop := {
  prost_reads_message k i c : slen k < u64_mod → 0 ≤ i < u64_mod → slen c < u64_mod →
    prost_decode_message (olm_payload k i c) = Ok (k, i, c);
  prost_reads_prekey otk base identity message :
    prost_decode_prekey (prost_encode_prekey otk base identity message) = Ok (otk, base, identity, message)
}.

Section Messages.
Context `{Primitives} `{Curve25519} `{MegolmWire} `{OlmProst}.

Record Message := mkMessage {
  msg_version : Z;
  msg_ratchet_key : Curve25519PublicKey;
  msg_chain_index : Z;
  msg_ciphertext : string;
  msg_mac : MessageMac }.

(** [Message::encode], which is also [to_mac_bytes]. *)
Definition olm_encode (m : Message) : string :=
  byte_str (msg_version m) +:+ olm_payload (curve_as_bytes (msg_ratchet_key m)) (msg_chain_index m) (msg_ciphertext m).

Definition olm_to_bytes (m : Message) : string := olm_encode m +:+ mac_as_bytes (msg_mac m).

(** [TryFrom<&[u8]> for Message] *)
Definition olm_from_bytes (value : string) : result Message DecodeError :=
  match value with
  | EmptyString => Err MissingVersion
  | String v _ =>
      let version := bval v in
      let? mac_length :=
        if version =? VERSION then Ok Mac_LENGTH
        else if version =? MAC_TRUNCATED_VERSION then Ok Mac_TRUNCATED_LEN
        else Err (InvalidVersion VERSION version) in
      if slen value <? Z.of_nat mac_length + 2 then Err (MessageTooShort (slen value))
      else
        let? payload := ok_or (s_get value 1 (slen value - Z.of_nat mac_length)) (MessageTooShort (slen value)) in
        let? (ratchet_key, chain_index, ciphertext) := map_err InvalidProtobuf (prost_decode_message payload) in
        let mac_slice := s_drop (String.length value - mac_length) value in
        if negb (slen mac_slice =? Z.of_nat mac_length) then Err (InvalidMacLength (Z.of_nat mac_length) (slen mac_slice))
        else
          let mac := extract_mac mac_slice (version =? MAC_TRUNCATED_VERSION) in
          let? ratchet_key := map_err InvalidKey (curve_from_slice ratchet_key) in
          Ok (mkMessage version ratchet_key chain_index ciphertext mac)
  end.

(** olm/session_keys.rs *)
Record SessionKeys := mkSessionKeys {
  sk_identity_key : Curve25519PublicKey;
  sk_base_key : Curve25519PublicKey;
  sk_one_time_key : Curve25519PublicKey }.

Definition keys_session_id (k : SessionKeys) : string :=
  base64_encode (sha256 (curve_as_bytes (sk_identity_key k) +:+ curve_as_bytes (sk_base_key k) +:+ curve_as_bytes (sk_one_time_key k))).

Record PreKeyMessage := mkPreKey { pk_session_keys : SessionKeys; pk_message : Message }.

Definition PREKEY_VERSION : Z := 3.

Definition prekey_to_bytes (m : PreKeyMessage) : string :=
  byte_str PREKEY_VERSION +:+
  prost_encode_prekey (curve_as_bytes (sk_one_time_key (pk_session_keys m))) (curve_as_bytes (sk_base_key (pk_session_keys m)))
    (curve_as_bytes (sk_identity_key (pk_session_keys m))) (olm_to_bytes (pk_message m)).

(** [TryFrom<&[u8]> for PreKeyMessage] *)
Definition prekey_from_bytes (value : string) : result PreKeyMessage DecodeError :=
  match value with
  | EmptyString => Err MissingVersion
  | String v rest =>
      let version := bval v in
      if negb (version =? PREKEY_VERSION) then Err (InvalidVersion PREKEY_VERSION version)
      else
        let? (one_time_key, base_key, identity_key, message) := map_err InvalidProtobuf (prost_decode_prekey rest) in
        let? one_time_key := map_err InvalidKey (curve_from_slice one_time_key) in
        let? base_key := map_err InvalidKey (curve_from_slice base_key) in
        let? identity_key := map_err InvalidKey (curve_from_slice identity_key) in
        let? message := olm_from_bytes message in
        Ok (mkPreKey (mkSessionKeys identity_key base_key one_time_key) message)
  end.

Inductive OlmMessage := OlmNormal (m : Message) | OlmPreKey (m : PreKeyMessage).

(** [MessageType] as a number. *)
Definition message_type (m : OlmMessage) : Z := match m with OlmNormal _ => 1 | OlmPreKey _ => 0 end.

Definition to_parts (m : OlmMessage) : Z * string :=
  match m with
  | OlmNormal inner => (message_type m, olm_to_bytes inner)
  | OlmPreKey inner => (message_type m, prekey_to_bytes inner)
  end.

Definition from_parts (message_type : Z) (ciphertext : string) : result OlmMessage DecodeError :=
  if message_type =? 0 then let? m := prekey_from_bytes ciphertext in Ok (OlmPreKey m)
  else if message_type =? 1 then let? m := olm_from_bytes ciphertext in Ok (OlmNormal m)
  else Err (InvalidMessageType message_type).

End Messages.

(** ** Chain keys and root keys (session/chain_key.rs, root_key.rs, ratchet.rs) *)

Inductive RatchetCount := Known (count : Z) | Unknown.

Definition count_new : RatchetCount := Known 0.

Definition count_advance (c : RatchetCount) : RatchetCount :=
  match c with Known count => Known ((count + 1) mod u64_mod) | Unknown => Unknown end.

Record ChainKey := mkChainKey { ck_key : string; ck_index : Z }.

(** [ChainKey::new] and [RemoteChainKey::new] *)
Definition chain_new (bytes : string) : ChainKey := mkChainKey bytes 0.

Record RemoteMessageKey := mkRemoteMessageKey { rmk_key : string; rmk_index : Z }.

Section Chains.
Context `{HmacSha256} `{MegolmCrypto} `{Curve25519}.

Definition MESSAGE_KEY_SEED : string := byte_str 1.
Definition ADVANCEMENT_SEED : string := byte_str 2.

Definition expand_chain_key (key : string) : string := hmac_sha256 key MESSAGE_KEY_SEED.

Definition chain_advance (c : ChainKey) : ChainKey :=
  mkChainKey (hmac_sha256 (ck_key c) ADVANCEMENT_SEED) ((ck_index c + 1) mod u64_mod).

(** [RemoteChainKey::create_message_key] *)
Definition create_remote_message_key (c : ChainKey) : RemoteMessageKey * ChainKey :=
  (mkRemoteMessageKey (expand_chain_key (ck_key c)) (ck_index c), chain_advance c).

(** A key of our own, with the public ratchet key it is sent under. *)
Record MessageKey := mkMessageKey { mk_key : string; mk_ratchet_key : Curve25519PublicKey; mk_index : Z }.

(** [ChainKey::create_message_key] *)
Definition create_message_key (c : ChainKey) (ratchet_key : Curve25519PublicKey) : MessageKey * ChainKey :=
  (mkMessageKey (expand_chain_key (ck_key c)) ratchet_key (ck_index c), chain_advance c).

Definition ROOT_SEED : string := "OLM_RATCHET".

Definition kdf (root_key : string) (ratchet_key : Curve25519SecretKey) (remote_ratchet_key : Curve25519PublicKey) : option string :=
  shared_secret ← diffie_hellman ratchet_key remote_ratchet_key;
  Some (hkdf_sha256 root_key shared_secret ROOT_SEED 64).

(** [RemoteRootKey::advance], with its new ratchet key. *)
Definition remote_root_advance (root_key : string) (remote_ratchet_key : Curve25519PublicKey) (fresh : Curve25519SecretKey) :
    option (string * ChainKey * Curve25519SecretKey) :=
  output ← kdf root_key fresh remote_ratchet_key;
  Some (s_take 32 output, chain_new (s_drop 32 output), fresh).

(** [RootKey::advance] *)
Definition root_advance (root_key : string) (old_ratchet_key : Curve25519SecretKey) (remote_ratchet_key : Curve25519PublicKey) :
    option (string * ChainKey) :=
  output ← kdf root_key old_ratchet_key remote_ratchet_key;
  Some (s_take 32 output, chain_new (s_drop 32 output)).

(** [struct Ratchet] *)
Record SendRatchet := mkSendRatchet { sr_root_key : string; sr_ratchet_key : Curve25519SecretKey }.

Definition ratchet_advance (r : SendRatchet) (remote_key : Curve25519PublicKey) : option (string * ChainKey) :=
  root_advance (sr_root_key r) (sr_ratchet_key r) remote_key.

End Chains.

(** ** Message keys (session/message_key.rs) *)

Inductive OlmDecryptionError :=
| OlmInvalidMAC
| OlmInvalidMACLength (expected got : nat)
| OlmInvalidPadding
| OlmNonContributoryKey
| MissingMessageKey (index : Z)
| TooBigMessageGap (gap max : Z).

Inductive EncryptionError := EncNonContributoryKey.

Section MessageKeys.
Context `{HmacSha256} `{MegolmCrypto} `{Curve25519}.

Definition OLM_HKDF_INFO : string := "OLM_KEYS".

(** [Cipher::new] *)
Definition olm_cipher (key : string) : CipherKeys := from_expanded_keys (expand_helper key OLM_HKDF_INFO).

(** [MessageKey::encrypt_truncated_mac], with [new_truncated_mac] and [set_mac]. *)
Definition mk_encrypt (k : MessageKey) (plaintext : string) : Message :=
  let cipher := olm_cipher (mk_key k) in
  let ciphertext := cipher_encrypt cipher plaintext in
  let unsigned := mkMessage MAC_TRUNCATED_VERSION (mk_ratchet_key k) (mk_index k) ciphertext
                    (Truncated (String.string_of_list_ascii (replicate Mac_TRUNCATED_LEN (byte 0)))) in
  mkMessage MAC_TRUNCATED_VERSION (mk_ratchet_key k) (mk_index k) ciphertext
    (Truncated (truncate (cipher_mac cipher (olm_encode unsigned)))).

Definition decrypt_truncated_mac (k : RemoteMessageKey) (m : Message) : result string OlmDecryptionError :=
  let cipher := olm_cipher (rmk_key k) in
  match msg_mac m with
  | Truncated tag =>
      if verify_truncated_mac cipher (olm_encode m) tag then ok_or (cipher_decrypt cipher (msg_ciphertext m)) OlmInvalidPadding
      else Err OlmInvalidMAC
  | Full _ => Err (OlmInvalidMACLength Mac_TRUNCATED_LEN Mac_LENGTH)
  end.

(** ** Receiver chains (session/receiver_chain.rs) *)

Definition MAX_MESSAGE_GAP : Z := 2000.
Definition MAX_MESSAGE_KEYS : nat := 40.

(** [MessageKeyStore], an array of at most forty keys. *)
Definition store_push (store : list RemoteMessageKey) (k : RemoteMessageKey) : list RemoteMessageKey :=
  if (length store =? MAX_MESSAGE_KEYS)%nat then tail store ++ [k] else store ++ [k].

Definition store_merge (store keys : list RemoteMessageKey) : list RemoteMessageKey := foldl store_push store keys.

Definition get_message_key (store : list RemoteMessageKey) (chain_index : Z) : option RemoteMessageKey :=
  find (λ k, rmk_index k =? chain_index) store.

Definition remove_message_key (store : list RemoteMessageKey) (chain_index : Z) : list RemoteMessageKey :=
  filter (λ k, rmk_index k ≠ chain_index) store.

Inductive FoundMessageKey :=
| Existing (k : RemoteMessageKey)
| New (ratchet : ChainKey) (skipped_keys : list RemoteMessageKey) (k : RemoteMessageKey).

Record ReceiverChain := mkReceiverChain {
  rc_ratchet_key : Curve25519PublicKey;
  rc_hkdf_ratchet : ChainKey;
  rc_skipped : list RemoteMessageKey;
  rc_ratchet_count : RatchetCount }.

Definition receiver_chain_new (ratchet_key : Curve25519PublicKey) (chain_key : ChainKey) (count : RatchetCount) : ReceiverChain :=
  mkReceiverChain ratchet_key chain_key [] count.

(** The [while] loop of [find_message_key]; the gap is at most [MAX_MESSAGE_GAP]. *)
Fixpoint skip_loop (fuel : nat) (ratchet : ChainKey) (skipped : list RemoteMessageKey) (chain_index : Z) :
    ChainKey * list RemoteMessageKey :=
  match fuel with
  | 0%nat => (ratchet, skipped)
  | S fuel =>
      if ck_index ratchet <? chain_index then
        if Z.of_nat MAX_MESSAGE_KEYS <? chain_index - ck_index ratchet
        then skip_loop fuel (chain_advance ratchet) skipped chain_index
        else let '(k, ratchet) := create_remote_message_key ratchet in
             skip_loop fuel ratchet (store_push skipped k) chain_index
      else (ratchet, skipped)
  end.

Definition find_message_key (c : ReceiverChain) (chain_index : Z) : result FoundMessageKey OlmDecryptionError :=
  let message_gap := Z.max 0 (chain_index - ck_index (rc_hkdf_ratchet c)) in
  if MAX_MESSAGE_GAP <? message_gap then Err (TooBigMessageGap message_gap MAX_MESSAGE_GAP)
  else if chain_index <? ck_index (rc_hkdf_ratchet c) then
    match get_message_key (rc_skipped c) chain_index with
    | Some k => Ok (Existing k)
    | None => Err (MissingMessageKey chain_index)
    end
  else
    let '(ratchet, skipped) := skip_loop (Z.to_nat MAX_MESSAGE_GAP) (rc_hkdf_ratchet c) [] chain_index in
    let '(k, ratchet) := create_remote_message_key ratchet in
    Ok (New ratchet skipped k).

(** [FoundMessageKey::decrypt] *)
Definition found_decrypt (f : FoundMessageKey) (m : Message) (config : OlmSessionConfig) : result string OlmDecryptionError :=
  let k := match f with Existing k => k | New _ _ k => k end in
  match olm_config_version config with OlmV1 => decrypt_truncated_mac k m end.

Definition chain_decrypt (c : ReceiverChain) (m : Message) (config : OlmSessionConfig) :
    ReceiverChain * result string OlmDecryptionError :=
  try? found := find_message_key c (msg_chain_index m) on c in
  try? plaintext := found_decrypt found m config on c in
  (match found with
   | Existing k => mkReceiverChain (rc_ratchet_key c) (rc_hkdf_ratchet c) (remove_message_key (rc_skipped c) (rmk_index k)) (rc_ratchet_count c)
   | New ratchet skipped _ => mkReceiverChain (rc_ratchet_key c) ratchet (store_merge (rc_skipped c) skipped) (rc_ratchet_count c)
   end, Ok plaintext).

Context `{!EqDecision Curve25519PublicKey}.

Definition belongs_to (c : ReceiverChain) (ratchet_key : Curve25519PublicKey) : bool := bool_decide (rc_ratchet_key c = ratchet_key).

(** ** The sending ratchet (session/double_ratchet.rs) *)

Record InactiveDoubleRatchet := mkInactive {
  ir_root_key : string;
  ir_ratchet_key : Curve25519PublicKey;
  ir_ratchet_count : RatchetCount }.

Record ActiveDoubleRatchet := mkActive {
  ar_parent_ratchet_key : option Curve25519PublicKey;
  ar_ratchet_count : RatchetCount;
  ar_active_ratchet : SendRatchet;
  ar_symmetric_key_ratchet : ChainKey }.

Inductive DoubleRatchet := Inactive (r : InactiveDoubleRatchet) | Active (r : ActiveDoubleRatchet).

Definition activate (r : InactiveDoubleRatchet) (fresh : Curve25519SecretKey) : option ActiveDoubleRatchet :=
  '(root_key, chain_key, ratchet_key) ← remote_root_advance (ir_root_key r) (ir_ratchet_key r) fresh;
  Some (mkActive (Some (ir_ratchet_key r)) (count_advance (ir_ratchet_count r)) (mkSendRatchet root_key ratchet_key) chain_key).

(** [ActiveDoubleRatchet::ratchet_key] *)
Definition active_ratchet_key (r : ActiveDoubleRatchet) : Curve25519PublicKey := curve_public (sr_ratchet_key (ar_active_ratchet r)).

(** [ActiveDoubleRatchet::next_message_key] *)
Definition active_next (r : ActiveDoubleRatchet) : ActiveDoubleRatchet * MessageKey :=
  let '(k, chain) := create_message_key (ar_symmetric_key_ratchet r) (active_ratchet_key r) in
  (mkActive (ar_parent_ratchet_key r) (ar_ratchet_count r) (ar_active_ratchet r) chain, k).

(** [ActiveDoubleRatchet::advance] *)
Definition active_advance (r : ActiveDoubleRatchet) (ratchet_key : Curve25519PublicKey) :
    option (InactiveDoubleRatchet * ReceiverChain) :=
  '(root_key, remote_chain) ← ratchet_advance (ar_active_ratchet r) ratchet_key;
  let count := count_advance (ar_ratchet_count r) in
  Some (mkInactive root_key ratchet_key count, receiver_chain_new ratchet_key remote_chain count).

(** [DoubleRatchet::next_message_key]; [fresh] is used when the ratchet is inactive. *)
Definition next_message_key (d : DoubleRatchet) (fresh : Curve25519SecretKey) : DoubleRatchet * option MessageKey :=
  match d with
  | Inactive r =>
      match activate r fresh with
      | None => (d, None)
      | Some r => let '(r, k) := active_next r in (Active r, Some k)
      end
  | Active r => let '(r, k) := active_next r in (Active r, Some k)
  end.

(** [DoubleRatchet::encrypt_truncated_mac] *)
Definition ratchet_encrypt (d : DoubleRatchet) (fresh : Curve25519SecretKey) (plaintext : string) :
    DoubleRatchet * result Message EncryptionError :=
  let '(d, k) := next_message_key d fresh in
  try? k := ok_or k EncNonContributoryKey on d in
  (d, Ok (mk_encrypt k plaintext)).

(** [DoubleRatchet::active], with the key of [Ratchet::new]. *)
Definition ratchet_active (root_key chain_key : string) (fresh : Curve25519SecretKey) : DoubleRatchet :=
  Active (mkActive None count_new (mkSendRatchet root_key fresh) (chain_new chain_key)).

Definition inactive_from_prekey_data (root_key : string) (ratchet_key : Curve25519PublicKey) : DoubleRatchet :=
  Inactive (mkInactive root_key ratchet_key count_new).

(** [DoubleRatchet::advance]: the ratchet itself, which an inactive one replaces, and the answer. *)
Definition double_advance (d : DoubleRatchet) (ratchet_key : Curve25519PublicKey) (fresh : Curve25519SecretKey) :
    DoubleRatchet * option (DoubleRatchet * ReceiverChain) :=
  match d with
  | Active r =>
      match active_advance r ratchet_key with
      | None => (d, None)
      | Some (r, chain) => (d, Some (Inactive r, chain))
      end
  | Inactive r =>
      match activate r fresh with
      | None => (d, None)
      | Some a =>
          match active_advance a ratchet_key with
          | None => (d, None)
          | Some (r, chain) => (Active a, Some (Inactive r, chain))
          end
      end
  end.

(** ** Sessions (session/mod.rs, shared_secret.rs) *)

Definition MAX_RECEIVING_CHAINS : nat := 5.

(** [ChainStore::push] *)
Definition chain_push (chains : list ReceiverChain) (c : ReceiverChain) : list ReceiverChain :=
  if (length chains =? MAX_RECEIVING_CHAINS)%nat then tail chains ++ [c] else chains ++ [c].

(** [ChainStore::find_ratchet]: where the chain is, and the chain. *)
Definition find_chain (chains : list ReceiverChain) (ratchet_key : Curve25519PublicKey) : option (nat * ReceiverChain) :=
  list_find (λ c, belongs_to c ratchet_key = true) chains.

Record Session := mkSession {
  ss_session_keys : SessionKeys;
  ss_sending_ratchet : DoubleRatchet;
  ss_receiving_chains : list ReceiverChain;
  ss_config : OlmSessionConfig }.

(** [expand]: the first root key and chain key. *)
Definition expand_secret (shared_secret : string) : string * string :=
  let expanded := hkdf_sha256 (String (ascii_of_nat 0) EmptyString) shared_secret "OLM_ROOT" 64 in
  (s_take 32 expanded, s_drop 32 expanded).

Definition merge_secrets (first second third : string) : string := first +:+ second +:+ third.

(** [RemoteShared3DHSecret::new] *)
Definition remote_shared_secret (identity_key one_time_key : Curve25519SecretKey)
    (remote_identity_key remote_one_time_key : Curve25519PublicKey) : option string :=
  first ← diffie_hellman one_time_key remote_identity_key;
  second ← diffie_hellman identity_key remote_one_time_key;
  third ← diffie_hellman one_time_key remote_one_time_key;
  Some (merge_secrets first second third).

(** [Shared3DHSecret::new] *)
Definition shared_secret (identity_key one_time_key : Curve25519SecretKey)
    (remote_identity_key remote_one_time_key : Curve25519PublicKey) : option string :=
  first ← diffie_hellman identity_key remote_one_time_key;
  second ← diffie_hellman one_time_key remote_identity_key;
  third ← diffie_hellman one_time_key remote_one_time_key;
  Some (merge_secrets first second third).

Definition session_new (config : OlmSessionConfig) (secret : string) (keys : SessionKeys) (fresh : Curve25519SecretKey) : Session :=
  let '(root_key, chain_key) := expand_secret secret in
  mkSession keys (ratchet_active root_key chain_key fresh) [] config.

Definition session_new_remote (config : OlmSessionConfig) (secret : string) (remote_ratchet_key : Curve25519PublicKey)
    (keys : SessionKeys) : Session :=
  let '(root_key, remote_chain_key) := expand_secret secret in
  mkSession keys (inactive_from_prekey_data root_key remote_ratchet_key)
    (chain_push [] (receiver_chain_new remote_ratchet_key (chain_new remote_chain_key) count_new)) config.

Context `{Primitives} `{MegolmWire}.

Definition olm_session_id (s : Session) : string := keys_session_id (ss_session_keys s).

Definition has_received_message (s : Session) : bool := negb (bool_decide (ss_receiving_chains s = [])).

Definition session_encrypt (s : Session) (fresh : Curve25519SecretKey) (plaintext : string) :
    Session * result OlmMessage EncryptionError :=
  let '(d, message) :=
    match olm_config_version (ss_config s) with OlmV1 => ratchet_encrypt (ss_sending_ratchet s) fresh plaintext end in
  let s := mkSession (ss_session_keys s) d (ss_receiving_chains s) (ss_config s) in
  try? message := message on s in
  (s, Ok (if has_received_message s then OlmNormal message else OlmPreKey (mkPreKey (ss_session_keys s) message))).

Definition decrypt_decoded (s : Session) (fresh : Curve25519SecretKey) (m : Message) :
    Session * result string OlmDecryptionError :=
  let with_state d chains := mkSession (ss_session_keys s) d chains (ss_config s) in
  match find_chain (ss_receiving_chains s) (msg_ratchet_key m) with
  | Some (i, chain) =>
      let '(chain, plaintext) := chain_decrypt chain m (ss_config s) in
      (with_state (ss_sending_ratchet s) (<[i := chain]> (ss_receiving_chains s)), plaintext)
  | None =>
      let '(d, next) := double_advance (ss_sending_ratchet s) (msg_ratchet_key m) fresh in
      try? (sending, chain) := ok_or next OlmNonContributoryKey on with_state d (ss_receiving_chains s) in
      let '(chain, plaintext) := chain_decrypt chain m (ss_config s) in
      try? plaintext := plaintext on with_state d (ss_receiving_chains s) in
      (with_state sending (chain_push (ss_receiving_chains s) chain), Ok plaintext)
  end.

Definition session_decrypt (s : Session) (fresh : Curve25519SecretKey) (m : OlmMessage) :
    Session * result string OlmDecryptionError :=
  match m with
  | OlmNormal m => decrypt_decoded s fresh m
  | OlmPreKey m => decrypt_decoded s fresh (pk_message m)
  end.

End MessageKeys.
