(* ===== verification/OlmAccount.v ===== *)
(** * Olm accounts (crates/mail4agent-vodozemac/src/olm/account/)

    A device's identity keys, its one-time keys and its fallback keys, the sessions made from
    them, and the form it is stored in. New secret keys are arguments. A key pair's pickle is its
    secret part; for the signing key the pair is kept. *)

From S2P Require Import Prelude Primitives CanonicalJson MegolmRatchet Megolm Olm.

Local Open Scope Z_scope.

(** ** [BTreeMap<KeyId, _>]: entries in the order of their numbers *)

Definition id_le {V} (a b : Z * V) : Prop := a.1 ≤ b.1.

#[export] Instance id_le_dec {V} (a b : Z * V) : Decision (id_le a b).
Proof. unfold id_le. apply _. Defined.

Definition id_entries {V} (m : gmap Z V) : list (Z * V) := merge_sort id_le (map_to_list m).

(** [keys().next()] *)
Definition first_id {V} (m : gmap Z V) : option Z := fst <$> head (id_entries m).

Definition PUBLIC_MAX_ONE_TIME_KEYS : nat := 50.
Definition MAX_ONE_TIME_KEYS : Z := 100 * Z.of_nat PUBLIC_MAX_ONE_TIME_KEYS.

Section Account.
Context `{HmacSha256} `{MegolmCrypto} `{Curve25519} `{!EqDecision Curve25519PublicKey} `{!Countable Curve25519PublicKey}.

(** ** One-time keys (account/one_time_keys.rs) *)

Record OneTimeKeys := mkOneTimeKeys {
  next_key_id : Z;
  unpublished_public_keys : gmap Z Curve25519PublicKey;
  private_keys : gmap Z Curve25519SecretKey;
  key_ids_by_key : gmap Curve25519PublicKey Z }.

Definition OneTimeKeys_new : OneTimeKeys := mkOneTimeKeys 0 ∅ ∅ ∅.

Definition otk_mark_as_published (o : OneTimeKeys) : OneTimeKeys :=
  mkOneTimeKeys (next_key_id o) ∅ (private_keys o) (key_ids_by_key o).

Definition otk_get_secret_key (o : OneTimeKeys) (public_key : Curve25519PublicKey) : option Curve25519SecretKey :=
  key_id ← key_ids_by_key o !! public_key; private_keys o !! key_id.

Definition remove_secret_key (o : OneTimeKeys) (public_key : Curve25519PublicKey) : OneTimeKeys * option Curve25519SecretKey :=
  match key_ids_by_key o !! public_key with
  | None => (o, None)
  | Some key_id =>
      (mkOneTimeKeys (next_key_id o) (delete key_id (unpublished_public_keys o)) (delete key_id (private_keys o))
         (delete public_key (key_ids_by_key o)),
       private_keys o !! key_id)
  end.

(** The first half of [insert_secret_key]: room for one more key. *)
Definition make_room (o : OneTimeKeys) : OneTimeKeys * option Curve25519PublicKey :=
  if MAX_ONE_TIME_KEYS <=? Z.of_nat (size (private_keys o)) then
    match first_id (private_keys o) with
    | Some key_id =>
        let '(private, by_key, public_key) :=
          match private_keys o !! key_id with
          | Some private_key =>
              (delete key_id (private_keys o), delete (curve_public private_key) (key_ids_by_key o), Some (curve_public private_key))
          | None => (private_keys o, key_ids_by_key o, None)
          end in
        (mkOneTimeKeys (next_key_id o) (delete key_id (unpublished_public_keys o)) private by_key, public_key)
    | None => (o, None)
    end
  else (o, None).

Definition insert_secret_key (o : OneTimeKeys) (key_id : Z) (key : Curve25519SecretKey) (published : bool) :
    OneTimeKeys * (Curve25519PublicKey * option Curve25519PublicKey) :=
  let '(o, removed) := make_room o in
  let public_key := curve_public key in
  (mkOneTimeKeys (next_key_id o)
     (if published then unpublished_public_keys o else <[key_id := public_key]> (unpublished_public_keys o))
     (<[key_id := key]> (private_keys o)) (<[public_key := key_id]> (key_ids_by_key o)),
   (public_key, removed)).

Definition generate_one_time_key (o : OneTimeKeys) (key : Curve25519SecretKey) :
    OneTimeKeys * (Curve25519PublicKey * option Curve25519PublicKey) :=
  insert_secret_key o (next_key_id o) key false.

(** [generate]: one round per new key; the created and the removed public keys. *)
Fixpoint otk_generate (o : OneTimeKeys) (fresh : list Curve25519SecretKey) :
    OneTimeKeys * (list Curve25519PublicKey * list Curve25519PublicKey) :=
  match fresh with
  | [] => (o, ([], []))
  | key :: fresh =>
      let '(o, (created, removed)) := generate_one_time_key o key in
      let o := mkOneTimeKeys ((next_key_id o + 1) mod u64_mod) (unpublished_public_keys o) (private_keys o) (key_ids_by_key o) in
      let '(o, (created_keys, removed_keys)) := otk_generate o fresh in
      (o, (created :: created_keys, option_list removed ++ removed_keys))
  end.

Record OneTimeKeysPickle := mkOneTimeKeysPickle {
  op_next_key_id : Z;
  op_public_keys : gmap Z Curve25519PublicKey;
  op_private_keys : gmap Z Curve25519SecretKey }.

(** [From<OneTimeKeysPickle> for OneTimeKeys] *)
Definition otk_from_pickle (p : OneTimeKeysPickle) : OneTimeKeys :=
  mkOneTimeKeys (op_next_key_id p) (op_public_keys p) (op_private_keys p)
    (foldl (λ by_key '(k, v), <[curve_public v := k]> by_key) ∅ (id_entries (op_private_keys p))).

Definition otk_pickle (o : OneTimeKeys) : OneTimeKeysPickle :=
  mkOneTimeKeysPickle (next_key_id o) (unpublished_public_keys o) (private_keys o).

(** ** Fallback keys (account/fallback_keys.rs) *)

Record FallbackKey := mkFallbackKey { fb_key_id : Z; fb_key : Curve25519SecretKey; fb_published : bool }.

Definition FallbackKey_new (key_id : Z) (fresh : Curve25519SecretKey) : FallbackKey := mkFallbackKey key_id fresh false.

Definition fb_public_key (f : FallbackKey) : Curve25519PublicKey := curve_public (fb_key f).

Record FallbackKeys := mkFallbackKeys {
  fbs_key_id : Z;
  fbs_fallback_key : option FallbackKey;
  fbs_previous_fallback_key : option FallbackKey }.

Definition FallbackKeys_new : FallbackKeys := mkFallbackKeys 0 None None.

Definition fbs_mark_as_published (f : FallbackKeys) : FallbackKeys :=
  mkFallbackKeys (fbs_key_id f) ((λ k, mkFallbackKey (fb_key_id k) (fb_key k) true) <$> fbs_fallback_key f)
    (fbs_previous_fallback_key f).

Definition fbs_generate (f : FallbackKeys) (fresh : Curve25519SecretKey) : FallbackKeys * option Curve25519PublicKey :=
  (mkFallbackKeys ((fbs_key_id f + 1) mod u64_mod) (Some (FallbackKey_new (fbs_key_id f) fresh)) (fbs_fallback_key f),
   fb_public_key <$> fbs_previous_fallback_key f).

(** [Option::filter] *)
Definition opt_filter {A} (p : A → bool) (o : option A) : option A := a ← o; if p a then Some a else None.

Definition fbs_get_secret_key (f : FallbackKeys) (public_key : Curve25519PublicKey) : option Curve25519SecretKey :=
  let matching := opt_filter (λ k, bool_decide (fb_public_key k = public_key)) in
  fb_key <$> match matching (fbs_fallback_key f) with
             | Some k => Some k
             | None => matching (fbs_previous_fallback_key f)
             end.

Definition forget_previous_fallback_key (f : FallbackKeys) : FallbackKeys * option FallbackKey :=
  (mkFallbackKeys (fbs_key_id f) (fbs_fallback_key f) None, fbs_previous_fallback_key f).

Definition unpublished_fallback_key (f : FallbackKeys) : option FallbackKey :=
  opt_filter (λ k, negb (fb_published k)) (fbs_fallback_key f).

(** ** Accounts (account/mod.rs) *)

Context `{Primitives} `{MegolmWire} `{Ed25519Keys}.

Record Curve25519Keypair := mkCurveKeypair { kp_secret_key : Curve25519SecretKey; kp_public_key : Curve25519PublicKey }.

Definition Curve25519Keypair_new (fresh : Curve25519SecretKey) : Curve25519Keypair := mkCurveKeypair fresh (curve_public fresh).

Record Account := mkAccount {
  ac_signing_key : Ed25519Keypair;
  ac_diffie_hellman_key : Curve25519Keypair;
  ac_one_time_keys : OneTimeKeys;
  ac_fallback_keys : FallbackKeys }.

Definition Account_new (signing_key : Ed25519Keypair) (fresh : Curve25519SecretKey) : Account :=
  mkAccount signing_key (Curve25519Keypair_new fresh) OneTimeKeys_new FallbackKeys_new.

Record IdentityKeys := mkIdentityKeys { ik_ed25519 : Ed25519PublicKey; ik_curve25519 : Curve25519PublicKey }.

Definition ed25519_key (a : Account) : Ed25519PublicKey := public_key (ac_signing_key a).
Definition curve25519_key (a : Account) : Curve25519PublicKey := kp_public_key (ac_diffie_hellman_key a).
Definition identity_keys (a : Account) : IdentityKeys := mkIdentityKeys (ed25519_key a) (curve25519_key a).

Definition account_sign (a : Account) (message : string) : Ed25519Signature := keypair_sign (ac_signing_key a) message.

Inductive SessionCreationError :=
| MissingOneTimeKey (k : Curve25519PublicKey)
| MismatchedIdentityKey (given got : Curve25519PublicKey)
| MismatchedSessionConfig (expected : OlmSessionConfig) (got : option OlmSessionConfig)
| CreationDecryption (e : OlmDecryptionError)
| CreationNonContributoryKey.

(** The base key and the key of the first ratchet are new. *)
Definition create_outbound_session (a : Account) (config : OlmSessionConfig) (identity_key one_time_key : Curve25519PublicKey)
    (base_key fresh : Curve25519SecretKey) : result Session SessionCreationError :=
  let? secret := ok_or (shared_secret (kp_secret_key (ac_diffie_hellman_key a)) base_key identity_key one_time_key)
                   CreationNonContributoryKey in
  Ok (session_new config secret (mkSessionKeys (curve25519_key a) (curve_public base_key) one_time_key) fresh).

Definition find_one_time_key (a : Account) (public_key : Curve25519PublicKey) : option Curve25519SecretKey :=
  match otk_get_secret_key (ac_one_time_keys a) public_key with
  | Some k => Some k
  | None => fbs_get_secret_key (ac_fallback_keys a) public_key
  end.

Definition with_one_time_keys (a : Account) (o : OneTimeKeys) : Account :=
  mkAccount (ac_signing_key a) (ac_diffie_hellman_key a) o (ac_fallback_keys a).

Definition remove_one_time_key_helper (a : Account) (public_key : Curve25519PublicKey) : Account * option Curve25519SecretKey :=
  let '(o, k) := remove_secret_key (ac_one_time_keys a) public_key in (with_one_time_keys a o, k).

(** The new session and the plaintext of the message that started it. *)
Definition create_inbound_session (a : Account) (expected_config : OlmSessionConfig) (their_identity_key : Curve25519PublicKey)
    (m : PreKeyMessage) (fresh : Curve25519SecretKey) : Account * result (Session * string) SessionCreationError :=
  let keys := pk_session_keys m in
  if negb (bool_decide (their_identity_key = sk_identity_key keys))
  then (a, Err (MismatchedIdentityKey their_identity_key (sk_identity_key keys)))
  else
    try? config := (if msg_version (pk_message m) =? MAC_TRUNCATED_VERSION then Ok olm_version_1
                    else Err (MismatchedSessionConfig expected_config None)) on a in
    if negb (bool_decide (config = expected_config)) then (a, Err (MismatchedSessionConfig expected_config (Some config)))
    else
      try? private_otk := ok_or (find_one_time_key a (sk_one_time_key keys)) (MissingOneTimeKey (sk_one_time_key keys)) on a in
      try? secret := ok_or (remote_shared_secret (kp_secret_key (ac_diffie_hellman_key a)) private_otk
                              (sk_identity_key keys) (sk_base_key keys)) CreationNonContributoryKey on a in
      let session := session_new_remote config secret (msg_ratchet_key (pk_message m))
                       (mkSessionKeys (sk_identity_key keys) (sk_base_key keys) (sk_one_time_key keys)) in
      let '(session, plaintext) := decrypt_decoded session fresh (pk_message m) in
      try? plaintext := map_err CreationDecryption plaintext on a in
      ((remove_one_time_key_helper a (sk_one_time_key keys)).1, Ok (session, plaintext)).

Definition generate_one_time_keys (a : Account) (fresh : list Curve25519SecretKey) :
    Account * (list Curve25519PublicKey * list Curve25519PublicKey) :=
  let '(o, res) := otk_generate (ac_one_time_keys a) fresh in (with_one_time_keys a o, res).

Definition max_number_of_one_time_keys (a : Account) : nat := PUBLIC_MAX_ONE_TIME_KEYS.

(** [one_time_keys]: the unpublished ones. *)
Definition account_one_time_keys (a : Account) : gmap Z Curve25519PublicKey := unpublished_public_keys (ac_one_time_keys a).

Definition generate_fallback_key (a : Account) (fresh : Curve25519SecretKey) : Account * option Curve25519PublicKey :=
  let '(f, k) := fbs_generate (ac_fallback_keys a) fresh in
  (mkAccount (ac_signing_key a) (ac_diffie_hellman_key a) (ac_one_time_keys a) f, k).

Definition account_fallback_key (a : Account) : gmap Z Curve25519PublicKey :=
  match unpublished_fallback_key (ac_fallback_keys a) with
  | Some k => {[ fb_key_id k := fb_public_key k ]}
  | None => ∅
  end.

Definition forget_fallback_key (a : Account) : Account * bool :=
  let '(f, k) := forget_previous_fallback_key (ac_fallback_keys a) in
  (mkAccount (ac_signing_key a) (ac_diffie_hellman_key a) (ac_one_time_keys a) f, is_some k).

Definition mark_keys_as_published (a : Account) : Account :=
  mkAccount (ac_signing_key a) (ac_diffie_hellman_key a) (otk_mark_as_published (ac_one_time_keys a))
    (fbs_mark_as_published (ac_fallback_keys a)).

Record AccountPickle := mkAccountPickle {
  ap_signing_key : Ed25519Keypair;
  ap_diffie_hellman_key : Curve25519SecretKey;
  ap_one_time_keys : OneTimeKeysPickle;
  ap_fallback_keys : FallbackKeys }.

Definition account_pickle (a : Account) : AccountPickle :=
  mkAccountPickle (ac_signing_key a) (kp_secret_key (ac_diffie_hellman_key a)) (otk_pickle (ac_one_time_keys a)) (ac_fallback_keys a).

Definition account_from_pickle (p : AccountPickle) : Account :=
  mkAccount (ap_signing_key p) (Curve25519Keypair_new (ap_diffie_hellman_key p)) (otk_from_pickle (ap_one_time_keys p)) (ap_fallback_keys p).

End Account.
