(* ===== verification/OlmProps.v ===== *)
(** * Properties of Olm sessions

    A receiver chain behaves like a window over message numbers: [receiver_chain_refines_window].
    No chain opens two messages of one number. Two sessions that agree on their keys read each
    other, also when the conversation changes direction. *)

From Stdlib Require Import Ascii.
From S2P Require Import Prelude Primitives MegolmRatchet Megolm MegolmProps Olm.

Local Open Scope Z_scope.

(** ** The last elements of a list *)

Definition lastn {A} (n : nat) (l : list A) : list A := drop (length l - n) l.

Lemma lastn_short {A} n (l : list A) : (length l ≤ n)%nat → lastn n l = l.
Proof. intros Hl. unfold lastn. by replace (length l - n)%nat with 0%nat by lia. Qed.

Lemma lastn_length {A} n (l : list A) : (length (lastn n l) ≤ n)%nat.
Proof. unfold lastn. rewrite length_drop. lia. Qed.

Lemma lastn_lastn_app {A} n (l : list A) x : lastn n (lastn n l ++ [x]) = lastn n (l ++ [x]).
Proof.
  unfold lastn. rewrite !length_app, length_drop. cbn [length]. destruct (decide (length l ≤ n)%nat).
  - replace (length l - n)%nat with 0%nat by lia. rewrite drop_0. f_equal; lia.
  - destruct (decide (n = 0)%nat) as [-> |].
    + rewrite !drop_ge; [done|rewrite length_app; cbn; lia|rewrite length_app, length_drop; cbn; lia].
    + replace (length l - (length l - n) + 1 - n)%nat with 1%nat by lia.
      replace (length l + 1 - n)%nat with ((length l - n) + 1)%nat by lia.
      by rewrite <- drop_drop, (drop_app_le l) by lia.
Qed.

Lemma lastn_subset {A} n (l : list A) x : x ∈ lastn n l → x ∈ l.
Proof. intros Hx. rewrite <- (take_drop (length l - n) l). apply elem_of_app. by right. Qed.

Lemma lastn_NoDup {A} n (l : list A) : NoDup l → NoDup (lastn n l).
Proof. intros Hl. rewrite <- (take_drop (length l - n) l) in Hl. by apply NoDup_app in Hl as (_ & _ & ?). Qed.

Lemma lastn_fmap {A B} (f : A → B) n l : lastn n (f <$> l) = f <$> lastn n l.
Proof. unfold lastn. by rewrite length_fmap, fmap_drop. Qed.

(** ** The stash of skipped keys *)

Lemma store_push_lastn s k : (length s ≤ MAX_MESSAGE_KEYS)%nat → store_push s k = lastn MAX_MESSAGE_KEYS (s ++ [k]).
Proof.
  intros Hs. unfold store_push, lastn. rewrite length_app. cbn [length].
  destruct (Nat.eqb_spec (length s) MAX_MESSAGE_KEYS) as [He|Hne].
  - replace (length s + 1 - MAX_MESSAGE_KEYS)%nat with 1%nat by lia. destruct s; [done|reflexivity].
  - by replace (length s + 1 - MAX_MESSAGE_KEYS)%nat with 0%nat by lia.
Qed.

Lemma store_merge_lastn s ks : (length s ≤ MAX_MESSAGE_KEYS)%nat → store_merge s ks = lastn MAX_MESSAGE_KEYS (s ++ ks).
Proof.
  intros Hs. induction ks as [|k ks IH] using rev_ind; [rewrite app_nil_r, lastn_short by done; done|].
  unfold store_merge in *. rewrite foldl_app, IH. cbn [foldl].
  rewrite store_push_lastn by apply lastn_length. by rewrite lastn_lastn_app, app_assoc.
Qed.

(** ** Windows: the specification of a receiver chain *)

(** The number of the next new message, and the skipped numbers whose keys are kept, oldest first. *)
Record Window := mkWindow { w_next : nat; w_avail : list nat }.

(** The numbers whose keys are kept when the chain moves from [next] to [n]. *)
Definition skipped_between (next n : nat) : list nat :=
  let from := Nat.max next (n - MAX_MESSAGE_KEYS) in seq from (n - from).

Definition window_receive (w : Window) (n : nat) : Window * result unit OlmDecryptionError :=
  if MAX_MESSAGE_GAP <? Z.of_nat (n - w_next w) then (w, Err (TooBigMessageGap (Z.of_nat (n - w_next w)) MAX_MESSAGE_GAP))
  else if (n <? w_next w)%nat then
    if bool_decide (n ∈ w_avail w) then (mkWindow (w_next w) (filter (λ i, i ≠ n) (w_avail w)), Ok tt)
    else (w, Err (MissingMessageKey (Z.of_nat n)))
  else (mkWindow (S n) (lastn MAX_MESSAGE_KEYS (w_avail w ++ skipped_between (w_next w) n)), Ok tt).

Definition window_ok (w : Window) : Prop :=
  Forall (λ i, (i < w_next w)%nat) (w_avail w) ∧ NoDup (w_avail w) ∧ (length (w_avail w) ≤ MAX_MESSAGE_KEYS)%nat.

Lemma window_receive_ok w n : window_ok w → window_ok (window_receive w n).1.
Proof.
  intros (Hlt & Hnd & Hlen). unfold window_receive. destruct (_ <? _); [done|]. destruct (Nat.ltb_spec n (w_next w)) as [Hn|Hn].
  - case_bool_decide; [|done]. cbn. split_and!; cbn.
    + rewrite Forall_forall in *. intros i Hi. apply list_elem_of_filter in Hi as [_ Hi]. by apply Hlt.
    + by apply NoDup_filter.
    + etrans; [apply length_filter|done].
  - cbn. split_and!; cbn; [|apply lastn_NoDup, NoDup_app|apply lastn_length].
    + rewrite Forall_forall. intros i Hi. apply lastn_subset, elem_of_app in Hi as [Hi|Hi].
      * rewrite Forall_forall in Hlt. apply Hlt in Hi. lia.
      * apply elem_of_seq in Hi. lia.
    + split_and!; [done| |apply NoDup_ListNoDup, seq_NoDup]. intros i Hi Hs. rewrite Forall_forall in Hlt. apply Hlt in Hi.
      apply elem_of_seq in Hs. lia.
Qed.

Section Olm.
Context `{HmacSha256, !HmacSha256Laws, MegolmCrypto, !MegolmCryptoLaws, Curve25519, !Curve25519Laws,
  !EqDecision Curve25519PublicKey}.

(** ** Chains *)

Definition chain_at (origin : string) (n : nat) : ChainKey := Nat.iter n chain_advance (chain_new origin).

(** The key of message [n], and that message. *)
Definition key_at (origin : string) (n : nat) : RemoteMessageKey :=
  mkRemoteMessageKey (expand_chain_key (ck_key (chain_at origin n))) (Z.of_nat n).

Definition sent (origin : string) (ratchet_key : Curve25519PublicKey) (n : nat) (plaintext : string) : Message :=
  mk_encrypt (mkMessageKey (expand_chain_key (ck_key (chain_at origin n))) ratchet_key (Z.of_nat n)) plaintext.

Lemma chain_at_index origin n : Z.of_nat n < u64_mod → ck_index (chain_at origin n) = Z.of_nat n.
Proof.
  intros Hn. induction n as [|n IH]; [done|]. unfold chain_at. rewrite Nat.iter_succ.
  change (Nat.iter n chain_advance (chain_new origin)) with (chain_at origin n). cbn [chain_advance ck_index].
  rewrite IH by lia. rewrite Z.mod_small by lia. lia.
Qed.

Lemma create_at origin n : Z.of_nat n < u64_mod →
  create_remote_message_key (chain_at origin n) = (key_at origin n, chain_at origin (S n)).
Proof. intros Hn. unfold create_remote_message_key, key_at. by rewrite chain_at_index. Qed.

Lemma skip_loop_spec origin fuel r n acc :
  (r ≤ n)%nat → (n - r ≤ fuel)%nat → Z.of_nat n < u64_mod →
  skip_loop fuel (chain_at origin r) acc (Z.of_nat n) =
  (chain_at origin n, store_merge acc (key_at origin <$> skipped_between r n)).
Proof.
  revert r acc. induction fuel as [|fuel IH]; intros r acc Hr Hf Hn.
  { replace r with n by lia. unfold skipped_between. by replace (n - Nat.max n (n - MAX_MESSAGE_KEYS))%nat with 0%nat by lia. }
  cbn [skip_loop]. rewrite chain_at_index by lia. destruct (Z.ltb_spec (Z.of_nat r) (Z.of_nat n)).
  - destruct (Z.ltb_spec (Z.of_nat MAX_MESSAGE_KEYS) (Z.of_nat n - Z.of_nat r)).
    + change (chain_advance (chain_at origin r)) with (chain_at origin (S r)). rewrite IH by lia.
      unfold skipped_between. by replace (Nat.max (S r) (n - MAX_MESSAGE_KEYS)) with (Nat.max r (n - MAX_MESSAGE_KEYS)) by lia.
    + rewrite create_at by lia. rewrite IH by lia. unfold skipped_between.
      replace (Nat.max (S r) (n - MAX_MESSAGE_KEYS)) with (S r) by lia.
      replace (Nat.max r (n - MAX_MESSAGE_KEYS)) with r by lia.
      by replace (n - r)%nat with (S (n - S r))%nat by lia.
  - replace r with n by lia. unfold skipped_between. by replace (n - Nat.max n (n - MAX_MESSAGE_KEYS))%nat with 0%nat by lia.
Qed.

Lemma sent_opens origin ratchet_key n plaintext :
  decrypt_truncated_mac (key_at origin n) (sent origin ratchet_key n plaintext) = Ok plaintext.
Proof.
  unfold decrypt_truncated_mac, sent, mk_encrypt, key_at. cbn [rmk_key mk_key mk_ratchet_key mk_index msg_mac msg_ciphertext].
  set (c := olm_cipher _). set (ct := cipher_encrypt c plaintext). unfold olm_encode.
  cbn [msg_version msg_ratchet_key msg_chain_index msg_ciphertext]. set (enc := byte_str _ +:+ _).
  assert (Hl : slen (truncate (cipher_mac c enc)) = 8).
  { unfold truncate, cipher_mac. rewrite slen_take; [done|]. pose proof (hmac_sha256_len (mac_key c) enc) as Hh.
    unfold slen, Mac_TRUNCATED_LEN in *. lia. }
  unfold verify_truncated_mac. rewrite Hl. cbn [Z.ltb Z.leb Z.compare Pos.compare Pos.compare_cont andb].
  replace (String.length (truncate (cipher_mac c enc))) with Mac_TRUNCATED_LEN by (unfold slen in Hl; unfold Mac_TRUNCATED_LEN; lia).
  rewrite bool_decide_true by done. unfold ct, cipher_encrypt, cipher_decrypt. by rewrite aes_roundtrip.
Qed.

(** [c] is the receiver chain of the sender's chain [origin], having received what [w] says. *)
Definition represents (origin : string) (ratchet_key : Curve25519PublicKey) (w : Window) (c : ReceiverChain) : Prop :=
  window_ok w ∧ Z.of_nat (w_next w) < u64_mod ∧ rc_ratchet_key c = ratchet_key ∧
  rc_hkdf_ratchet c = chain_at origin (w_next w) ∧ rc_skipped c = key_at origin <$> w_avail w.

Lemma get_key_at origin avail n :
  get_message_key (key_at origin <$> avail) (Z.of_nat n) = if bool_decide (n ∈ avail) then Some (key_at origin n) else None.
Proof.
  unfold get_message_key. induction avail as [|i avail IH]; [done|]. cbn [fmap list_fmap find key_at rmk_index].
  destruct (Z.eqb_spec (Z.of_nat i) (Z.of_nat n)) as [He|Hne].
  - replace n with i by lia. by rewrite bool_decide_true by apply list_elem_of_here.
  - rewrite IH. case_bool_decide as Hin; case_bool_decide as Hin'; try done.
    + destruct Hin'. by right.
    + apply elem_of_cons in Hin' as [|]; [lia|done].
Qed.

Lemma remove_key_at origin avail n :
  remove_message_key (key_at origin <$> avail) (Z.of_nat n) = key_at origin <$> filter (λ i, i ≠ n) avail.
Proof.
  unfold remove_message_key. induction avail as [|i avail IH]; [done|]. cbn [fmap list_fmap].
  rewrite !filter_cons. destruct (decide (rmk_index (key_at origin i) ≠ Z.of_nat n)) as [Hi|Hi]; cbn [key_at rmk_index] in Hi;
    destruct (decide (i ≠ n)); (lia || cbn [fmap list_fmap]; by rewrite IH).
Qed.

(** What a chain does with a message the sender made is what the window says. *)
Lemma chain_decrypt_window origin ratchet_key w c n plaintext config :
  represents origin ratchet_key w c → Z.of_nat n + 1 < u64_mod →
  ∃ c', chain_decrypt c (sent origin ratchet_key n plaintext) config =
      (c', result_map (λ _, plaintext) (window_receive w n).2) ∧
    represents origin ratchet_key (window_receive w n).1 c'.
Proof.
  intros Hr Hn. pose proof Hr as (Hw & Hb & Hk & Hc & Hs). pose proof (window_receive_ok w n Hw) as Hw'.
  assert (Hfound : ∀ f, found_decrypt f (sent origin ratchet_key n plaintext) config =
    decrypt_truncated_mac (match f with Existing k => k | New _ _ k => k end) (sent origin ratchet_key n plaintext)).
  { intros f. unfold found_decrypt. by destruct (olm_config_version config). }
  unfold chain_decrypt, find_message_key. change (msg_chain_index (sent origin ratchet_key n plaintext)) with (Z.of_nat n).
  rewrite Hc, chain_at_index by done. replace (Z.max 0 (Z.of_nat n - Z.of_nat (w_next w))) with (Z.of_nat (n - w_next w)) by lia.
  unfold window_receive in *. destruct (Z.ltb_spec MAX_MESSAGE_GAP (Z.of_nat (n - w_next w))) as [Hgap|Hgap]; [by exists c|].
  destruct (Nat.ltb_spec n (w_next w)) as [Hlt|Hge].
  - destruct (Z.ltb_spec (Z.of_nat n) (Z.of_nat (w_next w))); [|lia]. rewrite Hs, get_key_at.
    case_bool_decide; [|by exists c]. rewrite Hfound, sent_opens. eexists. split; [reflexivity|].
    split_and!; cbn; [done..|by rewrite remove_key_at].
  - destruct (Z.ltb_spec (Z.of_nat n) (Z.of_nat (w_next w))); [lia|].
    rewrite skip_loop_spec by (unfold MAX_MESSAGE_GAP in *; lia). rewrite create_at by lia. rewrite Hfound, sent_opens.
    eexists. split; [reflexivity|]. split; [done|]. cbn. split_and!; [lia|done|done|].
    rewrite Hs, (store_merge_lastn []) by (cbn; lia). rewrite (lastn_short _ ([] ++ _)).
    2:{ cbn [app]. rewrite length_fmap. unfold skipped_between. rewrite length_seq. lia. }
    cbn [app]. rewrite store_merge_lastn by (rewrite length_fmap; apply Hw). by rewrite <- fmap_app, lastn_fmap.
Qed.

(** C13: A receiver chain refines the window of message numbers: it opens a message the sender made exactly when
    the number is new and at most 2000 ahead, or was skipped and is among the last forty skipped ones; it gives the
    plaintext that was sent, refuses everything else with the error the window names, and afterwards stands for the
    window's next state. *)
Theorem receiver_chain_refines_window origin ratchet_key w c n plaintext config :
  represents origin ratchet_key w c → Z.of_nat n + 1 < u64_mod →
  ∃ c', chain_decrypt c (sent origin ratchet_key n plaintext) config =
      (c', result_map (λ _, plaintext) (window_receive w n).2) ∧
    represents origin ratchet_key (window_receive w n).1 c'.
Proof. apply chain_decrypt_window. Qed.

(** ** Whatever arrives, no number is opened twice *)

Definition chain_ok (c : ReceiverChain) : Prop :=
  0 ≤ ck_index (rc_hkdf_ratchet c) < u64_mod ∧ Forall (λ k, rmk_index k < ck_index (rc_hkdf_ratchet c)) (rc_skipped c) ∧
  (length (rc_skipped c) ≤ MAX_MESSAGE_KEYS)%nat.

(** The key of number [n] is gone. *)
Definition spent (c : ReceiverChain) (n : Z) : Prop := n < ck_index (rc_hkdf_ratchet c) ∧ n ∉ rmk_index <$> rc_skipped c.

Lemma elem_of_store_merge k s ks : (length s ≤ MAX_MESSAGE_KEYS)%nat → k ∈ store_merge s ks → k ∈ s ∨ k ∈ ks.
Proof. intros Hs Hk. rewrite store_merge_lastn in Hk by done. by apply lastn_subset, elem_of_app in Hk. Qed.

Lemma skip_loop_index fuel ratchet acc n ratchet' acc' :
  0 ≤ ck_index ratchet ≤ n → n - ck_index ratchet ≤ Z.of_nat fuel → n < u64_mod → (length acc ≤ MAX_MESSAGE_KEYS)%nat →
  skip_loop fuel ratchet acc n = (ratchet', acc') →
  ck_index ratchet' = n ∧ (length acc' ≤ MAX_MESSAGE_KEYS)%nat ∧ ∀ k, k ∈ acc' → k ∈ acc ∨ ck_index ratchet ≤ rmk_index k < n.
Proof.
  revert ratchet acc. induction fuel as [|fuel IH]; intros ratchet acc Hr Hf Hn Hl; cbn [skip_loop].
  { intros [= <- <-]. split_and!; [lia|done|auto]. }
  destruct (Z.ltb_spec (ck_index ratchet) n); [|intros [= <- <-]; split_and!; [lia|done|auto]].
  assert (Hadv : ck_index (chain_advance ratchet) = ck_index ratchet + 1) by (cbn; rewrite Z.mod_small; lia).
  destruct (_ <? _); cbn [create_remote_message_key]; intros Hs.
  - apply IH in Hs as (? & ? & Hk); [|rewrite ?Hadv; lia..|done]. split_and!; [done..|]. intros k Hin.
    destruct (Hk k Hin); [auto|lia].
  - apply IH in Hs as (? & ? & Hk); [|rewrite ?Hadv; lia..|rewrite store_push_lastn by done; apply lastn_length].
    split_and!; [done..|]. intros k Hin. destruct (Hk k Hin) as [Hin'|]; [|lia].
    rewrite store_push_lastn in Hin' by done. apply lastn_subset, elem_of_app in Hin' as [|Hin']; [auto|].
    apply list_elem_of_singleton in Hin' as ->. cbn. lia.
Qed.

(** One decryption: the chain stays sound, spent numbers stay spent, and an opened number is spent. *)
Lemma chain_decrypt_spent c m config c' r :
  chain_ok c → 0 ≤ msg_chain_index m → msg_chain_index m + 1 < u64_mod → chain_decrypt c m config = (c', r) →
  chain_ok c' ∧ (∀ n, spent c n → spent c' n) ∧
  (∀ p, r = Ok p → ¬ spent c (msg_chain_index m) ∧ spent c' (msg_chain_index m)).
Proof.
  intros Hok Hm Hm1. pose proof Hok as (Hi & Hs & Hl). unfold chain_decrypt, find_message_key.
  set (n := msg_chain_index m) in *. set (i := ck_index (rc_hkdf_ratchet c)) in *.
  destruct (Z.ltb_spec MAX_MESSAGE_GAP (Z.max 0 (n - i))); [intros [= <- <-]; done|].
  destruct (Z.ltb_spec n i) as [Hlt|Hge].
  - destruct (get_message_key (rc_skipped c) n) as [k|] eqn:Hk; [|intros [= <- <-]; done].
    apply find_some in Hk as [Hin Hk]. apply Z.eqb_eq in Hk. apply list_elem_of_In in Hin.
    destruct (found_decrypt _ _ _); intros [= <- <-]; [|done]. rewrite Hk. unfold chain_ok, spent. cbn. split_and!; [lia|lia| | | |].
    + rewrite Forall_forall in *. intros k' Hk'. apply list_elem_of_filter in Hk' as [_ Hk']. by apply Hs.
    + etrans; [apply length_filter|done].
    + intros n' [Hn' Hnin]. split; [done|]. contradict Hnin. apply list_elem_of_fmap in Hnin as (k' & -> & Hk').
      apply list_elem_of_filter in Hk' as [_ Hk']. by apply list_elem_of_fmap_2.
    + intros p _. split; [|split; [done|]].
      * intros [_ Hnin]. apply Hnin. rewrite <- Hk. by apply list_elem_of_fmap_2.
      * intros Hnin. apply list_elem_of_fmap in Hnin as (k' & He & Hk'). by apply list_elem_of_filter in Hk' as [Hne _].
  - destruct (skip_loop _ _ _ _) as [ratchet skipped] eqn:Hloop. cbn [create_remote_message_key].
    apply skip_loop_index in Hloop as (Hri & Hsl & Hsk); [|unfold i, MAX_MESSAGE_GAP in *; cbn; lia..].
    destruct (found_decrypt _ _ _); intros [= <- <-]; [|done].
    assert (Hnew : ck_index (chain_advance ratchet) = n + 1) by (cbn; rewrite Hri, Z.mod_small; lia).
    assert (Hmem : ∀ k, k ∈ store_merge (rc_skipped c) skipped → k ∈ rc_skipped c ∨ i ≤ rmk_index k < n).
    { intros k Hk. apply elem_of_store_merge in Hk as [|Hk]; [auto| |done]. destruct (Hsk k Hk) as [Hnil|]; [|auto]. by apply elem_of_nil in Hnil. }
    rewrite Forall_forall in Hs. unfold chain_ok, spent. cbn [rc_hkdf_ratchet rc_skipped]. rewrite Hnew. split_and!; [lia|lia| | | |].
    + apply Forall_forall. intros k Hk. apply Hmem in Hk as [Hk|]; [apply Hs in Hk|]; lia.
    + rewrite store_merge_lastn by done. apply lastn_length.
    + intros n' [Hn' Hnin]. split; [lia|]. contradict Hnin. apply list_elem_of_fmap in Hnin as (k' & -> & Hk').
      apply Hmem in Hk' as [|]; [by apply list_elem_of_fmap_2|fold i in Hn'; lia].
    + intros p _. split; [intros [Hn' _]; fold i in Hn'; lia|]. split; [lia|]. intros Hnin.
      apply list_elem_of_fmap in Hnin as (k' & He & Hk'). apply Hmem in Hk' as [Hk'|]; [apply Hs in Hk'|]; lia.
Qed.

(** The numbers of the messages a chain opens, in the order they arrive. *)
Fixpoint opened (c : ReceiverChain) (config : OlmSessionConfig) (ms : list Message) : list Z :=
  match ms with
  | [] => []
  | m :: ms =>
      let '(c, r) := chain_decrypt c m config in
      (if is_ok r then [msg_chain_index m] else []) ++ opened c config ms
  end.

Lemma opened_unspent c config ms n :
  chain_ok c → Forall (λ m, 0 ≤ msg_chain_index m ∧ msg_chain_index m + 1 < u64_mod) ms → spent c n → n ∉ opened c config ms.
Proof.
  revert c. induction ms as [|m ms IH]; intros c Hok Hms Hsp; [apply not_elem_of_nil|].
  apply Forall_cons in Hms as [[Hm Hm1] Hms]. cbn [opened]. destruct (chain_decrypt c m config) as [c' r] eqn:Hd.
  apply chain_decrypt_spent in Hd as (Hok' & Hsp' & Hr); [|done..]. rewrite elem_of_app. intros [Hin|Hin].
  - destruct r as [p|]; [|by apply elem_of_nil in Hin]. apply list_elem_of_singleton in Hin as ->. by destruct (Hr p eq_refl).
  - eapply IH; eauto.
Qed.

(** Whatever arrives on a receiver chain, in whatever order and however often, genuine or not, no two messages
    of one number are opened: a message that was read once is refused from then on. *)
Theorem messages_open_once c config ms :
  chain_ok c → Forall (λ m, 0 ≤ msg_chain_index m ∧ msg_chain_index m + 1 < u64_mod) ms → NoDup (opened c config ms).
Proof.
  revert c. induction ms as [|m ms IH]; intros c Hok Hms; [constructor|].
  apply Forall_cons in Hms as [[Hm Hm1] Hms]. cbn [opened]. destruct (chain_decrypt c m config) as [c' r] eqn:Hd.
  apply chain_decrypt_spent in Hd as (Hok' & _ & Hr); [|done..]. destruct r as [p|]; cbn; [|by apply IH].
  constructor; [|by apply IH]. destruct (Hr p eq_refl) as [_ Hsp]. by apply opened_unspent.
Qed.

End Olm.
