(* ===== verification/OlmConversation.v ===== *)
(** * Two Olm sessions in conversation

    From the message that starts a session on, the two ends read each other, whoever speaks and
    however often the direction changes; the account that accepted the session no longer has the
    one-time key it was made with. *)

From S2P Require Import Prelude Primitives CanonicalJson MegolmRatchet Megolm MegolmProps Olm OlmAccount OlmProps.

Local Open Scope Z_scope.

Section Conversation.
Context `{HmacSha256, !HmacSha256Laws, MegolmCrypto, !MegolmCryptoLaws, Curve25519, !Curve25519Laws,
  !EqDecision Curve25519PublicKey}.

Lemma dh_agrees a b : diffie_hellman a (curve_public b) = Some (x25519 b (curve_public a)).
Proof. unfold diffie_hellman. by rewrite x25519_honest, x25519_agrees. Qed.

(** ** Chains of a session *)

Definition chain_keys (s : Session) : list Curve25519PublicKey := rc_ratchet_key <$> ss_receiving_chains s.

Lemma find_chain_None chains k : k ∉ rc_ratchet_key <$> chains → find_chain chains k = None.
Proof.
  intros Hk. apply list_find_None, Forall_forall. intros c Hc Hb. apply bool_decide_eq_true in Hb. apply Hk. rewrite <- Hb.
  by apply list_elem_of_fmap_2.
Qed.

Lemma find_chain_insert chains k i c c' :
  find_chain chains k = Some (i, c) → rc_ratchet_key c' = k → find_chain (<[i := c']> chains) k = Some (i, c').
Proof.
  intros Hf Hk. apply list_find_Some in Hf as (Hi & _ & Hmin). apply list_find_Some. split_and!.
  - apply list_lookup_insert_eq. by eapply lookup_lt_Some.
  - by apply bool_decide_eq_true.
  - intros j c0 Hj Hlt. rewrite list_lookup_insert_ne in Hj by lia. by eapply Hmin.
Qed.

Lemma find_chain_push chains k c :
  k ∉ rc_ratchet_key <$> chains → rc_ratchet_key c = k → ∃ i, find_chain (chain_push chains c) k = Some (i, c).
Proof.
  intros Hk Hc.
  assert (Happ : ∀ l, k ∉ rc_ratchet_key <$> l → ∃ i, find_chain (l ++ [c]) k = Some (i, c)).
  { intros l Hl. exists (length l). apply list_find_Some. split_and!.
    - by rewrite lookup_app_r, Nat.sub_diag by lia.
    - by apply bool_decide_eq_true.
    - intros j c0 Hj Hlt Hb. rewrite lookup_app_l in Hj by done. apply Hl. apply bool_decide_eq_true in Hb. rewrite <- Hb.
      apply list_elem_of_fmap_2. by eapply list_elem_of_lookup_2. }
  unfold chain_push. destruct (_ =? _)%nat; apply Happ; [|done]. contradict Hk. destruct chains; [done|]. cbn in *. by right.
Qed.

Lemma chain_push_keys chains c k : k ∈ rc_ratchet_key <$> chain_push chains c → k ∈ rc_ratchet_key <$> chains ∨ k = rc_ratchet_key c.
Proof.
  unfold chain_push. destruct (_ =? _)%nat; rewrite fmap_app, elem_of_app; intros [Hk|Hk]; auto;
    try (right; by apply list_elem_of_singleton in Hk). left. destruct chains; [done|]. cbn in *. by right.
Qed.

(** ** Sessions that agree *)

(** [leader]'s sending chain, of which it has sent [j] messages, is the chain [follower] receives on and has read in
    full; [follower] will speak next under [leader]'s root key. [budget] more messages fit the counters. *)
Definition agree (budget : nat) (leader follower : Session) : Prop :=
  ∃ parent count origin root t j count' i c avail,
    ss_sending_ratchet leader = Active (mkActive parent count (mkSendRatchet root t) (chain_at origin j)) ∧
    ss_sending_ratchet follower = Inactive (mkInactive root (curve_public t) count') ∧
    find_chain (ss_receiving_chains follower) (curve_public t) = Some (i, c) ∧
    represents origin (curve_public t) (mkWindow j avail) c ∧
    Z.of_nat j + Z.of_nat budget + 1 < u64_mod.

Context `{Primitives} `{MegolmWire}.

(** One message from [a] to [b]: both ends afterwards, and what [b] read. *)
Definition say (a b : Session) (fresh their_fresh : Curve25519SecretKey) (plaintext : string) : option (Session * Session * string) :=
  match session_encrypt a fresh plaintext with
  | (a, Ok m) =>
      match session_decrypt b their_fresh m with
      | (b, Ok p) => Some (a, b, p)
      | (_, Err _) => None
      end
  | (_, Err _) => None
  end.

Definition inner_message (m : OlmMessage) : Message := match m with OlmNormal m => m | OlmPreKey m => pk_message m end.

(** [a] makes a message of its chain, [b] reads it. *)
Definition says (a b : Session) (fresh their_fresh : Curve25519SecretKey) (plaintext : string) (a' b' : Session) : Prop :=
  ∃ m origin k n, session_encrypt a fresh plaintext = (a', Ok m) ∧ session_decrypt b their_fresh m = (b', Ok plaintext) ∧
    inner_message m = sent origin k n plaintext ∧ Z.of_nat n < u64_mod.

Lemma says_say a b fresh their_fresh plaintext a' b' :
  says a b fresh their_fresh plaintext a' b' → say a b fresh their_fresh plaintext = Some (a', b', plaintext).
Proof. intros (m & ? & ? & ? & He & Hd & _). unfold say. by rewrite He, Hd. Qed.

Lemma session_decrypt_inner s fresh m : session_decrypt s fresh m = decrypt_decoded s fresh (inner_message m).
Proof. by destruct m. Qed.

Lemma session_encrypt_ratchet s fresh plaintext d m :
  ratchet_encrypt (ss_sending_ratchet s) fresh plaintext = (d, Ok m) →
  ∃ om, session_encrypt s fresh plaintext = (mkSession (ss_session_keys s) d (ss_receiving_chains s) (ss_config s), Ok om) ∧
    inner_message om = m.
Proof.
  intros Hd. unfold session_encrypt. destruct (olm_config_version (ss_config s)). rewrite Hd.
  eexists. split; [reflexivity|]. by destruct (has_received_message _).
Qed.

Lemma active_encrypt parent count root t origin j fresh plaintext :
  Z.of_nat j + 1 < u64_mod →
  ratchet_encrypt (Active (mkActive parent count (mkSendRatchet root t) (chain_at origin j))) fresh plaintext =
  (Active (mkActive parent count (mkSendRatchet root t) (chain_at origin (S j))), Ok (sent origin (curve_public t) j plaintext)).
Proof. intros Hj. unfold ratchet_encrypt. cbn. by rewrite chain_at_index by lia. Qed.

(** The leader goes on speaking. *)
Lemma leader_speaks budget a b fresh their_fresh plaintext :
  agree (S budget) a b →
  ∃ a' b', says a b fresh their_fresh plaintext a' b' ∧ agree budget a' b' ∧
    chain_keys a' = chain_keys a ∧ chain_keys b' = chain_keys b.
Proof.
  intros (parent & count & origin & root & t & j & count' & i & c & avail & Ha & Hb & Hf & Hr & Hj).
  pose proof (active_encrypt parent count root t origin j fresh plaintext ltac:(lia)) as He. rewrite <- Ha in He.
  destruct (session_encrypt_ratchet a fresh plaintext _ _ He) as (m & Hm & Hin).
  destruct (chain_decrypt_window origin (curve_public t) _ c j plaintext (ss_config b) Hr) as (c' & Hc & Hr'); [lia|].
  unfold window_receive in Hc, Hr'. cbn [w_next w_avail] in Hc, Hr'. rewrite Nat.sub_diag in Hc, Hr'.
  rewrite Nat.ltb_irrefl in Hc, Hr'. change (MAX_MESSAGE_GAP <? Z.of_nat 0) with false in Hc, Hr'. cbn [fst snd result_map] in Hc, Hr'.
  assert (Hd : session_decrypt b their_fresh m =
    (mkSession (ss_session_keys b) (ss_sending_ratchet b) (<[i := c']> (ss_receiving_chains b)) (ss_config b), Ok plaintext)).
  { rewrite session_decrypt_inner, Hin. unfold decrypt_decoded.
    change (msg_ratchet_key (sent origin (curve_public t) j plaintext)) with (curve_public t). by rewrite Hf, Hc. }
  do 2 eexists. split; [exists m, origin, (curve_public t), j; split_and!; [exact Hm|exact Hd|exact Hin|lia]|]. assert (Hk : rc_ratchet_key c' = curve_public t) by apply Hr'. split_and!; [|done|].
  - do 10 eexists. split_and!; [reflexivity|exact Hb|by eapply find_chain_insert|exact Hr'|lia].
  - unfold chain_keys. cbn. rewrite list_fmap_insert. apply list_insert_id. apply list_find_Some in Hf as (Hi & Hbel & _).
    apply bool_decide_eq_true in Hbel. rewrite list_lookup_fmap, Hi. cbn. by rewrite Hk, Hbel.
Qed.

(** Both ends derive the same root key and chain from a new ratchet key. *)
Lemma advance_agrees parent count root t chain fresh :
  active_advance (mkActive parent count (mkSendRatchet root t) chain) (curve_public fresh) =
  let output := hkdf_sha256 root (x25519 fresh (curve_public t)) ROOT_SEED 64 in
  Some (mkInactive (s_take 32 output) (curve_public fresh) (count_advance count),
        receiver_chain_new (curve_public fresh) (chain_new (s_drop 32 output)) (count_advance count)).
Proof. unfold active_advance, ratchet_advance, root_advance, kdf. cbn [ar_active_ratchet sr_ratchet_key sr_root_key]. by rewrite dh_agrees. Qed.

(** The follower answers, and leads from then on. *)
Lemma follower_speaks budget a b fresh their_fresh plaintext :
  agree (S budget) a b → curve_public fresh ∉ chain_keys a →
  ∃ b' a', says b a fresh their_fresh plaintext b' a' ∧ agree budget b' a' ∧
    chain_keys b' = chain_keys b ∧ (∀ k, k ∈ chain_keys a' → k ∈ chain_keys a ∨ k = curve_public fresh).
Proof.
  intros (parent & count & origin & root & t & j & count' & i & c & avail & Ha & Hb & Hf & Hr & Hj) Hfresh.
  set (secret := x25519 t (curve_public fresh)). set (output := hkdf_sha256 root secret ROOT_SEED 64).
  set (origin' := s_drop 32 output). set (root' := s_take 32 output).
  destruct (session_encrypt_ratchet b fresh plaintext
    (Active (mkActive (Some (curve_public t)) (count_advance count') (mkSendRatchet root' fresh) (chain_at origin' 1)))
    (sent origin' (curve_public fresh) 0 plaintext)) as (m & Hm & Hin).
  { rewrite Hb. unfold ratchet_encrypt, next_message_key, activate, remote_root_advance, kdf. cbn [ir_root_key ir_ratchet_key].
    rewrite dh_agrees. reflexivity. }
  destruct (chain_decrypt_window origin' (curve_public fresh) (mkWindow 0 [])
    (receiver_chain_new (curve_public fresh) (chain_new origin') (count_advance count)) 0 plaintext (ss_config a)) as (c' & Hc & Hr').
  { split_and!; cbn; try done. split_and!; cbn; [constructor|constructor|lia]. }
  { cbn. done. }
  cbn [fst snd result_map window_receive w_next w_avail] in Hc, Hr'.
  assert (Hd : session_decrypt a their_fresh m =
    (mkSession (ss_session_keys a) (Inactive (mkInactive root' (curve_public fresh) (count_advance count)))
       (chain_push (ss_receiving_chains a) c') (ss_config a), Ok plaintext)).
  { rewrite session_decrypt_inner, Hin. unfold decrypt_decoded.
    change (msg_ratchet_key (sent origin' (curve_public fresh) 0 plaintext)) with (curve_public fresh).
    rewrite find_chain_None by exact Hfresh. rewrite Ha. cbn [double_advance]. rewrite advance_agrees, <- x25519_agrees.
    cbv zeta. fold secret output. fold origin' root'. cbn [ok_or]. by rewrite Hc. }
  assert (Hk : rc_ratchet_key c' = curve_public fresh) by apply Hr'.
  do 2 eexists. split; [exists m, origin', (curve_public fresh), 0%nat; split_and!; [exact Hm|exact Hd|exact Hin|done]|]. split_and!; [|done|].
  - destruct (find_chain_push (ss_receiving_chains a) (curve_public fresh) c' Hfresh Hk) as (i' & Hi').
    do 10 eexists. split_and!; [reflexivity|reflexivity|exact Hi'|exact Hr'|lia].
  - intros k Hin'. unfold chain_keys in Hin'. cbn in Hin'. apply chain_push_keys in Hin' as [|]; [auto|]. rewrite Hk in *. auto.
Qed.

(** ** Conversations *)

Definition in_touch (budget : nat) (a b : Session) : Prop := agree budget a b ∨ agree budget b a.

(** One utterance: whether the first party speaks, the keys the two ends would make, and the text. *)
Record Utterance := mkUtterance { u_first : bool; u_fresh : Curve25519SecretKey; u_their_fresh : Curve25519SecretKey; u_text : string }.

Fixpoint converse (a b : Session) (script : list Utterance) : option (list string) :=
  match script with
  | [] => Some []
  | u :: script =>
      '(a, b, p) ← (if u_first u then say a b (u_fresh u) (u_their_fresh u) (u_text u)
                    else '(b, a, p) ← say b a (u_fresh u) (u_their_fresh u) (u_text u); Some (a, b, p));
      ps ← converse a b script;
      Some (p :: ps)
  end.

Lemma say_in_touch budget a b fresh their_fresh plaintext :
  in_touch (S budget) a b → curve_public fresh ∉ chain_keys b →
  ∃ a' b', says a b fresh their_fresh plaintext a' b' ∧ in_touch budget a' b' ∧
    ∀ k, k ∈ chain_keys a' ∨ k ∈ chain_keys b' → k ∈ chain_keys a ∨ k ∈ chain_keys b ∨ k = curve_public fresh.
Proof.
  intros [Hag|Hag] Hfresh.
  - destruct (leader_speaks budget a b fresh their_fresh plaintext Hag) as (a' & b' & Hs & Hag' & Ha & Hb).
    exists a', b'. split_and!; [done|by left|]. rewrite Ha, Hb. tauto.
  - destruct (follower_speaks budget b a fresh their_fresh plaintext Hag Hfresh) as (a' & b' & Hs & Hag' & Ha & Hb).
    exists a', b'. split_and!; [done|by left|]. rewrite Ha. intros k [Hk|Hk]; [auto|]. destruct (Hb k Hk); auto.
Qed.

Lemma in_touch_sym budget a b : in_touch budget a b → in_touch budget b a.
Proof. unfold in_touch. tauto. Qed.

Lemma converse_reads a b script :
  in_touch (length script) a b → NoDup (curve_public <$> (u_fresh <$> script)) →
  (∀ k, k ∈ chain_keys a ∨ k ∈ chain_keys b → k ∉ curve_public <$> (u_fresh <$> script)) →
  converse a b script = Some (u_text <$> script).
Proof.
  revert a b. induction script as [|[first fresh their p] script IH]; intros a b Ht Hnd Hk; [done|].
  cbn [length fmap list_fmap u_fresh u_text] in *. apply NoDup_cons in Hnd as [Hnin Hnd].
  assert (Hnext : ∀ a' b', in_touch (length script) a' b' →
    (∀ k, k ∈ chain_keys a' ∨ k ∈ chain_keys b' → k ∈ chain_keys a ∨ k ∈ chain_keys b ∨ k = curve_public fresh) →
    converse a' b' script = Some (u_text <$> script)).
  { intros a' b' Ht' Hk'. apply IH; [done|done|]. intros k Hin. apply Hk' in Hin as [Hin|[Hin| ->]]; [| |done].
    - assert (k ∉ curve_public fresh :: (curve_public <$> (u_fresh <$> script))) as Hn by auto. by apply not_elem_of_cons in Hn as [_ ?].
    - assert (k ∉ curve_public fresh :: (curve_public <$> (u_fresh <$> script))) as Hn by auto. by apply not_elem_of_cons in Hn as [_ ?]. }
  cbn [converse u_first u_fresh u_their_fresh u_text]. destruct first.
  - destruct (say_in_touch (length script) a b fresh their p) as (a' & b' & Hs & Ht' & Hk'); [done| |].
    { intros Hb. apply (Hk (curve_public fresh)); [auto|by left]. }
    rewrite (says_say _ _ _ _ _ _ _ Hs). cbn [mbind option_bind]. by rewrite Hnext.
  - destruct (say_in_touch (length script) b a fresh their p) as (b' & a' & Hs & Ht' & Hk'); [by apply in_touch_sym| |].
    { intros Ha. apply (Hk (curve_public fresh)); [auto|by left]. }
    rewrite (says_say _ _ _ _ _ _ _ Hs). cbn [mbind option_bind]. rewrite Hnext; [done|by apply in_touch_sym|]. intros k Hin. destruct (Hk' k) as [|[|]]; tauto.
Qed.

(** ** The message that starts a session *)

Context `{!Countable Curve25519PublicKey} `{Ed25519Keys}.

(** The public half of the identity key belongs to the secret one. *)
Definition identity_ok (a : Account) : Prop := curve25519_key a = curve_public (kp_secret_key (ac_diffie_hellman_key a)).

Lemma secrets_agree a b base otk :
  identity_ok a → identity_ok b →
  ∃ secret, shared_secret (kp_secret_key (ac_diffie_hellman_key a)) base (curve25519_key b) (curve_public otk) = Some secret ∧
    remote_shared_secret (kp_secret_key (ac_diffie_hellman_key b)) otk (curve25519_key a) (curve_public base) = Some secret.
Proof.
  intros -> ->. unfold shared_secret, remote_shared_secret. rewrite !dh_agrees. cbn [mbind option_bind].
  eexists. split; [reflexivity|]. f_equal. by rewrite (x25519_agrees otk), (x25519_agrees otk base), (x25519_agrees (kp_secret_key _) base).
Qed.

Lemma session_established a b otk base fresh fresh1 fresh2 plaintext budget :
  identity_ok a → identity_ok b → find_one_time_key b (curve_public otk) = Some otk → Z.of_nat budget + 2 < u64_mod →
  ∃ s s1 m sb,
    create_outbound_session a olm_version_1 (curve25519_key b) (curve_public otk) base fresh = Ok s ∧
    session_encrypt s fresh1 plaintext = (s1, Ok (OlmPreKey m)) ∧
    create_inbound_session b olm_version_1 (curve25519_key a) m fresh2 =
      ((remove_one_time_key_helper b (curve_public otk)).1, Ok (sb, plaintext)) ∧
    olm_session_id sb = olm_session_id s1 ∧ agree budget s1 sb ∧ chain_keys s1 = [] ∧ chain_keys sb = [curve_public fresh] ∧
    ∃ origin, pk_message m = sent origin (curve_public fresh) 0 plaintext.
Proof.
  intros Ha Hb Hotk Hbudget. destruct (secrets_agree a b base otk Ha Hb) as (secret & Hs & Hr).
  set (origin := (expand_secret secret).2). set (root := (expand_secret secret).1).
  set (keys := mkSessionKeys (curve25519_key a) (curve_public base) (curve_public otk)).
  exists (session_new olm_version_1 secret keys fresh).
  set (s1 := mkSession keys (Active (mkActive None count_new (mkSendRatchet root fresh) (chain_at origin 1))) [] olm_version_1).
  set (m := mkPreKey keys (sent origin (curve_public fresh) 0 plaintext)).
  destruct (chain_decrypt_window origin (curve_public fresh) (mkWindow 0 [])
    (receiver_chain_new (curve_public fresh) (chain_new origin) count_new) 0 plaintext olm_version_1) as (c' & Hc & Hr').
  { split_and!; cbn; try done. split_and!; cbn; [constructor|constructor|lia]. }
  { cbn. done. }
  cbn [fst snd result_map window_receive w_next w_avail] in Hc, Hr'. assert (Hk : rc_ratchet_key c' = curve_public fresh) by apply Hr'.
  set (sb := mkSession keys (inactive_from_prekey_data root (curve_public fresh)) [c'] olm_version_1).
  exists s1, m, sb. split_and!.
  - unfold create_outbound_session. by rewrite Hs.
  - reflexivity.
  - unfold create_inbound_session. cbn [m pk_session_keys pk_message keys sk_identity_key sk_one_time_key sk_base_key].
    rewrite bool_decide_true by done. cbn [negb]. change (msg_version _ =? MAC_TRUNCATED_VERSION) with true. cbv iota.
    rewrite bool_decide_true by done. cbn [negb]. rewrite Hotk. cbn [ok_or]. rewrite Hr. cbn [ok_or].
    unfold session_new_remote. rewrite (surjective_pairing (expand_secret secret)). fold origin root. unfold decrypt_decoded.
    change (msg_ratchet_key (sent origin (curve_public fresh) 0 plaintext)) with (curve_public fresh).
    cbn [ss_receiving_chains ss_config]. unfold find_chain, chain_push. cbn [length Nat.eqb MAX_RECEIVING_CHAINS app list_find].
    rewrite decide_True by (by apply bool_decide_eq_true). rewrite Hc. reflexivity.
  - reflexivity.
  - exists None, count_new, origin, root, fresh, 1%nat, count_new, 0%nat, c', []. split_and!; [done|done| |exact Hr'|lia].
    unfold find_chain. cbn. rewrite decide_True by (by apply bool_decide_eq_true). done.
  - reflexivity.
  - unfold chain_keys. cbn. by rewrite Hk.
  - by exists origin.
Qed.

(** C8: Two devices reach each other: from one device's account and the other's identity and one-time key a
    session starts; its first message is accepted at the other end, which reads what was written, gives the session
    the same id and forgets the one-time key; and from then on each of the two reads exactly what the other writes,
    whoever speaks and however often the direction changes. *)
Theorem olm_conversation a b otk base fresh fresh1 fresh2 plaintext script :
  identity_ok a → identity_ok b → find_one_time_key b (curve_public otk) = Some otk →
  Z.of_nat (length script) + 2 < u64_mod → NoDup (curve_public <$> (fresh :: (u_fresh <$> script))) →
  ∃ s s1 m sb,
    create_outbound_session a olm_version_1 (curve25519_key b) (curve_public otk) base fresh = Ok s ∧
    session_encrypt s fresh1 plaintext = (s1, Ok (OlmPreKey m)) ∧
    create_inbound_session b olm_version_1 (curve25519_key a) m fresh2 =
      ((remove_one_time_key_helper b (curve_public otk)).1, Ok (sb, plaintext)) ∧
    olm_session_id sb = olm_session_id s1 ∧ converse s1 sb script = Some (u_text <$> script).
Proof.
  intros Ha Hb Hotk Hlen Hnd. cbn [fmap list_fmap] in Hnd. apply NoDup_cons in Hnd as [Hnin Hnd].
  destruct (session_established a b otk base fresh fresh1 fresh2 plaintext (length script) Ha Hb Hotk Hlen)
    as (s & s1 & m & sb & Hout & Henc & Hinb & Hid & Hag & Hk1 & Hk2 & _).
  exists s, s1, m, sb. split_and!; [done..|]. apply converse_reads; [by left|done|]. rewrite Hk1, Hk2. intros k [Hk|Hk].
  - by apply elem_of_nil in Hk.
  - apply list_elem_of_singleton in Hk as ->. done.
Qed.

End Conversation.
