(* ===== verification/OlmAccountProps.v ===== *)
(** * Properties of Olm accounts

    Every account that can come about keeps its key tables consistent and bounded and survives
    being stored; a one-time key starts one session, a fallback key any number of them. *)

From S2P Require Import Prelude Primitives CanonicalJson MegolmRatchet Megolm Olm OlmAccount.

Local Open Scope Z_scope.

(** ** [BTreeMap] entries *)

Lemma id_entries_perm {V} (m : gmap Z V) : id_entries m ≡ₚ map_to_list m.
Proof. apply merge_sort_Permutation. Qed.

Lemma first_id_Some {V} (m : gmap Z V) i : first_id m = Some i → is_Some (m !! i).
Proof.
  unfold first_id. destruct (id_entries m) as [|[j v] l] eqn:He; [done|]. cbn. intros [= <-].
  exists v. apply elem_of_map_to_list. rewrite <- id_entries_perm, He. by left.
Qed.

Lemma first_id_None {V} (m : gmap Z V) : first_id m = None → m = ∅.
Proof.
  unfold first_id. destruct (id_entries m) as [|[j v] l] eqn:He; [|done]. intros _. apply map_to_list_empty_iff.
  pose proof (id_entries_perm m) as Hp. rewrite He in Hp. by apply Permutation_nil_l in Hp.
Qed.

Section AccountProps.
Context `{HmacSha256} `{MegolmCrypto} `{Curve25519} `{!EqDecision Curve25519PublicKey} `{!Countable Curve25519PublicKey}.

(** ** One-time keys *)

(** The index of public keys is the inverse of the table of private keys; numbers are handed out in order. *)
Record otk_wf (o : OneTimeKeys) : Prop := mkOtkWf {
  wf_index : ∀ pk id, key_ids_by_key o !! pk = Some id ↔ ∃ sk, private_keys o !! id = Some sk ∧ curve_public sk = pk;
  wf_unpublished : ∀ id pk, unpublished_public_keys o !! id = Some pk → ∃ sk, private_keys o !! id = Some sk ∧ curve_public sk = pk;
  wf_ids : ∀ id, is_Some (private_keys o !! id) → 0 ≤ id < next_key_id o;
  wf_next : 0 ≤ next_key_id o;
  wf_size : Z.of_nat (size (private_keys o)) ≤ MAX_ONE_TIME_KEYS }.

Lemma otk_new_wf : otk_wf OneTimeKeys_new.
Proof.
  split; cbn [OneTimeKeys_new key_ids_by_key private_keys unpublished_public_keys next_key_id].
  - intros pk id. rewrite lookup_empty. split; [done|]. intros (sk & Hsk & _). by rewrite lookup_empty in Hsk.
  - intros id pk Hpk. by rewrite lookup_empty in Hpk.
  - intros id [? Hid]. by rewrite lookup_empty in Hid.
  - done.
  - rewrite map_size_empty. done.
Qed.

Lemma publish_wf o : otk_wf o → otk_wf (otk_mark_as_published o).
Proof. intros [? ? ? ? ?]. by split. Qed.

(** Taking a key and its public half out of the tables. *)
Lemma otk_delete_wf o id sk :
  otk_wf o → private_keys o !! id = Some sk →
  otk_wf (mkOneTimeKeys (next_key_id o) (delete id (unpublished_public_keys o)) (delete id (private_keys o))
            (delete (curve_public sk) (key_ids_by_key o))).
Proof.
  intros [Hix Hun Hids Hnx Hsz] Hsk.
  assert (Hid : key_ids_by_key o !! curve_public sk = Some id) by (apply Hix; eauto).
  split; cbn.
  - intros pk id'. rewrite lookup_delete_Some, Hix. split.
    + intros (Hne & sk' & Hsk' & <-). exists sk'. split; [|done]. rewrite lookup_delete_ne; [done|]. intros ->. congruence.
    + intros (sk' & Hsk' & <-). apply lookup_delete_Some in Hsk' as [Hne Hsk']. split; [|eauto]. intros Heq.
      assert (key_ids_by_key o !! curve_public sk' = Some id') by (apply Hix; eauto). congruence.
  - intros id' pk Hpk. apply lookup_delete_Some in Hpk as [Hne Hpk]. destruct (Hun _ _ Hpk) as (sk' & ? & ?).
    exists sk'. by rewrite lookup_delete_ne.
  - intros id' [sk' Hsk']. apply lookup_delete_Some in Hsk' as [_ Hsk']. eauto.
  - done.
  - rewrite map_size_delete, Hsk. lia.
Qed.

Lemma remove_wf o pk : otk_wf o → otk_wf (remove_secret_key o pk).1.
Proof.
  intros Ho. unfold remove_secret_key. destruct (key_ids_by_key o !! pk) as [id|] eqn:Hid; [|done]. cbn.
  destruct (proj1 (wf_index o Ho pk id) Hid) as (sk & Hsk & <-). by apply otk_delete_wf.
Qed.

Lemma make_room_wf o : otk_wf o → otk_wf (make_room o).1 ∧ Z.of_nat (size (private_keys (make_room o).1)) < MAX_ONE_TIME_KEYS ∧
  next_key_id (make_room o).1 = next_key_id o ∧ (∀ id, is_Some (private_keys (make_room o).1 !! id) → is_Some (private_keys o !! id)) ∧
  (∀ pk, is_Some (key_ids_by_key (make_room o).1 !! pk) → is_Some (key_ids_by_key o !! pk)).
Proof.
  intros Ho. unfold make_room. destruct (Z.leb_spec MAX_ONE_TIME_KEYS (Z.of_nat (size (private_keys o)))) as [Hfull|]; [|done].
  destruct (first_id (private_keys o)) as [id|] eqn:Hid.
  - pose proof (first_id_Some _ _ Hid) as [sk Hsk]. rewrite Hsk. cbn. split_and!; [by apply otk_delete_wf| |done| |].
    + pose proof (wf_size o Ho). rewrite map_size_delete, Hsk. change MAX_ONE_TIME_KEYS with 5000 in *. lia.
    + intros id' [? Hid']. apply lookup_delete_Some in Hid' as [_ ?]. eauto.
    + intros pk [? Hpk]. apply lookup_delete_Some in Hpk as [_ ?]. eauto.
  - apply first_id_None in Hid. rewrite Hid, map_size_empty in Hfull. change MAX_ONE_TIME_KEYS with 5000 in *. lia.
Qed.

(** A round of [generate], with the next number. *)
Definition otk_round (o : OneTimeKeys) (key : Curve25519SecretKey) : OneTimeKeys :=
  let o := (generate_one_time_key o key).1 in
  mkOneTimeKeys ((next_key_id o + 1) mod u64_mod) (unpublished_public_keys o) (private_keys o) (key_ids_by_key o).

Lemma otk_round_wf o key :
  otk_wf o → key_ids_by_key o !! curve_public key = None → next_key_id o + 1 < u64_mod →
  otk_wf (otk_round o key) ∧ next_key_id (otk_round o key) = next_key_id o + 1 ∧
  ∀ pk, is_Some (key_ids_by_key (otk_round o key) !! pk) → pk = curve_public key ∨ is_Some (key_ids_by_key o !! pk).
Proof.
  intros Ho Hnew Hnx. unfold otk_round, generate_one_time_key, insert_secret_key.
  destruct (make_room_wf o Ho) as (Hr & Hsz & Hrn & Hrp & Hrk). destruct (make_room o) as [r removed] eqn:Hmr. cbn in *.
  destruct Hr as [Hix Hun Hids Hrn0 _].
  assert (Hfree : private_keys r !! next_key_id o = None).
  { apply eq_None_not_Some. intros Hs. apply Hids in Hs. lia. }
  assert (Hkey : key_ids_by_key r !! curve_public key = None).
  { apply eq_None_not_Some. intros Hs. apply Hrk in Hs. rewrite Hnew in Hs. by destruct Hs. }
  rewrite Hrn in *. rewrite Z.mod_small by lia. split_and!; [|done|].
  2:{ intros pk [id Hpk]. apply lookup_insert_Some in Hpk as [[? _]|[_ ?]]; eauto. }
  split; cbn.
  - intros pk id. rewrite lookup_insert_Some, Hix. split.
    + intros [[<- <-]|[Hne (sk & Hsk & <-)]]; [exists key; by rewrite lookup_insert_eq|].
      exists sk. split; [|done]. rewrite lookup_insert_ne; [done|]. intros <-. by rewrite Hfree in Hsk.
    + intros (sk & Hsk & <-). apply lookup_insert_Some in Hsk as [[<- <-]|[Hne Hsk]]; [by left|]. right. split; [|eauto].
      intros Heq. assert (key_ids_by_key r !! curve_public sk = Some id) as Hc by (apply Hix; eauto). rewrite <- Heq, Hkey in Hc. done.
  - intros id pk Hpk. apply lookup_insert_Some in Hpk as [[<- <-]|[Hne Hpk]]; [exists key; by rewrite lookup_insert_eq|].
    destruct (Hun _ _ Hpk) as (sk & ? & ?). exists sk. by rewrite lookup_insert_ne.
  - intros id Hs. apply lookup_insert_is_Some in Hs as [<-|[Hne Hs]]; [lia|]. apply Hids in Hs. lia.
  - lia.
  - rewrite map_size_insert, Hfree. lia.
Qed.

Lemma otk_generate_cons o key fresh : (otk_generate o (key :: fresh)).1 = (otk_generate (otk_round o key) fresh).1.
Proof.
  cbn [otk_generate]. unfold otk_round. destruct (generate_one_time_key o key) as [o' [created removed]]. cbn.
  by destruct (otk_generate _ fresh) as [? [? ?]].
Qed.

Lemma otk_generate_wf o fresh :
  otk_wf o → NoDup (curve_public <$> fresh) → (∀ k, k ∈ fresh → key_ids_by_key o !! curve_public k = None) →
  next_key_id o + Z.of_nat (length fresh) < u64_mod → otk_wf (otk_generate o fresh).1.
Proof.
  revert o. induction fresh as [|key fresh IH]; intros o Ho Hnd Hnew Hnx; [done|].
  cbn [fmap list_fmap length] in *. apply NoDup_cons in Hnd as [Hnin Hnd]. rewrite otk_generate_cons.
  destruct (otk_round_wf o key) as (Hwf & Hn & Hk); [done|apply Hnew; by left|lia|].
  apply IH; [done|done| |lia]. intros k Hin. apply eq_None_not_Some. intros Hs. apply Hk in Hs as [Heq|Hs].
  - apply Hnin. rewrite <- Heq. by apply list_elem_of_fmap_2.
  - rewrite Hnew in Hs by (by right). by destruct Hs.
Qed.

(** Rebuilding the index from the private keys. *)
Lemma rebuilt_index (l : list (Z * Curve25519SecretKey)) (acc : gmap Curve25519PublicKey Z) pk id :
  NoDup (curve_public <$> l.*2) → (∀ p, p ∈ curve_public <$> l.*2 → acc !! p = None) →
  foldl (λ by_key '(k, v), <[curve_public v := k]> by_key) acc l !! pk = Some id ↔
  acc !! pk = Some id ∨ ∃ sk, (id, sk) ∈ l ∧ curve_public sk = pk.
Proof.
  revert acc. induction l as [|[k v] l IH]; intros acc Hnd Hacc; cbn [foldl fmap list_fmap snd] in *.
  { split; [auto|]. intros [?|(sk & Hin & _)]; [done|]. by apply elem_of_nil in Hin. }
  apply NoDup_cons in Hnd as [Hnin Hnd]. rewrite IH; [|done|].
  2:{ intros p Hp. rewrite lookup_insert_ne; [apply Hacc; by right|]. intros <-. done. }
  rewrite lookup_insert_Some. split.
  - intros [[[<- <-]|[Hne Ha]]|(sk & Hin & <-)]; [right; exists v; split; [by left|done]|by left|right; exists sk; split; [by right|done]].
  - intros [Ha|(sk & Hin & <-)].
    + left. right. split; [|done]. intros <-. rewrite Hacc in Ha by (by left). done.
    + apply elem_of_cons in Hin as [[= <- <-]|Hin]; [left; by left|right; eauto].
Qed.

Lemma otk_pickle_roundtrip o : otk_wf o → otk_from_pickle (otk_pickle o) = o.
Proof.
  intros Ho. destruct o as [nx un pr ix]. unfold otk_from_pickle, otk_pickle. cbn. f_equal. apply map_eq. intros pk.
  apply option_eq. intros id. pose proof (wf_index _ Ho) as Hix. cbn in Hix. rewrite rebuilt_index.
  - rewrite Hix, lookup_empty. split.
    + intros [?|(sk & Hin & <-)]; [done|]. rewrite id_entries_perm, elem_of_map_to_list in Hin. eauto.
    + intros (sk & Hsk & <-). right. exists sk. by rewrite id_entries_perm, elem_of_map_to_list.
  - rewrite id_entries_perm. rewrite <- list_fmap_compose.
    assert (Hinj : ∀ x y, x ∈ map_to_list pr → y ∈ map_to_list pr → curve_public x.2 = curve_public y.2 → x = y).
    { intros [i x] [j y] Hx Hy Heq. apply elem_of_map_to_list in Hx, Hy. cbn in Heq.
      assert (ix !! curve_public x = Some i) by (apply Hix; eauto). assert (ix !! curve_public x = Some j) by (apply Hix; eauto).
      assert (i = j) as -> by congruence. by rewrite Hx in Hy; injection Hy as ->. }
    revert Hinj. pose proof (NoDup_map_to_list pr) as Hnd. induction Hnd as [|x l Hx Hnd IH]; intros Hinj; [constructor|].
    cbn. constructor; [|apply IH; intros; apply Hinj; by try right]. intros Hin. apply list_elem_of_fmap in Hin as (y & Heq & Hy).
    cbn in Heq. rewrite (Hinj x y) in Hx; [done|by left|by right|done].
  - intros p _. apply lookup_empty.
Qed.

(** ** Accounts *)

Context `{Primitives} `{MegolmWire} `{Ed25519Keys}.

Definition account_wf (a : Account) : Prop :=
  otk_wf (ac_one_time_keys a) ∧ kp_public_key (ac_diffie_hellman_key a) = curve_public (kp_secret_key (ac_diffie_hellman_key a)).

(** What can happen to an account; a new key has a public half the account does not know yet. *)
Inductive account_step : Account → Account → Prop :=
| step_generate a fresh :
    NoDup (curve_public <$> fresh) → (∀ k, k ∈ fresh → key_ids_by_key (ac_one_time_keys a) !! curve_public k = None) →
    next_key_id (ac_one_time_keys a) + Z.of_nat (length fresh) < u64_mod →
    account_step a (generate_one_time_keys a fresh).1
| step_fallback a fresh : account_step a (generate_fallback_key a fresh).1
| step_forget a : account_step a (forget_fallback_key a).1
| step_publish a : account_step a (mark_keys_as_published a)
| step_inbound a config k m fresh : account_step a (create_inbound_session a config k m fresh).1
| step_reload a : account_step a (account_from_pickle (account_pickle a)).

Lemma inbound_account a config k m fresh :
  (create_inbound_session a config k m fresh).1 = a ∨
  (create_inbound_session a config k m fresh).1 = (remove_one_time_key_helper a (sk_one_time_key (pk_session_keys m))).1.
Proof.
  unfold create_inbound_session. destruct (negb _); [by left|]. destruct (_ =? _); [|by left]. destruct (negb _); [by left|].
  destruct (find_one_time_key _ _); [|by left]. cbn [ok_or]. destruct (remote_shared_secret _ _ _ _); [|by left]. cbn [ok_or].
  destruct (decrypt_decoded _ _ _) as [? [?|?]]; [by right|by left].
Qed.

Lemma remove_helper_wf a pk : account_wf a → account_wf (remove_one_time_key_helper a pk).1.
Proof.
  intros [Ho Hk]. unfold remove_one_time_key_helper. pose proof (remove_wf _ pk Ho).
  by destruct (remove_secret_key (ac_one_time_keys a) pk).
Qed.

Lemma account_pickle_roundtrip a : account_wf a → account_from_pickle (account_pickle a) = a.
Proof.
  intros [Ho Hk]. destruct a as [sk [s p] o f]. unfold account_from_pickle, account_pickle. cbn in *.
  rewrite otk_pickle_roundtrip by done. unfold Curve25519Keypair_new. by rewrite <- Hk.
Qed.

Lemma account_step_wf a a' : account_step a a' → account_wf a → account_wf a'.
Proof.
  intros Hstep Hwf. pose proof Hwf as [Ho Hk]. inversion Hstep; subst.
  - unfold generate_one_time_keys. pose proof (otk_generate_wf (ac_one_time_keys a) fresh) as Hg.
    destruct (otk_generate (ac_one_time_keys a) fresh) as [o res]. split; [by apply Hg|done].
  - unfold generate_fallback_key. by destruct (fbs_generate _ _).
  - unfold forget_fallback_key. by destruct (forget_previous_fallback_key _).
  - split; [by apply publish_wf|done].
  - destruct (inbound_account a config k m fresh) as [-> | ->]; [done|by apply remove_helper_wf].
  - by rewrite account_pickle_roundtrip.
Qed.

(** C32: Every account that can come about from a new one, by generating, publishing and forgetting keys, accepting
    sessions and being stored and loaded, has tables that agree: the index of public keys is the inverse of the table
    of private keys, every unpublished key has its private half, at most 5000 private keys are kept; and storing it
    and loading it again gives back exactly that account. *)
Theorem reachable_accounts_are_consistent signing_key fresh a :
  rtc account_step (Account_new signing_key fresh) a → account_wf a ∧ account_from_pickle (account_pickle a) = a.
Proof.
  intros Hr. assert (Hwf : account_wf a); [|split; [done|by apply account_pickle_roundtrip]].
  assert (H0' : account_wf (Account_new signing_key fresh)) by (split; [apply otk_new_wf|done]).
  induction Hr as [|a1 a2 a3 Hs _ IH]; [done|]. apply IH. by eapply account_step_wf.
Qed.

(** ** One use or many *)

Lemma otk_removed o pk : key_ids_by_key (remove_secret_key o pk).1 !! pk = None.
Proof.
  unfold remove_secret_key. destruct (key_ids_by_key o !! pk) eqn:Hid; cbn; [apply lookup_delete_eq|done].
Qed.

(** A one-time key starts one session: once a message made with it was accepted, every later message that names
    the key is refused as naming an unknown key, unless the key is also a fallback key. *)
Theorem one_time_keys_work_once a config k m fresh s plaintext a' k' m' fresh' :
  create_inbound_session a config k m fresh = (a', Ok (s, plaintext)) →
  fbs_get_secret_key (ac_fallback_keys a) (sk_one_time_key (pk_session_keys m)) = None →
  sk_one_time_key (pk_session_keys m') = sk_one_time_key (pk_session_keys m) →
  sk_identity_key (pk_session_keys m') = k' → msg_version (pk_message m') = MAC_TRUNCATED_VERSION →
  create_inbound_session a' olm_version_1 k' m' fresh' = (a', Err (MissingOneTimeKey (sk_one_time_key (pk_session_keys m)))).
Proof.
  intros Hin Hfb Hotk Hid Hv. set (pk := sk_one_time_key (pk_session_keys m)) in *.
  assert (Ha' : a' = (remove_one_time_key_helper a pk).1).
  { destruct (inbound_account a config k m fresh) as [Ha|Ha]; rewrite Hin in Ha; cbn in Ha; [|done]. subst a'.
    revert Hin. unfold create_inbound_session. destruct (negb _); [done|]. destruct (_ =? _); [|done]. destruct (negb _); [done|].
    destruct (find_one_time_key _ _); [|done]. cbn [ok_or]. destruct (remote_shared_secret _ _ _ _); [|done]. cbn [ok_or].
    destruct (decrypt_decoded _ _ _) as [? [?|?]]; [|done]. intros Heq. apply (f_equal fst) in Heq. by symmetry. }
  assert (Hnone : find_one_time_key a' pk = None).
  { rewrite Ha'. unfold find_one_time_key, remove_one_time_key_helper. pose proof (otk_removed (ac_one_time_keys a) pk) as Hr.
    destruct (remove_secret_key (ac_one_time_keys a) pk) as [o r]. cbn in *. unfold otk_get_secret_key. by rewrite Hr. }
  unfold create_inbound_session. rewrite Hid, bool_decide_true by done. cbn [negb]. rewrite Hv. cbn [Z.eqb MAC_TRUNCATED_VERSION Pos.eqb].
  rewrite bool_decide_true by done. cbn [negb]. rewrite Hotk, Hnone. reflexivity.
Qed.

(** A message made with a fallback key is accepted again, as often as it arrives. *)
Lemma fallback_message_accepted_again a config k m fresh s plaintext a' :
  create_inbound_session a config k m fresh = (a', Ok (s, plaintext)) →
  key_ids_by_key (ac_one_time_keys a) !! sk_one_time_key (pk_session_keys m) = None →
  a' = a.
Proof.
  intros Hin Hotk. destruct (inbound_account a config k m fresh) as [Ha|Ha]; rewrite Hin in Ha; cbn in Ha; [done|]. subst a'.
  unfold remove_one_time_key_helper, remove_secret_key. rewrite Hotk. by destruct a.
Qed.

End AccountProps.
