(* ===== verification/AccountState.v ===== *)
(** * The device's own account (crates/mail4agent-messenger/src/crypto/account.rs)

    The account a device makes once and keeps in its store, its one-time and fallback keys kept
    topped up from what a sync reports, and the signed objects it uploads. The store is the class
    [AccountStore]; the derived writer and reader of the record are [AccountSerde]. A reason text
    is represented by what it says. New secret keys are arguments; [fresh n] is the [n]-th. *)

From S2P Require Import Prelude Primitives Ids Json CanonicalJson Store MegolmRatchet Megolm Olm OlmAccount OlmAccountProps.

Local Open Scope Z_scope.

(** The part of [trait CryptoStore] the account uses. *)
Class AccountStore (S : Type) := {
  cs_account : S → result (option string) StoreError;
  cs_save_account : S → string → S * result unit StoreError
}.

Class AccountStoreLaws (S : Type) `{AccountStore S} := {
  account_view : S → option string;
  account_read s : cs_account s = Ok (account_view s);
  account_saved s b : ∃ s', cs_save_account s b = (s', Ok tt) ∧ account_view s' = Some b
}.

Section AccountState.
Context `{HmacSha256} `{MegolmCrypto} `{Curve25519} `{!EqDecision Curve25519PublicKey} `{!Countable Curve25519PublicKey}
  `{Primitives} `{MegolmWire} `{Ed25519Keys}.

(** What a [MessengerError::Crypto] of this component says. *)
Inductive AccountReason :=
| DecodeAccount (source : string)
| EncodeAccount (source : string)
| CanonicalJson (source : CanonicalJsonError)
| CreateInbound (source : SessionCreationError).

(** The [MessengerError]s of this component. *)
Inductive AccountError := ACrypto (reason : AccountReason) | AStore (e : StoreError).

Record AccountRecord := mkAccountRecord { rec_account : AccountPickle; rec_device_keys_published : bool }.

Class AccountSerde := {
  account_record_to_vec : AccountRecord → result string string;
  account_record_from_slice : string → result AccountRecord string
}.

Class AccountSerdeLaws `{AccountSerde} : Prop := {
  account_record_roundtrip r b : account_record_to_vec r = Ok b → account_record_from_slice b = Ok r
}.

Class AccountSerdeTotal `{AccountSerde} : Prop := {
  account_record_total r : ∃ b, account_record_to_vec r = Ok b
}.

Definition SUPPORTED_ALGORITHMS : list string := ["m.olm.v1.curve25519-aes-sha2"; "m.megolm.v1.aes-sha2"].
Definition SIGNED_CURVE25519 : string := "signed_curve25519".

Definition target_one_time_key_count (max_number_of_one_time_keys : nat) : nat := (max_number_of_one_time_keys / 2)%nat.

Record OlmAccountState := mkAccountState { oas_account : Account; oas_device_keys_published : bool }.

Context `{AccountSerde} {S : Type} `{AccountStore S}.

(** [save] *)
Definition account_save (state : OlmAccountState) (store : S) : S * result unit AccountError :=
  try? bytes := map_err (λ source, ACrypto (EncodeAccount source))
                  (account_record_to_vec (mkAccountRecord (account_pickle (oas_account state)) (oas_device_keys_published state))) on store in
  let '(store, r) := cs_save_account store bytes in
  try? _ := map_err AStore r on store in
  (store, Ok tt).

Definition load_or_create (store : S) (signing_key : Ed25519Keypair) (fresh : Curve25519SecretKey) :
    S * result OlmAccountState AccountError :=
  try? found := map_err AStore (cs_account store) on store in
  match found with
  | Some bytes =>
      try? record := map_err (λ source, ACrypto (DecodeAccount source)) (account_record_from_slice bytes) on store in
      (store, Ok (mkAccountState (account_from_pickle (rec_account record)) (rec_device_keys_published record)))
  | None =>
      let state := mkAccountState (Account_new signing_key fresh) false in
      let '(store, r) := account_save state store in
      try? _ := r on store in
      (store, Ok state)
  end.

Definition state_identity_keys (state : OlmAccountState) : IdentityKeys := identity_keys (oas_account state).

Definition one_time_key_target (state : OlmAccountState) : nat :=
  target_one_time_key_count (max_number_of_one_time_keys (oas_account state)).

Definition pending_one_time_key_count (state : OlmAccountState) : nat := size (account_one_time_keys (oas_account state)).

(** The map holds at most one key. *)
Definition pending_fallback_key (state : OlmAccountState) : option Curve25519PublicKey :=
  snd <$> head (id_entries (account_fallback_key (oas_account state))).

(** [sign_json] with the account's key. *)
Definition sign_with (state : OlmAccountState) (value : Value) (user_id : UserId) (device_id : DeviceId) : result Value AccountError :=
  let '(value, r) := sign_json value (UserId_str user_id) ("ed25519:" +:+ DeviceId_str device_id) (account_sign (oas_account state)) in
  let? _ := map_err (λ e, ACrypto (CanonicalJson e)) r in Ok value.

Definition device_keys_json (state : OlmAccountState) (user_id : UserId) (device_id : DeviceId) : result Value AccountError :=
  let identity := identity_keys (oas_account state) in
  let keys := map_insert ("ed25519:" +:+ DeviceId_str device_id) (VString (public_to_base64 (ik_ed25519 identity)))
                (map_insert ("curve25519:" +:+ DeviceId_str device_id) (VString (curve_to_base64 (ik_curve25519 identity))) []) in
  let value := VObject (map_insert "keys" (VObject keys)
    [("algorithms", VArray (VString <$> SUPPORTED_ALGORITHMS)); ("device_id", VString (DeviceId_str device_id));
     ("user_id", VString (UserId_str user_id))]) in
  sign_with state value user_id device_id.

Definition signed_one_time_key_json (state : OlmAccountState) (user_id : UserId) (device_id : DeviceId)
    (public_key : Curve25519PublicKey) (fallback : bool) : result Value AccountError :=
  let obj := [("key", VString (curve_to_base64 public_key))] in
  let obj := if fallback then map_insert "fallback" (VBool true) obj else obj in
  sign_with state (VObject obj) user_id device_id.

Definition with_state_account (state : OlmAccountState) (a : Account) : OlmAccountState :=
  mkAccountState a (oas_device_keys_published state).

(** [on_sync_counts]; [published] is a [u64], which fits a [usize]. *)
Definition on_sync_counts (state : OlmAccountState) (store : S) (published : Z) (unused_fallback_key_types : list string)
    (fresh : nat → Curve25519SecretKey) (fresh_fallback : Curve25519SecretKey) : OlmAccountState * S * result unit AccountError :=
  let '(state, mutated) :=
    if bool_decide (account_one_time_keys (oas_account state) = ∅) then
      let target := one_time_key_target state in
      if published <? Z.of_nat target
      then (with_state_account state
              (generate_one_time_keys (oas_account state) (fresh <$> seq 0 (target - Z.to_nat published))).1, true)
      else (state, false)
    else (state, false) in
  let fallback_still_available := existsb (String.eqb SIGNED_CURVE25519) unused_fallback_key_types in
  let '(state, mutated) :=
    if negb fallback_still_available && bool_decide (account_fallback_key (oas_account state) = ∅)
    then (with_state_account state (generate_fallback_key (oas_account state) fresh_fallback).1, true)
    else (state, mutated) in
  if mutated then let '(store, r) := account_save state store in (state, store, r) else (state, store, Ok tt).

(** [KeyId::to_base64], over the big-endian bytes of a [u64]. *)
Definition key_id_to_base64 (id : Z) : string :=
  base64_encode (String.string_of_list_ascii (rev (bytes_of (to_le_bytes 8 id)))).

(** The two loops of [keys_upload_request]. *)
Fixpoint signed_keys (state : OlmAccountState) (user_id : UserId) (device_id : DeviceId) (fallback : bool)
    (keys : list (Z * Curve25519PublicKey)) (acc : Map) : result Map AccountError :=
  match keys with
  | [] => Ok acc
  | (key_id, public_key) :: keys =>
      let? signed := signed_one_time_key_json state user_id device_id public_key fallback in
      signed_keys state user_id device_id fallback keys (map_insert (SIGNED_CURVE25519 +:+ ":" +:+ key_id_to_base64 key_id) signed acc)
  end.

(** The body of the [POST /keys/upload] request, if there is anything to upload. *)
Definition keys_upload_request (state : OlmAccountState) (user_id : UserId) (device_id : DeviceId) :
    result (option Value) AccountError :=
  let one_time_keys := account_one_time_keys (oas_account state) in
  let fallback_key := account_fallback_key (oas_account state) in
  if oas_device_keys_published state && bool_decide (one_time_keys = ∅) && bool_decide (fallback_key = ∅) then Ok None
  else
    let? body := (if negb (oas_device_keys_published state)
                  then let? v := device_keys_json state user_id device_id in Ok (map_insert "device_keys" v [])
                  else Ok []) in
    let? body := (if negb (bool_decide (one_time_keys = ∅))
                  then let? m := signed_keys state user_id device_id false (id_entries one_time_keys) [] in
                       Ok (map_insert "one_time_keys" (VObject m) body)
                  else Ok body) in
    let? body := (if negb (bool_decide (fallback_key = ∅))
                  then let? m := signed_keys state user_id device_id true (id_entries fallback_key) [] in
                       Ok (map_insert "fallback_keys" (VObject m) body)
                  else Ok body) in
    Ok (Some (VObject body)).

Definition forget_published_device_keys (state : OlmAccountState) : OlmAccountState := mkAccountState (oas_account state) false.

Definition on_keys_upload_response (state : OlmAccountState) (store : S) : OlmAccountState * S * result unit AccountError :=
  let state := mkAccountState (mark_keys_as_published (oas_account state)) true in
  let '(store, r) := account_save state store in (state, store, r).

Definition state_create_outbound_session (state : OlmAccountState) (config : OlmSessionConfig)
    (identity_key one_time_key : Curve25519PublicKey) (base_key fresh : Curve25519SecretKey) : result Session SessionCreationError :=
  create_outbound_session (oas_account state) config identity_key one_time_key base_key fresh.

(** The account is saved when a session was made from it. *)
Definition state_create_inbound_session (state : OlmAccountState) (store : S) (config : OlmSessionConfig)
    (their_identity_key : Curve25519PublicKey) (m : PreKeyMessage) (fresh : Curve25519SecretKey) :
    OlmAccountState * S * result (Session * string) AccountError :=
  let '(account, r) := create_inbound_session (oas_account state) config their_identity_key m fresh in
  let state := with_state_account state account in
  match r with
  | Err source => (state, store, Err (ACrypto (CreateInbound source)))
  | Ok result =>
      let '(store, saved) := account_save state store in
      match saved with Err e => (state, store, Err e) | Ok _ => (state, store, Ok result) end
  end.

End AccountState.
