(* ===== verification/AccountStateProps.v ===== *)
(** * Properties of the device's own account

    Whatever the account went through, what a restart loads is the account in use, up to a request
    to publish the device's keys again, which lives in memory alone; one-time keys are topped up to
    half the maximum, and never while a batch still waits to be uploaded. *)

From S2P Require Import Prelude Primitives Ids Json CanonicalJson Store MegolmRatchet Megolm Olm OlmAccount OlmAccountProps AccountState.

Local Open Scope Z_scope.

Section AccountStateProps.
Context `{HmacSha256, MegolmCrypto, Curve25519, !EqDecision Curve25519PublicKey, !Countable Curve25519PublicKey,
  Primitives, MegolmWire, Ed25519, !Ed25519Keys} `{!AccountSerde, !AccountSerdeLaws, !AccountSerdeTotal} {S : Type} `{AccountStore S, !AccountStoreLaws S}.

(** The store holds the record of [state]. *)
Definition persisted (state : OlmAccountState) (store : S) : Prop :=
  ∃ b, account_view store = Some b ∧
    account_record_from_slice b = Ok (mkAccountRecord (account_pickle (oas_account state)) (oas_device_keys_published state)).

(** Every account can be saved. *)
Lemma account_save_persisted state store store' r :
  account_save state store = (store', r) → r = Ok tt ∧ persisted state store'.
Proof.
  unfold account_save.
  destruct (account_record_total (mkAccountRecord (account_pickle (oas_account state)) (oas_device_keys_published state))) as [b Hb].
  rewrite Hb. cbn [map_err]. destruct (account_saved store b) as (s & Hs & Hv). rewrite Hs. cbn [map_err]. intros [= <- <-].
  split; [done|]. exists b. split; [done|]. by apply account_record_roundtrip.
Qed.

Lemma load_persisted state store sk fresh :
  account_wf (oas_account state) → persisted state store → load_or_create store sk fresh = (store, Ok state).
Proof.
  intros Hwf (b & Hv & Hb). unfold load_or_create. rewrite account_read, Hv. cbn [map_err]. rewrite Hb. cbn [map_err rec_account rec_device_keys_published].
  rewrite account_pickle_roundtrip by done. by destruct state.
Qed.

(** New keys for a sync: their public halves differ from each other and from those of the account. *)
Definition fresh_keys (state : OlmAccountState) (fresh : nat → Curve25519SecretKey) : Prop :=
  NoDup (curve_public <$> (fresh <$> seq 0 25)) ∧
  (∀ n, key_ids_by_key (ac_one_time_keys (oas_account state)) !! curve_public (fresh n) = None) ∧
  next_key_id (ac_one_time_keys (oas_account state)) + 25 < u64_mod.

(** The life of an account: it is made for an empty store, told the counts of a sync, told that its keys were uploaded,
    asked for sessions by messages of any kind, told to publish its device keys again, and loaded again after a
    restart. No step is assumed to succeed. *)
Inductive life : OlmAccountState → S → Prop :=
| life_make store sk fresh store' state :
    account_view store = None → load_or_create store sk fresh = (store', Ok state) → life state store'
| life_sync state store published kinds fresh fallback state' store' r :
    life state store → fresh_keys state fresh → 0 ≤ published →
    on_sync_counts state store published kinds fresh fallback = (state', store', r) → life state' store'
| life_uploaded state store state' store' r :
    life state store → on_keys_upload_response state store = (state', store', r) → life state' store'
| life_inbound state store config k m fresh state' store' r :
    life state store → state_create_inbound_session state store config k m fresh = (state', store', r) → life state' store'
| life_forget state store : life state store → life (forget_published_device_keys state) store
| life_restart state store sk fresh store' state' :
    life state store → load_or_create store sk fresh = (store', Ok state') → life state' store'.

(** The second half of [on_sync_counts]. *)
Definition sync_tail (state : OlmAccountState) (mutated : bool) (store : S) (kinds : list string) (fallback : Curve25519SecretKey) :
    OlmAccountState * S * result unit AccountError :=
  let '(state, mutated) :=
    if negb (existsb (String.eqb SIGNED_CURVE25519) kinds) && bool_decide (account_fallback_key (oas_account state) = ∅)
    then (with_state_account state (generate_fallback_key (oas_account state) fallback).1, true)
    else (state, mutated) in
  if mutated then let '(store, r) := account_save state store in (state, store, r) else (state, store, Ok tt).

Lemma sync_tail_spec state mutated store kinds fallback state' store' r :
  sync_tail state mutated store kinds fallback = (state', store', r) →
  (oas_account state' = oas_account state ∨ oas_account state' = (generate_fallback_key (oas_account state) fallback).1) ∧
  ((mutated = false ∧ state' = state ∧ store' = store) ∨ account_save state' store = (store', r)).
Proof.
  unfold sync_tail. destruct (_ && _).
  - destruct (account_save _ store) as [s0 r0] eqn:Hs. intros Heq. injection Heq as <- <- <-. split; [by right|by right].
  - destruct mutated; [destruct (account_save state store) as [s0 r0] eqn:Hs|]; intros Heq; injection Heq as <- <- <-; (split; [by left|]);
      [by right|by left].
Qed.

Lemma sync_account state store published kinds fresh fallback state' store' r :
  0 ≤ published → on_sync_counts state store published kinds fresh fallback = (state', store', r) →
  ∃ state1, (state1 = state ∧ (account_one_time_keys (oas_account state) = ∅ → 25 ≤ published) ∨
      (account_one_time_keys (oas_account state) = ∅ ∧ published < 25 ∧
       oas_account state1 = (generate_one_time_keys (oas_account state) (fresh <$> seq 0 (25 - Z.to_nat published))).1)) ∧
    (oas_account state' = oas_account state1 ∨ oas_account state' = (generate_fallback_key (oas_account state1) fallback).1) ∧
    ((state' = state ∧ store' = store) ∨ account_save state' store = (store', r)).
Proof.
  intros Hp Hs. unfold on_sync_counts in Hs. change (one_time_key_target state) with 25%nat in Hs. change (Z.of_nat 25) with 25 in Hs.
  case_bool_decide as Hempty; [destruct (Z.ltb_spec published 25) as [Hlt|Hge]|].
  - apply sync_tail_spec in Hs as [Ha Hs]. eexists (with_state_account state _).
    split; [right; split_and!; [done..|reflexivity]|]. split; [exact Ha|].
    destruct Hs as [[? _]|Hs]; [done|by right].
  - apply sync_tail_spec in Hs as [Ha Hs]. exists state. split_and!; [by left|exact Ha|naive_solver].
  - apply sync_tail_spec in Hs as [Ha Hs]. exists state. split_and!; [by left|exact Ha|naive_solver].
Qed.

Lemma fresh_prefix (fresh : nat → Curve25519SecretKey) n :
  NoDup (curve_public <$> (fresh <$> seq 0 25)) → NoDup (curve_public <$> (fresh <$> seq 0 (25 - n))).
Proof.
  intros Hnd. assert (Hpre : seq 0 25 = seq 0 (25 - n) ++ seq (0 + (25 - n)) (25 - (25 - n))).
  { rewrite <- seq_app. f_equal. lia. }
  rewrite Hpre, !fmap_app in Hnd. by apply NoDup_app in Hnd as [? _].
Qed.

Lemma generate_fallback_wf a f : account_wf a → account_wf (generate_fallback_key a f).1.
Proof. apply account_step_wf. constructor. Qed.

Lemma sync_wf state store published kinds fresh fallback state' store' r :
  0 ≤ published → fresh_keys state fresh → account_wf (oas_account state) →
  on_sync_counts state store published kinds fresh fallback = (state', store', r) → account_wf (oas_account state').
Proof.
  intros Hp (Hnd & Hnew & Hnx) Hwf Hs. apply sync_account in Hs as (state1 & H1' & H2' & _); [|done].
  assert (Hwf1 : account_wf (oas_account state1)).
  { destruct H1' as [[-> _] | (_ & Hlt & ->)]; [done|]. eapply account_step_wf; [|done]. apply step_generate.
    - by apply fresh_prefix.
    - intros k Hk. apply list_elem_of_fmap in Hk as (n & -> & _). apply Hnew.
    - rewrite length_fmap, length_seq. lia. }
  destruct H2' as [-> | ->]; [done|]. by apply generate_fallback_wf.
Qed.

(** The store has the account in use; the mark that its device keys are published may be forgotten in memory alone. *)
Definition kept (state : OlmAccountState) (store : S) : Prop :=
  account_wf (oas_account state) ∧
  ∃ stored, persisted stored store ∧ (stored = state ∨ state = forget_published_device_keys stored).

Lemma kept_load state store sk fresh :
  kept state store → ∃ stored, load_or_create store sk fresh = (store, Ok stored) ∧
    (stored = state ∨ state = forget_published_device_keys stored).
Proof.
  intros (Hwf & stored & Hp & Hst). exists stored. split; [|done]. apply load_persisted; [|done]. by destruct Hst as [-> | ->].
Qed.

Lemma kept_saved state store store' r : account_wf (oas_account state) → account_save state store = (store', r) → kept state store'.
Proof. intros Hwf [_ Hp]%account_save_persisted. split; [done|]. exists state. auto. Qed.

(** A message that starts no session leaves the account as it was. *)
Lemma inbound_refused a config k m fresh a' e : create_inbound_session a config k m fresh = (a', Err e) → a' = a.
Proof.
  unfold create_inbound_session. destruct (negb _); [by intros [= <- _]|]. destruct (_ =? _); [|by intros [= <- _]].
  destruct (negb _); [by intros [= <- _]|]. destruct (find_one_time_key _ _); [|by intros [= <- _]]. cbn [ok_or].
  destruct (remote_shared_secret _ _ _ _); [|by intros [= <- _]]. cbn [ok_or].
  destruct (decrypt_decoded _ _ _) as [? [?|?]]; [done|by intros [= <- _]].
Qed.

Lemma kept_inbound state store config k m fresh state' store' r :
  kept state store → state_create_inbound_session state store config k m fresh = (state', store', r) → kept state' store'.
Proof.
  intros Hk Hs. unfold state_create_inbound_session in Hs. pose proof (step_inbound (oas_account state) config k m fresh) as Hst.
  destruct (create_inbound_session _ _ _ _ _) as [a r0] eqn:Hin. cbn in Hst. destruct r0 as [res|e].
  - assert (Hwf : account_wf a) by (eapply account_step_wf; [exact Hst|apply Hk]).
    destruct (account_save _ store) as [s0 r0] eqn:Hsave. apply kept_saved in Hsave; [|done].
    destruct r0; by injection Hs as <- <- <-.
  - apply inbound_refused in Hin as ->. injection Hs as <- <- <-. by destruct state.
Qed.

Lemma life_kept state store : life state store → kept state store.
Proof.
  induction 1 as [store sk fresh store' state Hv Hl|state store published kinds fresh fallback state' store' r _ Hk Hf Hpub Hs
    |state store state' store' r _ Hk Hs|state store config k m fresh state' store' r _ Hk Hs|state store _ Hk
    |state store sk fresh store' state' _ Hk Hl].
  - unfold load_or_create in Hl. rewrite account_read, Hv in Hl. cbn [map_err] in Hl.
    destruct (account_save _ store) as [s0 [[]|]] eqn:Hsave; [|done]. injection Hl as <- <-.
    eapply kept_saved; [|done]. split; [apply otk_new_wf|done].
  - assert (Hwf : account_wf (oas_account state')) by (eapply sync_wf; [done|done|apply Hk|done]).
    apply sync_account in Hs as (state1 & _ & _ & [[-> ->]|Hs]); [done| |done]. by eapply kept_saved.
  - unfold on_keys_upload_response in Hs. destruct (account_save _ store) as [s0 r0] eqn:Hsave. injection Hs as <- <- <-.
    eapply kept_saved; [|done]. cbn. eapply account_step_wf; [apply step_publish|apply Hk].
  - by eapply kept_inbound.
  - destruct Hk as (Hwf & stored & Hp & Hst). split; [done|]. exists stored. split; [done|]. right. by destruct Hst as [-> | ->].
  - pose proof Hk as [Hwf _]. destruct (kept_load _ _ sk fresh Hk) as (stored & Hl' & Hst). rewrite Hl in Hl'. injection Hl' as -> ->.
    destruct Hk as (_ & stored' & Hp & Hst'). assert (Hwf' : account_wf (oas_account stored)) by (by destruct Hst as [-> | ->]).
    split; [done|]. exists stored. split; [|by left].
    pose proof (load_persisted stored' store sk fresh) as Hl'. rewrite Hl in Hl'.
    specialize (Hl' ltac:(by destruct Hst' as [-> | ->]) Hp). by injection Hl' as ->.
Qed.

(** C31: A device keeps one identity: its account was made once, and whatever it went through since, syncs, uploads,
    messages that start sessions or fail to, restarts, none of them assumed to succeed, opening the store again loads
    exactly the account in use, keys and all, writes nothing and makes no new one. The one thing a restart can bring
    back is the mark that the device keys are published, when the running process was told to forget it since. New keys
    are assumed not to repeat a public key the account has. *)
Theorem restarts_keep_the_account state store sk fresh :
  life state store →
  ∃ stored, load_or_create store sk fresh = (store, Ok stored) ∧ oas_account stored = oas_account state ∧
    (stored = state ∨ oas_device_keys_published stored = true ∧ oas_device_keys_published state = false).
Proof.
  intros (stored & Hl & Hst)%life_kept%(kept_load _ _ sk fresh). exists stored. split; [done|]. destruct Hst as [-> | ->]; [by auto|].
  split; [done|]. destruct stored as [a []]; [by right|by left].
Qed.

(** ** Topping up *)

Lemma round_unpublished o key :
  otk_wf o → Z.of_nat (size (private_keys o)) < MAX_ONE_TIME_KEYS →
  size (unpublished_public_keys (otk_round o key)) = Datatypes.S (size (unpublished_public_keys o)) ∧
  size (private_keys (otk_round o key)) = Datatypes.S (size (private_keys o)).
Proof.
  intros Ho Hsz. unfold otk_round, generate_one_time_key, insert_secret_key, make_room. destruct (Z.leb_spec MAX_ONE_TIME_KEYS (Z.of_nat (size (private_keys o)))); [lia|].
  cbn. assert (Hfree : private_keys o !! next_key_id o = None).
  { apply eq_None_not_Some. intros Hs. apply (wf_ids o Ho) in Hs. lia. }
  rewrite !map_size_insert_None; [done|done|]. apply eq_None_not_Some. intros [pk Hpk].
  destruct (wf_unpublished o Ho _ _ Hpk) as (sk & Hsk & _). by rewrite Hfree in Hsk.
Qed.

Lemma generate_unpublished o fresh :
  otk_wf o → NoDup (curve_public <$> fresh) → (∀ k, k ∈ fresh → key_ids_by_key o !! curve_public k = None) →
  next_key_id o + Z.of_nat (length fresh) < u64_mod → Z.of_nat (size (private_keys o)) + Z.of_nat (length fresh) ≤ MAX_ONE_TIME_KEYS →
  size (unpublished_public_keys (otk_generate o fresh).1) = (size (unpublished_public_keys o) + length fresh)%nat.
Proof.
  revert o. induction fresh as [|key fresh IH]; intros o Ho Hnd Hnew Hnx Hsz; [cbn; lia|].
  cbn [fmap list_fmap length] in *. apply NoDup_cons in Hnd as [Hnin Hnd]. rewrite otk_generate_cons.
  destruct (otk_round_wf o key) as (Hwf & Hn & Hk); [done|apply Hnew; by left|lia|].
  destruct (round_unpublished o key Ho) as [Hu Hp]; [lia|].
  rewrite IH; [lia|done|done| |lia|lia]. intros k Hin. apply eq_None_not_Some. intros Hs. apply Hk in Hs as [Heq|Hs].
  - apply Hnin. rewrite <- Heq. by apply list_elem_of_fmap_2.
  - rewrite Hnew in Hs by (by right). by destruct Hs.
Qed.

(** A sync tops the one-time keys up: when none waits to be uploaded, exactly as many are made as the server
    is short of half the maximum, twenty-five; when some still wait, none is made and those waiting stay. *)
Theorem sync_tops_up state store published kinds fresh fallback state' store' :
  account_wf (oas_account state) → fresh_keys state fresh → 0 ≤ published →
  Z.of_nat (size (private_keys (ac_one_time_keys (oas_account state)))) + 25 ≤ MAX_ONE_TIME_KEYS →
  on_sync_counts state store published kinds fresh fallback = (state', store', Ok tt) →
  if bool_decide (account_one_time_keys (oas_account state) = ∅)
  then Z.of_nat (pending_one_time_key_count state') = Z.max 0 (Z.of_nat (one_time_key_target state) - published)
  else account_one_time_keys (oas_account state') = account_one_time_keys (oas_account state).
Proof.
  intros Hwf Hf Hp Hsz Hs. pose proof Hf as (Hnd & Hnew & Hnx). apply sync_account in Hs as (state1 & H1' & H2' & _); [|done].
  change (one_time_key_target state) with 25%nat. unfold pending_one_time_key_count. change (Z.of_nat 25) with 25 in *.
  assert (Hk : account_one_time_keys (oas_account state') = account_one_time_keys (oas_account state1)) by (destruct H2' as [-> | ->]; done).
  rewrite Hk. destruct H1' as [[-> Hge] | (Hempty & Hlt & ->)].
  - case_bool_decide as Hempty; [|done]. rewrite Hempty, map_size_empty. specialize (Hge Hempty). lia.
  - rewrite bool_decide_true by done. unfold generate_one_time_keys. pose proof (generate_unpublished (ac_one_time_keys (oas_account state))
      (fresh <$> seq 0 (25 - Z.to_nat published))) as Hg.
    destruct (otk_generate (ac_one_time_keys (oas_account state)) (fresh <$> seq 0 (25 - Z.to_nat published))) as [o res].
    unfold account_one_time_keys in *. cbn in Hg |- *. rewrite Hg; [|apply Hwf|by apply fresh_prefix| |rewrite length_fmap, length_seq; lia..].
    + rewrite Hempty, map_size_empty, length_fmap, length_seq. lia.
    + intros k Hin. apply list_elem_of_fmap in Hin as (n & -> & _). apply Hnew.
Qed.

End AccountStateProps.
