(* ===== verification/OlmSessions.v ===== *)
(** * Olm sessions of a device (crates/mail4agent-messenger/src/crypto/olm_sessions.rs)

    Claiming one-time keys and starting sessions, encrypting to a device and decrypting what a
    device sent, with every check of the payload against what is known of the sender. The store
    is the classes [OlmStore], [CryptoStore] (device lists) and [AccountStore]; derived writers
    and readers are [OlmSerde]. A reason text is represented by what it says. *)

From S2P Require Import Prelude Primitives Ids Json CanonicalJson Store Events DeviceTracker MegolmRatchet Megolm Olm OlmAccount AccountState.

Local Open Scope Z_scope.

(** The part of [trait CryptoStore] the sessions use. *)
Class OlmStore (S : Type) := {
  cs_olm_sessions_for_device : S → string → result (list string) StoreError;
  cs_save_olm_session : S → string → string → string → S * result unit StoreError
}.

Section Sessions.
Context `{HmacSha256} `{MegolmCrypto} `{Curve25519} `{!EqDecision Curve25519PublicKey} `{!Countable Curve25519PublicKey}
  `{Primitives} `{MegolmWire} `{OlmProst} `{Ed25519Keys} `{!EqDecision Ed25519PublicKey}.

Definition Device : Type := StoredDevice (Curve25519PublicKey := Curve25519PublicKey).

Record OlmPlaintextPayload := mkPayload {
  pl_event_type : string;
  pl_content : Value;
  pl_sender : UserId;
  pl_sender_device : DeviceId;
  pl_keys_ed25519 : string;
  pl_recipient : UserId;
  pl_recipient_keys_ed25519 : string }.

Class OlmSerde := {
  session_to_vec : Session → result string string;
  session_from_slice : string → result Session string;
  payload_to_vec : OlmPlaintextPayload → result string string;
  payload_from_slice : string → result OlmPlaintextPayload string;
  keys_claim_from_slice : string → result (gmap UserId (gmap DeviceId (gmap string Value))) string
}.

Class OlmSerdeLaws `{OlmSerde} : Prop := {
  session_roundtrip s b : session_to_vec s = Ok b → session_from_slice b = Ok s;
  payload_roundtrip p b : payload_to_vec p = Ok b → payload_from_slice b = Ok p
}.

(** What a [MessengerError::Crypto] of this component says. *)
Inductive OlmReason :=
| EncodeSession (source : string)
| DecodeSession (source : string)
| MalformedBody (source : string)
| MalformedMessage (source : DecodeError)
| NoSessionWith (device_id : DeviceId) (user_id : UserId)
| OlmEncryptFailed (device_id : DeviceId) (source : EncryptionError).

(** The [MessengerError]s of this component and of those it calls. *)
Inductive OlmError :=
| OWireDecode (source : string)
| OCrypto (reason : OlmReason)
| OStore (e : StoreError)
| OTracker (e : TrackerError)
| OAccount (e : AccountError).

Inductive ClaimReason :=
| UnexpectedAlgorithm (key_id : string)
| ClaimSignature (source : CanonicalJsonError)
| NoKeyField
| MalformedClaimedKey (source : KeyError)
| CreateOutboundFailed (source : SessionCreationError).

Record KeysClaimRefusal := mkRefusal { kr_user_id : UserId; kr_device_id : DeviceId; kr_reason : ClaimReason }.
Record KeysClaimOutcome := mkClaimOutcome { kco_established : list (UserId * DeviceId); kco_refused : list KeysClaimRefusal }.

Record DecryptedToDevice := mkDecryptedToDevice {
  dtd_sender : UserId;
  dtd_sender_device_curve25519 : Curve25519PublicKey;
  dtd_sender_ed25519 : Ed25519PublicKey;
  dtd_event_type : string;
  dtd_content : Value }.

(** What a [PayloadMismatch] says. *)
Inductive PayloadReason :=
| RecipientMismatch (payload ours : UserId)
| RecipientKeyMismatch
| SenderMismatch (payload event : UserId)
| SenderKeyMismatch.

(** What a [SessionEstablishment] says. *)
Inductive EstablishReason := CorruptSession (e : OlmError) | Establish (e : AccountError).

(** What a [MalformedCiphertext] says. *)
Inductive CipherReason := BadOlmMessage (e : OlmError) | BadSenderKey (e : KeyError).

Inductive OlmDecryptError :=
| NotAddressedToUs
| MalformedCiphertext (reason : CipherReason)
| NoMatchingSession (sender_key : string)
| SessionEstablishment (reason : EstablishReason)
| UnknownSenderDevice (user_id : UserId) (curve25519 : string)
| PayloadMismatch (reason : PayloadReason)
| InvalidPayload (source : string)
| DecryptStore (e : StoreError)
| DecryptMessenger (e : OlmError).

Context `{!AccountSerde} `{!DeviceSerde (Curve25519PublicKey := Curve25519PublicKey)} `{!OlmSerde}
  {S : Type} `{OlmStore S} `{CryptoStore S} `{AccountStore S}.

Definition pickle_session (s : Session) : result string OlmError :=
  map_err (λ source, OCrypto (EncodeSession source)) (session_to_vec s).

Definition unpickle_session (bytes : string) : result Session OlmError :=
  map_err (λ source, OCrypto (DecodeSession source)) (session_from_slice bytes).

(** The wire codec of this module is the one messages use. *)
Definition encode_olm_message (m : OlmMessage) : OlmCiphertextInfo :=
  let '(message_type, ciphertext) := to_parts m in mkOlmCiphertextInfo (message_type mod 256) (base64_encode ciphertext).

Definition decode_olm_message (info : OlmCiphertextInfo) : result OlmMessage OlmError :=
  let? bytes := map_err (λ source, OCrypto (MalformedBody source)) (base64_decode (oc_body info)) in
  map_err (λ source, OCrypto (MalformedMessage source)) (from_parts (oc_message_type info) bytes).

Fixpoint sessions_missing_for (store : S) (devices : list Device) : result (list Device) OlmError :=
  match devices with
  | [] => Ok []
  | device :: devices =>
      let? sessions := map_err OStore (cs_olm_sessions_for_device store (curve_to_base64 (sd_curve25519 device))) in
      let? missing := sessions_missing_for store devices in
      Ok (if bool_decide (sessions = []) then device :: missing else missing)
  end.

(** [by_user.entry(user).or_default().insert(device, v)] *)
Definition by_user_insert (by_user : gmap UserId Map) (device : Device) (v : Value) : gmap UserId Map :=
  <[sd_user_id device := map_insert (DeviceId_str (sd_device_id device)) v (default [] (by_user !! sd_user_id device))]> by_user.

(** The users' maps as one object. *)
Definition user_objects (by_user : gmap UserId Map) : Value :=
  VObject (foldl (λ top '(user_id, devices), map_insert (UserId_str user_id) (VObject devices) top) [] (btree_entries UserId_str by_user)).

(** The body of the [POST /keys/claim] request. *)
Definition keys_claim_request (devices : list Device) : option Value :=
  if bool_decide (length devices = 0%nat) then None
  else Some (VObject [("one_time_keys", user_objects
               (foldl (λ by_user device, by_user_insert by_user device (VString SIGNED_CURVE25519)) ∅ devices))]).

Definition verify_and_claim (account : OlmAccountState) (device : Device) (key_id : string) (raw : Value)
    (base_key fresh : Curve25519SecretKey) : result Session ClaimReason :=
  if negb (String.prefix SIGNED_CURVE25519 key_id) then Err (UnexpectedAlgorithm key_id)
  else
    let sig_key_id := "ed25519:" +:+ DeviceId_str (sd_device_id device) in
    let? _ := map_err ClaimSignature
                (verify_json_signature raw (UserId_str (sd_user_id device)) sig_key_id (sd_ed25519 device)) in
    let? key_b64 := ok_or (get raw "key" ≫= as_str) NoKeyField in
    let? one_time_key := map_err MalformedClaimedKey (curve_from_base64 key_b64) in
    map_err CreateOutboundFailed
      (state_create_outbound_session account olm_version_1 (sd_curve25519 device) one_time_key base_key fresh).

(** The loop of [on_keys_claim_response]; [fresh n] are the keys of its [n]-th round. *)
Fixpoint claim_loop (store : S) (account : OlmAccountState) (one_time_keys : gmap UserId (gmap DeviceId (gmap string Value)))
    (requested : list Device) (n : nat) (fresh : nat → Curve25519SecretKey * Curve25519SecretKey) (outcome : KeysClaimOutcome) :
    S * result KeysClaimOutcome OlmError :=
  match requested with
  | [] => (store, Ok outcome)
  | device :: requested =>
      match one_time_keys !! sd_user_id device ≫= λ by_device, by_device !! sd_device_id device with
      | None => claim_loop store account one_time_keys requested (Datatypes.S n) fresh outcome
      | Some by_key_id =>
          match head (btree_entries (λ k, k) by_key_id) with
          | None => claim_loop store account one_time_keys requested (Datatypes.S n) fresh outcome
          | Some (key_id, raw) =>
              match verify_and_claim account device key_id raw (fresh n).1 (fresh n).2 with
              | Ok session =>
                  try? bytes := pickle_session session on store in
                  let '(store, r) := cs_save_olm_session store (curve_to_base64 (sd_curve25519 device)) (olm_session_id session) bytes in
                  try? _ := map_err OStore r on store in
                  claim_loop store account one_time_keys requested (Datatypes.S n) fresh
                    (mkClaimOutcome (kco_established outcome ++ [(sd_user_id device, sd_device_id device)]) (kco_refused outcome))
              | Err reason =>
                  claim_loop store account one_time_keys requested (Datatypes.S n) fresh
                    (mkClaimOutcome (kco_established outcome)
                       (kco_refused outcome ++ [mkRefusal (sd_user_id device) (sd_device_id device) reason]))
              end
          end
      end
  end.

Definition on_keys_claim_response (store : S) (account : OlmAccountState) (requested : list Device) (body : string)
    (fresh : nat → Curve25519SecretKey * Curve25519SecretKey) : S * result KeysClaimOutcome OlmError :=
  try? parsed := map_err OWireDecode (keys_claim_from_slice body) on store in
  claim_loop store account parsed requested 0 fresh (mkClaimOutcome [] []).

Definition encrypt_to_device (store : S) (account : OlmAccountState) (our_user_id : UserId) (our_device_id : DeviceId)
    (target : Device) (event_type : string) (content : Value) (fresh : Curve25519SecretKey) : S * result OlmEncryptedContent OlmError :=
  let their_curve_b64 := curve_to_base64 (sd_curve25519 target) in
  try? sessions := map_err OStore (cs_olm_sessions_for_device store their_curve_b64) on store in
  try? latest := ok_or (head sessions) (OCrypto (NoSessionWith (sd_device_id target) (sd_user_id target))) on store in
  try? session := unpickle_session latest on store in
  let payload := mkPayload event_type content our_user_id our_device_id (public_to_base64 (ik_ed25519 (state_identity_keys account)))
                   (sd_user_id target) (public_to_base64 (sd_ed25519 target)) in
  try? plaintext := map_err OWireDecode (payload_to_vec payload) on store in
  let '(session, encrypted) := session_encrypt session fresh plaintext in
  try? olm_message := map_err (λ source, OCrypto (OlmEncryptFailed (sd_device_id target) source)) encrypted on store in
  try? bytes := pickle_session session on store in
  let '(store, r) := cs_save_olm_session store their_curve_b64 (olm_session_id session) bytes in
  try? _ := map_err OStore r on store in
  (store, Ok (mkOlm (curve_to_base64 (ik_curve25519 (state_identity_keys account))) [(their_curve_b64, encode_olm_message olm_message)])).

(** The loop over the known sessions: the first that reads the message, with what it read. *)
Fixpoint try_sessions (known : list string) (m : OlmMessage) (fresh : Curve25519SecretKey) :
    result (option (Session * string)) OlmDecryptError :=
  match known with
  | [] => Ok None
  | bytes :: known =>
      let? session := map_err (λ source, SessionEstablishment (CorruptSession source)) (unpickle_session bytes) in
      match session_decrypt session fresh m with
      | (session, Ok plaintext) => Ok (Some (session, plaintext))
      | (_, Err _) => try_sessions known m fresh
      end
  end.

(** [content.ciphertext.get(key)] *)
Definition ciphertext_for (content : OlmEncryptedContent) (key : string) : option OlmCiphertextInfo :=
  snd <$> List.find (λ kv, bool_decide (kv.1 = key)) (oe_ciphertext content).

(** The part of [decrypt_to_device] that finds or makes the session, and saves it. *)
Definition open_message (store : S) (account : OlmAccountState) (sender_curve_b64 : string) (m : OlmMessage)
    (fresh : Curve25519SecretKey) : S * OlmAccountState * result string OlmDecryptError :=
  match map_err DecryptStore (cs_olm_sessions_for_device store sender_curve_b64) with
  | Err e => (store, account, Err e)
  | Ok known =>
      match try_sessions known m fresh with
      | Err e => (store, account, Err e)
      | Ok (Some (session, plaintext)) =>
          match map_err DecryptMessenger (pickle_session session) with
          | Err e => (store, account, Err e)
          | Ok bytes =>
              let '(store, r) := cs_save_olm_session store sender_curve_b64 (olm_session_id session) bytes in
              (store, account, let? _ := map_err DecryptStore r in Ok plaintext)
          end
      | Ok None =>
          match m with
          | OlmNormal _ => (store, account, Err (NoMatchingSession sender_curve_b64))
          | OlmPreKey pre_key_message =>
              match map_err (λ source, MalformedCiphertext (BadSenderKey source)) (curve_from_base64 sender_curve_b64) with
              | Err e => (store, account, Err e)
              | Ok sender_curve =>
                  let '(account, store, created) :=
                    state_create_inbound_session account store olm_version_1 sender_curve pre_key_message fresh in
                  match map_err (λ source, SessionEstablishment (Establish source)) created with
                  | Err e => (store, account, Err e)
                  | Ok (session, plaintext) =>
                      match map_err DecryptMessenger (pickle_session session) with
                      | Err e => (store, account, Err e)
                      | Ok bytes =>
                          let '(store, r) := cs_save_olm_session store sender_curve_b64 (olm_session_id session) bytes in
                          (store, account, let? _ := map_err DecryptStore r in Ok plaintext)
                      end
                  end
              end
          end
      end
  end.

(** The checks of the payload against the event, this account and the sender's stored device. *)
Definition bind_payload (account : OlmAccountState) (our_user_id event_sender : UserId) (sender_device : Device) (plaintext : string) :
    result DecryptedToDevice OlmDecryptError :=
  let? payload := map_err InvalidPayload (payload_from_slice plaintext) in
  if negb (bool_decide (pl_recipient payload = our_user_id))
  then Err (PayloadMismatch (RecipientMismatch (pl_recipient payload) our_user_id))
  else if negb (bool_decide (pl_recipient_keys_ed25519 payload = public_to_base64 (ik_ed25519 (state_identity_keys account))))
  then Err (PayloadMismatch RecipientKeyMismatch)
  else if negb (bool_decide (pl_sender payload = event_sender))
  then Err (PayloadMismatch (SenderMismatch (pl_sender payload) event_sender))
  else if negb (bool_decide (pl_keys_ed25519 payload = public_to_base64 (sd_ed25519 sender_device)))
  then Err (PayloadMismatch SenderKeyMismatch)
  else Ok (mkDecryptedToDevice (pl_sender payload) (sd_curve25519 sender_device) (sd_ed25519 sender_device)
             (pl_event_type payload) (pl_content payload)).

(** The stored device with the envelope's sender key. *)
Definition find_sender_device (devices : list Device) (sender_curve_b64 : string) : option Device :=
  List.find (λ device : Device, bool_decide (curve_to_base64 (sd_curve25519 device) = sender_curve_b64)) devices.

Definition decrypt_to_device (store : S) (account : OlmAccountState) (our_user_id event_sender : UserId)
    (content : OlmEncryptedContent) (fresh : Curve25519SecretKey) : S * OlmAccountState * result DecryptedToDevice OlmDecryptError :=
  let our_curve_b64 := curve_to_base64 (ik_curve25519 (state_identity_keys account)) in
  match ciphertext_for content our_curve_b64 with
  | None => (store, account, Err NotAddressedToUs)
  | Some cipher_info =>
      match map_err (λ source, MalformedCiphertext (BadOlmMessage source)) (decode_olm_message cipher_info) with
      | Err e => (store, account, Err e)
      | Ok olm_message =>
          let sender_curve_b64 := oe_sender_key content in
          match map_err (λ e, DecryptMessenger (OTracker e)) (tracker_devices_for_user store event_sender) with
          | Err e => (store, account, Err e)
          | Ok sender_devices =>
              match find_sender_device sender_devices sender_curve_b64 with
              | None =>
                  let '(store, r) := cs_mark_user_tracked store event_sender true in
                  (store, account,
                   let? _ := map_err DecryptStore r in Err (UnknownSenderDevice event_sender sender_curve_b64))
              | Some sender_device =>
                  let '(store, account, opened) := open_message store account sender_curve_b64 olm_message fresh in
                  (store, account, let? plaintext := opened in bind_payload account our_user_id event_sender sender_device plaintext)
              end
          end
      end
  end.

End Sessions.
