(* ===== verification/OlmSessionsProps.v ===== *)
(** * Properties of a device's Olm sessions

    Messages read back from their bytes. A message that was decrypted came from a known device of
    the event's sender and was made for this device; one from an unknown device changes nothing
    but the mark that the sender's devices need asking for. Two devices whose stores hold the two
    ends of a session exchange events without end, in both directions. First contact: a claimed
    key makes the session over which the other device reads the first event. *)

From Stdlib Require Import Ascii.
From S2P Require Import Prelude Primitives Ids Json CanonicalJson Store Events DeviceTracker MegolmRatchet Megolm MegolmProps Olm OlmAccount OlmProps OlmConversation AccountState OlmSessions.

Local Open Scope Z_scope.

(** What the store promises: a saved session is the first one for its peer, and each save leaves the rest alone. *)
Class OlmStoreLaws (S : Type) `{OlmStore S} `{CryptoStoreLaws S} `{AccountStoreLaws S} := {
  session_view : S → string → list string;
  sessions_read s c : cs_olm_sessions_for_device s c = Ok (session_view s c);
  session_saved s c i b : ∃ s', cs_save_olm_session s c i b = (s', Ok tt) ∧ head (session_view s' c) = Some b ∧
    (∀ c', c' ≠ c → session_view s' c' = session_view s c') ∧ device_view s' = device_view s ∧
    tracked_view s' = tracked_view s ∧ account_view s' = account_view s;
  tracked_frame s u b : session_view (cs_mark_user_tracked s u b).1 = session_view s ∧
    account_view (cs_mark_user_tracked s u b).1 = account_view s;
  account_frame s b : session_view (cs_save_account s b).1 = session_view s ∧
    device_view (cs_save_account s b).1 = device_view s
}.

Class OlmWireLaws `{MegolmWire} `{OlmProst} : Prop := {
  base64_key_len s : slen s = 32 → slen (base64_encode s) = 43
}.

Section Wire.
Context `{HmacSha256, !HmacSha256Laws, MegolmCrypto, !MegolmCryptoLaws, Curve25519, !Curve25519Laws, Primitives,
  MegolmWire, !MegolmWireLaws, OlmProst, !OlmProstLaws, !OlmWireLaws}.

(** ** Keys and messages through their bytes *)

Lemma curve_slice_roundtrip k : curve_from_slice (curve_as_bytes k) = Ok k.
Proof. unfold curve_from_slice, CURVE_LENGTH. by rewrite curve_bytes_len, curve_bytes_roundtrip. Qed.

Lemma curve_text_roundtrip k : curve_from_base64 (curve_to_base64 k) = Ok k.
Proof.
  unfold curve_from_base64, curve_to_base64. rewrite base64_key_len by apply curve_bytes_len. cbn [Z.eqb negb andb Pos.eqb].
  rewrite base64_wire_roundtrip. apply curve_slice_roundtrip.
Qed.

Lemma curve_to_base64_inj k k' : curve_to_base64 k = curve_to_base64 k' → k = k'.
Proof. intros He. pose proof (curve_text_roundtrip k) as Hk. rewrite He, curve_text_roundtrip in Hk. congruence. Qed.

(** The messages a session makes. *)
Definition olm_sendable (m : Message) : Prop :=
  msg_version m = MAC_TRUNCATED_VERSION ∧ 0 ≤ msg_chain_index m < u64_mod ∧ slen (msg_ciphertext m) < u64_mod ∧
  ∃ tag, msg_mac m = Truncated tag ∧ slen tag = 8.

Lemma olm_bytes_roundtrip m : olm_sendable m → olm_from_bytes (olm_to_bytes m) = Ok m.
Proof.
  destruct m as [v k i c mac]. intros (Hv & Hi & Hc & tag & Hmac & Htag). cbn in Hv, Hi, Hc, Hmac. subst v mac.
  unfold olm_to_bytes, olm_encode. cbn [msg_version msg_ratchet_key msg_chain_index msg_ciphertext msg_mac mac_as_bytes].
  set (p := olm_payload (curve_as_bytes k) i c).
  assert (Hp : 2 ≤ slen p).
  { unfold p, olm_payload. rewrite !slen_app, curve_bytes_len. unfold slen. lia. }
  assert (Hread : prost_decode_message p = Ok (curve_as_bytes k, i, c)).
  { apply prost_reads_message; [by rewrite curve_bytes_len|done|done]. }
  clearbody p. set (b := (byte_str MAC_TRUNCATED_VERSION +:+ p) +:+ tag).
  assert (Hb : b = byte_str MAC_TRUNCATED_VERSION +:+ p +:+ tag) by (unfold b; by rewrite !s_app_assoc).
  assert (Hlen : slen b = 9 + slen p).
  { rewrite Hb, !slen_app, Htag. change (slen (byte_str MAC_TRUNCATED_VERSION)) with 1. lia. }
  unfold olm_from_bytes. replace b with (String (byte MAC_TRUNCATED_VERSION) (p +:+ tag)) at 1 by (by rewrite Hb).
  change (bval (byte MAC_TRUNCATED_VERSION)) with 3. change (3 =? VERSION) with false. change (3 =? MAC_TRUNCATED_VERSION) with true.
  cbv iota. change (Z.of_nat Mac_TRUNCATED_LEN) with 8. destruct (Z.ltb_spec (slen b) (8 + 2)); [lia|].
  rewrite Hb at 1. rewrite s_get_mid by (change (slen (byte_str MAC_TRUNCATED_VERSION)) with 1; lia). cbn [ok_or].
  rewrite Hread. cbn [map_err]. unfold b. rewrite s_drop_suffix by (unfold slen, Mac_TRUNCATED_LEN in *; lia). rewrite Htag.
  cbn [Z.eqb Pos.eqb negb]. rewrite curve_slice_roundtrip. cbn [map_err]. unfold extract_mac.
  replace Mac_TRUNCATED_LEN with (String.length tag) by (unfold slen in Htag; unfold Mac_TRUNCATED_LEN; lia).
  rewrite <- (s_app_nil_r tag) at 2. by rewrite s_take_app.
Qed.

Lemma prekey_bytes_roundtrip m : olm_sendable (pk_message m) → prekey_from_bytes (prekey_to_bytes m) = Ok m.
Proof.
  intros Hm. destruct m as [[ik bk ok] m]. cbn in Hm. unfold prekey_to_bytes. cbn [pk_session_keys pk_message sk_identity_key sk_base_key sk_one_time_key].
  change (byte_str PREKEY_VERSION +:+ ?x) with (String (byte PREKEY_VERSION) x). unfold prekey_from_bytes.
  change (bval (byte PREKEY_VERSION) =? PREKEY_VERSION) with true. cbn [negb]. rewrite prost_reads_prekey. cbn [map_err].
  rewrite !curve_slice_roundtrip. cbn [map_err]. by rewrite olm_bytes_roundtrip.
Qed.

Lemma parts_roundtrip m : olm_sendable (inner_message m) → from_parts (to_parts m).1 (to_parts m).2 = Ok m.
Proof.
  destruct m as [m|m]; intros Hm; cbn [to_parts fst snd message_type]; unfold from_parts; cbn [Z.eqb Pos.eqb].
  - by rewrite olm_bytes_roundtrip.
  - by rewrite prekey_bytes_roundtrip.
Qed.

(** A plaintext whose encryption a length can count. *)
Definition fits (plaintext : string) : Prop := ∀ c, slen (cipher_encrypt c plaintext) < u64_mod.

Lemma sent_sendable origin k n plaintext : Z.of_nat n < u64_mod → fits plaintext → olm_sendable (sent origin k n plaintext).
Proof.
  intros Hn Hf. split; [done|]. split; [cbn; lia|]. split; [apply Hf|]. eexists. split; [reflexivity|].
  unfold truncate, cipher_mac. rewrite slen_take; [done|]. set (enc := olm_encode _).
  match goal with |- context [hmac_sha256 ?k enc] => pose proof (hmac_sha256_len k enc) as Hh end.
  unfold slen, Mac_TRUNCATED_LEN in *. lia.
Qed.

End Wire.

Section Sessions.
Context `{HmacSha256, MegolmCrypto, Curve25519, !EqDecision Curve25519PublicKey, !Countable Curve25519PublicKey,
  Primitives, MegolmWire, OlmProst, Ed25519, !Ed25519Keys, !EqDecision Ed25519PublicKey}
  `{!AccountSerde, !DeviceSerde (Curve25519PublicKey := Curve25519PublicKey), !OlmSerde}
  {S : Type} `{OlmStore S, CryptoStore S, AccountStore S}.

(** ** What a decrypted event says *)

Lemma bind_payload_ok account our_user_id event_sender device plaintext d :
  bind_payload account our_user_id event_sender device plaintext = Ok d →
  d = mkDecryptedToDevice event_sender (sd_curve25519 device) (sd_ed25519 device) (dtd_event_type d) (dtd_content d) ∧
  ∃ sender_device, payload_from_slice plaintext = Ok (mkPayload (dtd_event_type d) (dtd_content d) event_sender sender_device
    (public_to_base64 (sd_ed25519 device)) our_user_id (public_to_base64 (ik_ed25519 (state_identity_keys account)))).
Proof.
  unfold bind_payload. destruct (payload_from_slice plaintext) as [[ty ct se sd ke re rk]|] eqn:Hp; cbn; [|done].
  destruct (bool_decide (re = _)) eqn:H1'; cbn; [|done]. destruct (bool_decide (rk = _)) eqn:H2'; cbn; [|done].
  destruct (bool_decide (se = _)) eqn:H3'; cbn; [|done]. destruct (bool_decide (ke = _)) eqn:H4'; cbn; [|done].
  apply bool_decide_eq_true in H1', H2', H3', H4'. intros [= <-]. cbn. subst. eauto.
Qed.

Lemma open_message_identity store account c m fresh store' account' r :
  open_message store account c m fresh = (store', account', r) → state_identity_keys account' = state_identity_keys account.
Proof.
  unfold open_message. destruct (cs_olm_sessions_for_device store c); cbn; [|by intros [= <- <- <-]].
  destruct (try_sessions _ _ _) as [[[s p]|]|]; cbn; [| |by intros [= <- <- <-]].
  - destruct (pickle_session s); cbn; [|by intros [= <- <- <-]]. destruct (cs_save_olm_session _ _ _ _). by intros [= <- <- <-].
  - destruct m as [m|m]; [by intros [= <- <- <-]|]. destruct (curve_from_base64 c); cbn; [|by intros [= <- <- <-]].
    destruct (state_create_inbound_session account store olm_version_1 _ m fresh) as [[account1 store1] created] eqn:Hc.
    assert (Hid : state_identity_keys account1 = state_identity_keys account).
    { unfold state_create_inbound_session in Hc. destruct (create_inbound_session _ _ _ _ _) as [acc r0] eqn:Hin.
      assert (Ha : state_identity_keys (with_state_account account acc) = state_identity_keys account).
      { unfold state_identity_keys. cbn. pose proof (OlmAccountProps.inbound_account (oas_account account) olm_version_1
          ltac:(assumption) m fresh) as Hi. rewrite Hin in Hi. cbn in Hi. destruct Hi as [-> | ->]; [done|].
        unfold remove_one_time_key_helper. by destruct (remove_secret_key _ _). }
      destruct r0; [destruct (account_save _ _) as [st [|]]|]; by injection Hc as <- <- <-. }
    destruct created as [[s p]|]; cbn; [|by intros [= <- <- <-]].
    destruct (pickle_session s); cbn; [|by intros [= <- <- <-]]. destruct (cs_save_olm_session _ _ _ _). by intros [= <- <- <-].
Qed.

Lemma find_sender_device_Some devices c device :
  find_sender_device devices c = Some device → device ∈ devices ∧ curve_to_base64 (sd_curve25519 device) = c.
Proof. intros [Hin Hb]%find_some. split; [by apply list_elem_of_In|by apply bool_decide_eq_true in Hb]. Qed.

Lemma try_sessions_ok known m fresh session' plaintext :
  try_sessions known m fresh = Ok (Some (session', plaintext)) →
  ∃ bytes session, bytes ∈ known ∧ session_from_slice bytes = Ok session ∧ session_decrypt session fresh m = (session', Ok plaintext).
Proof.
  induction known as [|bytes known IH]; cbn [try_sessions]; [done|]. unfold unpickle_session.
  destruct (session_from_slice bytes) as [session|] eqn:Hs; cbn [map_err]; [|done].
  destruct (session_decrypt session fresh m) as [session1 [p|]] eqn:Hd.
  - intros [= -> ->]. exists bytes, session. split; [apply list_elem_of_here|done].
  - intros (b & s & Hb & ?)%IH. exists b, s. split; [by apply list_elem_of_further|done].
Qed.

(** What the message [m] says to a device: one of the stored sessions with the sender's key decrypts it, or it is the
    first message of a session the account can make with that key. *)
Definition says (store : S) (account : OlmAccountState) (sender_key : string) (m : OlmMessage) (fresh : Curve25519SecretKey)
    (plaintext : string) : Prop :=
  (∃ known bytes session session', cs_olm_sessions_for_device store sender_key = Ok known ∧ bytes ∈ known ∧
     session_from_slice bytes = Ok session ∧ session_decrypt session fresh m = (session', Ok plaintext)) ∨
  (∃ first curve account' session, m = OlmPreKey first ∧ curve_from_base64 sender_key = Ok curve ∧
     create_inbound_session (oas_account account) olm_version_1 curve first fresh = (account', Ok (session, plaintext))).

Lemma open_message_says store account c m fresh store' account' plaintext :
  open_message store account c m fresh = (store', account', Ok plaintext) → says store account c m fresh plaintext.
Proof.
  unfold open_message. destruct (cs_olm_sessions_for_device store c) as [known|] eqn:Hk; cbn; [|done].
  destruct (try_sessions _ _ _) as [[[s p]|]|] eqn:Ht; cbn; [| |done].
  - destruct (pickle_session s); cbn; [|done]. destruct (cs_save_olm_session _ _ _ _) as [? [|]]; cbn; [|done]. intros [= _ _ <-].
    apply try_sessions_ok in Ht as (bytes & session & ?). left. exists known, bytes, session, s. naive_solver.
  - destruct m as [m|m]; [done|]. destruct (curve_from_base64 c) as [curve|] eqn:Hc; cbn; [|done].
    unfold state_create_inbound_session. destruct (create_inbound_session _ _ _ _ _) as [acc [[s p]|]] eqn:Hin; [|done].
    destruct (account_save _ _) as [st [|]]; cbn; [|done].
    destruct (pickle_session s); cbn; [|done]. destruct (cs_save_olm_session _ _ _ _) as [? [|]]; cbn; [|done]. intros [= _ _ <-].
    right. exists m, curve, acc, s. done.
Qed.

Lemma ciphertext_for_In content key info : ciphertext_for content key = Some info → (key, info) ∈ oe_ciphertext content.
Proof.
  unfold ciphertext_for. destruct (List.find _ _) as [[k i]|] eqn:Hf; [|done]. cbn. intros [= ->].
  apply find_some in Hf as [Hin Hb%bool_decide_eq_true]. cbn in Hb. subst k. by apply list_elem_of_In.
Qed.

Lemma decode_olm_message_ok info m :
  decode_olm_message info = Ok m → ∃ bytes, base64_decode (oc_body info) = Ok bytes ∧ from_parts (oc_message_type info) bytes = Ok m.
Proof.
  unfold decode_olm_message. destruct (base64_decode _) as [bytes|]; cbn [map_err]; [|done].
  destruct (from_parts _ bytes) eqn:Hp; cbn [map_err]; [|done]. intros [= <-]. by exists bytes.
Qed.

(** C27: What was decrypted is what a known device wrote to this one: the event has a ciphertext under this account's
    key whose message decrypts, under a stored session with the envelope's sender key or as the first message of a new
    one, to the payload; the sender of the result is the event's sender, whose stored devices contain one with the
    envelope's sender key; the result carries that device's stored keys and the payload's type and content; and the
    payload itself names this user and this account's signing key as the recipient, and that sender and that device's
    signing key as the origin. *)
Theorem decrypted_events_are_bound store account our_user_id event_sender content fresh store' account' d :
  decrypt_to_device store account our_user_id event_sender content fresh = (store', account', Ok d) →
  ∃ devices device plaintext sender_device info bytes m,
    (curve_to_base64 (ik_curve25519 (state_identity_keys account)), info) ∈ oe_ciphertext content ∧
    base64_decode (oc_body info) = Ok bytes ∧ from_parts (oc_message_type info) bytes = Ok m ∧
    says store account (oe_sender_key content) m fresh plaintext ∧
    tracker_devices_for_user store event_sender = Ok devices ∧ device ∈ devices ∧
    curve_to_base64 (sd_curve25519 device) = oe_sender_key content ∧
    d = mkDecryptedToDevice event_sender (sd_curve25519 device) (sd_ed25519 device) (dtd_event_type d) (dtd_content d) ∧
    payload_from_slice plaintext = Ok (mkPayload (dtd_event_type d) (dtd_content d) event_sender sender_device
      (public_to_base64 (sd_ed25519 device)) our_user_id (public_to_base64 (ik_ed25519 (state_identity_keys account)))).
Proof.
  unfold decrypt_to_device. destruct (ciphertext_for _ _) as [info|] eqn:Hi; [|done].
  destruct (decode_olm_message info) as [m|] eqn:Hm; cbn [map_err]; [|done].
  destruct (tracker_devices_for_user store event_sender) as [devices|]; cbn [map_err]; [|done].
  destruct (find_sender_device devices _) as [device|] eqn:Hf; [|by destruct (cs_mark_user_tracked _ _ _) as [? [|]]].
  destruct (open_message _ _ _ _ _) as [[store1 account1] opened] eqn:Ho. intros [= <- <- Hd].
  destruct opened as [plaintext|]; [|done]. apply bind_payload_ok in Hd as (Hd & sender_device & Hp).
  apply find_sender_device_Some in Hf as [Hin Hb]. apply ciphertext_for_In in Hi. apply decode_olm_message_ok in Hm as (bytes & Hb64 & Hm).
  exists devices, device, plaintext, sender_device, info, bytes, m. split_and!; [done|done|done|by eapply open_message_says|done|done|done|done|].
  by rewrite <- (open_message_identity _ _ _ _ _ _ _ _ Ho).
Qed.

(** ** Unknown senders *)

Context `{!CryptoStoreLaws S, !AccountStoreLaws S, !OlmStoreLaws S}.

(** An event from a device that is not known yet uses up nothing: it is refused as such, the account, the stored
    sessions and the device lists are as before, and the sender is marked as one whose devices must be asked for, so
    that the event can be tried again. *)
Theorem unknown_senders_use_up_nothing store account our_user_id event_sender content fresh info m devices :
  ciphertext_for content (curve_to_base64 (ik_curve25519 (state_identity_keys account))) = Some info →
  decode_olm_message info = Ok m → tracker_devices_for_user store event_sender = Ok devices →
  (∀ device, device ∈ devices → curve_to_base64 (sd_curve25519 device) ≠ oe_sender_key content) →
  ∃ store', decrypt_to_device store account our_user_id event_sender content fresh =
      (store', account, Err (UnknownSenderDevice event_sender (oe_sender_key content))) ∧
    session_view store' = session_view store ∧ account_view store' = account_view store ∧
    device_view store' = device_view store ∧ tracked_view store' = <[event_sender := true]> (tracked_view store).
Proof.
  intros Hinfo Hm Hdev Hnone. unfold decrypt_to_device. rewrite Hinfo, Hm. cbn [map_err]. rewrite Hdev. cbn [map_err].
  destruct (find_sender_device devices _) as [device|] eqn:Hf.
  { apply find_sender_device_Some in Hf as [Hin Hb]. by destruct (Hnone device Hin). }
  destruct (tracked_saved store event_sender true) as (store' & Ht & Htv & Hdv). rewrite Ht. cbn [map_err].
  exists store'. destruct (tracked_frame store event_sender true) as [Hs Ha]. rewrite Ht in Hs, Ha. by split_and!.
Qed.

End Sessions.

(** ** Events arrive *)

Class OlmSerdeTotal `{OlmSerde} : Prop := {
  session_to_vec_total s : ∃ b, session_to_vec s = Ok b;
  payload_to_vec_total p : ∃ b, payload_to_vec p = Ok b
}.

Section Delivery.
Context `{HmacSha256, !HmacSha256Laws, MegolmCrypto, !MegolmCryptoLaws, Curve25519, !Curve25519Laws,
  !EqDecision Curve25519PublicKey, !Countable Curve25519PublicKey,
  Primitives, MegolmWire, !MegolmWireLaws, OlmProst, !OlmProstLaws, !OlmWireLaws, Ed25519, !Ed25519Keys, !EqDecision Ed25519PublicKey}
  `{!AccountSerde, !DeviceSerde (Curve25519PublicKey := Curve25519PublicKey), !OlmSerde, !OlmSerdeLaws, !OlmSerdeTotal}
  {S : Type} `{OlmStore S, CryptoStore S, AccountStore S, !CryptoStoreLaws S, !AccountStoreLaws S, !OlmStoreLaws S}.

(** A device: its store and its account, whose device it is. *)
Record Party := mkParty { p_store : S; p_account : OlmAccountState; p_user : UserId; p_device : DeviceId }.

Definition p_curve (p : Party) : Curve25519PublicKey := ik_curve25519 (state_identity_keys (p_account p)).
Definition p_ed25519 (p : Party) : Ed25519PublicKey := ik_ed25519 (state_identity_keys (p_account p)).
Definition with_store (p : Party) (s : S) : Party := mkParty s (p_account p) (p_user p) (p_device p).

(** [device] describes [p]. *)
Definition describes (device : Device) (p : Party) : Prop :=
  sd_user_id device = p_user p ∧ sd_curve25519 device = p_curve p ∧ sd_ed25519 device = p_ed25519 p.

(** [p]'s store has [q]'s device. *)
Definition knows (p q : Party) : Prop :=
  ∃ devices device, tracker_devices_for_user (p_store p) (p_user q) = Ok devices ∧
    find_sender_device devices (curve_to_base64 (p_curve q)) = Some device ∧ sd_curve25519 device = p_curve q ∧ sd_ed25519 device = p_ed25519 q.

(** The newest session [p] has with [q]. *)
Definition latest_session (p q : Party) (s : Session) : Prop :=
  ∃ b, head (session_view (p_store p) (curve_to_base64 (p_curve q))) = Some b ∧ session_from_slice b = Ok s.

(** The two stores hold the two ends of a session; [used] has the ratchet keys seen so far. *)
Definition linked (budget : nat) (used : list Curve25519PublicKey) (p q : Party) : Prop :=
  ∃ s t, latest_session p q s ∧ latest_session q p t ∧ in_touch budget s t ∧
    ∀ k, k ∈ chain_keys s ∨ k ∈ chain_keys t → k ∈ used.

Lemma linked_sym budget used p q : linked budget used p q → linked budget used q p.
Proof. intros (s & t & Hs & Ht & Hin & Hk). exists t, s. split_and!; [done..|by apply in_touch_sym|]. intros k [|]; auto. Qed.

Definition payload_of (p : Party) (target : Device) (event_type : string) (content : Value) : OlmPlaintextPayload :=
  mkPayload event_type content (p_user p) (p_device p) (public_to_base64 (p_ed25519 p)) (sd_user_id target) (public_to_base64 (sd_ed25519 target)).

(** The text of the payload can be encrypted. *)
Definition payload_fits (p : Party) (target : Device) (event_type : string) (content : Value) : Prop :=
  ∀ b, payload_to_vec (payload_of p target event_type content) = Ok b → fits b.

Lemma decode_encoded m : olm_sendable (inner_message m) → decode_olm_message (encode_olm_message m) = Ok m.
Proof.
  intros Hm. unfold decode_olm_message, encode_olm_message. pose proof (parts_roundtrip m Hm) as Hp.
  destruct (to_parts m) as [ty body] eqn:Hparts. cbn [oc_body oc_message_type fst snd] in *. rewrite base64_wire_roundtrip. cbn [map_err].
  assert (ty mod 256 = ty) as -> by (destruct m; injection Hparts as <- _; done). by rewrite Hp.
Qed.

(** The saved session is the newest one. *)
Lemma save_session p q s :
  ∃ b s', session_to_vec s = Ok b ∧
    cs_save_olm_session (p_store p) (curve_to_base64 (p_curve q)) (olm_session_id s) b = (s', Ok tt) ∧
    latest_session (with_store p s') q s ∧ device_view s' = device_view (p_store p).
Proof.
  destruct (session_to_vec_total s) as [b Hb].
  destruct (session_saved (p_store p) (curve_to_base64 (p_curve q)) (olm_session_id s) b) as (s' & Hs & Hh & _ & Hd & _ & _).
  exists b, s'. split_and!; [done..| |done]. exists b. split; [done|]. by apply session_roundtrip.
Qed.

Lemma encrypt_step p q target event_type content fresh s s' m b :
  latest_session p q s → describes target q → payload_to_vec (payload_of p target event_type content) = Ok b →
  session_encrypt s fresh b = (s', Ok m) →
  ∃ store, encrypt_to_device (p_store p) (p_account p) (p_user p) (p_device p) target event_type content fresh =
      (store, Ok (mkOlm (curve_to_base64 (p_curve p)) [(curve_to_base64 (p_curve q), encode_olm_message m)])) ∧
    latest_session (with_store p store) q s' ∧ device_view store = device_view (p_store p).
Proof.
  intros (bs & Hhead & Hbs) (Hu & Hc & He) Hb Henc. destruct (save_session p q s') as (b' & store & Hvec & Hsave & Hlatest & Hdev).
  exists store. split; [|done]. unfold encrypt_to_device. rewrite Hc, sessions_read. cbn [map_err]. rewrite Hhead. cbn [ok_or].
  unfold unpickle_session. rewrite Hbs. cbn [map_err]. change (mkPayload _ _ _ _ _ _ _) with (payload_of p target event_type content).
  rewrite Hb. cbn [map_err]. rewrite Henc. cbn [map_err]. unfold pickle_session. rewrite Hvec. cbn [map_err]. rewrite Hsave. reflexivity.
Qed.

(** What the recipient makes of the payload. *)
Lemma bind_step p q target event_type content b device :
  describes target q → payload_to_vec (payload_of p target event_type content) = Ok b → sd_curve25519 device = p_curve p →
  sd_ed25519 device = p_ed25519 p →
  bind_payload (p_account q) (p_user q) (p_user p) device b =
  Ok (mkDecryptedToDevice (p_user p) (p_curve p) (p_ed25519 p) event_type content).
Proof.
  intros (Hu & Hc & He) Hb Hdc Hde. unfold bind_payload. rewrite (payload_roundtrip _ _ Hb). cbn [map_err].
  unfold payload_of. cbn [pl_recipient pl_recipient_keys_ed25519 pl_sender pl_keys_ed25519 pl_event_type pl_content].
  rewrite Hu, He, Hdc, Hde. change (ik_ed25519 (state_identity_keys (p_account q))) with (p_ed25519 q).
  rewrite !bool_decide_true by done. reflexivity.
Qed.

Lemma decrypt_step p q target event_type content fresh t t' m b :
  latest_session q p t → knows q p → describes target q → payload_to_vec (payload_of p target event_type content) = Ok b →
  session_decrypt t fresh m = (t', Ok b) → olm_sendable (inner_message m) →
  ∃ store, decrypt_to_device (p_store q) (p_account q) (p_user q) (p_user p)
        (mkOlm (curve_to_base64 (p_curve p)) [(curve_to_base64 (p_curve q), encode_olm_message m)]) fresh =
      (store, p_account q, Ok (mkDecryptedToDevice (p_user p) (p_curve p) (p_ed25519 p) event_type content)) ∧
    latest_session (with_store q store) p t' ∧ device_view store = device_view (p_store q).
Proof.
  intros (bt & Hhead & Hbt) (devices & device & Hdevs & Hfind & Hdc & Hde) Htarget Hb Hdec Hm.
  destruct (save_session q p t') as (b' & store & Hvec & Hsave & Hlatest & Hdev). exists store. split; [|done].
  unfold decrypt_to_device. change (curve_to_base64 (ik_curve25519 (state_identity_keys (p_account q)))) with (curve_to_base64 (p_curve q)).
  unfold ciphertext_for. cbn [oe_ciphertext List.find fst]. rewrite bool_decide_true by done. cbn [fmap option_fmap option_map snd].
  rewrite decode_encoded by done. cbn [map_err oe_sender_key]. rewrite Hdevs. cbn [map_err]. rewrite Hfind.
  unfold open_message. rewrite sessions_read. cbn [map_err]. destruct (session_view (p_store q) _) as [|b1 rest]; [done|].
  cbn in Hhead. injection Hhead as ->. cbn [try_sessions]. unfold unpickle_session. rewrite Hbt. cbn [map_err]. rewrite Hdec.
  unfold pickle_session. rewrite Hvec. cbn [map_err]. rewrite Hsave. cbn [map_err].
  by rewrite (bind_step p q target event_type content b device).
Qed.

Lemma event_arrives budget used p q target event_type content fresh their_fresh :
  linked (Datatypes.S budget) used p q → knows q p → describes target q → payload_fits p target event_type content →
  curve_public fresh ∉ used →
  ∃ store content' store',
    encrypt_to_device (p_store p) (p_account p) (p_user p) (p_device p) target event_type content fresh = (store, Ok content') ∧
    decrypt_to_device (p_store q) (p_account q) (p_user q) (p_user p) content' their_fresh =
      (store', p_account q, Ok (mkDecryptedToDevice (p_user p) (p_curve p) (p_ed25519 p) event_type content)) ∧
    linked budget (curve_public fresh :: used) (with_store p store) (with_store q store') ∧
    device_view store = device_view (p_store p) ∧ device_view store' = device_view (p_store q).
Proof.
  intros (s & t & Hs & Ht & Hin & Hused) Hknows Htarget Hfits Hfresh.
  destruct (payload_to_vec_total (payload_of p target event_type content)) as [b Hb].
  destruct (say_in_touch budget s t fresh their_fresh b) as (s' & t' & (m & origin & k & n & Henc & Hdec & Hmsg & Hn) & Hin' & Hkeys);
    [done|by auto|].
  assert (Hsend : olm_sendable (inner_message m)) by (rewrite Hmsg; apply sent_sendable; [done|by apply Hfits]).
  destruct (encrypt_step p q target event_type content fresh s s' m b) as (store & He & Hl & Hd); [done..|].
  destruct (decrypt_step p q target event_type content their_fresh t t' m b) as (store' & He' & Hl' & Hd'); [done..|].
  eexists store, _, store'. split_and!; [exact He|exact He'| |done|done]. exists s', t'. split_and!; [done..|].
  intros key Hkey. destruct (Hkeys key Hkey) as [|[| ->]]; [right; auto|right; auto|by left].
Qed.

(** ** Exchanges *)

Record ToDevice := mkToDevice { td_first : bool; td_type : string; td_content : Value; td_fresh : Curve25519SecretKey; td_their_fresh : Curve25519SecretKey }.

(** One event from [p] to [q], described by [target]: both afterwards, and what [q] decrypted. *)
Definition deliver (p q : Party) (target : Device) (e : ToDevice) : option (Party * Party * DecryptedToDevice) :=
  match encrypt_to_device (p_store p) (p_account p) (p_user p) (p_device p) target (td_type e) (td_content e) (td_fresh e) with
  | (store, Ok content) =>
      match decrypt_to_device (p_store q) (p_account q) (p_user q) (p_user p) content (td_their_fresh e) with
      | (store', account', Ok d) => Some (with_store p store, mkParty store' account' (p_user q) (p_device q), d)
      | (_, _, Err _) => None
      end
  | (_, Err _) => None
  end.

(** A run of events between two devices; [tp] describes the first, [tq] the second. *)
Fixpoint exchange (p q : Party) (tp tq : Device) (script : list ToDevice) : option (list DecryptedToDevice) :=
  match script with
  | [] => Some []
  | e :: script =>
      '(p, q, d) ← (if td_first e then deliver p q tq e else '(q, p, d) ← deliver q p tp e; Some (p, q, d));
      ds ← exchange p q tp tq script;
      Some (d :: ds)
  end.

(** The event as its recipient should see it. *)
Definition as_sent (p q : Party) (e : ToDevice) : DecryptedToDevice :=
  let from := if td_first e then p else q in
  mkDecryptedToDevice (p_user from) (p_curve from) (p_ed25519 from) (td_type e) (td_content e).

Lemma knows_store p q store store' : device_view store = device_view (p_store p) → knows p q → knows (with_store p store) (with_store q store').
Proof.
  intros Hd (devices & device & Hdevs & Hrest). exists devices, device. split; [|done]. rewrite <- Hdevs.
  unfold tracker_devices_for_user. cbn [p_store with_store p_user]. by rewrite !devices_read, Hd.
Qed.

Lemma as_sent_store p q store store' (script : list ToDevice) : as_sent (with_store p store) (with_store q store') <$> script = as_sent p q <$> script.
Proof. apply list_fmap_ext. intros i e _. unfold as_sent. by destruct (td_first e). Qed.

(** C28: Two devices that know each other and hold the two ends of a session exchange events in any order and any
    number, up to what the counters hold: each event is encrypted, decrypted and accepted at the other end with its
    type and content and the sender's user and keys, and the new state of both sessions is what the next event uses. *)
Theorem devices_exchange_events used p q tp tq script :
  linked (length script) used p q → knows p q → knows q p → describes tp p → describes tq q →
  (∀ e, e ∈ script → if td_first e then payload_fits p tq (td_type e) (td_content e) else payload_fits q tp (td_type e) (td_content e)) →
  NoDup (curve_public <$> (td_fresh <$> script)) → (∀ k, k ∈ used → k ∉ curve_public <$> (td_fresh <$> script)) →
  exchange p q tp tq script = Some (as_sent p q <$> script).
Proof.
  revert used p q. induction script as [|e script IH]; intros used p q Hl Hpq Hqp Htp Htq Hfits Hnd Hused; [done|].
  cbn [length fmap list_fmap] in *. apply NoDup_cons in Hnd as [Hnin Hnd]. cbn [exchange].
  assert (Hfe := Hfits e (list_elem_of_here _ _)).
  assert (Hfresh : curve_public (td_fresh e) ∉ used) by (intros Hin; apply (Hused _ Hin); by left).
  assert (Hnext : ∀ store store', linked (length script) (curve_public (td_fresh e) :: used) (with_store p store) (with_store q store') →
    device_view store = device_view (p_store p) → device_view store' = device_view (p_store q) →
    exchange (with_store p store) (with_store q store') tp tq script = Some (as_sent p q <$> script)).
  { intros store store' Hl' Hd Hd'. rewrite <- (as_sent_store p q store store').
    apply (IH (curve_public (td_fresh e) :: used)); try done; [by apply knows_store|by apply knows_store| |].
    - intros e' He'. apply Hfits. by right.
    - intros k [-> | Hk]%elem_of_cons; [done|]. apply Hused in Hk. by apply not_elem_of_cons in Hk as [_ ?]. }
  unfold deliver. destruct (td_first e) eqn:Hfirst.
  - destruct (event_arrives (length script) used p q tq (td_type e) (td_content e) (td_fresh e) (td_their_fresh e))
      as (store & content & store' & He & Hd & Hl' & Hv & Hv'); [done..|].
    rewrite He, Hd. change (mkParty store' (p_account q) (p_user q) (p_device q)) with (with_store q store'). cbn [mbind option_bind].
    rewrite Hnext by done. cbn [mbind option_bind]. unfold as_sent at 2. by rewrite Hfirst.
  - destruct (event_arrives (length script) used q p tp (td_type e) (td_content e) (td_fresh e) (td_their_fresh e))
      as (store & content & store' & He & Hd & Hl' & Hv & Hv'); [by apply linked_sym|done..|].
    rewrite He, Hd. change (mkParty store' (p_account p) (p_user p) (p_device p)) with (with_store p store'). cbn [mbind option_bind].
    rewrite Hnext; [|by apply linked_sym|done|done]. cbn [mbind option_bind]. unfold as_sent at 2. by rewrite Hfirst.
Qed.

End Delivery.

(** * First contact between two devices

    A device that signed and uploaded a one-time key is reached by one that claims it: the claim
    is accepted, the first event arrives, the one-time key is gone, and the two stores hold the
    two ends of a session, so that [devices_exchange_events] applies from there on. *)

From S2P Require Import CanonicalJsonProps AccountStateProps.

Section Contact.
Context `{HmacSha256, !HmacSha256Laws, MegolmCrypto, !MegolmCryptoLaws, Curve25519, !Curve25519Laws,
  !EqDecision Curve25519PublicKey, !Countable Curve25519PublicKey,
  Primitives, MegolmWire, !MegolmWireLaws, OlmProst, !OlmProstLaws, !OlmWireLaws,
  Ed25519, !Ed25519Laws, !Ed25519Keys, !Ed25519KeysLaws, !EqDecision Ed25519PublicKey}
  `{!AccountSerde, !AccountSerdeLaws, !AccountSerdeTotal, !DeviceSerde (Curve25519PublicKey := Curve25519PublicKey), !OlmSerde, !OlmSerdeLaws, !OlmSerdeTotal}
  {S : Type} `{OlmStore S, CryptoStore S, AccountStore S, !CryptoStoreLaws S, !AccountStoreLaws S, !OlmStoreLaws S}.

(** ** Signed keys *)

Lemma sign_with_verifies account m user_id device_id :
  wf_value (VObject (strip m)) → safe (VObject (strip m)) = true → map_get m "signatures" = None →
  ∃ v, sign_with account (VObject m) user_id device_id = Ok v ∧
    verify_json_signature v (UserId_str user_id) ("ed25519:" +:+ DeviceId_str device_id) (ik_ed25519 (state_identity_keys account)) = Ok tt ∧
    ∀ k, k ≠ "signatures" → get v k = map_get m k.
Proof.
  intros Hwf Hsafe Hsig. pose proof (write_canonical_safe _ Hwf Hsafe) as Hc. unfold sign_with.
  destruct (sign_json (VObject m) (UserId_str user_id) ("ed25519:" +:+ DeviceId_str device_id) (account_sign (oas_account account)))
    as [v r] eqn:Hs.
  assert (Hr : r = Ok tt).
  { revert Hs. unfold sign_json. change (map_remove "unsigned" (map_remove "signatures" m)) with (strip m).
    unfold to_canonical_json. rewrite Hc. by intros [= <- <-]. }
  subst r. apply sign_json_ok in Hs as (canonical & Hcan & ->). exists (VObject (signed m (UserId_str user_id)
    ("ed25519:" +:+ DeviceId_str device_id) (to_base64 (account_sign (oas_account account) canonical)))). split; [done|]. split.
  - unfold verify_json_signature. rewrite signature_of_signed by (intros sigs v Hv; by rewrite Hsig in Hv). cbn [ok_or].
    rewrite base64_roundtrip. cbn [map_err]. rewrite strip_signed, Hcan.
    assert (Hvs : verify (ik_ed25519 (state_identity_keys account)) canonical (account_sign (oas_account account) canonical) = Ok tt)
      by apply verify_sign. by rewrite Hvs.
  - intros k Hk. by apply signed_members.
Qed.

(** The object a one-time or fallback key is uploaded as verifies under the account's key and carries the key. *)
Lemma uploaded_key_verifies account user_id device_id pk fallback :
  ∃ raw, signed_one_time_key_json account user_id device_id pk fallback = Ok raw ∧
    verify_json_signature raw (UserId_str user_id) ("ed25519:" +:+ DeviceId_str device_id) (ik_ed25519 (state_identity_keys account)) = Ok tt ∧
    get raw "key" = Some (VString (curve_to_base64 pk)).
Proof.
  unfold signed_one_time_key_json.
  set (obj := if fallback then map_insert "fallback" (VBool true) [("key", VString (curve_to_base64 pk))] else [("key", VString (curve_to_base64 pk))]).
  assert (Hstrip : strip obj = obj) by (by destruct fallback).
  destruct (sign_with_verifies account obj user_id device_id) as (v & Hv & Hver & Hget).
  - rewrite Hstrip. destruct fallback; constructor; repeat constructor; cbn; try done; by vm_compute.
  - rewrite Hstrip. by destruct fallback.
  - by destruct fallback.
  - exists v. split_and!; [done..|]. rewrite Hget by done. by destruct fallback.
Qed.

(** ** Claiming *)

Lemma claim_accepted account target raw key_id otk base fresh :
  String.prefix SIGNED_CURVE25519 key_id = true →
  verify_json_signature raw (UserId_str (sd_user_id target)) ("ed25519:" +:+ DeviceId_str (sd_device_id target)) (sd_ed25519 target) = Ok tt →
  get raw "key" = Some (VString (curve_to_base64 otk)) →
  verify_and_claim account target key_id raw base fresh =
  map_err CreateOutboundFailed (create_outbound_session (oas_account account) olm_version_1 (sd_curve25519 target) otk base fresh).
Proof.
  intros Hk Hver Hget. unfold verify_and_claim. rewrite Hk. cbn [negb]. rewrite Hver. cbn [map_err]. rewrite Hget. cbn [mbind option_bind as_str ok_or].
  by rewrite curve_text_roundtrip.
Qed.

Lemma btree_entries_singleton (k : string) (v : Value) : btree_entries (λ k : string, k) {[ k := v ]} = [(k, v)].
Proof. unfold btree_entries. by rewrite map_to_list_singleton. Qed.

(** The account of [q] with the one-time key of the message removed. *)
Definition without_key (q : Party (S := S)) (pk : Curve25519PublicKey) : OlmAccountState :=
  with_state_account (p_account q) (remove_one_time_key_helper (oas_account (p_account q)) pk).1.

Lemma without_key_identity q pk : state_identity_keys (without_key q pk) = state_identity_keys (p_account q).
Proof. unfold without_key, state_identity_keys, remove_one_time_key_helper. cbn. by destruct (remove_secret_key _ _). Qed.

Lemma without_key_gone q pk : otk_get_secret_key (ac_one_time_keys (oas_account (without_key q pk))) pk = None.
Proof.
  unfold without_key, remove_one_time_key_helper, otk_get_secret_key. pose proof (OlmAccountProps.otk_removed (ac_one_time_keys (oas_account (p_account q))) pk) as Hr.
  destruct (remove_secret_key _ _) as [o r]. cbn in *. by rewrite Hr.
Qed.

(** The answer to a claim starts the session the account makes of the key, and saves it. *)
Lemma claim_answered (p q : Party (S := S)) target otk fallback raw body key_id keys s b store :
  signed_one_time_key_json (p_account q) (p_user q) (p_device q) otk fallback = Ok raw →
  String.prefix SIGNED_CURVE25519 key_id = true →
  keys_claim_from_slice body = Ok {[ p_user q := {[ p_device q := {[ key_id := raw ]} ]} ]} →
  describes target q → sd_device_id target = p_device q →
  create_outbound_session (oas_account (p_account p)) olm_version_1 (p_curve q) otk (keys 0%nat).1 (keys 0%nat).2 = Ok s →
  session_to_vec s = Ok b → cs_save_olm_session (p_store p) (curve_to_base64 (p_curve q)) (olm_session_id s) b = (store, Ok tt) →
  on_keys_claim_response (p_store p) (p_account p) [target] body keys = (store, Ok (mkClaimOutcome [(p_user q, p_device q)] [])).
Proof.
  intros Hraw Hkid Hbody (Hu & Hc & He) Hdev Hout Hvec Hsave.
  unfold on_keys_claim_response. rewrite Hbody. cbn [map_err claim_loop].
  rewrite Hu, Hdev, lookup_singleton_eq. cbn [mbind option_bind]. rewrite lookup_singleton_eq, btree_entries_singleton. cbn [head].
  destruct (uploaded_key_verifies (p_account q) (p_user q) (p_device q) otk fallback) as (raw' & Hraw' & Hver & Hget).
  rewrite Hraw in Hraw'. injection Hraw' as <-.
  rewrite (claim_accepted (p_account p) target raw key_id otk); [|done|by rewrite Hu, Hdev, He|done]. rewrite Hc, Hout.
  cbn [map_err]. unfold pickle_session. rewrite Hvec. cbn [map_err]. rewrite Hsave. reflexivity.
Qed.

(** A first event from a known device without a session is accepted: its one-time key goes, the account and the new
    session are saved. *)
Lemma first_event_accepted (p q : Party (S := S)) target event_type content b m sb pk fresh2 :
  let account := without_key q pk in
  knows q p → session_view (p_store q) (curve_to_base64 (p_curve p)) = [] → describes target q →
  payload_to_vec (payload_of p target event_type content) = Ok b → olm_sendable (pk_message m) →
  create_inbound_session (oas_account (p_account q)) olm_version_1 (p_curve p) m fresh2 =
    ((remove_one_time_key_helper (oas_account (p_account q)) pk).1, Ok (sb, b)) →
  ∃ store, decrypt_to_device (p_store q) (p_account q) (p_user q) (p_user p)
      (mkOlm (curve_to_base64 (p_curve p)) [(curve_to_base64 (p_curve q), encode_olm_message (OlmPreKey m))]) fresh2 =
      (store, account, Ok (mkDecryptedToDevice (p_user p) (p_curve p) (p_ed25519 p) event_type content)) ∧
    persisted account store ∧ latest_session (mkParty store account (p_user q) (p_device q)) p sb.
Proof.
  intros account (devices & device & Hdevs & Hfind & Hdc & Hde) Hnone Htarget Hb Hsend Hin.
  destruct (account_save account (p_store q)) as [store_a saved] eqn:Hsa.
  apply account_save_persisted in Hsa as Hav. destruct Hav as [-> (ab & Hav & Hab)]. destruct (session_to_vec_total sb) as [bsb Hvb].
  destruct (session_saved store_a (curve_to_base64 (p_curve p)) (olm_session_id sb) bsb) as (store3 & Hs3 & Hh3 & _ & _ & _ & Hacc3).
  exists store3. split_and!.
  - unfold decrypt_to_device.
    change (curve_to_base64 (ik_curve25519 (state_identity_keys (p_account q)))) with (curve_to_base64 (p_curve q)).
    unfold ciphertext_for. cbn [oe_ciphertext List.find fst]. rewrite bool_decide_true by done. cbn [fmap option_fmap option_map snd].
    rewrite decode_encoded by done. cbn [map_err oe_sender_key]. rewrite Hdevs. cbn [map_err]. rewrite Hfind.
    unfold open_message. rewrite sessions_read. cbn [map_err]. rewrite Hnone. cbn [try_sessions]. rewrite curve_text_roundtrip. cbn [map_err].
    unfold state_create_inbound_session. rewrite Hin.
    fold (without_key q pk). fold account. rewrite Hsa. cbn [map_err].
    unfold pickle_session. rewrite Hvb. cbn [map_err]. rewrite Hs3. cbn [map_err].
    assert (Hacc : bind_payload account (p_user q) (p_user p) device b = bind_payload (p_account q) (p_user q) (p_user p) device b).
    { unfold bind_payload, account. by rewrite without_key_identity. }
    rewrite Hacc. by rewrite (bind_step p q target event_type content b device).
  - exists ab. by rewrite Hacc3.
  - exists bsb. split; [done|]. by apply session_roundtrip.
Qed.

(** C10: A device that uploaded a one-time or fallback key can be reached: whoever claims the key gets a session from
    the answer, and the first event sent on it is decrypted and accepted at the other end with the sender's user and
    keys, provided that the receiver knows the sender's device and has no session with it yet. The receiver's account
    then holds no one-time key of that public key any more, its identity is the same, and it is this account that its
    store has; from then on the two stores hold the two ends of one session. *)
Theorem first_contact (p q : Party (S := S)) target otk fallback raw body key_id keys event_type content fresh1 fresh2 budget :
  signed_one_time_key_json (p_account q) (p_user q) (p_device q) (curve_public otk) fallback = Ok raw →
  find_one_time_key (oas_account (p_account q)) (curve_public otk) = Some otk →
  identity_ok (oas_account (p_account p)) → identity_ok (oas_account (p_account q)) →
  String.prefix SIGNED_CURVE25519 key_id = true →
  keys_claim_from_slice body = Ok {[ p_user q := {[ p_device q := {[ key_id := raw ]} ]} ]} →
  describes target q → sd_device_id target = p_device q → knows q p →
  session_view (p_store q) (curve_to_base64 (p_curve p)) = [] →
  payload_fits p target event_type content → Z.of_nat budget + 2 < u64_mod →
  ∃ store1 store2 content' store3 account,
    on_keys_claim_response (p_store p) (p_account p) [target] body keys = (store1, Ok (mkClaimOutcome [(p_user q, p_device q)] [])) ∧
    encrypt_to_device store1 (p_account p) (p_user p) (p_device p) target event_type content fresh1 = (store2, Ok content') ∧
    decrypt_to_device (p_store q) (p_account q) (p_user q) (p_user p) content' fresh2 =
      (store3, account, Ok (mkDecryptedToDevice (p_user p) (p_curve p) (p_ed25519 p) event_type content)) ∧
    otk_get_secret_key (ac_one_time_keys (oas_account account)) (curve_public otk) = None ∧
    state_identity_keys account = state_identity_keys (p_account q) ∧ persisted account store3 ∧
    linked budget [curve_public (keys 0%nat).2] (with_store p store2) (mkParty store3 account (p_user q) (p_device q)).
Proof.
  intros Hraw Hotk Hp Hq Hkid Hbody Htarget Hdev Hknows Hnone Hfits Hbudget.
  destruct (payload_to_vec_total (payload_of p target event_type content)) as [b Hb].
  destruct (session_established (oas_account (p_account p)) (oas_account (p_account q)) otk (keys 0%nat).1 (keys 0%nat).2 fresh1 fresh2 b budget)
    as (s & s1 & m & sb & Hout & Henc & Hin & Hid & Hag & Hk1 & Hk2 & origin & Hm); [done..|].
  destruct (save_session p q s) as (bs & store1 & Hvec & Hsave & Hlatest & _).
  destruct (encrypt_step (with_store p store1) q target event_type content fresh1 s s1 (OlmPreKey m) b) as (store2 & He & Hl2 & _); [done..|].
  destruct (first_event_accepted p q target event_type content b m sb (curve_public otk) fresh2) as (store3 & Hd & Hacc & Hl3); [done..| |done|].
  { rewrite Hm. apply sent_sendable; [done|by apply Hfits]. }
  eexists store1, store2, _, store3, (without_key q (curve_public otk)). split_and!; [by eapply claim_answered|exact He|exact Hd|apply without_key_gone|apply without_key_identity|done|].
  exists s1, sb. split_and!; [|done|by left|].
  - destruct Hl2 as (b2 & Hb2 & Hs2). exists b2. split; [|done]. unfold p_curve at 1. cbn [p_account]. by rewrite without_key_identity.
  - rewrite Hk1, Hk2. intros k [Hk|Hk]; [by apply elem_of_nil in Hk|done].
Qed.

End Contact.
