(* ===== verification/GroupSessions.v ===== *)
(** * Megolm sessions of a room (crates/mail4agent-messenger/src/crypto/group_sessions.rs)

    The outbound session of a room, rotated and shared; the inbound sessions, bound to the sender
    they came from, merged and never made worse; encrypting and decrypting a room's events with
    protection against replays. The store is the class [GroupStore]; derived writers and readers
    are [GroupSerde]. A reason text is represented by what it says. An operation that calls into a
    part of Megolm which could panic returns an option, [None] for the panic. *)

From S2P Require Import Prelude Primitives Ids Json CanonicalJson Store Events RoomState DeviceTracker MegolmRatchet Megolm Olm OlmAccount AccountState OlmSessions.

Local Open Scope Z_scope.

(** The part of [trait CryptoStore] that keeps Megolm sessions. *)
Class GroupStore (S : Type) := {
  cs_inbound_group_session : S → RoomId → string → result (option string) StoreError;
  cs_save_inbound_group_session : S → RoomId → string → string → S * result unit StoreError;
  cs_outbound_group_session : S → RoomId → result (option string) StoreError;
  cs_save_outbound_group_session : S → RoomId → string → S * result unit StoreError
}.

Definition MEGOLM_ALGORITHM : string := "m.megolm.v1.aes-sha2".
Definition MAX_DEVICES_PER_SEND_TO_DEVICE_REQUEST : nat := 250.

Inductive UtdReason :=
| UtdMissingSession
| WithheldBlacklisted
| WithheldUnverified
| WithheldUnauthorised
| SenderIdentityNotVerified
| UtdUnknown.

Record RoomEventPlaintext := mkPlaintext { rp_event_type : string; rp_content : Value; rp_room_id : RoomId }.

(** wire/events.rs *)
Record RoomKeyContent := mkRoomKey { rk_algorithm : string; rk_room_id : RoomId; rk_session_id : string; rk_session_key : string }.

Record ForwardedRoomKeyContent := mkForwarded {
  fk_algorithm : string;
  fk_room_id : RoomId;
  fk_session_id : string;
  fk_session_key : string;
  fk_sender_key : string;
  fk_sender_claimed_ed25519_key : option string;
  fk_forwarding_curve25519_key_chain : list string }.

Record ReplayEntry := mkReplay { seen_event_id : EventId; seen_origin_server_ts : Z }.
Record BackedUpMark := mkBackedUp { bu_version : string; bu_first_message_index : Z }.

Section Group.
Context `{HmacSha256} `{MegolmCrypto} `{Curve25519} `{!EqDecision Curve25519PublicKey} `{!Countable Curve25519PublicKey}
  `{Primitives} `{MegolmWire} `{OlmProst} `{Ed25519Keys} `{!EqDecision Ed25519PublicKey}.

Record OutboundSessionUpdate := mkUpdate {
  ou_session_id : string;
  ou_rotated : bool;
  ou_session_key : string;
  ou_new_recipients : list Device;
  ou_room_key_content : option RoomKeyContent }.

Record OutboundGroupSessionRecord := mkOutboundRecord {
  or_session : GroupSessionPickle;
  or_created_at_ms : Z;
  or_shared_with : gset (UserId * DeviceId) }.

Record InboundGroupSessionRecord := mkInboundRecord {
  ir_session : InboundGroupSessionPickle;
  ir_bound_user_id : UserId;
  ir_bound_sender_curve25519 : string;
  ir_bound_sender_ed25519 : string;
  ir_replay_index : gmap Z ReplayEntry;
  ir_backed_up : option BackedUpMark }.

Class GroupSerde := {
  outbound_to_vec : OutboundGroupSessionRecord → result string string;
  outbound_from_slice : string → result OutboundGroupSessionRecord string;
  inbound_to_vec : InboundGroupSessionRecord → result string string;
  inbound_from_slice : string → result InboundGroupSessionRecord string;
  plaintext_to_vec : RoomEventPlaintext → result string string;
  plaintext_from_slice : string → result RoomEventPlaintext string;
  room_key_to_value : RoomKeyContent → result Value string;
  room_key_from_value : Value → result RoomKeyContent string;
  olm_content_to_value : OlmEncryptedContent → result Value string
}.

Class GroupSerdeLaws `{GroupSerde} : Prop := {
  outbound_roundtrip r b : outbound_to_vec r = Ok b → outbound_from_slice b = Ok r;
  inbound_roundtrip r b : inbound_to_vec r = Ok b → inbound_from_slice b = Ok r;
  plaintext_roundtrip p b : plaintext_to_vec p = Ok b → plaintext_from_slice b = Ok p
}.

(** What a [MessengerError::Crypto] of this component says. *)
Inductive GroupReason :=
| DecodeInbound (room_id : RoomId) (session_id source : string)
| EncodeInbound (room_id : RoomId) (session_id source : string)
| DecodeOutbound (room_id : RoomId) (source : string)
| EncodeOutbound (room_id : RoomId) (source : string)
| NoOutboundSession (room_id : RoomId)
| MalformedSessionKey (source : SessionKeyDecodeError)
| MalformedForwardedKey (source : SessionKeyDecodeError).

(** The [MessengerError]s of this component and of those it calls. *)
Inductive GroupError :=
| GCrypto (reason : GroupReason)
| GStore (e : StoreError)
| GWireDecode (source : string)
| GOlm (e : OlmError).

Inductive GroupDecryptError :=
| MissingSession (room_id : RoomId) (session_id : string)
| WrongRoom (event_room_id plaintext_room_id : RoomId)
| WrongSender (bound_user_id event_sender : UserId)
| Replay (session_id : string) (message_index : Z)
| MegolmMalformed (e : DecodeError)
| MegolmFailed (e : DecryptionError)
| GroupInvalidPayload (source : string)
| GroupStoreError (e : StoreError).

Definition utd_reason (e : GroupDecryptError) : UtdReason :=
  match e with MissingSession _ _ => UtdMissingSession | _ => UtdUnknown end.

Context `{!GroupSerde} {S : Type} `{GroupStore S}.

(** ** Inbound records *)

Definition load_inbound_record (store : S) (room_id : RoomId) (session_id : string) : result (option InboundGroupSessionRecord) GroupError :=
  let? bytes := map_err GStore (cs_inbound_group_session store room_id session_id) in
  match bytes with
  | None => Ok None
  | Some bytes =>
      let? record := map_err (λ source, GCrypto (DecodeInbound room_id session_id source)) (inbound_from_slice bytes) in Ok (Some record)
  end.

Definition save_inbound_record (store : S) (room_id : RoomId) (session_id : string) (record : InboundGroupSessionRecord) :
    S * result unit GroupError :=
  try? bytes := map_err (λ source, GCrypto (EncodeInbound room_id session_id source)) (inbound_to_vec record) on store in
  let '(store, r) := cs_save_inbound_group_session store room_id session_id bytes in
  try? _ := map_err GStore r on store in
  (store, Ok tt).

Inductive InboundMergeOutcome :=
| MergeNew (record : InboundGroupSessionRecord)
| MergeKept
| Merged (record : InboundGroupSessionRecord)
| IgnoredSenderMismatch.

Definition merge_inbound_session (existing : option InboundGroupSessionRecord) (incoming : InboundGroupSession)
    (sender_user_id : UserId) (sender_curve25519 : Curve25519PublicKey) (sender_ed25519 : Ed25519PublicKey) : option InboundMergeOutcome :=
  match existing with
  | None => Some (MergeNew (mkInboundRecord (inbound_pickle incoming) sender_user_id (curve_to_base64 sender_curve25519)
                              (public_to_base64 sender_ed25519) ∅ None))
  | Some record =>
      match compare (inbound_from_pickle (ir_session record)) incoming with
      | (_, _, None) => None
      | (_, _, Some (OrdEqual | OrdBetter | OrdUnconnected)) => Some MergeKept
      | (existing_session, incoming, Some OrdWorse) =>
          if bool_decide (ir_bound_user_id record = sender_user_id) &&
             bool_decide (ir_bound_sender_curve25519 record = curve_to_base64 sender_curve25519) &&
             bool_decide (ir_bound_sender_ed25519 record = public_to_base64 sender_ed25519)
          then
            match merge existing_session incoming with
            | (_, _, None) => None
            | (_, incoming, Some merged) =>
                let merged := default (inbound_from_pickle (inbound_pickle incoming)) merged in
                Some (Merged (mkInboundRecord (inbound_pickle merged) (ir_bound_user_id record) (ir_bound_sender_curve25519 record)
                                (ir_bound_sender_ed25519 record) (ir_replay_index record) (ir_backed_up record)))
            end
          else Some IgnoredSenderMismatch
      end
  end.

(** ** The outbound session *)

(** The session in use: itself, when it was made, who has it, and whether it is new. *)
Definition current_session (existing : option OutboundGroupSessionRecord) (encryption : RoomEncryptionContent)
    (member_user_ids : gset UserId) (known_devices : list Device) (now_ms : Z) (signing_key : Ed25519Keypair) (random : string) :
    GroupSession * Z * gset (UserId * DeviceId) * bool :=
  let fresh := (GroupSession_new version_1 signing_key random, now_ms, ∅, true) in
  match existing with
  | None => fresh
  | Some record =>
      let msgs_exhausted := re_rotation_period_msgs encryption <=? message_index (or_session record) in
      let elapsed := Z.max i64_min (Z.min i64_max (now_ms - or_created_at_ms record)) in
      let time_elapsed := re_rotation_period_ms encryption <=? elapsed in
      let a_shared_user_left := existsb (λ ud, negb (bool_decide (ud.1 ∈ member_user_ids))) (elements (or_shared_with record)) in
      let a_shared_device_disappeared :=
        existsb (λ ud, negb (existsb (λ device : Device, bool_decide (sd_user_id device = ud.1) && bool_decide (sd_device_id device = ud.2)) known_devices))
          (elements (or_shared_with record)) in
      if msgs_exhausted || time_elapsed || a_shared_user_left || a_shared_device_disappeared then fresh
      else (or_session record, or_created_at_ms record, or_shared_with record, false)
  end.

(** Whom the key goes to: a member's device that is not blocked and not this one. *)
Definition eligible (our_user_id : UserId) (our_device_id : DeviceId) (member_user_ids : gset UserId) (device : Device) : bool :=
  bool_decide (sd_user_id device ∈ member_user_ids) && negb (sd_blocked device) &&
  negb (bool_decide (sd_user_id device = our_user_id) && bool_decide (sd_device_id device = our_device_id)).

Definition device_pair (device : Device) : UserId * DeviceId := (sd_user_id device, sd_device_id device).

Definition new_recipients (our_user_id : UserId) (our_device_id : DeviceId) (member_user_ids : gset UserId)
    (known_devices : list Device) (shared_with : gset (UserId * DeviceId)) : list Device :=
  List.filter (λ device, eligible our_user_id our_device_id member_user_ids device && negb (bool_decide (device_pair device ∈ shared_with))) known_devices.

Definition ensure_outbound_session (store : S) (room_id : RoomId) (our_user_id : UserId) (our_device_id : DeviceId)
    (encryption : RoomEncryptionContent) (member_user_ids : gset UserId) (known_devices : list Device) (now_ms : Z)
    (signing_key : Ed25519Keypair) (random : string) : S * result OutboundSessionUpdate GroupError :=
  try? existing_bytes := map_err GStore (cs_outbound_group_session store room_id) on store in
  try? existing := match existing_bytes with
                   | None => Ok None
                   | Some bytes => let? r := map_err (λ source, GCrypto (DecodeOutbound room_id source)) (outbound_from_slice bytes) in Ok (Some r)
                   end on store in
  let '(session, created_at_ms, shared_with, rotated) :=
    current_session existing encryption member_user_ids known_devices now_ms signing_key random in
  let recipients := new_recipients our_user_id our_device_id member_user_ids known_devices shared_with in
  let session_id := group_session_id session in
  let session_key := session_key_to_base64 (group_session_key session) in
  let '(shared_with, room_key_content) :=
    if bool_decide (length recipients = 0%nat) then (shared_with, None)
    else (shared_with ∪ list_to_set (device_pair <$> recipients), Some (mkRoomKey MEGOLM_ALGORITHM room_id session_id session_key)) in
  let update := mkUpdate session_id rotated session_key recipients room_key_content in
  if rotated || is_some room_key_content then
    try? bytes := map_err (λ source, GCrypto (EncodeOutbound room_id source))
                    (outbound_to_vec (mkOutboundRecord session created_at_ms shared_with)) on store in
    let '(store, r) := cs_save_outbound_group_session store room_id bytes in
    try? _ := map_err GStore r on store in
    (store, Ok update)
  else (store, Ok update).

(** How many rooms' records changed. *)
Fixpoint forget_shared_device (store : S) (room_ids : list RoomId) (user_id : UserId) (device_id : DeviceId) (touched : nat) :
    S * result nat GroupError :=
  match room_ids with
  | [] => (store, Ok touched)
  | room_id :: room_ids =>
      try? found := map_err GStore (cs_outbound_group_session store room_id) on store in
      match found with
      | None => forget_shared_device store room_ids user_id device_id touched
      | Some bytes =>
          try? record := map_err (λ source, GCrypto (DecodeOutbound room_id source)) (outbound_from_slice bytes) on store in
          let kept := filter (λ ud, ¬ (ud.1 = user_id ∧ ud.2 = device_id)) (or_shared_with record) in
          if negb (size kept =? size (or_shared_with record))%nat then
            try? out := map_err (λ source, GCrypto (EncodeOutbound room_id source))
                          (outbound_to_vec (mkOutboundRecord (or_session record) (or_created_at_ms record) kept)) on store in
            let '(store, r) := cs_save_outbound_group_session store room_id out in
            try? _ := map_err GStore r on store in
            forget_shared_device store room_ids user_id device_id (Datatypes.S touched)
          else forget_shared_device store room_ids user_id device_id touched
      end
  end.

Definition receive_room_key (store : S) (sender_user_id : UserId) (sender_curve25519 : Curve25519PublicKey)
    (sender_ed25519 : Ed25519PublicKey) (content : RoomKeyContent) : option (S * result unit GroupError) :=
  if negb (bool_decide (rk_algorithm content = MEGOLM_ALGORITHM)) then Some (store, Ok tt)
  else
    match map_err (λ source, GCrypto (MalformedSessionKey source)) (session_key_from_base64 (rk_session_key content)) with
    | Err e => Some (store, Err e)
    | Ok session_key =>
        let incoming := inbound_new session_key version_1 in
        match load_inbound_record store (rk_room_id content) (rk_session_id content) with
        | Err e => Some (store, Err e)
        | Ok existing =>
            outcome ← merge_inbound_session existing incoming sender_user_id sender_curve25519 sender_ed25519;
            Some (match outcome with
                  | MergeNew record | Merged record => save_inbound_record store (rk_room_id content) (rk_session_id content) record
                  | MergeKept | IgnoredSenderMismatch => (store, Ok tt)
                  end)
        end
    end.

Definition adopt_own_outbound_session (store : S) (room_id : RoomId) (our_user_id : UserId) (our_curve25519 : Curve25519PublicKey)
    (our_ed25519 : Ed25519PublicKey) (update : OutboundSessionUpdate) : option (S * result unit GroupError) :=
  if negb (ou_rotated update) then Some (store, Ok tt)
  else receive_room_key store our_user_id our_curve25519 our_ed25519
         (mkRoomKey MEGOLM_ALGORITHM room_id (ou_session_id update) (ou_session_key update)).

Definition encrypt_event (store : S) (room_id : RoomId) (sender_curve25519_b64 : string) (sender_device_id : DeviceId)
    (event_type : string) (content : Value) (relates_to : option RelatesTo) : option (S * result MegolmEncryptedContent GroupError) :=
  match
    let? found := map_err GStore (cs_outbound_group_session store room_id) in
    let? bytes := ok_or found (GCrypto (NoOutboundSession room_id)) in
    let? record := map_err (λ source, GCrypto (DecodeOutbound room_id source)) (outbound_from_slice bytes) in
    let? plaintext := map_err GWireDecode (plaintext_to_vec (mkPlaintext event_type content room_id)) in
    Ok (record, plaintext)
  with
  | Err e => Some (store, Err e)
  | Ok (record, plaintext) =>
      '(session, message) ← group_encrypt (or_session record) plaintext;
      let session_id := group_session_id session in
      ciphertext ← message_to_base64 message;
      Some (
        try? bytes := map_err (λ source, GCrypto (EncodeOutbound room_id source))
                        (outbound_to_vec (mkOutboundRecord session (or_created_at_ms record) (or_shared_with record))) on store in
        let '(store, r) := cs_save_outbound_group_session store room_id bytes in
        try? _ := map_err GStore r on store in
        (store, Ok (mkMegolm ciphertext session_id (Some sender_curve25519_b64) (Some sender_device_id) relates_to)))
  end.

(** [slice::chunks]; a round takes at least one device. *)
Fixpoint chunks_loop {A} (fuel n : nat) (l : list A) : list (list A) :=
  match fuel, l with
  | Datatypes.S fuel, _ :: _ => take n l :: chunks_loop fuel n (drop n l)
  | _, _ => []
  end.

Definition chunk_recipients_for_send_to_device (recipients : list Device) : list (list Device) :=
  chunks_loop (length recipients) MAX_DEVICES_PER_SEND_TO_DEVICE_REQUEST recipients.

(** ** Sharing keys *)

Context `{!AccountSerde} `{!DeviceSerde (Curve25519PublicKey := Curve25519PublicKey)} `{!OlmSerde} `{OlmStore S} `{CryptoStore S} `{AccountStore S}.

(** [RoomEncryptedContent::Olm] as a value. *)
Definition encrypted_olm_value (content : OlmEncryptedContent) : result Value GroupError :=
  let? v := map_err GWireDecode (olm_content_to_value content) in
  Ok (match v with
      | VObject m => VObject (map_insert "algorithm" (VString "m.olm.v1.curve25519-aes-sha2") m)
      | other => other
      end).

(** The loop of [build_encrypted_to_device_body]; [fresh n] is the key of its [n]-th round. *)
Fixpoint fan_out (store : S) (account : OlmAccountState) (our_user_id : UserId) (our_device_id : DeviceId) (chunk : list Device)
    (event_type : string) (content : Value) (n : nat) (fresh : nat → Curve25519SecretKey) (by_user : gmap UserId Map) :
    S * result (gmap UserId Map) GroupError :=
  match chunk with
  | [] => (store, Ok by_user)
  | device :: chunk =>
      let '(store, encrypted) := encrypt_to_device store account our_user_id our_device_id device event_type content (fresh n) in
      try? encrypted := map_err GOlm encrypted on store in
      try? wire_content := encrypted_olm_value encrypted on store in
      fan_out store account our_user_id our_device_id chunk event_type content (Datatypes.S n) fresh (by_user_insert by_user device wire_content)
  end.

Definition build_encrypted_to_device_body (store : S) (account : OlmAccountState) (our_user_id : UserId) (our_device_id : DeviceId)
    (chunk : list Device) (event_type : string) (content : Value) (fresh : nat → Curve25519SecretKey) : S * result Value GroupError :=
  let '(store, by_user) := fan_out store account our_user_id our_device_id chunk event_type content 0 fresh ∅ in
  try? by_user := by_user on store in
  (store, Ok (VObject [("messages", user_objects by_user)])).

Definition build_room_key_send_to_device_body (store : S) (account : OlmAccountState) (our_user_id : UserId) (our_device_id : DeviceId)
    (chunk : list Device) (room_key_content : RoomKeyContent) (fresh : nat → Curve25519SecretKey) : S * result Value GroupError :=
  try? content := map_err GWireDecode (room_key_to_value room_key_content) on store in
  build_encrypted_to_device_body store account our_user_id our_device_id chunk "m.room_key" content fresh.

Definition forwarded_room_key_content (store : S) (room_id : RoomId) (session_id our_curve25519_b64 : string) :
    result (option ForwardedRoomKeyContent) GroupError :=
  let? record := load_inbound_record store room_id session_id in
  match record with
  | None => Ok None
  | Some record =>
      let inbound := inbound_from_pickle (ir_session record) in
      if negb (bool_decide (inbound_session_id inbound = session_id)) then Ok None
      else Ok (Some (mkForwarded MEGOLM_ALGORITHM room_id session_id (exported_to_base64 (export_at_first_known_index inbound))
                       (ir_bound_sender_curve25519 record) (Some (ir_bound_sender_ed25519 record)) [our_curve25519_b64]))
  end.

Definition outbound_room_key_content (store : S) (room_id : RoomId) (session_id : string) : result (option RoomKeyContent) GroupError :=
  let? found := map_err GStore (cs_outbound_group_session store room_id) in
  match found with
  | None => Ok None
  | Some bytes =>
      let? record := map_err (λ source, GCrypto (DecodeOutbound room_id source)) (outbound_from_slice bytes) in
      if negb (bool_decide (group_session_id (or_session record) = session_id)) then Ok None
      else Ok (Some (mkRoomKey MEGOLM_ALGORITHM room_id session_id (session_key_to_base64 (group_session_key (or_session record)))))
  end.

Definition accept_room_key_from_to_device (store : S) (decrypted : DecryptedToDevice) : option (S * result bool GroupError) :=
  if negb (bool_decide (dtd_event_type decrypted = "m.room_key")) then Some (store, Ok false)
  else
    match map_err GWireDecode (room_key_from_value (dtd_content decrypted)) with
    | Err e => Some (store, Err e)
    | Ok content =>
        if negb (bool_decide (rk_algorithm content = MEGOLM_ALGORITHM)) then Some (store, Ok false)
        else
          '(store, r) ← receive_room_key store (dtd_sender decrypted) (dtd_sender_device_curve25519 decrypted)
                          (dtd_sender_ed25519 decrypted) content;
          Some (store, let? _ := r in Ok true)
    end.

Definition receive_forwarded_room_key (store : S) (bound_user_id : UserId) (bound_curve25519 : Curve25519PublicKey)
    (bound_ed25519 : Ed25519PublicKey) (content : ForwardedRoomKeyContent) : option (S * result bool GroupError) :=
  if negb (bool_decide (fk_algorithm content = MEGOLM_ALGORITHM)) then Some (store, Ok false)
  else
    match map_err (λ source, GCrypto (MalformedForwardedKey source)) (exported_from_base64 (fk_session_key content)) with
    | Err e => Some (store, Err e)
    | Ok exported =>
        let incoming := inbound_import exported version_1 in
        if negb (bool_decide (inbound_session_id incoming = fk_session_id content)) then Some (store, Ok false)
        else
          match load_inbound_record store (fk_room_id content) (fk_session_id content) with
          | Err e => Some (store, Err e)
          | Ok existing =>
              outcome ← merge_inbound_session existing incoming bound_user_id bound_curve25519 bound_ed25519;
              Some (match outcome with
                    | MergeNew record | Merged record =>
                        let '(store, r) := save_inbound_record store (fk_room_id content) (fk_session_id content) record in
                        try? _ := r on store in (store, Ok true)
                    | MergeKept | IgnoredSenderMismatch => (store, Ok false)
                    end)
          end
    end.

(** The record after the message [index] was read as [event_id]. *)
Definition with_replay (record : InboundGroupSessionRecord) (session : InboundGroupSession) (index : Z) (entry : ReplayEntry) :
    InboundGroupSessionRecord :=
  mkInboundRecord (inbound_pickle session) (ir_bound_user_id record) (ir_bound_sender_curve25519 record)
    (ir_bound_sender_ed25519 record) (<[index := entry]> (ir_replay_index record)) (ir_backed_up record).

Definition decrypt_event (store : S) (room_id : RoomId) (event_id : EventId) (origin_server_ts : Z) (sender : UserId)
    (content : MegolmEncryptedContent) : option (S * result RoomEventPlaintext GroupDecryptError) :=
  match
    let? found := map_err GroupStoreError (cs_inbound_group_session store room_id (mg_session_id content)) in
    let? bytes := ok_or found (MissingSession room_id (mg_session_id content)) in
    let? record := map_err GroupInvalidPayload (inbound_from_slice bytes) in
    let? message := map_err MegolmMalformed (message_from_base64 (mg_ciphertext content)) in
    Ok (record, message)
  with
  | Err e => Some (store, Err e)
  | Ok (record, message) =>
      '(session, decrypted) ← inbound_decrypt (inbound_from_pickle (ir_session record)) message;
      Some (
        try? decrypted := map_err MegolmFailed decrypted on store in
        try? plaintext := map_err GroupInvalidPayload (plaintext_from_slice (dm_plaintext decrypted)) on store in
        if negb (bool_decide (rp_room_id plaintext = room_id)) then (store, Err (WrongRoom room_id (rp_room_id plaintext)))
        else if negb (bool_decide (ir_bound_user_id record = sender)) then (store, Err (WrongSender (ir_bound_user_id record) sender))
        else
          match ir_replay_index record !! dm_message_index decrypted with
          | Some seen =>
              if negb (bool_decide (seen_event_id seen = event_id)) || negb (seen_origin_server_ts seen =? origin_server_ts)
              then (store, Err (Replay (mg_session_id content) (dm_message_index decrypted)))
              else (store, Ok plaintext)
          | None =>
              try? bytes := map_err GroupInvalidPayload
                              (inbound_to_vec (with_replay record session (dm_message_index decrypted) (mkReplay event_id origin_server_ts))) on store in
              let '(store, r) := cs_save_inbound_group_session store room_id (mg_session_id content) bytes in
              try? _ := map_err GroupStoreError r on store in
              (store, Ok plaintext)
          end)
  end.

End Group.
