(* ===== verification/GroupSessionsProps.v ===== *)
(** * Properties of a room's Megolm sessions

    After [ensure_outbound_session] the stored session is shared with every device it should
    reach and with nobody outside the room. A record keeps its sender for ever and no message
    number is read as two events. What is sent in a room is read by whoever got the key, in any
    order. *)

From S2P Require Import Prelude Primitives Ids Json CanonicalJson Store Events RoomState DeviceTracker MegolmRatchet Megolm MegolmProps Olm OlmAccount AccountState OlmSessions GroupSessions.

Local Open Scope Z_scope.

(** What the store promises: each save replaces the one record it names. *)
Class GroupStoreLaws (S : Type) `{GroupStore S} := {
  in_view : S → RoomId → string → option string;
  out_view : S → RoomId → option string;
  inbound_read s r i : cs_inbound_group_session s r i = Ok (in_view s r i);
  inbound_saved s r i b : ∃ s', cs_save_inbound_group_session s r i b = (s', Ok tt) ∧
    in_view s' r i = Some b ∧ (∀ r' i', (r', i') ≠ (r, i) → in_view s' r' i' = in_view s r' i') ∧ ∀ r', out_view s' r' = out_view s r';
  outbound_read s r : cs_outbound_group_session s r = Ok (out_view s r);
  outbound_saved s r b : ∃ s', cs_save_outbound_group_session s r b = (s', Ok tt) ∧
    out_view s' r = Some b ∧ (∀ r', r' ≠ r → out_view s' r' = out_view s r') ∧ ∀ r' i', in_view s' r' i' = in_view s r' i'
}.

Section Group.
Context `{HmacSha256, MegolmCrypto, Curve25519, !EqDecision Curve25519PublicKey, !Countable Curve25519PublicKey,
  Primitives, MegolmWire, OlmProst, Ed25519, !Ed25519Keys, !EqDecision Ed25519PublicKey}
  `{!GroupSerde, !GroupSerdeLaws} {S : Type} `{GroupStore S, !GroupStoreLaws S}.

(** ** Who has the outbound session *)

(** The stored outbound record of a room. *)
Definition outbound_record (store : S) (room_id : RoomId) (record : OutboundGroupSessionRecord) : Prop :=
  ∃ b, out_view store room_id = Some b ∧ outbound_from_slice b = Ok record.

Lemma existsb_false_elements {A} `{Countable A} (p : A → bool) (X : gset A) :
  existsb p (elements X) = false → ∀ x, x ∈ X → p x = false.
Proof.
  intros He x Hx. destruct (p x) eqn:Hp; [|done]. rewrite <- He. symmetry. apply existsb_exists. exists x. split; [|done].
  apply list_elem_of_In. by apply elem_of_elements.
Qed.

(** A session that is not rotated has messages and time left, and only members' known devices have it. *)
Lemma current_session_kept existing encryption members known now sk random session created shared :
  current_session existing encryption members known now sk random = (session, created, shared, false) →
  ∃ record, existing = Some record ∧ record = mkOutboundRecord session created shared ∧
    message_index session < re_rotation_period_msgs encryption ∧
    ∀ ud, ud ∈ shared → ud.1 ∈ members ∧ ∃ device, device ∈ known ∧ device_pair device = ud.
Proof.
  unfold current_session. destruct existing as [record|]; [|done].
  destruct (_ || _ || _ || _) eqn:Hor; [done|]. intros [= <- <- <-].
  apply orb_false_iff in Hor as [[[Hm Ht]%orb_false_iff Hu]%orb_false_iff Hd].
  exists record. split_and!; [done|by destruct record|by apply Z.leb_gt|]. intros ud Hin.
  pose proof (existsb_false_elements _ _ Hu ud Hin) as Hu'. pose proof (existsb_false_elements _ _ Hd ud Hin) as Hd'. cbn in Hu', Hd'.
  apply negb_false_iff, bool_decide_eq_true in Hu'. apply negb_false_iff, existsb_exists in Hd' as (device & Hdev & Hb).
  apply andb_prop in Hb as [Hb1 Hb2]. apply bool_decide_eq_true in Hb1, Hb2. split; [done|]. exists device.
  split; [by apply list_elem_of_In|]. destruct ud. cbn in *. unfold device_pair. congruence.
Qed.

(** The devices a room's key is meant for: those of its members, unless they are blocked or this very device. *)
Definition meant_for (us : UserId) (dev : DeviceId) (members : gset UserId) (device : Device) : Prop :=
  sd_user_id device ∈ members ∧ sd_blocked device = false ∧ ¬ (sd_user_id device = us ∧ sd_device_id device = dev).

Lemma eligible_meant us dev members device : eligible us dev members device = true ↔ meant_for us dev members device.
Proof.
  unfold eligible, meant_for. rewrite !andb_true_iff, !negb_true_iff, andb_false_iff, bool_decide_eq_true, !bool_decide_eq_false.
  destruct (decide (sd_user_id device = us)), (decide (sd_device_id device = dev)); tauto.
Qed.

Lemma elem_of_new_recipients us dev members known shared device :
  device ∈ new_recipients us dev members known shared ↔
  device ∈ known ∧ meant_for us dev members device ∧ device_pair device ∉ shared.
Proof.
  unfold new_recipients. rewrite !list_elem_of_In, filter_In, andb_true_iff, eligible_meant, negb_true_iff, bool_decide_eq_false. tauto.
Qed.

(** What [ensure_outbound_session] reports and what is stored afterwards. *)
Lemma ensure_inv store room_id us dev encryption members known now sk random store' update :
  ensure_outbound_session store room_id us dev encryption members known now sk random = (store', Ok update) →
  ∃ existing session created before rotated,
    (∀ old, existing = Some old → outbound_record store room_id old) ∧
    current_session existing encryption members known now sk random = (session, created, before, rotated) ∧
    let recipients := new_recipients us dev members known before in
    let key := session_key_to_base64 (group_session_key session) in
    update = mkUpdate (group_session_id session) rotated key recipients
      (if bool_decide (length recipients = 0%nat) then None else Some (mkRoomKey MEGOLM_ALGORITHM room_id (group_session_id session) key)) ∧
    outbound_record store' room_id (mkOutboundRecord session created (before ∪ list_to_set (device_pair <$> recipients))) ∧
    ∀ r i, in_view store' r i = in_view store r i.
Proof.
  unfold ensure_outbound_session. rewrite outbound_read. cbn [map_err].
  destruct (match out_view store room_id with None => Ok None | Some _ => _ end) as [existing|] eqn:Hex; [|done].
  destruct (current_session existing encryption members known now sk random) as [[[session created] before] rotated] eqn:Hcur.
  intros Hs. exists existing, session, created, before, rotated.
  assert (Hold : ∀ old, existing = Some old → outbound_record store room_id old).
  { intros old ->. destruct (out_view store room_id) as [b|] eqn:Hv; [|done]. destruct (outbound_from_slice b) as [r|] eqn:Hb; [|done].
    cbn in Hex. injection Hex as ->. by exists b. }
  split; [exact Hold|]. split; [exact Hcur|]. cbv zeta. set (recipients := new_recipients us dev members known before) in *.
  assert (Hsave : ∀ shared u, (try? bytes := map_err (λ source, GCrypto (EncodeOutbound room_id source)) (outbound_to_vec (mkOutboundRecord session created shared)) on store in
      let '(store, r) := cs_save_outbound_group_session store room_id bytes in try? _ := map_err GStore r on store in (store, Ok u)) = (store', Ok update) →
    update = u ∧ outbound_record store' room_id (mkOutboundRecord session created shared) ∧ ∀ r i, in_view store' r i = in_view store r i).
  { intros shared u. destruct (outbound_to_vec _) as [b|] eqn:Hb; cbn [map_err]; [|done].
    destruct (outbound_saved store room_id b) as (s' & Hs' & Hv & _ & Hin). rewrite Hs'. cbn [map_err]. intros [= <- <-].
    split_and!; [done| |done]. exists b. split; [done|]. by apply outbound_roundtrip. }
  case_bool_decide as Hr.
  - assert (before ∪ list_to_set (device_pair <$> recipients) = before) as -> by (destruct recipients; [set_solver|done]).
    cbn [is_some orb] in Hs. destruct rotated; cbn [orb] in Hs; [by apply Hsave in Hs|]. injection Hs as <- <-.
    apply current_session_kept in Hcur as (record & He & -> & _). split_and!; [done|by apply Hold|done].
  - cbn [is_some] in Hs. rewrite orb_true_r in Hs. by apply Hsave in Hs.
Qed.

Lemma current_session_rotated existing encryption members known now sk random session created shared :
  current_session existing encryption members known now sk random = (session, created, shared, true) →
  session = GroupSession_new version_1 sk random ∧ shared = ∅ ∧ created = now.
Proof.
  unfold current_session. destruct existing; [destruct (_ || _)|]; by intros [= <- <- <-].
Qed.

(** C30: The outbound session of a room is where it should be. After [ensure_outbound_session] the stored session is
    the one it reports; every known device of a member that is neither blocked nor this very device is recorded as
    having its key, and those among them that did not have it are exactly the ones it must now be sent to; nobody has
    it but known devices of members; a key is sent to nobody who is blocked or no member; and a session that was kept is
    the old one with messages left, its holders kept. *)
Theorem outbound_session_reaches_the_room store room_id us dev encryption members known now sk random store' update :
  ensure_outbound_session store room_id us dev encryption members known now sk random = (store', Ok update) →
  ∃ record before, outbound_record store' room_id record ∧
    ou_session_id update = group_session_id (or_session record) ∧
    or_shared_with record = before ∪ list_to_set (device_pair <$> ou_new_recipients update) ∧
    (∀ device, device ∈ known → meant_for us dev members device → device_pair device ∈ or_shared_with record) ∧
    (∀ ud, ud ∈ or_shared_with record → ud.1 ∈ members ∧ ∃ device, device ∈ known ∧ device_pair device = ud) ∧
    (∀ device, device ∈ ou_new_recipients update ↔ device ∈ known ∧ meant_for us dev members device ∧ device_pair device ∉ before) ∧
    (is_some (ou_room_key_content update) = negb (bool_decide (length (ou_new_recipients update) = 0%nat))) ∧
    (if ou_rotated update then before = ∅ ∧ or_session record = GroupSession_new version_1 sk random
     else ∃ old, outbound_record store room_id old ∧ or_shared_with old = before ∧ or_session old = or_session record ∧
       message_index (or_session record) < re_rotation_period_msgs encryption).
Proof.
  intros (existing & session & created & before & rotated & Hold & Hcur & -> & Hrec & _)%ensure_inv. cbn [ou_new_recipients ou_session_id ou_rotated ou_room_key_content].
  set (recipients := new_recipients us dev members known before) in *. exists (mkOutboundRecord session created (before ∪ list_to_set (device_pair <$> recipients))), before.
  assert (Hbefore : ∀ ud, ud ∈ before → ud.1 ∈ members ∧ ∃ device, device ∈ known ∧ device_pair device = ud).
  { destruct rotated; [apply current_session_rotated in Hcur as (_ & -> & _); set_solver|by apply current_session_kept in Hcur as (? & _ & _ & _ & ?)]. }
  split_and!; [done..| | |intros device; apply elem_of_new_recipients|by case_bool_decide|]; cbn [or_shared_with or_session].
  - intros device Hk He. destruct (decide (device_pair device ∈ before)) as [|Hn]; [set_solver|]. apply elem_of_union. right.
    apply elem_of_list_to_set, list_elem_of_fmap. exists device. split; [done|]. by apply elem_of_new_recipients.
  - intros ud [Hud|Hud]%elem_of_union; [by apply Hbefore|]. apply elem_of_list_to_set, list_elem_of_fmap in Hud as (device & -> & Hin).
    apply elem_of_new_recipients in Hin as (Hk & [He _] & _). split; [done|by exists device].
  - destruct rotated; [by apply current_session_rotated in Hcur as (-> & -> & _)|].
    apply current_session_kept in Hcur as (old & He & -> & Hm & _). eexists. split_and!; [by apply Hold|done..].
Qed.

(** ** Records of inbound sessions *)

Definition inbound_record (store : S) (room_id : RoomId) (session_id : string) (record : InboundGroupSessionRecord) : Prop :=
  ∃ b, in_view store room_id session_id = Some b ∧ inbound_from_slice b = Ok record.

Definition binding (record : InboundGroupSessionRecord) : UserId * string * string :=
  (ir_bound_user_id record, ir_bound_sender_curve25519 record, ir_bound_sender_ed25519 record).

(** The same sender, and everything seen is still known to have been seen. *)
Definition extends (record record' : InboundGroupSessionRecord) : Prop :=
  binding record' = binding record ∧ ir_replay_index record ⊆ ir_replay_index record'.

#[local] Instance extends_preorder : PreOrder extends.
Proof. split; [done|]. intros a b c [H1' ?] [H2' ?]. split; [by rewrite H2'|by etrans]. Qed.

(** From [s] to [s'] every record extends what it was. *)
Definition keeps (s s' : S) : Prop :=
  ∀ room_id session_id record, inbound_record s room_id session_id record →
    ∃ record', inbound_record s' room_id session_id record' ∧ extends record record'.

#[local] Instance keeps_preorder : PreOrder keeps.
Proof.
  split; [intros s room_id session_id record Hr; by exists record|]. intros a b c Hab Hbc room_id session_id record Hr.
  destruct (Hab _ _ _ Hr) as (r1 & Hr1 & He1). destruct (Hbc _ _ _ Hr1) as (r2 & Hr2 & He2). exists r2. split; [done|by etrans].
Qed.

Lemma same_view_keeps s s' : (∀ r i, in_view s' r i = in_view s r i) → keeps s s'.
Proof. intros Hv r i record (b & Hb & Hr). exists record. split; [|done]. exists b. by rewrite Hv. Qed.

Lemma save_bytes_keeps s r i record b s' res :
  inbound_to_vec record = Ok b → (∀ old, inbound_record s r i old → extends old record) →
  cs_save_inbound_group_session s r i b = (s', res) →
  res = Ok tt ∧ keeps s s' ∧ inbound_record s' r i record ∧ ∀ room, out_view s' room = out_view s room.
Proof.
  intros Hb Hext Hs. destruct (inbound_saved s r i b) as (s1 & Hs1 & Hv & Hother & Hout). rewrite Hs1 in Hs. injection Hs as <- <-.
  assert (Hrec : inbound_record s1 r i record) by (exists b; split; [done|by apply inbound_roundtrip]).
  split_and!; [done| |done|done]. intros r' i' old Hold. destruct (decide ((r', i') = (r, i))) as [[= -> ->]|Hne].
  - exists record. auto.
  - exists old. split; [|done]. destruct Hold as (b' & Hb' & Hr'). exists b'. by rewrite Hother.
Qed.

Lemma save_record_keeps s r i record s' res :
  (∀ old, inbound_record s r i old → extends old record) → save_inbound_record s r i record = (s', res) →
  keeps s s' ∧ (res = Ok tt → inbound_record s' r i record).
Proof.
  intros Hext. unfold save_inbound_record. destruct (inbound_to_vec record) as [b|] eqn:Hb; cbn [map_err]; [|intros [= <- <-]; by split].
  destruct (cs_save_inbound_group_session s r i b) as [s1 r1] eqn:Hs. eapply save_bytes_keeps in Hs as (-> & Hk & Hrec & _); [|done..].
  cbn [map_err]. intros [= <- <-]. done.
Qed.

(** Merging keeps the sender and what was seen, or makes a record where there was none. *)
Lemma merge_extends existing incoming u c e outcome record :
  merge_inbound_session existing incoming u c e = Some outcome → (outcome = MergeNew record ∨ outcome = Merged record) →
  match existing with None => True | Some old => extends old record end.
Proof.
  destruct existing as [old|]; [|done]. unfold merge_inbound_session.
  destruct (compare _ _) as [[s1 i1] [[]|]]; [by intros [= <-] [|]| by intros [= <-] [|]| |by intros [= <-] [|]|done].
  destruct (_ && _); [|by intros [= <-] [|]]. destruct (merge s1 i1) as [[? ?] [merged|]]; [|done]. by intros [= <-] [[=]|[= <-]].
Qed.

Lemma load_existing s r i existing old :
  load_inbound_record s r i = Ok existing → inbound_record s r i old → existing = Some old.
Proof.
  unfold load_inbound_record. rewrite inbound_read. cbn [map_err]. intros Hl (b & Hb & Hr). rewrite Hb, Hr in Hl. cbn [map_err] in Hl.
  by injection Hl as <-.
Qed.

(** The common part of the two ways a key arrives. *)
Lemma merge_and_save_keeps s r i existing incoming u c e outcome record s' res :
  load_inbound_record s r i = Ok existing → merge_inbound_session existing incoming u c e = Some outcome →
  (outcome = MergeNew record ∨ outcome = Merged record) → save_inbound_record s r i record = (s', res) → keeps s s'.
Proof.
  intros Hl Hm Ho Hs. eapply save_record_keeps in Hs as [Hk _]; [done|]. intros old Hold.
  rewrite (load_existing _ _ _ _ _ Hl Hold) in Hm. by pose proof (merge_extends _ _ _ _ _ _ _ Hm Ho).
Qed.

Lemma receive_room_key_keeps s u c e content s' r : receive_room_key s u c e content = Some (s', r) → keeps s s'.
Proof.
  unfold receive_room_key. destruct (negb _); [by intros [= <- <-]|].
  destruct (session_key_from_base64 _); cbn [map_err]; [|by intros [= <- <-]].
  destruct (load_inbound_record _ _ _) as [existing|] eqn:Hl; [|by intros [= <- <-]].
  destruct (merge_inbound_session _ _ _ _ _) as [outcome|] eqn:Hm; cbn [mbind option_bind]; [|done].
  destruct outcome; [|by intros [= <- <-]| |by intros [= <- <-]]; intros Hs; injection Hs as Hs; eapply merge_and_save_keeps; eauto.
Qed.

Lemma receive_forwarded_keeps s u c e content s' r : receive_forwarded_room_key s u c e content = Some (s', r) → keeps s s'.
Proof.
  unfold receive_forwarded_room_key. destruct (negb _); [by intros [= <- <-]|].
  destruct (exported_from_base64 _); cbn [map_err]; [|by intros [= <- <-]]. destruct (negb _); [by intros [= <- <-]|].
  destruct (load_inbound_record _ _ _) as [existing|] eqn:Hl; [|by intros [= <- <-]].
  destruct (merge_inbound_session _ _ _ _ _) as [outcome|] eqn:Hm; cbn [mbind option_bind]; [|done].
  destruct outcome; [|by intros [= <- <-]| |by intros [= <- <-]];
    destruct (save_inbound_record _ _ _ _) as [s1 r1] eqn:Hs; destruct r1; intros [= <- <-]; eapply merge_and_save_keeps; eauto.
Qed.

Lemma adopt_keeps s room u c e update s' r : adopt_own_outbound_session s room u c e update = Some (s', r) → keeps s s'.
Proof. unfold adopt_own_outbound_session. destruct (negb _); [by intros [= <- <-]|]. apply receive_room_key_keeps. Qed.

(** What a read event leaves behind: its number is recorded as this event, under the sender the record is bound to. *)
Lemma inbound_decrypt_index s m s' d : inbound_decrypt s m = Some (s', Ok d) → dm_message_index d = mm_message_index m.
Proof.
  unfold inbound_decrypt. destruct (to_signature_bytes m); cbn [mbind option_bind]; [|done]. destruct (verify _ _ _); [|done].
  destruct (find_ratchet _ _) as [s1 [ratchet|]]; [|done]. destruct (to_mac_bytes m); cbn [mbind option_bind]; [|done].
  destruct (verify_mac _ _ _ _); [|done]. destruct (cipher_decrypt _ _); cbn [ok_or]; [|done]. by intros [= <- <-].
Qed.

Lemma decrypt_event_spec s room event_id ts sender content s' r :
  decrypt_event s room event_id ts sender content = Some (s', r) →
  keeps s s' ∧ (∀ room', out_view s' room' = out_view s room') ∧
  ∀ p, r = Ok p → rp_room_id p = room ∧ ∃ m record, message_from_base64 (mg_ciphertext content) = Ok m ∧
    inbound_record s' room (mg_session_id content) record ∧ ir_bound_user_id record = sender ∧
    ir_replay_index record !! mm_message_index m = Some (mkReplay event_id ts).
Proof.
  unfold decrypt_event. rewrite inbound_read. cbn [map_err]. destruct (in_view s room _) as [b|] eqn:Hb; cbn [ok_or]; [|intros [= <- <-]; done].
  destruct (inbound_from_slice b) as [record|] eqn:Hrec; cbn [map_err]; [|intros [= <- <-]; done].
  assert (Hold : inbound_record s room (mg_session_id content) record) by (by exists b).
  destruct (message_from_base64 _) as [m|] eqn:Hm; cbn [map_err]; [|intros [= <- <-]; done].
  destruct (inbound_decrypt _ m) as [[session decrypted]|] eqn:Hd; cbn [mbind option_bind]; [|done].
  destruct decrypted as [d|]; cbn [map_err]; [|intros [= <- <-]; done].
  apply inbound_decrypt_index in Hd. rewrite Hd.
  destruct (plaintext_from_slice _) as [p|]; cbn [map_err]; [|intros [= <- <-]; done].
  destruct (bool_decide (rp_room_id p = room)) eqn:Hroom; cbn [negb]; [|intros [= <- <-]; done]. apply bool_decide_eq_true in Hroom.
  destruct (bool_decide (ir_bound_user_id record = sender)) eqn:Hs; cbn [negb]; [|intros [= <- <-]; done]. apply bool_decide_eq_true in Hs.
  destruct (ir_replay_index record !! mm_message_index m) as [[e0 t0]|] eqn:Hseen.
  - cbn [seen_event_id seen_origin_server_ts]. destruct (bool_decide (e0 = event_id)) eqn:He; cbn [negb orb]; [|intros [= <- <-]; done].
    destruct (Z.eqb_spec t0 ts) as [-> |]; cbn [negb]; [|intros [= <- <-]; done]. apply bool_decide_eq_true in He as ->.
    intros [= <- <-]. split_and!; [done..|]. intros p' [= <-]. split; [done|]. exists m, record. done.
  - set (record' := with_replay record session (mm_message_index m) (mkReplay event_id ts)).
    assert (Hext : ∀ old, inbound_record s room (mg_session_id content) old → extends old record').
    { intros old (b' & Hb' & Hr'). rewrite Hb in Hb'. injection Hb' as <-. rewrite Hrec in Hr'. injection Hr' as <-.
      split; [done|]. cbn. by apply insert_subseteq. }
    destruct (inbound_to_vec record') as [b'|] eqn:Hb'; cbn [map_err]; [|intros [= <- <-]; done].
    destruct (cs_save_inbound_group_session _ _ _ _) as [s1 r1] eqn:Hsave.
    eapply save_bytes_keeps in Hsave as (-> & Hk & Hrec' & Hout); [|done..]. cbn [map_err]. intros [= <- <-]. split_and!; [done..|].
    intros p' [= <-]. split; [done|]. exists m, record'. split_and!; [done..|]. cbn. by rewrite lookup_insert_eq.
Qed.

(** *** The outbound operations touch no inbound record *)

Lemma save_outbound_in_view s room b s' res : cs_save_outbound_group_session s room b = (s', res) → res = Ok tt ∧ keeps s s'.
Proof.
  intros Hs. destruct (outbound_saved s room b) as (s1 & Hs1 & _ & _ & Hin). rewrite Hs1 in Hs. injection Hs as <- <-.
  split; [done|by apply same_view_keeps].
Qed.

Lemma ensure_keeps s room us dev encryption members known now sk random s' r :
  ensure_outbound_session s room us dev encryption members known now sk random = (s', r) → keeps s s'.
Proof.
  unfold ensure_outbound_session. rewrite outbound_read. cbn [map_err].
  destruct (match out_view s room with None => Ok None | Some _ => _ end) as [existing|]; [|by intros [= <- <-]].
  destruct (current_session _ _ _ _ _ _ _) as [[[? ?] ?] ?]. destruct (if bool_decide _ then _ else _) as [shared key].
  destruct (_ || _); [|by intros [= <- <-]]. destruct (outbound_to_vec _); cbn [map_err]; [|by intros [= <- <-]].
  destruct (cs_save_outbound_group_session _ _ _) as [s1 r1] eqn:Hs. apply save_outbound_in_view in Hs as [-> Hk]. by intros [= <- <-].
Qed.

Lemma forget_keeps rooms u d touched s s' r : forget_shared_device s rooms u d touched = (s', r) → keeps s s'.
Proof.
  revert s touched. induction rooms as [|room rooms IH]; intros s touched; cbn [forget_shared_device]; [by intros [= <- <-]|].
  rewrite outbound_read. cbn [map_err]. destruct (out_view s room); [|apply IH].
  destruct (outbound_from_slice _) as [record|]; cbn [map_err]; [|by intros [= <- <-]]. destruct (negb _); [|apply IH].
  destruct (outbound_to_vec _); cbn [map_err]; [|by intros [= <- <-]].
  destruct (cs_save_outbound_group_session _ _ _) as [s1 r1] eqn:Hs. apply save_outbound_in_view in Hs as [-> Hk]. cbn [map_err].
  intros Hf. etrans; [exact Hk|by eapply IH].
Qed.

Lemma encrypt_event_keeps s room c d ty ct rel s' r : encrypt_event s room c d ty ct rel = Some (s', r) → keeps s s'.
Proof.
  unfold encrypt_event. destruct (let? found := _ in _) as [[record plaintext]|]; [|by intros [= <- <-]].
  destruct (group_encrypt _ _) as [[session message]|]; cbn [mbind option_bind]; [|done].
  destruct (message_to_base64 _); cbn [mbind option_bind]; [|done].
  destruct (outbound_to_vec _); cbn [map_err]; [|by intros [= <- <-]].
  destruct (cs_save_outbound_group_session _ _ _) as [s1 r1] eqn:Hs. apply save_outbound_in_view in Hs as [-> Hk]. by intros [= <- <-].
Qed.

(** ** No replays *)

(** Anything that happens to the store's sessions, successful or not. *)
Inductive group_step : S → S → Prop :=
| gs_room_key s u c e content s' r : receive_room_key s u c e content = Some (s', r) → group_step s s'
| gs_forwarded s u c e content s' r : receive_forwarded_room_key s u c e content = Some (s', r) → group_step s s'
| gs_to_device s d s' r : accept_room_key_from_to_device s d = Some (s', r) → group_step s s'
| gs_adopt s room u c e update s' r : adopt_own_outbound_session s room u c e update = Some (s', r) → group_step s s'
| gs_decrypt s room event_id ts sender content s' r : decrypt_event s room event_id ts sender content = Some (s', r) → group_step s s'
| gs_ensure s room us dev encryption members known now sk random s' r :
    ensure_outbound_session s room us dev encryption members known now sk random = (s', r) → group_step s s'
| gs_encrypt s room c d ty ct rel s' r : encrypt_event s room c d ty ct rel = Some (s', r) → group_step s s'
| gs_forget s rooms u d s' r : forget_shared_device s rooms u d 0 = (s', r) → group_step s s'.

Lemma accept_keeps s d s' r : accept_room_key_from_to_device s d = Some (s', r) → keeps s s'.
Proof.
  unfold accept_room_key_from_to_device. destruct (negb _); [by intros [= <- <-]|].
  destruct (room_key_from_value _); cbn [map_err]; [|by intros [= <- <-]]. destruct (negb _); [by intros [= <- <-]|].
  destruct (receive_room_key _ _ _ _ _) as [[s1 r1]|] eqn:Hr; cbn [mbind option_bind]; [|done]. intros [= <- <-].
  by eapply receive_room_key_keeps.
Qed.

Lemma group_step_keeps s s' : group_step s s' → keeps s s'.
Proof.
  destruct 1; eauto using receive_room_key_keeps, receive_forwarded_keeps, accept_keeps, adopt_keeps, ensure_keeps, encrypt_event_keeps, forget_keeps.
  by edestruct decrypt_event_spec as [? _].
Qed.

Lemma run_keeps s s' : rtc group_step s s' → keeps s s'.
Proof. induction 1 as [|s1 s2 s3 Hs _ IH]; [done|]. etrans; [by apply group_step_keeps|done]. Qed.

(** C5: No replays, and no change of sender. Once an event of a room was read under some message number of a session,
    then whatever keys arrive from whomever, whatever else is sent, read or rotated: another event under the same
    number of the same session is only read if it has the same event id, time and sender; what is read was encrypted
    for this very room; and the session stays bound to the user and the keys it came from. *)
Theorem no_replays s0 room e1 t1 u1 c1 s1 p1 s2 e2 t2 u2 c2 s3 p2 m1 m2 record :
  decrypt_event s0 room e1 t1 u1 c1 = Some (s1, Ok p1) → rtc group_step s1 s2 →
  decrypt_event s2 room e2 t2 u2 c2 = Some (s3, Ok p2) → mg_session_id c2 = mg_session_id c1 →
  message_from_base64 (mg_ciphertext c1) = Ok m1 → message_from_base64 (mg_ciphertext c2) = Ok m2 →
  mm_message_index m2 = mm_message_index m1 → inbound_record s0 room (mg_session_id c1) record →
  e2 = e1 ∧ t2 = t1 ∧ u2 = u1 ∧ rp_room_id p1 = room ∧ rp_room_id p2 = room ∧
  ∃ record', inbound_record s3 room (mg_session_id c1) record' ∧ binding record' = binding record.
Proof.
  intros Hd1 Hrun Hd2 Hsid Hm1 Hm2 Hidx Hrec.
  apply decrypt_event_spec in Hd1 as (Hk1 & _ & Hp1). apply decrypt_event_spec in Hd2 as (Hk2 & _ & Hp2).
  destruct (Hp1 p1 eq_refl) as (Hr1 & m1' & rec1 & Hm1' & Hrec1 & Hu1 & Hseen1). destruct (Hp2 p2 eq_refl) as (Hr2 & m2' & rec2 & Hm2' & Hrec2 & Hu2 & Hseen2).
  rewrite Hm1 in Hm1'. injection Hm1' as <-. rewrite Hm2 in Hm2'. injection Hm2' as <-. rewrite Hsid in Hrec2.
  assert (Hfun : ∀ s a b, inbound_record s room (mg_session_id c1) a → inbound_record s room (mg_session_id c1) b → a = b).
  { intros s a b (x & Hx & Ha) (y & Hy & Hb). congruence. }
  destruct (Hk1 _ _ _ Hrec) as (rec1' & Hrec1' & Hb1 & _). rewrite <- (Hfun _ _ _ Hrec1 Hrec1') in Hb1.
  destruct (run_keeps _ _ Hrun _ _ _ Hrec1) as (rec & Hrecs2 & Hb & Hsub). destruct (Hk2 _ _ _ Hrecs2) as (rec' & Hrec' & Hb' & Hsub').
  rewrite <- (Hfun _ _ _ Hrec2 Hrec') in *. rewrite Hidx in Hseen2.
  assert (Hsame : ir_replay_index rec2 !! mm_message_index m1 = Some (mkReplay e1 t1)).
  { eapply lookup_weaken; [|exact Hsub']. by eapply lookup_weaken. }
  rewrite Hseen2 in Hsame. injection Hsame as -> ->. rewrite Hb in Hb'. split_and!; try done.
  - rewrite <- Hu1, <- Hu2. unfold binding in Hb'. by injection Hb' as ->.
  - exists rec2. split; [done|]. by rewrite Hb', Hb1.
Qed.

End Group.

(** * Room events from sender to readers

    A session that [ensure_outbound_session] made, its key received by another device or adopted
    by the sender's own, and the events sent under it: every one is read, in whatever order and
    however often they arrive. *)

Class GroupSerdeTotal `{GroupSerde} : Prop := {
  outbound_to_vec_total r : ∃ b, outbound_to_vec r = Ok b;
  inbound_to_vec_total r : ∃ b, inbound_to_vec r = Ok b;
  plaintext_to_vec_total p : ∃ b, plaintext_to_vec p = Ok b
}.

Section Messages.
Context `{HmacSha256, !HmacSha256Laws, MegolmCrypto, !MegolmCryptoLaws, Curve25519, !EqDecision Curve25519PublicKey,
  !Countable Curve25519PublicKey, Primitives, MegolmWire, !MegolmWireLaws, OlmProst, Ed25519, !Ed25519Keys, !Ed25519KeysLaws,
  !EqDecision Ed25519PublicKey}
  `{!GroupSerde, !GroupSerdeLaws, !GroupSerdeTotal} {S : Type} `{GroupStore S, !GroupStoreLaws S}.

(** A room event before encryption, and as its readers should see it. *)
Record RoomEvent := mkRoomEvent { ev_type : string; ev_content : Value; ev_relates_to : option RelatesTo }.

Definition as_plaintext (room_id : RoomId) (e : RoomEvent) : RoomEventPlaintext := mkPlaintext (ev_type e) (ev_content e) room_id.

(** Its encryption has a length a [u64] can count. *)
Definition event_fits (room_id : RoomId) (e : RoomEvent) : Prop :=
  ∀ b c, plaintext_to_vec (as_plaintext room_id e) = Ok b → slen (cipher_encrypt c b) < u64_mod.

(** ** Sending *)

(** The room's outbound session is [g] after [k] messages. *)
Definition sends (store : S) (room_id : RoomId) (g : GroupSession) (k : nat) : Prop :=
  ∃ created shared, outbound_record store room_id (mkOutboundRecord (group_at g k) created shared).

(** [content] is message [k] of [g], and says [e]. *)
Definition carries (room_id : RoomId) (g : GroupSession) (k : nat) (e : RoomEvent) (content : MegolmEncryptedContent) : Prop :=
  mg_session_id content = group_session_id g ∧
  ∃ b m, plaintext_to_vec (as_plaintext room_id e) = Ok b ∧ group_encrypt (group_at g k) b = Some (group_at g (Datatypes.S k), m) ∧
    message_from_base64 (mg_ciphertext content) = Ok m.

Lemma encrypt_event_sends store room_id g k curve device e :
  group_ok g → in_range g k → sends store room_id g k → event_fits room_id e →
  ∃ store' content, encrypt_event store room_id curve device (ev_type e) (ev_content e) (ev_relates_to e) = Some (store', Ok content) ∧
    sends store' room_id g (Datatypes.S k) ∧ carries room_id g k e content ∧ ∀ r i, in_view store' r i = in_view store r i.
Proof.
  intros Hg Hk (created & shared & bytes & Hv & Hrec) Hfits.
  destruct (plaintext_to_vec_total (as_plaintext room_id e)) as [b Hb].
  destruct (group_encrypt_total g k b Hg Hk) as (m & Hm & Hsend); [by apply Hfits|].
  destruct (message_text_roundtrip m Hsend) as (text & Ht & Hread).
  set (record := mkOutboundRecord (group_at g (Datatypes.S k)) created shared).
  destruct (outbound_to_vec_total record) as [rb Hrb]. destruct (outbound_saved store room_id rb) as (store' & Hsave & Hv' & _ & Hin).
  exists store', (mkMegolm text (group_session_id g) (Some curve) (Some device) (ev_relates_to e)).
  split_and!; [| | |done].
  - unfold encrypt_event. rewrite outbound_read, Hv. cbn [map_err ok_or]. rewrite Hrec. cbn [map_err].
    change (mkPlaintext (ev_type e) (ev_content e) room_id) with (as_plaintext room_id e). rewrite Hb. cbn [map_err or_session].
    rewrite Hm. cbn [mbind option_bind]. rewrite Ht. cbn [mbind option_bind or_created_at_ms or_shared_with]. fold record. rewrite Hrb. cbn [map_err].
    rewrite Hsave. reflexivity.
  - exists created, shared, rb. split; [done|]. by apply outbound_roundtrip.
  - split; [done|]. exists b, m. done.
Qed.

Fixpoint send_all (store : S) (room_id : RoomId) (curve : string) (device : DeviceId) (events : list RoomEvent) :
    option (S * list MegolmEncryptedContent) :=
  match events with
  | [] => Some (store, [])
  | e :: events =>
      match encrypt_event store room_id curve device (ev_type e) (ev_content e) (ev_relates_to e) with
      | Some (store, Ok content) => '(store, contents) ← send_all store room_id curve device events; Some (store, content :: contents)
      | _ => None
      end
  end.

Lemma send_all_sends store room_id g k curve device events :
  group_ok g → in_range g (k + length events) → sends store room_id g k → Forall (event_fits room_id) events →
  ∃ store' contents, send_all store room_id curve device events = Some (store', contents) ∧
    (∀ j e, events !! j = Some e → ∃ content, contents !! j = Some content ∧ carries room_id g (k + j) e content) ∧
    ∀ r i, in_view store' r i = in_view store r i.
Proof.
  intros Hg. revert store k. induction events as [|e events IH]; intros store k Hk Hs Hf; cbn [send_all].
  { exists store, []. split_and!; [done|by intros j e' Hj|done]. }
  apply Forall_cons in Hf as [Hfe Hf]. cbn [length] in Hk.
  destruct (encrypt_event_sends store room_id g k curve device e) as (store1 & content & He & Hs1 & Hc & Hin1);
    [done|unfold in_range in *; lia|done..|].
  destruct (IH store1 (Datatypes.S k)) as (store2 & contents & Ha & Hall & Hin2); [unfold in_range in *; lia|done..|].
  rewrite He, Ha. cbn [mbind option_bind]. exists store2, (content :: contents). split_and!; [done| |].
  - intros [|j] e' Hj; cbn in Hj |- *; [injection Hj as <-; exists content; by rewrite Nat.add_0_r|].
    destruct (Hall j e' Hj) as (content' & ? & ?). exists content'. by replace (k + Datatypes.S j)%nat with (Datatypes.S k + j)%nat by lia.
  - intros r i. by rewrite Hin2.
Qed.

(** ** Reading *)

(** The store can read what [g] sends from message [i] on as events of [sender]; what it already read under message
    [j] was read as the event [stamp j]. *)
Definition holds (store : S) (room_id : RoomId) (sender : UserId) (g : GroupSession) (i : nat) (stamp : nat → ReplayEntry) : Prop :=
  ∃ record, inbound_record store room_id (group_session_id g) record ∧ ir_bound_user_id record = sender ∧
    follows g i (inbound_from_pickle (ir_session record)) ∧
    ∀ j entry, ir_replay_index record !! (message_index g + Z.of_nat j) = Some entry → entry = stamp j.

Lemma repickled_follows g i s : follows g i s → follows g i (inbound_from_pickle (inbound_pickle s)).
Proof. intros (Hk & Hc & Hr & Hi & _). unfold follows. cbn. split_and!; [done..|]. exists i. split_and!; [lia|done|done]. Qed.

Lemma decrypt_event_holds store room_id sender g i stamp k e content :
  group_ok g → in_range g k → (i ≤ k)%nat → holds store room_id sender g i stamp → carries room_id g k e content →
  ∃ store', decrypt_event store room_id (seen_event_id (stamp k)) (seen_origin_server_ts (stamp k)) sender content =
      Some (store', Ok (as_plaintext room_id e)) ∧ holds store' room_id sender g i stamp.
Proof.
  intros Hg Hk Hik (record & (bytes & Hv & Hrec) & Hu & Hf & Hcons) (Hsid & b & m & Hb & Hm & Htext).
  destruct (find_ratchet_follows g i _ k Hg Hf Hk Hik) as (s' & Hfind & Hf' & Hinit & _).
  pose proof (sent_message_opens g k b m _ _ s' Hg Hk Hm (proj1 Hf) (proj1 (proj2 Hf')) Hfind) as Hopen.
  unfold decrypt_event. rewrite Hsid, inbound_read, Hv. cbn [map_err ok_or]. rewrite Hrec. cbn [map_err]. rewrite Htext. cbn [map_err].
  rewrite Hopen. cbn [mbind option_bind map_err dm_plaintext dm_message_index]. rewrite (plaintext_roundtrip _ _ Hb). cbn [map_err as_plaintext rp_room_id].
  rewrite bool_decide_true by done. cbn [negb]. rewrite Hu, bool_decide_true by done. cbn [negb].
  destruct (ir_replay_index record !! _) as [entry|] eqn:Hseen.
  - apply Hcons in Hseen as ->. rewrite bool_decide_true, Z.eqb_refl by done. cbn [negb orb]. exists store. split; [done|].
    exists record. split_and!; [by exists bytes|done|done|done].
  - replace (mkReplay (seen_event_id (stamp k)) (seen_origin_server_ts (stamp k))) with (stamp k) by (by destruct (stamp k)).
    set (record' := with_replay record s' _ _). destruct (inbound_to_vec_total record') as [rb Hrb]. rewrite Hrb. cbn [map_err].
    destruct (inbound_saved store room_id (group_session_id g) rb) as (store' & Hsave & Hv' & _ & _). rewrite Hsave. cbn [map_err].
    exists store'. split; [done|]. exists record'. split_and!; [|done|by apply repickled_follows|].
    + exists rb. split; [done|]. by apply inbound_roundtrip.
    + intros j entry. cbn. rewrite lookup_insert_Some. intros [[Hj <-]|[_ Hj]]; [|by apply Hcons]. f_equal. lia.
Qed.

(** One event as it arrives. *)
Record Arrival := mkArrival { arr_stamp : ReplayEntry; arr_content : MegolmEncryptedContent }.

Fixpoint read_all (store : S) (room_id : RoomId) (sender : UserId) (arrivals : list Arrival) : option (list RoomEventPlaintext) :=
  match arrivals with
  | [] => Some []
  | a :: arrivals =>
      match decrypt_event store room_id (seen_event_id (arr_stamp a)) (seen_origin_server_ts (arr_stamp a)) sender (arr_content a) with
      | Some (store, Ok p) => ps ← read_all store room_id sender arrivals; Some (p :: ps)
      | _ => None
      end
  end.

(** The events with the given numbers, in that order, as they arrive. *)
Definition arrivals (stamp : nat → ReplayEntry) (contents : list MegolmEncryptedContent) (order : list nat) : list Arrival :=
  omap (λ j, mkArrival (stamp j) <$> contents !! j) order.

Lemma read_all_holds store room_id sender g stamp events contents order :
  group_ok g → in_range g (length events) → holds store room_id sender g 0 stamp →
  (∀ j e, events !! j = Some e → ∃ content, contents !! j = Some content ∧ carries room_id g j e content) →
  Forall (λ j, (j < length events)%nat) order →
  read_all store room_id sender (arrivals stamp contents order) = Some (as_plaintext room_id <$> omap (λ j, events !! j) order).
Proof.
  intros Hg Hr. revert store. induction order as [|j order IH]; intros store Hh Hsent Hord; [done|].
  apply Forall_cons in Hord as [Hj Hord]. destruct (lookup_lt_is_Some_2 events j Hj) as [e He].
  destruct (Hsent j e He) as (content & Hc & Hcar). unfold arrivals. cbn [omap list_omap]. rewrite Hc, He. cbn [fmap option_fmap option_map list_fmap read_all arr_stamp arr_content].
  destruct (decrypt_event_holds store room_id sender g 0 stamp j e content) as (store' & Hd & Hh'); [done|unfold in_range in *; lia|lia|done..|].
  rewrite Hd. specialize (IH store' Hh' Hsent Hord). unfold arrivals in IH. rewrite IH. done.
Qed.

(** ** From the key to the events *)

(** Receiving the key of a new session. *)
Lemma receive_new_key store room_id sender curve ed g stamp :
  group_ok g → gs_config g = version_1 → in_range g 0 → in_view store room_id (group_session_id g) = None →
  ∃ store', receive_room_key store sender curve ed
      (mkRoomKey MEGOLM_ALGORITHM room_id (group_session_id g) (session_key_to_base64 (group_session_key g))) = Some (store', Ok tt) ∧
    holds store' room_id sender g 0 stamp ∧ ∀ r, out_view store' r = out_view store r.
Proof.
  intros Hg Hcfg Hr Hnone. destruct (shared_key_follows g 0 Hg Hr) as [Htext Hf]. change (group_at g 0) with (mkGroupSession (gs_ratchet g) (gs_signing_key g) (gs_config g)) in *.
  replace (mkGroupSession (gs_ratchet g) (gs_signing_key g) (gs_config g)) with g in * by (by destruct g). rewrite Hcfg in Hf.
  unfold receive_room_key. cbn [rk_algorithm rk_session_key rk_room_id rk_session_id]. rewrite bool_decide_true by done. cbn [negb].
  rewrite Htext. cbn [map_err]. unfold load_inbound_record. rewrite inbound_read, Hnone. cbn [map_err merge_inbound_session mbind option_bind].
  set (record := mkInboundRecord _ _ _ _ _ _). unfold save_inbound_record. destruct (inbound_to_vec_total record) as [b Hb]. rewrite Hb. cbn [map_err].
  destruct (inbound_saved store room_id (group_session_id g) b) as (store' & Hs & Hv & _ & Hout). rewrite Hs. cbn [map_err].
  exists store'. split_and!; [done| |done]. exists record. split_and!.
  - exists b. split; [done|]. by apply inbound_roundtrip.
  - done.
  - by apply repickled_follows.
  - intros j entry Hj. unfold record in Hj. cbn [ir_replay_index] in Hj. apply lookup_empty_Some in Hj as [].
Qed.

Lemma slen_drop n s : (n ≤ String.length s)%nat → slen (s_drop n s) = slen s - Z.of_nat n.
Proof. intros Hn. pose proof (s_take_drop n s) as Hs. apply (f_equal slen) in Hs. rewrite slen_app, slen_take in Hs by done. lia. Qed.

Lemma parts_of_ok bytes : slen bytes = 128 → parts_ok (parts_of bytes).
Proof.
  intros Hlen. unfold parts_ok, parts_of. cbn [r_0 r_1 r_2 r_3].
  assert (Ht : slen (s_take 64 bytes) = 64) by (apply slen_take; unfold slen in Hlen; lia).
  assert (Hd : slen (s_drop 64 bytes) = 64) by (rewrite slen_drop; unfold slen in *; lia).
  split_and!; first [rewrite slen_take|rewrite slen_drop]; unfold slen in *; lia.
Qed.

(** What a rotation leaves behind: a session that sends from its first message on. *)
Lemma rotated_sends store room_id us dev encryption members known now sk random store' update :
  slen random = 128 → ensure_outbound_session store room_id us dev encryption members known now sk random = (store', Ok update) →
  ou_rotated update = true →
  let g := GroupSession_new version_1 sk random in
  group_ok g ∧ message_index g = 0 ∧ sends store' room_id g 0 ∧ ou_session_id update = group_session_id g ∧
  ou_session_key update = session_key_to_base64 (group_session_key g) ∧ ∀ r i, in_view store' r i = in_view store r i.
Proof.
  intros Hlen (existing & session & created & before & rotated & _ & Hcur & -> & Hrec & Hin)%ensure_inv. cbn [ou_rotated ou_session_id ou_session_key].
  intros ->. apply current_session_rotated in Hcur as (-> & _ & _). cbv zeta. split_and!; try done.
  - split; [done|]. by apply parts_of_ok.
  - by eexists _, _.
Qed.

(** C24: What is sent in a room is read. When a room's session is new, whoever receives its key reads every event
    sent under it, in whatever order and however often the events arrive, each as exactly what was sent, as an event
    of the session's owner in that room. *)
Theorem room_events_are_read ss room_id us dev encryption members known now sk random ss1 update rs curve ed curve_b64 device events stamp order :
  slen random = 128 → ensure_outbound_session ss room_id us dev encryption members known now sk random = (ss1, Ok update) →
  ou_rotated update = true → in_view rs room_id (ou_session_id update) = None →
  Z.of_nat (length events) < u32_mod → Forall (event_fits room_id) events → Forall (λ j, (j < length events)%nat) order →
  ∃ rs1 ss2 contents,
    receive_room_key rs us curve ed (mkRoomKey MEGOLM_ALGORITHM room_id (ou_session_id update) (ou_session_key update)) = Some (rs1, Ok tt) ∧
    send_all ss1 room_id curve_b64 device events = Some (ss2, contents) ∧
    read_all rs1 room_id us (arrivals stamp contents order) = Some (as_plaintext room_id <$> omap (λ j, events !! j) order).
Proof.
  intros Hlen Hens Hrot Hnone Hn Hfits Hord.
  destruct (rotated_sends _ _ _ _ _ _ _ _ _ _ _ _ Hlen Hens Hrot) as (Hg & Hmi & Hs & Hid & Hkey & _).
  set (g := GroupSession_new version_1 sk random) in *. rewrite Hid, Hkey in *.
  assert (Hr : in_range g (length events)) by (unfold in_range; rewrite Hmi; lia).
  assert (Hr0 : in_range g 0) by (unfold in_range; rewrite Hmi; done).
  destruct (receive_new_key rs room_id us curve ed g stamp) as (rs1 & Hk & Hh & _); [done..|].
  destruct (send_all_sends ss1 room_id g 0 curve_b64 device events) as (ss2 & contents & Hall & Hc & _); [done..|].
  exists rs1, ss2, contents. split_and!; [done..|]. by eapply read_all_holds.
Qed.

(** The author sees the echo. A device that made a new session for a room and adopted it reads its own events
    when the room sends them back, in whatever order. *)
Theorem own_events_echo s room_id us dev encryption members known now sk random s1 update curve ed curve_b64 device events stamp order :
  slen random = 128 → ensure_outbound_session s room_id us dev encryption members known now sk random = (s1, Ok update) →
  ou_rotated update = true → in_view s room_id (ou_session_id update) = None →
  Z.of_nat (length events) < u32_mod → Forall (event_fits room_id) events → Forall (λ j, (j < length events)%nat) order →
  ∃ s2 s3 contents,
    adopt_own_outbound_session s1 room_id us curve ed update = Some (s2, Ok tt) ∧
    send_all s2 room_id curve_b64 device events = Some (s3, contents) ∧
    read_all s3 room_id us (arrivals stamp contents order) = Some (as_plaintext room_id <$> omap (λ j, events !! j) order).
Proof.
  intros Hlen Hens Hrot Hnone Hn Hfits Hord.
  destruct (rotated_sends _ _ _ _ _ _ _ _ _ _ _ _ Hlen Hens Hrot) as (Hg & Hmi & Hs & Hid & Hkey & Hin).
  set (g := GroupSession_new version_1 sk random) in *. unfold adopt_own_outbound_session. rewrite Hrot, Hid, Hkey in *. cbn [negb].
  assert (Hr : in_range g (length events)) by (unfold in_range; rewrite Hmi; lia).
  assert (Hr0 : in_range g 0) by (unfold in_range; rewrite Hmi; done).
  destruct (receive_new_key s1 room_id us curve ed g stamp) as (s2 & Hk & Hh & Hout); [done..|by rewrite Hin|].
  destruct (send_all_sends s2 room_id g 0 curve_b64 device events) as (s3 & contents & Hall & Hc & Hin'); [done..| |done|].
  { destruct Hs as (created & shared & b & Hb & Hrec). exists created, shared, b. by rewrite Hout. }
  exists s2, s3, contents. split_and!; [done..|]. eapply read_all_holds; [done..| |done|done].
  destruct Hh as (record & (b & Hb & Hrec) & Hrest). exists record. split; [|done]. exists b. by rewrite Hin'.
Qed.

End Messages.
