(* ===== verification/Codec.v ===== *)
(** * Self-delimiting codecs

    Writers and readers that compose: [get] reads back what [put] wrote and leaves what follows
    it. They give concrete, total serialisers for the records of the messenger, where the code
    derives them with serde. *)

From Stdlib Require Import Ascii.
From S2P Require Import Prelude Json.

Class Codec (A : Type) := {
  put : A → string;
  get : string → option (A * string);
  get_put a rest : get (put a +:+ rest) = Some (a, rest)
}.

(** Whole values. *)
Definition to_vec {A} `{Codec A} (a : A) : result string string := Ok (put a).

Definition from_vec {A} `{Codec A} (s : string) : result A string :=
  match get s with Some (a, EmptyString) => Ok a | _ => Err "trailing or malformed bytes" end.

Lemma from_to_vec {A} `{Codec A} (a : A) b : to_vec a = Ok b → from_vec b = Ok a.
Proof. intros [= <-]. unfold from_vec. rewrite <- (s_app_nil_r (put a)). by rewrite get_put. Qed.

(** ** Anything countable, as the bits of its code *)

Fixpoint put_bits (p : positive) : string :=
  match p with
  | xH => String "." EmptyString
  | xO p => String "0" (put_bits p)
  | xI p => String "1" (put_bits p)
  end.

Fixpoint get_bits (s : string) : option (positive * string) :=
  match s with
  | EmptyString => None
  | String a s =>
      if Ascii.eqb a "." then Some (xH, s)
      else '(p, s) ← get_bits s; Some (if Ascii.eqb a "0" then xO p else xI p, s)
  end.

Lemma get_put_bits p rest : get_bits (put_bits p +:+ rest) = Some (p, rest).
Proof. induction p as [p IH|p IH|]; cbn [put_bits]; rewrite s_app_cons; cbn; [by rewrite IH..|done]. Qed.

#[export] Instance countable_codec {A} `{Countable A} : Codec A | 10.
Proof.
  refine {| put a := put_bits (encode a); get s := '(p, s) ← get_bits s; a ← decode p; Some (a, s) |}.
  intros a rest. rewrite get_put_bits. cbn. by rewrite decode_encode.
Defined.

(** ** Pairs, sums, options, lists *)

#[export] Instance prod_codec {A B} `{Codec A, Codec B} : Codec (A * B) | 5.
Proof.
  refine {| put p := put p.1 +:+ put p.2; get s := '(a, s) ← get s; '(b, s) ← get s; Some ((a, b), s) |}.
  intros [a b] rest. cbn [fst snd]. rewrite s_app_assoc, get_put. cbn [mbind option_bind]. by rewrite get_put.
Defined.

#[export] Instance sum_codec {A B} `{Codec A, Codec B} : Codec (A + B) | 5.
Proof.
  refine {| put v := match v with inl a => String "l" (put a) | inr b => String "r" (put b) end;
            get s := match s with
                     | String "l" s => '(a, s) ← get s; Some (inl a, s)
                     | String "r" s => '(b, s) ← get s; Some (inr b, s)
                     | _ => None
                     end |}.
  intros [a|b] rest; rewrite s_app_cons; by rewrite get_put.
Defined.

(** Through another type. *)
Definition iso_codec {A B} `{Codec B} (f : A → B) (g : B → A) (gf : ∀ a, g (f a) = a) : Codec A.
Proof.
  refine {| put a := put (f a); get s := '(b, s) ← get s; Some (g b, s) |}.
  intros a rest. rewrite get_put. cbn. by rewrite gf.
Defined.

#[export] Instance option_codec {A} `{Codec A} : Codec (option A) | 5 :=
  iso_codec (λ o, match o with Some a => inl a | None => inr tt end) (λ v, match v with inl a => Some a | inr _ => None end)
    ltac:(by intros []).

Fixpoint put_list {A} `{Codec A} (l : list A) : string :=
  match l with [] => String "]" EmptyString | a :: l => String "," (put a +:+ put_list l) end.

Fixpoint get_list {A} `{Codec A} (fuel : nat) (s : string) : option (list A * string) :=
  match fuel with
  | O => None
  | S fuel =>
      match s with
      | String "]" s => Some ([], s)
      | String "," s => '(a, s) ← get s; '(l, s) ← get_list fuel s; Some (a :: l, s)
      | _ => None
      end
  end.

Lemma get_put_list {A} `{Codec A} (l : list A) rest fuel :
  (length l < fuel)%nat → get_list fuel (put_list l +:+ rest) = Some (l, rest).
Proof.
  revert fuel. induction l as [|a l IH]; intros [|fuel] Hf; cbn in Hf; try lia; cbn [put_list]; rewrite s_app_cons; [done|].
  cbn [get_list]. rewrite s_app_assoc, get_put. cbn [mbind option_bind]. rewrite IH by lia. done.
Qed.

Lemma put_list_length {A} `{Codec A} (l : list A) rest : (length l < String.length (put_list l +:+ rest))%nat.
Proof.
  assert (length l < String.length (put_list l))%nat.
  { induction l as [|a l IH]; cbn [put_list length String.length]; [lia|].
    pose proof (slen_app (put a) (put_list l)) as Hl. unfold slen in Hl. lia. }
  pose proof (slen_app (put_list l) rest) as Hl. unfold slen in Hl. lia.
Qed.

#[export] Instance list_codec {A} `{Codec A} : Codec (list A) | 5.
Proof.
  refine {| put := put_list; get s := get_list (String.length s) s |}.
  intros l rest. apply get_put_list, put_list_length.
Defined.

(** ** JSON values are countable *)

#[export] Instance Number_eq_dec : EqDecision Number.
Proof. solve_decision. Defined.

#[export] Instance Number_countable : Countable Number.
Proof.
  refine (inj_countable' (λ n, match n with PosInt n => inl (inl n) | NegInt n => inl (inr n) | Float s => inr s end)
    (λ c, match c with inl (inl n) => PosInt n | inl (inr n) => NegInt n | inr s => Float s end) _). by intros [].
Defined.

(** A leaf is [null], a boolean, a number, a string, or the name of a member before its value. *)
Abbreviation Leaf := (unit + bool + Number + string + string)%type.

Fixpoint value_tree (v : Value) : gen_tree Leaf :=
  match v with
  | VNull => GenLeaf (inl (inl (inl (inl tt))))
  | VBool b => GenLeaf (inl (inl (inl (inr b))))
  | VNumber n => GenLeaf (inl (inl (inr n)))
  | VString s => GenLeaf (inl (inr s))
  | VArray items => GenNode 0 (map value_tree items)
  | VObject m => GenNode 1 (map (λ '(k, v), GenNode 2 [GenLeaf (inr k); value_tree v]) m)
  end.

Fixpoint tree_value (t : gen_tree Leaf) : Value :=
  match t with
  | GenLeaf (inl (inl (inl (inr b)))) => VBool b
  | GenLeaf (inl (inl (inr n))) => VNumber n
  | GenLeaf (inl (inr s)) => VString s
  | GenLeaf _ => VNull
  | GenNode 0 items => VArray (map tree_value items)
  | GenNode 1 ms => VObject (map (λ t, match t with GenNode 2 [GenLeaf (inr k); t] => (k, tree_value t) | _ => (EmptyString, VNull) end) ms)
  | GenNode _ _ => VNull
  end.

Lemma tree_value_tree v : tree_value (value_tree v) = v.
Proof.
  induction v as [|b|n|s|items IH|m IH] using Value_ind'; cbn [value_tree tree_value]; try done; f_equal.
  - induction IH as [|v items Hv _ IH]; cbn; [done|]. by rewrite Hv, IH.
  - induction IH as [|[k v] m Hv _ IH]; cbn in *; [done|]. by rewrite Hv, IH.
Qed.

#[export] Instance Value_eq_dec : EqDecision Value.
Proof. intros v w. destruct (decide (value_tree v = value_tree w)) as [H|H]; [left|right; congruence]. by rewrite <- (tree_value_tree v), H, tree_value_tree. Defined.

#[export] Instance Value_countable : Countable Value := inj_countable' value_tree tree_value tree_value_tree.
