(* ===== verification/CryptoExample.v ===== *)
(** * A concrete world for the crypto components

    Lawful instances of everything the Olm and Megolm layers are built over: keys that are single
    bytes, a protobuf reader for Olm messages, serialisers made of the codecs, and the working-set
    store. *)

From Stdlib Require Import Ascii.
From S2P Require Import Prelude Primitives Ids Persist OutgoingQueue Store StoreProps Json CanonicalJson Codec Events DeviceTracker MegolmRatchet Megolm MegolmProps Olm OlmAccount OlmAccountProps AccountState OlmSessions OlmSessionsProps GroupSessions GroupSessionsProps.

(** ** The working-set store

    The store as an instance of the interfaces the account, the Olm sessions and the group sessions
    are written against, with the laws their theorems assume. The order of a peer's sessions is
    written as JSON, which for a list of strings always succeeds; that is the one hypothesis. *)

Section Instances.
Context `{SerdeJson, !RecordJson} {C : Type} `{RecordCodec C} (nonce : Nonce).
Context (order_total : ∀ o, ∃ b, order_to_vec o = Ok b).

Definition Store_AccountStore : AccountStore (Store C) := {|
  cs_account := account;
  cs_save_account s b := save_account s nonce b
|}.

Definition Store_OlmStore : OlmStore (Store C) := {|
  cs_olm_sessions_for_device := olm_sessions_for_device;
  cs_save_olm_session s c i b := save_olm_session s nonce nonce c i b
|}.

Definition Store_GroupStore : GroupStore (Store C) := {|
  cs_inbound_group_session := inbound_group_session;
  cs_save_inbound_group_session s r i b := save_inbound_group_session s nonce r i b;
  cs_outbound_group_session := outbound_group_session;
  cs_save_outbound_group_session s r b := save_outbound_group_session s nonce r b
|}.

#[local] Existing Instance Store_AccountStore.
#[local] Existing Instance Store_OlmStore.
#[local] Existing Instance Store_GroupStore.
#[local] Instance Store_Crypto : CryptoStore (Store C) := Store_CryptoStore nonce.
#[local] Instance Store_CryptoLaws : CryptoStoreLaws (Store C) := Store_CryptoStoreLaws nonce.

Definition Store_AccountStoreLaws : AccountStoreLaws (Store C).
Proof.
  refine (@Build_AccountStoreLaws (Store C) Store_AccountStore st_account _ _); [done|].
  intros s b. eexists. split; [reflexivity|done].
Defined.

#[local] Existing Instance Store_AccountStoreLaws.

(** ** Olm sessions *)

Definition sessions_of (s : Store C) (c : string) : list string := match olm_sessions_for_device s c with Ok sessions => sessions | Err _ => [] end.

(** A saved session comes first, and no other peer's sessions change. *)
Lemma save_olm_session_view (s : Store C) c i b :
  ∃ s', save_olm_session s nonce nonce c i b = (s', Ok tt) ∧ head (sessions_of s' c) = Some b ∧
    (∀ c', c' ≠ c → sessions_of s' c' = sessions_of s c') ∧ st_devices s' = st_devices s ∧
    st_tracked_users s' = st_tracked_users s ∧ st_account s' = st_account s.
Proof.
  unfold save_olm_session. set (order := filter _ _ ++ [i]).
  assert (Hlast : ∃ o, order = o ++ [i] ∧ i ∉ o) by (exists (filter (λ id, id ≠ i) (default [] (st_olm_session_order s !! c))); split; [done|]; by intros [? _]%list_elem_of_filter).
  destruct Hlast as (o & -> & Hi).
  destruct (Nat.ltb_spec MAX_OLM_SESSIONS_PER_DEVICE (length (o ++ [i]))) as [Hlen|Hlen].
  - destruct o as [|old o]; [unfold MAX_OLM_SESSIONS_PER_DEVICE in Hlen; cbn in Hlen; lia|]. cbn [app tail head].
    destruct (order_total (o ++ [i])) as [ob Hob]. cbn. rewrite Hob. cbn. unfold insert2. rewrite lookup_insert_eq.
    eexists. split; [reflexivity|]. split_and!; try done.
    + unfold sessions_of, olm_sessions_for_device. cbn. rewrite !lookup_insert_eq, rev_unit. cbn.
      rewrite lookup_delete_ne by (intros ->; apply Hi, list_elem_of_here). by rewrite lookup_insert_eq.
    + intros c' Hc. unfold sessions_of, olm_sessions_for_device. cbn. by rewrite !lookup_insert_ne, lookup_delete_ne.
  - destruct (order_total (o ++ [i])) as [ob Hob]. cbn. rewrite Hob. cbn. unfold insert2.
    eexists. split; [reflexivity|]. split_and!; try done.
    + unfold sessions_of, olm_sessions_for_device. cbn. rewrite !lookup_insert_eq, rev_unit. cbn. by rewrite lookup_insert_eq.
    + intros c' Hc. unfold sessions_of, olm_sessions_for_device. cbn. by rewrite !lookup_insert_ne, lookup_delete_ne.
Qed.

Definition Store_OlmStoreLaws : OlmStoreLaws (Store C).
Proof.
  refine {| session_view := sessions_of |}.
  - intros s c. unfold sessions_of, cs_olm_sessions_for_device, Store_OlmStore, olm_sessions_for_device.
    destruct (st_olm_sessions s !! c); [|done]. by destruct (st_olm_session_order s !! c).
  - apply save_olm_session_view.
  - done.
  - done.
Defined.

(** ** Group sessions *)

Definition Store_GroupStoreLaws : GroupStoreLaws (Store C).
Proof.
  refine {| in_view s r i := st_inbound_group_sessions s !! r ≫= λ sessions, sessions !! i;
            out_view s r := st_outbound_group_sessions s !! r |}.
  - done.
  - intros s r i b. eexists. split; [reflexivity|]. cbn. unfold insert2. split_and!; [| |done].
    + rewrite lookup_insert_eq. cbn. by rewrite lookup_insert_eq.
    + intros r' i' Hne. destruct (decide (r' = r)) as [->|Hr]; [|by rewrite lookup_insert_ne].
      rewrite lookup_insert_eq. cbn. rewrite lookup_insert_ne by congruence. by destruct (st_inbound_group_sessions s !! r).
  - done.
  - intros s r b. eexists. split; [reflexivity|]. cbn. split_and!; [by rewrite lookup_insert_eq| |done].
    intros r' Hr. by rewrite lookup_insert_ne.
Defined.

End Instances.

Local Open Scope Z_scope.

Module CryptoExample.
Export MegolmExample ConcretePrimitives.

(** ** Keys *)

#[export] Instance example_ed25519_laws : Ed25519Laws.
Proof. split. by intros []. Qed.

(** A key is a byte, padded to thirty-two; the shared secret is the product. *)
#[export] Instance example_curve : Curve25519 := {|
  Curve25519SecretKey := ascii;
  Curve25519PublicKey := ascii;
  curve_public k := k;
  x25519 a b := to_le_bytes 32 (bval a * bval b);
  was_contributory _ := true;
  curve_as_bytes k := String k (repeated 31 "."%char);
  curve_from_array s := match s with String k _ => k | EmptyString => "."%char end
|}.

#[export] Instance example_curve_laws : Curve25519Laws.
Proof. split; [|done..]. intros a b. cbn -[to_le_bytes]. f_equal. lia. Qed.

#[export] Instance example_curve_eq_dec : EqDecision (@Curve25519PublicKey example_curve).
Proof. exact Ascii.ascii_dec. Defined.

#[export] Instance example_curve_countable : @Countable (@Curve25519PublicKey example_curve) example_curve_eq_dec :=
  inj_countable' (A := N) N_of_ascii ascii_of_N ascii_N_embedding.

#[export] Instance example_secret_eq_dec : EqDecision (@Curve25519SecretKey example_curve) := example_curve_eq_dec.
#[export] Instance example_secret_countable : @Countable (@Curve25519SecretKey example_curve) example_secret_eq_dec := example_curve_countable.

#[export] Instance example_signing_codec : Codec (@Ed25519Keypair example_ed25519 example_keys) := countable_codec (A := bool).
#[export] Instance example_public_codec : Codec (@Ed25519PublicKey example_ed25519) := countable_codec (A := bool).

(** ** Olm messages on the wire *)

(** The bytes a length announces, and what follows them. *)
Definition read_bytes (s : string) : option (string * string) :=
  '(len, s) ← read_leb128 10 s;
  if (0 <=? len) && (len <=? slen s) then Some (s_take (Z.to_nat len) s, s_drop (Z.to_nat len) s) else None.

Definition read_olm (s : string) : option (string * Z * string) :=
  s ← strip_prefix RATCHET_TAG s;
  '(ratchet_key, s) ← read_bytes s;
  s ← strip_prefix CHAIN_INDEX_TAG s;
  '(chain_index, s) ← read_leb128 10 s;
  s ← strip_prefix CIPHERTEXT_TAG s;
  '(ciphertext, s) ← read_bytes s;
  if s_is_empty s then Some (ratchet_key, chain_index, ciphertext) else None.

#[export] Instance example_prost : OlmProst := {|
  prost_decode_message s := ok_or (read_olm s) "protobuf";
  prost_encode_prekey otk base identity message := put (otk, base, identity, message);
  prost_decode_prekey s := from_vec s;
  decoded_len_estimate n := n * 3 / 4
|}.

Lemma read_var_int n rest : 0 ≤ n < u64_mod → read_leb128 10 (var_int n +:+ rest) = Some (n, rest).
Proof.
  intros Hn. unfold var_int. rewrite to_var_int_leb128 by done. cbn [default].
  apply read_leb128_app; [|lia]. change (128 ^ Z.of_nat 10) with 1180591620717411303424. unfold u64_mod in Hn. lia.
Qed.

Lemma read_bytes_rest t rest : slen t < u64_mod → read_bytes (var_int (slen t) +:+ t +:+ rest) = Some (t, rest).
Proof.
  intros Ht. assert (0 ≤ slen t ∧ 0 ≤ slen rest) as [H0 H1] by (unfold slen; lia). unfold read_bytes. rewrite read_var_int by lia. cbn [mbind option_bind].
  rewrite slen_app. destruct (Z.leb_spec 0 (slen t)); [|lia]. destruct (Z.leb_spec (slen t) (slen t + slen rest)); [|lia]. cbn [andb].
  replace (Z.to_nat (slen t)) with (String.length t) by (unfold slen; lia). by rewrite s_take_app, s_drop_app.
Qed.

#[export] Instance example_prost_laws : OlmProstLaws.
Proof.
  split.
  - intros k i c Hk Hi Hc. cbn [prost_decode_message example_prost]. unfold olm_payload, read_olm.
    rewrite strip_prefix_app. cbn [mbind option_bind]. rewrite read_bytes_rest by done. cbn [mbind option_bind].
    rewrite strip_prefix_app. cbn [mbind option_bind]. rewrite read_var_int by done. cbn [mbind option_bind].
    rewrite strip_prefix_app. cbn [mbind option_bind]. rewrite <- (s_app_nil_r c) at 2. rewrite read_bytes_rest by done. done.
  - intros otk base identity message. exact (from_to_vec (otk, base, identity, message) _ eq_refl).
Qed.

#[export] Instance example_wire_length : OlmWireLaws.
Proof. split. intros s Hs. cbn [base64_encode example_wire]. unfold text_encode. rewrite slen_app, Hs. done. Qed.

(** ** Codecs of the stored records *)

#[export] Instance parts_codec : Codec RatchetParts :=
  iso_codec (λ p, (r_0 p, r_1 p, r_2 p, r_3 p)) (λ '(a, b, c, d), mkParts a b c d) ltac:(by intros []).
#[export] Instance ratchet_codec : Codec Ratchet := iso_codec (λ r, (inner r, counter r)) (λ '(i, c), mkRatchet i c) ltac:(by intros []).
#[export] Instance config_codec : Codec SessionConfig := iso_codec (λ _, tt) (λ _, version_1) ltac:(by intros [[]]).
#[export] Instance group_codec : Codec GroupSession :=
  iso_codec (λ g, (gs_ratchet g, gs_signing_key g, gs_config g)) (λ '(r, k, c), mkGroupSession r k c) ltac:(by intros []).
#[export] Instance outbound_codec : Codec OutboundGroupSessionRecord :=
  iso_codec (λ r, (or_session r : GroupSession, or_created_at_ms r, or_shared_with r)) (λ '(s, c, w), mkOutboundRecord s c w) ltac:(by intros []).
#[export] Instance inbound_pickle_codec : Codec InboundGroupSessionPickle :=
  iso_codec (λ p, (ip_initial_ratchet p, ip_signing_key p, ip_signing_key_verified p, ip_config p))
    (λ '(r, k, v, c), mkInboundPickle r k v c) ltac:(by intros []).

#[export] Instance ReplayEntry_eq_dec : EqDecision ReplayEntry.
Proof. solve_decision. Defined.
#[export] Instance ReplayEntry_countable : Countable ReplayEntry :=
  inj_countable' (λ e, (seen_event_id e, seen_origin_server_ts e)) (λ '(e, t), mkReplay e t) ltac:(by intros []).

#[export] Instance backed_up_codec : Codec BackedUpMark :=
  iso_codec (λ m, (bu_version m, bu_first_message_index m)) (λ '(v, i), mkBackedUp v i) ltac:(by intros []).
#[export] Instance inbound_codec : Codec InboundGroupSessionRecord :=
  iso_codec (λ r, (ir_session r, ir_bound_user_id r, ir_bound_sender_curve25519 r, ir_bound_sender_ed25519 r, ir_replay_index r, ir_backed_up r))
    (λ '(s, u, c, e, i, b), mkInboundRecord s u c e i b) ltac:(by intros []).
#[export] Instance plaintext_codec : Codec RoomEventPlaintext :=
  iso_codec (λ p, (rp_event_type p, rp_content p, rp_room_id p)) (λ '(t, c, r), mkPlaintext t c r) ltac:(by intros []).

#[export] Instance otk_codec : Codec OneTimeKeysPickle :=
  iso_codec (λ p, (op_next_key_id p, op_public_keys p, op_private_keys p)) (λ '(n, u, k), mkOneTimeKeysPickle n u k) ltac:(by intros []).
#[export] Instance fallback_codec : Codec FallbackKey :=
  iso_codec (λ k, (fb_key_id k, fb_key k, fb_published k)) (λ '(i, k, p), mkFallbackKey i k p) ltac:(by intros []).
#[export] Instance fallbacks_codec : Codec FallbackKeys :=
  iso_codec (λ f, (fbs_key_id f, fbs_fallback_key f, fbs_previous_fallback_key f)) (λ '(i, k, p), mkFallbackKeys i k p) ltac:(by intros []).
#[export] Instance account_codec : Codec AccountPickle :=
  iso_codec (λ a, (ap_signing_key a, ap_diffie_hellman_key a, ap_one_time_keys a, ap_fallback_keys a))
    (λ '(s, d, o, f), mkAccountPickle s d o f) ltac:(by intros []).
#[export] Instance account_record_codec : Codec AccountRecord :=
  iso_codec (λ r, (rec_account r, rec_device_keys_published r)) (λ '(a, p), mkAccountRecord a p) ltac:(by intros []).

#[export] Instance count_codec : Codec RatchetCount :=
  iso_codec (λ c, match c with Known n => Some n | Unknown => None end) (λ o, match o with Some n => Known n | None => Unknown end) ltac:(by intros []).
#[export] Instance chain_codec : Codec ChainKey := iso_codec (λ c, (ck_key c, ck_index c)) (λ '(k, i), mkChainKey k i) ltac:(by intros []).
#[export] Instance message_key_codec : Codec RemoteMessageKey :=
  iso_codec (λ k, (rmk_key k, rmk_index k)) (λ '(k, i), mkRemoteMessageKey k i) ltac:(by intros []).
#[export] Instance receiver_codec : Codec ReceiverChain :=
  iso_codec (λ c, (rc_ratchet_key c, rc_hkdf_ratchet c, rc_skipped c, rc_ratchet_count c))
    (λ '(k, h, s, n), mkReceiverChain k h s n) ltac:(by intros []).
#[export] Instance inactive_codec : Codec InactiveDoubleRatchet :=
  iso_codec (λ r, (ir_root_key r, ir_ratchet_key r, ir_ratchet_count r)) (λ '(k, r, n), mkInactive k r n) ltac:(by intros []).
#[export] Instance send_codec : Codec SendRatchet :=
  iso_codec (λ r, (sr_root_key r, sr_ratchet_key r)) (λ '(k, r), mkSendRatchet k r) ltac:(by intros []).
#[export] Instance active_codec : Codec ActiveDoubleRatchet :=
  iso_codec (λ r, (ar_parent_ratchet_key r, ar_ratchet_count r, ar_active_ratchet r, ar_symmetric_key_ratchet r))
    (λ '(p, n, a, s), mkActive p n a s) ltac:(by intros []).
#[export] Instance double_codec : Codec DoubleRatchet :=
  iso_codec (λ d, match d with Inactive r => inl r | Active r => inr r end) (λ v, match v with inl r => Inactive r | inr r => Active r end) ltac:(by intros []).
#[export] Instance session_keys_codec : Codec SessionKeys :=
  iso_codec (λ k, (sk_identity_key k, sk_base_key k, sk_one_time_key k)) (λ '(i, b, o), mkSessionKeys i b o) ltac:(by intros []).
#[export] Instance olm_config_codec : Codec OlmSessionConfig := iso_codec (λ _, tt) (λ _, olm_version_1) ltac:(by intros [[]]).
#[export] Instance session_codec : Codec Session :=
  iso_codec (λ s, (ss_session_keys s, ss_sending_ratchet s, ss_receiving_chains s, ss_config s))
    (λ '(k, r, c, g), mkSession k r c g) ltac:(by intros []).
#[export] Instance payload_codec : Codec OlmPlaintextPayload :=
  iso_codec (λ p, (pl_event_type p, pl_content p, pl_sender p, pl_sender_device p, pl_keys_ed25519 p, pl_recipient p, pl_recipient_keys_ed25519 p))
    (λ '(t, c, s, d, k, r, rk), mkPayload t c s d k r rk) ltac:(by intros []).
#[export] Instance device_codec : Codec Device :=
  iso_codec (λ d : Device, (sd_user_id d, sd_device_id d, sd_curve25519 d, sd_ed25519 d, sd_algorithms d, sd_display_name d, sd_verified d, sd_blocked d))
    (λ '(u, d, c, e, a, n, v, b), mkStoredDevice u d c e a n v b) ltac:(by intros []).

(** ** The store *)

Import SealedWitnesses StoreWitnesses.

Abbreviation TheStore := (Store SealedRecordCodec).

Definition orders_written (o : list string) : ∃ b, order_to_vec o = Ok b := ex_intro _ _ eq_refl.

#[export] Instance devices_interface : CryptoStore TheStore := Store_CryptoStore nonce0.
#[export] Instance devices_laws : CryptoStoreLaws TheStore := Store_CryptoStoreLaws nonce0.
#[export] Instance account_interface : AccountStore TheStore := Store_AccountStore nonce0.
#[export] Instance account_laws : AccountStoreLaws TheStore := Store_AccountStoreLaws nonce0.
#[export] Instance olm_interface : OlmStore TheStore := Store_OlmStore nonce0.
#[export] Instance olm_laws : OlmStoreLaws TheStore := Store_OlmStoreLaws nonce0 orders_written.
#[export] Instance group_interface : GroupStore TheStore := Store_GroupStore nonce0.
#[export] Instance group_laws : GroupStoreLaws TheStore := Store_GroupStoreLaws nonce0.

(** ** Serialisers *)

#[export] Instance example_account_serde : AccountSerde := {| account_record_to_vec := to_vec; account_record_from_slice := from_vec |}.
#[export] Instance example_account_serde_laws : AccountSerdeLaws.
Proof. split. intros r b. apply from_to_vec. Qed.
#[export] Instance example_account_serde_total : AccountSerdeTotal.
Proof. split. intros r. by eexists. Qed.

#[export] Instance example_device_serde : DeviceSerde (Curve25519PublicKey := Curve25519PublicKey) := {|
  keys_query_from_slice _ := Ok [];
  device_keys_from_value _ := Err "not used here";
  device_list_to_vec := to_vec;
  device_list_from_slice := from_vec;
  ed25519_from_base64 := bit_from 32;
  curve25519_from_base64 s := map_err (λ _, "key") (curve_from_base64 s)
|}.

(** ** Two devices *)

Definition alice : UserId := mkUserId "@alice:x".
Definition bob : UserId := mkUserId "@bob:y".
Definition phone : DeviceId := mkDeviceId "PHONE".
Definition laptop : DeviceId := mkDeviceId "LAPTOP".

Definition alice_account : OlmAccountState := mkAccountState (Account_new true "A"%char) true.

(** Bob's has one one-time key and one fallback key. *)
Definition bob_account : OlmAccountState :=
  mkAccountState (generate_fallback_key (generate_one_time_keys (Account_new false "B"%char) ["O"%char]).1 "F"%char).1 true.

Definition alice_device : Device := mkStoredDevice alice phone "A"%char true SUPPORTED_ALGORITHMS None true false.
Definition bob_device : Device := mkStoredDevice bob laptop "B"%char false SUPPORTED_ALGORITHMS None true false.

Definition with_device (s : TheStore) (d : Device) : TheStore := (cs_save_devices s (sd_user_id d) (put [d])).1.

Definition alice_store : TheStore := with_device (Store_new phone codec0) bob_device.
Definition bob_store : TheStore := with_device (Store_new laptop codec0) alice_device.

Definition alice_party : Party := mkParty alice_store alice_account alice phone.
Definition bob_party : Party := mkParty bob_store bob_account bob laptop.

(** Bob's one-time key, signed, and the answer to a claim of it. *)
Definition signed_key : Value :=
  match signed_one_time_key_json bob_account bob laptop "O"%char false with Ok v => v | Err _ => VNull end.

#[export] Instance example_olm_serde : OlmSerde := {|
  session_to_vec := to_vec;
  session_from_slice := from_vec;
  payload_to_vec := to_vec;
  payload_from_slice := from_vec;
  keys_claim_from_slice _ := Ok {[ bob := {[ laptop := {[ "signed_curve25519:AAAA" := signed_key ]} ]} ]}
|}.
#[export] Instance example_olm_serde_laws : OlmSerdeLaws.
Proof. split; intros v b; apply from_to_vec. Qed.
#[export] Instance example_olm_serde_total : OlmSerdeTotal.
Proof. split; intros v; by eexists. Qed.

#[export] Instance example_group_serde : GroupSerde := {|
  outbound_to_vec := to_vec;
  outbound_from_slice := from_vec;
  inbound_to_vec := to_vec;
  inbound_from_slice := from_vec;
  plaintext_to_vec := to_vec;
  plaintext_from_slice := from_vec;
  room_key_to_value c :=
    Ok (VObject [("algorithm", VString (rk_algorithm c)); ("room_id", VString (RoomId_str (rk_room_id c)));
                 ("session_id", VString (rk_session_id c)); ("session_key", VString (rk_session_key c))]);
  room_key_from_value v :=
    match v with
    | VObject [(_, VString a); (_, VString r); (_, VString i); (_, VString k)] => Ok (mkRoomKey a (mkRoomId r) i k)
    | _ => Err "room key"
    end;
  olm_content_to_value c := Ok (VObject [("sender_key", VString (oe_sender_key c))])
|}.
#[export] Instance example_group_serde_laws : GroupSerdeLaws.
Proof. split; intros v b; apply from_to_vec. Qed.
#[export] Instance example_group_serde_total : GroupSerdeTotal.
Proof. split; intros v; by eexists. Qed.

End CryptoExample.
