(* ===== verification/CryptoWitnesses.v ===== *)
(** * Concrete runs of the crypto components

    The theorems on Olm chains, accounts, sessions between devices and room keys, each applied to
    the two devices of the example world; at the end two runs that show what the code does
    against its comments ([CryptoFindings]). *)

From Stdlib Require Import Ascii.
From S2P Require Import Prelude Primitives Ids Persist OutgoingQueue Store StoreProps Json CanonicalJson Codec Events RoomState DeviceTracker MegolmRatchet Megolm MegolmProps Olm OlmAccount OlmProps OlmConversation OlmAccountProps AccountState AccountStateProps OlmSessions OlmSessionsProps GroupSessions GroupSessionsProps CryptoExample.

Local Open Scope Z_scope.

Module CryptoWitnesses.
Import SealedWitnesses StoreWitnesses CryptoExample.

(** ** Olm chains *)

Definition origin : string := repeated 32 "k"%char.

(** A chain that has received number 3 and kept the keys of 0, 1 and 2. *)
Definition window : Window := mkWindow 4 [0; 1; 2]%nat.
Definition chain : ReceiverChain := mkReceiverChain "R"%char (chain_at origin 4) (key_at origin <$> [0; 1; 2]%nat) Unknown.

Lemma chain_represents : represents origin "R"%char window chain.
Proof.
  split_and!; try done. split_and!.
  - repeat constructor; cbn; lia.
  - repeat (constructor; [set_solver|]); constructor.
  - vm_compute. lia.
Qed.

Lemma receiver_chain_refines_window_witness :
  ∃ c', chain_decrypt chain (sent origin "R"%char 1 "hi") olm_version_1 = (c', Ok "hi") ∧
    represents origin "R"%char (mkWindow 4 [0; 2]%nat) c'.
Proof.
  assert (H1 : Z.of_nat 1 + 1 < u64_mod) by (vm_compute; reflexivity).
  exact (receiver_chain_refines_window origin "R"%char window chain 1 "hi" olm_version_1 chain_represents H1).
Defined.

(** Number 1 arrives twice, number 5 after it. *)
Definition arriving : list Message := [sent origin "R"%char 1 "b"; sent origin "R"%char 1 "b"; sent origin "R"%char 5 "f"].

Lemma messages_open_once_witness : opened chain olm_version_1 arriving = [1; 5] ∧ NoDup (opened chain olm_version_1 arriving).
Proof.
  split; [vm_compute; reflexivity|]. apply (messages_open_once chain olm_version_1 arriving).
  - split_and!; [vm_compute; discriminate|vm_compute; reflexivity|repeat constructor|vm_compute; lia].
  - repeat constructor; vm_compute; first [discriminate|reflexivity].
Defined.

(** ** Accounts *)

Definition script : list Utterance :=
  [mkUtterance false "1"%char "2"%char "hello"; mkUtterance true "3"%char "4"%char "how are you"; mkUtterance true "5"%char "6"%char "?"].

Lemma olm_conversation_witness :
  ∃ s s1 m sb,
    create_outbound_session (oas_account alice_account) olm_version_1 "B"%char "O"%char "E"%char "0"%char = Ok s ∧
    session_encrypt s "7"%char "hi" = (s1, Ok (OlmPreKey m)) ∧
    create_inbound_session (oas_account bob_account) olm_version_1 "A"%char m "8"%char =
      ((remove_one_time_key_helper (oas_account bob_account) "O"%char).1, Ok (sb, "hi")) ∧
    olm_session_id sb = olm_session_id s1 ∧ converse s1 sb script = Some ["hello"; "how are you"; "?"].
Proof.
  apply (olm_conversation (oas_account alice_account) (oas_account bob_account) "O"%char "E"%char "0"%char "7"%char "8"%char "hi" script).
  - reflexivity.
  - reflexivity.
  - vm_compute. reflexivity.
  - vm_compute. reflexivity.
  - repeat (constructor; [rewrite ?list_elem_of_In; cbn; intuition discriminate|]). constructor.
Defined.

(** A first message of Alice to Bob. *)
Definition first_message : PreKeyMessage :=
  match create_outbound_session (oas_account alice_account) olm_version_1 "B"%char "O"%char "E"%char "0"%char with
  | Ok s => match session_encrypt s "7"%char "hi" with (_, Ok (OlmPreKey m)) => m | _ => mkPreKey (mkSessionKeys "."%char "."%char "."%char) (sent origin "."%char 0 EmptyString) end
  | Err _ => mkPreKey (mkSessionKeys "."%char "."%char "."%char) (sent origin "."%char 0 EmptyString)
  end.

Definition accepted : Account * result (Session * string) SessionCreationError :=
  create_inbound_session (oas_account bob_account) olm_version_1 "A"%char first_message "8"%char.

Lemma accepted_ok : ∃ s, accepted = (accepted.1, Ok (s, "hi")).
Proof.
  assert (H : match accepted.2 with Ok (_, t) => bool_decide (t = "hi") | Err _ => false end = true) by (vm_compute; reflexivity).
  destruct accepted as [a [[s t]|e]]; cbn [snd] in H; [|discriminate]. apply bool_decide_eq_true in H as ->. exists s. reflexivity.
Qed.

Lemma reachable_accounts_are_consistent_witness :
  account_wf accepted.1 ∧ account_from_pickle (account_pickle accepted.1) = accepted.1 ∧ private_keys (ac_one_time_keys accepted.1) = ∅.
Proof.
  destruct (reachable_accounts_are_consistent (false : @Ed25519Keypair _ example_keys) ("B"%char : @Curve25519SecretKey example_curve) accepted.1) as [Hwf Hp].
  - eapply rtc_l; [apply (step_generate _ (["O"%char] : list (@Curve25519SecretKey example_curve)))|].
    + apply NoDup_singleton.
    + intros k _. reflexivity.
    + vm_compute. reflexivity.
    + eapply rtc_l; [apply (step_fallback _ ("F"%char : @Curve25519SecretKey example_curve))|]. eapply rtc_l; [apply (step_inbound _ olm_version_1 ("A"%char : @Curve25519PublicKey example_curve) first_message "8"%char)|].
      apply rtc_refl.
  - split; [exact Hwf|]. split; [exact Hp|]. vm_compute. reflexivity.
Defined.

Lemma one_time_keys_work_once_witness :
  is_ok accepted.2 = true ∧
  create_inbound_session accepted.1 olm_version_1 "A"%char first_message "9"%char = (accepted.1, Err (MissingOneTimeKey "O"%char)).
Proof.
  split; [vm_compute; reflexivity|]. destruct accepted_ok as [s Ha].
  exact (one_time_keys_work_once (oas_account bob_account) olm_version_1 "A"%char first_message "8"%char s "hi" accepted.1 "A"%char first_message "9"%char
    Ha eq_refl eq_refl eq_refl eq_refl).
Defined.

(** ** Events between two devices *)

Definition fresh_pairs (n : nat) : Curve25519SecretKey * Curve25519SecretKey := ("E"%char, "0"%char).

(** Alice claims Bob's key and sends him an event. *)
Definition claimed : TheStore := (on_keys_claim_response alice_store alice_account [bob_device] "body" fresh_pairs).1.
Definition sent_event := encrypt_to_device claimed alice_account alice phone bob_device "m.dummy" (VObject []) "7"%char.
Definition no_event : OlmEncryptedContent := mkOlm EmptyString [].
Definition event : OlmEncryptedContent := match sent_event.2 with Ok c => c | Err _ => no_event end.
Definition received := decrypt_to_device bob_store bob_account bob alice event "8"%char.

Lemma received_ok : ∃ store account d, decrypt_to_device bob_store bob_account bob alice event "8"%char = (store, account, Ok d).
Proof.
  assert (H : match received.2 with Ok d => bool_decide (dtd_event_type d = "m.dummy") | Err _ => false end = true) by (vm_compute; reflexivity).
  unfold received in H. destruct (decrypt_to_device bob_store _ _ _ _ _) as [[store account] [d|e]]; cbn [snd] in H; [|discriminate].
  exists store, account, d. reflexivity.
Qed.

Lemma decrypted_events_are_bound_witness :
  ∃ store account d devices device m plaintext, decrypt_to_device bob_store bob_account bob alice event "8"%char = (store, account, Ok d) ∧
    says bob_store bob_account (oe_sender_key event) m "8"%char plaintext ∧
    tracker_devices_for_user bob_store alice = Ok devices ∧ device ∈ devices ∧
    curve_to_base64 (sd_curve25519 device) = oe_sender_key event ∧ dtd_sender d = alice.
Proof.
  destruct received_ok as (store & account & d & Hr).
  destruct (decrypted_events_are_bound _ _ _ _ _ _ _ _ _ Hr) as (devices & device & plaintext & sd & info & bytes & m & _ & _ & _ & Hs & Hd & Hin & Hc & Heq & _).
  exists store, account, d, devices, device, m, plaintext. split; [exact Hr|]. split; [exact Hs|]. split; [exact Hd|]. split; [exact Hin|]. split; [exact Hc|].
  rewrite Heq. reflexivity.
Defined.

(** The same event at a device that does not know Alice. *)
Definition stranger_store : TheStore := Store_new laptop codec0.

Definition info : OlmCiphertextInfo :=
  default (mkOlmCiphertextInfo 0 EmptyString) (ciphertext_for event (curve_to_base64 (ik_curve25519 (state_identity_keys bob_account)))).

Lemma unknown_senders_use_up_nothing_witness :
  ∃ store', decrypt_to_device stranger_store bob_account bob alice event "8"%char =
      (store', bob_account, Err (UnknownSenderDevice alice (oe_sender_key event))) ∧
    session_view store' = session_view stranger_store ∧ account_view store' = account_view stranger_store ∧
    device_view store' = device_view stranger_store ∧ tracked_view store' = <[alice := true]> (tracked_view stranger_store).
Proof.
  assert (Hm : is_ok (decode_olm_message info) = true) by (vm_compute; reflexivity).
  destruct (decode_olm_message info) as [m|e] eqn:Hdec; [|discriminate Hm].
  apply (unknown_senders_use_up_nothing stranger_store bob_account bob alice event "8"%char info m []).
  - vm_compute. reflexivity.
  - exact Hdec.
  - reflexivity.
  - intros device Hin. inversion Hin.
Defined.

(** The two devices with a session between them. *)
Definition budget : nat := 2.

Lemma alice_knows_bob : knows alice_party bob_party.
Proof. exists [bob_device], bob_device. repeat split; vm_compute; reflexivity. Qed.

Lemma bob_knows_alice : knows bob_party alice_party.
Proof. exists [alice_device], alice_device. repeat split; vm_compute; reflexivity. Qed.

Lemma everything_fits (p : Party (S := TheStore)) target ty content :
  slen (put (payload_of p target ty content)) < u64_mod - 1 → payload_fits p target ty content.
Proof. intros Hlen b [= <-] c. change (slen (String "#" (put (payload_of p target ty content))) < u64_mod). unfold slen in *. cbn [String.length]. lia. Qed.

Definition events : list ToDevice :=
  [mkToDevice true "m.dummy" (VObject []) "3"%char "4"%char; mkToDevice false "m.dummy" (VObject [("n", VBool true)]) "5"%char "6"%char].

Lemma events_fit (p q : TheStore) e : e ∈ events →
  if td_first e then payload_fits (with_store alice_party p) bob_device (td_type e) (td_content e)
  else payload_fits (with_store bob_party q) alice_device (td_type e) (td_content e).
Proof.
  intros [->|[->|Hin]%elem_of_cons]%elem_of_cons; [| |by apply elem_of_nil in Hin]; cbn [td_first td_type td_content];
    apply everything_fits; vm_compute; reflexivity.
Qed.

Lemma alice_and_bob_linked : ∃ p q, linked budget ["0"%char] (with_store alice_party p) (with_store bob_party q) ∧
  device_view p = device_view alice_store ∧ device_view q = device_view bob_store.
Proof.
  destruct (session_established (oas_account alice_account) (oas_account bob_account) "O"%char "E"%char "0"%char "7"%char "8"%char "hi" budget)
    as (s & s1 & m & sb & _ & _ & _ & _ & Hag & Hk1 & Hk2 & _); [reflexivity..|].
  destruct (save_session alice_party bob_party s1) as (b1 & p & _ & _ & Hl1 & Hd1).
  destruct (save_session bob_party alice_party sb) as (b2 & q & _ & _ & Hl2 & Hd2).
  exists p, q. split; [|split; [exact Hd1|exact Hd2]]. exists s1, sb. split; [exact Hl1|]. split; [exact Hl2|]. split; [left; exact Hag|].
  rewrite Hk1, Hk2. intros k [Hk|Hk]; [by apply elem_of_nil in Hk|exact Hk].
Qed.

Lemma devices_exchange_events_witness :
  ∃ p q, exchange (with_store alice_party p) (with_store bob_party q) alice_device bob_device events =
    Some [mkDecryptedToDevice alice "A"%char true "m.dummy" (VObject []); mkDecryptedToDevice bob "B"%char false "m.dummy" (VObject [("n", VBool true)])].
Proof.
  destruct alice_and_bob_linked as (p & q & Hl & Hp & Hq). exists p, q.
  apply (devices_exchange_events (["0"%char] : list (@Curve25519PublicKey example_curve)) (with_store alice_party p) (with_store bob_party q) alice_device bob_device events).
  - exact Hl.
  - exact (knows_store alice_party bob_party p q Hp alice_knows_bob).
  - exact (knows_store bob_party alice_party q p Hq bob_knows_alice).
  - repeat split.
  - repeat split.
  - exact (events_fit p q).
  - repeat (constructor; [rewrite ?list_elem_of_In; cbn; intuition discriminate|]). constructor.
  - intros k ->%list_elem_of_singleton. rewrite list_elem_of_In. cbn. intuition discriminate.
Defined.

Lemma signed_key_ok : signed_one_time_key_json bob_account bob laptop "O"%char false = Ok signed_key.
Proof.
  assert (H : is_ok (signed_one_time_key_json bob_account bob laptop "O"%char false) = true) by (vm_compute; reflexivity).
  unfold signed_key. destruct (signed_one_time_key_json _ _ _ _ _); [reflexivity|discriminate H].
Qed.

Lemma first_contact_witness :
  ∃ store1 store2 content' store3 account,
    on_keys_claim_response alice_store alice_account [bob_device] "body" fresh_pairs = (store1, Ok (mkClaimOutcome [(bob, laptop)] [])) ∧
    encrypt_to_device store1 alice_account alice phone bob_device "m.dummy" (VObject []) "7"%char = (store2, Ok content') ∧
    decrypt_to_device bob_store bob_account bob alice content' "8"%char =
      (store3, account, Ok (mkDecryptedToDevice alice "A"%char true "m.dummy" (VObject []))) ∧
    otk_get_secret_key (ac_one_time_keys (oas_account account)) "O"%char = None ∧
    state_identity_keys account = state_identity_keys bob_account ∧ persisted account store3 ∧
    linked budget ["0"%char] (with_store alice_party store2) (mkParty store3 account bob laptop).
Proof.
  apply (first_contact alice_party bob_party bob_device "O"%char false signed_key "body" "signed_curve25519:AAAA" fresh_pairs
    "m.dummy" (VObject []) "7"%char "8"%char budget).
  - exact signed_key_ok.
  - vm_compute. reflexivity.
  - reflexivity.
  - reflexivity.
  - reflexivity.
  - reflexivity.
  - repeat split.
  - reflexivity.
  - exact bob_knows_alice.
  - vm_compute. reflexivity.
  - apply everything_fits. vm_compute. reflexivity.
  - vm_compute. reflexivity.
Defined.

(** ** The stored account *)

Definition loaded := load_or_create (Store_new phone codec0) (true : @Ed25519Keypair _ example_keys) ("A"%char : @Curve25519SecretKey example_curve).

(** Keys numbered from "0" on. *)
Definition numbered (n : nat) : @Curve25519SecretKey example_curve := ascii_of_nat (48 + n).

Definition new_state : OlmAccountState := mkAccountState (Account_new (true : @Ed25519Keypair _ example_keys) ("A"%char : @Curve25519SecretKey example_curve)) false.

Lemma loaded_ok : ∃ store, loaded = (store, Ok new_state).
Proof.
  unfold loaded, load_or_create. cbn [cs_account account_interface Store_AccountStore account st_account Store_new map_err].
  unfold account_save. cbn [account_record_to_vec example_account_serde map_err]. unfold to_vec. eexists. reflexivity.
Qed.

Lemma numbered_fresh : fresh_keys new_state numbered.
Proof.
  split; [|split].
  - apply (bool_decide_unpack _). vm_compute. exact I.
  - intros n. reflexivity.
  - vm_compute. reflexivity.
Qed.

Lemma saves state (store : TheStore) : ∃ store', account_save state store = (store', Ok tt).
Proof. unfold account_save. cbn [account_record_to_vec example_account_serde map_err]. unfold to_vec. eexists. reflexivity. Qed.

(** A sync that finds twenty keys on the server. *)
Lemma synced_ok (store : TheStore) :
  ∃ state store', on_sync_counts new_state store 20 [SIGNED_CURVE25519] numbered "F"%char = (state, store', Ok tt).
Proof.
  unfold on_sync_counts. destruct (if bool_decide _ then _ else _) as [state mutated]. destruct (if negb _ && _ then _ else _) as [state' mutated'].
  destruct mutated'; [|eexists _, _; reflexivity]. destruct (saves state' store) as [store' Hs]. rewrite Hs. eexists _, _. reflexivity.
Qed.

Lemma restarts_keep_the_account_witness :
  ∃ (state stored : OlmAccountState) (store : TheStore),
    on_sync_counts new_state loaded.1 20 [SIGNED_CURVE25519] numbered "F"%char = (state, store, Ok tt) ∧
    load_or_create store (false : @Ed25519Keypair _ example_keys) ("Z"%char : @Curve25519SecretKey example_curve) = (store, Ok stored) ∧
    oas_account stored = oas_account state.
Proof.
  destruct loaded_ok as [store Hl]. rewrite Hl. cbn [fst]. destruct (synced_ok store) as (state & store' & Hs).
  assert (Hlife : life new_state store) by (eapply (life_make (Store_new phone codec0)); [reflexivity|exact Hl]).
  assert (Hlife' : life state store') by (refine (life_sync _ _ _ _ _ _ _ _ _ Hlife numbered_fresh _ Hs); lia).
  destruct (restarts_keep_the_account (forget_published_device_keys state) store' (false : @Ed25519Keypair _ example_keys)
    ("Z"%char : @Curve25519SecretKey example_curve) (life_forget _ _ Hlife')) as (stored & Hst & Ha & _).
  exists state, stored, store'. split; [exact Hs|]. split; [exact Hst|exact Ha].
Defined.

Lemma sync_tops_up_witness :
  ∃ state store, on_sync_counts new_state (Store_new phone codec0) 20 [SIGNED_CURVE25519] numbered "F"%char = (state, store, Ok tt) ∧
    Z.of_nat (pending_one_time_key_count state) = 5.
Proof.
  destruct (synced_ok (Store_new phone codec0)) as (state & store & Hs). exists state, store. split; [exact Hs|].
  pose proof (sync_tops_up new_state (Store_new phone codec0) 20 [SIGNED_CURVE25519] numbered "F"%char state store) as Ht.
  rewrite bool_decide_true in Ht by reflexivity. apply Ht.
  - split; [exact otk_new_wf|reflexivity].
  - exact numbered_fresh.
  - lia.
  - vm_compute. discriminate.
  - exact Hs.
Defined.

(** ** Rooms *)

Definition room : RoomId := mkRoomId "!room:x".
Definition encryption : RoomEncryptionContent := mkEncryption MEGOLM_ALGORITHM 604800000 100.
Definition members : gset UserId := {[ alice; bob ]}.
Definition random : string := repeated 128 "r"%char.

Definition ensured := ensure_outbound_session alice_store room alice phone encryption members [bob_device; alice_device] 0 (true : @Ed25519Keypair _ example_keys) random.

Lemma ensured_ok : ∃ store update, ensure_outbound_session alice_store room alice phone encryption members [bob_device; alice_device] 0 (true : @Ed25519Keypair _ example_keys) random = (store, Ok update) ∧ ou_rotated update = true ∧ ou_session_id update = group_session_id (GroupSession_new version_1 true random).
Proof.
  assert (H : match ensured.2 with Ok u => ou_rotated u && bool_decide (ou_session_id u = group_session_id (GroupSession_new version_1 true random)) | Err _ => false end = true)
    by (vm_compute; reflexivity).
  unfold ensured in H. destruct (ensure_outbound_session _ _ _ _ _ _ _ _ _ _) as [store [update|e]]; cbn [snd] in H; [|discriminate]. apply andb_true_iff in H as [H1 H2%bool_decide_eq_true].
  exists store, update. split; [reflexivity|]. split; [exact H1|exact H2].
Qed.

Lemma outbound_session_reaches_the_room_witness :
  ∃ store update record, ensured = (store, Ok update) ∧ outbound_record store room record ∧
    (bob, laptop) ∈ or_shared_with record ∧ bob_device ∈ ou_new_recipients update.
Proof.
  destruct ensured_ok as (store & update & He & Hr & _). exists store, update.
  destruct (outbound_session_reaches_the_room _ _ _ _ _ _ _ _ _ _ _ _ He)
    as (record & before & Hrec & _ & _ & Hall & _ & Hnew & _ & Hrot).
  exists record. split; [exact He|]. split; [exact Hrec|]. rewrite Hr in Hrot. destruct Hrot as [Hb _].
  assert (Helig : meant_for alice phone members bob_device) by (apply eligible_meant; vm_compute; reflexivity). split.
  - exact (Hall bob_device (list_elem_of_here _ _) Helig).
  - apply Hnew. split; [apply list_elem_of_here|]. split; [exact Helig|]. rewrite Hb. apply not_elem_of_empty.
Defined.

Definition alice_ed : @Ed25519PublicKey example_ed25519 := true.

Definition room_events : list RoomEvent :=
  [mkRoomEvent "m.room.message" (VObject [("body", VString "one")]) None; mkRoomEvent "m.room.message" (VObject [("body", VString "two")]) None].

Lemma room_events_fit : Forall (event_fits room) room_events.
Proof.
  assert (Hfit : ∀ e, slen (put (as_plaintext room e)) < u64_mod - 1 → event_fits room e).
  { intros e Hlen b c [= <-]. change (slen (String "#" (put (as_plaintext room e))) < u64_mod). unfold slen in *. cbn [String.length]. lia. }
  repeat constructor; apply Hfit; vm_compute; reflexivity.
Qed.

Definition stamp (n : nat) : ReplayEntry := mkReplay (mkEventId (if decide (n = 0)%nat then "$a" else "$b")) (Z.of_nat n).

(** The second event first, then both again. *)
Definition order : list nat := [1; 0; 1]%nat.

Lemma order_ok : Forall (λ j, (j < length room_events)%nat) order.
Proof. repeat constructor; vm_compute; lia. Qed.

Lemma bob_has_none i : in_view bob_store room i = None.
Proof. reflexivity. Qed.

Lemma alice_has_none i : in_view alice_store room i = None.
Proof. reflexivity. Qed.

Lemma random_len : slen random = 128.
Proof. reflexivity. Qed.

Lemma room_events_are_read_witness :
  ∃ ss1 update rs1 ss2 contents,
    ensured = (ss1, Ok update) ∧
    receive_room_key bob_store alice "A"%char alice_ed (mkRoomKey MEGOLM_ALGORITHM room (ou_session_id update) (ou_session_key update)) = Some (rs1, Ok tt) ∧
    send_all ss1 room "A" phone room_events = Some (ss2, contents) ∧
    read_all rs1 room alice (arrivals stamp contents order) = Some (as_plaintext room <$> omap (λ j, room_events !! j) order).
Proof.
  destruct ensured_ok as (ss1 & update & He & Hr & _). exists ss1, update.
  destruct (room_events_are_read _ _ _ _ _ _ _ _ _ _ _ _ bob_store ("A"%char : @Curve25519PublicKey example_curve) alice_ed "A" phone room_events stamp order random_len He Hr
    (bob_has_none _) eq_refl room_events_fit order_ok) as (rs1 & ss2 & contents & Hk & Hs & Hread).
  exists rs1, ss2, contents. split; [exact He|]. split; [exact Hk|]. split; [exact Hs|exact Hread].
Defined.

Lemma own_events_echo_witness :
  ∃ s1 update s2 s3 contents,
    ensured = (s1, Ok update) ∧
    adopt_own_outbound_session s1 room alice "A"%char alice_ed update = Some (s2, Ok tt) ∧
    send_all s2 room "A" phone room_events = Some (s3, contents) ∧
    read_all s3 room alice (arrivals stamp contents order) = Some (as_plaintext room <$> omap (λ j, room_events !! j) order).
Proof.
  destruct ensured_ok as (s1 & update & He & Hr & _). exists s1, update.
  destruct (own_events_echo _ _ _ _ _ _ _ _ _ _ _ _ ("A"%char : @Curve25519PublicKey example_curve) alice_ed "A" phone room_events stamp order random_len He Hr
    (alice_has_none _) eq_refl room_events_fit order_ok) as (s2 & s3 & contents & Hk & Hs & Hread).
  exists s2, s3, contents. split; [exact He|]. split; [exact Hk|]. split; [exact Hs|exact Hread].
Defined.

(** Bob's store with the key of Alice's session, and her first message. *)
Definition group : GroupSession := GroupSession_new version_1 (true : @Ed25519Keypair _ example_keys) random.
Definition hello : RoomEvent := mkRoomEvent "m.room.message" (VObject [("body", VString "one")]) None.

Lemma group_session_ok : group_ok group.
Proof. split; [done|]. apply (parts_of_ok random). reflexivity. Qed.

Lemma read_twice : ∃ s0 s1 s2 content m record, carries room group 0 hello content ∧ message_from_base64 (mg_ciphertext content) = Ok m ∧
  inbound_record s0 room (mg_session_id content) record ∧
  decrypt_event s0 room (mkEventId "$a") 0 alice content = Some (s1, Ok (as_plaintext room hello)) ∧
  decrypt_event s1 room (mkEventId "$a") 0 alice content = Some (s2, Ok (as_plaintext room hello)).
Proof.
  assert (Hr : in_range group 0) by (vm_compute; reflexivity).
  destruct (receive_new_key bob_store room alice ("A"%char : @Curve25519PublicKey example_curve) alice_ed group stamp group_session_ok eq_refl Hr (bob_has_none _)) as (s0 & _ & Hh & _).
  destruct (ensured_ok) as (ss & update & He & Hrot & _).
  destruct (rotated_sends _ _ _ _ _ _ _ _ _ _ _ _ random_len He Hrot) as (_ & _ & Hs & _).
  pose proof room_events_fit as [Hfit _]%Forall_cons.
  destruct (encrypt_event_sends ss room group 0 "A" phone hello group_session_ok Hr Hs Hfit) as (ss' & content & _ & _ & Hc & _).
  destruct (decrypt_event_holds s0 room alice group 0 stamp 0 hello content group_session_ok Hr (le_n 0) Hh Hc) as (s1 & Hd1 & Hh1).
  destruct (decrypt_event_holds s1 room alice group 0 stamp 0 hello content group_session_ok Hr (le_n 0) Hh1 Hc) as (s2 & Hd2 & _).
  destruct Hh as (record & Hrec & _). pose proof Hc as (Hid & b & m & _ & _ & Hm). rewrite <- Hid in Hrec.
  exists s0, s1, s2, content, m, record. split; [exact Hc|]. split; [exact Hm|]. split; [exact Hrec|]. split; [exact Hd1|exact Hd2].
Qed.

Lemma no_replays_witness :
  ∃ s0 s1 s2 content record record', 
    decrypt_event s0 room (mkEventId "$a") 0 alice content = Some (s1, Ok (as_plaintext room hello)) ∧
    decrypt_event s1 room (mkEventId "$a") 0 alice content = Some (s2, Ok (as_plaintext room hello)) ∧
    inbound_record s0 room (mg_session_id content) record ∧ inbound_record s2 room (mg_session_id content) record' ∧ binding record' = binding record.
Proof.
  destruct read_twice as (s0 & s1 & s2 & content & m & record & _ & Hm & Hrec & Hd1 & Hd2).
  destruct (no_replays s0 room _ _ _ _ s1 _ s1 _ _ _ _ s2 _ m m record Hd1 (rtc_refl _ _) Hd2 eq_refl Hm Hm eq_refl Hrec) as (_ & _ & _ & _ & _ & record' & Hrec' & Hb).
  exists s0, s1, s2, content, record, record'. split; [exact Hd1|]. split; [exact Hd2|]. split; [exact Hrec|]. split; [exact Hrec'|exact Hb].
Defined.

End CryptoWitnesses.

(** * Two runs the documentation rules out

    Evaluated in the example world: an event that is delivered twice, and a room key that keeps
    the genuine one out. *)

Module CryptoFindings.
Import SealedWitnesses StoreWitnesses CryptoExample.

(** ** A first message under a fallback key, twice *)

(** Alice's store with a session made from one of Bob's keys. *)
Definition with_session (key : @Curve25519PublicKey example_curve) : TheStore :=
  match create_outbound_session (oas_account alice_account) olm_version_1 "B"%char key "E"%char "0"%char with
  | Ok s => (cs_save_olm_session alice_store (curve_to_base64 "B"%char) (olm_session_id s) (put s)).1
  | Err _ => alice_store
  end.

(** The event she sends on it. *)
Definition event_under (key : @Curve25519PublicKey example_curve) : OlmEncryptedContent :=
  match (encrypt_to_device (with_session key) alice_account alice phone bob_device "m.dummy" (VObject []) "7"%char).2 with
  | Ok content => content
  | Err _ => mkOlm EmptyString []
  end.

(** Whether Bob decrypts it the first and the second time; the second time his store and account are those the first
    left. *)
Definition delivered_twice (content : OlmEncryptedContent) : bool * bool :=
  let '(store, account, first) := decrypt_to_device bob_store bob_account bob alice content "8"%char in
  let '(_, _, second) := decrypt_to_device store account bob alice content "9"%char in
  (is_ok first, is_ok second).

(** A replay of a first message under a one-time key is refused, as documented; under a fallback key it is decrypted
    again. *)
Lemma fallback_replay_is_delivered : delivered_twice (event_under "O"%char) = (true, false) ∧ delivered_twice (event_under "F"%char) = (true, true).
Proof. split; vm_compute; reflexivity. Qed.

(** ** A room key under another session's id *)

Definition room : RoomId := mkRoomId "!room:x".
Definition genuine : GroupSession := GroupSession_new version_1 (true : @Ed25519Keypair _ example_keys) (repeated 128 "r"%char).
Definition foreign : GroupSession := GroupSession_new version_1 (false : @Ed25519Keypair _ example_keys) (repeated 128 "s"%char).
Definition mallory : UserId := mkUserId "@mallory:z".

(** The key of [g], announced as that of the genuine session. *)
Definition announced (g : GroupSession) : RoomKeyContent :=
  mkRoomKey MEGOLM_ALGORITHM room (group_session_id genuine) (session_key_to_base64 (group_session_key g)).

Definition after_key (store : TheStore) (sender : UserId) (key : @Curve25519PublicKey example_curve)
    (signing : @Ed25519PublicKey example_ed25519) (g : GroupSession) : TheStore :=
  match receive_room_key store sender key signing (announced g) with Some (store, Ok _) => store | _ => store end.

(** Who the stored session of the genuine id is bound to. *)
Definition bound_to (store : TheStore) : option UserId :=
  b ← in_view store room (group_session_id genuine);
  match inbound_from_slice b with Ok record => Some (ir_bound_user_id record) | Err _ => None end.

(** A share whose key is not that of the session id it names is stored under that id, and the genuine share that
    comes later is ignored. *)
Lemma squatted_session_id :
  bound_to (after_key bob_store alice "A"%char true genuine) = Some alice ∧
  bound_to (after_key (after_key bob_store mallory "M"%char false foreign) alice "A"%char true genuine) = Some mallory.
Proof. split; vm_compute; reflexivity. Qed.

End CryptoFindings.
