(* ===== verification/Wire.v ===== *)
(** * The messenger's requests and the shape of a sync answer (crates/mail4agent-messenger/src/wire/,
      src/crypto/cross_signing.rs)

    One builder per endpoint, the address of an account-data slot read back from a request's path,
    the parts of a sync answer and the contents of the events the engine itself reads. A request's
    body is a JSON value, so [SerdeJson] is used at [Json.Value]; text parsing stays a parameter
    ([JsonText]), and so do the readers and writers serde derives ([CoreSerde]). At the end the
    automatic cross-signing keys. *)

From Stdlib Require Import Ascii SpecFloat.
From S2P Require Import Prelude Primitives Ids OutgoingQueue Store Json CanonicalJson Events RoomState DeviceTracker MegolmRatchet Megolm Olm OlmAccount AccountState OlmSessions GroupSessions.

Local Open Scope Z_scope.

(** [serde_json::from_slice::<Value>] *)
Class JsonText := { value_from_slice : string → option Json.Value }.

#[export] Instance Json_SerdeJson `{JsonText} : SerdeJson := {|
  OutgoingQueue.Value := Json.Value;
  from_slice := value_from_slice;
  json_get := Json.get;
  OutgoingQueue.as_u64 v := match v with VNumber n => Json.as_u64 n | _ => None end;
  OutgoingQueue.as_str := Json.as_str
|}.

(** The value a [json!] object builds. *)
Definition json_obj (members : list (string * Value)) : Value :=
  VObject (foldl (λ m kv, map_insert kv.1 kv.2 m) [] members).

(** [value[k] = v] on an object. *)
Definition json_set (v : Value) (k : string) (x : Value) : Value :=
  match v with VObject m => VObject (map_insert k x m) | other => other end.

(** ** Paths *)

(** [str::replace] of a pattern that is not empty. *)
Fixpoint replace_loop (fuel : nat) (pattern value s : string) : string :=
  match fuel, s with
  | Datatypes.S fuel, String a rest =>
      match strip_prefix pattern s with
      | Some rest => value +:+ replace_loop fuel pattern value rest
      | None => String a (replace_loop fuel pattern value rest)
      end
  | _, _ => s
  end.

Definition str_replace (pattern value s : string) : string := replace_loop (String.length s) pattern value s.

Definition substitute (template : string) (params : list (string * string)) : string :=
  foldl (λ path '(placeholder, value), str_replace placeholder (percent_encode_segment value) path) template params.

(** [str::split('/')] *)
Fixpoint split_slash (s : string) : list string :=
  match s with
  | EmptyString => [EmptyString]
  | String a s =>
      if Ascii.eqb a "/"%char then EmptyString :: split_slash s
      else match split_slash s with
           | [] => [String a EmptyString]
           | w :: ws => String a w :: ws
           end
  end.

Definition SYNC_FILTER : string :=
  "{" +:+ quoted "room" +:+ ":{" +:+ quoted "include_leave" +:+ ":true}}".

(** ** The builders *)

Module Requests.
Section Requests.
Context `{JsonText}.

(** A request with a body and no query, or with a query and no body. *)
Abbreviation with_body i m p b k := (mkOutgoingRequest i m p [] (Some b) k).
Abbreviation with_query i p q k := (mkOutgoingRequest i Get p q None k).

Definition sync (i : RequestId) (since : option string) (timeout_ms : option Z) : OutgoingRequest :=
  let query := [("filter", SYNC_FILTER)] in
  let query := match since with Some since => query ++ [("since", since)] | None => query end in
  let query := match timeout_ms with Some t => query ++ [("timeout", pretty t)] | None => query end in
  with_query i "/_matrix/client/v3/sync" query KSync.

Definition keys_upload (i : RequestId) (body : Value) : OutgoingRequest :=
  with_body i Post "/_matrix/client/v3/keys/upload" body KeysUpload.

Definition keys_query (i : RequestId) (body : Value) : OutgoingRequest :=
  with_body i Post "/_matrix/client/v3/keys/query" body KeysQuery.

Definition keys_claim (i : RequestId) (body : Value) : OutgoingRequest :=
  with_body i Post "/_matrix/client/v3/keys/claim" body KeysClaim.

Definition keys_changes (i : RequestId) (from to : string) : OutgoingRequest :=
  with_query i "/_matrix/client/v3/keys/changes" [("from", from); ("to", to)] KeysChanges.

Definition send_to_device (i : RequestId) (event_type : string) (txn_id : TxnId) (body : Value) : OutgoingRequest :=
  let path := substitute "/_matrix/client/v3/sendToDevice/{event_type}/{txn_id}"
                [("{event_type}", event_type); ("{txn_id}", TxnId_str txn_id)] in
  with_body i Put path body SendToDevice.

Definition signing_keys_upload (i : RequestId) (body : Value) : OutgoingRequest :=
  with_body i Post "/_matrix/client/v3/keys/device_signing/upload" body SigningKeysUpload.

Definition signatures_upload (i : RequestId) (body : Value) : OutgoingRequest :=
  with_body i Post "/_matrix/client/v3/keys/signatures/upload" body SignaturesUpload.

Definition room_send (i : RequestId) (room_id : RoomId) (event_type : string) (txn_id : TxnId) (body : Value) : OutgoingRequest :=
  let path := substitute "/_matrix/client/v3/rooms/{room_id}/send/{event_type}/{txn_id}"
                [("{room_id}", RoomId_str room_id); ("{event_type}", event_type); ("{txn_id}", TxnId_str txn_id)] in
  with_body i Put path body RoomSend.

Definition room_redact (i : RequestId) (room_id : RoomId) (event_id : EventId) (txn_id : TxnId) (body : Value) : OutgoingRequest :=
  let path := substitute "/_matrix/client/v3/rooms/{room_id}/redact/{event_id}/{txn_id}"
                [("{room_id}", RoomId_str room_id); ("{event_id}", EventId_str event_id); ("{txn_id}", TxnId_str txn_id)] in
  with_body i Put path body RoomRedact.

(** The path of [room_state] and [set_state]. *)
Definition state_path (room_id : RoomId) (event_type state_key : string) : string :=
  substitute "/_matrix/client/v3/rooms/{room_id}/state/{event_type}/{state_key}"
    [("{room_id}", RoomId_str room_id); ("{event_type}", event_type); ("{state_key}", state_key)].

Definition room_state (i : RequestId) (room_id : RoomId) (event_type state_key : string) (body : Value) : OutgoingRequest :=
  with_body i Put (state_path room_id event_type state_key) body KRoomState.

(** A path with the one parameter [room_id]. *)
Definition room_path (template : string) (room_id : string) : string := substitute template [("{room_id}", room_id)].

Definition room_messages (i : RequestId) (room_id : RoomId) (from dir : string) (limit : option Z) : OutgoingRequest :=
  let path := room_path "/_matrix/client/v3/rooms/{room_id}/messages" (RoomId_str room_id) in
  let query := [("from", from); ("dir", dir)] in
  let query := match limit with Some l => query ++ [("limit", pretty l)] | None => query end in
  with_query i path query RoomMessages.

Definition room_messages_latest (i : RequestId) (room_id : RoomId) (limit : Z) : OutgoingRequest :=
  let path := room_path "/_matrix/client/v3/rooms/{room_id}/messages" (RoomId_str room_id) in
  with_query i path [("dir", "b"); ("limit", pretty limit)] RoomMessages.

Definition room_members (i : RequestId) (room_id : RoomId) : OutgoingRequest :=
  with_query i (room_path "/_matrix/client/v3/rooms/{room_id}/members" (RoomId_str room_id)) [] RoomMembers.

Definition create_room (i : RequestId) (body : Value) : OutgoingRequest :=
  with_body i Post "/_matrix/client/v3/createRoom" body CreateRoom.

Definition join_room (i : RequestId) (room_id : string) : OutgoingRequest :=
  mkOutgoingRequest i Post (room_path "/_matrix/client/v3/rooms/{room_id}/join" room_id) [] None JoinRoom.

Definition leave_room (i : RequestId) (room_id : RoomId) : OutgoingRequest :=
  mkOutgoingRequest i Post (room_path "/_matrix/client/v3/rooms/{room_id}/leave" (RoomId_str room_id)) [] None LeaveRoom.

Definition invite (i : RequestId) (room_id : RoomId) (user_id : UserId) : OutgoingRequest :=
  with_body i Post (room_path "/_matrix/client/v3/rooms/{room_id}/invite" (RoomId_str room_id))
    (json_obj [("user_id", VString (UserId_str user_id))]) Invite.

Definition kick (i : RequestId) (room_id : RoomId) (user_id : UserId) (reason : option string) : OutgoingRequest :=
  let body := json_obj [("user_id", VString (UserId_str user_id))] in
  let body := match reason with Some reason => json_set body "reason" (VString reason) | None => body end in
  with_body i Post (room_path "/_matrix/client/v3/rooms/{room_id}/kick" (RoomId_str room_id)) body Kick.

Definition set_state (i : RequestId) (room_id : RoomId) (event_type state_key : string) (content : Value) : OutgoingRequest :=
  with_body i Put (state_path room_id event_type state_key) content SetState.

Definition typing (i : RequestId) (room_id : RoomId) (user_id : UserId) (typing : bool) (timeout_ms : option Z) : OutgoingRequest :=
  let path := substitute "/_matrix/client/v3/rooms/{room_id}/typing/{user_id}"
                [("{room_id}", RoomId_str room_id); ("{user_id}", UserId_str user_id)] in
  let body := json_obj [("typing", VBool typing)] in
  let body := match timeout_ms with Some t => json_set body "timeout" (VNumber (PosInt t)) | None => body end in
  with_body i Put path body Typing.

Definition receipt (i : RequestId) (room_id : RoomId) (receipt_type : string) (event_id : EventId) : OutgoingRequest :=
  let path := substitute "/_matrix/client/v3/rooms/{room_id}/receipt/{receipt_type}/{event_id}"
                [("{room_id}", RoomId_str room_id); ("{receipt_type}", receipt_type); ("{event_id}", EventId_str event_id)] in
  with_body i Post path (json_obj []) Receipt.

Definition read_markers (i : RequestId) (room_id : RoomId) (body : Value) : OutgoingRequest :=
  with_body i Post (room_path "/_matrix/client/v3/rooms/{room_id}/read_markers" (RoomId_str room_id)) body ReadMarkers.

Definition account_data (i : RequestId) (user_id : UserId) (event_type : string) (body : Value) : OutgoingRequest :=
  let path := substitute "/_matrix/client/v3/user/{user_id}/account_data/{event_type}"
                [("{user_id}", UserId_str user_id); ("{event_type}", event_type)] in
  with_body i Put path body KAccountData.

Definition room_account_data (i : RequestId) (user_id : UserId) (room_id : RoomId) (event_type : string) (body : Value) : OutgoingRequest :=
  let path := substitute "/_matrix/client/v3/user/{user_id}/rooms/{room_id}/account_data/{event_type}"
                [("{user_id}", UserId_str user_id); ("{room_id}", RoomId_str room_id); ("{event_type}", event_type)] in
  with_body i Put path body RoomAccountData.

Definition profile (i : RequestId) (user_id : UserId) : OutgoingRequest :=
  with_query i (substitute "/_matrix/client/v3/profile/{user_id}" [("{user_id}", UserId_str user_id)]) [] Profile.

Definition user_directory_search (i : RequestId) (body : Value) : OutgoingRequest :=
  with_body i Post "/_matrix/client/v3/user_directory/search" body UserDirectorySearch.

Definition public_rooms (i : RequestId) (body : Value) : OutgoingRequest :=
  with_body i Post "/_matrix/client/v3/publicRooms" body PublicRooms.

Definition backup_version (i : RequestId) : OutgoingRequest :=
  with_query i "/_matrix/client/v3/room_keys/version" [] BackupVersion.

Definition backup_keys (i : RequestId) (room_id : RoomId) (session_id version : string) : OutgoingRequest :=
  let path := substitute "/_matrix/client/v3/room_keys/keys/{room_id}/{session_id}"
                [("{room_id}", RoomId_str room_id); ("{session_id}", session_id)] in
  with_query i path [("version", version)] BackupKeys.

End Requests.
End Requests.

(** ** Account-data slots *)

(** [type AccountDataKey = (Option<RoomId>, String)] *)
Definition AccountDataKey : Type := option RoomId * string.

(** [segments[n - k]] *)
Definition segment_from_end (segments : list string) (k : nat) : string := nth (length segments - k) segments EmptyString.

Definition account_data_key_from_path (path : string) : option AccountDataKey :=
  let segments := split_slash path in
  let n := length segments in
  if (n <? 4)%nat || negb (bool_decide (segment_from_end segments 2 = "account_data")) then None
  else
    event_type ← percent_decode_segment (segment_from_end segments 1);
    if bool_decide (segment_from_end segments 4 = "user") then Some (None, event_type)
    else if (6 <=? n)%nat && bool_decide (segment_from_end segments 4 = "rooms") && bool_decide (segment_from_end segments 6 = "user") then
      room ← percent_decode_segment (segment_from_end segments 3);
      room_id ← ok (RoomId_parse room);
      Some (Some room_id, event_type)
    else None.

(** ** Events and contents the engine reads (wire/events.rs) *)

Record StrippedStateEvent := mkStripped { ss_event_type : string; ss_state_key : string; ss_sender : UserId; ss_content : Value }.
Record BasicEvent := mkBasic { be_event_type : string; be_content : Value }.
Record ToDeviceEvent := mkToDevice { td_sender : UserId; td_event_type : string; td_content : Value }.

Record TypingContent := mkTyping { ty_user_ids : list UserId }.
Record ReceiptEntry := mkReceiptEntry { rcp_ts : Z; rcp_thread_id : option string }.
Definition ReceiptContent : Type := gmap EventId (gmap string (gmap UserId ReceiptEntry)).
Record TagInfo := mkTagInfo { tag_order : option spec_float }.
Record TagContent := mkTagContent { tags : gmap string TagInfo }.

Inductive RoomKeyRequestAction := KeyRequest | RequestCancellation | UnknownAction.
Record RoomKeyRequestBody := mkRequestBody { rb_algorithm : string; rb_room_id : RoomId; rb_session_id : string; rb_sender_key : string }.
Record RoomKeyRequestContent := mkKeyRequest {
  kq_action : RoomKeyRequestAction;
  kq_body : option RoomKeyRequestBody;
  kq_request_id : string;
  kq_requesting_device_id : DeviceId }.

Inductive WithheldCode := Blacklisted | Unverified | Unauthorised | Unavailable | NoOlm | UnknownCode (raw : string).

Definition WithheldCode_str (c : WithheldCode) : string :=
  match c with
  | Blacklisted => "m.blacklisted"
  | Unverified => "m.unverified"
  | Unauthorised => "m.unauthorised"
  | Unavailable => "m.unavailable"
  | NoOlm => "m.no_olm"
  | UnknownCode raw => raw
  end.

Record RoomKeyWithheldContent := mkWithheld {
  wh_algorithm : string;
  wh_room_id : option RoomId;
  wh_session_id : option string;
  wh_sender_key : string;
  wh_code : WithheldCode;
  wh_reason : option string }.

(** ** A sync answer (wire/sync.rs); its maps are in key order *)

Record TimelineSection := mkTimelineSection { tls_events : list RawEvent; tls_limited : bool; tls_prev_batch : option string }.

Record JoinedRoom := mkJoined {
  jd_summary : RoomSummary;
  jd_state : list RawEvent;
  jd_timeline : TimelineSection;
  jd_ephemeral : list BasicEvent;
  jd_account_data : list BasicEvent;
  jd_unread_notifications : UnreadNotifications }.

Record InvitedRoom := mkInvited { iv_invite_state : list StrippedStateEvent }.

Record LeftRoom := mkLeft { lf_state : list RawEvent; lf_timeline : TimelineSection; lf_account_data : list BasicEvent }.

Record SyncResponse := mkSync {
  sy_next_batch : string;
  sy_join : list (RoomId * JoinedRoom);
  sy_invite : list (RoomId * InvitedRoom);
  sy_leave : list (RoomId * LeftRoom);
  sy_account_data : list BasicEvent;
  sy_to_device : list ToDeviceEvent;
  sy_changed : list UserId;
  sy_left : list UserId;
  sy_one_time_keys_count : gmap string Z;
  sy_unused_fallback_key_types : list string }.

(** [core.rs]: what it reads of the other answers. *)
Record PublicRoomsResultEntry := mkPublicRoom {
  pr_room_id : RoomId; pr_name : option string; pr_topic : option string; pr_num_joined_members : Z }.
Record UserDirectoryResultEntry := mkDirectoryUser { du_user_id : UserId; du_display_name : option string }.

(** ** Cross-signing (crypto/cross_signing.rs) *)

Record CrossSigningState := mkCrossSigning {
  xs_master : string;
  xs_self_signing : string;
  xs_user_signing : string;
  xs_uploaded : bool;
  xs_device_signed : bool }.

(** The readers and writers serde derives for what the engine handles. *)
Class CoreSerde := {
  sync_from_slice : string → result SyncResponse string;
  messages_from_slice : string → result (list RawEvent * option string) string;
  send_response_from_slice : string → option EventId;
  create_room_from_slice : string → result RoomId string;
  public_rooms_from_slice : string → result (list PublicRoomsResultEntry) string;
  user_directory_from_slice : string → result (list UserDirectoryResultEntry) string;
  typing_from_value : Value → option TypingContent;
  receipts_from_value : Value → option ReceiptContent;
  tags_from_value : Value → option TagContent;
  tags_to_value : TagContent → result Value string;
  direct_from_value : Value → option DirectContent;
  direct_to_value : DirectContent → result Value string;
  power_levels_to_value : RoomPowerLevelsContent → result Value string;
  forwarded_key_from_value : Value → option ForwardedRoomKeyContent;
  forwarded_key_to_value : ForwardedRoomKeyContent → result Value string;
  key_request_from_value : Value → option RoomKeyRequestContent;
  key_request_to_value : RoomKeyRequestContent → result Value string;
  withheld_from_value : Value → option RoomKeyWithheldContent;
  megolm_to_value : MegolmEncryptedContent → result Value string;
  room_state_to_vec : RoomState → result string string;
  room_state_from_slice : string → result RoomState string;
  cross_signing_to_vec : CrossSigningState → result string string;
  cross_signing_from_slice : string → option CrossSigningState
}.

(** [Ed25519SecretKey]: its text form, its public key and signing. *)
Class Ed25519Secrets `{Ed25519} := {
  Ed25519SecretKey : Type;
  secret_to_base64 : Ed25519SecretKey → string;
  secret_from_base64 : string → result Ed25519SecretKey string;
  secret_public_base64 : Ed25519SecretKey → string;
  secret_sign : Ed25519SecretKey → string → Ed25519Signature
}.

(** The part of [trait CryptoStore] that keeps the cross-signing keys. *)
Class CrossSigningStore (S : Type) := {
  cs_cross_signing_keys : S → result (option string) StoreError;
  cs_save_cross_signing_keys : S → string → S * result unit StoreError
}.

Inductive CrossSigningError :=
| XEncode (source : string)
| XKey (source : string)
| XCanonical (source : CanonicalJsonError)
| XStore (e : StoreError).

Section CrossSigning.
Context `{CoreSerde} `{Ed25519Secrets} {S : Type} `{CrossSigningStore S}.

(** [secret] *)
Definition cross_signing_secret (b64 : string) : result Ed25519SecretKey CrossSigningError :=
  map_err XKey (secret_from_base64 b64).

(** [save] *)
Definition cross_signing_save (state : CrossSigningState) (store : S) : S * result unit CrossSigningError :=
  try? bytes := map_err XEncode (cross_signing_to_vec state) on store in
  let '(store, r) := cs_save_cross_signing_keys store bytes in
  try? _ := map_err XStore r on store in
  (store, Ok tt).

(** [load_or_create]; [fresh] are the keys it draws. *)
Definition cross_signing_load_or_create (store : S) (fresh : nat → Ed25519SecretKey) : S * result CrossSigningState CrossSigningError :=
  try? found := map_err XStore (cs_cross_signing_keys store) on store in
  match found ≫= cross_signing_from_slice with
  | Some state => (store, Ok state)
  | None =>
      let state := mkCrossSigning (secret_to_base64 (fresh 0%nat)) (secret_to_base64 (fresh 1%nat)) (secret_to_base64 (fresh 2%nat)) false false in
      let '(store, r) := cross_signing_save state store in
      try? _ := r on store in
      (store, Ok state)
  end.

(** [key_object] *)
Definition cross_signing_key_object (user_id : UserId) (usage : string) (key : Ed25519SecretKey) : Value :=
  let public := secret_public_base64 key in
  json_obj [("user_id", VString (UserId_str user_id)); ("usage", VArray [VString usage]);
            ("keys", json_obj [("ed25519:" +:+ public, VString public)])].

(** [sign_json(..)?] *)
Definition sign_value (value : Value) (user_id : UserId) (key_id : string) (key : Ed25519SecretKey) : result Value CrossSigningError :=
  let '(value, r) := sign_json value (UserId_str user_id) key_id (secret_sign key) in
  let? _ := map_err XCanonical r in Ok value.

(** [upload_body] *)
Definition cross_signing_upload_body (state : CrossSigningState) (user_id : UserId) : result Value CrossSigningError :=
  let? master := cross_signing_secret (xs_master state) in
  let master_id := "ed25519:" +:+ secret_public_base64 master in
  let master_obj := cross_signing_key_object user_id "master" master in
  let? self_key := cross_signing_secret (xs_self_signing state) in
  let self_obj := cross_signing_key_object user_id "self_signing" self_key in
  let? user_key := cross_signing_secret (xs_user_signing state) in
  let user_obj := cross_signing_key_object user_id "user_signing" user_key in
  let? self_obj := sign_value self_obj user_id master_id master in
  let? user_obj := sign_value user_obj user_id master_id master in
  Ok (json_obj [("master_key", master_obj); ("self_signing_key", self_obj); ("user_signing_key", user_obj)]).

(** [device_signature_body] *)
Definition cross_signing_device_body (state : CrossSigningState) (user_id : UserId) (device_id : DeviceId) (device_keys : Value) :
    result Value CrossSigningError :=
  let? ssk := cross_signing_secret (xs_self_signing state) in
  let key_id := "ed25519:" +:+ secret_public_base64 ssk in
  let? device_keys := sign_value device_keys user_id key_id ssk in
  Ok (json_obj [(UserId_str user_id, json_obj [(DeviceId_str device_id, device_keys)])]).

End CrossSigning.
