(* ===== verification/Core.v ===== *)
(** * The messenger engine (crates/mail4agent-messenger/src/core.rs): state and operations

    The single-writer kernel over the components of the messenger: its counters, the per-room send
    pipeline, account data with optimistic edits, and the keys of messages it cannot read yet. A
    method is a computation of type [M]: it may panic (where a timeline or Megolm may), and it
    leaves a state also with an error. [let _ = ..] is [ignore]. The store is the interfaces of its
    components with [EngineStore]; every random value a method draws comes from [Entropy], indexed
    by the number of draws so far ([co_draws]). An error keeps the type of the component it comes
    from; a text is represented by what it says. *)

From Stdlib Require Import SpecFloat.
From S2P Require Import Prelude Primitives Persist Ids OutgoingQueue Store Json CanonicalJson Events Relations Timeline RoomState DeviceTracker MegolmRatchet Megolm Olm OlmAccount AccountState OlmSessions GroupSessions Wire.

Local Open Scope Z_scope.

Definition SYNC_TIMEOUT_MS : Z := 30000.
Definition LOAD_OLDER_PAGE_SIZE : Z := 50.
Definition TYPING_TIMEOUT_MS : Z := 30000.
Definition UNKNOWN_SENDER_RETRY_CAPACITY : nat := 256.
Definition TYPING_DEBOUNCE_MS : Z := 4000.
Definition ROOM_KEY_SHARE_EVENT_TYPE : string := "m.room.encrypted".

(** ** Counters *)

(** [seed.saturating_add(1)] *)
Definition next_seed (seed : Z) : Z := Z.min (seed + 1) (u64_mod - 1).

Definition restore_counter (persisted_next : Z) (max_used_seed : option Z) : Z :=
  match max_used_seed with
  | Some seed => Z.max persisted_next (next_seed seed)
  | None => persisted_next
  end.

Record CoreConfig := mkConfig { cfg_user_id : UserId; cfg_device_id : DeviceId; cfg_server_name : string }.

(** ** Commands and events *)

Inductive MessageKind := KText | KNotice | KEmote.

Definition msgtype (k : MessageKind) : string :=
  match k with KText => "m.text" | KNotice => "m.notice" | KEmote => "m.emote" end.

Record OutgoingMessage := mkOutgoing {
  om_kind : MessageKind;
  om_body : string;
  om_reply_to : option EventId;
  om_edit_of : option EventId }.

Inductive CreateRoomKind :=
| CreateDm (peer : UserId)
| CreateGroup (name : string) (invite : list UserId) (members_can_invite : bool)
| CreateChannel (name : string) (topic : option string).

Inductive MessengerCommand :=
| SendMessage (room_id : RoomId) (message : OutgoingMessage) (txn_id : option TxnId)
| Forward (from_room : RoomId) (event_id : EventId) (to_room : RoomId) (txn_id : option TxnId)
| React (room_id : RoomId) (target : EventId) (key : string)
| Redact (room_id : RoomId) (target : EventId) (reason : option string)
| RetrySend (room_id : RoomId) (txn_id : TxnId)
| DoCreateRoom (kind : CreateRoomKind)
| DoJoinRoom (room_id : RoomId)
| DoLeaveRoom (room_id : RoomId)
| DoInvite (room_id : RoomId) (user_id : UserId)
| DoKick (room_id : RoomId) (user_id : UserId) (reason : option string)
| SetPowerLevel (room_id : RoomId) (user_id : UserId) (level : Z)
| SetEventsDefault (room_id : RoomId) (level : Z)
| SetTag (room_id : RoomId) (tag : string) (order : option spec_float)
| RemoveTag (room_id : RoomId) (tag : string)
| MarkRead (room_id : RoomId) (event_id : EventId)
| SetTyping (room_id : RoomId) (is_typing : bool)
| RetryDecryption (room_id : RoomId) (event_id : EventId)
| LoadOlder (room_id : RoomId)
| SetAccountData (event_type : string) (content : Value)
| SetRoomAccountData (room_id : RoomId) (event_type : string) (content : Value)
| SearchPublicRooms (term : string)
| SearchUsers (term : string).

Inductive MessengerEvent :=
| RoomsChanged
| TimelineChanged (room_id : RoomId)
| TypingChanged (room_id : RoomId)
| ReceiptsChanged (room_id : RoomId)
| UnreadChanged (room_id : RoomId)
| EDeviceKeyChanged (user_id : UserId) (device_id : DeviceId)
| PublicRoomsChanged
| UserSearchChanged.

(** ** Sends *)

Inductive SendPayload :=
| PMessage (message : OutgoingMessage)
| PEvent (event_type : string) (content : Value)
| PReaction (target : EventId) (key : string)
| PRedaction (target : EventId) (reason : option string).

Record RoomEventWire := mkRoomEventWire { rw_event_type : string; rw_content : Value; rw_relates_to : option RelatesTo }.

Definition message_wire_content (message : OutgoingMessage) : Value :=
  let ty := msgtype (om_kind message) in
  let new_content := json_obj [("msgtype", VString ty); ("body", VString (om_body message))] in
  match om_edit_of message with
  | Some edit_of =>
      json_set (json_set (json_set new_content "body" (VString ("* " +:+ om_body message))) "m.new_content" new_content)
        "m.relates_to" (json_obj [("rel_type", VString "m.replace"); ("event_id", VString (EventId_str edit_of))])
  | None =>
      match om_reply_to message with
      | Some reply_to =>
          json_set new_content "m.relates_to"
            (json_obj [("m.in_reply_to", json_obj [("event_id", VString (EventId_str reply_to))])])
      | None => new_content
      end
  end.

Definition message_relates_to (message : OutgoingMessage) : option RelatesTo :=
  match om_edit_of message with
  | Some edit_of => Some (Replace edit_of)
  | None => (λ e, RInReplyTo (mkInReplyTo e)) <$> om_reply_to message
  end.

Definition message_local_echo_content (message : OutgoingMessage) : ItemContent :=
  let body := mkTextLike (om_body message) None None in
  match om_kind message with KText => IText body | KNotice => INotice body | KEmote => IEmote body end.

Definition room_event (p : SendPayload) : option RoomEventWire :=
  match p with
  | PMessage message => Some (mkRoomEventWire "m.room.message" (message_wire_content message) (message_relates_to message))
  | PEvent event_type content => Some (mkRoomEventWire event_type content None)
  | PReaction _ _ | PRedaction _ _ => None
  end.

Definition is_room_event (p : SendPayload) : bool :=
  match p with PMessage _ | PEvent _ _ => true | _ => false end.

Inductive WireSend :=
| WEvent (event_type : string) (content : Value)
| WRedact (target : EventId) (reason : option string).

(** ** Account data *)

Record AccountDataGuard := mkGuard { ag_pending : Z; ag_server_value : option Value }.

(** ** Messages that cannot be read yet *)

Record PendingDecryptItem := mkPendingDecrypt {
  pd_session_id : string;
  pd_sender : UserId;
  pd_origin_server_ts : Z;
  pd_content : MegolmEncryptedContent }.

(** ** Forwarding *)

Definition forwardable_content (content : Value) (marker_key : string) (marker : Value) : Value :=
  match content with
  | VObject object =>
      let object := foldl (λ m k, map_remove k m) object
                      ["m.relates_to"; "m.mentions"; "m.new_content"; KEY_FORWARDED; KEY_FORWARDED_FROM] in
      VObject (map_insert marker_key marker object)
  | other => other
  end.

(** ** Invites *)

Definition stripped_placeholder_event_id : EventId := mkEventId "$stripped-preview".

Definition stripped_state_to_raw_event (stripped : StrippedStateEvent) : RawEvent :=
  mkRawEvent stripped_placeholder_event_id (ss_event_type stripped) (ss_sender stripped) 0 (Some (ss_state_key stripped))
    (ss_content stripped) Unsigned_default.

(** The part of the store's traits the engine itself calls. *)
Class EngineStore (S : Type) := {
  es_counters : S → result (option Counters) StoreError;
  es_save_counters : S → Counters → S * result unit StoreError;
  es_sync_token : S → result (option string) StoreError;
  es_save_sync_token : S → string → S * result unit StoreError;
  es_room_ids : S → result (list RoomId) StoreError;
  es_room_state : S → RoomId → result (option string) StoreError;
  es_save_room_state : S → RoomId → string → S * result unit StoreError;
  es_take_flush_batch : S → S * option FlushBatch;
  es_ack_flush : S → Z → S
}.

(** The keys of a gset in order, as a [BTreeSet] is iterated. *)
Definition sorted_users (s : gset UserId) : list UserId := (btree_entries UserId_str (gset_to_gmap tt s)).*1.

(** Why a command is refused. *)
Inductive Refusal :=
| UnknownRoom (room_id : RoomId)
| UnknownTarget (event_id : EventId) (from_room to_room : RoomId)
| CannotForward (event_id : EventId) (from_room : RoomId) (reason : ForwardRefusal).

Section Core.
Context `{HmacSha256} `{MegolmCrypto} `{Curve25519} `{!EqDecision Curve25519PublicKey} `{!Countable Curve25519PublicKey}
  `{Primitives} `{MegolmWire} `{OlmProst} `{Ed25519Keys} `{!EqDecision Ed25519PublicKey} `{!Ed25519Secrets}
  `{JsonText} `{EventSerde} `{StateSerde} `{!CoreSerde} `{!AccountSerde} `{!OlmSerde} `{!GroupSerde}
  `{!DeviceSerde (Curve25519PublicKey := Curve25519PublicKey)}.

(** Random values: [n] is the number of draws before. *)
Class Entropy := {
  draw_curve : nat → nat → Curve25519SecretKey;
  draw_session : nat → Ed25519Keypair * string;
  draw_secret : nat → nat → Ed25519SecretKey;
  draw_jitter : nat → spec_float
}.
Context `{!Entropy}.

Inductive MessengerError :=
| MStore (e : StoreError)
| MQueue (e : QueueStoreError)
| MTracker (e : TrackerError)
| MOlm (e : OlmError)
| MGroup (e : GroupError)
| MAccount (e : AccountError)
| MCrossSigning (e : CrossSigningError)
| MState (e : WireDecode)
| MWire (source : string)
| MDecodeRoomState (room_id : RoomId) (source : string)
| MEncodeRoomState (room_id : RoomId) (source : string)
| MDecrypt (e : GroupDecryptError)
| MEditNotOwned (event_id : EventId)
| MRefused (reason : Refusal).

(** What [ingest_error] says. *)
Inductive IngestError :=
| NotIngested (kind : option OutgoingRequestKind) (error : MessengerError)
| KeysUploadFailed (errcode : string).

Inductive SendPhase :=
| PhQueued
| PhAwaitingKeysQuery
| PhAwaitingKeysClaim (devices : list Device)
| PhAwaitingKeyShare (pending : gset RequestId)
| PhAwaitingSend
| PhFailed (errcode : string).

Record PendingSend := mkPendingSend {
  ps_room_id : RoomId;
  ps_payload : SendPayload;
  ps_phase : SendPhase;
  ps_wire : option WireSend }.

Context {S : Type} `{!StateStore S} `{FlushEpoch S} `{CryptoStore S} `{AccountStore S} `{OlmStore S} `{GroupStore S}
  `{CrossSigningStore S} `{EngineStore S}.

(** ** The kernel's state *)

Record MessengerCore := mkCore {
  co_config : CoreConfig;
  co_store : S;
  co_account : OlmAccountState;
  co_xsign : option CrossSigningState;
  co_xsign_inflight : bool;
  co_xsign_attempts : Z;
  co_outgoing : OutgoingQueue;
  co_counters : Counters;
  co_draws : nat;
  co_rooms : gmap RoomId RoomState;
  co_timelines : gmap RoomId Timeline;
  co_direct_account_data : option DirectContent;
  co_global_account_data : gmap string Value;
  co_room_account_data : gmap RoomId (gmap string Value);
  co_typing : gmap RoomId (list UserId);
  co_receipts : gmap RoomId ReceiptContent;
  co_public_rooms_result : list PublicRoomsResultEntry;
  co_latest_public_rooms_request : option RequestId;
  co_user_search_result : list UserDirectoryResultEntry;
  co_latest_user_search_request : option RequestId;
  co_account_data_guard : gmap AccountDataKey AccountDataGuard;
  co_account_data_write_keys : gmap RequestId AccountDataKey;
  co_pending_decrypt : gmap RoomId (gmap EventId PendingDecryptItem);
  co_key_requests_sent : gset (RoomId * string);
  co_history_claims : gmap RequestId (list Device);
  co_history_claim_tried : gset (UserId * DeviceId);
  co_withheld_sessions : gset (RoomId * string);
  co_key_requests_answered : gset (UserId * DeviceId * string);
  co_unknown_sender_retry : list ToDeviceEvent;
  co_typing_debounce : gmap RoomId Z;
  co_pending_sends : gmap RoomId (list TxnId);
  co_send_state : gmap TxnId PendingSend;
  co_send_request_owner : gmap RequestId TxnId;
  co_pending_create_room : gmap RequestId CreateRoomKind;
  co_pending_kinds : gmap RequestId OutgoingRequestKind;
  co_pending_room_messages : gmap RequestId RoomId;
  co_sync_request_id : option RequestId;
  co_sync_caught_up : bool;
  co_pending_flush_batches : list FlushBatch;
  co_events : list MessengerEvent;
  co_change_counter : Z;
  co_ingest_error : option IngestError }.

(** A core field by field, and the same with one field replaced. *)
Definition core_eta (c : MessengerCore) : MessengerCore :=
  mkCore (co_config c) (co_store c) (co_account c) (co_xsign c) (co_xsign_inflight c) (co_xsign_attempts c) (co_outgoing c) (co_counters c) (co_draws
    c) (co_rooms c) (co_timelines c) (co_direct_account_data c) (co_global_account_data c) (co_room_account_data c) (co_typing c) (co_receipts c)
    (co_public_rooms_result c) (co_latest_public_rooms_request c) (co_user_search_result c) (co_latest_user_search_request c) (co_account_data_guard
    c) (co_account_data_write_keys c) (co_pending_decrypt c) (co_key_requests_sent c) (co_history_claims c) (co_history_claim_tried c)
    (co_withheld_sessions c) (co_key_requests_answered c) (co_unknown_sender_retry c) (co_typing_debounce c) (co_pending_sends c) (co_send_state c)
    (co_send_request_owner c) (co_pending_create_room c) (co_pending_kinds c) (co_pending_room_messages c) (co_sync_request_id c) (co_sync_caught_up
    c) (co_pending_flush_batches c) (co_events c) (co_change_counter c) (co_ingest_error c).

Ltac with_field f c x :=
  let e := eval cbv beta delta [core_eta] in (core_eta c) in
  match eval pattern (f c) in e with ?g _ => let r := eval cbv beta in (g x) in exact r end.

Definition set_store (x : S) (c : MessengerCore) : MessengerCore := ltac:(with_field co_store c x).
Definition set_account (x : OlmAccountState) (c : MessengerCore) : MessengerCore := ltac:(with_field co_account c x).
Definition set_xsign (x : option CrossSigningState) (c : MessengerCore) : MessengerCore := ltac:(with_field co_xsign c x).
Definition set_xsign_inflight (x : bool) (c : MessengerCore) : MessengerCore := ltac:(with_field co_xsign_inflight c x).
Definition set_xsign_attempts (x : Z) (c : MessengerCore) : MessengerCore := ltac:(with_field co_xsign_attempts c x).
Definition set_outgoing (x : OutgoingQueue) (c : MessengerCore) : MessengerCore := ltac:(with_field co_outgoing c x).
Definition set_counters (x : Counters) (c : MessengerCore) : MessengerCore := ltac:(with_field co_counters c x).
Definition set_draws (x : nat) (c : MessengerCore) : MessengerCore := ltac:(with_field co_draws c x).
Definition set_rooms (x : gmap RoomId RoomState) (c : MessengerCore) : MessengerCore := ltac:(with_field co_rooms c x).
Definition set_timelines (x : gmap RoomId Timeline) (c : MessengerCore) : MessengerCore := ltac:(with_field co_timelines c x).
Definition set_direct_account_data (x : option DirectContent) (c : MessengerCore) : MessengerCore := ltac:(with_field co_direct_account_data c x).
Definition set_global_account_data (x : gmap string Value) (c : MessengerCore) : MessengerCore := ltac:(with_field co_global_account_data c x).
Definition set_room_account_data (x : gmap RoomId (gmap string Value)) (c : MessengerCore) : MessengerCore := ltac:(with_field co_room_account_data c x).
Definition set_typing (x : gmap RoomId (list UserId)) (c : MessengerCore) : MessengerCore := ltac:(with_field co_typing c x).
Definition set_receipts (x : gmap RoomId ReceiptContent) (c : MessengerCore) : MessengerCore := ltac:(with_field co_receipts c x).
Definition set_public_rooms_result (x : list PublicRoomsResultEntry) (c : MessengerCore) : MessengerCore := ltac:(with_field co_public_rooms_result c x).
Definition set_latest_public_rooms_request (x : option RequestId) (c : MessengerCore) : MessengerCore := ltac:(with_field co_latest_public_rooms_request c x).
Definition set_user_search_result (x : list UserDirectoryResultEntry) (c : MessengerCore) : MessengerCore := ltac:(with_field co_user_search_result c x).
Definition set_latest_user_search_request (x : option RequestId) (c : MessengerCore) : MessengerCore := ltac:(with_field co_latest_user_search_request c x).
Definition set_account_data_guard (x : gmap AccountDataKey AccountDataGuard) (c : MessengerCore) : MessengerCore := ltac:(with_field co_account_data_guard c x).
Definition set_account_data_write_keys (x : gmap RequestId AccountDataKey) (c : MessengerCore) : MessengerCore := ltac:(with_field co_account_data_write_keys c x).
Definition set_pending_decrypt (x : gmap RoomId (gmap EventId PendingDecryptItem)) (c : MessengerCore) : MessengerCore := ltac:(with_field co_pending_decrypt c x).
Definition set_key_requests_sent (x : gset (RoomId * string)) (c : MessengerCore) : MessengerCore := ltac:(with_field co_key_requests_sent c x).
Definition set_history_claims (x : gmap RequestId (list Device)) (c : MessengerCore) : MessengerCore := ltac:(with_field co_history_claims c x).
Definition set_history_claim_tried (x : gset (UserId * DeviceId)) (c : MessengerCore) : MessengerCore := ltac:(with_field co_history_claim_tried c x).
Definition set_withheld_sessions (x : gset (RoomId * string)) (c : MessengerCore) : MessengerCore := ltac:(with_field co_withheld_sessions c x).
Definition set_key_requests_answered (x : gset (UserId * DeviceId * string)) (c : MessengerCore) : MessengerCore := ltac:(with_field co_key_requests_answered c x).
Definition set_unknown_sender_retry (x : list ToDeviceEvent) (c : MessengerCore) : MessengerCore := ltac:(with_field co_unknown_sender_retry c x).
Definition set_typing_debounce (x : gmap RoomId Z) (c : MessengerCore) : MessengerCore := ltac:(with_field co_typing_debounce c x).
Definition set_pending_sends (x : gmap RoomId (list TxnId)) (c : MessengerCore) : MessengerCore := ltac:(with_field co_pending_sends c x).
Definition set_send_state (x : gmap TxnId PendingSend) (c : MessengerCore) : MessengerCore := ltac:(with_field co_send_state c x).
Definition set_send_request_owner (x : gmap RequestId TxnId) (c : MessengerCore) : MessengerCore := ltac:(with_field co_send_request_owner c x).
Definition set_pending_create_room (x : gmap RequestId CreateRoomKind) (c : MessengerCore) : MessengerCore := ltac:(with_field co_pending_create_room c x).
Definition set_pending_kinds (x : gmap RequestId OutgoingRequestKind) (c : MessengerCore) : MessengerCore := ltac:(with_field co_pending_kinds c x).
Definition set_pending_room_messages (x : gmap RequestId RoomId) (c : MessengerCore) : MessengerCore := ltac:(with_field co_pending_room_messages c x).
Definition set_sync_request_id (x : option RequestId) (c : MessengerCore) : MessengerCore := ltac:(with_field co_sync_request_id c x).
Definition set_sync_caught_up (x : bool) (c : MessengerCore) : MessengerCore := ltac:(with_field co_sync_caught_up c x).
Definition set_pending_flush_batches (x : list FlushBatch) (c : MessengerCore) : MessengerCore := ltac:(with_field co_pending_flush_batches c x).
Definition set_events (x : list MessengerEvent) (c : MessengerCore) : MessengerCore := ltac:(with_field co_events c x).
Definition set_change_counter (x : Z) (c : MessengerCore) : MessengerCore := ltac:(with_field co_change_counter c x).
Definition set_ingest_error (x : option IngestError) (c : MessengerCore) : MessengerCore := ltac:(with_field co_ingest_error c x).

(** ** The monad of its methods *)

(** [None] is a panic. *)
Definition M (A : Type) : Type := MessengerCore → option (MessengerCore * result A MessengerError).

#[export] Instance M_ret : MRet M := λ A a c, Some (c, Ok a).
#[export] Instance M_bind : MBind M := λ A B k m c,
  match m c with
  | None => None
  | Some (c, Err e) => Some (c, Err e)
  | Some (c, Ok a) => k a c
  end.

Definition throw {A} (e : MessengerError) : M A := λ c, Some (c, Err e).
Definition reads {A} (f : MessengerCore → A) : M A := λ c, Some (c, Ok (f c)).
Definition update (f : MessengerCore → MessengerCore) : M unit := λ c, Some (f c, Ok tt).

(** The result of a computation as a value; [let _ = ..] drops it. *)
Definition attempt {A} (m : M A) : M (result A MessengerError) := λ c,
  match m c with None => None | Some (c, r) => Some (c, Ok r) end.
Definition ignore {A} (m : M A) : M unit := attempt m ≫= λ _, mret tt.

Definition done : M unit := mret tt.
Definition lift {A} (r : result A MessengerError) : M A := λ c, Some (c, r).
Definition or_panic {A} (o : option A) : M A := λ c, a ← o; Some (c, Ok a).

Definition when (b : bool) (m : M unit) : M unit := if b then m else done.

Fixpoint for_each {A} (f : A → M unit) (l : list A) : M unit :=
  match l with [] => done | a :: l => _ ← f a; for_each f l end.

(** Calls on the store. *)
Definition store_reads {A E} (inj : E → MessengerError) (f : S → result A E) : M A :=
  s ← reads co_store; lift (map_err inj (f s)).
Definition store_does {A E} (inj : E → MessengerError) (f : S → S * result A E) : M A := λ c,
  let '(s, r) := f (co_store c) in Some (set_store s c, map_err inj r).
Definition store_may_panic {A E} (inj : E → MessengerError) (f : S → option (S * result A E)) : M A := λ c,
  '(s, r) ← f (co_store c); Some (set_store s c, map_err inj r).

(** The next draw. *)
Definition draw : M nat := n ← reads co_draws; _ ← update (set_draws (Datatypes.S n)); mret n.

(** [timelines.entry(room).or_default()] changed by [f], and [timelines.get_mut(room)]. *)
Definition on_timeline {A} (room_id : RoomId) (f : Timeline → option (Timeline * A)) : M A :=
  ts ← reads co_timelines;
  '(t, a) ← or_panic (f (default Timeline_new (ts !! room_id)));
  _ ← update (λ c, set_timelines (<[room_id := t]> (co_timelines c)) c); mret a.

Definition on_known_timeline (room_id : RoomId) (f : Timeline → option Timeline) : M unit :=
  ts ← reads co_timelines;
  match ts !! room_id with
  | Some t => t ← or_panic (f t); update (λ c, set_timelines (<[room_id := t]> (co_timelines c)) c)
  | None => done
  end.

Definition plain (f : Timeline → option Timeline) (t : Timeline) : option (Timeline * unit) := t ← f t; Some (t, tt).

(** ** Ids and requests *)

Definition next_request_id : M RequestId :=
  n ← reads co_counters;
  let seed := Store.next_request_id n in
  let n := mkCounters (next_seed seed) (Store.next_txn_id n) in
  _ ← update (set_counters n);
  _ ← store_does MStore (λ s, es_save_counters s n);
  mret (RequestId_next seed).

Definition next_txn_id : M TxnId :=
  n ← reads co_counters;
  let seed := Store.next_txn_id n in
  let n := mkCounters (Store.next_request_id n) (next_seed seed) in
  _ ← update (set_counters n);
  _ ← store_does MStore (λ s, es_save_counters s n);
  mret (TxnId_new seed).

Definition enqueue_request (request : OutgoingRequest) (l : Lane) : M unit := λ c,
  let '(q, s, r) := enqueue (co_outgoing c) (co_store c) request l in
  let c := set_store s (set_outgoing q c) in
  match r with
  | Err e => Some (c, Err (MQueue e))
  | Ok batch =>
      let c := match batch with
               | Some batch => set_pending_flush_batches (co_pending_flush_batches c ++ [batch]) c
               | None => c
               end in
      Some (set_pending_kinds (<[id request := kind request]> (co_pending_kinds c)) c, Ok tt)
  end.

Definition emit (event : MessengerEvent) : M unit :=
  update (λ c, set_events (co_events c ++ [event]) (set_change_counter ((co_change_counter c + 1) mod u64_mod) c)).

(** ** The send pipeline *)

Definition set_send_phase (txn_id : TxnId) (phase : SendPhase) : M unit :=
  update (λ c, set_send_state
    (alter (λ p, mkPendingSend (ps_room_id p) (ps_payload p) phase (ps_wire p)) txn_id (co_send_state c)) c).

(** [entry.wire = Some(wire)] *)
Definition set_send_wire (txn_id : TxnId) (wire : WireSend) : M unit :=
  update (λ c, set_send_state
    (alter (λ p, mkPendingSend (ps_room_id p) (ps_payload p) (ps_phase p) (Some wire)) txn_id (co_send_state c)) c).

Definition encrypted_room_member_ids (c : MessengerCore) (room_id : RoomId) : gset UserId :=
  let ids := match co_rooms c !! room_id with
             | Some state =>
                 dom (filter (λ kv : UserId * MemberState, ms_membership kv.2 = MJoin ∨ ms_membership kv.2 = MInvite) (members state))
             | None => ∅
             end in
  {[cfg_user_id (co_config c)]} ∪ ids.

(** The loop of [mark_outdated_or_untracked]: the outdated users, and those not tracked. *)
Fixpoint split_members (tracked : gmap UserId bool) (member_ids : list UserId) : list UserId * list UserId :=
  match member_ids with
  | [] => ([], [])
  | user_id :: member_ids =>
      let '(outdated, newly_tracked) := split_members tracked member_ids in
      match tracked !! user_id with
      | Some true => (user_id :: outdated, newly_tracked)
      | Some false => (outdated, newly_tracked)
      | None => (outdated, user_id :: newly_tracked)
      end
  end.

Definition mark_outdated_or_untracked (member_ids : gset UserId) : M (list UserId) :=
  tracked ← store_reads MStore cs_tracked_users;
  let '(outdated, newly_tracked) := split_members (list_to_map tracked) (sorted_users member_ids) in
  if decide (newly_tracked = []) then mret outdated
  else _ ← store_does MTracker (λ s, on_device_lists s newly_tracked []); mret (outdated ++ newly_tracked).

Definition devices_of (s : S) (user_ids : list UserId) : result (list Device) TrackerError :=
  let? lists := try_map (tracker_devices_for_user s) user_ids in Ok (concat lists).

Definition known_devices_for (member_ids : gset UserId) : M (list Device) :=
  store_reads MTracker (λ s, devices_of s (sorted_users member_ids)).

(** This device's own entry. *)
Definition is_this_device (c : MessengerCore) (device : Device) : bool :=
  bool_decide (sd_user_id device = cfg_user_id (co_config c)) && bool_decide (sd_device_id device = cfg_device_id (co_config c)).

Definition candidate_recipient_devices (c : MessengerCore) (member_ids : gset UserId) (known_devices : list Device) : list Device :=
  List.filter (λ device, negb (is_this_device c device))
    (List.filter (λ device : Device, bool_decide (sd_user_id device ∈ member_ids) && negb (sd_blocked device)) known_devices).

Definition reaction_content (target : EventId) (key : string) : Value :=
  json_obj [("m.relates_to", json_obj [("rel_type", VString "m.annotation"); ("event_id", VString (EventId_str target)); ("key", VString key)])].

Definition plaintext_wire (p : SendPayload) : option WireSend :=
  match p with
  | PMessage _ | PEvent _ _ => (λ w, WEvent (rw_event_type w) (rw_content w)) <$> room_event p
  | PReaction target key => Some (WEvent "m.reaction" (reaction_content target key))
  | PRedaction target reason => Some (WRedact target reason)
  end.

Definition build_plaintext_wire_body (txn_id : TxnId) : M unit :=
  sends ← reads co_send_state;
  match pending ← sends !! txn_id; plaintext_wire (ps_payload pending) with
  | Some wire => set_send_wire txn_id wire
  | None => done
  end.

(** The request of a computed wire body. *)
Definition wire_request (request_id : RequestId) (room_id : RoomId) (txn_id : TxnId) (wire : WireSend) : OutgoingRequest :=
  match wire with
  | WEvent event_type content => Requests.room_send request_id room_id event_type txn_id content
  | WRedact target reason =>
      let body := match reason with Some reason => json_obj [("reason", VString reason)] | None => json_obj [] end in
      Requests.room_redact request_id room_id target txn_id body
  end.

Definition own_request (request_id : RequestId) (txn_id : TxnId) : M unit :=
  update (λ c, set_send_request_owner (<[request_id := txn_id]> (co_send_request_owner c)) c).

Definition begin_awaiting_send (txn_id : TxnId) (room_id : RoomId) : M unit :=
  sends ← reads co_send_state;
  match sends !! txn_id ≫= ps_wire with
  | None => done
  | Some wire =>
      request_id ← next_request_id;
      _ ← own_request request_id txn_id;
      _ ← enqueue_request (wire_request request_id room_id txn_id wire) (Room room_id);
      set_send_phase txn_id PhAwaitingSend
  end.

(** [RoomEncryptedContent::Megolm] as a value. *)
Definition encrypted_megolm_value (content : MegolmEncryptedContent) : result Value string :=
  let? v := megolm_to_value content in
  Ok (match v with
      | VObject m => VObject (map_insert "algorithm" (VString MEGOLM_ALGORITHM) m)
      | other => other
      end).

Definition finish_encrypt_and_send (txn_id : TxnId) (room_id : RoomId) : M unit :=
  sends ← reads co_send_state;
  match pending ← sends !! txn_id; room_event (ps_payload pending) with
  | None => done
  | Some wire =>
      '(sender_curve, device_id) ← reads (λ c, (curve_to_base64 (ik_curve25519 (state_identity_keys (co_account c))), cfg_device_id (co_config c)));
      encrypted ← store_may_panic MGroup (λ s, encrypt_event s room_id sender_curve device_id (rw_event_type wire) (rw_content wire) (rw_relates_to wire));
      wire_content ← lift (map_err MWire (encrypted_megolm_value encrypted));
      set_send_wire txn_id (WEvent "m.room.encrypted" wire_content)
  end.

(** The devices without an Olm session, as pairs. *)
Definition missing_ids (devices : list Device) : M (gset (UserId * DeviceId)) :=
  missing ← store_reads MOlm (λ s, sessions_missing_for s devices);
  mret (list_to_set (device_pair <$> missing)).

Definition ready_devices (missing : gset (UserId * DeviceId)) (devices : list Device) : list Device :=
  List.filter (λ device, negb (bool_decide (device_pair device ∈ missing))) devices.

(** The loop over the chunks of recipients: the ids of the share requests. *)
Fixpoint share_chunks (txn_id : TxnId) (room_key : RoomKeyContent) (chunks : list (list Device)) (pending_ids : gset RequestId) : M (gset RequestId) :=
  match chunks with
  | [] => mret pending_ids
  | chunk :: chunks =>
      n ← draw;
      '(account, cfg) ← reads (λ c, (co_account c, co_config c));
      body ← store_does MGroup (λ s, build_room_key_send_to_device_body s account (cfg_user_id cfg) (cfg_device_id cfg) chunk room_key (draw_curve n));
      request_id ← next_request_id;
      share_txn ← next_txn_id;
      _ ← own_request request_id txn_id;
      _ ← enqueue_request (Requests.send_to_device request_id ROOM_KEY_SHARE_EVENT_TYPE share_txn body) ToDevice;
      share_chunks txn_id room_key chunks ({[request_id]} ∪ pending_ids)
  end.

Definition begin_share_or_encrypt (txn_id : TxnId) (room_id : RoomId) (now_ms : Z) : M unit :=
  enc ← reads (λ c, co_rooms c !! room_id ≫= encryption);
  match enc with
  | None => _ ← build_plaintext_wire_body txn_id; begin_awaiting_send txn_id room_id
  | Some enc =>
      members ← reads (λ c, encrypted_room_member_ids c room_id);
      known_devices ← known_devices_for members;
      n ← draw;
      '(account, cfg) ← reads (λ c, (co_account c, co_config c));
      upd ← store_does MGroup (λ s, ensure_outbound_session s room_id (cfg_user_id cfg) (cfg_device_id cfg) enc members known_devices
                                       now_ms (draw_session n).1 (draw_session n).2);
      let own_keys := state_identity_keys account in
      _ ← store_may_panic MGroup (λ s, adopt_own_outbound_session s room_id (cfg_user_id cfg) (ik_curve25519 own_keys) (ik_ed25519 own_keys) upd);
      let encrypt := _ ← finish_encrypt_and_send txn_id room_id; begin_awaiting_send txn_id room_id in
      match ou_room_key_content upd with
      | None => encrypt
      | Some room_key =>
          missing ← missing_ids (ou_new_recipients upd);
          pending_ids ← share_chunks txn_id room_key (chunk_recipients_for_send_to_device (ready_devices missing (ou_new_recipients upd))) ∅;
          if bool_decide (pending_ids = ∅) then encrypt else set_send_phase txn_id (PhAwaitingKeyShare pending_ids)
      end
  end.

Definition begin_keys_claim_or_share (txn_id : TxnId) (room_id : RoomId) (now_ms : Z) : M unit :=
  members ← reads (λ c, encrypted_room_member_ids c room_id);
  known_devices ← known_devices_for members;
  candidates ← reads (λ c, candidate_recipient_devices c members known_devices);
  missing ← store_reads MOlm (λ s, sessions_missing_for s candidates);
  if decide (missing = []) then begin_share_or_encrypt txn_id room_id now_ms
  else
    request_id ← next_request_id;
    match keys_claim_request missing with
    | Some body =>
        _ ← own_request request_id txn_id;
        _ ← enqueue_request (Requests.keys_claim request_id body) Other;
        set_send_phase txn_id (PhAwaitingKeysClaim missing)
    | None => begin_share_or_encrypt txn_id room_id now_ms
    end.

Definition begin_key_pipeline (txn_id : TxnId) (room_id : RoomId) (now_ms : Z) : M unit :=
  members ← reads (λ c, encrypted_room_member_ids c room_id);
  outdated ← mark_outdated_or_untracked members;
  if decide (outdated = []) then begin_keys_claim_or_share txn_id room_id now_ms
  else
    request_id ← next_request_id;
    body ← store_reads MTracker keys_query_request;
    match body with
    | Some body =>
        _ ← own_request request_id txn_id;
        _ ← enqueue_request (Requests.keys_query request_id body) Other;
        set_send_phase txn_id PhAwaitingKeysQuery
    | None => begin_keys_claim_or_share txn_id room_id now_ms
    end.

Definition start_send_pipeline (txn_id : TxnId) (now_ms : Z) : M unit :=
  '(pending, rooms) ← reads (λ c, (co_send_state c !! txn_id, co_rooms c));
  match pending with
  | None => done
  | Some pending =>
      let room_id := ps_room_id pending in
      if is_some (ps_wire pending) then begin_awaiting_send txn_id room_id
      else
        let encrypted_room := is_some (rooms !! room_id ≫= encryption) in
        if is_room_event (ps_payload pending) && encrypted_room then begin_key_pipeline txn_id room_id now_ms
        else _ ← build_plaintext_wire_body txn_id; begin_awaiting_send txn_id room_id
  end.

(** The last lines of [start_new_send] and [retry_send]: the send joins its room's queue, and is
    started when it is alone there. *)
Definition join_queue (room_id : RoomId) (txn_id : TxnId) (now_ms : Z) : M unit :=
  queue ← reads (λ c, default [] (co_pending_sends c !! room_id));
  _ ← update (λ c, set_pending_sends (<[room_id := queue ++ [txn_id]]> (co_pending_sends c)) c);
  when (bool_decide (queue = [])) (start_send_pipeline txn_id now_ms).

Definition stop_typing (room_id : RoomId) : M unit :=
  was_typing ← reads (λ c, is_some (co_typing_debounce c !! room_id));
  _ ← update (λ c, set_typing_debounce (delete room_id (co_typing_debounce c)) c);
  when was_typing
    (request_id ← attempt next_request_id;
     match request_id with
     | Ok request_id =>
         user_id ← reads (λ c, cfg_user_id (co_config c));
         ignore (enqueue_request (Requests.typing request_id room_id user_id false None) Other)
     | Err _ => done
     end).

(** The echo of a room event in its timeline. *)
Definition echo (room_id : RoomId) (payload : SendPayload) (wire : RoomEventWire) (txn_id : TxnId) (now_ms : Z) : M unit :=
  let content := match payload with
                 | PMessage message => message_local_echo_content message
                 | _ => interpret_content (rw_event_type wire) None (rw_content wire)
                 end in
  user_id ← reads (λ c, cfg_user_id (co_config c));
  _ ← on_timeline room_id (plain (λ t,
    t ← push_local_echo t txn_id user_id now_ms (rw_event_type wire) content (rw_content wire);
    mark_send_state t txn_id Sending));
  emit (TimelineChanged room_id).

Definition start_new_send (room_id : RoomId) (payload : SendPayload) (caller_txn_id : option TxnId) (now_ms : Z) : M unit :=
  txn_id ← match caller_txn_id with Some txn_id => mret txn_id | None => next_txn_id end;
  _ ← match room_event payload with
      | Some wire => _ ← stop_typing room_id; echo room_id payload wire txn_id now_ms
      | None => done
      end;
  _ ← update (λ c, set_send_state (<[txn_id := mkPendingSend room_id payload PhQueued None]> (co_send_state c)) c);
  join_queue room_id txn_id now_ms.

Definition retry_send (room_id : RoomId) (txn_id : TxnId) (now_ms : Z) : M unit :=
  pending ← reads (λ c, co_send_state c !! txn_id);
  match pending with
  | None => done
  | Some pending =>
      let failed := match ps_phase pending with PhFailed _ => true | _ => false end in
      if negb (bool_decide (ps_room_id pending = room_id)) || negb failed then done
      else
        _ ← set_send_phase txn_id PhQueued;
        join_queue room_id txn_id now_ms
  end.

(** ** Answers to the pipeline's requests *)

Definition finish_active_send (room_id : RoomId) (txn_id : TxnId) (now_ms : Z) : M unit :=
  _ ← update (λ c, set_pending_sends (alter (λ queue,
        if bool_decide (head queue = Some txn_id) then tail queue else filter (λ i, i ≠ txn_id) queue) room_id (co_pending_sends c)) c);
  next ← reads (λ c, queue ← co_pending_sends c !! room_id; head queue);
  match next with
  | Some next_txn => ignore (start_send_pipeline next_txn now_ms)
  | None => done
  end.

Definition complete_send_success (txn_id : TxnId) (response : HttpResponseDescriptor) (now_ms : Z) : M unit :=
  pending ← reads (λ c, co_send_state c !! txn_id);
  match pending with
  | None => done
  | Some pending =>
      let room_id := ps_room_id pending in
      _ ← match (if is_room_event (ps_payload pending) then send_response_from_slice (resp_body response) else None) with
          | Some event_id =>
              _ ← on_known_timeline room_id (λ t, set_echo_event_id t txn_id event_id);
              emit (TimelineChanged room_id)
          | None => done
          end;
      _ ← update (λ c, set_send_state (delete txn_id (co_send_state c)) c);
      finish_active_send room_id txn_id now_ms
  end.

Definition fail_send (txn_id : TxnId) (errcode : string) (now_ms : Z) : M unit :=
  pending ← reads (λ c, co_send_state c !! txn_id);
  match pending with
  | None => done
  | Some pending =>
      let room_id := ps_room_id pending in
      _ ← when (is_room_event (ps_payload pending))
            (_ ← on_known_timeline room_id (λ t, mark_send_state t txn_id (SendFailed errcode));
             emit (TimelineChanged room_id));
      _ ← set_send_phase txn_id (PhFailed errcode);
      finish_active_send room_id txn_id now_ms
  end.

(** What remains of the shares a send waits for. *)
Definition share_remaining (txn_id : TxnId) (request_id : RequestId) : M (option (gset RequestId)) :=
  pending ← reads (λ c, co_send_state c !! txn_id);
  match ps_phase <$> pending with
  | Some (PhAwaitingKeyShare ids) =>
      _ ← set_send_phase txn_id (PhAwaitingKeyShare (ids ∖ {[request_id]}));
      mret (Some (ids ∖ {[request_id]}))
  | _ => mret None
  end.

Definition advance_send_on_success (txn_id : TxnId) (request_id : RequestId) (k : option OutgoingRequestKind)
    (response : HttpResponseDescriptor) (now_ms : Z) : M unit :=
  pending ← reads (λ c, co_send_state c !! txn_id);
  match k, pending with
  | Some KeysQuery, Some pending => ignore (begin_keys_claim_or_share txn_id (ps_room_id pending) now_ms)
  | Some KeysClaim, Some pending =>
      _ ← match ps_phase pending with
          | PhAwaitingKeysClaim devices =>
              n ← draw;
              account ← reads co_account;
              ignore (store_does MOlm (λ s, on_keys_claim_response s account devices (resp_body response)
                                              (λ i, (draw_curve n (2 * i), draw_curve n (2 * i + 1)))))
          | _ => done
          end;
      ignore (begin_share_or_encrypt txn_id (ps_room_id pending) now_ms)
  | Some SendToDevice, Some pending =>
      remaining ← share_remaining txn_id request_id;
      when (bool_decide (remaining = Some ∅))
        (_ ← ignore (finish_encrypt_and_send txn_id (ps_room_id pending));
         ignore (begin_awaiting_send txn_id (ps_room_id pending)))
  | Some (RoomSend | RoomRedact), _ => complete_send_success txn_id response now_ms
  | _, _ => done
  end.

(** ** Account data *)

Definition read_global_account_data (c : MessengerCore) (event_type : string) : option Value := co_global_account_data c !! event_type.
Definition read_room_account_data (c : MessengerCore) (room_id : RoomId) (event_type : string) : option Value :=
  co_room_account_data c !! room_id ≫= λ by_type, by_type !! event_type.

Definition cached_account_data (c : MessengerCore) (key : AccountDataKey) : option Value :=
  match key.1 with
  | Some room_id => read_room_account_data c room_id key.2
  | None => read_global_account_data c key.2
  end.

(** The state change of [store_account_data_cache]. *)
Definition cache_account_data (key : AccountDataKey) (value : option Value) (c : MessengerCore) : MessengerCore :=
  let c := if bool_decide (key = (None, "m.direct")) then set_direct_account_data (value ≫= direct_from_value) c else c in
  match key.1, value with
  | None, Some v => set_global_account_data (<[key.2 := v]> (co_global_account_data c)) c
  | None, None => set_global_account_data (delete key.2 (co_global_account_data c)) c
  | Some room_id, Some v =>
      set_room_account_data (<[room_id := <[key.2 := v]> (default ∅ (co_room_account_data c !! room_id))]> (co_room_account_data c)) c
  | Some room_id, None => set_room_account_data (alter (delete key.2) room_id (co_room_account_data c)) c
  end.

Definition store_account_data_cache (key : AccountDataKey) (value : option Value) : M unit := update (cache_account_data key value).

(** [guard.pending += 1], of a new guard with [server_value] when there is none; the count is a
    [u32] that wraps in a release build. *)
Definition guard_write (key : AccountDataKey) (server_value : option Value) (guards : gmap AccountDataKey AccountDataGuard) :
    gmap AccountDataKey AccountDataGuard :=
  let g := default (mkGuard 0 server_value) (guards !! key) in
  <[key := mkGuard ((ag_pending g + 1) mod u32_mod) (ag_server_value g)]> guards.

Definition settle_account_data_write (key : AccountDataKey) (succeeded : bool) : M unit :=
  g ← reads (λ c, co_account_data_guard c !! key);
  match g with
  | None => done
  | Some g =>
      let n := Z.max 0 (ag_pending g - 1) in
      if 0 <? n then update (λ c, set_account_data_guard (<[key := mkGuard n (ag_server_value g)]> (co_account_data_guard c)) c)
      else
        _ ← update (λ c, set_account_data_guard (delete key (co_account_data_guard c)) c);
        when (negb succeeded) (_ ← store_account_data_cache key (ag_server_value g); emit RoomsChanged)
  end.

Definition write_account_data (room_id : option RoomId) (event_type : string) (value : Value) : M unit :=
  request_id ← next_request_id;
  user_id ← reads (λ c, cfg_user_id (co_config c));
  let request := match room_id with
                 | Some room_id => Requests.room_account_data request_id user_id room_id event_type value
                 | None => Requests.account_data request_id user_id event_type value
                 end in
  let key : AccountDataKey := (room_id, event_type) in
  known ← reads (λ c, cached_account_data c key);
  _ ← update (λ c, set_account_data_guard (guard_write key known (co_account_data_guard c)) c);
  _ ← store_account_data_cache key (Some value);
  queued ← attempt (enqueue_request request AccountData);
  match queued with
  | Ok _ => update (λ c, set_account_data_write_keys (<[request_id := key]> (co_account_data_write_keys c)) c)
  | Err e => _ ← settle_account_data_write key false; throw e
  end.

Definition apply_synced_account_data (room_id : option RoomId) (event_type : string) (content : Value) : M unit :=
  let key : AccountDataKey := (room_id, event_type) in
  g ← reads (λ c, co_account_data_guard c !! key);
  match g with
  | Some g => update (λ c, set_account_data_guard (<[key := mkGuard (ag_pending g) (Some content)]> (co_account_data_guard c)) c)
  | None => store_account_data_cache key (Some content)
  end.

(** The loop of [rebuild_account_data_guard]; the requests are in id order. *)
Definition rebuild_write (c : MessengerCore) (record : PendingRequest) : MessengerCore :=
  match account_data_key_from_path (path (request record)), req_body (request record) with
  | Some key, Some body =>
      let c := set_account_data_guard (guard_write key None (co_account_data_guard c)) c in
      let c := cache_account_data key (Some body) c in
      set_account_data_write_keys (<[id (request record) := key]> (co_account_data_write_keys c)) c
  | _, _ => c
  end.

Definition is_account_data_request (record : PendingRequest) : bool :=
  bool_decide (kind (request record) = KAccountData) || bool_decide (kind (request record) = RoomAccountData).

Definition rebuild_account_data_guard (pending_requests : list PendingRequest) (c : MessengerCore) : MessengerCore :=
  foldl rebuild_write c (merge_sort by_id (List.filter is_account_data_request pending_requests)).

Definition merge_direct_account_data (room_id : RoomId) (peer : UserId) : M unit :=
  direct ← reads (λ c, default ∅ (co_direct_account_data c) : gmap UserId (list RoomId));
  let rooms_for_peer := default [] (direct !! peer) in
  let rooms_for_peer := if bool_decide (room_id ∈ rooms_for_peer) then rooms_for_peer else rooms_for_peer ++ [room_id] in
  value ← lift (map_err MWire (direct_to_value (<[peer := rooms_for_peer]> direct)));
  write_account_data None "m.direct" value.

Definition current_tag_content (c : MessengerCore) (room_id : RoomId) : TagContent :=
  default (mkTagContent ∅) (read_room_account_data c room_id "m.tag" ≫= tags_from_value).

Definition enqueue_tag_update (room_id : RoomId) (content : TagContent) : M unit :=
  value ← lift (map_err MWire (tags_to_value content));
  write_account_data (Some room_id) "m.tag" value.

(** ** Readers *)

Definition room_kind (c : MessengerCore) (room_id : RoomId) : option RoomKind :=
  (λ state, derive_room_kind state room_id (co_direct_account_data c)) <$> co_rooms c !! room_id.

Definition typing_users (c : MessengerCore) (room_id : RoomId) : list UserId := default [] (co_typing c !! room_id).

Definition key_request_count (c : MessengerCore) : nat := size (co_key_requests_sent c).

Definition has_tracked_device (c : MessengerCore) (user_id : UserId) : bool :=
  match tracker_devices_for_user (co_store c) user_id with Ok (_ :: _) => true | _ => false end.

Definition send_failure_reason (c : MessengerCore) (txn_id : TxnId) : option string :=
  match ps_phase <$> co_send_state c !! txn_id with
  | Some (PhFailed errcode) => Some errcode
  | _ => None
  end.

(** ** Forwarding *)

Definition forward_room_name (c : MessengerCore) (room_id : RoomId) : string :=
  match co_rooms c !! room_id ≫= name with
  | Some name => name
  | None =>
      match room_kind c room_id with
      | Some Dm => "Direct"
      | Some Channel => "Channel"
      | Some Group | None => "Group"
      end
  end.

Definition forward_marker (c : MessengerCore) (from_room : RoomId) : string * Value :=
  match room_kind c from_room with
  | Some Channel =>
      (KEY_FORWARDED_FROM, json_obj [("room_id", VString (RoomId_str from_room)); ("room_name", VString (forward_room_name c from_room))])
  | _ => (KEY_FORWARDED, VBool true)
  end.

Definition build_forward_payload (from_room : RoomId) (event_id : EventId) (to_room : RoomId) : M SendPayload :=
  c ← reads (λ c, c);
  if is_none (co_rooms c !! to_room) then throw (MRefused (UnknownTarget event_id from_room to_room))
  else
    source ← match co_timelines c !! from_room with
             | Some timeline => or_panic (forward_source timeline event_id)
             | None => mret (Err FMissing)
             end;
    source ← lift (map_err (λ reason, MRefused (CannotForward event_id from_room reason)) source);
    let '(marker_key, marker) := forward_marker c from_room in
    mret (PEvent (fs_event_type source) (forwardable_content (fs_content source) marker_key marker)).
End Core.
