(* ===== verification/CoreSync.v ===== *)
(** * The messenger engine: syncs, commands and answers (crates/mail4agent-messenger/src/core.rs)

    What the engine does with a sync answer, the keys it asks for and hands on, every command of
    [dispatch], the routing of answers in [on_response], and [open]. *)

From Stdlib Require Import SpecFloat.
From S2P Require Import Prelude Primitives Persist Ids OutgoingQueue Store Json CanonicalJson Events Relations Timeline RoomState DeviceTracker MegolmRatchet Megolm Olm OlmAccount AccountState OlmSessions GroupSessions Wire Core.

Local Open Scope Z_scope.

(** The entries of a map of rooms or of events, in key order. *)
Definition room_entries {A} (m : gmap RoomId A) : list (RoomId * A) := btree_entries RoomId_str m.
Definition event_entries {A} (m : gmap EventId A) : list (EventId * A) := btree_entries EventId_str m.

Definition utd_reason_name (r : UtdReason) : string :=
  match r with
  | UtdMissingSession => "MissingSession"
  | WithheldBlacklisted => "WithheldBlacklisted"
  | WithheldUnverified => "WithheldUnverified"
  | WithheldUnauthorised => "WithheldUnauthorised"
  | SenderIdentityNotVerified => "SenderIdentityNotVerified"
  | UtdUnknown => "Unknown"
  end.

Section Sync.
Context `{HmacSha256} `{MegolmCrypto} `{Curve25519} `{!EqDecision Curve25519PublicKey} `{!Countable Curve25519PublicKey}
  `{Primitives} `{MegolmWire} `{OlmProst} `{Ed25519Keys} `{!EqDecision Ed25519PublicKey} `{!Ed25519Secrets}
  `{JsonText} `{EventSerde} `{StateSerde} `{!CoreSerde} `{!AccountSerde} `{!OlmSerde} `{!GroupSerde}
  `{!DeviceSerde (Curve25519PublicKey := Curve25519PublicKey)} `{!Entropy}
  {S : Type} `{!StateStore S} `{FlushEpoch S} `{CryptoStore S} `{AccountStore S} `{OlmStore S} `{GroupStore S}
  `{CrossSigningStore S} `{EngineStore S}.

#[local] Abbreviation MessengerCore := (Core.MessengerCore (S := S)).
#[local] Abbreviation M := (Core.M (S := S)).

(** ** Room keys *)

Definition room_admins (c : MessengerCore) (room_id : RoomId) : gset UserId :=
  match co_rooms c !! room_id with
  | None => ∅
  | Some state => filter (λ u, 100 <= power_level_for state u) (encrypted_room_member_ids c room_id)
  end.

Definition history_forwarding_allowed (c : MessengerCore) (room_id : RoomId) : bool :=
  match co_rooms c !! room_id ≫= history_visibility with
  | Some (HJoined | HInvited) => false
  | _ => true
  end.

(** The loop at the head of [enqueue_olm_to_devices]: each device once, without blocked ones and
    this one. *)
Fixpoint unique_devices (c : MessengerCore) (devices unique : list Device) : list Device :=
  match devices with
  | [] => unique
  | device :: devices =>
      if sd_blocked device || is_this_device c device || existsb (λ have, bool_decide (device_pair have = device_pair device)) unique
      then unique_devices c devices unique
      else unique_devices c devices (unique ++ [device])
  end.

(** Its loop over the chunks. *)
Fixpoint send_chunks (inner_type : string) (content : Value) (chunks : list (list Device)) (sent : nat) : M nat :=
  match chunks with
  | [] => mret sent
  | chunk :: chunks =>
      n ← draw;
      '(account, cfg) ← reads (λ c, (co_account c, co_config c));
      body ← store_does MGroup (λ s, build_encrypted_to_device_body s account (cfg_user_id cfg) (cfg_device_id cfg) chunk inner_type
                                       content (draw_curve n));
      request_id ← next_request_id;
      share_txn ← next_txn_id;
      _ ← enqueue_request (Requests.send_to_device request_id ROOM_KEY_SHARE_EVENT_TYPE share_txn body) ToDevice;
      send_chunks inner_type content chunks (sent + length chunk)
  end.

Definition enqueue_olm_to_devices (devices : list Device) (inner_type : string) (content : Value) : M nat :=
  unique ← reads (λ c, unique_devices c devices []);
  missing ← missing_ids unique;
  send_chunks inner_type content (chunk_recipients_for_send_to_device (ready_devices missing unique)) 0.

(** The text of the [sender_key] a request names, from the content or from the sender's devices. *)
Definition requested_sender_key (content : MegolmEncryptedContent) (devices : list Device) : option string :=
  match mg_sender_key content with
  | Some sender_key => Some sender_key
  | None =>
      let by_id := device_id ← mg_device_id content; List.find (λ d : Device, bool_decide (sd_device_id d = device_id)) devices in
      let found := match by_id with Some d => Some d | None => List.find (λ d : Device, negb (sd_blocked d)) devices end in
      (λ d : Device, curve_to_base64 (sd_curve25519 d)) <$> found
  end.

(** Whom to ask: the sender's devices, this account's, and the room's admins' when history is shared. *)
Definition key_request_targets (c : MessengerCore) (s : S) (room_id : RoomId) (sender : UserId) : result (list Device) TrackerError :=
  let own := cfg_user_id (co_config c) in
  let admins := if history_forwarding_allowed c room_id
                then List.filter (λ a, negb (bool_decide (a = sender)) && negb (bool_decide (a = own))) (sorted_users (room_admins c room_id))
                else [] in
  devices_of s ([sender; own] ++ admins).

Definition request_missing_room_key (room_id : RoomId) (sender : UserId) (content : MegolmEncryptedContent) : M unit :=
  let key := (room_id, mg_session_id content) in
  c ← reads (λ c, c);
  if bool_decide (key ∈ co_key_requests_sent c) || bool_decide (key ∈ co_withheld_sessions c) then done
  else
    devices ← match mg_sender_key content with
              | Some _ => mret []
              | None => store_reads MTracker (λ s, tracker_devices_for_user s sender)
              end;
    match requested_sender_key content devices with
    | None => done
    | Some sender_key =>
        targets ← store_reads MTracker (λ s, key_request_targets c s room_id sender);
        if decide (targets = []) then done
        else
          missing ← store_reads MOlm (λ s, sessions_missing_for s targets);
          let missing := List.filter (λ device, negb (sd_blocked device) && negb (is_this_device c device) &&
                                       negb (bool_decide (device_pair device ∈ co_history_claim_tried c))) missing in
          claimed ←
            (if decide (missing = []) then mret false
             else
               claim_id ← next_request_id;
               match keys_claim_request missing with
               | None => mret false
               | Some body =>
                   _ ← update (λ c, set_history_claim_tried (list_to_set (device_pair <$> missing) ∪ co_history_claim_tried c) c);
                   _ ← update (λ c, set_history_claims (<[claim_id := missing]> (co_history_claims c)) c);
                   _ ← enqueue_request (Requests.keys_claim claim_id body) Other;
                   mret true
               end);
          if (claimed : bool) then done
          else
            request_id ← next_txn_id;
            let body := mkKeyRequest KeyRequest (Some (mkRequestBody MEGOLM_ALGORITHM room_id (mg_session_id content) sender_key))
                          (TxnId_str request_id) (cfg_device_id (co_config c)) in
            value ← lift (map_err MWire (key_request_to_value body));
            sent ← enqueue_olm_to_devices targets "m.room_key_request" value;
            when (0 <? sent)%nat (update (λ c, set_key_requests_sent ({[key]} ∪ co_key_requests_sent c) c))
    end.

(** Which device a forwarded key is bound to: the loop over the members. *)
Fixpoint find_forward_device (s : S) (decrypted : DecryptedToDevice) (sender_key : string) (forwarder_is_us : bool) (members : list UserId) :
    result (option (UserId * Curve25519PublicKey * Ed25519PublicKey)) TrackerError :=
  match members with
  | [] => Ok None
  | user_id :: members =>
      let? devices := tracker_devices_for_user s user_id in
      match List.find (λ device : Device, negb (sd_blocked device) && bool_decide (curve_to_base64 (sd_curve25519 device) = sender_key) &&
                         (bool_decide (dtd_sender decrypted = sd_user_id device) || forwarder_is_us)) devices with
      | Some device => Ok (Some (sd_user_id device, sd_curve25519 device, sd_ed25519 device))
      | None => find_forward_device s decrypted sender_key forwarder_is_us members
      end
  end.

Definition forward_binding (decrypted : DecryptedToDevice) (content : ForwardedRoomKeyContent) :
    M (option (UserId * Curve25519PublicKey * Ed25519PublicKey)) :=
  c ← reads (λ c, c);
  let members := encrypted_room_member_ids c (fk_room_id content) in
  let forwarder_is_us :=
    bool_decide (dtd_sender decrypted = cfg_user_id (co_config c)) ||
    (history_forwarding_allowed c (fk_room_id content) && bool_decide (dtd_sender decrypted ∈ room_admins c (fk_room_id content))) in
  if negb forwarder_is_us && negb (bool_decide (dtd_sender decrypted ∈ members)) then mret None
  else
    found ← store_reads MTracker (λ s, find_forward_device s decrypted (fk_sender_key content) forwarder_is_us (sorted_users members));
    match found with
    | Some binding => mret (Some binding)
    | None =>
        if bool_decide (curve_to_base64 (dtd_sender_device_curve25519 decrypted) = fk_sender_key content)
        then mret (Some (dtd_sender decrypted, dtd_sender_device_curve25519 decrypted, dtd_sender_ed25519 decrypted))
        else mret None
    end.

Definition requester_device (s : S) (decrypted : DecryptedToDevice) (requesting_device_id : DeviceId) : result (option Device) TrackerError :=
  let? devices := tracker_devices_for_user s (dtd_sender decrypted) in
  let unblocked (device : Device) := if sd_blocked device then None else Some device in
  match List.find (λ d : Device, bool_decide (sd_device_id d = requesting_device_id)) devices with
  | Some device => Ok (unblocked device)
  | None =>
      match find_sender_device devices (curve_to_base64 (dtd_sender_device_curve25519 decrypted)) with
      | Some device => Ok (unblocked device)
      | None => Ok None
      end
  end.

(** The key a request is answered with, and its event type. *)
Definition requested_key (body : RoomKeyRequestBody) : M (option (string * Value)) :=
  our_curve ← reads (λ c, curve_to_base64 (ik_curve25519 (state_identity_keys (co_account c))));
  forwarded ← store_reads MGroup (λ s, forwarded_room_key_content s (rb_room_id body) (rb_session_id body) our_curve);
  match forwarded with
  | Some forwarded =>
      v ← lift (map_err MWire (forwarded_key_to_value forwarded));
      mret (Some ("m.forwarded_room_key", v))
  | None =>
      room_key ← store_reads MGroup (λ s, outbound_room_key_content s (rb_room_id body) (rb_session_id body));
      match room_key with
      | Some room_key => v ← lift (map_err MWire (room_key_to_value room_key)); mret (Some ("m.room_key", v))
      | None => mret None
      end
  end.

(** Whether a request may be answered at all. *)
Definition may_answer (c : MessengerCore) (decrypted : DecryptedToDevice) (content : RoomKeyRequestContent) (body : RoomKeyRequestBody) : bool :=
  let own := bool_decide (dtd_sender decrypted = cfg_user_id (co_config c)) in
  bool_decide (rb_algorithm body = MEGOLM_ALGORITHM) &&
  bool_decide (dtd_sender decrypted ∈ encrypted_room_member_ids c (rb_room_id body)) &&
  (own || history_forwarding_allowed c (rb_room_id body)) &&
  negb (own && bool_decide (kq_requesting_device_id content = cfg_device_id (co_config c))).

Definition answer_room_key_request (decrypted : DecryptedToDevice) (content : RoomKeyRequestContent) : M unit :=
  let dedup := (dtd_sender decrypted, kq_requesting_device_id content, kq_request_id content) in
  match kq_action content, kq_body content with
  | RequestCancellation, _ => update (λ c, set_key_requests_answered (co_key_requests_answered c ∖ {[dedup]}) c)
  | KeyRequest, Some body =>
      c ← reads (λ c, c);
      if negb (may_answer c decrypted content body) || bool_decide (dedup ∈ co_key_requests_answered c) then done
      else
        target ← store_reads MTracker (λ s, requester_device s decrypted (kq_requesting_device_id content));
        match target with
        | None => done
        | Some target =>
            found ← requested_key body;
            match found with
            | None => done
            | Some (inner_type, payload) =>
                sent ← enqueue_olm_to_devices [target] inner_type payload;
                when (0 <? sent)%nat (update (λ c, set_key_requests_answered ({[dedup]} ∪ co_key_requests_answered c) c))
            end
        end
  | _, _ => done
  end.

(** ** Reading what could not be read *)

Definition apply_decrypted_plaintext (room_id : RoomId) (event_id : EventId) (sender : UserId) (origin_server_ts : Z)
    (plaintext : RoomEventPlaintext) : M unit :=
  on_known_timeline room_id (λ t,
    match contributed (RelatesTo_from_content (rp_content plaintext)) with
    | Some relation =>
        fst <$> apply_decrypted_relation t event_id sender origin_server_ts relation (get (rp_content plaintext) "m.new_content")
    | None => set_decrypted_event t event_id (rp_event_type plaintext) (rp_content plaintext)
    end).

Definition decrypt_room_event (room_id : RoomId) (event_id : EventId) (origin_server_ts : Z) (sender : UserId)
    (content : MegolmEncryptedContent) : M (result RoomEventPlaintext GroupDecryptError) := λ c,
  '(s, r) ← decrypt_event (co_store c) room_id event_id origin_server_ts sender content;
  Some (set_store s c, Ok r).

(** [pending_decrypt.get_mut(room)], without the event. *)
Definition forget_pending (room_id : RoomId) (event_id : EventId) : M unit :=
  update (λ c, set_pending_decrypt (alter (delete event_id) room_id (co_pending_decrypt c)) c).

Definition retry_decrypt_one (room_id : RoomId) (event_id : EventId) : M bool :=
  item ← reads (λ c, by_event ← co_pending_decrypt c !! room_id; by_event !! event_id);
  match item with
  | None => mret false
  | Some item =>
      r ← decrypt_room_event room_id event_id (pd_origin_server_ts item) (pd_sender item) (pd_content item);
      match r with
      | Ok plaintext =>
          _ ← apply_decrypted_plaintext room_id event_id (pd_sender item) (pd_origin_server_ts item) plaintext;
          _ ← forget_pending room_id event_id;
          mret true
      | Err (MissingSession _ _) =>
          _ ← ignore (request_missing_room_key room_id (pd_sender item) (pd_content item));
          mret false
      | Err _ => mret false
      end
  end.

(** Retries each, and says whether one succeeded. *)
Fixpoint retry_all (room_id : RoomId) (event_ids : list EventId) (changed : bool) : M bool :=
  match event_ids with
  | [] => mret changed
  | event_id :: event_ids => now ← retry_decrypt_one room_id event_id; retry_all room_id event_ids (now || changed)
  end.

Definition retry_pending_for_session (room_id : RoomId) (session_id : string) : M unit :=
  by_event ← reads (λ c, default ∅ (co_pending_decrypt c !! room_id));
  let candidates := (List.filter (λ kv, bool_decide (pd_session_id kv.2 = session_id)) (event_entries by_event)).*1 in
  changed ← retry_all room_id candidates false;
  when changed (emit (TimelineChanged room_id)).

(** Every event that waits, room by room. *)
Definition waiting_events (c : MessengerCore) : list (RoomId * EventId) :=
  concat ((λ '(room_id, by_event), pair room_id <$> (event_entries by_event).*1) <$> room_entries (co_pending_decrypt c)).

Definition retry_missing_room_keys : M unit :=
  work ← reads waiting_events;
  for_each (λ '(room_id, event_id), ignore (retry_decrypt_one room_id event_id)) work.

Definition sealed_row (item : TimelineItem) : option (EventId * Z * UserId * MegolmEncryptedContent) :=
  event_id ← ti_event_id item;
  match ti_content item with
  | IEncrypted session_id ciphertext =>
      Some (event_id, ti_origin_server_ts item, ti_sender item, mkMegolm ciphertext session_id None None None)
  | _ => None
  end.

Definition decrypt_row (room_id : RoomId) (row : EventId * Z * UserId * MegolmEncryptedContent) : M unit :=
  let '(event_id, origin_server_ts, sender, content) := row in
  r ← decrypt_room_event room_id event_id origin_server_ts sender content;
  match r with
  | Ok plaintext => apply_decrypted_plaintext room_id event_id sender origin_server_ts plaintext
  | Err (MissingSession _ _) => ignore (request_missing_room_key room_id sender content)
  | Err _ => done
  end.

Definition decrypt_loaded_timeline : M unit :=
  pending ← reads waiting_events;
  _ ← for_each (λ '(room_id, event_id), _ ← retry_decrypt_one room_id event_id; done) pending;
  rooms ← reads (λ c, (room_entries (co_timelines c)).*1);
  for_each (λ room_id,
    rows ← reads (λ c, match co_timelines c !! room_id with Some t => omap sealed_row (items t) | None => [] end);
    for_each (decrypt_row room_id) rows) rooms.

(** A row that could not be decrypted, and what is kept for a later attempt. *)
Definition keep_undecryptable (room_id : RoomId) (event : RawEvent) (content : MegolmEncryptedContent) (e : GroupDecryptError) : M unit :=
  _ ← match e with
      | MissingSession _ _ => ignore (request_missing_room_key room_id (re_sender event) content)
      | _ => done
      end;
  _ ← on_known_timeline room_id (λ t, set_decrypted t (re_event_id event) (IUndecryptable (utd_reason_name (utd_reason e))));
  update (λ c, set_pending_decrypt
    (<[room_id := <[re_event_id event := mkPendingDecrypt (mg_session_id content) (re_sender event) (re_origin_server_ts event) content]>
         (default ∅ (co_pending_decrypt c !! room_id))]> (co_pending_decrypt c)) c).

Definition decrypt_new_timeline_event (room_id : RoomId) (event : RawEvent) : M unit :=
  if negb (bool_decide (re_event_type event = "m.room.encrypted")) || is_some (re_state_key event) ||
     is_some (un_redacted_because (re_unsigned event)) then done
  else
    match room_encrypted_from_value (re_content event) with
    | Some (EncMegolm content) =>
        r ← decrypt_room_event room_id (re_event_id event) (re_origin_server_ts event) (re_sender event) content;
        match r with
        | Ok plaintext =>
            _ ← apply_decrypted_plaintext room_id (re_event_id event) (re_sender event) (re_origin_server_ts event) plaintext;
            forget_pending room_id (re_event_id event)
        | Err e => keep_undecryptable room_id event content e
        end
    | _ => done
    end.

Definition decrypt_new_timeline_events (room_id : RoomId) (events : list RawEvent) : M unit :=
  for_each (decrypt_new_timeline_event room_id) events.

(** ** To-device events *)

Definition queue_unknown_sender_retry (event : ToDeviceEvent) : M unit :=
  update (λ c, let l := co_unknown_sender_retry c ++ [event] in
               set_unknown_sender_retry (drop (length l - UNKNOWN_SENDER_RETRY_CAPACITY) l) c).

(** The sessions newly received. *)
Definition route_decrypted_to_device (decrypted : DecryptedToDevice) : M (list (RoomId * string)) :=
  let ty := dtd_event_type decrypted in
  if decide (ty = "m.room_key") then
    match room_key_from_value (dtd_content decrypted) with
    | Ok content =>
        if bool_decide (rk_algorithm content = MEGOLM_ALGORITHM) then
          _ ← store_may_panic MGroup (λ s, receive_room_key s (dtd_sender decrypted) (dtd_sender_device_curve25519 decrypted)
                                             (dtd_sender_ed25519 decrypted) content);
          mret [(rk_room_id content, rk_session_id content)]
        else mret []
    | Err _ => mret []
    end
  else if decide (ty = "m.forwarded_room_key") then
    match forwarded_key_from_value (dtd_content decrypted) with
    | Some content =>
        binding ← forward_binding decrypted content;
        match binding with
        | Some (user_id, curve, ed) =>
            stored ← store_may_panic MGroup (λ s, receive_forwarded_room_key s user_id curve ed content);
            mret (if (stored : bool) then [(fk_room_id content, fk_session_id content)] else [])
        | None => mret []
        end
    | None => mret []
    end
  else if decide (ty = "m.room_key_request") then
    _ ← match key_request_from_value (dtd_content decrypted) with
        | Some content => answer_room_key_request decrypted content
        | None => done
        end;
    mret []
  else if decide (ty = "m.room_key.withheld") then
    _ ← match withheld_from_value (dtd_content decrypted) with
        | Some (mkWithheld _ (Some room_id) (Some session_id) _ _ _) =>
            update (λ c, set_withheld_sessions ({[(room_id, session_id)]} ∪ co_withheld_sessions c) c)
        | _ => done
        end;
    mret []
  else mret [].

Definition decrypt_to_device_event (sender : UserId) (content : OlmEncryptedContent) : M (result DecryptedToDevice OlmDecryptError) :=
  n ← draw;
  c ← reads (λ c, c);
  let '(s, account, r) := decrypt_to_device (co_store c) (co_account c) (cfg_user_id (co_config c)) sender content (draw_curve n 0) in
  _ ← update (λ c, set_account account (set_store s c));
  mret r.

Definition process_to_device_event (event : ToDeviceEvent) : M (list (RoomId * string)) :=
  if negb (bool_decide (td_event_type event = "m.room.encrypted")) then mret []
  else
    match room_encrypted_from_value (td_content event) with
    | Some (EncOlm content) =>
        r ← decrypt_to_device_event (td_sender event) content;
        match r with
        | Ok decrypted => route_decrypted_to_device decrypted
        | Err (UnknownSenderDevice _ _) => _ ← queue_unknown_sender_retry event; mret []
        | Err _ => mret []
        end
    | _ => mret []
    end.

Fixpoint process_to_device_events (events : list ToDeviceEvent) (received : list (RoomId * string)) : M (list (RoomId * string)) :=
  match events with
  | [] => mret received
  | event :: events => new ← process_to_device_event event; process_to_device_events events (received ++ new)
  end.

Definition retry_received (received : list (RoomId * string)) : M unit :=
  for_each (λ '(room_id, session_id), retry_pending_for_session room_id session_id) received.

Definition retry_unknown_sender_queue : M unit :=
  pending ← reads co_unknown_sender_retry;
  _ ← update (set_unknown_sender_retry []);
  received ← process_to_device_events pending [];
  retry_received received.

(** ** Syncs *)

Definition outdated_tracked_users (s : S) : result (gset UserId) StoreError :=
  let? tracked := cs_tracked_users s in
  Ok (list_to_set (omap (λ ub : UserId * bool, if ub.2 then Some ub.1 else None) tracked)).

Definition enqueue_keys_query : M unit :=
  request_id ← next_request_id;
  body ← store_reads MTracker keys_query_request;
  match body with
  | Some body => enqueue_request (Requests.keys_query request_id body) Other
  | None => done
  end.

(** The state the cross-signing step works on, loaded once. *)
Definition cross_signing_state : M CrossSigningState :=
  xsign ← reads co_xsign;
  match xsign with
  | Some state => mret state
  | None =>
      n ← draw;
      state ← store_does MCrossSigning (λ s, cross_signing_load_or_create s (draw_secret n));
      _ ← update (set_xsign (Some state));
      mret state
  end.

Definition maybe_enqueue_cross_signing : M unit :=
  c ← reads (λ c, c);
  if co_xsign_inflight c || (4 <=? co_xsign_attempts c) then done
  else
    state ← cross_signing_state;
    let user_id := cfg_user_id (co_config c) in
    let device_id := cfg_device_id (co_config c) in
    request ←
      (if negb (xs_uploaded state) then
         request_id ← next_request_id;
         body ← lift (map_err MCrossSigning (cross_signing_upload_body state user_id));
         mret (Some (Requests.signing_keys_upload request_id body))
       else if negb (xs_device_signed state) then
         device_keys ← reads (λ c, device_keys_json (co_account c) user_id device_id) ≫= (λ r, lift (map_err MAccount r));
         request_id ← next_request_id;
         body ← lift (map_err MCrossSigning (cross_signing_device_body state user_id device_id device_keys));
         mret (Some (Requests.signatures_upload request_id body))
       else mret None);
    match request with
    | None => done
    | Some request =>
        _ ← update (λ c, set_xsign_attempts (co_xsign_attempts c + 1) (set_xsign_inflight true c));
        enqueue_request request Other
    end.

(** Who an event of an encrypted room shows joining, without this account. *)
Definition joined_member (own : UserId) (event : RawEvent) : option UserId :=
  if negb (bool_decide (re_event_type event = "m.room.member")) then None
  else if negb (bool_decide (get (re_content event) "membership" ≫= as_str = Some "join")) then None
  else
    state_key ← re_state_key event;
    user_id ← ok (UserId_parse state_key);
    if bool_decide (user_id = own) then None else Some user_id.

Definition track_joined_members (room_id : RoomId) (events : list RawEvent) : M unit :=
  c ← reads (λ c, c);
  if is_none (co_rooms c !! room_id ≫= encryption) then done
  else
    let joined := omap (joined_member (cfg_user_id (co_config c))) events in
    if decide (joined = []) then done else store_does MTracker (λ s, on_device_lists s joined []).

(** [rooms.entry(room).or_default().apply_state_event(event)?] *)
Definition apply_room_event (room_id : RoomId) (event : RawEvent) : M unit := λ c,
  let '(state, r) := apply_state_event (default RoomState_new (co_rooms c !! room_id)) event in
  Some (set_rooms (<[room_id := state]> (co_rooms c)) c, map_err MState r).

Definition persist_room_state (room_id : RoomId) : M unit :=
  state ← reads (λ c, co_rooms c !! room_id);
  match state with
  | None => done
  | Some state =>
      bytes ← lift (map_err (MEncodeRoomState room_id) (room_state_to_vec state));
      store_does MStore (λ s, es_save_room_state s room_id bytes)
  end.

Definition find_basic (event_type : string) (events : list BasicEvent) : option Value :=
  be_content <$> List.find (λ e, bool_decide (be_event_type e = event_type)) events.

(** The timeline part of a joined or a left room. *)
Definition ingest_timeline (room_id : RoomId) (section : TimelineSection) : M unit :=
  if decide (tls_events section = []) then done
  else
    _ ← on_timeline room_id (plain (λ t, apply_timeline_batch t (tls_events section) (tls_limited section) (tls_prev_batch section)));
    _ ← decrypt_new_timeline_events room_id (tls_events section);
    emit (TimelineChanged room_id).

Definition apply_account_data (room_id : option RoomId) (events : list BasicEvent) : M unit :=
  for_each (λ e, apply_synced_account_data room_id (be_event_type e) (be_content e)) events.

Definition ingest_joined_room (room_id : RoomId) (joined : JoinedRoom) : M unit :=
  let events := jd_state joined ++ tls_events (jd_timeline joined) in
  _ ← for_each (apply_room_event room_id) events;
  _ ← track_joined_members room_id events;
  before ← reads (λ c, unread_count <$> co_rooms c !! room_id);
  _ ← update (λ c, set_rooms (<[room_id := apply_summary (default RoomState_new (co_rooms c !! room_id)) (jd_summary joined)
                                 (jd_unread_notifications joined)]> (co_rooms c)) c);
  after ← reads (λ c, unread_count <$> co_rooms c !! room_id);
  _ ← when (negb (bool_decide (before = after))) (emit (UnreadChanged room_id));
  _ ← apply_account_data (Some room_id) (jd_account_data joined);
  _ ← match find_basic "m.typing" (jd_ephemeral joined) ≫= typing_from_value with
      | Some t => _ ← update (λ c, set_typing (<[room_id := ty_user_ids t]> (co_typing c)) c); emit (TypingChanged room_id)
      | None => done
      end;
  _ ← match find_basic "m.receipt" (jd_ephemeral joined) ≫= receipts_from_value with
      | Some r => _ ← update (λ c, set_receipts (<[room_id := r]> (co_receipts c)) c); emit (ReceiptsChanged room_id)
      | None => done
      end;
  _ ← ingest_timeline room_id (jd_timeline joined);
  persist_room_state room_id.

Definition ingest_invited_room (room_id : RoomId) (invited : InvitedRoom) : M unit :=
  _ ← for_each (λ stripped, apply_room_event room_id (stripped_state_to_raw_event stripped)) (iv_invite_state invited);
  persist_room_state room_id.

Definition ingest_left_room (room_id : RoomId) (gone : LeftRoom) : M unit :=
  _ ← for_each (apply_room_event room_id) (lf_state gone ++ tls_events (lf_timeline gone));
  _ ← apply_account_data (Some room_id) (lf_account_data gone);
  _ ← ingest_timeline room_id (lf_timeline gone);
  persist_room_state room_id.

Definition ingest_room_messages_response (room_id : RoomId) (body : string) : M unit :=
  '(chunk, end_token) ← lift (map_err MWire (messages_from_slice body));
  let events := rev chunk in
  _ ← on_timeline room_id (plain (λ t, prepend_back_page t events end_token));
  _ ← decrypt_new_timeline_events room_id events;
  _ ← emit (TimelineChanged room_id);
  persist_room_state room_id.

(** Step 3: one-time keys, and this device's keys with them. *)
Definition ingest_key_counts (response : SyncResponse) : M unit :=
  n ← draw;
  fallback ← draw;
  c ← reads (λ c, c);
  let published := default 0 (sy_one_time_keys_count response !! SIGNED_CURVE25519) in
  let '(account, s, r) := on_sync_counts (co_account c) (co_store c) published (sy_unused_fallback_key_types response)
                            (draw_curve n) (draw_curve fallback 0) in
  _ ← update (λ c, set_account account (set_store s c));
  _ ← lift (map_err MAccount r);
  request_id ← next_request_id;
  body ← reads (λ c, keys_upload_request (co_account c) (cfg_user_id (co_config c)) (cfg_device_id (co_config c))) ≫= (λ r, lift (map_err MAccount r));
  match body with
  | Some body => enqueue_request (Requests.keys_upload request_id body) Other
  | None => done
  end.

Definition ingest_sync (response : SyncResponse) : M unit :=
  received ← process_to_device_events (sy_to_device response) [];
  _ ← store_does MTracker (λ s, on_device_lists s (sy_changed response) (sy_left response));
  _ ← ingest_key_counts response;
  _ ← maybe_enqueue_cross_signing;
  outdated_before_rooms ← store_reads MStore outdated_tracked_users;
  _ ← when (negb (bool_decide (outdated_before_rooms = ∅))) enqueue_keys_query;
  let rooms_touched := negb (bool_decide (sy_join response = []) && bool_decide (sy_invite response = []) && bool_decide (sy_leave response = [])) in
  _ ← for_each (λ '(room_id, joined), ingest_joined_room room_id joined) (sy_join response);
  _ ← for_each (λ '(room_id, invited), ingest_invited_room room_id invited) (sy_invite response);
  _ ← for_each (λ '(room_id, gone), ingest_left_room room_id gone) (sy_leave response);
  _ ← when rooms_touched (emit RoomsChanged);
  outdated ← store_reads MStore outdated_tracked_users;
  _ ← when (negb (bool_decide (outdated ⊆ outdated_before_rooms))) enqueue_keys_query;
  _ ← apply_account_data None (sy_account_data response);
  _ ← retry_received received;
  store_does MStore (λ s, es_save_sync_token s (sy_next_batch response)).

(** ** Answers *)

Definition on_create_room_response (k : CreateRoomKind) (response : HttpResponseDescriptor) : M unit :=
  match k with
  | CreateDm peer =>
      room_id ← lift (map_err MWire (create_room_from_slice (resp_body response)));
      merge_direct_account_data room_id peer
  | _ => done
  end.

(** The save of the cross-signing state after [f]. *)
Definition update_cross_signing (f : CrossSigningState → CrossSigningState) : M unit :=
  xsign ← reads co_xsign;
  match xsign with
  | None => done
  | Some state =>
      _ ← update (set_xsign (Some (f state)));
      store_does MCrossSigning (cross_signing_save (f state))
  end.

Definition signatures_accepted (body : string) : bool :=
  match (v ← value_from_slice body; failures ← get v "failures"; as_object failures) with
  | Some failures => bool_decide (failures = [])
  | None => true
  end.

(** What a device whose keys changed leads to. *)
Definition on_key_change (change : DeviceKeyChanged) : M unit :=
  room_ids ← reads (λ c, (room_entries (co_rooms c)).*1);
  _ ← ignore (store_does MGroup (λ s, forget_shared_device s room_ids (kc_user_id change) (kc_device_id change) 0));
  emit (EDeviceKeyChanged (kc_user_id change) (kc_device_id change)).

(** [self.account.on_keys_upload_response(&mut self.store)?] *)
Definition keys_uploaded : M unit :=
  c ← reads (λ c, c);
  let '(account, s, r) := on_keys_upload_response (co_account c) (co_store c) in
  _ ← update (λ c, set_account account (set_store s c));
  lift (map_err MAccount r).

Definition handle_terminal_success (request_id : RequestId) (k : option OutgoingRequestKind) (room_messages_room : option RoomId)
    (create_room_kind : option CreateRoomKind) (response : HttpResponseDescriptor) : M unit :=
  c ← reads (λ c, c);
  match k with
  | Some KSync => parsed ← lift (map_err MWire (sync_from_slice (resp_body response))); ingest_sync parsed
  | Some KeysUpload => keys_uploaded
  | Some KeysClaim =>
      match co_history_claims c !! request_id with
      | Some devices =>
          _ ← update (λ c, set_history_claims (delete request_id (co_history_claims c)) c);
          n ← draw;
          account ← reads co_account;
          _ ← ignore (store_does MOlm (λ s, on_keys_claim_response s account devices (resp_body response)
                                              (λ i, (draw_curve n (2 * i), draw_curve n (2 * i + 1)))));
          retry_missing_room_keys
      | None => done
      end
  | Some SigningKeysUpload =>
      _ ← update (set_xsign_inflight false);
      _ ← update_cross_signing (λ x, mkCrossSigning (xs_master x) (xs_self_signing x) (xs_user_signing x) true (xs_device_signed x));
      maybe_enqueue_cross_signing
  | Some SignaturesUpload =>
      _ ← update (set_xsign_inflight false);
      when (signatures_accepted (resp_body response))
        (update_cross_signing (λ x, mkCrossSigning (xs_master x) (xs_self_signing x) (xs_user_signing x) (xs_uploaded x) true))
  | Some KeysQuery =>
      outcome ← store_does MTracker (λ s, on_keys_query_response s (resp_body response));
      _ ← for_each on_key_change (key_changes outcome);
      retry_unknown_sender_queue
  | Some RoomMessages =>
      match room_messages_room with
      | Some room_id => ingest_room_messages_response room_id (resp_body response)
      | None => done
      end
  | Some CreateRoom =>
      match create_room_kind with
      | Some k => on_create_room_response k response
      | None => done
      end
  | Some PublicRooms =>
      if bool_decide (co_latest_public_rooms_request c = Some request_id) then
        found ← lift (map_err MWire (public_rooms_from_slice (resp_body response)));
        _ ← update (set_public_rooms_result found);
        emit PublicRoomsChanged
      else done
  | Some UserDirectorySearch =>
      if bool_decide (co_latest_user_search_request c = Some request_id) then
        found ← lift (map_err MWire (user_directory_from_slice (resp_body response)));
        _ ← update (set_user_search_result found);
        emit UserSearchChanged
      else done
  | _ => done
  end.

(** What the engine keeps of a request it no longer waits for. *)
Definition forget_request (request_id : RequestId) (k : option OutgoingRequestKind) (succeeded : bool) : M unit :=
  _ ← update (λ c, set_pending_kinds (delete request_id (co_pending_kinds c)) c);
  _ ← when (bool_decide (k = Some KSync))
        (_ ← update (set_sync_request_id None); when succeeded (update (set_sync_caught_up true)));
  _ ← update (λ c, set_pending_room_messages (delete request_id (co_pending_room_messages c)) c);
  _ ← update (λ c, set_pending_create_room (delete request_id (co_pending_create_room c)) c);
  _ ← update (λ c, set_send_request_owner (delete request_id (co_send_request_owner c)) c);
  key ← reads (λ c, co_account_data_write_keys c !! request_id);
  match key with
  | Some key =>
      _ ← update (λ c, set_account_data_write_keys (delete request_id (co_account_data_write_keys c)) c);
      settle_account_data_write key succeeded
  | None => done
  end.

(** [outgoing.on_response(..)]: the answer of the queue, its error included. *)
Definition queue_response (request_id : RequestId) (response : HttpResponseDescriptor) (now_ms : Z) :
    M (result (option ResponseOutcome) QueueStoreError) :=
  n ← draw;
  c ← reads (λ c, c);
  let '(q, s, r) := on_response (co_outgoing c) (co_store c) request_id response now_ms (draw_jitter n) in
  _ ← update (λ c, set_store s (set_outgoing q c));
  mret r.

(** The effects of an accepted or a refused request. *)
Definition finish_request (request_id : RequestId) (k : option OutgoingRequestKind) (room : option RoomId) (create : option CreateRoomKind)
    (owner : option TxnId) (terminal : HttpResponseDescriptor + string) (now_ms : Z) : M unit :=
  let succeeded := match terminal with inl _ => true | inr _ => false end in
  _ ← forget_request request_id k succeeded;
  match terminal with
  | inl response =>
      r ← attempt (handle_terminal_success request_id k room create response);
      _ ← match r with Err e => update (set_ingest_error (Some (NotIngested k e))) | Ok _ => done end;
      match owner with
      | Some txn_id => advance_send_on_success txn_id request_id k response now_ms
      | None => done
      end
  | inr errcode =>
      _ ← when (bool_decide (k = Some SigningKeysUpload) || bool_decide (k = Some SignaturesUpload)) (update (set_xsign_inflight false));
      _ ← match owner with Some txn_id => fail_send txn_id errcode now_ms | None => done end;
      when (bool_decide (k = Some KeysUpload)) (update (set_ingest_error (Some (KeysUploadFailed errcode))))
  end.

Definition drain_events : M (list MessengerEvent) :=
  l ← reads co_events;
  _ ← update (set_events []);
  mret l.

Definition core_on_response (request_id : RequestId) (response : HttpResponseDescriptor) (now_ms : Z) : M (list MessengerEvent) :=
  c ← reads (λ c, c);
  let k := co_pending_kinds c !! request_id in
  let room := co_pending_room_messages c !! request_id in
  let create := co_pending_create_room c !! request_id in
  let owner := co_send_request_owner c !! request_id in
  outcome ← queue_response request_id response now_ms;
  _ ← match outcome with
      | Ok (Some (Done response)) => finish_request request_id k room create owner (inl response) now_ms
      | Ok (Some (Failed errcode _)) => finish_request request_id k room create owner (inr errcode) now_ms
      | _ => done
      end;
  drain_events.

Definition core_on_transport_error (request_id : RequestId) (now_ms : Z) : M unit :=
  n ← draw;
  update (λ c, set_outgoing (on_transport_error (co_outgoing c) request_id now_ms (draw_jitter n)).1 c).

(** ** Ticks *)

Definition ensure_sync_enqueued : M unit :=
  c ← reads (λ c, c);
  if is_some (co_sync_request_id c) then done
  else
    request_id ← attempt next_request_id;
    match request_id with
    | Err _ => done
    | Ok request_id =>
        since ← reads (λ c, match es_sync_token (co_store c) with Ok t => t | Err _ => None end);
        let timeout_ms := if is_some since && co_sync_caught_up c then SYNC_TIMEOUT_MS else 0 in
        r ← attempt (enqueue_request (Requests.sync request_id since (Some timeout_ms)) Sync);
        when (is_ok r) (update (set_sync_request_id (Some request_id)))
    end.

Definition releasable_requests (now_ms : Z) : M (list OutgoingRequest) :=
  _ ← ensure_sync_enqueued;
  c ← reads (λ c, c);
  let '(q, out) := releasable (co_outgoing c) (co_store c) now_ms in
  _ ← update (set_outgoing q);
  mret out.

Definition core_take_flush_batch : M (option FlushBatch) :=
  c ← reads (λ c, c);
  match co_pending_flush_batches c with
  | batch :: rest => _ ← update (set_pending_flush_batches rest); mret (Some batch)
  | [] =>
      let '(s, batch) := es_take_flush_batch (co_store c) in
      _ ← update (set_store s);
      mret batch
  end.

Definition core_ack_flush (i : Z) : M unit := update (λ c, set_store (es_ack_flush (co_store c) i) c).

Definition take_ingest_error : M (option IngestError) :=
  e ← reads co_ingest_error;
  _ ← update (set_ingest_error None);
  mret e.

Definition republish_device_keys : M unit := update (λ c, set_account (forget_published_device_keys (co_account c)) c).

Definition pull_latest_page (room_id : RoomId) : M unit :=
  request_id ← next_request_id;
  _ ← enqueue_request (Requests.room_messages_latest request_id room_id 20) (Room room_id);
  update (λ c, set_pending_room_messages (<[request_id := room_id]> (co_pending_room_messages c)) c).

(** ** Commands *)

(** A request that needs nothing but a fresh id. *)
Definition simple_request (mk : RequestId → OutgoingRequest) : M unit :=
  request_id ← next_request_id;
  enqueue_request (mk request_id) Other.

(** The edit's target is a row this account sent. *)
Definition owns_edit_target (c : MessengerCore) (room_id : RoomId) (edit_of : EventId) : M bool :=
  match co_timelines c !! room_id with
  | Some timeline =>
      item ← or_panic (item_by_event_id timeline edit_of);
      mret (match item with Some item => bool_decide (ti_sender item = cfg_user_id (co_config c)) | None => false end)
  | None => mret false
  end.

Definition create_room_body (k : CreateRoomKind) : Value :=
  match k with
  | CreateDm peer => json_obj [("is_direct", VBool true); ("invite", VArray [VString (UserId_str peer)])]
  | CreateGroup name invite members_can_invite =>
      json_obj [("visibility", VString "private"); ("is_direct", VBool false); ("name", VString name);
                ("invite", VArray ((λ u, VString (UserId_str u)) <$> invite)); ("members_can_invite", VBool members_can_invite)]
  | CreateChannel name topic =>
      let value := json_obj [("visibility", VString "public"); ("is_direct", VBool false); ("name", VString name)] in
      match topic with Some topic => json_set value "topic" (VString topic) | None => value end
  end.

Definition dispatch_create_room (k : CreateRoomKind) : M unit :=
  request_id ← next_request_id;
  _ ← update (λ c, set_pending_create_room (<[request_id := k]> (co_pending_create_room c)) c);
  enqueue_request (Requests.create_room request_id (create_room_body k)) Other.

(** The other side of an invitation to a direct conversation. *)
Definition dm_peer (c : MessengerCore) (room_id : RoomId) : option UserId :=
  room ← co_rooms c !! room_id;
  let own := cfg_user_id (co_config c) in
  if negb (default false (ms_is_direct <$> members room !! own)) then None
  else List.find (λ u, negb (bool_decide (u = own))) (btree_entries UserId_str (members room)).*1.

(** New power levels for a known room. *)
Definition set_power_levels_request (room_id : RoomId) (f : RoomPowerLevelsContent → RoomPowerLevelsContent) : M unit :=
  room ← reads (λ c, co_rooms c !! room_id);
  match room with
  | None => throw (MRefused (UnknownRoom room_id))
  | Some room =>
      body ← lift (map_err MWire (power_levels_to_value (f (power_levels room))));
      simple_request (λ i, Requests.set_state i room_id "m.room.power_levels" EmptyString body)
  end.

Definition with_user_level (user_id : UserId) (level : Z) (p : RoomPowerLevelsContent) : RoomPowerLevelsContent :=
  mkPowerLevels (pl_ban p) (pl_events p) (pl_events_default p) (pl_invite p) (pl_kick p) (pl_redact p) (pl_state_default p)
    (<[user_id := level]> (pl_users p)) (pl_users_default p) (pl_notifications_room p).

Definition with_events_default (level : Z) (p : RoomPowerLevelsContent) : RoomPowerLevelsContent :=
  mkPowerLevels (pl_ban p) (pl_events p) level (pl_invite p) (pl_kick p) (pl_redact p) (pl_state_default p)
    (pl_users p) (pl_users_default p) (pl_notifications_room p).

Definition send_typing (room_id : RoomId) (is_typing : bool) (now_ms : Z) : M unit :=
  last ← reads (λ c, co_typing_debounce c !! room_id);
  let debounced := match last with
                   | Some last_sent_ms => Z.max i64_min (Z.min i64_max (now_ms - last_sent_ms)) <? TYPING_DEBOUNCE_MS
                   | None => false
                   end in
  if is_typing && debounced then done
  else
    _ ← update (λ c, set_typing_debounce
          (if is_typing then <[room_id := now_ms]> (co_typing_debounce c) else delete room_id (co_typing_debounce c)) c);
    user_id ← reads (λ c, cfg_user_id (co_config c));
    simple_request (λ i, Requests.typing i room_id user_id is_typing (if is_typing then Some TYPING_TIMEOUT_MS else None)).

(** Where paging back starts. *)
Definition older_from (c : MessengerCore) (room_id : RoomId) : option string :=
  let from_timeline :=
    t ← co_timelines c !! room_id;
    match older_token t with Some token => Some token | None => gap t ≫= gap_prev_batch end in
  match from_timeline with
  | Some from => Some from
  | None => if is_some (co_rooms c !! room_id) then match es_sync_token (co_store c) with Ok t => t | Err _ => None end else None
  end.

Definition load_older (room_id : RoomId) : M unit :=
  from ← reads (λ c, older_from c room_id);
  match from with
  | None => done
  | Some from =>
      request_id ← next_request_id;
      _ ← enqueue_request (Requests.room_messages request_id room_id from "b" (Some LOAD_OLDER_PAGE_SIZE)) (Room room_id);
      update (λ c, set_pending_room_messages (<[request_id := room_id]> (co_pending_room_messages c)) c)
  end.

Definition dispatch (cmd : MessengerCommand) (now_ms : Z) : M unit :=
  c ← reads (λ c, c);
  match cmd with
  | SendMessage room_id message txn_id =>
      owned ← match om_edit_of message with Some edit_of => owns_edit_target c room_id edit_of | None => mret true end;
      match om_edit_of message with
      | Some edit_of => if (owned : bool) then start_new_send room_id (PMessage message) txn_id now_ms else throw (MEditNotOwned edit_of)
      | None => start_new_send room_id (PMessage message) txn_id now_ms
      end
  | Forward from_room event_id to_room txn_id =>
      payload ← build_forward_payload from_room event_id to_room;
      start_new_send to_room payload txn_id now_ms
  | React room_id target key => start_new_send room_id (PReaction target key) None now_ms
  | Redact room_id target reason => start_new_send room_id (PRedaction target reason) None now_ms
  | RetrySend room_id txn_id => retry_send room_id txn_id now_ms
  | DoCreateRoom k => dispatch_create_room k
  | DoJoinRoom room_id =>
      _ ← simple_request (λ i, Requests.join_room i (RoomId_str room_id));
      match dm_peer c room_id with
      | Some peer => merge_direct_account_data room_id peer
      | None => done
      end
  | DoLeaveRoom room_id => simple_request (λ i, Requests.leave_room i room_id)
  | DoInvite room_id user_id => simple_request (λ i, Requests.invite i room_id user_id)
  | DoKick room_id user_id reason => simple_request (λ i, Requests.kick i room_id user_id reason)
  | SetPowerLevel room_id user_id level => set_power_levels_request room_id (with_user_level user_id level)
  | SetEventsDefault room_id level => set_power_levels_request room_id (with_events_default level)
  | SetTag room_id tag order => enqueue_tag_update room_id (mkTagContent (<[tag := mkTagInfo order]> (tags (current_tag_content c room_id))))
  | RemoveTag room_id tag => enqueue_tag_update room_id (mkTagContent (delete tag (tags (current_tag_content c room_id))))
  | MarkRead room_id event_id =>
      let body := json_obj [("m.fully_read", VString (EventId_str event_id)); ("m.read", VString (EventId_str event_id))] in
      simple_request (λ i, Requests.read_markers i room_id body)
  | SetTyping room_id is_typing => send_typing room_id is_typing now_ms
  | RetryDecryption room_id event_id =>
      changed ← retry_decrypt_one room_id event_id;
      when changed (emit (TimelineChanged room_id))
  | LoadOlder room_id => load_older room_id
  | SetAccountData event_type content => write_account_data None event_type content
  | SetRoomAccountData room_id event_type content => write_account_data (Some room_id) event_type content
  | SearchPublicRooms term =>
      request_id ← next_request_id;
      let body := json_obj [("filter", json_obj [("generic_search_term", VString term)]); ("limit", VNumber (PosInt 50))] in
      _ ← update (set_latest_public_rooms_request (Some request_id));
      enqueue_request (Requests.public_rooms request_id body) Other
  | SearchUsers term =>
      request_id ← next_request_id;
      let body := json_obj [("search_term", VString term); ("limit", VNumber (PosInt 20))] in
      _ ← update (set_latest_user_search_request (Some request_id));
      enqueue_request (Requests.user_directory_search request_id body) Other
  end.

(** ** Opening *)

(** The loop over the rooms the store knows. *)
Fixpoint open_rooms (s : S) (room_ids : list RoomId) (rooms : gmap RoomId RoomState) (timelines : gmap RoomId Timeline) :
    result (gmap RoomId RoomState * gmap RoomId Timeline) MessengerError :=
  match room_ids with
  | [] => Ok (rooms, timelines)
  | room_id :: room_ids =>
      let? bytes := map_err MStore (es_room_state s room_id) in
      match bytes with
      | Some bytes =>
          let? state := map_err (MDecodeRoomState room_id) (room_state_from_slice bytes) in
          open_rooms s room_ids (<[room_id := state]> rooms) (<[room_id := Timeline_new]> timelines)
      | None => open_rooms s room_ids rooms timelines
      end
  end.

(** [iter().filter_map(as_seed).max()] *)
Definition max_seed (records : list PendingRequest) : option Z :=
  foldl (λ acc r, match RequestId_as_seed (id (request r)), acc with
                  | Some seed, Some top => Some (Z.max top seed)
                  | Some seed, None => Some seed
                  | None, _ => acc
                  end) None records.

(** A core with nothing in memory but what the store gave. *)
Definition fresh_core (config : CoreConfig) (s : S) (account : OlmAccountState) (q : OutgoingQueue) (n : Counters) (draws : nat)
    (rooms : gmap RoomId RoomState) (timelines : gmap RoomId Timeline) : MessengerCore :=
  mkCore config s account None false 0 q n draws rooms timelines None ∅ ∅ ∅ ∅ [] None [] None ∅ ∅ ∅ ∅ ∅ ∅ ∅ ∅ [] ∅ ∅ ∅ ∅ ∅ ∅ ∅
    None false [] [] 0 None.

(** [open], from the store [Store::load] made; [clock] is the microseconds of the clock it reads. *)
Definition core_open (config : CoreConfig) (s : S) (clock : Z) : result MessengerCore MessengerError :=
  let? q := map_err MQueue (load s) in
  let '(s, account) := load_or_create s (draw_session 0).1 (draw_curve 0 0) in
  let? account := map_err MAccount account in
  let? ids := map_err MStore (es_room_ids s) in
  let? (rooms, timelines) := open_rooms s ids ∅ ∅ in
  let? records := map_err MQueue (pending_requests s) in
  let '(q, s, discarded) := discard_kind q s KSync in
  let? _ := map_err MQueue discarded in
  let? found := map_err MStore (es_counters s) in
  let persisted := default (mkCounters 0 0) found in
  let n := mkCounters (restore_counter (Store.next_request_id persisted) (max_seed records))
                      (restore_counter (Store.next_txn_id persisted) None) in
  let '(s, saved) := if bool_decide (n = persisted) then (s, Ok tt) else es_save_counters s n in
  let? _ := map_err MStore saved in
  let n := mkCounters (Store.next_request_id n) (Z.max (Store.next_txn_id n) clock) in
  Ok (rebuild_account_data_guard records (fresh_core config s account q n 1 rooms timelines)).

(** ** The engine's public methods as steps *)

Inductive engine_step (c c' : MessengerCore) : Prop :=
| step_dispatch cmd now_ms r (Hm : dispatch cmd now_ms c = Some (c', r))
| step_response i response now_ms r (Hm : core_on_response i response now_ms c = Some (c', r))
| step_transport_error i now_ms r (Hm : core_on_transport_error i now_ms c = Some (c', r))
| step_releasable now_ms r (Hm : releasable_requests now_ms c = Some (c', r))
| step_take_flush r (Hm : core_take_flush_batch c = Some (c', r))
| step_ack_flush i r (Hm : core_ack_flush i c = Some (c', r))
| step_events r (Hm : drain_events c = Some (c', r))
| step_take_ingest_error r (Hm : take_ingest_error c = Some (c', r))
| step_pull_latest_page room_id r (Hm : pull_latest_page room_id c = Some (c', r))
| step_decrypt_loaded r (Hm : decrypt_loaded_timeline c = Some (c', r))
| step_republish r (Hm : republish_device_keys c = Some (c', r)).
End Sync.
