(* ===== verification/CoreLogic.v ===== *)
(** * Reasoning about the messenger engine

    What the engine's store promises ([EngineStoreLaws]); that no component's operation moves the
    sync token; the relation [calm] that everything but the send pipeline keeps, with the tactic
    that proves it of a method. *)

From S2P Require Import Prelude Primitives Persist Ids OutgoingQueue OutgoingQueueProps Store Json CanonicalJson Events Relations Timeline RoomState DeviceTracker MegolmRatchet Megolm Olm OlmAccount AccountState OlmSessions GroupSessions Wire Core CoreSync.

Local Open Scope Z_scope.

Create HintDb calm.

(** A change of fields the relations do not mention. *)
Ltac fields := intros; cbn; repeat split; cbn; auto; try reflexivity; try lia.

Section Logic.
Context `{HmacSha256} `{MegolmCrypto} `{Curve25519} `{!EqDecision Curve25519PublicKey} `{!Countable Curve25519PublicKey}
  `{Primitives} `{MegolmWire} `{OlmProst} `{Ed25519Keys} `{!EqDecision Ed25519PublicKey} `{!Ed25519Secrets}
  `{JsonText} `{EventSerde} `{StateSerde} `{!CoreSerde} `{!AccountSerde} `{!OlmSerde} `{!GroupSerde}
  `{!DeviceSerde (Curve25519PublicKey := Curve25519PublicKey)} `{!Entropy}
  {S : Type} `{!StateStore S} `{FlushEpoch S} `{CryptoStore S} `{AccountStore S} `{OlmStore S} `{GroupStore S}
  `{CrossSigningStore S} `{EngineStore S}.

#[local] Abbreviation MessengerCore := (Core.MessengerCore (S := S)).
#[local] Abbreviation M := (Core.M (S := S)).

(** What the store promises the engine: a saved token is the one read, nothing else writes it,
    deleting a request does not fail, and saving the account is not about requests. *)
Class EngineStoreLaws := {
  token_view : S → option string;
  token_read s : es_sync_token s = Ok (token_view s);
  token_saved s t : ∃ s', es_save_sync_token s t = (s', Ok tt) ∧ token_view s' = Some t;
  token_counters s n : token_view (es_save_counters s n).1 = token_view s;
  token_room_state s r b : token_view (es_save_room_state s r b).1 = token_view s;
  token_devices s u b : token_view (cs_save_devices s u b).1 = token_view s;
  token_tracked s u b : token_view (cs_mark_user_tracked s u b).1 = token_view s;
  token_account s b : token_view (cs_save_account s b).1 = token_view s;
  token_olm s k i b : token_view (cs_save_olm_session s k i b).1 = token_view s;
  token_inbound s r i b : token_view (cs_save_inbound_group_session s r i b).1 = token_view s;
  token_outbound s r b : token_view (cs_save_outbound_group_session s r b).1 = token_view s;
  token_cross_signing s b : token_view (cs_save_cross_signing_keys s b).1 = token_view s;
  token_save_pending s p : token_view (save_pending_request s p).1 = token_view s;
  token_delete_pending s i : token_view (delete_pending_request s i).1 = token_view s;
  token_seal s : token_view (seal_for_request s).1 = token_view s;
  token_flush s : token_view (es_take_flush_batch s).1 = token_view s;
  token_ack s i : token_view (es_ack_flush s i) = token_view s;
  delete_pending_ok s i : (delete_pending_request s i).2 = Ok tt;
  pending_account s b : pending_requests (cs_save_account s b).1 = pending_requests s
}.
Context `{!EngineStoreLaws}.

(** ** The token and the components *)

Definition same_token (s s' : S) : Prop := token_view s' = token_view s.

#[local] Instance same_token_pre : PreOrder same_token.
Proof. split; unfold same_token; [done|intros s1 s2 s3; congruence]. Qed.

(** A call whose state is the first component. *)
Lemma via_fst {A} (s : S) (p : S * A) s' a : same_token s p.1 → p = (s', a) → same_token s s'.
Proof. by intros Hp ->. Qed.

(** Names the state every save leads to. *)
Ltac save_step := match goal with
  | Heq : cs_save_devices ?s ?u ?b = _ |- _ => apply (via_fst s) in Heq; [|apply token_devices]
  | Heq : cs_mark_user_tracked ?s ?u ?b = _ |- _ => apply (via_fst s) in Heq; [|apply token_tracked]
  | Heq : cs_save_account ?s ?b = _ |- _ => apply (via_fst s) in Heq; [|apply token_account]
  | Heq : cs_save_olm_session ?s ?k ?i ?b = _ |- _ => apply (via_fst s) in Heq; [|apply token_olm]
  | Heq : cs_save_inbound_group_session ?s ?r ?i ?b = _ |- _ => apply (via_fst s) in Heq; [|apply token_inbound]
  | Heq : cs_save_outbound_group_session ?s ?r ?b = _ |- _ => apply (via_fst s) in Heq; [|apply token_outbound]
  | Heq : cs_save_cross_signing_keys ?s ?b = _ |- _ => apply (via_fst s) in Heq; [|apply token_cross_signing]
  end.

Ltac same := repeat (case_match; simplify_eq/=); repeat save_step; unfold same_token in *; try congruence.

Lemma token_device_lists s changed gone : same_token s (on_device_lists s changed gone).1.
Proof.
  assert (Hc : ∀ l s, same_token s (mark_changed s l).1).
  { clear. intros l. induction l as [|u l IH]; intros s; cbn; [done|].
    destruct (cs_mark_user_tracked s u true) as [s1 [[]|e]] eqn:Hm; save_step; [etrans; [exact Hm|apply IH]|exact Hm]. }
  assert (Hl : ∀ l t s, same_token s (mark_left s t l).1).
  { clear. intros l t. induction l as [|u l IH]; intros s; cbn; [done|]. case_decide; [|apply IH].
    destruct (cs_mark_user_tracked s u false) as [s1 [[]|e]] eqn:Hm; save_step; [etrans; [exact Hm|apply IH]|exact Hm]. }
  unfold on_device_lists. specialize (Hc changed s). destruct (mark_changed s changed) as [s1 [|]]; [|done].
  case_decide; [done|]. destruct (cs_tracked_users s1); cbn; [|done]. etrans; [exact Hc|apply Hl].
Qed.

Lemma token_keys_query s body : same_token s (on_keys_query_response s body).1.
Proof.
  unfold on_keys_query_response. destruct (keys_query_from_slice body) as [parsed|]; [|done]. generalize (mkOutcome [] [] [] []).
  revert s. induction parsed as [|[u ds] parsed IH]; intros s o; cbn -[tracker_devices_for_user]; [done|].
  destruct (tracker_devices_for_user s u); [|done]. destruct (merge_devices _ _ _ _ _) as [o1 merged].
  destruct (map_err _ _) as [bytes|]; [|done].
  destruct (cs_save_devices s u bytes) as [s1 [[]|e]] eqn:D1; [|by save_step].
  destruct (cs_mark_user_tracked s1 u false) as [s2 [[]|e]] eqn:D2; repeat save_step; [etrans; [exact D1|etrans; [exact D2|apply IH]]|etrans; eassumption].
Qed.

Lemma token_account_save a s : same_token s (account_save a s).1.
Proof. unfold account_save. destruct (map_err _ _); [|done]. destruct (cs_save_account s _) as [s1 r] eqn:Hs. save_step. by destruct (map_err _ r). Qed.

Lemma token_sync_counts a s n l f g : same_token s (on_sync_counts a s n l f g).1.2.
Proof.
  unfold on_sync_counts. repeat case_match; simplify_eq/=; try done.
  all: eapply via_fst; [apply token_account_save|eassumption].
Qed.

Lemma token_keys_upload a s : same_token s (on_keys_upload_response a s).1.2.
Proof. unfold on_keys_upload_response. destruct (account_save _ s) as [s1 r] eqn:Hs. cbn. eapply via_fst; [apply token_account_save|eassumption]. Qed.

Lemma token_keys_claim s a l body f : same_token s (on_keys_claim_response s a l body f).1.
Proof.
  unfold on_keys_claim_response. destruct (map_err _ _) as [parsed|]; [|done]. generalize (mkClaimOutcome [] []), 0%nat.
  revert s. induction l as [|d l IH]; intros s o n; cbn; [done|].
  destruct (parsed !! _ ≫= _); [|apply IH]. destruct (head _) as [[k raw]|]; [|apply IH].
  destruct (verify_and_claim _ _ _ _ _ _) as [session|]; [|apply IH]. destruct (pickle_session session) as [bytes|]; [|done].
  destruct (cs_save_olm_session _ _ _ _) as [s1 r] eqn:Hs. save_step. destruct (map_err _ r); [etrans; [exact Hs|apply IH]|exact Hs].
Qed.

Lemma token_encrypt_to_device s a u d t ty v f : same_token s (encrypt_to_device s a u d t ty v f).1.
Proof. unfold encrypt_to_device, ok_or. same. Qed.

Lemma token_decrypt_to_device s a u e o f : same_token s (decrypt_to_device s a u e o f).1.1.
Proof.
  assert (Ho : ∀ k m, same_token s (open_message s a k m f).1.1).
  { intros k m. unfold open_message, state_create_inbound_session.
    repeat (case_match; simplify_eq/=); try done; repeat save_step; repeat match goal with
      | Heq : account_save ?x ?s = _ |- _ => apply (via_fst s) in Heq; [|apply token_account_save] end; unfold same_token in *; congruence. }
  unfold decrypt_to_device. repeat (case_match; simplify_eq/=); try done; try by save_step.
  match goal with Heq : open_message s a ?k ?m f = _ |- _ => specialize (Ho k m); by rewrite Heq in Ho end.
Qed.

Lemma token_save_inbound s r i x : same_token s (save_inbound_record s r i x).1.
Proof. unfold save_inbound_record. same. Qed.

Lemma token_receive_room_key s u k e c p : receive_room_key s u k e c = Some p → same_token s p.1.
Proof.
  unfold receive_room_key. case_match; [by intros [= <-]|]. case_match; [|by intros [= <-]]. case_match; [|by intros [= <-]].
  destruct (merge_inbound_session _ _ _ _ _) as [[]|]; [| | | |discriminate]; cbn; intros [= <-]; try done; apply token_save_inbound.
Qed.

Lemma token_adopt s r u k e x p : adopt_own_outbound_session s r u k e x = Some p → same_token s p.1.
Proof. unfold adopt_own_outbound_session. case_match; [by intros [= <-]|]. apply token_receive_room_key. Qed.

Lemma token_receive_forwarded s u k e c p : receive_forwarded_room_key s u k e c = Some p → same_token s p.1.
Proof.
  unfold receive_forwarded_room_key. case_match; [by intros [= <-]|]. case_match; [|by intros [= <-]]. case_match; [by intros [= <-]|].
  case_match; [|by intros [= <-]]. destruct (merge_inbound_session _ _ _ _ _) as [[]|]; [| | | |discriminate]; cbn; intros [= <-]; try done.
  all: destruct (save_inbound_record _ _ _ _) as [s1 r1] eqn:Hs; eapply via_fst in Hs; [|apply token_save_inbound]; by destruct r1.
Qed.

Lemma token_ensure s r u d e m l t k x : same_token s (ensure_outbound_session s r u d e m l t k x).1.
Proof. unfold ensure_outbound_session. same. Qed.

Lemma token_forget s l u d n : same_token s (forget_shared_device s l u d n).1.
Proof.
  revert s n. induction l as [|r l IH]; intros s n; cbn; [done|]. destruct (map_err _ _) as [[bytes|]|]; [|apply IH|done].
  destruct (map_err _ _) as [rec|]; [|done]. case_match; [|apply IH]. destruct (map_err _ _) as [out|]; [|done].
  destruct (cs_save_outbound_group_session _ _ _) as [s1 r1] eqn:Hs. save_step. destruct (map_err _ r1); [etrans; [exact Hs|apply IH]|exact Hs].
Qed.

Lemma token_encrypt_event s r k d ty v rel p : encrypt_event s r k d ty v rel = Some p → same_token s p.1.
Proof.
  unfold encrypt_event. match goal with |- match ?x with _ => _ end = _ → _ => destruct x as [[rec text]|] end; [|intros Heq; by simplify_eq]. destruct (group_encrypt _ _) as [[session message]|]; [|discriminate]. cbn.
  match goal with |- context [mbind _ ?x] => destruct x end; cbn; [|discriminate]. intros [= <-]. same.
Qed.

Lemma token_build s a u d l ty v f : same_token s (build_encrypted_to_device_body s a u d l ty v f).1.
Proof.
  assert (Hf : ∀ n m s, same_token s (fan_out s a u d l ty v n f m).1).
  { induction l as [|x l IH]; intros n m s0; cbn -[encrypt_to_device encrypted_olm_value]; [done|].
    pose proof (token_encrypt_to_device s0 a u d x ty v (f n)) as He. destruct (encrypt_to_device _ _ _ _ _ _ _ _) as [s1 r1]. cbn [fst] in He.
    destruct (map_err _ r1) as [o|]; [|exact He]. destruct (encrypted_olm_value o); [|exact He]. etrans; [exact He|apply IH]. }
  unfold build_encrypted_to_device_body. specialize (Hf 0%nat ∅ s). destruct (fan_out _ _ _ _ _ _ _ _ _ _) as [s1 [|]]; exact Hf.
Qed.

Lemma token_build_room_key s a u d l k f : same_token s (build_room_key_send_to_device_body s a u d l k f).1.
Proof. unfold build_room_key_send_to_device_body. destruct (map_err _ _); [|done]. apply token_build. Qed.

Lemma token_decrypt_event s r e t u m p : decrypt_event s r e t u m = Some p → same_token s p.1.
Proof.
  unfold decrypt_event. match goal with |- match ?x with _ => _ end = _ → _ => destruct x as [[rec message]|] end; [|intros Heq; by simplify_eq]. destruct (inbound_decrypt _ _) as [[session decrypted]|]; [|discriminate]. cbn.
  intros [= <-]. same.
Qed.

Lemma token_cross_save x s : same_token s (cross_signing_save x s).1.
Proof. unfold cross_signing_save. same. Qed.

Lemma token_cross_load s f : same_token s (cross_signing_load_or_create s f).1.
Proof.
  unfold cross_signing_load_or_create. destruct (map_err _ _) as [found|]; [|done]. destruct (found ≫= _); [done|].
  destruct (cross_signing_save _ s) as [s1 r] eqn:Hs. eapply via_fst in Hs; [|apply token_cross_save]. by destruct r.
Qed.
(** ** What a method keeps *)

(** Kept by every method, but for a sync's end and its bookkeeping. *)
Record base (c c' : MessengerCore) : Prop := {
  ba_config : co_config c' = co_config c;
  ba_encryption room e : co_rooms c !! room ≫= encryption = Some e → co_rooms c' !! room ≫= encryption = Some e;
  ba_token : same_token (co_store c) (co_store c');
  ba_counter : Store.next_request_id (co_counters c) < u64_mod →
    Store.next_request_id (co_counters c) ≤ Store.next_request_id (co_counters c') < u64_mod;
  ba_sync : co_sync_request_id c' = co_sync_request_id c;
  ba_pending i p : pending (co_outgoing c') !! i = Some p → kind (request p) = KSync → pending (co_outgoing c) !! i = Some p;
  ba_kinds i : co_pending_kinds c' !! i = Some KSync → co_pending_kinds c !! i = Some KSync }.

(** Kept by everything but the send pipeline. *)
Record still (c c' : MessengerCore) : Prop := {
  st_sends : co_send_state c' = co_send_state c;
  st_queues : co_pending_sends c' = co_pending_sends c;
  st_owners : co_send_request_owner c' = co_send_request_owner c;
  st_requests i p : pending (co_outgoing c') !! i = Some p → pending (co_outgoing c) !! i = Some p ∨ kind (request p) ≠ RoomSend }.

(** Kept by everything but an edit of account data and its answer. *)
Record books (c c' : MessengerCore) : Prop := {
  bk_keys : co_account_data_write_keys c' = co_account_data_write_keys c;
  bk_counts key : ag_pending <$> co_account_data_guard c' !! key = ag_pending <$> co_account_data_guard c !! key;
  bk_cache key : is_Some (co_account_data_guard c !! key) → cached_account_data c' key = cached_account_data c key }.

#[export] Instance base_pre : PreOrder base.
Proof.
  split; [intros c; split; auto; try reflexivity; lia|]. intros c1 c2 c3 R1 R2. destruct R1, R2.
  split; [congruence|auto|by etrans|lia|congruence|auto|auto].
Qed.

#[export] Instance still_pre : PreOrder still.
Proof.
  split; [intros c; split; auto|]. intros c1 c2 c3 R1 R2. destruct R1, R2. split; [congruence..|].
  intros i p [Hp|Hk]%st_requests1; [by apply st_requests0|by right].
Qed.

#[export] Instance books_pre : PreOrder books.
Proof.
  split; [intros c; split; auto|]. intros c1 c2 c3 R1 R2. destruct R1, R2. split; [congruence..|].
  intros key Hg. rewrite bk_cache1; [auto|]. by rewrite <- (fmap_is_Some ag_pending), bk_counts0, fmap_is_Some.
Qed.

Definition meet (R1 R2 : MessengerCore → MessengerCore → Prop) c c' : Prop := R1 c c' ∧ R2 c c'.

#[export] Instance meet_pre R1 R2 `{!PreOrder R1} `{!PreOrder R2} : PreOrder (meet R1 R2).
Proof. split; [intros c; split; reflexivity|]. intros c1 c2 c3 [] []. split; by etrans. Qed.

#[local] Abbreviation calm := (meet base still).
#[local] Abbreviation brisk := (meet base books).
#[local] Abbreviation quiet := (meet calm books).

(** What holds of a quiet change. *)
Class Weaker (R : MessengerCore → MessengerCore → Prop) := weaker c c' : quiet c c' → R c c'.
#[export] Instance weaker_quiet : Weaker quiet.
Proof. by intros c c'. Qed.
#[export] Instance weaker_calm : Weaker calm.
Proof. by intros c c' []. Qed.
#[export] Instance weaker_brisk : Weaker brisk.
Proof. by intros c c' [[] ?]. Qed.

Definition keeps (R : MessengerCore → MessengerCore → Prop) {A} (m : M A) : Prop := ∀ c c' r, m c = Some (c', r) → R c c'.

(** What a method's value satisfies. *)
Definition returns {A} (P : A → Prop) (m : M A) : Prop := ∀ c c' a, m c = Some (c', Ok a) → P a.

Lemma returns_ret {A} (P : A → Prop) a : P a → returns P (mret a).
Proof. by intros Ha c c' b [= _ <-]. Qed.
Lemma returns_bind {A B} (P : B → Prop) (m : M A) (k : A → M B) : (∀ a, returns P (k a)) → returns P (m ≫= k).
Proof. intros Hk c c' b. unfold mbind, M_bind. destruct (m c) as [[c1 [a|e]]|]; [apply Hk|discriminate..]. Qed.

(** Running a method step by step. *)
Lemma run_bind {A B} (m : M A) (k : A → M B) c :
  (m ≫= k) c = match m c with None => None | Some (c1, Err e) => Some (c1, Err e) | Some (c1, Ok a) => k a c1 end.
Proof. done. Qed.
Lemma run_reads {A B} (f : MessengerCore → A) (k : A → M B) c : (reads f ≫= k) c = k (f c) c.
Proof. done. Qed.
Lemma run_update {B} f (k : unit → M B) c : (update f ≫= k) c = k tt (f c).
Proof. done. Qed.
Lemma update_run f (c c' : MessengerCore) r : update f c = Some (c', r) → c' = f c.
Proof. by intros [= <- _]. Qed.
Lemma run_attempt {A B} (m : M A) (k : result A MessengerError → M B) c :
  (attempt m ≫= k) c = match m c with None => None | Some (c1, r) => k r c1 end.
Proof. unfold mbind, M_bind, attempt. by destruct (m c) as [[]|]. Qed.

Section Keeps.
Context (R : MessengerCore → MessengerCore → Prop) `{!PreOrder R}.

Lemma keeps_pure {A} (m : M A) : (∀ c c' r, m c = Some (c', r) → c' = c) → keeps R m.
Proof. intros Hm c c' r ->%Hm. reflexivity. Qed.
Lemma keeps_ret {A} (a : A) : keeps R (mret a).
Proof. apply keeps_pure. by intros c c' r [= <- _]. Qed.
Lemma keeps_done : keeps R done.
Proof. apply keeps_ret. Qed.
Lemma keeps_throw {A} e : keeps R (throw e : M A).
Proof. apply keeps_pure. by intros c c' r [= <- _]. Qed.
Lemma keeps_reads {A} (f : MessengerCore → A) : keeps R (reads f).
Proof. apply keeps_pure. by intros c c' r [= <- _]. Qed.
Lemma keeps_lift {A} (r : result A MessengerError) : keeps R (lift r).
Proof. apply keeps_pure. by intros c c' r' [= <- _]. Qed.
Lemma keeps_or_panic {A} (o : option A) : keeps R (or_panic o).
Proof. apply keeps_pure. unfold or_panic. intros c c' r. destruct o; cbn; [by intros [= <- _]|discriminate]. Qed.
Lemma keeps_update f : (∀ c, R c (f c)) → keeps R (update f).
Proof. intros Hf c c' r [= <- _]. apply Hf. Qed.

Lemma keeps_bind {A B} (m : M A) (k : A → M B) : keeps R m → (∀ a, keeps R (k a)) → keeps R (m ≫= k).
Proof.
  intros Hm Hk c c' r. unfold mbind, M_bind. destruct (m c) as [[c1 [a|e]]|] eqn:He; [|intros [= <- _]; by eapply Hm|discriminate].
  intros Hc. etrans; [by eapply Hm|by eapply Hk].
Qed.

Lemma keeps_bind_returns {A B} (P : A → Prop) (m : M A) (k : A → M B) :
  returns P m → keeps R m → (∀ a, P a → keeps R (k a)) → keeps R (m ≫= k).
Proof.
  intros Hp Hm Hk c c' r. unfold mbind, M_bind. destruct (m c) as [[c1 [a|e]]|] eqn:He; [|intros [= <- _]; by eapply Hm|discriminate].
  intros Hc. etrans; [by eapply Hm|]. eapply Hk; [|done]. by eapply Hp.
Qed.

Lemma keeps_attempt {A} (m : M A) : keeps R m → keeps R (attempt m).
Proof. unfold attempt. intros Hm c c' r. destruct (m c) as [[c1 r1]|] eqn:He; [|discriminate]. intros [= <- _]. by eapply Hm. Qed.
Lemma keeps_ignore {A} (m : M A) : keeps R m → keeps R (ignore m).
Proof. intros Hm. apply keeps_bind; [by apply keeps_attempt|intros _; apply keeps_ret]. Qed.
Lemma keeps_when b m : keeps R m → keeps R (when b m).
Proof. destruct b; [done|intros _; apply keeps_done]. Qed.
Lemma keeps_for_each {A} (f : A → M unit) l : (∀ a, keeps R (f a)) → keeps R (for_each f l).
Proof. intros Hf. induction l as [|a l IH]; cbn; [apply keeps_done|]. apply keeps_bind; [apply Hf|done]. Qed.

Lemma keeps_store_reads {A E} (inj : E → MessengerError) (f : S → result A E) : keeps R (store_reads inj f).
Proof. apply keeps_bind; [apply keeps_reads|intros s; apply keeps_lift]. Qed.

Lemma keeps_store_does {A E} (inj : E → MessengerError) (f : S → S * result A E) :
  (∀ c, R c (set_store (f (co_store c)).1 c)) → keeps R (store_does inj f).
Proof. unfold store_does. intros Hf c c' r. specialize (Hf c). destruct (f (co_store c)) as [s x]. by intros [= <- _]. Qed.

Lemma keeps_store_may_panic {A E} (inj : E → MessengerError) (f : S → option (S * result A E)) :
  (∀ c p, f (co_store c) = Some p → R c (set_store p.1 c)) → keeps R (store_may_panic inj f).
Proof.
  unfold store_may_panic. intros Hf c c' r. specialize (Hf c). destruct (f (co_store c)) as [[s x]|]; [|discriminate]. cbn.
  intros [= <- _]. by apply (Hf (s, x)).
Qed.

Lemma keeps_on_timeline {A} room (f : Timeline → option (Timeline * A)) :
  (∀ c room t, R c (set_timelines (<[room := t]> (co_timelines c)) c)) → keeps R (on_timeline room f).
Proof.
  intros Hf. apply keeps_bind; [apply keeps_reads|intros ts]. apply keeps_bind; [apply keeps_or_panic|intros [t a]].
  apply keeps_bind; [apply keeps_update; auto|intros _; apply keeps_ret].
Qed.

Lemma keeps_on_known_timeline room (f : Timeline → option Timeline) :
  (∀ c room t, R c (set_timelines (<[room := t]> (co_timelines c)) c)) → keeps R (on_known_timeline room f).
Proof.
  intros Hf. apply keeps_bind; [apply keeps_reads|intros ts]. destruct (ts !! room); [|apply keeps_done].
  apply keeps_bind; [apply keeps_or_panic|intros t']. by apply keeps_update.
Qed.

End Keeps.
(** ** Quiet steps *)

Lemma quiet_store c s : same_token (co_store c) s → quiet c (set_store s c).
Proof. intros Hs. by fields. Qed.

Lemma quiet_does {A E} (inj : E → MessengerError) (f : S → S * result A E) : (∀ s, same_token s (f s).1) → keeps quiet (store_does inj f).
Proof. intros Hf. apply keeps_store_does. intros c. apply quiet_store, Hf. Qed.

Lemma quiet_may_panic {A E} (inj : E → MessengerError) (f : S → option (S * result A E)) :
  (∀ s p, f s = Some p → same_token s p.1) → keeps quiet (store_may_panic inj f).
Proof. intros Hf. apply keeps_store_may_panic. intros c p' Hp. apply quiet_store. eauto. Qed.

Lemma quiet_on_timeline {A} room (f : Timeline → option (Timeline * A)) : keeps quiet (on_timeline room f).
Proof. apply keeps_on_timeline; [apply _|fields]. Qed.
Lemma quiet_on_known_timeline room (f : Timeline → option Timeline) : keeps quiet (on_known_timeline room f).
Proof. apply keeps_on_known_timeline; [apply _|fields]. Qed.

(** Queueing a request. *)
Lemma enqueue_shape req l c c' r : enqueue_request req l c = Some (c', r) →
  ∃ s b q k, c' = set_pending_kinds k (set_pending_flush_batches b (set_store s (set_outgoing q c))) ∧ same_token (co_store c) s ∧
    (∀ i p, pending q !! i = Some p → pending (co_outgoing c) !! i = Some p ∨ i = id req ∧ request p = req) ∧
    match r with Ok _ => k = <[id req := kind req]> (co_pending_kinds c) | Err _ => q = co_outgoing c ∧ k = co_pending_kinds c end.
Proof.
  unfold enqueue_request, enqueue. case_decide as Hd.
  - intros [= <- <-]. exists (co_store c), (co_pending_flush_batches c), (co_outgoing c), (<[id req := kind req]> (co_pending_kinds c)).
    split; [done|]. split; [reflexivity|]. split; [by left|done].
  - destruct (seal_for_request (co_store c)) as [s1 [seq b]] eqn:Hs. pose proof (token_seal (co_store c)) as T1. rewrite Hs in T1.
    match goal with |- context [save_pending_request s1 ?p] => pose proof (token_save_pending s1 p) as T2; destruct (save_pending_request s1 p) as [s2 [[]|e]] end;
      cbn [fst] in *; intros [= <- <-].
    + exists s2, (co_pending_flush_batches c ++ match b with Some x => [x] | None => [] end), (OutgoingQueue.with_pending (co_outgoing c) (OutgoingQueue.order (co_outgoing c) ++ [id req]) (<[id req := mkPendingRequest req l seq]> (pending (co_outgoing c)))),
        (<[id req := kind req]> (co_pending_kinds c)).
      split; [by destruct b; cbn; rewrite ?app_nil_r|]. split; [unfold same_token; congruence|]. split; [|done].
      cbn. intros i p [[<- <-]|[_ ?]]%lookup_insert_Some; auto.
    + exists s2, (co_pending_flush_batches c), (co_outgoing c), (co_pending_kinds c). split; [done|]. split; [unfold same_token; congruence|]. split; [by left|done].
Qed.

Lemma brisk_enqueue req l : kind req ≠ KSync → keeps brisk (enqueue_request req l).
Proof.
  intros Hk c c' r Hc. apply enqueue_shape in Hc as (s & b & q & k & -> & Ht & Hq & Hks). fields.
  - intros i p' Hp Hkind. apply Hq in Hp as [|[-> ?]]; congruence.
  - intros i. destruct r; [subst k|by destruct Hks as [_ ->]]. by intros [[_ ?]|[_ ?]]%lookup_insert_Some.
Qed.

Lemma quiet_enqueue req l : kind req ≠ KSync → kind req ≠ RoomSend → keeps quiet (enqueue_request req l).
Proof.
  intros Hk1 Hk2 c c' r Hc. destruct (brisk_enqueue _ _ Hk1 _ _ _ Hc) as [Hb Hbk]. split; [split; [done|]|done].
  apply enqueue_shape in Hc as (s & b & q & k & -> & Ht & Hq & Hks). fields.
  intros i p' Hp. apply Hq in Hp as [|[-> Hr]]; [by left|right]. congruence.
Qed.

Lemma keeps_weaker R `{!Weaker R} {A} (m : M A) : keeps quiet m → keeps R m.
Proof. intros Hm c c' r Hc. by eapply weaker, Hm. Qed.

Lemma wire_not_sync i room txn w : kind (wire_request i room txn w) ≠ KSync.
Proof. by destruct w. Qed.

End Logic.

#[export] Hint Resolve token_device_lists token_keys_query token_account_save token_keys_claim token_encrypt_to_device
  token_receive_room_key token_adopt token_receive_forwarded token_ensure token_forget token_encrypt_event token_build
  token_build_room_key token_decrypt_event token_cross_save token_cross_load : calm.

(** Queueing a request, of a kind that can be seen. *)
Ltac enqueue_leaf := first
  [ apply brisk_enqueue; solve [discriminate | apply wire_not_sync | by repeat case_match]
  | apply keeps_weaker; [apply _|]; apply quiet_enqueue; solve [discriminate | by repeat case_match] ].

(** [keeps R m] by the structure of [m]. *)
Ltac keep_step := lazymatch goal with
  | |- PreOrder _ => apply _
  | |- ∀ _, _ => intros ?
  | |- keeps _ (match _ with _ => _ end) => case_match
  | |- keeps _ (let '_ := _ in _) => case_match
  | |- keeps _ (mret _) => apply keeps_ret
  | |- keeps _ done => apply keeps_done
  | |- keeps _ (throw _) => apply keeps_throw
  | |- keeps _ (reads _) => apply keeps_reads
  | |- keeps _ (lift _) => apply keeps_lift
  | |- keeps _ (or_panic _) => apply keeps_or_panic
  | |- keeps _ (store_reads _ _) => apply keeps_store_reads
  | |- keeps _ (attempt _) => apply keeps_attempt
  | |- keeps _ (ignore _) => apply keeps_ignore
  | |- keeps _ (when _ _) => apply keeps_when
  | |- keeps _ (for_each _ _) => apply keeps_for_each
  | |- keeps _ (mbind _ _) => apply keeps_bind
  | |- keeps _ (store_does _ _) => apply keeps_weaker; [apply _|]; apply quiet_does; intros; solve [eauto with calm nocore | apply token_counters | apply token_room_state]
  | |- keeps _ (store_may_panic _ _) => apply keeps_weaker; [apply _|]; apply quiet_may_panic; intros ? ?; solve [eauto with calm nocore]
  | |- keeps _ (enqueue_request _ _) => enqueue_leaf
  | |- keeps _ (on_timeline _ _) => apply keeps_weaker; [apply _|]; apply quiet_on_timeline
  | |- keeps _ (on_known_timeline _ _) => apply keeps_weaker; [apply _|]; apply quiet_on_known_timeline
  | |- keeps _ (update _) => first [solve [auto with calm nocore] | apply keeps_update; solve [fields] | apply keeps_weaker; [apply _|]; apply keeps_update; solve [fields]]
  | |- _ => solve [auto with calm nocore | apply keeps_weaker; [apply _|]; auto with calm nocore]
  end.
Ltac keep_go := intros; cbn beta zeta; repeat keep_step.

Section Quiet.
Context `{HmacSha256} `{MegolmCrypto} `{Curve25519} `{!EqDecision Curve25519PublicKey} `{!Countable Curve25519PublicKey}
  `{Primitives} `{MegolmWire} `{OlmProst} `{Ed25519Keys} `{!EqDecision Ed25519PublicKey} `{!Ed25519Secrets}
  `{JsonText} `{EventSerde} `{StateSerde} `{!CoreSerde} `{!AccountSerde} `{!OlmSerde} `{!GroupSerde}
  `{!DeviceSerde (Curve25519PublicKey := Curve25519PublicKey)} `{!Entropy}
  {S : Type} `{!StateStore S} `{FlushEpoch S} `{CryptoStore S} `{AccountStore S} `{OlmStore S} `{GroupStore S}
  `{CrossSigningStore S} `{EngineStore S} `{!EngineStoreLaws}.

#[local] Abbreviation MessengerCore := (Core.MessengerCore (S := S)).
#[local] Abbreviation M := (Core.M (S := S)).

#[local] Abbreviation calm := (meet base still).
#[local] Abbreviation brisk := (meet base books).
#[local] Abbreviation quiet := (meet calm books).

(** ** Which methods are quiet *)

Lemma quiet_draw : keeps quiet draw.
Proof. unfold draw. keep_go. Qed.

(** A minted id: the counter moves on whether or not it is saved. *)
Lemma next_request_id_run c c' r : next_request_id c = Some (c', r) →
  ∃ s, same_token (co_store c) s ∧ (∀ i, r = Ok i → i = RequestId_next (Store.next_request_id (co_counters c))) ∧
  c' = set_store s (set_counters (mkCounters (next_seed (Store.next_request_id (co_counters c))) (Store.next_txn_id (co_counters c))) c).
Proof.
  unfold next_request_id, store_does, mbind, M_bind, reads, update. intros Hr.
  match type of Hr with context [es_save_counters ?s ?n] => pose proof (token_counters s n) as Ht; destruct (es_save_counters s n) as [s1 [[]|e]] end;
    cbn in *; injection Hr as <- <-; exists s1; repeat split; try done; congruence.
Qed.

Lemma next_txn_id_run c c' r : next_txn_id c = Some (c', r) →
  ∃ s, same_token (co_store c) s ∧
  c' = set_store s (set_counters (mkCounters (Store.next_request_id (co_counters c)) (next_seed (Store.next_txn_id (co_counters c)))) c).
Proof.
  unfold next_txn_id, store_does, mbind, M_bind, reads, update. intros Hr.
  match type of Hr with context [es_save_counters ?s ?n] => pose proof (token_counters s n) as Ht; destruct (es_save_counters s n) as [s1 [[]|e]] end;
    cbn in *; injection Hr as <- _; exists s1; repeat split; try done; congruence.
Qed.

Lemma quiet_next_request_id : keeps quiet next_request_id.
Proof. intros c c' r (s & Ht & _ & ->)%next_request_id_run. unfold next_seed. fields. Qed.
Lemma quiet_next_txn_id : keeps quiet next_txn_id.
Proof. intros c c' r (s & Ht & ->)%next_txn_id_run. fields. Qed.
Lemma quiet_emit e : keeps quiet (emit e).
Proof. unfold emit. keep_go. Qed.
#[local] Hint Resolve quiet_draw quiet_next_request_id quiet_next_txn_id quiet_emit : calm.

Lemma quiet_outdated ids : keeps quiet (mark_outdated_or_untracked ids).
Proof. unfold mark_outdated_or_untracked. keep_go. Qed.
Lemma quiet_known ids : keeps quiet (known_devices_for ids).
Proof. unfold known_devices_for. keep_go. Qed.
Lemma quiet_missing l : keeps quiet (missing_ids l).
Proof. unfold missing_ids. keep_go. Qed.
Lemma quiet_stop_typing room : keeps quiet (stop_typing room).
Proof. unfold stop_typing. keep_go. Qed.
Lemma quiet_echo room p w t n : keeps quiet (echo room p w t n).
Proof. unfold echo. keep_go. Qed.
#[local] Hint Resolve quiet_outdated quiet_known quiet_missing quiet_stop_typing quiet_echo : calm.

(** Account data: an edit is calm, what a sync says is quiet. *)
Lemma cached_cache key v (c : MessengerCore) key' :
  cached_account_data (cache_account_data key v c) key' = if bool_decide (key' = key) then v else cached_account_data c key'.
Proof.
  unfold cached_account_data, cache_account_data, read_room_account_data, read_global_account_data.
  destruct key as [[room|] ty], key' as [[room'|] ty']; cbn.
  - rewrite bool_decide_eq_false_2 by done. destruct (decide (room' = room)) as [->|Hr].
    + destruct v as [v|]; cbn; simplify_map_eq.
      * case_bool_decide as He; [injection He as ->; by rewrite lookup_insert_eq|].
        rewrite lookup_insert_ne by congruence. by destruct (co_room_account_data c !! room).
      * destruct (co_room_account_data c !! room) as [m|]; cbn; [|by destruct (bool_decide _)].
        case_bool_decide as He; [injection He as ->; apply lookup_delete_eq|apply lookup_delete_ne; congruence].
    + rewrite bool_decide_eq_false_2 by congruence. destruct v; cbn; by simplify_map_eq.
  - rewrite !bool_decide_eq_false_2 by done. by destruct v.
  - rewrite (bool_decide_eq_false_2 ((Some room', ty') = (None, ty))) by done. by destruct v, (bool_decide _).
  - match goal with |- context [if bool_decide (_ = (None, "m.direct")) then _ else _] => destruct (bool_decide _) end; destruct v; cbn; (case_bool_decide as He; [injection He as ->; by simplify_map_eq|]).
    all: first [apply lookup_insert_ne | apply lookup_delete_ne]; congruence.
Qed.

Lemma cache_fields key v (c : MessengerCore) : calm c (cache_account_data key v c) ∧
  co_account_data_guard (cache_account_data key v c) = co_account_data_guard c ∧
  co_account_data_write_keys (cache_account_data key v c) = co_account_data_write_keys c.
Proof. unfold cache_account_data. repeat case_match; by fields. Qed.

Lemma calm_store_cache key v : keeps calm (store_account_data_cache key v).
Proof. apply keeps_update. intros c. apply cache_fields. Qed.
#[local] Hint Resolve calm_store_cache : calm.
Lemma calm_settle key b : keeps calm (settle_account_data_write key b).
Proof. unfold settle_account_data_write. keep_go. Qed.
#[local] Hint Resolve calm_settle : calm.
Lemma calm_write_account_data room ty v : keeps calm (write_account_data room ty v).
Proof. unfold write_account_data. keep_go. Qed.
#[local] Hint Resolve calm_write_account_data : calm.
Lemma calm_merge_direct room peer : keeps calm (merge_direct_account_data room peer).
Proof. unfold merge_direct_account_data. keep_go. Qed.
Lemma calm_tag_update room t : keeps calm (enqueue_tag_update room t).
Proof. unfold enqueue_tag_update. keep_go. Qed.
#[local] Hint Resolve calm_merge_direct calm_tag_update : calm.

Lemma quiet_apply_synced room ty v : keeps quiet (apply_synced_account_data room ty v).
Proof.
  unfold apply_synced_account_data. intros c c' r. unfold mbind, M_bind, reads, update, store_account_data_cache. cbn beta iota.
  match goal with |- context [match ?x with Some _ => _ | None => _ end c] => destruct x as [g|] eqn:Hg end.
  - intros [= <- _]. fields. intros key. destruct (decide ((room, ty) = key)) as [<-|]; by simplify_map_eq.
  - intros [= <- _]. destruct (cache_fields (room, ty) (Some v) c) as (Hc & Hgs & Hk). split; [done|]. split; [done|by rewrite Hgs|].
    intros key Hkey. rewrite cached_cache. case_bool_decide; [subst key; rewrite Hg in Hkey; by apply is_Some_None in Hkey|done].
Qed.
#[local] Hint Resolve quiet_apply_synced : calm.

Lemma quiet_send_chunks ty v l n : keeps quiet (send_chunks ty v l n).
Proof. revert n. induction l as [|x l IH]; cbn [send_chunks]; keep_go. Qed.
#[local] Hint Resolve quiet_send_chunks : calm.
Lemma quiet_olm_to_devices l ty v : keeps quiet (enqueue_olm_to_devices l ty v).
Proof. unfold enqueue_olm_to_devices. keep_go. Qed.
#[local] Hint Resolve quiet_olm_to_devices : calm.
Lemma quiet_request_missing room u m : keeps quiet (request_missing_room_key room u m).
Proof. unfold request_missing_room_key. keep_go. Qed.
Lemma quiet_forward_binding d f : keeps quiet (forward_binding d f).
Proof. unfold forward_binding. keep_go. Qed.
Lemma quiet_requested_key b : keeps quiet (requested_key b).
Proof. unfold requested_key. keep_go. Qed.
#[local] Hint Resolve quiet_request_missing quiet_forward_binding quiet_requested_key : calm.
Lemma quiet_answer d q : keeps quiet (answer_room_key_request d q).
Proof. unfold answer_room_key_request. keep_go. Qed.
#[local] Hint Resolve quiet_answer : calm.

Lemma quiet_apply_plaintext room e u t x : keeps quiet (apply_decrypted_plaintext room e u t x).
Proof. unfold apply_decrypted_plaintext. keep_go. Qed.
Lemma quiet_decrypt room e t u m : keeps quiet (decrypt_room_event room e t u m).
Proof.
  unfold decrypt_room_event. intros c c' r. destruct (decrypt_event _ _ _ _ _ _) as [[s x]|] eqn:Hd; [|discriminate]. cbn.
  intros [= <- _]. apply token_decrypt_event in Hd. by apply quiet_store.
Qed.
Lemma quiet_forget_pending room e : keeps quiet (forget_pending room e).
Proof. unfold forget_pending. keep_go. Qed.
#[local] Hint Resolve quiet_apply_plaintext quiet_decrypt quiet_forget_pending : calm.
Lemma quiet_retry_one room e : keeps quiet (retry_decrypt_one room e).
Proof. unfold retry_decrypt_one. keep_go. Qed.
#[local] Hint Resolve quiet_retry_one : calm.
Lemma quiet_retry_all room l b : keeps quiet (retry_all room l b).
Proof. revert b. induction l as [|e l IH]; cbn [retry_all]; keep_go. Qed.
#[local] Hint Resolve quiet_retry_all : calm.
Lemma quiet_retry_session room i : keeps quiet (retry_pending_for_session room i).
Proof. unfold retry_pending_for_session. keep_go. Qed.
Lemma quiet_retry_missing : keeps quiet retry_missing_room_keys.
Proof. unfold retry_missing_room_keys. keep_go. Qed.
Lemma quiet_decrypt_row room x : keeps quiet (decrypt_row room x).
Proof. unfold decrypt_row. keep_go. Qed.
#[local] Hint Resolve quiet_retry_session quiet_retry_missing quiet_decrypt_row : calm.
Lemma quiet_decrypt_loaded : keeps quiet decrypt_loaded_timeline.
Proof. unfold decrypt_loaded_timeline. keep_go. Qed.
Lemma quiet_keep_undecryptable room e m x : keeps quiet (keep_undecryptable room e m x).
Proof. unfold keep_undecryptable. keep_go. Qed.
#[local] Hint Resolve quiet_decrypt_loaded quiet_keep_undecryptable : calm.
Lemma quiet_decrypt_new room e : keeps quiet (decrypt_new_timeline_event room e).
Proof. unfold decrypt_new_timeline_event. keep_go. Qed.
#[local] Hint Resolve quiet_decrypt_new : calm.
Lemma quiet_decrypt_news room l : keeps quiet (decrypt_new_timeline_events room l).
Proof. unfold decrypt_new_timeline_events. keep_go. Qed.
#[local] Hint Resolve quiet_decrypt_news : calm.

Lemma quiet_route d : keeps quiet (route_decrypted_to_device d).
Proof. unfold route_decrypted_to_device. keep_go. Qed.
Lemma quiet_decrypt_to_device u o : keeps quiet (decrypt_to_device_event u o).
Proof.
  unfold decrypt_to_device_event. apply keeps_bind; [apply _|apply quiet_draw|intros n]. intros c c' r.
  pose proof (token_decrypt_to_device (co_store c) (co_account c) (cfg_user_id (co_config c)) u o (draw_curve n 0)) as Ht.
  unfold mbind, M_bind, reads, update. case_match. case_match. cbn in Ht. intros [= <- _]. by fields.
Qed.
#[local] Hint Resolve quiet_route quiet_decrypt_to_device : calm.
Lemma quiet_process e : keeps quiet (process_to_device_event e).
Proof. unfold process_to_device_event, queue_unknown_sender_retry. keep_go. Qed.
#[local] Hint Resolve quiet_process : calm.
Lemma quiet_process_all l x : keeps quiet (process_to_device_events l x).
Proof. revert x. induction l as [|e l IH]; cbn [process_to_device_events]; keep_go. Qed.
Lemma quiet_retry_received l : keeps quiet (retry_received l).
Proof. unfold retry_received. keep_go. Qed.
#[local] Hint Resolve quiet_process_all quiet_retry_received : calm.
Lemma quiet_retry_unknown : keeps quiet retry_unknown_sender_queue.
Proof. unfold retry_unknown_sender_queue. keep_go. Qed.
#[local] Hint Resolve quiet_retry_unknown : calm.

(** *** Syncs *)

Lemma quiet_keys_query : keeps quiet enqueue_keys_query.
Proof. unfold enqueue_keys_query. keep_go. Qed.
Lemma quiet_xsign_state : keeps quiet cross_signing_state.
Proof. unfold cross_signing_state. keep_go. Qed.
#[local] Hint Resolve quiet_keys_query quiet_xsign_state : calm.
Lemma quiet_xsign : keeps quiet maybe_enqueue_cross_signing.
Proof.
  unfold maybe_enqueue_cross_signing. apply keeps_bind; [apply _|keep_go|intros c0]. case_match; [keep_go|].
  apply keeps_bind; [apply _|keep_go|intros state].
  eapply (keeps_bind_returns _ (λ o, ∀ q, o = Some q → kind q = SigningKeysUpload ∨ kind q = SignaturesUpload)); [|keep_go|].
  - case_match; [|case_match]; repeat (apply returns_bind; intros ?); apply returns_ret; intros q [= <-]; auto.
  - intros [q|] Hq; [|keep_go]. specialize (Hq q eq_refl). apply keeps_bind; [apply _|keep_go|intros _].
    apply quiet_enqueue; by destruct Hq as [-> | ->].
Qed.
Lemma quiet_track_joined room l : keeps quiet (track_joined_members room l).
Proof. unfold track_joined_members. keep_go. Qed.
#[local] Hint Resolve quiet_xsign quiet_track_joined : calm.

(** A room keeps its encryption through every event. *)
Lemma quiet_room_event room e : keeps quiet (apply_room_event room e).
Proof.
  unfold apply_room_event. intros c c' r. destruct (apply_one_encryption (default RoomState_new (co_rooms c !! room)) e) as [He _].
  destruct (apply_state_event _ e) as [state x]. intros [= <- _]. fields. intros room' enc.
  destruct (decide (room = room')) as [<-|]; simplify_map_eq; [|done].
  destruct (co_rooms c !! room) as [st|]; cbn in *; [|done]. intros Henc. by rewrite He, Henc.
Qed.
Lemma quiet_persist room : keeps quiet (persist_room_state room).
Proof. unfold persist_room_state. keep_go. Qed.
Lemma quiet_timeline room l : keeps quiet (ingest_timeline room l).
Proof. unfold ingest_timeline. keep_go. Qed.
Lemma quiet_account_data room l : keeps quiet (apply_account_data room l).
Proof. unfold apply_account_data. keep_go. Qed.
#[local] Hint Resolve quiet_room_event quiet_persist quiet_timeline quiet_account_data : calm.

Lemma quiet_joined room j : keeps quiet (ingest_joined_room room j).
Proof.
  unfold ingest_joined_room. cbn beta zeta. keep_go. apply keeps_update. intros c. fields. intros room' enc.
  destruct (decide (room = room')) as [<-|]; simplify_map_eq; [|done]. by destruct (co_rooms c !! room).
Qed.
Lemma quiet_invited room j : keeps quiet (ingest_invited_room room j).
Proof. unfold ingest_invited_room. keep_go. Qed.
Lemma quiet_left room j : keeps quiet (ingest_left_room room j).
Proof. unfold ingest_left_room. keep_go. Qed.
Lemma quiet_messages room body : keeps quiet (ingest_room_messages_response room body).
Proof. unfold ingest_room_messages_response. keep_go. Qed.
(** An operation on the account and the store, and what follows. *)
Lemma quiet_account_op {A B} (f : MessengerCore → OlmAccountState * S * A) (k : MessengerCore → A → M B) :
  (∀ c, same_token (co_store c) (f c).1.2) → (∀ c a, keeps quiet (k c a)) →
  keeps quiet (c ← reads (λ c, c); let '(a, s, x) := f c in _ ← update (λ c, set_account a (set_store s c)); k c x).
Proof.
  intros Hf Hk c c' r. specialize (Hf c). unfold mbind, M_bind, reads, update. destruct (f c) as [[a s] x]. cbn in Hf.
  intros Hc. etrans; [|by eapply Hk]. by fields.
Qed.
Lemma quiet_key_counts x : keeps quiet (ingest_key_counts x).
Proof.
  unfold ingest_key_counts. do 2 (apply keeps_bind; [apply _|apply quiet_draw|intros ?]).
  apply (quiet_account_op (λ c, on_sync_counts (co_account c) (co_store c) _ _ _ _) (λ c y, _)); [intros c; apply token_sync_counts|keep_go].
Qed.
Lemma quiet_keys_uploaded : keeps quiet keys_uploaded.
Proof.
  unfold keys_uploaded. apply (quiet_account_op (λ c, on_keys_upload_response (co_account c) (co_store c)) (λ c y, _)); [intros c; apply token_keys_upload|keep_go].
Qed.
#[local] Hint Resolve quiet_joined quiet_invited quiet_left quiet_messages quiet_key_counts quiet_keys_uploaded : calm.

(** A sync: quiet but for the token, which its last step stores. *)
Lemma ingest_sync_run response c c' r : ingest_sync response c = Some (c', r) →
  (∃ e, r = Err e ∧ quiet c c') ∨
  ∃ c1, quiet c c1 ∧ r = Ok tt ∧ c' = set_store (es_save_sync_token (co_store c1) (sy_next_batch response)).1 c1 ∧
    token_view (co_store c') = Some (sy_next_batch response).
Proof.
  unfold ingest_sync.
  assert (Hend : ∀ A (m : M A) (k : A → M unit), keeps quiet m →
    (∀ a c0 c' r, k a c0 = Some (c', r) → (∃ e, r = Err e ∧ quiet c0 c') ∨ ∃ c1, quiet c0 c1 ∧ r = Ok tt ∧
       c' = set_store (es_save_sync_token (co_store c1) (sy_next_batch response)).1 c1 ∧ token_view (co_store c') = Some (sy_next_batch response)) →
    ∀ c0 c' r, (m ≫= k) c0 = Some (c', r) → (∃ e, r = Err e ∧ quiet c0 c') ∨ ∃ c1, quiet c0 c1 ∧ r = Ok tt ∧
       c' = set_store (es_save_sync_token (co_store c1) (sy_next_batch response)).1 c1 ∧ token_view (co_store c') = Some (sy_next_batch response)).
  { intros A m k Hm Hk c0 c2 r2. unfold mbind, M_bind. destruct (m c0) as [[c1 [a|e]]|] eqn:He; [| |discriminate].
    - intros [(e & -> & Hq)|(c3 & Hq & Hrest)]%Hk; [left|right]; eexists; (split; [|try exact Hrest]); try done; etrans; try eassumption; by eapply Hm.
    - intros [= <- <-]. left. exists e. split; [done|]. by eapply Hm. }
  revert c c' r. cbn beta zeta. repeat (apply Hend; [solve [keep_go]|intros ?]).
  intros c c' r. unfold store_does. destruct (token_saved (co_store c) (sy_next_batch response)) as (s' & Hs & Ht). rewrite Hs. cbn.
  intros [= <- <-]. right. exists c. rewrite Hs. split; [reflexivity|]. by split_and!.
Qed.

(** *** Answers *)

Lemma calm_create_room k x : keeps calm (on_create_room_response k x).
Proof. unfold on_create_room_response. keep_go. Qed.
Lemma quiet_update_xsign f : keeps quiet (update_cross_signing f).
Proof. unfold update_cross_signing. keep_go. Qed.
Lemma quiet_key_change x : keeps quiet (on_key_change x).
Proof. unfold on_key_change. keep_go. Qed.
#[local] Hint Resolve calm_create_room quiet_update_xsign quiet_key_change : calm.

Lemma calm_terminal i k room create x : k ≠ Some KSync → keeps calm (handle_terminal_success i k room create x).
Proof. intros Hk. unfold handle_terminal_success. destruct k as [[]|]; keep_go; done. Qed.
Lemma quiet_terminal i k room create x : k ≠ Some KSync → k ≠ Some CreateRoom → keeps quiet (handle_terminal_success i k room create x).
Proof. intros Hk Hk'. unfold handle_terminal_success. destruct k as [[]|]; keep_go; done. Qed.

(** ** The send pipeline, briskly *)

#[export] Instance weaker_base : Weaker base.
Proof. by intros c c' [[] ?]. Qed.

Lemma keeps_mono (R1 R2 : MessengerCore → MessengerCore → Prop) {A} (m : M A) : (∀ c c', R1 c c' → R2 c c') → keeps R1 m → keeps R2 m.
Proof. intros Hr Hm c c' r Hc. by eapply Hr, Hm. Qed.
Lemma base_of_brisk {A} (m : M A) : keeps brisk m → keeps base m.
Proof. apply keeps_mono. by intros c c' []. Qed.
Lemma base_of_calm {A} (m : M A) : keeps calm m → keeps base m.
Proof. apply keeps_mono. by intros c c' []. Qed.
#[local] Hint Resolve base_of_brisk base_of_calm : calm.

Lemma brisk_phase txn ph : keeps brisk (set_send_phase txn ph).
Proof. unfold set_send_phase. keep_go. Qed.
Lemma brisk_wire txn w : keeps brisk (set_send_wire txn w).
Proof. unfold set_send_wire. keep_go. Qed.
Lemma brisk_own i txn : keeps brisk (own_request i txn).
Proof. unfold own_request. keep_go. Qed.
#[local] Hint Resolve brisk_phase brisk_wire brisk_own : calm.
Lemma brisk_plaintext txn : keeps brisk (build_plaintext_wire_body txn).
Proof. unfold build_plaintext_wire_body. keep_go. Qed.
Lemma brisk_awaiting txn room : keeps brisk (begin_awaiting_send txn room).
Proof. unfold begin_awaiting_send. keep_go. Qed.
Lemma brisk_encrypt txn room : keeps brisk (finish_encrypt_and_send txn room).
Proof. unfold finish_encrypt_and_send. keep_go. Qed.
Lemma brisk_chunks txn key l x : keeps brisk (share_chunks txn key l x).
Proof. revert x. induction l as [|y l IH]; cbn [share_chunks]; keep_go. Qed.
#[local] Hint Resolve brisk_plaintext brisk_awaiting brisk_encrypt brisk_chunks : calm.
Lemma brisk_share txn room now : keeps brisk (begin_share_or_encrypt txn room now).
Proof. unfold begin_share_or_encrypt. keep_go. Qed.
#[local] Hint Resolve brisk_share : calm.
Lemma brisk_claim txn room now : keeps brisk (begin_keys_claim_or_share txn room now).
Proof. unfold begin_keys_claim_or_share. keep_go. Qed.
#[local] Hint Resolve brisk_claim : calm.
Lemma brisk_keys txn room now : keeps brisk (begin_key_pipeline txn room now).
Proof. unfold begin_key_pipeline. keep_go. Qed.
#[local] Hint Resolve brisk_keys : calm.
Lemma brisk_start txn now : keeps brisk (start_send_pipeline txn now).
Proof. unfold start_send_pipeline. keep_go. Qed.
#[local] Hint Resolve brisk_start : calm.
Lemma brisk_join room txn now : keeps brisk (join_queue room txn now).
Proof. unfold join_queue. keep_go. Qed.
#[local] Hint Resolve brisk_join : calm.
Lemma brisk_new room x txn now : keeps brisk (start_new_send room x txn now).
Proof. unfold start_new_send. keep_go. Qed.
Lemma brisk_retry room txn now : keeps brisk (retry_send room txn now).
Proof. unfold retry_send. keep_go. Qed.
Lemma brisk_finish room txn now : keeps brisk (finish_active_send room txn now).
Proof. unfold finish_active_send. keep_go. Qed.
#[local] Hint Resolve brisk_new brisk_retry brisk_finish : calm.
Lemma brisk_complete txn x now : keeps brisk (complete_send_success txn x now).
Proof. unfold complete_send_success. keep_go. Qed.
Lemma brisk_fail txn x now : keeps brisk (fail_send txn x now).
Proof. unfold fail_send. keep_go. Qed.
Lemma brisk_remaining txn i : keeps brisk (share_remaining txn i).
Proof. unfold share_remaining. keep_go. Qed.
#[local] Hint Resolve brisk_complete brisk_fail brisk_remaining : calm.
Lemma brisk_advance txn i k x now : keeps brisk (advance_send_on_success txn i k x now).
Proof. unfold advance_send_on_success. keep_go. Qed.
#[local] Hint Resolve brisk_advance : calm.

(** *** Commands *)

Lemma quiet_forward_payload a e b : keeps quiet (build_forward_payload a e b).
Proof. unfold build_forward_payload. keep_go. Qed.
Lemma quiet_owns_edit c0 room e : keeps quiet (owns_edit_target c0 room e).
Proof. unfold owns_edit_target. keep_go. Qed.
Lemma quiet_older room : keeps quiet (load_older room).
Proof. unfold load_older. keep_go. Qed.
Lemma quiet_typing room b now : keeps quiet (send_typing room b now).
Proof. unfold send_typing, simple_request. keep_go. Qed.
Lemma quiet_levels room f : keeps quiet (set_power_levels_request room f).
Proof. unfold set_power_levels_request, simple_request. keep_go. Qed.
Lemma quiet_create_room k : keeps quiet (dispatch_create_room k).
Proof. unfold dispatch_create_room. keep_go. Qed.
#[local] Hint Resolve quiet_forward_payload quiet_owns_edit quiet_older quiet_typing quiet_levels quiet_create_room : calm.

Lemma base_dispatch cmd now : keeps base (dispatch cmd now).
Proof. unfold dispatch, simple_request. keep_go. Qed.

(** *** The rest of a step *)

(** What the queue makes of an answer. *)
Lemma queue_response_run i resp now (c c' : MessengerCore) r : queue_response i resp now c = Some (c', r) →
  ∃ o s q n, r = Ok o ∧ c' = set_store s (set_outgoing q (set_draws n c)) ∧ same_token (co_store c) s ∧
    (∀ j p, pending q !! j = Some p → pending (co_outgoing c) !! j = Some p) ∧
    match o with
    | Ok (Some (Done x)) => x = resp ∧ pending q !! i = None
    | Ok (Some (Failed _ _)) => pending q !! i = None
    | _ => True
    end.
Proof.
  assert (Hc : ∀ q (s : S) p, pending q !! i = Some p → ∀ q' s' x, complete q s i = (q', s', x) →
    same_token s s' ∧ (∀ j p, pending q' !! j = Some p → pending q !! j = Some p) ∧ pending q' !! i = None).
  { intros q s p Hp q' s' x. unfold complete. rewrite Hp. pose proof (token_delete_pending s i) as Ht.
    destruct (delete_pending_request s i) as [s1 y]. intros [= <- <- <-]. split; [done|]. destruct (lane p); cbn; (split; [intros j p' [_ ?]%lookup_delete_Some; done|apply lookup_delete_eq]). }
  unfold queue_response, draw. unfold mbind, M_bind, reads, update. cbn. unfold on_response.
  destruct (pending (co_outgoing c) !! i) as [p|] eqn:Hp; cbn.
  2:{ intros [= <- <-]. exists (Ok None), (co_store c), (co_outgoing c), (Datatypes.S (co_draws c)). by split_and!. }
  destruct ((200 <=? status resp) && (status resp <? 300)).
  { destruct (complete (co_outgoing c) (co_store c) i) as [[q s] x] eqn:Hq. cbn. intros [= <- <-]. destruct (Hc _ _ _ Hp _ _ _ Hq) as (Ht & Hj & Hi).
    exists (result_map (λ _, Some (Done resp)) x), s, q, (Datatypes.S (co_draws c)). split_and!; try done. by destruct x. }
  destruct (status resp =? 429).
  { match goal with |- context [match ?x with Some ms => (_, ms) | None => _ end] => destruct x end; [|unfold next_backoff_ms]; cbn; intros [= <- <-];
      (eexists (Ok (Some (Retry _))), (co_store c), _, (Datatypes.S (co_draws c)); split_and!; [reflexivity..|by destruct (lane p)|done]). }
  destruct ((500 <=? status resp) && (status resp <? 600)).
  { unfold next_backoff_ms; cbn; intros [= <- <-]. eexists (Ok (Some (Retry _))), (co_store c), _, (Datatypes.S (co_draws c)); split_and!; [reflexivity..|by destruct (lane p)|done]. }
  match goal with |- context [let '(errcode, error) := ?x in _] => destruct x as [errcode error] end. destruct (complete (co_outgoing c) (co_store c) i) as [[q s] x] eqn:Hq. cbn. intros [= <- <-].
  destruct (Hc _ _ _ Hp _ _ _ Hq) as (Ht & Hj & Hi).
  exists (result_map (λ _, Some (Failed errcode error)) x), s, q, (Datatypes.S (co_draws c)). split_and!; try done. by destruct x.
Qed.

(** Neither a lost answer nor the release of requests changes what is pending. *)
Lemma transport_error_run i now (c c' : MessengerCore) r : core_on_transport_error i now c = Some (c', r) →
  ∃ q n, c' = set_outgoing q (set_draws n c) ∧ pending q = pending (co_outgoing c).
Proof.
  unfold core_on_transport_error, draw. unfold mbind, M_bind, reads, update. cbn. intros [= <- _]. eexists _, _. split; [done|].
  unfold on_transport_error. destruct (pending (co_outgoing c) !! i) as [p|]; [|done]. by destruct (lane p).
Qed.

Lemma release_loop_pending (s : S) now ids b q : pending (release_loop s now ids b q).1 = pending q.
Proof.
  revert b q. induction ids as [|i ids IH]; intros b q; cbn; [done|]. destruct (pending q !! i) as [p|]; [|apply IH].
  case_match; [apply IH|]. case_match; [|apply IH].
  match goal with |- context [release_loop s now ids ?b' ?q'] => specialize (IH b' q'); destruct (release_loop s now ids b' q') end.
  cbn in *. rewrite IH. by destruct (lane p).
Qed.

(** What a tick adds is one sync, when none is waited for. *)
Lemma releasable_run now (c c' : MessengerCore) r : releasable_requests now c = Some (c', r) →
  ∃ c1 x q, ensure_sync_enqueued c = Some (c1, x) ∧ c' = set_outgoing q c1 ∧ pending q = pending (co_outgoing c1).
Proof.
  unfold releasable_requests. unfold mbind, M_bind, reads, update. destruct (ensure_sync_enqueued c) as [[c1 [[]|e]]|] eqn:He; [| |done].
  - pose proof (release_loop_pending (co_store c1) now (OutgoingQueue.order (co_outgoing c1)) false (co_outgoing c1)) as Hq. unfold releasable.
    destruct (release_loop _ _ _ _ _) as [q out]. intros [= <- _]. by exists c1, (Ok tt), q.
  - intros [= <- _]. exists c1, (Err e), (co_outgoing c1). by destruct c1.
Qed.
(** A step is a command, an answer, a tick, or a quiet one. *)
Lemma engine_step_cases c c' : engine_step c c' →
  (∃ cmd now r, dispatch cmd now c = Some (c', r)) ∨ (∃ i x now r, core_on_response i x now c = Some (c', r)) ∨
  (∃ c1 x q, ensure_sync_enqueued c = Some (c1, x) ∧ c' = set_outgoing q c1 ∧ pending q = pending (co_outgoing c1)) ∨ quiet c c'.
Proof.
  destruct 1 as [cmd now r Hm|i x now r Hm|i now r Hm|now r Hm|r Hm|i r Hm|r Hm|r Hm|room r Hm|r Hm|r Hm].
  - left. eauto.
  - right. left. eauto 6.
  - do 3 right. apply transport_error_run in Hm as (q & n & -> & Hq). fields; rewrite Hq; auto.
  - right. right. left. by eapply releasable_run.
  - do 3 right. unfold core_take_flush_batch in Hm. rewrite run_reads in Hm. destruct (co_pending_flush_batches c).
    + pose proof (token_flush (co_store c)) as Ht. destruct (es_take_flush_batch (co_store c)) as [s b]. rewrite run_update in Hm.
      injection Hm as <- _. by fields.
    + rewrite run_update in Hm. injection Hm as <- _. fields.
  - do 3 right. apply update_run in Hm as ->. pose proof (token_ack (co_store c) i). by fields.
  - do 3 right. unfold drain_events in Hm. rewrite run_reads, run_update in Hm. injection Hm as <- _. fields.
  - do 3 right. unfold take_ingest_error in Hm. rewrite run_reads, run_update in Hm. injection Hm as <- _. fields.
  - do 3 right. revert Hm. assert (Hk : keeps quiet (pull_latest_page room)) by (unfold pull_latest_page; keep_go). apply Hk.
  - do 3 right. by eapply quiet_decrypt_loaded.
  - do 3 right. apply update_run in Hm as ->. fields.
Qed.
End Quiet.

#[export] Hint Resolve quiet_draw quiet_next_request_id quiet_next_txn_id quiet_emit quiet_outdated quiet_known quiet_missing quiet_stop_typing quiet_echo calm_store_cache
  calm_settle calm_write_account_data calm_merge_direct calm_tag_update quiet_apply_synced quiet_send_chunks quiet_olm_to_devices
  quiet_request_missing quiet_forward_binding quiet_requested_key quiet_answer quiet_apply_plaintext quiet_decrypt quiet_forget_pending
  quiet_retry_one quiet_retry_all quiet_retry_session quiet_retry_missing quiet_decrypt_row quiet_decrypt_loaded quiet_keep_undecryptable
  quiet_decrypt_new quiet_decrypt_news quiet_route quiet_decrypt_to_device quiet_process quiet_process_all quiet_retry_received quiet_retry_unknown
  quiet_keys_query quiet_xsign_state quiet_xsign quiet_track_joined quiet_room_event quiet_persist quiet_timeline quiet_account_data quiet_joined
  quiet_invited quiet_left quiet_messages quiet_key_counts quiet_keys_uploaded calm_create_room quiet_update_xsign quiet_key_change base_of_brisk
  base_of_calm brisk_phase brisk_wire brisk_own brisk_plaintext brisk_awaiting brisk_encrypt brisk_chunks brisk_share brisk_claim brisk_keys
  brisk_start brisk_join brisk_new brisk_retry brisk_finish brisk_complete brisk_fail brisk_remaining brisk_advance quiet_forward_payload
  quiet_owns_edit quiet_older quiet_typing quiet_levels quiet_create_room : calm.
