(* ===== verification/CoreSends.v ===== *)
(** * Messages leave a device encrypted

    A wire body the engine computes, and every request it queues to send one, is the plaintext of
    the payload only for a reaction, a redaction or a room that is not encrypted; else it is what
    the group session made of that payload. *)

From S2P Require Import Prelude Primitives Persist Ids OutgoingQueue OutgoingQueueProps Store Json CanonicalJson Events Relations Timeline RoomState DeviceTracker MegolmRatchet Megolm Olm OlmAccount AccountState OlmSessions GroupSessions Wire Core CoreSync CoreLogic.

Local Open Scope Z_scope.

Section Sends.
Context `{HmacSha256} `{MegolmCrypto} `{Curve25519} `{!EqDecision Curve25519PublicKey} `{!Countable Curve25519PublicKey}
  `{Primitives} `{MegolmWire} `{OlmProst} `{Ed25519Keys} `{!EqDecision Ed25519PublicKey} `{!Ed25519Secrets}
  `{JsonText} `{EventSerde} `{StateSerde} `{!CoreSerde} `{!AccountSerde} `{!OlmSerde} `{!GroupSerde}
  `{!DeviceSerde (Curve25519PublicKey := Curve25519PublicKey)} `{!Entropy}
  {S : Type} `{!StateStore S} `{FlushEpoch S} `{CryptoStore S} `{AccountStore S} `{OlmStore S} `{GroupStore S}
  `{CrossSigningStore S} `{EngineStore S} `{!EngineStoreLaws}.

#[local] Abbreviation MessengerCore := (Core.MessengerCore (S := S)).
#[local] Abbreviation M := (Core.M (S := S)).

#[local] Abbreviation calm := (meet base still).
#[local] Abbreviation quiet := (meet calm books).

(** What a group session made of the payload of a send. *)
Definition sealed_as (room : RoomId) (p : SendPayload) (w : WireSend) : Prop :=
  ∃ wire s sender_key device s' content v, room_event p = Some wire ∧
    encrypt_event s room sender_key device (rw_event_type wire) (rw_content wire) (rw_relates_to wire) = Some (s', Ok content) ∧
    encrypted_megolm_value content = Ok v ∧ w = WEvent "m.room.encrypted" v.

(** A wire body that may be computed of a payload in a room. *)
Definition wire_ok (c : MessengerCore) (room : RoomId) (p : SendPayload) (w : WireSend) : Prop :=
  plaintext_wire p = Some w ∧ (is_room_event p = false ∨ co_rooms c !! room ≫= encryption = None) ∨ sealed_as room p w.

(** A body that was computed before. *)
Definition settled (c : MessengerCore) (txn : TxnId) (room : RoomId) (p : SendPayload) (w : WireSend) : Prop :=
  ∃ s, co_send_state c !! txn = Some s ∧ ps_room_id s = room ∧ ps_payload s = p ∧ ps_wire s = Some w.

Definition carries c txn room p w : Prop := wire_ok c room p w ∨ settled c txn room p w.

Record guarded (c c' : MessengerCore) : Prop := {
  gu_encryption room e : co_rooms c !! room ≫= encryption = Some e → co_rooms c' !! room ≫= encryption = Some e;
  gu_wires txn room p w : settled c' txn room p w → carries c txn room p w;
  gu_requests i q : pending (co_outgoing c') !! i = Some q → kind (request q) = RoomSend →
    pending (co_outgoing c) !! i = Some q ∨
    ∃ txn room p w, request q = wire_request i room txn w ∧ carries c txn room p w }.

Lemma carries_back c c' txn room p w : guarded c c' → carries c' txn room p w → carries c txn room p w.
Proof.
  intros G [[(Hp & Hor)|Hs]|Hs]; [left; left|left; by right|by apply (gu_wires _ _ G)].
  split; [done|]. destruct Hor as [?|Hn]; [by left|right]. destruct (co_rooms c !! room ≫= encryption) as [e|] eqn:He; [|done].
  apply (gu_encryption _ _ G) in He. congruence.
Qed.

#[export] Instance guarded_pre : PreOrder guarded.
Proof.
  split; [intros c; split; auto; by right|]. intros c1 c2 c3 R1 R2. split.
  - intros room e He. by apply (gu_encryption _ _ R2), (gu_encryption _ _ R1).
  - intros txn room p w Hs. eapply carries_back, gu_wires; eassumption.
  - intros i q Hi Hk. destruct (gu_requests _ _ R2 i q Hi Hk) as [H1'|(txn & room & p & w & Hq & Hc)]; [by apply (gu_requests _ _ R1)|].
    right. exists txn, room, p, w. split; [done|]. by eapply carries_back.
Qed.

#[export] Instance weaker_guarded : Weaker guarded.
Proof.
  intros c c' [[B [Hs _ _ Hr]] _]. split; [apply B| |].
  - intros txn room p w (s & Hl & Hrest). right. exists s. by rewrite <- Hs.
  - intros i q Hi Hk. destruct (Hr i q Hi); [by left|done].
Qed.

(** A send is in this room. *)
Definition sent_in (txn : TxnId) (room : RoomId) (c : MessengerCore) : Prop := ∀ s, co_send_state c !! txn = Some s → ps_room_id s = room.

Definition through (txn : TxnId) (room : RoomId) (c c' : MessengerCore) : Prop := sent_in txn room c → guarded c c' ∧ sent_in txn room c'.

#[export] Instance through_pre txn room : PreOrder (through txn room).
Proof. split; [intros c Hc; split; [reflexivity|done]|]. intros c1 c2 c3 R1 R2 Hc. destruct (R1 Hc) as [? Hc2], (R2 Hc2). split; [by etrans|done]. Qed.

#[export] Instance weaker_through txn room : Weaker (through txn room).
Proof. intros c c' Q Hc. split; [by apply weaker_guarded|]. intros s. destruct Q as [[_ [Hs _ _ _]] _]. rewrite Hs. apply Hc. Qed.

(** ** Changes of the sends *)

(** The sends after a change say nothing new of rooms, payloads and bodies. *)
Definition tamer (m' m : gmap TxnId PendingSend) : Prop :=
  ∀ txn s', m' !! txn = Some s' → ps_wire s' = None ∨
    ∃ s, m !! txn = Some s ∧ ps_room_id s' = ps_room_id s ∧ ps_payload s' = ps_payload s ∧ ps_wire s' = ps_wire s.

Lemma guarded_sends m c : tamer m (co_send_state c) → guarded c (set_send_state m c).
Proof.
  intros Ht. split; [done| |by left]. intros txn room p w (s' & Hl & <- & <- & Hw). right.
  destruct (Ht txn s' Hl) as [?|(s & ? & Hr & Hp & Hws)]; [congruence|]. exists s. by rewrite Hr, Hp, <- Hws.
Qed.

Lemma tamer_phase m txn ph : tamer (alter (λ p, mkPendingSend (ps_room_id p) (ps_payload p) ph (ps_wire p)) txn m) m.
Proof. intros txn' s'. rewrite lookup_alter_Some. intros [(<- & s & Hs & ->)|[_ ?]]; right; eauto. Qed.

(** A body that waits to be sent is sent as it is. *)
Definition carrying (txn : TxnId) (room : RoomId) (p : SendPayload) (w : WireSend) (c c' : MessengerCore) : Prop :=
  settled c txn room p w → guarded c c' ∧ settled c' txn room p w.

#[local] Instance carrying_pre txn room p w : PreOrder (carrying txn room p w).
Proof. split; [intros c Hc; split; [reflexivity|done]|]. intros c1 c2 c3 R1 R2 Hc. destruct (R1 Hc) as [? Hc2], (R2 Hc2). split; [by etrans|done]. Qed.

#[local] Instance weaker_carrying txn room p w : Weaker (carrying txn room p w).
Proof. intros c c' Q (s & Hs). split; [by apply weaker_guarded|]. exists s. destruct Q as [[_ [-> _ _ _]] _]. done. Qed.

Lemma carrying_phase txn room p w ph : keeps (carrying txn room p w) (set_send_phase txn ph).
Proof.
  apply keeps_update. intros c (s & Hl & Hr & Hp & Hw). split; [apply guarded_sends, tamer_phase|].
  eexists. cbn. rewrite lookup_alter_eq, Hl. by split_and!.
Qed.

Lemma guarded_owners m c : guarded c (set_send_request_owner m c).
Proof. split; [done| |by left]. intros txn room p w Hs. by right. Qed.

Lemma carrying_own txn room p w i txn' : keeps (carrying txn room p w) (own_request i txn').
Proof. apply keeps_update. intros c (s & Hs). split; [apply guarded_owners|by exists s]. Qed.

Lemma carrying_enqueue txn room p w i l : keeps (carrying txn room p w) (enqueue_request (wire_request i room txn w) l).
Proof.
  intros c c' r (st & b & q & k & -> & Ht & Hq & _)%enqueue_shape Hs. split; [|destruct Hs as (s & Hs); by exists s].
  split; [done|intros txn' room' p' w' (s' & Hs'); right; by exists s'|]. cbn. intros j x Hj _.
  destruct (Hq j x Hj) as [?|[-> Hx]]; [by left|]. right. exists txn, room, p, w. rewrite Hx. split; [by destruct w|by right].
Qed.
#[local] Hint Resolve carrying_phase carrying_own carrying_enqueue : calm.

(** A method run from one state. *)
Lemma keeps_from (R : MessengerCore → MessengerCore → Prop) `{!PreOrder R} {A B} (m : M A) (k : A → M B) c c' r :
  (∀ c1 x, m c = Some (c1, x) → R c c1) → (∀ a, keeps R (k a)) → (m ≫= k) c = Some (c', r) → R c c'.
Proof.
  intros Hm Hk. unfold mbind, M_bind. destruct (m c) as [[c1 [a|e]]|] eqn:He; [|intros [= <- _]; by eapply Hm|discriminate].
  intros Hc. etrans; [by eapply Hm|by eapply Hk].
Qed.

Lemma through_awaiting txn room : keeps (through txn room) (begin_awaiting_send txn room).
Proof.
  intros c c' r Hr Hin. unfold begin_awaiting_send in Hr. rewrite run_reads in Hr.
  destruct (co_send_state c !! txn ≫= ps_wire) as [w|] eqn:Hw; [|injection Hr as <- _; by split].
  destruct (co_send_state c !! txn) as [s|] eqn:Hs; [|done]. assert (Hset : settled c txn room (ps_payload s) w) by (exists s; auto).
  assert (Hk : carrying txn room (ps_payload s) w c c').
  { revert Hr. apply (keeps_from _ next_request_id); [intros c1 x Hc; eapply keeps_weaker; [apply _|apply quiet_next_request_id|exact Hc]|]. intros i.
    apply keeps_bind; [apply _|auto with calm nocore|intros _]. apply keeps_bind; [apply _|auto with calm nocore|intros _]. auto with calm nocore. }
  destruct (Hk Hset) as [Hg (s' & Hl & Hroom & _)]. split; [done|]. intros s2 Hs2. congruence.
Qed.

(** ** Wire bodies *)

Lemma through_sends txn room m c : tamer m (co_send_state c) → (∀ s, m !! txn = Some s → ∃ s0, co_send_state c !! txn = Some s0 ∧ ps_room_id s = ps_room_id s0) →
  through txn room c (set_send_state m c).
Proof. intros Ht Hm Hin. split; [by apply guarded_sends|]. intros s (s0 & Hs0 & ->)%Hm. by apply Hin. Qed.

Lemma through_phase txn room ph : keeps (through txn room) (set_send_phase txn ph).
Proof.
  apply keeps_update. intros c. apply through_sends; [apply tamer_phase|].
  intros s Hl. apply lookup_alter_Some in Hl as [(_ & s0 & Hs & ->)|[? _]]; [by exists s0|done].
Qed.

Lemma through_own txn room i txn' : keeps (through txn room) (own_request i txn').
Proof. apply keeps_update. intros c Hin. split; [apply guarded_owners|done]. Qed.
#[local] Hint Resolve through_phase through_own through_awaiting : calm.

Lemma through_wire txn room w c c' r : (∀ s, co_send_state c !! txn = Some s → wire_ok c (ps_room_id s) (ps_payload s) w) →
  set_send_wire txn w c = Some (c', r) → through txn room c c'.
Proof.
  intros Hw [= <- _] Hin. split; [split; [done| |by left]|].
  - intros txn' room' p w' (s' & Hl & <- & <- & Hw'). cbn in Hl. apply lookup_alter_Some in Hl as [(<- & s & Hs & ->)|[_ Hs]]; [|right; by exists s'].
    left. cbn in *. injection Hw' as <-. by apply Hw.
  - intros s' Hl. cbn in Hl. apply lookup_alter_Some in Hl as [(_ & s & Hs & ->)|[? _]]; [exact (Hin s Hs)|done].
Qed.

Lemma through_plaintext txn room c c' r :
  (∀ s, co_send_state c !! txn = Some s → is_room_event (ps_payload s) = false ∨ co_rooms c !! ps_room_id s ≫= encryption = None) →
  build_plaintext_wire_body txn c = Some (c', r) → through txn room c c'.
Proof.
  intros Hs. unfold build_plaintext_wire_body. rewrite run_reads.
  destruct (co_send_state c !! txn) as [s|] eqn:Hl; cbn; [|by intros [= <- _]].
  destruct (plaintext_wire (ps_payload s)) as [w|] eqn:Hw; [|by intros [= <- _]].
  apply through_wire. intros s'. rewrite Hl. intros [= <-]. left. auto.
Qed.

Lemma through_encrypt txn room : keeps (through txn room) (finish_encrypt_and_send txn room).
Proof.
  intros c c' r. unfold finish_encrypt_and_send. rewrite run_reads.
  destruct (co_send_state c !! txn) as [s|] eqn:Hl; cbn; [|by intros [= <- _]].
  destruct (room_event (ps_payload s)) as [wire|] eqn:Hw; [|by intros [= <- _]]. rewrite run_reads. cbn. unfold mbind at 1, M_bind, store_may_panic.
  destruct (encrypt_event _ _ _ _ _ _ _) as [[s1 [content|e]]|] eqn:He; cbn; [| |discriminate].
  - apply token_encrypt_event in He as Ht. cbn in Ht. apply quiet_store in Ht. unfold mbind, M_bind, lift.
    destruct (encrypted_megolm_value content) as [v|] eqn:Hv; cbn; [|intros [= <- _]; by apply weaker_through].
    intros Hr. etrans; [apply weaker_through; exact Ht|]. intros Hin. refine (through_wire _ _ _ _ _ _ _ Hr Hin).
    intros s'. cbn. rewrite Hl. intros [= <-]. right. rewrite (Hin s Hl). by eexists wire, _, _, _, _, content, v.
  - apply token_encrypt_event in He. cbn in He. intros [= <- _]. by apply weaker_through, quiet_store.
Qed.
#[local] Hint Resolve through_encrypt : calm.

Lemma through_chunks txn room key l x : keeps (through txn room) (share_chunks txn key l x).
Proof. revert x. induction l as [|y l IH]; cbn [share_chunks]; keep_go. Qed.
#[local] Hint Resolve through_chunks : calm.

Lemma through_share txn room now : keeps (through txn room) (begin_share_or_encrypt txn room now).
Proof.
  intros c c' r. unfold begin_share_or_encrypt. rewrite run_reads. destruct (co_rooms c !! room ≫= encryption) as [enc|] eqn:He.
  - cbn beta iota. match goal with |- ?m c = _ → _ => assert (Hk : keeps (through txn room) m); [|by apply Hk] end. keep_go.
  - cbn beta iota. intros Hr Hin. refine (keeps_from (through txn room) _ _ _ _ _ _ _ Hr Hin); [|intros _; apply through_awaiting].
    intros c2 y Hc. eapply through_plaintext; [|exact Hc]. intros s Hs. right. by rewrite (Hin s Hs).
Qed.
#[local] Hint Resolve through_share : calm.

Lemma through_claim txn room now : keeps (through txn room) (begin_keys_claim_or_share txn room now).
Proof. unfold begin_keys_claim_or_share. keep_go. Qed.
#[local] Hint Resolve through_claim : calm.
Lemma through_keys txn room now : keeps (through txn room) (begin_key_pipeline txn room now).
Proof. unfold begin_key_pipeline. keep_go. Qed.
#[local] Hint Resolve through_keys : calm.

(** ** The pipeline of any send *)

Lemma guarded_pending f c : (∀ i q, pending f !! i = Some q → pending (co_outgoing c) !! i = Some q) → guarded c (set_outgoing f c).
Proof. intros Hf. split; [done|intros txn room p w (s & Hs); right; by exists s|]. intros i q Hi _. left. by apply Hf. Qed.

Lemma through_run txn room {A} (m : M A) c c' r : keeps (through txn room) m → sent_in txn room c → m c = Some (c', r) → guarded c c'.
Proof. intros Hm Hin Hc. by destruct (Hm _ _ _ Hc Hin). Qed.

Lemma guarded_start txn now : keeps guarded (start_send_pipeline txn now).
Proof.
  intros c c' r. unfold start_send_pipeline. rewrite run_reads. destruct (co_send_state c !! txn) as [s|] eqn:Hs; [|by intros [= <- _]].
  assert (Hin : sent_in txn (ps_room_id s) c) by (intros s'; rewrite Hs; by intros [= <-]).
  cbn beta iota zeta. destruct (is_some (ps_wire s)); [by apply (through_run txn (ps_room_id s)); [apply through_awaiting|]|].
  destruct (is_room_event (ps_payload s) && is_some (co_rooms c !! ps_room_id s ≫= encryption)) eqn:Hb.
  - by apply (through_run txn (ps_room_id s)); [apply through_keys|].
  - intros Hr. refine (proj1 (keeps_from (through txn (ps_room_id s)) _ _ _ _ _ _ _ Hr Hin)); [|intros _; apply through_awaiting].
    intros c1 x Hc. eapply through_plaintext; [|exact Hc]. intros s'. rewrite Hs. intros [= <-].
    destruct (is_room_event (ps_payload s)); [right|by left]. by destruct (co_rooms c !! ps_room_id s ≫= encryption).
Qed.
#[local] Hint Resolve guarded_start : calm.

Lemma guarded_queues m c : guarded c (set_pending_sends m c).
Proof. split; [done|intros txn room p w (s & Hs); right; by exists s|by left]. Qed.

Lemma guarded_phase txn ph : keeps guarded (set_send_phase txn ph).
Proof. apply keeps_update. intros c. apply guarded_sends, tamer_phase. Qed.
Lemma guarded_update_queues f : keeps guarded (update (λ c, set_pending_sends (f c) c)).
Proof. apply keeps_update. intros c. apply guarded_queues. Qed.
#[local] Hint Resolve guarded_phase guarded_update_queues : calm.

Lemma guarded_join room txn now : keeps guarded (join_queue room txn now).
Proof. unfold join_queue. keep_go. Qed.
#[local] Hint Resolve guarded_join : calm.

Lemma guarded_new room x txn now : keeps guarded (start_new_send room x txn now).
Proof.
  unfold start_new_send. keep_go. apply keeps_update. intros c. apply guarded_sends. intros txn' s'.
  intros [[<- <-]|[_ Hs]]%lookup_insert_Some; [by left|right; by exists s'].
Qed.
Lemma guarded_retry room txn now : keeps guarded (retry_send room txn now).
Proof. unfold retry_send. keep_go. Qed.
Lemma guarded_finish room txn now : keeps guarded (finish_active_send room txn now).
Proof. unfold finish_active_send. keep_go. Qed.
#[local] Hint Resolve guarded_new guarded_retry guarded_finish : calm.

Lemma guarded_complete txn x now : keeps guarded (complete_send_success txn x now).
Proof.
  unfold complete_send_success. keep_go. apply keeps_update. intros c. apply guarded_sends. intros txn' s'.
  intros [_ Hs]%lookup_delete_Some. right. by exists s'.
Qed.
Lemma guarded_fail txn x now : keeps guarded (fail_send txn x now).
Proof. unfold fail_send. keep_go. Qed.
Lemma guarded_remaining txn i : keeps guarded (share_remaining txn i).
Proof. unfold share_remaining. keep_go. Qed.
#[local] Hint Resolve guarded_complete guarded_fail guarded_remaining : calm.

Lemma guarded_advance txn i k x now : keeps guarded (advance_send_on_success txn i k x now).
Proof.
  intros c c' r. unfold advance_send_on_success. rewrite run_reads.
  destruct (co_send_state c !! txn) as [s|] eqn:Hs.
  - assert (Hin : sent_in txn (ps_room_id s) c) by (intros s'; rewrite Hs; by intros [= <-]).
    cbn beta iota. destruct k as [[]|]; try (by intros [= <- _]); try (apply guarded_complete).
    all: intros Hr; eapply (through_run txn (ps_room_id s)); [|exact Hin|exact Hr]; clear Hr; keep_go.
    unfold share_remaining. keep_go.
  - cbn beta iota. destruct k as [[]|]; try (by intros [= <- _]); apply guarded_complete.
Qed.
#[local] Hint Resolve guarded_advance : calm.

(** ** Commands and answers *)

Lemma guarded_of_calm {A} (m : M A) : keeps calm m → keeps guarded m.
Proof.
  apply keeps_mono. intros c c' [B [Hs _ _ Hr]]. split; [apply B| |].
  - intros txn rm p w (s & Hl & ?). right. exists s. by rewrite <- Hs.
  - intros j q Hi Hkq. destruct (Hr j q Hi); [by left|done].
Qed.
#[local] Hint Resolve guarded_of_calm : calm.

Lemma guarded_dispatch cmd now : keeps guarded (dispatch cmd now).
Proof. unfold dispatch, simple_request. keep_go. Qed.

(** A change of fields that are not about sends. *)
Lemma guarded_same c c' : co_rooms c' = co_rooms c → co_send_state c' = co_send_state c → pending (co_outgoing c') = pending (co_outgoing c) → guarded c c'.
Proof.
  intros Hr Hs Hp. split; [by rewrite Hr|intros txn room p w (s & Hl & ?); right; exists s; by rewrite <- Hs|]. rewrite Hp. by left.
Qed.
#[local] Hint Extern 1 (keeps guarded (update _)) => apply keeps_update; intros ?; apply guarded_same; reflexivity : calm.

Lemma guarded_forget i k b : keeps guarded (forget_request i k b).
Proof. unfold forget_request. keep_go. Qed.
#[local] Hint Resolve guarded_forget : calm.

Lemma guarded_enqueue req l : kind req ≠ RoomSend → keeps guarded (enqueue_request req l).
Proof.
  intros Hk c c' r (st & b & q & k & -> & _ & Hq & _)%enqueue_shape. split; [done|intros txn room p w (s & Hs); right; by exists s|].
  cbn. intros i x Hi Hx. destruct (Hq i x Hi) as [?|[_ Hr]]; [by left|congruence].
Qed.

Lemma guarded_sync response : keeps guarded (ingest_sync response).
Proof.
  intros c c' r [(e & _ & Hq)|(c1 & Hq & _ & -> & _)]%ingest_sync_run; [by apply weaker_guarded|].
  etrans; [by apply weaker_guarded|by apply guarded_same].
Qed.
#[local] Hint Resolve guarded_sync : calm.

Lemma guarded_terminal i k room create x : keeps guarded (handle_terminal_success i k room create x).
Proof.
  destruct (decide (k = Some KSync)) as [->|Hk]; [unfold handle_terminal_success; keep_go|].
  by apply guarded_of_calm, calm_terminal.
Qed.
#[local] Hint Resolve guarded_terminal : calm.

Lemma guarded_finish_request i k room create owner terminal now : keeps guarded (finish_request i k room create owner terminal now).
Proof. unfold finish_request. keep_go. Qed.
#[local] Hint Resolve guarded_finish_request : calm.

Lemma guarded_response i resp now : keeps guarded (core_on_response i resp now).
Proof.
  unfold core_on_response, drain_events. keep_go. intros c c' r (o & s & q & n & _ & -> & _ & Hq & _)%queue_response_run.
  split; [done|intros txn rm p w (x & ?); right; by exists x|by left; apply Hq].
Qed.

Lemma guarded_ensure_sync : keeps guarded ensure_sync_enqueued.
Proof. unfold ensure_sync_enqueued. keep_go. by apply guarded_enqueue. Qed.

Lemma guarded_step c c' : engine_step c c' → guarded c c'.
Proof.
  intros [(cmd & now & r & Hm)|[(i & x & now & r & Hm)|[(c1 & x & q & He & -> & Hq)|Hq]]]%engine_step_cases.
  - by eapply guarded_dispatch.
  - by eapply guarded_response.
  - etrans; [by eapply guarded_ensure_sync|by apply guarded_same].
  - by apply weaker_guarded.
Qed.

(** ** Theorems *)

(** C6: Over every run of the engine, a request that sends a room event and was not pending before is
    the wire body of some payload in some room, and that body is the plaintext of the payload only
    when it is a reaction or a redaction, or when the room was not encrypted when the run began;
    else it is the [m.room.encrypted] event a group session made of that very payload for that
    room, or a body that was computed before the run. *)
Theorem room_events_leave_sealed c c' i q :
  rtc engine_step c c' → pending (co_outgoing c') !! i = Some q → kind (request q) = RoomSend →
  pending (co_outgoing c) !! i = Some q ∨
  ∃ txn room p w, request q = wire_request i room txn w ∧
    (plaintext_wire p = Some w ∧ (is_room_event p = false ∨ co_rooms c !! room ≫= encryption = None) ∨
     sealed_as room p w ∨ settled c txn room p w).
Proof.
  intros Hr. assert (Hg : guarded c c') by (induction Hr; [done|etrans; [by apply guarded_step|done]]).
  intros Hi Hk. destruct (gu_requests _ _ Hg i q Hi Hk) as [?|(txn & room & p & w & Hq & [[Hp|Hs]|Hs])]; [by left|right..].
  all: exists txn, room, p, w; auto.
Qed.

(** ** A send that fails after it left its queue *)

(** A second failing key share of a send runs [finish_active_send] again: the send is no longer in
    the queue, and the pipeline of the one that has taken its place is started once more. *)
Lemma late_failure_restarts_next c room txn next rest now :
  co_pending_sends c !! room = Some (next :: rest) → txn ∉ next :: rest →
  finish_active_send room txn now c = ignore (start_send_pipeline next now) c.
Proof.
  intros Hq Hnot. unfold finish_active_send. rewrite run_update.
  assert (Hsame : alter (λ queue, if bool_decide (head queue = Some txn) then tail queue else filter (λ i, i ≠ txn) queue) room (co_pending_sends c) = co_pending_sends c).
  { apply alter_id. intros queue. rewrite Hq. intros [= <-]. rewrite bool_decide_eq_false_2 by (cbn; set_solver).
    revert Hnot. generalize (next :: rest). clear. intros l. induction l as [|x l IH]; [done|]. intros Hx. rewrite filter_cons_True by set_solver. f_equal. set_solver. }
  rewrite Hsame. replace (set_pending_sends (co_pending_sends c) c) with c by by destruct c. rewrite run_reads, Hq. done.
Qed.
End Sends.
