(* ===== verification/CoreQueue.v ===== *)
(** * The edits that wait in the queue

    An account-data request names its slot in its path, and the slot reads back from it. The table
    of edits that the engine keeps and the requests that wait in its queue are tied: every counted
    edit waits, and every edit that waits is counted. *)

From Stdlib Require Import Ascii.
From S2P Require Import Prelude Primitives Persist Ids OutgoingQueue OutgoingQueueProps Store Json CanonicalJson Events Relations Timeline RoomState DeviceTracker MegolmRatchet Megolm Olm OlmAccount AccountState OlmSessions GroupSessions Wire Core CoreSync CoreLogic CoreSends.

Local Open Scope Z_scope.

(** ** Paths *)

(** Text without a byte. *)
Definition without (a : ascii) : string → bool := all_bytes (λ c, negb (Ascii.eqb c a)).

Lemma without_cons a x s : without a (String x s) = true → x ≠ a ∧ without a s = true.
Proof. unfold without. rewrite all_bytes_cons. intros [Hx Hs]%andb_true_iff. split; [|done]. intros ->. by rewrite Ascii.eqb_refl in Hx. Qed.

Lemma strip_prefix_ne a b p s : a ≠ b → strip_prefix (String a p) (String b s) = None.
Proof. intros Hne. cbn [strip_prefix]. by destruct (Ascii.eqb_spec a b). Qed.

Lemma replace_skip fuel a pattern value w s :
  without a w = true →
  replace_loop (String.length w + fuel) (String a pattern) value (w +:+ s) = w +:+ replace_loop fuel (String a pattern) value s.
Proof.
  induction w as [|x w IH]; [done|]. intros [Hx Hw]%without_cons. rewrite s_app_cons. cbn [String.length Nat.add replace_loop].
  rewrite strip_prefix_ne by done. rewrite IH by done. done.
Qed.

(** A placeholder after text without its first byte. *)
Lemma replace_last a pattern value w :
  without a w = true → str_replace (String a pattern) value (w +:+ String a pattern) = w +:+ value.
Proof.
  intros Hw. unfold str_replace. assert (Hl : String.length (w +:+ String a pattern) = (String.length w + String.length (String a pattern))%nat).
  { pose proof (slen_app w (String a pattern)) as Hl. unfold slen in Hl. lia. }
  rewrite Hl, replace_skip by done. f_equal. cbn [String.length replace_loop].
  rewrite <- (s_app_nil_r (String a pattern)) at 2. rewrite strip_prefix_app. destruct (String.length pattern); apply s_app_nil_r.
Qed.

Lemma split_slash_char x s : x ≠ "/"%char →
  split_slash (String x s) = match split_slash s with [] => [String x EmptyString] | w :: ws => String x w :: ws end.
Proof. intros Hx. cbn [split_slash]. by destruct (Ascii.eqb_spec x "/"). Qed.

Lemma split_slash_word w : without "/" w = true → split_slash w = [w].
Proof. induction w as [|x w IH]; [done|]. intros [Hx Hw]%without_cons. by rewrite split_slash_char, IH by done. Qed.

Lemma split_slash_cons w s : without "/" w = true → split_slash (w +:+ String "/" s) = w :: split_slash s.
Proof. induction w as [|x w IH]; [done|]. intros [Hx Hw]%without_cons. by rewrite s_app_cons, split_slash_char, IH by done. Qed.

Lemma encoded_byte_table :
  forallb (λ n, without "{" (percent_encode_byte (ascii_of_nat n))) (seq 0 256) = true.
Proof. vm_compute. reflexivity. Qed.

Lemma encoded_without_brace s : without "{" (percent_encode_segment s) = true.
Proof.
  induction s as [|b s IH]; [done|]. cbn [percent_encode_segment]. unfold without in *. rewrite all_bytes_app, IH, andb_true_r.
  pose proof encoded_byte_table as Ht. rewrite forallb_forall in Ht. specialize (Ht (nat_of_ascii b)). rewrite ascii_nat_embedding in Ht.
  apply Ht, in_seq. pose proof (nat_ascii_bounded b). lia.
Qed.

Lemma encoded_without_slash s : without "/" (percent_encode_segment s) = true.
Proof. apply percent_encode_no_slash. Qed.

Section EditPaths.
Context `{JsonText}.

(** The slot an account-data request writes, as its path names it. *)
Definition written (r : OutgoingRequest) : option AccountDataKey :=
  match kind r with
  | KAccountData | RoomAccountData => _ ← req_body r; account_data_key_from_path (path r)
  | _ => None
  end.

(** The request of an edit. *)
Definition edit_request (i : RequestId) (u : UserId) (key : AccountDataKey) (v : Value) : OutgoingRequest :=
  match key.1 with
  | Some room => Requests.room_account_data i u room key.2 v
  | None => Requests.account_data i u key.2 v
  end.

(** A slot that a path can name: its texts are UTF-8, and its room id parses. *)
Definition nameable (key : AccountDataKey) : Prop :=
  utf8_valid key.2 = true ∧ ∀ room, key.1 = Some room → utf8_valid (RoomId_str room) = true ∧ RoomId_parse (RoomId_str room) = Ok room.

Lemma global_path u ty :
  substitute "/_matrix/client/v3/user/{user_id}/account_data/{event_type}" [("{user_id}", u); ("{event_type}", ty)] =
  "/_matrix/client/v3/user/" +:+ percent_encode_segment u +:+ "/account_data/" +:+ percent_encode_segment ty.
Proof.
  unfold substitute. cbn [foldl].
  change (str_replace "{user_id}" (percent_encode_segment u) "/_matrix/client/v3/user/{user_id}/account_data/{event_type}") with
    ("/_matrix/client/v3/user/" +:+ percent_encode_segment u +:+ "/account_data/{event_type}").
  change ("/account_data/{event_type}") with ("/account_data/" +:+ "{event_type}"). rewrite <- !s_app_assoc.
  rewrite replace_last; [done|]. unfold without. rewrite !all_bytes_app. fold (without "{"). by rewrite encoded_without_brace.
Qed.

Lemma room_path_text u room ty :
  substitute "/_matrix/client/v3/user/{user_id}/rooms/{room_id}/account_data/{event_type}"
    [("{user_id}", u); ("{room_id}", room); ("{event_type}", ty)] =
  "/_matrix/client/v3/user/" +:+ percent_encode_segment u +:+ "/rooms/" +:+ percent_encode_segment room +:+ "/account_data/" +:+ percent_encode_segment ty.
Proof.
  unfold substitute. cbn [foldl].
  change (str_replace "{user_id}" (percent_encode_segment u) "/_matrix/client/v3/user/{user_id}/rooms/{room_id}/account_data/{event_type}") with
    ("/_matrix/client/v3/user/" +:+ percent_encode_segment u +:+ "/rooms/{room_id}/account_data/{event_type}").
  assert (Hroom : str_replace "{room_id}" (percent_encode_segment room)
      ("/_matrix/client/v3/user/" +:+ percent_encode_segment u +:+ "/rooms/{room_id}/account_data/{event_type}") =
    "/_matrix/client/v3/user/" +:+ percent_encode_segment u +:+ "/rooms/" +:+ percent_encode_segment room +:+ "/account_data/{event_type}").
  { unfold str_replace. change ("/rooms/{room_id}/account_data/{event_type}") with ("/rooms/" +:+ "{room_id}/account_data/{event_type}").
    rewrite <- !s_app_assoc. set (w := ("/_matrix/client/v3/user/" +:+ percent_encode_segment u) +:+ "/rooms/").
    assert (Hw : without "{" w = true) by (unfold w, without; rewrite !all_bytes_app; fold (without "{"); by rewrite encoded_without_brace).
    assert (Hl : String.length (w +:+ "{room_id}/account_data/{event_type}") = (String.length w + 35)%nat).
    { pose proof (slen_app w "{room_id}/account_data/{event_type}") as Hl. unfold slen in Hl. cbn in Hl. lia. }
    rewrite Hl, replace_skip by done. rewrite s_app_assoc. reflexivity. }
  rewrite Hroom. change ("/account_data/{event_type}") with ("/account_data/" +:+ "{event_type}"). rewrite <- !s_app_assoc.
  rewrite replace_last; [done|]. unfold without. rewrite !all_bytes_app. fold (without "{"). by rewrite !encoded_without_brace.
Qed.

Lemma decode_encoded_segment s : percent_decode_segment (percent_encode_segment s) = if utf8_valid s then Some s else None.
Proof. unfold percent_decode_segment. by rewrite percent_decode_encode_bytes. Qed.

Lemma user_segments r : split_slash ("/_matrix/client/v3/user/" +:+ r) = EmptyString :: "_matrix" :: "client" :: "v3" :: "user" :: split_slash r.
Proof. reflexivity. Qed.

Lemma account_data_segments w ty : without "/" w = true →
  split_slash (w +:+ "/account_data/" +:+ percent_encode_segment ty) = [w; "account_data"; percent_encode_segment ty].
Proof.
  intros Hw. etrans; [exact (split_slash_cons w ("account_data/" +:+ percent_encode_segment ty) Hw)|]. f_equal.
  etrans; [exact (split_slash_cons "account_data" (percent_encode_segment ty) eq_refl)|]. f_equal. apply split_slash_word, encoded_without_slash.
Qed.

Lemma global_segments u ty :
  split_slash ("/_matrix/client/v3/user/" +:+ percent_encode_segment u +:+ "/account_data/" +:+ percent_encode_segment ty) =
  [EmptyString; "_matrix"; "client"; "v3"; "user"; percent_encode_segment u; "account_data"; percent_encode_segment ty].
Proof. by rewrite user_segments, account_data_segments by apply encoded_without_slash. Qed.

Lemma room_segments u room ty :
  split_slash ("/_matrix/client/v3/user/" +:+ percent_encode_segment u +:+ "/rooms/" +:+ percent_encode_segment room +:+ "/account_data/" +:+ percent_encode_segment ty) =
  [EmptyString; "_matrix"; "client"; "v3"; "user"; percent_encode_segment u; "rooms"; percent_encode_segment room; "account_data"; percent_encode_segment ty].
Proof.
  rewrite user_segments. set (w := percent_encode_segment room +:+ "/account_data/" +:+ percent_encode_segment ty). do 5 f_equal.
  etrans; [exact (split_slash_cons (percent_encode_segment u) ("rooms/" +:+ w) (encoded_without_slash u))|]. f_equal.
  etrans; [exact (split_slash_cons "rooms" w eq_refl)|]. f_equal. apply account_data_segments, encoded_without_slash.
Qed.

(** What the path of an edit says. *)
Lemma written_edit_request i u key v :
  written (edit_request i u key v) =
  if utf8_valid key.2 then
    match key.1 with
    | None => Some (None, key.2)
    | Some room => if utf8_valid (RoomId_str room) then room_id ← ok (RoomId_parse (RoomId_str room)); Some (Some room_id, key.2) else None
    end
  else None.
Proof.
  destruct key as [[room|] ty]; unfold edit_request, written; cbn [fst snd kind Requests.room_account_data Requests.account_data req_body path mbind option_bind].
  - rewrite room_path_text. unfold account_data_key_from_path. rewrite room_segments. unfold segment_from_end. cbn [length Nat.ltb Nat.leb Nat.sub nth].
    rewrite !decode_encoded_segment. by destruct (utf8_valid ty), (utf8_valid (RoomId_str room)).
  - rewrite global_path. unfold account_data_key_from_path. rewrite global_segments. unfold segment_from_end. cbn [length Nat.ltb Nat.leb Nat.sub nth].
    rewrite (decode_encoded_segment ty). by destruct (utf8_valid ty).
Qed.

(** The slot reads back from the request that writes it, and no other slot does. *)
Lemma written_edit i u key v : nameable key → written (edit_request i u key v) = Some key.
Proof.
  intros [Hty Hroom]. rewrite written_edit_request, Hty. destruct key as [[room|] ty]; cbn [fst snd] in *; [|done].
  destruct (Hroom room eq_refl) as [-> ->]. done.
Qed.

Lemma written_edit_only i u key v key' : written (edit_request i u key v) = Some key' → key' = key.
Proof.
  rewrite written_edit_request. destruct key as [[room|] ty]; cbn [fst snd]; destruct (utf8_valid ty); try done; [|congruence].
  destruct (utf8_valid _); [|done]. unfold RoomId_parse. destruct (split_sigil_id _ _ _); [|done]. cbn. destruct room. by intros [= <-].
Qed.
End EditPaths.

Create HintDb mint.

(** How many requests write a key, as its guard counts them. *)
Definition outstanding (keys : gmap RequestId AccountDataKey) (key : AccountDataKey) : option Z :=
  let n := size (filter (λ kv : RequestId * AccountDataKey, kv.2 = key) keys) in
  if decide (n = 0%nat) then None else Some (Z.of_nat n).

(** ** The table and the queue *)

Section Tied.
Context `{HmacSha256} `{MegolmCrypto} `{Curve25519} `{!EqDecision Curve25519PublicKey} `{!Countable Curve25519PublicKey}
  `{Primitives} `{MegolmWire} `{OlmProst} `{Ed25519Keys} `{!EqDecision Ed25519PublicKey} `{!Ed25519Secrets}
  `{JsonText} `{EventSerde} `{StateSerde} `{!CoreSerde} `{!AccountSerde} `{!OlmSerde} `{!GroupSerde}
  `{!DeviceSerde (Curve25519PublicKey := Curve25519PublicKey)} `{!Entropy}
  {S : Type} `{!StateStore S} `{FlushEpoch S} `{CryptoStore S} `{AccountStore S} `{OlmStore S} `{GroupStore S}
  `{CrossSigningStore S} `{EngineStore S} `{!EngineStoreLaws}.

#[local] Abbreviation MessengerCore := (Core.MessengerCore (S := S)).
#[local] Abbreviation M := (Core.M (S := S)).

Lemma RequestId_next_inj a b : 0 ≤ a < u64_mod → 0 ≤ b < u64_mod → RequestId_next a = RequestId_next b → a = b.
Proof.
  intros Ha Hb He. apply Z.le_antisymm; apply RequestId_next_le; try done; rewrite He; by apply RequestId_next_le.
Qed.

(** An id that the counter has passed. *)
Definition minted (n : Z) (i : RequestId) : Prop := ∀ m, n ≤ m < u64_mod → i ≠ RequestId_next m.

(** Every counted edit waits in the queue, and every edit that waits is counted. No id in use, the
    ids [X] among them, is minted again. *)
Record tied (X : list RequestId) (c : MessengerCore) : Prop := {
  ti_range : 0 ≤ Store.next_request_id (co_counters c);
  ti_used i : is_Some (pending (co_outgoing c) !! i) ∨ i ∈ X → minted (Store.next_request_id (co_counters c)) i;
  ti_counted i key : co_account_data_write_keys c !! i = Some key →
    ∃ p, pending (co_outgoing c) !! i = Some p ∧ (nameable key → written (request p) = Some key);
  ti_waiting i p key : pending (co_outgoing c) !! i = Some p → written (request p) = Some key → co_account_data_write_keys c !! i = Some key }.

(** Kept by every method that uses the ids [X]. *)
Definition binds (X : list RequestId) (c c' : MessengerCore) : Prop :=
  Store.next_request_id (co_counters c) < u64_mod →
  Store.next_request_id (co_counters c) ≤ Store.next_request_id (co_counters c') < u64_mod ∧
  (Store.next_request_id (co_counters c') < u64_mod - 1 → tied X c → tied X c').

#[export] Instance binds_pre X : PreOrder (binds X).
Proof.
  split; [intros c Hc; split; [lia|done]|]. intros c1 c2 c3 R1 R2 Hc. destruct (R1 Hc) as [M1 T1], R2 as [M2 T2]; [lia|]. split; [lia|].
  intros Hlt Ht. apply T2; [done|]. apply T1; [lia|done].
Qed.

Lemma minted_mono n n' i : n ≤ n' → minted n i → minted n' i.
Proof. intros Hn Hi m Hm. apply Hi. lia. Qed.

Lemma minted_next n : 0 ≤ n < u64_mod → minted (n + 1) (RequestId_next n).
Proof.
  intros Hn m Hm He. apply RequestId_next_inj in He; lia.
Qed.

Lemma binds_same X c c' : Store.next_request_id (co_counters c') = Store.next_request_id (co_counters c) → pending (co_outgoing c') = pending (co_outgoing c) →
  co_account_data_write_keys c' = co_account_data_write_keys c → binds X c c'.
Proof. intros Hn Hp Hk Hc. split; [lia|]. intros _ [Tr Tu Tc Tw]. split; rewrite ?Hn, ?Hp, ?Hk; done. Qed.

(** A method that mints an id uses it. *)
Lemma mint_run X c c1 r : next_request_id c = Some (c1, r) →
  binds X c c1 ∧ ∀ i, r = Ok i → Store.next_request_id (co_counters c) < u64_mod → Store.next_request_id (co_counters c1) < u64_mod - 1 → tied X c → tied (i :: X) c1.
Proof.
  intros (s & _ & Hi & ->)%next_request_id_run. set (n := Store.next_request_id (co_counters c)) in *.
  assert (Hn : Store.next_request_id (co_counters (set_store s (set_counters (mkCounters (next_seed n) (Store.next_txn_id (co_counters c))) c))) = next_seed n) by done.
  assert (Hmono : n < u64_mod → n ≤ next_seed n < u64_mod) by (unfold next_seed; lia). split.
  - intros Hc. rewrite Hn. split; [by apply Hmono|]. intros _ [Tr Tu Tc Tw]. split; rewrite ?Hn; try done; [fold n in Tr; lia|].
    intros i Hu. apply (minted_mono n); [lia|]. by apply Tu.
  - intros i -> Hc. rewrite Hn. intros Hlt [Tr Tu Tc Tw]. fold n in Tr, Tu. specialize (Hi i eq_refl) as ->. split; rewrite ?Hn; try done; [lia|].
    assert (next_seed n = n + 1) as -> by (unfold next_seed in *; lia).
    intros i [Hu|[->|Hu]%elem_of_cons]; [|by apply minted_next|]; (apply (minted_mono n); [lia|]); apply Tu; auto.
Qed.

Lemma tied_less X i c : tied (i :: X) c → tied X c.
Proof. intros [Tr Tu Tc Tw]. split; [done| |done..]. intros j [Hj|Hj]; apply Tu; [by left|right; by right]. Qed.

Lemma keeps_mint X {B} (k : RequestId → M B) : (∀ i, keeps (binds (i :: X)) (k i)) → keeps (binds X) (next_request_id ≫= k).
Proof.
  intros Hk c c' r. rewrite run_bind. destruct (next_request_id c) as [[c1 [i|e]]|] eqn:Hn; [|intros [= <- _]; by eapply mint_run|done].
  intros Hr Hc. destruct (mint_run X _ _ _ Hn) as [B1 T1]. destruct (B1 Hc) as [M1 _].
  destruct (Hk i _ _ _ Hr) as [M2 T2]; [lia|]. split; [lia|]. intros Hlt Ht. apply (tied_less X i), T2; [done|]. apply T1; [done..|lia|done].
Qed.

Lemma keeps_mint_attempt X {B} (k : result RequestId MessengerError → M B) :
  (∀ i, keeps (binds (i :: X)) (k (Ok i))) → (∀ e, keeps (binds X) (k (Err e))) → keeps (binds X) (attempt next_request_id ≫= k).
Proof.
  intros Hk He c c' r. rewrite run_attempt. destruct (next_request_id c) as [[c1 [i|e]]|] eqn:Hn; [| |done]; destruct (mint_run X _ _ _ Hn) as [B1 T1].
  - intros Hr Hc. destruct (B1 Hc) as [M1 _]. destruct (Hk i _ _ _ Hr) as [M2 T2]; [lia|]. split; [lia|].
    intros Hlt Ht. apply (tied_less X i), T2; [done|]. apply T1; [done..|lia|done].
  - intros Hr. etrans; [exact B1|by eapply He].
Qed.

(** Queueing replaces nothing, and what it accepts waits. *)
Lemma enqueue_waits req l (c c' : MessengerCore) r : enqueue_request req l c = Some (c', r) →
  (∀ i p, pending (co_outgoing c) !! i = Some p → pending (co_outgoing c') !! i = Some p) ∧
  (pending (co_outgoing c) !! id req = None → is_ok r = true → ∃ p, pending (co_outgoing c') !! id req = Some p ∧ request p = req).
Proof.
  unfold enqueue_request, enqueue. case_decide as Hd.
  - intros [= <- <-]. split; [done|]. intros Hn. rewrite Hn in Hd. by apply is_Some_None in Hd.
  - apply eq_None_not_Some in Hd. destruct (seal_for_request (co_store c)) as [s1 [seq b]].
    match goal with |- context [save_pending_request s1 ?p] => destruct (save_pending_request s1 p) as [s2 [[]|e]] end; intros [= <- <-]; [|done].
    split.
    + intros i p Hp. destruct b; cbn; rewrite lookup_insert_ne by congruence; done.
    + intros _ _. exists (mkPendingRequest req l seq). split; [|done]. destruct b; cbn; apply lookup_insert_eq.
Qed.

(** Queueing a request that is no edit. *)
Lemma binds_enqueue X req l : id req ∈ X → written req = None → keeps (binds X) (enqueue_request req l).
Proof.
  intros Hx Hw c c' r He Hc. destruct (enqueue_waits _ _ _ _ _ He) as [Hsub _]. apply enqueue_shape in He as (s & b & q & k & -> & _ & Hq & _).
  cbn in *. split; [lia|]. intros _ [Tr Tu Tc Tw]. split; cbn; [done| | |].
  - intros i [[p [Hp|[-> _]]%Hq]|Hu]; apply Tu; eauto.
  - intros i key (p & Hp & Hk)%Tc. eauto.
  - intros i p key [Hp|[-> ->]]%Hq Hk; [by eapply Tw|congruence].
Qed.
End Tied.

(** [keeps (binds X) m] by the structure of [m]: an id minted on the way is in use from there on. *)
Ltac used := first [apply list_elem_of_here | apply list_elem_of_further; used].
Ltac unmoved := intros; apply binds_same; solve [reflexivity | by repeat case_match].
Ltac head_of t := lazymatch t with ?f _ => head_of f | _ => t end.
Ltac mint_step := lazymatch goal with
  | |- PreOrder _ => apply _
  | |- ∀ _, _ => intros ?
  | |- keeps _ (match _ with _ => _ end) => case_match
  | |- keeps _ (let '_ := _ in _) => case_match
  | |- keeps _ (mbind _ next_request_id) => apply keeps_mint
  | |- keeps _ (mbind _ (attempt next_request_id)) => apply keeps_mint_attempt
  | |- keeps _ (mret _) => apply keeps_ret
  | |- keeps _ done => apply keeps_done
  | |- keeps _ (throw _) => apply keeps_throw
  | |- keeps _ (reads _) => apply keeps_reads
  | |- keeps _ (lift _) => apply keeps_lift
  | |- keeps _ (or_panic _) => apply keeps_or_panic
  | |- keeps _ (store_reads _ _) => apply keeps_store_reads
  | |- keeps _ (attempt _) => apply keeps_attempt
  | |- keeps _ (ignore _) => apply keeps_ignore
  | |- keeps _ (when _ _) => apply keeps_when
  | |- keeps _ (for_each _ _) => apply keeps_for_each
  | |- keeps _ (mbind _ _) => apply keeps_bind
  | |- keeps _ (store_does _ _) => apply keeps_store_does; unmoved
  | |- keeps _ (store_may_panic _ _) => apply keeps_store_may_panic; unmoved
  | |- keeps _ (enqueue_request (wire_request _ _ _ ?wire) _) => apply binds_enqueue; destruct wire; [used|used|reflexivity..]
  | |- keeps _ (enqueue_request _ _) => apply binds_enqueue; [cbn; solve [used | repeat case_match; used]|solve [reflexivity | by repeat case_match]]
  | |- keeps _ (on_timeline _ _) => apply keeps_on_timeline; [apply _|unmoved]
  | |- keeps _ (on_known_timeline _ _) => apply keeps_on_known_timeline; [apply _|unmoved]
  | |- keeps _ (update _) => apply keeps_update; unmoved
  | |- keeps _ ?m => first [solve [auto with mint nocore] | let h := head_of m in unfold h]
  end.
Ltac mint_go := intros; cbn beta zeta; repeat (mint_step; cbn beta zeta).

Section Binds.
Context `{HmacSha256} `{MegolmCrypto} `{Curve25519} `{!EqDecision Curve25519PublicKey} `{!Countable Curve25519PublicKey}
  `{Primitives} `{MegolmWire} `{OlmProst} `{Ed25519Keys} `{!EqDecision Ed25519PublicKey} `{!Ed25519Secrets}
  `{JsonText} `{EventSerde} `{StateSerde} `{!CoreSerde} `{!AccountSerde} `{!OlmSerde} `{!GroupSerde}
  `{!DeviceSerde (Curve25519PublicKey := Curve25519PublicKey)} `{!Entropy}
  {S : Type} `{!StateStore S} `{FlushEpoch S} `{CryptoStore S} `{AccountStore S} `{OlmStore S} `{GroupStore S}
  `{CrossSigningStore S} `{EngineStore S} `{!EngineStoreLaws}.

#[local] Abbreviation MessengerCore := (Core.MessengerCore (S := S)).
#[local] Abbreviation M := (Core.M (S := S)).


#[local] Abbreviation binding := (binds (S := S)).

Lemma binds_next_txn_id X : keeps (binding X) next_txn_id.
Proof. intros c c' r (s & _ & ->)%next_txn_id_run. by apply binds_same. Qed.
#[local] Hint Resolve binds_next_txn_id : mint.
Lemma binds_stop_typing X room : keeps (binding X) (stop_typing room).
Proof. mint_go. Qed.
Lemma binds_cache X key v : keeps (binding X) (store_account_data_cache key v).
Proof. apply keeps_update. intros c. unfold cache_account_data. by apply binds_same; repeat case_match. Qed.
#[local] Hint Resolve binds_stop_typing binds_cache : mint.
Lemma binds_apply_synced X room ty v : keeps (binding X) (apply_synced_account_data room ty v).
Proof. mint_go. Qed.
Lemma binds_send_chunks X ty v l n : keeps (binding X) (send_chunks ty v l n).
Proof. revert X n. induction l as [|x l IH]; cbn [send_chunks]; mint_go. Qed.
#[local] Hint Resolve binds_apply_synced binds_send_chunks : mint.
Lemma binds_request_missing X room u m : keeps (binding X) (request_missing_room_key room u m).
Proof. mint_go. Qed.
Lemma binds_answer X d q : keeps (binding X) (answer_room_key_request d q).
Proof. mint_go. Qed.
Lemma binds_apply_plaintext X room e u t x : keeps (binding X) (apply_decrypted_plaintext room e u t x).
Proof. mint_go. Qed.
Lemma binds_decrypt X room e t u m : keeps (binding X) (decrypt_room_event room e t u m).
Proof.
  unfold decrypt_room_event. intros c c' r. destruct (decrypt_event _ _ _ _ _ _) as [[s x]|]; [|discriminate]. cbn.
  intros [= <- _]. by apply binds_same.
Qed.
#[local] Hint Resolve binds_request_missing binds_answer binds_apply_plaintext binds_decrypt : mint.
Lemma binds_retry_one X room e : keeps (binding X) (retry_decrypt_one room e).
Proof. mint_go. Qed.
#[local] Hint Resolve binds_retry_one : mint.
Lemma binds_retry_all X room l b : keeps (binding X) (retry_all room l b).
Proof. revert b. induction l as [|e l IH]; cbn [retry_all]; mint_go. Qed.
#[local] Hint Resolve binds_retry_all : mint.
Lemma binds_retry_session X room i : keeps (binding X) (retry_pending_for_session room i).
Proof. mint_go. Qed.
Lemma binds_decrypt_row X room x : keeps (binding X) (decrypt_row room x).
Proof. mint_go. Qed.
Lemma binds_decrypt_new X room e : keeps (binding X) (decrypt_new_timeline_event room e).
Proof. mint_go. Qed.
#[local] Hint Resolve binds_retry_session binds_decrypt_row binds_decrypt_new : mint.
Lemma binds_route X d : keeps (binding X) (route_decrypted_to_device d).
Proof. mint_go. Qed.
Lemma binds_decrypt_to_device X u o : keeps (binding X) (decrypt_to_device_event u o).
Proof.
  unfold decrypt_to_device_event. apply keeps_bind; [apply _|mint_go|intros n]. intros c c' r.
  unfold mbind, M_bind, reads, update. case_match. case_match. intros [= <- _]. by apply binds_same.
Qed.
#[local] Hint Resolve binds_route binds_decrypt_to_device : mint.
Lemma binds_process X e : keeps (binding X) (process_to_device_event e).
Proof. mint_go. Qed.
#[local] Hint Resolve binds_process : mint.
Lemma binds_process_all X l x : keeps (binding X) (process_to_device_events l x).
Proof. revert x. induction l as [|e l IH]; cbn [process_to_device_events]; mint_go. Qed.
#[local] Hint Resolve binds_process_all : mint.
Lemma binds_retry_unknown X : keeps (binding X) retry_unknown_sender_queue.
Proof. mint_go. Qed.
Lemma binds_keys_query X : keeps (binding X) enqueue_keys_query.
Proof. mint_go. Qed.
#[local] Hint Resolve binds_retry_unknown binds_keys_query : mint.
Lemma binds_room_event X room e : keeps (binding X) (apply_room_event room e).
Proof. unfold apply_room_event. intros c c' r. destruct (apply_state_event _ e) as [state x]. intros [= <- _]. by apply binds_same. Qed.
#[local] Hint Resolve binds_room_event : mint.
Lemma binds_timeline X room l : keeps (binding X) (ingest_timeline room l).
Proof. mint_go. Qed.
#[local] Hint Resolve binds_timeline : mint.
Lemma binds_joined X room j : keeps (binding X) (ingest_joined_room room j).
Proof. mint_go. Qed.
Lemma binds_invited X room j : keeps (binding X) (ingest_invited_room room j).
Proof. mint_go. Qed.
Lemma binds_left X room j : keeps (binding X) (ingest_left_room room j).
Proof. mint_go. Qed.
Lemma binds_messages X room body : keeps (binding X) (ingest_room_messages_response room body).
Proof. mint_go. Qed.
#[local] Hint Resolve binds_joined binds_invited binds_left binds_messages : mint.

Lemma keeps_assoc (R : MessengerCore → MessengerCore → Prop) {A B C} (m : M A) (k : A → M B) (j : B → M C) :
  keeps R (m ≫= λ a, k a ≫= j) → keeps R ((m ≫= k) ≫= j).
Proof. intros Hm c c' r Hr. apply (Hm c c' r). revert Hr. rewrite !run_bind. by destruct (m c) as [[c1 [a|e]]|]. Qed.

Lemma keeps_return (R : MessengerCore → MessengerCore → Prop) {A B} (a : A) (k : A → M B) : keeps R (k a) → keeps R (mret a ≫= k).
Proof. done. Qed.

Lemma binds_xsign X : keeps (binding X) maybe_enqueue_cross_signing.
Proof.
  unfold maybe_enqueue_cross_signing. apply keeps_bind; [apply _|mint_go|intros c0]. case_match; [mint_go|].
  apply keeps_bind; [apply _|mint_go|intros state]. cbn zeta. case_match; [apply keeps_assoc|case_match; [apply keeps_assoc|]]; [| |apply keeps_return; mint_go].
  - apply keeps_mint. intros i. apply keeps_assoc, keeps_bind; [apply _|mint_go|intros body]. apply keeps_return. mint_go.
  - apply keeps_bind; [apply _|mint_go|intros keys]. apply keeps_assoc, keeps_mint. intros i.
    apply keeps_assoc, keeps_bind; [apply _|mint_go|intros body]. apply keeps_return. mint_go.
Qed.
#[local] Hint Resolve binds_xsign : mint.
Lemma binds_sync X response : keeps (binding X) (ingest_sync response).
Proof. mint_go. Qed.
#[local] Hint Resolve binds_sync : mint.

(** An edit is counted when it waits, under an id that nothing waits under. *)
Lemma tied_edit X i req key (c c' : MessengerCore) :
  tied (i :: X) c → id req = i → pending (co_outgoing c) !! i = None →
  (nameable key → written req = Some key) → (∀ key', written req = Some key' → key' = key) →
  Store.next_request_id (co_counters c') = Store.next_request_id (co_counters c) →
  co_account_data_write_keys c' = <[i := key]> (co_account_data_write_keys c) →
  (∀ j p, pending (co_outgoing c') !! j = Some p → pending (co_outgoing c) !! j = Some p ∨ j = id req ∧ request p = req) →
  (∀ j p, pending (co_outgoing c) !! j = Some p → pending (co_outgoing c') !! j = Some p) →
  (∃ p, pending (co_outgoing c') !! id req = Some p ∧ request p = req) → tied (i :: X) c'.
Proof.
  intros [Tr Tu Tc Tw] <- Hi Hname Honly Hn Hk Hback Hsub (p0 & Hp0 & Hreq). split; rewrite ?Hn, ?Hk; [done| | |].
  - intros j [[p [Hp|[-> _]]%Hback]|Hj]; apply Tu; [left; eauto|right; left|by right].
  - intros j key' [[<- <-]|[_ Hj]]%lookup_insert_Some; [exists p0; by rewrite Hreq|]. apply Tc in Hj as (p & Hp & Hw). eauto.
  - intros j p key' [Hp|[-> Hp]]%Hback Hw.
    + rewrite lookup_insert_ne by congruence. by eapply Tw.
    + rewrite Hp in Hw. apply Honly in Hw as ->. apply lookup_insert_eq.
Qed.

Lemma binds_settle X key b : keeps (binding X) (settle_account_data_write key b).
Proof. mint_go. Qed.

Lemma binds_write X room ty v : keeps (binding X) (write_account_data room ty v).
Proof.
  intros c c' r. unfold write_account_data. rewrite run_bind. destruct (next_request_id c) as [[c1 [i|e]]|] eqn:Hn; [|intros [= <- _]; by eapply mint_run|done].
  destruct (mint_run X _ _ _ Hn) as [B1 T1]. apply next_request_id_run in Hn as (s1 & _ & Hi & Hc1). specialize (Hi i eq_refl).
  assert (Hq1 : pending (co_outgoing c1) = pending (co_outgoing c)) by (by subst c1). clear Hc1.
  cbn zeta. rewrite !run_reads, run_update. unfold store_account_data_cache. rewrite run_update, run_attempt.
  match goal with |- context [cache_account_data ?k ?w ?c0] => assert (Hsame : co_counters (cache_account_data k w c0) = co_counters c1 ∧
    co_outgoing (cache_account_data k w c0) = co_outgoing c1 ∧ co_account_data_write_keys (cache_account_data k w c0) = co_account_data_write_keys c1)
    by (unfold cache_account_data; by repeat case_match); revert Hsame; generalize (cache_account_data k w c0) end.
  intros c2 (Hn2 & Hq2 & Hk2). apply (f_equal Store.next_request_id) in Hn2. apply (f_equal pending) in Hq2.
  change (match room with Some r => Requests.room_account_data i ?u r ty v | None => Requests.account_data i ?u ty v end) with (edit_request i u (room, ty) v).
  set (req := edit_request _ _ _ _). assert (Hid : id req = i) by (unfold req, edit_request; by destruct room).
  destruct (enqueue_request req AccountData c2) as [[c3 x]|] eqn:He; [|done]. destruct (enqueue_waits _ _ _ _ _ He) as [Hsub Hnew].
  apply enqueue_shape in He as (s3 & b & q & ks & -> & _ & Hback & Hx). cbn [co_outgoing set_outgoing set_pending_kinds set_pending_flush_batches set_store] in *.
  destruct x as [u|e].
  - intros ->%update_run Hc. destruct (B1 Hc) as [M1 _]. cbn. rewrite Hn2. split; [lia|]. intros Hlt Ht. apply (tied_less X i).
    assert (Hfree : pending (co_outgoing c2) !! i = None).
    { apply eq_None_not_Some. intros Hp. rewrite Hq2, Hq1 in Hp. destruct Ht as [Tr Tu _ _]. by eapply (Tu i); [left| |exact Hi]; [done|lia]. }
    eapply (tied_edit X i req (room, ty) c2); try done; [|by apply written_edit|by intros key' ->%written_edit_only|by apply Hnew; [rewrite Hid|]].
    eapply (binds_same _ c1 c2); [done|congruence|done|lia|lia|]. apply T1; [done..|lia|done].
  - destruct Hx as [-> _]. intros Hr. etrans; [exact B1|]. etrans; [by apply (binds_same _ c1 c2)|]. revert Hr.
    match goal with |- (settle_account_data_write ?k ?b ≫= ?j) ?cc = _ → _ => assert (Hk : keeps (binding X) (settle_account_data_write k b ≫= j)) by mint_go end.
    intros Hr. etrans; [|by eapply Hk]. by apply binds_same.
Qed.
#[local] Hint Resolve binds_write : mint.

(** An answer takes its request from the queue when it is final. *)
Lemma queue_response_waits i resp now (c c' : MessengerCore) r : queue_response i resp now c = Some (c', r) →
  ∃ o, r = Ok o ∧ co_counters c' = co_counters c ∧ co_account_data_write_keys c' = co_account_data_write_keys c ∧
    pending (co_outgoing c') = match o with
      | Ok (Some (Done _)) | Ok (Some (Failed _ _)) => delete i (pending (co_outgoing c))
      | _ => pending (co_outgoing c)
      end.
Proof.
  unfold queue_response, draw. unfold mbind, M_bind, reads, update. cbn. unfold on_response.
  destruct (pending (co_outgoing c) !! i) as [p|] eqn:Hp; cbn; [|intros [= <- <-]; by eexists].
  assert (Hc : ∀ q' s' x, complete (co_outgoing c) (co_store c) i = (q', s', x) → pending q' = delete i (pending (co_outgoing c)) ∧ x = Ok tt).
  { intros q' s' x. unfold complete. rewrite Hp. pose proof (delete_pending_ok (co_store c) i) as Ht.
    destruct (delete_pending_request (co_store c) i) as [s1 y]. intros [= <- <- <-]. split; [|done]. by destruct (lane p). }
  destruct ((200 <=? status resp) && (status resp <? 300)).
  { destruct (complete (co_outgoing c) (co_store c) i) as [[q s] x] eqn:Hq. destruct (Hc _ _ _ eq_refl) as [Hd ->]. cbn. intros [= <- <-]. by eexists. }
  destruct (status resp =? 429).
  { match goal with |- context [match ?x with Some ms => (_, ms) | None => _ end] => destruct x end; [|unfold next_backoff_ms]; cbn; intros [= <- <-];
      (eexists; split_and!; [reflexivity..|by destruct (lane p)]). }
  destruct ((500 <=? status resp) && (status resp <? 600)).
  { unfold next_backoff_ms; cbn; intros [= <- <-]. eexists; split_and!; [reflexivity..|by destruct (lane p)]. }
  match goal with |- context [let '(errcode, error) := ?x in _] => destruct x as [errcode error] end.
  destruct (complete (co_outgoing c) (co_store c) i) as [[q s] x] eqn:Hq. destruct (Hc _ _ _ eq_refl) as [Hd ->]. cbn. intros [= <- <-]. by eexists.
Qed.

Lemma tied_gone X i (c c' : MessengerCore) : Store.next_request_id (co_counters c') = Store.next_request_id (co_counters c) →
  pending (co_outgoing c') = delete i (pending (co_outgoing c)) → co_account_data_write_keys c' = delete i (co_account_data_write_keys c) → binds X c c'.
Proof.
  intros Hn Hp Hk Hc. split; [lia|]. intros _ [Tr Tu Tc Tw]. split; rewrite ?Hn, ?Hp, ?Hk; [done| | |].
  - intros j [[p [_ Hj]%lookup_delete_Some]|Hj]; apply Tu; eauto.
  - intros j key [Hne (p & Hj & Hw)%Tc]%lookup_delete_Some. exists p. by rewrite lookup_delete_ne.
  - intros j p key [Hne Hj]%lookup_delete_Some Hw. rewrite lookup_delete_ne by done. by eapply Tw.
Qed.

(** The edit of a request that is gone is no longer counted. *)
Lemma binds_forget X i k b (c c1 c2 : MessengerCore) r : co_counters c1 = co_counters c → pending (co_outgoing c1) = delete i (pending (co_outgoing c)) →
  co_account_data_write_keys c1 = co_account_data_write_keys c → forget_request i k b c1 = Some (c2, r) → binds X c c2.
Proof.
  intros Hn Hp Hk. unfold forget_request. rewrite run_update, run_bind.
  match goal with |- match when ?g ?m ?x with _ => _ end = _ → _ => assert (Hw : ∃ c3, when g m x = Some (c3, Ok tt) ∧ co_counters c3 = co_counters c1 ∧
    pending (co_outgoing c3) = pending (co_outgoing c1) ∧ co_account_data_write_keys c3 = co_account_data_write_keys c1) by (destruct g, b; cbn; by eexists) end.
  destruct Hw as (c3 & -> & Hn3 & Hp3 & Hk3). rewrite !run_update, run_reads. apply (f_equal Store.next_request_id) in Hn, Hn3. cbn [co_account_data_write_keys set_send_request_owner set_pending_create_room set_pending_room_messages].
  destruct (co_account_data_write_keys c3 !! i) as [key|] eqn:Hi.
  - rewrite run_update. intros Hr. etrans; [|by eapply binds_settle]. apply (tied_gone X i); cbn; congruence.
  - intros [= <- _]. apply (tied_gone X i); cbn; [congruence..|]. rewrite delete_id; congruence.
Qed.

Lemma binds_terminal X i k room create x : keeps (binding X) (handle_terminal_success i k room create x).
Proof. mint_go. Qed.
Lemma binds_chunks X txn key l x : keeps (binding X) (share_chunks txn key l x).
Proof. revert X x. induction l as [|y l IH]; cbn [share_chunks]; mint_go. Qed.
#[local] Hint Resolve binds_terminal binds_chunks : mint.
Lemma binds_share X txn room now : keeps (binding X) (begin_share_or_encrypt txn room now).
Proof. mint_go. Qed.
#[local] Hint Resolve binds_share : mint.
Lemma binds_start X txn now : keeps (binding X) (start_send_pipeline txn now).
Proof. mint_go. Qed.
#[local] Hint Resolve binds_start : mint.
Lemma binds_finish X room txn now : keeps (binding X) (finish_active_send room txn now).
Proof. mint_go. Qed.
#[local] Hint Resolve binds_finish : mint.
Lemma binds_advance X txn i k x now : keeps (binding X) (advance_send_on_success txn i k x now).
Proof. mint_go. Qed.
#[local] Hint Resolve binds_advance : mint.
Lemma binds_tag_update X room x : keeps (binding X) (enqueue_tag_update room x).
Proof. mint_go. Qed.
#[local] Hint Resolve binds_tag_update : mint.

(** *** Every step *)

Lemma binds_dispatch X cmd now : keeps (binding X) (dispatch cmd now).
Proof. unfold dispatch. destruct cmd; mint_go. Qed.

Lemma binds_finish_request X i k room create owner terminal now (c c1 c2 : MessengerCore) r :
  co_counters c1 = co_counters c → pending (co_outgoing c1) = delete i (pending (co_outgoing c)) →
  co_account_data_write_keys c1 = co_account_data_write_keys c →
  finish_request i k room create owner terminal now c1 = Some (c2, r) → binds X c c2.
Proof.
  intros Hn Hp Hk. unfold finish_request.
  match goal with |- (forget_request _ _ ?b ≫= ?k) _ = _ → _ => assert (Hrest : ∀ a, keeps (binding X) (k a)) by mint_go; generalize b end. intros b.
  rewrite run_bind. destruct (forget_request _ _ b c1) as [[c3 [a|e]]|] eqn:Hf; [| |done]; eapply binds_forget in Hf; try done.
  - intros Hr. etrans; [exact Hf|by eapply Hrest].
  - by intros [= <- _].
Qed.

Lemma binds_response X i resp now : keeps (binding X) (core_on_response i resp now).
Proof.
  intros c c' r. unfold core_on_response. rewrite run_reads, run_bind.
  destruct (queue_response i resp now c) as [[c1 [o|e]]|] eqn:Hq; [| |done]; apply queue_response_waits in Hq as (o' & Ho & Hn & Hk & Hp); [|done].
  injection Ho as ->. assert (Hd : keeps (binding X) drain_events) by mint_go. rewrite run_bind.
  assert (Hend : ∀ m : M unit, (∀ c2 x, m c1 = Some (c2, x) → binds X c c2) →
    match m c1 with None => None | Some (c2, Err e) => Some (c2, Err e) | Some (c2, Ok _) => drain_events c2 end = Some (c', r) → binds X c c').
  { intros m Hm. destruct (m c1) as [[c2 [a|e]]|]; [| |done]; [intros Hr; etrans; [by eapply Hm|by eapply Hd]|intros [= <- _]; by eapply Hm]. }
  assert (Hsame : pending (co_outgoing c1) = pending (co_outgoing c) → binds X c c1) by (intros; by apply binds_same; [by rewrite Hn|..]).
  apply Hend. intros c2 x. destruct o' as [[[resp'|ms|code err]|]|e]; try (intros [= <- _]; by apply Hsame).
  - by apply binds_finish_request.
  - by apply binds_finish_request.
Qed.

Lemma binds_ensure_sync X : keeps (binding X) ensure_sync_enqueued.
Proof. mint_go. Qed.

Lemma binds_step X c c' : engine_step c c' → binds X c c'.
Proof.
  destruct 1 as [cmd now r Hm|i x now r Hm|i now r Hm|now r Hm|r Hm|i r Hm|r Hm|r Hm|room r Hm|r Hm|r Hm].
  1: by eapply binds_dispatch.
  1: by eapply binds_response.
  1: apply transport_error_run in Hm as (q & n & -> & Hq); by apply binds_same.
  1: apply releasable_run in Hm as (c1 & x & q & He & -> & Hq); etrans; [by eapply binds_ensure_sync|by apply binds_same].
  all: match type of Hm with ?m _ = _ => assert (Hk : keeps (binding X) m) by mint_go; exact (Hk _ _ _ Hm) end.
Qed.

(** *** The counts *)

(** How many requests that write a slot wait in the queue, as its guard counts them. *)
Definition edits_waiting (c : MessengerCore) (key : AccountDataKey) : option Z :=
  let n := size (filter (λ kv : RequestId * PendingRequest, written (request kv.2) = Some key) (pending (co_outgoing c))) in
  if decide (n = 0%nat) then None else Some (Z.of_nat n).

Lemma waiting_counts (c : MessengerCore) key :
  (∀ i, co_account_data_write_keys c !! i = Some key ↔ ∃ p, pending (co_outgoing c) !! i = Some p ∧ written (request p) = Some key) →
  outstanding (co_account_data_write_keys c) key = edits_waiting c key.
Proof.
  intros Hiff. unfold outstanding, edits_waiting. replace (filter _ (co_account_data_write_keys c)) with
    ((λ _, key) <$> filter (λ kv : RequestId * PendingRequest, written (request kv.2) = Some key) (pending (co_outgoing c))); [by rewrite map_size_fmap|].
  apply map_eq. intros i. rewrite lookup_fmap. apply option_eq. intros key'. rewrite fmap_Some, map_lookup_filter_Some. split.
  - intros (p & [Hp Hw]%map_lookup_filter_Some & ->). split; [apply Hiff; eauto|done].
  - intros [Hi Hk]. cbn in Hk. subst key'. apply Hiff in Hi as (p & Hp & Hw). exists p. split; [|done]. by apply map_lookup_filter_Some.
Qed.

Lemma tied_counts X c key : tied X c → nameable key → outstanding (co_account_data_write_keys c) key = edits_waiting c key.
Proof.
  intros [Tr Tu Tc Tw] Hkey. apply waiting_counts. intros i. split; [|intros (p & Hp & Hw); by eapply Tw].
  intros (p & Hp & Hw)%Tc. eauto.
Qed.

Lemma edits_waiting_none c key : edits_waiting c key = None ↔ ∀ i p, pending (co_outgoing c) !! i = Some p → written (request p) ≠ Some key.
Proof.
  unfold edits_waiting. case_decide as Hn.
  - split; [|done]. intros _ i p Hi Hw. apply map_size_empty_iff in Hn. by apply (map_filter_empty_not_lookup _ _ i p Hn).
  - split; [done|]. intros Hall. exfalso. apply Hn, map_size_empty_iff, map_empty. intros i.
    apply map_lookup_filter_None. right. intros p Hi Hw. by apply (Hall i p).
Qed.
End Binds.
