(* ===== verification/CoreBooks.v ===== *)
(** * The engine's bookkeeping

    The count of outstanding edits of each kind of account data, the one sync waited for, the sync
    token, and what [open] restores. *)

From S2P Require Import Prelude Primitives Persist Ids OutgoingQueue OutgoingQueueProps Store Json CanonicalJson Events Relations Timeline RoomState DeviceTracker MegolmRatchet Megolm Olm OlmAccount AccountState OlmSessions GroupSessions Wire Core CoreSync CoreLogic CoreSends CoreQueue.

Local Open Scope Z_scope.

Section Books.
Context `{HmacSha256} `{MegolmCrypto} `{Curve25519} `{!EqDecision Curve25519PublicKey} `{!Countable Curve25519PublicKey}
  `{Primitives} `{MegolmWire} `{OlmProst} `{Ed25519Keys} `{!EqDecision Ed25519PublicKey} `{!Ed25519Secrets}
  `{JsonText} `{EventSerde} `{StateSerde} `{!CoreSerde} `{!AccountSerde} `{!OlmSerde} `{!GroupSerde}
  `{!DeviceSerde (Curve25519PublicKey := Curve25519PublicKey)} `{!Entropy}
  {S : Type} `{!StateStore S} `{FlushEpoch S} `{CryptoStore S} `{AccountStore S} `{OlmStore S} `{GroupStore S}
  `{CrossSigningStore S} `{EngineStore S} `{!EngineStoreLaws}.

#[local] Abbreviation MessengerCore := (Core.MessengerCore (S := S)).
#[local] Abbreviation M := (Core.M (S := S)).

#[local] Abbreviation calm := (meet base still).
#[local] Abbreviation brisk := (meet base books).
#[local] Abbreviation quiet := (meet calm books).

(** ** The count of outstanding edits *)

Record ledger (spare : Z) (c : MessengerCore) : Prop := {
  le_range : 0 ≤ Store.next_request_id (co_counters c) < u64_mod;
  le_fresh i n : is_Some (co_account_data_write_keys c !! i) → Store.next_request_id (co_counters c) ≤ n < u64_mod → i ≠ RequestId_next n;
  le_size : Z.of_nat (size (co_account_data_write_keys c)) ≤ Store.next_request_id (co_counters c) + spare;
  le_counts key : ag_pending <$> co_account_data_guard c !! key = outstanding (co_account_data_write_keys c) key }.

(** So few ids are used that no count wraps. *)
Definition roomy (spare : Z) (c : MessengerCore) : Prop := Store.next_request_id (co_counters c) + spare < u32_mod.

Definition kept (spare : Z) (c c' : MessengerCore) : Prop :=
  0 ≤ spare →
  (Store.next_request_id (co_counters c) < u64_mod → Store.next_request_id (co_counters c) ≤ Store.next_request_id (co_counters c') < u64_mod) ∧
  (ledger spare c → roomy spare c' → ledger spare c').

#[local] Instance kept_pre spare : PreOrder (kept spare).
Proof.
  split; [intros c _; split; [lia|auto]|]. intros c1 c2 c3 R1 R2 Hs. destruct (R1 Hs) as [M1 L1], (R2 Hs) as [M2 L2]. split; [lia|].
  intros L Hr. apply L2; [|done]. apply L1; [done|]. destruct L. unfold roomy in *. lia.
Qed.

Lemma kept_brisk spare c c' : brisk c c' → kept spare c c'.
Proof.
  intros [B [Hk Hc _]] Hs. split; [apply B|]. intros [Hr Hf Hz Hn] _. pose proof (ba_counter _ _ B (proj2 Hr)) as Hm. split; [lia| | |].
  - intros i n. rewrite Hk. intros Hi Hn'. apply Hf; [done|lia].
  - rewrite Hk. lia.
  - intros key. by rewrite Hk, Hc.
Qed.

#[local] Instance weaker_kept spare : Weaker (kept spare).
Proof. intros c c' [[] ?]. by apply kept_brisk. Qed.

Lemma kept_of_brisk spare {A} (m : M A) : keeps brisk m → keeps (kept spare) m.
Proof. apply keeps_mono. intros c c'. apply kept_brisk. Qed.
#[local] Hint Resolve kept_of_brisk : calm.

Lemma outstanding_pos keys key : outstanding keys key = None ↔ ∀ i, keys !! i ≠ Some key.
Proof.
  unfold outstanding. case_decide as Hn.
  - split; [|done]. intros _ i Hi. apply map_size_empty_iff in Hn. by apply (map_filter_empty_not_lookup _ _ i key Hn).
  - split; [done|]. intros Hall. exfalso. apply Hn, map_size_empty_iff, map_empty. intros i.
    apply map_lookup_filter_None. right. intros k Hi Hk. cbn in Hk. subst k. by apply (Hall i).
Qed.

Lemma outstanding_insert keys i key key' : keys !! i = None →
  outstanding (<[i := key]> keys) key' = if decide (key' = key) then Some (default 0 (outstanding keys key) + 1) else outstanding keys key'.
Proof.
  intros Hi. unfold outstanding. destruct (decide (key' = key)) as [->|Hne].
  - rewrite map_filter_insert_True by done. rewrite map_size_insert_None by (by apply map_lookup_filter_None; left).
    destruct (decide (size (filter _ keys) = 0%nat)) as [->|]; cbn; [done|]. rewrite Nat2Z.inj_succ. done.
  - rewrite map_filter_insert_False by (cbn; congruence). by rewrite delete_id.
Qed.

Lemma outstanding_delete keys i key key' : keys !! i = Some key →
  outstanding (delete i keys) key' = if decide (key' = key) then
    (match outstanding keys key with Some n => if decide (n = 1) then None else Some (n - 1) | None => None end) else outstanding keys key'.
Proof.
  intros Hi. assert (He : ∀ k, outstanding keys k = outstanding (<[i := key]> (delete i keys)) k) by (intros k; by rewrite insert_delete_id).
  rewrite !He, !outstanding_insert by apply lookup_delete_eq. destruct (decide (key' = key)) as [->|]; [|done]. rewrite decide_True by done.
  destruct (outstanding (delete i keys) key) as [n|] eqn:Hn; cbn; [|done].
  unfold outstanding in Hn. case_decide; [done|]. injection Hn as <-. rewrite decide_False by lia. f_equal. lia.
Qed.

(** An edit is guarded by one more, a failed or an answered one by one less. *)
Lemma guard_write_counts key v guards key' :
  ag_pending <$> guard_write key v guards !! key' =
    if decide (key' = key) then Some ((default 0 (ag_pending <$> guards !! key) + 1) mod u32_mod) else ag_pending <$> guards !! key'.
Proof.
  unfold guard_write. destruct (decide (key' = key)) as [->|]; simplify_map_eq; [|done]. by destruct (guards !! key).
Qed.

Lemma settle_run key b (c c' : MessengerCore) r : settle_account_data_write key b c = Some (c', r) →
  calm c c' ∧ co_account_data_write_keys c' = co_account_data_write_keys c ∧ Store.next_request_id (co_counters c') = Store.next_request_id (co_counters c) ∧
  ∀ key', ag_pending <$> co_account_data_guard c' !! key' =
    if decide (key' = key) then (match ag_pending <$> co_account_data_guard c !! key with Some n => if decide (1 < n) then Some (n - 1) else None | None => None end)
    else ag_pending <$> co_account_data_guard c !! key'.
Proof.
  intros Hr. split; [by eapply calm_settle|]. revert Hr. unfold settle_account_data_write. rewrite run_reads.
  destruct (co_account_data_guard c !! key) as [g|] eqn:Hg.
  2:{ intros [= <- _]. split_and!; [done..|]. intros key'. destruct (decide (key' = key)) as [->|]; [by rewrite Hg|done]. }
  destruct (0 <? Z.max 0 (ag_pending g - 1)) eqn:Hn.
  - intros [= <- _]. cbn. split_and!; [done..|]. intros key'. destruct (decide (key' = key)) as [->|]; simplify_map_eq; [|done].
    rewrite decide_True by lia. f_equal. lia.
  - assert (Hd : ∀ key', ag_pending <$> delete key (co_account_data_guard c) !! key' =
      if decide (key' = key) then (if decide (1 < ag_pending g) then Some (ag_pending g - 1) else None) else ag_pending <$> co_account_data_guard c !! key').
    { intros key'. destruct (decide (key' = key)) as [->|]; simplify_map_eq; [|done]. by rewrite decide_False by lia. }
    unfold mbind, M_bind, update. destruct b; cbn.
    + intros [= <- _]. by split_and!.
    + unfold emit, store_account_data_cache, update, mbind, M_bind. cbn. intros [= <- _]. cbn.
      match goal with |- context [cache_account_data key ?v ?c0] => destruct (cache_fields key v c0) as ([B _] & Hgs & Hks) end.
      rewrite Hgs, Hks. split_and!; [done| |exact Hd]. unfold cache_account_data. by repeat case_match.
Qed.

Lemma outstanding_bound keys key : 0 < default 1 (outstanding keys key) ∧ default 0 (outstanding keys key) ≤ Z.of_nat (size keys).
Proof.
  unfold outstanding. case_decide as Hn; cbn; [lia|]. split; [lia|]. apply inj_le, map_subseteq_size, map_filter_subseteq.
Qed.

Lemma kept_same spare c c' : co_counters c' = co_counters c → co_account_data_guard c' = co_account_data_guard c →
  co_account_data_write_keys c' = co_account_data_write_keys c → kept spare c c'.
Proof. intros Hn Hg Hk Hs. split; [rewrite Hn; lia|]. intros [? ? ? ?] _. split; rewrite ?Hn, ?Hk; try done. intros key. by rewrite Hg. Qed.
#[local] Hint Extern 1 (keeps (kept _) (update _)) => apply keeps_update; intros ?; apply kept_same; reflexivity : calm.

(** An answered edit leaves its guard. *)
Lemma kept_release spare i b : keeps (kept spare) (key ← reads (λ c, co_account_data_write_keys c !! i);
  match key with
  | Some key => _ ← update (λ c, set_account_data_write_keys (delete i (co_account_data_write_keys c)) c); settle_account_data_write key b
  | None => done
  end).
Proof.
  intros c c' r. rewrite run_reads. destruct (co_account_data_write_keys c !! i) as [key|] eqn:Hi; [|intros [= <- _]; by apply kept_same].
  cbn beta iota. unfold mbind, M_bind, update. intros (Hc & Hk & Hn & Hg)%settle_run Hs. cbn in Hk, Hn, Hg. split; [rewrite Hn; lia|].
  intros [Hr Hf Hz Hl] _. split; rewrite ?Hn, ?Hk; [done|intros j n (k & [_ Hj]%lookup_delete_Some); by eauto| |].
  - assert (size (delete i (co_account_data_write_keys c)) ≤ size (co_account_data_write_keys c))%nat by (apply map_subseteq_size, delete_subseteq). lia.
  - intros key'. rewrite Hg, (outstanding_delete _ _ key) by done. destruct (decide (key' = key)); [|done]. rewrite Hl.
    destruct (outstanding_bound (co_account_data_write_keys c) key) as [Hpos _].
    destruct (outstanding _ key) as [n|]; [|done]. cbn in Hpos. repeat case_decide; f_equal; lia.
Qed.

Lemma kept_forget spare i k b : keeps (kept spare) (forget_request i k b).
Proof. unfold forget_request. do 5 (apply keeps_bind; [apply _|keep_go|intros _]). apply kept_release. Qed.

(** The counts of guards after one is released. *)
Definition released_count (key : AccountDataKey) (guards : gmap AccountDataKey AccountDataGuard) (key' : AccountDataKey) : option Z :=
  if decide (key' = key) then (match ag_pending <$> guards !! key with Some n => if decide (1 < n) then Some (n - 1) else None | None => None end)
  else ag_pending <$> guards !! key'.

(** How an edit ends: without an id; queued; or refused by the store. *)
Lemma write_run room ty v (c c' : MessengerCore) r : write_account_data room ty v c = Some (c', r) →
  Store.next_request_id (co_counters c') = next_seed (Store.next_request_id (co_counters c)) ∧
  (co_account_data_write_keys c' = co_account_data_write_keys c ∧ co_account_data_guard c' = co_account_data_guard c ∨
   ∃ v0, let guards := guard_write (room, ty) v0 (co_account_data_guard c) in
     co_account_data_write_keys c' = <[RequestId_next (Store.next_request_id (co_counters c)) := (room, ty)]> (co_account_data_write_keys c) ∧
       co_account_data_guard c' = guards ∨
     co_account_data_write_keys c' = co_account_data_write_keys c ∧ ∀ key', ag_pending <$> co_account_data_guard c' !! key' = released_count (room, ty) guards key').
Proof.
  unfold write_account_data. rewrite run_bind.
  destruct (next_request_id c) as [[c1 [i|e]]|] eqn:Hn; [| |done]; apply next_request_id_run in Hn as (s1 & _ & Hi & ->).
  2:{ intros [= <- _]. split; [done|by left]. }
  specialize (Hi i eq_refl) as ->. cbn zeta. rewrite !run_reads, run_update. unfold store_account_data_cache. rewrite run_update, run_attempt.
  match goal with |- context [cached_account_data ?c0 ?k] => generalize (cached_account_data c0 k) end. intros v0.
  match goal with |- context [cache_account_data ?k ?w ?c0] => destruct (cache_fields k w c0) as ([_ _] & Hg & Hk);
    assert (Hcn : co_counters (cache_account_data k w c0) = co_counters c0) by (unfold cache_account_data; by repeat case_match);
    revert Hg Hk Hcn; generalize (cache_account_data k w c0) end.
  intros c2 Hg Hk Hcn. cbn in Hk. apply (f_equal Store.next_request_id) in Hcn. change (Store.next_request_id (co_counters c2) = next_seed (Store.next_request_id (co_counters c))) in Hcn.
  change (co_account_data_guard c2 = guard_write (room, ty) v0 (co_account_data_guard c)) in Hg.
  match goal with |- context [enqueue_request ?req AccountData c2] => destruct (enqueue_request req AccountData c2) as [[c3 x]|] eqn:He; [|done] end.
  apply enqueue_shape in He as (s3 & b & q & ks & -> & _ & _ & _). destruct x as [u|e].
  - intros ->%update_run. split; [exact Hcn|]. right. exists v0. left. split; [cbn; by rewrite Hk|exact Hg].
  - rewrite run_bind. destruct (settle_account_data_write (room, ty) false _) as [[c4 y]|] eqn:Hset; [|done].
    apply settle_run in Hset as (_ & Hk4 & Hn4 & Hg4). intros Hc4. assert (c' = c4) as -> by (destruct y; [by injection Hc4 as <- _|by injection Hc4 as <- _]).
    split; [by rewrite Hn4|]. right. exists v0. right. rewrite Hk4. split; [done|]. intros key'. rewrite Hg4. cbn. by rewrite Hg.
Qed.

Lemma kept_write spare room ty v : keeps (kept spare) (write_account_data room ty v).
Proof.
  intros c c' r Hw Hs. pose proof (calm_write_account_data _ _ _ _ _ _ Hw) as [B _]. split; [apply B|]. clear B.
  intros [Hr Hf Hz Hc] Hroom. apply write_run in Hw as [Hn Hw]. unfold roomy in Hroom. unfold next_seed in Hn.
  assert (H32 : u32_mod < u64_mod - 1) by done. set (n := Store.next_request_id (co_counters c)) in *.
  assert (Hn1 : Store.next_request_id (co_counters c') = n + 1) by lia. clear Hn.
  destruct Hw as [[Hk Hg]|[v0 Hw]].
  { split; rewrite ?Hn1, ?Hk; [lia|intros j m Hj Hm; apply Hf; [done|lia]|lia|intros key; by rewrite Hg]. }
  set (key := (room, ty) : AccountDataKey) in *. set (keys := co_account_data_write_keys c) in *.
  assert (Hfree : keys !! RequestId_next n = None) by (apply eq_None_not_Some; intros Hk; by apply (Hf _ n Hk); [lia|]).
  destruct (outstanding_bound keys key) as [_ Hb].
  assert (Hguard : ∀ key', ag_pending <$> guard_write key v0 (co_account_data_guard c) !! key' = outstanding (<[RequestId_next n := key]> keys) key').
  { intros key'. rewrite guard_write_counts, outstanding_insert by done. destruct (decide (key' = key)); [|apply Hc].
    rewrite Hc, Z.mod_small; [done|]. unfold outstanding in *. case_decide; cbn in *; lia. }
  destruct Hw as [[Hk Hg]|[Hk Hg]]; split; rewrite ?Hn1, ?Hk; try lia.
  - intros j m Hj Hm. apply lookup_insert_is_Some in Hj as [<-|[_ Hj]]; [|apply Hf; [done|lia]].
    intros He. apply RequestId_next_inj in He; lia.
  - rewrite map_size_insert_None by done. lia.
  - intros key'. rewrite Hg. apply Hguard.
  - intros j m Hj Hm. apply Hf; [done|lia].
  - intros key'. rewrite Hg. unfold released_count. rewrite !Hguard, !outstanding_insert by done.
    destruct (decide (key' = key)) as [->|]; [|done]. rewrite decide_True by done. unfold outstanding in *. case_decide; cbn in *; case_decide; f_equal; lia.
Qed.
#[local] Hint Resolve kept_write kept_forget : calm.

(** ** Every step *)

Lemma kept_merge_direct spare room peer : keeps (kept spare) (merge_direct_account_data room peer).
Proof. unfold merge_direct_account_data. keep_go. Qed.
Lemma kept_tag_update spare room x : keeps (kept spare) (enqueue_tag_update room x).
Proof. unfold enqueue_tag_update. keep_go. Qed.
#[local] Hint Resolve kept_merge_direct kept_tag_update : calm.

Lemma kept_dispatch spare cmd now : keeps (kept spare) (dispatch cmd now).
Proof. unfold dispatch, simple_request. keep_go. Qed.

Lemma kept_sync spare response : keeps (kept spare) (ingest_sync response).
Proof.
  intros c c' r [(e & _ & Hq)|(c1 & Hq & _ & -> & _)]%ingest_sync_run; [by apply weaker_kept|].
  etrans; [by apply weaker_kept|by apply kept_same].
Qed.
Lemma kept_create_room spare k x : keeps (kept spare) (on_create_room_response k x).
Proof. unfold on_create_room_response. keep_go. Qed.
#[local] Hint Resolve kept_sync kept_create_room : calm.

Lemma kept_terminal spare i k room create x : keeps (kept spare) (handle_terminal_success i k room create x).
Proof. unfold handle_terminal_success. destruct k as [[]|]; keep_go. Qed.
#[local] Hint Resolve kept_terminal : calm.

Lemma kept_finish_request spare i k room create owner terminal now : keeps (kept spare) (finish_request i k room create owner terminal now).
Proof. unfold finish_request. keep_go. Qed.
#[local] Hint Resolve kept_finish_request : calm.

Lemma kept_response spare i resp now : keeps (kept spare) (core_on_response i resp now).
Proof.
  unfold core_on_response, drain_events. keep_go. intros c c' r (o & s & q & n & _ & -> & _)%queue_response_run. by apply kept_same.
Qed.

(** Queueing leaves the books alone, whatever the request. *)
Lemma kept_enqueue spare req l : keeps (kept spare) (enqueue_request req l).
Proof. intros c c' r (s & b & q & k & -> & _)%enqueue_shape. by apply kept_same. Qed.

Lemma kept_ensure_sync spare : keeps (kept spare) ensure_sync_enqueued.
Proof. unfold ensure_sync_enqueued. keep_go. apply kept_enqueue. Qed.

Lemma kept_step spare c c' : engine_step c c' → kept spare c c'.
Proof.
  intros [(cmd & now & r & Hm)|[(i & x & now & r & Hm)|[(c1 & x & q & He & -> & Hq)|Hq]]]%engine_step_cases.
  - by eapply kept_dispatch.
  - by eapply kept_response.
  - etrans; [by eapply kept_ensure_sync|by apply kept_same].
  - by apply weaker_kept.
Qed.

(** ** One sync at a time *)

Record one_sync (c : MessengerCore) : Prop := {
  os_pending i p : pending (co_outgoing c) !! i = Some p → kind (request p) = KSync → co_sync_request_id c = Some i;
  os_kinds i : co_pending_kinds c !! i = Some KSync → co_sync_request_id c = Some i }.

Definition syncing (c c' : MessengerCore) : Prop := one_sync c → one_sync c'.

#[local] Instance syncing_pre : PreOrder syncing.
Proof. split; [intros c Hc; exact Hc|]. intros c1 c2 c3 R1 R2 Hc. by apply R2, R1. Qed.

Lemma syncing_base c c' : base c c' → syncing c c'.
Proof. intros [_ _ _ _ Hs Hp Hk] [Op Ok']. split; rewrite Hs; eauto. Qed.
#[local] Instance weaker_syncing : Weaker syncing.
Proof. intros c c' [[B _] _]. by apply syncing_base. Qed.

Lemma syncing_same c c' : co_sync_request_id c' = co_sync_request_id c → co_pending_kinds c' = co_pending_kinds c →
  pending (co_outgoing c') = pending (co_outgoing c) → syncing c c'.
Proof. intros Hs Hk Hp [Op Ok']. split; rewrite ?Hs, ?Hk, ?Hp; done. Qed.
#[local] Hint Extern 1 (keeps syncing (update _)) => apply keeps_update; intros ?; apply syncing_same; reflexivity : calm.

Lemma syncing_of_base {A} (m : M A) : keeps base m → keeps syncing m.
Proof. apply keeps_mono, syncing_base. Qed.
#[local] Hint Resolve syncing_of_base : calm.

Lemma syncing_sync response : keeps syncing (ingest_sync response).
Proof.
  intros c c' r [(e & _ & Hq)|(c1 & Hq & _ & -> & _)]%ingest_sync_run; [by apply weaker_syncing|].
  etrans; [by apply weaker_syncing|by apply syncing_same].
Qed.
#[local] Hint Resolve syncing_sync : calm.

Lemma syncing_terminal i k room create x : keeps syncing (handle_terminal_success i k room create x).
Proof. unfold handle_terminal_success. destruct k as [[]|]; keep_go. Qed.
#[local] Hint Resolve syncing_terminal : calm.

(** The sync that was answered is no longer pending, and it was the only one. *)
Lemma one_sync_forgotten i (c c2 : MessengerCore) : one_sync c → pending (co_outgoing c) !! i = None → pending (co_outgoing c2) = pending (co_outgoing c) →
  co_pending_kinds c2 = delete i (co_pending_kinds c) →
  co_sync_request_id c2 = (if bool_decide (co_pending_kinds c !! i = Some KSync) then None else co_sync_request_id c) → one_sync c2.
Proof.
  intros [Op Ok'] Hi Hp Hk Hs. case_bool_decide as Hc.
  - specialize (Ok' i Hc) as Hsync. split.
    + intros j p. rewrite Hp. intros Hj Hkj. specialize (Op j p Hj Hkj). congruence.
    + intros j. rewrite Hk. intros [Hne Hj]%lookup_delete_Some. specialize (Ok' j Hj). congruence.
  - split; rewrite Hs.
    + intros j p. rewrite Hp. apply Op.
    + intros j. rewrite Hk. intros [_ Hj]%lookup_delete_Some. by apply Ok'.
Qed.

Lemma forget_syncing i b c c' r : one_sync c → pending (co_outgoing c) !! i = None →
  forget_request i (co_pending_kinds c !! i) b c = Some (c', r) → one_sync c'.
Proof.
  intros Hc Hi. unfold forget_request. rewrite run_update.
  match goal with |- (_ ≫= ?k) ?cc = _ → _ => assert (Hk : keeps syncing (k tt)) by keep_go; set (c1 := cc) end.
  assert (Hc1 : ∀ b', bool_decide (co_pending_kinds c !! i = Some KSync) = b' → one_sync (if b' then set_sync_request_id None c1 else c1)).
  { intros b' <-. eapply one_sync_forgotten; [exact Hc|exact Hi|by destruct (bool_decide _)..]. }
  rewrite run_bind. destruct (bool_decide (co_pending_kinds c !! i = Some KSync)); specialize (Hc1 _ eq_refl); cbn [when].
  - rewrite run_update. generalize dependent (set_sync_request_id None c1). intros c2 Hc2.
    destruct b; cbn [when]; intros Hr; (eapply Hk; [exact Hr|]); [|done]. revert Hc2. by apply syncing_same.
  - intros Hr. eapply Hk; [exact Hr|exact Hc1].
Qed.

Lemma syncing_response i resp now : keeps syncing (core_on_response i resp now).
Proof.
  intros c c' r. unfold core_on_response. rewrite run_reads, run_bind.
  destruct (queue_response i resp now c) as [[c1 [o|e]]|] eqn:Hq; [| |done]; apply queue_response_run in Hq as (o' & s & q & n & Ho & -> & _ & Hp & Hi); [|done].
  injection Ho as ->. set (c1 := set_store s (set_outgoing q (set_draws n c))).
  intros Hr Hc. assert (H1' : one_sync c1) by (destruct Hc as [Op Ok']; split; cbn; [intros j p Hj; by apply Op, Hp|done]).
  revert Hr. rewrite run_bind. change (co_pending_kinds c) with (co_pending_kinds c1).
  assert (Hd : ∀ c2 x r, one_sync c2 → drain_events c2 = Some (x, r) → one_sync x).
  { intros c2 x r2 H2' Hd. unfold drain_events in Hd. rewrite run_reads, run_update in Hd. injection Hd as <- _. destruct H2' as [Op Ok']. by split. }
  assert (Hf : ∀ room create owner terminal c2 x, pending q !! i = None →
    finish_request i (co_pending_kinds c1 !! i) room create owner terminal now c1 = Some (c2, x) → one_sync c2).
  { intros room create owner terminal c2 x Hnone. unfold finish_request.
    match goal with |- (forget_request _ _ ?b ≫= ?k) _ = _ → _ => assert (Hk : ∀ a, keeps syncing (k a)) by keep_go; generalize b end. intros b.
    rewrite run_bind. destruct (forget_request _ _ b c1) as [[c3 [a|e]]|] eqn:Hfg; [| |done]; apply forget_syncing in Hfg; try done.
    - intros Hrun. by eapply Hk.
    - by intros [= <- _]. }
  destruct o' as [[[resp'|ms|code err]|]|e]; cbn in Hi.
  - destruct (finish_request _ _ _ _ _ _ _ c1) as [[c2 [a|e]]|] eqn:He; [| |done]; eapply Hf in He; try apply Hi; [by apply Hd|by intros [= <- _]].
  - by apply Hd.
  - destruct (finish_request _ _ _ _ _ _ _ c1) as [[c2 [a|e]]|] eqn:He; [| |done]; eapply Hf in He; try apply Hi; [by apply Hd|by intros [= <- _]].
  - by apply Hd.
  - by apply Hd.
Qed.

Lemma syncing_ensure : keeps syncing ensure_sync_enqueued.
Proof.
  intros c c' r. unfold ensure_sync_enqueued. rewrite run_reads. destruct (co_sync_request_id c) as [i|] eqn:Hs; [by intros [= <- _]|].
  cbn [is_some]. rewrite run_attempt. destruct (next_request_id c) as [[c1 x]|] eqn:Hn; [|done].
  pose proof (quiet_next_request_id _ _ _ Hn) as [[B _] _]. intros Hr Hc. apply (syncing_base _ _ B) in Hc. rewrite <- (ba_sync _ _ B) in Hs. revert Hr.
  destruct x as [i|e]; [|by intros [= <- _]]. rewrite run_reads. cbn zeta. rewrite run_attempt.
  match goal with |- context [enqueue_request ?req Sync c1] => destruct (enqueue_request req Sync c1) as [[c2 x]|] eqn:He; [|done] end.
  apply enqueue_shape in He as (s3 & b & q & ks & -> & _ & Hq & Hx). destruct Hc as [Op Ok']. destruct x as [u|e]; cbn [is_ok when].
  - intros ->%update_run. subst ks. split; cbn.
    + intros j p [Hj|[-> _]]%Hq Hk; [specialize (Op j p Hj Hk); congruence|done].
    + intros j [[<- _]|[_ Hj]]%lookup_insert_Some; [done|]. specialize (Ok' j Hj). congruence.
  - destruct Hx as [-> ->]. intros [= <- _]. by split.
Qed.

Lemma syncing_step c c' : engine_step c c' → syncing c c'.
Proof.
  intros [(cmd & now & r & Hm)|[(i & x & now & r & Hm)|[(c1 & x & q & He & -> & Hq)|Hq]]]%engine_step_cases.
  - by eapply syncing_base, base_dispatch.
  - by eapply syncing_response.
  - etrans; [by eapply syncing_ensure|]. intros [Op Ok']. split; cbn; rewrite ?Hq; done.
  - by apply weaker_syncing.
Qed.

(** ** The sync token *)

(** A token [A] allows. *)
Definition moves (A : string → Prop) (c c' : MessengerCore) : Prop :=
  same_token (co_store c) (co_store c') ∨ ∃ nb, A nb ∧ token_view (co_store c') = Some nb.

#[local] Instance moves_pre A : PreOrder (moves A).
Proof.
  split; [intros c; by left|]. intros c1 c2 c3 R1 [Hs|?]; [|by right]. destruct R1 as [Hs1|(nb & Ha & Ht)]; [left; by etrans|right].
  exists nb. split; [done|]. unfold same_token in Hs. congruence.
Qed.

Lemma moves_base A c c' : base c c' → moves A c c'.
Proof. intros B. left. apply B. Qed.
#[local] Instance weaker_moves A : Weaker (moves A).
Proof. intros c c' [[B _] _]. by apply moves_base. Qed.
Lemma moves_of_base A {B} (m : M B) : keeps base m → keeps (moves A) m.
Proof. apply keeps_mono, moves_base. Qed.
#[local] Hint Resolve moves_of_base : calm.
#[local] Hint Extern 1 (keeps (moves _) (update _)) => apply keeps_update; intros ?; left; reflexivity : calm.

(** What the answer of a sync allows. *)
Definition ingested (k : option OutgoingRequestKind) (body nb : string) : Prop :=
  k = Some KSync ∧ ∃ parsed c1 c2, sync_from_slice body = Ok parsed ∧ ingest_sync parsed c1 = Some (c2, Ok tt) ∧ nb = sy_next_batch parsed.

Lemma moves_terminal i k room create x : keeps (moves (ingested k (resp_body x))) (handle_terminal_success i k room create x).
Proof.
  destruct (decide (k = Some KSync)) as [->|Hk]; [|by apply moves_of_base, base_of_calm, calm_terminal].
  intros c c' r. unfold handle_terminal_success. rewrite run_reads, run_bind. unfold lift.
  destruct (sync_from_slice (resp_body x)) as [parsed|e] eqn:Hp; cbn; [|intros [= <- _]; by left].
  intros Hr. destruct (ingest_sync_run _ _ _ _ Hr) as [(e & _ & Hq)|(c1 & Hq & -> & -> & Ht)]; [by apply weaker_moves|].
  right. exists (sy_next_batch parsed). split; [|done]. split; [done|]. by eexists parsed, _, _.
Qed.

Lemma moves_forget A i k b : keeps (moves A) (forget_request i k b).
Proof. unfold forget_request. keep_go. Qed.
#[local] Hint Resolve moves_terminal moves_forget : calm.

Lemma moves_success i k room create owner x now : keeps (moves (ingested k (resp_body x))) (finish_request i k room create owner (inl x) now).
Proof. unfold finish_request. keep_go. Qed.
Lemma moves_failure A i k room create owner e now : keeps (moves A) (finish_request i k room create owner (inr e) now).
Proof. unfold finish_request. keep_go. Qed.
#[local] Hint Resolve moves_success moves_failure : calm.

Lemma moves_response i resp now c c' r : core_on_response i resp now c = Some (c', r) → moves (ingested (co_pending_kinds c !! i) (resp_body resp)) c c'.
Proof.
  unfold core_on_response. rewrite run_reads, run_bind.
  destruct (queue_response i resp now c) as [[c1 [o|e]]|] eqn:Hq; [| |done]; apply queue_response_run in Hq as (o' & s & q & n & Ho & -> & Ht & _ & Hi); [|done].
  injection Ho as ->. intros Hr. assert (H1' : moves (ingested (co_pending_kinds c !! i) (resp_body resp)) c (set_store s (set_outgoing q (set_draws n c)))) by (left; exact Ht).
  etrans; [exact H1'|]. clear H1'. revert Hr. generalize (set_store s (set_outgoing q (set_draws n c))). intros c1 Hr.
  revert c1 c' r Hr. match goal with |- ∀ c1 c' r, ?m c1 = _ → _ => assert (Hk : keeps (moves (ingested (co_pending_kinds c !! i) (resp_body resp))) m); [|exact Hk] end.
  unfold drain_events. apply keeps_bind; [apply _| |keep_go]. destruct o' as [[[resp'|ms|code err]|]|e]; [|keep_go..].
  destruct Hi as [-> _]. apply moves_success.
Qed.

Lemma moves_ensure A : keeps (moves A) ensure_sync_enqueued.
Proof. unfold ensure_sync_enqueued. keep_go. intros c c' r (s & b & q & k & -> & Ht & _)%enqueue_shape. by left. Qed.

(** ** What [open] restores *)

Lemma max_seed_covers records r n : r ∈ records → RequestId_as_seed (id (request r)) = Some n → ∃ top, max_seed records = Some top ∧ n ≤ top.
Proof.
  unfold max_seed. assert (Hf : ∀ records acc, (∀ m, acc = Some m → ∃ top, foldl (λ acc r, match RequestId_as_seed (id (request r)), acc with
      | Some seed, Some top => Some (Z.max top seed) | Some seed, None => Some seed | None, _ => acc end) acc records = Some top ∧ m ≤ top)).
  { clear. intros records. induction records as [|r records IH]; intros acc m ->; cbn [foldl]; [eauto with lia|].
    destruct (RequestId_as_seed (id (request r))) as [seed|]; [|exact (IH (Some m) m eq_refl)].
    destruct (IH (Some (Z.max m seed)) _ eq_refl) as (top & -> & ?). exists top. split; [done|lia]. }
  generalize (@None Z) as acc. induction records as [|x records IH]; intros acc Hin Hn; [by apply not_elem_of_nil in Hin|].
  apply elem_of_cons in Hin as [<-|Hin]; cbn [foldl]; [|by apply IH]. rewrite Hn. destruct acc as [top|]; [|by apply Hf].
  destruct (Hf records (Some (Z.max top n)) _ eq_refl) as (top' & -> & ?). exists top'. split; [done|lia].
Qed.

(** A queue loaded from records holds their requests. *)
Lemma loaded_requests records q i p : pending (foldl load_record q records) !! i = Some p →
  pending q !! i = Some p ∨ ∃ r, r ∈ records ∧ i = id (request r) ∧ request p = request r.
Proof.
  revert q. induction records as [|r records IH]; intros q; cbn; [by left|]. intros [Hq|(r' & Hin & Hrest)]%IH.
  - destruct (load_record_fields q r) as (_ & _ & _ & _ & _ & _ & r' & _ & Hreq & _ & Hp). rewrite Hp in Hq.
    apply lookup_insert_Some in Hq as [[<- <-]|[_ ?]]; [right|by left]. exists r. by split; [left|].
  - right. exists r'. by split; [right|].
Qed.

(** With ids that differ, it holds each of them. *)
Lemma loaded_record records q r : NoDup ((λ r, id (request r)) <$> records) → r ∈ records →
  ∃ p, pending (foldl load_record q records) !! id (request r) = Some p ∧ request p = request r.
Proof.
  revert q. induction records as [|x records IH]; intros q Hnd Hr; [by apply not_elem_of_nil in Hr|]. rewrite fmap_cons in Hnd. apply NoDup_cons in Hnd as [Hx Hnd].
  apply elem_of_cons in Hr as [->|Hr]; [|by apply IH]. cbn [foldl].
  assert (Hkeep : ∀ records q p, (∀ y, y ∈ records → id (request y) ≠ id (request x)) → pending q !! id (request x) = Some p →
    pending (foldl load_record q records) !! id (request x) = Some p).
  { clear. intros records. induction records as [|y records IH]; intros q p Hne Hp; [done|]. cbn. apply IH; [intros z Hz; by apply Hne; right|].
    destruct (load_record_fields q y) as (_ & _ & _ & _ & _ & _ & r' & _ & _ & _ & ->). rewrite lookup_insert_ne by (apply Hne; by left). done. }
  destruct (load_record_fields q x) as (_ & _ & _ & _ & _ & _ & r' & _ & Hreq & _ & Hp). exists r'. split; [|done]. apply Hkeep.
  - intros y Hy He. apply Hx. apply list_elem_of_fmap. exists y. by split.
  - rewrite Hp. apply lookup_insert_eq.
Qed.

Lemma complete_deletes (q : OutgoingQueue) (s : S) i q' s' r : complete q s i = (q', s', r) → pending q' = delete i (pending q).
Proof.
  destruct (pending q !! i) as [p|] eqn:Hp.
  - intros (a & n & ->)%(complete_queue _ _ _ p); [|done]. cbn. by destruct (clear_fields q i (lane p)) as (-> & _ & _).
  - unfold complete. rewrite Hp. intros [= <- <- <-]. by rewrite delete_id.
Qed.

Lemma completed_pending ids (q : OutgoingQueue) (s : S) q' s' : complete_all q s ids = (q', s', Ok tt) →
  ∀ i, pending q' !! i = if decide (i ∈ ids) then None else pending q !! i.
Proof.
  revert q s. induction ids as [|i ids IH]; intros q s; cbn; [intros [= <- <-] i; by rewrite decide_False by apply not_elem_of_nil|].
  destruct (complete q s i) as [[q1 s1] [u|e]] eqn:Hc; [|done]. apply complete_deletes in Hc. intros Hall j. rewrite (IH _ _ Hall), Hc.
  destruct (decide (j ∈ ids)); [by rewrite decide_True by (by right)|]. destruct (decide (j = i)) as [->|Hne].
  - rewrite decide_True by left. apply lookup_delete_eq.
  - rewrite decide_False by (by intros [?|?]%elem_of_cons). by apply lookup_delete_ne.
Qed.

Lemma discard_kind_pending (q : OutgoingQueue) (s : S) k q' s' : discard_kind q s k = (q', s', Ok tt) →
  ∀ i p, pending q' !! i = Some p ↔ pending q !! i = Some p ∧ kind (request p) ≠ k.
Proof.
  unfold discard_kind. set (ids := (filter _ _).*1). intros Hall i p. rewrite (completed_pending _ _ _ _ _ Hall).
  assert (Hids : i ∈ ids ↔ ∃ p, pending q !! i = Some p ∧ kind (request p) = k).
  { unfold ids. rewrite list_elem_of_fmap. split.
    - intros ([j x] & -> & [Hk Hx%elem_of_btree_entries]%list_elem_of_filter). eauto.
    - intros (x & Hx & Hk). exists (i, x). split; [done|]. apply list_elem_of_filter. split; [done|]. by apply elem_of_btree_entries. }
  case_decide as Hi.
  - apply Hids in Hi as (x & Hx & Hk). split; [done|]. rewrite Hx. intros [[= <-] Hne]. by destruct (Hne Hk).
  - split; [|by intros [? _]]. intros Hp. split; [done|]. intros Hk. apply Hi, Hids. eauto.
Qed.

(** The edits of the stored requests, [seen] so far, are counted. *)
Record rebuilt (seen : list PendingRequest) (c : MessengerCore) : Prop := {
  rb_keys i key : co_account_data_write_keys c !! i = Some key ↔ ∃ r, r ∈ seen ∧ id (request r) = i ∧ written (request r) = Some key;
  rb_size : (size (co_account_data_write_keys c) ≤ length seen)%nat;
  rb_counts key : ag_pending <$> co_account_data_guard c !! key = outstanding (co_account_data_write_keys c) key }.

(** An edit stored under a new id is counted once more. *)
Lemma rebuilt_more seen r key c c2 v : rebuilt seen c → id (request r) ∉ ((λ r, id (request r)) <$> seen) → Z.of_nat (length seen) + 1 < u32_mod →
  written (request r) = Some key → co_account_data_guard c2 = guard_write key v (co_account_data_guard c) →
  co_account_data_write_keys c2 = <[id (request r) := key]> (co_account_data_write_keys c) → rebuilt (r :: seen) c2.
Proof.
  intros [Hk Hz Hc] Hid Hlen Hw Hg2 Hk2.
  assert (Hfree : co_account_data_write_keys c !! id (request r) = None).
  { apply eq_None_not_Some. intros [key' (x & Hx & He & _)%Hk]. apply Hid, list_elem_of_fmap. by exists x. }
  split; rewrite ?Hk2.
  - intros i key'. rewrite lookup_insert_Some. split.
    + intros [[<- <-]|[_ (x & Hx & Hrest)%Hk]]; [exists r; by split; [left|]|exists x; by split; [right|]].
    + intros (x & [->|Hx]%elem_of_cons & <- & Hw'); [left; split; [done|congruence]|right]. split; [|apply Hk; by exists x].
      intros He. apply Hid, list_elem_of_fmap. by exists x.
  - rewrite map_size_insert_None by done. cbn. lia.
  - intros key'. rewrite Hg2, guard_write_counts, outstanding_insert by done. destruct (decide (key' = key)); [|apply Hc].
    rewrite Hc. destruct (outstanding_bound (co_account_data_write_keys c) key) as [_ Hb]. rewrite Z.mod_small; [done|].
    unfold outstanding in *. case_decide; cbn in *; lia.
Qed.

Lemma rebuild_write_step c seen r : rebuilt seen c → is_account_data_request r = true → id (request r) ∉ ((λ r, id (request r)) <$> seen) →
  Z.of_nat (length seen) + 1 < u32_mod →
  rebuilt (r :: seen) (rebuild_write c r) ∧ co_counters (rebuild_write c r) = co_counters c ∧
  co_outgoing (rebuild_write c r) = co_outgoing c ∧ co_send_state (rebuild_write c r) = co_send_state c ∧
  co_pending_kinds (rebuild_write c r) = co_pending_kinds c ∧ co_sync_request_id (rebuild_write c r) = co_sync_request_id c.
Proof.
  intros Hb Hdata Hid Hlen. assert (Hw : written (request r) = match account_data_key_from_path (path (request r)), req_body (request r) with Some key, Some _ => Some key | _, _ => None end).
  { unfold is_account_data_request in Hdata. unfold written. destruct (kind (request r)); try done; destruct (req_body (request r)); cbn; by destruct (account_data_key_from_path _). }
  unfold rebuild_write. destruct (account_data_key_from_path (path (request r))) as [key|], (req_body (request r)) as [body|].
  2-4: split; [|done]; destruct Hb as [Hk Hz Hc]; split; [|cbn; lia|done]; intros i key'; rewrite Hk; split;
    [intros (x & Hx & Hrest); exists x; by split; [right|]|intros (x & [->|Hx]%elem_of_cons & Hi & Hx'); [congruence|by exists x]].
  match goal with |- context [cache_account_data ?k ?w ?c0] => destruct (cache_fields k w c0) as ([B [Hs Hq _ _]] & Hg2 & Hk2);
    assert (Hcn : co_counters (cache_account_data k w c0) = co_counters c0 ∧ co_outgoing (cache_account_data k w c0) = co_outgoing c0 ∧
      co_pending_kinds (cache_account_data k w c0) = co_pending_kinds c0) by (unfold cache_account_data; by repeat case_match);
    pose proof (ba_sync _ _ B) as Hsy; clear B Hq; revert Hs Hg2 Hk2 Hcn Hsy; generalize (cache_account_data k w c0) end.
  intros c2 Hs Hg2 Hk2 (Hcn & Ho & Hpk) Hsy. cbn in Hs, Hk2, Hcn, Ho, Hpk, Hsy. change (co_account_data_guard c2 = guard_write key None (co_account_data_guard c)) in Hg2.
  split; [|done]. eapply rebuilt_more; [exact Hb|done..|exact Hg2|]. cbn. by rewrite Hk2.
Qed.

Lemma rebuild_writes records c seen : rebuilt seen c → (∀ r, r ∈ records → is_account_data_request r = true) →
  NoDup ((λ r, id (request r)) <$> (reverse records ++ seen)) → Z.of_nat (length seen + length records) < u32_mod →
  let c' := foldl rebuild_write c records in
  rebuilt (reverse records ++ seen) c' ∧ co_counters c' = co_counters c ∧
  co_outgoing c' = co_outgoing c ∧ co_send_state c' = co_send_state c ∧ co_pending_kinds c' = co_pending_kinds c ∧ co_sync_request_id c' = co_sync_request_id c.
Proof.
  revert c seen. induction records as [|r records IH]; intros c seen Hb Hdata Hnd Hlen; cbn [foldl]; [done|]. cbn [length] in Hlen.
  rewrite reverse_cons, <- app_assoc in Hnd |- *. cbn [app] in Hnd |- *.
  destruct (rebuild_write_step c seen r Hb) as (Hb' & Hn & Ho & Hs & Hk & Hsy); [by apply Hdata; left| |lia|].
  { rewrite fmap_app, fmap_cons in Hnd. apply NoDup_app in Hnd as (_ & _ & Hnd). by apply NoDup_cons in Hnd as [? _]. }
  destruct (IH (rebuild_write c r) (r :: seen) Hb') as (Hb2 & Hn2 & Ho2 & Hs2 & Hk2 & Hsy2); [intros x Hx; apply Hdata; by right|done|cbn; lia|].
  split; [done|]. split_and!; congruence.
Qed.

Lemma list_filter_sublist {A} (f : A → bool) l : sublist (List.filter f l) l.
Proof. induction l as [|a l IH]; cbn; [done|]. destruct (f a); by constructor. Qed.

Lemma as_seed_next n : 0 ≤ n < u64_mod → RequestId_as_seed (RequestId_next n) = Some n.
Proof. intros Hn. unfold RequestId_as_seed, RequestId_next. cbn [RequestId_str]. rewrite strip_prefix_app. cbn. by apply minted_seed. Qed.

(** [open], taken apart. *)
Lemma open_run config s clock records c : pending_requests s = Ok records → core_open config s clock = Ok c →
  ∃ s1 account q s2 s3 n rooms timelines, let restored := restore_counter (Store.next_request_id n) (max_seed records) in
    discard_kind (foldl load_record OutgoingQueue_new (merge_sort by_id records)) s1 KSync = (q, s2, Ok tt) ∧
    c = rebuild_account_data_guard records (fresh_core config s3 account q (mkCounters restored (Z.max (Store.next_txn_id n) clock)) 1 rooms timelines).
Proof.
  intros Hrec. unfold core_open, load. rewrite Hrec. cbn [map_err].
  destruct (load_or_create s _ _) as [s1 account] eqn:Hacc.
  assert (Hrec1 : pending_requests s1 = Ok records).
  { revert Hacc. unfold load_or_create. destruct (cs_account s) as [[bytes|]|]; cbn; [destruct (account_record_from_slice bytes); by intros [= <- _]| |by intros [= <- _]].
    unfold account_save. destruct (account_record_to_vec _) as [b|]; cbn; [|by intros [= <- _]].
    pose proof (pending_account s b) as Hp. destruct (cs_save_account s b) as [s' [u|e]]; cbn in *; intros [= <- _]; congruence. }
  destruct account as [account|]; [|done]. cbn [map_err]. destruct (es_room_ids s1) as [ids|]; [|done]. cbn [map_err].
  destruct (open_rooms s1 ids ∅ ∅) as [[rooms timelines]|]; [|done]. cbn [map_err]. rewrite Hrec1. cbn [map_err].
  destruct (discard_kind _ s1 KSync) as [[q s2] [u|]] eqn:Hd; [|done]. destruct u. cbn [map_err].
  destruct (es_counters s2) as [found|]; [|done]. cbn [map_err].
  match goal with |- context [let '(s, saved) := ?x in _] => destruct x as [s3 [u|]] end; [|done]. cbn.
  intros [= <-]. by exists s1, account, q, s2, s3, (default (mkCounters 0 0) found), rooms, timelines.
Qed.

Lemma written_data r key : written (request r) = Some key → is_account_data_request r = true ∧ kind (request r) ≠ KSync.
Proof. unfold written, is_account_data_request. by destruct (kind (request r)). Qed.

(** The queue and the books of a core that was just opened. *)
Record opened (records : list PendingRequest) (c : MessengerCore) : Prop := {
  op_queue i p : pending (co_outgoing c) !! i = Some p → kind (request p) ≠ KSync ∧ ∃ r, r ∈ records ∧ i = id (request r) ∧ request p = request r;
  op_records r : r ∈ records → kind (request r) ≠ KSync → ∃ p, pending (co_outgoing c) !! id (request r) = Some p ∧ request p = request r;
  op_fresh r : r ∈ records → minted (Store.next_request_id (co_counters c)) (id (request r));
  op_keys i key : co_account_data_write_keys c !! i = Some key ↔ ∃ r, r ∈ records ∧ id (request r) = i ∧ written (request r) = Some key;
  op_size : (size (co_account_data_write_keys c) ≤ length records)%nat;
  op_counts key : ag_pending <$> co_account_data_guard c !! key = outstanding (co_account_data_write_keys c) key;
  op_kinds : co_pending_kinds c = ∅;
  op_sends : co_send_state c = ∅ }.

Lemma open_opened config s clock records c :
  pending_requests s = Ok records → NoDup ((λ r, id (request r)) <$> records) → Z.of_nat (length records) < u32_mod →
  core_open config s clock = Ok c → 0 ≤ Store.next_request_id (co_counters c) < u64_mod - 1 → opened records c.
Proof.
  intros Hrec Hnd Hlen Hopen Hrange.
  destruct (open_run _ _ _ _ _ Hrec Hopen) as (s1 & account & q & s2 & s3 & n0 & rooms & timelines & Hd & ->).
  set (n := mkCounters _ _) in *. set (c0 := fresh_core config s3 account q n 1 rooms timelines) in *.
  unfold rebuild_account_data_guard in *. set (writes := merge_sort by_id (List.filter is_account_data_request records)) in *.
  assert (Hin : ∀ r, r ∈ writes ↔ r ∈ records ∧ is_account_data_request r = true).
  { intros r. unfold writes. rewrite merge_sort_Permutation, !list_elem_of_In. apply filter_In. }
  assert (Hle : (length writes ≤ length records)%nat) by (unfold writes; rewrite merge_sort_Permutation; apply sublist_length, list_filter_sublist).
  destruct (rebuild_writes writes c0 []) as ([Hk Hz Hc] & Hn & Ho & Hs & Hks & _).
  { split; [|done|done]. intros i key. split; [done|]. by intros (r & ?%not_elem_of_nil & _). }
  { intros r Hr. by apply Hin. }
  { rewrite app_nil_r, reverse_Permutation. unfold writes. rewrite merge_sort_Permutation. eapply sublist_NoDup; [exact Hnd|]. apply fmap_sublist, list_filter_sublist. }
  { cbn. lia. }
  revert Hk Hz Hc Hn Ho Hs Hks Hrange. generalize (foldl rebuild_write c0 writes). intros c Hk Hz Hc Hn Ho Hs Hks Hrange.
  rewrite app_nil_r in Hk, Hz. rewrite length_reverse in Hz. rewrite Hn in Hrange. change (co_outgoing c0) with q in Ho.
  pose proof (discard_kind_pending _ _ _ _ _ Hd) as Hq. split.
  - intros i p. rewrite Ho. intros [[Hp|(r & Hr & -> & He)]%loaded_requests Hkind]%Hq; [done|]. split; [done|]. exists r. by rewrite merge_sort_Permutation in Hr.
  - intros r Hr Hkind. destruct (loaded_record (merge_sort by_id records) OutgoingQueue_new r) as (p & Hp & He); [by rewrite merge_sort_Permutation..|].
    exists p. split; [|done]. rewrite Ho. apply Hq. split; [done|congruence].
  - intros r Hr m Hm He. rewrite Hn in Hm. cbn in Hrange, Hm. destruct (max_seed_covers records r m Hr) as (top & Hmax & Htop); [rewrite He; apply as_seed_next; lia|].
    rewrite Hmax in Hrange, Hm. unfold restore_counter, next_seed in *. lia.
  - intros i key. rewrite Hk. split.
    + intros (r & Hr & Hrest). exists r. rewrite elem_of_reverse in Hr. split; [by apply Hin|done].
    + intros (r & Hr & Hi & Hw). exists r. rewrite elem_of_reverse, Hin. by split; [split; [|apply (written_data r key)]|].
  - lia.
  - done.
  - by rewrite Hks.
  - by rewrite Hs.
Qed.

Lemma opened_tied records c : opened records c → 0 ≤ Store.next_request_id (co_counters c) → tied [] c.
Proof.
  intros [Oq Or Of Ok' _ _ _ _] Hn. split; [done| | |].
  - intros i [[p (_ & r & Hr & -> & _)%Oq]|?%not_elem_of_nil]; [by apply Of|done].
  - intros i key (r & Hr & <- & Hw)%Ok'. destruct (Or r Hr) as (p & Hp & He); [by apply (written_data r key)|]. exists p. split; [done|]. by rewrite He.
  - intros i p key (_ & r & Hr & -> & He)%Oq Hw. apply Ok'. exists r. by rewrite <- He.
Qed.

Lemma opened_ledger records c : opened records c → 0 ≤ Store.next_request_id (co_counters c) < u64_mod - 1 → ledger (Z.of_nat (length records)) c.
Proof.
  intros [_ _ Of Ok' Hz Hc _ _] Hn. split; [lia| |lia|done]. intros i n [key (r & Hr & <- & _)%Ok']. by apply Of.
Qed.

Lemma opened_one_sync records c : opened records c → one_sync c.
Proof. intros [Oq _ _ _ _ _ Hk _]. split; [by intros i p [Hs _]%Oq|]. rewrite Hk. by intros i. Qed.

(** The table of an opened core is read from the queue: every slot in it is named by a path. *)
Lemma opened_counts records c key : opened records c → outstanding (co_account_data_write_keys c) key = edits_waiting c key.
Proof.
  intros [Oq Or _ Ok' _ _ _ _]. apply waiting_counts. intros i. split.
  - intros (r & Hr & <- & Hw)%Ok'. destruct (Or r Hr) as (p & Hp & He); [by apply (written_data r key)|]. exists p. by rewrite He.
  - intros (p & (_ & r & Hr & -> & He)%Oq & Hw). apply Ok'. exists r. by rewrite <- He.
Qed.

(** ** An edit that is forgotten *)

(** Two edits of one kind are outstanding; the first is accepted and the second refused. The value
    shown is then the one from before both, though the server has the first. *)
Lemma accepted_edit_is_forgotten key before (c c1 c2 : MessengerCore) r1 r2 :
  co_account_data_guard c !! key = Some (mkGuard 2 before) →
  settle_account_data_write key true c = Some (c1, r1) → settle_account_data_write key false c1 = Some (c2, r2) →
  cached_account_data c2 key = before.
Proof.
  intros Hg. unfold settle_account_data_write. rewrite run_reads, Hg. cbn [ag_pending Z.max Z.sub Z.ltb]. intros ->%update_run.
  rewrite run_reads. cbn [co_account_data_guard set_account_data_guard]. rewrite lookup_insert_eq. cbn [ag_pending ag_server_value].
  match goal with |- context [0 <? ?x] => change (0 <? x) with false end. cbn iota. rewrite run_update. unfold store_account_data_cache.
  cbn [when negb]. rewrite run_update. unfold emit. intros ->%update_run.
  match goal with |- context [cache_account_data key before ?cc] => generalize (cached_cache key before cc key); generalize (cache_account_data key before cc) end.
  intros c3 Hc3. rewrite bool_decide_eq_true_2 in Hc3 by done. exact Hc3.
Qed.

(** ** Theorems *)

(** C18: Over every run of the engine, from books that agree with the queue as [core_open] leaves them
    and in which fewer than 2^32 ids are used, the guard of a kind of account data counts exactly the requests in the outgoing queue that write it, by their paths,
    and there is no guard when no such request waits: it never wraps, it stays while a request is
    retried, and it goes with the last request that is answered. The kind must be one that a path
    can name (UTF-8, and a room id that parses); for any other, each counted edit still waits. *)
Theorem edits_are_counted spare c c' :
  0 ≤ spare → ledger spare c → tied [] c → rtc engine_step c c' → roomy spare c' →
  (∀ key, nameable key → ag_pending <$> co_account_data_guard c' !! key = edits_waiting c' key ∧
    (co_account_data_guard c' !! key = None ↔ ∀ i p, pending (co_outgoing c') !! i = Some p → written (request p) ≠ Some key)) ∧
  (∀ key, ag_pending <$> co_account_data_guard c' !! key = outstanding (co_account_data_write_keys c') key) ∧
  (∀ i, is_Some (co_account_data_write_keys c' !! i) → is_Some (pending (co_outgoing c') !! i)).
Proof.
  intros Hs Hl Ht Hr Hroom. assert (Hk : kept spare c c' ∧ binds [] c c').
  { clear Hl Ht Hroom. induction Hr as [|c1 c2 c3 Hstep _ [Hk Hb]]; [split; reflexivity|]. split; etrans; [by apply kept_step|done|by apply binds_step|done]. }
  destruct Hk as [Hk Hb]. destruct (Hb (proj2 (le_range _ _ Hl))) as [Hn Htied]. destruct (proj2 (Hk Hs) Hl Hroom) as [_ _ _ Hc].
  assert (T : tied [] c'). { apply Htied; [|done]. unfold roomy in Hroom. assert (u32_mod < u64_mod - 1) by done. lia. }
  split_and!; [|done|].
  - intros key Hkey. rewrite Hc, (tied_counts [] c' key T Hkey). split; [done|]. rewrite <- edits_waiting_none, <- (tied_counts [] c' key T Hkey), <- Hc.
    by destruct (co_account_data_guard c' !! key).
  - intros i [key (p & Hp & _)%(ti_counted _ _ T)]. by exists p.
Qed.

(** C26: A sync changes no edit that is not yet answered: what is cached stays the value last written
    here, whatever account data the server sends; the count of writes stays too. The sync token is
    the answer's [next_batch] when all of the answer was taken in, and stays as it was, so the
    same sync is asked for again, when it failed at any point. *)
Theorem sync_keeps_edits response c c' r : ingest_sync response c = Some (c', r) →
  (∀ key, is_Some (co_account_data_guard c !! key) → cached_account_data c' key = cached_account_data c key) ∧
  (∀ key, ag_pending <$> co_account_data_guard c' !! key = ag_pending <$> co_account_data_guard c !! key) ∧
  token_view (co_store c') = match r with Ok _ => Some (sy_next_batch response) | Err _ => token_view (co_store c) end.
Proof.
  intros [(e & -> & Hq)|(c1 & Hq & -> & -> & Ht)]%ingest_sync_run; destruct Hq as [[B _] [_ Hn Hc]].
  - split_and!; [done..|]. apply B.
  - by split_and!.
Qed.

(** C15: No step but a whole sync, taken in from the answer of a sync request, moves the sync token. *)
Theorem sync_token_follows_ingestion c c' : engine_step c c' →
  token_view (co_store c') = token_view (co_store c) ∨
  ∃ i resp now r parsed c1 c2, core_on_response i resp now c = Some (c', r) ∧ co_pending_kinds c !! i = Some KSync ∧
    sync_from_slice (resp_body resp) = Ok parsed ∧ ingest_sync parsed c1 = Some (c2, Ok tt) ∧
    token_view (co_store c') = Some (sy_next_batch parsed).
Proof.
  intros [(cmd & now & r & Hm)|[(i & x & now & r & Hm)|[(c1 & x & q & He & -> & Hq)|[[B _] _]]]]%engine_step_cases.
  - left. apply base_dispatch in Hm. apply Hm.
  - destruct (moves_response _ _ _ _ _ _ Hm) as [Ht|(nb & (Hk & parsed & c1 & c2 & Hp & Hi & ->) & Ht)]; [by left|right].
    by exists i, x, now, r, parsed, c1, c2.
  - left. apply (moves_ensure (λ _, False)) in He as [Ht|(nb & [] & _)]. exact Ht.
  - left. apply B.
Qed.

(** C21: Over every run, at most one sync request is pending, and it is the one the engine waits for. *)
Theorem one_sync_at_a_time c c' : one_sync c → rtc engine_step c c' →
  ∀ i j p q, pending (co_outgoing c') !! i = Some p → pending (co_outgoing c') !! j = Some q →
    kind (request p) = KSync → kind (request q) = KSync → i = j ∧ co_sync_request_id c' = Some i.
Proof.
  intros Hc Hr. assert (Hk : syncing c c') by (clear Hc; induction Hr; [by intros Hc|etrans; [by apply syncing_step|done]]).
  destruct (Hk Hc) as [Op _]. intros i j p q Hi Hj Hp Hq. specialize (Op i p Hi Hp) as Oi. specialize (Op j q Hj Hq). split; congruence.
Qed.

(** C22: After a restart, from fewer than 2^32 stored requests with distinct ids, every request that was stored waits again, but for the syncs; no id that is
    minted is the id of a request that waits; no send is remembered; and the guard of each kind of
    account data counts the requests in the queue that write it. The books are then as the runs of
    the engine keep them. *)
Theorem open_is_ready config s clock records c :
  pending_requests s = Ok records → NoDup ((λ r, id (request r)) <$> records) → Z.of_nat (length records) < u32_mod →
  core_open config s clock = Ok c → 0 ≤ Store.next_request_id (co_counters c) < u64_mod - 1 →
  (∀ i p, pending (co_outgoing c) !! i = Some p → kind (request p) ≠ KSync ∧
     ∀ n, Store.next_request_id (co_counters c) ≤ n < u64_mod → i ≠ RequestId_next n) ∧
  (∀ r, r ∈ records → kind (request r) ≠ KSync → ∃ p, pending (co_outgoing c) !! id (request r) = Some p ∧ request p = request r) ∧
  (∀ key, ag_pending <$> co_account_data_guard c !! key = edits_waiting c key) ∧
  ledger (Z.of_nat (length records)) c ∧ tied [] c ∧ one_sync c ∧ co_send_state c = ∅.
Proof.
  intros Hrec Hnd Hlen Hopen Hrange. assert (O : opened records c) by (by eapply open_opened). split_and!.
  - intros i p (Hk & r & Hr & -> & _)%(op_queue _ _ O). split; [done|]. by apply (op_fresh _ _ O).
  - apply O.
  - intros key. rewrite (op_counts _ _ O). by apply (opened_counts records).
  - by apply opened_ledger.
  - apply (opened_tied records); [done|lia].
  - by apply (opened_one_sync records).
  - apply O.
Qed.
End Books.
