(* ===== verification/CoreExample.v ===== *)
(** * The engine over the working-set store, and concrete runs of it

    The working-set store keeps what the engine relies on ([EngineStoreLaws]); then a concrete
    engine, opened over a store with a request left from before, and the run the theorems are
    applied to. *)

From Stdlib Require Import Ascii SpecFloat.
From S2P Require Import Prelude Primitives Persist Ids OutgoingQueue OutgoingQueueProps Store StoreProps Json CanonicalJson Codec Events Relations Timeline TimelineProps RoomState DeviceTracker MegolmRatchet Megolm MegolmProps Olm OlmAccount AccountState OlmSessions OlmSessionsProps GroupSessions CryptoExample Wire Core CoreSync CoreLogic CoreSends CoreQueue CoreBooks.

Local Open Scope Z_scope.

(** ** The store behind the engine *)

Section StoreInstances.
Context `{JsonText} `{!RecordJson} {C : Type} `{RecordCodec C} (nonce : Nonce) (text : StoreError → string).

Definition queue_error {A} (r : result A StoreError) : result A QueueStoreError := map_err (λ e, mkQueueStoreError (text e)) r.

Definition Store_StateStore : StateStore (Store C) := {|
  pending_requests s := queue_error (store_pending_requests s);
  save_pending_request s p := let '(s, r) := store_save_pending_request s nonce p in (s, queue_error r);
  delete_pending_request s i := let '(s, r) := store_delete_pending_request s i in (s, queue_error r)
|}.

Definition Store_EngineStore : EngineStore (Store C) := {|
  es_counters := counters;
  es_save_counters s n := save_counters s nonce n;
  es_sync_token := sync_token;
  es_save_sync_token s t := save_sync_token s nonce t;
  es_room_ids := room_ids;
  es_room_state := room_state;
  es_save_room_state s r b := save_room_state s nonce r b;
  es_take_flush_batch := take_flush_batch;
  es_ack_flush := ack_flush
|}.

Definition Store_CrossSigningStore : CrossSigningStore (Store C) := {|
  cs_cross_signing_keys := cross_signing_keys;
  cs_save_cross_signing_keys s b := save_cross_signing_keys s nonce b
|}.

#[local] Existing Instance Store_StateStore.
#[local] Existing Instance Store_EngineStore.
#[local] Existing Instance Store_CrossSigningStore.
#[local] Instance Store_Devices : CryptoStore (Store C) := Store_CryptoStore nonce.
#[local] Instance Store_Account : AccountStore (Store C) := Store_AccountStore nonce.
#[local] Instance Store_Olm : OlmStore (Store C) := Store_OlmStore nonce.
#[local] Instance Store_Group : GroupStore (Store C) := Store_GroupStore nonce.

Lemma token_of_olm (s : Store C) k i b : st_sync_token (save_olm_session s nonce nonce k i b).1 = st_sync_token s.
Proof. unfold save_olm_session. repeat (case_match; simplify_eq/=); done. Qed.

Definition Store_EngineStoreLaws : EngineStoreLaws (S := Store C).
Proof.
  refine {| token_view := st_sync_token |}; try done.
  - intros s t. by eexists.
  - intros s n. cbn. unfold save_counters. destruct (map_err _ _); done.
  - intros s k i b. apply token_of_olm.
  - intros s p. cbn. unfold store_save_pending_request. by destruct (map_err _ (pending_to_vec p)).
  - intros s i. cbn. unfold store_delete_pending_request. by destruct (st_pending s !! i).
  - intros s. cbn. by destruct (gate_seal_for_request (st_gate s)) as [g r].
  - intros s. cbn. unfold take_flush_batch. by destruct (take_batch (st_gate s)) as [g r].
  - intros s i. cbn. unfold store_delete_pending_request. by destruct (st_pending s !! i).
Defined.
End StoreInstances.

(** ** A concrete engine *)

Module CoreExample.
Export CryptoExample TimelineExamples.
Import SealedWitnesses.

#[export] Instance engine_json : JsonText := {| value_from_slice s := ok (from_vec s) |}.

#[export] Instance kind_countable : Countable OutgoingRequestKind.
Proof.
  set (all := [KSync; KeysUpload; KeysQuery; KeysClaim; KeysChanges; SendToDevice; SigningKeysUpload; SignaturesUpload; RoomSend; RoomRedact;
    KRoomState; RoomMessages; RoomMembers; CreateRoom; JoinRoom; LeaveRoom; Invite; Kick; SetState; Typing; Receipt; ReadMarkers; KAccountData;
    RoomAccountData; Profile; UserDirectorySearch; PublicRooms; BackupVersion; BackupKeys]).
  refine (inj_countable (λ k, fst <$> list_find (eq k) all) (λ o, i ← o; all !! i) _). by intros [].
Defined.

#[export] Instance method_codec : Codec HttpMethod :=
  iso_codec (λ m, match m with Get => inl tt | Post => inr true | Put => inr false end)
    (λ v, match v with inl _ => Get | inr true => Post | inr false => Put end) ltac:(by intros []).
#[export] Instance request_codec : Codec OutgoingRequest :=
  iso_codec (B := RequestId * HttpMethod * string * list (string * string) * option Json.Value * OutgoingRequestKind)
    (λ q, (id q, method q, path q, query q, req_body q, kind q)) (λ '(i, m, p, q, b, k), mkOutgoingRequest i m p q b k) ltac:(by intros []).
#[export] Instance lane_codec : Codec Lane :=
  iso_codec (λ l, match l with
                  | OutgoingQueue.Room r => inl r
                  | OutgoingQueue.Sync => inr (Some (Some true))
                  | OutgoingQueue.ToDevice => inr (Some (Some false))
                  | OutgoingQueue.AccountData => inr (Some None)
                  | OutgoingQueue.Other => inr None
                  end)
    (λ v, match v with
          | inl r => OutgoingQueue.Room r
          | inr (Some (Some true)) => OutgoingQueue.Sync
          | inr (Some (Some false)) => OutgoingQueue.ToDevice
          | inr (Some None) => OutgoingQueue.AccountData
          | inr None => OutgoingQueue.Other
          end) ltac:(by intros []).
#[export] Instance pending_codec : Codec PendingRequest :=
  iso_codec (λ p, (request p, lane p, required (required_seq p))) (λ '(q, l, s), mkPendingRequest q l (mkRequiredSeq s)) ltac:(by intros [? ? []]).
#[export] Instance counters_codec : Codec Counters :=
  iso_codec (λ c, (Store.next_request_id c, Store.next_txn_id c)) (λ '(r, t), mkCounters r t) ltac:(by intros []).

#[export] Instance engine_records : RecordJson := {|
  order_to_vec := to_vec; order_from_slice := from_vec;
  pending_to_vec := to_vec; pending_from_slice := from_vec;
  counters_to_vec := to_vec; counters_from_slice := from_vec
|}.

(** *** Its store *)

Abbreviation EngineStorage := (Store SealedRecordCodec).

Definition error_text (e : StoreError) : string := match e with StoreDecode _ reason => reason | _ => "store" end.

#[export] Instance engine_state_store : StateStore EngineStorage := Store_StateStore nonce0 error_text.
#[export] Instance engine_store : EngineStore EngineStorage := Store_EngineStore nonce0.
#[export] Instance engine_xsign_store : CrossSigningStore EngineStorage := Store_CrossSigningStore nonce0.
#[export] Instance engine_devices : CryptoStore EngineStorage := Store_CryptoStore nonce0.
#[export] Instance engine_account : AccountStore EngineStorage := Store_AccountStore nonce0.
#[export] Instance engine_olm : OlmStore EngineStorage := Store_OlmStore nonce0.
#[export] Instance engine_group : GroupStore EngineStorage := Store_GroupStore nonce0.
#[export] Instance engine_laws : EngineStoreLaws (S := EngineStorage) := Store_EngineStoreLaws nonce0 error_text.

(** *** What it reads *)

Definition room : RoomId := mkRoomId "!r:x".

(** An encrypted room with this account alone. *)
Definition the_room : RoomState :=
  mkRoomState None {[ alice := mkMemberState MJoin None false None ]} (power_levels RoomState_new) None None None None
    (Some (mkEncryption MEGOLM_ALGORITHM 604800000 100)) 0 [] [] None None (mkUnread 0 0).

Definition example_state_serde : StateSerde := StateExamples.sample_state_serde.
#[export] Existing Instance example_state_serde.

(** The answer of a sync: account data, and a new token. *)
Definition news : SyncResponse := mkSync "s2" [] [] [] [mkBasic "m.direct" (VString "theirs"); mkBasic "m.other" VNull] [] [] [] {[ SIGNED_CURVE25519 := 100 ]} [].

#[export] Instance example_core_serde : CoreSerde := {|
  sync_from_slice s := if bool_decide (s = "news") then Ok news else Err "sync";
  messages_from_slice _ := Err "unused";
  send_response_from_slice _ := None;
  create_room_from_slice _ := Err "unused";
  public_rooms_from_slice _ := Err "unused";
  user_directory_from_slice _ := Err "unused";
  typing_from_value _ := None;
  receipts_from_value _ := None;
  tags_from_value _ := None;
  tags_to_value _ := Err "unused";
  direct_from_value _ := None;
  direct_to_value _ := Err "unused";
  power_levels_to_value _ := Err "unused";
  forwarded_key_from_value _ := None;
  forwarded_key_to_value _ := Err "unused";
  key_request_from_value _ := None;
  key_request_to_value _ := Err "unused";
  withheld_from_value _ := None;
  megolm_to_value c := Ok (VObject [("ciphertext", VString (mg_ciphertext c)); ("session_id", VString (mg_session_id c))]);
  room_state_to_vec _ := Ok "room";
  room_state_from_slice _ := Ok the_room;
  cross_signing_to_vec _ := Ok "keys";
  cross_signing_from_slice _ := None
|}.

#[export] Instance example_secrets : Ed25519Secrets := {|
  Ed25519SecretKey := bool;
  secret_to_base64 b := if b then "1" else "0";
  secret_from_base64 s := Ok (bool_decide (s = "1"));
  secret_public_base64 b := if b then "public1" else "public0";
  secret_sign b _ := b
|}.

#[export] Instance example_entropy : Entropy := {|
  draw_curve n i := "C"%char;
  draw_session _ := (true, repeated 128 "r"%char);
  draw_secret _ i := Nat.even i;
  draw_jitter _ := f64_one
|}.

(** *** Runs *)

Definition config : CoreConfig := mkConfig alice phone "x".

(** What was left by the last process: the encrypted room, the account's tracking entry, a write of
    the direct rooms and a sync that was not answered. *)
Definition left_write : PendingRequest :=
  mkPendingRequest (Requests.account_data (RequestId_next 5) alice "m.direct" (VString "mine")) OutgoingQueue.AccountData RequiredSeq_NONE.
Definition left_sync : PendingRequest := mkPendingRequest (Requests.sync (RequestId_next 6) None None) OutgoingQueue.Sync RequiredSeq_NONE.

Definition storage : EngineStorage :=
  let s := Store_new phone codec0 in
  let s := (save_room_state s nonce0 room "room").1 in
  let s := (mark_user_tracked s nonce0 alice false).1 in
  let s := (save_sync_token s nonce0 "s1").1 in
  let s := (store_save_pending_request s nonce0 left_write).1 in
  (store_save_pending_request s nonce0 left_sync).1.

Definition records : list PendingRequest := [left_write; left_sync].

Definition opened_core : result (MessengerCore (S := EngineStorage)) MessengerError := core_open config storage 1000.

(** The state a method leaves; a panic leaves the state as it was. *)
Definition after {A} (m : M (S := EngineStorage) A) (c : MessengerCore (S := EngineStorage)) : MessengerCore (S := EngineStorage) :=
  match m c with Some (c', _) => c' | None => c end.

Lemma after_run {A} (m : M (S := EngineStorage) A) c : is_some (m c) = true → ∃ r, m c = Some (after m c, r).
Proof. unfold after. destruct (m c) as [[c' r]|]; [by eexists|done]. Qed.

Definition core0 : MessengerCore (S := EngineStorage) :=
  match opened_core with
  | Ok c => c
  | Err _ => fresh_core config storage alice_account OutgoingQueue_new (mkCounters 0 0) 0 ∅ ∅
  end.

Lemma core0_opened : core_open config storage 1000 = Ok core0.
Proof. unfold core0, opened_core. assert (is_ok (core_open config storage 1000) = true) by (vm_compute; reflexivity). by destruct (core_open config storage 1000). Qed.

(** A message to the room, an edit of the direct rooms, and a tick. *)
Definition hello : MessengerCommand := SendMessage room (mkOutgoing KText "hello" None None) (Some (TxnId_new 1)).
Definition core1 := after (dispatch hello 10) core0.
Definition edit : MessengerCommand := SetAccountData "m.direct" (VString "newer").
Definition core2 := after (dispatch edit 11) core1.
Definition core3 := after (releasable_requests 12) core2.
Definition sync_answer : HttpResponseDescriptor := mkHttpResponseDescriptor 200 "news".
Definition core4 := after (core_on_response (RequestId_next 9) sync_answer 13) core3.

Lemma stored_records : pending_requests storage = Ok records.
Proof. vm_compute. reflexivity. Qed.

Lemma core0_range : 0 ≤ Store.next_request_id (co_counters core0) < u64_mod - 1.
Proof. vm_compute. split; [discriminate|reflexivity]. Qed.

Lemma records_distinct : NoDup ((λ r, id (request r)) <$> records).
Proof. apply (bool_decide_unpack _). vm_compute. exact I. Qed.

Lemma records_few : Z.of_nat (length records) < u32_mod.
Proof. reflexivity. Qed.

Lemma core0_ready : opened records core0.
Proof. exact (open_opened config storage 1000 records core0 stored_records records_distinct records_few core0_opened core0_range). Qed.
Lemma core0_tied : tied [] core0.
Proof. exact (opened_tied records core0 core0_ready (proj1 core0_range)). Qed.

Lemma run1 : ∃ r, dispatch hello 10 core0 = Some (core1, r).
Proof. refine (after_run (dispatch hello 10) core0 _). vm_compute. reflexivity. Qed.
Lemma run2 : ∃ r, dispatch edit 11 core1 = Some (core2, r).
Proof. refine (after_run (dispatch edit 11) core1 _). vm_compute. reflexivity. Qed.
Lemma run3 : ∃ r, releasable_requests 12 core2 = Some (core3, r).
Proof. refine (after_run (releasable_requests 12) core2 _). vm_compute. reflexivity. Qed.
Lemma run4 : ∃ r, core_on_response (RequestId_next 9) sync_answer 13 core3 = Some (core4, r).
Proof. refine (after_run (core_on_response (RequestId_next 9) sync_answer 13) core3 _). vm_compute. reflexivity. Qed.

Lemma steps2 : rtc engine_step core0 core2.
Proof.
  destruct run1 as [r1 Hr1], run2 as [r2 Hr2]. eapply rtc_l; [by eapply step_dispatch|]. eapply rtc_once. by eapply step_dispatch.
Qed.
Lemma steps3 : rtc engine_step core0 core3.
Proof. eapply rtc_r; [apply steps2|]. destruct run3 as [r3 Hr3]. by eapply step_releasable. Qed.

Lemma two_spare : 0 ≤ 2.
Proof. discriminate. Qed.

(** The message leaves as an event of type [m.room.encrypted]. *)
Lemma room_events_leave_sealed_witness :
  is_some (co_rooms core0 !! room ≫= encryption) = true ∧ co_send_state core0 = ∅ ∧
  ∃ q, pending (co_outgoing core1) !! RequestId_next 7 = Some q ∧
    path (request q) = "/_matrix/client/v3/rooms/%21r%3Ax/send/m.room.encrypted/m.txn.0000000000000001" ∧
    (pending (co_outgoing core0) !! RequestId_next 7 = Some q ∨
     ∃ txn rm p w, request q = wire_request (RequestId_next 7) rm txn w ∧
       (plaintext_wire p = Some w ∧ (is_room_event p = false ∨ co_rooms core0 !! rm ≫= encryption = None) ∨
        sealed_as rm p w ∨ settled core0 txn rm p w)).
Proof.
  split; [vm_compute; reflexivity|]. split; [exact (op_sends records core0 core0_ready)|]. destruct run1 as [r Hr].
  assert (Hq : (λ p, (path (request p), kind (request p))) <$> pending (co_outgoing core1) !! RequestId_next 7 =
    Some ("/_matrix/client/v3/rooms/%21r%3Ax/send/m.room.encrypted/m.txn.0000000000000001", RoomSend)) by (vm_compute; reflexivity).
  destruct (pending (co_outgoing core1) !! RequestId_next 7) as [q|] eqn:Hl; [|discriminate]. injection Hq as Hp Hk.
  exists q. split; [done|]. split; [done|].
  apply (room_events_leave_sealed core0 core1 (RequestId_next 7) q); [|exact Hl|exact Hk]. eapply rtc_once, step_dispatch, Hr.
Defined.

(** The write that was left and the new one are both counted; the new one is lost on the way and
    waits on, the one that was left is answered. *)
Definition core5 := after (core_on_transport_error (RequestId_next 8) 12) core2.
Definition core6 := after (core_on_response (RequestId_next 5) (mkHttpResponseDescriptor 200 "{}") 13) core5.

Lemma steps6 : rtc engine_step core0 core6.
Proof.
  eapply rtc_r; [eapply rtc_r; [apply steps2|]|].
  - destruct (after_run (core_on_transport_error (RequestId_next 8) 12) core2) as [r Hr]; [vm_compute; reflexivity|]. by eapply step_transport_error.
  - destruct (after_run (core_on_response (RequestId_next 5) (mkHttpResponseDescriptor 200 "{}") 13) core5) as [r Hr]; [vm_compute; reflexivity|].
    by eapply step_response.
Qed.
Lemma core6_roomy : roomy 2 core6.
Proof. vm_compute. reflexivity. Qed.
Lemma direct_nameable : nameable (None, "m.direct").
Proof. split; [vm_compute; reflexivity|]. intros rm Hrm. discriminate Hrm. Qed.

Lemma edits_are_counted_witness :
  edits_waiting core2 (None, "m.direct") = Some 2 ∧ edits_waiting core6 (None, "m.direct") = Some 1 ∧
  ag_pending <$> co_account_data_guard core6 !! ((None, "m.direct") : AccountDataKey) = edits_waiting core6 (None, "m.direct").
Proof.
  split; [vm_compute; reflexivity|]. split; [vm_compute; reflexivity|].
  exact (proj1 (proj1 (edits_are_counted 2 core0 core6 two_spare (opened_ledger records core0 core0_ready core0_range) core0_tied steps6 core6_roomy) _ direct_nameable)).
Defined.

(** The server's value of the direct rooms arrives while the edit waits. *)
Lemma sync_keeps_edits_witness :
  ∃ r, ingest_sync news core3 = Some (after (ingest_sync news) core3, r) ∧
    cached_account_data core3 (None, "m.direct") = Some (VString "newer") ∧
    (∀ key, is_Some (co_account_data_guard core3 !! key) → cached_account_data (after (ingest_sync news) core3) key = cached_account_data core3 key) ∧
    (∀ key, ag_pending <$> co_account_data_guard (after (ingest_sync news) core3) !! key = ag_pending <$> co_account_data_guard core3 !! key) ∧
    token_view (co_store (after (ingest_sync news) core3)) = match r with Ok _ => Some "s2" | Err _ => token_view (co_store core3) end.
Proof.
  destruct (after_run (ingest_sync news) core3) as [r Hr]; [vm_compute; reflexivity|]. exists r. split; [exact Hr|]. split; [vm_compute; reflexivity|].
  apply (sync_keeps_edits news core3 (after (ingest_sync news) core3) r Hr).
Defined.

(** The answer of the sync moves the token. *)
Lemma sync_token_follows_ingestion_witness :
  engine_step core3 core4 ∧ token_view (co_store core3) = Some "s1" ∧ token_view (co_store core4) = Some "s2" ∧
  (token_view (co_store core4) = token_view (co_store core3) ∨
   ∃ i resp now r parsed c1 c2, core_on_response i resp now core3 = Some (core4, r) ∧ co_pending_kinds core3 !! i = Some KSync ∧
    sync_from_slice (resp_body resp) = Ok parsed ∧ ingest_sync parsed c1 = Some (c2, Ok tt) ∧
    token_view (co_store core4) = Some (sy_next_batch parsed)).
Proof.
  destruct run4 as [r Hr]. assert (Hs : engine_step core3 core4) by (eapply step_response, Hr).
  split; [exact Hs|]. split; [vm_compute; reflexivity|]. split; [vm_compute; reflexivity|]. exact (sync_token_follows_ingestion core3 core4 Hs).
Defined.

Lemma one_sync_at_a_time_witness :
  ∃ p, pending (co_outgoing core3) !! RequestId_next 9 = Some p ∧ kind (request p) = KSync ∧
    (RequestId_next 9 = RequestId_next 9 ∧ co_sync_request_id core3 = Some (RequestId_next 9)).
Proof.
  assert (Hq : (λ p, kind (request p)) <$> pending (co_outgoing core3) !! RequestId_next 9 = Some KSync) by (vm_compute; reflexivity).
  destruct (pending (co_outgoing core3) !! RequestId_next 9) as [p|] eqn:Hl; [|discriminate]. injection Hq as Hk.
  exists p. split; [done|]. split; [done|].
  apply (one_sync_at_a_time core0 core3 (opened_one_sync records core0 core0_ready) steps3 (RequestId_next 9) (RequestId_next 9) p p Hl Hl Hk Hk).
Defined.

Lemma open_is_ready_witness :
  edits_waiting core0 (None, "m.direct") = Some 1 ∧ edits_waiting core0 (None, "m.push_rules") = None ∧
  (∀ i p, pending (co_outgoing core0) !! i = Some p → kind (request p) ≠ KSync ∧
     ∀ n, Store.next_request_id (co_counters core0) ≤ n < u64_mod → i ≠ RequestId_next n) ∧
  (∀ r, r ∈ records → kind (request r) ≠ KSync → ∃ p, pending (co_outgoing core0) !! id (request r) = Some p ∧ request p = request r) ∧
  (∀ key, ag_pending <$> co_account_data_guard core0 !! key = edits_waiting core0 key) ∧
  ledger 2 core0 ∧ tied [] core0 ∧ one_sync core0 ∧ co_send_state core0 = ∅.
Proof.
  split; [vm_compute; reflexivity|]. split; [vm_compute; reflexivity|].
  exact (open_is_ready config storage 1000 records core0 stored_records records_distinct records_few core0_opened core0_range).
Defined.
End CoreExample.
