(* ===== verification/ServerDb.v ===== *)
(** * The homeserver's database (crates/mail4agent-server/src/store.rs, keys.rs, fed_rooms.rs,
      fed_edus.rs, public_channels.rs)

    The tables of rooms, members, events, receipts and account data, and those behind keys, devices
    and to-device messages, as lists of rows; a statement is the list operation it denotes, and an
    INSERT fails on a key that is taken. A column that holds the name of an enum's constructor is
    the enum. Every stream-ordered table takes its ids from one counter. Rows come in table order where the
    code has no ORDER BY; nothing proved depends on that order. *)

From Stdlib Require Import Ascii.
From S2P Require Import Prelude Sqlite Json.

Local Open Scope Z_scope.

(** A statement that failed ([rusqlite::Error]). *)
Inductive DbError := UniqueViolation (table : string) | ForeignKeyViolation (table : string) | NoRows.

(** ** error.rs *)

Record MatrixError := mkMatrixError {
  me_status : Z;
  me_errcode : string;
  me_error : string;
  me_retry_after_ms : option Z;
  me_current_version : option string }.

Definition MatrixError_new (status : Z) (errcode error : string) : MatrixError := mkMatrixError status errcode error None None.

Definition forbidden (msg : string) : MatrixError := MatrixError_new 403 "M_FORBIDDEN" msg.
Definition not_found (msg : string) : MatrixError := MatrixError_new 404 "M_NOT_FOUND" msg.
Definition bad_json (msg : string) : MatrixError := MatrixError_new 400 "M_BAD_JSON" msg.
Definition invalid_param (msg : string) : MatrixError := MatrixError_new 400 "M_INVALID_PARAM" msg.
Definition internal : MatrixError := MatrixError_new 500 "M_UNKNOWN" "Internal error".
Definition wrong_room_keys_version (current_version : option Z) : MatrixError :=
  mkMatrixError 403 "M_WRONG_ROOM_KEYS_VERSION" "Wrong backup version" None (pretty <$> current_version).
Definition duplicate_annotation : MatrixError := MatrixError_new 400 "M_DUPLICATE_ANNOTATION" "Already reacted with this key".
Definition limit_exceeded (retry_after_ms : Z) : MatrixError := mkMatrixError 429 "M_LIMIT_EXCEEDED" "Too many requests" (Some retry_after_ms) None.

(** [From<rusqlite::Error>] and [From<serde_json::Error>] *)
Definition from_db (_ : DbError) : MatrixError := internal.
Definition from_json_error (_ : string) : MatrixError := bad_json "Malformed JSON".

(** [serde_json]: [to_string] and [from_str] at [Value]. *)
Class ServerJson := {
  value_to_string : Value → string;
  value_from_str : string → result Value string
}.

(** What is written is read back, numbers with a fraction aside. *)
Fixpoint no_floats (v : Value) : bool :=
  match v with
  | VNumber (Float _) => false
  | VArray items => forallb no_floats items
  | VObject m => forallb (λ kv, no_floats kv.2) m
  | _ => true
  end.

Class ServerJsonLaws `{ServerJson} : Prop := {
  value_roundtrip v : wf_value v → no_floats v = true → value_from_str (value_to_string v) = Ok v
}.

(** ** Rows *)

Inductive Membership := Join | Invite | Leave | Ban.

#[export] Instance Membership_eq_dec : EqDecision Membership.
Proof. solve_decision. Defined.

Definition Membership_from_wire_name (s : string) : option Membership :=
  if seqb s "join" then Some Join
  else if seqb s "invite" then Some Invite
  else if seqb s "leave" then Some Leave
  else if seqb s "ban" then Some Ban
  else None.

Inductive RoomKind := Dm | Group | Channel.
Inductive JoinRule := InviteRule | PublicRule.
Inductive HistoryVisibility := Shared | WorldReadable | Invited | Joined.
Inductive ReceiptType := Read | ReadPrivate.

#[export] Instance RoomKind_eq_dec : EqDecision RoomKind.
Proof. solve_decision. Defined.
#[export] Instance JoinRule_eq_dec : EqDecision JoinRule.
Proof. solve_decision. Defined.
#[export] Instance HistoryVisibility_eq_dec : EqDecision HistoryVisibility.
Proof. solve_decision. Defined.
#[export] Instance ReceiptType_eq_dec : EqDecision ReceiptType.
Proof. solve_decision. Defined.

Record UserRow := mkUserRow { mu_user_id : Z; mu_mxid : string }.
Record Room := mkRoom {
  ro_id : string;
  ro_kind : RoomKind;
  ro_room_version : string;
  ro_creator_user_id : Z;
  ro_created_at : string;
  ro_is_encrypted : bool;
  ro_join_rule : JoinRule;
  ro_history_visibility : HistoryVisibility;
  ro_dm_pair_key : option string;
  ro_legacy_dm_id : option Z }.
Record RoomMember := mkMember {
  rm_room_id : string;
  rm_user_id : Z;
  rm_membership : Membership;
  rm_power_level : option Z;
  rm_updated_at : string }.
Record EventRow := mkEventRow {
  ev_stream_id : Z;
  ev_event_id : string;
  ev_room_id : string;
  ev_sender_user_id : Z;
  ev_event_type : string;
  ev_state_key : option string;
  ev_content : string;
  ev_origin_server_ts : Z;
  ev_txn_id : option string;
  ev_redacts : option string;
  ev_redacted_by : option string }.
(** A row of [current_state]: the event that fills a slot of a room's state. *)
Record SlotRow := mkSlot { sl_room_id : string; sl_event_type : string; sl_state_key : string; sl_event_id : string }.
Record RelationRow := mkRelation {
  rl_event_id : string;
  rl_room_id : string;
  rl_rel_type : string;
  rl_target_id : string;
  rl_agg_key : option string }.
Record ReceiptRow := mkReceipt {
  rc_room_id : string;
  rc_user_id : Z;
  rc_receipt_type : ReceiptType;
  rc_event_id : string;
  rc_ts : Z;
  rc_stream_id : Z }.
Record AccountDataRow := mkAccountData {
  ad_user_id : Z;
  ad_room_id : string;
  ad_data_type : string;
  ad_content : string;
  ad_stream_id : Z }.
(** A row of [pub_txn]. *)
Record PubTxnRow := mkPubTxn { pt_user_id : Z; pt_device_id : string; pt_txn_id : string; pt_event_id : string }.
Record TxnRow := mkTxnRow { tx_user_id : Z; tx_device_id : string; tx_txn_id : string; tx_event_id : option string; tx_created_at : string }.
Record OutboxRow := mkOutbox {
  ob_destination : string;
  ob_kind : string;
  ob_room_id : string;
  ob_event_id : string;
  ob_payload : string;
  ob_created_ms : Z }.

(** keys.rs *)
Inductive CredentialKind := Bearer | Web.
Inductive CrossSigningUsage := Master | SelfSigning | UserSigning.

#[export] Instance CredentialKind_eq_dec : EqDecision CredentialKind.
Proof. solve_decision. Defined.
#[export] Instance CrossSigningUsage_eq_dec : EqDecision CrossSigningUsage.
Proof. solve_decision. Defined.

Record Device := mkDevice {
  dv_user_id : Z;
  dv_device_id : string;
  dv_credential_kind : CredentialKind;
  dv_credential_ref : string;
  dv_display_name : option string;
  dv_created_at : string;
  dv_last_seen_at : string }.
Record DeviceKeys := mkDeviceKeysRow {
  dk_user_id : Z;
  dk_device_id : string;
  dk_algorithms : string;
  dk_keys : string;
  dk_signatures : string;
  dk_uploaded_at : string }.
Record OneTimeKeyRow := mkOneTimeKey { ok_user_id : Z; ok_device_id : string; ok_key_id : string; ok_algorithm : string; ok_key_json : string }.
Record FallbackKeyRow := mkFallbackRow {
  fr_user_id : Z;
  fr_device_id : string;
  fr_algorithm : string;
  fr_key_id : string;
  fr_key_json : string;
  fr_used : bool;
  fr_uploaded_at : string }.
Record ToDeviceMessage := mkToDeviceMessage {
  td_stream_id : Z;
  td_recipient_user_id : Z;
  td_recipient_device_id : string;
  td_sender_user_id : Z;
  td_event_type : string;
  td_content : string }.
Record DeviceListChange := mkChange { dc_stream_id : Z; dc_user_id : Z; dc_changed_at : string }.
Record CrossSigningKey := mkCrossKey { cs_user_id : Z; cs_usage : CrossSigningUsage; cs_key_json : string; cs_uploaded_at : string }.
Record CrossSigningSignature := mkCrossSignature {
  sg_id : Z;
  sg_signer_user_id : Z;
  sg_target_user_id : Z;
  sg_target_key_id : string;
  sg_signature_json : string;
  sg_uploaded_at : string }.
Record KeyBackupVersion := mkBackupVersion {
  bv_version : Z;
  bv_user_id : Z;
  bv_algorithm : string;
  bv_auth_data : string;
  bv_etag : Z;
  bv_is_deleted : bool;
  bv_created_at : string }.
Record KeyBackupSession := mkBackupSession {
  bs_user_id : Z;
  bs_version : Z;
  bs_room_id : string;
  bs_session_id : string;
  bs_session_data : string;
  bs_updated_at : string }.

(** The database. A row of [db_pub_events] has no state key. [db_signature_seq] and [db_backup_seq] are the AUTOINCREMENT counters. *)
Record Db := mkDb {
  db_stream_counter : Z;
  db_users : list UserRow;
  db_rooms : list Room;
  db_members : list RoomMember;
  db_events : list EventRow;
  db_current_state : list SlotRow;
  db_relations : list RelationRow;
  db_receipts : list ReceiptRow;
  db_account_data : list AccountDataRow;
  db_pub_events : list EventRow;
  db_pub_txns : list PubTxnRow;
  db_txns : list TxnRow;
  db_outbox : list OutboxRow;
  db_devices : list Device;
  db_device_keys : list DeviceKeys;
  db_one_time_keys : list OneTimeKeyRow;
  db_fallback_keys : list FallbackKeyRow;
  db_to_device : list ToDeviceMessage;
  db_changes : list DeviceListChange;
  db_cross_keys : list CrossSigningKey;
  db_signatures : list CrossSigningSignature;
  db_signature_seq : Z;
  db_backup_versions : list KeyBackupVersion;
  db_backup_seq : Z;
  db_backup_sessions : list KeyBackupSession }.

(** Right after the schema was created. *)
Definition empty_db : Db := mkDb 0 [] [] [] [] [] [] [] [] [] [] [] [] [] [] [] [] [] [] [] [] 0 [] 0 [].

(** A database with one table replaced. *)
Definition with_stream_counter (d : Db) x := mkDb x (db_users d) (db_rooms d) (db_members d) (db_events d) (db_current_state d) (db_relations d) (db_receipts d) (db_account_data d) (db_pub_events d) (db_pub_txns d) (db_txns d) (db_outbox d) (db_devices d) (db_device_keys d) (db_one_time_keys d) (db_fallback_keys d) (db_to_device d) (db_changes d) (db_cross_keys d) (db_signatures d) (db_signature_seq d) (db_backup_versions d) (db_backup_seq d) (db_backup_sessions d).
Definition with_users (d : Db) x := mkDb (db_stream_counter d) x (db_rooms d) (db_members d) (db_events d) (db_current_state d) (db_relations d) (db_receipts d) (db_account_data d) (db_pub_events d) (db_pub_txns d) (db_txns d) (db_outbox d) (db_devices d) (db_device_keys d) (db_one_time_keys d) (db_fallback_keys d) (db_to_device d) (db_changes d) (db_cross_keys d) (db_signatures d) (db_signature_seq d) (db_backup_versions d) (db_backup_seq d) (db_backup_sessions d).
Definition with_rooms (d : Db) x := mkDb (db_stream_counter d) (db_users d) x (db_members d) (db_events d) (db_current_state d) (db_relations d) (db_receipts d) (db_account_data d) (db_pub_events d) (db_pub_txns d) (db_txns d) (db_outbox d) (db_devices d) (db_device_keys d) (db_one_time_keys d) (db_fallback_keys d) (db_to_device d) (db_changes d) (db_cross_keys d) (db_signatures d) (db_signature_seq d) (db_backup_versions d) (db_backup_seq d) (db_backup_sessions d).
Definition with_members (d : Db) x := mkDb (db_stream_counter d) (db_users d) (db_rooms d) x (db_events d) (db_current_state d) (db_relations d) (db_receipts d) (db_account_data d) (db_pub_events d) (db_pub_txns d) (db_txns d) (db_outbox d) (db_devices d) (db_device_keys d) (db_one_time_keys d) (db_fallback_keys d) (db_to_device d) (db_changes d) (db_cross_keys d) (db_signatures d) (db_signature_seq d) (db_backup_versions d) (db_backup_seq d) (db_backup_sessions d).
Definition with_events (d : Db) x := mkDb (db_stream_counter d) (db_users d) (db_rooms d) (db_members d) x (db_current_state d) (db_relations d) (db_receipts d) (db_account_data d) (db_pub_events d) (db_pub_txns d) (db_txns d) (db_outbox d) (db_devices d) (db_device_keys d) (db_one_time_keys d) (db_fallback_keys d) (db_to_device d) (db_changes d) (db_cross_keys d) (db_signatures d) (db_signature_seq d) (db_backup_versions d) (db_backup_seq d) (db_backup_sessions d).
Definition with_current_state (d : Db) x := mkDb (db_stream_counter d) (db_users d) (db_rooms d) (db_members d) (db_events d) x (db_relations d) (db_receipts d) (db_account_data d) (db_pub_events d) (db_pub_txns d) (db_txns d) (db_outbox d) (db_devices d) (db_device_keys d) (db_one_time_keys d) (db_fallback_keys d) (db_to_device d) (db_changes d) (db_cross_keys d) (db_signatures d) (db_signature_seq d) (db_backup_versions d) (db_backup_seq d) (db_backup_sessions d).
Definition with_relations (d : Db) x := mkDb (db_stream_counter d) (db_users d) (db_rooms d) (db_members d) (db_events d) (db_current_state d) x (db_receipts d) (db_account_data d) (db_pub_events d) (db_pub_txns d) (db_txns d) (db_outbox d) (db_devices d) (db_device_keys d) (db_one_time_keys d) (db_fallback_keys d) (db_to_device d) (db_changes d) (db_cross_keys d) (db_signatures d) (db_signature_seq d) (db_backup_versions d) (db_backup_seq d) (db_backup_sessions d).
Definition with_receipts (d : Db) x := mkDb (db_stream_counter d) (db_users d) (db_rooms d) (db_members d) (db_events d) (db_current_state d) (db_relations d) x (db_account_data d) (db_pub_events d) (db_pub_txns d) (db_txns d) (db_outbox d) (db_devices d) (db_device_keys d) (db_one_time_keys d) (db_fallback_keys d) (db_to_device d) (db_changes d) (db_cross_keys d) (db_signatures d) (db_signature_seq d) (db_backup_versions d) (db_backup_seq d) (db_backup_sessions d).
Definition with_account_data (d : Db) x := mkDb (db_stream_counter d) (db_users d) (db_rooms d) (db_members d) (db_events d) (db_current_state d) (db_relations d) (db_receipts d) x (db_pub_events d) (db_pub_txns d) (db_txns d) (db_outbox d) (db_devices d) (db_device_keys d) (db_one_time_keys d) (db_fallback_keys d) (db_to_device d) (db_changes d) (db_cross_keys d) (db_signatures d) (db_signature_seq d) (db_backup_versions d) (db_backup_seq d) (db_backup_sessions d).
Definition with_pub_events (d : Db) x := mkDb (db_stream_counter d) (db_users d) (db_rooms d) (db_members d) (db_events d) (db_current_state d) (db_relations d) (db_receipts d) (db_account_data d) x (db_pub_txns d) (db_txns d) (db_outbox d) (db_devices d) (db_device_keys d) (db_one_time_keys d) (db_fallback_keys d) (db_to_device d) (db_changes d) (db_cross_keys d) (db_signatures d) (db_signature_seq d) (db_backup_versions d) (db_backup_seq d) (db_backup_sessions d).
Definition with_pub_txns (d : Db) x := mkDb (db_stream_counter d) (db_users d) (db_rooms d) (db_members d) (db_events d) (db_current_state d) (db_relations d) (db_receipts d) (db_account_data d) (db_pub_events d) x (db_txns d) (db_outbox d) (db_devices d) (db_device_keys d) (db_one_time_keys d) (db_fallback_keys d) (db_to_device d) (db_changes d) (db_cross_keys d) (db_signatures d) (db_signature_seq d) (db_backup_versions d) (db_backup_seq d) (db_backup_sessions d).
Definition with_txns (d : Db) x := mkDb (db_stream_counter d) (db_users d) (db_rooms d) (db_members d) (db_events d) (db_current_state d) (db_relations d) (db_receipts d) (db_account_data d) (db_pub_events d) (db_pub_txns d) x (db_outbox d) (db_devices d) (db_device_keys d) (db_one_time_keys d) (db_fallback_keys d) (db_to_device d) (db_changes d) (db_cross_keys d) (db_signatures d) (db_signature_seq d) (db_backup_versions d) (db_backup_seq d) (db_backup_sessions d).
Definition with_outbox (d : Db) x := mkDb (db_stream_counter d) (db_users d) (db_rooms d) (db_members d) (db_events d) (db_current_state d) (db_relations d) (db_receipts d) (db_account_data d) (db_pub_events d) (db_pub_txns d) (db_txns d) x (db_devices d) (db_device_keys d) (db_one_time_keys d) (db_fallback_keys d) (db_to_device d) (db_changes d) (db_cross_keys d) (db_signatures d) (db_signature_seq d) (db_backup_versions d) (db_backup_seq d) (db_backup_sessions d).
Definition with_devices (d : Db) x := mkDb (db_stream_counter d) (db_users d) (db_rooms d) (db_members d) (db_events d) (db_current_state d) (db_relations d) (db_receipts d) (db_account_data d) (db_pub_events d) (db_pub_txns d) (db_txns d) (db_outbox d) x (db_device_keys d) (db_one_time_keys d) (db_fallback_keys d) (db_to_device d) (db_changes d) (db_cross_keys d) (db_signatures d) (db_signature_seq d) (db_backup_versions d) (db_backup_seq d) (db_backup_sessions d).
Definition with_device_keys (d : Db) x := mkDb (db_stream_counter d) (db_users d) (db_rooms d) (db_members d) (db_events d) (db_current_state d) (db_relations d) (db_receipts d) (db_account_data d) (db_pub_events d) (db_pub_txns d) (db_txns d) (db_outbox d) (db_devices d) x (db_one_time_keys d) (db_fallback_keys d) (db_to_device d) (db_changes d) (db_cross_keys d) (db_signatures d) (db_signature_seq d) (db_backup_versions d) (db_backup_seq d) (db_backup_sessions d).
Definition with_one_time_keys (d : Db) x := mkDb (db_stream_counter d) (db_users d) (db_rooms d) (db_members d) (db_events d) (db_current_state d) (db_relations d) (db_receipts d) (db_account_data d) (db_pub_events d) (db_pub_txns d) (db_txns d) (db_outbox d) (db_devices d) (db_device_keys d) x (db_fallback_keys d) (db_to_device d) (db_changes d) (db_cross_keys d) (db_signatures d) (db_signature_seq d) (db_backup_versions d) (db_backup_seq d) (db_backup_sessions d).
Definition with_fallback_keys (d : Db) x := mkDb (db_stream_counter d) (db_users d) (db_rooms d) (db_members d) (db_events d) (db_current_state d) (db_relations d) (db_receipts d) (db_account_data d) (db_pub_events d) (db_pub_txns d) (db_txns d) (db_outbox d) (db_devices d) (db_device_keys d) (db_one_time_keys d) x (db_to_device d) (db_changes d) (db_cross_keys d) (db_signatures d) (db_signature_seq d) (db_backup_versions d) (db_backup_seq d) (db_backup_sessions d).
Definition with_to_device (d : Db) x := mkDb (db_stream_counter d) (db_users d) (db_rooms d) (db_members d) (db_events d) (db_current_state d) (db_relations d) (db_receipts d) (db_account_data d) (db_pub_events d) (db_pub_txns d) (db_txns d) (db_outbox d) (db_devices d) (db_device_keys d) (db_one_time_keys d) (db_fallback_keys d) x (db_changes d) (db_cross_keys d) (db_signatures d) (db_signature_seq d) (db_backup_versions d) (db_backup_seq d) (db_backup_sessions d).
Definition with_changes (d : Db) x := mkDb (db_stream_counter d) (db_users d) (db_rooms d) (db_members d) (db_events d) (db_current_state d) (db_relations d) (db_receipts d) (db_account_data d) (db_pub_events d) (db_pub_txns d) (db_txns d) (db_outbox d) (db_devices d) (db_device_keys d) (db_one_time_keys d) (db_fallback_keys d) (db_to_device d) x (db_cross_keys d) (db_signatures d) (db_signature_seq d) (db_backup_versions d) (db_backup_seq d) (db_backup_sessions d).
Definition with_cross_keys (d : Db) x := mkDb (db_stream_counter d) (db_users d) (db_rooms d) (db_members d) (db_events d) (db_current_state d) (db_relations d) (db_receipts d) (db_account_data d) (db_pub_events d) (db_pub_txns d) (db_txns d) (db_outbox d) (db_devices d) (db_device_keys d) (db_one_time_keys d) (db_fallback_keys d) (db_to_device d) (db_changes d) x (db_signatures d) (db_signature_seq d) (db_backup_versions d) (db_backup_seq d) (db_backup_sessions d).
Definition with_signatures (d : Db) x n := mkDb (db_stream_counter d) (db_users d) (db_rooms d) (db_members d) (db_events d) (db_current_state d) (db_relations d) (db_receipts d) (db_account_data d) (db_pub_events d) (db_pub_txns d) (db_txns d) (db_outbox d) (db_devices d) (db_device_keys d) (db_one_time_keys d) (db_fallback_keys d) (db_to_device d) (db_changes d) (db_cross_keys d) x n (db_backup_versions d) (db_backup_seq d) (db_backup_sessions d).
Definition with_backup_versions (d : Db) x n := mkDb (db_stream_counter d) (db_users d) (db_rooms d) (db_members d) (db_events d) (db_current_state d) (db_relations d) (db_receipts d) (db_account_data d) (db_pub_events d) (db_pub_txns d) (db_txns d) (db_outbox d) (db_devices d) (db_device_keys d) (db_one_time_keys d) (db_fallback_keys d) (db_to_device d) (db_changes d) (db_cross_keys d) (db_signatures d) (db_signature_seq d) x n (db_backup_sessions d).
Definition with_backup_sessions (d : Db) x := mkDb (db_stream_counter d) (db_users d) (db_rooms d) (db_members d) (db_events d) (db_current_state d) (db_relations d) (db_receipts d) (db_account_data d) (db_pub_events d) (db_pub_txns d) (db_txns d) (db_outbox d) (db_devices d) (db_device_keys d) (db_one_time_keys d) (db_fallback_keys d) (db_to_device d) (db_changes d) (db_cross_keys d) (db_signatures d) (db_signature_seq d) (db_backup_versions d) (db_backup_seq d) x.

(** [UPDATE .. WHERE], [DELETE .. WHERE] and [INSERT .. ON CONFLICT DO UPDATE]. *)
Definition update_where {A} (p : A → bool) (f : A → A) (t : list A) : list A := (λ r, if p r then f r else r) <$> t.
Definition delete_where {A} (p : A → bool) (t : list A) : list A := select (λ r, negb (p r)) t.
Definition upsert {A} (p : A → bool) (f : A → A) (new : A) (t : list A) : list A :=
  if exists_row p t then update_where p f t else t ++ [new].

(** [let tx = conn.transaction()?; ..; tx.commit()?]: a transaction that fails changes nothing. *)
Definition transaction {A E} (d : Db) (body : result (Db * A) E) : Db * result A E :=
  match body with Ok (d', a) => (d', Ok a) | Err e => (d, Err e) end.

(** ** store.rs *)

Definition next_stream_id (d : Db) : Db * Z := (with_stream_counter d (db_stream_counter d + 1), db_stream_counter d + 1).

Definition max_stream_id (d : Db) : Z := db_stream_counter d.

Definition mxid_of (d : Db) (user_id : Z) : option string := mu_mxid <$> find_row (λ r, mu_user_id r =? user_id) (db_users d).

Definition user_id_of (d : Db) (mxid : string) : option Z := mu_user_id <$> find_row (λ r, seqb (mu_mxid r) mxid) (db_users d).

Definition get_room (d : Db) (room_id : string) : option Room := find_row (λ r, seqb (ro_id r) room_id) (db_rooms d).

Definition has_membership (membership : option Membership) (r : RoomMember) : bool :=
  match membership with Some m => bool_decide (rm_membership r = m) | None => true end.

Definition room_members (d : Db) (room_id : string) (membership : option Membership) : list RoomMember :=
  select (λ r, seqb (rm_room_id r) room_id && has_membership membership r) (db_members d).

Definition room_member (d : Db) (room_id : string) (user_id : Z) : option RoomMember :=
  find_row (λ r, seqb (rm_room_id r) room_id && (rm_user_id r =? user_id)) (db_members d).

Definition rooms_for_user (d : Db) (user_id : Z) (membership : option Membership) : list string :=
  rm_room_id <$> select (λ r, (rm_user_id r =? user_id) && has_membership membership r) (db_members d).

Section Events.
Context `{ServerJson}.

(** The [membership] of an [m.room.member] content. *)
Definition content_membership (content : string) : option string :=
  match value_from_str content with
  | Ok value => get value "membership" ≫= as_str
  | Err _ => None
  end.

Definition is_member_event (r : EventRow) : bool := seqb (ev_event_type r) "m.room.member".

(** [ORDER BY stream_id DESC LIMIT 1] *)
Definition newest (rows : list EventRow) : option EventRow := last (order_by_int ev_stream_id rows).

Definition membership_at (d : Db) (room_id mxid : string) (at_stream_id : Z) : option Membership :=
  row ← newest (select (λ r, seqb (ev_room_id r) room_id && is_member_event r &&
                             bool_decide (ev_state_key r = Some mxid) && (ev_stream_id r <=? at_stream_id)) (db_events d));
  content_membership (ev_content row) ≫= Membership_from_wire_name.

Definition in_window (from_exclusive to_inclusive : Z) (n : Z) : bool := (from_exclusive <? n) && (n <=? to_inclusive).

Definition rooms_with_member_events_in_window (d : Db) (room_ids : list string) (from_exclusive to_inclusive : Z) : list string :=
  remove_dups (ev_room_id <$> select (λ r, is_member_event r && in_window from_exclusive to_inclusive (ev_stream_id r) &&
                                           existsb (seqb (ev_room_id r)) room_ids) (db_events d)).

Definition member_state_keys_in_window (d : Db) (room_id : string) (from_exclusive to_inclusive : Z) : list string :=
  remove_dups (omap ev_state_key (select (λ r, seqb (ev_room_id r) room_id && is_member_event r &&
                                               in_window from_exclusive to_inclusive (ev_stream_id r)) (db_events d))).

Definition left_membership (content : string) : bool :=
  match content_membership content with Some m => seqb m "leave" || seqb m "ban" | None => false end.

Definition user_ids_with_leave_transition_in_rooms (d : Db) (room_ids : list string) (from_exclusive to_inclusive : Z) : list Z :=
  let rows := select (λ r, is_member_event r && is_some (ev_state_key r) && in_window from_exclusive to_inclusive (ev_stream_id r) &&
                           existsb (seqb (ev_room_id r)) room_ids) (db_events d) in
  let pairs := remove_dups (omap (λ r, (λ k, (k, ev_content r)) <$> ev_state_key r) rows) in
  omap (user_id_of d) (fst <$> select (λ kc, left_membership kc.2) pairs).

End Events.

Inductive TxnDedupEntry := NotSeen | Seen (event_id : option string).

Definition txn_is (user_id : Z) (device_id txn_id : string) (r : TxnRow) : bool :=
  (tx_user_id r =? user_id) && seqb (tx_device_id r) device_id && seqb (tx_txn_id r) txn_id.

Definition txn_dedup_lookup (d : Db) (user_id : Z) (device_id txn_id : string) : TxnDedupEntry :=
  match find_row (txn_is user_id device_id txn_id) (db_txns d) with
  | None => NotSeen
  | Some r => Seen (tx_event_id r)
  end.

Definition txn_dedup_record (d : Db) (user_id : Z) (device_id txn_id : string) (event_id : option string) (now : string) : result Db DbError :=
  if exists_row (txn_is user_id device_id txn_id) (db_txns d) then Err (UniqueViolation "txn_dedup")
  else Ok (with_txns d (db_txns d ++ [mkTxnRow user_id device_id txn_id event_id now])).

(** ** fed_rooms.rs and fed_edus.rs: telling other servers *)

Definition domain_of (mxid : string) : option string := rest ← strip_prefix "@" mxid; snd <$> split_once ":" rest.

(** A [BTreeSet<String>] of what is in the list. *)
Definition btree_set (l : list string) : list string := merge_sort String.le (remove_dups l).

(** The domains of the remote members of a room, which have negative ids. *)
Definition remote_domains (d : Db) (room_id : string) : list string :=
  btree_set (omap (λ m, mxid_of d (rm_user_id m) ≫= domain_of)
               (select (λ m, seqb (rm_room_id m) room_id && (rm_user_id m <? 0)) (db_members d))).

Definition enqueue (d : Db) (destination kind room_id event_id payload : string) (now_ms : Z) : Db :=
  with_outbox d (db_outbox d ++ [mkOutbox destination kind room_id event_id payload now_ms]).

Section Edus.
Context `{ServerJson}.

Definition remote_servers_of_user (d : Db) (user_id : Z) : list string :=
  btree_set (concat (remote_domains d <$> rooms_for_user d user_id (Some Join))).

Definition queue (d : Db) (servers : list string) (edu : Value) (now_ms : Z) : Db :=
  foldl (λ d server, enqueue d server "edu" EmptyString EmptyString (value_to_string edu) now_ms) d servers.

Definition enqueue_device_list (d : Db) (user_id stream_id now_ms : Z) : Db :=
  if user_id <=? 0 then d
  else
    match mxid_of d user_id with
    | None => d
    | Some mxid =>
        queue d (remote_servers_of_user d user_id)
          (VObject [("content", VObject [("device_id", VString "*"); ("prev_id", VArray []); ("stream_id", VNumber (PosInt stream_id));
                                         ("user_id", VString mxid)]);
                    ("edu_type", VString "m.device_list_update")]) now_ms
    end.

End Edus.
