(* ===== verification/ServerKeys.v ===== *)
(** * Devices, keys and to-device messages (crates/mail4agent-server/src/keys.rs)

    Every function of the module over the tables of [ServerDb]. Random ids and the time are
    arguments. *)

From S2P Require Import Prelude Sqlite Json ServerDb.

Local Open Scope Z_scope.

Inductive MatrixKeysStoreError := KDb (e : DbError) | OneTimeKeyConflict (key_id : string) | WrongBackupVersion.

(** [From<MatrixKeysStoreError> for MatrixError] (error.rs) *)
Definition from_keys_error (e : MatrixKeysStoreError) : MatrixError :=
  match e with
  | KDb e => from_db e
  | OneTimeKeyConflict key_id => invalid_param ("One-time key " +:+ key_id +:+ " already exists with different content")
  | WrongBackupVersion => wrong_room_keys_version None
  end.

Section Keys.
Context `{ServerJson}.

(** ** Device-list changes *)

Definition log_device_list_change_tx (d : Db) (user_id : Z) (now : string) (now_ms : Z) : result (Db * Z) DbError :=
  let '(d, stream_id) := next_stream_id d in
  if exists_row (λ r, dc_stream_id r =? stream_id) (db_changes d) then Err (UniqueViolation "device_list_changes")
  else
    let d := with_changes d (db_changes d ++ [mkChange stream_id user_id now]) in
    Ok (enqueue_device_list d user_id stream_id now_ms, stream_id).

Definition log_device_list_change (d : Db) (user_id : Z) (now : string) (now_ms : Z) : Db * result Z DbError :=
  transaction d (log_device_list_change_tx d user_id now now_ms).

Definition device_list_changes_between (d : Db) (from_exclusive to_inclusive : Z) : list Z :=
  remove_dups (dc_user_id <$> select (λ r, in_window from_exclusive to_inclusive (dc_stream_id r)) (db_changes d)).

(** ** Devices *)

Definition has_credential (credential_kind : CredentialKind) (credential_ref : string) (r : Device) : bool :=
  bool_decide (dv_credential_kind r = credential_kind) && seqb (dv_credential_ref r) credential_ref.

Definition is_device (user_id : Z) (device_id : string) (r : Device) : bool := (dv_user_id r =? user_id) && seqb (dv_device_id r) device_id.

Definition device_for_credential (d : Db) (credential_kind : CredentialKind) (credential_ref : string) : option Device :=
  find_row (has_credential credential_kind credential_ref) (db_devices d).

(** [device_id] is the fresh random id. *)
Definition create_device (d : Db) (user_id : Z) (credential_kind : CredentialKind) (credential_ref now device_id : string) :
    Db * result string DbError :=
  if exists_row (λ r, is_device user_id device_id r || has_credential credential_kind credential_ref r) (db_devices d)
  then (d, Err (UniqueViolation "devices"))
  else (with_devices d (db_devices d ++ [mkDevice user_id device_id credential_kind credential_ref None now now]), Ok device_id).

Definition touch_device (d : Db) (user_id : Z) (device_id now : string) : Db :=
  with_devices d (update_where (is_device user_id device_id)
    (λ r, mkDevice (dv_user_id r) (dv_device_id r) (dv_credential_kind r) (dv_credential_ref r) (dv_display_name r) (dv_created_at r) now) (db_devices d)).

Definition list_devices (d : Db) (user_id : Z) : list Device := select (λ r, dv_user_id r =? user_id) (db_devices d).

Definition get_device (d : Db) (user_id : Z) (device_id : string) : option Device := find_row (is_device user_id device_id) (db_devices d).

Definition set_device_display_name (d : Db) (user_id : Z) (device_id : string) (display_name : option string) : Db * bool :=
  (with_devices d (update_where (is_device user_id device_id)
     (λ r, mkDevice (dv_user_id r) (dv_device_id r) (dv_credential_kind r) (dv_credential_ref r) display_name (dv_created_at r) (dv_last_seen_at r)) (db_devices d)),
   exists_row (is_device user_id device_id) (db_devices d)).

Definition keys_of_device (user_id : Z) (device_id : string) (r : DeviceKeys) : bool := (dk_user_id r =? user_id) && seqb (dk_device_id r) device_id.
Definition otk_of_device (user_id : Z) (device_id : string) (r : OneTimeKeyRow) : bool := (ok_user_id r =? user_id) && seqb (ok_device_id r) device_id.
Definition fallback_of_device (user_id : Z) (device_id : string) (r : FallbackKeyRow) : bool := (fr_user_id r =? user_id) && seqb (fr_device_id r) device_id.
Definition addressed_to (user_id : Z) (device_id : string) (r : ToDeviceMessage) : bool :=
  (td_recipient_user_id r =? user_id) && seqb (td_recipient_device_id r) device_id.

Definition delete_device_key_material (d : Db) (user_id : Z) (device_id : string) : Db :=
  let d := with_device_keys d (delete_where (keys_of_device user_id device_id) (db_device_keys d)) in
  let d := with_one_time_keys d (delete_where (otk_of_device user_id device_id) (db_one_time_keys d)) in
  let d := with_fallback_keys d (delete_where (fallback_of_device user_id device_id) (db_fallback_keys d)) in
  with_to_device d (delete_where (addressed_to user_id device_id) (db_to_device d)).

Definition delete_device (d : Db) (user_id : Z) (device_id now : string) (now_ms : Z) : Db * result bool DbError :=
  transaction d (
    let existed := exists_row (is_device user_id device_id) (db_devices d) in
    let d := with_devices d (delete_where (is_device user_id device_id) (db_devices d)) in
    if existed then
      let d := delete_device_key_material d user_id device_id in
      let? (d, _) := log_device_list_change_tx d user_id now now_ms in
      Ok (d, existed)
    else Ok (d, existed)).

Definition delete_device_by_credential (d : Db) (credential_kind : CredentialKind) (credential_ref now : string) (now_ms : Z) :
    Db * result (option (Z * string)) DbError :=
  transaction d (
    let found := (λ r, (dv_user_id r, dv_device_id r)) <$> find_row (has_credential credential_kind credential_ref) (db_devices d) in
    let d := with_devices d (delete_where (has_credential credential_kind credential_ref) (db_devices d)) in
    match found with
    | Some (user_id, device_id) =>
        let d := delete_device_key_material d user_id device_id in
        let? (d, _) := log_device_list_change_tx d user_id now now_ms in
        Ok (d, found)
    | None => Ok (d, found)
    end).

Definition devices_for_reaper (d : Db) : list (Z * string * CredentialKind * string) :=
  (λ r, (dv_user_id r, dv_device_id r, dv_credential_kind r, dv_credential_ref r)) <$> db_devices d.

(** ** Device keys *)

Definition upsert_device_keys (d : Db) (user_id : Z) (device_id algorithms_json keys_json signatures_json now : string) (now_ms : Z) :
    Db * result unit DbError :=
  transaction d (
    let row := mkDeviceKeysRow user_id device_id algorithms_json keys_json signatures_json now in
    let d := with_device_keys d (upsert (keys_of_device user_id device_id) (λ _, row) row (db_device_keys d)) in
    let? (d, _) := log_device_list_change_tx d user_id now now_ms in
    Ok (d, tt)).

Definition clear_device_one_time_material (d : Db) (user_id : Z) (device_id : string) : Db :=
  let d := with_one_time_keys d (delete_where (otk_of_device user_id device_id) (db_one_time_keys d)) in
  with_fallback_keys d (delete_where (fallback_of_device user_id device_id) (db_fallback_keys d)).

Definition device_keys_for (d : Db) (user_ids : list Z) : list DeviceKeys :=
  select (λ r, existsb (Z.eqb (dk_user_id r)) user_ids) (db_device_keys d).

(** ** One-time keys *)

Definition is_otk (user_id : Z) (device_id key_id : string) (r : OneTimeKeyRow) : bool :=
  otk_of_device user_id device_id r && seqb (ok_key_id r) key_id.

(** The loop of [add_one_time_keys] over [(key_id, algorithm, key_json)]. *)
Fixpoint add_keys_loop (d : Db) (user_id : Z) (device_id : string) (keys : list (string * string * string)) :
    result (Db * unit) MatrixKeysStoreError :=
  match keys with
  | [] => Ok (d, tt)
  | (key_id, algorithm, key_json) :: keys =>
      match find_row (is_otk user_id device_id key_id) (db_one_time_keys d) with
      | None =>
          add_keys_loop (with_one_time_keys d (db_one_time_keys d ++ [mkOneTimeKey user_id device_id key_id algorithm key_json]))
            user_id device_id keys
      | Some existing =>
          if seqb (ok_key_json existing) key_json then add_keys_loop d user_id device_id keys
          else Err (OneTimeKeyConflict key_id)
      end
  end.

Definition add_one_time_keys (d : Db) (user_id : Z) (device_id : string) (keys : list (string * string * string)) :
    Db * result unit MatrixKeysStoreError :=
  transaction d (add_keys_loop d user_id device_id keys).

(** [GROUP BY algorithm] *)
Definition count_one_time_keys (d : Db) (user_id : Z) (device_id : string) : gmap string Z :=
  foldr (λ r counts, <[ok_algorithm r := default 0 (counts !! ok_algorithm r) + 1]> counts) ∅
    (select (otk_of_device user_id device_id) (db_one_time_keys d)).

Definition otk_of_algorithm (user_id : Z) (device_id algorithm : string) (r : OneTimeKeyRow) : bool :=
  otk_of_device user_id device_id r && seqb (ok_algorithm r) algorithm.

(** [DELETE .. WHERE key_id = (SELECT .. ORDER BY key_id ASC LIMIT 1) RETURNING key_id, key_json] *)
Definition take_lowest_key (d : Db) (user_id : Z) (device_id algorithm : string) : option (Db * OneTimeKeyRow) :=
  lowest ← head (order_by_text ok_key_id (select (otk_of_algorithm user_id device_id algorithm) (db_one_time_keys d)));
  let p := λ r, otk_of_algorithm user_id device_id algorithm r && seqb (ok_key_id r) (ok_key_id lowest) in
  Some (with_one_time_keys d (delete_where p (db_one_time_keys d)), lowest).

Definition is_fallback (user_id : Z) (device_id algorithm : string) (r : FallbackKeyRow) : bool :=
  fallback_of_device user_id device_id r && seqb (fr_algorithm r) algorithm.

Definition claim_one_time_key (d : Db) (user_id : Z) (device_id algorithm : string) : Db * option (string * string) :=
  match take_lowest_key d user_id device_id algorithm with
  | Some (d, r) => (d, Some (ok_key_id r, ok_key_json r))
  | None =>
      match find_row (is_fallback user_id device_id algorithm) (db_fallback_keys d) with
      | Some r =>
          (with_fallback_keys d (update_where (is_fallback user_id device_id algorithm)
             (λ r, mkFallbackRow (fr_user_id r) (fr_device_id r) (fr_algorithm r) (fr_key_id r) (fr_key_json r) true (fr_uploaded_at r)) (db_fallback_keys d)),
           Some (fr_key_id r, fr_key_json r))
      | None => (d, None)
      end
  end.

(** ** Fallback keys *)

Definition upsert_fallback_key (d : Db) (user_id : Z) (device_id algorithm key_id key_json now : string) : Db :=
  let row := mkFallbackRow user_id device_id algorithm key_id key_json false now in
  with_fallback_keys d (upsert (is_fallback user_id device_id algorithm) (λ _, row) row (db_fallback_keys d)).

Definition unused_fallback_key_types (d : Db) (user_id : Z) (device_id : string) : list string :=
  fr_algorithm <$> select (λ r, fallback_of_device user_id device_id r && negb (fr_used r)) (db_fallback_keys d).

(** ** To-device messages *)

(** The loop over [(recipient_user_id, recipient_device_id, event_type, content)]; the last stream id goes along. *)
Fixpoint insert_to_device (d : Db) (sender_user_id : Z) (messages : list (Z * string * string * string)) (last_stream_id : Z) :
    result (Db * Z) DbError :=
  match messages with
  | [] => Ok (d, last_stream_id)
  | (recipient_user_id, recipient_device_id, event_type, content) :: messages =>
      let '(d, stream_id) := next_stream_id d in
      if exists_row (λ r, td_stream_id r =? stream_id) (db_to_device d) then Err (UniqueViolation "to_device_messages")
      else
        insert_to_device (with_to_device d (db_to_device d ++
            [mkToDeviceMessage stream_id recipient_user_id recipient_device_id sender_user_id event_type content]))
          sender_user_id messages stream_id
  end.

Definition enqueue_to_device (d : Db) (sender_user_id : Z) (messages : list (Z * string * string * string)) : Db * result Z DbError :=
  transaction d (insert_to_device d sender_user_id messages (max_stream_id d)).

Inductive ToDeviceDedupOutcome := DedupNew | DedupAlreadySent.

Definition enqueue_to_device_deduped (d : Db) (sender_user_id : Z) (sender_device_id txn_id : string)
    (messages : list (Z * string * string * string)) (now : string) : Db * result ToDeviceDedupOutcome DbError :=
  transaction d (
    match txn_dedup_lookup d sender_user_id sender_device_id txn_id with
    | Seen _ => Ok (d, DedupAlreadySent)
    | NotSeen =>
        let? (d, _) := insert_to_device d sender_user_id messages (max_stream_id d) in
        let? d := txn_dedup_record d sender_user_id sender_device_id txn_id None now in
        Ok (d, DedupNew)
    end).

Definition to_device_for (d : Db) (user_id : Z) (device_id : string) (after_stream limit : Z) : list ToDeviceMessage :=
  take (Z.to_nat limit) (order_by_int td_stream_id (select (λ r, addressed_to user_id device_id r && (after_stream <? td_stream_id r)) (db_to_device d))).

Definition delete_to_device_up_to (d : Db) (user_id : Z) (device_id : string) (stream_id : Z) : Db :=
  with_to_device d (delete_where (λ r, addressed_to user_id device_id r && (td_stream_id r <=? stream_id)) (db_to_device d)).

(** ** Cross-signing *)

Definition is_cross_key (user_id : Z) (usage : CrossSigningUsage) (r : CrossSigningKey) : bool :=
  (cs_user_id r =? user_id) && bool_decide (cs_usage r = usage).

Definition upsert_cross_signing_key (d : Db) (user_id : Z) (usage : CrossSigningUsage) (key_json now : string) (now_ms : Z) : Db * result unit DbError :=
  transaction d (
    let row := mkCrossKey user_id usage key_json now in
    let d := with_cross_keys d (upsert (is_cross_key user_id usage) (λ _, row) row (db_cross_keys d)) in
    let? (d, _) := log_device_list_change_tx d user_id now now_ms in
    Ok (d, tt)).

Definition cross_signing_key_for (d : Db) (user_id : Z) (usage : CrossSigningUsage) : option CrossSigningKey :=
  find_row (is_cross_key user_id usage) (db_cross_keys d).

Definition cross_signing_keys_for (d : Db) (user_ids : list Z) : list CrossSigningKey :=
  select (λ r, existsb (Z.eqb (cs_user_id r)) user_ids) (db_cross_keys d).

(** [(signer_user_id, target_user_id, target_key_id, signature_json, uploaded_at)] *)
Definition add_signatures (d : Db) (signatures : list (Z * Z * string * string * string)) : Db :=
  foldl (λ d '(signer, target, target_key_id, signature_json, uploaded_at),
           with_signatures d (db_signatures d ++ [mkCrossSignature (db_signature_seq d + 1) signer target target_key_id signature_json uploaded_at])
             (db_signature_seq d + 1)) d signatures.

Definition signatures_for (d : Db) (target_user_id : Z) (target_key_id : string) : list CrossSigningSignature :=
  select (λ r, (sg_target_user_id r =? target_user_id) && seqb (sg_target_key_id r) target_key_id) (db_signatures d).

(** ** Key backup *)

Definition create_backup_version (d : Db) (user_id : Z) (algorithm auth_data now : string) : Db * Z :=
  let version := db_backup_seq d + 1 in
  (with_backup_versions d (db_backup_versions d ++ [mkBackupVersion version user_id algorithm auth_data 0 false now]) version, version).

Definition is_live (user_id : Z) (r : KeyBackupVersion) : bool := (bv_user_id r =? user_id) && negb (bv_is_deleted r).

(** [ORDER BY version DESC LIMIT 1], and [MAX(version)]. *)
Definition current_backup_version (d : Db) (user_id : Z) : option KeyBackupVersion :=
  last (order_by_int bv_version (select (is_live user_id) (db_backup_versions d))).

Definition is_version (user_id version : Z) (r : KeyBackupVersion) : bool := (bv_user_id r =? user_id) && (bv_version r =? version).

Definition get_backup_version (d : Db) (user_id version : Z) : option KeyBackupVersion := find_row (is_version user_id version) (db_backup_versions d).

Definition live_version (user_id version : Z) (r : KeyBackupVersion) : bool := is_version user_id version r && negb (bv_is_deleted r).

Definition update_backup_version_auth_data (d : Db) (user_id version : Z) (auth_data : string) : Db * bool :=
  (with_backup_versions d (update_where (live_version user_id version)
     (λ r, mkBackupVersion (bv_version r) (bv_user_id r) (bv_algorithm r) auth_data (bv_etag r + 1) (bv_is_deleted r) (bv_created_at r)) (db_backup_versions d))
     (db_backup_seq d),
   exists_row (live_version user_id version) (db_backup_versions d)).

Definition delete_backup_version (d : Db) (user_id version : Z) : Db * bool :=
  (with_backup_versions d (update_where (live_version user_id version)
     (λ r, mkBackupVersion (bv_version r) (bv_user_id r) (bv_algorithm r) (bv_auth_data r) (bv_etag r + 1) true (bv_created_at r)) (db_backup_versions d))
     (db_backup_seq d),
   exists_row (live_version user_id version) (db_backup_versions d)).

Definition is_session (user_id version : Z) (room_id session_id : string) (r : KeyBackupSession) : bool :=
  (bs_user_id r =? user_id) && (bs_version r =? version) && seqb (bs_room_id r) room_id && seqb (bs_session_id r) session_id.

(** [UPDATE key_backup_versions SET etag = etag + 1] *)
Definition bump_etag (d : Db) (user_id version : Z) : Db :=
  with_backup_versions d (update_where (is_version user_id version)
    (λ r, mkBackupVersion (bv_version r) (bv_user_id r) (bv_algorithm r) (bv_auth_data r) (bv_etag r + 1) (bv_is_deleted r) (bv_created_at r)) (db_backup_versions d))
    (db_backup_seq d).

(** [(room_id, session_id, session_data)] *)
Definition put_backup_sessions (d : Db) (user_id version : Z) (sessions : list (string * string * string)) (now : string) :
    Db * result unit MatrixKeysStoreError :=
  transaction d (
    if bool_decide (bv_version <$> current_backup_version d user_id = Some version) then
      let d := foldl (λ d '(room_id, session_id, session_data),
                        let row := mkBackupSession user_id version room_id session_id session_data now in
                        with_backup_sessions d (upsert (is_session user_id version room_id session_id) (λ _, row) row (db_backup_sessions d)))
                 d sessions in
      Ok (bump_etag d user_id version, tt)
    else Err WrongBackupVersion).

(** The three shapes: one session, one room, everything. *)
Definition in_scope (user_id version : Z) (room_id session_id : option string) (r : KeyBackupSession) : bool :=
  (bs_user_id r =? user_id) && (bs_version r =? version) &&
  match room_id, session_id with
  | Some room_id, Some session_id => seqb (bs_room_id r) room_id && seqb (bs_session_id r) session_id
  | Some room_id, None => seqb (bs_room_id r) room_id
  | None, _ => true
  end.

Definition get_backup_sessions (d : Db) (user_id version : Z) (room_id session_id : option string) : list KeyBackupSession :=
  select (in_scope user_id version room_id session_id) (db_backup_sessions d).

Definition delete_backup_sessions (d : Db) (user_id version : Z) (room_id session_id : option string) : Db * nat :=
  let deleted := length (get_backup_sessions d user_id version room_id session_id) in
  let d := with_backup_sessions d (delete_where (in_scope user_id version room_id session_id) (db_backup_sessions d)) in
  (if bool_decide (deleted = 0%nat) then d else bump_etag d user_id version, deleted).

Definition backup_count_and_etag (d : Db) (user_id version : Z) : result (Z * Z) DbError :=
  let count := Z.of_nat (length (get_backup_sessions d user_id version None None)) in
  let? row := ok_or (get_backup_version d user_id version) NoRows in
  Ok (count, bv_etag row).

End Keys.
