(* ===== verification/ServerKeyOps.v ===== *)
(** * Key, to-device and backup decisions (crates/mail4agent-server/src/key_ops.rs)

    The functions behind the key routes, over the tables of [ServerDb] and the statements of
    [ServerKeys]. A [BTreeMap] is a [gmap] read in key order; a [HashSet] and a [HashMap] are read
    in an order the theorems leave open. A function that writes returns the database it leaves also
    when it answers an error, since only the statements of [ServerKeys] are transactions. *)

From Stdlib Require Import Ascii.
From S2P Require Import Prelude Sqlite Codec Json ServerDb ServerKeys.

Local Open Scope Z_scope.

Definition SEND_TO_DEVICE_MAX_TARGETS : nat := 1000.
Definition SEND_TO_DEVICE_MAX_CONTENT_BYTES : Z := 64 * 1024.
Definition BACKUP_ALGORITHM : string := "m.megolm_backup.v1.aes-hmac-sha2".
Definition BACKUP_ALGORITHM_SPEC : string := "m.megolm_backup.v1.curve25519-aes-sha2".

(** The [base64] and [ed25519_dalek] calls of the cross-signing checks. *)
Class SigningCrypto := {
  VerifyingKey : Type;
  decode_base64 : string → option string;
  verifying_key_from_bytes : string → option VerifyingKey;
  verify_strict : VerifyingKey → string → string → bool
}.

(** [for x in l { a = f(a, x)?; }] *)
Fixpoint try_fold {A B E} (f : A → B → result A E) (a : A) (l : list B) : result A E :=
  match l with
  | [] => Ok a
  | x :: l => let? a := f a x in try_fold f a l
  end.

(** A [BTreeMap<String, _>] in key order. *)
Definition entries {V} (m : gmap string V) : list (string * V) := btree_entries id m.

(** [s.trim_start_matches(prefix)] removes every leading copy; one unit of fuel per byte is enough. *)
Fixpoint trim_prefixes (fuel : nat) (prefix s : string) : string :=
  match fuel with
  | O => s
  | S fuel => match strip_prefix prefix s with Some rest => trim_prefixes fuel prefix rest | None => s end
  end.
Definition trim_start_matches (prefix s : string) : string := trim_prefixes (String.length s) prefix s.

Definition starts_with (prefix s : string) : bool := is_some (strip_prefix prefix s).

(** [str::parse::<i64>] and [::<u64>]: an optional sign, at least one digit, no overflow. *)
Fixpoint parse_digits (s : string) (acc : Z) : option Z :=
  match s with
  | EmptyString => Some acc
  | String a s => if is_ascii_digit a then parse_digits s (acc * 10 + (bval a - 48)) else None
  end.
Definition parse_magnitude (s : string) : option Z := if s_is_empty s then None else parse_digits s 0.
Definition parse_i64 (s : string) : option Z :=
  n ← match strip_prefix "-" s with
      | Some rest => Z.opp <$> parse_magnitude rest
      | None => parse_magnitude (default s (strip_prefix "+" s))
      end;
  if (i64_min <=? n) && (n <=? i64_max) then Some n else None.
Definition parse_u64 (s : string) : option Z :=
  n ← parse_magnitude (default s (strip_prefix "+" s));
  if n <? u64_mod then Some n else None.

Section KeyOps.
Context `{ServerJson, SigningCrypto}.

(** [serde_json::from_str(..)?] *)
Definition read_json (s : string) : result Value MatrixError := map_err from_json_error (value_from_str s).

(** ** Who shares a room with the caller *)

Definition in_room (membership : Membership) : bool := match membership with Join | Invite => true | _ => false end.

Definition peers_sharing_a_room_with (d : Db) (user_id : Z) : gset Z :=
  {[user_id]} ∪ list_to_set (rooms_for_user d user_id (Some Join) ≫= λ room_id,
    rm_user_id <$> select (λ m, in_room (rm_membership m)) (room_members d room_id None)).

(** ** Device-list delta *)

Record DeviceListDelta := mkDelta { dl_changed : list string; dl_left : list string }.

(** Members other than the caller who are in the room. *)
Definition others_in_room (d : Db) (room_id : string) (caller_user_id : Z) : list Z :=
  rm_user_id <$> select (λ m, negb (rm_user_id m =? caller_user_id) && in_room (rm_membership m)) (room_members d room_id None).

(** One turn of the loop over rooms: who entered and who departed. *)
Definition room_transitions (d : Db) (caller_user_id : Z) (caller_mxid : string) (from_exclusive to_inclusive : Z) (room_id : string) : list Z * list Z :=
  match get_room d room_id with
  | None => ([], [])
  | Some room =>
      if negb (ro_is_encrypted room) then ([], [])
      else
        match room_member d room_id caller_user_id with
        | None => ([], [])
        | Some own =>
            let was_joined := bool_decide (membership_at d room_id caller_mxid from_exclusive = Some Join) in
            match rm_membership own with
            | Join =>
                if was_joined then
                  (omap (λ mxid,
                     user_id ← user_id_of d mxid;
                     if user_id =? caller_user_id then None
                     else
                       let now_in := match room_member d room_id user_id with Some m => in_room (rm_membership m) | None => false end in
                       let before_in := match membership_at d room_id mxid from_exclusive with Some m => in_room m | None => false end in
                       if now_in && negb before_in then Some user_id else None)
                     (member_state_keys_in_window d room_id from_exclusive to_inclusive), [])
                else (others_in_room d room_id caller_user_id, [])
            | Leave | Ban => if was_joined then ([], others_in_room d room_id caller_user_id) else ([], [])
            | Invite => ([], [])
            end
        end
  end.

Definition shared_room_transitions (d : Db) (caller_user_id from_exclusive to_inclusive : Z) : list Z * list Z :=
  match mxid_of d caller_user_id with
  | None => ([], [])
  | Some caller_mxid =>
      let caller_rooms := rooms_for_user d caller_user_id None in
      foldl (λ acc room_id,
               let t := room_transitions d caller_user_id caller_mxid from_exclusive to_inclusive room_id in
               (acc.1 ++ t.1, acc.2 ++ t.2)) ([], [])
        (rooms_with_member_events_in_window d caller_rooms from_exclusive to_inclusive)
  end.

Definition sorted_mxids (d : Db) (user_ids : gset Z) : list string := btree_set (omap (mxid_of d) (elements user_ids)).

Definition device_list_delta (d : Db) (caller_user_id from_exclusive to_inclusive : Z) : DeviceListDelta :=
  let visible := peers_sharing_a_room_with d caller_user_id in
  let '(entered, departed) := shared_room_transitions d caller_user_id from_exclusive to_inclusive in
  let changed_ids := filter (λ u, u ∈ visible) (list_to_set (device_list_changes_between d from_exclusive to_inclusive) : gset Z) in
  let changed_ids := changed_ids ∪ filter (λ u, u ∈ visible) (list_to_set entered) in
  let caller_rooms := rooms_for_user d caller_user_id None in
  let left_ids := filter (λ u, u ∉ visible) (list_to_set (user_ids_with_leave_transition_in_rooms d caller_rooms from_exclusive to_inclusive) : gset Z) in
  let left_ids := left_ids ∪ filter (λ u, u ∉ visible) (list_to_set departed) in
  mkDelta (sorted_mxids d changed_ids) (sorted_mxids d left_ids).

(** ** keys/upload *)

Record KeysUploadRequest := mkUpload {
  ku_device_keys : option Value;
  ku_one_time_keys : option (gmap string Value);
  ku_fallback_keys : option (gmap string Value) }.

Definition check_device_keys_ownership (device_keys : Value) (caller_mxid caller_device_id : string) : result unit MatrixError :=
  let user_id := get device_keys "user_id" ≫= as_str in
  let device_id := get device_keys "device_id" ≫= as_str in
  if bool_decide (user_id ≠ Some caller_mxid) || bool_decide (device_id ≠ Some caller_device_id)
  then Err (invalid_param "device_keys.user_id/device_id must name the authenticated caller")
  else Ok tt.

Inductive DeviceKeysUploadAction := ActInsert | ActNoop | ActReset.

Definition decide_device_keys_upload (existing_keys_json : option string) (new_keys_value : Value) : result DeviceKeysUploadAction MatrixError :=
  match existing_keys_json with
  | None => Ok ActInsert
  | Some json =>
      let? existing_keys := read_json json in
      if bool_decide (existing_keys = new_keys_value) then Ok ActNoop else Ok ActReset
  end.

Definition malformed_key_id (full_id : string) : MatrixError := invalid_param ("malformed one-time key id: " +:+ full_id).

Definition split_algorithm_key_id (full_id : string) : result (string * string) MatrixError :=
  let? (algorithm, key_id) := ok_or (split_once ":" full_id) (malformed_key_id full_id) in
  if s_is_empty algorithm || s_is_empty key_id then Err (malformed_key_id full_id) else Ok (algorithm, key_id).

Record KeysUploadOutcome := mkOutcome { uo_otk_counts : gmap string Z; uo_device_keys_changed : bool }.

(** The [device_keys] part: whether they changed. *)
Definition upload_device_keys (d : Db) (caller_user_id : Z) (caller_mxid caller_device_id : string) (device_keys : Value) (now : string) (now_ms : Z) :
    Db * result bool MatrixError :=
  try? _ := check_device_keys_ownership device_keys caller_mxid caller_device_id on d in
  let new_keys_value := default VNull (get device_keys "keys") in
  let existing := find_row (λ r, seqb (dk_device_id r) caller_device_id) (device_keys_for d [caller_user_id]) in
  try? action := decide_device_keys_upload (dk_keys <$> existing) new_keys_value on d in
  match action with
  | ActNoop => (d, Ok false)
  | _ =>
      let d := match action with ActReset => clear_device_one_time_material d caller_user_id caller_device_id | _ => d end in
      let algorithms_json := value_to_string (default (VArray []) (get device_keys "algorithms")) in
      let signatures_json := value_to_string (default (VObject []) (get device_keys "signatures")) in
      match upsert_device_keys d caller_user_id caller_device_id algorithms_json (value_to_string new_keys_value) signatures_json now now_ms with
      | (d, Ok _) => (d, Ok true)
      | (d, Err e) => (d, Err (from_db e))
      end
  end.

(** [(full_id, algorithm, key_json)] for [add_one_time_keys]. *)
Definition one_time_batch (one_time_keys : gmap string Value) : result (list (string * string * string)) MatrixError :=
  try_map (λ kv, let? (algorithm, _) := split_algorithm_key_id kv.1 in Ok (kv.1, algorithm, value_to_string kv.2)) (entries one_time_keys).

Fixpoint upload_fallback_loop (d : Db) (user_id : Z) (device_id : string) (keys : list (string * Value)) (now : string) : Db * result unit MatrixError :=
  match keys with
  | [] => (d, Ok tt)
  | (full_id, value) :: keys =>
      try? (algorithm, _) := split_algorithm_key_id full_id on d in
      upload_fallback_loop (upsert_fallback_key d user_id device_id algorithm full_id (value_to_string value) now) user_id device_id keys now
  end.

Definition apply_keys_upload (d : Db) (caller_user_id : Z) (caller_mxid caller_device_id : string) (request : KeysUploadRequest) (now : string) (now_ms : Z) :
    Db * result KeysUploadOutcome MatrixError :=
  let '(d, changed) :=
    match ku_device_keys request with
    | Some device_keys => upload_device_keys d caller_user_id caller_mxid caller_device_id device_keys now now_ms
    | None => (d, Ok false)
    end in
  try? device_keys_changed := changed on d in
  let '(d, added) :=
    match ku_one_time_keys request with
    | Some one_time_keys =>
        try? batch := one_time_batch one_time_keys on d in
        match add_one_time_keys d caller_user_id caller_device_id batch with
        | (d, Ok _) => (d, Ok tt)
        | (d, Err e) => (d, Err (from_keys_error e))
        end
    | None => (d, Ok tt)
    end in
  try? _ := added on d in
  let '(d, fallback) :=
    match ku_fallback_keys request with
    | Some fallback_keys => upload_fallback_loop d caller_user_id caller_device_id (entries fallback_keys) now
    | None => (d, Ok tt)
    end in
  try? _ := fallback on d in
  (d, Ok (mkOutcome (count_one_time_keys d caller_user_id caller_device_id) device_keys_changed)).

(** ** keys/query *)

(** The account a request names, if the caller may see it. *)
Definition visible_user (d : Db) (visible : gset Z) (mxid : string) : option Z :=
  uid ← user_id_of d mxid; if bool_decide (uid ∈ visible) then Some uid else None.

Definition device_keys_json (mxid : string) (row : DeviceKeys) : result Value MatrixError :=
  let? algorithms := read_json (dk_algorithms row) in
  let? keys := read_json (dk_keys row) in
  let? signatures := read_json (dk_signatures row) in
  Ok (VObject [("algorithms", algorithms); ("device_id", VString (dk_device_id row)); ("keys", keys); ("signatures", signatures); ("user_id", VString mxid)]).

Definition query_devices (d : Db) (target_user_id : Z) (mxid : string) (requested_device_ids : list string) : result Map MatrixError :=
  try_fold (λ out row,
      match requested_device_ids with
      | _ :: _ => if existsb (seqb (dk_device_id row)) requested_device_ids then let? v := device_keys_json mxid row in Ok (map_insert (dk_device_id row) v out) else Ok out
      | [] => let? v := device_keys_json mxid row in Ok (map_insert (dk_device_id row) v out)
      end) [] (device_keys_for d [target_user_id]).

(** The master and self-signing keys of one user, added to the two maps. *)
Definition query_cross_keys (d : Db) (target_user_id : Z) (mxid : string) (acc : Map * Map) : result (Map * Map) MatrixError :=
  try_fold (λ '(master, self_signing) row,
      let? value := read_json (cs_key_json row) in
      match cs_usage row with
      | Master => Ok (map_insert mxid value master, self_signing)
      | SelfSigning => Ok (master, map_insert mxid value self_signing)
      | UserSigning => Ok (master, self_signing)
      end) acc (cross_signing_keys_for d [target_user_id]).

Definition query_user (d : Db) (visible : gset Z) (acc : Map * (Map * Map)) (req : string * list string) : result (Map * (Map * Map)) MatrixError :=
  let '(devices, cross) := acc in
  let '(mxid, requested_device_ids) := req in
  match visible_user d visible mxid with
  | None => Ok (map_insert mxid (VObject []) devices, cross)
  | Some target_user_id =>
      let? devices_out := query_devices d target_user_id mxid requested_device_ids in
      let? cross := query_cross_keys d target_user_id mxid cross in
      Ok (map_insert mxid (VObject devices_out) devices, cross)
  end.

Definition build_keys_query_visible (d : Db) (visible : gset Z) (caller : option (Z * string)) (requested : gmap string (list string)) : result Value MatrixError :=
  let? (devices, cross) := try_fold (query_user d visible) ([], ([], [])) (entries requested) in
  let? user_signing :=
    match caller with
    | Some (caller_user_id, caller_mxid) =>
        match cross_signing_key_for d caller_user_id UserSigning with
        | Some row => let? value := read_json (cs_key_json row) in Ok [(caller_mxid, value)]
        | None => Ok []
        end
    | None => Ok []
    end in
  Ok (VObject [("device_keys", VObject devices); ("failures", VObject []); ("master_keys", VObject cross.1);
               ("self_signing_keys", VObject cross.2); ("user_signing_keys", VObject user_signing)]).

Definition build_keys_query_response (d : Db) (caller_user_id : Z) (caller_mxid : string) (requested : gmap string (list string)) : result Value MatrixError :=
  build_keys_query_visible d (peers_sharing_a_room_with d caller_user_id) (Some (caller_user_id, caller_mxid)) requested.

(** ** keys/claim *)

Definition count_claim_targets (requested : gmap string (gmap string string)) : nat :=
  sum_list ((λ kv, size kv.2) <$> entries requested).

(** The devices of one user; a claim stands even if its key does not parse. *)
Fixpoint claim_devices (d : Db) (target_user_id : Z) (per_device : list (string * string)) (out : Map) : Db * result Map MatrixError :=
  match per_device with
  | [] => (d, Ok out)
  | (device_id, algorithm) :: per_device =>
      match claim_one_time_key d target_user_id device_id algorithm with
      | (d, None) => claim_devices d target_user_id per_device out
      | (d, Some (key_id, key_json)) =>
          try? value := read_json key_json on d in
          claim_devices d target_user_id per_device (map_insert device_id (VObject [(key_id, value)]) out)
      end
  end.

Fixpoint claim_users (d : Db) (visible : gset Z) (requested : list (string * gmap string string)) (out : Map) : Db * result Map MatrixError :=
  match requested with
  | [] => (d, Ok out)
  | (mxid, per_device) :: requested =>
      match visible_user d visible mxid with
      | None => claim_users d visible requested out
      | Some target_user_id =>
          match claim_devices d target_user_id (entries per_device) [] with
          | (d, Err e) => (d, Err e)
          | (d, Ok []) => claim_users d visible requested out
          | (d, Ok devices_out) => claim_users d visible requested (map_insert mxid (VObject devices_out) out)
          end
      end
  end.

Definition build_keys_claim_visible (d : Db) (visible : gset Z) (requested : gmap string (gmap string string)) : Db * result Value MatrixError :=
  match claim_users d visible (entries requested) [] with
  | (d, Ok out) => (d, Ok (VObject [("failures", VObject []); ("one_time_keys", VObject out)]))
  | (d, Err e) => (d, Err e)
  end.

Definition build_keys_claim_response (d : Db) (caller_user_id : Z) (requested : gmap string (gmap string string)) : Db * result Value MatrixError :=
  build_keys_claim_visible d (peers_sharing_a_room_with d caller_user_id) requested.

(** ** keys/changes *)

Definition build_keys_changes_response (d : Db) (caller_user_id from_exclusive to_inclusive : Z) : Value :=
  let delta := device_list_delta d caller_user_id from_exclusive to_inclusive in
  VObject [("changed", VArray (VString <$> dl_changed delta)); ("left", VArray (VString <$> dl_left delta))].

(** ** keys/device_signing/upload *)

Record DeviceSigningUploadRequest := mkSigningUpload {
  su_master_key : option Value;
  su_self_signing_key : option Value;
  su_user_signing_key : option Value }.

Definition master_verifying_key (master_key_object : Value) : result (string * VerifyingKey) MatrixError :=
  let? keys := ok_or (get master_key_object "keys" ≫= as_object) (invalid_param "master_key.keys missing") in
  let? (full_key_id, value) := ok_or (List.find (λ kv, starts_with "ed25519:" kv.1) keys) (invalid_param "master_key has no ed25519 key") in
  let key_id := trim_start_matches "ed25519:" full_key_id in
  let? b64 := ok_or (as_str value) (invalid_param "master_key.keys value must be a string") in
  let? bytes := ok_or (decode_base64 b64) (invalid_param "master_key public key is not valid base64") in
  if negb (slen bytes =? 32) then Err (invalid_param "master_key public key must be 32 bytes")
  else
    let? verifying_key := ok_or (verifying_key_from_bytes bytes) (invalid_param "master_key is not a valid ed25519 key") in
    Ok (key_id, verifying_key).

Definition canonical_json_without_signatures (value : Value) : string :=
  value_to_string match value with VObject obj => VObject (map_remove "unsigned" (map_remove "signatures" obj)) | _ => value end.

Definition verify_signed_by_master (target_key_object : Value) (caller_mxid : string) (master_key_object : Value) : result unit MatrixError :=
  let? (master_key_id, verifying_key) := master_verifying_key master_key_object in
  let? signature_b64 := ok_or (s ← get target_key_object "signatures"; by_user ← get s caller_mxid; v ← get by_user ("ed25519:" +:+ master_key_id); as_str v)
                          (invalid_param "missing signature by the master key") in
  let? sig_bytes := ok_or (decode_base64 signature_b64) (invalid_param "signature is not valid base64") in
  if negb (slen sig_bytes =? 64) then Err (invalid_param "signature must be 64 bytes")
  else if verify_strict verifying_key (canonical_json_without_signatures target_key_object) sig_bytes then Ok tt
  else Err (invalid_param "signature does not verify against the master key").

Definition validate_cross_signing_key_object (value : Value) (caller_mxid expected_usage : string) : result unit MatrixError :=
  let? obj := ok_or (as_object value) (invalid_param "cross-signing key must be an object") in
  if bool_decide (map_get obj "user_id" ≫= as_str ≠ Some caller_mxid) then Err (invalid_param "cross-signing key user_id must be the caller")
  else
    let? usage := ok_or (map_get obj "usage" ≫= as_array) (invalid_param "cross-signing key missing usage") in
    if match usage with [u] => bool_decide (as_str u ≠ Some expected_usage) | _ => true end
    then Err (invalid_param ("cross-signing key usage must be exactly [" +:+ quoted expected_usage +:+ "]"))
    else
      match map_get obj "keys" ≫= as_object with
      | None | Some [] => Err (invalid_param "cross-signing key missing keys")
      | Some _ => Ok tt
      end.

(** [if let Some(key) = ..]: shape, then the master key's signature. *)
Definition check_signed_key (key : option Value) (caller_mxid usage field : string) (master : option Value) : result unit MatrixError :=
  match key with
  | None => Ok tt
  | Some key =>
      let? _ := validate_cross_signing_key_object key caller_mxid usage in
      let? master := ok_or master (invalid_param ("no master key on file to verify " +:+ field +:+ " against")) in
      verify_signed_by_master key caller_mxid master
  end.

(** [if let Some(key) = .. { upsert_cross_signing_key(..)?; wrote = true; }] *)
Definition store_cross_key (d : Db) (caller_user_id : Z) (usage : CrossSigningUsage) (key : option Value) (now : string) (now_ms : Z) (wrote : bool) :
    Db * result bool MatrixError :=
  match key with
  | None => (d, Ok wrote)
  | Some key =>
      match upsert_cross_signing_key d caller_user_id usage (value_to_string key) now now_ms with
      | (d, Ok _) => (d, Ok true)
      | (d, Err e) => (d, Err (from_db e))
      end
  end.

Definition apply_device_signing_upload (d : Db) (caller_user_id : Z) (caller_mxid : string) (request : DeviceSigningUploadRequest) (now : string) (now_ms : Z) :
    Db * result bool MatrixError :=
  try? _ := try_opt (λ master, validate_cross_signing_key_object master caller_mxid "master") (su_master_key request) on d in
  try? master_for_verification :=
    match su_master_key request with
    | Some master => Ok (Some master)
    | None =>
        match cross_signing_key_for d caller_user_id Master with
        | Some row => let? v := read_json (cs_key_json row) in Ok (Some v)
        | None => Ok None
        end
    end on d in
  try? _ := check_signed_key (su_self_signing_key request) caller_mxid "self_signing" "self_signing_key" master_for_verification on d in
  try? _ := check_signed_key (su_user_signing_key request) caller_mxid "user_signing" "user_signing_key" master_for_verification on d in
  let '(d, wrote) := store_cross_key d caller_user_id Master (su_master_key request) now now_ms false in
  try? wrote := wrote on d in
  let '(d, wrote) := store_cross_key d caller_user_id SelfSigning (su_self_signing_key request) now now_ms wrote in
  try? wrote := wrote on d in
  store_cross_key d caller_user_id UserSigning (su_user_signing_key request) now now_ms wrote.

(** ** keys/signatures/upload *)

(** [keys.keys().any(|k| k.trim_start_matches("ed25519:") == local_id)] over a key object's [keys]. *)
Definition names_local_id (value : Value) (local_id : string) : bool :=
  match get value "keys" ≫= as_object with
  | Some keys => existsb (λ kv, seqb (trim_start_matches "ed25519:" kv.1) local_id) keys
  | None => false
  end.

Definition master_key_names_local_id (d : Db) (user_id : Z) (local_id : string) : result bool MatrixError :=
  match cross_signing_key_for d user_id Master with
  | None => Ok false
  | Some row => let? value := read_json (cs_key_json row) in Ok (names_local_id value local_id)
  end.

Fixpoint any_key_names (d : Db) (user_id : Z) (local_id : string) (usages : list CrossSigningUsage) : result bool MatrixError :=
  match usages with
  | [] => Ok false
  | usage :: usages =>
      match cross_signing_key_for d user_id usage with
      | None => any_key_names d user_id local_id usages
      | Some row =>
          let? value := read_json (cs_key_json row) in
          if names_local_id value local_id then Ok true else any_key_names d user_id local_id usages
      end
  end.

Definition cross_signing_key_names_local_id (d : Db) (user_id : Z) (local_id : string) : result bool MatrixError :=
  any_key_names d user_id local_id [Master; SelfSigning; UserSigning].

Definition signature_target_is_authorized (d : Db) (caller_mxid target_mxid : string) (target_user_id : Z) (target_key_id : string) : result bool MatrixError :=
  if seqb target_mxid caller_mxid then
    if is_some (get_device d target_user_id target_key_id) then Ok true
    else cross_signing_key_names_local_id d target_user_id target_key_id
  else master_key_names_local_id d target_user_id target_key_id.

Definition not_permitted : Value := VObject [("errcode", VString "M_INVALID_PARAM"); ("error", VString "signature target not permitted")].

(** The signatures for one user: stored, or reported as failures. *)
Fixpoint sign_targets (d : Db) (caller_user_id : Z) (caller_mxid target_mxid : string) (target : option Z) (per_key : Map) (now : string) (user_failures : Map) :
    Db * result Map MatrixError :=
  match per_key with
  | [] => (d, Ok user_failures)
  | (target_key_id, signed_value) :: per_key =>
      match target with
      | None => sign_targets d caller_user_id caller_mxid target_mxid target per_key now (map_insert target_key_id not_permitted user_failures)
      | Some target_user_id =>
          try? authorized := signature_target_is_authorized d caller_mxid target_mxid target_user_id target_key_id on d in
          if authorized then
            sign_targets (add_signatures d [(caller_user_id, target_user_id, target_key_id, value_to_string signed_value, now)])
              caller_user_id caller_mxid target_mxid target per_key now user_failures
          else sign_targets d caller_user_id caller_mxid target_mxid target per_key now (map_insert target_key_id not_permitted user_failures)
      end
  end.

Fixpoint sign_users (d : Db) (caller_user_id : Z) (caller_mxid : string) (body : Map) (now : string) (failures : Map) : Db * result Map MatrixError :=
  match body with
  | [] => (d, Ok failures)
  | (target_mxid, per_key) :: body =>
      match as_object per_key with
      | None => sign_users d caller_user_id caller_mxid body now failures
      | Some per_key_obj =>
          match sign_targets d caller_user_id caller_mxid target_mxid (user_id_of d target_mxid) per_key_obj now [] with
          | (d, Err e) => (d, Err e)
          | (d, Ok []) => sign_users d caller_user_id caller_mxid body now failures
          | (d, Ok user_failures) => sign_users d caller_user_id caller_mxid body now (map_insert target_mxid (VObject user_failures) failures)
          end
      end
  end.

Definition apply_signatures_upload (d : Db) (caller_user_id : Z) (caller_mxid : string) (body : Map) (now : string) : Db * result Value MatrixError :=
  match sign_users d caller_user_id caller_mxid body now [] with
  | (d, Ok failures) => (d, Ok (VObject failures))
  | (d, Err e) => (d, Err e)
  end.

(** ** sendToDevice *)

(** [content.to_string()] within the size cap *)
Definition content_text (content : Value) : result string MatrixError :=
  let content_str := value_to_string content in
  if SEND_TO_DEVICE_MAX_CONTENT_BYTES <? slen content_str then Err (bad_json "to-device content too large") else Ok content_str.

(** One recipient: the wildcard for each of its devices, then the named devices over it. *)
Definition recipient_contents (d : Db) (recipient_user_id : Z) (per_device : gmap string Value) : result (gmap string string) MatrixError :=
  let? per_recipient :=
    match per_device !! "*" with
    | Some wildcard_content =>
        let? content_str := content_text wildcard_content in
        Ok (foldl (λ m device, <[dv_device_id device := content_str]> m) ∅ (list_devices d recipient_user_id))
    | None => Ok ∅
    end in
  try_fold (λ m kv, if seqb kv.1 "*" then Ok m else let? content_str := content_text kv.2 in Ok (<[kv.1 := content_str]> m)) per_recipient (entries per_device).

Definition expand_send_to_device_targets (d : Db) (sender_user_id : Z) (messages : gmap string (gmap string Value)) : result (list (Z * string * string)) MatrixError :=
  let visible := peers_sharing_a_room_with d sender_user_id in
  let? targets := try_fold (λ targets req,
      match visible_user d visible req.1 with
      | None => Ok targets
      | Some recipient_user_id =>
          let? per_recipient := recipient_contents d recipient_user_id req.2 in
          Ok (targets ++ ((λ kv, (recipient_user_id, kv.1, kv.2)) <$> map_to_list per_recipient))
      end) [] (entries messages) in
  if bool_decide (SEND_TO_DEVICE_MAX_TARGETS < length targets)%nat then Err (invalid_param "too many target devices in one call") else Ok targets.

Inductive SendToDeviceOutcome := SentNew (wake_ids : gset Z) | SentAlready.

Definition apply_send_to_device (d : Db) (sender_user_id : Z) (sender_device_id event_type txn_id : string) (messages : gmap string (gmap string Value)) (now : string) :
    Db * result SendToDeviceOutcome MatrixError :=
  match txn_dedup_lookup d sender_user_id sender_device_id txn_id with
  | Seen _ => (d, Ok SentAlready)
  | NotSeen =>
      try? targets := expand_send_to_device_targets d sender_user_id messages on d in
      let wake_ids := list_to_set ((λ t, t.1.1) <$> targets) in
      let rows := (λ '(uid, dev, content), (uid, dev, event_type, content)) <$> targets in
      match enqueue_to_device_deduped d sender_user_id sender_device_id txn_id rows now with
      | (d, Ok DedupNew) => (d, Ok (SentNew wake_ids))
      | (d, Ok DedupAlreadySent) => (d, Ok SentAlready)
      | (d, Err e) => (d, Err (from_db e))
      end
  end.

(** ** Key backup *)

Definition validate_backup_algorithm (algorithm : string) : result unit MatrixError :=
  if seqb algorithm BACKUP_ALGORITHM || seqb algorithm BACKUP_ALGORITHM_SPEC then Ok tt
  else Err (invalid_param ("unsupported key-backup algorithm: " +:+ algorithm)).

Definition backup_version_to_response (row : KeyBackupVersion) (count : Z) : result Value MatrixError :=
  let? auth_data := read_json (bv_auth_data row) in
  Ok (VObject [("algorithm", VString (bv_algorithm row)); ("auth_data", auth_data); ("count", VNumber (PosInt count));
               ("etag", VString (pretty (bv_etag row))); ("version", VString (pretty (bv_version row)))]).

Definition parse_required_version (raw : option string) : result Z MatrixError :=
  let? raw := ok_or raw (invalid_param "version is required") in
  ok_or (parse_i64 raw) (invalid_param "version must be an integer").

Definition require_current_backup_version (d : Db) (user_id requested_version : Z) : result unit MatrixError :=
  match current_backup_version d user_id with
  | Some row => if bv_version row =? requested_version then Ok tt else Err (wrong_room_keys_version (Some (bv_version row)))
  | None => Err (wrong_room_keys_version None)
  end.

(** [.get("sessions").and_then(as_object)], each as a row of the room. *)
Definition sessions_of_room (room_id : string) (room_value : Value) (missing : string) : result (list (string * string * string)) MatrixError :=
  let? sessions := ok_or (get room_value "sessions" ≫= as_object) (invalid_param missing) in
  Ok ((λ kv, (room_id, kv.1, value_to_string kv.2)) <$> sessions).

Definition normalize_put_backup_body (room_id session_id : option string) (body : Value) : result (list (string * string * string)) MatrixError :=
  match room_id, session_id with
  | Some room_id, Some session_id => Ok [(room_id, session_id, value_to_string body)]
  | Some room_id, None => sessions_of_room room_id body "body must have a sessions object"
  | None, _ =>
      let? rooms := ok_or (get body "rooms" ≫= as_object) (invalid_param "body must have a rooms object") in
      try_fold (λ out kv, let? rows := sessions_of_room kv.1 kv.2 "each room must have a sessions object" in Ok (out ++ rows)) [] rooms
  end.

(** [room_entry["sessions"][session_id] = v] *)
Definition set_session (rooms_out : Map) (room_id session_id : string) (v : Value) : Map :=
  let sessions := default [] (map_get rooms_out room_id ≫= λ e, get e "sessions" ≫= as_object) in
  map_insert room_id (VObject [("sessions", VObject (map_insert session_id v sessions))]) rooms_out.

Definition backup_sessions_to_response (room_id session_id : option string) (sessions : list KeyBackupSession) : result Value MatrixError :=
  match room_id, session_id with
  | Some _, Some _ =>
      let? one := ok_or (head sessions) (not_found "no such backup session") in
      read_json (bs_session_data one)
  | Some _, None =>
      let? out := try_fold (λ out s, let? v := read_json (bs_session_data s) in Ok (map_insert (bs_session_id s) v out)) [] sessions in
      Ok (VObject [("sessions", VObject out)])
  | None, _ =>
      let? out := try_fold (λ out s, let? v := read_json (bs_session_data s) in Ok (set_session out (bs_room_id s) (bs_session_id s) v)) [] sessions in
      Ok (VObject [("rooms", VObject out)])
  end.

End KeyOps.
