(* ===== verification/ServerKeyRoutes.v ===== *)
(** * Sync tokens, the key part of a sync, and the key routes
      (crates/mail4agent-server/src/sync_token.rs, sync.rs, http/keys.rs, http/fed_net.rs)

    A handler takes the caller that [resolve_caller] found, the parsed request and the time, and
    returns the database, the answer and whom to wake. A token's text gives the token back. *)

From Stdlib Require Import Ascii.
From S2P Require Import Prelude Sqlite Json ServerDb ServerKeys ServerKeyOps.

Local Open Scope Z_scope.

(** ** sync_token.rs *)

Record SyncToken := mkSyncToken { st_stream_id : Z; st_typing_gen : Z }.

Definition format (stream_id typing_gen : Z) : string := "s" +:+ pretty stream_id +:+ "_" +:+ pretty typing_gen.

Definition parse (raw : string) : result SyncToken MatrixError :=
  let digits := default raw (strip_prefix "s" raw) in
  let '(stream_part, typing_part) :=
    match split_once "_" digits with Some (s, t) => (s, Some t) | None => (digits, None) end in
  let? stream_id := ok_or (parse_i64 stream_part) (invalid_param "malformed sync token") in
  let? typing_gen :=
    match typing_part with
    | Some raw_gen => ok_or (parse_u64 raw_gen) (invalid_param "malformed sync token")
    | None => Ok 0
    end in
  Ok (mkSyncToken stream_id typing_gen).

(** ** The device's part of [build_sync_response] (sync.rs) *)

Definition SYNC_TO_DEVICE_CAP : Z := 100.

Record SyncKeys := mkSyncKeys {
  sk_next_batch : string;
  sk_to_device : list Value;
  sk_device_lists : DeviceListDelta;
  sk_otk_counts : gmap string Z;
  sk_unused_fallback : list string }.

Section Sync.
Context `{ServerJson}.

(** The page of to-device messages and the stream position it is complete up to. *)
Definition to_device_page (d : Db) (user_id : Z) (device_id : string) (since_stream upto : Z) : list ToDeviceMessage * Z :=
  let raw := to_device_for d user_id device_id since_stream (SYNC_TO_DEVICE_CAP + 1) in
  if SYNC_TO_DEVICE_CAP <? Z.of_nat (length raw) then
    let page := take (Z.to_nat SYNC_TO_DEVICE_CAP) raw in
    (page, match last page with Some m => td_stream_id m | None => upto end)
  else (raw, upto).

Definition to_device_event (d : Db) (message : ToDeviceMessage) : option Value :=
  sender_mxid ← mxid_of d (td_sender_user_id message);
  let content := match value_from_str (td_content message) with Ok v => v | Err _ => VObject [] end in
  Some (VObject [("content", content); ("sender", VString sender_mxid); ("type", VString (td_event_type message))]).

(** The delivery of one sync: what [since] acknowledges goes, then the next page is read. *)
Definition sync_to_device (d : Db) (user_id : Z) (device_id : string) (since : option SyncToken) : Db * list ToDeviceMessage * Z :=
  let upto := max_stream_id d in
  let since_stream := match since with Some t => st_stream_id t | None => 0 end in
  let d := delete_to_device_up_to d user_id device_id since_stream in
  let '(page, effective_upto) := to_device_page d user_id device_id since_stream upto in
  (d, page, effective_upto).

(** [typing_gen_now] is the typing registry's generation. *)
Definition build_sync_keys (d : Db) (user_id : Z) (device_id : string) (since : option SyncToken) (full_state : bool) (typing_gen_now : Z) : Db * SyncKeys :=
  let upto := max_stream_id d in
  let since_stream := match since with Some t => st_stream_id t | None => 0 end in
  let is_initial := is_none since || full_state in
  let '(d, page, effective_upto) := sync_to_device d user_id device_id since in
  let delta := if is_initial then mkDelta [] [] else device_list_delta d user_id since_stream upto in
  (d, mkSyncKeys (format effective_upto typing_gen_now) (omap (to_device_event d) page) delta
        (count_one_time_keys d user_id device_id) (unused_fallback_key_types d user_id device_id)).

(** A [since] above the stream counter is answered with an initial sync (http/sync.rs). *)
Definition trusted_since (d : Db) (since : option SyncToken) : option SyncToken :=
  match since with
  | Some t => if max_stream_id d <? st_stream_id t then None else since
  | None => None
  end.

End Sync.

(** ** http/keys.rs *)

(** What [super::resolve_caller] found. *)
Record Caller := mkCaller { ca_user_id : Z; ca_mxid : string; ca_device_id : string }.

Section Routes.
Context `{ServerJson, SigningCrypto}.

(** [is_remote_mxid] of fed_rooms.rs: its server-name grammar and the local names are the deployment's. *)
Context (is_remote_mxid : string → bool).

Definition keys_upload (d : Db) (caller : Caller) (request : KeysUploadRequest) (now : string) (now_ms : Z) : Db * result (gmap string Z) MatrixError * gset Z :=
  match apply_keys_upload d (ca_user_id caller) (ca_mxid caller) (ca_device_id caller) request now now_ms with
  | (d, Ok outcome) => (d, Ok (uo_otk_counts outcome), if uo_device_keys_changed outcome then peers_sharing_a_room_with d (ca_user_id caller) else ∅)
  | (d, Err e) => (d, Err e, ∅)
  end.

Definition device_signing_upload (d : Db) (caller : Caller) (request : DeviceSigningUploadRequest) (now : string) (now_ms : Z) : Db * result unit MatrixError * gset Z :=
  match apply_device_signing_upload d (ca_user_id caller) (ca_mxid caller) request now now_ms with
  | (d, Ok wrote) => (d, Ok tt, if wrote then peers_sharing_a_room_with d (ca_user_id caller) else ∅)
  | (d, Err e) => (d, Err e, ∅)
  end.

Definition signatures_upload (d : Db) (caller : Caller) (body : Value) (now : string) : Db * result Value MatrixError :=
  try? body := ok_or (as_object body) (invalid_param "body must be an object") on d in
  match apply_signatures_upload d (ca_user_id caller) (ca_mxid caller) body now with
  | (d, Ok failures) => (d, Ok (VObject [("failures", failures)]))
  | (d, Err e) => (d, Err e)
  end.

Definition keys_changes (d : Db) (caller : Caller) (from to : option string) : result Value MatrixError :=
  let? from := ok_or from (invalid_param "from is required") in
  let? from := parse from in
  let? to := ok_or to (invalid_param "to is required") in
  let? to := parse to in
  Ok (build_keys_changes_response d (ca_user_id caller) (st_stream_id from) (st_stream_id to)).

(** [split_by_domain]: the local users, and the remote ones under their domain. *)
Definition split_by_domain {V} (m : gmap string V) : gmap string V * gmap string (gmap string V) :=
  foldl (λ '(local, remote) kv,
           if is_remote_mxid kv.1 then
             match domain_of kv.1 with
             | Some dom => (local, <[dom := <[kv.1 := kv.2]> (default ∅ (remote !! dom))]> remote)
             | None => (local, remote)
             end
           else (<[kv.1 := kv.2]> local, remote)) (∅, ∅) (entries m).

(** [serde_json::to_value(users)] *)
Definition users_to_value (users : gmap string (gmap string Value)) : Value :=
  VObject ((λ kv, (kv.1, VObject (entries kv.2))) <$> entries users).

Definition enqueue_to_device_edu (d : Db) (domain sender event_type message_id : string) (messages : Value) (now_ms : Z) : Db :=
  let edu := VObject [("content", VObject [("message_id", VString message_id); ("messages", messages); ("sender", VString sender); ("type", VString event_type)]);
                      ("edu_type", VString "m.direct_to_device")] in
  enqueue d domain "edu" EmptyString EmptyString (value_to_string edu) now_ms.

(** The remote messages are queued, then the local ones are sent. *)
Definition send_to_device (d : Db) (federated : bool) (caller : Caller) (event_type txn_id : string) (body : gmap string (gmap string Value)) (now : string) (now_ms : Z) :
    Db * result unit MatrixError * gset Z :=
  let '(messages, remote_msgs) := if federated then split_by_domain body else (body, ∅) in
  let d := foldl (λ d du,
      enqueue_to_device_edu d du.1 (ca_mxid caller) event_type
        (txn_id +:+ "." +:+ pretty (ca_user_id caller) +:+ "." +:+ ca_device_id caller +:+ "." +:+ du.1) (users_to_value du.2) now_ms) d (entries remote_msgs) in
  match apply_send_to_device d (ca_user_id caller) (ca_device_id caller) event_type txn_id messages now with
  | (d, Ok (SentNew wake_ids)) => (d, Ok tt, wake_ids)
  | (d, Ok SentAlready) => (d, Ok tt, ∅)
  | (d, Err e) => (d, Err e, ∅)
  end.

Definition get_device_route (d : Db) (caller : Caller) (device_id : string) : result Device MatrixError :=
  ok_or (get_device d (ca_user_id caller) device_id) (not_found "no such device").

Definition put_device_route (d : Db) (caller : Caller) (device_id : string) (display_name : option string) : Db * result unit MatrixError :=
  let '(d, updated) := set_device_display_name d (ca_user_id caller) device_id display_name in
  (d, if updated then Ok tt else Err (not_found "no such device")).

Definition delete_device_route (d : Db) (caller : Caller) (device_id now : string) (now_ms : Z) : Db * result unit MatrixError * gset Z :=
  match delete_device d (ca_user_id caller) device_id now now_ms with
  | (d, Ok true) => (d, Ok tt, {[ca_user_id caller]})
  | (d, Ok false) => (d, Err (not_found "no such device"), ∅)
  | (d, Err e) => (d, Err (from_db e), ∅)
  end.

Fixpoint delete_devices_loop (d : Db) (user_id : Z) (device_ids : list string) (now : string) (now_ms : Z) (deleted_any : bool) : Db * result bool MatrixError :=
  match device_ids with
  | [] => (d, Ok deleted_any)
  | device_id :: device_ids =>
      match delete_device d user_id device_id now now_ms with
      | (d, Ok deleted) => delete_devices_loop d user_id device_ids now now_ms (deleted || deleted_any)
      | (d, Err e) => (d, Err (from_db e))
      end
  end.

Definition bulk_delete_devices (d : Db) (caller : Caller) (device_ids : list string) (now : string) (now_ms : Z) : Db * result unit MatrixError * gset Z :=
  match delete_devices_loop d (ca_user_id caller) device_ids now now_ms false with
  | (d, Ok deleted_any) => (d, Ok tt, if deleted_any then {[ca_user_id caller]} else ∅)
  | (d, Err e) => (d, Err e, ∅)
  end.

(** ** Key backup routes *)

Definition post_backup_version (d : Db) (caller : Caller) (algorithm : string) (auth_data : Value) (now : string) : Db * result Value MatrixError :=
  try? _ := validate_backup_algorithm algorithm on d in
  let '(d, version) := create_backup_version d (ca_user_id caller) algorithm (value_to_string auth_data) now in
  (d, Ok (VObject [("version", VString (pretty version))])).

Definition count_of (d : Db) (user_id version : Z) : result (Z * Z) MatrixError := map_err from_db (backup_count_and_etag d user_id version).

Definition get_current_backup_version (d : Db) (caller : Caller) : result Value MatrixError :=
  let? row := ok_or (current_backup_version d (ca_user_id caller)) (not_found "no key backup exists") in
  let? (count, _) := count_of d (ca_user_id caller) (bv_version row) in
  backup_version_to_response row count.

(** [version.parse::<i64>()] of the path *)
Definition path_version (version : string) : result Z MatrixError := ok_or (parse_i64 version) (invalid_param "version must be an integer").

(** [get_backup_version(..)?.filter(|row| !row.is_deleted).ok_or_else(..)] *)
Definition live_backup_version (d : Db) (user_id version : Z) : result KeyBackupVersion MatrixError :=
  match get_backup_version d user_id version with
  | Some row => if bv_is_deleted row then Err (not_found "no such backup version") else Ok row
  | None => Err (not_found "no such backup version")
  end.

Definition get_backup_version_route (d : Db) (caller : Caller) (version : string) : result Value MatrixError :=
  let? version := path_version version in
  let? row := live_backup_version d (ca_user_id caller) version in
  let? (count, _) := count_of d (ca_user_id caller) version in
  backup_version_to_response row count.

Definition put_backup_version_route (d : Db) (caller : Caller) (version : string) (algorithm : option string) (auth_data : Value) : Db * result Value MatrixError :=
  try? version := path_version version on d in
  try? existing := live_backup_version d (ca_user_id caller) version on d in
  if match algorithm with Some a => negb (seqb a (bv_algorithm existing)) | None => false end
  then (d, Err (invalid_param "a backup version's algorithm cannot change"))
  else ((update_backup_version_auth_data d (ca_user_id caller) version (value_to_string auth_data)).1, Ok (VObject [])).

Definition delete_backup_version_route (d : Db) (caller : Caller) (version : string) : Db * result Value MatrixError :=
  try? version := path_version version on d in
  let '(d, deleted) := delete_backup_version d (ca_user_id caller) version in
  (d, if deleted then Ok (VObject []) else Err (not_found "no such backup version")).

Definition get_backup_keys_inner (d : Db) (caller : Caller) (room_id session_id version_query : option string) : result Value MatrixError :=
  let? version := parse_required_version version_query in
  let? _ := require_current_backup_version d (ca_user_id caller) version in
  backup_sessions_to_response room_id session_id (get_backup_sessions d (ca_user_id caller) version room_id session_id).

Definition etag_and_count (d : Db) (user_id version : Z) : Db * result Value MatrixError :=
  try? (count, etag) := count_of d user_id version on d in
  (d, Ok (VObject [("count", VNumber (PosInt count)); ("etag", VString (pretty etag))])).

Definition put_backup_keys_inner (d : Db) (caller : Caller) (room_id session_id version_query : option string) (body : Value) (now : string) : Db * result Value MatrixError :=
  try? version := parse_required_version version_query on d in
  try? sessions := normalize_put_backup_body room_id session_id body on d in
  match put_backup_sessions d (ca_user_id caller) version sessions now with
  | (d, Ok _) => etag_and_count d (ca_user_id caller) version
  | (d, Err WrongBackupVersion) => (d, Err (wrong_room_keys_version (bv_version <$> current_backup_version d (ca_user_id caller))))
  | (d, Err e) => (d, Err (from_keys_error e))
  end.

Definition delete_backup_keys_inner (d : Db) (caller : Caller) (room_id session_id version_query : option string) : Db * result Value MatrixError :=
  try? version := parse_required_version version_query on d in
  try? _ := require_current_backup_version d (ca_user_id caller) version on d in
  etag_and_count (delete_backup_sessions d (ca_user_id caller) version room_id session_id).1 (ca_user_id caller) version.

End Routes.

(** * Sync tokens: reading back what was written (crates/mail4agent-server/src/sync_token.rs) *)

Lemma parse_pretty_N_go (x : N) (s : string) : parse_digits (pretty_N_go x s) 0 = parse_digits s (Z.of_N x).
Proof.
  revert s. induction (N.lt_wf_0 x) as [x _ IH]. intros s.
  destruct (decide (0 < x)%N) as [Hx|Hx]; [|replace x with 0%N by lia; by rewrite pretty_N_go_0].
  rewrite pretty_N_go_step by done. rewrite IH by (by apply N.div_lt). cbn [parse_digits].
  assert (Hm : (x `mod` 10 < 10)%N) by (apply N.mod_lt; lia).
  assert (Hc : ∀ y : N, (y < 10)%N → is_ascii_digit (pretty_N_char y) = true ∧ bval (pretty_N_char y) = 48 + Z.of_N y).
  { intros y Hy. assert (Hy' : y ∈ [0; 1; 2; 3; 4; 5; 6; 7; 8; 9]%N) by (rewrite !elem_of_cons, elem_of_nil; lia).
    repeat (apply elem_of_cons in Hy' as [->|Hy']; [done|]). by apply not_elem_of_nil in Hy'. }
  destruct (Hc _ Hm) as [-> ->]. f_equal. pose proof (N.div_mod x 10 ltac:(lia)). lia.
Qed.

Lemma parse_pretty_N (x : N) : parse_digits (pretty x) 0 = Some (Z.of_N x).
Proof. unfold pretty, pretty_N. case_decide; [by subst|]. by rewrite parse_pretty_N_go. Qed.

Lemma pretty_Z_N (z : Z) : 0 ≤ z → pretty z = pretty (Z.to_N z).
Proof. by destruct z. Qed.

(** The text of a number is made of digits. *)
Lemma pretty_N_digits (x : N) : all_bytes is_ascii_digit (pretty x) = true ∧ pretty x ≠ EmptyString.
Proof.
  split.
  - unfold all_bytes. pose proof (parse_pretty_N x) as Hp. revert Hp. generalize 0 at 1. generalize (Z.of_N x). generalize (pretty x).
    intros s. induction s as [|a s IH]; intros n acc; [done|]. cbn. destruct (is_ascii_digit a); [|done]. apply IH.
  - unfold pretty, pretty_N. case_decide; [done|]. intros He. pose proof (parse_pretty_N_go x EmptyString) as Hp. rewrite He in Hp. injection Hp. lia.
Qed.

Lemma strip_sign_digits a s : all_bytes is_ascii_digit s = true → is_ascii_digit a = false → strip_prefix (String a EmptyString) s = None.
Proof.
  intros Hs Ha. destruct s as [|b s]; [done|]. cbn. rewrite all_bytes_cons in Hs. boolify. destruct (Ascii.eqb_spec a b); [congruence|done].
Qed.

Lemma parse_magnitude_pretty z : 0 ≤ z → parse_magnitude (pretty z) = Some z.
Proof.
  intros Hz. rewrite pretty_Z_N by done. unfold parse_magnitude. pose proof (pretty_N_digits (Z.to_N z)) as [_ Hne].
  replace (s_is_empty (pretty (Z.to_N z))) with false by (by destruct (pretty (Z.to_N z))). rewrite parse_pretty_N. f_equal. lia.
Qed.

Lemma parse_i64_pretty z : 0 ≤ z ≤ i64_max → parse_i64 (pretty z) = Some z.
Proof.
  intros Hz. unfold parse_i64. rewrite (pretty_Z_N z) by lia. pose proof (pretty_N_digits (Z.to_N z)) as [Hd _].
  rewrite !strip_sign_digits by done. cbn [from_option id]. rewrite <- pretty_Z_N, parse_magnitude_pretty by lia. cbn.
  replace (i64_min <=? z) with true by (symmetry; apply Z.leb_le; unfold i64_min; lia).
  by replace (z <=? i64_max) with true by (symmetry; apply Z.leb_le; lia).
Qed.

Lemma parse_u64_pretty z : 0 ≤ z < u64_mod → parse_u64 (pretty z) = Some z.
Proof.
  intros Hz. unfold parse_u64. rewrite (pretty_Z_N z) by lia. pose proof (pretty_N_digits (Z.to_N z)) as [Hd _].
  rewrite strip_sign_digits by done. cbn [from_option id]. rewrite <- pretty_Z_N, parse_magnitude_pretty by lia. cbn.
  by replace (z <? u64_mod) with true by (symmetry; apply Z.ltb_lt; lia).
Qed.

(** A token is read back as it was written. *)
Lemma parse_format stream_id typing_gen :
  0 ≤ stream_id ≤ i64_max → 0 ≤ typing_gen < u64_mod → parse (format stream_id typing_gen) = Ok (mkSyncToken stream_id typing_gen).
Proof.
  intros Hs Hg. unfold parse, format. rewrite strip_prefix_app. cbn [from_option id].
  change ("_" +:+ pretty typing_gen) with (String "_" (pretty typing_gen)).
  rewrite split_once_app; [by rewrite parse_i64_pretty, parse_u64_pretty by done|].
  rewrite (pretty_Z_N stream_id) by lia. pose proof (pretty_N_digits (Z.to_N stream_id)) as [Hd _].
  revert Hd. apply all_bytes_impl. intros b Hb. destruct (Ascii.eqb_spec b "_"); [by subst|done].
Qed.
