(* ===== verification/ServerDbProps.v ===== *)
(** * The homeserver's database invariant

    Every primary key and UNIQUE column names one row, and the rows of the stream-ordered tables
    stand in the order of their stream ids, none above the counter. Each statement of [ServerKeys]
    keeps this, so no statement ever meets a key that is taken. *)

From S2P Require Import Prelude Sqlite Json ServerDb ServerKeys.

Local Open Scope Z_scope.

Create HintDb server.

Arguments select : simpl never.
Arguments find_row : simpl never.
Arguments exists_row : simpl never.
Arguments delete_where : simpl never.
Arguments update_where : simpl never.
Arguments upsert : simpl never.

(** ** Tables *)

(** The column (or columns) [key] has no duplicates. *)
Definition keyed {A K} (key : A → K) (t : list A) : Prop := NoDup (key <$> t).

(** Ids ascend along the table and lie in [1 .. bound]. *)
Definition ordered {A} (key : A → Z) (bound : Z) (t : list A) : Prop :=
  StronglySorted Z.lt (key <$> t) ∧ Forall (λ r, 0 < key r ≤ bound) t.

Lemma delete_where_select {A} (p : A → bool) t : delete_where p t = select (λ r, negb (p r)) t.
Proof. done. Qed.

Lemma elem_of_delete_where {A} (p : A → bool) t r : r ∈ delete_where p t ↔ r ∈ t ∧ p r = false.
Proof. unfold delete_where. by rewrite elem_of_select, negb_true_iff. Qed.

Lemma select_cons {A} (p : A → bool) r t : select p (r :: t) = if p r then r :: select p t else select p t.
Proof. done. Qed.

Lemma select_sublist {A} (p : A → bool) t : select p t `sublist_of` t.
Proof. induction t as [|r t IH]; [done|]. rewrite select_cons. case_match; by constructor. Qed.

Lemma select_append {A} (p : A → bool) t1 t2 : select p (t1 ++ t2) = select p t1 ++ select p t2.
Proof. apply List.filter_app. Qed.

Lemma select_every {A} (p : A → bool) t : (∀ r, r ∈ t → p r = true) → select p t = t.
Proof. induction t as [|r t IH]; intros Hp; [done|]. rewrite ?select_cons, Hp by left. f_equal. apply IH. intros x Hx. apply Hp. by right. Qed.

Lemma select_nothing {A} (p : A → bool) t : (∀ r, r ∈ t → p r = false) → select p t = [].
Proof. induction t as [|r t IH]; intros Hp; [done|]. rewrite ?select_cons, Hp by left. apply IH. intros x Hx. apply Hp. by right. Qed.

Lemma select_select {A} (p q : A → bool) t : select p (select q t) = select (λ r, q r && p r) t.
Proof.
  rewrite !select_filter, list_filter_filter. apply list_filter_iff. intros r. rewrite andb_true_iff. tauto.
Qed.

Lemma select_ext {A} (p q : A → bool) t : (∀ r, r ∈ t → p r = q r) → select p t = select q t.
Proof.
  induction t as [|r t IH]; intros Hp; [done|]. rewrite ?select_cons, Hp by left. rewrite IH; [done|].
  intros x Hx. apply Hp. by right.
Qed.

Lemma exists_row_false {A} (p : A → bool) t : exists_row p t = false ↔ ∀ r, r ∈ t → p r = false.
Proof.
  rewrite <- not_true_iff_false, exists_row_true. split.
  - intros Hn r Hr. destruct (p r) eqn:Hp; [|done]. destruct Hn. eauto.
  - intros Hall (r & Hr & Hp). by rewrite Hall in Hp.
Qed.

Lemma keyed_sublist {A K} (key : A → K) t t' : t' `sublist_of` t → keyed key t → keyed key t'.
Proof.
  intros Hs Hk. unfold keyed in *. eapply sublist_NoDup; [exact Hk|].
  clear Hk. induction Hs; cbn; by constructor.
Qed.

Lemma keyed_delete {A K} (key : A → K) p t : keyed key t → keyed key (delete_where p t).
Proof. apply keyed_sublist, select_sublist. Qed.

Lemma keyed_app {A K} (key : A → K) t r : keyed key t → (∀ x, x ∈ t → key x ≠ key r) → keyed key (t ++ [r]).
Proof.
  intros Hk Hnew. unfold keyed. rewrite fmap_app. apply NoDup_app. split_and!; [done| |apply NoDup_singleton].
  intros k (x & -> & Hx)%list_elem_of_fmap Heq%list_elem_of_singleton. by apply Hnew in Hx.
Qed.

Lemma update_where_keys {A K} (key : A → K) p f t : (∀ r, p r = true → key (f r) = key r) → key <$> update_where p f t = key <$> t.
Proof.
  intros Hf. unfold update_where. rewrite <- list_fmap_compose. apply list_fmap_ext. intros i r _. cbn.
  destruct (p r) eqn:Hp; auto.
Qed.

Lemma keyed_update {A K} (key : A → K) p f t : keyed key t → (∀ r, p r = true → key (f r) = key r) → keyed key (update_where p f t).
Proof. intros Hk Hf. unfold keyed. by rewrite update_where_keys. Qed.

(** An upsert whose predicate is the key of the new row. *)
Lemma keyed_upsert {A K} (key : A → K) p row t :
  keyed key t → (∀ r, p r = true ↔ key r = key row) → keyed key (upsert p (λ _, row) row t).
Proof.
  intros Hk Hp. unfold upsert. destruct (exists_row p t) eqn:He.
  - apply keyed_update; [done|]. intros r Hr. by apply Hp in Hr.
  - apply keyed_app; [done|]. intros x Hx Heq. apply Hp in Heq. rewrite exists_row_false in He. by rewrite He in Heq.
Qed.

Lemma keyed_inj {A K} (key : A → K) t r1 r2 : keyed key t → r1 ∈ t → r2 ∈ t → key r1 = key r2 → r1 = r2.
Proof.
  intros Hk (i & Hi)%list_elem_of_lookup (j & Hj)%list_elem_of_lookup Heq.
  assert (i = j) as ->; [|congruence]. apply (NoDup_lookup (key <$> t) i j (key r1)); [done|..]; rewrite list_lookup_fmap; [by rewrite Hi|by rewrite Hj, Heq].
Qed.

Lemma find_row_keyed {A K} (key : A → K) p t r :
  keyed key t → r ∈ t → p r = true → (∀ x, p x = true → key x = key r) → find_row p t = Some r.
Proof.
  intros Hk Hr Hp Hkey. destruct (find_row p t) as [x|] eqn:Hf.
  - apply find_row_Some in Hf as [Hx Hpx]. f_equal. eapply keyed_inj; eauto.
  - by rewrite (find_row_None _ _ _ Hf Hr) in Hp.
Qed.

Lemma Forall_sub {A} (P : A → Prop) t t' : t' `sublist_of` t → Forall P t → Forall P t'.
Proof. intros Hs. induction Hs; intros Ht; [done|..]; apply Forall_cons in Ht as [??]; auto. Qed.

Lemma ordered_sublist {A} (key : A → Z) b t t' : t' `sublist_of` t → ordered key b t → ordered key b t'.
Proof.
  intros Hs [Hsort Hall]. split; [|by eapply Forall_sub].
  clear Hall. revert Hsort. induction Hs as [|x l1 l2 Hs IH|x l1 l2 Hs IH]; cbn; intros Hsort; [done|..];
    apply StronglySorted_inv in Hsort as [Hsort Hx]; [|by apply IH].
  constructor; [by apply IH|]. rewrite Forall_fmap in *. eapply Forall_sub; [exact Hs|done].
Qed.

Lemma ordered_delete {A} (key : A → Z) b p t : ordered key b t → ordered key b (delete_where p t).
Proof. apply ordered_sublist, select_sublist. Qed.

Lemma ordered_mono {A} (key : A → Z) b b' t : b ≤ b' → ordered key b t → ordered key b' t.
Proof. intros Hb [Hs Ha]. split; [done|]. eapply Forall_impl; [exact Ha|]. cbn. lia. Qed.

Lemma ordered_app {A} (key : A → Z) b t r : ordered key b t → 0 ≤ b → key r = b + 1 → ordered key (b + 1) (t ++ [r]).
Proof.
  intros [Hs Ha] Hb Hr. split.
  - rewrite fmap_app. apply StronglySorted_app. split_and!; [|done|cbn; by repeat constructor].
    intros x1 x2 (y & -> & Hy)%list_elem_of_fmap Hx2%list_elem_of_singleton. subst x2. rewrite Forall_forall in Ha. specialize (Ha y Hy). lia.
  - apply Forall_app. split; [|by repeat constructor; lia]. eapply Forall_impl; [exact Ha|]. cbn. lia.
Qed.

Lemma ordered_update {A} (key : A → Z) b p f t : ordered key b t → (∀ r, key (f r) = key r) → ordered key b (update_where p f t).
Proof.
  intros [Hs Ha] Hf. split; [by rewrite update_where_keys by auto|]. unfold update_where. rewrite Forall_fmap.
  eapply Forall_impl; [exact Ha|]. intros r Hr. cbn. case_match; by rewrite ?Hf.
Qed.

Lemma ordered_keyed {A} (key : A → Z) b t : ordered key b t → keyed key t.
Proof.
  intros [Hs _]. unfold keyed. induction Hs as [|x l Hs IH Hx]; constructor; [|done].
  intros Hin. rewrite Forall_forall in Hx. specialize (Hx x Hin). lia.
Qed.

(** A new id is above all rows. *)
Lemma ordered_fresh {A} (key : A → Z) b t : ordered key b t → exists_row (λ r, key r =? b + 1) t = false.
Proof. intros [_ Ha]. apply exists_row_false. intros r Hr. rewrite Forall_forall in Ha. specialize (Ha r Hr). apply Z.eqb_neq. lia. Qed.

(** Reading an ordered table by its id reads it as it stands. *)
Lemma ordered_order_by {A} (key : A → Z) b t : ordered key b t → order_by_int key t = t.
Proof.
  intros Ho. apply (ordered_keyed key b) in Ho as Hk. destruct Ho as [Hs _]. unfold order_by_int.
  apply (StronglySorted_unique_strong (int_le key)).
  - intros x1 x2 Hx1 Hx2 H1 H2. unfold int_le in *. assert (Heq : key x1 = key x2) by lia.
    rewrite (merge_sort_Permutation (int_le key) t) in Hx1. eapply keyed_inj; eauto.
  - apply StronglySorted_merge_sort.
    + intros x y z. unfold int_le. lia.
    + intros x y. unfold int_le. lia.
  - clear Hk. induction t as [|x t IH]; [constructor|]. cbn in Hs. apply StronglySorted_inv in Hs as [Hs Hx].
    constructor; [by apply IH|]. rewrite Forall_fmap in Hx. eapply Forall_impl; [exact Hx|]. intros y Hy. unfold int_le. cbn in Hy. lia.
  - apply merge_sort_Permutation.
Qed.

(** ** The invariant *)

Definition txn_key (r : TxnRow) := (tx_user_id r, tx_device_id r, tx_txn_id r).
Definition device_key (r : Device) := (dv_user_id r, dv_device_id r).
Definition credential_key (r : Device) := (dv_credential_kind r, dv_credential_ref r).
Definition device_keys_key (r : DeviceKeys) := (dk_user_id r, dk_device_id r).
Definition otk_key (r : OneTimeKeyRow) := (ok_user_id r, ok_device_id r, ok_key_id r).
Definition fallback_key (r : FallbackKeyRow) := (fr_user_id r, fr_device_id r, fr_algorithm r).
Definition cross_key (r : CrossSigningKey) := (cs_user_id r, cs_usage r).
Definition session_key (r : KeyBackupSession) := (bs_user_id r, bs_version r, bs_room_id r, bs_session_id r).

Record db_ok (d : Db) : Prop := mkDbOk {
  ok_counter : 0 ≤ db_stream_counter d;
  ok_to_device : ordered td_stream_id (db_stream_counter d) (db_to_device d);
  ok_changes : ordered dc_stream_id (db_stream_counter d) (db_changes d);
  ok_txns : keyed txn_key (db_txns d);
  ok_devices : keyed device_key (db_devices d);
  ok_credentials : keyed credential_key (db_devices d);
  ok_device_keys : keyed device_keys_key (db_device_keys d);
  ok_one_time_keys : keyed otk_key (db_one_time_keys d);
  ok_fallback_keys : keyed fallback_key (db_fallback_keys d);
  ok_cross_keys : keyed cross_key (db_cross_keys d);
  ok_backup_seq : 0 ≤ db_backup_seq d;
  ok_backup_versions : ordered bv_version (db_backup_seq d) (db_backup_versions d);
  ok_backup_sessions : keyed session_key (db_backup_sessions d) }.

Lemma empty_db_ok : db_ok empty_db.
Proof. split; cbn; try lia; try apply NoDup_nil_2; split; constructor. Qed.

(** Replacing one table by one that is in order. *)
Section Setters.
Context (d : Db) (Hd : db_ok d).

Lemma ok_with_stream_counter : db_ok (with_stream_counter d (db_stream_counter d + 1)).
Proof. destruct Hd; split; cbn; try done; try lia; (eapply ordered_mono; [|done]; lia). Qed.
Lemma ok_with_txns t : keyed txn_key t → db_ok (with_txns d t).
Proof. by destruct Hd. Qed.
Lemma ok_with_outbox t : db_ok (with_outbox d t).
Proof. by destruct Hd. Qed.
Lemma ok_with_devices t : keyed device_key t → keyed credential_key t → db_ok (with_devices d t).
Proof. by destruct Hd. Qed.
Lemma ok_with_device_keys t : keyed device_keys_key t → db_ok (with_device_keys d t).
Proof. by destruct Hd. Qed.
Lemma ok_with_one_time_keys t : keyed otk_key t → db_ok (with_one_time_keys d t).
Proof. by destruct Hd. Qed.
Lemma ok_with_fallback_keys t : keyed fallback_key t → db_ok (with_fallback_keys d t).
Proof. by destruct Hd. Qed.
Lemma ok_with_to_device t : ordered td_stream_id (db_stream_counter d) t → db_ok (with_to_device d t).
Proof. by destruct Hd. Qed.
Lemma ok_with_changes t : ordered dc_stream_id (db_stream_counter d) t → db_ok (with_changes d t).
Proof. by destruct Hd. Qed.
Lemma ok_with_cross_keys t : keyed cross_key t → db_ok (with_cross_keys d t).
Proof. by destruct Hd. Qed.
Lemma ok_with_signatures t n : db_ok (with_signatures d t n).
Proof. by destruct Hd. Qed.
Lemma ok_with_backup_versions t n : 0 ≤ n → ordered bv_version n t → db_ok (with_backup_versions d t n).
Proof. by destruct Hd. Qed.
Lemma ok_with_backup_sessions t : keyed session_key t → db_ok (with_backup_sessions d t).
Proof. by destruct Hd. Qed.

End Setters.

#[export] Hint Resolve ok_with_stream_counter ok_with_txns ok_with_outbox ok_with_devices ok_with_device_keys ok_with_one_time_keys ok_with_fallback_keys ok_with_to_device ok_with_changes ok_with_cross_keys ok_with_signatures ok_with_backup_versions ok_with_backup_sessions : server.
#[export] Hint Resolve ok_counter ok_to_device ok_changes ok_txns ok_devices ok_credentials ok_device_keys ok_one_time_keys ok_fallback_keys ok_cross_keys ok_backup_seq ok_backup_versions ok_backup_sessions : server.
#[export] Hint Resolve keyed_delete keyed_update ordered_delete ordered_update : server.
#[export] Hint Extern 5 (_ = _) => reflexivity : server.

(** ** The statements keep it *)

(** A transaction whose body keeps the invariant and cannot fail. *)
Lemma transaction_ok {A E} d (body : result (Db * A) E) :
  db_ok d → (∀ d' a, body = Ok (d', a) → db_ok d') → db_ok (transaction d body).1.
Proof. intros Hd Hb. unfold transaction. destruct body as [[d' a]|e]; cbn; eauto. Qed.

Section Keep.
Context `{ServerJson}.

(** Telling other servers touches the outbox alone. *)
Lemma queue_outbox d servers edu now_ms : ∃ x, queue d servers edu now_ms = with_outbox d x.
Proof.
  revert d. induction servers as [|server servers IH]; intros d; [by exists (db_outbox d); destruct d|].
  destruct (IH (enqueue d server "edu" EmptyString EmptyString (value_to_string edu) now_ms)) as [x Hx]. by exists x.
Qed.

Lemma enqueue_list_outbox d user_id n now_ms : ∃ x, enqueue_device_list d user_id n now_ms = with_outbox d x.
Proof. unfold enqueue_device_list. repeat case_match; [by exists (db_outbox d); destruct d|apply queue_outbox|by exists (db_outbox d); destruct d]. Qed.

Lemma enqueue_device_list_ok d user_id stream_id now_ms : db_ok d → db_ok (enqueue_device_list d user_id stream_id now_ms).
Proof. intros Hd. destruct (enqueue_list_outbox d user_id stream_id now_ms) as [x ->]. auto with server. Qed.

(** Logging a change never fails: the stream id is new. *)
Lemma log_change_total d user_id now now_ms :
  db_ok d → ∃ d', log_device_list_change_tx d user_id now now_ms = Ok (d', db_stream_counter d + 1) ∧ db_ok d'.
Proof.
  intros Hd. unfold log_device_list_change_tx, next_stream_id. cbn.
  rewrite ordered_fresh by auto with server. eexists. split; [done|]. apply enqueue_device_list_ok.
  apply ok_with_changes; [auto with server|]. cbn. apply ordered_app; auto with server.
Qed.

(** [log_device_list_change_tx] at the end of a transaction. *)
Lemma logged_transaction_ok {A} d d1 user_id now now_ms (a : A) :
  db_ok d1 →
  let r := transaction d (let? (d2, _) := log_device_list_change_tx d1 user_id now now_ms in Ok (d2, a)) in
  db_ok r.1 ∧ r.2 = Ok a.
Proof. intros Hd1. destruct (log_change_total d1 user_id now now_ms Hd1) as (d2 & -> & Hd2). by split. Qed.

Lemma is_device_key u dev r : is_device u dev r = true ↔ device_key r = (u, dev).
Proof. unfold is_device, device_key. rewrite andb_true_iff, Z.eqb_eq, seqb_true. naive_solver. Qed.
Lemma has_credential_key k c r : has_credential k c r = true ↔ credential_key r = (k, c).
Proof. unfold has_credential, credential_key. rewrite andb_true_iff, bool_decide_eq_true, seqb_true. naive_solver. Qed.
Lemma keys_of_device_key u dev r : keys_of_device u dev r = true ↔ device_keys_key r = (u, dev).
Proof. unfold keys_of_device, device_keys_key. rewrite andb_true_iff, Z.eqb_eq, seqb_true. naive_solver. Qed.
Lemma is_otk_key u dev k r : is_otk u dev k r = true ↔ otk_key r = (u, dev, k).
Proof. unfold is_otk, otk_of_device, otk_key. rewrite !andb_true_iff, Z.eqb_eq, !seqb_true. naive_solver. Qed.
Lemma is_fallback_key u dev a r : is_fallback u dev a r = true ↔ fallback_key r = (u, dev, a).
Proof. unfold is_fallback, fallback_of_device, fallback_key. rewrite !andb_true_iff, Z.eqb_eq, !seqb_true. naive_solver. Qed.
Lemma is_cross_key_key u us r : is_cross_key u us r = true ↔ cross_key r = (u, us).
Proof. unfold is_cross_key, cross_key. rewrite andb_true_iff, Z.eqb_eq, bool_decide_eq_true. naive_solver. Qed.
Lemma is_session_key u v ro s r : is_session u v ro s r = true ↔ session_key r = (u, v, ro, s).
Proof. unfold is_session, session_key. rewrite !andb_true_iff, !Z.eqb_eq, !seqb_true. naive_solver. Qed.
Lemma txn_is_key u dev t r : txn_is u dev t r = true ↔ txn_key r = (u, dev, t).
Proof. unfold txn_is, txn_key. rewrite !andb_true_iff, Z.eqb_eq, !seqb_true. naive_solver. Qed.

Lemma create_device_ok d u k c now dev : db_ok d → db_ok (create_device d u k c now dev).1.
Proof.
  intros Hd. unfold create_device. case_match eqn:He; [done|]. cbn. rewrite exists_row_false in He.
  apply ok_with_devices; [done|..]; apply keyed_app; auto with server; intros x Hx Heq; specialize (He x Hx); apply orb_false_iff in He as [H1 H2];
    [apply not_true_iff_false in H1; apply H1, is_device_key|apply not_true_iff_false in H2; apply H2, has_credential_key]; by rewrite Heq.
Qed.

Lemma touch_device_ok d u dev now : db_ok d → db_ok (touch_device d u dev now).
Proof. intros Hd. apply ok_with_devices; auto with server. Qed.

Lemma set_device_display_name_ok d u dev name : db_ok d → db_ok (set_device_display_name d u dev name).1.
Proof. intros Hd. apply ok_with_devices; auto with server. Qed.

Lemma delete_device_key_material_ok d u dev : db_ok d → db_ok (delete_device_key_material d u dev).
Proof. intros []. split; cbn; auto with server. Qed.

Lemma delete_device_total d u dev now now_ms : db_ok d →
  db_ok (delete_device d u dev now now_ms).1 ∧ (delete_device d u dev now now_ms).2 = Ok (exists_row (is_device u dev) (db_devices d)).
Proof.
  intros Hd. unfold delete_device. assert (Hd1 : db_ok (with_devices d (delete_where (is_device u dev) (db_devices d)))) by auto with server.
  destruct (exists_row (is_device u dev) (db_devices d)).
  - by apply logged_transaction_ok, delete_device_key_material_ok.
  - by split.
Qed.

Lemma delete_device_by_credential_total d k c now now_ms : db_ok d →
  db_ok (delete_device_by_credential d k c now now_ms).1 ∧
  (delete_device_by_credential d k c now now_ms).2 = Ok ((λ r, (dv_user_id r, dv_device_id r)) <$> device_for_credential d k c).
Proof.
  intros Hd. unfold delete_device_by_credential, device_for_credential.
  assert (Hd1 : db_ok (with_devices d (delete_where (has_credential k c) (db_devices d)))) by auto with server.
  destruct (find_row (has_credential k c) (db_devices d)) as [r|]; cbn [fmap option_fmap option_map].
  - apply (logged_transaction_ok d). by apply delete_device_key_material_ok.
  - by split.
Qed.

Lemma upsert_device_keys_total d u dev a k s now now_ms : db_ok d →
  db_ok (upsert_device_keys d u dev a k s now now_ms).1 ∧ (upsert_device_keys d u dev a k s now now_ms).2 = Ok tt.
Proof.
  intros Hd. apply logged_transaction_ok, ok_with_device_keys; [done|]. apply keyed_upsert; [auto with server|]. apply keys_of_device_key.
Qed.

Lemma clear_device_one_time_material_ok d u dev : db_ok d → db_ok (clear_device_one_time_material d u dev).
Proof. intros []. split; cbn; auto with server. Qed.

Lemma add_keys_loop_ok d u dev keys d' : db_ok d → add_keys_loop d u dev keys = Ok (d', tt) → db_ok d'.
Proof.
  revert d. induction keys as [|[[key_id algorithm] json] keys IH]; intros d Hd; cbn; [by intros [= <-]|].
  destruct (find_row _ _) as [r|] eqn:Hf; [case_match; [by apply IH|done]|]. apply IH.
  apply ok_with_one_time_keys; [done|]. apply keyed_app; [auto with server|]. intros x Hx Heq.
  pose proof (find_row_None _ _ _ Hf Hx) as Hn. apply not_true_iff_false in Hn. apply Hn, is_otk_key. by rewrite Heq.
Qed.

Lemma add_one_time_keys_ok d u dev keys : db_ok d → db_ok (add_one_time_keys d u dev keys).1.
Proof. intros Hd. apply transaction_ok; [done|]. intros d' [] Hl. by eapply add_keys_loop_ok. Qed.

(** The only way an upload of one-time keys fails. *)
Lemma add_keys_loop_err d u dev keys e : add_keys_loop d u dev keys = Err e → ∃ key_id, e = OneTimeKeyConflict key_id.
Proof.
  revert d. induction keys as [|[[key_id algorithm] json] keys IH]; intros d; cbn; [done|].
  destruct (find_row _ _) as [r|]; [case_match; [by apply IH|intros [= <-]; eauto]|apply IH].
Qed.

Lemma claim_one_time_key_ok d u dev a : db_ok d → db_ok (claim_one_time_key d u dev a).1.
Proof.
  intros Hd. unfold claim_one_time_key, take_lowest_key. destruct (head _); cbn; [by auto with server|].
  destruct (find_row _ _); cbn; [|done]. by auto with server.
Qed.

Lemma upsert_fallback_key_ok d u dev a k json now : db_ok d → db_ok (upsert_fallback_key d u dev a k json now).
Proof. intros Hd. apply ok_with_fallback_keys; [done|]. apply keyed_upsert; [auto with server|]. apply is_fallback_key. Qed.

Lemma insert_to_device_total d sender messages last : db_ok d →
  ∃ d' n, insert_to_device d sender messages last = Ok (d', n) ∧ db_ok d' ∧ db_txns d' = db_txns d.
Proof.
  revert d last. induction messages as [|[[[u dev] t] c] messages IH]; intros d last Hd; cbn; [eauto|].
  rewrite ordered_fresh by auto with server.
  match goal with |- context [insert_to_device ?e _ _ _] => destruct (IH e (db_stream_counter d + 1)) as (d' & n & Heq & Hok & Htx) end.
  - apply ok_with_to_device; [auto with server|]. cbn. apply ordered_app; auto with server.
  - eauto.
Qed.

Lemma txn_dedup_record_ok d u dev t e now :
  db_ok d → txn_dedup_lookup d u dev t = NotSeen → ∃ d', txn_dedup_record d u dev t e now = Ok d' ∧ db_ok d'.
Proof.
  intros Hd Hn. unfold txn_dedup_lookup, txn_dedup_record in *. rewrite exists_row_find.
  destruct (find_row _ _) eqn:Hf; [done|]. cbn. eexists. split; [done|]. apply ok_with_txns; [done|].
  apply keyed_app; [auto with server|]. intros x Hx Heq.
  pose proof (find_row_None _ _ _ Hf Hx) as Hno. apply not_true_iff_false in Hno. apply Hno, txn_is_key. by rewrite Heq.
Qed.

Lemma enqueue_to_device_deduped_total d u dev t messages now : db_ok d →
  db_ok (enqueue_to_device_deduped d u dev t messages now).1 ∧ is_ok (enqueue_to_device_deduped d u dev t messages now).2 = true.
Proof.
  intros Hd. unfold enqueue_to_device_deduped. destruct (txn_dedup_lookup d u dev t) eqn:Hl; [|by split].
  destruct (insert_to_device_total d u messages (max_stream_id d) Hd) as (d1 & n & -> & Hd1 & Htx). cbn.
  destruct (txn_dedup_record_ok d1 u dev t None now) as (d2 & -> & Hd2); [done| |by split].
  unfold txn_dedup_lookup in *. by rewrite Htx.
Qed.

Lemma delete_to_device_up_to_ok d u dev n : db_ok d → db_ok (delete_to_device_up_to d u dev n).
Proof. intros Hd. unfold delete_to_device_up_to. auto with server. Qed.

Lemma upsert_cross_signing_key_total d u us json now now_ms : db_ok d →
  db_ok (upsert_cross_signing_key d u us json now now_ms).1 ∧ (upsert_cross_signing_key d u us json now now_ms).2 = Ok tt.
Proof. intros Hd. apply logged_transaction_ok, ok_with_cross_keys; [done|]. apply keyed_upsert; [auto with server|]. apply is_cross_key_key. Qed.

Lemma add_signatures_ok d l : db_ok d → db_ok (add_signatures d l).
Proof. revert d. induction l as [|[[[[s t] k] j] a] l IH]; intros d Hd; [done|]. apply IH. auto with server. Qed.

Lemma create_backup_version_ok d u a auth now : db_ok d → db_ok (create_backup_version d u a auth now).1.
Proof.
  intros Hd. pose proof (ok_backup_seq d Hd). apply ok_with_backup_versions; [done|lia|]. apply ordered_app; auto with server.
Qed.

Lemma update_backup_version_auth_data_ok d u v auth : db_ok d → db_ok (update_backup_version_auth_data d u v auth).1.
Proof. intros Hd. apply ok_with_backup_versions; auto with server. Qed.

Lemma delete_backup_version_ok d u v : db_ok d → db_ok (delete_backup_version d u v).1.
Proof. intros Hd. apply ok_with_backup_versions; auto with server. Qed.

Lemma bump_etag_ok d u v : db_ok d → db_ok (bump_etag d u v).
Proof. intros Hd. apply ok_with_backup_versions; auto with server. Qed.

Lemma put_backup_sessions_ok d u v sessions now : db_ok d → db_ok (put_backup_sessions d u v sessions now).1.
Proof.
  intros Hd. apply transaction_ok; [done|]. intros d' []. case_match; [|done]. intros [= <-]. apply bump_etag_ok.
  clear -Hd. revert d Hd. induction sessions as [|[[ro s] data] sessions IH]; intros d Hd; [done|]. apply IH.
  apply ok_with_backup_sessions; [done|]. apply keyed_upsert; [auto with server|]. apply is_session_key.
Qed.

Lemma delete_backup_sessions_ok d u v ro s : db_ok d → db_ok (delete_backup_sessions d u v ro s).1.
Proof. intros Hd. unfold delete_backup_sessions. cbn. case_match; auto 10 using bump_etag_ok with server. Qed.

End Keep.

#[export] Hint Resolve create_device_ok touch_device_ok set_device_display_name_ok add_one_time_keys_ok claim_one_time_key_ok upsert_fallback_key_ok clear_device_one_time_material_ok delete_to_device_up_to_ok add_signatures_ok create_backup_version_ok update_backup_version_auth_data_ok delete_backup_version_ok put_backup_sessions_ok delete_backup_sessions_ok : server.
