(* ===== verification/ServerRequests.v ===== *)
(** * Requests to the key server

    One type for the requests that [ServerKeyRoutes] answers, plus logging in and out, and the
    theorem that none of them breaks the database or runs into an internal error. *)

From S2P Require Import Prelude Sqlite Json ServerDb ServerKeys ServerKeyOps ServerKeyRoutes ServerDbProps.

Local Open Scope Z_scope.

Inductive KeyRequest :=
| RLogin (user_id : Z) (kind : CredentialKind) (credential now device_id : string)
| RLogout (kind : CredentialKind) (credential now : string) (now_ms : Z)
| RTouch (user_id : Z) (device_id now : string)
| RUpload (caller : Caller) (request : KeysUploadRequest) (now : string) (now_ms : Z)
| RQuery (caller : Caller) (requested : gmap string (list string))
| RClaim (caller : Caller) (requested : gmap string (gmap string string))
| RChanges (caller : Caller) (from to : option string)
| RSigning (caller : Caller) (request : DeviceSigningUploadRequest) (now : string) (now_ms : Z)
| RSignatures (caller : Caller) (body : Value) (now : string)
| RSend (federated : bool) (caller : Caller) (event_type txn_id : string) (messages : gmap string (gmap string Value)) (now : string) (now_ms : Z)
| RGetDevice (caller : Caller) (device_id : string)
| RPutDevice (caller : Caller) (device_id : string) (display_name : option string)
| RDeleteDevice (caller : Caller) (device_id now : string) (now_ms : Z)
| RDeleteDevices (caller : Caller) (device_ids : list string) (now : string) (now_ms : Z)
| RPostVersion (caller : Caller) (algorithm : string) (auth_data : Value) (now : string)
| RGetCurrentVersion (caller : Caller)
| RGetVersion (caller : Caller) (version : string)
| RPutVersion (caller : Caller) (version : string) (algorithm : option string) (auth_data : Value)
| RDeleteVersion (caller : Caller) (version : string)
| RGetKeys (caller : Caller) (room_id session_id version : option string)
| RPutKeys (caller : Caller) (room_id session_id version : option string) (body : Value) (now : string)
| RDeleteKeys (caller : Caller) (room_id session_id version : option string)
| RSync (caller : Caller) (since : option string) (full_state : bool) (typing_gen : Z).

Definition error_of {A} (r : result A MatrixError) : option MatrixError := match r with Ok _ => None | Err e => Some e end.

Section Serve.
Context `{ServerJson, SigningCrypto} (is_remote_mxid : string → bool).

(** [query.since.map(parse).transpose()?] and the sync of the device's part *)
Definition sync_keys (d : Db) (caller : Caller) (since : option string) (full_state : bool) (typing_gen : Z) : Db * result SyncKeys MatrixError :=
  try? since := match since with Some raw => result_map Some (parse raw) | None => Ok None end on d in
  let '(d, response) := build_sync_keys d (ca_user_id caller) (ca_device_id caller) (trusted_since d since) full_state typing_gen in
  (d, Ok response).

(** The database after the request, and the error it is answered with, if any. *)
Definition serve (d : Db) (r : KeyRequest) : Db * option MatrixError :=
  match r with
  | RLogin u kind credential now dev => let o := create_device d u kind credential now dev in (o.1, error_of (map_err from_db o.2))
  | RLogout kind credential now now_ms => let o := delete_device_by_credential d kind credential now now_ms in (o.1, error_of (map_err from_db o.2))
  | RTouch u dev now => (touch_device d u dev now, None)
  | RUpload c req now now_ms => let o := keys_upload d c req now now_ms in (o.1.1, error_of o.1.2)
  | RQuery c req => (d, error_of (build_keys_query_response d (ca_user_id c) (ca_mxid c) req))
  | RClaim c req => let o := build_keys_claim_response d (ca_user_id c) req in (o.1, error_of o.2)
  | RChanges c from to => (d, error_of (keys_changes d c from to))
  | RSigning c req now now_ms => let o := device_signing_upload d c req now now_ms in (o.1.1, error_of o.1.2)
  | RSignatures c body now => let o := signatures_upload d c body now in (o.1, error_of o.2)
  | RSend f c t txn messages now now_ms => let o := send_to_device is_remote_mxid d f c t txn messages now now_ms in (o.1.1, error_of o.1.2)
  | RGetDevice c dev => (d, error_of (get_device_route d c dev))
  | RPutDevice c dev name => let o := put_device_route d c dev name in (o.1, error_of o.2)
  | RDeleteDevice c dev now now_ms => let o := delete_device_route d c dev now now_ms in (o.1.1, error_of o.1.2)
  | RDeleteDevices c devs now now_ms => let o := bulk_delete_devices d c devs now now_ms in (o.1.1, error_of o.1.2)
  | RPostVersion c a auth now => let o := post_backup_version d c a auth now in (o.1, error_of o.2)
  | RGetCurrentVersion c => (d, error_of (get_current_backup_version d c))
  | RGetVersion c v => (d, error_of (get_backup_version_route d c v))
  | RPutVersion c v a auth => let o := put_backup_version_route d c v a auth in (o.1, error_of o.2)
  | RDeleteVersion c v => let o := delete_backup_version_route d c v in (o.1, error_of o.2)
  | RGetKeys c ro s v => (d, error_of (get_backup_keys_inner d c ro s v))
  | RPutKeys c ro s v body now => let o := put_backup_keys_inner d c ro s v body now in (o.1, error_of o.2)
  | RDeleteKeys c ro s v => let o := delete_backup_keys_inner d c ro s v in (o.1, error_of o.2)
  | RSync c since full g => let o := sync_keys d c since full g in (o.1, error_of o.2)
  end.

Definition serve_all (d : Db) (rs : list KeyRequest) : Db := foldl (λ d r, (serve d r).1) d rs.

(** ** Answers that are not internal errors *)

(** The answer's error, if any, is the client's. *)
Definition client_error (e : MatrixError) : Prop := 400 ≤ me_status e < 500.
Definition no_internal {A} (r : result A MatrixError) : Prop := ∀ e, r = Err e → client_error e.
(** The database is in order and the answer is no internal error. *)
Definition served {A} (o : Db * result A MatrixError) : Prop := db_ok o.1 ∧ no_internal o.2.

Lemma no_internal_ok {A} (a : A) : no_internal (Ok a).
Proof. done. Qed.
Lemma no_internal_err {A} e : client_error e → no_internal (@Err A _ e).
Proof. by intros He ? [= <-]. Qed.
Lemma no_internal_invalid {A} msg : no_internal (@Err A _ (invalid_param msg)).
Proof. apply no_internal_err. unfold client_error. cbn. lia. Qed.
Lemma no_internal_not_found {A} msg : no_internal (@Err A _ (not_found msg)).
Proof. apply no_internal_err. unfold client_error. cbn. lia. Qed.
Lemma no_internal_bad_json {A} msg : no_internal (@Err A _ (bad_json msg)).
Proof. apply no_internal_err. unfold client_error. cbn. lia. Qed.
Lemma no_internal_wrong_version {A} v : no_internal (@Err A _ (wrong_room_keys_version v)).
Proof. apply no_internal_err. unfold client_error. cbn. lia. Qed.
Lemma no_internal_ok_or {A} (o : option A) msg : no_internal (ok_or o (invalid_param msg)).
Proof. destruct o; [done|]. apply no_internal_invalid. Qed.
Lemma no_internal_ok_or' {A} (o : option A) msg : no_internal (ok_or o (not_found msg)).
Proof. destruct o; [done|]. apply no_internal_not_found. Qed.
Lemma no_internal_read s : no_internal (read_json s).
Proof. unfold read_json. destruct (value_from_str s); [done|]. apply no_internal_bad_json. Qed.
Lemma no_internal_let {A B} (r : result A MatrixError) (k : A → result B MatrixError) :
  no_internal r → (∀ a, r = Ok a → no_internal (k a)) → no_internal (let? a := r in k a).
Proof. intros Hr Hk. destruct r as [a|e]; [by apply Hk|]. by intros ? [= <-]; apply Hr. Qed.
Lemma no_internal_if {A} (b : bool) (x y : result A MatrixError) : no_internal x → no_internal y → no_internal (if b then x else y).
Proof. by destruct b. Qed.
Lemma no_internal_try_fold {A B} (f : A → B → result A MatrixError) a l :
  (∀ a b, no_internal (f a b)) → no_internal (try_fold f a l).
Proof. intros Hf. revert a. induction l as [|x l IH]; intros a; [done|]. cbn. apply no_internal_let; auto. Qed.
Lemma no_internal_try_map {A B} (f : A → result B MatrixError) l : (∀ a, no_internal (f a)) → no_internal (try_map f l).
Proof. intros Hf. induction l as [|x l IH]; [done|]. cbn. apply no_internal_let; [done|]. intros y _. apply no_internal_let; [done|]. done. Qed.

Lemma served_try {A B} d (r : result A MatrixError) (k : A → Db * result B MatrixError) :
  db_ok d → no_internal r → (∀ a, r = Ok a → served (k a)) → served (try? a := r on d in k a).
Proof. intros Hd Hr Hk. destruct r as [a|e]; [by apply Hk|]. split; [done|]. by intros ? [= <-]; apply Hr. Qed.

End Serve.

#[export] Hint Resolve no_internal_ok no_internal_invalid no_internal_not_found no_internal_bad_json no_internal_wrong_version no_internal_ok_or no_internal_ok_or' no_internal_read no_internal_if : server.

(** Follow the [?]s of an answer. *)
Ltac internal_step :=
  match goal with
  | |- no_internal (match ?r with Ok _ => _ | Err _ => _ end) => apply (no_internal_let r)
  | |- served (match ?r with Ok _ => _ | Err _ => _ end) => apply served_try
  | |- no_internal (try_fold _ _ _) => apply no_internal_try_fold
  | |- no_internal (try_map _ _) => apply no_internal_try_map
  | |- no_internal (if _ then _ else _) => apply no_internal_if
  | |- no_internal (match ?x with _ => _ end) => destruct x
  | |- ∀ _, _ => intros ?
  | _ => solve [auto with server]
  end.
Ltac no_internal := repeat internal_step.

Section Served.
Context `{ServerJson, SigningCrypto} (is_remote_mxid : string → bool).
Implicit Types d : Db.

Lemma split_no_internal s : no_internal (split_algorithm_key_id s).
Proof. unfold split_algorithm_key_id, malformed_key_id. no_internal. Qed.
#[local] Hint Resolve split_no_internal : server.

Lemma upload_device_keys_served d u mxid dev v now now_ms : db_ok d → served (upload_device_keys d u mxid dev v now now_ms).
Proof.
  intros Hd. unfold upload_device_keys. apply served_try; [done|unfold check_device_keys_ownership; no_internal|intros _ _].
  apply served_try; [done|unfold decide_device_keys_upload; no_internal|intros action _].
  set (d1 := match action with ActReset => _ | _ => d end). assert (Hd1 : db_ok d1) by (subst d1; destruct action; auto with server).
  match goal with |- context [upsert_device_keys ?e ?f ?g ?h ?i ?j ?k ?l] => destruct (upsert_device_keys_total e f g h i j k l) as [Hok Heq]; [done|]; destruct (upsert_device_keys e f g h i j k l) as [d2 res] end.
  cbn in Hok, Heq. subst res. destruct action; by split.
Qed.

Lemma fallback_loop_served d u dev l now : db_ok d → served (upload_fallback_loop d u dev l now).
Proof.
  revert d. induction l as [|[full_id v] l IH]; intros d Hd; [by split|]. cbn.
  apply served_try; [done|apply split_no_internal|]. intros [a k] _. apply IH. auto with server.
Qed.

Lemma otk_part_served d u dev (o : option (gmap string Value)) : db_ok d →
  served match o with
         | Some keys => try? batch := one_time_batch keys on d in
                        match add_one_time_keys d u dev batch with (d, Ok _) => (d, Ok tt) | (d, Err e) => (d, Err (from_keys_error e)) end
         | None => (d, Ok tt)
         end.
Proof.
  intros Hd. destruct o as [keys|]; [|by split]. apply served_try; [done|unfold one_time_batch; no_internal|].
  intros batch _. pose proof (add_one_time_keys_ok d u dev batch Hd) as Hok.
  destruct (add_one_time_keys d u dev batch) as [d1 [r|e]] eqn:He; split; try done. cbn.
  unfold add_one_time_keys, transaction in He. destruct (add_keys_loop _ _ _ _) as [[? ?]|e'] eqn:Hl; [done|].
  apply add_keys_loop_err in Hl as [k ->]. injection He as _ <-. apply no_internal_invalid.
Qed.

Lemma apply_keys_upload_served d u mxid dev req now now_ms : db_ok d → served (apply_keys_upload d u mxid dev req now now_ms).
Proof.
  intros Hd. unfold apply_keys_upload.
  match goal with |- served (let '(_, _) := ?e in _) => assert (H1 : served e); [|destruct e as [d1 r1]; destruct H1 as [Hd1 Hr1]] end.
  { destruct (ku_device_keys req); [by apply upload_device_keys_served|by split]. }
  apply served_try; [done..|]. intros changed _. pose proof (otk_part_served d1 u dev (ku_one_time_keys req) Hd1) as H2.
  match goal with |- served (let '(_, _) := ?e in _) => destruct e as [d2 r2]; destruct H2 as [Hd2 Hr2] end.
  apply served_try; [done..|]. intros _ _.
  match goal with |- served (let '(_, _) := ?e in _) => assert (H3 : served e); [|destruct e as [d3 r3]; destruct H3 as [Hd3 Hr3]] end.
  { destruct (ku_fallback_keys req); [by apply fallback_loop_served|by split]. }
  apply served_try; [done..|]. intros _ _. by split.
Qed.

Lemma claim_devices_served d u l out : db_ok d → served (claim_devices d u l out).
Proof.
  revert d out. induction l as [|[dev a] l IH]; intros d out Hd; [by split|]. cbn.
  pose proof (claim_one_time_key_ok d u dev a Hd) as Hok. destruct (claim_one_time_key d u dev a) as [d1 [[k j]|]]; [|by apply IH].
  apply served_try; [done|auto with server|]. intros v _. by apply IH.
Qed.

Lemma claim_users_served d visible l out : db_ok d → served (claim_users d visible l out).
Proof.
  revert d out. induction l as [|[mxid per] l IH]; intros d out Hd; [by split|]. cbn.
  destruct (visible_user d visible mxid) as [u|]; [|by apply IH].
  destruct (claim_devices_served d u (entries per) [] Hd) as [Hok Hr].
  destruct (claim_devices d u (entries per) []) as [d1 [[|x out1]|e]]; [by apply IH..|]. by split; [|intros ? [= <-]; apply Hr].
Qed.

Lemma store_cross_key_served d u us key now now_ms wrote : db_ok d → served (store_cross_key d u us key now now_ms wrote).
Proof.
  intros Hd. unfold store_cross_key. destruct key as [key|]; [|by split].
  destruct (upsert_cross_signing_key_total d u us (value_to_string key) now now_ms Hd) as [Hok Heq].
  destruct (upsert_cross_signing_key _ _ _ _ _ _) as [d1 r]. cbn in Heq. subst r. by split.
Qed.

Lemma validate_cross_no_internal v mxid usage : no_internal (validate_cross_signing_key_object v mxid usage).
Proof. unfold validate_cross_signing_key_object. no_internal. Qed.
#[local] Hint Resolve validate_cross_no_internal : server.

Lemma master_verifying_key_no_internal v : no_internal (master_verifying_key v).
Proof. unfold master_verifying_key. no_internal. Qed.
#[local] Hint Resolve master_verifying_key_no_internal : server.

Lemma check_signed_key_no_internal key mxid usage field master : no_internal (check_signed_key key mxid usage field master).
Proof. unfold check_signed_key, verify_signed_by_master. no_internal. Qed.
#[local] Hint Resolve check_signed_key_no_internal : server.

Lemma device_signing_served d u mxid req now now_ms : db_ok d → served (apply_device_signing_upload d u mxid req now now_ms).
Proof.
  intros Hd. unfold apply_device_signing_upload. apply served_try; [done|unfold try_opt; no_internal|intros _ _].
  apply served_try; [done|no_internal|intros master _].
  apply served_try; [done|auto with server|intros _ _]. apply served_try; [done|auto with server|intros _ _].
  destruct (store_cross_key_served d u Master (su_master_key req) now now_ms false Hd) as [Hd1 Hr1]. destruct (store_cross_key _ _ _ _ _ _ _) as [d1 r1].
  apply served_try; [done..|]. intros wrote _.
  destruct (store_cross_key_served d1 u SelfSigning (su_self_signing_key req) now now_ms wrote Hd1) as [Hd2 Hr2].
  destruct (store_cross_key d1 _ _ _ _ _ _) as [d2 r2]. apply served_try; [done..|]. intros wrote2 _. by apply store_cross_key_served.
Qed.

Lemma authorized_no_internal d c t u k : no_internal (signature_target_is_authorized d c t u k).
Proof.
  unfold signature_target_is_authorized, cross_signing_key_names_local_id, master_key_names_local_id. no_internal.
  generalize [Master; SelfSigning; UserSigning]. intros l. induction l as [|us l IH]; [done|]. cbn. case_match; [|done].
  apply no_internal_let; [auto with server|]. intros v _. by apply no_internal_if.
Qed.
#[local] Hint Resolve authorized_no_internal : server.

Lemma sign_targets_served d u c t target l now out : db_ok d → served (sign_targets d u c t target l now out).
Proof.
  revert d out. induction l as [|[k v] l IH]; intros d out Hd; [by split|]. cbn [sign_targets]. destruct target as [tu|]; [|by apply IH].
  apply served_try; [done|auto with server|]. intros [] _; apply IH; auto with server.
Qed.

Lemma sign_users_served d u c l now out : db_ok d → served (sign_users d u c l now out).
Proof.
  revert d out. induction l as [|[t v] l IH]; intros d out Hd; [by split|]. cbn [sign_users]. destruct (as_object v) as [obj|]; [|by apply IH].
  destruct (sign_targets_served d u c t (user_id_of d t) obj now [] Hd) as [Hok Hr].
  destruct (sign_targets d u c t (user_id_of d t) obj now []) as [d1 [[|x out1]|e]]; [by apply IH..|]. by split; [|intros ? [= <-]; apply Hr].
Qed.

Lemma expand_no_internal d u m : no_internal (expand_send_to_device_targets d u m).
Proof. unfold expand_send_to_device_targets, recipient_contents, content_text. no_internal. Qed.

Lemma apply_send_served d u dev t txn m now : db_ok d → served (apply_send_to_device d u dev t txn m now).
Proof.
  intros Hd. unfold apply_send_to_device. destruct (txn_dedup_lookup _ _ _ _); [|by split].
  apply served_try; [done|apply expand_no_internal|]. intros targets _.
  match goal with |- context [enqueue_to_device_deduped ?a ?b ?c ?e ?f ?g] => destruct (enqueue_to_device_deduped_total a b c e f g) as [Hok Hr]; [done|]; destruct (enqueue_to_device_deduped a b c e f g) as [d1 [[]|err]] end; by try split.
Qed.

Lemma delete_devices_served d u l now now_ms any : db_ok d → served (delete_devices_loop d u l now now_ms any).
Proof.
  revert d any. induction l as [|dev l IH]; intros d any Hd; [by split|]. cbn [delete_devices_loop].
  destruct (delete_device_total d u dev now now_ms Hd) as [Hok Heq]. destruct (delete_device d u dev now now_ms) as [d1 r].
  cbn in Heq. subst r. by apply IH.
Qed.

(** A version that is there has a count and an etag. *)
Lemma count_of_exists d u v : exists_row (is_version u v) (db_backup_versions d) = true → no_internal (count_of d u v).
Proof.
  intros He e Hc. unfold count_of, backup_count_and_etag, get_backup_version in Hc. rewrite exists_row_find in He.
  by destruct (find_row _ _).
Qed.

Lemma current_version_row d u row :
  current_backup_version d u = Some row → row ∈ db_backup_versions d ∧ bv_user_id row = u ∧ bv_is_deleted row = false.
Proof.
  intros Hc. unfold current_backup_version, order_by_int in Hc. apply last_Some_elem_of in Hc.
  rewrite merge_sort_Permutation, elem_of_select in Hc. destruct Hc as [Hin Hl]. unfold is_live in Hl. by boolify.
Qed.

Lemma current_version_exists d u v : bv_version <$> current_backup_version d u = Some v → exists_row (is_version u v) (db_backup_versions d) = true.
Proof.
  intros (row & (Hin & Hu & _)%current_version_row & ->)%fmap_Some. apply exists_row_true. exists row.
  split; [done|]. unfold is_version. by rewrite Hu, !Z.eqb_refl.
Qed.

Lemma bump_etag_exists d u v u' v' :
  exists_row (is_version u v) (db_backup_versions d) = true → exists_row (is_version u v) (db_backup_versions (bump_etag d u' v')) = true.
Proof.
  rewrite !exists_row_true. intros (row & Hin & Hr). cbn. unfold update_where. eexists. split; [by apply list_elem_of_fmap_2|].
  by destruct (is_version u' v' row).
Qed.

Lemma put_sessions_versions d u v sessions now :
  db_backup_versions (foldl (λ d '(room_id, session_id, session_data),
     let row := mkBackupSession u v room_id session_id session_data now in
     with_backup_sessions d (upsert (is_session u v room_id session_id) (λ _, row) row (db_backup_sessions d))) d sessions) = db_backup_versions d.
Proof. revert d. induction sessions as [|[[ro s] data] sessions IH]; intros d; [done|]. cbn [foldl]. by rewrite IH. Qed.

Lemma etag_and_count_served d u v : db_ok d → exists_row (is_version u v) (db_backup_versions d) = true → served (etag_and_count d u v).
Proof. intros Hd He. unfold etag_and_count. apply served_try; [done|by apply count_of_exists|]. intros [c e] _. by split. Qed.

Lemma put_backup_keys_served d c ro s v body now : db_ok d → served (put_backup_keys_inner d c ro s v body now).
Proof.
  intros Hd. unfold put_backup_keys_inner, parse_required_version. apply served_try; [done|no_internal|]. intros version _.
  apply served_try; [done|unfold normalize_put_backup_body, sessions_of_room; no_internal|]. intros sessions _.
  pose proof (put_backup_sessions_ok d (ca_user_id c) version sessions now Hd) as Hok. unfold put_backup_sessions in *.
  destruct (bool_decide _) eqn:Hb; cbn in *; [|by split; [|apply no_internal_wrong_version]].
  apply bool_decide_eq_true in Hb. apply etag_and_count_served; [done|].
  apply bump_etag_exists. rewrite put_sessions_versions. by apply current_version_exists.
Qed.

Lemma require_current_ok d u v : is_ok (require_current_backup_version d u v) = true → bv_version <$> current_backup_version d u = Some v.
Proof.
  unfold require_current_backup_version. destruct (current_backup_version d u) as [row|]; [|done].
  destruct (bv_version row =? v) eqn:Hv; [|done]. apply Z.eqb_eq in Hv as <-. done.
Qed.

Lemma require_current_no_internal d u v : no_internal (require_current_backup_version d u v).
Proof. unfold require_current_backup_version. no_internal. Qed.

Lemma delete_backup_keys_served d c ro s v : db_ok d → served (delete_backup_keys_inner d c ro s v).
Proof.
  intros Hd. unfold delete_backup_keys_inner, parse_required_version. apply served_try; [done|no_internal|]. intros version _.
  apply served_try; [done|apply require_current_no_internal|]. intros [] Hr. apply etag_and_count_served; [by apply delete_backup_sessions_ok|].
  assert (He : exists_row (is_version (ca_user_id c) version) (db_backup_versions d) = true) by (apply current_version_exists, require_current_ok; by rewrite Hr).
  unfold delete_backup_sessions. cbn. case_match; [done|]. by apply bump_etag_exists.
Qed.

Lemma read_version_no_internal d u v : no_internal (live_backup_version d u v).
Proof. unfold live_backup_version. no_internal. Qed.

Lemma live_version_exists d u v row : live_backup_version d u v = Ok row → exists_row (is_version u v) (db_backup_versions d) = true.
Proof. unfold live_backup_version, get_backup_version. rewrite exists_row_find. by destruct (find_row _ _). Qed.

Lemma backup_reads_no_internal d c ro s v :
  no_internal (get_current_backup_version d c) ∧ (∀ version, no_internal (get_backup_version_route d c version)) ∧ no_internal (get_backup_keys_inner d c ro s v).
Proof.
  split_and!.
  - unfold get_current_backup_version. apply no_internal_let; [auto with server|]. intros row Hrow. apply no_internal_let.
    + apply count_of_exists, current_version_exists. destruct (current_backup_version _ _); [by injection Hrow as ->|done].
    + intros [count e] _. unfold backup_version_to_response. no_internal.
  - intros version. unfold get_backup_version_route, path_version. apply no_internal_let; [no_internal|]. intros n _.
    apply no_internal_let; [apply read_version_no_internal|]. intros row Hrow%live_version_exists. apply no_internal_let; [by apply count_of_exists|].
    intros [count e] _. unfold backup_version_to_response. no_internal.
  - unfold get_backup_keys_inner, parse_required_version, backup_sessions_to_response. apply no_internal_let; [no_internal|]. intros n _.
    apply no_internal_let; [apply require_current_no_internal|]. intros _ _. no_internal.
Qed.

Lemma query_no_internal d u mxid req : no_internal (build_keys_query_response d u mxid req).
Proof.
  unfold build_keys_query_response, build_keys_query_visible. apply no_internal_let.
  - apply no_internal_try_fold. intros [devices cross] [m ids]. unfold query_user. destruct (visible_user _ _ _); [|done].
    apply no_internal_let; [unfold query_devices, device_keys_json; no_internal|]. intros out _.
    apply no_internal_let; [unfold query_cross_keys|done]. apply no_internal_try_fold. intros [m1 m2] row. no_internal.
  - intros [devices cross] _. no_internal.
Qed.

Lemma send_to_device_served d f c t txn m now now_ms : db_ok d → served (send_to_device is_remote_mxid d f c t txn m now now_ms).1.
Proof.
  intros Hd. unfold send_to_device. destruct (if f then _ else _) as [local remote].
  match goal with |- context [foldl ?g d (entries remote)] => set (step := g) end.
  assert (Hq : db_ok (foldl step d (entries remote))).
  { generalize (entries remote). intros l. clear -Hd. revert d Hd. induction l as [|x l IH]; intros d Hd; [done|]. apply IH. subst step. unfold enqueue_to_device_edu, enqueue. auto with server. }
  destruct (apply_send_served _ (ca_user_id c) (ca_device_id c) t txn local now Hq) as [Hok Hr].
  destruct (apply_send_to_device _ _ _ _ _ _ _) as [d1 [[]|e]]; split; try done. intros ? [= <-]. by apply Hr.
Qed.

Lemma sync_keys_served d c since full g : db_ok d → served (sync_keys d c since full g).
Proof.
  intros Hd. unfold sync_keys. apply served_try; [done| |].
  - destruct since as [raw|]; [|auto with server]. unfold result_map, parse. destruct (match split_once _ _ with Some _ => _ | None => _ end). no_internal.
  - intros token _. unfold build_sync_keys, sync_to_device. destruct (to_device_page _ _ _ _ _). split; [cbn; auto with server|apply no_internal_ok].
Qed.

(** Logging in with a credential or a device id that is taken is the one request that may fail inside. *)
Definition is_login (r : KeyRequest) : bool := match r with RLogin _ _ _ _ _ => true | _ => false end.

Lemma serve_ok d r : db_ok d → db_ok (serve is_remote_mxid d r).1 ∧ (is_login r = false → ∀ e, (serve is_remote_mxid d r).2 = Some e → client_error e).
Proof.
  intros Hd. cut (is_login r = true ∧ db_ok (serve is_remote_mxid d r).1 ∨ db_ok (serve is_remote_mxid d r).1 ∧ ∀ e, (serve is_remote_mxid d r).2 = Some e → client_error e).
  { intros [[Hl Hok]|[Hok He]]; split; auto. by rewrite Hl. }
  assert (Hlift : ∀ A (o : Db * result A MatrixError), served o → db_ok o.1 ∧ ∀ e, error_of o.2 = Some e → client_error e).
  { intros A [d1 [a|e1]] [Hok Hr]; split; try done. cbn. intros e [= <-]. by apply Hr. }
  assert (Hread : ∀ A (a : result A MatrixError), no_internal a → db_ok d ∧ ∀ e, error_of a = Some e → client_error e).
  { intros A a Ha. by apply (Hlift A (d, a)). }
  destruct r; cbn [serve fst snd]; [left; split; [done|by apply create_device_ok]|right..].
  - destruct (delete_device_by_credential_total d kind credential now now_ms Hd) as [Hok ->]. by split.
  - split; [auto with server|done].
  - unfold keys_upload. pose proof (apply_keys_upload_served d (ca_user_id caller) (ca_mxid caller) (ca_device_id caller) request now now_ms Hd) as Hs.
    apply Hlift in Hs. by destruct (apply_keys_upload _ _ _ _ _ _ _) as [d1 [o|e]].
  - apply Hread, query_no_internal.
  - apply Hlift. unfold build_keys_claim_response, build_keys_claim_visible. pose proof (claim_users_served d (peers_sharing_a_room_with d (ca_user_id caller)) (entries requested) [] Hd) as [Hok Hr].
    destruct (claim_users _ _ _ _) as [d1 [o|e]]; split; try done. intros ? [= <-]. by apply Hr.
  - apply Hread. unfold keys_changes. repeat (apply no_internal_let; [first [auto with server; fail|unfold parse; destruct (match split_once _ _ with Some _ => _ | None => _ end); no_internal]|intros ? _]). done.
  - unfold device_signing_upload. pose proof (device_signing_served d (ca_user_id caller) (ca_mxid caller) request now now_ms Hd) as Hs.
    apply Hlift in Hs. by destruct (apply_device_signing_upload _ _ _ _ _ _) as [d1 [o|e]].
  - apply Hlift. unfold signatures_upload, apply_signatures_upload. apply served_try; [done|auto with server|]. intros b _.
    pose proof (sign_users_served d (ca_user_id caller) (ca_mxid caller) b now [] Hd) as [Hok Hr].
    destruct (sign_users _ _ _ _ _ _) as [d1 [o|e]]; split; try done. intros ? [= <-]. by apply Hr.
  - apply Hlift, send_to_device_served, Hd.
  - apply Hread. unfold get_device_route. auto with server.
  - apply Hlift. unfold put_device_route. destruct (set_device_display_name _ _ _ _) as [d1 b] eqn:He.
    apply (f_equal fst) in He. cbn in He. subst d1. split; [by apply (set_device_display_name_ok d)|cbn]. no_internal.
  - unfold delete_device_route. destruct (delete_device_total d (ca_user_id caller) device_id now now_ms Hd) as [Hok Heq].
    destruct (delete_device _ _ _ _ _) as [d1 r]. cbn in Heq. subst r. destruct (exists_row _ _); cbn; split; try done. intros e [= <-]. unfold client_error. cbn. lia.
  - unfold bulk_delete_devices. pose proof (delete_devices_served d (ca_user_id caller) device_ids now now_ms false Hd) as Hs.
    apply Hlift in Hs. by destruct (delete_devices_loop _ _ _ _ _ _) as [d1 [o|e]].
  - apply Hlift. unfold post_backup_version, validate_backup_algorithm. apply served_try; [done|no_internal|]. intros _ _. split; [by apply create_backup_version_ok|done].
  - apply Hread. apply (backup_reads_no_internal d caller None None None).
  - apply Hread. apply (backup_reads_no_internal d caller None None None).
  - apply Hlift. unfold put_backup_version_route, path_version. apply served_try; [done|no_internal|]. intros n _.
    apply served_try; [done|apply read_version_no_internal|]. intros row _. destruct (match algorithm with Some _ => _ | None => _ end); split; try done; [apply no_internal_invalid|by apply update_backup_version_auth_data_ok].
  - apply Hlift. unfold delete_backup_version_route, path_version. apply served_try; [done|no_internal|]. intros n _. split; [by apply delete_backup_version_ok|]. cbn. no_internal.
  - apply Hread. apply (backup_reads_no_internal d caller room_id session_id version).
  - apply Hlift. by apply put_backup_keys_served.
  - apply Hlift. by apply delete_backup_keys_served.
  - apply Hlift. by apply sync_keys_served.
Qed.

End Served.
