(* ===== verification/ServerDelivery.v ===== *)
(** * Delivery of to-device messages

    A device that keeps syncing from the token it was last given, while anyone sends, uploads,
    claims, logs in or out, receives the messages sent to it once each and in order. The inbox of a
    device refines a queue: [sendToDevice] appends, a sync takes a page off the front. *)

From S2P Require Import Prelude Sqlite Json ServerDb ServerKeys ServerKeyOps ServerKeyRoutes ServerDbProps ServerRequests.

Local Open Scope Z_scope.

(** What a client sees of a message. *)
Definition payload (m : ToDeviceMessage) : Z * string * string := (td_sender_user_id m, td_event_type m, td_content m).

Section Delivery.
Context `{ServerJson, SigningCrypto} (is_remote_mxid : string → bool).
Context (u : Z) (dev : string).

Definition inbox (d : Db) : list ToDeviceMessage := select (addressed_to u dev) (db_to_device d).

(** ** The device's side *)

Record Session := mkSession { se_db : Db; se_token : option string; se_received : list ToDeviceMessage }.

Inductive Event := ESync (typing_gen : Z) | ERequest (r : KeyRequest).

(** The token the device holds, as the server reads it. *)
Definition token_of (s : Session) : option SyncToken :=
  raw ← se_token s; match parse raw with Ok t => Some t | Err _ => None end.

Definition device_sync (s : Session) (typing_gen : Z) : Session :=
  let '(d, page, upto) := sync_to_device (se_db s) u dev (trusted_since (se_db s) (token_of s)) in
  mkSession d (Some (format upto typing_gen)) (se_received s ++ page).

Definition event_step (s : Session) (e : Event) : Session :=
  match e with
  | ESync g => device_sync s g
  | ERequest r => mkSession (serve is_remote_mxid (se_db s) r).1 (se_token s) (se_received s)
  end.

Definition run (s : Session) (es : list Event) : Session := foldl event_step s es.

(** ** The queue it refines *)

(** The messages for the device in a list of targets. *)
Definition for_device (sender : Z) (event_type : string) (targets : list (Z * string * string)) : list (Z * string * string) :=
  (λ t, (sender, event_type, t.2)) <$> select (λ t, (t.1.1 =? u) && seqb t.1.2 dev) targets.

(** What a request sends to the device. *)
Definition sends (d : Db) (r : KeyRequest) : list (Z * string * string) :=
  match r with
  | RSend federated c t txn messages _ _ =>
      let local := (if federated then split_by_domain is_remote_mxid messages else (messages, ∅)).1 in
      match txn_dedup_lookup d (ca_user_id c) (ca_device_id c) txn, expand_send_to_device_targets d (ca_user_id c) local with
      | NotSeen, Ok targets => for_device (ca_user_id c) t targets
      | _, _ => []
      end
  | _ => []
  end.

Fixpoint sent_during (s : Session) (es : list Event) : list (Z * string * string) :=
  match es with
  | [] => []
  | e :: es => match e with ERequest r => sends (se_db s) r | ESync _ => [] end ++ sent_during (event_step s e) es
  end.

(** The request does not log the device out, delete it, or sync in its name. *)
Definition spares (d : Db) (r : KeyRequest) : bool :=
  match r with
  | RLogout k c _ _ => match device_for_credential d k c with Some row => negb (is_device u dev row) | None => true end
  | RDeleteDevice c dv _ _ => negb ((ca_user_id c =? u) && seqb dv dev)
  | RDeleteDevices c dvs _ _ => negb ((ca_user_id c =? u) && existsb (λ dv, seqb dv dev) dvs)
  | RSync c _ _ _ => negb ((ca_user_id c =? u) && seqb (ca_device_id c) dev)
  | _ => true
  end.

Fixpoint spared (s : Session) (es : list Event) : bool :=
  match es with
  | [] => true
  | e :: es => match e with ERequest r => spares (se_db s) r | ESync g => (0 <=? g) && (g <? u64_mod) end && spared (event_step s e) es
  end.

(** ** What a request does to the inbox *)

(** [d'] follows [d] with [l] appended to the inbox, under new stream ids. *)
Definition emits (d : Db) (l : list (Z * string * string)) (d' : Db) : Prop :=
  ∃ new, inbox d' = inbox d ++ new ∧ payload <$> new = l ∧ db_stream_counter d ≤ db_stream_counter d' ∧
         Forall (λ m, db_stream_counter d < td_stream_id m) new.

Lemma emits_same d d' : db_to_device d' = db_to_device d → db_stream_counter d ≤ db_stream_counter d' → emits d [] d'.
Proof. intros Ht Hc. exists []. unfold inbox. rewrite Ht, app_nil_r. by repeat split. Qed.

Lemma emits_trans d l1 d1 l2 d2 : emits d l1 d1 → emits d1 l2 d2 → emits d (l1 ++ l2) d2.
Proof.
  intros (n1 & H1 & P1 & C1 & F1) (n2 & H2 & P2 & C2 & F2). exists (n1 ++ n2). rewrite H2, H1, fmap_app, app_assoc. split_and!; [done|by rewrite P1, P2|lia|].
  apply Forall_app. split; [done|]. eapply Forall_impl; [exact F2|]. cbn. lia.
Qed.

Lemma emits_quiet d d1 l d2 : emits d [] d1 → emits d1 l d2 → emits d l d2.
Proof. apply (emits_trans d [] d1 l d2). Qed.

Lemma emits_refl d : emits d [] d.
Proof. apply emits_same; [done|lia]. Qed.

(** Deleting what is addressed to another device. *)
Lemma emits_delete d (p : ToDeviceMessage → bool) : (∀ m, addressed_to u dev m = true → p m = false) → emits d [] (with_to_device d (delete_where p (db_to_device d))).
Proof.
  intros Hp. exists []. rewrite app_nil_r. split_and!; [|done|cbn; lia|done]. unfold inbox, delete_where. cbn. rewrite select_select.
  apply select_ext. intros m _. destruct (addressed_to u dev m) eqn:Ha; [by rewrite Hp|by rewrite andb_false_r].
Qed.

Lemma other_address u' dev' m : (u', dev') ≠ (u, dev) → addressed_to u dev m = true → addressed_to u' dev' m = false.
Proof. intros Hne Ha. apply not_true_iff_false. unfold addressed_to in *. rewrite andb_true_iff, Z.eqb_eq, seqb_true in *. naive_solver. Qed.

(** A transaction that logs a change emits what its body emitted. *)
Lemma emits_logged {A} d d1 user_id now now_ms (a : A) :
  emits d [] d1 → emits d [] (transaction d (let? (d2, _) := log_device_list_change_tx d1 user_id now now_ms in Ok (d2, a))).1.
Proof.
  intros H1. destruct (log_device_list_change_tx d1 user_id now now_ms) as [[d2 n]|e] eqn:Hl; cbn; [|apply emits_refl].
  eapply emits_quiet; [exact H1|]. unfold log_device_list_change_tx, next_stream_id in Hl. cbn in Hl. case_match; [done|]. injection Hl as <- <-.
  match goal with |- context [enqueue_device_list ?a ?b ?c ?e] => destruct (enqueue_list_outbox a b c e) as [x ->] end. apply emits_same; [done|cbn; lia].
Qed.

(** A step that leaves the messages alone. *)
Ltac quiet := solve [apply emits_same; [reflexivity|cbn; lia]].

(** ** The requests *)

Lemma emits_upload d c req now now_ms : emits d [] (keys_upload d c req now now_ms).1.1.
Proof.
  unfold keys_upload. cut (emits d [] (apply_keys_upload d (ca_user_id c) (ca_mxid c) (ca_device_id c) req now now_ms).1).
  { by destruct (apply_keys_upload _ _ _ _ _ _ _) as [d1 [o|e]]. }
  generalize (ca_user_id c) as cu, (ca_mxid c) as mxid, (ca_device_id c) as cd. intros cu mxid cd. unfold apply_keys_upload.
  match goal with |- context [let '(_, _) := ?e in _] => assert (H1 : emits d [] e.1); [|destruct e as [d1 [b|e1]]; [|done]; cbn in H1] end.
  { destruct (ku_device_keys req) as [v|]; [|apply emits_refl]. unfold upload_device_keys.
    destruct (check_device_keys_ownership _ _ _); [|apply emits_refl]. destruct (decide_device_keys_upload _ _) as [action|]; [|apply emits_refl].
    set (d1 := match action with ActReset => _ | _ => d end). assert (Hd1 : emits d [] d1) by (subst d1; destruct action; quiet).
    destruct action; [|apply emits_refl|];
    match goal with |- context [upsert_device_keys ?a ?b ?f ?g ?h ?i ?j ?k] =>
      assert (H1 : emits a [] (upsert_device_keys a b f g h i j k).1) by (apply emits_logged; quiet);
      destruct (upsert_device_keys a b f g h i j k) as [d2 [?|?]] end; (eapply emits_quiet; [exact Hd1|exact H1]). }
  match goal with |- context [let '(_, _) := ?e in _] => assert (H2 : emits d1 [] e.1); [|destruct e as [d2 [[]|e2]]; cbn in H2; [|eapply emits_quiet; [exact H1|exact H2]]] end.
  { destruct (ku_one_time_keys req) as [keys|]; [|apply emits_refl]. destruct (one_time_batch keys) as [batch|]; [|apply emits_refl].
    assert (Ha : emits d1 [] (add_one_time_keys d1 cu cd batch).1); [|by destruct (add_one_time_keys d1 cu cd batch) as [d2 [?|?]]].
    unfold add_one_time_keys. destruct (add_keys_loop _ _ _ _) as [[d2 []]|e] eqn:Hl; [|apply emits_refl]. cbn. clear -Hl. revert d1 Hl.
    induction batch as [|[[k a] j] batch IH]; intros d1; cbn; [intros [= <-]; apply emits_refl|].
    destruct (find_row _ _); [case_match; [apply IH|done]|]. intros Hl%IH. eapply emits_quiet; [|exact Hl]. quiet. }
  match goal with |- context [let '(_, _) := ?e in _] => assert (H3 : emits d2 [] e.1); [|destruct e as [d3 [[]|e3]]; cbn in H3; cbn; eauto using emits_quiet] end.
  destruct (ku_fallback_keys req) as [keys|]; [|apply emits_refl]. generalize (entries keys). clear. intros l. revert d2.
  induction l as [|[k v] l IH]; intros d2; [apply emits_refl|]. cbn. destruct (split_algorithm_key_id k) as [[a ?]|]; [|apply emits_refl].
  eapply emits_quiet; [|apply IH]. quiet.
Qed.

Lemma emits_claim d cu req : emits d [] (build_keys_claim_response d cu req).1.
Proof.
  unfold build_keys_claim_response, build_keys_claim_visible.
  assert (H1 : ∀ l d out tu, emits d [] (claim_devices d tu l out).1).
  { induction l as [|[dv a] l IH]; intros d1 out tu; [apply emits_refl|]. cbn.
    assert (Hc : emits d1 [] (claim_one_time_key d1 tu dv a).1).
    { unfold claim_one_time_key, take_lowest_key. destruct (head _); cbn; [quiet|]. destruct (find_row _ _); quiet. }
    destruct (claim_one_time_key d1 tu dv a) as [d2 [[k j]|]]; [destruct (read_json j); [|done]|]; by eapply emits_quiet; [|apply IH]. }
  generalize (entries req), (peers_sharing_a_room_with d cu), ([] : Map). intros l visible out.
  cut (emits d [] (claim_users d visible l out).1); [by destruct (claim_users _ _ _ _) as [? []]|].
  revert d out. induction l as [|[mxid per] l IH]; intros d out; [apply emits_refl|]. cbn. destruct (visible_user _ _ _) as [tu|]; [|apply IH].
  pose proof (H1 (entries per) d [] tu) as Hc. destruct (claim_devices _ _ _ _) as [d1 [[|x o]|e]]; [..|done]; by eapply emits_quiet; [|apply IH].
Qed.

Lemma emits_cross d cu us key now now_ms wrote : emits d [] (store_cross_key d cu us key now now_ms wrote).1.
Proof.
  unfold store_cross_key. destruct key as [key|]; [|apply emits_refl].
  assert (Hu : emits d [] (upsert_cross_signing_key d cu us (value_to_string key) now now_ms).1) by (apply emits_logged; quiet).
  by destruct (upsert_cross_signing_key _ _ _ _ _ _) as [d1 [?|?]].
Qed.

Lemma emits_signing d c req now now_ms : emits d [] (device_signing_upload d c req now now_ms).1.1.
Proof.
  unfold device_signing_upload. cut (emits d [] (apply_device_signing_upload d (ca_user_id c) (ca_mxid c) req now now_ms).1).
  { by destruct (apply_device_signing_upload _ _ _ _ _ _) as [? []]. }
  unfold apply_device_signing_upload. do 4 (match goal with |- context [match ?r with Ok _ => _ | Err err => (d, Err err) end] => destruct r; [|apply emits_refl] end).
  pose proof (emits_cross d (ca_user_id c) Master (su_master_key req) now now_ms false) as H1. destruct (store_cross_key d _ _ _ _ _ _) as [d1 [w1|e1]]; [|done].
  pose proof (emits_cross d1 (ca_user_id c) SelfSigning (su_self_signing_key req) now now_ms w1) as H2. destruct (store_cross_key d1 _ _ _ _ _ _) as [d2 [w2|e2]]; [|eapply emits_quiet; [exact H1|exact H2]].
  eapply emits_quiet; [exact H1|]. eapply emits_quiet; [exact H2|]. apply emits_cross.
Qed.

Lemma emits_signatures d c body now : emits d [] (signatures_upload d c body now).1.
Proof.
  unfold signatures_upload, apply_signatures_upload. destruct (as_object body) as [b|]; [|apply emits_refl]. cbn [ok_or].
  assert (H1 : ∀ l d out cu cm t target, emits d [] (sign_targets d cu cm t target l now out).1).
  { induction l as [|[k v] l IH]; intros d1 out cu cm t target; [apply emits_refl|]. cbn [sign_targets]. destruct target; [|apply IH].
    destruct (signature_target_is_authorized _ _ _ _ _) as [[]|]; [|apply IH|apply emits_refl]. eapply emits_quiet; [|apply IH]. quiet. }
  cut (emits d [] (sign_users d (ca_user_id c) (ca_mxid c) b now []).1); [by destruct (sign_users _ _ _ _ _ _) as [? []]|].
  generalize ([] : Map). revert d. induction b as [|[t v] b IH]; intros d out; [apply emits_refl|]. cbn [sign_users]. destruct (as_object v) as [obj|]; [|apply IH].
  pose proof (H1 obj d [] (ca_user_id c) (ca_mxid c) t (user_id_of d t)) as Hs. destruct (sign_targets _ _ _ _ _ _ _ _) as [d1 [[|x o]|e]]; [..|done]; by eapply emits_quiet; [|apply IH].
Qed.

Lemma emits_delete_device d u' dev' now now_ms : (u', dev') ≠ (u, dev) → emits d [] (delete_device d u' dev' now now_ms).1.
Proof.
  intros Hne. unfold delete_device. destruct (exists_row _ _); [|quiet]. apply emits_logged.
  eapply emits_quiet; [|apply (emits_delete _ (addressed_to u' dev')); intros m; by apply other_address]. quiet.
Qed.

Lemma emits_logout d k c now now_ms : spares d (RLogout k c now now_ms) = true → emits d [] (delete_device_by_credential d k c now now_ms).1.
Proof.
  unfold spares, delete_device_by_credential, device_for_credential. destruct (find_row _ _) as [row|]; cbn [fmap option_fmap option_map]; intros Hs; [|quiet].
  apply emits_logged. eapply emits_quiet; [|apply (emits_delete _ (addressed_to (dv_user_id row) (dv_device_id row))); intros m; apply other_address; intros [= H1 H2];
    unfold is_device in Hs; by rewrite H1, H2, Z.eqb_refl, seqb_refl in Hs]. quiet.
Qed.

Lemma emits_insert d sender rows last d' n :
  insert_to_device d sender rows last = Ok (d', n) →
  emits d ((λ '(_, _, t, content), (sender, t, content)) <$> select (λ '(ru, rd, _, _), (ru =? u) && seqb rd dev) rows) d' .
Proof.
  revert d last. induction rows as [|[[[ru rd] t] content] rows IH]; intros d last; cbn; [intros [= <- <-]; apply emits_refl|].
  case_match; [done|]. intros Hl%IH. rewrite select_cons.
  match goal with H : emits ?e _ _ |- _ => assert (Hm : emits d (if (ru =? u) && seqb rd dev then [(sender, t, content)] else []) e) end.
  { set (m := mkToDeviceMessage _ _ _ _ _ _). exists (if addressed_to u dev m then [m] else []). unfold inbox. cbn. rewrite select_append. unfold addressed_to. cbn.
    rewrite select_cons. cbn. destruct ((ru =? u) && seqb rd dev); (split_and!; [done|done|lia|repeat constructor; cbn; lia]). }
  destruct ((ru =? u) && seqb rd dev); [apply (emits_trans _ _ _ _ _ Hm Hl)|eapply emits_quiet; [exact Hm|exact Hl]].
Qed.

Lemma rows_for_device sender t targets :
  (λ '(_, _, t, content), (sender, t, content)) <$> select (λ '(ru, rd, _, _), (ru =? u) && seqb rd dev) ((λ '(uid, dv, content), (uid, dv, t, content)) <$> targets)
  = for_device sender t targets.
Proof.
  unfold for_device. induction targets as [|[[ru rd] content] targets IH]; [done|]. rewrite fmap_cons, !select_cons. cbn.
  destruct ((ru =? u) && seqb rd dev); cbn; by rewrite IH.
Qed.

Lemma emits_send d f c t txn m now now_ms :
  db_ok d → emits d (sends d (RSend f c t txn m now now_ms)) (send_to_device is_remote_mxid d f c t txn m now now_ms).1.1.
Proof.
  intros Hd. unfold send_to_device, sends. destruct (if f then _ else _) as [local remote]. cbn [fst].
  match goal with |- context [foldl ?g d (entries remote)] => assert (Ho : ∃ x, foldl g d (entries remote) = with_outbox d x) end.
  { generalize (entries remote). intros l. clear. revert d. induction l as [|x l IH]; intros d; [by exists (db_outbox d); destruct d|].
    cbn [foldl]. destruct (IH (enqueue_to_device_edu d x.1 (ca_mxid c) t (txn +:+ "." +:+ pretty (ca_user_id c) +:+ "." +:+ ca_device_id c +:+ "." +:+ x.1) (users_to_value x.2) now_ms)) as [y ->]. by exists y. }
  destruct Ho as [x ->]. unfold apply_send_to_device.
  change (txn_dedup_lookup (with_outbox d x) (ca_user_id c) (ca_device_id c) txn) with (txn_dedup_lookup d (ca_user_id c) (ca_device_id c) txn).
  change (expand_send_to_device_targets (with_outbox d x) (ca_user_id c) local) with (expand_send_to_device_targets d (ca_user_id c) local).
  destruct (txn_dedup_lookup d (ca_user_id c) (ca_device_id c) txn) eqn:Hn; [|quiet].
  destruct (expand_send_to_device_targets d (ca_user_id c) local) as [targets|]; [|quiet].
  match goal with |- context [enqueue_to_device_deduped ?a ?b ?e ?g ?rows ?h] =>
    assert (He : emits a (for_device (ca_user_id c) t targets) (enqueue_to_device_deduped a b e g rows h).1);
    [|destruct (enqueue_to_device_deduped a b e g rows h) as [d1 [[]|e1]]; exact He] end.
  unfold enqueue_to_device_deduped. change (txn_dedup_lookup (with_outbox d x)) with (txn_dedup_lookup d). rewrite Hn.
  match goal with |- context [insert_to_device ?a ?b ?rows ?n] => destruct (insert_to_device_total a b rows n) as (d1 & k & Hi & Hd1 & Htx); [auto with server|] end.
  rewrite Hi. cbn [fst snd]. destruct (txn_dedup_record_ok d1 (ca_user_id c) (ca_device_id c) txn None now Hd1) as (d2 & Hr & _).
  { unfold txn_dedup_lookup in *. by rewrite Htx. }
  rewrite Hr. apply emits_insert in Hi. rewrite rows_for_device in Hi. unfold txn_dedup_record in Hr. case_match; [done|]. injection Hr as <-.
  rewrite <- (app_nil_r (for_device _ _ _)). eapply emits_trans; [exact Hi|]. quiet.
Qed.

Lemma emits_sync d c since full g : spares d (RSync c since full g) = true → emits d [] (sync_keys d c since full g).1.
Proof.
  intros Hs. unfold sync_keys. match goal with |- context [match ?r with Ok _ => _ | Err _ => _ end] => destruct r end; [|apply emits_refl].
  unfold build_sync_keys, sync_to_device. destruct (to_device_page _ _ _ _ _). cbn. apply emits_delete. intros m Ha.
  rewrite (other_address (ca_user_id c) (ca_device_id c) m); [done| |done]. intros [= H1 H2]. cbn in Hs. by rewrite H1, H2, Z.eqb_refl, seqb_refl in Hs.
Qed.

Lemma emits_delete_devices d c dvs now now_ms : spares d (RDeleteDevices c dvs now now_ms) = true → emits d [] (bulk_delete_devices d c dvs now now_ms).1.1.
Proof.
  cbn [spares]. intros Hs. unfold bulk_delete_devices. cut (emits d [] (delete_devices_loop d (ca_user_id c) dvs now now_ms false).1).
  { by destruct (delete_devices_loop _ _ _ _ _ _) as [? []]. }
  generalize false. revert d. induction dvs as [|dv dvs IH]; intros d any; [apply emits_refl|]. cbn [delete_devices_loop].
  assert (Hdv : (ca_user_id c, dv) ≠ (u, dev)) by (intros [= H1 H2]; cbn in Hs; by rewrite H1, H2, Z.eqb_refl, seqb_refl in Hs).
  pose proof (emits_delete_device d (ca_user_id c) dv now now_ms Hdv) as Hd. destruct (delete_device _ _ _ _ _) as [d1 [b|e]]; [|done].
  eapply emits_quiet; [exact Hd|]. apply IH. cbn in Hs. destruct (ca_user_id c =? u); [|done]. cbn in *. by destruct (seqb dv dev).
Qed.

Lemma emits_backup d c ro s v body now : emits d [] (put_backup_keys_inner d c ro s v body now).1 ∧ emits d [] (delete_backup_keys_inner d c ro s v).1.
Proof.
  assert (He : ∀ d1 n, emits d [] d1 → emits d [] (etag_and_count d1 (ca_user_id c) n).1).
  { intros d1 n H1. unfold etag_and_count. by destruct (count_of _ _ _) as [[? ?]|?]. }
  unfold put_backup_keys_inner, delete_backup_keys_inner. destruct (parse_required_version v) as [n|]; [|split; apply emits_refl]. split.
  - destruct (normalize_put_backup_body ro s body) as [sessions|]; [|apply emits_refl]. unfold put_backup_sessions. destruct (bool_decide _); [|apply emits_refl]. cbn [transaction].
    apply He. match goal with |- context [bump_etag ?e _ _] => apply (emits_quiet d e) end; [|quiet]. clear. revert d. induction sessions as [|[[? ?] ?] sessions IH]; intros d; [apply emits_refl|].
    eapply emits_quiet; [|apply IH]. quiet.
  - destruct (require_current_backup_version _ _ _); [|apply emits_refl]. apply He. unfold delete_backup_sessions. cbn. case_match; quiet.
Qed.

(** Every request that spares the device appends to its inbox what it sends, and nothing else. *)
Lemma serve_emits d r : db_ok d → spares d r = true → emits d (sends d r) (serve is_remote_mxid d r).1.
Proof.
  intros Hd Hs. destruct r; cbn [serve sends fst]; try apply emits_refl.
  - unfold create_device. case_match; quiet.
  - by apply (emits_logout _ _ _ now).
  - quiet.
  - apply emits_upload.
  - apply emits_claim.
  - apply emits_signing.
  - apply emits_signatures.
  - by apply (emits_send d federated caller event_type txn_id messages now now_ms).
  - quiet.
  - unfold delete_device_route. assert (Hne : (ca_user_id caller, device_id) ≠ (u, dev)) by (intros [= H1 H2]; cbn in Hs; by rewrite H1, H2, Z.eqb_refl, seqb_refl in Hs).
    pose proof (emits_delete_device d _ _ now now_ms Hne) as He. by destruct (delete_device _ _ _ _ _) as [? [[]|]].
  - by apply emits_delete_devices.
  - unfold post_backup_version. destruct (validate_backup_algorithm _); [|apply emits_refl]. quiet.
  - unfold put_backup_version_route. destruct (path_version _); [|apply emits_refl]. destruct (live_backup_version _ _ _); [|apply emits_refl]. case_match; quiet.
  - unfold delete_backup_version_route. destruct (path_version _); [|apply emits_refl]. quiet.
  - apply emits_backup.
  - apply (emits_backup d caller room_id session_id version VNull EmptyString).
  - by apply emits_sync.
Qed.

(** ** A sync takes a page off the front *)

(** The position the device has acknowledged. *)
Definition position (s : Session) : Z := match token_of s with Some t => st_stream_id t | None => 0 end.

(** Messages of the device it has not been given. *)
Definition outstanding (s : Session) : list ToDeviceMessage := select (λ m, position s <? td_stream_id m) (inbox (se_db s)).

Record session_ok (s : Session) : Prop := {
  so_db : db_ok (se_db s);
  so_token : ∀ raw, se_token s = Some raw → ∃ t, parse raw = Ok t;
  so_position : 0 ≤ position s ≤ db_stream_counter (se_db s) }.

Lemma inbox_ordered d : db_ok d → ordered td_stream_id (db_stream_counter d) (inbox d).
Proof. intros Hd. eapply ordered_sublist; [apply select_sublist|]. auto with server. Qed.

Lemma outstanding_ordered s : session_ok s → ordered td_stream_id (db_stream_counter (se_db s)) (outstanding s).
Proof. intros [Hd _ _]. eapply ordered_sublist; [apply select_sublist|]. by apply inbox_ordered. Qed.

(** Acknowledging a position removes nothing beyond it. *)
Lemma inbox_after_ack d n k : n ≤ k →
  select (λ m, k <? td_stream_id m) (inbox (delete_to_device_up_to d u dev n)) = select (λ m, k <? td_stream_id m) (inbox d).
Proof.
  intros Hn. unfold inbox, delete_to_device_up_to, delete_where. cbn. rewrite !select_select. apply select_ext. intros m _.
  destruct (addressed_to u dev m); [|by rewrite andb_false_r]. cbn. destruct (td_stream_id m <=? n) eqn:H1, (k <? td_stream_id m) eqn:H2; try done. boolify. lia.
Qed.

Lemma to_device_for_inbox d n limit : db_ok d →
  to_device_for d u dev n limit = take (Z.to_nat limit) (select (λ m, n <? td_stream_id m) (inbox d)).
Proof.
  intros Hd. unfold to_device_for. unfold inbox. rewrite select_select. f_equal. eapply ordered_order_by.
  eapply ordered_sublist; [apply select_sublist|]. auto with server.
Qed.

(** Cutting an ordered list at one of its ids. *)
Lemma cut_ordered b n (l : list ToDeviceMessage) m : ordered td_stream_id b l → last (take n l) = Some m →
  select (λ x, td_stream_id m <? td_stream_id x) l = drop n l.
Proof.
  intros [Hs _] (l1 & Hl)%last_Some. rewrite <- (take_drop n l) in Hs |- * at 1. rewrite Hl in *. rewrite !fmap_app in Hs.
  apply StronglySorted_app in Hs as (Hx & Hs1 & _). apply StronglySorted_app in Hs1 as (Hy & _).
  rewrite !select_append, (select_nothing _ l1), (select_nothing _ [m]), (select_every _ (drop n l)); [done|..].
  - intros r Hr. apply Z.ltb_lt. apply Hx; [|by apply list_elem_of_fmap_2]. apply elem_of_app. right. by left.
  - intros r ->%list_elem_of_singleton. apply Z.ltb_ge. lia.
  - intros r Hr. apply Z.ltb_ge. cut (td_stream_id r < td_stream_id m); [lia|]. apply Hy; [by apply list_elem_of_fmap_2|by left].
Qed.

Lemma trusted_position s : session_ok s → trusted_since (se_db s) (token_of s) = token_of s.
Proof.
  intros [_ _ Hp]. unfold trusted_since, position, max_stream_id in *. destruct (token_of s) as [t|]; [|done].
  replace (db_stream_counter (se_db s) <? st_stream_id t) with false; [done|]. symmetry. apply Z.ltb_ge. lia.
Qed.

(** The session after a sync that acknowledged its position and was told [p]. *)
Lemma synced s g p page :
  session_ok s → 0 ≤ g < u64_mod → position s ≤ p ≤ db_stream_counter (se_db s) → p ≤ i64_max →
  let s' := mkSession (delete_to_device_up_to (se_db s) u dev (position s)) (Some (format p g)) page in
  session_ok s' ∧ outstanding s' = select (λ m, p <? td_stream_id m) (outstanding s).
Proof.
  intros Hs Hg Hp Hmax. destruct (so_position s Hs) as [Hp0 _]. pose proof (so_db s Hs) as Hd. cbn zeta. set (s' := mkSession _ _ _).
  assert (Hpos : position s' = p) by (unfold position, token_of; cbn; by rewrite parse_format by lia). split.
  - split; [cbn; auto with server|intros raw [= <-]; rewrite parse_format by lia; eauto|]. rewrite Hpos. cbn. lia.
  - unfold outstanding at 1. rewrite Hpos. cbn [se_db s']. rewrite inbox_after_ack by lia. unfold outstanding. rewrite select_select. apply select_ext.
    intros m _. destruct (p <? td_stream_id m) eqn:Hm; [|by rewrite andb_false_r]. boolify. by replace (position s <? td_stream_id m) with true by (symmetry; apply Z.ltb_lt; lia).
Qed.

Lemma outstanding_bounds s m : session_ok s → m ∈ outstanding s → position s < td_stream_id m ≤ db_stream_counter (se_db s).
Proof.
  intros Hs Hin. destruct (outstanding_ordered s Hs) as [_ Ha]. rewrite Forall_forall in Ha. specialize (Ha m Hin).
  apply elem_of_select in Hin as [_ Hin]. boolify. lia.
Qed.

(** The page, and what is left after it. *)
Lemma device_sync_spec s g :
  session_ok s → db_stream_counter (se_db s) ≤ i64_max → 0 ≤ g < u64_mod →
  let s' := device_sync s g in
  let cap := Z.to_nat SYNC_TO_DEVICE_CAP in
  session_ok s' ∧ se_received s' = se_received s ++ take cap (outstanding s) ∧ outstanding s' = drop cap (outstanding s).
Proof.
  intros Hs Hc Hg. cbn zeta. destruct (so_position s Hs) as [Hp0 Hp1]. pose proof (so_db s Hs) as Hd.
  unfold device_sync. rewrite trusted_position by done. unfold sync_to_device.
  change (match token_of s with Some t => st_stream_id t | None => 0 end) with (position s). unfold to_device_page.
  rewrite to_device_for_inbox, inbox_after_ack by first [lia|auto with server]. fold (outstanding s).
  destruct (SYNC_TO_DEVICE_CAP <? Z.of_nat (length (take (Z.to_nat (SYNC_TO_DEVICE_CAP + 1)) (outstanding s)))) eqn:Hcap;
    [apply Z.ltb_lt in Hcap|apply Z.ltb_ge in Hcap]; rewrite length_take in Hcap; unfold SYNC_TO_DEVICE_CAP in *.
  - rewrite take_take, Nat.min_l by lia. destruct (last (take (Z.to_nat 100) (outstanding s))) as [m|] eqn:Hlast.
    2: { apply last_None, (f_equal length) in Hlast. rewrite length_take in Hlast. cbn in Hlast. lia. }
    assert (Hin : m ∈ outstanding s).
    { apply last_Some_elem_of in Hlast. rewrite <- (take_drop (Z.to_nat 100) (outstanding s)). apply elem_of_app. by left. }
    apply outstanding_bounds in Hin; [|done]. destruct (synced s g (td_stream_id m) (se_received s ++ take (Z.to_nat 100) (outstanding s))) as [Hok Hout]; [done|done|lia|lia|].
    split_and!; [done..|]. rewrite Hout. eapply cut_ordered; [by apply outstanding_ordered|done].
  - rewrite !take_ge, drop_ge by lia.
    destruct (synced s g (max_stream_id (se_db s)) (se_received s ++ outstanding s)) as [Hok Hout]; [done|done|unfold max_stream_id; lia|unfold max_stream_id; lia|].
    split_and!; [done..|]. rewrite Hout. apply select_nothing. intros m Hin%outstanding_bounds; [|done]. apply Z.ltb_ge. unfold max_stream_id. lia.
Qed.

(** ** Runs *)

(** A request of someone else. *)
Lemma request_spec s r : session_ok s → spares (se_db s) r = true →
  let s' := event_step s (ERequest r) in
  session_ok s' ∧ se_received s' = se_received s ∧ payload <$> outstanding s' = (payload <$> outstanding s) ++ sends (se_db s) r ∧
  db_stream_counter (se_db s) ≤ db_stream_counter (se_db s').
Proof.
  intros Hs Hsp. destruct (so_position s Hs) as [Hp0 Hp1]. destruct (serve_emits _ _ (so_db s Hs) Hsp) as (new & Hin & Hpay & Hc & Hnew). cbn.
  split_and!; [|done| |done].
  - destruct Hs as [Hd Ht Hp]. split; cbn; [by apply (serve_ok is_remote_mxid)|done|]. change (position (mkSession _ (se_token s) (se_received s))) with (position s). lia.
  - unfold outstanding. cbn [se_db]. change (position (mkSession _ (se_token s) (se_received s))) with (position s).
    rewrite Hin, select_append, fmap_app. f_equal. rewrite <- Hpay. f_equal. apply select_every. intros m Hm. rewrite Forall_forall in Hnew. specialize (Hnew m Hm). apply Z.ltb_lt. lia.
Qed.

Lemma run_counter s es : db_ok (se_db s) → spared s es = true → db_stream_counter (se_db s) ≤ db_stream_counter (se_db (run s es)).
Proof.
  revert s. induction es as [|e es IH]; intros s Hd Hsp; [cbn; lia|]. cbn [spared] in Hsp. change (run s (e :: es)) with (run (event_step s e) es). apply andb_true_iff in Hsp as [He Hsp].
  assert (Hstep : db_ok (se_db (event_step s e)) ∧ db_stream_counter (se_db s) ≤ db_stream_counter (se_db (event_step s e))).
  { destruct e as [g|r]; cbn.
    - unfold device_sync, sync_to_device. destruct (to_device_page _ _ _ _ _). cbn. split; [auto with server|lia].
    - destruct (serve_emits _ _ Hd He) as (new & _ & _ & Hc & _). split; [by apply (serve_ok is_remote_mxid)|done]. }
  destruct Hstep as [Hd1 Hc1]. etrans; [exact Hc1|]. by apply IH.
Qed.

(** Received and outstanding together are what was there and what was sent. *)
Lemma run_spec s es : session_ok s → spared s es = true → db_stream_counter (se_db (run s es)) ≤ i64_max →
  session_ok (run s es) ∧
  payload <$> (se_received (run s es) ++ outstanding (run s es)) = (payload <$> (se_received s ++ outstanding s)) ++ sent_during s es.
Proof.
  revert s. induction es as [|e es IH]; intros s Hs Hsp Hc; [by rewrite app_nil_r|].
  pose proof (run_counter s (e :: es) (so_db s Hs) Hsp) as Hc0. cbn [spared] in Hsp. cbn [sent_during].
  change (run s (e :: es)) with (run (event_step s e) es) in *. apply andb_true_iff in Hsp as [He Hsp].
  assert (Hstep : session_ok (event_step s e) ∧ payload <$> (se_received (event_step s e) ++ outstanding (event_step s e)) =
    (payload <$> (se_received s ++ outstanding s)) ++ match e with ERequest r => sends (se_db s) r | ESync _ => [] end).
  { destruct e as [g|r].
    - boolify. destruct (device_sync_spec s g Hs) as (Hok & Hr & Ho); [lia|lia|]. split; [done|]. cbn. by rewrite Hr, Ho, <- app_assoc, take_drop, app_nil_r.
    - destruct (request_spec s r Hs He) as (Hok & Hr & Ho & _). split; [done|]. by rewrite Hr, !fmap_app, Ho, app_assoc. }
  destruct Hstep as [Hs1 Heq]. destruct (IH _ Hs1 Hsp Hc) as [Hok Hrun]. split; [done|]. by rewrite Hrun, Heq, app_assoc.
Qed.

(** A device that has not synced yet. *)
Definition new_session (d : Db) : Session := mkSession d None [].

Lemma new_session_ok d : db_ok d → session_ok (new_session d).
Proof. intros Hd. split; [done|done|]. pose proof (ok_counter d Hd). cbn. lia. Qed.

Lemma new_session_outstanding d : db_ok d → outstanding (new_session d) = inbox d.
Proof. intros Hd. apply select_every. intros m Hm. destruct (inbox_ordered d Hd) as [_ Ha]. rewrite Forall_forall in Ha. specialize (Ha m Hm). apply Z.ltb_lt. cbn. lia. Qed.

(** [k] syncs in a row empty an inbox of at most [k] pages. *)
Lemma drained s g k : session_ok s → db_stream_counter (se_db s) ≤ i64_max → 0 ≤ g < u64_mod →
  (length (outstanding s) ≤ k * Z.to_nat SYNC_TO_DEVICE_CAP)%nat → outstanding (run s (replicate k (ESync g))) = [].
Proof.
  revert s. induction k as [|k IH]; intros s Hs Hc Hg Hlen; [by apply length_zero_iff_nil; cbn in *; lia|].
  cbn. destruct (device_sync_spec s g Hs Hc Hg) as (Hok & Hr & Ho). apply IH; [done| |done|rewrite Ho, length_drop; lia].
  unfold device_sync, sync_to_device. by destruct (to_device_page _ _ _ _ _).
Qed.

(** C3: a device that keeps syncing from its last token receives what is sent to it once each, in
    order, whatever other requests come in between: at any moment what it has received, followed by
    what is still outstanding, is what was in its inbox and then what [sendToDevice] requests have
    sent it since; only its own removal or a sync in its name is excluded. *)
Theorem delivered_once_in_order d es :
  db_ok d → spared (new_session d) es = true → db_stream_counter (se_db (run (new_session d) es)) ≤ i64_max →
  let s := run (new_session d) es in
  payload <$> (se_received s ++ outstanding s) = (payload <$> inbox d) ++ sent_during (new_session d) es.
Proof.
  intros Hd Hsp Hc. cbn zeta. destruct (run_spec _ es (new_session_ok d Hd) Hsp Hc) as [_ ->]. by rewrite new_session_outstanding.
Qed.

(** Nothing stays behind: after any history, as many syncs as there are pages of a hundred
    messages outstanding bring everything that was ever sent to the device. *)
Theorem every_message_is_delivered d es g k :
  db_ok d → spared (new_session d) es = true → db_stream_counter (se_db (run (new_session d) es)) ≤ i64_max → 0 ≤ g < u64_mod →
  let s := run (new_session d) es in
  (length (outstanding s) ≤ k * Z.to_nat SYNC_TO_DEVICE_CAP)%nat →
  payload <$> se_received (run s (replicate k (ESync g))) = (payload <$> inbox d) ++ sent_during (new_session d) es.
Proof.
  intros Hd Hsp Hc Hg s Hlen. destruct (run_spec _ es (new_session_ok d Hd) Hsp Hc) as [Hs Heq]. fold s in Hs, Heq, Hc.
  assert (Hsyncs : ∀ s, spared s (replicate k (ESync g)) = true ∧ sent_during s (replicate k (ESync g)) = [] ∧ db_stream_counter (se_db (run s (replicate k (ESync g)))) = db_stream_counter (se_db s)).
  { clear -Hg. induction k as [|k IH]; intros s; [done|]. cbn [replicate spared sent_during event_step]. change (run s (ESync g :: replicate k (ESync g))) with (run (device_sync s g) (replicate k (ESync g))). destruct (IH (device_sync s g)) as (-> & -> & ->). split_and!; [|done|].
    - replace (0 <=? g) with true by (symmetry; apply Z.leb_le; lia). by replace (g <? u64_mod) with true by (symmetry; apply Z.ltb_lt; lia).
    - unfold device_sync, sync_to_device. by destruct (to_device_page _ _ _ _ _). }
  destruct (Hsyncs s) as (Hsp2 & Hsent & Hcnt). destruct (run_spec s _ Hs Hsp2 ltac:(lia)) as [_ Hrun].
  rewrite drained, app_nil_r, Hsent, app_nil_r in Hrun by done. rewrite Hrun, Heq. by rewrite new_session_outstanding.
Qed.

End Delivery.
