(* ===== verification/ServerTrustProps.v ===== *)
(** * Who gets what: strangers, deleted devices, cross-signing and backups

    Keys are shown to, claimed by and messages sent to users that share a room only; a repeated
    send does nothing; a deleted device leaves nothing; cross-signing keys are verified; a backup
    reads back and a stale one is refused. One-time keys are neither lost nor handed out twice, and
    a changed key reaches every peer. *)

From S2P Require Import Prelude Sqlite Json ServerDb ServerKeys ServerKeyOps ServerKeyRoutes ServerDbProps ServerRequests.

Local Open Scope Z_scope.

Section Trust.
Context `{ServerJson, SigningCrypto} (is_remote_mxid : string → bool).
Implicit Types d : Db.

(** ** Strangers *)

(** Two databases the caller cannot tell apart: the same peers, and the same keys of theirs. *)
Record same_view (caller : Z) (d1 d2 : Db) : Prop := {
  sv_peers : peers_sharing_a_room_with d1 caller = peers_sharing_a_room_with d2 caller;
  sv_users mxid : visible_user d1 (peers_sharing_a_room_with d1 caller) mxid = visible_user d2 (peers_sharing_a_room_with d1 caller) mxid;
  sv_devices u : u ∈ peers_sharing_a_room_with d1 caller → device_keys_for d1 [u] = device_keys_for d2 [u];
  sv_cross u : u ∈ peers_sharing_a_room_with d1 caller → cross_signing_keys_for d1 [u] = cross_signing_keys_for d2 [u];
  sv_own : cross_signing_key_for d1 caller UserSigning = cross_signing_key_for d2 caller UserSigning }.

Lemma try_fold_ext {A B E} (f g : A → B → result A E) a l : (∀ a x, x ∈ l → f a x = g a x) → try_fold f a l = try_fold g a l.
Proof.
  revert a. induction l as [|x l IH]; intros a Hfg; [done|]. cbn. rewrite Hfg by left. destruct (g a x); [|done]. apply IH.
  intros a' y Hy. apply Hfg. by right.
Qed.

Lemma visible_user_Some d V mxid u : visible_user d V mxid = Some u → u ∈ V.
Proof. unfold visible_user. destruct (user_id_of d mxid); [|done]. cbn. case_match eqn:Hb; [|done]. intros [= ->]. by apply bool_decide_eq_true in Hb. Qed.

(** A key query tells nothing about users the caller shares no room with: databases that agree
    on the caller's peers and on the peers' keys get the same answer, whatever else they hold, so
    an account the caller may not see looks exactly like one that does not exist. *)
Theorem queries_reveal_peers_only caller mxid d1 d2 requested :
  same_view caller d1 d2 → build_keys_query_response d1 caller mxid requested = build_keys_query_response d2 caller mxid requested.
Proof.
  intros [Hp Hu Hdev Hcr Hown]. unfold build_keys_query_response, build_keys_query_visible. rewrite <- Hp, <- Hown.
  rewrite (try_fold_ext (query_user d1 _) (query_user d2 (peers_sharing_a_room_with d1 caller))); [done|].
  intros [devices cross] [m ids] _. unfold query_user. rewrite <- Hu. destruct (visible_user d1 _ m) as [u|] eqn:Hv; [|done].
  apply visible_user_Some in Hv. unfold query_devices, query_cross_keys. by rewrite <- Hdev, <- Hcr.
Qed.

(** The rows of the users outside [V] are as before. *)
Definition strangers_kept (V : gset Z) d d' : Prop :=
  (∀ r, ok_user_id r ∉ V → r ∈ db_one_time_keys d' ↔ r ∈ db_one_time_keys d) ∧
  (∀ r, fr_user_id r ∉ V → r ∈ db_fallback_keys d' ↔ r ∈ db_fallback_keys d) ∧ db_users d' = db_users d.

Lemma strangers_kept_refl V d : strangers_kept V d d.
Proof. by split_and!. Qed.
Lemma strangers_kept_trans V d1 d2 d3 : strangers_kept V d1 d2 → strangers_kept V d2 d3 → strangers_kept V d1 d3.
Proof. intros (A1 & B1 & C1) (A2 & B2 & C2). split_and!; [intros r Hr; by rewrite A2, A1|intros r Hr; by rewrite B2, B1|congruence]. Qed.

Lemma claim_keeps_strangers V d u dev a : u ∈ V → strangers_kept V d (claim_one_time_key d u dev a).1.
Proof.
  intros Hu. unfold claim_one_time_key, take_lowest_key. destruct (head _) as [low|]; cbn.
  - split_and!; [|done..]. intros r Hr. cbn. rewrite elem_of_delete_where. split; [naive_solver|]. intros Hin. split; [done|].
    apply not_true_iff_false. intros Hp. apply andb_true_iff in Hp as [Hp _]. unfold otk_of_algorithm, otk_of_device in Hp. boolify. congruence.
  - destruct (find_row _ _) as [f|]; [|by apply strangers_kept_refl]. split_and!; [done| |done]. intros r Hr. cbn. unfold update_where. rewrite list_elem_of_fmap.
    assert (Hno : ∀ x, is_fallback u dev a x = true → fr_user_id x = u) by (intros x Hx; unfold is_fallback, fallback_of_device in Hx; boolify; done).
    split.
    + intros (x & -> & Hx). destruct (is_fallback u dev a x) eqn:Hf; [|done]. apply Hno in Hf. cbn in Hr. congruence.
    + intros Hin. exists r. split; [|done]. destruct (is_fallback u dev a r) eqn:Hf; [|done]. apply Hno in Hf. congruence.
Qed.

Lemma claim_devices_keeps_strangers V d u l out : u ∈ V → strangers_kept V d (claim_devices d u l out).1.
Proof.
  intros Hu. revert d out. induction l as [|[dev a] l IH]; intros d out; [apply strangers_kept_refl|]. cbn [claim_devices].
  pose proof (claim_keeps_strangers V d u dev a Hu) as Hk. destruct (claim_one_time_key d u dev a) as [d1 [[k j]|]]; [destruct (read_json j); [|done]|];
    (eapply strangers_kept_trans; [exact Hk|apply IH]).
Qed.

(** A claim takes nothing from users the caller shares no room with: their one-time keys all
    stay and their fallback keys stay as they are, whatever the request names. *)
Theorem claims_take_from_peers_only d caller requested :
  strangers_kept (peers_sharing_a_room_with d caller) d (build_keys_claim_response d caller requested).1.
Proof.
  unfold build_keys_claim_response, build_keys_claim_visible. set (V := peers_sharing_a_room_with d caller).
  cut (∀ l d out, strangers_kept V d (claim_users d V l out).1); [intros Hl; specialize (Hl (entries requested) d []); by destruct (claim_users _ _ _ _) as [? []]|].
  clearbody V. clear. intros l. induction l as [|[mxid per] l IH]; intros d out; [apply strangers_kept_refl|]. cbn [claim_users].
  destruct (visible_user d V mxid) as [u|] eqn:Hv; [|apply IH]. apply visible_user_Some in Hv.
  pose proof (claim_devices_keeps_strangers V d u (entries per) [] Hv) as Hk. destruct (claim_devices _ _ _ _) as [d1 [[|x o]|e]]; [..|done]; (eapply strangers_kept_trans; [exact Hk|apply IH]).
Qed.

(** An invariant of a loop holds of its result. *)
Lemma try_fold_inv {A B E} (P : A → Prop) (f : A → B → result A E) a l r :
  P a → (∀ a x a', P a → f a x = Ok a' → P a') → try_fold f a l = Ok r → P r.
Proof.
  intros Ha Hf. revert a Ha. induction l as [|x l IH]; intros a Ha; cbn; [by intros [= <-]|].
  destruct (f a x) as [a'|] eqn:He; [|done]. apply IH. by eapply Hf.
Qed.

Lemma content_text_size v c : content_text v = Ok c → slen c ≤ SEND_TO_DEVICE_MAX_CONTENT_BYTES.
Proof. unfold content_text. case_match eqn:Hb; [done|]. intros [= <-]. by boolify. Qed.

Definition sized (m : gmap string string) : Prop := ∀ dev c, m !! dev = Some c → slen c ≤ SEND_TO_DEVICE_MAX_CONTENT_BYTES.

Lemma sized_insert m dev c : sized m → slen c ≤ SEND_TO_DEVICE_MAX_CONTENT_BYTES → sized (<[dev := c]> m).
Proof. intros Hm Hc dev' c' [[_ <-]|[_ ?]]%lookup_insert_Some; eauto. Qed.

Lemma recipient_contents_size d u per m : recipient_contents d u per = Ok m → sized m.
Proof.
  unfold recipient_contents. intros Hm. match type of Hm with (match ?e with Ok _ => _ | Err _ => _ end) = _ => destruct e as [m0|] eqn:Hw; [|done] end.
  assert (Hm0 : sized m0).
  { destruct (per !! "*") as [w|]; [|injection Hw as <-; by intros ?? ?%lookup_empty_Some]. destruct (content_text w) as [c|] eqn:Hc; [|done]. injection Hw as <-.
    apply content_text_size in Hc. assert (Hall : ∀ l m, sized m → sized (foldl (λ m device, <[dv_device_id device := c]> m) m l)) by (induction l; intros; cbn; auto using sized_insert).
    apply Hall. by intros ?? ?%lookup_empty_Some. }
  revert Hm. apply try_fold_inv; [done|]. intros a [k v] a' Ha. cbn. destruct (seqb k "*"); [by intros [= <-]|]. destruct (content_text v) as [c|] eqn:Hc; [|done].
  intros [= <-]. apply content_text_size in Hc. by apply sized_insert.
Qed.

(** Messages go only to users the sender shares a room with, at most a thousand of them a call,
    none longer than 64 KiB. *)
Theorem messages_go_to_peers_only d sender messages targets :
  expand_send_to_device_targets d sender messages = Ok targets →
  (length targets ≤ SEND_TO_DEVICE_MAX_TARGETS)%nat ∧
  Forall (λ '(u, dev, content), u ∈ peers_sharing_a_room_with d sender ∧ slen content ≤ SEND_TO_DEVICE_MAX_CONTENT_BYTES) targets.
Proof.
  unfold expand_send_to_device_targets. match goal with |- context [try_fold ?f [] ?l] => destruct (try_fold f [] l) as [ts|] eqn:Hf; [|done] end.
  case_bool_decide as Hlen; [done|]. intros [= <-]. split; [lia|]. revert Hf. apply try_fold_inv; [constructor|]. intros acc [mxid per] acc' Hacc. cbn.
  destruct (visible_user _ _ _) as [u|] eqn:Hv; [|by intros [= <-]]. apply visible_user_Some in Hv.
  destruct (recipient_contents d u per) as [m|] eqn:Hr; [|done]. intros [= <-]. apply recipient_contents_size in Hr. apply Forall_app. split; [done|].
  apply Forall_fmap, Forall_forall. intros [dev c] Hin%elem_of_map_to_list. cbn. split; [done|]. by apply Hr in Hin.
Qed.

(** ** Sending twice *)

(** Repeating a [sendToDevice] transaction does nothing: it is answered alike, delivers nothing
    again and wakes nobody. *)
Theorem repeated_send_is_a_no_op d caller event_type txn_id messages now now_ms now' now_ms' :
  db_ok d → (send_to_device is_remote_mxid d false caller event_type txn_id messages now now_ms).1.2 = Ok tt →
  let d' := (send_to_device is_remote_mxid d false caller event_type txn_id messages now now_ms).1.1 in
  send_to_device is_remote_mxid d' false caller event_type txn_id messages now' now_ms' = (d', Ok tt, ∅).
Proof.
  intros Hd. unfold send_to_device. cbn [foldl entries]. change (entries ∅) with (@nil (string * gmap string (gmap string Value))). cbn [foldl].
  set (u := ca_user_id caller). set (dev := ca_device_id caller).
  cut (is_ok (apply_send_to_device d u dev event_type txn_id messages now).2 = true →
       let d' := (apply_send_to_device d u dev event_type txn_id messages now).1 in txn_dedup_lookup d' u dev txn_id ≠ NotSeen).
  { destruct (apply_send_to_device d u dev event_type txn_id messages now) as [d' [[]|]]; cbn; intros Hseen Hok; try done; unfold apply_send_to_device;
    (destruct (txn_dedup_lookup d' u dev txn_id); [by destruct Hseen|done]). }
  unfold apply_send_to_device. destruct (txn_dedup_lookup d u dev txn_id) eqn:Hn; cbn; [|by rewrite Hn].
  destruct (expand_send_to_device_targets d u messages) as [targets|]; [|done]. unfold enqueue_to_device_deduped. rewrite Hn.
  match goal with |- context [insert_to_device ?a ?b ?rows ?n] => destruct (insert_to_device_total a b rows n Hd) as (d1 & k & Hi & Hd1 & Htx); rewrite Hi end.
  cbn [fst snd]. destruct (txn_dedup_record d1 u dev txn_id None now) as [d2|] eqn:Hr; cbn; [|done]. intros _.
  unfold txn_dedup_record in Hr. case_match; [done|]. injection Hr as <-. unfold txn_dedup_lookup. cbn.
  destruct (find_row _ _) eqn:Hf; [done|]. pose proof (find_row_None _ _ (mkTxnRow u dev txn_id None now) Hf ltac:(apply elem_of_app; right; by left)) as Hfalse.
  unfold txn_is in Hfalse. cbn in Hfalse. by rewrite Z.eqb_refl, !seqb_refl in Hfalse.
Qed.

(** ** Deleting a device *)

(** Nothing in the table is of the device. *)
Definition gone {A} (p : A → bool) (t : list A) : Prop := exists_row p t = false.
(** The rows of other devices are untouched. *)
Definition others_kept {A} (p : A → bool) (t t' : list A) : Prop := select (λ r, negb (p r)) t' = select (λ r, negb (p r)) t.

Lemma delete_where_gone {A} (p : A → bool) t : gone p (delete_where p t) ∧ others_kept p t (delete_where p t).
Proof.
  split; [apply exists_row_false; by intros r [_ Hr]%elem_of_delete_where|]. unfold others_kept, delete_where. rewrite select_select. apply select_ext.
  intros r _. by destruct (p r).
Qed.

(** A deleted device leaves nothing behind: neither the device, its keys, its one-time and
    fallback keys nor its undelivered messages remain, nothing of any other device is touched, and
    the user's list is logged as changed under the next stream id. *)
Theorem deleted_device_leaves_nothing d u dev now now_ms :
  db_ok d → exists_row (is_device u dev) (db_devices d) = true →
  let '(d', answer) := delete_device d u dev now now_ms in
  answer = Ok true ∧
  (gone (is_device u dev) (db_devices d') ∧ others_kept (is_device u dev) (db_devices d) (db_devices d')) ∧
  (gone (keys_of_device u dev) (db_device_keys d') ∧ others_kept (keys_of_device u dev) (db_device_keys d) (db_device_keys d')) ∧
  (gone (otk_of_device u dev) (db_one_time_keys d') ∧ others_kept (otk_of_device u dev) (db_one_time_keys d) (db_one_time_keys d')) ∧
  (gone (fallback_of_device u dev) (db_fallback_keys d') ∧ others_kept (fallback_of_device u dev) (db_fallback_keys d) (db_fallback_keys d')) ∧
  (gone (addressed_to u dev) (db_to_device d') ∧ others_kept (addressed_to u dev) (db_to_device d) (db_to_device d')) ∧
  db_changes d' = db_changes d ++ [mkChange (db_stream_counter d + 1) u now].
Proof.
  intros Hd He. unfold delete_device. rewrite He. unfold log_device_list_change_tx, next_stream_id. cbn. rewrite ordered_fresh by auto with server. cbn.
  match goal with |- context [enqueue_device_list ?e ?f ?g ?h] => destruct (enqueue_list_outbox e f g h) as [x ->] end. cbn.
  split_and!; try done; apply delete_where_gone.
Qed.

(** Finding the row of a key after an upsert. *)
Lemma find_upsert_same {A} (p : A → bool) row t : p row = true → find_row p (upsert p (λ _, row) row t) = Some row.
Proof.
  intros Hp. unfold upsert. destruct (exists_row p t) eqn:He.
  - apply exists_row_true in He. induction t as [|x t IH]; [by destruct He as (? & ?%not_elem_of_nil & _)|]. unfold update_where, find_row. cbn.
    destruct (p x) eqn:Hx; [by rewrite Hp|]. rewrite Hx. apply IH. destruct He as (y & [->|Hy]%elem_of_cons & Hpy); [congruence|eauto].
  - rewrite exists_row_false in He. induction t as [|x t IH]; unfold find_row; cbn; [by rewrite Hp|]. rewrite He by left. apply IH. intros r Hr. apply He. by right.
Qed.

Lemma select_upsert_other {A} (p q : A → bool) row t : q row = false → (∀ x, p x = true → q x = false) → select q (upsert p (λ _, row) row t) = select q t.
Proof.
  intros Hq Hpq. unfold upsert. destruct (exists_row p t).
  - unfold update_where. induction t as [|x t IH]; [done|]. rewrite fmap_cons, !select_cons, IH. destruct (p x) eqn:Hx; [by rewrite Hq, (Hpq x Hx)|done].
  - by rewrite select_append, select_cons, Hq, app_nil_r.
Qed.

Lemma head_select_find {A} (p : A → bool) t : head (select p t) = find_row p t.
Proof. induction t as [|x t IH]; [done|]. rewrite select_cons. unfold find_row. cbn. by destruct (p x). Qed.

(** ** Cross-signing *)

(** The master key that an upload is checked against. *)
Definition master_of d u (request : DeviceSigningUploadRequest) : option Value :=
  match su_master_key request with
  | Some master => Some master
  | None => row ← cross_signing_key_for d u Master; match read_json (cs_key_json row) with Ok v => Some v | Err _ => None end
  end.

(** A cross-signing key of [mxid] for [usage], and for nothing else. *)
Definition cross_key_of (mxid usage : string) (obj : Map) : Prop :=
  map_get obj "user_id" = Some (VString mxid) ∧ map_get obj "usage" = Some (VArray [VString usage]) ∧
  ∃ keys, map_get obj "keys" = Some (VObject keys) ∧ keys ≠ [].

(** The object carries a signature of [mxid] that verifies, over its text without signatures, under an Ed25519 key of
    the master key object. *)
Definition signed_by_master (mxid : string) (obj : Map) (master : Value) : Prop :=
  ∃ keys full_id b64 bytes verifying_key sigs by_user sig_b64 sig,
    get master "keys" = Some (VObject keys) ∧ (full_id, VString b64) ∈ keys ∧ starts_with "ed25519:" full_id = true ∧
    decode_base64 b64 = Some bytes ∧ slen bytes = 32 ∧ verifying_key_from_bytes bytes = Some verifying_key ∧
    map_get obj "signatures" = Some sigs ∧ get sigs mxid = Some by_user ∧
    get by_user ("ed25519:" +:+ trim_start_matches "ed25519:" full_id) = Some (VString sig_b64) ∧
    decode_base64 sig_b64 = Some sig ∧ slen sig = 64 ∧
    verify_strict verifying_key (value_to_string (VObject (map_remove "unsigned" (map_remove "signatures" obj)))) sig = true.

(** A signing key that may be stored. *)
Definition accepted (key : option Value) (mxid usage : string) (master : option Value) : Prop :=
  ∀ v, key = Some v → ∃ obj m, v = VObject obj ∧ cross_key_of mxid usage obj ∧ master = Some m ∧ signed_by_master mxid obj m.

Lemma as_str_Some v t : as_str v = Some t → v = VString t.
Proof. destruct v; cbn; congruence. Qed.

Lemma as_object_Some v m : as_object v = Some m → v = VObject m.
Proof. destruct v; cbn; congruence. Qed.

Lemma validate_ok v mxid usage a : validate_cross_signing_key_object v mxid usage = Ok a → ∃ obj, v = VObject obj ∧ cross_key_of mxid usage obj.
Proof.
  unfold validate_cross_signing_key_object. destruct v as [| | | | |obj]; try done. cbn [as_object ok_or].
  case_bool_decide as Hu; [done|]. destruct (map_get obj "usage" ≫= as_array) as [us|] eqn:Hus; [|done]. cbn [ok_or].
  destruct us as [|u []]; [done| |done]. case_bool_decide as Hus'; [done|]. intros Hk. exists obj. split; [done|].
  unfold cross_key_of. apply bind_Some in Hu as (vu & -> & ->%as_str_Some). apply bind_Some in Hus as (va & -> & Ha). apply as_str_Some in Hus' as ->.
  destruct (map_get obj "keys") as [ks|]; [|done]. cbn in Hk. destruct ks as [| | | | |ks]; try done. destruct ks as [|x ks]; [done|].
  split_and!; [done|destruct va; try done; cbn in Ha; congruence|]. by exists (x :: ks).
Qed.

Lemma master_verifying_key_ok m id vk :
  master_verifying_key m = Ok (id, vk) →
  ∃ keys full_id b64 bytes, get m "keys" = Some (VObject keys) ∧ (full_id, VString b64) ∈ keys ∧ starts_with "ed25519:" full_id = true ∧
    decode_base64 b64 = Some bytes ∧ slen bytes = 32 ∧ verifying_key_from_bytes bytes = Some vk ∧ id = trim_start_matches "ed25519:" full_id.
Proof.
  unfold master_verifying_key. destruct (get m "keys") as [ks|]; [|done]. cbn [mbind option_bind].
  destruct (as_object ks) as [keys|] eqn:Hks; [|done]. apply as_object_Some in Hks as ->. cbn [ok_or].
  destruct (List.find _ keys) as [[full_id value]|] eqn:Hf; [|done]. cbn [ok_or]. apply find_some in Hf as [Hin Hpre].
  destruct (as_str value) as [b64|] eqn:Hb; [|done]. apply as_str_Some in Hb as ->. cbn [ok_or]. destruct (decode_base64 b64) as [bytes|] eqn:Hd; [|done].
  cbn [ok_or]. destruct (Z.eqb_spec (slen bytes) 32); [|done]. cbn [negb]. destruct (verifying_key_from_bytes bytes) as [vk0|] eqn:Hv; [|done].
  cbn [ok_or]. intros [= <- <-]. exists keys, full_id, b64, bytes. split_and!; try done. by apply list_elem_of_In.
Qed.

Lemma verify_signed_ok obj mxid m a : verify_signed_by_master (VObject obj) mxid m = Ok a → signed_by_master mxid obj m.
Proof.
  unfold verify_signed_by_master. destruct (master_verifying_key m) as [[id vk]|] eqn:Hm; [|done].
  apply master_verifying_key_ok in Hm as (keys & full_id & b64 & bytes & Hk & Hin & Hpre & Hd & Hl & Hv & ->). cbn [get].
  destruct (map_get obj "signatures") as [sigs|] eqn:Hsigs; [|done]. cbn [mbind option_bind]. destruct (get sigs mxid) as [by_user|] eqn:Hbu; [|done]. cbn [mbind option_bind].
  destruct (get by_user _) as [v|] eqn:Hg; [|done]. cbn [mbind option_bind]. destruct (as_str v) as [sig_b64|] eqn:Hs; [|done]. apply as_str_Some in Hs as ->. cbn [ok_or].
  destruct (decode_base64 sig_b64) as [sig|] eqn:Hsd; [|done]. cbn [ok_or]. destruct (Z.eqb_spec (slen sig) 64); [|done]. cbn [negb].
  destruct (verify_strict _ _ _) eqn:Hver; [|done]. intros _.
  exists keys, full_id, b64, bytes, vk, sigs, by_user, sig_b64, sig. by split_and!.
Qed.

Lemma check_signed_key_accepted key mxid usage field master a : check_signed_key key mxid usage field master = Ok a → accepted key mxid usage master.
Proof.
  unfold check_signed_key. intros Hc v ->. destruct (validate_cross_signing_key_object v mxid usage) as [|] eqn:Hv; [|done].
  apply validate_ok in Hv as (obj & -> & Hobj). destruct master as [m|]; [|done]. cbn [ok_or] in Hc. apply verify_signed_ok in Hc. by exists obj, m.
Qed.

(** What the user has on file for [usage] after the upload of [key]. *)
Definition filed d u usage (key : option Value) (now : string) : option CrossSigningKey :=
  match key with Some v => Some (mkCrossKey u usage (value_to_string v) now) | None => cross_signing_key_for d u usage end.

Lemma upsert_cross_key_files d u usage text now now_ms usage' :
  db_ok d → cross_signing_key_for (upsert_cross_signing_key d u usage text now now_ms).1 u usage' =
  if bool_decide (usage' = usage) then Some (mkCrossKey u usage text now) else cross_signing_key_for d u usage'.
Proof.
  intros Hd. unfold upsert_cross_signing_key, log_device_list_change_tx, next_stream_id. cbn. rewrite ordered_fresh by auto with server. cbn.
  match goal with |- context [enqueue_device_list ?e ?f ?g ?h] => destruct (enqueue_list_outbox e f g h) as [o ->] end. unfold cross_signing_key_for. cbn.
  case_bool_decide as Hu.
  - subst usage'. apply find_upsert_same. by apply is_cross_key_key.
  - rewrite <- !head_select_find, select_upsert_other; [done|apply not_true_iff_false|intros x Hx; apply not_true_iff_false]; rewrite is_cross_key_key; [unfold cross_key; cbn; congruence|].
    apply is_cross_key_key in Hx. congruence.
Qed.

Lemma store_cross_key_files d u usage key now now_ms w :
  db_ok d → let '(d', r) := store_cross_key d u usage key now now_ms w in
  db_ok d' ∧ is_ok r = true ∧ ∀ usage', cross_signing_key_for d' u usage' =
    if bool_decide (usage' = usage) then filed d u usage key now else cross_signing_key_for d u usage'.
Proof.
  intros Hd. unfold store_cross_key, filed. destruct key as [key|].
  - destruct (upsert_cross_signing_key_total d u usage (value_to_string key) now now_ms Hd) as [Hok Heq].
    pose proof (λ us, upsert_cross_key_files d u usage (value_to_string key) now now_ms us Hd) as Hf.
    destruct (upsert_cross_signing_key _ _ _ _ _ _) as [d1 r]. cbn in Heq, Hok, Hf. by subst r.
  - split_and!; [done..|]. intros us. case_bool_decide; congruence.
Qed.

(** C36: a cross-signing upload is all or nothing, and nothing unverified gets in: if it is refused
    the database is as it was; if it is accepted then every key in it names the caller and its own
    usage alone and has key material, a self-signing or user-signing key is signed by the master key
    of the request or, without one, by the master key on file, and afterwards the user has on file
    exactly the keys of the request and, for a usage it has no key of, what was there. *)
Theorem cross_signing_is_verified d u mxid request now now_ms :
  db_ok d →
  let '(d', answer) := apply_device_signing_upload d u mxid request now now_ms in
  match answer with
  | Ok _ => (∀ v, su_master_key request = Some v → ∃ obj, v = VObject obj ∧ cross_key_of mxid "master" obj) ∧
            accepted (su_self_signing_key request) mxid "self_signing" (master_of d u request) ∧
            accepted (su_user_signing_key request) mxid "user_signing" (master_of d u request) ∧
            cross_signing_key_for d' u Master = filed d u Master (su_master_key request) now ∧
            cross_signing_key_for d' u SelfSigning = filed d u SelfSigning (su_self_signing_key request) now ∧
            cross_signing_key_for d' u UserSigning = filed d u UserSigning (su_user_signing_key request) now
  | Err _ => d' = d
  end.
Proof.
  intros Hd. unfold apply_device_signing_upload.
  destruct (try_opt _ _) eqn:Hshape; [|done].
  match goal with |- context [match match su_master_key request with Some m => @?f m | None => ?g end with Ok _ => _ | Err _ => _ end] => destruct (match su_master_key request with Some m => f m | None => g end) as [master|] eqn:Hm; [|done] end.
  destruct (check_signed_key (su_self_signing_key request) _ _ _ _) eqn:H1; [|done]. destruct (check_signed_key (su_user_signing_key request) _ _ _ _) eqn:H2; [|done].
  apply check_signed_key_accepted in H1, H2.
  assert (Hmaster : master = master_of d u request).
  { unfold master_of. destruct (su_master_key request); [by injection Hm|]. destruct (cross_signing_key_for d u Master); [|by injection Hm]. cbn. destruct (read_json _); [by injection Hm|done]. }
  subst master.
  pose proof (store_cross_key_files d u Master (su_master_key request) now now_ms false Hd) as Hs1.
  destruct (store_cross_key d _ _ _ _ _ _) as [d1 [w1|]]; destruct Hs1 as (Hd1 & Ho1 & Hf1); [|done].
  pose proof (store_cross_key_files d1 u SelfSigning (su_self_signing_key request) now now_ms w1 Hd1) as Hs2.
  destruct (store_cross_key d1 _ _ _ _ _ _) as [d2 [w2|]]; destruct Hs2 as (Hd2 & Ho2 & Hf2); [|done].
  pose proof (store_cross_key_files d2 u UserSigning (su_user_signing_key request) now now_ms w2 Hd2) as Hs3.
  destruct (store_cross_key d2 _ _ _ _ _ _) as [d3 [w3|]]; destruct Hs3 as (Hd3 & Ho3 & Hf3); [|done].
  split_and!; [|done|done|rewrite Hf3, Hf2, Hf1; done|rewrite Hf3, Hf2|rewrite Hf3].
  - intros v Hv. rewrite Hv in Hshape. cbn in Hshape. by apply validate_ok in Hshape.
  - cbn. unfold filed. destruct (su_self_signing_key request); [done|]. by rewrite Hf1.
  - cbn. unfold filed. destruct (su_user_signing_key request); [done|]. by rewrite Hf2, Hf1.
Qed.

End Trust.

(** * Key backup: what is put is got (crates/mail4agent-server/src/keys.rs, key_ops.rs, http/keys.rs) *)

Section Backup.
Context `{ServerJson, !ServerJsonLaws} `{SigningCrypto}.
Implicit Types d : Db.

Lemma in_scope_session u v ro s r : in_scope u v (Some ro) (Some s) r = is_session u v ro s r.
Proof. unfold in_scope, is_session. by rewrite <- !andb_assoc. Qed.

Lemma select_order_by d u : db_ok d → order_by_int bv_version (select (is_live u) (db_backup_versions d)) = select (is_live u) (db_backup_versions d).
Proof. intros Hd. eapply ordered_order_by, ordered_sublist; [apply select_sublist|auto with server]. Qed.

(** Bumping an etag changes no version number and no liveness. *)
Lemma bump_current d u v u' : db_ok d → bv_version <$> current_backup_version (bump_etag d u v) u' = bv_version <$> current_backup_version d u'.
Proof.
  intros Hd. unfold current_backup_version. rewrite !select_order_by by (auto using bump_etag_ok). cbn. generalize (db_backup_versions d). intros t.
  rewrite <- !fmap_last. f_equal. unfold update_where. induction t as [|x t IH]; [done|]. rewrite fmap_cons, !select_cons.
  assert (Hx : is_live u' (if is_version u v x then mkBackupVersion (bv_version x) (bv_user_id x) (bv_algorithm x) (bv_auth_data x) (bv_etag x + 1) (bv_is_deleted x) (bv_created_at x) else x) = is_live u' x) by (by destruct (is_version u v x)).
  rewrite Hx. destruct (is_live u' x); [|done]. rewrite !fmap_cons, IH. by destruct (is_version u v x).
Qed.

Lemma require_current d u v : bv_version <$> current_backup_version d u = Some v → require_current_backup_version d u v = Ok tt.
Proof. unfold require_current_backup_version. intros (row & -> & ->)%fmap_Some. by rewrite Z.eqb_refl. Qed.

Lemma parse_version_text v : 0 ≤ v ≤ i64_max → parse_required_version (Some (pretty v)) = Ok v.
Proof. intros Hv. unfold parse_required_version. cbn [ok_or]. by rewrite parse_i64_pretty. Qed.

(** Reading one session. *)
Lemma get_session d c room_id session_id v : 0 ≤ v ≤ i64_max → bv_version <$> current_backup_version d (ca_user_id c) = Some v →
  get_backup_keys_inner d c (Some room_id) (Some session_id) (Some (pretty v)) =
  let? one := ok_or (find_row (is_session (ca_user_id c) v room_id session_id) (db_backup_sessions d)) (not_found "no such backup session") in
  read_json (bs_session_data one).
Proof.
  intros Hv Hcur. unfold get_backup_keys_inner. rewrite parse_version_text, require_current by done. unfold backup_sessions_to_response, get_backup_sessions.
  rewrite (select_ext _ (is_session (ca_user_id c) v room_id session_id)) by (intros; apply in_scope_session). by rewrite head_select_find.
Qed.

(** Writing one session. *)
Lemma put_session d c room_id session_id v body now : 0 ≤ v ≤ i64_max → bv_version <$> current_backup_version d (ca_user_id c) = Some v →
  let row := mkBackupSession (ca_user_id c) v room_id session_id (value_to_string body) now in
  (put_backup_keys_inner d c (Some room_id) (Some session_id) (Some (pretty v)) body now).1 =
  bump_etag (with_backup_sessions d (upsert (is_session (ca_user_id c) v room_id session_id) (λ _, row) row (db_backup_sessions d))) (ca_user_id c) v.
Proof.
  intros Hv Hcur. unfold put_backup_keys_inner. rewrite parse_version_text by done. cbn [normalize_put_backup_body]. unfold put_backup_sessions.
  rewrite bool_decide_true by done. cbn [transaction foldl]. unfold etag_and_count. by destruct (count_of _ _ _) as [[? ?]|].
Qed.

(** A session that was backed up comes back as it was stored: after a [PUT] of one session
    under the current version, a [GET] of it answers the very object, a [GET] of any other session
    answers what it answered before, and the version's etag has grown by one. *)
Theorem backup_round_trip d c room_id session_id v body now :
  db_ok d → bv_version <$> current_backup_version d (ca_user_id c) = Some v → 0 ≤ v ≤ i64_max → wf_value body → no_floats body = true →
  let version := Some (pretty v) in
  let d' := (put_backup_keys_inner d c (Some room_id) (Some session_id) version body now).1 in
  get_backup_keys_inner d' c (Some room_id) (Some session_id) version = Ok body ∧
  (∀ room_id' session_id', (room_id', session_id') ≠ (room_id, session_id) →
     get_backup_keys_inner d' c (Some room_id') (Some session_id') version = get_backup_keys_inner d c (Some room_id') (Some session_id') version) ∧
  (∀ row, get_backup_version d (ca_user_id c) v = Some row → bv_etag <$> get_backup_version d' (ca_user_id c) v = Some (bv_etag row + 1)).
Proof.
  intros Hd Hcur Hv Hwf Hnf. cbn zeta. rewrite put_session by done. set (u := ca_user_id c) in *.
  set (row := mkBackupSession _ _ _ _ _ _). set (d1 := with_backup_sessions d _).
  assert (Hd1 : db_ok d1) by (apply ok_with_backup_sessions; [done|]; apply keyed_upsert; [auto with server|apply is_session_key]).
  assert (Hc1 : bv_version <$> current_backup_version (bump_etag d1 u v) u = Some v) by (by rewrite bump_current).
  split_and!.
  - rewrite get_session by done. change (db_backup_sessions (bump_etag d1 u v)) with (upsert (is_session u v room_id session_id) (λ _, row) row (db_backup_sessions d)).
    rewrite find_upsert_same by (by apply is_session_key). cbn. unfold read_json. by rewrite value_roundtrip.
  - intros room_id' session_id' Hne. rewrite !get_session by done. fold u. rewrite <- !head_select_find.
    change (db_backup_sessions (bump_etag d1 u v)) with (upsert (is_session u v room_id session_id) (λ _, row) row (db_backup_sessions d)).
    rewrite select_upsert_other; [done|apply not_true_iff_false|intros x Hx; apply not_true_iff_false]; rewrite is_session_key; [unfold session_key; cbn; congruence|].
    apply is_session_key in Hx. congruence.
  - intros r Hr. unfold get_backup_version, bump_etag in *. cbn. revert Hr. generalize (db_backup_versions d). intros t. induction t as [|x t IH]; [done|].
    unfold update_where, find_row in *. cbn. destruct (is_version u v x) eqn:Hx.
    + intros [= ->]. unfold is_version in *. cbn. by rewrite Hx.
    + rewrite Hx. by apply IH.
Qed.

(** A write under any other version is refused and changes nothing, and the answer names the
    version that is current. *)
Theorem stale_backup_is_refused d c room_id session_id v body sessions now :
  0 ≤ v ≤ i64_max → bv_version <$> current_backup_version d (ca_user_id c) ≠ Some v → normalize_put_backup_body room_id session_id body = Ok sessions →
  put_backup_keys_inner d c room_id session_id (Some (pretty v)) body now =
    (d, Err (wrong_room_keys_version (bv_version <$> current_backup_version d (ca_user_id c)))).
Proof.
  intros Hv Hcur Hn. unfold put_backup_keys_inner. rewrite parse_version_text by done. rewrite Hn. unfold put_backup_sessions. by rewrite bool_decide_false.
Qed.

End Backup.

(** * What the key server promises

    One-time keys are handed out once, key changes reach the peers, strangers learn and take
    nothing, a deleted device leaves nothing behind, cross-signing uploads are verified and all or
    nothing, and a backed-up session comes back as it was stored. *)

Section KeyProps.
Context `{ServerJson, SigningCrypto} (is_remote_mxid : string → bool).
Implicit Types d : Db.

(** C20: the database stays in order through any key and device requests, those of [KeyRequest], and none of them runs
    into an internal error: whatever the history of such requests, every primary key still names one row, stream ids
    still ascend, and the next one of them is answered, with an error of the client's at worst; only logging in may fail,
    on a device id or credential that is taken. Requests about rooms are not part of this: a repeated transaction id can
    make one of those fail inside ([transaction_ids_collide]). *)
Theorem requests_never_fail_inside d rs r :
  db_ok d →
  let d' := serve_all is_remote_mxid d rs in
  db_ok d' ∧ (is_login r = false → ∀ e, (serve is_remote_mxid d' r).2 = Some e → client_error e).
Proof.
  intros Hd. cbn zeta. assert (Hd' : db_ok (serve_all is_remote_mxid d rs)); [|split; [done|by apply serve_ok]].
  revert d Hd. induction rs as [|r' rs IH]; intros d Hd; [done|]. apply IH. by apply serve_ok.
Qed.

(** ** One-time keys *)

(** The order [ORDER BY key_id] gives. *)
Lemma head_order_by_text {A} (key : A → string) t r : head (order_by_text key t) = Some r → r ∈ t ∧ ∀ x, x ∈ t → String.le (key r) (key x).
Proof.
  unfold order_by_text. destruct (merge_sort (text_le key) t) as [|y l] eqn:Hm; [done|]. intros [= ->].
  assert (Hs : StronglySorted (text_le key) (r :: l)).
  { rewrite <- Hm. apply StronglySorted_merge_sort; [intros x y z; unfold text_le; by apply (transitivity (R := String.le))|intros x y; unfold text_le; apply (total String.le)]. }
  apply StronglySorted_inv in Hs as [_ Hr]. rewrite Forall_forall in Hr.
  assert (Hp : ∀ x, x ∈ t ↔ x ∈ r :: l) by (intros x; rewrite <- Hm; by rewrite merge_sort_Permutation).
  split; [apply Hp; by left|]. intros x [->|Hx]%Hp%elem_of_cons; [by apply (reflexivity (R := String.le))|by apply Hr].
Qed.

Lemma delete_one {A K} (key : A → K) t p r : keyed key t → r ∈ t → (∀ x, x ∈ t → p x = true ↔ key x = key r) → r :: delete_where p t ≡ₚ t.
Proof.
  intros Hk Hr Hp. apply list_elem_of_split in Hr as (l1 & l2 & ->).
  assert (Hne : ∀ x, x ∈ l1 ++ l2 → p x = false).
  { intros x Hx. apply not_true_iff_false. intros Hpx. apply Hp in Hpx; [|rewrite elem_of_app, elem_of_cons in *; naive_solver].
    unfold keyed in Hk. rewrite fmap_app, fmap_cons in Hk. rewrite <- Permutation_middle in Hk.
    apply NoDup_cons in Hk as [Hn _]. apply Hn. rewrite <- Hpx, <- fmap_app. by apply list_elem_of_fmap_2. }
  unfold delete_where. rewrite select_append, select_cons.
  rewrite (proj2 (Hp r ltac:(rewrite elem_of_app, elem_of_cons; tauto)) eq_refl). cbn [negb].
  rewrite !select_every; [by rewrite Permutation_middle|..]; intros x Hx; (rewrite Hne; [done|]); apply elem_of_app; auto.
Qed.

Lemma take_lowest_spec d u dev a d' r : db_ok d → take_lowest_key d u dev a = Some (d', r) →
  otk_of_algorithm u dev a r = true ∧ r :: db_one_time_keys d' ≡ₚ db_one_time_keys d ∧ db_ok d' ∧
  ∀ x, x ∈ db_one_time_keys d → otk_of_algorithm u dev a x = true → String.le (ok_key_id r) (ok_key_id x).
Proof.
  intros Hd Ht. unfold take_lowest_key in Ht. destruct (head _) as [low|] eqn:Hh; [|done]. cbn in Ht. injection Ht as <- <-.
  apply head_order_by_text in Hh as [Hin Hmin]. apply elem_of_select in Hin as [Hin Halg]. split_and!; [done| |auto with server|].
  - apply (delete_one otk_key); [auto with server|done|]. intros x Hx. split.
    + intros Hp. apply andb_true_iff in Hp as [Hp Hk]. unfold otk_of_algorithm, otk_of_device, otk_key in *. rewrite seqb_true in Hk. boolify.
      rewrite !seqb_true in *. congruence.
    + intros Heq. apply (keyed_inj otk_key (db_one_time_keys d)) in Heq as ->; [|auto with server..]. by rewrite Halg, seqb_refl.
  - intros x Hx Hxa. apply Hmin. by apply elem_of_select.
Qed.

(** The one-time keys that a series of claims [(user, device, algorithm)] hands out, as answered. *)
Fixpoint claim_run (d : Db) (claims : list (Z * string * string)) : Db * list OneTimeKeyRow :=
  match claims with
  | [] => (d, [])
  | (u, dev, a) :: claims =>
      let '(d1, answer) := claim_one_time_key d u dev a in
      let '(d2, handed) := claim_run d1 claims in
      (d2, match answer with
           | Some (key_id, key_json) => if exists_row (otk_of_algorithm u dev a) (db_one_time_keys d) then [mkOneTimeKey u dev key_id a key_json] else []
           | None => []
           end ++ handed)
  end.

Lemma take_lowest_None d u dev a : take_lowest_key d u dev a = None → exists_row (otk_of_algorithm u dev a) (db_one_time_keys d) = false.
Proof.
  unfold take_lowest_key. destruct (head _) as [low|] eqn:Hh; [done|]. intros _. apply exists_row_false. intros r Hr. apply not_true_iff_false. intros Hp.
  assert (Hin : r ∈ order_by_text ok_key_id (select (otk_of_algorithm u dev a) (db_one_time_keys d))).
  { unfold order_by_text. rewrite merge_sort_Permutation. by apply elem_of_select. }
  destruct (order_by_text _ _); [by apply not_elem_of_nil in Hin|done].
Qed.

(** C16: no one-time key is handed out twice, and none is lost: over any series of claims by anyone,
    the keys answered and the keys still stored are exactly the keys that were stored. *)
Theorem one_time_keys_are_conserved d claims :
  db_ok d →
  let '(d', handed) := claim_run d claims in
  handed ++ db_one_time_keys d' ≡ₚ db_one_time_keys d ∧ NoDup (otk_key <$> (handed ++ db_one_time_keys d')).
Proof.
  intros Hd. enough (Hp : (claim_run d claims).2 ++ db_one_time_keys (claim_run d claims).1 ≡ₚ db_one_time_keys d).
  { destruct (claim_run d claims) as [d' handed]. split; [done|]. cbn in Hp. rewrite Hp. apply ok_one_time_keys, Hd. }
  revert d Hd. induction claims as [|[[u dev] a] claims IH]; intros d Hd; [done|]. cbn [claim_run].
  pose proof (claim_one_time_key_ok d u dev a Hd) as Hok. unfold claim_one_time_key in *.
  destruct (take_lowest_key d u dev a) as [[d1 r]|] eqn:Ht.
  - apply take_lowest_spec in Ht as (Hr & Hperm & Hd1 & _); [|done]. specialize (IH d1 Hd1). destruct (claim_run d1 claims) as [d2 handed]. cbn in *.
    replace (exists_row _ _) with true.
    + rewrite <- app_comm_cons. cbn. rewrite IH, <- Hperm. f_equiv. unfold otk_of_algorithm, otk_of_device in Hr. boolify. rewrite seqb_true in *. subst. by destruct r.
    + symmetry. apply exists_row_true. exists r. split; [|done]. rewrite <- Hperm. by left.
  - rewrite (take_lowest_None _ _ _ _ Ht). destruct (find_row _ _) as [f|]; cbn in *.
    + specialize (IH _ Hok). by destruct (claim_run _ claims) as [d2 handed].
    + specialize (IH _ Hd). by destruct (claim_run _ claims) as [d2 handed].
Qed.

(** A claim takes the key with the lowest id while the device has one of the algorithm; only
    then the fallback key, which stays and is marked as used; without either it answers nothing. *)
Theorem claim_takes_lowest_then_fallback d u dev a :
  db_ok d →
  let '(d', answer) := claim_one_time_key d u dev a in
  if exists_row (otk_of_algorithm u dev a) (db_one_time_keys d) then
    ∃ r, answer = Some (ok_key_id r, ok_key_json r) ∧ r :: db_one_time_keys d' ≡ₚ db_one_time_keys d ∧ otk_of_algorithm u dev a r = true ∧
         db_fallback_keys d' = db_fallback_keys d ∧ ∀ x, x ∈ db_one_time_keys d → otk_of_algorithm u dev a x = true → String.le (ok_key_id r) (ok_key_id x)
  else
    db_one_time_keys d' = db_one_time_keys d ∧
    match find_row (is_fallback u dev a) (db_fallback_keys d) with
    | Some f => answer = Some (fr_key_id f, fr_key_json f) ∧ fr_used <$> find_row (is_fallback u dev a) (db_fallback_keys d') = Some true
    | None => answer = None ∧ d' = d
    end.
Proof.
  intros Hd. unfold claim_one_time_key. destruct (take_lowest_key d u dev a) as [[d1 r]|] eqn:Ht.
  - assert (Hf : db_fallback_keys d1 = db_fallback_keys d) by (unfold take_lowest_key in Ht; destruct (head _); [|done]; cbn in Ht; by injection Ht as <- <-).
    apply take_lowest_spec in Ht as (Hr & Hperm & Hd1 & Hmin); [|done].
    replace (exists_row _ _) with true by (symmetry; apply exists_row_true; exists r; split; [rewrite <- Hperm; by left|done]). by exists r.
  - rewrite (take_lowest_None _ _ _ _ Ht). destruct (find_row (is_fallback u dev a) (db_fallback_keys d)) as [f|] eqn:Hf; [|done]. split_and!; [done..|]. cbn.
    generalize (db_fallback_keys d) Hf. intros t. induction t as [|x t IH]; [done|]. unfold update_where, find_row in *. cbn. destruct (is_fallback u dev a x) eqn:Hx.
    + intros _. unfold is_fallback, fallback_of_device in *. cbn. by rewrite Hx.
    + rewrite Hx. by apply IH.
Qed.

(** ** Device lists *)

Lemma add_keys_table d u dev keys d' : add_keys_loop d u dev keys = Ok (d', tt) → ∃ t, d' = with_one_time_keys d t.
Proof.
  revert d. induction keys as [|[[k a] j] keys IH]; intros d; cbn; [intros [= <-]; exists (db_one_time_keys d); by destruct d|].
  destruct (find_row _ _); [case_match; [apply IH|done]|]. intros (t & ->)%IH. by exists t.
Qed.

Lemma fallback_table d u dev l now : ∃ t, (upload_fallback_loop d u dev l now).1 = with_fallback_keys d t.
Proof.
  revert d. induction l as [|[k v] l IH]; intros d; cbn; [exists (db_fallback_keys d); by destruct d|].
  destruct (split_algorithm_key_id k) as [[a ?]|]; [|exists (db_fallback_keys d); by destruct d].
  destruct (IH (upsert_fallback_key d u dev a k (value_to_string v) now)) as [t Ht]. by exists t.
Qed.

(** The change that an upload of new device keys logs. *)
Lemma upload_device_keys_logs d u mxid dev v now now_ms d' :
  db_ok d → upload_device_keys d u mxid dev v now now_ms = (d', Ok true) →
  mkChange (db_stream_counter d + 1) u now ∈ db_changes d' ∧ db_stream_counter d' = db_stream_counter d + 1 ∧ db_users d' = db_users d.
Proof.
  intros Hd. unfold upload_device_keys. destruct (check_device_keys_ownership _ _ _) as [[]|]; [|done]. destruct (decide_device_keys_upload _ _) as [action|]; [|done].
  assert (Hlog : ∀ d1 a k s, db_ok d1 → db_stream_counter d1 = db_stream_counter d → db_users d1 = db_users d →
    ∀ d2 r, upsert_device_keys d1 u dev a k s now now_ms = (d2, r) →
    mkChange (db_stream_counter d + 1) u now ∈ db_changes d2 ∧ db_stream_counter d2 = db_stream_counter d + 1 ∧ db_users d2 = db_users d).
  { intros d1 a k s Hd1 Hc Hu d2 r. unfold upsert_device_keys, log_device_list_change_tx, next_stream_id. cbn. rewrite ordered_fresh by auto with server. cbn.
    match goal with |- context [enqueue_device_list ?e ?f ?g ?h] => destruct (enqueue_list_outbox e f g h) as [x ->] end.
    intros [= <- <-]. cbn. rewrite Hc, Hu. split_and!; [|done..]. apply elem_of_app. right. by left. }
  destruct action; [|done|]; match goal with |- context [upsert_device_keys ?a ?b ?c ?e ?f ?g ?h ?i] => destruct (upsert_device_keys a b c e f g h i) as [d2 [[]|]] eqn:Hups end; intros [= <-].
  - eapply Hlog; [exact Hd|done|done|exact Hups].
  - eapply (Hlog (clear_device_one_time_material d u dev)); [auto with server|done|done|exact Hups].
Qed.

(** [d'] follows [d]: the same users and memberships, and a log of changes that has grown. *)
Definition grows d d' : Prop :=
  db_users d' = db_users d ∧ db_members d' = db_members d ∧ db_stream_counter d ≤ db_stream_counter d' ∧ db_changes d ⊆ db_changes d'.

Lemma grows_refl d : grows d d.
Proof. by repeat split. Qed.

Lemma grows_trans d d1 d2 : grows d d1 → grows d1 d2 → grows d d2.
Proof. intros (U1 & M1 & C1 & L1) (U2 & M2 & C2 & L2). split_and!; [congruence..|lia|set_solver]. Qed.

Ltac still := solve [split_and!; [reflexivity|reflexivity|cbn; lia|cbn; set_solver]].

(** A transaction that logs a change. *)
Lemma grows_logged {A} d d1 user_id now now_ms (a : A) :
  grows d d1 → grows d (transaction d (let? (d2, _) := log_device_list_change_tx d1 user_id now now_ms in Ok (d2, a))).1.
Proof.
  intros H1. destruct (log_device_list_change_tx d1 user_id now now_ms) as [[d2 n]|e] eqn:Hl; cbn; [|apply grows_refl].
  eapply grows_trans; [exact H1|]. unfold log_device_list_change_tx, next_stream_id in Hl. cbn in Hl. case_match; [done|]. injection Hl as <- <-.
  match goal with |- context [enqueue_device_list ?a ?b ?c ?e] => destruct (enqueue_list_outbox a b c e) as [x ->] end. still.
Qed.

Lemma grows_device_keys d u mxid dev v now now_ms : grows d (upload_device_keys d u mxid dev v now now_ms).1.
Proof.
  unfold upload_device_keys. destruct (check_device_keys_ownership _ _ _); [|apply grows_refl]. destruct (decide_device_keys_upload _ _) as [action|]; [|apply grows_refl].
  set (d1 := match action with ActReset => _ | _ => d end). assert (Hd1 : grows d d1) by (subst d1; destruct action; still).
  destruct action; [|apply grows_refl|];
  match goal with |- context [upsert_device_keys ?a ?b ?f ?g ?h ?i ?j ?k] =>
    assert (H1 : grows a (upsert_device_keys a b f g h i j k).1) by (apply grows_logged; still);
    destruct (upsert_device_keys a b f g h i j k) as [d2 [?|?]] end; (eapply grows_trans; [exact Hd1|exact H1]).
Qed.

Lemma upload_tail_table d1 u dev req now :
  (∃ t, match ku_one_time_keys req with
        | Some keys => try? batch := one_time_batch keys on d1 in
                       match add_one_time_keys d1 u dev batch with (d, Ok _) => (d, Ok tt) | (d, Err e) => (d, Err (from_keys_error e)) end
        | None => (d1, Ok tt)
        end.1 = with_one_time_keys d1 t) ∧
  ∃ t, match ku_fallback_keys req with Some keys => upload_fallback_loop d1 u dev (entries keys) now | None => (d1, Ok tt) end.1 = with_fallback_keys d1 t.
Proof.
  split.
  - destruct (ku_one_time_keys req) as [keys|]; [|exists (db_one_time_keys d1); by destruct d1]. destruct (one_time_batch keys) as [batch|]; [|exists (db_one_time_keys d1); by destruct d1].
    unfold add_one_time_keys. destruct (add_keys_loop d1 u dev batch) as [[d2 []]|e] eqn:Hl; [|exists (db_one_time_keys d1); by destruct d1]. by apply add_keys_table in Hl.
  - destruct (ku_fallback_keys req) as [keys|]; [apply fallback_table|by exists (db_fallback_keys d1); destruct d1].
Qed.

(** After the device keys, an upload touches nothing but the one-time and fallback keys. *)
Lemma apply_upload_tables d u mxid dev req now now_ms :
  let first := match ku_device_keys req with Some v => upload_device_keys d u mxid dev v now now_ms | None => (d, Ok false) end in
  ∃ t f, (apply_keys_upload d u mxid dev req now now_ms).1 = with_fallback_keys (with_one_time_keys first.1 t) f ∧
    ∀ outcome, (apply_keys_upload d u mxid dev req now now_ms).2 = Ok outcome → first.2 = Ok (uo_device_keys_changed outcome).
Proof.
  cbn zeta. unfold apply_keys_upload. destruct (match ku_device_keys req with Some v => _ | None => _ end) as [d1 [changed|]]; cbn [fst snd].
  2: { exists (db_one_time_keys d1), (db_fallback_keys d1). split; [by destruct d1|done]. }
  destruct (upload_tail_table d1 u dev req now) as [[t Ht] _].
  match goal with |- context [let '(_, _) := ?e in _] => destruct e as [d2 [[]|]] end; cbn in Ht; subst d2.
  2: { exists t, (db_fallback_keys d1). split; [by destruct d1|done]. }
  destruct (upload_tail_table (with_one_time_keys d1 t) u dev req now) as [_ [f Hf]].
  match goal with |- context [let '(_, _) := ?e in _] => destruct e as [d3 [[]|]] end; cbn in Hf; subst d3; exists t, f; (split; [done|]); [|done].
  intros outcome [= <-]. done.
Qed.

Lemma grows_apply_upload d u mxid dev req now now_ms : grows d (apply_keys_upload d u mxid dev req now now_ms).1.
Proof.
  destruct (apply_upload_tables d u mxid dev req now now_ms) as (t & f & -> & _).
  apply (grows_trans _ (match ku_device_keys req with Some v => upload_device_keys d u mxid dev v now now_ms | None => (d, Ok false) end).1); [|still].
  destruct (ku_device_keys req); [apply grows_device_keys|apply grows_refl].
Qed.

Lemma grows_claim d cu req : grows d (build_keys_claim_response d cu req).1.
Proof.
  unfold build_keys_claim_response, build_keys_claim_visible.
  assert (H1 : ∀ l d out tu, grows d (claim_devices d tu l out).1).
  { induction l as [|[dv a] l IH]; intros d1 out tu; [apply grows_refl|]. cbn.
    assert (Hc : grows d1 (claim_one_time_key d1 tu dv a).1).
    { unfold claim_one_time_key, take_lowest_key. destruct (head _); cbn; [still|]. destruct (find_row _ _); still. }
    destruct (claim_one_time_key d1 tu dv a) as [d2 [[k j]|]]; [destruct (read_json j); [|done]|]; by eapply grows_trans; [|apply IH]. }
  generalize (entries req), (peers_sharing_a_room_with d cu), ([] : Map). intros l visible out.
  cut (grows d (claim_users d visible l out).1); [by destruct (claim_users _ _ _ _) as [? []]|].
  revert d out. induction l as [|[mxid per] l IH]; intros d out; [apply grows_refl|]. cbn. destruct (visible_user _ _ _) as [tu|]; [|apply IH].
  pose proof (H1 (entries per) d [] tu) as Hc. destruct (claim_devices _ _ _ _) as [d1 [[|x o]|e]]; [..|done]; by eapply grows_trans; [|apply IH].
Qed.

Lemma grows_cross d cu us key now now_ms wrote : grows d (store_cross_key d cu us key now now_ms wrote).1.
Proof.
  unfold store_cross_key. destruct key as [key|]; [|apply grows_refl].
  assert (Hu : grows d (upsert_cross_signing_key d cu us (value_to_string key) now now_ms).1) by (apply grows_logged; still).
  by destruct (upsert_cross_signing_key _ _ _ _ _ _) as [d1 [?|?]].
Qed.

Lemma grows_signing d cu mxid req now now_ms : grows d (apply_device_signing_upload d cu mxid req now now_ms).1.
Proof.
  unfold apply_device_signing_upload. do 4 (match goal with |- context [match ?r with Ok _ => _ | Err err => (d, Err err) end] => destruct r; [|apply grows_refl] end).
  pose proof (grows_cross d cu Master (su_master_key req) now now_ms false) as H1. destruct (store_cross_key d _ _ _ _ _ _) as [d1 [w1|e1]]; [|done].
  pose proof (grows_cross d1 cu SelfSigning (su_self_signing_key req) now now_ms w1) as H2. destruct (store_cross_key d1 _ _ _ _ _ _) as [d2 [w2|e2]]; [|eapply grows_trans; [exact H1|exact H2]].
  eapply grows_trans; [exact H1|]. eapply grows_trans; [exact H2|]. apply grows_cross.
Qed.

Lemma grows_signatures d c body now : grows d (signatures_upload d c body now).1.
Proof.
  unfold signatures_upload, apply_signatures_upload. destruct (as_object body) as [b|]; [|apply grows_refl]. cbn [ok_or].
  assert (H1 : ∀ l d out cu cm t target, grows d (sign_targets d cu cm t target l now out).1).
  { induction l as [|[k v] l IH]; intros d1 out cu cm t target; [apply grows_refl|]. cbn [sign_targets]. destruct target; [|apply IH].
    destruct (signature_target_is_authorized _ _ _ _ _) as [[]|]; [|apply IH|apply grows_refl]. eapply grows_trans; [|apply IH]. still. }
  cut (grows d (sign_users d (ca_user_id c) (ca_mxid c) b now []).1); [by destruct (sign_users _ _ _ _ _ _) as [? []]|].
  generalize ([] : Map). revert d. induction b as [|[t v] b IH]; intros d out; [apply grows_refl|]. cbn [sign_users]. destruct (as_object v) as [obj|]; [|apply IH].
  pose proof (H1 obj d [] (ca_user_id c) (ca_mxid c) t (user_id_of d t)) as Hs. destruct (sign_targets _ _ _ _ _ _ _ _) as [d1 [[|x o]|e]]; [..|done]; by eapply grows_trans; [|apply IH].
Qed.

Lemma grows_delete d u dev now now_ms : grows d (delete_device d u dev now now_ms).1.
Proof. unfold delete_device. destruct (exists_row _ _); [|still]. apply grows_logged. still. Qed.

Lemma grows_deletes d u devs now now_ms any : grows d (delete_devices_loop d u devs now now_ms any).1.
Proof.
  revert d any. induction devs as [|dv devs IH]; intros d any; [apply grows_refl|]. cbn [delete_devices_loop].
  pose proof (grows_delete d u dv now now_ms) as Hd. destruct (delete_device _ _ _ _ _) as [d1 [b|e]]; [|done]. eapply grows_trans; [exact Hd|apply IH].
Qed.

Lemma grows_insert d sender rows n d' k : insert_to_device d sender rows n = Ok (d', k) → grows d d'.
Proof.
  revert d n. induction rows as [|[[[ru rd] t] content] rows IH]; intros d n; cbn; [intros [= <- <-]; apply grows_refl|].
  case_match; [done|]. intros Hl%IH. eapply grows_trans; [|exact Hl]. still.
Qed.

Lemma grows_send d f c t txn m now now_ms : grows d (send_to_device is_remote_mxid d f c t txn m now now_ms).1.1.
Proof.
  unfold send_to_device. destruct (if f then _ else _) as [local remote].
  match goal with |- context [foldl ?g d (entries remote)] => assert (Ho : grows d (foldl g d (entries remote))); [|generalize dependent (foldl g d (entries remote))] end.
  { generalize (entries remote). intros l. clear. revert d. induction l as [|x l IH]; intros d; [apply grows_refl|]. eapply grows_trans; [|apply IH]. still. }
  intros d1 Hd1. unfold apply_send_to_device. destruct (txn_dedup_lookup d1 _ _ _) eqn:Hn; [|exact Hd1]. destruct (expand_send_to_device_targets _ _ _) as [targets|]; [|exact Hd1].
  unfold enqueue_to_device_deduped, transaction. rewrite Hn. destruct (insert_to_device d1 _ _ _) as [[d2 k]|] eqn:Hi; [|exact Hd1]. apply grows_insert in Hi.
  destruct (txn_dedup_record d2 _ _ _ _ _) as [d3|] eqn:Hr; [|exact Hd1]. cbn.
  eapply grows_trans; [exact Hd1|]. eapply grows_trans; [exact Hi|]. unfold txn_dedup_record in Hr. case_match; [done|]. injection Hr as <-. still.
Qed.

Lemma grows_backup d c ro s v body now : grows d (put_backup_keys_inner d c ro s v body now).1 ∧ grows d (delete_backup_keys_inner d c ro s v).1.
Proof.
  assert (He : ∀ d1 n, grows d d1 → grows d (etag_and_count d1 (ca_user_id c) n).1).
  { intros d1 n H1. unfold etag_and_count. by destruct (count_of _ _ _) as [[? ?]|?]. }
  unfold put_backup_keys_inner, delete_backup_keys_inner. destruct (parse_required_version v) as [n|]; [|split; apply grows_refl]. split.
  - destruct (normalize_put_backup_body ro s body) as [sessions|]; [|apply grows_refl]. unfold put_backup_sessions. destruct (bool_decide _); [|apply grows_refl]. cbn [transaction].
    apply He. match goal with |- context [bump_etag ?e _ _] => apply (grows_trans d e) end; [|still]. clear. revert d. induction sessions as [|[[? ?] ?] sessions IH]; intros d; [apply grows_refl|].
    eapply grows_trans; [|apply IH]. still.
  - destruct (require_current_backup_version _ _ _); [|apply grows_refl]. apply He. unfold delete_backup_sessions. cbn. case_match; still.
Qed.

Lemma grows_sync d c since full g : grows d (sync_keys d c since full g).1.
Proof.
  unfold sync_keys. match goal with |- context [match ?r with Ok _ => _ | Err _ => _ end] => destruct r end; [|apply grows_refl].
  unfold build_sync_keys, sync_to_device. destruct (to_device_page _ _ _ _ _). still.
Qed.

(** No key or device request takes a change back. *)
Lemma serve_grows d r : grows d (serve is_remote_mxid d r).1.
Proof.
  destruct r; cbn [serve fst]; try apply grows_refl.
  - unfold create_device. case_match; still.
  - unfold delete_device_by_credential. destruct (find_row _ _) as [row|]; [|still]. apply grows_logged. still.
  - still.
  - unfold keys_upload. pose proof (grows_apply_upload d (ca_user_id caller) (ca_mxid caller) (ca_device_id caller) request now now_ms) as Hg. by destruct (apply_keys_upload _ _ _ _ _ _ _) as [? []].
  - apply grows_claim.
  - unfold device_signing_upload. pose proof (grows_signing d (ca_user_id caller) (ca_mxid caller) request now now_ms) as Hg. by destruct (apply_device_signing_upload _ _ _ _ _ _) as [? []].
  - apply grows_signatures.
  - apply grows_send.
  - still.
  - unfold delete_device_route. pose proof (grows_delete d (ca_user_id caller) device_id now now_ms) as Hg. by destruct (delete_device _ _ _ _ _) as [? [[]|]].
  - unfold bulk_delete_devices. pose proof (grows_deletes d (ca_user_id caller) device_ids now now_ms false) as Hg. by destruct (delete_devices_loop _ _ _ _ _ _) as [? []].
  - unfold post_backup_version. destruct (validate_backup_algorithm _); [|apply grows_refl]. still.
  - unfold put_backup_version_route. destruct (path_version _); [|apply grows_refl]. destruct (live_backup_version _ _ _); [|apply grows_refl]. case_match; still.
  - unfold delete_backup_version_route. destruct (path_version _); [|apply grows_refl]. still.
  - apply grows_backup.
  - apply (grows_backup d caller room_id session_id version VNull EmptyString).
  - apply grows_sync.
Qed.

Lemma serve_all_grows d rs : grows d (serve_all is_remote_mxid d rs).
Proof. revert d. induction rs as [|r rs IH]; intros d; [apply grows_refl|]. eapply grows_trans; [apply serve_grows|apply IH]. Qed.

(** A change in the window, of a user the caller can see, is in the list. *)
Lemma delta_lists d caller from to stream_id u mxid now :
  mkChange stream_id u now ∈ db_changes d → from < stream_id ≤ to → u ∈ peers_sharing_a_room_with d caller → mxid_of d u = Some mxid →
  mxid ∈ dl_changed (device_list_delta d caller from to).
Proof.
  intros Hrow Hw Hvis Hmx. unfold device_list_delta. destruct (shared_room_transitions _ _ _ _) as [entered departed]. cbn.
  unfold sorted_mxids, btree_set. rewrite merge_sort_Permutation. apply elem_of_remove_dups, list_elem_of_omap. exists u. split; [|done].
  apply elem_of_elements, elem_of_union_l, elem_of_filter. split; [done|]. apply elem_of_list_to_set. unfold device_list_changes_between.
  apply elem_of_remove_dups, list_elem_of_fmap. exists (mkChange stream_id u now). split; [done|]. apply elem_of_select. split; [done|].
  unfold in_window. cbn. rewrite andb_true_iff, Z.ltb_lt, Z.leb_le. lia.
Qed.

(** A sync from a position the server has passed answers with the delta since then. *)
Lemma sync_delta d caller raw token g :
  parse raw = Ok token → st_stream_id token ≤ db_stream_counter d →
  ∃ response, (sync_keys d caller (Some raw) false g).2 = Ok response ∧
    sk_device_lists response = device_list_delta d (ca_user_id caller) (st_stream_id token) (db_stream_counter d).
Proof.
  intros Hp Hpos. unfold sync_keys. rewrite Hp. cbn [result_map]. unfold trusted_since, max_stream_id.
  replace (db_stream_counter d <? st_stream_id token) with false by (symmetry; apply Z.ltb_ge; lia).
  unfold build_sync_keys, sync_to_device. destruct (to_device_page _ _ _ _ _) as [page upto]. eexists. split; [reflexivity|]. reflexivity.
Qed.

(** C35: new device keys reach every peer: once an upload has changed them, and whatever key and device requests are
    served in between, an incremental sync, one that does not ask for the full state, of anyone who shares a room with
    the uploader, from any token given before the upload, lists the uploader as changed. *)
Theorem key_change_reaches_peers d u mxid dev req now now_ms d1 counts rs peer raw token g :
  db_ok d → apply_keys_upload d u mxid dev req now now_ms = (d1, Ok (mkOutcome counts true)) →
  mxid_of d u = Some mxid → u ∈ peers_sharing_a_room_with d (ca_user_id peer) →
  parse raw = Ok token → st_stream_id token ≤ db_stream_counter d →
  ∃ response, (sync_keys (serve_all is_remote_mxid d1 rs) peer (Some raw) false g).2 = Ok response ∧
    mxid ∈ dl_changed (sk_device_lists response).
Proof.
  intros Hd Hup Hmx Hvis Hp Hpos.
  destruct (apply_upload_tables d u mxid dev req now now_ms) as (t & f & H1 & H2). rewrite Hup in H1, H2. cbn [fst snd] in H1, H2. specialize (H2 _ eq_refl). cbn in H2.
  assert (Hlog : mkChange (db_stream_counter d + 1) u now ∈ db_changes d1 ∧ db_stream_counter d1 = db_stream_counter d + 1 ∧ db_users d1 = db_users d).
  { subst d1. destruct (ku_device_keys req) as [v|]; [|done]. destruct (upload_device_keys d u mxid dev v now now_ms) as [d0 r] eqn:Hu. cbn in H2. subst r.
    by apply upload_device_keys_logs in Hu. }
  destruct Hlog as (Hrow & Hc & _). pose proof (grows_apply_upload d u mxid dev req now now_ms) as Hg. rewrite Hup in Hg. cbn [fst] in Hg.
  pose proof (grows_trans _ _ _ Hg (serve_all_grows d1 rs)) as (Hus & Hms & _). destruct (serve_all_grows d1 rs) as (_ & _ & Hc2 & Hl2).
  set (d2 := serve_all is_remote_mxid d1 rs) in *. destruct (sync_delta d2 peer raw token g Hp ltac:(lia)) as (response & Hs & Hdelta).
  exists response. split; [done|]. rewrite Hdelta. apply (delta_lists d2 _ _ _ (db_stream_counter d + 1) u mxid now); [by apply Hl2|lia| |].
  - unfold peers_sharing_a_room_with, rooms_for_user, room_members in *. by rewrite Hms.
  - unfold mxid_of. by rewrite Hus.
Qed.

(** The two lists of a delta never name the same user, as long as no two accounts share an id. *)
Theorem changed_and_left_are_disjoint d caller from to mxid :
  NoDup (mu_mxid <$> db_users d) →
  mxid ∈ dl_changed (device_list_delta d caller from to) → mxid ∉ dl_left (device_list_delta d caller from to).
Proof.
  intros Hnd. unfold device_list_delta. destruct (shared_room_transitions _ _ _ _) as [entered departed]. cbn. set (V := peers_sharing_a_room_with d caller).
  unfold sorted_mxids, btree_set. rewrite !merge_sort_Permutation, !elem_of_remove_dups, !list_elem_of_omap.
  intros (u1 & Hu1 & Hm1) (u2 & Hu2 & Hm2). rewrite !elem_of_elements, !elem_of_union, !elem_of_filter in *.
  assert (u1 = u2) as ->; [|naive_solver]. unfold mxid_of in *. apply fmap_Some in Hm1 as (r1 & Hf1 & ->). apply fmap_Some in Hm2 as (r2 & Hf2 & Heq).
  apply find_row_Some in Hf1 as [Hin1 Hp1]. apply find_row_Some in Hf2 as [Hin2 Hp2]. boolify.
  apply (keyed_inj mu_mxid (db_users d)) in Heq; [congruence|done..].
Qed.

End KeyProps.
