(* ===== verification/ServerLive.v ===== *)
(** * Waking long polls (crates/mail4agent-server/src/live.rs)

    A sync registers for a key, reads the database and then waits; a write wakes the key. The
    registry as a step relation over the atomic actions of the code: the map is read and written
    under its lock, which a wake holds from bumping the generation until it has notified the
    waiters; the counters of an entry are atomics outside the lock. The theorem is that no wake is
    lost, with any number of waiters, wakers and droppers interleaved.

    Two fields of a registration are only there to say so: whether a wake of its key has begun, and
    whether one has ended, since the registration was made. The generation is a [u64] that goes up
    by one with each wake and is not taken to wrap.

    The second part is the registry of typing users (typing.rs) with its theorems. *)

From S2P Require Import Prelude.

Local Open Scope Z_scope.

Inductive WaitOutcome := Woken | TimedOut.

(** An entry is identified by its address, the number it has in [li_entries]. *)
Record KeyEntry := mkKeyEntry { ke_generation : Z; ke_interest : nat }.

Inductive Phase :=
| Registering              (** interest taken, generation not yet read *)
| Held                     (** [register] has returned *)
| Enabled (notified : bool)    (** [wait]: the [Notified] future is enabled *)
| Sleeping (notified : bool)   (** [wait]: the generation was unchanged *)
| Returned (outcome : WaitOutcome)
| Pruning                  (** [drop]: the last interest was given up *)
| Dropped.

Record Registration := mkRegistration {
  rg_key : string;
  rg_entry : nat;
  rg_seen_generation : Z;
  rg_phase : Phase;
  rg_started : bool;
  rg_ended : bool }.

(** [li_waking] is the key and entry of the wake that holds the lock. *)
Record LiveRegistry := mkLive {
  li_keys : gmap string nat;
  li_entries : gmap nat KeyEntry;
  li_registrations : gmap nat Registration;
  li_waking : option (string * nat) }.

Definition LiveRegistry_new : LiveRegistry := mkLive ∅ ∅ ∅ None.

(** The registration still counts in its entry's interest. *)
Definition live (p : Phase) : bool := match p with Pruning | Dropped => false | _ => true end.
(** [register] has returned and the guard is not dropped. *)
Definition held (p : Phase) : bool := match p with Registering | Pruning | Dropped => false | _ => true end.

(** [wait] has not returned. *)
Definition pending (p : Phase) : bool := match p with Held | Enabled _ | Sleeping _ => true | _ => false end.

Lemma held_live p : held p = true → live p = true.
Proof. by destruct p. Qed.
Lemma pending_live p : pending p = true → live p = true.
Proof. by destruct p. Qed.

Definition with_phase (r : Registration) (p : Phase) : Registration := mkRegistration (rg_key r) (rg_entry r) (rg_seen_generation r) p (rg_started r) (rg_ended r).

(** [notify_waiters]: every enabled future of the entry completes. *)
Definition notify (e : nat) (r : Registration) : Registration :=
  if bool_decide (rg_entry r = e) then
    match rg_phase r with
    | Enabled _ => with_phase r (Enabled true)
    | Sleeping _ => with_phase r (Sleeping true)
    | _ => r
    end
  else r.

(** The two marks; a wait that has returned keeps what it had. *)
Definition mark_started (k : string) (r : Registration) : Registration :=
  if bool_decide (rg_key r = k) && pending (rg_phase r) then mkRegistration (rg_key r) (rg_entry r) (rg_seen_generation r) (rg_phase r) true (rg_ended r) else r.
Definition mark_ended (k : string) (r : Registration) : Registration :=
  if bool_decide (rg_key r = k) && pending (rg_phase r) && rg_started r
  then mkRegistration (rg_key r) (rg_entry r) (rg_seen_generation r) (rg_phase r) (rg_started r) true else r.

Definition add_interest (en : KeyEntry) : KeyEntry := mkKeyEntry (ke_generation en) (ke_interest en + 1).
Definition sub_interest (en : KeyEntry) : KeyEntry := mkKeyEntry (ke_generation en) (ke_interest en - 1).
Definition bump (en : KeyEntry) : KeyEntry := mkKeyEntry (ke_generation en + 1) (ke_interest en).

Definition fresh_registration (k : string) (e : nat) : Registration := mkRegistration k e 0 Registering false false.

(** Dropping the map entry, if it is still this one and nobody is interested. *)
Definition prune (l : LiveRegistry) (r : Registration) : gmap string nat :=
  if bool_decide (li_keys l !! rg_key r = Some (rg_entry r)) && bool_decide (ke_interest <$> li_entries l !! rg_entry r = Some 0%nat)
  then delete (rg_key r) (li_keys l) else li_keys l.

Inductive step : LiveRegistry → LiveRegistry → Prop :=
| register_new l id k e :
    li_waking l = None → li_keys l !! k = None → li_entries l !! e = None → li_registrations l !! id = None →
    step l (mkLive (<[k := e]> (li_keys l)) (<[e := mkKeyEntry 0 1]> (li_entries l)) (<[id := fresh_registration k e]> (li_registrations l)) None)
| register_known l id k e en :
    li_waking l = None → li_keys l !! k = Some e → li_entries l !! e = Some en → li_registrations l !! id = None →
    step l (mkLive (li_keys l) (<[e := add_interest en]> (li_entries l)) (<[id := fresh_registration k e]> (li_registrations l)) None)
| load_generation l id r en :
    li_registrations l !! id = Some r → rg_phase r = Registering → li_entries l !! rg_entry r = Some en →
    step l (mkLive (li_keys l) (li_entries l) (<[id := mkRegistration (rg_key r) (rg_entry r) (ke_generation en) Held false false]> (li_registrations l)) (li_waking l))
| wait_enable l id r :
    li_registrations l !! id = Some r → rg_phase r = Held →
    step l (mkLive (li_keys l) (li_entries l) (<[id := with_phase r (Enabled false)]> (li_registrations l)) (li_waking l))
| wait_changed l id r b en :
    li_registrations l !! id = Some r → rg_phase r = Enabled b → li_entries l !! rg_entry r = Some en → ke_generation en ≠ rg_seen_generation r →
    step l (mkLive (li_keys l) (li_entries l) (<[id := with_phase r (Returned Woken)]> (li_registrations l)) (li_waking l))
| wait_unchanged l id r b en :
    li_registrations l !! id = Some r → rg_phase r = Enabled b → li_entries l !! rg_entry r = Some en → ke_generation en = rg_seen_generation r →
    step l (mkLive (li_keys l) (li_entries l) (<[id := with_phase r (Sleeping b)]> (li_registrations l)) (li_waking l))
| wait_notified l id r :
    li_registrations l !! id = Some r → rg_phase r = Sleeping true →
    step l (mkLive (li_keys l) (li_entries l) (<[id := with_phase r (Returned Woken)]> (li_registrations l)) (li_waking l))
| wait_timeout l id r :
    li_registrations l !! id = Some r → rg_phase r = Sleeping false →
    step l (mkLive (li_keys l) (li_entries l) (<[id := with_phase r (Returned TimedOut)]> (li_registrations l)) (li_waking l))
| drop_interest l id r en :
    li_registrations l !! id = Some r → held (rg_phase r) = true → li_entries l !! rg_entry r = Some en →
    step l (mkLive (li_keys l) (<[rg_entry r := sub_interest en]> (li_entries l))
              (<[id := with_phase r (if bool_decide (ke_interest en = 1%nat) then Pruning else Dropped)]> (li_registrations l)) (li_waking l))
| drop_prune l id r :
    li_waking l = None → li_registrations l !! id = Some r → rg_phase r = Pruning →
    step l (mkLive (prune l r) (li_entries l) (<[id := with_phase r Dropped]> (li_registrations l)) None)
| wake_unknown l k :
    li_waking l = None → li_keys l !! k = None →
    step l (mkLive (li_keys l) (li_entries l) ((λ r, mark_ended k (mark_started k r)) <$> li_registrations l) None)
| wake_bump l k e en :
    li_waking l = None → li_keys l !! k = Some e → li_entries l !! e = Some en →
    step l (mkLive (li_keys l) (<[e := bump en]> (li_entries l)) (mark_started k <$> li_registrations l) (Some (k, e)))
| wake_notify l k e :
    li_waking l = Some (k, e) →
    step l (mkLive (li_keys l) (li_entries l) ((λ r, mark_ended k (notify e r)) <$> li_registrations l) None).

Definition reachable (l : LiveRegistry) : Prop := rtc step LiveRegistry_new l.

(** ** The invariant *)

(** The registrations that count in the interest of an entry. *)
Definition counts_in (e : nat) (ir : nat * Registration) : Prop := rg_entry ir.2 = e ∧ live (rg_phase ir.2) = true.
#[local] Instance counts_in_dec e ir : Decision (counts_in e ir) := and_dec _ _.
Definition interested (l : LiveRegistry) (e : nat) : nat := size (filter (counts_in e) (li_registrations l)).

(** A registration that holds its entry: the entry is the one in the map; a wake that began since
    has bumped it; and if it sleeps through a wake, it is notified or about to be. *)
Record reg_ok (l : LiveRegistry) (r : Registration) : Prop := {
  ro_mapped : live (rg_phase r) = true → li_keys l !! rg_key r = Some (rg_entry r);
  ro_entry : is_Some (li_entries l !! rg_entry r);
  ro_started : pending (rg_phase r) = true → ∀ en, li_entries l !! rg_entry r = Some en →
    rg_seen_generation r ≤ ke_generation en ∧ (rg_started r = true → rg_seen_generation r < ke_generation en);
  ro_sleeping : ∀ b, rg_phase r = Sleeping b → rg_started r = true → b = true ∨ li_waking l = Some (rg_key r, rg_entry r);
  ro_ended : rg_ended r = true → rg_started r = true;
  ro_missed : ∀ b, rg_phase r = Sleeping b → rg_ended r = true → b = true;
  ro_timed_out : rg_phase r = Returned TimedOut → rg_ended r = false }.

Record live_ok (l : LiveRegistry) : Prop := {
  lo_regs : ∀ id r, li_registrations l !! id = Some r → reg_ok l r;
  lo_interest : ∀ e en, li_entries l !! e = Some en → ke_interest en = interested l e;
  lo_waking : ∀ k e, li_waking l = Some (k, e) → li_keys l !! k = Some e }.

Lemma new_ok : live_ok LiveRegistry_new.
Proof. split; cbn; [by intros id r ?%lookup_empty_Some|by intros e en ?%lookup_empty_Some|done]. Qed.

(** ** Counting *)

Section Count.
Context (m : gmap nat Registration) (e : nat).
Abbreviation cnt m := (size (filter (counts_in e) m)).

Lemma count_same id r r' : m !! id = Some r → (counts_in e (id, r) ↔ counts_in e (id, r')) → cnt (<[id := r']> m) = cnt m.
Proof.
  intros Hid Hiff. destruct (decide (counts_in e (id, r'))) as [Hp|Hn].
  - rewrite map_filter_insert_True by done. rewrite map_size_insert_Some; [done|]. exists r. apply map_lookup_filter_Some. split; [done|by apply Hiff].
  - rewrite map_filter_insert_False by done. f_equal. apply map_filter_delete_not. intros r0. rewrite Hid. intros [= <-]. by rewrite Hiff.
Qed.

Lemma count_new id r : m !! id = None → counts_in e (id, r) → cnt (<[id := r]> m) = S (cnt m).
Proof. intros Hid Hp. rewrite map_filter_insert_True by done. rewrite map_size_insert_None; [done|]. apply map_lookup_filter_None. by left. Qed.

Lemma count_new_not id r : m !! id = None → ¬ counts_in e (id, r) → cnt (<[id := r]> m) = cnt m.
Proof. intros Hid Hn. rewrite map_filter_insert_False by done. by rewrite delete_id. Qed.

Lemma count_drop id r r' : m !! id = Some r → counts_in e (id, r) → ¬ counts_in e (id, r') → S (cnt (<[id := r']> m)) = cnt m.
Proof.
  intros Hid Hp Hn. rewrite map_filter_insert_False by done. rewrite map_filter_delete. rewrite map_size_delete_Some; [|exists r; by apply map_lookup_filter_Some].
  assert (Hpos : size (filter (counts_in e) m) ≠ 0%nat); [|lia]. intros Hz%map_size_empty_iff. assert (Hl : filter (counts_in e) m !! id = Some r) by (by apply map_lookup_filter_Some).
  by rewrite Hz, lookup_empty in Hl.
Qed.

Lemma count_fmap (f : Registration → Registration) : (∀ r, rg_entry (f r) = rg_entry r) → (∀ r, live (rg_phase (f r)) = live (rg_phase r)) → cnt (f <$> m) = cnt m.
Proof.
  intros He Hl. rewrite map_filter_fmap, map_size_fmap. f_equal. apply map_filter_ext. intros i x _. unfold counts_in. cbn. by rewrite He, Hl.
Qed.

Lemma count_pos id r : m !! id = Some r → counts_in e (id, r) → cnt m ≠ 0%nat.
Proof.
  intros Hid Hp Hz%map_size_empty_iff. assert (Hl : filter (counts_in e) m !! id = Some r) by (by apply map_lookup_filter_Some). by rewrite Hz, lookup_empty in Hl.
Qed.

Lemma count_zero : (∀ id r, m !! id = Some r → rg_entry r ≠ e) → cnt m = 0%nat.
Proof.
  intros Hno. apply map_size_empty_iff, map_empty. intros id. apply map_lookup_filter_None. destruct (m !! id) as [r|] eqn:Hr; [right|by left].
  intros r' [= <-] [He _]. by apply (Hno id r).
Qed.

End Count.

(** ** Steps keep the invariant *)

(** Another registration is carried over when its key stays mapped and its entry only grows. *)
Lemma reg_ok_carry l l' r :
  reg_ok l r → (live (rg_phase r) = true → li_keys l' !! rg_key r = Some (rg_entry r)) →
  (∀ en, li_entries l !! rg_entry r = Some en → ∃ en', li_entries l' !! rg_entry r = Some en' ∧ ke_generation en ≤ ke_generation en') →
  (li_waking l = None ∨ li_waking l' = li_waking l) → reg_ok l' r.
Proof.
  intros [Hm [en He] Hs Hsl Hend Hmiss Hto] Hk Hent Hw. destruct (Hent en He) as (en' & He' & Hg). split; [done|by eexists|..].
  - intros Hp en2 Hen2. destruct (Hs Hp en He) as [H1 H2]. assert (en2 = en') as -> by congruence. split; [lia|]. intros Hst. specialize (H2 Hst). lia.
  - intros b Hb Hst. destruct (Hsl b Hb Hst) as [->|Hw']; [by left|]. destruct Hw as [Hw|Hw]; [congruence|]. right. by rewrite Hw.
  - done.
  - done.
  - done.
Qed.

(** A step of one registration that moves it from phase to phase. *)
Lemma local_step l id r r' :
  live_ok l → li_registrations l !! id = Some r → rg_entry r' = rg_entry r → live (rg_phase r') = live (rg_phase r) → reg_ok l r' →
  live_ok (mkLive (li_keys l) (li_entries l) (<[id := r']> (li_registrations l)) (li_waking l)).
Proof.
  intros [Hregs Hint Hw] Hid He Hl Hr'. split; [|intros e en Hen; cbn in *|done].
  - cbn. intros id' x [[_ <-]|[_ Hx]]%lookup_insert_Some; [by destruct Hr'|]. by destruct (Hregs _ _ Hx).
  - rewrite (Hint e en Hen). unfold interested. cbn. symmetry. eapply count_same; [exact Hid|]. unfold counts_in. cbn. by rewrite He, Hl.
Qed.

(** A registration whose phase alone changes, to one that asks for nothing more. *)
Lemma with_phase_ok l r p :
  reg_ok l r → live p = live (rg_phase r) → (pending p = true → pending (rg_phase r) = true) →
  (∀ b, p = Sleeping b → (rg_started r = true → b = true ∨ li_waking l = Some (rg_key r, rg_entry r)) ∧ (rg_ended r = true → b = true)) →
  (p = Returned TimedOut → rg_ended r = false) → reg_ok l (with_phase r p).
Proof.
  intros [Hm He Hs Hsl Hend Hmiss Hto] Hl Hp Hsleep Hret. split; cbn; [by rewrite Hl|done|by auto| |done| |done].
  - intros b Hb. by apply Hsleep.
  - intros b Hb. by apply Hsleep.
Qed.

Lemma register_new_ok l id k e :
  live_ok l → li_waking l = None → li_keys l !! k = None → li_entries l !! e = None → li_registrations l !! id = None →
  live_ok (mkLive (<[k := e]> (li_keys l)) (<[e := mkKeyEntry 0 1]> (li_entries l)) (<[id := fresh_registration k e]> (li_registrations l)) None).
Proof.
  intros [Hregs Hint Hw] Hwk Hk He Hid.
  assert (Hne : ∀ id r, li_registrations l !! id = Some r → rg_entry r ≠ e) by (intros id' r Hr Heq; destruct (ro_entry _ _ (Hregs _ _ Hr)); congruence).
  split; cbn; [|intros e' en|done].
  - intros id' r [[_ <-]|[_ Hr]]%lookup_insert_Some.
    + split; cbn; try done; [by rewrite lookup_insert_eq|by rewrite lookup_insert_eq].
    + apply (reg_ok_carry l); [by eapply Hregs|..]; cbn; [|intros en Hen; exists en; split; [|lia]|by left].
      * intros Hlive. pose proof (ro_mapped _ _ (Hregs _ _ Hr) Hlive) as Hmap. rewrite lookup_insert_ne; [done|]. intros Heq. rewrite <- Heq in Hmap. congruence.
      * rewrite lookup_insert_ne; [done|]. intros Heq. by apply (Hne id' r Hr).
  - unfold interested. cbn. intros [[<- <-]|[Hee Hen]]%lookup_insert_Some; cbn.
    + rewrite count_new; [by rewrite count_zero|done|]. by split.
    + rewrite count_new_not; [by apply Hint|done|]. by intros [? _].
Qed.

Lemma register_known_ok l id k e en :
  live_ok l → li_waking l = None → li_keys l !! k = Some e → li_entries l !! e = Some en → li_registrations l !! id = None →
  live_ok (mkLive (li_keys l) (<[e := add_interest en]> (li_entries l)) (<[id := fresh_registration k e]> (li_registrations l)) None).
Proof.
  intros [Hregs Hint Hw] Hwk Hk He Hid. split; cbn; [|intros e' en'|done].
  - intros id' r [[_ <-]|[_ Hr]]%lookup_insert_Some.
    + split; cbn; try done. by rewrite lookup_insert_eq.
    + apply (reg_ok_carry l); [by eapply Hregs|..]; cbn; [by apply (Hregs _ _ Hr)| |by left]. intros en0 Hen0.
      destruct (decide (rg_entry r = e)) as [Heq|Hne]; [rewrite Heq in *; exists (add_interest en); rewrite lookup_insert_eq; split; [done|cbn; assert (en0 = en) as -> by congruence; lia]|].
      exists en0. by rewrite lookup_insert_ne.
  - unfold interested. cbn. intros [[<- <-]|[Hee Hen]]%lookup_insert_Some; cbn.
    + rewrite count_new; [rewrite (Hint e en He); unfold interested; lia|done|]. by split.
    + rewrite count_new_not; [by apply Hint|done|]. by intros [? _].
Qed.

Lemma drop_interest_ok l id r en p :
  live_ok l → li_registrations l !! id = Some r → held (rg_phase r) = true → li_entries l !! rg_entry r = Some en → live p = false → 
  live_ok (mkLive (li_keys l) (<[rg_entry r := sub_interest en]> (li_entries l)) (<[id := with_phase r p]> (li_registrations l)) (li_waking l)).
Proof.
  intros [Hregs Hint Hw] Hid Hheld He Hp. split; cbn; [|intros e' en'|done].
  - intros id' x [[_ <-]|[_ Hx]]%lookup_insert_Some.
    + destruct (Hregs _ _ Hid) as [Hm Hen Hs Hsl Hend Hmiss Hto]. destruct p; try done; (split; cbn; try done; by rewrite lookup_insert_eq).
    + apply (reg_ok_carry l); [by eapply Hregs|..]; cbn; [by apply (Hregs _ _ Hx)| |by right]. intros en0 Hen0.
      destruct (decide (rg_entry x = rg_entry r)) as [Heq|Hne]; [rewrite Heq in *; exists (sub_interest en); rewrite lookup_insert_eq; split; [done|cbn; assert (en0 = en) as -> by congruence; lia]|].
      exists en0. by rewrite lookup_insert_ne.
  - unfold interested. cbn. intros [[<- <-]|[Hee Hen]]%lookup_insert_Some; cbn.
    + assert (Hc : S (size (filter (counts_in (rg_entry r)) (<[id := with_phase r p]> (li_registrations l)))) = size (filter (counts_in (rg_entry r)) (li_registrations l))).
      { eapply count_drop; [exact Hid|split; [done|by apply held_live]|intros [_ Hlive]; cbn in Hlive; congruence]. }
      rewrite (Hint _ _ He). unfold interested. lia.
    + rewrite (count_same _ _ id r _ Hid); [by apply Hint|]. unfold counts_in. cbn. naive_solver.
Qed.

Lemma drop_prune_ok l id r :
  live_ok l → li_waking l = None → li_registrations l !! id = Some r → rg_phase r = Pruning →
  live_ok (mkLive (prune l r) (li_entries l) (<[id := with_phase r Dropped]> (li_registrations l)) None).
Proof.
  intros [Hregs Hint Hw] Hwk Hid Hp. split; cbn; [|intros e' en' Hen|done].
  - intros id' x [[_ <-]|[_ Hx]]%lookup_insert_Some.
    + destruct (Hregs _ _ Hid) as [Hm Hen Hs Hsl Hend Hmiss Hto]. split; cbn; done.
    + apply (reg_ok_carry l); [by eapply Hregs|..]; cbn; [|intros en Hen; exists en; split; [done|lia]|by left].
      intros Hlive. pose proof (ro_mapped _ _ (Hregs _ _ Hx) Hlive) as Hmap. unfold prune.
      destruct (bool_decide _ && bool_decide _) eqn:Hb; [|done]. boolify. rewrite lookup_delete_ne; [done|]. intros Heq. rewrite <- Heq in Hmap.
      assert (rg_entry x = rg_entry r) as Hee by congruence. apply fmap_Some in H0 as (en & Hen & Hz). apply Hint in Hen. unfold interested in Hen.
      apply (count_pos (li_registrations l) (rg_entry r) id' x Hx); [by split|congruence].
  - rewrite (Hint e' en' Hen). unfold interested. cbn. symmetry. eapply count_same; [exact Hid|]. unfold counts_in. cbn. rewrite Hp. cbn. naive_solver.
Qed.

(** The marks and notifications change neither entry, key nor liveness. *)
Lemma marks_shape k e r :
  (rg_entry (mark_ended k (notify e r)) = rg_entry r ∧ live (rg_phase (mark_ended k (notify e r))) = live (rg_phase r)) ∧
  (rg_entry (mark_started k r) = rg_entry r ∧ live (rg_phase (mark_started k r)) = live (rg_phase r)) ∧
  (rg_entry (mark_ended k (mark_started k r)) = rg_entry r ∧ live (rg_phase (mark_ended k (mark_started k r))) = live (rg_phase r)).
Proof. unfold mark_ended, mark_started, notify. destruct r as [k' e' s [] a b]; cbn; repeat case_bool_decide; cbn; repeat case_match; done. Qed.

(** Nobody waits on a key that is not in the map. *)
Lemma wake_unknown_ok l k :
  live_ok l → li_waking l = None → li_keys l !! k = None →
  live_ok (mkLive (li_keys l) (li_entries l) ((λ r, mark_ended k (mark_started k r)) <$> li_registrations l) None).
Proof.
  intros [Hregs Hint Hw] Hwk Hk. split; cbn; [|intros e en Hen|done].
  - intros id x (r & <- & Hr)%lookup_fmap_Some. pose proof (Hregs _ _ Hr) as Hok.
    assert (Heq : mark_ended k (mark_started k r) = r).
    { unfold mark_started. destruct (bool_decide (rg_key r = k) && pending (rg_phase r)) eqn:Hb; [|unfold mark_ended; by rewrite Hb]. boolify.
      pose proof (ro_mapped _ _ Hok (pending_live _ H0)). congruence. }
    rewrite Heq. apply (reg_ok_carry l); [done|..]; cbn; [by apply Hok|intros en Hen; exists en; split; [done|lia]|by left].
  - rewrite (Hint e en Hen). unfold interested. cbn. symmetry. apply count_fmap; intros r; apply (marks_shape k e r).
Qed.

Lemma wake_bump_ok l k e en :
  live_ok l → li_waking l = None → li_keys l !! k = Some e → li_entries l !! e = Some en →
  live_ok (mkLive (li_keys l) (<[e := bump en]> (li_entries l)) (mark_started k <$> li_registrations l) (Some (k, e))).
Proof.
  intros [Hregs Hint Hw] Hwk Hk He. split; cbn; [|intros e' en'|by intros k' e' [= <- <-]].
  - intros id x (r & <- & Hr)%lookup_fmap_Some. pose proof (Hregs _ _ Hr) as Hok.
    assert (Hgrow : ∀ en0, li_entries l !! rg_entry r = Some en0 → ∃ en1, <[e := bump en]> (li_entries l) !! rg_entry r = Some en1 ∧ ke_generation en0 ≤ ke_generation en1 ∧ (rg_entry r = e → ke_generation en0 < ke_generation en1)).
    { intros en0 Hen0. destruct (decide (rg_entry r = e)) as [Heq|Hne]; [rewrite Heq in *|].
      - exists (bump en). rewrite lookup_insert_eq. assert (en0 = en) as -> by congruence. cbn. split_and!; [done|lia|lia].
      - exists en0. rewrite lookup_insert_ne by done. split_and!; [done|lia|done]. }
    unfold mark_started. destruct (bool_decide (rg_key r = k) && pending (rg_phase r)) eqn:Hb.
    + boolify. subst k. assert (Hent : rg_entry r = e) by (pose proof (ro_mapped _ _ Hok (pending_live _ H0)); congruence).
      destruct Hok as [Hm [en0 He0] Hs Hsl Hend Hmiss Hto]. destruct (Hgrow en0 He0) as (en1 & He1 & Hg1 & Hg2). destruct (Hs H0 en0 He0) as [Hs1 Hs2].
      split; cbn; [done|by eexists| |intros b Hbb _; right; by rewrite Hent|done|done|done].
      intros _ en2 Hen2. assert (en2 = en1) as -> by congruence. specialize (Hg2 Hent). split; [lia|]. intros _. lia.
    + apply (reg_ok_carry l); [done|..]; cbn; [by apply Hok| |by left]. intros en0 Hen0. destruct (Hgrow en0 Hen0) as (en1 & ? & ? & _). by exists en1.
  - unfold interested. cbn. rewrite count_fmap by (intros r; apply (marks_shape k e r)).
    intros [[<- <-]|[Hee Hen]]%lookup_insert_Some; cbn; by apply Hint.
Qed.

Lemma notify_fields e r :
  rg_key (notify e r) = rg_key r ∧ rg_entry (notify e r) = rg_entry r ∧ rg_seen_generation (notify e r) = rg_seen_generation r ∧
  rg_started (notify e r) = rg_started r ∧ rg_ended (notify e r) = rg_ended r ∧
  live (rg_phase (notify e r)) = live (rg_phase r) ∧ pending (rg_phase (notify e r)) = pending (rg_phase r) ∧
  (∀ b, rg_phase (notify e r) = Sleeping b → ∃ b0, rg_phase r = Sleeping b0 ∧ (b = true ∨ b = b0 ∧ rg_entry r ≠ e)) ∧
  (rg_phase (notify e r) = Returned TimedOut → rg_phase r = Returned TimedOut).
Proof.
  unfold notify. case_bool_decide as He; [|by split_and!; try done; intros b Hb; exists b; auto].
  destruct (rg_phase r) eqn:Hp; cbn; rewrite ?Hp; split_and!; try done; intros b' Hb; try discriminate; injection Hb as <-; eauto.
Qed.

Lemma mark_ended_fields k r :
  rg_key (mark_ended k r) = rg_key r ∧ rg_entry (mark_ended k r) = rg_entry r ∧ rg_seen_generation (mark_ended k r) = rg_seen_generation r ∧
  rg_started (mark_ended k r) = rg_started r ∧ rg_phase (mark_ended k r) = rg_phase r ∧
  (rg_ended (mark_ended k r) = true → rg_ended r = true ∨ rg_key r = k ∧ pending (rg_phase r) = true ∧ rg_started r = true).
Proof.
  unfold mark_ended. destruct (bool_decide (rg_key r = k) && pending (rg_phase r) && rg_started r) eqn:Hb; cbn; split_and!; try done; [|by left].
  boolify. by right.
Qed.

Lemma wake_notify_ok l k e :
  live_ok l → li_waking l = Some (k, e) →
  live_ok (mkLive (li_keys l) (li_entries l) ((λ r, mark_ended k (notify e r)) <$> li_registrations l) None).
Proof.
  intros [Hregs Hint Hw] Hwk. pose proof (Hw _ _ Hwk) as Hk. split; cbn; [|intros e' en' Hen|done].
  - intros id x (r & <- & Hr)%lookup_fmap_Some. pose proof (Hregs _ _ Hr) as [Hm Hent Hs Hsl Hend Hmiss Hto].
    destruct (notify_fields e r) as (N1 & N2 & N3 & N4 & N5 & N6 & N7 & N8 & N9). destruct (mark_ended_fields k (notify e r)) as (M1 & M2 & M3 & M4 & M5 & M6).
    rewrite N1, N4, N5, N7 in M6.
    assert (Hsame : rg_key r = k → pending (rg_phase r) = true → rg_entry r = e) by (intros Hkk Hp; pose proof (Hm (pending_live _ Hp)); congruence).
    split; rewrite ?M1, ?M2, ?M3, ?M4, ?M5, ?N1, ?N2, ?N3, ?N4, ?N6, ?N7; cbn; try done.
    + intros b Hb Hst. destruct (N8 b Hb) as (b0 & Hb0 & [->|[-> Hne]]); [by left|]. destruct (Hsl b0 Hb0 Hst) as [->|Hw2]; [by left|]. congruence.
    + intros Hen. destruct (M6 Hen) as [?|(_ & _ & ?)]; auto.
    + intros b Hb Hen. destruct (N8 b Hb) as (b0 & Hb0 & [->|[-> Hne]]); [done|]. destruct (M6 Hen) as [He0|(Hkk & Hp & _)]; [by eapply Hmiss|]. by destruct Hne; auto.
    + intros Hret%N9. specialize (Hto Hret). apply not_true_iff_false. intros Hen. destruct (M6 Hen) as [?|(_ & Hp & _)]; [congruence|]. by rewrite Hret in Hp.
  - rewrite (Hint e' en' Hen). unfold interested. cbn. symmetry. apply count_fmap; intros r; apply (marks_shape k e r).
Qed.

Lemma step_ok l l' : live_ok l → step l l' → live_ok l'.
Proof.
  intros Hl Hstep. destruct Hstep as [l id k e|l id k e en|l id r en Hid Hp He|l id r Hid Hp|l id r b en Hid Hp He Hg|l id r b en Hid Hp He Hg|l id r Hid Hp|l id r Hid Hp|l id r en Hid Hheld He|l id r|l k|l k e en|l k e];
    eauto using register_new_ok, register_known_ok, drop_prune_ok, wake_unknown_ok, wake_bump_ok, wake_notify_ok.
  - pose proof (lo_regs _ Hl _ _ Hid) as [Hm He' _ _ _ _ _]. eapply local_step; [done|exact Hid|done|by rewrite Hp|]. rewrite Hp in Hm. split; cbn; try done.
    intros _ en' Hen'. assert (en' = en) as -> by congruence. split; [lia|done].
  - eapply local_step; [done|exact Hid|done|by cbn; rewrite Hp|]. apply with_phase_ok; [by eapply lo_regs|by rewrite Hp|by rewrite Hp|done|done].
  - eapply local_step; [done|exact Hid|done|by cbn; rewrite Hp|]. apply with_phase_ok; [by eapply lo_regs|by rewrite Hp|done|done|done].
  - eapply local_step; [done|exact Hid|done|by cbn; rewrite Hp|]. pose proof (lo_regs _ Hl _ _ Hid) as Hok. destruct (ro_started _ _ Hok ltac:(by rewrite Hp) en He) as [_ Hst].
    apply with_phase_ok; [done|by rewrite Hp|by rewrite Hp| |done]. intros b' [= <-]. pose proof (ro_ended _ _ Hok) as Hend. split; [intros Hs%Hst; lia|intros Hs%Hend%Hst; lia].
  - eapply local_step; [done|exact Hid|done|by cbn; rewrite Hp|]. apply with_phase_ok; [by eapply lo_regs|by rewrite Hp|done|done|done].
  - eapply local_step; [done|exact Hid|done|by cbn; rewrite Hp|]. pose proof (lo_regs _ Hl _ _ Hid) as Hok. apply with_phase_ok; [done|by rewrite Hp|done|done|].
    intros _. destruct (rg_ended r) eqn:Hend; [|done]. by pose proof (ro_missed _ _ Hok _ Hp Hend).
  - apply drop_interest_ok; [done..|]. by case_bool_decide.
Qed.

Lemma reachable_ok l : reachable l → live_ok l.
Proof. unfold reachable. revert l. apply (rtc_ind_r live_ok); [apply new_ok|]. intros l1 l2 _ Hs Hl. by eapply step_ok. Qed.

(** C17: no wake is lost. Whatever registrations, waits, wakes, drops and prunings are interleaved, a
    wait that gives up has missed nothing: no wake of its key both began and ended between the
    moment its registration was made and the moment it gave up. *)
Theorem no_wake_is_lost l id r :
  reachable l → li_registrations l !! id = Some r → rg_phase r = Returned TimedOut → rg_ended r = false.
Proof. intros Hr Hid. apply (ro_timed_out l r). apply (lo_regs _ (reachable_ok l Hr) _ _ Hid). Qed.

(** A registration keeps its key in the map until it is dropped, so a wake always finds the entry
    that the waiters of the key are on; entries are pruned only when no registration is left. *)
Theorem registered_keys_are_mapped l id r :
  reachable l → li_registrations l !! id = Some r → live (rg_phase r) = true → li_keys l !! rg_key r = Some (rg_entry r).
Proof. intros Hr Hid. apply (ro_mapped l r). apply (lo_regs _ (reachable_ok l Hr) _ _ Hid). Qed.

(** * Typing notices (crates/mail4agent-server/src/typing.rs)

    The in-memory registry: per room who is typing until when, and a serial stamped from one
    counter on every effective change. Instants are nanoseconds; the counter is a [u64] that is
    stamped once per change and is not taken to wrap. *)

From S2P Require Import Sqlite ServerDbProps.

Definition TYPING_THROTTLE_WINDOW : Z := 3 * 1000000000.
Definition TYPING_MAX_TIMEOUT_MS : Z := 30000.

(** [now.saturating_duration_since(last)] *)
Definition since_instant (now last : Z) : Z := Z.max 0 (now - last).

Record TypingUserState := mkTypingUser { tu_expires_at : Z; tu_is_active : bool; tu_last_true_accepted_at : option Z }.
Record RoomTyping := mkRoomTyping { rt_users : gmap Z TypingUserState; rt_serial : Z }.
Record TypingRegistry := mkTypingRegistry { tr_rooms : gmap string RoomTyping; tr_next_gen : Z }.

Definition TypingRegistry_with_seed (seed : Z) : TypingRegistry := mkTypingRegistry ∅ seed.
Definition TypingRegistry_new : TypingRegistry := TypingRegistry_with_seed 0.

(** ** [reap_room] *)

Definition timed_out (now : Z) (s : TypingUserState) : bool := tu_is_active s && (tu_expires_at s <=? now).

Definition within_window (now : Z) (s : TypingUserState) : bool :=
  match tu_last_true_accepted_at s with Some last => since_instant now last <=? TYPING_THROTTLE_WINDOW | None => false end.

Definition deactivate (s : TypingUserState) : TypingUserState := mkTypingUser (tu_expires_at s) false (tu_last_true_accepted_at s).

Definition reap_room (room : RoomTyping) (now next_gen : Z) : RoomTyping * Z * bool :=
  let bumped := existsb (timed_out now) (snd <$> map_to_list (rt_users room)) in
  let users := (λ s, if timed_out now s then deactivate s else s) <$> rt_users room in
  let serial := if bumped then next_gen + 1 else rt_serial room in
  let users := filter (λ us, tu_is_active us.2 || within_window now us.2 = true) users in
  (mkRoomTyping users serial, if bumped then next_gen + 1 else next_gen, bumped).

(** ** [set_typing] *)

Definition set_user (room : RoomTyping) (user_id : Z) (s : TypingUserState) : RoomTyping := mkRoomTyping (<[user_id := s]> (rt_users room)) (rt_serial room).

Definition set_typing (r : TypingRegistry) (room_id : string) (user_id : Z) (typing : bool) (timeout_ms now : Z) : TypingRegistry * bool :=
  let room := default (mkRoomTyping ∅ 0) (tr_rooms r !! room_id) in
  let '(room, changed) :=
    if typing then
      let timeout := Z.min timeout_ms TYPING_MAX_TIMEOUT_MS * 1000000 in
      let state := default (mkTypingUser now false None) (rt_users room !! user_id) in
      let throttled := match tu_last_true_accepted_at state with Some last => since_instant now last <? TYPING_THROTTLE_WINDOW | None => false end in
      if throttled then (set_user room user_id state, false)
      else (set_user room user_id (mkTypingUser (now + timeout) true (Some now)), negb (tu_is_active state))
    else
      match rt_users room !! user_id with
      | Some state => if tu_is_active state then (set_user room user_id (mkTypingUser now false (tu_last_true_accepted_at state)), true) else (room, false)
      | None => (room, false)
      end in
  let '(room, next_gen) := if changed then (mkRoomTyping (rt_users room) (tr_next_gen r + 1), tr_next_gen r + 1) else (room, tr_next_gen r) in
  (mkTypingRegistry (<[room_id := room]> (tr_rooms r)) next_gen, changed).

Definition current_typing_gen (r : TypingRegistry) : Z := tr_next_gen r.

(** ** Reads, which reap first and drop a room with nobody left *)

Definition put_room (r : TypingRegistry) (room_id : string) (room : RoomTyping) (next_gen : Z) : TypingRegistry :=
  mkTypingRegistry (if bool_decide (rt_users room = ∅) then delete room_id (tr_rooms r) else <[room_id := room]> (tr_rooms r)) next_gen.

Definition typing_users (r : TypingRegistry) (room_id : string) (now : Z) : TypingRegistry * list Z :=
  match tr_rooms r !! room_id with
  | None => (r, [])
  | Some room =>
      let '(room, next_gen, _) := reap_room room now (tr_next_gen r) in
      (put_room r room_id room next_gen, merge_sort Z.le (fst <$> List.filter (λ us, tu_is_active us.2) (map_to_list (rt_users room))))
  end.

Definition typing_serial (r : TypingRegistry) (room_id : string) (now : Z) : TypingRegistry * Z :=
  match tr_rooms r !! room_id with
  | None => (r, 0)
  | Some room =>
      let '(room, next_gen, _) := reap_room room now (tr_next_gen r) in
      (put_room r room_id room next_gen, rt_serial room)
  end.

(** The sweep visits the rooms in some order. *)
Definition rooms_with_expired_typing (r : TypingRegistry) (now : Z) : TypingRegistry * list string :=
  foldl (λ '(r, changed) '(room_id, room),
           let '(room, next_gen, bumped) := reap_room room now (tr_next_gen r) in
           (put_room r room_id room next_gen, if bumped then changed ++ [room_id] else changed)) (r, []) (map_to_list (tr_rooms r)).

(** ** The serial invariant *)

Definition typing_ok (r : TypingRegistry) : Prop :=
  0 ≤ tr_next_gen r ∧ ∀ room_id room, tr_rooms r !! room_id = Some room → rt_serial room ≤ tr_next_gen r.

Lemma reap_serial room now g : rt_serial room ≤ g →
  let '(room', g', bumped) := reap_room room now g in rt_serial room ≤ rt_serial room' ≤ g' ∧ g ≤ g'.
Proof. intros Hs. unfold reap_room. destruct (existsb _ _); cbn -[Z.add]; lia. Qed.

Lemma put_room_ok r room_id room g : typing_ok r → tr_next_gen r ≤ g → rt_serial room ≤ g → typing_ok (put_room r room_id room g).
Proof.
  intros [H0 Hr] Hg Hs. split; [cbn; lia|]. intros id room'. unfold put_room. cbn. case_bool_decide.
  - intros [_ Hl]%lookup_delete_Some. apply Hr in Hl. lia.
  - intros [[_ <-]|[_ Hl]]%lookup_insert_Some; [done|]. apply Hr in Hl. lia.
Qed.

Lemma typing_serial_ok r room_id now :
  typing_ok r → typing_ok (typing_serial r room_id now).1 ∧ tr_next_gen r ≤ tr_next_gen (typing_serial r room_id now).1.
Proof.
  intros Hr. unfold typing_serial. destruct (tr_rooms r !! room_id) as [room|] eqn:Hl; [|split; [done|cbn; lia]].
  pose proof (reap_serial room now (tr_next_gen r) (proj2 Hr _ _ Hl)) as Hs. destruct (reap_room room now (tr_next_gen r)) as [[room' g'] b]. cbn.
  split; [apply put_room_ok; [done|lia..]|lia].
Qed.

Lemma typing_users_ok r room_id now : typing_ok r → typing_ok (typing_users r room_id now).1.
Proof.
  intros Hr. unfold typing_users. destruct (tr_rooms r !! room_id) as [room|] eqn:Hl; [|done].
  pose proof (reap_serial room now (tr_next_gen r) (proj2 Hr _ _ Hl)) as Hs. destruct (reap_room room now (tr_next_gen r)) as [[room' g'] b]. cbn.
  apply put_room_ok; [done|lia..].
Qed.

(** What [set_typing] leaves: the room's serial, stamped if there was a change. *)
Lemma set_typing_room r room_id u typing timeout now :
  let '(r', changed) := set_typing r room_id u typing timeout now in
  ∃ users, r' = mkTypingRegistry (<[room_id := mkRoomTyping users (if changed then tr_next_gen r + 1 else default 0 (rt_serial <$> tr_rooms r !! room_id))]> (tr_rooms r))
                  (if changed then tr_next_gen r + 1 else tr_next_gen r).
Proof.
  unfold set_typing. set (room := default (mkRoomTyping ∅ 0) (tr_rooms r !! room_id)).
  assert (Hs : rt_serial room = default 0 (rt_serial <$> tr_rooms r !! room_id)) by (subst room; by destruct (tr_rooms r !! room_id)). rewrite <- Hs. clearbody room. clear Hs.
  set (p := if typing then _ else _). assert (Hp : rt_serial p.1 = rt_serial room).
  { subst p. destruct typing; [destruct (match tu_last_true_accepted_at _ with Some _ => _ | None => _ end); done|].
    destruct (rt_users room !! u) as [state|]; [destruct (tu_is_active state)|]; done. }
  clearbody p. destruct p as [room' [|]]; cbn in Hp; exists (rt_users room'); [done|]. rewrite <- Hp. by destruct room'.
Qed.

Lemma set_typing_ok r room_id u typing timeout now : typing_ok r → typing_ok (set_typing r room_id u typing timeout now).1.
Proof.
  intros Hr. pose proof (set_typing_room r room_id u typing timeout now) as Hs. destruct (set_typing r room_id u typing timeout now) as [r' changed].
  destruct Hs as [users ->]. destruct Hr as [H0 Hr]. split; [cbn; destruct changed; lia|]. cbn.
  intros id x [[_ <-]|[_ Hl]]%lookup_insert_Some; cbn; [|apply Hr in Hl; destruct changed; lia].
  destruct changed; [lia|]. destruct (tr_rooms r !! room_id) as [y|] eqn:Hy; cbn; [by apply Hr in Hy|lia].
Qed.

(** A change of who is typing is seen by the next read: whoever holds a token from before it
    (its generation is at most the counter's) finds the room's serial above the token's, at any
    later time and whatever other rooms and reads did to the counter. *)
Theorem typing_change_is_seen r room_id u typing timeout now later token :
  typing_ok r → token ≤ current_typing_gen r → (set_typing r room_id u typing timeout now).2 = true →
  token < (typing_serial (set_typing r room_id u typing timeout now).1 room_id later).2.
Proof.
  intros Hr Ht Hch. pose proof (set_typing_ok r room_id u typing timeout now Hr) as Hok. pose proof (set_typing_room r room_id u typing timeout now) as Hs.
  destruct (set_typing r room_id u typing timeout now) as [r' changed]. cbn in Hch, Hok |- *. subst changed. destruct Hs as [users ->].
  unfold typing_serial. cbn [tr_rooms]. rewrite lookup_insert_eq. cbn [tr_next_gen].
  match goal with |- context [reap_room ?rm later ?g] => pose proof (reap_serial rm later g) as Hs; destruct (reap_room rm later g) as [[room' g'] b] end.
  unfold current_typing_gen in Ht. cbn in *. lia.
Qed.

(** ** Who is shown as typing *)

Lemma reap_users room now g u :
  rt_users (reap_room room now g).1.1 !! u =
  s ← rt_users room !! u; let s' := if timed_out now s then deactivate s else s in if tu_is_active s' || within_window now s' then Some s' else None.
Proof.
  unfold reap_room. cbn. rewrite map_lookup_filter, lookup_fmap. destruct (rt_users room !! u) as [s|]; [|done]. cbn.
  destruct (tu_is_active _ || within_window _ _); [by rewrite option_guard_True|by rewrite option_guard_False].
Qed.

(** Exactly the users whose flag is set and has not run out are shown, in order. *)
Theorem typing_users_are_current r room_id now :
  let shown := (typing_users r room_id now).2 in
  StronglySorted Z.le shown ∧ NoDup shown ∧
  ∀ u, u ∈ shown ↔ ∃ room s, tr_rooms r !! room_id = Some room ∧ rt_users room !! u = Some s ∧ tu_is_active s = true ∧ now < tu_expires_at s.
Proof.
  unfold typing_users. destruct (tr_rooms r !! room_id) as [room|]; cbn zeta.
  2: { cbn. split_and!; [constructor..|]. intros u. split; [by intros ?%not_elem_of_nil|naive_solver]. }
  pose proof (reap_users room now (tr_next_gen r)) as Hu. destruct (reap_room room now (tr_next_gen r)) as [[room' g'] b]. cbn in Hu |- *. split_and!.
  - apply StronglySorted_merge_sort; apply _.
  - rewrite merge_sort_Permutation. change (List.filter ?p ?l) with (select p l). apply (keyed_sublist fst (map_to_list (rt_users room'))); [apply select_sublist|apply NoDup_fst_map_to_list].
  - intros u. rewrite merge_sort_Permutation, list_elem_of_fmap. change (List.filter ?p ?l) with (select p l). setoid_rewrite elem_of_select.
    split.
    + intros ([u' s'] & -> & Hin & Hact). apply elem_of_map_to_list in Hin. cbn in *. rewrite Hu in Hin. destruct (rt_users room !! u') as [s|] eqn:Hs; [|done]. cbn in Hin.
      exists room, s. unfold timed_out in Hin. destruct (tu_is_active s) eqn:Ha; cbn in Hin.
      * destruct (tu_expires_at s <=? now) eqn:Hx; cbn in Hin; [|by boolify]. case_match; [|done]. injection Hin as <-. done.
      * rewrite Ha in Hin. cbn in Hin. case_match; [|done]. injection Hin as <-. congruence.
    + intros (room0 & s & [= <-] & Hs & Ha & Hx). exists (u, s). split_and!; [done| |done]. apply elem_of_map_to_list. rewrite Hu, Hs. cbn. unfold timed_out.
      replace (tu_expires_at s <=? now) with false by (symmetry; apply Z.leb_gt; lia). rewrite andb_false_r. by rewrite Ha.
Qed.

(** ** A stop that is lost *)

(** The registry after a stop whose typist was alone and was last accepted longer ago than the
    throttle window: the first read of the serial drops the room, and every read after it answers 0. *)
Theorem late_stop_is_seen_once r room_id u room s timeout now :
  tr_rooms r !! room_id = Some room → rt_users room = {[u := s]} → tu_is_active s = true →
  (∀ last, tu_last_true_accepted_at s = Some last → TYPING_THROTTLE_WINDOW < since_instant now last) →
  let r1 := (set_typing r room_id u false timeout now).1 in
  (set_typing r room_id u false timeout now).2 = true ∧ (typing_serial r1 room_id now).2 = current_typing_gen r + 1 ∧
  (typing_serial (typing_serial r1 room_id now).1 room_id now).2 = 0.
Proof.
  intros Hroom Husers Hact Hlast. unfold set_typing. rewrite Hroom. cbn [from_option id]. rewrite Husers, lookup_singleton_eq, Hact. cbn [set_user rt_users rt_serial].
  rewrite Husers, insert_singleton_eq. cbn zeta. split; [done|]. unfold typing_serial. cbn [fst tr_rooms tr_next_gen]. rewrite lookup_insert_eq.
  set (s1 := mkTypingUser now false (tu_last_true_accepted_at s)). unfold reap_room. cbn [rt_users rt_serial].
  rewrite map_to_list_singleton. cbn [fmap list_fmap existsb snd timed_out tu_is_active s1 andb orb]. rewrite map_fmap_singleton.
  assert (Hw : within_window now s1 = false).
  { unfold within_window, s1. cbn. destruct (tu_last_true_accepted_at s) as [last|]; [|done]. apply Z.leb_gt. by apply Hlast. }
  match goal with |- context [put_room _ _ (mkRoomTyping ?us _)] => assert (He : us = ∅) end.
  { apply map_eq. intros i. rewrite map_lookup_filter, lookup_empty. destruct (decide (i = u)) as [->|Hne]; [|by rewrite lookup_singleton_ne].
    rewrite lookup_singleton_eq. cbn [mbind option_bind]. rewrite option_guard_False; [done|]. cbn. fold s1. by rewrite Hw. }
  split; [done|]. cbn [fst]. unfold put_room. cbn [rt_users]. rewrite He. rewrite bool_decide_true by done. cbn [tr_rooms]. by rewrite lookup_delete_eq.
Qed.
