(* ===== verification/ServerRooms.v ===== *)
(** * Rooms, state, timelines and receipts (crates/mail4agent-server/src/store.rs, f3.rs,
      public_channels.rs)

    The statements on the room tables of [ServerDb]: state events with the projections that follow
    them (the current state, the members, their power levels), timeline events with their
    relations, redactions, receipts, what a user may read, and the rules on power levels. Events of
    plaintext channels have tables of their own.

    A room of the event graph has its events built and stored by the graph, in the same
    transaction; the graph is the interface [RoomDag]. A random id is an argument. *)

From Stdlib Require Import Ascii.
From S2P Require Import Prelude Sqlite Json ServerDb ServerKeyOps.

Local Open Scope Z_scope.

Definition MATRIX_ROOM_VERSION : string := "11".
Definition MATRIX_EVENT_CONTENT_MAX_BYTES : Z := 16 * 1024.

Inductive MatrixStoreError :=
| StoreDb (e : DbError)
| StoreJson (e : string)
| DuplicateAnnotation
| UnknownEventId (id : string)
| UnknownMxid (mxid : string)
| InvalidMembership (m : string)
| InvalidRelationTarget (id : string)
| WrongRoom (id : string)
| UnredactableEvent (event_type : string)
| F3Rejected (why : string).

(** [From<MatrixStoreError> for MatrixError] *)
Definition from_store_error (e : MatrixStoreError) : MatrixError :=
  match e with
  | StoreDb e => from_db e
  | StoreJson _ => bad_json "Malformed event content"
  | DuplicateAnnotation => duplicate_annotation
  | UnknownEventId id => not_found ("Unknown event: " +:+ id)
  | UnknownMxid id => not_found ("Unknown user: " +:+ id)
  | InvalidMembership m => invalid_param ("Invalid membership: " +:+ m)
  | InvalidRelationTarget id => invalid_param ("Invalid relation target: " +:+ id)
  | WrongRoom id => invalid_param ("Event is not in this room: " +:+ id)
  | F3Rejected why => forbidden ("Refused by the room's auth rules: " +:+ why)
  | UnredactableEvent t => forbidden ("This event type cannot be redacted: " +:+ t)
  end.

(** What rooms need of the event graph: building, checking and storing one local event. *)
Class RoomDag := {
  Dag : Type;
  is_f3_room : Dag → string → bool;
  mark_room : Dag → string → Dag;
  dag_local_event : Dag → string → Z → string → string → option string → Value → result (Dag * string) MatrixStoreError
}.

(** ** Values *)

Definition value_as_i64 (v : Value) : option Z := match v with VNumber n => as_i64 n | _ => None end.

(** [json!(n)] for an [i64]. *)
Definition json_int (n : Z) : Value := VNumber (if 0 <=? n then PosInt n else NegInt n).

(** [v[k] = w]: [null] becomes an object; on another value the operator panics, and the code indexes
    objects only. *)
Definition value_set (v : Value) (k : string) (w : Value) : Value :=
  match v with
  | VObject m => VObject (map_insert k w m)
  | VNull => VObject [(k, w)]
  | v => v
  end.

(** [LIMIT ?]: no limit when it is negative. *)
Definition limit_rows {A} (limit : Z) (rows : list A) : list A := if limit <? 0 then rows else take (Z.to_nat limit) rows.

Definition Membership_as_str (m : Membership) : string :=
  match m with Join => "join" | Invite => "invite" | Leave => "leave" | Ban => "ban" end.
Definition JoinRule_as_str (j : JoinRule) : string := match j with InviteRule => "invite" | PublicRule => "public" end.
Definition HistoryVisibility_as_str (v : HistoryVisibility) : string :=
  match v with Shared => "shared" | WorldReadable => "world_readable" | Invited => "invited" | Joined => "joined" end.

(** ** Power levels *)

Inductive PowerAction := ActInvite | ActKick | ActBan | ActRedact | ActStateDefault.

Definition field_and_default (action : PowerAction) : string * Z :=
  match action with
  | ActInvite => ("invite", 50)
  | ActKick => ("kick", 50)
  | ActBan => ("ban", 50)
  | ActRedact => ("redact", 50)
  | ActStateDefault => ("state_default", 50)
  end.

(** [v.get(key).and_then(Value::as_i64)] *)
Definition level_field (v : Value) (key : string) : option Z := get v key ≫= value_as_i64.

Definition user_level (power_levels : Value) (mxid : string) : Z :=
  match get power_levels "users" ≫= λ users, level_field users mxid with
  | Some level => level
  | None => default 0 (level_field power_levels "users_default")
  end.

Definition event_level (power_levels : Value) (event_type : string) (is_state : bool) : Z :=
  match get power_levels "events" ≫= λ events, level_field events event_type with
  | Some level => level
  | None =>
      let '(key, default_) := if is_state then ("state_default", 50) else ("events_default", 0) in
      default default_ (level_field power_levels key)
  end.

Definition can (power_levels : Value) (action : PowerAction) (mxid : string) : bool :=
  let '(field, default_) := field_and_default action in
  default default_ (level_field power_levels field) <=? user_level power_levels mxid.

Definition can_act_on (power_levels : Value) (action : PowerAction) (sender_mxid target_mxid : string) (self_leave : bool) : bool :=
  if self_leave && seqb sender_mxid target_mxid then true
  else can power_levels action sender_mxid && (user_level power_levels target_mxid <? user_level power_levels sender_mxid).

Definition power_levels_scalar_default (key : string) : Z :=
  if seqb key "events_default" || seqb key "users_default" then 0 else 50.

Definition POWER_LEVELS_SCALAR_KEYS : list string :=
  ["ban"; "kick"; "redact"; "invite"; "state_default"; "events_default"; "users_default"].

Definition reject_if_either_side_exceeds (old_value new_value : option Z) (sender_level : Z) : result unit string :=
  if negb (bool_decide (old_value = new_value)) &&
     (match old_value with Some v => sender_level <? v | None => false end || match new_value with Some v => sender_level <? v | None => false end)
  then Err "cannot change a power-level field at or above your own level"
  else Ok tt.

(** The keys of both objects, in order. *)
Definition both_keys (old new : option Map) : list string := btree_set ((fst <$> default [] old) ++ (fst <$> default [] new)).

Definition validate_power_levels_change (old new : Value) (sender_mxid : string) : result unit string :=
  let sender_level := user_level old sender_mxid in
  let? _ := try_each (λ key,
      let default_ := power_levels_scalar_default key in
      reject_if_either_side_exceeds (Some (default default_ (level_field old key))) (Some (default default_ (level_field new key))) sender_level)
    POWER_LEVELS_SCALAR_KEYS in
  let old_events := get old "events" ≫= as_object in
  let new_events := get new "events" ≫= as_object in
  let? _ := try_each (λ event_type,
      reject_if_either_side_exceeds (old_events ≫= λ m, map_get m event_type ≫= value_as_i64)
        (new_events ≫= λ m, map_get m event_type ≫= value_as_i64) sender_level)
    (both_keys old_events new_events) in
  let? _ := reject_if_either_side_exceeds (get old "notifications" ≫= λ v, level_field v "room")
              (get new "notifications" ≫= λ v, level_field v "room") sender_level in
  let old_users := get old "users" ≫= as_object in
  let new_users := get new "users" ≫= as_object in
  try_each (λ target_mxid,
      let old_effective := user_level old target_mxid in
      let new_effective := user_level new target_mxid in
      if old_effective =? new_effective then Ok tt
      else if negb (seqb target_mxid sender_mxid) && (sender_level <=? old_effective) then
        Err "cannot change the level of a user at or above your own level"
      else if sender_level <? new_effective then Err "cannot set a user's level above your own"
      else Ok tt)
    (both_keys old_users new_users).

(** ** Reading *)

(** The row that fills a slot of a room's state, joined with its event. *)
Definition slot_is (room_id event_type state_key : string) (r : SlotRow) : bool :=
  seqb (sl_room_id r) room_id && seqb (sl_event_type r) event_type && seqb (sl_state_key r) state_key.

Definition event_row (d : Db) (event_id : string) : option EventRow := find_row (λ e, seqb (ev_event_id e) event_id) (db_events d).

Definition pub_get_event (d : Db) (event_id : string) : option EventRow :=
  find_row (λ e, seqb (ev_event_id e) event_id) (db_pub_events d).

Definition get_event (d : Db) (event_id : string) : option EventRow :=
  match event_row d event_id with Some e => Some e | None => pub_get_event d event_id end.

Definition current_state_event (d : Db) (room_id event_type state_key : string) : option EventRow :=
  slot ← find_row (slot_is room_id event_type state_key) (db_current_state d); event_row d (sl_event_id slot).

Definition current_state_all (d : Db) (room_id : string) : list EventRow :=
  omap (λ slot, event_row d (sl_event_id slot)) (select (λ r, seqb (sl_room_id r) room_id) (db_current_state d)).

(** An event is the newest of its slot among those up to a position. *)
Definition same_slot (e e2 : EventRow) : bool :=
  seqb (ev_room_id e2) (ev_room_id e) && seqb (ev_event_type e2) (ev_event_type e) &&
  match ev_state_key e with Some k => bool_decide (ev_state_key e2 = Some k) | None => false end.
Definition latest_at (d : Db) (at_stream_id : Z) (e : EventRow) : bool :=
  (ev_stream_id e <=? at_stream_id) &&
  negb (exists_row (λ e2, same_slot e e2 && (ev_stream_id e2 <=? at_stream_id) && (ev_stream_id e <? ev_stream_id e2)) (db_events d)).

Definition state_events_of_type_at (d : Db) (room_id event_type : string) (at_stream_id : Z) : list EventRow :=
  select (λ e, seqb (ev_room_id e) room_id && seqb (ev_event_type e) event_type && is_some (ev_state_key e) && latest_at d at_stream_id e)
    (db_events d).

Definition member_state_changed_in_window (d : Db) (room_id : string) (since_exclusive upto_inclusive : Z) : list EventRow :=
  select (λ e, seqb (ev_room_id e) room_id && is_member_event e && is_some (ev_state_key e) && latest_at d upto_inclusive e &&
               (since_exclusive <? ev_stream_id e)) (db_events d).

Definition non_member_state_changed_in_window (d : Db) (room_id : string) (since_exclusive upto_inclusive : Z) : list EventRow :=
  select (λ e, seqb (ev_room_id e) room_id && negb (is_member_event e) && is_some (ev_state_key e) && latest_at d upto_inclusive e &&
               (since_exclusive <? ev_stream_id e)) (db_events d).

(** [PUBLIC_ROOM_PREDICATE]: a plaintext channel. *)
Definition is_public_room (d : Db) (room_id : string) : bool :=
  exists_row (λ r, seqb (ro_id r) room_id && bool_decide (ro_kind r = Channel) && negb (ro_is_encrypted r)) (db_rooms d).

Definition pub_events_after (d : Db) (room_id : string) (since_stream limit : Z) : list EventRow :=
  limit_rows limit (order_by_int ev_stream_id (select (λ e, seqb (ev_room_id e) room_id && (since_stream <? ev_stream_id e)) (db_pub_events d))).
Definition pub_events_before (d : Db) (room_id : string) (before_stream limit : Z) : list EventRow :=
  limit_rows limit (reverse (order_by_int ev_stream_id (select (λ e, seqb (ev_room_id e) room_id && (ev_stream_id e <? before_stream)) (db_pub_events d)))).

Definition events_in_room_after (d : Db) (room_id : string) (since_stream limit : Z) : list EventRow :=
  let out := limit_rows limit (order_by_int ev_stream_id (select (λ e, seqb (ev_room_id e) room_id && (since_stream <? ev_stream_id e)) (db_events d))) in
  if is_public_room d room_id then
    take (Z.to_nat limit) (order_by_int ev_stream_id (out ++ pub_events_after d room_id since_stream limit))
  else out.

Definition events_in_room_before (d : Db) (room_id : string) (before_stream limit : Z) : list EventRow :=
  let out := limit_rows limit (reverse (order_by_int ev_stream_id (select (λ e, seqb (ev_room_id e) room_id && (ev_stream_id e <? before_stream)) (db_events d)))) in
  if is_public_room d room_id then
    take (Z.to_nat limit) (reverse (order_by_int ev_stream_id (out ++ pub_events_before d room_id before_stream limit)))
  else out.

Definition relations_of (d : Db) (target_event_id : string) (rel_type event_type : option string) (before_stream limit : Z) : list EventRow :=
  let rows := select (λ r, seqb (rl_target_id r) target_event_id && match rel_type with Some t => seqb (rl_rel_type r) t | None => true end) (db_relations d) in
  let events := select (λ e, (ev_stream_id e <? before_stream) && match event_type with Some t => seqb (ev_event_type e) t | None => true end)
                  (omap (λ r, event_row d (rl_event_id r)) rows) in
  limit_rows limit (reverse (order_by_int ev_stream_id events)).

Definition room_by_dm_pair_key (d : Db) (pair_key : string) : option Room :=
  find_row (λ r, bool_decide (ro_dm_pair_key r = Some pair_key)) (db_rooms d).

Definition with_pair_key (r : Room) (key : option string) : Room :=
  mkRoom (ro_id r) (ro_kind r) (ro_room_version r) (ro_creator_user_id r) (ro_created_at r) (ro_is_encrypted r) (ro_join_rule r)
    (ro_history_visibility r) key (ro_legacy_dm_id r).
Definition clear_dm_pair_key (d : Db) (room_id : string) : Db :=
  with_rooms d (update_where (λ r, seqb (ro_id r) room_id) (λ r, with_pair_key r None) (db_rooms d)).

Definition forget_membership (d : Db) (room_id : string) (user_id : Z) : Db * nat :=
  let p := λ r, seqb (rm_room_id r) room_id && (rm_user_id r =? user_id) && bool_decide (rm_membership r = Leave) in
  (with_members d (delete_where p (db_members d)), length (select p (db_members d))).

Definition private_room_messages_sent_since (d : Db) (sender_user_id since_ms : Z) : Z :=
  Z.of_nat (length (select (λ e, (ev_sender_user_id e =? sender_user_id) && negb (is_some (ev_state_key e)) &&
    negb (seqb (ev_event_type e) "m.room.redaction") && (since_ms <=? ev_origin_server_ts e) &&
    match get_room d (ev_room_id e) with Some r => bool_decide (ro_join_rule r = InviteRule) | None => false end) (db_events d))).

(** Times are compared as text. *)
Definition txn_dedup_count_since (d : Db) (user_id : Z) (device_id since : string) : Z :=
  Z.of_nat (length (select (λ r, (tx_user_id r =? user_id) && seqb (tx_device_id r) device_id && bool_decide (String.le since (tx_created_at r))) (db_txns d))).

Definition txn_id_for_event (d : Db) (user_id : Z) (device_id event_id : string) : option string :=
  tx_txn_id <$> find_row (λ r, (tx_user_id r =? user_id) && seqb (tx_device_id r) device_id && bool_decide (tx_event_id r = Some event_id)) (db_txns d).

(** ** Writing *)

Section RoomStore.
Context `{ServerJson, RoomDag}.

(** The database with the graph beside it. *)
Record Hs := mkHs { hs_db : Db; hs_dag : Dag }.

Definition hs_transaction {A E} (h : Hs) (body : result (Hs * A) E) : Hs * result A E :=
  match body with Ok (h', a) => (h', Ok a) | Err e => (h, Err e) end.

(** [serde_json::from_str(..)?] in the store. *)
Definition store_json (s : string) : result Value MatrixStoreError := map_err StoreJson (value_from_str s).

Definition insert_event (d : Db) (e : EventRow) : result Db DbError :=
  if negb (exists_row (λ r, seqb (ro_id r) (ev_room_id e)) (db_rooms d)) then Err (ForeignKeyViolation "events")
  else if exists_row (λ r, (ev_stream_id r =? ev_stream_id e) || seqb (ev_event_id r) (ev_event_id e)) (db_events d) then Err (UniqueViolation "events")
  else Ok (with_events d (db_events d ++ [e])).

(** *** Relations *)

Definition relation_of (relates_to : Value) : option (string * string * option string) :=
  match get relates_to "m.in_reply_to" with
  | Some reply => target ← get reply "event_id" ≫= as_str; Some ("m.in_reply_to", target, None)
  | None =>
      rel_type ← get relates_to "rel_type" ≫= as_str;
      target ← get relates_to "event_id" ≫= as_str;
      Some (rel_type, target, get relates_to "key" ≫= as_str)
  end.

Definition is_annotation_of (d : Db) (target_id : string) (agg_key : option string) (sender_user_id : Z) (r : RelationRow) : bool :=
  seqb (rl_target_id r) target_id && seqb (rl_rel_type r) "m.annotation" && bool_decide (rl_agg_key r = agg_key) &&
  match event_row d (rl_event_id r) with
  | Some e => (ev_sender_user_id e =? sender_user_id) && negb (is_some (ev_redacted_by e))
  | None => false
  end.

Definition populate_relations (d : Db) (event_id room_id : string) (sender_user_id : Z) (content : string) : result Db MatrixStoreError :=
  match value_from_str content with
  | Err _ => Ok d
  | Ok value =>
      match get value "m.relates_to" with
      | None => Ok d
      | Some relates_to =>
          match relation_of relates_to with
          | None => Ok d
          | Some (rel_type, target_id, agg_key) =>
              match event_row d target_id with
              | Some target =>
                  if negb (seqb (ev_room_id target) room_id) then Err (InvalidRelationTarget target_id)
                  else if seqb rel_type "m.annotation" && exists_row (is_annotation_of d target_id agg_key sender_user_id) (db_relations d)
                  then Err DuplicateAnnotation
                  else if exists_row (λ r, seqb (rl_event_id r) event_id) (db_relations d) then Err (StoreDb (UniqueViolation "relations"))
                  else Ok (with_relations d (db_relations d ++ [mkRelation event_id room_id rel_type target_id agg_key]))
              | None => Err (InvalidRelationTarget target_id)
              end
          end
      end
  end.

(** *** The graph's part of a local event (f3.rs) *)

(** The user a restricted join names: the creator when joined, else the joined local member with
    the lowest id. *)
Definition authorising_member (d : Db) (room_id : string) : option string :=
  room ← get_room d room_id;
  let ids := order_by_int id (rm_user_id <$> select (λ m, seqb (rm_room_id m) room_id && bool_decide (rm_membership m = Join) && (0 <? rm_user_id m) &&
                                                          is_some (mxid_of d (rm_user_id m))) (db_members d)) in
  head (if existsb (Z.eqb (ro_creator_user_id room)) ids then [ro_creator_user_id room] else ids) ≫= mxid_of d.

Definition authorise_restricted_join (d : Db) (room_id sender : string) (content : Value) : Value :=
  let restricted :=
    match current_state_event d room_id "m.room.join_rules" EmptyString with
    | Some e =>
        match value_from_str (ev_content e) with
        | Ok v => bool_decide (get v "join_rule" ≫= as_str = Some "restricted")
        | Err _ => false
        end
    | None => false
    end in
  if negb restricted then content
  else
    match user_id_of d sender ≫= room_member d room_id with
    | Some m =>
        if in_room (rm_membership m) then content
        else match authorising_member d room_id with Some v => value_set content "join_authorised_via_users_server" (VString v) | None => content end
    | None => match authorising_member d room_id with Some v => value_set content "join_authorised_via_users_server" (VString v) | None => content end
    end.

(** The id and the content the graph gave the event; [None] in a room that is not of the graph. *)
Definition prepare_local (h : Hs) (room_id : string) (sender_user_id : Z) (kind : string) (state_key : option string) (content : string) (ts : Z) :
    result (option (Hs * string * string)) MatrixStoreError :=
  if negb (is_f3_room (hs_dag h) room_id) then Ok None
  else
    let? sender := ok_or (mxid_of (hs_db h) sender_user_id) (UnknownMxid (pretty sender_user_id)) in
    let? c := store_json content in
    let c := if seqb kind "m.room.create" && negb (is_some (get c "creator")) then value_set c "creator" (VString sender) else c in
    let c := if seqb kind "m.room.member" && bool_decide (state_key = Some sender) && bool_decide (get c "membership" ≫= as_str = Some "join") &&
                negb (is_some (get c "join_authorised_via_users_server"))
             then authorise_restricted_join (hs_db h) room_id sender c else c in
    let? (dag, event_id) := dag_local_event (hs_dag h) room_id (Z.max ts 0) sender kind state_key c in
    Ok (Some (mkHs (hs_db h) dag, event_id, value_to_string c)).

(** *** Timeline events *)

Record TimelineEventRow := mkTimeline {
  tl_event_id : string;
  tl_room_id : string;
  tl_sender_user_id : Z;
  tl_event_type : string;
  tl_content : string;
  tl_origin_server_ts : Z;
  tl_txn_id : option string }.

Definition insert_timeline_event_raw_in_tx (d : Db) (row : TimelineEventRow) : result (Db * EventRow) MatrixStoreError :=
  let '(d, stream_id) := next_stream_id d in
  let e := mkEventRow stream_id (tl_event_id row) (tl_room_id row) (tl_sender_user_id row) (tl_event_type row) None (tl_content row)
             (tl_origin_server_ts row) (tl_txn_id row) None None in
  let? d := map_err StoreDb (insert_event d e) in
  let? d := populate_relations d (tl_event_id row) (tl_room_id row) (tl_sender_user_id row) (tl_content row) in
  Ok (d, e).

Definition insert_timeline_event_in_tx (h : Hs) (row : TimelineEventRow) : result (Hs * EventRow) MatrixStoreError :=
  let? prepared := prepare_local h (tl_room_id row) (tl_sender_user_id row) (tl_event_type row) None (tl_content row) (tl_origin_server_ts row) in
  let '(h, row) :=
    match prepared with
    | Some (h, event_id, content) =>
        (h, mkTimeline event_id (tl_room_id row) (tl_sender_user_id row) (tl_event_type row) content (tl_origin_server_ts row) (tl_txn_id row))
    | None => (h, row)
    end in
  let? (d, e) := insert_timeline_event_raw_in_tx (hs_db h) row in
  Ok (mkHs d (hs_dag h), e).

Definition insert_timeline_event (h : Hs) (event_id room_id : string) (sender_user_id : Z) (event_type content : string) (origin_server_ts : Z) :
    Hs * result EventRow MatrixStoreError :=
  hs_transaction h (insert_timeline_event_in_tx h (mkTimeline event_id room_id sender_user_id event_type content origin_server_ts None)).

Inductive DedupedWrite := NewWrite (e : EventRow) | ExistingWrite (e : EventRow).

(** The write a transaction id already made: [None] when it is not on file. *)
Definition deduped (d : Db) (user_id : Z) (device_id txn_id : string) : option (result EventRow MatrixStoreError) :=
  match txn_dedup_lookup d user_id device_id txn_id with
  | NotSeen => None
  | Seen existing =>
      Some (let? id := ok_or existing (UnknownEventId txn_id) in ok_or (get_event d id) (UnknownEventId id))
  end.

Definition insert_timeline_event_deduped (h : Hs) (device_id txn_id event_id room_id : string) (sender_user_id : Z) (event_type content : string)
    (origin_server_ts : Z) (now : string) : Hs * result DedupedWrite MatrixStoreError :=
  hs_transaction h (
    match deduped (hs_db h) sender_user_id device_id txn_id with
    | Some existing => let? e := existing in Ok (h, ExistingWrite e)
    | None =>
        let? (h, e) := insert_timeline_event_in_tx h (mkTimeline event_id room_id sender_user_id event_type content origin_server_ts (Some txn_id)) in
        let? d := map_err StoreDb (txn_dedup_record (hs_db h) sender_user_id device_id txn_id (Some (ev_event_id e)) now) in
        Ok (mkHs d (hs_dag h), NewWrite e)
    end).

(** *** State events *)

Definition refresh_room_member (d : Db) (room_id state_key content now : string) : result Db MatrixStoreError :=
  let? value := store_json content in
  let? membership_str := ok_or (get value "membership" ≫= as_str) (InvalidMembership "missing 'membership' field") in
  let? membership := ok_or (Membership_from_wire_name membership_str) (InvalidMembership membership_str) in
  let? user_id := ok_or (user_id_of d state_key) (UnknownMxid state_key) in
  Ok (with_members d (upsert (λ r, seqb (rm_room_id r) room_id && (rm_user_id r =? user_id))
        (λ r, mkMember (rm_room_id r) (rm_user_id r) membership (rm_power_level r) now)
        (mkMember room_id user_id membership None now) (db_members d))).

Definition set_power (level : option Z) (r : RoomMember) : RoomMember :=
  mkMember (rm_room_id r) (rm_user_id r) (rm_membership r) level (rm_updated_at r).

(** One entry of [users]. *)
Definition apply_power_entry (users_db : Db) (room_id : string) (members : list RoomMember) (entry : string * Value) : list RoomMember :=
  match value_as_i64 entry.2, user_id_of users_db entry.1 with
  | Some level, Some user_id => update_where (λ r, seqb (rm_room_id r) room_id && (rm_user_id r =? user_id)) (set_power (Some level)) members
  | _, _ => members
  end.

Definition refresh_power_levels (d : Db) (room_id content : string) : result Db MatrixStoreError :=
  let? value := store_json content in
  let members := update_where (λ r, seqb (rm_room_id r) room_id) (set_power None) (db_members d) in
  let users := default [] (get value "users" ≫= as_object) in
  Ok (with_members d (foldl (apply_power_entry d room_id) members users)).

(** The projections of a state event that is now the current one of its slot. *)
Definition refresh_projections (d : Db) (room_id event_type state_key content now : string) : result Db MatrixStoreError :=
  let? d := if seqb event_type "m.room.member" then refresh_room_member d room_id state_key content now else Ok d in
  if seqb event_type "m.room.power_levels" then refresh_power_levels d room_id content else Ok d.

Definition set_slot (d : Db) (room_id event_type state_key event_id : string) : Db :=
  with_current_state d (upsert (slot_is room_id event_type state_key) (λ r, mkSlot (sl_room_id r) (sl_event_type r) (sl_state_key r) event_id)
    (mkSlot room_id event_type state_key event_id) (db_current_state d)).

Definition apply_state_event_raw_in_tx (d : Db) (event_id room_id : string) (sender_user_id : Z) (event_type state_key content : string)
    (origin_server_ts : Z) (now : string) : result (Db * EventRow) MatrixStoreError :=
  let '(d, stream_id) := next_stream_id d in
  let e := mkEventRow stream_id event_id room_id sender_user_id event_type (Some state_key) content origin_server_ts None None None in
  let? d := map_err StoreDb (insert_event d e) in
  let d := set_slot d room_id event_type state_key event_id in
  let? d := refresh_projections d room_id event_type state_key content now in
  Ok (d, e).

Definition apply_state_event_in_tx (h : Hs) (event_id room_id : string) (sender_user_id : Z) (event_type state_key content : string)
    (origin_server_ts : Z) (now : string) : result (Hs * EventRow) MatrixStoreError :=
  let? prepared := prepare_local h room_id sender_user_id event_type (Some state_key) content origin_server_ts in
  let '(h, event_id, content) := match prepared with Some p => p | None => (h, event_id, content) end in
  let? (d, e) := apply_state_event_raw_in_tx (hs_db h) event_id room_id sender_user_id event_type state_key content origin_server_ts now in
  Ok (mkHs d (hs_dag h), e).

Definition apply_state_event (h : Hs) (event_id room_id : string) (sender_user_id : Z) (event_type state_key content : string)
    (origin_server_ts : Z) (now : string) : Hs * result EventRow MatrixStoreError :=
  hs_transaction h (apply_state_event_in_tx h event_id room_id sender_user_id event_type state_key content origin_server_ts now).

Definition insert_past_state_row (d : Db) (event_id room_id : string) (sender_user_id : Z) (event_type state_key content : string)
    (origin_server_ts : Z) : result Db MatrixStoreError :=
  let '(d, stream_id) := next_stream_id d in
  map_err StoreDb (insert_event d (mkEventRow stream_id event_id room_id sender_user_id event_type (Some state_key) content origin_server_ts None None None)).

Definition set_current_state_slot (d : Db) (room_id event_type state_key event_id now : string) : result Db MatrixStoreError :=
  let? e := ok_or (event_row d event_id) (StoreDb NoRows) in
  refresh_projections (set_slot d room_id event_type state_key event_id) room_id event_type state_key (ev_content e) now.

(** *** A user's name in their member events *)

Record DisplaynameRefresh := mkRefresh { dr_rooms_updated : nat; dr_affected_user_ids : gset Z }.

(** One room of the loop; [fresh n] is the [n]-th id drawn. *)
Definition refresh_room_displayname (fresh : nat → string) (user_id : Z) (mxid displayname now : string) (origin_server_ts : Z)
    (membership : Membership) (acc : Hs * DisplaynameRefresh) (room_id : string) : result (Hs * DisplaynameRefresh) MatrixStoreError :=
  let '(h, outcome) := acc in
  match current_state_event (hs_db h) room_id "m.room.member" mxid with
  | None => Ok (h, outcome)
  | Some current =>
      let? content := store_json (ev_content current) in
      if bool_decide (get content "displayname" ≫= as_str = Some displayname) then Ok (h, outcome)
      else
        match as_object content with
        | None => Ok (h, outcome)
        | Some fields =>
            let sender_user_id := if bool_decide (membership = Join) then user_id else ev_sender_user_id current in
            let? (h, _) := apply_state_event_in_tx h (fresh (dr_rooms_updated outcome)) room_id sender_user_id "m.room.member" mxid
                             (value_to_string (VObject (map_insert "displayname" (VString displayname) fields))) origin_server_ts now in
            let woken := rm_user_id <$> select (λ m, in_room (rm_membership m)) (room_members (hs_db h) room_id None) in
            Ok (h, mkRefresh (S (dr_rooms_updated outcome)) ({[user_id]} ∪ list_to_set woken ∪ dr_affected_user_ids outcome))
        end
  end.

Definition refresh_member_displayname (h : Hs) (fresh : nat → string) (user_id : Z) (displayname now : string) (origin_server_ts : Z) :
    Hs * result DisplaynameRefresh MatrixStoreError :=
  let none := mkRefresh 0 ∅ in
  if s_is_empty displayname then (h, Ok none)
  else
    match mxid_of (hs_db h) user_id with
    | None => (h, Ok none)
    | Some mxid =>
        let pass := λ membership (acc : Hs * DisplaynameRefresh),
          try_fold (refresh_room_displayname fresh user_id mxid displayname now origin_server_ts membership) acc
            (rooms_for_user (hs_db acc.1) user_id (Some membership)) in
        hs_transaction h (let? acc := pass Join (h, none) in pass Invite acc)
    end.

(** *** Creating a room *)

Record NewStateEvent := mkNewState {
  ns_event_id : string;
  ns_sender_user_id : Z;
  ns_event_type : string;
  ns_state_key : string;
  ns_content : string }.

Record RoomBootstrap := mkBootstrap {
  bo_room_id : string;
  bo_kind : RoomKind;
  bo_creator_user_id : Z;
  bo_created_at : string;
  bo_is_encrypted : bool;
  bo_join_rule : JoinRule;
  bo_history_visibility : HistoryVisibility;
  bo_dm_pair_key : option string;
  bo_legacy_dm_id : option Z }.

Definition bootstrap_room (b : RoomBootstrap) : Room :=
  mkRoom (bo_room_id b) (bo_kind b) MATRIX_ROOM_VERSION (bo_creator_user_id b) (bo_created_at b) (bo_is_encrypted b) (bo_join_rule b)
    (bo_history_visibility b) (bo_dm_pair_key b) (bo_legacy_dm_id b).

(** The id, the pair key and the legacy id are unique. *)
Definition insert_room_row (d : Db) (room : Room) : result Db DbError :=
  let taken := λ r,
    seqb (ro_id r) (ro_id room) ||
    (is_some (ro_dm_pair_key room) && bool_decide (ro_dm_pair_key r = ro_dm_pair_key room)) ||
    (is_some (ro_legacy_dm_id room) && bool_decide (ro_legacy_dm_id r = ro_legacy_dm_id room)) in
  if exists_row taken (db_rooms d) then Err (UniqueViolation "rooms") else Ok (with_rooms d (db_rooms d ++ [room])).

Definition create_room (d : Db) (b : RoomBootstrap) : result Db DbError := insert_room_row d (bootstrap_room b).

(** A closed room becomes a room of the graph; a plaintext channel does not. *)
Definition create_room_with_state (h : Hs) (b : RoomBootstrap) (state_events : list NewStateEvent) (origin_server_ts : Z) :
    Hs * result (Room * list EventRow) MatrixStoreError :=
  hs_transaction h (
    let? d := map_err StoreDb (insert_room_row (hs_db h) (bootstrap_room b)) in
    let dag := if bool_decide (bo_kind b = Channel) && negb (bo_is_encrypted b) then hs_dag h else mark_room (hs_dag h) (bo_room_id b) in
    let? (h, applied) := try_fold (λ acc event,
        let? (h, e) := apply_state_event_in_tx acc.1 (ns_event_id event) (bo_room_id b) (ns_sender_user_id event) (ns_event_type event)
                         (ns_state_key event) (ns_content event) origin_server_ts (bo_created_at b) in
        Ok (h, acc.2 ++ [e])) (mkHs d dag, []) state_events in
    Ok (h, (bootstrap_room b, applied))).

(** *** Redaction *)

(** The members of an object under these keys. *)
Definition keep_keys (obj : Map) (keys : list string) : Map :=
  foldl (λ kept key, match map_get obj key with Some v => map_insert key v kept | None => kept end) [] keys.

Definition redact_content_per_v11 (event_type content : string) : result string MatrixStoreError :=
  let? value := store_json content in
  let obj := default [] (as_object value) in
  let kept :=
    if seqb event_type "m.room.create" then obj
    else if seqb event_type "m.room.member" then
      let kept := keep_keys obj ["membership"; "join_authorised_via_users_server"] in
      match map_get obj "third_party_invite" ≫= λ v, get v "signed" with
      | Some signed => map_insert "third_party_invite" (VObject [("signed", signed)]) kept
      | None => kept
      end
    else if seqb event_type "m.room.join_rules" then keep_keys obj ["join_rule"; "allow"]
    else if seqb event_type "m.room.power_levels" then
      keep_keys obj ["ban"; "events"; "events_default"; "invite"; "kick"; "redact"; "state_default"; "users"; "users_default"]
    else if seqb event_type "m.room.history_visibility" then keep_keys obj ["history_visibility"]
    else [] in
  Ok (value_to_string (VObject kept)).

(** The content of a redaction. *)
Definition redaction_content (target_event_id : string) (reason : option string) : Value :=
  let content := VObject [("redacts", VString target_event_id)] in
  match reason with Some r => value_set content "reason" (VString r) | None => content end.

Definition redacted (content redaction_event_id : string) (e : EventRow) : EventRow :=
  mkEventRow (ev_stream_id e) (ev_event_id e) (ev_room_id e) (ev_sender_user_id e) (ev_event_type e) (ev_state_key e) content (ev_origin_server_ts e)
    (ev_txn_id e) (ev_redacts e) (Some redaction_event_id).

Definition redact_event_in_tx (d : Db) (room_id target_event_id redaction_event_id : string) (sender_user_id : Z) (reason : option string)
    (origin_server_ts : Z) : result (Db * EventRow) MatrixStoreError :=
  let? target := ok_or (event_row d target_event_id) (UnknownEventId target_event_id) in
  if negb (seqb (ev_room_id target) room_id) then Err (WrongRoom target_event_id)
  else if seqb (ev_event_type target) "m.room.create" || seqb (ev_event_type target) "m.room.encryption" then Err (UnredactableEvent (ev_event_type target))
  else
    let '(d, stream_id) := next_stream_id d in
    let e := mkEventRow stream_id redaction_event_id room_id sender_user_id "m.room.redaction" None
               (value_to_string (redaction_content target_event_id reason)) origin_server_ts None (Some target_event_id) None in
    let? d := map_err StoreDb (insert_event d e) in
    let? stripped := redact_content_per_v11 (ev_event_type target) (ev_content target) in
    Ok (with_events d (update_where (λ r, seqb (ev_event_id r) target_event_id) (redacted stripped redaction_event_id) (db_events d)), e).

Definition redact_event (h : Hs) (room_id target_event_id redaction_event_id : string) (sender_user_id : Z) (reason : option string)
    (origin_server_ts : Z) : Hs * result EventRow MatrixStoreError :=
  hs_transaction h (
    let? (d, e) := redact_event_in_tx (hs_db h) room_id target_event_id redaction_event_id sender_user_id reason origin_server_ts in
    Ok (mkHs d (hs_dag h), e)).

Definition with_content (e : EventRow) (content : string) : EventRow :=
  mkEventRow (ev_stream_id e) (ev_event_id e) (ev_room_id e) (ev_sender_user_id e) (ev_event_type e) (ev_state_key e) content (ev_origin_server_ts e)
    (ev_txn_id e) (ev_redacts e) (ev_redacted_by e).

Definition redact_event_marked (h : Hs) (room_id target_event_id redaction_event_id : string) (sender_user_id : Z) (reason : option string)
    (origin_server_ts : Z) (extra_content : Value) : Hs * result EventRow MatrixStoreError :=
  hs_transaction h (
    let? (d, e) := redact_event_in_tx (hs_db h) room_id target_event_id redaction_event_id sender_user_id reason origin_server_ts in
    let? content := store_json (ev_content e) in
    let content :=
      match as_object content, as_object extra_content with
      | Some obj, Some extra => VObject (foldl (λ obj kv, map_insert kv.1 kv.2 obj) obj extra)
      | _, _ => content
      end in
    let text := value_to_string content in
    Ok (mkHs (with_events d (update_where (λ r, seqb (ev_event_id r) redaction_event_id) (λ r, with_content r text) (db_events d))) (hs_dag h),
        with_content e text)).

Definition redact_event_deduped (h : Hs) (device_id txn_id room_id target_event_id redaction_event_id : string) (sender_user_id : Z)
    (reason : option string) (origin_server_ts : Z) (now : string) : Hs * result DedupedWrite MatrixStoreError :=
  hs_transaction h (
    match deduped (hs_db h) sender_user_id device_id txn_id with
    | Some existing => let? e := existing in Ok (h, ExistingWrite e)
    | None =>
        let? (d, e) := redact_event_in_tx (hs_db h) room_id target_event_id redaction_event_id sender_user_id reason origin_server_ts in
        let? d := map_err StoreDb (txn_dedup_record d sender_user_id device_id txn_id (Some redaction_event_id) now) in
        Ok (mkHs d (hs_dag h), NewWrite e)
    end).

(** *** What a user may read *)

Inductive HistoryWindow := Nothing | All | UpTo (stream_id : Z).

#[export] Instance HistoryWindow_eq_dec : EqDecision HistoryWindow.
Proof. solve_decision. Defined.

Definition window_contains (w : HistoryWindow) (stream_id : Z) : bool :=
  match w with Nothing => false | All => true | UpTo upto => stream_id <=? upto end.

Definition visible_upper_bound (d : Db) (room : Room) (caller_user_id : Z) : result HistoryWindow MatrixStoreError :=
  if bool_decide (ro_history_visibility room = WorldReadable) then Ok All
  else
    match mxid_of d caller_user_id with
    | None => Ok Nothing
    | Some mxid =>
        match current_state_event d (ro_id room) "m.room.member" mxid with
        | None => Ok Nothing
        | Some member_event =>
            let? content := store_json (ev_content member_event) in
            match get content "membership" ≫= as_str with
            | Some m =>
                if seqb m "join" then Ok All
                else if seqb m "leave" || seqb m "ban" then Ok (UpTo (ev_stream_id member_event))
                else Ok Nothing
            | None => Ok Nothing
            end
        end
    end.

(** *** Receipts *)

Definition receipt_is (room_id : string) (user_id : Z) (receipt_type : ReceiptType) (r : ReceiptRow) : bool :=
  seqb (rc_room_id r) room_id && (rc_user_id r =? user_id) && bool_decide (rc_receipt_type r = receipt_type).

Definition get_receipt (d : Db) (room_id : string) (user_id : Z) (receipt_type : ReceiptType) : option ReceiptRow :=
  find_row (receipt_is room_id user_id receipt_type) (db_receipts d).

Definition receipts_changed_in_room (d : Db) (room_id : string) (since_exclusive upto_inclusive : Z) : list ReceiptRow :=
  select (λ r, seqb (rc_room_id r) room_id && in_window since_exclusive upto_inclusive (rc_stream_id r)) (db_receipts d).

Definition upsert_receipt_in_tx (d : Db) (room_id : string) (user_id : Z) (receipt_type : ReceiptType) (event_id : string) (ts : Z) :
    result (Db * Z) MatrixStoreError :=
  match event_row d event_id with
  | None =>
      match pub_get_event d event_id with
      | Some public => if negb (seqb (ev_room_id public) room_id) then Err (WrongRoom event_id) else Ok (d, ev_stream_id public)
      | None => Err (UnknownEventId event_id)
      end
  | Some target =>
      if negb (seqb (ev_room_id target) room_id) then Err (WrongRoom event_id)
      else
        let write :=
          let '(d, stream_id) := next_stream_id d in
          let row := mkReceipt room_id user_id receipt_type event_id ts stream_id in
          (with_receipts d (upsert (receipt_is room_id user_id receipt_type) (λ _, row) row (db_receipts d)), stream_id) in
        match get_receipt d room_id user_id receipt_type with
        | None => Ok write
        | Some existing =>
            let? old := ok_or (event_row d (rc_event_id existing)) (StoreDb NoRows) in
            if ev_stream_id target <=? ev_stream_id old then Ok (d, rc_stream_id existing) else Ok write
        end
  end.

Definition upsert_receipt (d : Db) (room_id : string) (user_id : Z) (receipt_type : ReceiptType) (event_id : string) (ts : Z) :
    Db * result Z MatrixStoreError :=
  transaction d (upsert_receipt_in_tx d room_id user_id receipt_type event_id ts).

Definition notification_types : list string := ["m.room.message"; "m.room.encrypted"; "org.example.legacy_dm"].

Definition notification_count (d : Db) (room : Room) (user_id : Z) : result Z MatrixStoreError :=
  if bool_decide (ro_kind room = Channel) && negb (ro_is_encrypted room) then Ok 0
  else
    let? window := visible_upper_bound d room user_id in
    match window with
    | Nothing => Ok 0
    | _ =>
        let upper_bound := match window with UpTo upper => upper | _ => i64_max end in
        let after_stream_id := foldl (λ after receipt_type,
            match get_receipt d (ro_id room) user_id receipt_type ≫= λ r, get_event d (rc_event_id r) with
            | Some target => Z.max after (ev_stream_id target)
            | None => after
            end) 0 [Read; ReadPrivate] in
        Ok (Z.of_nat (length (select (λ e, seqb (ev_room_id e) (ro_id room) && negb (is_some (ev_state_key e)) && negb (ev_sender_user_id e =? user_id) &&
              in_window after_stream_id upper_bound (ev_stream_id e) && existsb (seqb (ev_event_type e)) notification_types) (db_events d))))
    end.

(** *** Account data *)

Definition account_data_is (user_id : Z) (room_id data_type : string) (r : AccountDataRow) : bool :=
  (ad_user_id r =? user_id) && seqb (ad_room_id r) room_id && seqb (ad_data_type r) data_type.

Definition upsert_account_data (d : Db) (user_id : Z) (room_id data_type content : string) : Db * Z :=
  let '(d, stream_id) := next_stream_id d in
  let row := mkAccountData user_id room_id data_type content stream_id in
  (with_account_data d (upsert (account_data_is user_id room_id data_type) (λ _, row) row (db_account_data d)), stream_id).

Definition get_account_data (d : Db) (user_id : Z) (room_id data_type : string) : option AccountDataRow :=
  find_row (account_data_is user_id room_id data_type) (db_account_data d).

Definition account_data_since (d : Db) (user_id : Z) (room_id : string) (since_stream : Z) : list AccountDataRow :=
  order_by_int ad_stream_id (select (λ r, (ad_user_id r =? user_id) && seqb (ad_room_id r) room_id && (since_stream <? ad_stream_id r)) (db_account_data d)).

(** ** public_channels.rs *)

Definition pub_txn_is (user_id : Z) (device_id txn_id : string) (r : PubTxnRow) : bool :=
  (pt_user_id r =? user_id) && seqb (pt_device_id r) device_id && seqb (pt_txn_id r) txn_id.

Definition seen_txn (d : Db) (user_id : Z) (device_id txn_id : string) : option EventRow :=
  r ← find_row (pub_txn_is user_id device_id txn_id) (db_pub_txns d); pub_get_event d (pt_event_id r).

Definition pub_insert_event_deduped (d : Db) (device_id txn_id event_id room_id : string) (sender_user_id : Z) (event_type content : string)
    (origin_server_ts : Z) : Db * result DedupedWrite DbError :=
  transaction d (
    match find_row (pub_txn_is sender_user_id device_id txn_id) (db_pub_txns d) with
    | Some r => let? e := ok_or (pub_get_event d (pt_event_id r)) NoRows in Ok (d, ExistingWrite e)
    | None =>
        let '(d, stream_id) := next_stream_id d in
        let e := mkEventRow stream_id event_id room_id sender_user_id event_type None content origin_server_ts (Some txn_id) None None in
        if exists_row (λ r, (ev_stream_id r =? stream_id) || seqb (ev_event_id r) event_id) (db_pub_events d) then Err (UniqueViolation "pub_events")
        else
          let d := with_pub_events d (db_pub_events d ++ [e]) in
          Ok (with_pub_txns d (db_pub_txns d ++ [mkPubTxn sender_user_id device_id txn_id event_id]), NewWrite e)
    end).

Definition with_redacts (e : EventRow) (target : string) : EventRow :=
  mkEventRow (ev_stream_id e) (ev_event_id e) (ev_room_id e) (ev_sender_user_id e) (ev_event_type e) (ev_state_key e) (ev_content e)
    (ev_origin_server_ts e) (ev_txn_id e) (Some target) (ev_redacted_by e).

Definition pub_redact_deduped (d : Db) (device_id txn_id room_id target_event_id redaction_event_id : string) (sender_user_id : Z)
    (reason : option string) (origin_server_ts : Z) : Db * result DedupedWrite DbError :=
  let content := value_to_string (redaction_content target_event_id reason) in
  let '(d, written) := pub_insert_event_deduped d device_id txn_id redaction_event_id room_id sender_user_id "m.room.redaction" content origin_server_ts in
  match written with
  | Ok (NewWrite e) =>
      let t := update_where (λ r, seqb (ev_event_id r) redaction_event_id) (λ r, with_redacts r target_event_id) (db_pub_events d) in
      let t := update_where (λ r, seqb (ev_event_id r) target_event_id) (redacted "{}" redaction_event_id) t in
      (with_pub_events d t, Ok (NewWrite (with_redacts e target_event_id)))
  | _ => (d, written)
  end.

End RoomStore.
