(* ===== verification/ServerRoomOps.v ===== *)
(** * Room and message decisions (crates/mail4agent-server/src/rooms.rs, messaging.rs, spaces.rs,
      http/rooms.rs, http/messaging.rs)

    Who may create, join, leave, invite, kick, ban, set state, send, redact and read, over the
    statements of [ServerRooms]. An action returns what it leaves also when it answers an error,
    since only the statements are transactions, with the users to wake. The display names are
    resolved by the caller; random ids are arguments. *)

From Stdlib Require Import Ascii.
From S2P Require Import Prelude Sqlite Json ServerDb ServerKeyOps ServerKeyRoutes ServerRooms.

Local Open Scope Z_scope.

(** ** Pure decisions *)

Definition derive_room_kind (is_direct : bool) (invite_count : nat) (visibility_public : bool) : result RoomKind MatrixError :=
  if is_direct then
    if (invite_count =? 1)%nat then Ok Dm else Err (invalid_param "is_direct requires exactly one invite target")
  else if visibility_public then Ok Channel
  else Ok Group.

Definition with_displayname (content : Value) (displayname : string) : Value :=
  if s_is_empty displayname then content else value_set content "displayname" (VString displayname).

Definition join_member_content (displayname : string) : Value :=
  with_displayname (VObject [("membership", VString "join")]) displayname.

Definition invite_member_content (kind : RoomKind) (displayname : string) : Value :=
  let content := with_displayname (VObject [("membership", VString "invite")]) displayname in
  if bool_decide (kind = Dm) then value_set content "is_direct" (VBool true) else content.

Definition room_kind_settings (kind : RoomKind) : JoinRule * HistoryVisibility * bool :=
  match kind with
  | Dm => (InviteRule, Shared, true)
  | Group => (InviteRule, Shared, true)
  | Channel => (PublicRule, WorldReadable, false)
  end.

Definition validate_power_level_override (kind : RoomKind) (override_value : option Value) : result (option Z) MatrixError :=
  match override_value with
  | None => Ok None
  | Some value =>
      let? obj := ok_or (as_object value) (invalid_param "power_level_content_override must be an object") in
      if existsb (λ kv, negb (seqb kv.1 "invite")) obj then Err (invalid_param "power_level_content_override only accepts the 'invite' key")
      else
        match map_get obj "invite" with
        | None => Ok None
        | Some invite_value =>
            if negb (bool_decide (kind = Group)) then Err (invalid_param "power_level_content_override is only accepted for group rooms")
            else
              match value_as_i64 invite_value with
              | Some 0 => Ok (Some 0)
              | Some 50 => Ok (Some 50)
              | _ => Err (invalid_param "power_level_content_override.invite must be 0 or 50")
              end
        end
  end.

Definition invite_power_level (kind : RoomKind) (override_value : option Z) : Z :=
  match kind with Dm | Channel => 50 | Group => default 50 override_value end.

Definition power_levels_content (creator_mxid : string) (kind : RoomKind) (invite_level : Z) : Value :=
  let events_default := if bool_decide (kind = Channel) then 50 else 0 in
  VObject [("ban", json_int 50); ("events_default", json_int events_default); ("invite", json_int invite_level); ("kick", json_int 50);
           ("redact", json_int 50); ("state_default", json_int 50); ("users", VObject [(creator_mxid, json_int 100)]); ("users_default", json_int 0)].

Definition check_encryption_state_change (event_type : string) (already_encrypted : bool) : result unit MatrixError :=
  if negb (seqb event_type "m.room.encryption") then Ok tt
  else if already_encrypted then Err (forbidden "encryption cannot be changed once set")
  else Ok tt.

Definition dm_pair_key (a b : Z) : string :=
  let '(lo, hi) := if a <=? b then (a, b) else (b, a) in pretty lo +:+ ":" +:+ pretty hi.

Definition require_member (membership : option Membership) : result unit MatrixError :=
  match membership with Some Join => Ok tt | _ => Err (forbidden "not a member of this room") end.

Definition require_power (power_levels : Value) (mxid : string) (action : PowerAction) : result unit MatrixError :=
  if can power_levels action mxid then Ok tt else Err (forbidden "insufficient power level for this action").

Definition require_power_over_target (power_levels : Value) (caller_mxid target_mxid : string) (action : PowerAction) (self_leave : bool) : result unit MatrixError :=
  if can_act_on power_levels action caller_mxid target_mxid self_leave then Ok tt else Err (forbidden "insufficient power level for this action").

Inductive TargetStateRule := MustBeActiveMember | AnyState | MustBeBanned.

Definition check_target_state_rule (rule : TargetStateRule) (membership : option Membership) : result unit MatrixError :=
  match rule with
  | MustBeActiveMember => match membership with Some Join | Some Invite => Ok tt | _ => Err (not_found "user is not a member of this room") end
  | MustBeBanned => match membership with Some Ban => Ok tt | _ => Err (invalid_param "user is not banned") end
  | AnyState => Ok tt
  end.

(** spaces.rs *)
Definition printable_ascii (s : string) : bool := forallb (λ b, (32 <=? bval b) && (bval b <=? 126)) (String.list_ascii_of_string s).

Definition validate_space_state (event_type : string) (content : Value) : result unit MatrixError :=
  if negb (seqb event_type "m.space.child") && negb (seqb event_type "m.space.parent") then Ok tt
  else
    match as_object content with
    | None => Err (invalid_param "space link content must be an object")
    | Some [] => Ok tt
    | Some obj =>
        let via_ok :=
          match map_get obj "via" ≫= as_array with
          | Some (v :: vs) => forallb (λ v, match as_str v with Some s => negb (s_is_empty s) | None => false end) (v :: vs)
          | _ => false
          end in
        let order_ok :=
          match map_get obj "order" with
          | Some order => match as_str order with Some s => (slen s <=? 50) && printable_ascii s | None => false end
          | None => true
          end in
        let suggested_ok := match map_get obj "suggested" with Some v => is_some (as_bool v) | None => true end in
        if negb via_ok then Err (invalid_param "via must be a non-empty list of server names")
        else if negb order_ok then Err (invalid_param "order must be a string of at most 50 printable ASCII characters")
        else if negb suggested_ok then Err (invalid_param "suggested must be a boolean")
        else Ok tt
    end.

(** [ReceiptType::from_wire_name] *)
Definition ReceiptType_from_wire_name (s : string) : option ReceiptType :=
  if seqb s "m.read" then Some Read else if seqb s "m.read.private" then Some ReadPrivate else None.

(** [CreateRoomRequest] *)
Record CreateRoomRequest := mkCreateRoom {
  cq_is_direct : bool;
  cq_invite : list string;
  cq_visibility : option string;
  cq_power_level_content_override : option Value;
  cq_creation_content : option Value;
  cq_room_alias_name : option string;
  cq_name : option string;
  cq_topic : option string }.

Inductive RoomRequest :=
| QCreate (room_id : string) (fresh : nat → string) (req : CreateRoomRequest) (now : string) (origin_ts : Z)
| QJoin (event_id room_id now : string) (origin_ts : Z)
| QLeave (event_id room_id now : string) (origin_ts : Z)
| QInvite (event_id room_id user_id now : string) (origin_ts : Z)
| QKick (event_id room_id user_id : string) (reason : option string) (now : string) (origin_ts : Z)
| QBan (event_id room_id user_id : string) (reason : option string) (now : string) (origin_ts : Z)
| QUnban (event_id room_id user_id now : string) (origin_ts : Z)
| QForget (room_id : string)
| QPutState (event_id room_id event_type state_key : string) (content : Value) (now : string) (origin_ts : Z)
| QSend (event_id room_id event_type txn_id : string) (content : Value) (now : string) (origin_ts : Z)
| QRedact (event_id room_id target_event_id txn_id : string) (reason : option string) (now : string) (origin_ts : Z)
| QReceipt (room_id receipt_type event_id : string) (now_ms queue_ms : Z)
| QMarkers (room_id : string) (fully_read read read_private : option string) (now_ms queue_ms : Z).

Section RoomOps.
Context `{ServerJson, RoomDag}.

Definition stamp_own_member_displayname (content displayname : string) : result string MatrixError :=
  let? value := read_json content in
  match as_object value with
  | None => Err (invalid_param "m.room.member content must be an object")
  | Some fields =>
      Ok (value_to_string (VObject (if s_is_empty displayname then map_remove "displayname" fields
                                    else map_insert "displayname" (VString displayname) fields)))
  end.

Definition check_state_event_type_allowed (event_type state_key caller_mxid content_str : string) : result unit MatrixError :=
  if seqb event_type "m.room.create" then Err (forbidden "m.room.create cannot be modified")
  else
    let? _ :=
      if seqb event_type "m.space.child" || seqb event_type "m.space.parent" then
        let? value := read_json content_str in validate_space_state event_type value
      else Ok tt in
    if seqb event_type "m.room.member" then
      let is_own_join_update := seqb state_key caller_mxid && bool_decide (content_membership content_str = Some "join") in
      if negb is_own_join_update then
        Err (forbidden "m.room.member only changes via join/leave/invite/kick/ban, except your own profile update while still joined")
      else Ok tt
    else Ok tt.

(** ** Reading gates *)

Definition power_levels_of (d : Db) (room_id : string) : result Value MatrixError :=
  match current_state_event d room_id "m.room.power_levels" EmptyString with
  | Some e => read_json (ev_content e)
  | None => Ok (VObject [])
  end.

Definition membership_of (d : Db) (room_id : string) (user_id : Z) : option Membership := rm_membership <$> room_member d room_id user_id.

Definition require_pub_read (d : Db) (room : Room) (user_id : Z) : result unit MatrixError :=
  if bool_decide (membership_of d (ro_id room) user_id = Some Join) then Ok tt
  else if bool_decide (ro_join_rule room = PublicRule) && bool_decide (ro_history_visibility room = WorldReadable) then Ok tt
  else Err (forbidden "no read access to this room").

Definition member_and_invited_ids (d : Db) (room_id : string) : gset Z :=
  list_to_set (rm_user_id <$> room_members d room_id (Some Join)) ∪ list_to_set (rm_user_id <$> room_members d room_id (Some Invite)).

Definition find_reusable_dm_room (d : Db) (pair_key : string) (user_a user_b : Z) : Db * option string :=
  match room_by_dm_pair_key d pair_key with
  | None => (d, None)
  | Some existing =>
      let members := room_members d (ro_id existing) None in
      let alive := λ uid, existsb (λ m, (rm_user_id m =? uid) && in_room (rm_membership m)) members in
      if alive user_a && alive user_b then (d, Some (ro_id existing)) else (clear_dm_pair_key d (ro_id existing), None)
  end.

(** [restricted_allows] (spaces.rs) *)
Definition state_content (d : Db) (room_id event_type key : string) : option Value :=
  e ← current_state_event d room_id event_type key; match value_from_str (ev_content e) with Ok v => Some v | Err _ => None end.

Definition restricted_allows (d : Db) (room_id : string) (user_id : Z) : bool :=
  match state_content d room_id "m.room.join_rules" EmptyString with
  | None => false
  | Some rules =>
      match get rules "join_rule" ≫= as_str with
      | Some j =>
          if seqb j "restricted" || seqb j "knock_restricted" then
            existsb (λ allow,
              bool_decide (get allow "type" ≫= as_str = Some "m.room_membership") &&
              match get allow "room_id" ≫= as_str with
              | Some space => bool_decide (membership_of d space user_id = Some Join)
              | None => false
              end) (default [] (get rules "allow" ≫= as_array))
          else false
      | None => false
      end
  end.

(** ** Actions *)

(** One state event of the caller's, and then whatever [k] answers from what it left. *)
Definition write_state {A} (h : Hs) (event_id room_id : string) (sender_user_id : Z) (event_type state_key : string) (content : string)
    (origin_ts : Z) (now : string) (k : Hs → EventRow → A) : Hs * result A MatrixError :=
  let '(h, r) := apply_state_event h event_id room_id sender_user_id event_type state_key content origin_ts now in
  (h, match r with Ok e => Ok (k h e) | Err e => Err (from_store_error e) end).

Definition apply_invite (h : Hs) (event_id room_id : string) (caller_user_id : Z) (caller_mxid : string) (target_user_id : Z) (displayname now : string)
    (origin_ts : Z) : Hs * result (gset Z) MatrixError :=
  let d := hs_db h in
  try? room := ok_or (get_room d room_id) (not_found "no such room") on h in
  try? _ := require_member (membership_of d room_id caller_user_id) on h in
  try? power_levels := power_levels_of d room_id on h in
  try? _ := require_power power_levels caller_mxid ActInvite on h in
  try? _ := match membership_of d room_id target_user_id with
            | Some Join | Some Invite => Err (invalid_param "user is already invited or joined")
            | Some Ban => Err (forbidden "user is banned from this room")
            | Some Leave | None => Ok tt
            end on h in
  try? target_mxid := ok_or (mxid_of d target_user_id) internal on h in
  write_state h event_id room_id caller_user_id "m.room.member" target_mxid (value_to_string (invite_member_content (ro_kind room) displayname)) origin_ts now
    (λ h _, {[target_user_id]} ∪ member_and_invited_ids (hs_db h) room_id).

Record MembershipPowerAction := mkPowerAction {
  mp_room_id : string;
  mp_action : PowerAction;
  mp_target_user_id : Z;
  mp_target_rule : TargetStateRule;
  mp_new_membership : Membership;
  mp_reason : option string }.

Definition apply_membership_power_action (h : Hs) (event_id : string) (caller_user_id : Z) (caller_mxid : string) (action : MembershipPowerAction)
    (now : string) (origin_ts : Z) : Hs * result (gset Z) MatrixError :=
  let d := hs_db h in
  let room_id := mp_room_id action in
  try? _ := require_member (membership_of d room_id caller_user_id) on h in
  try? power_levels := power_levels_of d room_id on h in
  try? target_mxid := ok_or (mxid_of d (mp_target_user_id action)) internal on h in
  let self_leave := bool_decide (mp_new_membership action = Leave) in
  try? _ := require_power_over_target power_levels caller_mxid target_mxid (mp_action action) self_leave on h in
  try? _ := check_target_state_rule (mp_target_rule action) (membership_of d room_id (mp_target_user_id action)) on h in
  let content := VObject [("membership", VString (Membership_as_str (mp_new_membership action)))] in
  let content := match mp_reason action with Some reason => value_set content "reason" (VString reason) | None => content end in
  write_state h event_id room_id caller_user_id "m.room.member" target_mxid (value_to_string content) origin_ts now
    (λ h _, {[mp_target_user_id action]} ∪ member_and_invited_ids (hs_db h) room_id).

Definition apply_join (h : Hs) (event_id room_id : string) (caller_user_id : Z) (caller_mxid displayname now : string) (origin_ts : Z) :
    Hs * result (gset Z) MatrixError :=
  write_state h event_id room_id caller_user_id "m.room.member" caller_mxid (value_to_string (join_member_content displayname)) origin_ts now
    (λ h _, member_and_invited_ids (hs_db h) room_id).

Definition apply_leave (h : Hs) (event_id room_id : string) (caller_user_id : Z) (caller_mxid now : string) (origin_ts : Z) :
    Hs * result (gset Z) MatrixError :=
  let d := hs_db h in
  match membership_of d room_id caller_user_id with
  | Some Join | Some Invite =>
      let wake_ids := member_and_invited_ids d room_id in
      write_state h event_id room_id caller_user_id "m.room.member" caller_mxid (value_to_string (VObject [("membership", VString "leave")])) origin_ts now
        (λ _ _, wake_ids)
  | _ => (h, Err (forbidden "not a member or invitee of this room"))
  end.

Inductive JoinDecision := AlreadyJoined | JoinedNow (notify : gset Z).

Definition decide_and_apply_join (h : Hs) (event_id room_id : string) (caller_user_id : Z) (caller_mxid displayname now : string) (origin_ts : Z) :
    Hs * result JoinDecision MatrixError :=
  let d := hs_db h in
  try? room := ok_or (get_room d room_id) (not_found "no such room") on h in
  let join := λ _ : unit,
    let '(h, r) := apply_join h event_id room_id caller_user_id caller_mxid displayname now origin_ts in
    (h, match r with Ok ids => Ok (JoinedNow ids) | Err e => Err e end) in
  match membership_of d room_id caller_user_id with
  | Some Join => (h, Ok AlreadyJoined)
  | Some Ban => (h, Err (forbidden "banned from this room"))
  | Some Invite => join tt
  | Some Leave | None =>
      if negb (bool_decide (ro_join_rule room = PublicRule)) && negb (restricted_allows d room_id caller_user_id)
      then (h, Err (forbidden "no invitation to this room"))
      else join tt
  end.

Definition apply_put_state (h : Hs) (event_id room_id : string) (sender_user_id : Z) (sender_mxid event_type state_key content now : string) (origin_ts : Z) :
    Hs * result (string * gset Z) MatrixError :=
  let d := hs_db h in
  if MATRIX_EVENT_CONTENT_MAX_BYTES <? slen content then (h, Err (invalid_param "event content too large"))
  else
    try? _ := ok_or (get_room d room_id) (not_found "no such room") on h in
    try? _ := require_member (membership_of d room_id sender_user_id) on h in
    try? _ := check_state_event_type_allowed event_type state_key sender_mxid content on h in
    let already_encrypted := is_some (current_state_event d room_id "m.room.encryption" EmptyString) in
    try? _ := check_encryption_state_change event_type already_encrypted on h in
    try? power_levels := power_levels_of d room_id on h in
    if user_level power_levels sender_mxid <? event_level power_levels event_type true
    then (h, Err (forbidden "insufficient power level to set this state event"))
    else
      try? _ := if seqb event_type "m.room.power_levels" then
                  let? new_power_levels := read_json content in
                  map_err forbidden (validate_power_levels_change power_levels new_power_levels sender_mxid)
                else Ok tt on h in
      write_state h event_id room_id sender_user_id event_type state_key content origin_ts now
        (λ h e, (ev_event_id e, member_and_invited_ids (hs_db h) room_id)).

Definition apply_forget (h : Hs) (room_id : string) (user_id : Z) : Hs * result unit MatrixError :=
  let '(d, deleted) := forget_membership (hs_db h) room_id user_id in
  (mkHs d (hs_dag h), if (deleted =? 0)%nat then Err (forbidden "must have left the room before forgetting it") else Ok tt).

(** ** Creating a room *)

(** A state event to be, without its id; [with_ids] draws the ids in order. *)
Definition state_event (event_type state_key : string) (sender_user_id : Z) (content : Value) (event_id : string) : NewStateEvent :=
  mkNewState event_id sender_user_id event_type state_key (value_to_string content).
Definition with_ids (fresh : nat → string) (events : list (string → NewStateEvent)) : list NewStateEvent := imap (λ i e, e (fresh i)) events.

Definition bootstrap_member_events (kind : RoomKind) (creator_user_id : Z) (creator_mxid creator_label : string) (invitees : list (string * string)) :
    list (string → NewStateEvent) :=
  state_event "m.room.member" creator_mxid creator_user_id (join_member_content creator_label) ::
  ((λ '(mxid, label), state_event "m.room.member" mxid creator_user_id (invite_member_content kind label)) <$> invitees).

Record RoomCreate := mkRoomCreate {
  cr_creator_user_id : Z;
  cr_creator_mxid : string;
  cr_creator_displayname : string;
  cr_is_direct : bool;
  cr_invitees : list (Z * string);
  cr_visibility_public : bool;
  cr_power_level_content_override : option Value;
  cr_name : option string;
  cr_topic : option string;
  cr_room_type : option string;
  cr_predecessor : option (string * string) }.

Inductive RoomCreation := Reused (room_id : string) | Created (room_id : string) (notify_user_ids : gset Z).

Definition create_content (req : RoomCreate) : Value :=
  let create := VObject [("room_version", VString MATRIX_ROOM_VERSION)] in
  let create := match cr_room_type req with Some t => value_set create "type" (VString t) | None => create end in
  match cr_predecessor req with
  | Some (room, event) => value_set create "predecessor" (VObject [("event_id", VString event); ("room_id", VString room)])
  | None => create
  end.

(** The state of a fresh room, in the order it is applied. *)
Definition initial_state (req : RoomCreate) (kind : RoomKind) (invitees : list (string * string)) (invite_level : Z) : list (string → NewStateEvent) :=
  let '(join_rule, history_visibility, is_encrypted) := room_kind_settings kind in
  let by_creator := λ event_type content, state_event event_type EmptyString (cr_creator_user_id req) content in
  [by_creator "m.room.create" (create_content req)] ++
  bootstrap_member_events kind (cr_creator_user_id req) (cr_creator_mxid req) (cr_creator_displayname req) invitees ++
  [by_creator "m.room.power_levels" (power_levels_content (cr_creator_mxid req) kind invite_level);
   by_creator "m.room.join_rules" (VObject [("join_rule", VString (JoinRule_as_str join_rule))]);
   by_creator "m.room.history_visibility" (VObject [("history_visibility", VString (HistoryVisibility_as_str history_visibility))])] ++
  match cr_name req with Some name => [by_creator "m.room.name" (VObject [("name", VString name)])] | None => [] end ++
  match cr_topic req with Some topic => [by_creator "m.room.topic" (VObject [("topic", VString topic)])] | None => [] end ++
  if is_encrypted then [by_creator "m.room.encryption" (VObject [("algorithm", VString "m.megolm.v1.aes-sha2")])] else [].

Definition apply_create_room (h : Hs) (room_id : string) (fresh : nat → string) (req : RoomCreate) (now : string) (origin_ts : Z) :
    Hs * result RoomCreation MatrixError :=
  if existsb (λ invitee, invitee.1 =? cr_creator_user_id req) (cr_invitees req) then (h, Err (invalid_param "cannot invite yourself"))
  else
    try? kind := derive_room_kind (cr_is_direct req) (length (cr_invitees req)) (cr_visibility_public req) on h in
    try? invite_override := validate_power_level_override kind (cr_power_level_content_override req) on h in
    let pair := if bool_decide (kind = Dm) then (λ invitee, dm_pair_key (cr_creator_user_id req) invitee.1) <$> head (cr_invitees req) else None in
    let '(d, reused) :=
      match pair, head (cr_invitees req) with
      | Some pair_key, Some peer => find_reusable_dm_room (hs_db h) pair_key (cr_creator_user_id req) peer.1
      | _, _ => (hs_db h, None)
      end in
    let h := mkHs d (hs_dag h) in
    match reused with
    | Some existing => (h, Ok (Reused existing))
    | None =>
        let '(join_rule, history_visibility, is_encrypted) := room_kind_settings kind in
        try? invitees := try_map (λ invitee, let? mxid := ok_or (mxid_of (hs_db h) invitee.1) internal in Ok (mxid, invitee.2)) (cr_invitees req) on h in
        let state_events := with_ids fresh (initial_state req kind invitees (invite_power_level kind invite_override)) in
        let bootstrap := mkBootstrap room_id kind (cr_creator_user_id req) now is_encrypted join_rule history_visibility pair None in
        let '(h, r) := create_room_with_state h bootstrap state_events origin_ts in
        (h, match r with
            | Ok _ => Ok (Created room_id ({[cr_creator_user_id req]} ∪ list_to_set (fst <$> cr_invitees req)))
            | Err e => Err (from_store_error e)
            end)
    end.

(** ** Sending and redacting (messaging.rs) *)

Definition MATRIX_SEND_DAILY_LIMIT : Z := 300.
Definition BURST_LIMIT_COUNT : Z := 20.
Definition BURST_LIMIT_WINDOW_SECS : Z := 10.
Definition ONE_DAY_MS : Z := 24 * 60 * 60 * 1000.

(** The calls of [chrono]: a time in RFC 3339 as milliseconds, and the text so many seconds earlier. *)
Class Chrono := {
  timestamp_millis : string → option Z;
  seconds_before : string → Z → string
}.

Context `{Chrono}.

Definition check_rate_limits (d : Db) (user_id : Z) (device_id now : string) : result unit MatrixError :=
  let? now_ms := ok_or (timestamp_millis now) internal in
  let daily := private_room_messages_sent_since d user_id (now_ms - ONE_DAY_MS) in
  if MATRIX_SEND_DAILY_LIMIT <=? daily then Err (limit_exceeded ONE_DAY_MS)
  else
    let burst := txn_dedup_count_since d user_id device_id (seconds_before now BURST_LIMIT_WINDOW_SECS) in
    if BURST_LIMIT_COUNT <=? burst then Err (limit_exceeded (BURST_LIMIT_WINDOW_SECS * 1000)) else Ok tt.

Definition REFUSED_SEND_STATE_TYPES : list string :=
  ["m.room.create"; "m.room.member"; "m.room.power_levels"; "m.room.join_rules"; "m.room.history_visibility"; "m.room.name"; "m.room.topic";
   "m.room.avatar"; "m.room.encryption"; "m.room.pinned_events"].
Definition LEGACY_DM_KEY_STATE_TYPE : string := "org.example.legacy_dm_key".

Definition check_send_event_type_allowed (event_type : string) (room_is_encrypted : bool) : result unit MatrixError :=
  if existsb (seqb event_type) REFUSED_SEND_STATE_TYPES || seqb event_type LEGACY_DM_KEY_STATE_TYPE then
    Err (bad_json (event_type +:+ " is a state event; send it via PUT /state/{eventType}/{stateKey}"))
  else if seqb event_type "org.example.legacy_dm" then
    Err (forbidden "org.example.legacy_dm is migration-only and cannot be sent by a client")
  else if seqb event_type "m.room.redaction" then
    Err (bad_json "use PUT /rooms/{roomId}/redact/{eventId}/{txnId} to redact an event")
  else if room_is_encrypted && negb (seqb event_type "m.room.encrypted") && negb (seqb event_type "m.reaction") then
    Err (forbidden "only m.room.encrypted and m.reaction may be sent in an encrypted room")
  else Ok tt.

Definition check_replace_target_sender (d : Db) (content : Value) (sender_user_id : Z) : result unit MatrixError :=
  match get content "m.relates_to" with
  | None => Ok tt
  | Some relates_to =>
      if negb (bool_decide (get relates_to "rel_type" ≫= as_str = Some "m.replace")) then Ok tt
      else
        match get relates_to "event_id" ≫= as_str with
        | None => Ok tt
        | Some target_id =>
            let? target := ok_or (get_event d target_id) (not_found "relation target not found") in
            if negb (ev_sender_user_id target =? sender_user_id)
            then Err (invalid_param "m.replace must be sent by the target event's original sender")
            else Ok tt
        end
  end.

(** [SendOutcome] and [RedactOutcome] *)
Record WriteOutcome := mkWritten { wo_event : EventRow; wo_is_new : bool; wo_wake_ids : gset Z }.

(** The event of a transaction id that is on file already. *)
Definition seen_event (d : Db) (user_id : Z) (device_id txn_id : string) : option (result EventRow MatrixError) :=
  match txn_dedup_lookup d user_id device_id txn_id with
  | NotSeen => None
  | Seen existing => Some (let? id := ok_or existing internal in ok_or (get_event d id) internal)
  end.

Definition written {E} (to_error : E → MatrixError) (room_id : string) (d : Db) (r : result DedupedWrite E) : result WriteOutcome MatrixError :=
  match r with
  | Ok (NewWrite e) => Ok (mkWritten e true (member_and_invited_ids d room_id))
  | Ok (ExistingWrite e) => Ok (mkWritten e false ∅)
  | Err e => Err (to_error e)
  end.

Definition apply_send (h : Hs) (room : Room) (caller_user_id : Z) (caller_mxid device_id txn_id event_id event_type content_str now : string) (origin_ts : Z) :
    Hs * result WriteOutcome MatrixError :=
  let d := hs_db h in
  match seen_event d caller_user_id device_id txn_id with
  | Some seen => (h, let? e := seen in Ok (mkWritten e false ∅))
  | None =>
      match seen_txn d caller_user_id device_id txn_id with
      | Some existing => (h, Ok (mkWritten existing false ∅))
      | None =>
          try? _ := require_member (membership_of d (ro_id room) caller_user_id) on h in
          try? _ := check_send_event_type_allowed event_type (ro_is_encrypted room) on h in
          try? power_levels := power_levels_of d (ro_id room) on h in
          if user_level power_levels caller_mxid <? event_level power_levels event_type false
          then (h, Err (forbidden "insufficient power level to send this event"))
          else
            try? _ := check_rate_limits d caller_user_id device_id now on h in
            try? content := read_json content_str on h in
            try? _ := check_replace_target_sender d content caller_user_id on h in
            if is_public_room d (ro_id room) then
              let '(d, r) := pub_insert_event_deduped d device_id txn_id event_id (ro_id room) caller_user_id event_type content_str origin_ts in
              (mkHs d (hs_dag h), written (λ _, internal) (ro_id room) d r)
            else
              let '(h, r) := insert_timeline_event_deduped h device_id txn_id event_id (ro_id room) caller_user_id event_type content_str origin_ts now in
              (h, written from_store_error (ro_id room) (hs_db h) r)
      end
  end.

Definition apply_redact (h : Hs) (room_id : string) (caller_user_id : Z) (caller_mxid device_id txn_id target_event_id redaction_event_id : string)
    (reason : option string) (now : string) (origin_ts : Z) : Hs * result WriteOutcome MatrixError :=
  let d := hs_db h in
  match seen_event d caller_user_id device_id txn_id with
  | Some seen => (h, let? e := seen in Ok (mkWritten e false ∅))
  | None =>
      try? _ := require_member (membership_of d room_id caller_user_id) on h in
      try? target := ok_or (get_event d target_event_id) (not_found "no such event") on h in
      if negb (seqb (ev_room_id target) room_id) then (h, Err (not_found "no such event"))
      else
        try? _ := if ev_sender_user_id target =? caller_user_id then Ok tt
                  else let? power_levels := power_levels_of d room_id in require_power power_levels caller_mxid ActRedact on h in
        if is_some (pub_get_event d target_event_id) then
          let '(d, r) := pub_redact_deduped d device_id txn_id room_id target_event_id redaction_event_id caller_user_id reason origin_ts in
          (mkHs d (hs_dag h), written (λ _, internal) room_id d r)
        else
          let '(h, r) := redact_event_deduped h device_id txn_id room_id target_event_id redaction_event_id caller_user_id reason origin_ts now in
          (h, written from_store_error room_id (hs_db h) r)
  end.

(** ** Receipts and read markers (ephemeral.rs) *)

Definition enqueue_receipt (d : Db) (room_id : string) (user_id : Z) (event_id : string) (ts now_ms : Z) : Db :=
  if user_id <=? 0 then d
  else
    match mxid_of d user_id with
    | None => d
    | Some mxid =>
        let content := VObject [(room_id, VObject [("m.read", VObject [(mxid, VObject
          [("data", VObject [("ts", json_int ts)]); ("event_ids", VArray [VString event_id])])])])] in
        queue d (remote_domains d room_id) (VObject [("content", content); ("edu_type", VString "m.receipt")]) now_ms
    end.

(** The users to wake; [None] when the receipt did not move. [now_ms] is the time of the request,
    [queue_ms] the time the notice to other servers is queued. *)
Definition apply_receipt (d : Db) (room : Room) (caller_user_id : Z) (receipt_type : ReceiptType) (event_id : string) (now_ms queue_ms : Z) :
    Db * result (option (gset Z)) MatrixError :=
  try? _ := require_member (membership_of d (ro_id room) caller_user_id) on d in
  try? window := map_err from_store_error (visible_upper_bound d room caller_user_id) on d in
  try? target := ok_or (e ← get_event d event_id; if seqb (ev_room_id e) (ro_id room) then Some e else None) (not_found "no such event") on d in
  if negb (window_contains window (ev_stream_id target)) then (d, Err (forbidden "event is outside your visible history"))
  else
    let before := get_receipt d (ro_id room) caller_user_id receipt_type in
    let '(d, r) := upsert_receipt d (ro_id room) caller_user_id receipt_type event_id now_ms in
    match r with
    | Err e => (d, Err (from_store_error e))
    | Ok new_stream_id =>
        if bool_decide (rc_stream_id <$> before = Some new_stream_id) then (d, Ok None)
        else
          let d := if bool_decide (receipt_type = Read) then enqueue_receipt d (ro_id room) caller_user_id event_id now_ms queue_ms else d in
          (d, Ok (Some (match receipt_type with Read => member_and_invited_ids d (ro_id room) | ReadPrivate => {[caller_user_id]} end)))
    end.

(** The receipt of one field of the body, if it names one. *)
Definition apply_marker (room : Room) (caller_user_id : Z) (receipt_type : ReceiptType) (event_id : option string) (now_ms queue_ms : Z)
    (acc : Db * result (gset Z) MatrixError) : Db * result (gset Z) MatrixError :=
  match event_id, acc with
  | Some event_id, (d, Ok wake_ids) =>
      let '(d, r) := apply_receipt d room caller_user_id receipt_type event_id now_ms queue_ms in
      (d, let? ids := r in Ok (wake_ids ∪ default ∅ ids))
  | _, _ => acc
  end.

Definition apply_read_markers (d : Db) (room : Room) (caller_user_id : Z) (fully_read read read_private : option string) (now_ms queue_ms : Z) :
    Db * result (gset Z) MatrixError :=
  try? _ := require_member (membership_of d (ro_id room) caller_user_id) on d in
  let acc :=
    match fully_read with
    | Some event_id =>
        ((upsert_account_data d caller_user_id (ro_id room) "m.fully_read" (value_to_string (VObject [("event_id", VString event_id)]))).1,
         Ok ({[caller_user_id]} : gset Z))
    | None => (d, Ok ∅)
    end in
  apply_marker room caller_user_id ReadPrivate read_private now_ms queue_ms (apply_marker room caller_user_id Read read now_ms queue_ms acc).

(** ** Paging through a room's history *)

Definition MESSAGES_DEFAULT_LIMIT : Z := 10.
Definition MESSAGES_MAX_LIMIT : Z := 100.

Inductive Direction := Backward | Forward.

Definition Direction_from_query (raw : option string) : result Direction MatrixError :=
  let raw := default "b" raw in
  if seqb raw "b" then Ok Backward else if seqb raw "f" then Ok Forward else Err (invalid_param "dir must be 'b' or 'f'").

Record StreamToken := mkStreamToken { stk_stream_id : Z; stk_after_event : bool }.

Definition backward_bound (t : StreamToken) : Z := if stk_after_event t then i64_saturating_add (stk_stream_id t) 1 else stk_stream_id t.
Definition forward_bound (t : StreamToken) : Z := stk_stream_id t.
Definition to_bound (t : StreamToken) (dir : Direction) : Z := match dir with Backward => forward_bound t | Forward => backward_bound t end.

Definition parse_stream_token (raw : string) : result StreamToken MatrixError :=
  let malformed := invalid_param "malformed pagination token" in
  let? token :=
    if starts_with "s" raw then
      let? sync := map_err (λ _, malformed) (parse raw) in Ok (mkStreamToken (st_stream_id sync) true)
    else
      let? n := ok_or (parse_i64 (default raw (strip_prefix "t" raw))) malformed in Ok (mkStreamToken n false) in
  if stk_stream_id token <? 0 then Err malformed else Ok token.

Definition format_stream_token (stream_id : Z) : string := "t" +:+ pretty stream_id.

Definition resolve_messages_start (d : Db) (from : option StreamToken) (dir : Direction) : Z :=
  match from, dir with
  | Some token, Backward => backward_bound token
  | Some token, Forward => forward_bound token
  | None, Backward => i64_saturating_add (max_stream_id d) 1
  | None, Forward => 0
  end.

Definition clamp_limit (requested : option Z) : Z := Z.min (Z.max (default MESSAGES_DEFAULT_LIMIT requested) 1) MESSAGES_MAX_LIMIT.

Record EventFilter := mkEventFilter { ef_types : option (list string); ef_not_types : option (list string); ef_lazy_load_members : bool }.

Definition event_passes_filter (event_type : string) (filter : EventFilter) : bool :=
  match ef_types filter with Some types => existsb (seqb event_type) types | None => true end &&
  match ef_not_types filter with Some not_types => negb (existsb (seqb event_type) not_types) | None => true end.

Record MessagesPage := mkPage { mg_chunk : list EventRow; mg_start : string; mg_end : option string }.

Definition hard_truncated (window : HistoryWindow) (to_stream : option Z) (dir : Direction) (e : EventRow) : bool :=
  if negb (window_contains window (ev_stream_id e)) then true
  else
    match to_stream, dir with
    | Some to, Backward => ev_stream_id e <=? to
    | Some to, Forward => to <=? ev_stream_id e
    | None, _ => false
    end.

Definition paginate_messages (d : Db) (room_id : string) (window : HistoryWindow) (from_stream : Z) (to_stream : option Z) (dir : Direction) (limit : Z)
    (filter : EventFilter) : MessagesPage :=
  let raw_page := match dir with Backward => events_in_room_before d room_id from_stream limit | Forward => events_in_room_after d room_id from_stream limit end in
  let any_hard_truncated := existsb (hard_truncated window to_stream dir) raw_page in
  let chunk := select (λ e, negb (hard_truncated window to_stream dir e) && event_passes_filter (ev_event_type e) filter) raw_page in
  let end_ :=
    if (length raw_page <? Z.to_nat limit)%nat || any_hard_truncated then None
    else (λ e, format_stream_token (ev_stream_id e)) <$> last raw_page in
  mkPage chunk (format_stream_token from_stream) end_.

(** [GET /messages], up to the rendering of the page. *)
Definition get_messages (d : Db) (user_id : Z) (room_id : string) (dir from to : option string) (limit : option Z) (filter : EventFilter) :
    result MessagesPage MatrixError :=
  let? dir := Direction_from_query dir in
  let? from_token := match from with Some raw => let? t := parse_stream_token raw in Ok (Some t) | None => Ok None end in
  let? to_stream := match to with Some raw => let? t := parse_stream_token raw in Ok (Some (to_bound t dir)) | None => Ok None end in
  let limit := clamp_limit limit in
  let? room := ok_or (get_room d room_id) (not_found "no such room") in
  let? window := map_err from_store_error (visible_upper_bound d room user_id) in
  if bool_decide (window = Nothing) then Err (forbidden "no read access to this room")
  else Ok (paginate_messages d room_id window (resolve_messages_start d from_token dir) to_stream dir limit filter).

(** [GET /event/{eventId}], up to the rendering. *)
Definition get_event_route (d : Db) (user_id : Z) (room_id event_id : string) : result EventRow MatrixError :=
  let? room := ok_or (get_room d room_id) (not_found "no such room") in
  let? window := map_err from_store_error (visible_upper_bound d room user_id) in
  if bool_decide (window = Nothing) then Err (forbidden "no read access to this room")
  else
    let? e := ok_or (e ← get_event d event_id; if seqb (ev_room_id e) room_id then Some e else None) (not_found "no such event") in
    if negb (window_contains window (ev_stream_id e)) then Err (forbidden "event is outside your visible history") else Ok e.

(** ** The handlers of http/rooms.rs and http/messaging.rs

    The caller is resolved, the policy hook has agreed and federation is off; [user_nick] and
    [effective_label] are what nick.rs answers for a user. *)

Context (user_nick : Z → option string) (effective_label : Z → string).

Definition require_nick (user_id : Z) (missing : string) : result string MatrixError := ok_or (user_nick user_id) (forbidden missing).

Definition known_user_id (d : Db) (mxid : string) : result Z MatrixError := ok_or (user_id_of d mxid) (not_found ("Unknown user: " +:+ mxid)).

Definition require_room (d : Db) (room_id : string) : result Room MatrixError := ok_or (get_room d room_id) (not_found "no such room").

Definition content_with_own_displayname (caller_user_id : Z) (caller_mxid state_key content : string) : result string MatrixError :=
  if negb (seqb state_key caller_mxid) then Ok content
  else if negb (bool_decide (content_membership content = Some "join")) then Ok content
  else stamp_own_member_displayname content (effective_label caller_user_id).

Definition join_room (h : Hs) (event_id : string) (c : Caller) (room_id now : string) (origin_ts : Z) : Hs * result JoinDecision MatrixError :=
  decide_and_apply_join h event_id room_id (ca_user_id c) (ca_mxid c) (effective_label (ca_user_id c)) now origin_ts.

Definition leave_room (h : Hs) (event_id : string) (c : Caller) (room_id now : string) (origin_ts : Z) : Hs * result (gset Z) MatrixError :=
  try? _ := require_room (hs_db h) room_id on h in
  apply_leave h event_id room_id (ca_user_id c) (ca_mxid c) now origin_ts.

Definition invite_member (h : Hs) (event_id : string) (c : Caller) (room_id user_id now : string) (origin_ts : Z) : Hs * result (gset Z) MatrixError :=
  try? _ := require_nick (ca_user_id c) "choose a nick before inviting" on h in
  try? _ := require_room (hs_db h) room_id on h in
  try? target_user_id := known_user_id (hs_db h) user_id on h in
  if target_user_id =? ca_user_id c then (h, Err (invalid_param "cannot invite yourself"))
  else apply_invite h event_id room_id (ca_user_id c) (ca_mxid c) target_user_id (effective_label target_user_id) now origin_ts.

Definition membership_change (h : Hs) (event_id : string) (c : Caller) (room_id target_mxid : string) (reason : option string) (action : PowerAction)
    (target_rule : TargetStateRule) (new_membership : Membership) (now : string) (origin_ts : Z) : Hs * result (gset Z) MatrixError :=
  try? _ := require_room (hs_db h) room_id on h in
  try? target_user_id := known_user_id (hs_db h) target_mxid on h in
  apply_membership_power_action h event_id (ca_user_id c) (ca_mxid c) (mkPowerAction room_id action target_user_id target_rule new_membership reason) now origin_ts.

Definition kick_member h event_id c room_id user_id reason := membership_change h event_id c room_id user_id reason ActKick MustBeActiveMember Leave.
Definition ban_member h event_id c room_id user_id reason := membership_change h event_id c room_id user_id reason ActBan AnyState Ban.
Definition unban_member h event_id c room_id user_id := membership_change h event_id c room_id user_id None ActBan MustBeBanned Leave.

Definition put_state (h : Hs) (event_id : string) (c : Caller) (room_id event_type state_key : string) (content : Value) (now : string) (origin_ts : Z) :
    Hs * result (string * gset Z) MatrixError :=
  let content_str := value_to_string content in
  if MATRIX_EVENT_CONTENT_MAX_BYTES <? slen content_str then (h, Err (invalid_param "event content too large"))
  else
    try? content_str := if seqb event_type "m.room.member" then content_with_own_displayname (ca_user_id c) (ca_mxid c) state_key content_str else Ok content_str on h in
    apply_put_state h event_id room_id (ca_user_id c) (ca_mxid c) event_type state_key content_str now origin_ts.

Definition send_event (h : Hs) (event_id : string) (c : Caller) (room_id event_type txn_id : string) (content : Value) (now : string) (origin_ts : Z) :
    Hs * result WriteOutcome MatrixError :=
  let content_str := value_to_string content in
  if MATRIX_EVENT_CONTENT_MAX_BYTES <? slen content_str then (h, Err (bad_json "event content too large"))
  else
    try? room := require_room (hs_db h) room_id on h in
    apply_send h room (ca_user_id c) (ca_mxid c) (ca_device_id c) txn_id event_id event_type content_str now origin_ts.

Definition redact_event_handler (h : Hs) (event_id : string) (c : Caller) (room_id target_event_id txn_id : string) (reason : option string) (now : string)
    (origin_ts : Z) : Hs * result WriteOutcome MatrixError :=
  try? _ := require_room (hs_db h) room_id on h in
  apply_redact h room_id (ca_user_id c) (ca_mxid c) (ca_device_id c) txn_id target_event_id event_id reason now origin_ts.

(** The one [creation_content.type] there is. *)
Definition SPACE_TYPE : string := "m.space".
Definition requested_room_type (creation_content : option Value) : result (option string) MatrixError :=
  match creation_content ≫= λ c, get c "type" with
  | None => Ok None
  | Some t => if bool_decide (as_str t = Some SPACE_TYPE) then Ok (Some SPACE_TYPE) else Err (invalid_param "only creation_content.type m.space is supported")
  end.

Definition create_room_handler (h : Hs) (room_id : string) (fresh : nat → string) (c : Caller) (req : CreateRoomRequest) (now : string) (origin_ts : Z) :
    Hs * result RoomCreation MatrixError :=
  let visibility_public := bool_decide (cq_visibility req = Some "public") in
  try? kind := derive_room_kind (cq_is_direct req) (length (cq_invite req)) visibility_public on h in
  try? _ := validate_power_level_override kind (cq_power_level_content_override req) on h in
  try? room_type := requested_room_type (cq_creation_content req) on h in
  if negb (s_is_empty (default EmptyString (cq_room_alias_name req))) then (h, Err (invalid_param "room aliases are not supported"))
  else
    try? _ := require_nick (ca_user_id c) "choose a nick before creating a room" on h in
    try? invitees := try_map (λ mxid, let? id := known_user_id (hs_db h) mxid in Ok (id, effective_label id)) (cq_invite req) on h in
    apply_create_room h room_id fresh
      (mkRoomCreate (ca_user_id c) (ca_mxid c) (effective_label (ca_user_id c)) (cq_is_direct req) invitees visibility_public
         (cq_power_level_content_override req) (cq_name req) (cq_topic req) room_type None) now origin_ts.

Definition forget_room (h : Hs) (c : Caller) (room_id : string) : Hs * result unit MatrixError := apply_forget h room_id (ca_user_id c).

Definition post_receipt (h : Hs) (c : Caller) (room_id : string) (receipt_type : string) (event_id : string) (now_ms queue_ms : Z) :
    Hs * result (option (gset Z)) MatrixError :=
  try? receipt_type := ok_or (ReceiptType_from_wire_name receipt_type) (invalid_param "receiptType must be m.read or m.read.private") on h in
  try? room := require_room (hs_db h) room_id on h in
  let '(d, r) := apply_receipt (hs_db h) room (ca_user_id c) receipt_type event_id now_ms queue_ms in (mkHs d (hs_dag h), r).

Definition post_read_markers (h : Hs) (c : Caller) (room_id : string) (fully_read read read_private : option string) (now_ms queue_ms : Z) :
    Hs * result (gset Z) MatrixError :=
  try? room := require_room (hs_db h) room_id on h in
  let '(d, r) := apply_read_markers (hs_db h) room (ca_user_id c) fully_read read read_private now_ms queue_ms in (mkHs d (hs_dag h), r).

(** *** Reading *)

Definition get_state_all (d : Db) (c : Caller) (room_id : string) : result (list EventRow) MatrixError :=
  let? room := require_room d room_id in
  let? _ := require_pub_read d room (ca_user_id c) in
  Ok (current_state_all d room_id).

(** The [at] of a query: a stream id, or a sync token. *)
Definition parse_at (raw : string) : result Z MatrixError :=
  match parse_i64 raw with Some n => Ok n | None => let? t := parse raw in Ok (st_stream_id t) end.

(** The member events, up to their rendering. *)
Definition get_members (d : Db) (c : Caller) (room_id : string) (membership at_ : option string) : result (list EventRow) MatrixError :=
  let? filter :=
    match membership with
    | Some raw => let? m := ok_or (Membership_from_wire_name raw) (invalid_param "unknown membership filter") in Ok (Some m)
    | None => Ok None
    end in
  let? at_ := match at_ with Some raw => let? n := parse_at raw in Ok (Some n) | None => Ok None end in
  let? room := require_room d room_id in
  let? _ := require_pub_read d room (ca_user_id c) in
  let member_events :=
    match at_ with
    | Some at_stream_id => state_events_of_type_at d room_id "m.room.member" at_stream_id
    | None => select is_member_event (current_state_all d room_id)
    end in
  try_fold (λ out e,
    match filter with
    | None => Ok (out ++ [e])
    | Some wanted =>
        let? content := read_json (ev_content e) in
        let membership := (get content "membership" ≫= as_str) ≫= Membership_from_wire_name in
        if bool_decide (membership = Some wanted) then Ok (out ++ [e]) else Ok out
    end) [] member_events.

Definition get_joined_members (d : Db) (c : Caller) (room_id : string) : result Map MatrixError :=
  let? room := require_room d room_id in
  let? _ := require_pub_read d room (ca_user_id c) in
  try_fold (λ joined m,
    let? mxid := ok_or (mxid_of d (rm_user_id m)) internal in
    Ok (map_insert mxid (VObject [("display_name", VString (effective_label (rm_user_id m)))]) joined)) [] (room_members d room_id (Some Join)).

Definition joined_rooms (d : Db) (c : Caller) : list string := rooms_for_user d (ca_user_id c) (Some Join).

Definition get_state (d : Db) (c : Caller) (room_id event_type state_key : string) : result Value MatrixError :=
  let? room := require_room d room_id in
  let? _ := require_pub_read d room (ca_user_id c) in
  let? e := ok_or (current_state_event d room_id event_type state_key) (not_found "no such state event") in
  read_json (ev_content e).

(** ** Every request that changes a room

    The ids a handler draws and the times it reads are part of the request. *)

Definition answer {A} (o : Hs * result A MatrixError) : Hs * option MatrixError := (o.1, match o.2 with Ok _ => None | Err e => Some e end).

Definition serve_room (h : Hs) (c : Caller) (r : RoomRequest) : Hs * option MatrixError :=
  match r with
  | QCreate room_id fresh req now ts => answer (create_room_handler h room_id fresh c req now ts)
  | QJoin id room_id now ts => answer (join_room h id c room_id now ts)
  | QLeave id room_id now ts => answer (leave_room h id c room_id now ts)
  | QInvite id room_id user_id now ts => answer (invite_member h id c room_id user_id now ts)
  | QKick id room_id user_id reason now ts => answer (kick_member h id c room_id user_id reason now ts)
  | QBan id room_id user_id reason now ts => answer (ban_member h id c room_id user_id reason now ts)
  | QUnban id room_id user_id now ts => answer (unban_member h id c room_id user_id now ts)
  | QForget room_id => answer (forget_room h c room_id)
  | QPutState id room_id event_type state_key content now ts => answer (put_state h id c room_id event_type state_key content now ts)
  | QSend id room_id event_type txn_id content now ts => answer (send_event h id c room_id event_type txn_id content now ts)
  | QRedact id room_id target txn_id reason now ts => answer (redact_event_handler h id c room_id target txn_id reason now ts)
  | QReceipt room_id receipt_type event_id ms queue_ms => answer (post_receipt h c room_id receipt_type event_id ms queue_ms)
  | QMarkers room_id fully_read read read_private ms queue_ms => answer (post_read_markers h c room_id fully_read read read_private ms queue_ms)
  end.

Definition serve_rooms (h : Hs) (rs : list (Caller * RoomRequest)) : Hs := foldl (λ h cr, (serve_room h cr.1 cr.2).1) h rs.

End RoomOps.
