(* ===== verification/ServerRoomProps.v ===== *)
(** * What holds of rooms: single writes

    The invariant of the room tables, and what each kind of write leaves of it: a state event, a
    timeline event, a redaction, and what touches other tables. The rules on power levels. *)

From Stdlib Require Import Ascii.
From S2P Require Import Prelude Sqlite Json ServerDb ServerKeyOps ServerKeyRoutes ServerDbProps ServerTrustProps ServerRooms ServerRoomOps.

Local Open Scope Z_scope.

(** ** Values that are alike but for the digits of fractions *)

Inductive like : Value → Value → Prop :=
| like_same v : like v v
| like_float a b : like (VNumber (Float a)) (VNumber (Float b))
| like_array l l' : Forall2 like l l' → like (VArray l) (VArray l')
| like_object m m' : Forall2 (λ a b, a.1 = b.1 ∧ like a.2 b.2) m m' → like (VObject m) (VObject m').

(** What is written reads back, up to the digits of fractions; what is read is well formed. *)
Class ServerJsonText `{ServerJson} : Prop := {
  parsed_wf s v : value_from_str s = Ok v → wf_value v;
  text_reads_back v : wf_value v → ∃ v', value_from_str (value_to_string v) = Ok v' ∧ like v v'
}.

Lemma like_map_get m m' k :
  Forall2 (λ a b : string * Value, a.1 = b.1 ∧ like a.2 b.2) m m' →
  match map_get m k, map_get m' k with Some a, Some b => like a b | None, None => True | _, _ => False end.
Proof.
  unfold map_get. induction 1 as [|[k1 a] [k2 b] m m' [Hk Hl] _ IH]; [done|]. cbn in *. subst k2.
  destruct (bool_decide (k1 = k)) eqn:He; cbn; by rewrite ?He.
Qed.

Lemma like_get v v' k :
  like v v' → match get v k, get v' k with Some a, Some b => like a b | None, None => True | _, _ => False end.
Proof.
  intros Hl. inversion Hl; subst; cbn; try done; [|by apply like_map_get].
  destruct (get v' k); [constructor|done].
Qed.

Lemma like_as_str v v' : like v v' → as_str v' = as_str v.
Proof. by inversion 1. Qed.
Lemma like_as_i64 v v' : like v v' → value_as_i64 v' = value_as_i64 v.
Proof. by inversion 1. Qed.

Lemma like_get_bind {A} (f : Value → option A) v v' k :
  (∀ a b, like a b → f b = f a) → like v v' → get v' k ≫= f = get v k ≫= f.
Proof. intros Hf Hl. apply (like_get _ _ k) in Hl. destruct (get v k), (get v' k); cbn; [by apply Hf|done..]. Qed.

Lemma like_level_field v v' k : like v v' → level_field v' k = level_field v k.
Proof. intros Hl. unfold level_field. by apply like_get_bind; [intros a b; apply like_as_i64|]. Qed.

Lemma like_user_level v v' x : like v v' → user_level v' x = user_level v x.
Proof.
  intros Hl. unfold user_level. rewrite (like_get_bind _ v v') by (auto using like_level_field). by rewrite (like_level_field v v').
Qed.

Lemma map_insert_elem k v m kv : kv ∈ map_insert k v m → kv = (k, v) ∨ kv ∈ m.
Proof.
  induction m as [|[k' v'] m IH]; cbn; [intros ->%list_elem_of_singleton; by left|].
  destruct (decide (k = k')); [|destruct (decide (String.le k k'))]; rewrite !elem_of_cons; naive_solver.
Qed.

Lemma keys_sorted_insert k v m : keys_sorted m → keys_sorted (map_insert k v m).
Proof.
  unfold keys_sorted. induction 1 as [|[k' v'] m Hs IH Hall]; cbn; [by repeat constructor|].
  rewrite Forall_forall in Hall. destruct (decide (k = k')) as [->|Hne]; [constructor; [done|by apply Forall_forall]|].
  destruct (decide (String.le k k')) as [Hle|Hnle].
  - constructor; [constructor; [done|by apply Forall_forall]|]. apply Forall_cons. split; [done|]. apply Forall_forall. intros [k2 v2] Hin.
    destruct (Hall _ Hin) as [Hle2 Hne2]. cbn in *. split; [by etrans|]. intros ->. apply Hne. by apply (anti_symm String.le).
  - constructor; [done|]. apply Forall_forall. intros kv [->|Hin]%map_insert_elem; [|by apply Hall]. cbn. split; [|done].
    by destruct (total String.le k k').
Qed.

Lemma wf_map_insert k v m : wf_value (VObject m) → wf_value v → wf_value (VObject (map_insert k v m)).
Proof.
  inversion 1 as [| | | | |m' Hs Hall]; subst. intros Hv. constructor; [by apply keys_sorted_insert|].
  rewrite Forall_forall in *. intros kv [->|Hin]%map_insert_elem; [done|by apply Hall].
Qed.

Lemma wf_value_set v k w : wf_value v → wf_value w → wf_value (value_set v k w).
Proof. intros Hv Hw. destruct v; try done; [|by apply wf_map_insert]. constructor; [by repeat constructor|by constructor]. Qed.

Lemma wf_get v k w : wf_value v → get v k = Some w → wf_value w.
Proof.
  intros Hv Hg. destruct v; try done. inversion Hv as [| | | | |m' _ Hall]; subst. cbn in Hg. apply map_get_Some_in in Hg.
  rewrite Forall_forall in Hall. by apply (Hall (k, w)).
Qed.

Lemma get_value_set_ne v k k' w : is_object v = true → k ≠ k' → get (value_set v k w) k' = get v k'.
Proof. intros Ho Hk. destruct v; try done. by apply map_get_insert_ne. Qed.

(** ** Power levels *)

Lemma reject_ok old new s :
  reject_if_either_side_exceeds old new s = Ok tt → old = new ∨ ((∀ v, old = Some v → v ≤ s) ∧ ∀ v, new = Some v → v ≤ s).
Proof.
  unfold reject_if_either_side_exceeds. destruct (bool_decide (old = new)) eqn:He; cbn; [apply bool_decide_eq_true in He; by left|].
  destruct old as [a|], new as [b|]; cbn; rewrite ?orb_false_r; try case_match; intros [=]; right; split; intros v [= <-]; boolify; lia.
Qed.

(** The level an action needs. *)
Definition threshold (power_levels : Value) (action : PowerAction) : Z :=
  let '(field, default_) := field_and_default action in default default_ (level_field power_levels field).

Lemma map_get_absent m k : k ∉ m.*1 → map_get m k = None.
Proof.
  intros Hk. unfold map_get. destruct (List.find _ m) as [[k' v]|] eqn:Hf; [|done]. apply List.find_some in Hf as [Hin He]. boolify. cbn in *. subst k'.
  destruct Hk. apply list_elem_of_fmap. exists (k, v). split; [done|]. by apply list_elem_of_In.
Qed.

(** A user that [users] does not name has the default level. *)
Lemma user_level_unnamed v x :
  (∀ m, get v "users" ≫= as_object = Some m → x ∉ m.*1) → user_level v x = default 0 (level_field v "users_default").
Proof.
  intros Hx. unfold user_level, level_field at 1. destruct (get v "users") as [u|]; [|done]. cbn in *. destruct u; try done. cbn.
  by rewrite map_get_absent by (by apply Hx).
Qed.

Lemma elem_of_both_keys old new k :
  k ∈ both_keys old new ↔ (∃ m, old = Some m ∧ k ∈ m.*1) ∨ (∃ m, new = Some m ∧ k ∈ m.*1).
Proof.
  unfold both_keys, btree_set. rewrite merge_sort_Permutation, elem_of_remove_dups, elem_of_app.
  destruct old as [m|], new as [m'|]; cbn; rewrite ?elem_of_nil; naive_solver.
Qed.

(** The named levels of a room and what each is when the room does not say. *)
Definition NAMED_LEVELS : list (string * Z) :=
  [("ban", 50); ("kick", 50); ("redact", 50); ("invite", 50); ("state_default", 50); ("events_default", 0); ("users_default", 0)].

(** The level that [events] gives a type of event, if any. *)
Definition event_entry (power_levels : Value) (event_type : string) : option Z :=
  get power_levels "events" ≫= λ events, level_field events event_type.

Lemma event_entry_object v ty : event_entry v ty = (get v "events" ≫= as_object) ≫= λ m, map_get m ty ≫= value_as_i64.
Proof. unfold event_entry, level_field. destruct (get v "events") as [e|]; [|done]. by destruct e. Qed.

(** What an accepted change can touch: levels, named levels and entries up to the sender's own, and
    only to move them up to the sender's own. *)
Definition bounded (n : Z) (a b : Value) : Prop :=
  (∀ x, user_level b x = user_level a x ∨ (user_level b x ≤ n ∧ user_level a x ≤ n)) ∧
  (∀ key d, (key, d) ∈ NAMED_LEVELS →
     default d (level_field b key) = default d (level_field a key) ∨ (default d (level_field b key) ≤ n ∧ default d (level_field a key) ≤ n)) ∧
  (∀ ty, event_entry b ty = event_entry a ty ∨ ((∀ v, event_entry b ty = Some v → v ≤ n) ∧ ∀ v, event_entry a ty = Some v → v ≤ n)).

Lemma validated_users old new sender :
  validate_power_levels_change old new sender = Ok tt → ∀ x,
  x ∈ both_keys (get old "users" ≫= as_object) (get new "users" ≫= as_object) →
  user_level new x = user_level old x ∨ (user_level new x ≤ user_level old sender ∧ user_level old x ≤ user_level old sender).
Proof.
  unfold validate_power_levels_change. set (s := user_level old sender). intros Hv x Hin.
  destruct (try_each _ POWER_LEVELS_SCALAR_KEYS) as [[]|]; [|done].
  destruct (try_each _ (both_keys (get old "events" ≫= as_object) _)) as [[]|]; [|done].
  destruct (reject_if_either_side_exceeds (get old "notifications" ≫= _) _ s) as [[]|]; [|done].
  rewrite try_each_ok, Forall_forall in Hv. specialize (Hv x Hin). destruct (user_level old x =? user_level new x) eqn:He; [boolify; left; congruence|].
  destruct (negb (seqb x sender) && (s <=? user_level old x)) eqn:Hp; [done|]. destruct (s <? user_level new x) eqn:Hu; [done|].
  right. boolify. split; [lia|]. apply andb_false_iff in Hp as [Hp|Hp]; [|boolify; lia].
  apply negb_false_iff in Hp. apply seqb_true in Hp. subst x. subst s. lia.
Qed.

Lemma validated_change old new sender :
  validate_power_levels_change old new sender = Ok tt → bounded (user_level old sender) old new.
Proof.
  intros Hv. pose proof (validated_users _ _ _ Hv) as Husers. revert Hv.
  unfold validate_power_levels_change. set (s := user_level old sender) in *. intros Hv.
  destruct (try_each _ POWER_LEVELS_SCALAR_KEYS) as [[]|] eqn:Hscalar; [|done].
  destruct (try_each _ (both_keys (get old "events" ≫= as_object) _)) as [[]|] eqn:Hevents; [|done]. clear Hv.
  rewrite try_each_ok, Forall_forall in Hscalar. rewrite try_each_ok, Forall_forall in Hevents.
  assert (Hfield : ∀ key d, (key, d) ∈ NAMED_LEVELS →
    default d (level_field new key) = default d (level_field old key) ∨ (default d (level_field new key) ≤ s ∧ default d (level_field old key) ≤ s)).
  { intros key d Hkey. assert (Hd : key ∈ POWER_LEVELS_SCALAR_KEYS ∧ power_levels_scalar_default key = d).
    { unfold NAMED_LEVELS in Hkey. rewrite !elem_of_cons, elem_of_nil in Hkey. unfold POWER_LEVELS_SCALAR_KEYS.
      repeat destruct Hkey as [[= -> ->]|Hkey]; [..|done]; (split; [set_solver|done]). }
    destruct Hd as [Hin <-]. specialize (Hscalar key Hin). apply reject_ok in Hscalar as [[= He]|[Ho Hn]]; [by left|right]. split; [by apply Hn|by apply Ho]. }
  split_and!; [|done|].
  - intros x. destruct (decide (x ∈ both_keys (get old "users" ≫= as_object) (get new "users" ≫= as_object))) as [Hin|Hout]; [by apply Husers|].
    rewrite elem_of_both_keys in Hout. rewrite !user_level_unnamed by naive_solver. apply (Hfield "users_default"). unfold NAMED_LEVELS. set_solver.
  - intros ty. rewrite !event_entry_object. destruct (decide (ty ∈ both_keys (get old "events" ≫= as_object) (get new "events" ≫= as_object))) as [Hin|Hout].
    + specialize (Hevents ty Hin). apply reject_ok in Hevents as [He|[Ho Hn]]; [by left|right]. by split.
    + left. rewrite elem_of_both_keys in Hout. destruct (get old "events" ≫= as_object) as [m|], (get new "events" ≫= as_object) as [m'|]; cbn;
        rewrite ?(map_get_absent m), ?(map_get_absent m') by naive_solver; done.
Qed.

(** ** Rows under an upsert *)

Lemma find_app_new {A} (q : A → bool) t r : (∀ x, x ∈ t → q x = false) → find_row q (t ++ [r]) = if q r then Some r else None.
Proof.
  intros Hq. induction t as [|x t IH]; unfold find_row in *; cbn; [done|]. rewrite Hq by left. apply IH. intros y Hy. apply Hq. by right.
Qed.
Lemma find_app_old {A} (q : A → bool) t r : q r = false → find_row q (t ++ [r]) = find_row q t.
Proof. intros Hq. induction t as [|x t IH]; unfold find_row in *; cbn; [by rewrite Hq|]. by destruct (q x). Qed.

Lemma find_update_other {A} (p q : A → bool) f t : (∀ x, p x = true → q x = false ∧ q (f x) = false) → find_row q (update_where p f t) = find_row q t.
Proof.
  intros Hpq. unfold update_where, find_row. induction t as [|x t IH]; [done|]. cbn. destruct (p x) eqn:Hp; [|by destruct (q x)].
  destruct (Hpq x Hp) as [-> ->]. apply IH.
Qed.
Lemma find_update_same {A} (p : A → bool) f t : (∀ x, p x = true → p (f x) = true) → find_row p (update_where p f t) = f <$> find_row p t.
Proof.
  intros Hf. unfold update_where, find_row. induction t as [|x t IH]; [done|]. cbn. destruct (p x) eqn:Hp; [by rewrite (Hf x Hp)|]. by rewrite Hp.
Qed.

Lemma find_upsert_self {A} (p : A → bool) f new t :
  p new = true → (∀ x, p x = true → p (f x) = true) →
  find_row p (upsert p f new t) = Some (match find_row p t with Some r => f r | None => new end).
Proof.
  intros Hnew Hf. unfold upsert. rewrite exists_row_find. destruct (find_row p t) as [r|] eqn:Hr; cbn.
  - by rewrite find_update_same, Hr.
  - rewrite find_app_new, Hnew; [done|]. intros x Hx. by eapply find_row_None.
Qed.
Lemma find_upsert_other {A} (p q : A → bool) f new t :
  q new = false → (∀ x, p x = true → q x = false ∧ q (f x) = false) → find_row q (upsert p f new t) = find_row q t.
Proof. intros Hnew Hpq. unfold upsert. destruct (exists_row p t); [by apply find_update_other|by apply find_app_old]. Qed.

(** ** The invariant *)

Definition slot_key (r : SlotRow) := (sl_room_id r, sl_event_type r, sl_state_key r).
Definition member_key (r : RoomMember) := (rm_room_id r, rm_user_id r).

Section Invariant.
Context `{J : ServerJson}.
Implicit Types d : Db.

Definition text_membership (content : string) : option Membership := content_membership content ≫= Membership_from_wire_name.

(** The event of a slot is there and is of that slot. *)
Definition filled d (s : SlotRow) : Prop :=
  ∃ e, event_row d (sl_event_id s) = Some e ∧ ev_room_id e = sl_room_id s ∧ ev_event_type e = sl_event_type s ∧ ev_state_key e = Some (sl_state_key s).

(** A member's row says what the member event of the room's state says. *)
Definition follows_state d (room_id : string) (u : Z) (m : Membership) : Prop :=
  ∃ mxid e, mxid_of d u = Some mxid ∧ current_state_event d room_id "m.room.member" mxid = Some e ∧ text_membership (ev_content e) = Some m.

(** Whether a room is there, and encrypted. *)
Definition sealing d (room_id : string) : option bool := ro_is_encrypted <$> get_room d room_id.

(** What the timeline of an encrypted room may hold. *)
Definition sealed_type (event_type : string) : bool :=
  seqb event_type "m.room.encrypted" || seqb event_type "m.reaction" || seqb event_type "m.room.redaction".
Definition event_fits d (e : EventRow) : Prop :=
  ∃ sealed, sealing d (ev_room_id e) = Some sealed ∧ (sealed = true → ev_state_key e = None → sealed_type (ev_event_type e) = true).

Record rooms_ok d : Prop := {
  ok_room_counter : 0 ≤ db_stream_counter d;
  ok_users : keyed mu_user_id (db_users d);
  ok_mxids : keyed mu_mxid (db_users d);
  ok_rooms : keyed ro_id (db_rooms d);
  ok_events : ordered ev_stream_id (db_stream_counter d) (db_events d);
  ok_event_ids : keyed ev_event_id (db_events d);
  ok_fits : Forall (event_fits d) (db_events d);
  ok_slots : keyed slot_key (db_current_state d);
  ok_filled : Forall (filled d) (db_current_state d);
  ok_members : keyed member_key (db_members d);
  ok_member_rooms : Forall (λ m, is_Some (sealing d (rm_room_id m))) (db_members d);
  ok_projected room_id u m : membership_of d room_id u = Some m → follows_state d room_id u m }.

Lemma mxid_user d u mxid : rooms_ok d → mxid_of d u = Some mxid → user_id_of d mxid = Some u.
Proof.
  intros Hd. unfold mxid_of, user_id_of. rewrite !fmap_Some. intros (r & Hf & ->). apply find_row_Some in Hf as [Hr He]. apply Z.eqb_eq in He. subst u.
  exists r. split; [|done]. apply (find_row_keyed mu_mxid); [apply Hd|done|by apply seqb_true|]. intros x Hx. by apply seqb_true in Hx.
Qed.

Lemma user_mxid d u mxid : rooms_ok d → user_id_of d mxid = Some u → mxid_of d u = Some mxid.
Proof.
  intros Hd. unfold mxid_of, user_id_of. rewrite !fmap_Some. intros (r & Hf & ->). apply find_row_Some in Hf as [Hr He]. apply seqb_true in He. subst mxid.
  exists r. split; [|done]. apply (find_row_keyed mu_user_id); [apply Hd|done|by apply Z.eqb_eq|]. intros x Hx. by apply Z.eqb_eq in Hx.
Qed.

(** Memberships are all that [membership_of] reads of the member rows. *)
Definition shape (r : RoomMember) : string * Z * Membership := (rm_room_id r, rm_user_id r, rm_membership r).
Definition at_member (room_id : string) (u : Z) (r : RoomMember) : bool := seqb (rm_room_id r) room_id && (rm_user_id r =? u).

Lemma at_member_key room_id u r : at_member room_id u r = true ↔ member_key r = (room_id, u).
Proof. unfold at_member, member_key. rewrite andb_true_iff, seqb_true, Z.eqb_eq. naive_solver. Qed.

Lemma membership_shape d d' : shape <$> db_members d' = shape <$> db_members d → ∀ room_id u, membership_of d' room_id u = membership_of d room_id u.
Proof.
  unfold membership_of, room_member. generalize (db_members d') (db_members d). intros t' t Hs room_id u. revert t Hs.
  induction t' as [|x' t' IH]; intros [|x t]; try done. cbn. intros [= Hr Hu Hm Ht]. unfold find_row in *. cbn. rewrite Hr, Hu.
  case_match; cbn; [by rewrite Hm|by apply IH].
Qed.

Lemma keyed_shape t t' : shape <$> t' = shape <$> t → keyed member_key t → keyed member_key t'.
Proof.
  unfold keyed. intros Hs. assert (Hk : ∀ t, member_key <$> t = fst <$> (shape <$> t)) by (intros l; by rewrite <- list_fmap_compose).
  by rewrite !Hk, Hs.
Qed.

Lemma forall_shape (P : string → Prop) t t' : shape <$> t' = shape <$> t → Forall (λ m, P (rm_room_id m)) t → Forall (λ m, P (rm_room_id m)) t'.
Proof.
  intros Hs Hp. assert (Hk : ∀ t, Forall (λ m, P (rm_room_id m)) t ↔ Forall (λ s, P s.1.1) (shape <$> t)) by (intros l; by rewrite Forall_fmap).
  by rewrite Hk, Hs, <- Hk.
Qed.

End Invariant.

(** ** Writing a state event *)

Section Writes.
Context `{J : ServerJson, G : RoomDag, !ServerJsonText}.
Implicit Types d : Db.

Lemma text_member v : wf_value v → content_membership (value_to_string v) = get v "membership" ≫= as_str.
Proof.
  intros (v' & Hr & Hl)%text_reads_back. unfold content_membership. rewrite Hr. apply like_get_bind; [intros a b; apply like_as_str|done].
Qed.

(** What the graph makes of a content: the same members, a few added. *)
Definition carried (ty a b : string) : Prop :=
  a = b ∨ ∃ v v', value_from_str a = Ok v ∧ value_from_str b = Ok v' ∧
    (ty ≠ "m.room.create" → get v' "membership" ≫= as_str = get v "membership" ≫= as_str) ∧
    (ty ≠ "m.room.create" → ty ≠ "m.room.member" → like v v').

Lemma carried_membership ty a b : carried ty a b → ty ≠ "m.room.create" → content_membership b = content_membership a.
Proof.
  intros [->|(v & v' & Ha & Hb & Hm & _)] Hty; [done|]. unfold content_membership. rewrite Ha, Hb. by apply Hm.
Qed.

Lemma authorised_join d room_id sender c :
  wf_value c → is_object c = true →
  let c' := authorise_restricted_join d room_id sender c in wf_value c' ∧ get c' "membership" = get c "membership".
Proof.
  intros Hwf Ho. unfold authorise_restricted_join. cbn zeta.
  assert (Hset : ∀ v, wf_value (value_set c "join_authorised_via_users_server" (VString v)) ∧
                      get (value_set c "join_authorised_via_users_server" (VString v)) "membership" = get c "membership").
  { intros v. split; [apply wf_value_set; [done|constructor]|by apply get_value_set_ne]. }
  repeat case_match; try done; apply Hset.
Qed.

Lemma prepare_local_spec h room_id sender kind key content ts p :
  prepare_local h room_id sender kind key content ts = Ok (Some p) → hs_db p.1.1 = hs_db h ∧ carried kind content p.2.
Proof.
  unfold prepare_local, store_json. destruct (negb _); [done|]. destruct (mxid_of _ _) as [mxid|]; [|done]. cbn [ok_or].
  destruct (value_from_str content) as [c|] eqn:Hc; [|done]. cbn [map_err].
  set (c1 := if seqb kind "m.room.create" && _ then _ else c).
  match goal with |- context [dag_local_event _ _ _ _ _ _ ?e] => set (c2 := e) end.
  destruct (dag_local_event _ _ _ _ _ _ _) as [[dag id]|]; [|done]. intros [= <-]. split; [done|]. cbn.
  pose proof (parsed_wf _ _ Hc) as Hwf.
  assert (Hwf1 : wf_value c1) by (subst c1; case_match; [apply wf_value_set; [done|constructor]|done]).
  assert (Hc1 : kind ≠ "m.room.create" → c1 = c). { intros Hk. subst c1. unfold seqb. by rewrite bool_decide_false by done. }
  clearbody c1.
  assert (H2 : wf_value c2 ∧ (kind ≠ "m.room.create" → get c2 "membership" = get c1 "membership") ∧ (kind ≠ "m.room.member" → c2 = c1)).
  { subst c2. destruct (seqb kind "m.room.member") eqn:Hm; cbn; [|done]. apply seqb_true in Hm.
    destruct (bool_decide (key = _)); cbn; [|done]. destruct (bool_decide (get c1 "membership" ≫= as_str = _)) eqn:Hj; cbn; [|done].
    destruct (negb _); [|done]. apply bool_decide_eq_true in Hj.
    destruct (authorised_join (hs_db h) room_id mxid c1) as [Hw Hg]; [done|by destruct c1|done]. }
  destruct H2 as (Hwf2 & Hg2 & He2). destruct (text_reads_back _ Hwf2) as (v' & Hv' & Hl). right. exists c, v'. split_and!; [done..| |].
  - intros Hk. rewrite (like_get_bind as_str c2 v') by (auto using like_as_str). by rewrite Hg2, Hc1.
  - intros Hk1 Hk2. by rewrite <- Hc1, <- He2.
Qed.

(** What a state event leaves behind. *)
Record wrote d (room_id ty key content : string) (e : EventRow) d' : Prop := {
  wr_users : db_users d' = db_users d;
  wr_rooms : db_rooms d' = db_rooms d;
  wr_events : db_events d' = db_events d ++ [e];
  wr_counter : db_stream_counter d' = db_stream_counter d + 1;
  wr_event : ev_room_id e = room_id ∧ ev_event_type e = ty ∧ ev_state_key e = Some key ∧ ev_stream_id e = db_stream_counter d + 1;
  wr_content : carried ty content (ev_content e);
  wr_slot r t k : current_state_event d' r t k = if decide ((r, t, k) = (room_id, ty, key)) then Some e else current_state_event d r t k;
  wr_membership r u :
    membership_of d' r u = if decide (ty = "m.room.member" ∧ r = room_id ∧ user_id_of d key = Some u) then text_membership content else membership_of d r u;
  wr_known : ty = "m.room.member" → is_Some (user_id_of d key) ∧ is_Some (text_membership content) }.

Lemma slot_is_key r t k s : slot_is r t k s = true ↔ slot_key s = (r, t, k).
Proof. unfold slot_is, slot_key. rewrite !andb_true_iff, !seqb_true. naive_solver. Qed.

Lemma insert_event_ok d e d' :
  insert_event d e = Ok d' → d' = with_events d (db_events d ++ [e]) ∧ is_Some (sealing d (ev_room_id e)) ∧
  ∀ x, x ∈ db_events d → ev_stream_id x ≠ ev_stream_id e ∧ ev_event_id x ≠ ev_event_id e.
Proof.
  unfold insert_event, sealing, get_room. rewrite exists_row_find. destruct (find_row _ (db_rooms d)) as [r|]; [|done]. cbn.
  destruct (exists_row _ _) eqn:Hx; [done|]. intros [= <-]. split_and!; [done|done|]. intros x Hin. rewrite exists_row_false in Hx. specialize (Hx x Hin).
  apply orb_false_iff in Hx as [Hs Hi]. split; [by apply Z.eqb_neq|]. intros He. apply not_true_iff_false in Hi. apply Hi. by apply seqb_true.
Qed.

Lemma event_row_new d e id :
  (∀ x, x ∈ db_events d → ev_event_id x ≠ ev_event_id e) →
  find_row (λ x, seqb (ev_event_id x) id) (db_events d ++ [e]) = if decide (id = ev_event_id e) then Some e else event_row d id.
Proof.
  intros Hnew. destruct (decide (id = ev_event_id e)) as [->|Hne].
  - rewrite find_app_new; [by rewrite seqb_refl|]. intros x Hx. apply not_true_iff_false. rewrite seqb_true. by apply Hnew.
  - rewrite find_app_old; [done|]. apply not_true_iff_false. rewrite seqb_true. congruence.
Qed.

(** The member rows of one write. *)
Record members_follow d (room_id ty key content : string) (t : list RoomMember) : Prop := {
  mf_keyed : keyed member_key (db_members d) → keyed member_key t;
  mf_rooms : Forall (λ m, is_Some (sealing d (rm_room_id m))) (db_members d) → is_Some (sealing d room_id) → Forall (λ m, is_Some (sealing d (rm_room_id m))) t;
  mf_membership r u :
    rm_membership <$> find_row (at_member r u) t =
    if decide (ty = "m.room.member" ∧ r = room_id ∧ user_id_of d key = Some u) then text_membership content else membership_of d r u;
  mf_known : ty = "m.room.member" → is_Some (user_id_of d key) ∧ is_Some (text_membership content) }.

Lemma members_follow_shape d room_id ty key content t :
  ty ≠ "m.room.member" → shape <$> t = shape <$> db_members d → members_follow d room_id ty key content t.
Proof.
  intros Hty Hs. split; [by apply keyed_shape|intros Hr _; by apply (forall_shape (λ r, is_Some (sealing d r)) _ _ Hs)| |done].
  intros r u. rewrite decide_False by naive_solver. apply (membership_shape d (with_members d t)). done.
Qed.

Lemma apply_power_shape d room_id users members : shape <$> foldl (apply_power_entry d room_id) members users = shape <$> members.
Proof.
  revert members. induction users as [|[mxid level] users IH]; intros members; [done|]. cbn [foldl]. rewrite IH. unfold apply_power_entry. cbn.
  destruct (value_as_i64 level); [|done]. destruct (user_id_of d mxid); [|done]. by apply update_where_keys.
Qed.

Lemma refresh_members d room_id ty key content now d' :
  refresh_projections d room_id ty key content now = Ok d' → ∃ t, d' = with_members d t ∧ members_follow d room_id ty key content t.
Proof.
  unfold refresh_projections. destruct (seqb ty "m.room.member") eqn:Hm.
  - apply seqb_true in Hm. subst ty. change (seqb "m.room.member" "m.room.power_levels") with false.
    unfold refresh_room_member, store_json. destruct (value_from_str content) as [v|] eqn:Hv; [|done]. cbn.
    destruct (get v "membership" ≫= as_str) as [ms|] eqn:Hms; [|done]. cbn. destruct (Membership_from_wire_name ms) as [m|] eqn:Hmm; [|done]. cbn.
    destruct (user_id_of d key) as [u|] eqn:Hu; [|done]. cbn. intros [= <-]. eexists. split; [done|].
    assert (Ht : text_membership content = Some m) by (unfold text_membership, content_membership; by rewrite Hv, Hms).
    change (λ r, seqb (rm_room_id r) room_id && (rm_user_id r =? u)) with (at_member room_id u).
    assert (Hself : at_member room_id u (mkMember room_id u m None now) = true) by (by apply at_member_key).
    split.
    + intros Hk. unfold upsert. destruct (exists_row _ _) eqn:He; [by apply keyed_update|]. apply keyed_app; [done|].
      intros x Hx Hkey. rewrite exists_row_false in He. specialize (He x Hx). apply not_true_iff_false in He. apply He. by apply at_member_key.
    + intros Hr Hroom. unfold upsert. destruct (exists_row _ _); [|by apply Forall_app; split; [done|apply Forall_singleton]].
      unfold update_where. rewrite Forall_fmap. eapply Forall_impl; [exact Hr|]. intros x Hx. cbn. by case_match.
    + intros r u'. rewrite Ht, Hu. destruct (decide _) as [(_ & -> & [= <-])|Hne].
      * rewrite find_upsert_self; [by destruct (find_row _ _)|done|done].
      * unfold membership_of, room_member. change (λ x, seqb (rm_room_id x) r && (rm_user_id x =? u')) with (at_member r u'). f_equal.
        assert (Hother : ∀ x, member_key x = (room_id, u) → at_member r u' x = false).
        { intros x Hx. apply not_true_iff_false. rewrite at_member_key. rewrite Hx. naive_solver. }
        apply find_upsert_other; [by apply Hother|]. intros x Hx. apply at_member_key in Hx. split; by apply Hother.
    + intros _. by rewrite Ht.
  - assert (Hty : ty ≠ "m.room.member") by (intros ->; by rewrite seqb_refl in Hm).
    destruct (seqb ty "m.room.power_levels").
    + unfold refresh_power_levels. destruct (store_json content); [|done]. intros [= <-]. eexists. split; [done|]. apply members_follow_shape; [done|].
      rewrite apply_power_shape. by apply update_where_keys.
    + intros [= <-]. exists (db_members d). split; [by destruct d|]. by apply members_follow_shape.
Qed.

Lemma set_slot_event d room_id ty key e r t k :
  Forall (filled d) (db_current_state d) → (∀ x, x ∈ db_events d → ev_event_id x ≠ ev_event_id e) →
  current_state_event (set_slot (with_events d (db_events d ++ [e])) room_id ty key (ev_event_id e)) r t k =
  if decide ((r, t, k) = (room_id, ty, key)) then Some e else current_state_event d r t k.
Proof.
  intros Hf Hnew. unfold current_state_event, set_slot. cbn. destruct (decide _) as [[= -> -> ->]|Hne].
  - rewrite find_upsert_self; [|by apply slot_is_key|done]. cbn. unfold event_row at 1. cbn. rewrite event_row_new by done.
    destruct (find_row _ _); cbn; by rewrite decide_True.
  - rewrite find_upsert_other.
    + destruct (find_row (slot_is r t k) (db_current_state d)) as [s|] eqn:Hs; [|done]. cbn. unfold event_row at 1. cbn. rewrite event_row_new by done.
      apply find_row_Some in Hs as [Hs _]. rewrite Forall_forall in Hf. destruct (Hf s Hs) as (x & Hx & _). rewrite decide_False; [done|].
      unfold event_row in Hx. apply find_row_Some in Hx as [Hx Hid]. apply seqb_true in Hid. rewrite <- Hid. by apply Hnew.
    + apply not_true_iff_false. rewrite slot_is_key. unfold slot_key. cbn. congruence.
    + intros x Hx. apply slot_is_key in Hx. split; apply not_true_iff_false; rewrite slot_is_key; unfold slot_key in *; cbn; congruence.
Qed.

Lemma set_slot_filled d room_id ty key e :
  ev_room_id e = room_id → ev_event_type e = ty → ev_state_key e = Some key →
  Forall (filled d) (db_current_state d) → (∀ x, x ∈ db_events d → ev_event_id x ≠ ev_event_id e) →
  let d' := set_slot (with_events d (db_events d ++ [e])) room_id ty key (ev_event_id e) in Forall (filled d') (db_current_state d').
Proof.
  intros Hr Ht Hk Hf Hnew d'.
  assert (Hrow : ∀ id, event_row d' id = if decide (id = ev_event_id e) then Some e else event_row d id) by (intros id; by apply event_row_new).
  assert (Hnewrow : filled d' (mkSlot room_id ty key (ev_event_id e))) by (exists e; rewrite Hrow, decide_True; done).
  assert (Hold : ∀ s, filled d s → filled d' s).
  { intros s (x & Hx & Hrest). exists x. split; [|done]. rewrite Hrow, decide_False; [done|]. unfold event_row in Hx. apply find_row_Some in Hx as [Hx Hid].
    apply seqb_true in Hid. rewrite <- Hid. by apply Hnew. }
  unfold d' at 2. cbn. unfold upsert. destruct (exists_row _ _).
  - unfold update_where. rewrite Forall_fmap. eapply Forall_impl; [exact Hf|]. intros s Hs. cbn. destruct (slot_is _ _ _ s) eqn:Hsl; [|by apply Hold].
    apply slot_is_key in Hsl. unfold slot_key in Hsl. by injection Hsl as -> -> ->.
  - apply Forall_app. split; [by eapply Forall_impl|by apply Forall_singleton].
Qed.

Lemma state_raw_wrote d id room_id sender ty key content ts now d' e :
  rooms_ok d → apply_state_event_raw_in_tx d id room_id sender ty key content ts now = Ok (d', e) →
  wrote d room_id ty key content e d' ∧ rooms_ok d' ∧ ev_content e = content.
Proof.
  intros Hd. unfold apply_state_event_raw_in_tx, next_stream_id.
  match goal with |- context [insert_event ?a ?b] => set (d0 := a); set (e0 := b) end.
  destruct (insert_event d0 e0) as [d1|] eqn:Hi; [|done]. cbn [map_err].
  apply insert_event_ok in Hi as (-> & Hroom & Hnew). destruct (refresh_projections _ _ _ _ _ _) as [d2|] eqn:Hp; [|done].
  intros [= <- <-]. apply refresh_members in Hp as (t & -> & Hmf).
  assert (Hids : ∀ x, x ∈ db_events d → ev_event_id x ≠ ev_event_id e0) by (intros x Hx; by apply Hnew).
  assert (Hslot : ∀ r t' k, current_state_event (with_members (set_slot (with_events d0 (db_events d0 ++ [e0])) room_id ty key id) t) r t' k =
                            if decide ((r, t', k) = (room_id, ty, key)) then Some e0 else current_state_event d r t' k).
  { intros r t' k. apply (set_slot_event d0 room_id ty key e0); [apply Hd|done]. }
  assert (Hw : wrote d room_id ty key content e0 (with_members (set_slot (with_events d0 (db_events d0 ++ [e0])) room_id ty key id) t)).
  { split; [done..|by left|exact Hslot| |].
    - intros r u. apply (mf_membership _ _ _ _ _ _ Hmf r u).
    - apply (mf_known _ _ _ _ _ _ Hmf). }
  split; [exact Hw|]. split; [|done]. destruct Hd. split; cbn; try done.
  - lia.
  - by apply ordered_app.
  - by apply keyed_app.
  - apply Forall_app. split; [done|]. apply Forall_singleton. destruct Hroom as [b Hb]. by exists b.
  - unfold upsert. destruct (exists_row _ _) eqn:He.
    + apply keyed_update; [done|]. done.
    + apply keyed_app; [done|]. intros x Hx Hkey. rewrite exists_row_false in He. specialize (He x Hx). apply not_true_iff_false in He. apply He. by apply slot_is_key.
  - apply (set_slot_filled d0 room_id ty key e0); [done..|exact ok_filled0|done].
  - by apply (mf_keyed _ _ _ _ _ _ Hmf).
  - by apply (mf_rooms _ _ _ _ _ _ Hmf).
  - intros r u m. rewrite (wr_membership _ _ _ _ _ _ _ Hw). destruct (decide _) as [(-> & -> & Hu)|Hne]; intros Hm.
    + exists key, e0. split_and!; [by apply (user_mxid d)| |done]. rewrite Hslot. by rewrite decide_True.
    + destruct (ok_projected0 r u m Hm) as (mxid & e & Hmx & Hc & Ht). exists mxid, e. split_and!; [done| |done]. rewrite Hslot, decide_False; [done|].
      intros [= -> <- <-]. apply Hne. split_and!; [done..|]. apply mxid_user; [by split|done].
Qed.

Lemma wrote_carried d room_id ty key content content' e d' :
  carried ty content content' → ev_content e = content' → wrote d room_id ty key content' e d' → wrote d room_id ty key content e d'.
Proof.
  intros Hc He [? ? ? ? ? ? ? Hm Hk]. split; try done; [by rewrite He|..].
  - intros r u. rewrite Hm. destruct (decide _) as [(-> & _)|]; [|done]. unfold text_membership. by rewrite (carried_membership _ _ _ Hc).
  - intros ->. destruct (Hk eq_refl) as [Hu Ht]. split; [done|]. unfold text_membership in *. by rewrite (carried_membership _ _ _ Hc) in Ht.
Qed.

Lemma state_wrote h id room_id sender ty key content ts now h' e :
  rooms_ok (hs_db h) → apply_state_event_in_tx h id room_id sender ty key content ts now = Ok (h', e) →
  wrote (hs_db h) room_id ty key content e (hs_db h') ∧ rooms_ok (hs_db h').
Proof.
  intros Hd. unfold apply_state_event_in_tx. destruct (prepare_local _ _ _ _ _ _ _) as [[p|]|] eqn:Hp; [| |done].
  - apply prepare_local_spec in Hp as [Hdb Hc]. destruct p as [[h1 id'] content']. cbn in Hdb, Hc. cbn [fst snd].
    destruct (apply_state_event_raw_in_tx _ _ _ _ _ _ _ _ _) as [[d' e']|] eqn:Hr; [|done]. intros [= <- <-].
    rewrite Hdb in Hr. apply state_raw_wrote in Hr as (Hw & Hok & He); [|done]. split; [by eapply wrote_carried|done].
  - cbn [fst snd]. destruct (apply_state_event_raw_in_tx _ _ _ _ _ _ _ _ _) as [[d' e']|] eqn:Hr; [|done]. intros [= <- <-].
    apply state_raw_wrote in Hr as (Hw & Hok & He); done.
Qed.

(** A request's one state event is written, or nothing is. *)
Lemma write_state_spec {A} h id room_id sender ty key content ts now (k : Hs → EventRow → A) :
  rooms_ok (hs_db h) →
  let o := write_state h id room_id sender ty key content ts now k in
  o.1 = h ∨ ∃ e, wrote (hs_db h) room_id ty key content e (hs_db o.1) ∧ rooms_ok (hs_db o.1).
Proof.
  intros Hd. unfold write_state, apply_state_event, hs_transaction. destruct (apply_state_event_in_tx _ _ _ _ _ _ _ _ _) as [[h' e]|] eqn:Hs; [|by left].
  right. exists e. by apply state_wrote in Hs.
Qed.

(** ** Writes that leave memberships and power levels alone *)

Definition levels d (room_id : string) : Value := match power_levels_of d room_id with Ok v => v | Err _ => VObject [] end.

Definition same_levels (a b : Value) : Prop :=
  (∀ x, user_level b x = user_level a x) ∧ (∀ key, key ∈ NAMED_LEVELS.*1 → level_field b key = level_field a key) ∧
  ∀ ty, event_entry b ty = event_entry a ty.

Lemma like_same_levels v v' : like v v' → same_levels v v'.
Proof.
  intros Hl. split_and!; [intros x; by apply like_user_level|intros key _; by apply like_level_field|].
  intros ty. unfold event_entry. by apply like_get_bind; [intros a b; apply like_level_field|].
Qed.

Lemma same_bounded n a b c : same_levels b c → bounded n a b → bounded n a c.
Proof.
  intros (Hu & Hk & He) (H1 & H2 & H3). split_and!; [intros x; by rewrite Hu| |intros ty; by rewrite He].
  intros key d Hin. rewrite Hk; [by apply H2|]. by apply (list_elem_of_fmap_2 fst _ (key, d)).
Qed.

Lemma bounded_refl n a : bounded n a a.
Proof. split_and!; intros; by left. Qed.

Lemma bounded_le n m a b : n ≤ m → bounded n a b → bounded m a b.
Proof.
  intros Hle (H1 & H2 & H3). split_and!; [intros x; specialize (H1 x); lia|intros key d Hin; specialize (H2 key d Hin); lia|].
  intros ty. destruct (H3 ty) as [He|[Ha Hb]]; [by left|right]. split; intros v Hv; [specialize (Ha v Hv)|specialize (Hb v Hv)]; lia.
Qed.

Lemma bounded_trans n a b c : bounded n a b → bounded n b c → bounded n a c.
Proof.
  intros (H1 & H2 & H3) (H4 & H5 & H6). split_and!.
  - intros x. specialize (H1 x). specialize (H4 x). lia.
  - intros key d Hin. specialize (H2 key d Hin). specialize (H5 key d Hin). lia.
  - intros ty. destruct (H3 ty) as [He|[Ha Hb]], (H6 ty) as [He'|[Ha' Hb']]; [left; congruence|right..]; split; intros v Hv.
    + by apply Ha'.
    + apply Hb'. congruence.
    + apply Ha. congruence.
    + by apply Hb.
    + by apply Ha'.
    + by apply Hb.
Qed.

Lemma same_levels_trans a b c : same_levels a b → same_levels b c → same_levels a c.
Proof. intros (H1 & H2 & H3) (H4 & H5 & H6). split_and!; [intros x; by rewrite H4|intros k Hk; by rewrite H5, H2|intros ty; by rewrite H6]. Qed.

Record calm d d' : Prop := {
  ca_users : db_users d' = db_users d;
  ca_sealing r : sealing d' r = sealing d r;
  ca_membership r u : membership_of d' r u = membership_of d r u;
  ca_levels r : same_levels (levels d r) (levels d' r) }.

#[global] Instance calm_preorder : PreOrder calm.
Proof.
  split; [by intros d; repeat split|]. intros d1 d2 d3 [Hu Hs Hm Hl] [Hu' Hs' Hm' Hl']. split.
  - by rewrite Hu'.
  - intros r. by rewrite Hs'.
  - intros r u. by rewrite Hm'.
  - intros r. by eapply same_levels_trans.
Qed.

(** The tables this file is about. *)
Record beside d d' : Prop := {
  be_users : db_users d' = db_users d;
  be_rooms : db_rooms d' = db_rooms d;
  be_members : db_members d' = db_members d;
  be_current_state : db_current_state d' = db_current_state d }.

(** One more event, in no slot of the state. *)
Definition appended d e d' : Prop :=
  beside d d' ∧ db_events d' = db_events d ++ [e] ∧ db_stream_counter d' = db_stream_counter d + 1 ∧ ev_stream_id e = db_stream_counter d + 1 ∧
  (∀ x, x ∈ db_events d → ev_event_id x ≠ ev_event_id e).

Lemma current_of_rows d d' :
  db_current_state d' = db_current_state d → Forall (filled d) (db_current_state d) →
  (∀ id x, event_row d id = Some x → event_row d' id = Some x) →
  ∀ r t k, current_state_event d' r t k = current_state_event d r t k.
Proof.
  intros Hc Hf Hrow r t k. unfold current_state_event. rewrite Hc. destruct (find_row _ _) as [s|] eqn:Hs; [|done]. cbn.
  apply find_row_Some in Hs as [Hs _]. rewrite Forall_forall in Hf. destruct (Hf s Hs) as (x & Hx & _). by rewrite Hx, (Hrow _ _ Hx).
Qed.

Lemma calm_same d d' :
  db_users d' = db_users d → (∀ r, sealing d' r = sealing d r) → db_members d' = db_members d →
  (∀ r t k, current_state_event d' r t k = current_state_event d r t k) → calm d d'.
Proof.
  intros Hu Hs Hm Hc. split; [done..| |].
  - intros r u. unfold membership_of, room_member. by rewrite Hm.
  - intros r. unfold levels, power_levels_of. rewrite Hc. by split_and!.
Qed.

Lemma same_projected d d' :
  rooms_ok d → db_users d' = db_users d → (∀ r u, membership_of d' r u = membership_of d r u) →
  (∀ r k e, current_state_event d r "m.room.member" k = Some e → ∃ e', current_state_event d' r "m.room.member" k = Some e' ∧ text_membership (ev_content e') = text_membership (ev_content e)) →
  ∀ r u m, membership_of d' r u = Some m → follows_state d' r u m.
Proof.
  intros Hd Hu Hm Hc r u m. rewrite Hm. intros (mxid & e & Hx & He & Ht)%(ok_projected d Hd). destruct (Hc _ _ _ He) as (e' & He' & Ht').
  exists mxid, e'. split_and!; [unfold mxid_of in *; by rewrite Hu|done|by rewrite Ht'].
Qed.

Lemma sealing_rooms d d' : db_rooms d' = db_rooms d → ∀ r, sealing d' r = sealing d r.
Proof. intros Hr r. unfold sealing, get_room. by rewrite Hr. Qed.

Lemma fits_sealing d d' : (∀ r, sealing d' r = sealing d r) → ∀ e, event_fits d e → event_fits d' e.
Proof. intros Hs e (b & Hb & Ht). exists b. by rewrite Hs. Qed.

Lemma beside_ok d d' :
  beside d d' → db_events d' = db_events d → db_stream_counter d ≤ db_stream_counter d' → rooms_ok d → rooms_ok d' ∧ calm d d'.
Proof.
  intros [Hu Hr Hm Hc] He Hn Hd.
  assert (Hcur : ∀ r t k, current_state_event d' r t k = current_state_event d r t k).
  { apply current_of_rows; [done|apply Hd|]. intros id x. unfold event_row. by rewrite He. }
  assert (Hcalm : calm d d') by (apply calm_same; [done|by apply sealing_rooms|done..]). split; [|done].
  pose proof (sealing_rooms _ _ Hr) as Hs. pose proof Hd as Hd'. destruct Hd. split; rewrite ?Hu, ?Hr, ?He, ?Hc, ?Hm; try done.
  - lia.
  - by eapply ordered_mono.
  - eapply Forall_impl; [done|]. by apply fits_sealing.
  - eapply Forall_impl; [exact ok_filled0|]. intros s (x & Hx & Hrest). exists x. split; [unfold event_row in *; by rewrite He|done].
  - eapply Forall_impl; [exact ok_member_rooms0|]. intros x Hx. cbn in *. by rewrite Hs.
  - apply (same_projected d); [done..|apply Hcalm|]. intros r k e. rewrite Hcur. by exists e.
Qed.

Lemma appended_row d e d' id x : appended d e d' → event_row d id = Some x → event_row d' id = Some x.
Proof.
  intros (_ & He & _ & _ & Hnew) Hx. unfold event_row. rewrite He, event_row_new by done. rewrite decide_False; [done|].
  unfold event_row in Hx. apply find_row_Some in Hx as [Hx Hid]. apply seqb_true in Hid. rewrite <- Hid. by apply Hnew.
Qed.

Lemma appended_ok d e d' : rooms_ok d → appended d e d' → event_fits d e → rooms_ok d' ∧ calm d d'.
Proof.
  intros Hd Happ Hfit. pose proof Happ as ([Hu Hr Hm Hc] & He & Hn & Hid & Hnew).
  assert (Hcur : ∀ r t k, current_state_event d' r t k = current_state_event d r t k).
  { apply current_of_rows; [done|apply Hd|]. intros id x. by eapply appended_row. }
  assert (Hcalm : calm d d') by (apply calm_same; [done|by apply sealing_rooms|done..]). split; [|done].
  pose proof (sealing_rooms _ _ Hr) as Hs. pose proof Hd as Hd'. destruct Hd. split; rewrite ?Hu, ?Hr, ?He, ?Hc, ?Hm, ?Hn; try done.
  - lia.
  - by apply ordered_app.
  - by apply keyed_app.
  - apply Forall_app. split; [|apply Forall_singleton; by eapply fits_sealing]. eapply Forall_impl; [done|]. by apply fits_sealing.
  - eapply Forall_impl; [exact ok_filled0|]. intros s (x & Hx & Hrest). exists x. split; [by eapply appended_row|done].
  - eapply Forall_impl; [exact ok_member_rooms0|]. intros x Hx. cbn in *. by rewrite Hs.
  - apply (same_projected d); [done..|apply Hcalm|]. intros r k x. rewrite Hcur. by exists x.
Qed.

(** *** Timeline events *)

Lemma relations_beside d id room_id sender content d' :
  populate_relations d id room_id sender content = Ok d' → beside d d' ∧ db_events d' = db_events d ∧ db_stream_counter d' = db_stream_counter d.
Proof.
  unfold populate_relations. destruct (value_from_str content) as [v|]; [|by intros [= <-]]. destruct (get v "m.relates_to") as [rel|]; [|by intros [= <-]].
  destruct (relation_of rel) as [[[rel_type target] agg]|]; [|by intros [= <-]]. destruct (event_row d target); [|done].
  repeat case_match; try done. by intros [= <-].
Qed.

(** An event of the timeline: appended to a room there is. *)
Definition joined_timeline d (room_id event_type : string) e d' : Prop :=
  appended d e d' ∧ is_Some (sealing d room_id) ∧ ev_room_id e = room_id ∧ ev_event_type e = event_type ∧ ev_state_key e = None.

Lemma timeline_raw_joined d row d' e :
  insert_timeline_event_raw_in_tx d row = Ok (d', e) → joined_timeline d (tl_room_id row) (tl_event_type row) e d'.
Proof.
  unfold insert_timeline_event_raw_in_tx, next_stream_id.
  match goal with |- context [insert_event ?a ?b] => set (d0 := a); set (e0 := b) end.
  destruct (insert_event d0 e0) as [d1|] eqn:Hi; [|done]. apply insert_event_ok in Hi as (-> & Hroom & Hnew). cbn [map_err].
  destruct (populate_relations _ _ _ _ _) as [d2|] eqn:Hp; [|done]. intros [= <- <-]. apply relations_beside in Hp as ([Hu Hr Hm Hc] & He & Hn).
  split_and!; [|exact Hroom|done..]. split_and!; [by split|by rewrite He|by rewrite Hn|done|]. intros x Hx. by apply Hnew.
Qed.

Lemma timeline_joined h row h' e :
  insert_timeline_event_in_tx h row = Ok (h', e) → joined_timeline (hs_db h) (tl_room_id row) (tl_event_type row) e (hs_db h').
Proof.
  unfold insert_timeline_event_in_tx. destruct (prepare_local _ _ _ _ _ _ _) as [[[[h1 id] content]|]|] eqn:Hp; [|cbn beta iota|done].
  - apply prepare_local_spec in Hp as [Hdb _]. cbn in Hdb. cbn beta iota. rewrite Hdb.
    destruct (insert_timeline_event_raw_in_tx _ _) as [[d' e']|] eqn:Hr; [|done]. intros [= <- <-]. by apply timeline_raw_joined in Hr.
  - destruct (insert_timeline_event_raw_in_tx _ _) as [[d' e']|] eqn:Hr; [|done]. intros [= <- <-]. by apply timeline_raw_joined in Hr.
Qed.

Lemma joined_timeline_ok d room_id ty e d' :
  rooms_ok d → joined_timeline d room_id ty e d' → (sealing d room_id = Some true → sealed_type ty = true) → rooms_ok d' ∧ calm d d'.
Proof.
  intros Hd (Happ & [b Hb] & Hr & Ht & Hk) Hsealed. eapply appended_ok; [done..|]. exists b. rewrite Hr, Ht. split; [done|]. intros -> _. by apply Hsealed.
Qed.

Lemma txns_beside d t : rooms_ok d → rooms_ok (with_txns d t) ∧ calm d (with_txns d t).
Proof. by apply beside_ok. Qed.

(** *** Redaction *)

Lemma keep_keys_get obj keys k : map_get (keep_keys obj keys) k = if decide (k ∈ keys) then map_get obj k else None.
Proof.
  unfold keep_keys. assert (Hgen : ∀ acc, map_get (foldl (λ kept key, match map_get obj key with Some v => map_insert key v kept | None => kept end) acc keys) k =
    if decide (k ∈ keys) then match map_get obj k with Some v => Some v | None => map_get acc k end else map_get acc k).
  { induction keys as [|key keys IH]; intros acc; [done|]. cbn [foldl]. rewrite IH. clear IH.
    destruct (decide (k = key)) as [->|Hne].
    - rewrite (decide_True (P := key ∈ key :: keys)) by (by left). destruct (map_get obj key) eqn:Ho; rewrite ?map_get_insert_eq; by destruct (decide _).
    - assert (He : map_get (match map_get obj key with Some v => map_insert key v acc | None => acc end) k = map_get acc k).
      { destruct (map_get obj key); [by apply map_get_insert_ne|done]. }
      rewrite He. destruct (decide (k ∈ keys)) as [Hin|Hout]; [rewrite decide_True by (by right); done|]. by rewrite decide_False by (rewrite elem_of_cons; naive_solver). }
  rewrite Hgen. case_decide; [|done]. by destruct (map_get obj k).
Qed.

Lemma wf_empty : wf_value (VObject []).
Proof. repeat constructor. Qed.

Lemma wf_keep_keys obj keys : wf_value (VObject obj) → wf_value (VObject (keep_keys obj keys)).
Proof.
  intros Hwf. unfold keep_keys. assert (Hgen : ∀ acc, wf_value (VObject acc) →
    wf_value (VObject (foldl (λ kept key, match map_get obj key with Some v => map_insert key v kept | None => kept end) acc keys))).
  { induction keys as [|key keys IH]; intros acc Hacc; [done|]. cbn. apply IH. destruct (map_get obj key) as [v|] eqn:Hv; [|done].
    apply wf_map_insert; [done|]. by apply (wf_get (VObject obj) key). }
  apply Hgen, wf_empty.
Qed.

Lemma object_wf v : wf_value v → wf_value (VObject (default [] (as_object v))).
Proof. intros Hwf. destruct v; try apply wf_empty. done. Qed.
Lemma object_get v k : map_get (default [] (as_object v)) k = get v k.
Proof. by destruct v. Qed.

(** What a redaction leaves of an event: a well-formed text whose kept members read as before. *)
Lemma stripped_member content s : redact_content_per_v11 "m.room.member" content = Ok s → text_membership s = text_membership content.
Proof.
  unfold redact_content_per_v11, store_json. destruct (value_from_str content) as [v|] eqn:Hv; [|done]. cbn [map_err].
  change (seqb "m.room.member" "m.room.create") with false. change (seqb "m.room.member" "m.room.member") with true. cbv iota zeta.
  pose proof (object_wf _ (parsed_wf _ _ Hv)) as Hwf. set (obj := default [] (as_object v)) in *.
  set (kept := keep_keys obj _). assert (Hkept : wf_value (VObject kept)) by (by apply wf_keep_keys).
  assert (Hget : map_get kept "membership" = get v "membership").
  { unfold kept. rewrite keep_keys_get, decide_True by set_solver. apply object_get. }
  assert (Hfin : ∀ m, wf_value (VObject m) → map_get m "membership" = get v "membership" → text_membership (value_to_string (VObject m)) = text_membership content).
  { intros m Hm Hg. unfold text_membership. rewrite text_member by done. cbn [get]. rewrite Hg. unfold content_membership. by rewrite Hv. }
  intros [= <-]. destruct (map_get obj "third_party_invite") as [tp|] eqn:Htp; cbn; [|by apply Hfin].
  destruct (get tp "signed") as [sg|] eqn:Hsg; [|by apply Hfin].
  apply Hfin; [|by rewrite map_get_insert_ne]. apply wf_map_insert; [done|]. constructor; [by repeat constructor|]. constructor; [|done]. cbn.
  apply (wf_get tp "signed"); [|done]. by apply (wf_get (VObject obj) "third_party_invite").
Qed.

Lemma kept_levels v m :
  (∀ k, k ∈ "users" :: "events" :: NAMED_LEVELS.*1 → map_get m k = get v k) → same_levels v (VObject m).
Proof.
  intros Hk. split_and!.
  - intros x. unfold user_level, level_field at 2 4. cbn [get]. by rewrite !Hk by set_solver.
  - intros key Hin. unfold level_field. cbn [get]. by rewrite Hk by set_solver.
  - intros ty. unfold event_entry. cbn [get]. by rewrite Hk by set_solver.
Qed.

Lemma stripped_levels content s :
  redact_content_per_v11 "m.room.power_levels" content = Ok s →
  ∃ v v', value_from_str content = Ok v ∧ value_from_str s = Ok v' ∧ same_levels v v'.
Proof.
  unfold redact_content_per_v11, store_json. destruct (value_from_str content) as [v|] eqn:Hv; [|done]. cbn [map_err].
  change (seqb "m.room.power_levels" "m.room.create") with false. change (seqb "m.room.power_levels" "m.room.member") with false.
  change (seqb "m.room.power_levels" "m.room.join_rules") with false. change (seqb "m.room.power_levels" "m.room.power_levels") with true. cbv iota zeta.
  set (kept := keep_keys _ _). intros [= <-]. assert (Hwf : wf_value (VObject kept)) by (apply wf_keep_keys, object_wf; by eapply parsed_wf).
  destruct (text_reads_back _ Hwf) as (v' & Hv' & Hl). exists v, v'. split_and!; [done..|]. apply same_levels_trans with (VObject kept); [|by apply like_same_levels].
  apply kept_levels. intros k Hin. unfold kept. rewrite keep_keys_get, decide_True by set_solver. apply object_get.
Qed.

(** The event is blanked in place. *)
Definition blank_one (target rid s : string) (e : EventRow) : EventRow := if seqb (ev_event_id e) target then redacted s rid e else e.

Lemma blanked_row d target rid s id :
  event_row (with_events d (update_where (λ r, seqb (ev_event_id r) target) (redacted s rid) (db_events d))) id = blank_one target rid s <$> event_row d id.
Proof.
  unfold event_row, blank_one, find_row, update_where. cbn. induction (db_events d) as [|x t IH]; [done|]. cbn.
  destruct (seqb (ev_event_id x) target) eqn:Hx; cbn; destruct (seqb (ev_event_id x) id) eqn:Hi; cbn; rewrite ?Hx; done || exact IH.
Qed.

Lemma blanked_ok d target rid s x :
  rooms_ok d → event_row d target = Some x → redact_content_per_v11 (ev_event_type x) (ev_content x) = Ok s →
  let d' := with_events d (update_where (λ r, seqb (ev_event_id r) target) (redacted s rid) (db_events d)) in rooms_ok d' ∧ calm d d'.
Proof.
  intros Hd Hx Hs d'. assert (Hrow : ∀ id, event_row d' id = blank_one target rid s <$> event_row d id) by (intros id; apply blanked_row).
  assert (Hcur : ∀ r t k, current_state_event d' r t k = blank_one target rid s <$> current_state_event d r t k).
  { intros r t k. unfold current_state_event. cbn. destruct (find_row _ _) as [sl|]; [|done]. cbn. by rewrite Hrow. }
  assert (Htype : ∀ r t k e, current_state_event d r t k = Some e → seqb (ev_event_id e) target = true → e = x ∧ ev_event_type x = t).
  { intros r t k e He Hid. apply seqb_true in Hid. unfold current_state_event in He. destruct (find_row _ _) as [sl|] eqn:Hsl; [|done]. cbn in He.
    apply find_row_Some in Hsl as [Hsl Hkey]. apply slot_is_key in Hkey. pose proof (ok_filled d Hd) as Hf. rewrite Forall_forall in Hf.
    destruct (Hf sl Hsl) as (e' & He' & _ & Hty & _). rewrite He in He'. injection He' as <-.
    assert (Hsame : sl_event_id sl = target). { unfold event_row in He. apply find_row_Some in He as [_ He]. apply seqb_true in He. congruence. }
    rewrite Hsame, Hx in He. injection He as ->. split; [done|]. rewrite Hty. unfold slot_key in Hkey. by injection Hkey as _ -> _. }
  assert (Hcalm : calm d d').
  { split; [done..|]. intros r. unfold levels, power_levels_of. rewrite Hcur. destruct (current_state_event d r _ _) as [e|] eqn:He; [|by split_and!].
    cbn. unfold blank_one. destruct (seqb (ev_event_id e) target) eqn:Hid; [|by split_and!]. destruct (Htype _ _ _ _ He Hid) as [-> Hty].
    rewrite Hty in Hs. destruct (stripped_levels _ _ Hs) as (v & v' & Hv & Hv' & Hsame). cbn. unfold read_json. by rewrite Hv, Hv'. }
  split; [|done]. pose proof Hd as Hd'. destruct Hd'. split; cbn; try done.
  - by apply ordered_update.
  - by apply keyed_update.
  - unfold update_where. rewrite Forall_fmap. eapply Forall_impl; [done|]. intros e (b & Hb & Ht). cbn. exists b. by case_match.
  - eapply Forall_impl; [done|]. intros sl (e & He & Hr & Ht & Hk). exists (blank_one target rid s e). rewrite Hrow, He. split; [done|].
    unfold blank_one. by destruct (seqb (ev_event_id e) target).
  - apply (same_projected d); [done..|]. intros r k e He. exists (blank_one target rid s e). rewrite Hcur, He. split; [done|]. unfold blank_one.
    destruct (seqb (ev_event_id e) target) eqn:Hid; [|done]. destruct (Htype _ _ _ _ He Hid) as [-> Hty]. rewrite Hty in Hs. cbn. by apply stripped_member.
Qed.

Lemma redact_in_tx_ok d room_id target rid sender reason ts d' e :
  rooms_ok d → redact_event_in_tx d room_id target rid sender reason ts = Ok (d', e) → rooms_ok d' ∧ calm d d'.
Proof.
  intros Hd. unfold redact_event_in_tx. destruct (event_row d target) as [x|] eqn:Hx; [|done]. cbn [ok_or]. destruct (negb _); [done|].
  destruct (_ || _); [done|]. unfold next_stream_id. match goal with |- context [insert_event ?a ?b] => set (d0 := a); set (e0 := b) end.
  destruct (insert_event d0 e0) as [d1|] eqn:Hi; [|done]. apply insert_event_ok in Hi as (-> & [b Hb] & Hnew). cbn [map_err].
  destruct (redact_content_per_v11 _ _) as [s|] eqn:Hs; [|done]. intros [= <- <-].
  set (d1 := with_events d0 (db_events d0 ++ [e0])).
  assert (Happ : appended d e0 d1) by (split_and!; [by split|done..|]; intros y Hy; by apply Hnew).
  destruct (appended_ok d e0 d1) as [Hok1 Hcalm1]; [done..|by exists b|].
  destruct (blanked_ok d1 target rid s x) as [Hok2 Hcalm2]; [done|by apply (appended_row d e0)|done|]. split; [done|]. by etrans.
Qed.

End Writes.
