(* ===== verification/ServerRoomRuns.v ===== *)
(** * What holds of rooms: requests

    What each request of [serve_room] may do; over runs of requests, the invariant, who may change
    a membership, and that power levels never escalate. Then paging backwards, and sending again. *)

From Stdlib Require Import Ascii.
From S2P Require Import Prelude Sqlite Json ServerDb ServerKeyOps ServerKeyRoutes ServerDbProps ServerTrustProps ServerRooms ServerRoomOps ServerRoomProps.

Local Open Scope Z_scope.

(** ** What one request may do *)

Section Requests.
Context `{J : ServerJson, G : RoomDag, !ServerJsonText, C : Chrono} (user_nick : Z → option string) (effective_label : Z → string).
Implicit Types d : Db.

(** A room a user may walk into: invited, or neither joined nor banned and the room is open to them. *)
Definition may_join d (u : Z) (room_id : string) : Prop :=
  ∃ room, get_room d room_id = Some room ∧
    (membership_of d room_id u = Some Invite ∨
     ((membership_of d room_id u = None ∨ membership_of d room_id u = Some Leave) ∧
      (ro_join_rule room = PublicRule ∨ restricted_allows d room_id u = true))).

(** Above the target, and with the level the action needs. *)
Definition outranks d (room_id : string) (action : PowerAction) (mxid target_mxid : string) : Prop :=
  threshold (levels d room_id) action ≤ user_level (levels d room_id) mxid ∧
  user_level (levels d room_id) target_mxid < user_level (levels d room_id) mxid.

Section Caller.
Context (c : Caller).

(** The state events a caller may have written. *)
Inductive permitted d (room_id : string) : string → string → string → Prop :=
| pm_join content : text_membership content = Some Join → may_join d (ca_user_id c) room_id → permitted d room_id "m.room.member" (ca_mxid c) content
| pm_leave content :
    text_membership content = Some Leave → membership_of d room_id (ca_user_id c) = Some Join ∨ membership_of d room_id (ca_user_id c) = Some Invite →
    permitted d room_id "m.room.member" (ca_mxid c) content
| pm_profile content :
    text_membership content = Some Join → membership_of d room_id (ca_user_id c) = Some Join → permitted d room_id "m.room.member" (ca_mxid c) content
| pm_invite mxid v content :
    text_membership content = Some Invite → user_id_of d mxid = Some v → membership_of d room_id (ca_user_id c) = Some Join →
    threshold (levels d room_id) ActInvite ≤ user_level (levels d room_id) (ca_mxid c) →
    membership_of d room_id v = None ∨ membership_of d room_id v = Some Leave → permitted d room_id "m.room.member" mxid content
| pm_kick mxid v content :
    text_membership content = Some Leave → user_id_of d mxid = Some v → membership_of d room_id (ca_user_id c) = Some Join →
    outranks d room_id ActKick (ca_mxid c) mxid → membership_of d room_id v = Some Join ∨ membership_of d room_id v = Some Invite →
    permitted d room_id "m.room.member" mxid content
| pm_ban mxid v content :
    text_membership content = Some Ban → user_id_of d mxid = Some v → membership_of d room_id (ca_user_id c) = Some Join →
    outranks d room_id ActBan (ca_mxid c) mxid → permitted d room_id "m.room.member" mxid content
| pm_unban mxid v content :
    text_membership content = Some Leave → user_id_of d mxid = Some v → membership_of d room_id (ca_user_id c) = Some Join →
    outranks d room_id ActBan (ca_mxid c) mxid → membership_of d room_id v = Some Ban → permitted d room_id "m.room.member" mxid content
| pm_state ty key content :
    ty ≠ "m.room.create" → ty ≠ "m.room.member" → membership_of d room_id (ca_user_id c) = Some Join →
    event_level (levels d room_id) ty true ≤ user_level (levels d room_id) (ca_mxid c) →
    (ty = "m.room.power_levels" → ∃ new, value_from_str content = Ok new ∧ validate_power_levels_change (levels d room_id) new (ca_mxid c) = Ok tt) →
    permitted d room_id ty key content.

(** Another room, none of whose tables changed. *)
Definition room_kept d d' (r : string) : Prop :=
  sealing d' r = sealing d r ∧ (∀ u, membership_of d' r u = membership_of d r u) ∧ same_levels (levels d r) (levels d' r).

Inductive effect d d' : Prop :=
| eff_calm : calm d d' → effect d d'
| eff_forget room_id :
    membership_of d room_id (ca_user_id c) = Some Leave → db_users d' = db_users d → (∀ r, sealing d' r = sealing d r) →
    (∀ r, same_levels (levels d r) (levels d' r)) →
    (∀ r u, membership_of d' r u = if decide (r = room_id ∧ u = ca_user_id c) then None else membership_of d r u) → effect d d'
| eff_state room_id ty key content e : permitted d room_id ty key content → wrote d room_id ty key content e d' → effect d d'
| eff_create room_id : sealing d room_id = None → db_users d' = db_users d → (∀ r, r ≠ room_id → room_kept d d' r) → effect d d'.

(** A request's effect, and the invariant kept. *)
Definition fine (h h' : Hs) : Prop := effect (hs_db h) (hs_db h') ∧ rooms_ok (hs_db h').

Lemma fine_same h : rooms_ok (hs_db h) → fine h h.
Proof. intros Hd. split; [|done]. by apply eff_calm. Qed.

Lemma fine_calm h h' : rooms_ok (hs_db h') ∧ calm (hs_db h) (hs_db h') → fine h h'.
Proof. intros [Hd Hc]. split; [by apply eff_calm|done]. Qed.

Lemma fine_write {A} h id room_id sender ty key content ts now (k : Hs → EventRow → A) :
  rooms_ok (hs_db h) → permitted (hs_db h) room_id ty key content → fine h (write_state h id room_id sender ty key content ts now k).1.
Proof.
  intros Hd Hp. destruct (write_state_spec h id room_id sender ty key content ts now k Hd) as [->|(e & Hw & Hok)]; [by apply fine_same|].
  split; [by eapply eff_state|done].
Qed.

Lemma require_member_join m : require_member m = Ok tt → m = Some Join.
Proof. by destruct m as [[]|]. Qed.

Lemma levels_read d room_id v : power_levels_of d room_id = Ok v → levels d room_id = v.
Proof. unfold levels. by intros ->. Qed.

Lemma can_threshold v action x : can v action x = true ↔ threshold v action ≤ user_level v x.
Proof. unfold can, threshold. destruct (field_and_default action). apply Z.leb_le. Qed.

Lemma can_act v action s t self : can_act_on v action s t self = true → (self = true ∧ s = t) ∨ (threshold v action ≤ user_level v s ∧ user_level v t < user_level v s).
Proof.
  unfold can_act_on. destruct (self && seqb s t) eqn:Hs.
  - intros _. left. apply andb_true_iff in Hs as [-> Hs]. by apply seqb_true in Hs.
  - intros Hc. right. apply andb_true_iff in Hc as [Hc Hl]. apply can_threshold in Hc. by apply Z.ltb_lt in Hl.
Qed.

(** The text of a content the handlers build. *)
Lemma built_membership v s : wf_value v → get v "membership" = Some (VString s) → text_membership (value_to_string v) = Membership_from_wire_name s.
Proof. intros Hwf Hg. unfold text_membership. by rewrite text_member, Hg. Qed.

Lemma member_object_wf s : wf_value (VObject [("membership", VString s)]).
Proof. constructor; repeat constructor. Qed.

Lemma labelled v label : wf_value v → is_object v = true → wf_value (with_displayname v label) ∧ is_object (with_displayname v label) = true ∧
  get (with_displayname v label) "membership" = get v "membership".
Proof.
  intros Hwf Ho. unfold with_displayname. destruct (s_is_empty label); [done|]. split_and!.
  - apply wf_value_set; [done|constructor].
  - by destruct v.
  - by apply get_value_set_ne.
Qed.

Lemma join_text label : text_membership (value_to_string (join_member_content label)) = Some Join.
Proof. destruct (labelled (VObject [("membership", VString "join")]) label) as (Hw & _ & Hg); [apply member_object_wf|done|]. by rewrite (built_membership _ "join"). Qed.

Lemma invite_text kind label : text_membership (value_to_string (invite_member_content kind label)) = Some Invite.
Proof.
  unfold invite_member_content. destruct (labelled (VObject [("membership", VString "invite")]) label) as (Hw & Ho & Hg); [apply member_object_wf|done|].
  cbn zeta. destruct (bool_decide _); [|by rewrite (built_membership _ "invite")].
  rewrite (built_membership _ "invite"); [done|apply wf_value_set; [done|constructor]|by rewrite get_value_set_ne].
Qed.

Lemma reason_text s reason :
  text_membership (value_to_string (match reason with Some reason => value_set (VObject [("membership", VString s)]) "reason" (VString reason) | None => VObject [("membership", VString s)] end))
  = Membership_from_wire_name s.
Proof.
  destruct reason as [reason|]; apply built_membership; [apply wf_value_set; [apply member_object_wf|constructor]|by rewrite get_value_set_ne|apply member_object_wf|done].
Qed.

(** *** Each handler *)

Ltac step name :=
  match goal with
  | |- fine _ (match ?r with Ok _ => _ | Err _ => _ end).1 =>
      lazymatch type of r with result unit _ => destruct r as [[]|?] eqn:name | _ => destruct r as [?|?] eqn:name end; [|by apply fine_same]
  | |- fine _ (if ?b then _ else _).1 => destruct b eqn:name; [by apply fine_same|]
  end.

Lemma join_fine h id room_id now ts : rooms_ok (hs_db h) → fine h (join_room effective_label h id c room_id now ts).1.
Proof.
  intros Hd. unfold join_room, decide_and_apply_join. step Hroom. destruct (get_room _ _) as [room|] eqn:Hr; [|done]. injection Hroom as <-.
  assert (Hjoin : may_join (hs_db h) (ca_user_id c) room_id →
    fine h (let '(h', r) := apply_join h id room_id (ca_user_id c) (ca_mxid c) (effective_label (ca_user_id c)) now ts in
            (h', match r with Ok ids => Ok (JoinedNow ids) | Err e => Err e end)).1).
  { intros Hm. unfold apply_join. pose proof (fine_write h id room_id (ca_user_id c) "m.room.member" (ca_mxid c) (value_to_string (join_member_content (effective_label (ca_user_id c)))) ts now
      (λ h _, member_and_invited_ids (hs_db h) room_id) Hd) as Hf.
    destruct (write_state _ _ _ _ _ _ _ _ _ _) as [h' r]. apply Hf. apply pm_join; [apply join_text|done]. }
  assert (Hopen : (membership_of (hs_db h) room_id (ca_user_id c) = None ∨ membership_of (hs_db h) room_id (ca_user_id c) = Some Leave) →
    fine h (if negb (bool_decide (ro_join_rule room = PublicRule)) && negb (restricted_allows (hs_db h) room_id (ca_user_id c))
            then (h, Err (forbidden "no invitation to this room"))
            else let '(h', r) := apply_join h id room_id (ca_user_id c) (ca_mxid c) (effective_label (ca_user_id c)) now ts in
                 (h', match r with Ok ids => Ok (JoinedNow ids) | Err e => Err e end)).1).
  { intros Hm. destruct (_ && _) eqn:Ho; [by apply fine_same|]. apply Hjoin. exists room. split; [done|]. right. split; [done|].
    apply andb_false_iff in Ho as [Ho|Ho]; boolify; [by left|by right]. }
  destruct (membership_of (hs_db h) room_id (ca_user_id c)) as [[]|] eqn:Hm; [by apply fine_same| | |by apply fine_same|].
  - apply Hjoin. exists room. split; [done|]. by left.
  - apply Hopen. by right.
  - apply Hopen. by left.
Qed.

Lemma leave_fine h id room_id now ts : rooms_ok (hs_db h) → fine h (leave_room h id c room_id now ts).1.
Proof.
  intros Hd. unfold leave_room. step Hroom. unfold apply_leave.
  destruct (membership_of (hs_db h) room_id (ca_user_id c)) as [[]|] eqn:Hm; try (by apply fine_same);
    (apply fine_write; [done|apply pm_leave; [by apply (reason_text "leave" None)|auto]]).
Qed.

Lemma known_user d mxid u : known_user_id d mxid = Ok u → user_id_of d mxid = Some u.
Proof. unfold known_user_id. destruct (user_id_of d mxid); [|done]. by intros [= <-]. Qed.

Lemma invite_fine h id room_id user_id now ts : rooms_ok (hs_db h) → fine h (invite_member user_nick effective_label h id c room_id user_id now ts).1.
Proof.
  intros Hd. unfold invite_member. step Hnick. step Hroom0. step Htarget. step Hself. unfold apply_invite. step Hroom. step Hmember. step Hlevels. step Hpower.
  step Hstate. step Hmxid. destruct (mxid_of _ _) as [mxid|] eqn:Hmx; [|done]. injection Hmxid as <-.
  apply fine_write; [done|]. unfold require_power in Hpower. destruct (can _ _ _) eqn:Hcan; [|done]. apply can_threshold in Hcan. apply levels_read in Hlevels as <-.
  apply require_member_join in Hmember. eapply pm_invite; [apply invite_text|by apply mxid_user|done|done|].
  destruct (membership_of _ _ _) as [[]|] in Hstate |- *; by auto.
Qed.

(** Kick, ban and unban. *)
Definition power_rule (action : PowerAction) (rule : TargetStateRule) (m : Membership) : Prop :=
  (action, rule, m) = (ActKick, MustBeActiveMember, Leave) ∨ (action, rule, m) = (ActBan, AnyState, Ban) ∨ (action, rule, m) = (ActBan, MustBeBanned, Leave).

Lemma membership_change_fine h id room_id target reason action rule m now ts :
  rooms_ok (hs_db h) → mxid_of (hs_db h) (ca_user_id c) = Some (ca_mxid c) → power_rule action rule m →
  fine h (membership_change h id c room_id target reason action rule m now ts).1.
Proof.
  intros Hd Hc Hrule. unfold membership_change. step Hroom. step Htarget. rename a0 into v. apply known_user in Htarget. unfold apply_membership_power_action. cbn.
  step Hmember. apply require_member_join in Hmember. step Hlevels. apply levels_read in Hlevels as <-. step Hmxid.
  rewrite (user_mxid _ _ _ Hd Htarget) in Hmxid. injection Hmxid as <-. step Hpower. step Hstate.
  unfold require_power_over_target in Hpower. destruct (can_act_on _ _ _ _ _) eqn:Hcan; [|done]. apply can_act in Hcan.
  apply fine_write; [done|]. assert (Htext : text_membership (value_to_string (match reason with Some reason => value_set (VObject [("membership", VString (Membership_as_str m))]) "reason" (VString reason)
                                                        | None => VObject [("membership", VString (Membership_as_str m))] end)) = Some m).
  { rewrite reason_text. by destruct m. }
  assert (Hself : ca_mxid c = target → v = ca_user_id c). { intros <-. apply (mxid_user _ _ _ Hd) in Hc. congruence. }
  unfold check_target_state_rule in Hstate. cbn in Hstate. destruct Hrule as [[= -> -> ->]|[[= -> -> ->]|[= -> -> ->]]].
  - assert (Hactive : membership_of (hs_db h) room_id v = Some Join ∨ membership_of (hs_db h) room_id v = Some Invite).
    { destruct (membership_of _ _ v) as [[]|] in Hstate |- *; by auto. }
    destruct Hcan as [[_ Hsame]|Hrank]; [|by eapply pm_kick]. rewrite <- Hsame. apply pm_leave; [done|]. left. done.
  - destruct Hcan as [[? _]|Hrank]; [done|]. by eapply pm_ban.
  - assert (Hbanned : membership_of (hs_db h) room_id v = Some Ban). { by destruct (membership_of _ _ v) as [[]|] in Hstate |- *. }
    destruct Hcan as [[_ Hsame]|Hrank]; [|by eapply pm_unban]. rewrite (Hself Hsame) in Hbanned. congruence.
Qed.

Lemma put_state_fine h id room_id ty key content now ts : rooms_ok (hs_db h) → fine h (put_state effective_label h id c room_id ty key content now ts).1.
Proof.
  intros Hd. unfold put_state. step Hsize. step Hcontent. rename a into text. unfold apply_put_state. step Hsize'. step Hroom. step Hmember.
  apply require_member_join in Hmember. step Htype. step Henc. step Hlevels. apply levels_read in Hlevels as <-. step Hpower. step Hchange.
  apply fine_write; [done|]. boolify. unfold check_state_event_type_allowed in Htype. destruct (seqb ty "m.room.create") eqn:Hcr; [done|].
  destruct (if seqb ty "m.space.child" || _ then _ else _) as [?|?] in Htype; [|done]. destruct (seqb ty "m.room.member") eqn:Hm.
  - apply seqb_true in Hm. subst ty. destruct (seqb key (ca_mxid c)) eqn:Hkey; [|done]. destruct (bool_decide (content_membership text = _)) eqn:Hj; [|done].
    apply seqb_true in Hkey. subst key. boolify. apply pm_profile; [unfold text_membership; by rewrite Hj|done].
  - apply pm_state; try (by intros ->; rewrite seqb_refl in *); [done|lia|]. intros ->. change (seqb "m.room.power_levels" "m.room.power_levels") with true in Hchange.
    cbv iota in Hchange. unfold read_json in Hchange. destruct (value_from_str text) as [new|] eqn:Hnew; [|done]. cbn in Hchange. exists new. split; [done|].
    by destruct (validate_power_levels_change _ _ _) as [[]|].
Qed.

(** *** Forgetting *)

Lemma find_delete_other {A} (p q : A → bool) t : (∀ x, p x = true → q x = false) → find_row q (delete_where p t) = find_row q t.
Proof.
  intros Hpq. unfold find_row. induction t as [|x t IH]; [done|]. rewrite delete_where_select, select_cons. cbn. destruct (p x) eqn:Hp; cbn.
  - rewrite (Hpq x Hp). by rewrite <- delete_where_select.
  - destruct (q x); [done|]. by rewrite <- delete_where_select.
Qed.

Lemma find_delete_self {A} (p q : A → bool) t : (∀ x, x ∈ t → q x = true → p x = true) → find_row q (delete_where p t) = None.
Proof.
  intros Hqp. destruct (find_row q _) as [x|] eqn:Hx; [|done]. apply find_row_Some in Hx as [Hx Hq]. apply elem_of_delete_where in Hx as [Hx Hp].
  by rewrite (Hqp x Hx Hq) in Hp.
Qed.

Lemma member_row d room_id u r : rooms_ok d → r ∈ db_members d → at_member room_id u r = true → membership_of d room_id u = Some (rm_membership r).
Proof.
  intros Hd Hr Hat. unfold membership_of, room_member. change (λ x, seqb (rm_room_id x) room_id && (rm_user_id x =? u)) with (at_member room_id u).
  rewrite (find_row_keyed member_key _ _ r); [done|apply Hd|done|done|]. intros x Hx. apply at_member_key in Hat, Hx. congruence.
Qed.

Lemma forget_fine h room_id : rooms_ok (hs_db h) → fine h (forget_room h c room_id).1.
Proof.
  intros Hd. unfold forget_room, apply_forget, forget_membership. set (u := ca_user_id c). set (d := hs_db h) in *.
  set (p := λ r, seqb (rm_room_id r) room_id && (rm_user_id r =? u) && bool_decide (rm_membership r = Leave)). cbn.
  assert (Hp : ∀ r, p r = true → at_member room_id u r = true ∧ rm_membership r = Leave).
  { intros r Hr. unfold p in Hr. apply andb_true_iff in Hr as [Ha Hl]. split; [done|by apply bool_decide_eq_true in Hl]. }
  destruct (decide (membership_of d room_id u = Some Leave)) as [Hleave|Hnot].
  2: { assert (Hsame : delete_where p (db_members d) = db_members d).
       { rewrite delete_where_select. apply select_every. intros r Hr. apply negb_true_iff, not_true_iff_false. intros Hpr. apply Hp in Hpr as [Ha Hl].
         apply Hnot. rewrite (member_row d room_id u r) by done. by rewrite Hl. }
       apply fine_calm. by apply beside_ok. }
  assert (Hm : ∀ r u', membership_of (with_members d (delete_where p (db_members d))) r u' = if decide (r = room_id ∧ u' = u) then None else membership_of d r u').
  { intros r u'. unfold membership_of, room_member. change (λ x, seqb (rm_room_id x) r && (rm_user_id x =? u')) with (at_member r u'). cbn.
    destruct (decide _) as [[-> ->]|Hne].
    - rewrite find_delete_self; [done|]. intros x Hx Hat. pose proof (member_row d room_id u x Hd Hx Hat) as Hxm. rewrite Hleave in Hxm. injection Hxm as Hl.
      unfold p. unfold at_member in Hat. rewrite Hat. cbn. by apply bool_decide_eq_true.
    - rewrite find_delete_other; [done|]. intros x Hx. apply Hp in Hx as [Hx _]. apply at_member_key in Hx. apply not_true_iff_false. rewrite at_member_key. rewrite Hx. naive_solver. }
  split; [by eapply (eff_forget d _ room_id)|]. pose proof Hd as Hd'. destruct Hd'. split; cbn; try done.
  - by apply keyed_delete.
  - eapply Forall_sub; [|done]. rewrite delete_where_select. apply select_sublist.
  - intros r u' m. change (hs_db h) with d. rewrite Hm. destruct (decide _); [done|]. intros (mxid & e & ?)%ok_projected. by exists mxid, e.
Qed.

(** *** Sending and redacting *)

Lemma get_room_sealing d room_id room : get_room d room_id = Some room → ro_id room = room_id ∧ sealing d (ro_id room) = Some (ro_is_encrypted room).
Proof.
  intros Hr. assert (Hid : ro_id room = room_id) by (apply find_row_Some in Hr as [_ He]; by apply seqb_true in He). split; [done|]. unfold sealing. by rewrite Hid, Hr.
Qed.

Lemma sendable_sealed ty sealed : check_send_event_type_allowed ty sealed = Ok tt → sealed = true → sealed_type ty = true.
Proof.
  unfold check_send_event_type_allowed, sealed_type. intros Hc ->. repeat case_match; try done. cbn in *.
  destruct (seqb ty "m.room.encrypted"); [done|]. by destruct (seqb ty "m.reaction").
Qed.

Lemma pub_insert_beside d dev txn id room_id sender ty content ts :
  let d' := (pub_insert_event_deduped d dev txn id room_id sender ty content ts).1 in
  beside d d' ∧ db_events d' = db_events d ∧ db_stream_counter d ≤ db_stream_counter d'.
Proof.
  unfold pub_insert_event_deduped, transaction, next_stream_id. destruct (find_row _ _) as [r|].
  - destruct (pub_get_event d _); cbn; split_and!; (done || lia).
  - match goal with |- context [exists_row ?p ?t] => destruct (exists_row p t) end; cbn; split_and!; (done || lia).
Qed.

Lemma send_fine h id room_id ty txn content now ts : rooms_ok (hs_db h) → fine h (send_event h id c room_id ty txn content now ts).1.
Proof.
  intros Hd. unfold send_event. step Hsize. step Hroom. unfold apply_send. destruct (seen_event _ _ _ _); [by apply fine_same|].
  destruct (seen_txn _ _ _ _); [by apply fine_same|]. step Hmember. step Htype. step Hlevels. step Hpower. step Hrate. step Hread. step Hreplace.
  unfold require_room in Hroom. destruct (get_room _ _) as [room|] eqn:Hr; [|done]. injection Hroom as <-. apply get_room_sealing in Hr as [_ Hsealing].
  destruct (is_public_room _ _).
  - pose proof (pub_insert_beside (hs_db h) (ca_device_id c) txn id (ro_id room) (ca_user_id c) ty (value_to_string content) ts) as (Hb & He & Hn).
    destruct (pub_insert_event_deduped _ _ _ _ _ _ _ _ _) as [d' r]. apply fine_calm. by apply beside_ok.
  - unfold insert_timeline_event_deduped, hs_transaction. destruct (deduped _ _ _ _) as [r|]; [destruct r; by apply fine_same|].
    destruct (insert_timeline_event_in_tx _ _) as [[h' e]|] eqn:Ht; [|by apply fine_same]. apply timeline_joined in Ht. cbn in Ht.
    destruct (joined_timeline_ok _ _ _ _ _ Hd Ht) as [Hok Hcalm]. { rewrite Hsealing. intros [= Hs]. by eapply sendable_sealed. }
    cbn. destruct (txn_dedup_record _ _ _ _ _ _) as [d'|] eqn:Htx; [|by apply fine_same]. unfold txn_dedup_record in Htx. destruct (exists_row _ _); [done|].
    injection Htx as <-. apply fine_calm. cbn. destruct (txns_beside _ (db_txns (hs_db h') ++ [mkTxnRow (ca_user_id c) (ca_device_id c) txn (Some (ev_event_id e)) now]) Hok) as [Hok2 Hcalm2].
    split; [done|by etrans].
Qed.

Lemma pub_redact_beside d dev txn room_id target rid sender reason ts :
  let d' := (pub_redact_deduped d dev txn room_id target rid sender reason ts).1 in
  beside d d' ∧ db_events d' = db_events d ∧ db_stream_counter d ≤ db_stream_counter d'.
Proof.
  unfold pub_redact_deduped. cbn zeta.
  pose proof (pub_insert_beside d dev txn rid room_id sender "m.room.redaction" (value_to_string (redaction_content target reason)) ts) as ([Hu Hr Hm Hc] & He & Hn).
  destruct (pub_insert_event_deduped _ _ _ _ _ _ _ _ _) as [d' [[e|e]|e]]; cbn in *; split_and!; done.
Qed.

Lemma redact_fine h id room_id target txn reason now ts : rooms_ok (hs_db h) → fine h (redact_event_handler h id c room_id target txn reason now ts).1.
Proof.
  intros Hd. unfold redact_event_handler. step Hroom. unfold apply_redact. destruct (seen_event _ _ _ _); [by apply fine_same|]. step Hmember. step Htarget. step Hhere.
  step Hpower. destruct (is_some _).
  - pose proof (pub_redact_beside (hs_db h) (ca_device_id c) txn room_id target id (ca_user_id c) reason ts) as (Hb & He & Hn).
    destruct (pub_redact_deduped _ _ _ _ _ _ _ _ _) as [d' r]. apply fine_calm. by apply beside_ok.
  - unfold redact_event_deduped, hs_transaction. destruct (deduped _ _ _ _) as [r|]; [destruct r; by apply fine_same|].
    destruct (redact_event_in_tx _ _ _ _ _ _ _) as [[d' e]|] eqn:Ht; [|by apply fine_same]. apply redact_in_tx_ok in Ht as [Hok Hcalm]; [|done]. cbn.
    destruct (txn_dedup_record _ _ _ _ _ _) as [d2|] eqn:Htx; [|by apply fine_same]. unfold txn_dedup_record in Htx. destruct (exists_row _ _); [done|].
    injection Htx as <-. apply fine_calm. cbn. destruct (txns_beside _ (db_txns d' ++ [mkTxnRow (ca_user_id c) (ca_device_id c) txn (Some id) now]) Hok) as [Hok2 Hcalm2].
    split; [done|by etrans].
Qed.

(** *** Receipts and markers *)

(** Another table's affair. *)
Definition aside d d' : Prop := beside d d' ∧ db_events d' = db_events d ∧ db_stream_counter d ≤ db_stream_counter d'.

Lemma aside_refl d : aside d d.
Proof. by split_and!. Qed.
Lemma aside_trans d1 d2 d3 : aside d1 d2 → aside d2 d3 → aside d1 d3.
Proof. intros ([] & He & Hn) ([] & He' & Hn'). split_and!; [split; congruence|congruence|lia]. Qed.

Lemma receipt_aside d room u t id ms q : aside d (apply_receipt d room u t id ms q).1.
Proof.
  unfold apply_receipt. destruct (require_member _) as [[]|]; [|apply aside_refl]. destruct (map_err _ _) as [w|]; [|apply aside_refl].
  destruct (ok_or _ _) as [e|]; [|apply aside_refl]. destruct (negb _); [apply aside_refl|].
  assert (Hup : aside d (upsert_receipt d (ro_id room) u t id ms).1).
  { unfold upsert_receipt, transaction, upsert_receipt_in_tx, next_stream_id.
    assert (Hw : ∀ x, aside d (with_receipts (with_stream_counter d (db_stream_counter d + 1)) x)) by (intros x; split_and!; cbn; [done..|lia]).
    destruct (event_row d id) as [target|]; [|destruct (pub_get_event d id); [destruct (negb _)|]; apply aside_refl].
    destruct (negb _); [apply aside_refl|]. destruct (get_receipt _ _ _ _) as [old|]; [|apply Hw].
    destruct (event_row d (rc_event_id old)) as [was|]; [|apply aside_refl]. cbn [ok_or]. destruct (_ <=? _); [apply aside_refl|apply Hw]. }
  destruct (upsert_receipt _ _ _ _ _ _) as [d' [n|err]]; [|exact Hup]. destruct (bool_decide (_ = Some n)); [exact Hup|].
  destruct (bool_decide (t = Read)); [|exact Hup]. eapply aside_trans; [exact Hup|]. unfold enqueue_receipt. cbn.
  destruct (u <=? 0); [apply aside_refl|]. destruct (mxid_of _ _); [|apply aside_refl]. match goal with |- aside _ (queue ?a ?b ?e ?f) => destruct (queue_outbox a b e f) as [x ->] end. by split_and!.
Qed.

Lemma marker_aside room u t id ms q d acc : aside d acc.1 → aside d (apply_marker room u t id ms q acc).1.
Proof.
  intros Ha. unfold apply_marker. destruct id as [id|]; [|done]. destruct acc as [d1 [ids|]]; [|done]. pose proof (receipt_aside d1 room u t id ms q) as Hr.
  destruct (apply_receipt _ _ _ _ _ _ _) as [d2 r]. cbn in *. by eapply aside_trans.
Qed.

Lemma markers_aside d room u full read private ms q : aside d (apply_read_markers d room u full read private ms q).1.
Proof.
  unfold apply_read_markers. destruct (require_member _) as [[]|]; [|apply aside_refl]. do 2 apply marker_aside. destruct full as [id|]; [|apply aside_refl].
  cbn. split_and!; [done|done|cbn; lia].
Qed.

Lemma fine_aside h d : rooms_ok (hs_db h) → aside (hs_db h) d → fine h (mkHs d (hs_dag h)).
Proof. intros Hd (Hb & He & Hn). apply fine_calm. by apply beside_ok. Qed.

Lemma receipt_fine h room_id t id ms q : rooms_ok (hs_db h) → fine h (post_receipt h c room_id t id ms q).1.
Proof.
  intros Hd. unfold post_receipt. step Ht. step Hroom. match goal with |- context [apply_receipt ?d ?r ?u ?t ?i ?m ?q] => pose proof (receipt_aside d r u t i m q) as Ha; destruct (apply_receipt d r u t i m q) end.
  by apply fine_aside.
Qed.
Lemma markers_fine h room_id full read private ms q : rooms_ok (hs_db h) → fine h (post_read_markers h c room_id full read private ms q).1.
Proof.
  intros Hd. unfold post_read_markers. step Hroom. match goal with |- context [apply_read_markers ?d ?r ?u ?a ?b ?e ?m ?q] => pose proof (markers_aside d r u a b e m q) as Ha; destruct (apply_read_markers d r u a b e m q) end.
  by apply fine_aside.
Qed.

(** *** Creating *)

Lemma clear_pair_key_ok d room_id : rooms_ok d → rooms_ok (clear_dm_pair_key d room_id) ∧ calm d (clear_dm_pair_key d room_id).
Proof.
  intros Hd. set (d' := clear_dm_pair_key d room_id).
  assert (Hs : ∀ r, sealing d' r = sealing d r).
  { intros r. unfold sealing, get_room, d', clear_dm_pair_key, find_row, update_where. cbn. induction (db_rooms d) as [|x t IH]; [done|]. cbn.
    destruct (seqb (ro_id x) room_id); cbn; destruct (seqb (ro_id x) r); done || exact IH. }
  assert (Hcalm : calm d d') by (by apply calm_same). split; [|done]. destruct Hd. split; cbn; try done.
  - by apply keyed_update.
  - eapply Forall_impl; [done|]. by apply fits_sealing.
  - eapply Forall_impl; [exact ok_member_rooms|]. intros x Hx. cbn in *. by rewrite Hs.
Qed.

Lemma find_app {A} (q : A → bool) t r : find_row q (t ++ [r]) = match find_row q t with Some x => Some x | None => if q r then Some r else None end.
Proof. unfold find_row. induction t as [|x t IH]; [done|]. cbn. by destruct (q x). Qed.

Lemma insert_room_ok d room d' :
  rooms_ok d → insert_room_row d room = Ok d' → rooms_ok d' ∧ sealing d (ro_id room) = None ∧ db_users d' = db_users d ∧ ∀ r, r ≠ ro_id room → room_kept d d' r.
Proof.
  intros Hd. unfold insert_room_row. destruct (exists_row _ _) eqn:He; [done|]. intros [= <-].
  assert (Hnew : ∀ x, x ∈ db_rooms d → ro_id x ≠ ro_id room).
  { intros x Hx Hid. rewrite exists_row_false in He. specialize (He x Hx). rewrite Hid, seqb_refl in He. done. }
  assert (Hnone : sealing d (ro_id room) = None).
  { unfold sealing, get_room. destruct (find_row _ _) as [x|] eqn:Hx; [|done]. apply find_row_Some in Hx as [Hx Hid]. apply seqb_true in Hid. by destruct (Hnew x Hx). }
  assert (Hs : ∀ r, sealing (with_rooms d (db_rooms d ++ [room])) r = match sealing d r with Some b => Some b | None => if seqb (ro_id room) r then Some (ro_is_encrypted room) else None end).
  { intros r. unfold sealing, get_room. cbn. rewrite find_app. destruct (find_row _ _); [done|]. cbn. by destruct (seqb (ro_id room) r). }
  split_and!; [|done..|].
  - destruct Hd. split; cbn; try done.
    + by apply keyed_app.
    + eapply Forall_impl; [done|]. intros e (b & Hb & Ht). exists b. split; [|done]. by rewrite Hs, Hb.
    + eapply Forall_impl; [exact ok_member_rooms|]. intros x [b Hb]. cbn. rewrite Hs, Hb. by eexists.
  - intros r Hr. split_and!; [|done|by split]. rewrite Hs. destruct (sealing d r); [done|]. destruct (seqb (ro_id room) r) eqn:Hq; [|done]. apply seqb_true in Hq. congruence.
Qed.

Lemma room_kept_trans d1 d2 d3 r : room_kept d1 d2 r → room_kept d2 d3 r → room_kept d1 d3 r.
Proof.
  intros (Hs & Hm & Hl) (Hs' & Hm' & Hl'). split_and!; [by rewrite Hs'|intros u; by rewrite Hm'|by eapply same_levels_trans].
Qed.

Lemma calm_kept d d' r : calm d d' → room_kept d d' r.
Proof. intros [_ Hs Hm Hl]. split_and!; auto. Qed.

Lemma wrote_kept d room_id ty key content e d' r : wrote d room_id ty key content e d' → r ≠ room_id → room_kept d d' r.
Proof.
  intros Hw Hr. split_and!.
  - apply sealing_rooms. apply Hw.
  - intros u. rewrite (wr_membership _ _ _ _ _ _ _ Hw), decide_False; naive_solver.
  - unfold levels, power_levels_of. rewrite (wr_slot _ _ _ _ _ _ _ Hw), decide_False by congruence. by split.
Qed.

(** Everything a bootstrap writes is in the new room. *)
Lemma bootstrap_ok h b events ts :
  rooms_ok (hs_db h) → let h' := (create_room_with_state h b events ts).1 in
  h' = h ∨ (rooms_ok (hs_db h') ∧ sealing (hs_db h) (bo_room_id b) = None ∧ db_users (hs_db h') = db_users (hs_db h) ∧
            ∀ r, r ≠ bo_room_id b → room_kept (hs_db h) (hs_db h') r).
Proof.
  intros Hd. unfold create_room_with_state, hs_transaction. destruct (insert_room_row _ _) as [d1|] eqn:Hi; [|by left]. cbn [map_err].
  apply insert_room_ok in Hi as (Hok1 & Hnone & Hu1 & Hk1); [|done]. cbn in Hnone, Hk1.
  match goal with |- context [try_fold ?f ?a events] => destruct (try_fold f a events) as [[h' applied]|] eqn:Hf end; [|by left]. right. cbn.
  cut (rooms_ok (hs_db h') ∧ db_users (hs_db h') = db_users (hs_db h) ∧ ∀ r, r ≠ bo_room_id b → room_kept (hs_db h) (hs_db h') r); [naive_solver|].
  revert Hf. apply (try_fold_inv (λ acc : Hs * list EventRow, rooms_ok (hs_db acc.1) ∧ db_users (hs_db acc.1) = db_users (hs_db h) ∧
    ∀ r, r ≠ bo_room_id b → room_kept (hs_db h) (hs_db acc.1) r)); [done|].
  intros [ha out] ev [hb out'] (Hok & Hu & Hk) Hstep. cbn [fst snd] in *. destruct (apply_state_event_in_tx _ _ _ _ _ _ _ _ _) as [[hc e]|] eqn:Hs; [|done].
  injection Hstep as <- _. apply state_wrote in Hs as [Hw Hok']; [|done]. split_and!; [done|by rewrite (wr_users _ _ _ _ _ _ _ Hw)|].
  intros r Hr. eapply room_kept_trans; [by apply Hk|by eapply wrote_kept].
Qed.

Lemma create_fine h room_id fresh req now ts : rooms_ok (hs_db h) → fine h (create_room_handler user_nick effective_label h room_id fresh c req now ts).1.
Proof.
  intros Hd. unfold create_room_handler. step Hkind. step Hover. step Htype. step Halias. step Hnick. step Hinv. unfold apply_create_room.
  destruct (existsb _ _); [by apply fine_same|]. step Hkind'. step Hover'.
  match goal with |- fine _ (fst (match ?x with (_, _) => _ end)) => assert (Hreuse : rooms_ok x.1 ∧ calm (hs_db h) x.1); [|destruct x as [d [existing|]]] end.
  { repeat case_match; try done. unfold find_reusable_dm_room. destruct (room_by_dm_pair_key _ _) as [existing|]; [|done].
    destruct (_ && _); [done|]. by apply clear_pair_key_ok. }
  - by apply fine_calm.
  - destruct Hreuse as [Hok Hcalm]. cbn [fst] in Hok, Hcalm. destruct (room_kind_settings _) as [[rule vis] enc].
    match goal with |- fine _ (fst (match ?x with Ok _ => _ | Err _ => _ end)) => destruct x as [invitees|]; [|by apply fine_calm] end.
    match goal with |- context [create_room_with_state ?h1 ?b ?e ?t] => pose proof (bootstrap_ok h1 b e t Hok) as Hb; destruct (create_room_with_state h1 b e t) as [h' r] end.
    cbn [fst hs_db bo_room_id] in *. destruct Hb as [->|(Hok' & Hnone & Hu & Hk)]; [by apply fine_calm|]. split; [|done].
    apply (eff_create _ _ room_id).
    + rewrite <- Hnone. symmetry. by apply Hcalm.
    + by rewrite Hu, (ca_users _ _ Hcalm).
    + intros r' Hr. eapply room_kept_trans; [by apply calm_kept|by apply Hk].
Qed.

Lemma serve_fine h r :
  rooms_ok (hs_db h) → mxid_of (hs_db h) (ca_user_id c) = Some (ca_mxid c) → fine h (serve_room user_nick effective_label h c r).1.
Proof.
  intros Hd Hc. destruct r; cbn.
  - by apply create_fine.
  - by apply join_fine.
  - by apply leave_fine.
  - by apply invite_fine.
  - apply membership_change_fine; [done..|]. by left.
  - apply membership_change_fine; [done..|]. right. by left.
  - apply membership_change_fine; [done..|]. by do 2 right.
  - by apply forget_fine.
  - by apply put_state_fine.
  - by apply send_fine.
  - by apply redact_fine.
  - by apply receipt_fine.
  - by apply markers_fine.
Qed.

End Caller.

Lemma effect_users c d d' : effect c d d' → db_users d' = db_users d.
Proof. intros [Hc| | ????? _ Hw|]; [apply Hc|done|apply Hw|done]. Qed.

Lemma mxid_users d d' : db_users d' = db_users d → ∀ u, mxid_of d' u = mxid_of d u.
Proof. unfold mxid_of. by intros ->. Qed.
(** *** Runs of requests *)

Definition known_callers d (rs : list (Caller * RoomRequest)) : Prop := Forall (λ cr, mxid_of d (ca_user_id cr.1) = Some (ca_mxid cr.1)) rs.

Abbreviation serve_one h c r := (serve_room user_nick effective_label h c r).1.
Abbreviation serve_run h rs := (serve_rooms user_nick effective_label h rs).

(** A property that every request keeps, given what it may do, holds after a run. *)
Lemma requests_keep (P : Db → Prop) h rs :
  (∀ c d d', (c ∈ rs.*1) → rooms_ok d → P d → effect c d d' → P d') →
  rooms_ok (hs_db h) → known_callers (hs_db h) rs → P (hs_db h) → rooms_ok (hs_db (serve_run h rs)) ∧ P (hs_db (serve_run h rs)).
Proof.
  unfold serve_rooms. revert h. induction rs as [|[c r] rs IH]; intros h Hp Hd Hk HP; [done|]. cbn. apply Forall_cons in Hk as [Hc Hk]. cbn in Hc.
  destruct (serve_fine c h r Hd Hc) as [He Hd']. apply IH; [|done| |].
  - intros c' d d' Hin. apply Hp. by right.
  - eapply Forall_impl; [exact Hk|]. intros [c' r'] Hc'. cbn in *. by rewrite (mxid_users _ _ (effect_users _ _ _ He)).
  - apply (Hp c _ _ (list_elem_of_here _ _) Hd HP He).
Qed.

(** C12: Whatever requests the known accounts send, the room tables stay consistent: stream ids grow,
    event ids, slots and members are unique, every slot of a room's state holds an event of that
    slot, every member row says what the member event of the room's state says, and the timeline of
    a room that was created encrypted, as its row says, holds encrypted messages, reactions and
    redactions only. A room to which [m.room.encryption] is added later is not one of those
    ([encrypted_channel_takes_plaintext]). *)
Theorem rooms_stay_consistent h rs :
  rooms_ok (hs_db h) → known_callers (hs_db h) rs → rooms_ok (hs_db (serve_run h rs)).
Proof. intros Hd Hk. by apply (requests_keep (λ _, True)). Qed.

(** Who may change a membership, and how. *)
Inductive may_change c d (room_id : string) : Z → option Membership → option Membership → Prop :=
| mc_joins old : may_join d (ca_user_id c) room_id → may_change c d room_id (ca_user_id c) old (Some Join)
| mc_leaves old : old = Some Join ∨ old = Some Invite → may_change c d room_id (ca_user_id c) old (Some Leave)
| mc_forgets : may_change c d room_id (ca_user_id c) (Some Leave) None
| mc_invites v old :
    membership_of d room_id (ca_user_id c) = Some Join → threshold (levels d room_id) ActInvite ≤ user_level (levels d room_id) (ca_mxid c) →
    old = None ∨ old = Some Leave → may_change c d room_id v old (Some Invite)
| mc_kicks v mxid old :
    membership_of d room_id (ca_user_id c) = Some Join → mxid_of d v = Some mxid → outranks d room_id ActKick (ca_mxid c) mxid →
    old = Some Join ∨ old = Some Invite → may_change c d room_id v old (Some Leave)
| mc_bans v mxid old :
    membership_of d room_id (ca_user_id c) = Some Join → mxid_of d v = Some mxid → outranks d room_id ActBan (ca_mxid c) mxid →
    may_change c d room_id v old (Some Ban)
| mc_unbans v mxid :
    membership_of d room_id (ca_user_id c) = Some Join → mxid_of d v = Some mxid → outranks d room_id ActBan (ca_mxid c) mxid →
    may_change c d room_id v (Some Ban) (Some Leave).

Lemma effect_authorized c d d' room_id v :
  rooms_ok d → mxid_of d (ca_user_id c) = Some (ca_mxid c) → is_Some (sealing d room_id) → effect c d d' →
  membership_of d' room_id v ≠ membership_of d room_id v → may_change c d room_id v (membership_of d room_id v) (membership_of d' room_id v).
Proof.
  intros Hd Hc [b Hroom] He Hne. destruct He as [Hcalm|r Hl _ _ _ Hm|r ty key content e Hp Hw|r Hnone _ Hk].
  - by rewrite (ca_membership _ _ Hcalm) in Hne.
  - rewrite Hm in *. destruct (decide _) as [[-> ->]|]; [|done]. rewrite Hl. constructor.
  - rewrite (wr_membership _ _ _ _ _ _ _ Hw) in *. destruct (decide _) as [(-> & -> & Hu)|]; [|done].
    assert (Hsame : ∀ v', user_id_of d key = Some v' → v' = v) by (intros v' Hv'; congruence). pose proof (user_mxid _ _ _ Hd Hu) as Hmx.
    pose proof (mxid_user _ _ _ Hd Hc) as Hown.
    inversion Hp as [? Ht|? Ht|? Ht|? v' ? Ht Hv|? v' ? Ht Hv|? v' ? Ht Hv|? v' ? Ht Hv ? ? Hban|]; subst; [..|done]; rewrite Ht in *;
      try (assert (v' = v) as -> by (by apply Hsame)); try (assert (v = ca_user_id c) as -> by (by symmetry; apply Hsame)).
    + by apply mc_joins.
    + by apply mc_leaves.
    + congruence.
    + by apply mc_invites.
    + by eapply mc_kicks.
    + by eapply mc_bans.
    + rewrite Hban. by eapply mc_unbans.
  - destruct (decide (room_id = r)) as [->|Hr]; [by rewrite Hnone in Hroom|]. destruct (Hk _ Hr) as (_ & Hm & _). by rewrite Hm in Hne.
Qed.

(** C4: No request changes anybody's membership in an existing room except as follows: the caller
    joins when invited, or when neither joined nor banned and the room is public or lets members of
    a space they are joined to in; leaves or declines; forgets a room left before; or, being joined,
    invites with the level for it, and kicks, bans or unbans with the level for it and only users
    of a lower level. So a banned user stays out until somebody who may ban, and ranks above, lifts
    the ban. *)
Theorem membership_changes_are_authorized h c r room_id v :
  rooms_ok (hs_db h) → mxid_of (hs_db h) (ca_user_id c) = Some (ca_mxid c) → is_Some (get_room (hs_db h) room_id) →
  let d' := hs_db (serve_one h c r) in
  membership_of d' room_id v ≠ membership_of (hs_db h) room_id v →
  may_change c (hs_db h) room_id v (membership_of (hs_db h) room_id v) (membership_of d' room_id v).
Proof.
  intros Hd Hc Hr d' Hne. apply effect_authorized; [done..| |by apply serve_fine|done]. unfold sealing. by destruct Hr as [x ->].
Qed.

Lemma wrote_levels c d room_id key content e d' :
  permitted c d room_id "m.room.power_levels" key content → wrote d room_id "m.room.power_levels" key content e d' →
  bounded (user_level (levels d room_id) (ca_mxid c)) (levels d room_id) (levels d' room_id).
Proof.
  intros Hp Hw. remember (levels d room_id) as old eqn:Hold.
  assert (Hch : ∃ new, value_from_str content = Ok new ∧ validate_power_levels_change (levels d room_id) new (ca_mxid c) = Ok tt).
  { inversion Hp as [| | | | | | |ty' key' content' _ _ _ _ Hpl]. by apply Hpl. }
  destruct Hch as (new & Hnew & Hv). rewrite <- Hold in Hv. apply validated_change in Hv as Hb.
  unfold levels at 1, power_levels_of. rewrite (wr_slot _ _ _ _ _ _ _ Hw). destruct (decide _) as [[= <-]|Hne].
  - destruct (wr_content _ _ _ _ _ _ _ Hw) as [Heq|(v & v' & Hv1 & Hv2 & _ & Hl)].
    + unfold read_json. rewrite <- Heq, Hnew. exact Hb.
    + unfold read_json. rewrite Hv2. cbn. assert (v = new) as -> by congruence. specialize (Hl ltac:(done) ltac:(done)).
      by eapply same_bounded; [apply like_same_levels|].
  - rewrite Hold. apply bounded_refl.
Qed.

Lemma effect_bounded c d d' room_id : is_Some (sealing d room_id) → effect c d d' → bounded (user_level (levels d room_id) (ca_mxid c)) (levels d room_id) (levels d' room_id).
Proof.
  intros [b Hroom] [Hcalm|r _ _ _ Hl _|r ty key content e Hp Hw|r Hnone _ Hk].
  - eapply same_bounded; [apply Hcalm|apply bounded_refl].
  - eapply same_bounded; [apply Hl|apply bounded_refl].
  - destruct (decide (room_id = r)) as [->|Hr]; [|eapply same_bounded; [by apply (wrote_kept _ _ _ _ _ _ _ _ Hw)|apply bounded_refl]].
    destruct (decide (ty = "m.room.power_levels")) as [->|Hty]; [by eapply wrote_levels|].
    unfold levels, power_levels_of. rewrite (wr_slot _ _ _ _ _ _ _ Hw), decide_False by congruence. apply bounded_refl.
  - destruct (decide (room_id = r)) as [->|Hr]; [by rewrite Hnone in Hroom|]. eapply same_bounded; [by apply Hk|apply bounded_refl].
Qed.

Lemma effect_room_stays c d d' room_id : is_Some (sealing d room_id) → effect c d d' → is_Some (sealing d' room_id).
Proof.
  intros [b Hroom] [Hcalm|r _ _ Hs _ _|r ty key content e Hp Hw|r Hnone _ Hk].
  - by rewrite (ca_sealing _ _ Hcalm), Hroom.
  - by rewrite Hs, Hroom.
  - rewrite (sealing_rooms _ _ (wr_rooms _ _ _ _ _ _ _ Hw)), Hroom. done.
  - destruct (decide (room_id = r)) as [->|Hr]; [by rewrite Hnone in Hroom|]. destruct (Hk _ Hr) as [-> _]. by rewrite Hroom.
Qed.

(** C11: Power does not escalate: in a room where no caller of a run has a level above [n] at its
    start, the run leaves every user's level, each of the seven named levels (ban, kick, redact,
    invite and the defaults for state, other events and users) and every entry for a type of event
    that is above [n] as it was, and raises nothing above [n]; redactions of the power levels
    included. An entry may be added for a type that had none, at most [n], even where that is below
    the default that applied to the type before. *)
Theorem power_never_escalates h rs room_id n :
  rooms_ok (hs_db h) → known_callers (hs_db h) rs → is_Some (get_room (hs_db h) room_id) →
  Forall (λ cr, user_level (levels (hs_db h) room_id) (ca_mxid cr.1) ≤ n) rs →
  bounded n (levels (hs_db h) room_id) (levels (hs_db (serve_run h rs)) room_id).
Proof.
  intros Hd Hk Hr Hn.
  apply (requests_keep (λ d, is_Some (sealing d room_id) ∧ bounded n (levels (hs_db h) room_id) (levels d room_id)) h rs); [|done..|].
  - intros c d d' Hin _ [Hs Hb] He. split; [by eapply effect_room_stays|]. eapply bounded_trans; [exact Hb|].
    pose proof (effect_bounded _ _ _ _ Hs He) as Hb'. apply list_elem_of_fmap in Hin as ([c' r] & -> & Hin). rewrite Forall_forall in Hn.
    specialize (Hn _ Hin). cbn in *. destruct Hb as [Hbu _]. specialize (Hbu (ca_mxid c')). eapply bounded_le; [|exact Hb']. lia.
  - split; [unfold sealing; by destruct Hr as [x ->]|apply bounded_refl].
Qed.
End Requests.

(** ** Paging backwards *)

Section Paging.
Context `{J : ServerJson}.
Implicit Types d : Db.

Definition no_filter : EventFilter := mkEventFilter None None false.

(** A client that asks for older messages until no token comes back. *)
Fixpoint read_back (fuel : nat) d (u : Z) (room_id : string) (from : option string) (limit : option Z) : result (list EventRow) MatrixError :=
  match fuel with
  | O => Ok []
  | S fuel =>
      let? page := get_messages d u room_id (Some "b") from None limit no_filter in
      match mg_end page with
      | None => Ok (mg_chunk page)
      | Some token => let? rest := read_back fuel d u room_id (Some token) limit in Ok (mg_chunk page ++ rest)
      end
  end.

(** A room's events, newest first. *)
Definition history d (room_id : string) : list EventRow := reverse (select (λ e, seqb (ev_room_id e) room_id) (db_events d)).
Definition older (b : Z) (l : list EventRow) : list EventRow := select (λ e, ev_stream_id e <? b) l.

Definition newest_first (l : list EventRow) : Prop := StronglySorted Z.gt (ev_stream_id <$> l).

Lemma select_reverse {A} (p : A → bool) l : select p (reverse l) = reverse (select p l).
Proof. induction l as [|x l IH]; [done|]. rewrite reverse_cons, select_append, IH, !select_cons. destruct (p x); [by rewrite reverse_cons|by rewrite app_nil_r]. Qed.

Lemma newest_first_reverse l : StronglySorted Z.lt (ev_stream_id <$> l) → newest_first (reverse l).
Proof.
  unfold newest_first. rewrite fmap_reverse. generalize (ev_stream_id <$> l) as t. induction 1 as [|x t Hs IH Hall]; [constructor|].
  rewrite reverse_cons. apply StronglySorted_app_2; [|done|by repeat constructor].
  intros a b Ha Hb%list_elem_of_singleton. subst b. rewrite elem_of_reverse in Ha. rewrite Forall_forall in Hall. specialize (Hall a Ha). lia.
Qed.

Lemma history_sorted d room_id : rooms_ok d → newest_first (history d room_id).
Proof. intros Hd. apply newest_first_reverse. by apply (ordered_sublist _ _ _ _ (select_sublist _ _) (ok_events d Hd)). Qed.

Lemma history_range d room_id e : rooms_ok d → e ∈ history d room_id → 0 < ev_stream_id e ≤ db_stream_counter d.
Proof.
  intros Hd He. unfold history in He. apply elem_of_reverse, elem_of_select in He as [He _]. destruct (ok_events d Hd) as [_ Hall].
  rewrite Forall_forall in Hall. by apply Hall.
Qed.

Lemma older_sorted b l : newest_first l → newest_first (older b l).
Proof.
  unfold newest_first, older. induction l as [|x l IH]; [done|]. cbn. intros [Hs Hall]%StronglySorted_inv. rewrite select_cons. destruct (_ <? _); [|by apply IH].
  cbn. constructor; [by apply IH|]. rewrite Forall_fmap in *. eapply Forall_sub; [apply select_sublist|done].
Qed.

(** What is older than the last event of a page is what the page left. *)
Lemma older_last n l x : newest_first l → last (take n l) = Some x → older (ev_stream_id x) l = drop n l.
Proof.
  intros Hl [l1 Hx]%last_Some. rewrite <- (take_drop n l) at 1. unfold newest_first in Hl. rewrite <- (take_drop n l), Hx in Hl. rewrite Hx.
  rewrite !fmap_app in Hl. apply StronglySorted_app in Hl as (Hcross & Hhead & _). apply StronglySorted_app in Hhead as (Hbefore & _).
  unfold older. rewrite !select_append.
  rewrite (select_nothing _ l1), (select_nothing _ [x]), (select_every _ (drop n l)); [done|..].
  - intros y Hy. apply Z.ltb_lt. assert (ev_stream_id x > ev_stream_id y); [|lia]. apply Hcross; [set_solver|by apply list_elem_of_fmap_2].
  - intros y ->%list_elem_of_singleton. apply Z.ltb_ge. lia.
  - intros y Hy. apply Z.ltb_ge. assert (ev_stream_id y > ev_stream_id x); [|lia]. apply Hbefore; [by apply list_elem_of_fmap_2|set_solver].
Qed.

Lemma older_older b b' l : b' ≤ b → older b' (older b l) = older b' l.
Proof. intros Hb. unfold older. rewrite select_select. apply select_ext. intros e _. lia. Qed.

Lemma older_all b l : (∀ e, e ∈ l → ev_stream_id e < b) → older b l = l.
Proof. intros Hl. apply select_every. intros e He. apply Z.ltb_lt. by apply Hl. Qed.

(** A member's own row says that they may read everything. *)
Lemma joined_sees_all d room u : rooms_ok d → membership_of d (ro_id room) u = Some Join → visible_upper_bound d room u = Ok All.
Proof.
  intros Hd (mxid & e & Hm & He & Ht)%(ok_projected d Hd). unfold visible_upper_bound. destruct (bool_decide _); [done|]. rewrite Hm, He.
  unfold text_membership, content_membership in Ht. unfold store_json. destruct (value_from_str (ev_content e)) as [v|]; [|done]. cbn [map_err].
  destruct (get v "membership" ≫= as_str) as [s|]; [|done]. cbn in Ht. unfold Membership_from_wire_name in Ht.
  destruct (seqb s "join"); [done|]. by repeat case_match.
Qed.

Lemma page_raw d room_id b n :
  rooms_ok d → is_public_room d room_id = false → 0 ≤ n → events_in_room_before d room_id b n = take (Z.to_nat n) (older b (history d room_id)).
Proof.
  intros Hd Hp Hn. unfold events_in_room_before, limit_rows. rewrite Hp. destruct (Z.ltb_spec n 0); [lia|]. f_equal.
  rewrite (ordered_order_by _ (db_stream_counter d)); [|eapply ordered_sublist; [apply select_sublist|apply Hd]].
  unfold older, history. by rewrite select_reverse, select_select.
Qed.

Lemma limit_positive limit : 1 ≤ clamp_limit limit.
Proof. unfold clamp_limit, MESSAGES_MAX_LIMIT. lia. Qed.

(** One page of a member's. *)
Lemma page_back d u room_id room from ft b limit :
  rooms_ok d → get_room d room_id = Some room → is_public_room d room_id = false → membership_of d room_id u = Some Join →
  (match from with Some raw => let? t := parse_stream_token raw in Ok (Some t) | None => Ok None end) = Ok ft → resolve_messages_start d ft Backward = b →
  let chunk := take (Z.to_nat (clamp_limit limit)) (older b (history d room_id)) in
  get_messages d u room_id (Some "b") from None limit no_filter =
  Ok (mkPage chunk (format_stream_token b)
        (if (length chunk <? Z.to_nat (clamp_limit limit))%nat then None else (λ e, format_stream_token (ev_stream_id e)) <$> last chunk)).
Proof.
  intros Hd Hr Hp Hm Hft Hb chunk. unfold get_messages. cbn [Direction_from_query]. change (Direction_from_query (Some "b")) with (Ok (E := MatrixError) Backward). cbn beta iota.
  rewrite Hft, Hr. cbn [ok_or]. assert (Hid : ro_id room = room_id) by (apply find_row_Some in Hr as [_ He]; by apply seqb_true in He).
  rewrite joined_sees_all by (by rewrite ?Hid). cbn [map_err]. rewrite bool_decide_false by done. rewrite Hb. unfold paginate_messages.
  pose proof (limit_positive limit) as Hlim. rewrite page_raw by (done || lia). fold chunk.
  assert (Hnone : ∀ e, hard_truncated All None Backward e = false) by done.
  replace (existsb (hard_truncated All None Backward) chunk) with false by (symmetry; apply not_true_iff_false; intros (e & _ & He)%existsb_exists; by rewrite Hnone in He).
  rewrite orb_false_r. rewrite select_every by done. done.
Qed.

Lemma stream_token_text n : 0 ≤ n ≤ i64_max → parse_stream_token (format_stream_token n) = Ok (mkStreamToken n false).
Proof.
  intros Hn. unfold parse_stream_token, format_stream_token. change (starts_with "s" ("t" +:+ pretty n)) with false. cbn iota.
  change (strip_prefix "t" ("t" +:+ pretty n)) with (Some (pretty n)). cbn [from_option id]. rewrite parse_i64_pretty by done. cbn.
  by destruct (Z.ltb_spec n 0); [lia|].
Qed.

Lemma read_back_older d u room_id room limit fuel from ft b :
  rooms_ok d → db_stream_counter d ≤ i64_max → get_room d room_id = Some room → is_public_room d room_id = false → membership_of d room_id u = Some Join →
  (match from with Some raw => let? t := parse_stream_token raw in Ok (Some t) | None => Ok None end) = Ok ft → resolve_messages_start d ft Backward = b →
  (length (older b (history d room_id)) < fuel)%nat →
  read_back fuel d u room_id from limit = Ok (older b (history d room_id)).
Proof.
  intros Hd Hmax Hr Hp Hm. revert from ft b. induction fuel as [|fuel IH]; intros from ft b Hft Hb Hlen; [lia|]. cbn [read_back].
  rewrite (page_back d u room_id room from ft b limit) by done. cbn [mg_end mg_chunk]. set (l := older b (history d room_id)) in *. set (n := Z.to_nat (clamp_limit limit)).
  pose proof (limit_positive limit) as Hlim. assert (Hn : (0 < n)%nat) by lia.
  destruct (Nat.ltb_spec (length (take n l)) n) as [Hshort|Hfull].
  - rewrite length_take in Hshort. rewrite take_ge by lia. done.
  - destruct (last (take n l)) as [x|] eqn:Hx; [|apply last_None in Hx; rewrite Hx in Hfull; cbn in Hfull; lia]. cbn.
    assert (Hsorted : newest_first l) by (apply older_sorted, history_sorted, Hd).
    assert (Hin : x ∈ l). { apply last_Some in Hx as [l1 Hx]. apply (subseteq_take n). rewrite Hx. set_solver. }
    unfold l, older in Hin. apply elem_of_select in Hin as [Hin Hlt]. apply Z.ltb_lt in Hlt. apply history_range in Hin as Hrange; [|done].
    assert (Hold : older (ev_stream_id x) (history d room_id) = drop n l) by (rewrite <- (older_older b) by lia; by apply older_last).
    rewrite (IH _ (Some (mkStreamToken (ev_stream_id x) false)) (ev_stream_id x)); [|by rewrite stream_token_text by lia|done|].
    + by rewrite Hold, take_drop.
    + rewrite Hold, length_drop. rewrite length_take in Hfull. lia.
Qed.

(** C23: A joined member who pages backwards through a room, from the newest message and following
    the tokens, reads every event of the room exactly once, newest first, whatever the page size
    asked for; as many requests as there are events, and one more, are enough. (Plaintext channels,
    whose messages are in a table of their own, are left out.) *)
Theorem pages_cover_the_history d u room_id limit :
  rooms_ok d → db_stream_counter d < i64_max → is_Some (get_room d room_id) → is_public_room d room_id = false → membership_of d room_id u = Some Join →
  read_back (S (length (history d room_id))) d u room_id None limit = Ok (history d room_id) ∧ NoDup (ev_event_id <$> history d room_id).
Proof.
  intros Hd Hmax [room Hr] Hp Hm. pose proof (ok_room_counter d Hd) as Hpos. split.
  - assert (Hall : older (db_stream_counter d + 1) (history d room_id) = history d room_id).
    { apply older_all. intros e He. pose proof (history_range d room_id e Hd He). lia. }
    rewrite <- Hall at 2. apply (read_back_older d u room_id room _ _ None None); try done; [lia| |by rewrite Hall; lia].
    unfold resolve_messages_start, max_stream_id, i64_saturating_add. unfold i64_min, i64_max in *. lia.
  - unfold history. rewrite fmap_reverse, reverse_Permutation. eapply keyed_sublist; [apply select_sublist|apply Hd].
Qed.
End Paging.

(** ** Sending again *)

Section Retries.
Context `{J : ServerJson, G : RoomDag, !ServerJsonText, C : Chrono}.
Implicit Types d : Db.

(** What a transaction id is answered with. *)
Definition answered d (u : Z) (device_id txn_id : string) (e : EventRow) : Prop :=
  seen_event d u device_id txn_id = Some (Ok e) ∨ (seen_event d u device_id txn_id = None ∧ seen_txn d u device_id txn_id = Some e).

Lemma not_seen d u dev txn : seen_event d u dev txn = None → find_row (txn_is u dev txn) (db_txns d) = None ∧ deduped d u dev txn = None.
Proof. unfold seen_event, deduped, txn_dedup_lookup. by destruct (find_row _ _). Qed.

Lemma appended_get d e d' : appended d e d' → get_event d' (ev_event_id e) = Some e.
Proof. intros (_ & He & _ & _ & Hnew). unfold get_event, event_row. rewrite He, event_row_new by done. by rewrite decide_True. Qed.

Lemma timeline_answered h dev txn id room_id u ty content ts now h' e :
  seen_event (hs_db h) u dev txn = None → insert_timeline_event_deduped h dev txn id room_id u ty content ts now = (h', Ok e) →
  db_rooms (hs_db h') = db_rooms (hs_db h) ∧ ∃ row, e = NewWrite row ∧ answered (hs_db h') u dev txn row.
Proof.
  intros [Hnot Hded]%not_seen. unfold insert_timeline_event_deduped, hs_transaction. rewrite Hded.
  destruct (insert_timeline_event_in_tx _ _) as [[h1 row]|] eqn:Ht; [|done]. apply timeline_joined in Ht as (Happ & _).
  destruct (txn_dedup_record _ _ _ _ _ _) as [d2|] eqn:Htx; [|done]. unfold txn_dedup_record in Htx. destruct (exists_row _ _) eqn:Hx; [done|].
  injection Htx as <-. intros [= <- <-]. cbn. pose proof (appended_get _ _ _ Happ) as Hget. destruct Happ as ([_ Hr _ _] & _). split; [done|]. exists row. split; [done|].
  left. unfold seen_event, txn_dedup_lookup. cbn. rewrite exists_row_find in Hx.
  rewrite find_app. destruct (find_row (txn_is u dev txn) (db_txns (hs_db h1))); [done|].
  replace (txn_is u dev txn _) with true by (symmetry; by apply txn_is_key). cbn -[get_event].
  match goal with |- context [get_event ?x ?y] => change (get_event x y) with (get_event (hs_db h1) y) end. by rewrite Hget.
Qed.

Lemma pub_answered d dev txn id room_id u ty content ts d' r :
  seen_event d u dev txn = None → seen_txn d u dev txn = None → pub_insert_event_deduped d dev txn id room_id u ty content ts = (d', Ok r) →
  db_rooms d' = db_rooms d ∧ ∃ row, r = NewWrite row ∧ answered d' u dev txn row.
Proof.
  intros [Hnot _]%not_seen Hpub. unfold pub_insert_event_deduped, transaction, next_stream_id. unfold seen_txn in Hpub.
  destruct (find_row (pub_txn_is u dev txn) (db_pub_txns d)) as [t|] eqn:Hrow; [cbn in Hpub; by rewrite Hpub|].
  match goal with |- context [exists_row ?p ?t] => destruct (exists_row p t) eqn:Hx end; [done|]. intros [= <- <-]. split; [done|]. eexists. split; [done|].
  right. split; [unfold seen_event, txn_dedup_lookup; cbn; by rewrite Hnot|]. unfold seen_txn. cbn. rewrite find_app, Hrow.
  replace (pub_txn_is u dev txn _) with true by (symmetry; unfold pub_txn_is; cbn; by rewrite Z.eqb_refl, !seqb_refl). cbn.
  unfold pub_get_event. cbn. rewrite find_app. destruct (find_row _ (db_pub_events d)) as [x|] eqn:Hf; [|cbn; by rewrite seqb_refl].
  apply find_row_Some in Hf as [Hin Hid]. rewrite exists_row_false in Hx. specialize (Hx x Hin). by rewrite Hid, orb_true_r in Hx.
Qed.

Lemma apply_send_answered h room u mxid dev txn id ty content now ts h' w :
  apply_send h room u mxid dev txn id ty content now ts = (h', Ok w) → db_rooms (hs_db h') = db_rooms (hs_db h) ∧ answered (hs_db h') u dev txn (wo_event w).
Proof.
  unfold apply_send. destruct (seen_event _ _ _ _) as [[e|]|] eqn:Hs; [intros [= <- <-]; split; [done|by left]|done|].
  destruct (seen_txn _ _ _ _) as [e|] eqn:Ht; [intros [= <- <-]; split; [done|by right]|].
  repeat match goal with |- (match ?r with Ok _ => _ | Err _ => _ end) = _ → _ => destruct r; [|done] end.
  destruct (_ <? _); [done|]. repeat match goal with |- (match ?r with Ok _ => _ | Err _ => _ end) = _ → _ => destruct r; [|done] end.
  destruct (is_public_room _ _).
  - destruct (pub_insert_event_deduped _ _ _ _ _ _ _ _ _) as [d' [r|]] eqn:Hp; [|done]. apply pub_answered in Hp as (Hr & row & -> & Ha); [|done..]. by intros [= <- <-].
  - destruct (insert_timeline_event_deduped _ _ _ _ _ _ _ _ _ _) as [h1 [r|]] eqn:Hp; [|done]. apply timeline_answered in Hp as (Hr & row & -> & Ha); [|done]. by intros [= <- <-].
Qed.

(** A send that was answered with an event may be repeated: with the same transaction id the
    server writes nothing more and answers with the same event, whatever the second request holds,
    in encrypted rooms and in plaintext channels. *)
Theorem repeated_send_returns_the_event h c id id2 room_id ty ty2 txn content content2 now now2 ts ts2 h' w :
  send_event h id c room_id ty txn content now ts = (h', Ok w) → slen (value_to_string content2) ≤ MATRIX_EVENT_CONTENT_MAX_BYTES →
  send_event h' id2 c room_id ty2 txn content2 now2 ts2 = (h', Ok (mkWritten (wo_event w) false ∅)).
Proof.
  unfold send_event. destruct (_ <? _); [done|]. intros Hsend Hsize. destruct (Z.ltb_spec MATRIX_EVENT_CONTENT_MAX_BYTES (slen (value_to_string content2))); [lia|].
  unfold require_room in *. destruct (get_room (hs_db h) room_id) as [room|] eqn:Hr; [|done]. cbn [ok_or] in Hsend. apply apply_send_answered in Hsend as [Hrooms Ha].
  unfold get_room in *. rewrite Hrooms, Hr. cbn [ok_or]. unfold apply_send. destruct Ha as [->|[-> ->]]; done.
Qed.
End Retries.
