(* ===== verification/ServerExample.v ===== *)
(** * A homeserver with three accounts

    Alice and Bob share an encrypted room, a stranger shares none. The theorems of the server files
    are applied here, and runs that the documentation rules out are evaluated. JSON is written
    with the codecs of [Codec]; a signature verifies when it is the key and the digest, the first
    32 bytes, of the message. *)

From S2P Require Import Prelude Sqlite Codec Json ServerDb ServerKeys ServerKeyOps ServerKeyRoutes ServerDbProps ServerRequests ServerDelivery ServerTrustProps ServerLive ServerRooms ServerRoomOps ServerRoomProps ServerRoomRuns.

Local Open Scope Z_scope.

Module ServerExample.

#[local] Instance example_json : ServerJson := { value_to_string v := put v; value_from_str s := from_vec s }.
#[local] Instance example_json_laws : ServerJsonLaws.
Proof. split. intros v _ _. by apply from_to_vec. Qed.
#[local] Instance example_signing : SigningCrypto := {
  VerifyingKey := string; decode_base64 := Some; verifying_key_from_bytes := Some;
  verify_strict k m s := seqb s (k +:+ s_take 32 m) }.

Definition nobody_remote (_ : string) : bool := false.

Definition otk (k : string) : OneTimeKeyRow := mkOneTimeKey 2 "B" k "signed_curve25519" (value_to_string (VString k)).

Definition db : Db := mkDb 3
  [mkUserRow 1 "@a:x"; mkUserRow 2 "@b:x"; mkUserRow 3 "@s:x"]
  [mkRoom "!r:x" Group "11" 1 "t" true InviteRule Shared None None] [mkMember "!r:x" 1 Join None "t"; mkMember "!r:x" 2 Join None "t"] [] [] [] [] [] [] [] [] []
  [mkDevice 1 "A" Bearer "ta" None "t" "t"; mkDevice 2 "B" Bearer "tb" None "t" "t"; mkDevice 3 "S" Bearer "ts" None "t" "t"]
  [] [otk "signed_curve25519:2"; otk "signed_curve25519:1"]
  [mkFallbackRow 2 "B" "signed_curve25519" "signed_curve25519:F" (value_to_string VNull) false "t"]
  [mkToDeviceMessage 2 2 "B" 1 "m.old" (value_to_string (VObject []))] [mkChange 3 2 "t"] [] [] 0
  [mkBackupVersion 1 2 BACKUP_ALGORITHM (value_to_string VNull) 4 false "t"] 1 [].

Lemma db_is_ok : db_ok db.
Proof.
  split; cbn; try lia; try (by apply (bool_decide_unpack _); vm_compute); (split; repeat constructor; cbn; lia).
Qed.

Definition alice : Caller := mkCaller 1 "@a:x" "A".
Definition bob : Caller := mkCaller 2 "@b:x" "B".
Definition hello : gmap string (gmap string Value) := {["@b:x" := {["*" := VString "hello"]}]}.
Definition send : KeyRequest := RSend false alice "m.t" "txn" hello "t" 7.

(** ** Requests and delivery *)

Lemma requests_never_fail_inside_witness :
  is_login (RClaim alice ∅) = false ∧ db_ok (serve_all nobody_remote db [send; RSync bob None false 0]).
Proof.
  split; [reflexivity|]. apply (requests_never_fail_inside nobody_remote db [send; RSync bob None false 0] (RClaim alice ∅)). exact db_is_ok.
Defined.

Definition history : list Event := [ERequest send; ESync 5; ERequest send; ERequest (RTouch 1 "A" "t2")].

Lemma delivered_once_in_order_witness :
  payload <$> (se_received (run nobody_remote 2 "B" (new_session db) history) ++ outstanding 2 "B" (run nobody_remote 2 "B" (new_session db) history))
  = (payload <$> inbox 2 "B" db) ++ sent_during nobody_remote 2 "B" (new_session db) history.
Proof.
  apply (delivered_once_in_order nobody_remote 2 "B" db history); [exact db_is_ok|vm_compute; reflexivity|vm_compute; discriminate].
Defined.

(** What that comes to: the old message and the new one, once. *)
Lemma delivered_twice_asked : length (se_received (run nobody_remote 2 "B" (new_session db) history)) = 2%nat ∧ length (sent_during nobody_remote 2 "B" (new_session db) history) = 1%nat.
Proof. split; vm_compute; reflexivity. Qed.

Lemma every_message_is_delivered_witness :
  payload <$> se_received (run nobody_remote 2 "B" (run nobody_remote 2 "B" (new_session db) [ERequest send]) (replicate 1 (ESync 0)))
  = (payload <$> inbox 2 "B" db) ++ sent_during nobody_remote 2 "B" (new_session db) [ERequest send].
Proof.
  apply (every_message_is_delivered nobody_remote 2 "B" db [ERequest send] 0 1); [exact db_is_ok|vm_compute; reflexivity|vm_compute; discriminate|unfold u64_mod; lia|].
  apply Nat.leb_le. vm_compute. reflexivity.
Defined.

(** ** Keys *)

Lemma one_time_keys_are_conserved_witness :
  let '(d', handed) := claim_run db [(2, "B", "signed_curve25519"); (2, "B", "signed_curve25519"); (2, "B", "signed_curve25519")] in
  handed ++ db_one_time_keys d' ≡ₚ db_one_time_keys db ∧ NoDup (otk_key <$> (handed ++ db_one_time_keys d')).
Proof. apply (one_time_keys_are_conserved db). exact db_is_ok. Defined.

Lemma claims_in_order : (claim_run db [(2, "B", "signed_curve25519"); (2, "B", "signed_curve25519"); (2, "B", "signed_curve25519")]).2 = [otk "signed_curve25519:1"; otk "signed_curve25519:2"].
Proof. vm_compute. reflexivity. Qed.

Definition bob_keys : KeysUploadRequest :=
  mkUpload (Some (VObject [("device_id", VString "B"); ("keys", VString "K"); ("user_id", VString "@b:x")])) (Some {["signed_curve25519:9" := VNull]}) None.

(** Bob uploads keys, then Alice sends him a message and he syncs; Alice syncs from where she was before all of this. *)
Lemma key_change_reaches_peers_witness :
  ∃ d1 counts response, apply_keys_upload db 2 "@b:x" "B" bob_keys "t" 7 = (d1, Ok (mkOutcome counts true)) ∧
  (sync_keys (serve_all nobody_remote d1 [send; RSync bob None false 0]) alice (Some (format 3 0)) false 0).2 = Ok response ∧
  "@b:x" ∈ dl_changed (sk_device_lists response).
Proof.
  assert (Hup : ∃ d1 counts, apply_keys_upload db 2 "@b:x" "B" bob_keys "t" 7 = (d1, Ok (mkOutcome counts true))) by (eexists _, _; vm_compute; reflexivity).
  assert (Hvis : bool_decide (2 ∈ peers_sharing_a_room_with db 1) = true) by (vm_compute; reflexivity). apply bool_decide_eq_true in Hvis.
  destruct Hup as (d1 & counts & Hup). exists d1, counts.
  destruct (key_change_reaches_peers nobody_remote db 2 "@b:x" "B" bob_keys "t" 7 d1 counts [send; RSync bob None false 0] alice (format 3 0) (mkSyncToken 3 0) 0
    db_is_ok Hup eq_refl Hvis) as (response & Hs & Hin); [vm_compute; reflexivity|cbn; lia|].
  exists response. split; [exact Hup|]. split; [exact Hs|exact Hin].
Defined.

(** A database in which the stranger has other keys. *)
Definition other_db : Db := with_device_keys db [mkDeviceKeysRow 3 "S" "a" "k" "s" "t"].

Lemma queries_reveal_peers_only_witness :
  same_view 1 db other_db ∧ build_keys_query_response db 1 "@a:x" {["@s:x" := []]} = build_keys_query_response other_db 1 "@a:x" {["@s:x" := []]}.
Proof.
  assert (Hv : same_view 1 db other_db).
  { split; [reflexivity|reflexivity| |reflexivity|reflexivity]. intros u Hu. destruct (decide (u = 3)) as [->|Hne].
    2: { change (device_keys_for db [u]) with (@nil DeviceKeys). symmetry. apply select_nothing. intros r ->%list_elem_of_singleton.
         cbn [dk_user_id existsb]. rewrite orb_false_r. apply Z.eqb_neq. lia. }
    exfalso. assert (Hno : bool_decide (3 ∈ peers_sharing_a_room_with db 1) = false) by (vm_compute; reflexivity). apply bool_decide_eq_false in Hno. exact (Hno Hu). }
  split; [exact Hv|]. apply (queries_reveal_peers_only 1 "@a:x" db other_db). exact Hv.
Defined.

Lemma messages_go_to_peers_only_witness :
  ∃ targets, expand_send_to_device_targets db 1 hello = Ok targets ∧ (length targets ≤ SEND_TO_DEVICE_MAX_TARGETS)%nat.
Proof. eexists. split; [vm_compute; reflexivity|]. eapply (messages_go_to_peers_only db 1 hello). vm_compute. reflexivity. Defined.

Lemma repeated_send_is_a_no_op_witness :
  let d' := (send_to_device nobody_remote db false alice "m.t" "txn" hello "t" 7).1.1 in
  send_to_device nobody_remote d' false alice "m.t" "txn" hello "t2" 8 = (d', Ok tt, ∅).
Proof. apply (repeated_send_is_a_no_op nobody_remote db alice "m.t" "txn" hello "t" 7 "t2" 8); [exact db_is_ok|vm_compute; reflexivity]. Defined.

Lemma deleted_device_leaves_nothing_witness :
  (delete_device db 2 "B" "t" 7).2 = Ok true ∧ gone (otk_of_device 2 "B") (db_one_time_keys (delete_device db 2 "B" "t" 7).1).
Proof.
  pose proof (deleted_device_leaves_nothing db 2 "B" "t" 7 db_is_ok ltac:(vm_compute; reflexivity)) as Hd.
  destruct (delete_device db 2 "B" "t" 7) as [d' answer]. destruct Hd as (Ha & _ & _ & (Ho & _) & _). by split.
Defined.

(** A master key of 32 bytes and a self-signing key that it signed. *)
Definition master_text : string := "mmmmmmmmmmmmmmmmmmmmmmmmmmmmmmmm".
Definition master_key : Value := VObject [("keys", VObject [("ed25519:M", VString master_text)]); ("usage", VArray [VString "master"]); ("user_id", VString "@b:x")].
Definition unsigned_key : Map := [("keys", VObject [("ed25519:S", VString "s")]); ("usage", VArray [VString "self_signing"]); ("user_id", VString "@b:x")].
Definition signature : Value := VObject [("@b:x", VObject [("ed25519:M", VString (master_text +:+ s_take 32 (value_to_string (VObject unsigned_key))))])].
Definition self_key : Value := VObject (map_insert "signatures" signature unsigned_key).
Definition signing_request : DeviceSigningUploadRequest := mkSigningUpload (Some master_key) (Some self_key) None.

Lemma cross_signing_is_verified_witness :
  is_ok (apply_device_signing_upload db 2 "@b:x" signing_request "t" 7).2 = true ∧ accepted (Some self_key) "@b:x" "self_signing" (Some master_key).
Proof.
  assert (Hok : is_ok (apply_device_signing_upload db 2 "@b:x" signing_request "t" 7).2 = true) by (vm_compute; reflexivity).
  split; [exact Hok|]. pose proof (cross_signing_is_verified db 2 "@b:x" signing_request "t" 7 db_is_ok) as Hv.
  destruct (apply_device_signing_upload db 2 "@b:x" signing_request "t" 7) as [d' [w|e]]; [exact (proj1 (proj2 Hv))|discriminate Hok].
Defined.

(** ** Backups *)

Lemma backup_round_trip_witness :
  let d' := (put_backup_keys_inner db bob (Some "!r:x") (Some "s") (Some (pretty 1)) (VString "data") "t").1 in
  get_backup_keys_inner d' bob (Some "!r:x") (Some "s") (Some (pretty 1)) = Ok (VString "data").
Proof.
  apply (backup_round_trip db bob "!r:x" "s" 1 (VString "data") "t"); [exact db_is_ok|vm_compute; reflexivity|unfold i64_max; lia|constructor|reflexivity].
Defined.

(** ** Typing and waking *)

Definition typing : TypingRegistry := (set_typing TypingRegistry_new "!r:x" 1 true 30000 0).1.

Lemma typing_change_is_seen_witness : 1 < (typing_serial (set_typing typing "!r:x" 1 false 0 5000000000).1 "!r:x" 5000000000).2.
Proof.
  apply (typing_change_is_seen typing "!r:x" 1 false 0 5000000000 5000000000 1); [|vm_compute; discriminate|vm_compute; reflexivity].
  apply set_typing_ok. split; [cbn; lia|]. cbn. by intros ? ? ?%lookup_empty_Some.
Defined.

(** Alice typed five seconds ago and stops: the stop is a change, the first read of the serial shows it,
    and the second read, which decides whether the event is sent, shows nothing. *)
Lemma stop_is_not_sent :
  let stopped := set_typing typing "!r:x" 1 false 0 5000000000 in
  stopped.2 = true ∧ (typing_serial stopped.1 "!r:x" 5000000000).2 = 2 ∧ (typing_serial (typing_serial stopped.1 "!r:x" 5000000000).1 "!r:x" 5000000000).2 = 0.
Proof.
  apply (late_stop_is_seen_once typing "!r:x" 1 (mkRoomTyping {[1 := mkTypingUser 30000000000 true (Some 0)]} 1) (mkTypingUser 30000000000 true (Some 0)) 0 5000000000);
    [reflexivity|reflexivity|reflexivity|]. intros last [= <-]. vm_compute. reflexivity.
Defined.

(** A waiter that times out. *)
Definition sleeper (p : Phase) : LiveRegistry := mkLive {["user:1" := 0%nat]} {[0%nat := mkKeyEntry 0 1]} {[0%nat := mkRegistration "user:1" 0 0 p false false]} None.

Lemma sleeper_reachable : reachable (sleeper (Returned TimedOut)).
Proof.
  apply (rtc_l _ _ (sleeper Registering)); [apply (register_new LiveRegistry_new 0 "user:1" 0); reflexivity|].
  apply (rtc_l _ _ (sleeper Held)); [apply (load_generation (sleeper Registering) 0 (mkRegistration "user:1" 0 0 Registering false false) (mkKeyEntry 0 1)); reflexivity|].
  apply (rtc_l _ _ (sleeper (Enabled false))); [apply (wait_enable (sleeper Held) 0 (mkRegistration "user:1" 0 0 Held false false)); reflexivity|].
  apply (rtc_l _ _ (sleeper (Sleeping false))); [apply (wait_unchanged (sleeper (Enabled false)) 0 (mkRegistration "user:1" 0 0 (Enabled false) false false) false (mkKeyEntry 0 1)); reflexivity|].
  apply rtc_once. apply (wait_timeout (sleeper (Sleeping false)) 0 (mkRegistration "user:1" 0 0 (Sleeping false) false false)); reflexivity.
Qed.

Lemma no_wake_is_lost_witness : rg_ended (mkRegistration "user:1" 0 0 (Returned TimedOut) false false) = false.
Proof. apply (no_wake_is_lost (sleeper (Returned TimedOut)) 0 (mkRegistration "user:1" 0 0 (Returned TimedOut) false false)); [exact sleeper_reachable|reflexivity|reflexivity]. Defined.

(** ** An upload that is repeated *)

(** Bob uploads a key, Alice claims it, and Bob's client, which never saw the answer, uploads again:
    the key is handed out a second time. *)
Definition upload : KeyRequest := RUpload bob (mkUpload None (Some {["signed_curve25519:0" := VNull]}) None) "t" 7.
Definition claim_of (d : Db) : option (string * string) := (claim_one_time_key d 2 "B" "signed_curve25519").2.

Lemma repeated_upload_revives_a_key :
  let uploaded := (serve nobody_remote db upload).1 in
  let claimed := (claim_one_time_key uploaded 2 "B" "signed_curve25519").1 in
  claim_of uploaded = claim_of (serve nobody_remote claimed upload).1 ∧ is_some (claim_of uploaded) = true.
Proof. split; vm_compute; reflexivity. Qed.

(** ** A refused upload that has changed keys *)

(** New device keys together with a one-time key whose id is taken: the request is refused, yet the
    device keys and the log of changes are not as before. *)
Definition half_upload : KeysUploadRequest := mkUpload (ku_device_keys bob_keys) (Some {["signed_curve25519:1" := VNull]}) None.

Lemma refused_upload_changes_keys :
  let '(d', answer, wake) := keys_upload db bob half_upload "t" 7 in
  is_ok answer = false ∧ length (db_device_keys d') = 1%nat ∧ length (db_device_keys db) = 0%nat ∧ length (db_changes d') = 2%nat ∧ bool_decide (wake = ∅) = true.
Proof. vm_compute. repeat split; reflexivity. Qed.

(** ** A retry that is not deduplicated *)

(** Each repetition of a [sendToDevice] with a remote recipient queues the message for the other
    server again. *)
Definition remote_only (mxid : string) : bool := seqb mxid "@c:y".
Definition to_remote : gmap string (gmap string Value) := {["@c:y" := {["*" := VNull]}]}.

Lemma retry_queues_again :
  let first := (send_to_device remote_only db true alice "m.t" "txn" to_remote "t" 7).1.1 in
  let second := (send_to_device remote_only first true alice "m.t" "txn" to_remote "t" 7).1.1 in
  length (db_outbox first) = 1%nat ∧ length (db_outbox second) = 2%nat.
Proof. split; vm_compute; reflexivity. Qed.

End ServerExample.

(** ** Rooms

    The same three accounts; a group that Alice creates and Bob joins, and a plaintext channel. *)

Module RoomExample.

(** A text reads back only when it is the text of a well-formed value. *)
Definition wf_numberb (n : Number) : bool :=
  match n with PosInt n => (0 <=? n) && (n <? u64_mod) | NegInt n => (i64_min <=? n) && (n <? 0) | Float _ => true end.
Fixpoint sorted_keys (m : Map) : bool :=
  match m with
  | (k, _) :: m => forallb (λ kv, bool_decide (String.le k kv.1) && negb (seqb k kv.1)) m && sorted_keys m
  | [] => true
  end.
Fixpoint wf_valueb (v : Value) : bool :=
  match v with
  | VNumber n => wf_numberb n
  | VArray l => forallb wf_valueb l
  | VObject m => sorted_keys m && forallb (λ kv, wf_valueb kv.2) m
  | _ => true
  end.

Lemma sorted_keys_ok m : sorted_keys m = true ↔ keys_sorted m.
Proof.
  unfold keys_sorted. induction m as [|[k v] m IH]; cbn; [split; [constructor|done]|]. rewrite andb_true_iff, IH, forallb_forall. split.
  - intros [Ha Hs]. constructor; [done|]. apply Forall_forall. intros kv Hin%list_elem_of_In. apply Ha in Hin. apply andb_true_iff in Hin as [Hl Hn].
    apply bool_decide_eq_true in Hl. apply negb_true_iff in Hn. split; [done|]. intros He. cbn in *. by rewrite He, seqb_refl in Hn.
  - intros [Hs Ha]%StronglySorted_inv. split; [|done]. rewrite Forall_forall in Ha. intros kv Hin%list_elem_of_In. destruct (Ha kv Hin) as [Hl Hn]. cbn in *.
    apply andb_true_iff. split; [by apply bool_decide_eq_true|]. apply negb_true_iff. unfold seqb. by apply bool_decide_eq_false.
Qed.

Lemma wf_valueb_ok v : wf_valueb v = true ↔ wf_value v.
Proof.
  induction v as [|b|n|s|items IH|m IH] using Value_ind'; cbn; try (split; [constructor|done]).
  - split; [intros Hn; constructor|inversion_clear 1 as [| |? Hn| | |]]; destruct n; cbn in *; rewrite ?andb_true_iff, ?Z.leb_le, ?Z.ltb_lt in *; lia || done.
  - rewrite forallb_forall. rewrite Forall_forall in IH. split.
    + intros Ha. constructor. apply Forall_forall. intros v Hin. apply IH; [done|]. apply Ha. by apply list_elem_of_In.
    + inversion_clear 1 as [| | | |? Ha|]. rewrite Forall_forall in Ha. intros v Hin%list_elem_of_In. apply IH; [done|]. by apply Ha.
  - rewrite andb_true_iff, sorted_keys_ok, forallb_forall. rewrite Forall_forall in IH. split.
    + intros [Hs Ha]. constructor; [done|]. apply Forall_forall. intros kv Hin. apply IH; [done|]. apply Ha. by apply list_elem_of_In.
    + inversion_clear 1 as [| | | | |? Hs Ha]. split; [done|]. rewrite Forall_forall in Ha. intros kv Hin%list_elem_of_In. apply IH; [done|]. by apply Ha.
Qed.

Definition read_value (s : string) : result Value string :=
  let? v := from_vec s in if wf_valueb v then Ok v else Err "malformed value".

#[local] Instance room_json : ServerJson := { value_to_string v := put v; value_from_str := read_value }.
#[local] Instance room_json_text : ServerJsonText.
Proof.
  split.
  - intros s v. cbn. unfold read_value. destruct (from_vec s) as [w|]; [|done]. destruct (wf_valueb w) eqn:Hw; [|done]. intros [= <-]. by apply wf_valueb_ok.
  - intros v Hv. exists v. split; [|constructor]. cbn. unfold read_value. rewrite (from_to_vec v) by done. by apply wf_valueb_ok in Hv as ->.
Qed.

(** A graph that accepts everything and numbers its events. *)
#[local] Instance room_dag : RoomDag := {
  Dag := gset string * Z;
  is_f3_room g room_id := bool_decide (room_id ∈ g.1);
  mark_room g room_id := ({[room_id]} ∪ g.1, g.2);
  dag_local_event g room_id ts sender kind key content := Ok ((g.1, g.2 + 1), "$graph" +:+ pretty g.2) }.

#[local] Instance room_chrono : Chrono := {
  timestamp_millis := parse_i64;
  seconds_before now n := default EmptyString ((λ m, pretty (m - n * 1000)) <$> parse_i64 now) }.

Definition nick (u : Z) : option string := Some ("nick" +:+ pretty u).
Definition label (u : Z) : string := "nick" +:+ pretty u.
Abbreviation serve_run := (serve_rooms nick label).

Definition start : Hs := mkHs (with_users empty_db [mkUserRow 1 "@a:x"; mkUserRow 2 "@b:x"; mkUserRow 3 "@s:x"]) (∅, 0).

Definition alice : Caller := mkCaller 1 "@a:x" "A".
Definition bob : Caller := mkCaller 2 "@b:x" "B".
Definition stranger : Caller := mkCaller 3 "@s:x" "S".

Definition message (id txn : string) : RoomRequest := QSend id "!g:x" "m.room.encrypted" txn (VObject [("body", VString id)]) "9" 9.
Definition group : list (Caller * RoomRequest) :=
  [(alice, QCreate "!g:x" (λ n, "$c" +:+ pretty (Z.of_nat n)) (mkCreateRoom false ["@b:x"] None None None None (Some "g") None) "1" 1);
   (bob, QJoin "$j" "!g:x" "2" 2);
   (alice, message "$m1" "t1"); (bob, message "$m2" "t2"); (alice, message "$m3" "t3")].
Definition joined : Hs := serve_run start group.

Lemma start_ok : rooms_ok (hs_db start).
Proof. split; cbn; try lia; try (by apply (bool_decide_unpack _); vm_compute); try constructor; done || (split; repeat constructor). Qed.

Lemma known rs : forallb (λ cr, bool_decide (mxid_of (hs_db start) (ca_user_id cr.1) = Some (ca_mxid cr.1))) rs = true → known_callers (hs_db start) rs.
Proof. rewrite forallb_forall. intros Ha. apply Forall_forall. intros cr Hin%list_elem_of_In. specialize (Ha cr Hin). by apply bool_decide_eq_true in Ha. Qed.

(** The state that the other examples start from is reached by requests. *)
Lemma joined_ok : rooms_ok (hs_db joined).
Proof. apply (requests_keep nick label (λ _, True)); [done|exact start_ok|apply known; vm_compute; reflexivity|done]. Qed.

Lemma rooms_stay_consistent_witness : rooms_ok (hs_db start) ∧ rooms_ok (hs_db joined).
Proof. split; [exact start_ok|]. apply (rooms_stay_consistent nick label start group); [exact start_ok|apply known; vm_compute; reflexivity]. Defined.

(** Alice kicks Bob. *)
Definition kick : RoomRequest := QKick "$k" "!g:x" "@b:x" None "10" 10.

Lemma membership_changes_are_authorized_witness :
  may_change alice (hs_db joined) "!g:x" 2 (membership_of (hs_db joined) "!g:x" 2) (membership_of (hs_db (serve_room nick label joined alice kick).1) "!g:x" 2).
Proof.
  apply (membership_changes_are_authorized nick label joined alice kick "!g:x" 2); [exact joined_ok|vm_compute; reflexivity|eexists; vm_compute; reflexivity|].
  assert (Hd : bool_decide (membership_of (hs_db (serve_room nick label joined alice kick).1) "!g:x" 2 = membership_of (hs_db joined) "!g:x" 2) = false)
    by (vm_compute; reflexivity).
  by apply bool_decide_eq_false in Hd.
Defined.

(** Bob and the stranger try to take the room over. *)
Definition grab : Value := VObject [("users", VObject [("@b:x", VNumber (PosInt 100))])].
Definition takeover : list (Caller * RoomRequest) :=
  [(bob, QPutState "$p" "!g:x" "m.room.power_levels" EmptyString grab "10" 10); (stranger, QJoin "$j2" "!g:x" "11" 11); (bob, QBan "$b" "!g:x" "@a:x" None "12" 12);
   (bob, QInvite "$i" "!g:x" "@s:x" "13" 13)].

Lemma power_never_escalates_witness : bounded 0 (levels (hs_db joined) "!g:x") (levels (hs_db (serve_run joined takeover)) "!g:x").
Proof.
  apply (power_never_escalates nick label joined takeover "!g:x" 0); [exact joined_ok| |eexists; vm_compute; reflexivity|].
  - repeat constructor; vm_compute; reflexivity.
  - repeat constructor; vm_compute; discriminate.
Defined.

Lemma pages_cover_the_history_witness :
  read_back (S (length (history (hs_db joined) "!g:x"))) (hs_db joined) 2 "!g:x" None (Some 5) = Ok (history (hs_db joined) "!g:x") ∧
  NoDup (ev_event_id <$> history (hs_db joined) "!g:x").
Proof.
  apply (pages_cover_the_history (hs_db joined) 2 "!g:x" (Some 5)); [exact joined_ok|vm_compute; reflexivity|eexists; vm_compute; reflexivity|vm_compute; reflexivity|vm_compute; reflexivity].
Defined.

(** The first send of Bob's, and its repetition with another body. *)
Definition body (s : string) : Value := VObject [("body", VString s)].
Definition first_send := send_event joined "$s1" bob "!g:x" "m.room.encrypted" "t9" (body "one") "20" 20.
Definition second_send (h : Hs) := send_event h "$s2" bob "!g:x" "m.room.encrypted" "t9" (body "two") "21" 21.

Lemma repeated_send_returns_the_event_witness :
  ∃ h' w, first_send = (h', Ok w) ∧ second_send h' = (h', Ok (mkWritten (wo_event w) false ∅)).
Proof.
  assert (Hfirst : ∃ h' w, first_send = (h', Ok w)).
  { assert (Hok : is_ok first_send.2 = true) by (vm_compute; reflexivity). destruct first_send as [h' [w|e]]; [by exists h', w|discriminate Hok]. }
  destruct Hfirst as (h' & w & Hfirst). exists h', w. split; [exact Hfirst|].
  apply (repeated_send_returns_the_event joined bob "$s1" "$s2" "!g:x" "m.room.encrypted" "m.room.encrypted" "t9" (body "one") (body "two") "20" "21" 20 21 h' w);
    [exact Hfirst|vm_compute; discriminate].
Defined.

(** ** A public channel that is closed *)

(** Alice's channel: she sets its join rule to [invite], and the stranger still joins. *)
Definition channel : list (Caller * RoomRequest) :=
  [(alice, QCreate "!c:x" (λ n, "$d" +:+ pretty (Z.of_nat n)) (mkCreateRoom false [] (Some "public") None None None None None) "1" 1)].
Definition closed : list (Caller * RoomRequest) :=
  channel ++ [(alice, QPutState "$p" "!c:x" "m.room.join_rules" EmptyString (VObject [("join_rule", VString "invite")]) "2" 2); (stranger, QJoin "$j" "!c:x" "3" 3)].

Lemma closed_channel_is_joined :
  get_state (hs_db (serve_run start closed)) alice "!c:x" "m.room.join_rules" EmptyString = Ok (VObject [("join_rule", VString "invite")]) ∧
  membership_of (hs_db (serve_run start closed)) "!c:x" 3 = Some Join.
Proof. split; vm_compute; reflexivity. Qed.

(** Alice turns encryption on in the channel, and plaintext is still accepted. *)
Definition encrypted_channel : Hs :=
  serve_run start (channel ++ [(alice, QPutState "$p" "!c:x" "m.room.encryption" EmptyString (VObject [("algorithm", VString "m.megolm.v1.aes-sha2")]) "2" 2)]).

Lemma encrypted_channel_takes_plaintext :
  is_some (current_state_event (hs_db encrypted_channel) "!c:x" "m.room.encryption" EmptyString) = true ∧
  is_ok (send_event encrypted_channel "$m" alice "!c:x" "m.room.message" "t" (body "plain") "3" 3).2 = true.
Proof. split; vm_compute; reflexivity. Qed.

(** ** What somebody who never joined, or has left, may read *)

(** The stranger is invited and declines: all that was said before can be read. *)
Definition declined : Hs := serve_run joined [(alice, QInvite "$i" "!g:x" "@s:x" "10" 10); (stranger, QLeave "$l" "!g:x" "11" 11)].

Lemma declining_opens_the_history :
  is_ok (get_messages (hs_db joined) 3 "!g:x" (Some "b") None None (Some 100) no_filter) = false ∧
  (length ∘ mg_chunk) <$> (match get_messages (hs_db declined) 3 "!g:x" (Some "b") None None (Some 100) no_filter with Ok p => Some p | Err _ => None end) = Some 14%nat.
Proof. split; vm_compute; reflexivity. Qed.

(** Bob leaves and twelve messages follow: his first page of ten is empty and has no token. *)
Definition left_behind : Hs :=
  serve_run joined ((bob, QLeave "$l" "!g:x" "10" 10) :: ((λ n, (alice, message ("$n" +:+ pretty (Z.of_nat n)) ("u" +:+ pretty (Z.of_nat n)))) <$> seq 0 12)).

Lemma leaver_pages_nothing :
  match get_messages (hs_db left_behind) 2 "!g:x" (Some "b") None None None no_filter with
  | Ok page => mg_chunk page = [] ∧ mg_end page = None
  | Err _ => False
  end ∧ is_ok (get_event_route (hs_db left_behind) 2 "!g:x" "$graph9") = true.
Proof. split; vm_compute; [split|]; reflexivity. Qed.

(** ** A transaction id used twice *)

(** Bob sends to a device and then a message to the room, under the same transaction id. *)
Lemma transaction_ids_collide :
  let '(d, answer, _) := send_to_device (λ _, false) (hs_db joined) false bob "m.t" "t7" {["@a:x" := {["*" := VString "key"]}]} "20" 20 in
  is_ok answer = true ∧ (send_event (mkHs d (hs_dag joined)) "$s" bob "!g:x" "m.room.encrypted" "t7" (body "one") "21" 21).2 = Err internal.
Proof. vm_compute. split; reflexivity. Qed.

End RoomExample.
